(* ===== verification/_CoqProject ===== *)
-Q . S2P
Prelude.v
Text.v
Fsm.v
Envelope.v
Transition.v
Cert.v
Command.v
Tables.v
Db.v
Store.v
Port.v
Backends.v
Project.v
Authority.v
Submit.v
Writes.v
Kernel.v
System.v
Recover.v
Workspace.v
Screen.v
Hub.v
Streams.v
Deliver.v
Attempts.v
Wire.v
Outbound.v
Container.v
Strict.v
Ordered.v
Sweep.v
Chars.v
Scan.v
Skill.v
Truth.v
Compile.v
Verify.v
Explain.v
Facts.v
Blobs.v
Cas.v
Protocol.v
Hello.v
Dispatch.v
Inbound.v
Gate.v
Reserved.v
Replies.v
Serve.v
Paging.v
Verdict.v
Canonical.v
Recording.v
HostScreen.v
HostSession.v
HostControls.v
Theme.v
Forest.v
Board.v
Panels.v
BoardGraph.v
BoardProps.v
Replay.v
World.v
Demo.v
Examples.v
PtyExamples.v
CtxExamples.v
WorldExamples.v
SkillExamples.v
AttemptExamples.v
ConnExamples.v
BlobExamples.v
InboundExamples.v
HostExamples.v
BoardExamples.v
