(* ===== verification/Prelude.v ===== *)
(** * GridWork kernel: a verification library

    GridWork keeps the state of a fleet of coding agents in one kernel: a
    PostgreSQL database with an append-only event log and a set of projection
    tables, written by one process at a time.  Clients submit command envelopes;
    the kernel decides each one under a row lock, appends at most one event and
    projects it in the same transaction.  Beside it a host publishes terminal
    sessions that clients attach to, and the Context engine compiles what an
    agent gets to see into a manifest whose life it records as facts.  This
    library models these parts from their Rust sources (src/crates/gwk-domain,
    gwk-kernel, gwk-cert, gwk-context, gwk-context-compiler,
    gwk-context-verifier, gwk-pty, gwk-pty-host, gwk-theme and parts of gwk-tui)
    and proves what makes them correct.

    ** The program and its parts

    - gwk-domain defines the contract: the state machines (fsm.rs), the
      transition decision (transition.rs), the envelopes (envelope.rs), the
      command set (command.rs, entity.rs, inherited.rs, ingestion.rs), and the
      SQL schema every backend carries, triggers included (contract_sql.rs).
    - gwk-kernel implements it: the event store and writer epoch (store.rs,
      writer.rs), checkpoints (checkpoint.rs), the sealed/active epoch
      (epoch.rs), authority (authority.rs), the command path (submit.rs), the
      applier that writes the tables (project.rs), facts of the Context engine
      (context.rs) and recovery by replay (recover.rs).
    - gwk-cert checks an exported stream of events on its own (check.rs) and
      certifies a store against a conformance suite (conformance.rs).
    - The wire of gwk-kernel frames bytes under a budget (wire/frame.rs) and
      keeps the registry of terminal sessions (wire/pty.rs), whose screens are
      the styled frames of gwk-domain (frame.rs); a connection shakes hands
      (wire/hello.rs), decodes strictly (wire/strict.rs), answers requests,
      delivers PTY commands to hosts and runs up to eight streams to its client
      (wire/serve.rs, wire/subscribe.rs), with receipts of what its sessions do
      (wire/receipts.rs).
    - gwk-pty records what a terminal shows (record.rs, attach.rs); gwk-pty-host
      runs the sessions: it mirrors the engine's screen (wire.rs), broadcasts and
      retains what changed (session.rs), publishes it to the kernel (publish.rs)
      and applies the controls the kernel delivers (kernel_client.rs,
      registry.rs).
    - The blob store keeps large payloads as encrypted containers on disk, their
      wrapped keys, pins and tombstones in rows (blob/store.rs,
      blob/container.rs), and the Context store classifies them
      (blob/context.rs).
    - gwk-context-compiler resolves candidates into a manifest (compile.rs,
      precedence.rs), gwk-context-verifier checks it independently (verify.rs),
      gwk-context answers questions about recorded ones (explain.rs), and the
      kernel records the lifecycle facts of a manifest and projects four of them
      (context.rs, context_event.rs).  Skills enter it as documents whose
      frontmatter gwk-context scans before a YAML parser sees it (skill.rs).
    - gwk-theme gives the console its colours and marks; the Board of gwk-tui
      turns a page of the kernel's rows into panels (board.rs) and replays
      recordings (replay.rs).

    A submission runs: preflight on the envelope and the body, the writer's row
    lock, the epoch gate, the idempotency key, ownership, authority, decision,
    append, projection, delivery registration, checkpoint barrier, commit.  An
    error at any point rolls the transaction back, except a page and a refused
    PTY action, which commit their receipt (and, for a page, an attention item)
    with the refusal.

    ** The files

    - [Prelude]: results and their bind, machine-width integers, lemmas on
      lists, the tactics [inv_ok], [unbool] and the hint databases.
    - [Text]: strings as bytes with the Rust functions the source uses (trim,
      strip_prefix, ends_with, ..), and the decimal text of 64-bit counters
      (numeric.rs, ids.rs).
    - [Fsm]: the [StateMachine] trait as a class; its four instances carry the
      source's states, edges, escape states and wire names (fsm.rs).
    - [Envelope]: event and command envelopes (envelope.rs).
    - [Transition]: cursors, requests, guards and [apply] (transition.rs).
    - [Cert]: [check_stream] of gwk-cert over its own JSON values (check.rs).
    - [Command]: [KernelCommand] with every variant, its type names, decoding
      through an abstract serde, bounds and error codes.
    - [Tables], [Db]: one record per row type; the projections [Proj] and the
      database [Db]; each table is a [Table] with its triggers, CHECKs, unique
      keys and foreign keys, and [sql_insert]/[sql_update] run a statement
      against it in PostgreSQL's order (contract_sql.rs).
    - [Store]: epoch claim, fences, [lock_writer], [append_locked], reads,
      checkpoints (store.rs, writer.rs, checkpoint.rs), and the invariant of the
      log.
    - [Port], [Backends]: the storage port as a class with its laws, the
      conformance suite run against it, the reference store and the kernel's
      store as instances (port.rs, conformance.rs).
    - [Project]: [apply_event], one definition per group of commands, receipts
      and pages (project.rs).
    - [Authority]: risk classes, grants, [evaluate] (authority.rs); genesis,
      activation and the epoch (epoch.rs).
    - [Submit]: [submit], that is [prepare], [submit_tx], [submit_unused] and
      [append_and_project], with [route_of], [decide_command] and every check
      (submit.rs).
    - [Writes]: what an arm of the applier may do to the tables: at most one
      guarded statement, on the row of the event's aggregate, at its version.
    - [Kernel]: every outcome of one submission and what it leaves behind.
    - [System]: the kernel as a step relation (claim, fence, genesis,
      checkpoint, submit, delivery, Context fact), reachability, and the
      invariants and safety theorems over histories; [record_context_fact]
      (context.rs).
    - [Recover]: the paged replay and rebuild (recover.rs) against the live
      tables.
    - [Workspace]: the workspace tree is a forest and the ancestor walk ends.
    - [Screen]: styled cells, runs, frames and their expansion (frame.rs).
    - [Hub], [Streams], [Deliver]: the session registry: every verb of a host, of
      a consumer and of a reverse delivery; the invariant of its sessions; what
      an attached consumer sees; what becomes of a delivery (wire/pty.rs).
    - [Attempts]: the delivery of a committed PTY command: the claim of its row,
      the send through the registry, acknowledgements, abandoned and orphaned
      claims, restarts, as a step relation (wire/serve.rs,
      migrations/0005_pty_delivery.sql).
    - [Wire]: frames over a byte stream and the byte budget of a connection
      (wire/frame.rs).
    - [Outbound]: the outbound half of a connection: admission of streams, the
      task of each, the three queues and the writer, against the storage port
      (wire/serve.rs, wire/subscribe.rs, run_attach and run_raw_attach of
      wire/pty.rs).
    - [Container]: the header and chunks of a container, [seal_with], [open],
      [rewrap] and range reads (blob/container.rs).
    - [Strict], [Protocol], [Hello]: the visitor that refuses repeated keys; the
      protocol's versions, capability names, requests and results; the handshake
      (wire/strict.rs, protocol.rs, wire/hello.rs).
    - [Dispatch], [Inbound]: a request answered as a program of accesses to the
      shared state, receipts and deliveries included; the inbound loop and the
      whole of a connection (wire/serve.rs, wire/receipts.rs).
    - [Gate], [Reserved], [Replies], [Paging]: what every access of a connection
      keeps to, the sweep's keys, the answers against the outbound half, walking
      a projection page by page.
    - [Serve]: the accesses as steps of the database, the delivery attempts, the
      registry and the blob store, with others between any two.
    - [Verdict], [Canonical]: a restart with its verdict (recover.rs); the order
      of keys in a canonical record (checkpoint.rs).
    - [Recording], [HostScreen], [HostSession], [HostControls]: recordings, the
      mirror of a screen, the session task and its publisher, the controls
      (gwk-pty/src/record.rs, attach.rs; gwk-pty-host/src/wire.rs, session.rs,
      publish.rs, kernel_client.rs, registry.rs).
    - [Theme]: colour tiers and paint, marks and the probe, styles, and the escaping
      and wrapping of wire text (gwk-theme/src, gwk-tui/src/theme.rs).
    - [Forest]: lists without repeated ids, grouping and the depth-first walk the
      Board's graphs share; [Board]: its entities, views and faces, the task graph
      and the message flow, the commands it builds; [Panels]: the other panels and
      what the keyboard selects; [BoardGraph], [BoardProps]: their theorems
      (gwk-tui/src/board.rs).
    - [Replay]: the console's reader of recordings (gwk-tui/src/replay.rs).
    - [Ordered]: stable sorting, ordered maps and string order.
    - [Sweep]: one pass of the TTL sweep with other clients between its accesses
      (ttl_sweep.rs).
    - [Chars], [Scan], [Skill]: characters and the string functions on them; the
      scan of a frontmatter, line by line; the manifest and the bundle inventory
      (skill.rs).
    - [Truth]: digests, content classes, participation rows, the bounded record
      types and the four truth records (context_digest.rs, context.rs,
      context_participation.rs, context_truth.rs).
    - [Compile]: [resolve] and [compile] (precedence.rs, compile.rs).
    - [Verify]: [verify_manifest] and [verify] (verify.rs).
    - [Explain]: the bounds of queries and [evaluate] for Explain and Compare
      (explain.rs, wire.rs, stage.rs, store.rs).
    - [Facts]: the ten facts, the Context tables with their CHECKs, routes,
      [precheck], the projector, [record_fact], and the classification of blobs
      (context_event.rs, context.rs, blob/context.rs, contract_sql.rs).
    - [Blobs]: the rows and files of the blob store and [task_step], one
      statement or file access of an operation; [blob_step] interleaves tasks,
      faults, stops and the rest of the database (blob/store.rs,
      migrations/0003_blob.sql).
    - [Cas]: put, get, describe and pins of classified blobs (blob/context.rs).
    - [World]: the kernel's steps together with facts and classifications, and
      the theorems over such histories.
    - [Demo]: a concrete instance of the abstract types, on which the
      definitions run.
    - [Examples], [PtyExamples], [CtxExamples], [WorldExamples],
      [SkillExamples], [AttemptExamples], [ConnExamples], [BlobExamples],
      [InboundExamples], [HostExamples], [BoardExamples]: histories, sessions,
      compilations, a Context lifecycle, documents, deliveries, connections,
      blobs, requests, a host and a board run by computation; the theorems applied to them; the histories
      behind the recorded divergences.

    ** What the theorems show

    - One submission: an error appends nothing and leaves the database as it was,
      but for its receipt and the attention item of a page; an applied answer is a
      replay of stored rows or exactly one event built from the command at the
      next version, and the tables are its projection ([submit_outcomes]); the same
      envelope is answered the same way for ever when the jsonb column keeps its
      payload ([submit_retry_is_stable]), and as a conflict when the column
      rewrites it ([rewritten_retry_conflicts]).
    - The log: append-only, ordered, each aggregate counting from 1, unique
      keys ([log_is_append_only], [append_orders_the_log],
      [append_retry_is_stable]); one project per aggregate; event ids that
      identify aggregate and version; a deposed writer is refused.
    - The life of the kernel: empty, sealed, active, with nothing but the
      activation admitted while sealed ([kernel_lifecycle],
      [sealed_kernel_takes_only_activation]).
    - The tables: row versions count events; rows follow their machine; CHECKs
      and foreign keys hold in every reachable state; one open attention item
      per subject; the workspace is a forest.
    - Authority: a gated command that took effect was granted, at the wall clock
      of its transaction, and receipted;
      running and blocked are exchanged only by the liveness producer with a
      receipt; a page leaves its trail, and when it cannot.
    - Recovery: the replay loop ends and visits the log once, in order; it
      rebuilds the derived tables exactly, and succeeds exactly when the log
      itself raised every attention item it stamps.  A restart's verdict claims
      what was checked, and every checkpoint it passes over has the flaw it is
      listed with ([recovery_claims_what_it_checked]); a clean shutdown is verified.
    - The sweep: it expires only leases that had run out, and marks only attempts
      they backed or that were silent, while they are the rows it read
      ([sweep_acts_on_what_it_read]).
    - The contract crate: the schema's trigger and the Rust edge tables are the
      same relation; [apply] is classified; terminal states are final; every
      machine winds down; a certified stream is ordered, follows its machines
      and claims a clean outcome only when the targets were canceled; counters
      survive decimal text.
    - The storage port: the kernel's store and the reference store satisfy the
      port's laws, pass the suite, and answer any unkeyed traffic alike, refusals
      of malformed batches and stale fences included
      ([kernel_store_matches_reference]).
    - Terminal sessions: grids and canonical frames correspond one to one, the
      strict decoder accepts exactly the well-formed frames; the registry's
      invariant; an attached consumer gets a snapshot or its missing batches,
      without gap or repeat, and its screen converges to the host's; a delivery
      reaches the lifetime it names and is acknowledged at most once.
    - Deliveries: a committed PTY command is sent to a host at most once over any
      history, its answer is in its row before the client has it, and rows only
      settle ([deliveries_are_sent_once], [answers_are_durable],
      [delivery_rows_settle]).
    - The wire: frames round-trip, reading always ends and consumes exactly a
      frame, and the budget bounds the bytes of any window.  What the frames
      written to a client say of a stream is a gapless prefix of its source, a
      closed log subscription reports a cursor to resume at, queues and streams are
      bounded, and a subscription can always catch up with the log.
    - A connection: the handshake settles or refuses with the code of its cause,
      the strict decoder accepts no repeated key, every frame is answered in its
      turn and a stream cut short ends it with an error, the capabilities of the
      hello bound what it can reach, pages of a projection list every row, and all
      that it does are steps of the parts proved correct on their own.  A start
      request can take a key of the sweep, and the sweep then passes its lease over
      ([a_taken_key_blocks_the_sweep]).
    - The host: the deltas of a frame carry the screen, the registry accepts them
      when no glyph is too long and then holds the host's screen, a consumer that
      comes back is made current, a control the session confirmed in time is not
      applied again (one it did not confirm is, on redelivery) and an input is
      acknowledged as what it was; a recording survives its encoding and catches a
      client up.
    - Blobs: a sealed container opens to what went in, also after a rewrap, ranges
      read as ranges, and nothing cut opens; a shredded blob stays shredded and a
      pinned one stays; without a race on one digest every live blob reads back,
      and with a race of two commits it need not
      ([racing_commits_lose_the_blob]); classified bytes put are got back.
    - Skills: what the scan accepts has the keys it reports, none of them a
      boolean word, a separated number or a date of YAML 1.1, no indicator passes
      where a value begins, indentation depth does not matter, a manifest says
      what its document says.
    - The Context compiler: every candidate gets its fate by precedence and
      budget, tools only narrow, the outcome does not depend on the order of
      candidates, refusals name what is wrong; the independent verifier accepts
      what the compiler emits, and accepts nothing unsound; answers under the
      conformance scope do not depend on private rows.
    - Context histories: the truth tables are consistent, a fact lands as exactly
      its row, finalizations are certified on the standing acceptance of the
      verifier, a replay rebuilds the tables, and the kernel's histories are
      unchanged by all of it ([context_keeps_kernel_histories]).

    - The console: no two states share a glyph; wire text on a screen is escaped
      and cut at the cells there are ([wire_text_fits_its_cells]); the graphs draw
      a page of any shape, each row once, and say what a cycle left out
      ([graphs_draw_the_page_once]); the keyboard selects what the page holds
      ([keyboard_stays_on_the_page]); the cost panel adds up
      ([cost_panel_adds_up]); the replay accepts exactly the recordings of
      [Recording] whose time runs forward ([console_replays_recordings]).

    ** Modelling decisions

    - Integers are [Z] with the bounds of their Rust type or column checked
      where the source checks them: [checked_add] at u32 and u64, the numeric
      and bigint CHECKs, casts that fail.
    - Transactions are functions from database to database: the writer's row is
      locked first, so submissions are serial, and an error leaves the database
      as it was.  The wall clock and transaction time of a submission are
      arguments ([TxClock]).
    - Text casts to timestamptz, serde and HMAC are classes ([Timestamptz],
      [Serde], [Hmac]); their laws ([TimestamptzLaws], [SerdeLaws]) state that a
      printed instant parses back and that a command's JSON decodes to the
      command.  [Demo] gives instances of all of them.
    - A payload that is stored goes through its jsonb column: [jsonb] of [Serde]
      is what the column gives back, where a float may return as an integer.
      [SerdeLaws] states that it keeps strings, booleans and 64-bit integers, so
      that only the two commands that carry free JSON can change
      ([stored_command]).
    - In the files before [Facts] the Context projector is an argument
      ([apply_context_event]).  Theorems about the tables assume that it keeps to
      its own tables ([context_frame]), replay also that it reads no attention
      item ([context_blind]); [World] shows that histories with the projector of
      [Facts] are histories under one that has both properties.
    - The ciphers and SHA-256 of containers are the class [Aead].  Its laws state
      that sealing is undone and adds a tag, and the authenticity of the tag as an
      ideal: what was sealed opens as itself or not at all, and a chunk only at
      its place in the stream.  The YAML and JSON parsers of skills are the class
      [SkillSerde].
    - A task of the blob store sees other tasks between any two of its accesses;
      one statement, one file read and one rename are atomic, a failing write may
      leave part of its bytes.  In [Cas] the calls of one operation on the store
      run one after the other.
    - Each frame of [Outbound] carries, beside the control that is sent, the part
      of the stream it stands for; only the invariant of the proofs reads it: the
      theorems read the controls.  A broadcast
      receiver is the list of what it has not yet yielded.
    - JSON sizes of frames, the JSON and SHA-256 of a manifest, the JSON of a fact
      and the connection's clock are classes ([PtyJson], [ManifestHash],
      [ContextSerde], [Clock]) with the laws the code relies on; the example
      files give instances.
    - Ids, digests, counts and lists of the Context types are validated when they
      are constructed; [fact_typed] states it of a fact, and [World] shows that
      typed facts never meet a CHECK of the schema.
    - Answering a request is a program ([prog]) whose accesses ([Act]) are atomic
      in the code; [Serve] gives each its effect and lets others run between any
      two.  Theorems about every access hold for all answers.  A call on the blob
      store runs to its end there.  The JSON reader, base64, the JSON of page items
      and of records are classes ([JsonReader], [Base64], [PageJson], [Records]).
    - The host's child, terminal engine and clock are what a turn is told
      ([World] of [HostSession]); a broadcast is the list of all that was sent,
      a subscription a place in it.  [engine_frame] states what the engine's types
      and viewport give of a frame.
    - The session registry is one state machine: every verb runs under its lock,
      so a history is a sequence of verbs.
    - Refusals keep their code and detail; the prose of messages is left out.

    ** Fuel

    - The ancestor walk takes one step more than there are rows;
      [workspace_is_a_forest] shows that the walk then is the whole path.
    - The replay loop takes one page more than there are events;
      [replay_pages_are_the_log] shows that it never runs out.
    - Splitting a row into runs takes as many steps as the row has cells; charging
      a budget takes two turns; reading a sequence of frames takes one turn more
      than there are frames.  Each bound is proved to be enough where it is used.
    - Reading the frames of a container takes at most its length in turns; the
      loop of [get] takes a turn per byte at most; a call of [Cas] takes sixteen
      accesses and one for each upload that expired.  [sealed_blobs_open] and
      [put_then_get] show results, so that these are enough.
    - The inbound loop takes one turn more than there are bytes
      ([requests_are_answered_in_turn] shows that it ends by itself); reading a
      checkpoint's records takes a turn per byte ([recovery_claims_what_it_checked]
      shows a verdict); decoding a recording takes a turn per byte
      ([recordings_survive_encoding] shows a result).
    - Printing a code point in hexadecimal takes at most eight digits, those of a
      u32.
    - The walk of the Board takes a turn per root and per child of the page
      ([graphs_draw_the_page_once] shows rows); the console's decoder a turn per
      byte ([console_replays_recordings] shows a result).
    - Every other recursion is structural.

    ** Not modelled

    I/O failures outside the blob store, NUL bytes in bound text, pg_notify, the
    advisory lock of [WriterLock], admin.rs, config.rs and migrate.rs (provisioning
    and environment), the accept loop of the server with its permits and drain
    (listen.rs, [run] of serve.rs), the terminal engine behind its FFI, process
    supervision, the host's own threads, starts from templates and origination of
    commands, the painter and detail pane of the Board, the other lenses of the user
    interfaces (gwk-tui, gridwork), the adapters and the CLI:
    I/O, rendering and glue around the parts that are modelled.  [System] keeps
    delivery rows as an arbitrary update and [Store] the blob store as an outcome,
    so that their theorems hold whatever [Attempts] and [Blobs] do.  The graph
    queries of the Context wire grammar are left out. *)

From stdpp Require Export base list gmap strings fin_maps.
From Stdlib Require Export ZArith Lia.

(** ** Fallible computations *)

(** Rust's [Result<A, E>]. *)
Inductive result (E A : Type) : Type :=
| Ok (a : A)
| Err (e : E).
Arguments Ok {E A} a.
Arguments Err {E A} e.

#[export] Instance result_ret {E} : MRet (result E) := fun A a => Ok a.
#[export] Instance result_bind {E} : MBind (result E) :=
  fun A B f m => match m with Ok a => f a | Err e => Err e end.

#[export] Instance result_eq_dec {E A} `{EqDecision E, EqDecision A} :
  EqDecision (result E A).
Proof. solve_decision. Defined.

Section ResultOps.
Context {E : Type}.

(** The early return [if !b { return Err(e) }]. *)
Definition ensure (b : bool) (e : E) : result E unit := if b then Ok tt else Err e.

(** [Option::ok_or]. *)
Definition ok_or {A} (o : option A) (e : E) : result E A :=
  match o with Some a => Ok a | None => Err e end.

(** [Option::is_some] and [Result::is_ok]. *)
Definition is_some {A} (o : option A) : bool := match o with Some _ => true | None => false end.
Definition is_ok {A} (r : result E A) : bool := match r with Ok _ => true | Err _ => false end.

(** [Result::map_err]. *)
Definition map_err {F A} (f : E -> F) (m : result E A) : result F A :=
  match m with Ok a => Ok a | Err e => Err (f e) end.

(** A left-to-right loop that stops at the first error. *)
Fixpoint fold_res {S X} (f : S -> X -> result E S) (s : S) (l : list X) : result E S :=
  match l with
  | [] => Ok s
  | x :: l => s' ← f s x; fold_res f s' l
  end.
End ResultOps.

Lemma bind_ok_iff {E A B} (m : result E A) (f : A -> result E B) b :
  (m ≫= f) = Ok b <-> exists a, m = Ok a /\ f a = Ok b.
Proof.
  destruct m as [a|e]; simpl; split.
  - intros H. exists a. by split.
  - intros (a' & [= ->] & H). done.
  - done.
  - by intros (? & ? & ?).
Qed.

Lemma bind_err_iff {E A B} (m : result E A) (f : A -> result E B) e :
  (m ≫= f) = Err e <-> m = Err e \/ exists a, m = Ok a /\ f a = Err e.
Proof. destruct m as [a|e']; simpl; naive_solver. Qed.

Lemma ensure_ok_iff {E} b (e : E) : ensure b e = Ok tt <-> b = true.
Proof. by destruct b. Qed.

Lemma ok_or_ok_iff {E A} (o : option A) (e : E) a : ok_or o e = Ok a <-> o = Some a.
Proof. destruct o; simpl; naive_solver. Qed.

Lemma fold_res_app {E S X} (f : S -> X -> result E S) s l1 l2 :
  fold_res f s (l1 ++ l2) = s' ← fold_res f s l1; fold_res f s' l2.
Proof.
  revert s. induction l1 as [|x l1 IH]; intros s; [done|].
  simpl. destruct (f s x) as [s'|e]; simpl; [apply IH|done].
Qed.

(** An invariant of every step is an invariant of the loop. *)
Lemma fold_res_ind {E S X} (P : S -> Prop) (f : S -> X -> result E S) l s s' :
  (forall s x s', x ∈ l -> P s -> f s x = Ok s' -> P s') ->
  P s -> fold_res f s l = Ok s' -> P s'.
Proof.
  revert s. induction l as [|x l IH]; intros s Hstep Hs; simpl.
  - by intros [= <-].
  - intros (s1 & H1 & H2)%bind_ok_iff. eapply IH; [|..|exact H2].
    + intros. eapply Hstep; [right; eauto|..]; eauto.
    + eapply Hstep; [left| |]; eauto.
Qed.

(** A loop that fails does so at one element, after an ordinary run. *)
Lemma fold_res_err {E S X} (f : S -> X -> result E S) l s e :
  fold_res f s l = Err e ->
  exists pre x post s', l = pre ++ x :: post /\ fold_res f s pre = Ok s' /\ f s' x = Err e.
Proof.
  revert s. induction l as [|x l IH]; intros s; simpl; [done|].
  destruct (f s x) as [s1|e1] eqn:Ef; simpl.
  - intros (pre & y & post & s' & -> & Hr & Hy)%IH. exists (x :: pre), y, post, s'. simpl. by rewrite Ef.
  - intros [= ->]. by exists [], x, l, s.
Qed.

(** A filter that keeps everything, or nothing. *)
Lemma filter_all {A} (f : A -> bool) l : (forall x, x ∈ l -> f x = true) -> List.filter f l = l.
Proof.
  induction l as [|x l IH]; intros Hf; [done|]. simpl. rewrite Hf by left. f_equal. apply IH. set_solver.
Qed.
Lemma filter_nothing {A} (f : A -> bool) l : (forall x, x ∈ l -> f x = false) -> List.filter f l = [].
Proof.
  induction l as [|x l IH]; intros Hf; [done|]. simpl. rewrite Hf by left. apply IH. set_solver.
Qed.

(** ** Machine integers *)

Definition u16_max : Z := 65535.
Definition u32_max : Z := 4294967295.
Definition u64_max : Z := 18446744073709551615.

Definition is_u16 (n : Z) : Prop := (0 <= n <= u16_max)%Z.
Definition is_u32 (n : Z) : Prop := (0 <= n <= u32_max)%Z.
Definition is_u64 (n : Z) : Prop := (0 <= n <= u64_max)%Z.

(** [u32::checked_add] and [u64::checked_add]. *)
Definition checked_add (max a b : Z) : option Z :=
  if (a + b <=? max)%Z then Some (a + b)%Z else None.

(** [u64::saturating_sub]. *)
Definition saturating_sub (a b : Z) : Z := Z.max 0 (a - b).

Lemma checked_add_some max a b c :
  checked_add max a b = Some c <-> c = (a + b)%Z /\ (a + b <= max)%Z.
Proof. unfold checked_add. destruct (Z.leb_spec (a + b) max); naive_solver lia. Qed.

Lemma checked_add_none max a b :
  checked_add max a b = None <-> (max < a + b)%Z.
Proof. unfold checked_add. destruct (Z.leb_spec (a + b) max); naive_solver lia. Qed.

(** ** Automation *)

Create HintDb gwk discriminated.
#[export] Hint Constants Opaque : gwk.
#[export] Hint Variables Opaque : gwk.

(** Invert the successful run of a chain of binds and guards. *)
Ltac inv_ok :=
  repeat match goal with
  | H : (_ ≫= _) = Ok _ |- _ =>
      let x := fresh "r" in let H1 := fresh "Hrun" in
      apply bind_ok_iff in H as (x & H1 & H)
  | H : (let '(_, _) := ?x in _) = Ok _ |- _ =>
      is_var x; let a := fresh "a" in let b := fresh "b" in destruct x as [a b]
  | H : mret _ = Ok _ |- _ => injection H as H
  | H : Ok _ = Ok _ |- _ => injection H as H
  | H : Err _ = Ok _ |- _ => discriminate H
  | H : ensure _ _ = Ok ?x |- _ =>
      destruct x; apply ensure_ok_iff in H
  | H : ok_or _ _ = Ok _ |- _ => apply ok_or_ok_iff in H
  end; subst.

(** Turn boolean tests in the context into propositions. *)
Ltac unbool :=
  repeat match goal with
  | H : (_ && _) = true |- _ => apply andb_true_iff in H as [? ?]
  | H : (_ || _) = false |- _ => apply orb_false_iff in H as [? ?]
  | H : negb _ = true |- _ => apply negb_true_iff in H
  | H : negb _ = false |- _ => apply negb_false_iff in H
  | H : bool_decide _ = true |- _ => apply bool_decide_eq_true in H
  | H : bool_decide _ = false |- _ => apply bool_decide_eq_false in H
  | H : (_ =? _)%Z = true |- _ => apply Z.eqb_eq in H
  | H : (_ =? _)%Z = false |- _ => apply Z.eqb_neq in H
  | H : (_ <=? _)%Z = true |- _ => apply Z.leb_le in H
  | H : (_ <=? _)%Z = false |- _ => apply Z.leb_gt in H
  | H : (_ <? _)%Z = true |- _ => apply Z.ltb_lt in H
  | H : (_ <? _)%Z = false |- _ => apply Z.ltb_ge in H
  end.

(** Destruct the innermost [match] scrutinee of the goal or a hypothesis. *)
Ltac break_match :=
  match goal with
  | H : context [match ?x with _ => _ end] |- _ =>
      lazymatch x with context [match _ with _ => _ end] => fail | _ => destruct x eqn:? end
  | |- context [match ?x with _ => _ end] =>
      lazymatch x with context [match _ with _ => _ end] => fail | _ => destruct x eqn:? end
  end.

(** ** Lists *)

Section Lists.
Context {A : Type}.

(** [f] is strictly increasing along the list. *)
Fixpoint increasing_from (f : A -> Z) (lo : Z) (l : list A) : Prop :=
  match l with
  | [] => True
  | x :: l => (lo < f x)%Z /\ increasing_from f (f x) l
  end.

(** The greatest value of [f], [d] on the empty list: SQL's [coalesce(max(f), d)]
    for values that are at least [d]. *)
Fixpoint max_of (f : A -> Z) (d : Z) (l : list A) : Z :=
  match l with
  | [] => d
  | x :: l => Z.max (f x) (max_of f d l)
  end.

Lemma increasing_weaken f lo lo' l :
  (lo' <= lo)%Z -> increasing_from f lo l -> increasing_from f lo' l.
Proof. destruct l; simpl; [done|]. intros ? [? ?]. split; [lia|done]. Qed.

Lemma increasing_lower f lo l x :
  increasing_from f lo l -> x ∈ l -> (lo < f x)%Z.
Proof.
  revert lo. induction l as [|y l IH]; intros lo; simpl; [set_solver|].
  intros [Hy Hl] [->|Hx]%elem_of_cons; [done|].
  specialize (IH _ Hl Hx). lia.
Qed.

Lemma max_of_base f d e l : max_of f (Z.max d e) l = Z.max e (max_of f d l).
Proof. induction l as [|x l IH]; simpl; lia. Qed.

Lemma increasing_app f lo l1 l2 :
  increasing_from f lo (l1 ++ l2) <->
  increasing_from f lo l1 /\ increasing_from f (max_of f lo l1) l2.
Proof.
  revert lo. induction l1 as [|x l1 IH]; intros lo; simpl; [tauto|].
  rewrite IH, <-max_of_base. split.
  - intros (? & H1 & H2). by rewrite Z.max_r by lia.
  - intros ([? H1] & H2). by rewrite Z.max_r in H2 by lia.
Qed.

Lemma max_of_ge f d l : (d <= max_of f d l)%Z.
Proof. induction l; simpl; lia. Qed.

Lemma max_of_in f d l x : x ∈ l -> (f x <= max_of f d l)%Z.
Proof.
  induction l as [|y l IH]; [set_solver|].
  intros [->|H]%elem_of_cons; simpl; [lia|]. specialize (IH H). lia.
Qed.

Lemma max_of_app f d l1 l2 : max_of f d (l1 ++ l2) = Z.max (max_of f d l1) (max_of f d l2).
Proof.
  induction l1 as [|x l1 IH]; simpl.
  - pose proof (max_of_ge f d l2). lia.
  - lia.
Qed.

Lemma max_of_upper f d l b : (d <= b)%Z -> (forall x, x ∈ l -> (f x <= b)%Z) -> (max_of f d l <= b)%Z.
Proof.
  intros Hd. induction l as [|x l IH]; intros Hl; simpl; [done|].
  assert (f x <= b)%Z by (apply Hl; left). specialize (IH ltac:(intros; apply Hl; by right)). lia.
Qed.

Lemma filter_none (P : A -> Prop) {dec : forall x, Decision (P x)} l :
  filter P l = [] <-> forall x, x ∈ l -> ~ P x.
Proof.
  split.
  - intros Hn x Hx HP. assert (x ∈ filter P l) as Hf by (by apply list_elem_of_filter).
    rewrite Hn in Hf. by apply not_elem_of_nil in Hf.
  - intros Hn. destruct (filter P l) as [|x l'] eqn:Hf; [done|].
    assert (x ∈ filter P l) as Hx by (rewrite Hf; left).
    apply list_elem_of_filter in Hx as [HP Hx]. by destruct (Hn x Hx).
Qed.
End Lists.

(** Pairwise relations along a list. *)
Section OrdPairs.
Context {A : Type} (R : A -> A -> Prop).

Lemma ord_pairs_app l1 l2 :
  ForallOrdPairs R (l1 ++ l2) <->
  ForallOrdPairs R l1 /\ ForallOrdPairs R l2 /\ forall x y, x ∈ l1 -> y ∈ l2 -> R x y.
Proof.
  induction l1 as [|a l1 IH]; simpl.
  - split; [intros H; split; [constructor|]; split; [done|set_solver]|tauto].
  - split.
    + inversion 1 as [|? ? Ha Hl]; subst. apply IH in Hl as (H1 & H2 & H3).
      rewrite List.Forall_forall in Ha. split; [|split; [done|]].
      * constructor; [|done]. apply List.Forall_forall. intros y Hy. apply Ha, in_or_app. by left.
      * intros x y [->|Hx]%elem_of_cons Hy; [|by apply H3].
        apply Ha, in_or_app. right. by apply list_elem_of_In.
    + intros (H1 & H2 & H3). inversion H1 as [|? ? Ha Hl]; subst. constructor.
      * apply List.Forall_forall. intros y [Hy|Hy]%in_app_or.
        -- rewrite List.Forall_forall in Ha. by apply Ha.
        -- apply H3; [left|by apply list_elem_of_In].
      * apply IH. split; [done|]. split; [done|]. intros x y Hx. apply H3. by right.
Qed.

Lemma ord_pairs_snoc l x : ForallOrdPairs R (l ++ [x]) <-> ForallOrdPairs R l /\ Forall (fun y => R y x) l.
Proof.
  rewrite ord_pairs_app, Forall_forall. split.
  - intros (? & _ & H). split; [done|]. intros y Hy. apply H; set_solver.
  - intros [? H]. split; [done|]. split; [repeat constructor|]. set_solver.
Qed.
End OrdPairs.
