(* ===== verification/Text.v ===== *)
(** * Rust strings and decimal counters

    Strings are UTF-8 byte strings ([String.string]).  This file holds the
    [str] operations the sources use (with the Unicode white space [str::trim]
    strips), the canonical decimal text of 64-bit counters
    (gwk-domain/src/ids.rs) and the exact crossing between a counter and
    PostgreSQL's [numeric(20,0)] text (gwk-kernel/src/numeric.rs). *)

From S2P Require Import Prelude.
From Stdlib Require Import DecimalString DecimalN DecimalPos DecimalFacts.
From Stdlib Require Decimal.

(** ** [str] operations *)

Module Str.

Fixpoint rev_app (s acc : string) : string :=
  match s with
  | EmptyString => acc
  | String c s => rev_app s (String c acc)
  end.

Definition reverse (s : string) : string := rev_app s EmptyString.

(** [str::is_empty]. *)
Definition is_empty (s : string) : bool :=
  match s with EmptyString => true | _ => false end.

(** [str::len]: bytes. *)
Definition len (s : string) : Z := Z.of_nat (String.length s).

(** [str::strip_prefix]. *)
Fixpoint strip_prefix (p s : string) : option string :=
  match p, s with
  | EmptyString, _ => Some s
  | String a p, String b s => if Ascii.eqb a b then strip_prefix p s else None
  | String _ _, EmptyString => None
  end.

Definition starts_with (p s : string) : bool :=
  match strip_prefix p s with Some _ => true | None => false end.

(** [str::ends_with]. *)
Definition ends_with (s suffix : string) : bool :=
  starts_with (reverse suffix) (reverse s).

(** Every byte satisfies [f]: [bytes().all(f)]. *)
Fixpoint all_bytes (f : Ascii.ascii -> bool) (s : string) : bool :=
  match s with
  | EmptyString => true
  | String c s => f c && all_bytes f s
  end.

(** [contains] for a single ASCII byte. *)
Fixpoint contains_byte (c : Ascii.ascii) (s : string) : bool :=
  match s with
  | EmptyString => false
  | String d s => Ascii.eqb c d || contains_byte c s
  end.

Definition colon : Ascii.ascii := Ascii.ascii_of_N 58.
Definition equals_sign : Ascii.ascii := Ascii.ascii_of_N 61.
Definition nul : Ascii.ascii := Ascii.ascii_of_N 0.

Definition code (c : Ascii.ascii) : Z := Z.of_N (Ascii.N_of_ascii c).

Definition in_range (lo hi : Z) (c : Ascii.ascii) : bool :=
  ((lo <=? code c) && (code c <=? hi))%Z.

(** [u8::is_ascii_digit], [is_ascii_alphabetic], [is_ascii_alphanumeric]. *)
Definition is_ascii_digit : Ascii.ascii -> bool := in_range 48 57.
Definition is_ascii_upper : Ascii.ascii -> bool := in_range 65 90.
Definition is_ascii_lower : Ascii.ascii -> bool := in_range 97 122.
Definition is_ascii_alphabetic (c : Ascii.ascii) : bool := is_ascii_upper c || is_ascii_lower c.
Definition is_ascii_alphanumeric (c : Ascii.ascii) : bool :=
  is_ascii_alphabetic c || is_ascii_digit c.

(** [str::to_ascii_lowercase]. *)
Fixpoint to_ascii_lowercase (s : string) : string :=
  match s with
  | EmptyString => EmptyString
  | String c s =>
      String (if is_ascii_upper c then Ascii.ascii_of_N (Ascii.N_of_ascii c + 32) else c)
             (to_ascii_lowercase s)
  end.

(** The UTF-8 encodings of the characters with Unicode property White_Space,
    which is the set [str::trim] strips. *)
Definition ws1 (a : Z) : bool := ((9 <=? a) && (a <=? 13) || (a =? 32))%Z.
Definition ws2 (a b : Z) : bool := ((a =? 194) && ((b =? 133) || (b =? 160)))%Z.
Definition ws3 (a b c : Z) : bool :=
  ((a =? 225) && (b =? 154) && (c =? 128)
   || (a =? 226) && (b =? 128) &&
        ((128 <=? c) && (c <=? 138) || (c =? 168) || (c =? 169) || (c =? 175))
   || (a =? 226) && (b =? 129) && (c =? 159)
   || (a =? 227) && (b =? 128) && (c =? 128))%Z.

Fixpoint trim_start (s : string) : string :=
  match s with
  | String a s1 =>
      if ws1 (code a) then trim_start s1
      else match s1 with
      | String b s2 =>
          if ws2 (code a) (code b) then trim_start s2
          else match s2 with
          | String c s3 => if ws3 (code a) (code b) (code c) then trim_start s3 else s
          | EmptyString => s
          end
      | EmptyString => s
      end
  | EmptyString => s
  end.

(** The same scan on the reversed byte string: the last byte comes first. *)
Fixpoint trim_start_rev (s : string) : string :=
  match s with
  | String a s1 =>
      if ws1 (code a) then trim_start_rev s1
      else match s1 with
      | String b s2 =>
          if ws2 (code b) (code a) then trim_start_rev s2
          else match s2 with
          | String c s3 => if ws3 (code c) (code b) (code a) then trim_start_rev s3 else s
          | EmptyString => s
          end
      | EmptyString => s
      end
  | EmptyString => s
  end.

(** [str::trim]. *)
Definition trim (s : string) : string := reverse (trim_start_rev (reverse (trim_start s))).

Lemma app_assoc s t u : s +:+ (t +:+ u) = (s +:+ t) +:+ u.
Proof. induction s as [|c s IH]; [done|]. exact (f_equal (String c) IH). Qed.

Lemma app_nil_r s : s +:+ "" = s.
Proof. induction s as [|c s IH]; [done|]. exact (f_equal (String c) IH). Qed.

Lemma rev_app_assoc s acc : rev_app s acc = reverse s +:+ acc.
Proof.
  unfold reverse. revert acc. induction s as [|c s IH]; intros acc; [done|].
  simpl. rewrite (IH (String c acc)), (IH (String c "")), <-app_assoc. done.
Qed.

Lemma reverse_app s t : reverse (s +:+ t) = reverse t +:+ reverse s.
Proof.
  induction s as [|c s IH]; simpl.
  - unfold reverse at 3. simpl. by rewrite app_nil_r.
  - unfold reverse at 1 3. simpl. rewrite !rev_app_assoc, IH, app_assoc. done.
Qed.

Lemma reverse_involutive s : reverse (reverse s) = s.
Proof.
  induction s as [|c s IH]; [done|].
  unfold reverse at 2. simpl. rewrite rev_app_assoc, reverse_app, IH. done.
Qed.

Lemma strip_prefix_spec p s t : strip_prefix p s = Some t <-> s = p +:+ t.
Proof.
  revert s. induction p as [|a p IH]; intros s; simpl.
  { split; [by intros [= ->]|by intros ->]. }
  destruct s as [|b s]; [done|].
  destruct (Ascii.eqb_spec a b) as [->|Hne].
  - rewrite IH. split; [by intros ->|by intros [= ->]].
  - split; [done|]. intros [= ? ?]. congruence.
Qed.

Lemma ends_with_spec s suffix : ends_with s suffix = true <-> exists t, s = t +:+ suffix.
Proof.
  unfold ends_with, starts_with. split.
  - destruct (strip_prefix _ _) as [t|] eqn:E; [|done]. intros _.
    apply strip_prefix_spec in E. exists (reverse t).
    rewrite <-(reverse_involutive s), E, reverse_app, !reverse_involutive. done.
  - intros [t ->]. rewrite reverse_app.
    by rewrite (proj2 (strip_prefix_spec (reverse suffix) _ (reverse t))).
Qed.

(** A text with one separator splits one way when the head, or the tail, has
    none. *)
Lemma split_first c a b x y :
  contains_byte c a = false -> contains_byte c b = false ->
  a +:+ String c x = b +:+ String c y -> a = b /\ x = y.
Proof.
  revert b. induction a as [|u a IH]; intros [|w b] Ha Hb Heq; simpl in *.
  - by injection Heq.
  - injection Heq as -> _. by rewrite Ascii.eqb_refl in Hb.
  - injection Heq as -> _. by rewrite Ascii.eqb_refl in Ha.
  - injection Heq as -> Heq. apply orb_false_iff in Ha as [_ Ha], Hb as [_ Hb].
    by destruct (IH b Ha Hb Heq) as [-> ->].
Qed.

Lemma contains_byte_app c s t : contains_byte c (s +:+ t) = contains_byte c s || contains_byte c t.
Proof.
  induction s as [|d s IH]; [done|]. change (String d s +:+ t) with (String d (s +:+ t)).
  simpl. by rewrite IH, orb_assoc.
Qed.

Lemma contains_byte_reverse c s : contains_byte c (reverse s) = contains_byte c s.
Proof.
  induction s as [|d s IH]; [done|]. unfold reverse. simpl. rewrite rev_app_assoc, contains_byte_app, IH.
  simpl. rewrite orb_false_r. apply orb_comm.
Qed.

Lemma split_last c a b x y :
  contains_byte c x = false -> contains_byte c y = false ->
  a +:+ String c x = b +:+ String c y -> a = b /\ x = y.
Proof.
  intros Hx Hy Heq. apply (f_equal reverse) in Heq. rewrite !reverse_app in Heq.
  assert (forall t, reverse (String c t) = reverse t +:+ String c "") as Hrev.
  { intros t. unfold reverse at 1. simpl. by rewrite rev_app_assoc. }
  rewrite !Hrev, <-!app_assoc in Heq.
  apply split_first in Heq as [H1 H2]; [|by rewrite contains_byte_reverse..].
  split.
  - by rewrite <-(reverse_involutive a), H2, reverse_involutive.
  - by rewrite <-(reverse_involutive x), H1, reverse_involutive.
Qed.

Lemma digits_no_byte c s :
  is_ascii_digit c = false -> all_bytes is_ascii_digit s = true -> contains_byte c s = false.
Proof.
  intros Hc. induction s as [|d s IH]; simpl; [done|]. intros [Hd Hs]%andb_true_iff.
  rewrite (IH Hs). destruct (Ascii.eqb_spec c d) as [->|]; [congruence|done].
Qed.

End Str.

(** ** Counters as decimal text *)

Module Numeric.

Inductive NumericError := NumEmpty | NumNotDigits | NumOutOfRange.

(** [value.to_string()] of an unsigned counter. *)
Definition to_numeric_text (value : Z) : string :=
  NilZero.string_of_uint (N.to_uint (Z.to_N value)).

(** [from_numeric_text]: bare ASCII digits, in the u64 range. *)
Definition from_numeric_text (raw : string) : result NumericError Z :=
  if Str.is_empty raw then Err NumEmpty
  else if negb (Str.all_bytes Str.is_ascii_digit raw) then Err NumNotDigits
  else match NilZero.uint_of_string raw with
       | Some d =>
           let n := Z.of_N (N.of_uint d) in
           if (n <=? u64_max)%Z then Ok n else Err NumOutOfRange
       | None => Err NumOutOfRange
       end.

(** [Deserialize] of a [u64_decimal_string!] counter: the canonical form only. *)
Definition deserialize_counter (raw : string) : result NumericError Z :=
  if negb (negb (Str.is_empty raw)
           && (Str.len raw <=? 20)%Z
           && Str.all_bytes Str.is_ascii_digit raw
           && ((Str.len raw =? 1)%Z || negb (Str.starts_with "0" raw)))
  then Err NumNotDigits
  else from_numeric_text raw.

Lemma string_of_uint_digits d : Str.all_bytes Str.is_ascii_digit (NilEmpty.string_of_uint d) = true.
Proof. induction d; simpl; rewrite ?IHd; done. Qed.

Lemma to_uint_nonnil n : N.to_uint n <> Decimal.Nil.
Proof. destruct n as [|p]; [done|]. apply DecimalPos.Unsigned.to_uint_nonnil. Qed.

Lemma to_numeric_text_empty n :
  to_numeric_text n = NilEmpty.string_of_uint (N.to_uint (Z.to_N n)).
Proof.
  unfold to_numeric_text, NilZero.string_of_uint.
  pose proof (to_uint_nonnil (Z.to_N n)). by destruct (N.to_uint _).
Qed.

Lemma to_numeric_text_digits n : Str.all_bytes Str.is_ascii_digit (to_numeric_text n) = true.
Proof. rewrite to_numeric_text_empty. apply string_of_uint_digits. Qed.

Lemma to_numeric_text_nonempty n : Str.is_empty (to_numeric_text n) = false.
Proof.
  rewrite to_numeric_text_empty. pose proof (to_uint_nonnil (Z.to_N n)).
  by destruct (N.to_uint _).
Qed.

Lemma from_to_numeric_text n : is_u64 n -> from_numeric_text (to_numeric_text n) = Ok n.
Proof.
  intros [Hlo Hhi]. unfold from_numeric_text.
  rewrite to_numeric_text_nonempty, to_numeric_text_digits. simpl.
  unfold to_numeric_text at 1.
  rewrite NilZero.usu by apply to_uint_nonnil.
  rewrite DecimalN.Unsigned.of_to, Z2N.id by lia.
  by rewrite (proj2 (Z.leb_le _ _) Hhi).
Qed.

Lemma to_numeric_text_inj n m :
  (0 <= n)%Z -> (0 <= m)%Z -> to_numeric_text n = to_numeric_text m -> n = m.
Proof.
  unfold to_numeric_text. intros Hn Hm H.
  assert (Some (N.to_uint (Z.to_N n)) = Some (N.to_uint (Z.to_N m))) as [= H'].
  { rewrite <-!NilZero.usu by apply to_uint_nonnil. by f_equal. }
  apply (f_equal N.of_uint) in H'. rewrite !DecimalN.Unsigned.of_to in H'. lia.
Qed.

Lemma from_numeric_text_range s n : from_numeric_text s = Ok n -> is_u64 n.
Proof.
  unfold from_numeric_text, is_u64.
  destruct (Str.is_empty s), (Str.all_bytes Str.is_ascii_digit s), (NilZero.uint_of_string s) as [d|];
    simpl; try done.
  destruct (Z.leb_spec (Z.of_N (N.of_uint d)) u64_max) as [Hd|Hd]; [|done].
  intros [= <-]. split; [apply N2Z.is_nonneg|done].
Qed.

(** *** The canonical form *)

Lemma string_of_uint_len d : Str.len (NilEmpty.string_of_uint d) = Z.of_nat (Decimal.nb_digits d).
Proof. unfold Str.len. f_equal. induction d; simpl; congruence. Qed.

Lemma of_uint_acc_ge d acc :
  (Z.pos acc * 10 ^ Z.of_nat (Decimal.nb_digits d) <= Z.pos (Pos.of_uint_acc d acc))%Z.
Proof.
  revert acc. induction d as [|d IH|d IH|d IH|d IH|d IH|d IH|d IH|d IH|d IH|d IH]; intros acc;
    cbn [Decimal.nb_digits Pos.of_uint_acc]; [lia|..];
    rewrite Nat2Z.inj_succ, Z.pow_succ_r by lia;
    (eapply Z.le_trans; [|apply IH]);
    pose proof (Z.pow_nonneg 10 (Z.of_nat (Decimal.nb_digits d)) ltac:(lia)); nia.
Qed.

(** A numeral that does not start with 0 is at least ten to its other digits. *)
Lemma of_uint_ge d n :
  (forall d', d <> Decimal.D0 d') -> Decimal.nb_digits d = S n ->
  (10 ^ Z.of_nat n <= Z.of_N (N.of_uint d))%Z.
Proof.
  intros H0 Hn. unfold N.of_uint.
  destruct d as [|d|d|d|d|d|d|d|d|d|d]; [done|by destruct (H0 d)|..];
    injection Hn as <-; cbn [Pos.of_uint Z.of_N];
    (eapply Z.le_trans; [|apply of_uint_acc_ge]);
    pose proof (Z.pow_nonneg 10 (Z.of_nat (Decimal.nb_digits d)) ltac:(lia)); nia.
Qed.

Lemma to_uint_canonical n d : N.to_uint n = Decimal.D0 d -> d = Decimal.Nil.
Proof.
  intros Hd. pose proof (DecimalN.Unsigned.to_of (N.to_uint n)) as Hu.
  rewrite DecimalN.Unsigned.of_to in Hu. rewrite Hu in Hd. unfold Decimal.unorm in Hd.
  destruct (Decimal.nzhead (N.to_uint n)) eqn:E; try discriminate Hd.
  - by injection Hd.
  - by apply nzhead_nonzero in E.
Qed.

Lemma to_numeric_text_len n : is_u64 n -> (Str.len (to_numeric_text n) <= 20)%Z.
Proof.
  intros [Hlo Hhi]. rewrite to_numeric_text_empty, string_of_uint_len.
  destruct (Decimal.nb_digits (N.to_uint (Z.to_N n))) as [|k] eqn:Hk; [lia|].
  assert ((exists d', N.to_uint (Z.to_N n) = Decimal.D0 d') \/
          forall d', N.to_uint (Z.to_N n) <> Decimal.D0 d') as [[d' Hd]|Hne].
  { destruct (N.to_uint (Z.to_N n)); eauto. }
  - pose proof (to_uint_canonical _ _ Hd) as ->. rewrite Hd in Hk. injection Hk as <-. done.
  - assert (10 ^ Z.of_nat k <= n)%Z as Hle.
    { rewrite <-(Z2N.id n) by done. rewrite <-(DecimalN.Unsigned.of_to (Z.to_N n)).
      by apply of_uint_ge. }
    destruct (Z.le_gt_cases (Z.of_nat (S k)) 20) as [|Hgt]; [done|]. exfalso.
    assert (10 ^ 20 <= 10 ^ Z.of_nat k)%Z by (apply Z.pow_le_mono_r; lia). unfold u64_max in Hhi. lia.
Qed.

(** The text of a numeral starts with 0 when the numeral does. *)
Lemma starts_with_zero d :
  Str.starts_with "0" (NilEmpty.string_of_uint d) = true -> exists d', d = Decimal.D0 d'.
Proof. destruct d; simpl; try done. eauto. Qed.

(** The length test and the leading-zero test of the canonical form. *)
Lemma canonical_iff d :
  d <> Decimal.Nil ->
  ((Str.len (NilEmpty.string_of_uint d) =? 1)%Z
   || negb (Str.starts_with "0" (NilEmpty.string_of_uint d))) = true <-> Decimal.unorm d = d.
Proof.
  intros Hnil. rewrite string_of_uint_len. destruct d as [|d|d|d|d|d|d|d|d|d|d]; try done;
    [|split; [done|]; intros _; by rewrite orb_true_r..].
  cbn [NilEmpty.string_of_uint Decimal.nb_digits Str.starts_with Str.strip_prefix Ascii.eqb Bool.eqb negb].
  rewrite orb_false_r, Z.eqb_eq. split.
  - intros Hl. destruct d; try done; cbn [Decimal.nb_digits] in Hl; lia.
  - intros Hu. unfold Decimal.unorm in Hu. simpl in Hu.
    destruct (Decimal.nzhead d) eqn:E; try discriminate Hu.
    + by injection Hu as <-.
    + by apply nzhead_nonzero in E.
Qed.

Lemma deserialize_counter_ok s n :
  deserialize_counter s = Ok n <-> s = to_numeric_text n /\ is_u64 n.
Proof.
  split.
  - unfold deserialize_counter. destruct (negb (_ && _)) eqn:Hc; [done|]. intros Hf. unbool.
    split; [|by eapply from_numeric_text_range]. unfold from_numeric_text in Hf.
    destruct (Str.is_empty s); [done|]. destruct (Str.all_bytes Str.is_ascii_digit s); [|done]. simpl in Hf.
    destruct (NilZero.uint_of_string s) as [d|] eqn:Hd; [|done].
    destruct (Z.of_N (N.of_uint d) <=? u64_max)%Z; [|done]. injection Hf as <-.
    assert (d <> Decimal.Nil) as Hnil.
    { intros ->. unfold NilZero.uint_of_string in Hd. destruct s as [|a s]; [done|].
      apply NilEmpty.sus in Hd. done. }
    apply NilZero.sus in Hd. unfold NilZero.string_of_uint in Hd.
    assert (NilEmpty.string_of_uint d = s) as Hs by (by destruct d).
    unfold to_numeric_text. rewrite N2Z.id, DecimalN.Unsigned.to_of.
    rewrite (proj1 (canonical_iff d Hnil)); [by rewrite <-Hs; unfold NilZero.string_of_uint; destruct d|].
    by rewrite Hs.
  - intros [-> Hn]. unfold deserialize_counter.
    rewrite to_numeric_text_nonempty, to_numeric_text_digits, (proj2 (Z.leb_le _ _) (to_numeric_text_len _ Hn)).
    rewrite to_numeric_text_empty at 1 2.
    rewrite (proj2 (canonical_iff _ (to_uint_nonnil _))); [by apply from_to_numeric_text|].
    rewrite <-DecimalN.Unsigned.to_of. by rewrite DecimalN.Unsigned.of_to.
Qed.

End Numeric.

(** A 64-bit counter survives the crossing to decimal text and
    back, and its canonical text is the only one the wire deserializer maps to
    it. *)
Theorem counters_round_trip (n : Z) (s : string) :
  is_u64 n ->
  Numeric.from_numeric_text (Numeric.to_numeric_text n) = Ok n /\
  (Numeric.deserialize_counter s = Ok n <-> s = Numeric.to_numeric_text n).
Proof.
  intros Hn. split; [by apply Numeric.from_to_numeric_text|].
  rewrite Numeric.deserialize_counter_ok. naive_solver.
Qed.

Lemma counters_round_trip_witness :
  Numeric.from_numeric_text (Numeric.to_numeric_text u64_max) = Ok u64_max /\
  (Numeric.deserialize_counter "18446744073709551615" = Ok u64_max <->
   "18446744073709551615" = Numeric.to_numeric_text u64_max).
Proof. apply (counters_round_trip u64_max). unfold is_u64, u64_max. lia. Defined.
