(* ===== verification/Fsm.v ===== *)
(** * The four public state machines (gwk-domain/src/fsm.rs)

    Each machine is an enumeration with its [STATES], [EDGES] and [ESCAPE]
    tables; terminality and edge legality are derived from the tables by the
    functions of the [StateMachine] trait.  [StateMachineLaws] is what the other
    components rely on: every state is listed and its wire name is unique. *)

From S2P Require Import Prelude.

(** ** The trait *)

Class StateMachine (S : Type) := {
  sm_eq_dec :: EqDecision S;
  STATES : list S;
  EDGES : list (S * S);
  ESCAPE : list S;
  (** The serde wire value: the snake_case variant name. *)
  wire_name : S -> string;
}.

Section StateMachine.
Context {S : Type} `{SM : StateMachine S}.

Definition is_terminal (s : S) : bool :=
  negb (existsb (fun e => bool_decide (e.1 = s)) EDGES).

Definition can_transition (from to : S) : bool := bool_decide ((from, to) ∈ EDGES).

(** [serde_json::from_value(Value::String(name))]. *)
Definition of_wire (name : string) : option S :=
  List.find (fun s => bool_decide (wire_name s = name)) STATES.

(** One edge into the escape set; plain totality when the set is empty. *)
Definition escape_edge (a b : S) : Prop :=
  (a, b) ∈ EDGES /\ (ESCAPE = [] \/ b ∈ ESCAPE).

Class StateMachineLaws : Prop := {
  STATES_complete : forall s : S, s ∈ STATES;
  wire_name_inj : Inj (=) (=) (wire_name (S := S));
}.

Lemma is_terminal_spec (s : S) :
  is_terminal s = true <-> forall t, (s, t) ∉ EDGES.
Proof.
  unfold is_terminal. rewrite negb_true_iff, <-not_true_iff_false, existsb_exists. split.
  - intros H t Hin. apply H. exists (s, t).
    split; [by apply list_elem_of_In|by apply bool_decide_eq_true].
  - intros H ([a b] & Hin & Ha). apply bool_decide_eq_true in Ha. simpl in Ha. subst.
    by apply (H b), list_elem_of_In.
Qed.

Lemma can_transition_spec (from to : S) :
  can_transition from to = true <-> (from, to) ∈ EDGES.
Proof. apply bool_decide_eq_true. Qed.

Lemma terminal_no_transition (s t : S) : is_terminal s = true -> can_transition s t = false.
Proof.
  rewrite is_terminal_spec. intros H. apply bool_decide_eq_false. apply H.
Qed.

Lemma of_wire_Some `{!StateMachineLaws} name (s : S) :
  of_wire name = Some s <-> wire_name s = name.
Proof.
  unfold of_wire. split.
  - intros [_ Hs]%List.find_some. by apply bool_decide_eq_true in Hs.
  - intros <-. destruct (List.find _ _) as [t|] eqn:E.
    + apply List.find_some in E as [_ E]. apply bool_decide_eq_true in E.
      by apply wire_name_inj in E as ->.
    + pose proof (List.find_none _ _ E s (proj1 (list_elem_of_In _ _) (STATES_complete s))) as Hs.
      by apply bool_decide_eq_false in Hs.
Qed.
End StateMachine.
Arguments StateMachineLaws S {SM}.

(** ** Task *)

Inductive TaskState :=
| TaskSubmitted | TaskWorking | TaskInputRequired
| TaskCompleted | TaskFailed | TaskCanceled.

#[export] Instance TaskState_eq_dec : EqDecision TaskState.
Proof. solve_decision. Defined.

Definition task_wire (s : TaskState) : string :=
  match s with
  | TaskSubmitted => "submitted" | TaskWorking => "working"
  | TaskInputRequired => "input_required" | TaskCompleted => "completed"
  | TaskFailed => "failed" | TaskCanceled => "canceled"
  end.

#[export] Instance TaskState_machine : StateMachine TaskState := {|
  STATES := [TaskSubmitted; TaskWorking; TaskInputRequired; TaskCompleted; TaskFailed; TaskCanceled];
  EDGES := [(TaskSubmitted, TaskWorking); (TaskSubmitted, TaskCanceled);
            (TaskWorking, TaskInputRequired); (TaskWorking, TaskCompleted);
            (TaskWorking, TaskFailed); (TaskWorking, TaskCanceled);
            (TaskInputRequired, TaskWorking); (TaskInputRequired, TaskCanceled)];
  ESCAPE := [TaskCanceled; TaskFailed];
  wire_name := task_wire;
|}.

(** ** Attempt *)

Inductive AttemptState :=
| AttemptQueued | AttemptLeased | AttemptStarting | AttemptRunning | AttemptBlocked
| AttemptCanceling | AttemptCanceled | AttemptFailed | AttemptUnknown | AttemptSucceeded.

#[export] Instance AttemptState_eq_dec : EqDecision AttemptState.
Proof. solve_decision. Defined.

Definition attempt_wire (s : AttemptState) : string :=
  match s with
  | AttemptQueued => "queued" | AttemptLeased => "leased" | AttemptStarting => "starting"
  | AttemptRunning => "running" | AttemptBlocked => "blocked"
  | AttemptCanceling => "canceling" | AttemptCanceled => "canceled"
  | AttemptFailed => "failed" | AttemptUnknown => "unknown" | AttemptSucceeded => "succeeded"
  end.

#[export] Instance AttemptState_machine : StateMachine AttemptState := {|
  STATES := [AttemptQueued; AttemptLeased; AttemptStarting; AttemptRunning; AttemptBlocked;
             AttemptCanceling; AttemptCanceled; AttemptFailed; AttemptUnknown; AttemptSucceeded];
  EDGES := [(AttemptQueued, AttemptLeased); (AttemptQueued, AttemptCanceled);
            (AttemptLeased, AttemptStarting); (AttemptLeased, AttemptCanceled);
            (AttemptStarting, AttemptRunning); (AttemptStarting, AttemptFailed);
            (AttemptStarting, AttemptUnknown); (AttemptStarting, AttemptCanceling);
            (AttemptRunning, AttemptBlocked); (AttemptRunning, AttemptCanceling);
            (AttemptRunning, AttemptFailed); (AttemptRunning, AttemptUnknown);
            (AttemptRunning, AttemptSucceeded); (AttemptBlocked, AttemptRunning);
            (AttemptBlocked, AttemptCanceling); (AttemptBlocked, AttemptFailed);
            (AttemptBlocked, AttemptUnknown); (AttemptCanceling, AttemptCanceled);
            (AttemptCanceling, AttemptUnknown)];
  ESCAPE := [AttemptCanceling; AttemptCanceled; AttemptFailed; AttemptUnknown];
  wire_name := attempt_wire;
|}.

(** ** Message *)

Inductive MessageState :=
| MessageAccepted | MessageDelivered | MessageAcknowledged
| MessageApplied | MessageRejected | MessageDeadLetter.

#[export] Instance MessageState_eq_dec : EqDecision MessageState.
Proof. solve_decision. Defined.

Definition message_wire (s : MessageState) : string :=
  match s with
  | MessageAccepted => "accepted" | MessageDelivered => "delivered"
  | MessageAcknowledged => "acknowledged" | MessageApplied => "applied"
  | MessageRejected => "rejected" | MessageDeadLetter => "dead_letter"
  end.

#[export] Instance MessageState_machine : StateMachine MessageState := {|
  STATES := [MessageAccepted; MessageDelivered; MessageAcknowledged; MessageApplied;
             MessageRejected; MessageDeadLetter];
  EDGES := [(MessageAccepted, MessageDelivered); (MessageAccepted, MessageDeadLetter);
            (MessageDelivered, MessageAcknowledged); (MessageDelivered, MessageDeadLetter);
            (MessageAcknowledged, MessageApplied); (MessageAcknowledged, MessageRejected);
            (MessageAcknowledged, MessageDeadLetter)];
  ESCAPE := [MessageDeadLetter];
  wire_name := message_wire;
|}.

(** ** Command *)

Inductive CommandState :=
| CommandIssued | CommandTargeted | CommandSignaled | CommandVerificationComplete.

#[export] Instance CommandState_eq_dec : EqDecision CommandState.
Proof. solve_decision. Defined.

Definition command_wire (s : CommandState) : string :=
  match s with
  | CommandIssued => "issued" | CommandTargeted => "targeted" | CommandSignaled => "signaled"
  | CommandVerificationComplete => "verification_complete"
  end.

#[export] Instance CommandState_machine : StateMachine CommandState := {|
  STATES := [CommandIssued; CommandTargeted; CommandSignaled; CommandVerificationComplete];
  EDGES := [(CommandIssued, CommandTargeted); (CommandTargeted, CommandSignaled);
            (CommandSignaled, CommandVerificationComplete)];
  ESCAPE := [];
  wire_name := command_wire;
|}.

(** ** The closed value sets beside the machines *)

Inductive Outcome := OutcomeClean | OutcomePartial | OutcomeUnknown.
Definition outcome_wire (o : Outcome) : string :=
  match o with OutcomeClean => "clean" | OutcomePartial => "partial" | OutcomeUnknown => "unknown" end.

Inductive GateVerdict := VerdictPending | VerdictPass | VerdictFail | VerdictPartial.
Definition verdict_wire (v : GateVerdict) : string :=
  match v with
  | VerdictPending => "pending" | VerdictPass => "pass"
  | VerdictFail => "fail" | VerdictPartial => "partial"
  end.

Inductive LeaseMode := LeaseExclusive | LeaseShared.
Definition lease_mode_wire (m : LeaseMode) : string :=
  match m with LeaseExclusive => "exclusive" | LeaseShared => "shared" end.

#[export] Instance Outcome_eq_dec : EqDecision Outcome.
Proof. solve_decision. Defined.
#[export] Instance GateVerdict_eq_dec : EqDecision GateVerdict.
Proof. solve_decision. Defined.
#[export] Instance LeaseMode_eq_dec : EqDecision LeaseMode.
Proof. solve_decision. Defined.

(** ** The laws hold of the four machines *)

#[export] Instance TaskState_laws : StateMachineLaws TaskState.
Proof. split; [intros []; set_solver | by intros [] []]. Qed.
#[export] Instance AttemptState_laws : StateMachineLaws AttemptState.
Proof. split; [intros []; set_solver | by intros [] []]. Qed.
#[export] Instance MessageState_laws : StateMachineLaws MessageState.
Proof. split; [intros []; set_solver | by intros [] []]. Qed.
#[export] Instance CommandState_laws : StateMachineLaws CommandState.
Proof. split; [intros []; set_solver | by intros [] []]. Qed.

(** ** Every machine can be wound down without fabricating progress *)

(** [winds_down S]: from every non-terminal state a terminal one is reachable
    along edges into the escape set only. *)
Definition winds_down (S : Type) `{SM : StateMachine S} : Prop :=
  forall s : S, is_terminal s = false ->
  exists t : S, is_terminal t = true /\ rtc escape_edge s t.

(** The states known to wind down after [n] rounds of backward search. *)
Fixpoint winding {S : Type} `{SM : StateMachine S} (n : nat) (s : S) : bool :=
  is_terminal s ||
  match n with
  | 0 => false
  | Datatypes.S n =>
      existsb (fun e => bool_decide (e.1 = s)
                        && (bool_decide (ESCAPE (S := S) = []) || bool_decide (e.2 ∈ ESCAPE))
                        && winding n e.2) EDGES
  end.

Lemma winding_sound {S : Type} `{SM : StateMachine S} n (s : S) :
  winding n s = true -> exists t, is_terminal t = true /\ rtc escape_edge s t.
Proof.
  revert s. induction n as [|n IH]; intros s; simpl;
    destruct (is_terminal s) eqn:Ht; simpl; try done.
  1,2: intros _; by exists s.
  intros ([a b] & Hin & Hb)%existsb_exists. simpl in Hb. unbool. subst.
  destruct (IH b) as (t & ? & ?); [done|]. exists t. split; [done|].
  eapply rtc_l; [|done]. split; [by apply list_elem_of_In|].
  match goal with Ho : _ || _ = true |- _ =>
    apply orb_true_iff in Ho as [Ho|Ho]; apply bool_decide_eq_true in Ho; [by left|by right]
  end.
Qed.

Lemma winds_down_of_check {S : Type} `{SM : StateMachine S} `{!StateMachineLaws S} n :
  forallb (winding n) (STATES (S := S)) = true -> winds_down S.
Proof.
  intros Hall s _. apply (winding_sound n).
  rewrite forallb_forall in Hall. apply Hall, list_elem_of_In, STATES_complete.
Qed.

(** In each of the four machines every state that is not terminal
    reaches a terminal one, through the machine's escape states alone where it
    names some. *)
Theorem machines_wind_down :
  winds_down TaskState /\ winds_down AttemptState /\
  winds_down MessageState /\ winds_down CommandState.
Proof. repeat split; by apply (winds_down_of_check 3). Qed.
