(* ===== verification/Envelope.v ===== *)
(** * Event and command envelopes (gwk-domain/src/envelope.rs, ids.rs)

    The envelopes are polymorphic in the payload type [V], the JSON value the
    sources take from serde_json: the certifier instantiates it with a concrete
    JSON tree, the kernel leaves it abstract behind the class [Serde] of
    Command.v.  Identifier newtypes are the strings they wrap. *)

From S2P Require Import Prelude.

Definition ENVELOPE_SCHEMA_VERSION : Z := 1.
Definition INLINE_PAYLOAD_MAX_BYTES : Z := 64 * 1024.

Record Actor := { actor_kind : string; actor_id : option string }.
Record Origin := { origin_system : string; origin_ref : option string }.

Record PayloadRef := {
  pr_digest : string;
  pr_media_type : string;
  pr_byte_size : Z;
  pr_retention_class : option string;
  pr_evidence_pin : option bool;
}.

#[export] Instance Actor_eq_dec : EqDecision Actor.
Proof. solve_decision. Defined.
#[export] Instance Origin_eq_dec : EqDecision Origin.
Proof. solve_decision. Defined.
#[export] Instance PayloadRef_eq_dec : EqDecision PayloadRef.
Proof. solve_decision. Defined.

(** One appended event. *)
Record EventEnvelope (V : Type) := {
  event_id : string;
  project_id : string;
  aggregate_type : string;
  aggregate_id : string;
  aggregate_version : Z;
  event_type : string;
  schema_version : Z;
  global_sequence : Z;
  occurred_at : string;
  appended_at : string;
  actor : Actor;
  origin : Origin;
  causation_id : option string;
  correlation_id : option string;
  idempotency_key : option string;
  payload : V;
  payload_ref : option PayloadRef;
}.
Arguments event_id {V}. Arguments project_id {V}. Arguments aggregate_type {V}.
Arguments aggregate_id {V}. Arguments aggregate_version {V}. Arguments event_type {V}.
Arguments schema_version {V}. Arguments global_sequence {V}. Arguments occurred_at {V}.
Arguments appended_at {V}. Arguments actor {V}. Arguments origin {V}.
Arguments causation_id {V}. Arguments correlation_id {V}. Arguments idempotency_key {V}.
Arguments payload {V}. Arguments payload_ref {V}.
Arguments Build_EventEnvelope {V}.

#[export] Instance EventEnvelope_eq_dec {V} `{EqDecision V} : EqDecision (EventEnvelope V).
Proof. solve_decision. Defined.

(** One issued command. *)
Record CommandEnvelope (V : Type) := {
  ce_command_id : string;
  ce_project_id : string;
  ce_command_type : string;
  ce_schema_version : Z;
  ce_issued_at : string;
  ce_actor : Actor;
  ce_origin : Origin;
  ce_target_aggregate_type : option string;
  ce_target_aggregate_id : option string;
  ce_expected_version : option Z;
  ce_idempotency_key : string;
  ce_causation_id : option string;
  ce_correlation_id : option string;
  ce_payload : V;
}.
Arguments ce_command_id {V}. Arguments ce_project_id {V}. Arguments ce_command_type {V}.
Arguments ce_schema_version {V}. Arguments ce_issued_at {V}. Arguments ce_actor {V}.
Arguments ce_origin {V}. Arguments ce_target_aggregate_type {V}.
Arguments ce_target_aggregate_id {V}. Arguments ce_expected_version {V}.
Arguments ce_idempotency_key {V}. Arguments ce_causation_id {V}.
Arguments ce_correlation_id {V}. Arguments ce_payload {V}.
Arguments Build_CommandEnvelope {V}.

Record UnknownSchemaVersion := { usv_found : Z; usv_supported : Z }.

(** Accept [found] iff it is the supported version or an upcaster covers it. *)
Definition accept_schema_version (found supported : Z) (upcast_from : list Z)
  : result UnknownSchemaVersion unit :=
  if (found =? supported)%Z || existsb (Z.eqb found) upcast_from then Ok tt
  else Err {| usv_found := found; usv_supported := supported |}.

(** ** The aggregate an event belongs to *)

Definition agg_key {V} (e : EventEnvelope V) : string * string :=
  (aggregate_type e, aggregate_id e).
