(* ===== verification/Transition.v ===== *)
(** * The one transition algorithm (gwk-domain/src/transition.rs)

    [apply] decides one requested transition of a state machine: the actor
    guard first, then the idempotent echo, the edge, the version compare-and-
    swap and the version ceiling.  The second half of the file lifts it to runs
    of applied transitions. *)

From S2P Require Import Prelude Fsm Envelope.

Definition LIVENESS_PRODUCER_KIND : string := "liveness_producer".

Record Cursor (S : Type) := {
  cur_state : S;
  cur_version : Z;
  applied_idempotency_key : option string;
  applied_by : option Actor;
}.
Arguments cur_state {S}. Arguments cur_version {S}.
Arguments applied_idempotency_key {S}. Arguments applied_by {S}.
Arguments Build_Cursor {S}.

Record TransitionRequest (S : Type) := {
  req_to : S;
  req_expected_version : Z;
  req_actor : Actor;
  req_idempotency_key : option string;
  req_receipt_id : option string;
}.
Arguments req_to {S}. Arguments req_expected_version {S}. Arguments req_actor {S}.
Arguments req_idempotency_key {S}. Arguments req_receipt_id {S}.
Arguments Build_TransitionRequest {S}.

Inductive TransitionResult (S : Type) :=
| Applied (state : S) (version : Z)
| IllegalEdge (from to : S)
| StaleVersion (actual expected : Z)
| UnauthorizedActor (reason : string).
Arguments Applied {S}. Arguments IllegalEdge {S}.
Arguments StaleVersion {S}. Arguments UnauthorizedActor {S}.

Inductive GuardViolation :=
| WrongActor (required_kind : string)
| MissingReceipt.

Definition guard_violation_display (v : GuardViolation) : string :=
  match v with
  | WrongActor required_kind => "edge requires actor kind " +:+ required_kind
  | MissingReceipt => "edge requires a receipt"
  end.

Record GuardCtx := { ctx_actor : Actor; ctx_receipt_id : option string }.

(** Per-machine actor rules layered over edge legality. *)
Class TransitionGuard (S : Type) `{SM : StateMachine S} :=
  guard : S -> S -> GuardCtx -> result GuardViolation unit.

#[export] Instance TaskState_guard : TransitionGuard TaskState := fun _ _ _ => Ok tt.
#[export] Instance MessageState_guard : TransitionGuard MessageState := fun _ _ _ => Ok tt.
#[export] Instance CommandState_guard : TransitionGuard CommandState := fun _ _ _ => Ok tt.

Definition is_flip (from to : AttemptState) : bool :=
  match from, to with
  | AttemptRunning, AttemptBlocked | AttemptBlocked, AttemptRunning => true
  | _, _ => false
  end.

(** A receipt is missing when it is absent or empty. *)
Definition receipt_missing (r : option string) : bool :=
  match r with None => true | Some r => bool_decide (r = "") end.

(** The liveness-producer flip rule. *)
#[export] Instance AttemptState_guard : TransitionGuard AttemptState :=
  fun from to ctx =>
    if is_flip from to then
      if negb (bool_decide (actor_kind (ctx_actor ctx) = LIVENESS_PRODUCER_KIND))
      then Err (WrongActor LIVENESS_PRODUCER_KIND)
      else if receipt_missing (ctx_receipt_id ctx) then Err MissingReceipt
      else Ok tt
    else Ok tt.

Section Apply.
Context {S : Type} `{SM : StateMachine S} {G : TransitionGuard S}.

(** The keyed retry of the transition the cursor records. *)
Definition is_retry (cursor : Cursor S) (req : TransitionRequest S) : bool :=
  match req_idempotency_key req, applied_idempotency_key cursor with
  | Some key, Some applied =>
      bool_decide (key = applied)
      && bool_decide (cur_state cursor = req_to req)
      && bool_decide (applied_by cursor = Some (req_actor req))
  | _, _ => false
  end.

Definition apply (cursor : Cursor S) (req : TransitionRequest S) : TransitionResult S :=
  let ctx := {| ctx_actor := req_actor req; ctx_receipt_id := req_receipt_id req |} in
  match guard (cur_state cursor) (req_to req) ctx with
  | Err violation => UnauthorizedActor (guard_violation_display violation)
  | Ok _ =>
      if is_retry cursor req then Applied (cur_state cursor) (cur_version cursor)
      else if negb (can_transition (cur_state cursor) (req_to req))
      then IllegalEdge (cur_state cursor) (req_to req)
      else if negb (cur_version cursor =? req_expected_version req)%Z
      then StaleVersion (cur_version cursor) (req_expected_version req)
      else match checked_add u32_max (req_expected_version req) 1 with
           | None => StaleVersion (cur_version cursor) (req_expected_version req)
           | Some next_version => Applied (req_to req) next_version
           end
  end.

(** *** The decision as a relation *)

(** What the contract promises of an applied answer. *)
Inductive applied_spec (cursor : Cursor S) (req : TransitionRequest S) : S -> Z -> Prop :=
| applied_retry :
    is_retry cursor req = true ->
    applied_spec cursor req (cur_state cursor) (cur_version cursor)
| applied_step :
    is_retry cursor req = false ->
    (cur_state cursor, req_to req) ∈ EDGES ->
    cur_version cursor = req_expected_version req ->
    (cur_version cursor < u32_max)%Z ->
    applied_spec cursor req (req_to req) (cur_version cursor + 1).

Lemma apply_applied_iff cursor req s v :
  apply cursor req = Applied s v <->
  guard (cur_state cursor) (req_to req)
    {| ctx_actor := req_actor req; ctx_receipt_id := req_receipt_id req |} = Ok tt /\
  applied_spec cursor req s v.
Proof.
  unfold apply. destruct (guard _ _ _) as [[]|viol] eqn:Hg.
  2:{ split; [done|by intros [? _]]. }
  destruct (is_retry cursor req) eqn:Hr.
  { split; [intros [= <- <-]; split; [done|by constructor]|].
    intros [_ Hs]. inversion Hs; congruence. }
  destruct (can_transition _ _) eqn:He; simpl.
  2:{ split; [done|]. intros [_ Hs]. inversion Hs; [congruence|].
      apply bool_decide_eq_false in He. done. }
  apply can_transition_spec in He.
  destruct (Z.eqb_spec (cur_version cursor) (req_expected_version req)) as [Hv|Hv]; simpl.
  2:{ split; [done|]. intros [_ Hs]. inversion Hs; congruence. }
  destruct (checked_add _ _ _) as [n|] eqn:Hc.
  - apply checked_add_some in Hc as [-> Hc]. split.
    + intros [= <- <-]. split; [done|]. rewrite <-Hv. apply applied_step; try done. lia.
    + intros [_ Hs]. inversion Hs; [congruence|]. by rewrite Hv.
  - apply checked_add_none in Hc. split; [done|].
    intros [_ Hs]. inversion Hs; [congruence|]. lia.
Qed.

(** The cursor a caller stores after an applied answer. *)
Definition advance (cursor : Cursor S) (req : TransitionRequest S) : option (Cursor S) :=
  match apply cursor req with
  | Applied s v =>
      Some (if is_retry cursor req then cursor
            else {| cur_state := s; cur_version := v;
                    applied_idempotency_key := req_idempotency_key req;
                    applied_by := Some (req_actor req) |})
  | _ => None
  end.

(** A run of requests, refused ones leaving the cursor alone. *)
Definition run (cursor : Cursor S) (reqs : list (TransitionRequest S)) : Cursor S :=
  foldl (fun c r => default c (advance c r)) cursor reqs.

Lemma advance_cases cursor req c' :
  advance cursor req = Some c' ->
  c' = cursor \/
  (cur_state cursor, cur_state c') ∈ EDGES /\
  cur_version c' = (cur_version cursor + 1)%Z /\ (cur_version cursor < u32_max)%Z /\
  cur_state c' = req_to req /\
  guard (cur_state cursor) (cur_state c')
    {| ctx_actor := req_actor req; ctx_receipt_id := req_receipt_id req |} = Ok tt.
Proof.
  unfold advance. destruct (apply cursor req) as [s v| | |] eqn:Ha; try done.
  apply apply_applied_iff in Ha as [Hg Hs]. destruct Hs as [Hr|Hr He Hv Hm].
  - rewrite Hr. intros [= <-]. by left.
  - rewrite Hr. intros [= <-]. right. simpl. done.
Qed.

Lemma run_snoc cursor reqs r :
  run cursor (reqs ++ [r]) = default (run cursor reqs) (advance (run cursor reqs) r).
Proof. unfold run. by rewrite foldl_app. Qed.

Lemma run_app cursor r1 r2 : run cursor (r1 ++ r2) = run (run cursor r1) r2.
Proof. unfold run. by rewrite foldl_app. Qed.

Lemma run_bounds cursor reqs :
  is_u32 (cur_version cursor) ->
  (cur_version cursor <= cur_version (run cursor reqs) <= u32_max)%Z.
Proof.
  intros [Hlo Hhi]. induction reqs as [|r reqs IH] using rev_ind; [done|].
  rewrite run_snoc. destruct (advance _ r) as [c'|] eqn:Ha; simpl; [|done].
  apply advance_cases in Ha as [->|(_ & -> & ? & _)]; [done|lia].
Qed.
End Apply.

(** A guard that never blocks a machine from being where it already is. *)
Class GuardReflexive (S : Type) `{SM : StateMachine S} {G : TransitionGuard S} : Prop :=
  guard_refl : forall (s : S) ctx, guard s s ctx = Ok tt.

#[export] Instance TaskState_guard_refl : GuardReflexive TaskState.
Proof. by intros s ctx. Qed.
#[export] Instance MessageState_guard_refl : GuardReflexive MessageState.
Proof. by intros s ctx. Qed.
#[export] Instance CommandState_guard_refl : GuardReflexive CommandState.
Proof. by intros s ctx. Qed.
#[export] Instance AttemptState_guard_refl : GuardReflexive AttemptState.
Proof. by intros [] ctx. Qed.

Lemma attempt_guard_flip from to ctx :
  is_flip from to = true -> guard from to ctx = Ok tt ->
  actor_kind (ctx_actor ctx) = LIVENESS_PRODUCER_KIND /\
  exists r, ctx_receipt_id ctx = Some r /\ r <> "".
Proof.
  intros Hf Hg. unfold guard, AttemptState_guard in Hg. rewrite Hf in Hg.
  destruct (bool_decide_reflect (actor_kind (ctx_actor ctx) = LIVENESS_PRODUCER_KIND));
    simpl in Hg; [|done].
  destruct (ctx_receipt_id ctx) as [r|]; simpl in Hg; [|done].
  destruct (bool_decide_reflect (r = "")); [done|]. eauto.
Qed.

(** ** Properties *)

(** Every answer of a transition request, with what it says of
    the request: a guard violation before anything else, an applied answer that
    is a keyed retry or a legal edge at the expected version, an edge that is not
    in the table, or a version that is not the current one or cannot be
    incremented. *)
Theorem apply_classifies {S : Type} `{SM : StateMachine S} {G : TransitionGuard S}
    (cursor : Cursor S) (req : TransitionRequest S) :
  let allowed := guard (cur_state cursor) (req_to req)
    {| ctx_actor := req_actor req; ctx_receipt_id := req_receipt_id req |} in
  match apply cursor req with
  | UnauthorizedActor reason =>
      exists violation, allowed = Err violation /\ reason = guard_violation_display violation
  | Applied s v => allowed = Ok tt /\ applied_spec cursor req s v
  | IllegalEdge from to =>
      allowed = Ok tt /\ is_retry cursor req = false /\
      from = cur_state cursor /\ to = req_to req /\ (from, to) ∉ EDGES
  | StaleVersion actual expected =>
      allowed = Ok tt /\ is_retry cursor req = false /\
      (cur_state cursor, req_to req) ∈ EDGES /\
      actual = cur_version cursor /\ expected = req_expected_version req /\
      (actual <> expected \/ u32_max <= expected)%Z
  end.
Proof.
  intros allowed. destruct (apply cursor req) as [s v| | |] eqn:Ha.
  { by apply apply_applied_iff in Ha. }
  all: unfold apply in Ha; fold allowed in Ha; destruct allowed as [[]|viol];
    repeat (break_match || simplify_eq/=); unbool;
    repeat match goal with
    | H : can_transition _ _ = true |- _ => apply can_transition_spec in H
    | H : can_transition _ _ = false |- _ => apply bool_decide_eq_false in H
    | H : checked_add _ _ _ = None |- _ => apply checked_add_none in H
    end; eauto 10 with lia.
Qed.

(** Versions never fall along a run of requests and never pass
    the 32-bit ceiling. *)
Theorem run_version_monotone {S : Type} `{SM : StateMachine S} {G : TransitionGuard S}
    (cursor : Cursor S) (before after : list (TransitionRequest S)) :
  is_u32 (cur_version cursor) ->
  (cur_version (run cursor before) <= cur_version (run cursor (before ++ after)) <= u32_max)%Z.
Proof.
  intros Hc. rewrite run_app. apply run_bounds.
  pose proof (run_bounds cursor before Hc). unfold is_u32 in *. lia.
Qed.

(** No sequence of requests moves a cursor out of a terminal
    state. *)
Theorem terminal_is_final {S : Type} `{SM : StateMachine S} {G : TransitionGuard S}
    (cursor : Cursor S) (reqs : list (TransitionRequest S)) :
  is_terminal (cur_state cursor) = true -> run cursor reqs = cursor.
Proof.
  intros Ht. induction reqs as [|r reqs IH] using rev_ind; [done|].
  rewrite run_snoc, IH. destruct (advance cursor r) as [c'|] eqn:Ha; [|done].
  apply advance_cases in Ha as [->|(He & _)]; [done|].
  rewrite is_terminal_spec in Ht. by destruct (Ht (cur_state c')).
Qed.

(** A request moves an attempt between running and blocked only
    for the liveness producer and with a non-empty receipt. *)
Theorem flip_needs_liveness_producer (c c' : Cursor AttemptState) req :
  advance c req = Some c' -> is_flip (cur_state c) (cur_state c') = true ->
  actor_kind (req_actor req) = LIVENESS_PRODUCER_KIND /\
  exists receipt, req_receipt_id req = Some receipt /\ receipt <> "".
Proof.
  intros Ha Hf. apply advance_cases in Ha as [->|(_ & _ & _ & _ & Hg)].
  - by destruct (cur_state c).
  - by apply (attempt_guard_flip _ _ _ Hf) in Hg.
Qed.

(** A keyed request that was applied answers the same state and
    version when it is presented again, and moves nothing. *)
Theorem retry_is_stable {S : Type} `{SM : StateMachine S} {G : TransitionGuard S}
    `{!GuardReflexive S} (c c' : Cursor S) (req : TransitionRequest S) key :
  req_idempotency_key req = Some key -> advance c req = Some c' ->
  apply c' req = Applied (cur_state c') (cur_version c') /\ advance c' req = Some c'.
Proof.
  intros Hk Ha. assert (is_retry c' req = true /\ cur_state c' = req_to req) as [Hr Hs].
  { unfold advance in Ha. destruct (apply c req) as [s v| | |] eqn:He; try done.
    apply apply_applied_iff in He as [_ Hspec]. destruct Hspec as [Hr|Hr _ _ _];
      rewrite Hr in Ha; injection Ha as <-.
    - split; [done|]. unfold is_retry in Hr. rewrite Hk in Hr.
      destruct (applied_idempotency_key c); [|done]. by unbool.
    - simpl. split; [|done]. unfold is_retry. simpl. rewrite Hk.
      by rewrite !bool_decide_eq_true_2. }
  assert (apply c' req = Applied (cur_state c') (cur_version c')) as He.
  { apply apply_applied_iff. rewrite <-Hs. split; [apply guard_refl|by constructor]. }
  split; [done|]. unfold advance. by rewrite He, Hr.
Qed.

(** ** Witnesses *)

Definition demo_cursor : Cursor AttemptState :=
  {| cur_state := AttemptRunning; cur_version := 4;
     applied_idempotency_key := None; applied_by := None |}.

Definition demo_flip : TransitionRequest AttemptState :=
  {| req_to := AttemptBlocked; req_expected_version := 4;
     req_actor := {| actor_kind := "liveness_producer"; actor_id := Some "lp-1" |};
     req_idempotency_key := Some "k-1"; req_receipt_id := Some "r-1" |}.

Definition demo_flipped : Cursor AttemptState :=
  {| cur_state := AttemptBlocked; cur_version := 5;
     applied_idempotency_key := Some "k-1";
     applied_by := Some {| actor_kind := "liveness_producer"; actor_id := Some "lp-1" |} |}.

Lemma run_version_monotone_witness :
  (4 <= cur_version (run demo_cursor [demo_flip; demo_flip]) <= u32_max)%Z.
Proof. apply (run_version_monotone demo_cursor [] [demo_flip; demo_flip]). split; vm_compute; done. Defined.

Lemma terminal_is_final_witness :
  let c := {| cur_state := TaskCompleted; cur_version := 3;
              applied_idempotency_key := None; applied_by := None |} in
  run c [{| req_to := TaskWorking; req_expected_version := 3;
            req_actor := {| actor_kind := "kernel"; actor_id := None |};
            req_idempotency_key := None; req_receipt_id := None |}] = c.
Proof. intros c. apply (terminal_is_final c). reflexivity. Defined.

Lemma flip_needs_liveness_producer_witness :
  actor_kind (req_actor demo_flip) = LIVENESS_PRODUCER_KIND /\
  exists receipt, req_receipt_id demo_flip = Some receipt /\ receipt <> "".
Proof. apply (flip_needs_liveness_producer demo_cursor demo_flipped demo_flip); reflexivity. Defined.

Lemma retry_is_stable_witness :
  apply demo_flipped demo_flip = Applied AttemptBlocked 5 /\
  advance demo_flipped demo_flip = Some demo_flipped.
Proof. apply (retry_is_stable demo_cursor demo_flipped demo_flip "k-1"); reflexivity. Defined.
