(* ===== verification/Cert.v ===== *)
(** * The stream checker (gwk-cert/src/check.rs)

    [check_stream] replays an exported event stream against the contract and
    returns every violation.  The model keeps the code's sections: envelope
    checks, canonical aggregate type, version cursor, creation and state-change
    replay, and the command outcome discipline.  A finding's human text is not
    modelled; its code and anchor are.

    The second half states what a clean stream guarantees: each governed
    aggregate's events are a lawful life of its machine. *)

From Stdlib Require Import Sorted.
From S2P Require Import Prelude Text Fsm Envelope Transition.

(** ** JSON payloads *)

(** [serde_json::Value]; a number carries its canonical rendering, an object its
    entries in key order. *)
Inductive json :=
| JNull
| JBool (b : bool)
| JNum (rendering : string)
| JStr (s : string)
| JArr (l : list json)
| JObj (entries : list (string * json)).

(** Bytes one character of a JSON string takes, as serde_json escapes it. *)
Definition escaped_byte_len (c : Ascii.ascii) : Z :=
  let n := Str.code c in
  if ((n =? 34) || (n =? 92) || (n =? 8) || (n =? 9) || (n =? 10) || (n =? 12) || (n =? 13))%Z
  then 2 else if (n <? 32)%Z then 6 else 1.

Fixpoint escaped_len (s : string) : Z :=
  match s with
  | EmptyString => 0
  | String c s => escaped_byte_len c + escaped_len s
  end%Z.

(** [serde_json::to_string(v).len()]. *)
Fixpoint json_len (v : json) : Z :=
  match v with
  | JNull => 4
  | JBool b => if b then 4 else 5
  | JNum r => Str.len r
  | JStr s => 2 + escaped_len s
  | JArr l =>
      2 + (fix go (l : list json) : Z :=
             match l with
             | [] => 0
             | [v] => json_len v
             | v :: l => json_len v + 1 + go l
             end) l
  | JObj es =>
      2 + (fix go (es : list (string * json)) : Z :=
             match es with
             | [] => 0
             | [(k, v)] => 2 + escaped_len k + 1 + json_len v
             | (k, v) :: es => 2 + escaped_len k + 1 + json_len v + 1 + go es
             end) es
  end%Z.

(** [Value::get], [Value::as_str] and [Value::as_array]. *)
Definition json_get (v : json) (key : string) : option json :=
  match v with
  | JObj es => snd <$> List.find (fun e => bool_decide (e.1 = key)) es
  | _ => None
  end.
Definition as_str (v : json) : option string := match v with JStr s => Some s | _ => None end.
Definition as_array (v : json) : option (list json) := match v with JArr l => Some l | _ => None end.

Notation Event := (EventEnvelope json).

Definition payload_str (event : Event) (key : string) : option string :=
  json_get (payload event) key ≫= as_str.

Definition payload_targets (event : Event) : option (list string) :=
  match json_get (payload event) "targets" with
  | Some v => match as_array v with Some l => Some (omap as_str l) | None => None end
  | None => None
  end.

(** ** Findings *)

Inductive FindingCode :=
| EnvelopeMalformed | SchemaVersionUnknown | SeqNotIncreasing | CreatedNotFirst
| CreationMissing | CreationStateInvalid | AggregateVersionGap | StateChangeMalformed
| FromStateMismatch | IllegalTransition | TerminalMutation | FlipWrongActor
| FlipMissingReceipt | IdempotencyDuplicate | OutcomeMissing | OutcomeOnNonTerminal
| OutcomeDisagreesWithTargets | InlinePayloadTooLarge | PayloadRefInvalid.

#[export] Instance FindingCode_eq_dec : EqDecision FindingCode.
Proof. solve_decision. Defined.

Record Finding := { f_code : FindingCode; f_seq : option Z; f_event_id : option string }.

#[export] Instance Finding_eq_dec : EqDecision Finding.
Proof. solve_decision. Defined.

(** The closure [at]: a finding anchored to the event. *)
Definition at_ (event : Event) (code : FindingCode) : Finding :=
  {| f_code := code; f_seq := Some (global_sequence event); f_event_id := Some (event_id event) |}.

(** One finding when the condition holds. *)
Definition flag (event : Event) (cond : bool) (code : FindingCode) : list Finding :=
  if cond then [at_ event code] else [].

(** ** Machine lookup by wire name *)

Definition machine_initial (aggregate_type : string) : option string :=
  if bool_decide (aggregate_type = "task") then Some "submitted"
  else if bool_decide (aggregate_type = "attempt") then Some "queued"
  else if bool_decide (aggregate_type = "message") then Some "accepted"
  else if bool_decide (aggregate_type = "command") then Some "issued"
  else None.

Definition fsm_check_machine (S : Type) `{SM : StateMachine S} (from to : string) : bool * bool :=
  match of_wire (S := S) from, of_wire (S := S) to with
  | Some f, Some t => (can_transition f t, is_terminal f)
  | _, _ => (false, false)
  end.

Definition fsm_check (aggregate_type from to : string) : option (bool * bool) :=
  if bool_decide (aggregate_type = "task") then Some (fsm_check_machine TaskState from to)
  else if bool_decide (aggregate_type = "attempt") then Some (fsm_check_machine AttemptState from to)
  else if bool_decide (aggregate_type = "message") then Some (fsm_check_machine MessageState from to)
  else if bool_decide (aggregate_type = "command") then Some (fsm_check_machine CommandState from to)
  else None.

(** ** Canonical spelling of a governed type *)

(** The ASCII letter a two-byte Cyrillic or Greek lookalike folds to.  In a valid
    UTF-8 string these lead bytes occur at character boundaries only. *)
Definition confusable (a b : Z) : option string :=
  let at2 x y := ((a =? x) && (b =? y))%Z in
  if at2 208%Z 176%Z || at2 206%Z 177%Z then Some "a"          (* U+0430, U+03B1 *)
  else if at2 208%Z 181%Z || at2 206%Z 181%Z then Some "e"     (* U+0435, U+03B5 *)
  else if at2 208%Z 190%Z || at2 206%Z 191%Z then Some "o"     (* U+043E, U+03BF *)
  else if at2 209%Z 129%Z then Some "c"                   (* U+0441 *)
  else if at2 209%Z 128%Z || at2 207%Z 129%Z then Some "p"     (* U+0440, U+03C1 *)
  else if at2 209%Z 130%Z || at2 207%Z 132%Z then Some "t"     (* U+0442, U+03C4 *)
  else if at2 208%Z 186%Z || at2 206%Z 186%Z then Some "k"     (* U+043A, U+03BA *)
  else if at2 208%Z 188%Z || at2 206%Z 188%Z then Some "m"     (* U+043C, U+03BC *)
  else if at2 209%Z 149%Z then Some "s"                   (* U+0455 *)
  else if at2 212%Z 129%Z then Some "d"                   (* U+0501 *)
  else None.

Fixpoint fold_confusables (s : string) : string :=
  match s with
  | EmptyString => EmptyString
  | String a s1 =>
      match s1 with
      | String b s2 =>
          match confusable (Str.code a) (Str.code b) with
          | Some letter => letter +:+ fold_confusables s2
          | None => String a (fold_confusables s1)
          end
      | EmptyString => String a EmptyString
      end
  end.

Definition canonical_type (aggregate_type : string) : string :=
  let trimmed := Str.to_ascii_lowercase (Str.trim aggregate_type) in
  if bool_decide (is_Some (machine_initial trimmed)) then trimmed
  else let folded := fold_confusables trimmed in
       if bool_decide (is_Some (machine_initial folded)) then folded else trimmed.

(** ** Replay state *)

Record ReplayState := { rs_state : string; rs_version : Z }.
Record CommandCtx := { cc_targets : list string; cc_pre_canceled : list string }.

Record CheckState := {
  last_seq : option Z;
  replay : gmap (string * string) ReplayState;
  seen_keys : gset (string * string * string);
  seen_creation : gset (string * string);
  commands : gmap string CommandCtx;
}.

Definition check_init : CheckState :=
  {| last_seq := None; replay := ∅; seen_keys := ∅; seen_creation := ∅; commands := ∅ |}.

(** [u32 + 1] as compiled without overflow checks. *)
Definition wrapping_succ_u32 (n : Z) : Z := (n + 1) mod (u32_max + 1).

Definition full_key (event : Event) : option (string * string * string) :=
  match idempotency_key event with
  | Some key => Some (aggregate_type event, aggregate_id event, key)
  | None => None
  end.

(** The envelope-level checks. *)
Definition envelope_findings (st : CheckState) (event : Event) : list Finding :=
  flag event (match accept_schema_version (schema_version event) ENVELOPE_SCHEMA_VERSION [] with
              | Ok _ => false | Err _ => true end) SchemaVersionUnknown ++
  flag event (match last_seq st with
              | Some prev => (global_sequence event <=? prev)%Z | None => false end)
       SeqNotIncreasing ++
  flag event (INLINE_PAYLOAD_MAX_BYTES <? json_len (payload event))%Z InlinePayloadTooLarge ++
  flag event (match payload_ref event with
              | Some r => negb (Str.contains_byte Str.colon (pr_digest r)) || Str.is_empty (pr_media_type r)
              | None => false end) PayloadRefInvalid ++
  flag event (match full_key event with
              | Some k => bool_decide (k ∈ seen_keys st) | None => false end)
       IdempotencyDuplicate.

Definition note_envelope (st : CheckState) (event : Event) : CheckState :=
  {| last_seq := Some (global_sequence event);
     replay := replay st;
     seen_keys := match full_key event with
                  | Some k => {[k]} ∪ seen_keys st | None => seen_keys st end;
     seen_creation := seen_creation st;
     commands := commands st |}.

Definition is_creation (event : Event) : bool := Str.ends_with (event_type event) "_created".
Definition is_state_change (event : Event) : bool :=
  Str.ends_with (event_type event) "_state_changed".

Definition governed (agg_type : string) : bool := bool_decide (is_Some (machine_initial agg_type)).

(** Spelling, version contiguity and creation-first. *)
Definition aggregate_findings (st : CheckState) (agg_type : string) (event : Event) : list Finding :=
  let expected_version :=
    match replay st !! agg_key event with
    | Some r => wrapping_succ_u32 (rs_version r) | None => 1%Z end in
  flag event (negb (bool_decide (agg_type = aggregate_type event)) && governed agg_type)
       EnvelopeMalformed ++
  flag event (negb (aggregate_version event =? expected_version)%Z) AggregateVersionGap ++
  flag event (bool_decide (replay st !! agg_key event = None)
              && negb (is_creation event) && governed agg_type) CreationMissing.

Definition with_replay (st : CheckState) (r : gmap (string * string) ReplayState) : CheckState :=
  {| last_seq := last_seq st; replay := r; seen_keys := seen_keys st;
     seen_creation := seen_creation st; commands := commands st |}.

(** The version cursor advances on every event. *)
Definition touch (st : CheckState) (event : Event) : CheckState :=
  with_replay st
    (match replay st !! agg_key event with
     | Some r => <[agg_key event := {| rs_state := rs_state r;
                                       rs_version := aggregate_version event |}]> (replay st)
     | None => <[agg_key event := {| rs_state := ""; rs_version := aggregate_version event |}]>
                 (replay st)
     end).

(** [replay.get_mut(&agg_key).state = s]. *)
Definition set_state (st : CheckState) (k : string * string) (s : string) : CheckState :=
  with_replay st (alter (fun r => {| rs_state := s; rs_version := rs_version r |}) k (replay st)).

Definition attempt_state (st : CheckState) (target : string) : option string :=
  rs_state <$> replay st !! ("attempt", target).

(** The [_created] branch. *)
Definition creation_step (st : CheckState) (agg_type : string) (event : Event)
  : CheckState * list Finding :=
  let already_created := bool_decide (agg_key event ∈ seen_creation st) in
  let seeded := payload_str event "state" in
  let initial := match machine_initial agg_type with
                 | Some want => want | None => default "" seeded end in
  let findings :=
    flag event already_created CreatedNotFirst ++
    flag event (match machine_initial agg_type, seeded with
                | Some want, Some seeded => negb (bool_decide (seeded = want))
                | _, _ => false end) CreationStateInvalid in
  let st1 :=
    if already_created then st
    else set_state {| last_seq := last_seq st; replay := replay st; seen_keys := seen_keys st;
                      seen_creation := {[agg_key event]} ∪ seen_creation st;
                      commands := commands st |} (agg_key event) initial in
  let st2 :=
    if bool_decide (agg_type = "command") then
      let targets := default [] (payload_targets event) in
      let pre_canceled := filter (fun t => attempt_state st1 t = Some "canceled") targets in
      {| last_seq := last_seq st1; replay := replay st1; seen_keys := seen_keys st1;
         seen_creation := seen_creation st1;
         commands := <[aggregate_id event := {| cc_targets := targets;
                                                cc_pre_canceled := pre_canceled |}]> (commands st1) |}
    else st1 in
  (st2, findings).

(** [for t in listed { if !targets.contains(&t) { targets.push(t) } }]. *)
Definition union_targets (created listed : list string) : list string :=
  foldl (fun ts t => if bool_decide (t ∈ ts) then ts else ts ++ [t]) created listed.

(** The [clean] arm: agreement of the outcome with every target. *)
Definition clean_findings (st : CheckState) (event : Event) : list Finding :=
  let ctx := commands st !! aggregate_id event in
  let created := match ctx with Some c => cc_targets c | None => [] end in
  let restated := payload_targets event in
  let dropped := match restated with
                 | Some listed => filter (fun t => t ∉ listed) created | None => [] end in
  let targets := match restated with
                 | Some listed => union_targets created listed | None => created end in
  map (fun _ => at_ event OutcomeDisagreesWithTargets) dropped ++
  flag event (bool_decide (targets = [])) OutcomeDisagreesWithTargets ++
  flat_map (fun target =>
      if negb (bool_decide (attempt_state st target = Some "canceled"))
      then [at_ event OutcomeDisagreesWithTargets]
      else match ctx with
           | Some c => flag event (bool_decide (target ∈ cc_pre_canceled c)) OutcomeDisagreesWithTargets
           | None => []
           end) targets.

(** The command outcome discipline. *)
Definition outcome_findings (st : CheckState) (event : Event) (to : string) : list Finding :=
  let outcome := payload_str event "outcome" in
  if bool_decide (to = "verification_complete") then
    match outcome with
    | None => [at_ event OutcomeMissing]
    | Some o =>
        if bool_decide (o = "clean") then clean_findings st event
        else if bool_decide (o = "partial") || bool_decide (o = "unknown") then []
        else [at_ event StateChangeMalformed]
    end
  else flag event (bool_decide (is_Some outcome)) OutcomeOnNonTerminal.

Definition is_flip_wire (from to : string) : bool :=
  bool_decide (from = "running") && bool_decide (to = "blocked")
  || bool_decide (from = "blocked") && bool_decide (to = "running").

(** The [_state_changed] branch. *)
Definition state_change_step (st : CheckState) (agg_type : string) (event : Event)
  : CheckState * list Finding :=
  match payload_str event "from", payload_str event "to" with
  | Some from, Some to =>
      let mismatch :=
        flag event (bool_decide (agg_key event ∈ seen_creation st)
                    && match replay st !! agg_key event with
                       | Some current => negb (bool_decide (rs_state current = from))
                       | None => false end) FromStateMismatch in
      let edge :=
        match fsm_check agg_type from to with
        | Some (_, true) => [at_ event TerminalMutation]
        | Some (false, false) => [at_ event IllegalTransition]
        | _ => []
        end in
      let flip :=
        if bool_decide (agg_type = "attempt") && is_flip_wire from to then
          flag event (negb (bool_decide (actor_kind (actor event) = LIVENESS_PRODUCER_KIND)))
               FlipWrongActor ++
          flag event (receipt_missing (payload_str event "receipt_id")) FlipMissingReceipt
        else [] in
      let outcome :=
        if bool_decide (agg_type = "command") then outcome_findings st event to else [] in
      (set_state st (agg_key event) to, mismatch ++ edge ++ flip ++ outcome)
  | _, _ => (st, [at_ event StateChangeMalformed])
  end.

(** One iteration of the loop of [check_stream]. *)
Definition check_event (st : CheckState) (event : Event) : CheckState * list Finding :=
  let agg_type := canonical_type (aggregate_type event) in
  let before := envelope_findings st event ++ aggregate_findings st agg_type event in
  let st1 := touch (note_envelope st event) event in
  let '(st2, rest) :=
    if is_creation event then creation_step st1 agg_type event
    else if is_state_change event then state_change_step st1 agg_type event
    else (st1, []) in
  (st2, before ++ rest).

Definition check_from (st : CheckState) (events : list Event) : CheckState * list Finding :=
  foldl (fun acc e => let '(st, fs) := acc in
                      let '(st', fs') := check_event st e in (st', fs ++ fs'))
        (st, []) events.

(** Replay [events] in stream order and return every violation found. *)
Definition check_stream (events : list Event) : list Finding := (check_from check_init events).2.

(** ** What a lawful life of a governed aggregate is *)

Definition edge_wires (S : Type) `{SM : StateMachine S} : list (string * string) :=
  map (fun e => (wire_name e.1, wire_name e.2)) (EDGES (S := S)).

(** The edges of the machine a wire type name selects. *)
Definition edges_of (agg_type : string) : list (string * string) :=
  if bool_decide (agg_type = "task") then edge_wires TaskState
  else if bool_decide (agg_type = "attempt") then edge_wires AttemptState
  else if bool_decide (agg_type = "message") then edge_wires MessageState
  else if bool_decide (agg_type = "command") then edge_wires CommandState
  else [].

(** The flip rule on one event. *)
Definition flip_ok (agg_type from to : string) (event : Event) : bool :=
  negb (bool_decide (agg_type = "attempt") && is_flip_wire from to)
  || bool_decide (actor_kind (actor event) = LIVENESS_PRODUCER_KIND)
     && negb (receipt_missing (payload_str event "receipt_id")).

(** A command carries an outcome exactly on its terminal transition. *)
Definition outcome_ok (agg_type to : string) (event : Event) : bool :=
  negb (bool_decide (agg_type = "command"))
  || if bool_decide (to = "verification_complete")
     then bool_decide (payload_str event "outcome" ∈ [Some "clean"; Some "partial"; Some "unknown"])
     else bool_decide (payload_str event "outcome" = None).

Definition life_step (agg_type : string) (s : option string) (event : Event)
  : option (option string) :=
  match s with
  | None =>
      if is_creation event
         && bool_decide (payload_str event "state" = None \/
                         payload_str event "state" = machine_initial agg_type)
      then Some (machine_initial agg_type) else None
  | Some cur =>
      if is_creation event then None
      else if is_state_change event then
        match payload_str event "from", payload_str event "to" with
        | Some from, Some to =>
            if bool_decide (from = cur) && bool_decide ((from, to) ∈ edges_of agg_type)
               && flip_ok agg_type from to event && outcome_ok agg_type to event
            then Some (Some to) else None
        | _, _ => None
        end
      else Some (Some cur)
  end.

(** The state a history leads to: [Some None] before any event, [None] when the
    history is unlawful. *)
Definition lifecycle (agg_type : string) (events : list Event) : option (option string) :=
  foldl (fun acc e => match acc with Some s => life_step agg_type s e | None => None end)
        (Some None) events.

Definition of_key (k : string * string) (events : list Event) : list Event :=
  filter (fun e => agg_key e = k) events.

(** ** Lemmas *)

Lemma flag_nil event b code : flag event b code = [] <-> b = false.
Proof. by destruct b. Qed.

Lemma check_from_acc st fs es :
  foldl (fun acc e => let '(st, fs) := acc in
                      let '(st', fs') := check_event st e in (st', fs ++ fs')) (st, fs) es
  = ((check_from st es).1, fs ++ (check_from st es).2).
Proof.
  unfold check_from. revert st fs. induction es as [|e es IH]; intros st fs; simpl.
  { by rewrite app_nil_r. }
  destruct (check_event st e) as [st' fs']. rewrite (IH st' (fs ++ fs')), (IH st' fs').
  simpl. by rewrite app_assoc.
Qed.

Lemma check_snoc es e :
  (check_from check_init (es ++ [e])).1 = (check_event (check_from check_init es).1 e).1 /\
  check_stream (es ++ [e]) = check_stream es ++ (check_event (check_from check_init es).1 e).2.
Proof.
  unfold check_stream, check_from. rewrite foldl_app. simpl.
  destruct (foldl _ _ es) as [st fs]. simpl. by destruct (check_event st e).
Qed.

Lemma lifecycle_snoc t es e :
  lifecycle t (es ++ [e]) =
  match lifecycle t es with Some s => life_step t s e | None => None end.
Proof. unfold lifecycle. by rewrite foldl_app. Qed.

Lemma of_key_snoc k es e :
  of_key k (es ++ [e]) = of_key k es ++ (if bool_decide (agg_key e = k) then [e] else []).
Proof.
  unfold of_key. rewrite filter_app. f_equal.
  rewrite filter_cons, filter_nil. by repeat (case_decide || case_bool_decide).
Qed.

(** The four governed names. *)
Lemma machine_initial_cases t i :
  machine_initial t = Some i ->
  (t = "task" /\ i = "submitted") \/ (t = "attempt" /\ i = "queued") \/
  (t = "message" /\ i = "accepted") \/ (t = "command" /\ i = "issued").
Proof.
  unfold machine_initial. intros Hi.
  repeat match type of Hi with
  | context [bool_decide ?P] => destruct (bool_decide_reflect P); [simplify_eq; tauto|]
  end. done.
Qed.

Lemma canonical_governed t i : machine_initial t = Some i -> canonical_type t = t.
Proof. by intros [[-> _]|[[-> _]|[[-> _]|[-> _]]]]%machine_initial_cases. Qed.

Lemma fsm_check_machine_edge (S : Type) `{SM : StateMachine S} `{!StateMachineLaws S} from to b :
  fsm_check_machine S from to = (true, b) -> (from, to) ∈ edge_wires S.
Proof.
  unfold fsm_check_machine. destruct (of_wire from) as [f|] eqn:Hf; [|done].
  destruct (of_wire to) as [t|] eqn:Ht; [|done]. intros [= He _].
  apply of_wire_Some in Hf as <-, Ht as <-. apply can_transition_spec in He.
  unfold edge_wires. apply list_elem_of_fmap. by exists (f, t).
Qed.

Lemma fsm_check_edge t from to b :
  fsm_check t from to = Some (true, b) -> (from, to) ∈ edges_of t.
Proof.
  unfold fsm_check, edges_of. intros Hc.
  repeat match type of Hc with
  | context [bool_decide ?P] =>
      destruct (bool_decide P); [injection Hc as Hc; exact (fsm_check_machine_edge _ _ _ _ Hc)|]
  end. done.
Qed.

Lemma fsm_check_governed t i from to :
  machine_initial t = Some i -> is_Some (fsm_check t from to).
Proof. intros [[-> _]|[[-> _]|[[-> _]|[-> _]]]]%machine_initial_cases; by eexists. Qed.

(** *** Frame: an event touches its own aggregate's replay entry only *)

Lemma set_state_lookup st k s k' :
  replay (set_state st k s) !! k' =
  if bool_decide (k = k') then (fun r => {| rs_state := s; rs_version := rs_version r |}) <$> replay st !! k'
  else replay st !! k'.
Proof.
  unfold set_state. simpl. case_bool_decide as Hk.
  - subst. apply lookup_alter_eq.
  - by apply lookup_alter_ne.
Qed.

Lemma touch_lookup st e k :
  replay (touch st e) !! k =
  if bool_decide (agg_key e = k)
  then Some {| rs_state := match replay st !! k with Some r => rs_state r | None => "" end;
               rs_version := aggregate_version e |}
  else replay st !! k.
Proof.
  unfold touch. simpl. case_bool_decide as Hk.
  - subst. destruct (replay st !! agg_key e); by rewrite lookup_insert_eq.
  - destruct (replay st !! agg_key e); by rewrite lookup_insert_ne.
Qed.

Lemma creation_step_replay st t e :
  replay (creation_step st t e).1 =
  if bool_decide (agg_key e ∈ seen_creation st) then replay st
  else replay (set_state st (agg_key e)
                 (match machine_initial t with Some w => w | None => default "" (payload_str e "state") end)).
Proof. unfold creation_step. simpl. by repeat case_bool_decide. Qed.

Lemma creation_step_seen st t e :
  seen_creation (creation_step st t e).1 = {[agg_key e]} ∪ seen_creation st.
Proof. unfold creation_step. simpl. repeat case_bool_decide; simpl; set_solver. Qed.

Lemma state_change_step_seen st t e :
  seen_creation (state_change_step st t e).1 = seen_creation st.
Proof. unfold state_change_step. by repeat case_match. Qed.

Lemma state_change_step_replay st t e :
  replay (state_change_step st t e).1 =
  match payload_str e "from", payload_str e "to" with
  | Some _, Some to => replay (set_state st (agg_key e) to)
  | _, _ => replay st
  end.
Proof. unfold state_change_step. by repeat case_match. Qed.

(** *** The state after one event *)

Definition branch (st : CheckState) (e : Event) : CheckState * list Finding :=
  let t := canonical_type (aggregate_type e) in
  if is_creation e then creation_step st t e
  else if is_state_change e then state_change_step st t e
  else (st, []).

Lemma check_event_unfold st e :
  check_event st e =
  let st1 := touch (note_envelope st e) e in
  ((branch st1 e).1,
   (envelope_findings st e ++ aggregate_findings st (canonical_type (aggregate_type e)) e)
   ++ (branch st1 e).2).
Proof. unfold check_event, branch. by repeat case_match. Qed.

Lemma branch_env st e :
  last_seq (branch st e).1 = last_seq st /\ seen_keys (branch st e).1 = seen_keys st.
Proof.
  unfold branch, creation_step, state_change_step. by repeat (case_match || case_bool_decide).
Qed.

Lemma branch_replay_ne st e k :
  agg_key e <> k -> replay (branch st e).1 !! k = replay st !! k.
Proof.
  intros Hk. unfold branch. destruct (is_creation e); [|destruct (is_state_change e); [|done]].
  - rewrite creation_step_replay. case_bool_decide; [done|].
    rewrite set_state_lookup. by rewrite bool_decide_eq_false_2.
  - rewrite state_change_step_replay. destruct (payload_str e "from"), (payload_str e "to"); try done.
    rewrite set_state_lookup. by rewrite bool_decide_eq_false_2.
Qed.

Lemma branch_version st e k :
  rs_version <$> replay (branch st e).1 !! k = rs_version <$> replay st !! k.
Proof.
  assert (forall s, rs_version <$> replay (set_state st (agg_key e) s) !! k
                    = rs_version <$> replay st !! k) as Hs.
  { intros s. rewrite set_state_lookup. case_bool_decide; [|done].
    by destruct (replay st !! k). }
  unfold branch. destruct (is_creation e); [|destruct (is_state_change e); [|done]].
  - rewrite creation_step_replay. case_bool_decide; [done|apply Hs].
  - rewrite state_change_step_replay. destruct (payload_str e "from"), (payload_str e "to"); done || apply Hs.
Qed.

Lemma branch_seen st e k :
  k ∈ seen_creation (branch st e).1 <->
  k ∈ seen_creation st \/ (is_creation e = true /\ k = agg_key e).
Proof.
  unfold branch. destruct (is_creation e); [|destruct (is_state_change e)].
  - rewrite creation_step_seen. set_solver.
  - rewrite state_change_step_seen. naive_solver.
  - naive_solver.
Qed.

(** *** What the checker's bookkeeping means after a clean prefix *)

Definition wrap_u32 (n : nat) : Z := Z.of_nat n mod (u32_max + 1).

(** The declaration a command's context records. *)
Definition declared_by (es : list Event) (id : string) (ctx : CommandCtx) : Prop :=
  exists before created after,
    es = before ++ created :: after /\
    agg_key created = ("command", id) /\ is_creation created = true /\
    cc_targets ctx = default [] (payload_targets created) /\
    forall target, target ∈ cc_targets ctx ->
      (target ∈ cc_pre_canceled ctx <->
       lifecycle "attempt" (of_key ("attempt", target) before) = Some (Some "canceled")).

Record cert_inv (es : list Event) (st : CheckState) : Prop := {
  ci_last : match last_seq st with
            | None => es = []
            | Some m => Forall (fun e => global_sequence e <= m)%Z es end;
  ci_sorted : StronglySorted Z.lt (map global_sequence es);
  ci_keys : NoDup (omap full_key es);
  ci_seen_keys : forall k, k ∈ seen_keys st <-> k ∈ omap full_key es;
  ci_version : forall k, rs_version <$> replay st !! k =
                 match of_key k es with [] => None | l => Some (wrap_u32 (length l)) end;
  ci_versions : forall k i e, of_key k es !! i = Some e -> aggregate_version e = wrap_u32 (S i);
  ci_life : forall t id w, machine_initial t = Some w ->
              lifecycle t (of_key (t, id) es) = Some (rs_state <$> replay st !! (t, id));
  ci_created : forall t id w, machine_initial t = Some w ->
              ((t, id) ∈ seen_creation st <-> of_key (t, id) es <> []);
  ci_command : forall id, of_key ("command", id) es <> [] -> is_Some (commands st !! id);
  ci_declared : forall id ctx, commands st !! id = Some ctx -> declared_by es id ctx;
}.

Lemma cert_inv_init : cert_inv [] check_init.
Proof.
  split; simpl; try done; try constructor; try set_solver.
Qed.

Section Step.
Context (es : list Event) (st : CheckState) (e : Event).
Context (Hinv : cert_inv es st) (Hclean : (check_event st e).2 = []).

Let st' := (check_event st e).1.
Let mid := touch (note_envelope st e) e.

Lemma clean_parts :
  envelope_findings st e = [] /\
  aggregate_findings st (canonical_type (aggregate_type e)) e = [] /\
  (branch mid e).2 = [].
Proof.
  rewrite check_event_unfold in Hclean. simpl in Hclean.
  apply app_eq_nil in Hclean as [[H1 H2]%app_eq_nil H3]. done.
Qed.

Lemma st'_branch : st' = (branch mid e).1.
Proof. unfold st'. by rewrite check_event_unfold. Qed.

Lemma step_last :
  last_seq st' = Some (global_sequence e) /\
  Forall (fun e' => global_sequence e' < global_sequence e)%Z es.
Proof.
  rewrite st'_branch. destruct (branch_env mid e) as [-> _]. split; [done|].
  destruct clean_parts as [Henv _]. unfold envelope_findings in Henv.
  apply app_eq_nil in Henv as [_ Henv]. apply app_eq_nil in Henv as [Hseq _].
  apply flag_nil in Hseq. pose proof (ci_last _ _ Hinv) as Hl.
  destruct (last_seq st) as [m|]; [|by subst].
  apply Z.leb_gt in Hseq. eapply Forall_impl; [exact Hl|]. simpl. lia.
Qed.

Lemma step_key : match full_key e with Some k => k ∉ omap full_key es | None => True end.
Proof.
  destruct clean_parts as [Henv _]. unfold envelope_findings in Henv.
  repeat apply app_eq_nil in Henv as [_ Henv].
  apply flag_nil in Henv. destruct (full_key e) as [k|]; [|done].
  rewrite <-(ci_seen_keys _ _ Hinv). by apply bool_decide_eq_false in Henv.
Qed.

Lemma step_seen_keys k :
  k ∈ seen_keys st' <-> k ∈ omap full_key (es ++ [e]).
Proof.
  rewrite st'_branch. destruct (branch_env mid e) as [_ ->]. simpl.
  rewrite omap_app, elem_of_app. simpl.
  pose proof (ci_seen_keys _ _ Hinv k). destruct (full_key e); set_solver.
Qed.

Lemma step_version_own :
  aggregate_version e = wrap_u32 (S (length (of_key (agg_key e) es))).
Proof.
  destruct clean_parts as (_ & Hagg & _). unfold aggregate_findings in Hagg.
  apply app_eq_nil in Hagg as [_ Hagg]. apply app_eq_nil in Hagg as [Hgap _].
  apply flag_nil in Hgap. unbool. rewrite Hgap.
  pose proof (ci_version _ _ Hinv (agg_key e)) as Hv.
  destruct (replay st !! agg_key e) as [r|], (of_key _ es) as [|x l]; try done.
  simpl in Hv. injection Hv as ->. unfold wrapping_succ_u32, wrap_u32.
  rewrite Zplus_mod_idemp_l, (Nat2Z.inj_succ (length (x :: l))). done.
Qed.

Lemma step_version k :
  rs_version <$> replay st' !! k =
  match of_key k (es ++ [e]) with [] => None | l => Some (wrap_u32 (length l)) end.
Proof.
  rewrite st'_branch, branch_version. unfold mid. rewrite touch_lookup, of_key_snoc.
  case_bool_decide as Hk.
  - subst k. simpl. rewrite step_version_own. destruct (of_key _ es) as [|x l]; [done|].
    simpl. by rewrite length_app, Nat.add_1_r.
  - rewrite app_nil_r. apply (ci_version _ _ Hinv).
Qed.

Lemma step_versions k i e' :
  of_key k (es ++ [e]) !! i = Some e' -> aggregate_version e' = wrap_u32 (S i).
Proof.
  rewrite of_key_snoc. intros [Hi|[Hlen Hi]]%lookup_app_Some.
  - by apply (ci_versions _ _ Hinv k).
  - case_bool_decide as Hk; [|by rewrite lookup_nil in Hi].
    apply list_lookup_singleton_Some in Hi as [Hi <-]. subst k.
    rewrite step_version_own. do 2 f_equal. lia.
Qed.
Lemma mid_replay_other k : agg_key e <> k -> replay st' !! k = replay st !! k.
Proof.
  intros Hk. rewrite st'_branch, branch_replay_ne by done.
  unfold mid. rewrite touch_lookup. by rewrite bool_decide_eq_false_2.
Qed.

Section Governed.
Context (t id w : string) (Hw : machine_initial t = Some w) (Hkey : agg_key e = (t, id)).

Lemma own_type : canonical_type (aggregate_type e) = t.
Proof. injection Hkey as -> _. by eapply canonical_governed. Qed.

Lemma replay_None_iff : replay st !! (t, id) = None <-> of_key (t, id) es = [].
Proof.
  pose proof (ci_version _ _ Hinv (t, id)) as Hv.
  destruct (replay st !! (t, id)), (of_key _ es); done.
Qed.

Lemma seen_iff : (t, id) ∈ seen_creation st <-> is_Some (replay st !! (t, id)).
Proof.
  rewrite (ci_created _ _ Hinv t id w Hw). rewrite <-replay_None_iff.
  apply not_eq_None_Some.
Qed.

(** The first event of a governed aggregate creates it lawfully. *)
Lemma governed_first :
  replay st !! (t, id) = None ->
  life_step t None e = Some (Some w) /\ rs_state <$> replay st' !! (t, id) = Some w.
Proof.
  intros Hnone. destruct clean_parts as (_ & Hagg & Hbr).
  unfold aggregate_findings in Hagg. do 2 apply app_eq_nil in Hagg as [_ Hagg].
  apply flag_nil in Hagg. rewrite Hkey, own_type, Hnone in Hagg.
  rewrite bool_decide_eq_true_2 in Hagg by done. simpl in Hagg.
  unfold governed in Hagg. rewrite Hw, andb_comm in Hagg. simpl in Hagg. unbool.
  unfold branch in Hbr. rewrite Hagg, own_type in Hbr. unfold creation_step in Hbr.
  cbn [snd] in Hbr. apply app_eq_nil in Hbr as [Hdup Hst].
  apply flag_nil in Hdup, Hst. rewrite Hw in Hst. split.
  - unfold life_step. rewrite Hagg, Hw. rewrite bool_decide_eq_true_2; [done|].
    destruct (payload_str e "state"); [|by left]. unbool. subst. by right.
  - rewrite st'_branch. unfold branch. rewrite Hagg, own_type, creation_step_replay, Hdup.
    rewrite set_state_lookup, Hkey, bool_decide_eq_true_2 by done.
    unfold mid. rewrite touch_lookup, Hkey, bool_decide_eq_true_2 by done.
    simpl. by rewrite Hw.
Qed.

(** A later event is a lawful step from the replayed state. *)
Lemma governed_next r :
  replay st !! (t, id) = Some r ->
  life_step t (Some (rs_state r)) e = Some (rs_state <$> replay st' !! (t, id)).
Proof.
  intros Hr. destruct clean_parts as (_ & _ & Hbr).
  assert ((t, id) ∈ seen_creation mid) as Hseen by (apply seen_iff; eauto).
  assert (replay mid !! (t, id) = Some {| rs_state := rs_state r;
                                          rs_version := aggregate_version e |}) as Hmid.
  { unfold mid. rewrite touch_lookup, Hkey, bool_decide_eq_true_2 by done.
    simpl. by rewrite Hr. }
  rewrite st'_branch. unfold branch in *. unfold life_step. rewrite own_type in *.
  destruct (is_creation e).
  { unfold creation_step in Hbr. cbn [snd] in Hbr. apply app_eq_nil in Hbr as [Hdup _].
    apply flag_nil in Hdup. rewrite Hkey in Hdup. by apply bool_decide_eq_false in Hdup. }
  destruct (is_state_change e); [|by cbn [fst]; rewrite Hmid].
  rewrite state_change_step_replay. unfold state_change_step in Hbr.
  destruct (payload_str e "from") as [from|], (payload_str e "to") as [to|]; try done.
  cbn [snd] in Hbr. apply app_eq_nil in Hbr as [Hmm Hbr].
  apply app_eq_nil in Hbr as [Hedge Hbr]. apply app_eq_nil in Hbr as [Hflip Hout].
  apply flag_nil in Hmm. rewrite Hkey, Hmid, bool_decide_eq_true_2 in Hmm by done.
  simpl in Hmm. unbool. subst from.
  rewrite bool_decide_eq_true_2 by done.
  assert ((rs_state r, to) ∈ edges_of t) as Hin.
  { destruct (fsm_check_governed t w (rs_state r) to Hw) as [[[] []] Hf];
      rewrite Hf in Hedge; try done. by eapply fsm_check_edge. }
  rewrite bool_decide_eq_true_2 by done.
  assert (flip_ok t (rs_state r) to e = true) as ->.
  { unfold flip_ok. destruct (_ && is_flip_wire _ _); [|done].
    apply app_eq_nil in Hflip as [Ha Hre]. apply flag_nil in Ha, Hre.
    apply negb_false_iff in Ha. by rewrite Ha, Hre. }
  assert (outcome_ok t to e = true) as ->.
  { unfold outcome_ok. destruct (bool_decide (t = "command")); [|done]. simpl.
    unfold outcome_findings in Hout. destruct (bool_decide (to = _)).
    - destruct (payload_str e "outcome") as [o|]; [|done].
      apply bool_decide_eq_true_2. repeat case_bool_decide; subst; done || set_solver.
    - apply flag_nil in Hout. apply bool_decide_eq_true_2. unbool.
      destruct (payload_str e "outcome"); [|done]. by destruct Hout. }
  cbn [andb]. rewrite set_state_lookup, Hkey, bool_decide_eq_true_2, Hmid by done. done.
Qed.
End Governed.

Lemma step_life t id w :
  machine_initial t = Some w ->
  lifecycle t (of_key (t, id) (es ++ [e])) = Some (rs_state <$> replay st' !! (t, id)).
Proof.
  intros Hw. rewrite of_key_snoc. case_bool_decide as Hk.
  - rewrite lifecycle_snoc, (ci_life _ _ Hinv t id w Hw).
    destruct (replay st !! (t, id)) as [r|] eqn:Hr.
    + exact (governed_next t id w Hw Hk r Hr).
    + destruct (governed_first t id w Hw Hk Hr) as [Hl ->]. exact Hl.
  - rewrite app_nil_r, mid_replay_other by done. by apply (ci_life _ _ Hinv t id w).
Qed.

Lemma step_created t id w :
  machine_initial t = Some w ->
  ((t, id) ∈ seen_creation st' <-> of_key (t, id) (es ++ [e]) <> []).
Proof.
  intros Hw. rewrite st'_branch, branch_seen, of_key_snoc. simpl.
  rewrite (ci_created _ _ Hinv t id w Hw). case_bool_decide as Hk; [|rewrite app_nil_r; naive_solver].
  split; [by destruct (of_key _ es)|]. intros _.
  destruct (of_key (t, id) es) as [|x l] eqn:Ho; [|by left].
  right. split; [|done]. apply (replay_None_iff t id) in Ho.
  destruct (governed_first t id w Hw Hk Ho) as [Hl _].
  unfold life_step in Hl. by destruct (is_creation e).
Qed.
(** A clean event spells a governed type canonically. *)
Lemma canonical_own w :
  machine_initial (canonical_type (aggregate_type e)) = Some w ->
  canonical_type (aggregate_type e) = aggregate_type e.
Proof.
  intros Hw. destruct clean_parts as (_ & Hagg & _). unfold aggregate_findings in Hagg.
  apply app_eq_nil in Hagg as [Hsp _]. apply flag_nil in Hsp.
  unfold governed in Hsp. rewrite Hw, andb_comm in Hsp. simpl in Hsp. by unbool.
Qed.

Lemma attempt_state_mid target :
  aggregate_type e = "command" ->
  replay (branch mid e).1 !! ("attempt", target) = replay st !! ("attempt", target).
Proof.
  intros Ht. rewrite <-st'_branch. apply mid_replay_other.
  unfold agg_key. rewrite Ht. by intros [=].
Qed.

Definition creates_command (id : string) : bool :=
  is_creation e && bool_decide (agg_key e = ("command", id)).

Lemma step_commands_other id :
  creates_command id = false -> commands st' !! id = commands st !! id.
Proof.
  intros Hc. rewrite st'_branch. unfold branch. unfold creates_command in Hc.
  destruct (is_creation e) eqn:Hcr; simpl in Hc.
  2:{ destruct (is_state_change e); [|done]. unfold state_change_step.
      by destruct (payload_str e "from"), (payload_str e "to"). }
  unbool. unfold creation_step. cbn [fst]. case_bool_decide as Ht; [|by case_bool_decide].
  cbn [commands]. pose proof (canonical_own "issued") as Hcan. rewrite Ht in Hcan.
  specialize (Hcan eq_refl).
  rewrite lookup_insert_ne; [by case_bool_decide|].
  intros <-. apply Hc. unfold agg_key. by rewrite <-Hcan.
Qed.

Lemma step_commands_own id :
  creates_command id = true ->
  exists ctx, commands st' !! id = Some ctx /\ declared_by (es ++ [e]) id ctx.
Proof.
  unfold creates_command. intros Hc. unbool. rename H into Hcr, H0 into Hk.
  pose proof Hk as [= Ht Hid].
  pose proof (own_type "command" id "issued" eq_refl Hk) as Hcan.
  assert (forall target, attempt_state (creation_step mid "command" e).1 target
                         = rs_state <$> replay st !! ("attempt", target)) as Hatt.
  { intros target. unfold attempt_state. f_equal.
    pose proof (attempt_state_mid target Ht) as Hm. unfold branch in Hm.
    by rewrite Hcr, Hcan in Hm. }
  rewrite st'_branch. unfold branch. rewrite Hcr, Hcan.
  eexists. unfold creation_step. cbn [fst]. rewrite bool_decide_eq_true_2 by done.
  cbn [commands]. rewrite Hid, lookup_insert_eq. split; [done|].
  exists es, e, []. split_and!; try done.
  intros target Hin. cbn [cc_targets cc_pre_canceled] in *.
  rewrite list_elem_of_filter, (ci_life _ _ Hinv "attempt" target "queued" eq_refl).
  specialize (Hatt target). unfold creation_step in Hatt. cbn [fst] in Hatt.
  rewrite (bool_decide_eq_true_2 ("command" = "command") eq_refl) in Hatt.
  unfold attempt_state in *. cbn [replay] in Hatt. rewrite Hatt.
  split; [by intros [-> _]|by intros [= ->]].
Qed.

Lemma declared_by_snoc id ctx : declared_by es id ctx -> declared_by (es ++ [e]) id ctx.
Proof.
  intros (b & c & a & -> & Hrest). exists b, c, (a ++ [e]).
  split; [|done]. by rewrite <-app_assoc.
Qed.

Lemma cert_inv_step : cert_inv (es ++ [e]) st'.
Proof.
  destruct step_last as [Hl Hlt]. split.
  - rewrite Hl. apply Forall_app. split; [|by constructor].
    eapply Forall_impl; [exact Hlt|]. simpl. lia.
  - rewrite map_app. simpl. pose proof (ci_sorted _ _ Hinv) as Hs. clear -Hs Hlt.
    induction es as [|x l IH]; simpl; [repeat constructor|].
    inversion_clear Hlt. inversion_clear Hs. constructor; [by apply IH|].
    apply Forall_app. split; [done|by constructor].
  - rewrite omap_app. apply NoDup_app. split_and!; [apply (ci_keys _ _ Hinv)| |].
    + intros k Hk. pose proof step_key. simpl. destruct (full_key e); set_solver.
    + simpl. destruct (full_key e); [apply NoDup_singleton|constructor].
  - apply step_seen_keys.
  - apply step_version.
  - apply step_versions.
  - apply step_life.
  - apply step_created.
  - intros id Hne. destruct (creates_command id) eqn:Hc.
    { destruct (step_commands_own id Hc) as (ctx & -> & _). eauto. }
    rewrite step_commands_other by done. apply (ci_command _ _ Hinv).
    intros Hnil. apply Hne. rewrite of_key_snoc, Hnil. simpl.
    unfold creates_command in Hc. case_bool_decide as Hk; [|done].
    apply (replay_None_iff "command" id) in Hnil.
    destruct (governed_first "command" id "issued" eq_refl Hk Hnil) as [Hlife _].
    unfold life_step in Hlife. by destruct (is_creation e).
  - intros id ctx Hctx. destruct (creates_command id) eqn:Hc.
    + destruct (step_commands_own id Hc) as (ctx' & Heq & ?). congruence.
    + rewrite step_commands_other in Hctx by done.
      by apply declared_by_snoc, (ci_declared _ _ Hinv).
Qed.
End Step.

Lemma cert_inv_clean es :
  check_stream es = [] -> cert_inv es (check_from check_init es).1.
Proof.
  induction es as [|e es IH] using rev_ind; [intros _; apply cert_inv_init|].
  destruct (check_snoc es e) as [-> ->]. intros [H1 H2]%app_eq_nil.
  apply cert_inv_step; auto.
Qed.

(** A prefix of a clean stream is clean. *)
Lemma check_stream_prefix es1 es2 : check_stream (es1 ++ es2) = [] -> check_stream es1 = [].
Proof.
  induction es2 as [|e es2 IH] using rev_ind; [by rewrite app_nil_r|].
  rewrite app_assoc. destruct (check_snoc (es1 ++ es2) e) as [_ ->].
  intros [H1 _]%app_eq_nil. by apply IH.
Qed.

(** ** Properties *)

(** A certified stream has strictly rising sequence numbers,
    versions that count up from 1 per aggregate (modulo the 32-bit wrap of the
    checker) and no idempotency key repeated within an aggregate. *)
Theorem certified_order (events : list Event) :
  check_stream events = [] ->
  StronglySorted Z.lt (map global_sequence events) /\
  (forall k i e, of_key k events !! i = Some e -> aggregate_version e = wrap_u32 (S i)) /\
  NoDup (omap full_key events).
Proof.
  intros Hinv%cert_inv_clean. split_and!;
    [apply (ci_sorted _ _ Hinv)|apply (ci_versions _ _ Hinv)|apply (ci_keys _ _ Hinv)].
Qed.

(** In a certified stream the events of every governed aggregate
    are a legal life of its machine: created once, in the initial state, and
    moved only along edges from the state it was in. *)
Theorem certified_lifecycle (events : list Event) (agg_type id initial : string) :
  check_stream events = [] -> machine_initial agg_type = Some initial ->
  is_Some (lifecycle agg_type (of_key (agg_type, id) events)).
Proof.
  intros Hinv%cert_inv_clean Hw. rewrite (ci_life _ _ Hinv _ _ _ Hw). eauto.
Qed.

Lemma union_targets_elem created listed t :
  t ∈ union_targets created listed <-> t ∈ created \/ t ∈ listed.
Proof.
  unfold union_targets. revert created. induction listed as [|x l IH]; intros created; simpl.
  { set_solver. }
  rewrite IH. case_bool_decide; set_solver.
Qed.

(** The clean arm found nothing: every target, declared or restated, agrees. *)
Lemma clean_findings_nil st e :
  clean_findings st e = [] ->
  let ctx := commands st !! aggregate_id e in
  let created := match ctx with Some c => cc_targets c | None => [] end in
  (forall listed, payload_targets e = Some listed -> forall t, t ∈ created -> t ∈ listed) /\
  (created <> [] \/ exists listed, payload_targets e = Some listed /\ listed <> []) /\
  (forall t, t ∈ created \/ t ∈ default [] (payload_targets e) ->
     attempt_state st t = Some "canceled" /\
     forall c, ctx = Some c -> t ∉ cc_pre_canceled c).
Proof.
  unfold clean_findings. intros H. apply app_eq_nil in H as [Hdrop H].
  apply app_eq_nil in H as [Hne Hall]. apply flag_nil, bool_decide_eq_false in Hne.
  apply map_eq_nil in Hdrop. cbn zeta.
  set (created := match commands st !! aggregate_id e with Some c => cc_targets c | None => [] end) in *.
  assert (forall t, t ∈ created \/ t ∈ default [] (payload_targets e) <->
          t ∈ match payload_targets e with
              | Some listed => union_targets created listed | None => created end) as Hun.
  { intros t. destruct (payload_targets e); [by rewrite union_targets_elem|]. set_solver. }
  split_and!.
  - intros listed Hl t Ht. rewrite Hl in Hdrop. apply filter_none with (x := t) in Hdrop; [|done].
    by apply dec_stable in Hdrop.
  - destruct (payload_targets e) as [listed|]; [|by left].
    destruct created as [|x l]; [|by left]. right. exists listed. split; [done|].
    by intros ->.
  - intros t Ht%Hun. apply list_elem_of_In in Ht.
    assert (forall (f : string -> list Finding) l, flat_map f l = [] -> In t l -> f t = []) as Hfm.
    { intros f l. induction l as [|x l IH]; simpl; [done|].
      intros [H1 H2]%app_eq_nil [->|Hin]; auto. }
    pose proof (Hfm _ _ Hall Ht) as Hf. cbn beta in Hf. case_bool_decide as Hst; [|done].
    split; [done|]. intros c Hc. rewrite Hc in Hf. simpl in Hf.
    apply flag_nil, bool_decide_eq_false in Hf. done.
Qed.

Lemma clean_event_outcome st e id :
  (check_event st e).2 = [] -> agg_key e = ("command", id) ->
  event_type e = "command_state_changed" ->
  payload_str e "to" = Some "verification_complete" -> payload_str e "outcome" = Some "clean" ->
  clean_findings (touch (note_envelope st e) e) e = [].
Proof.
  intros He Hk Hty Hto Hout. destruct (clean_parts st e He) as (_ & _ & Hbr).
  unfold branch, is_creation, is_state_change in Hbr.
  rewrite Hty, (own_type e "command" id "issued" eq_refl Hk) in Hbr. simpl in Hbr.
  unfold state_change_step in Hbr. rewrite Hto in Hbr.
  destruct (payload_str e "from"); [|done]. cbn [snd] in Hbr.
  do 3 apply app_eq_nil in Hbr as [_ Hbr]. rewrite bool_decide_eq_true_2 in Hbr by done.
  unfold outcome_findings in Hbr. rewrite Hout in Hbr.
  by rewrite !bool_decide_eq_true_2 in Hbr by done.
Qed.

Lemma command_known es st e id :
  cert_inv es st -> (check_event st e).2 = [] -> agg_key e = ("command", id) ->
  is_creation e = false -> exists ctx, commands st !! id = Some ctx /\ declared_by es id ctx.
Proof.
  intros Hinv He Hk Hnc. destruct (ci_command _ _ Hinv id) as [ctx Hctx].
  { intros Hnil. apply (replay_None_iff es st Hinv) in Hnil.
    destruct (governed_first st e He "command" id "issued" eq_refl Hk Hnil) as [Hl _].
    unfold life_step in Hl. by rewrite Hnc in Hl. }
  exists ctx. split; [done|]. by apply (ci_declared _ _ Hinv).
Qed.

(** In a certified stream a command verified clean was created
    earlier; its verification restates every declared target and names at least
    one, every named target is canceled by then, and no declared one was already
    canceled when the command was created. *)
Theorem certified_clean_outcome (before after : list Event) (e : Event) (id : string) :
  check_stream (before ++ e :: after) = [] ->
  agg_key e = ("command", id) -> event_type e = "command_state_changed" ->
  payload_str e "to" = Some "verification_complete" -> payload_str e "outcome" = Some "clean" ->
  exists earlier created later,
    before = earlier ++ created :: later /\
    agg_key created = ("command", id) /\ is_creation created = true /\
    let declared := default [] (payload_targets created) in
    let restated := default declared (payload_targets e) in
    (forall target, target ∈ declared -> target ∈ restated) /\
    (exists target, target ∈ restated) /\
    (forall target, target ∈ declared ->
       lifecycle "attempt" (of_key ("attempt", target) earlier) <> Some (Some "canceled")) /\
    (forall target, target ∈ restated ->
       lifecycle "attempt" (of_key ("attempt", target) before) = Some (Some "canceled")).
Proof.
  intros Hclean Hk Hty Hto Hout.
  replace (before ++ e :: after) with ((before ++ [e]) ++ after) in Hclean
    by (by rewrite <-app_assoc).
  apply check_stream_prefix in Hclean. destruct (check_snoc before e) as [_ Hsn].
  rewrite Hsn in Hclean. apply app_eq_nil in Hclean as [Hb He]. clear Hsn.
  apply cert_inv_clean in Hb. set (st := (check_from check_init before).1) in *.
  destruct (command_known _ _ e id Hb He Hk) as (ctx & Hctx & ea & cr & la & Hbf & Hkc & Hcr & Htg & Hpre).
  { unfold is_creation. by rewrite Hty. }
  apply (clean_event_outcome st e id) in He; [|done..].
  apply clean_findings_nil in He. cbn zeta in He. pose proof Hk as [= _ Hid].
  change (commands (touch (note_envelope st e) e)) with (commands st) in He.
  rewrite Hid, Hctx in He. destruct He as (Hsub & Hsome & Hall).
  assert (forall target, attempt_state (touch (note_envelope st e) e) target
            = rs_state <$> replay st !! ("attempt", target)) as Hatt.
  { intros target. unfold attempt_state. rewrite touch_lookup.
    rewrite bool_decide_eq_false_2; [done|]. rewrite Hk. by intros [=]. }
  exists ea, cr, la. cbn zeta. rewrite <-Htg. split_and!; try done.
  - intros target Hin. destruct (payload_targets e); [|done]. by eapply Hsub.
  - destruct Hsome as [Hcne|(listed & Hl & Hlne)].
    + destruct (cc_targets ctx) as [|x l] eqn:Hcc; [done|]. exists x.
      destruct (payload_targets e) as [listed|]; simpl; [|left].
      apply (Hsub listed); [done|left].
    + rewrite Hl. destruct listed as [|x l]; [done|]. exists x. left.
  - intros target Hin Hcanceled. apply (Hpre target Hin) in Hcanceled.
    destruct (Hall target (or_introl Hin)) as [_ Hn]. by apply (Hn ctx).
  - intros target Hin. rewrite (ci_life _ _ Hb "attempt" target "queued" eq_refl).
    rewrite <-Hatt. f_equal. apply Hall. destruct (payload_targets e); [by right|by left].
Qed.

(** ** Witnesses *)

Definition demo_event (seq : Z) (ty id evt kind : string) (version : Z) (entries : list (string * json))
  : Event :=
  {| event_id := ty +:+ ":" +:+ id +:+ ":" +:+ Numeric.to_numeric_text version;
     project_id := "p"; aggregate_type := ty; aggregate_id := id; aggregate_version := version;
     event_type := evt; schema_version := 1; global_sequence := seq;
     occurred_at := "2026-01-01T00:00:00Z"; appended_at := "2026-01-01T00:00:00Z";
     actor := {| actor_kind := kind; actor_id := None |};
     origin := {| origin_system := "gw"; origin_ref := None |};
     causation_id := None; correlation_id := None;
     idempotency_key := Some ("k" +:+ Numeric.to_numeric_text seq);
     payload := JObj entries; payload_ref := None |}.

Definition demo_change (seq : Z) (ty id : string) (version : Z) (from to : string)
  (more : list (string * json)) : Event :=
  demo_event seq ty id (ty +:+ "_state_changed") "kernel" version
    ([("from", JStr from); ("to", JStr to)] ++ more).

(** An attempt is issued a stop command that runs to a clean end. *)
Definition demo_before : list Event :=
  [demo_event 1 "attempt" "a1" "attempt_created" "kernel" 1 [("state", JStr "queued")];
   demo_change 3 "attempt" "a1" 2 "queued" "leased" [];
   demo_event 4 "command" "c1" "command_created" "kernel" 1 [("targets", JArr [JStr "a1"])];
   demo_change 5 "command" "c1" 2 "issued" "targeted" [];
   demo_change 7 "attempt" "a1" 3 "leased" "canceled" [];
   demo_change 8 "command" "c1" 3 "targeted" "signaled" []].

Definition demo_verified : Event :=
  demo_change 9 "command" "c1" 4 "signaled" "verification_complete" [("outcome", JStr "clean")].

Lemma certified_order_witness :
  NoDup (omap full_key (demo_before ++ [demo_verified])).
Proof. apply (certified_order (demo_before ++ [demo_verified])). vm_compute. reflexivity. Defined.

Lemma certified_lifecycle_witness :
  is_Some (lifecycle "command" (of_key ("command", "c1") (demo_before ++ [demo_verified]))).
Proof. apply (certified_lifecycle _ "command" "c1" "issued"); vm_compute; reflexivity. Defined.

Lemma certified_clean_outcome_witness :
  exists earlier created later,
    demo_before = earlier ++ created :: later /\ agg_key created = ("command", "c1").
Proof.
  destruct (certified_clean_outcome demo_before [] demo_verified "c1")
    as (x & c & y & H1 & H2 & _); [vm_compute; reflexivity..|].
  exists x, c, y. split; assumption.
Defined.

(** The replay convention is not the kernel's: the first event of a message or
    a command is named [message_sent] and [command_issued] there, which is
    reported as a missing creation, and a [task_transitioned] event is not
    looked at, whatever it says. *)
Example kernel_event_names_are_foreign :
  (f_code <$> check_stream [demo_event 1 "message" "m1" "message_sent" "operator" 1 []]) = [CreationMissing] /\
  (f_code <$> check_stream [demo_event 1 "command" "c1" "command_issued" "operator" 1 []]) = [CreationMissing] /\
  check_stream
    [demo_event 1 "task" "t1" "task_created" "operator" 1 [];
     demo_event 2 "task" "t1" "task_transitioned" "operator" 2 [("to", JStr "no such state")]] = [].
Proof. vm_compute. done. Qed.
