(* ===== verification/Command.v ===== *)
(** * The kernel command set (gwk-domain/src/command.rs)

    [KernelCommand] is the closed set of mutations the kernel accepts, with the
    value types its bodies carry (entity.rs, inherited.rs, ingestion.rs) and the
    decoding of a command out of its envelope.  Identifiers and timestamps are
    strings, fixed-width integers are [Z].

    The JSON encoding itself belongs to serde_json: the class [Serde] names the
    encoder and decoder the sources call, and [SerdeLaws] what they rely on. *)

From S2P Require Import Prelude Text Fsm Envelope.

(** ** Values carried by command bodies *)

Record Budget := {
  max_tokens : option Z;
  max_tool_calls : option Z;
  max_wall_ms : option Z;
  max_cost_micros : option Z;
}.

Record OpenAttemptRef := {
  oa_attempt_id : string;
  oa_task_id : string;
  oa_state : string;
  oa_engine : string;
  oa_worktree_lease_id : option string;
}.

Record LeaseSnapshot := {
  ls_lease_id : string;
  ls_scope : option string;
  ls_holder : option string;
  ls_expires_at : option string;
}.

Record PendingApproval := {
  pa_kind : string;
  pa_question : string;
  pa_subject_ref : option string;
  pa_raised_at : string;
}.

Record BudgetCursor := {
  spent_tokens : option Z;
  spent_tool_calls : option Z;
  spent_cost_micros : option Z;
  window_started_at : option string;
}.

Record OrchestratorCheckpoint := {
  oc_orchestrator_id : option string;
  oc_seq : Z;
  oc_native_session_ref : option string;
  oc_active_goal : option string;
  oc_active_step_ref : option string;
  oc_latest_command_ref : option string;
  oc_open_attempts : option (list OpenAttemptRef);
  oc_leases : option (list LeaseSnapshot);
  oc_pending_approvals : option (list PendingApproval);
  oc_budget_cursor : option BudgetCursor;
}.

Inductive FindingAction := AutoFix | AskUser | NoOp.

Record RoundFindingSummary := {
  rf_total : Z;
  rf_auto_fix : Z;
  rf_ask_user : Z;
  rf_no_op : Z;
}.

Inductive WorkspaceNodeKind := KWorkspace | KTab | KPane.

(** [WorkspaceNodeKind::as_str]. *)
Definition node_kind_str (k : WorkspaceNodeKind) : string :=
  match k with KWorkspace => "workspace" | KTab => "tab" | KPane => "pane" end.

Inductive IngestionKind :=
| IngestMemory | IngestKnowledge | IngestGraphSnapshot | IngestEvalVerdict
| IngestInsight | IngestCost | IngestHealth | IngestSession
| IngestConfig | IngestCheckpoint | IngestRound | IngestFinding.

Definition INGESTION_ALL : list IngestionKind :=
  [IngestMemory; IngestKnowledge; IngestGraphSnapshot; IngestEvalVerdict;
   IngestInsight; IngestCost; IngestHealth; IngestSession;
   IngestConfig; IngestCheckpoint; IngestRound; IngestFinding].

(** [IngestionKind::as_str]. *)
Definition ingestion_str (k : IngestionKind) : string :=
  match k with
  | IngestMemory => "memory" | IngestKnowledge => "knowledge"
  | IngestGraphSnapshot => "graph_snapshot" | IngestEvalVerdict => "eval_verdict"
  | IngestInsight => "insight" | IngestCost => "cost" | IngestHealth => "health"
  | IngestSession => "session" | IngestConfig => "config"
  | IngestCheckpoint => "checkpoint" | IngestRound => "round" | IngestFinding => "finding"
  end.

(** [IngestionKind::parse]. *)
Definition ingestion_parse (value : string) : option IngestionKind :=
  List.find (fun k => bool_decide (ingestion_str k = value)) INGESTION_ALL.

#[export] Instance FindingAction_eq_dec : EqDecision FindingAction.
Proof. solve_decision. Defined.
#[export] Instance WorkspaceNodeKind_eq_dec : EqDecision WorkspaceNodeKind.
Proof. solve_decision. Defined.
#[export] Instance IngestionKind_eq_dec : EqDecision IngestionKind.
Proof. solve_decision. Defined.

(** ** The command union *)

Section KernelCommand.
Context (V : Type).

Inductive KernelCommand : Type :=
(* epoch *)
| ActivateKernel (cutover_id archive_manifest_sha256 : string)
(* task *)
| CreateTask (task_id : string) (kind title spec_ref project : option string)
    (priority : option Z) (tracker_ref : option string)
| TransitionTask (task_id : string) (to : TaskState) (expected_version : Z)
| UpdateBudget (attempt_id : string) (expected_version : Z) (budget : Budget)
(* attempt *)
| CreateAttempt (attempt_id task_id engine : string)
    (capability role model_lane permission_profile worktree_lease_id base_sha : option string)
    (budget : option Budget)
| TransitionAttempt (attempt_id : string) (to : AttemptState) (expected_version : Z)
    (receipt_id : option string)
| RecordAttemptRuntime (attempt_id : string) (expected_version : Z)
    (runtime_ref runtime_started_at : string)
| RecordAttemptOutcome (attempt_id : string) (expected_version : Z) (exit_code : option Z)
    (provider_terminal_event : option string) (result_valid : option bool)
    (evidence_manifest_ref : option string)
(* engine session *)
| OpenEngineSession (engine_session_id attempt_id engine : string)
    (provider_session_ref : option string)
| CloseEngineSession (engine_session_id : string)
(* message *)
| SendMessage (message_id : string)
    (correlation_id reply_to sender recipient channel kind : option string)
    (payload : option V) (deadline : option string)
| TransitionMessage (message_id : string) (to : MessageState) (expected_version : Z)
    (dead_letter_reason : option string)
(* execution command *)
| IssueCommand (command_id kind : string) (targets : list string) (actor : option Actor)
| TransitionCommand (command_id : string) (to : CommandState) (expected_version : Z)
| RecordCommandOutcome (command_id : string) (expected_version : Z) (outcome : Outcome)
(* lease *)
| AcquireLease (lease_id : string) (mode : LeaseMode)
    (holder scope repo path branch base_sha expires_at : option string)
| RenewLease (lease_id : string) (expected_version : Z) (expires_at : option string)
| ReleaseLease (lease_id : string) (expected_version : Z) (disposition : option string)
| ExpireLease (lease_id : string) (expected_version : Z)
(* gate *)
| OpenGate (gate_id : string) (attempt_id phase_ref kind question : option string)
    (options : option (list string))
| DecideGate (gate_id : string) (expected_version : Z) (verdict : GateVerdict)
    (chosen_option evidence_ref : option string)
(* authority *)
| GrantAuthority (authority_grant_id : string) (grantee : Actor) (action_class : string)
    (scope expires_at : option string)
| RevokeAuthority (authority_grant_id : string) (reason : option string)
(* attention *)
| RaiseAttention (attention_item_id kind summary : string) (subject_ref : option string)
    (raised_by : option Actor) (priority : option Z)
| ResolveAttention (attention_item_id : string) (resolution : option string)
| AckAttention (attention_item_id : string)
| MuteAttention (attention_item_id muted_until : string)
| UnmuteAttention (attention_item_id : string)
(* evidence *)
| RecordEvidence (evidence_id kind ref : string) (digest : option string)
    (byte_size : option Z)
(* cost *)
| RecordCostEntry (cost_entry_id : string)
    (attempt_id engine_session_id dispatch_node_id : option string)
    (engine : string) (model : option string)
    (input_tokens cached_input_tokens cache_write_tokens output_tokens reasoning_tokens
     cost_micros : option Z) (cost_is_estimate : option bool)
(* worktree *)
| RegisterWorktree (worktree_id repo path branch : string) (base_sha lease_id : option string)
| UpdateWorktree (worktree_id : string) (dirty unpushed : bool) (base_sha : option string)
| ReleaseWorktree (worktree_id : string) (disposition : option string)
(* workspace layout *)
| CreateWorkspaceNode (workspace_node_id : string) (kind : WorkspaceNodeKind)
    (parent_id session_id : option string)
| MoveWorkspaceNode (workspace_node_id parent_id : string) (expected_version : Z)
| RebindWorkspacePane (workspace_node_id session_id : string) (expected_version : Z)
| CloseWorkspaceNode (workspace_node_id : string) (expected_version : Z)
(* workflow runs *)
| OpenWorkflowRun (workflow_run_id template_ref : string)
    (template_sha256 task_id title : option string)
| AdvanceWorkflowRun (workflow_run_id step : string) (expected_version : Z)
| CloseWorkflowRun (workflow_run_id outcome : string) (expected_version : Z)
(* pty sessions *)
| OpenPtySession (pty_session_id generation : string)
    (engine_session_id title : option string)
| RecordPtyAttach (pty_session_id : string) (expected_version : Z)
| RecordPtyDetach (pty_session_id : string) (expected_version : Z)
| SendPtyInput (pty_session_id generation : string) (byte_count : Z)
| ResizePtySession (pty_session_id generation : string) (cols rows : Z)
| StopPtySession (pty_session_id generation : string)
| ClosePtySession (pty_session_id : string) (expected_version : Z)
(* pty session templates *)
| DeclarePtySessionTemplate (template_name command : string) (args : list string)
    (cwd : option string) (env : gmap string string) (cols rows : Z)
| RetirePtySessionTemplate (template_name : string) (expected_version : Z)
| RequestPtySessionStart (template_name pty_session_id : string)
(* dispatch tree *)
| RegisterDispatchNode (dispatch_node_id : string) (parent_id attempt_id : option string)
    (kind : string) (label : option string)
| TransitionDispatchNode (dispatch_node_id to : string) (expected_version : Z)
(* orchestrator *)
| WriteOrchestratorCheckpoint (checkpoint : OrchestratorCheckpoint)
| RecordRound (attempt_id : string) (round : Z) (findings : RoundFindingSummary)
| RecordFinding (attempt_id : string) (round : Z) (action : FindingAction) (summary : string)
    (subject_ref : option string)
(* ingestion *)
| IngestRecord (kind : IngestionKind) (payload : V) (payload_ref : option PayloadRef).
End KernelCommand.

Arguments ActivateKernel {V}. Arguments CreateTask {V}. Arguments TransitionTask {V}.
Arguments UpdateBudget {V}. Arguments CreateAttempt {V}. Arguments TransitionAttempt {V}.
Arguments RecordAttemptRuntime {V}. Arguments RecordAttemptOutcome {V}.
Arguments OpenEngineSession {V}. Arguments CloseEngineSession {V}. Arguments SendMessage {V}.
Arguments TransitionMessage {V}. Arguments IssueCommand {V}. Arguments TransitionCommand {V}.
Arguments RecordCommandOutcome {V}. Arguments AcquireLease {V}. Arguments RenewLease {V}.
Arguments ReleaseLease {V}. Arguments ExpireLease {V}. Arguments OpenGate {V}.
Arguments DecideGate {V}. Arguments GrantAuthority {V}. Arguments RevokeAuthority {V}.
Arguments RaiseAttention {V}. Arguments ResolveAttention {V}. Arguments AckAttention {V}.
Arguments MuteAttention {V}. Arguments UnmuteAttention {V}. Arguments RecordEvidence {V}.
Arguments RecordCostEntry {V}. Arguments RegisterWorktree {V}. Arguments UpdateWorktree {V}.
Arguments ReleaseWorktree {V}. Arguments CreateWorkspaceNode {V}.
Arguments MoveWorkspaceNode {V}. Arguments RebindWorkspacePane {V}.
Arguments CloseWorkspaceNode {V}. Arguments OpenWorkflowRun {V}.
Arguments AdvanceWorkflowRun {V}. Arguments CloseWorkflowRun {V}. Arguments OpenPtySession {V}.
Arguments RecordPtyAttach {V}. Arguments RecordPtyDetach {V}. Arguments SendPtyInput {V}.
Arguments ResizePtySession {V}. Arguments StopPtySession {V}. Arguments ClosePtySession {V}.
Arguments DeclarePtySessionTemplate {V}. Arguments RetirePtySessionTemplate {V}.
Arguments RequestPtySessionStart {V}. Arguments RegisterDispatchNode {V}.
Arguments TransitionDispatchNode {V}. Arguments WriteOrchestratorCheckpoint {V}.
Arguments RecordRound {V}. Arguments RecordFinding {V}. Arguments IngestRecord {V}.

(** [KernelCommand::command_type]: the name an envelope must declare. *)
Definition command_type {V} (c : KernelCommand V) : string :=
  match c with
  | ActivateKernel _ _ => "activate_kernel"
  | CreateTask _ _ _ _ _ _ _ => "create_task"
  | TransitionTask _ _ _ => "transition_task"
  | UpdateBudget _ _ _ => "update_budget"
  | CreateAttempt _ _ _ _ _ _ _ _ _ _ => "create_attempt"
  | TransitionAttempt _ _ _ _ => "transition_attempt"
  | RecordAttemptRuntime _ _ _ _ => "record_attempt_runtime"
  | RecordAttemptOutcome _ _ _ _ _ _ => "record_attempt_outcome"
  | OpenEngineSession _ _ _ _ => "open_engine_session"
  | CloseEngineSession _ => "close_engine_session"
  | SendMessage _ _ _ _ _ _ _ _ _ => "send_message"
  | TransitionMessage _ _ _ _ => "transition_message"
  | IssueCommand _ _ _ _ => "issue_command"
  | TransitionCommand _ _ _ => "transition_command"
  | RecordCommandOutcome _ _ _ => "record_command_outcome"
  | AcquireLease _ _ _ _ _ _ _ _ _ => "acquire_lease"
  | RenewLease _ _ _ => "renew_lease"
  | ReleaseLease _ _ _ => "release_lease"
  | ExpireLease _ _ => "expire_lease"
  | OpenGate _ _ _ _ _ _ => "open_gate"
  | DecideGate _ _ _ _ _ => "decide_gate"
  | GrantAuthority _ _ _ _ _ => "grant_authority"
  | RevokeAuthority _ _ => "revoke_authority"
  | RaiseAttention _ _ _ _ _ _ => "raise_attention"
  | ResolveAttention _ _ => "resolve_attention"
  | AckAttention _ => "ack_attention"
  | MuteAttention _ _ => "mute_attention"
  | UnmuteAttention _ => "unmute_attention"
  | RecordEvidence _ _ _ _ _ => "record_evidence"
  | RecordCostEntry _ _ _ _ _ _ _ _ _ _ _ _ _ => "record_cost_entry"
  | RegisterWorktree _ _ _ _ _ _ => "register_worktree"
  | UpdateWorktree _ _ _ _ => "update_worktree"
  | ReleaseWorktree _ _ => "release_worktree"
  | CreateWorkspaceNode _ _ _ _ => "create_workspace_node"
  | MoveWorkspaceNode _ _ _ => "move_workspace_node"
  | RebindWorkspacePane _ _ _ => "rebind_workspace_pane"
  | CloseWorkspaceNode _ _ => "close_workspace_node"
  | OpenWorkflowRun _ _ _ _ _ => "open_workflow_run"
  | AdvanceWorkflowRun _ _ _ => "advance_workflow_run"
  | CloseWorkflowRun _ _ _ => "close_workflow_run"
  | OpenPtySession _ _ _ _ => "open_pty_session"
  | RecordPtyAttach _ _ => "record_pty_attach"
  | RecordPtyDetach _ _ => "record_pty_detach"
  | SendPtyInput _ _ _ => "send_pty_input"
  | ResizePtySession _ _ _ _ => "resize_pty_session"
  | StopPtySession _ _ => "stop_pty_session"
  | ClosePtySession _ _ => "close_pty_session"
  | DeclarePtySessionTemplate _ _ _ _ _ _ _ => "declare_pty_session_template"
  | RetirePtySessionTemplate _ _ => "retire_pty_session_template"
  | RequestPtySessionStart _ _ => "request_pty_session_start"
  | RegisterDispatchNode _ _ _ _ _ => "register_dispatch_node"
  | TransitionDispatchNode _ _ _ => "transition_dispatch_node"
  | WriteOrchestratorCheckpoint _ => "write_orchestrator_checkpoint"
  | RecordRound _ _ _ => "record_round"
  | RecordFinding _ _ _ _ _ => "record_finding"
  | IngestRecord _ _ _ => "ingest_record"
  end.

(** ** The JSON codec, as the sources use it *)

Class Serde (V : Type) := {
  value_eq_dec :: EqDecision V;
  (** [serde_json::to_vec(v).len()]. *)
  serialized_len : V -> Z;
  (** [serde_json::to_value(&command)]. *)
  to_value : KernelCommand V -> V;
  (** [KernelCommand::deserialize(&value)]; its error text is not kept. *)
  deserialize : V -> option (KernelCommand V);
  (** The operator [->>] on a jsonb object: the text of one member. *)
  json_text : V -> string -> option string;
  (** What a jsonb column gives back for a value bound to it: numbers come back
      in numeric's spelling, so that a float may return as an integer. *)
  jsonb : V -> V;
  (** [json!({"contract_version": .., "public_revision": ..})]. *)
  genesis_payload : Z -> string -> V;
}.

(** The command a stored body decodes to: the free JSON it carries has been
    through the column. *)
Definition stored_command {V} `{Serde V} (c : KernelCommand V) : KernelCommand V :=
  match c with
  | SendMessage message_id correlation_id reply_to sender recipient channel kind payload deadline =>
      SendMessage message_id correlation_id reply_to sender recipient channel kind (jsonb <$> payload) deadline
  | IngestRecord kind payload payload_ref => IngestRecord kind (jsonb payload) payload_ref
  | _ => c
  end.

(** Only the two commands that carry free JSON can change. *)
Definition carries_json {V} (c : KernelCommand V) : bool :=
  match c with SendMessage _ _ _ _ _ _ _ _ _ | IngestRecord _ _ _ => true | _ => false end.

Lemma stored_other {V} `{Serde V} (c c' : KernelCommand V) : carries_json c' = false -> stored_command c = c' -> c = c'.
Proof. intros Hc <-. by destruct c. Qed.

(** What the kernel relies on: the stored re-encoding of a decoded command
    decodes to the command as stored; the rest of an encoding is strings,
    booleans and 64-bit integers, which the column gives back as they are; and a
    stored activation shows its cutover id under the name of the field. *)
Class SerdeLaws (V : Type) `{Serde V} : Prop := {
  deserialize_stored : forall v c, deserialize v = Some c -> deserialize (jsonb (to_value c)) = Some (stored_command c);
  jsonb_typed : forall c, stored_command c = c -> jsonb (to_value c) = to_value c;
  json_text_cutover : forall c h,
    json_text (jsonb (to_value (ActivateKernel c h))) "cutover_id" = Some c;
}.

(** ** Decoding an envelope *)

Inductive CommandDecodeError :=
| TypeMismatch (declared body : string)
| MalformedPayload.

(** [KernelCommand::from_envelope]. *)
Definition from_envelope {V} `{Serde V} (envelope : CommandEnvelope V)
  : result CommandDecodeError (KernelCommand V) :=
  command ← ok_or (deserialize (ce_payload envelope)) MalformedPayload;
  _ ← ensure (bool_decide (ce_command_type envelope = command_type command))
        (TypeMismatch (ce_command_type envelope) (command_type command));
  mret command.

(** ** Named constants and shape checks of the domain crate *)

Definition PTY_INPUT_ACTION_CLASS : string := "pty_input".
Definition PTY_CONTROL_ACTION_CLASS : string := "pty_control".
Definition PTY_START_ACTION_CLASS : string := "pty_start".
Definition PTY_TEMPLATE_ACTION_CLASS : string := "pty_template".

Definition DISPATCH_NODE_INITIAL_STATE : string := "registered".

Definition CONTRACT_VERSION : Z := 1.

Definition PTY_INPUT_MAX_BYTES : Z := 64 * 1024.
Definition PTY_GRID_MAX_AXIS : Z := 1000.
Definition PTY_GRID_MAX_CELLS : Z := 100000.

(** [pty_grid_dimensions_are_bounded] on [u16] axes. *)
Definition pty_grid_dimensions_are_bounded (cols rows : Z) : bool :=
  negb (cols =? 0)%Z && negb (rows =? 0)%Z
  && (cols <=? PTY_GRID_MAX_AXIS)%Z && (rows <=? PTY_GRID_MAX_AXIS)%Z
  && (cols * rows <=? PTY_GRID_MAX_CELLS)%Z.

Definition SHA256_HEX_LEN : Z := 64.

Definition is_lower_hex (c : Ascii.ascii) : bool :=
  Str.is_ascii_digit c || Str.in_range 97 102 c.

(** [is_sha256_hex]. *)
Definition is_sha256_hex (value : string) : bool :=
  (Str.len value =? SHA256_HEX_LEN)%Z && Str.all_bytes is_lower_hex value.

(** [pty_session_lifetime_id]. *)
Definition pty_session_lifetime_id (id generation : string) : string :=
  id +:+ ":" +:+ generation.

(** ** Codes a refusal carries on the wire (gwk-domain/src/protocol.rs) *)

Inductive KernelErrorCode :=
| EHandshake | EUnsupportedVersion | ECapability | EValidation | EDuplicateKey | EFrameSize
| ESealed | EAlreadyActive | ENotFound | EIndeterminate | EStaleVersion | EIllegalEdge
| EAuthority | EIdempotencyConflict | EFenced | EOverloaded | ESlowConsumer | EStorage
| ESchema | EPrivilege | EBlobIntegrity | EBlobTombstoned.

#[export] Instance KernelErrorCode_eq_dec : EqDecision KernelErrorCode.
Proof. solve_decision. Defined.

(** [KernelErrorCode::as_str]. *)
Definition code_str (c : KernelErrorCode) : string :=
  match c with
  | EHandshake => "handshake" | EUnsupportedVersion => "unsupported_version"
  | ECapability => "capability" | EValidation => "validation"
  | EDuplicateKey => "duplicate_key" | EFrameSize => "frame_size"
  | ESealed => "sealed" | EAlreadyActive => "already_active" | ENotFound => "not_found"
  | EIndeterminate => "indeterminate" | EStaleVersion => "stale_version"
  | EIllegalEdge => "illegal_edge" | EAuthority => "authority"
  | EIdempotencyConflict => "idempotency_conflict" | EFenced => "fenced"
  | EOverloaded => "overloaded" | ESlowConsumer => "slow_consumer" | EStorage => "storage"
  | ESchema => "schema" | EPrivilege => "privilege" | EBlobIntegrity => "blob_integrity"
  | EBlobTombstoned => "blob_tombstoned"
  end.
