(* ===== verification/Tables.v ===== *)
(** * The contract schema: rows (gwk-domain/src/contract_sql.rs)

    One record per table of the contract, with a setter per column some statement
    updates.  The primary key is the key of the map that holds the rows.  [T] is
    the type of a stored instant and [V] of a stored JSON value; state columns
    hold wire strings, as the schema has them.  Columns no statement ever names
    keep their declared default. *)

From S2P Require Import Prelude Envelope Command.

(** PostgreSQL's [timestamptz]: the text it accepts, the text [to_json] renders
    in UTC, and the order of instants. *)
Class Timestamptz := {
  instant : Type;
  instant_eq_dec :: EqDecision instant;
  instant_ltb : instant -> instant -> bool;
  ts_parse : string -> option instant;
  ts_json : instant -> string;
  (** [now - since >= make_interval(secs => n)]. *)
  elapsed_at_least : instant -> instant -> Z -> bool;
  (** [since < now - make_interval(secs => n)]. *)
  older_than : instant -> instant -> Z -> bool;
  (** [since < now - make_interval(days => n)]. *)
  older_than_days : instant -> instant -> Z -> bool;
  (** [t + make_interval(secs => n)]. *)
  plus_secs : instant -> Z -> instant;
}.

(** What the text of a stored instant denotes is that instant. *)
Class TimestamptzLaws `{Timestamptz} : Prop := {
  ts_parse_json : forall t, ts_parse (ts_json t) = Some t;
}.

(** A row of [gwk.task]. *)
Record TaskRow (T : Type) := {
  task_version : Z;
  task_state : string;
  task_kind : option string;
  task_title : option string;
  task_spec_ref : option string;
  task_project : option string;
  task_priority : option Z;
  task_tracker_ref : option string;
  task_created_at : T;
  task_updated_at : T;
}.
Arguments task_version {T}. Arguments task_state {T}. Arguments task_kind {T}.
Arguments task_title {T}. Arguments task_spec_ref {T}. Arguments task_project {T}.
Arguments task_priority {T}. Arguments task_tracker_ref {T}. Arguments task_created_at {T}.
Arguments task_updated_at {T}. Arguments Build_TaskRow {T}.

Definition set_task_version {T} (x : Z) (r : TaskRow T) : TaskRow T := {|
  task_version := x; task_state := task_state r; task_kind := task_kind r;
  task_title := task_title r; task_spec_ref := task_spec_ref r; task_project := task_project r;
  task_priority := task_priority r; task_tracker_ref := task_tracker_ref r;
  task_created_at := task_created_at r; task_updated_at := task_updated_at r |}.
Definition set_task_state {T} (x : string) (r : TaskRow T) : TaskRow T := {|
  task_version := task_version r; task_state := x; task_kind := task_kind r;
  task_title := task_title r; task_spec_ref := task_spec_ref r; task_project := task_project r;
  task_priority := task_priority r; task_tracker_ref := task_tracker_ref r;
  task_created_at := task_created_at r; task_updated_at := task_updated_at r |}.
Definition set_task_updated_at {T} (x : T) (r : TaskRow T) : TaskRow T := {|
  task_version := task_version r; task_state := task_state r; task_kind := task_kind r;
  task_title := task_title r; task_spec_ref := task_spec_ref r; task_project := task_project r;
  task_priority := task_priority r; task_tracker_ref := task_tracker_ref r;
  task_created_at := task_created_at r; task_updated_at := x |}.

(** A row of [gwk.attempt]. *)
Record AttemptRow (T : Type) := {
  attempt_version : Z;
  attempt_state : string;
  attempt_task_id : string;
  attempt_engine : string;
  attempt_capability : option string;
  attempt_role : option string;
  attempt_model_lane : option string;
  attempt_permission_profile : option string;
  attempt_worktree_lease_id : option string;
  attempt_base_sha : option string;
  attempt_budget : option Budget;
  attempt_provider_session_ref : option string;
  attempt_runtime_ref : option string;
  attempt_runtime_started_at : option T;
  attempt_exit_code : option Z;
  attempt_provider_terminal_event : option string;
  attempt_result_valid : option bool;
  attempt_evidence_manifest_ref : option string;
  attempt_created_at : T;
  attempt_updated_at : T;
}.
Arguments attempt_version {T}. Arguments attempt_state {T}. Arguments attempt_task_id {T}.
Arguments attempt_engine {T}. Arguments attempt_capability {T}. Arguments attempt_role {T}.
Arguments attempt_model_lane {T}. Arguments attempt_permission_profile {T}.
Arguments attempt_worktree_lease_id {T}. Arguments attempt_base_sha {T}.
Arguments attempt_budget {T}. Arguments attempt_provider_session_ref {T}.
Arguments attempt_runtime_ref {T}. Arguments attempt_runtime_started_at {T}.
Arguments attempt_exit_code {T}. Arguments attempt_provider_terminal_event {T}.
Arguments attempt_result_valid {T}. Arguments attempt_evidence_manifest_ref {T}.
Arguments attempt_created_at {T}. Arguments attempt_updated_at {T}.
Arguments Build_AttemptRow {T}.

Definition set_attempt_version {T} (x : Z) (r : AttemptRow T) : AttemptRow T := {|
  attempt_version := x; attempt_state := attempt_state r; attempt_task_id := attempt_task_id r;
  attempt_engine := attempt_engine r; attempt_capability := attempt_capability r;
  attempt_role := attempt_role r; attempt_model_lane := attempt_model_lane r;
  attempt_permission_profile := attempt_permission_profile r;
  attempt_worktree_lease_id := attempt_worktree_lease_id r;
  attempt_base_sha := attempt_base_sha r; attempt_budget := attempt_budget r;
  attempt_provider_session_ref := attempt_provider_session_ref r;
  attempt_runtime_ref := attempt_runtime_ref r;
  attempt_runtime_started_at := attempt_runtime_started_at r;
  attempt_exit_code := attempt_exit_code r;
  attempt_provider_terminal_event := attempt_provider_terminal_event r;
  attempt_result_valid := attempt_result_valid r;
  attempt_evidence_manifest_ref := attempt_evidence_manifest_ref r;
  attempt_created_at := attempt_created_at r; attempt_updated_at := attempt_updated_at r |}.
Definition set_attempt_state {T} (x : string) (r : AttemptRow T) : AttemptRow T := {|
  attempt_version := attempt_version r; attempt_state := x;
  attempt_task_id := attempt_task_id r; attempt_engine := attempt_engine r;
  attempt_capability := attempt_capability r; attempt_role := attempt_role r;
  attempt_model_lane := attempt_model_lane r;
  attempt_permission_profile := attempt_permission_profile r;
  attempt_worktree_lease_id := attempt_worktree_lease_id r;
  attempt_base_sha := attempt_base_sha r; attempt_budget := attempt_budget r;
  attempt_provider_session_ref := attempt_provider_session_ref r;
  attempt_runtime_ref := attempt_runtime_ref r;
  attempt_runtime_started_at := attempt_runtime_started_at r;
  attempt_exit_code := attempt_exit_code r;
  attempt_provider_terminal_event := attempt_provider_terminal_event r;
  attempt_result_valid := attempt_result_valid r;
  attempt_evidence_manifest_ref := attempt_evidence_manifest_ref r;
  attempt_created_at := attempt_created_at r; attempt_updated_at := attempt_updated_at r |}.
Definition set_attempt_budget {T} (x : option Budget) (r : AttemptRow T) : AttemptRow T := {|
  attempt_version := attempt_version r; attempt_state := attempt_state r;
  attempt_task_id := attempt_task_id r; attempt_engine := attempt_engine r;
  attempt_capability := attempt_capability r; attempt_role := attempt_role r;
  attempt_model_lane := attempt_model_lane r;
  attempt_permission_profile := attempt_permission_profile r;
  attempt_worktree_lease_id := attempt_worktree_lease_id r;
  attempt_base_sha := attempt_base_sha r; attempt_budget := x;
  attempt_provider_session_ref := attempt_provider_session_ref r;
  attempt_runtime_ref := attempt_runtime_ref r;
  attempt_runtime_started_at := attempt_runtime_started_at r;
  attempt_exit_code := attempt_exit_code r;
  attempt_provider_terminal_event := attempt_provider_terminal_event r;
  attempt_result_valid := attempt_result_valid r;
  attempt_evidence_manifest_ref := attempt_evidence_manifest_ref r;
  attempt_created_at := attempt_created_at r; attempt_updated_at := attempt_updated_at r |}.
Definition set_attempt_runtime_ref {T} (x : option string) (r : AttemptRow T) : AttemptRow T := {|
  attempt_version := attempt_version r; attempt_state := attempt_state r;
  attempt_task_id := attempt_task_id r; attempt_engine := attempt_engine r;
  attempt_capability := attempt_capability r; attempt_role := attempt_role r;
  attempt_model_lane := attempt_model_lane r;
  attempt_permission_profile := attempt_permission_profile r;
  attempt_worktree_lease_id := attempt_worktree_lease_id r;
  attempt_base_sha := attempt_base_sha r; attempt_budget := attempt_budget r;
  attempt_provider_session_ref := attempt_provider_session_ref r; attempt_runtime_ref := x;
  attempt_runtime_started_at := attempt_runtime_started_at r;
  attempt_exit_code := attempt_exit_code r;
  attempt_provider_terminal_event := attempt_provider_terminal_event r;
  attempt_result_valid := attempt_result_valid r;
  attempt_evidence_manifest_ref := attempt_evidence_manifest_ref r;
  attempt_created_at := attempt_created_at r; attempt_updated_at := attempt_updated_at r |}.
Definition set_attempt_runtime_started_at {T} (x : option T) (r : AttemptRow T) : AttemptRow T := {|
  attempt_version := attempt_version r; attempt_state := attempt_state r;
  attempt_task_id := attempt_task_id r; attempt_engine := attempt_engine r;
  attempt_capability := attempt_capability r; attempt_role := attempt_role r;
  attempt_model_lane := attempt_model_lane r;
  attempt_permission_profile := attempt_permission_profile r;
  attempt_worktree_lease_id := attempt_worktree_lease_id r;
  attempt_base_sha := attempt_base_sha r; attempt_budget := attempt_budget r;
  attempt_provider_session_ref := attempt_provider_session_ref r;
  attempt_runtime_ref := attempt_runtime_ref r; attempt_runtime_started_at := x;
  attempt_exit_code := attempt_exit_code r;
  attempt_provider_terminal_event := attempt_provider_terminal_event r;
  attempt_result_valid := attempt_result_valid r;
  attempt_evidence_manifest_ref := attempt_evidence_manifest_ref r;
  attempt_created_at := attempt_created_at r; attempt_updated_at := attempt_updated_at r |}.
Definition set_attempt_exit_code {T} (x : option Z) (r : AttemptRow T) : AttemptRow T := {|
  attempt_version := attempt_version r; attempt_state := attempt_state r;
  attempt_task_id := attempt_task_id r; attempt_engine := attempt_engine r;
  attempt_capability := attempt_capability r; attempt_role := attempt_role r;
  attempt_model_lane := attempt_model_lane r;
  attempt_permission_profile := attempt_permission_profile r;
  attempt_worktree_lease_id := attempt_worktree_lease_id r;
  attempt_base_sha := attempt_base_sha r; attempt_budget := attempt_budget r;
  attempt_provider_session_ref := attempt_provider_session_ref r;
  attempt_runtime_ref := attempt_runtime_ref r;
  attempt_runtime_started_at := attempt_runtime_started_at r; attempt_exit_code := x;
  attempt_provider_terminal_event := attempt_provider_terminal_event r;
  attempt_result_valid := attempt_result_valid r;
  attempt_evidence_manifest_ref := attempt_evidence_manifest_ref r;
  attempt_created_at := attempt_created_at r; attempt_updated_at := attempt_updated_at r |}.
Definition set_attempt_provider_terminal_event {T} (x : option string) (r : AttemptRow T) : AttemptRow T := {|
  attempt_version := attempt_version r; attempt_state := attempt_state r;
  attempt_task_id := attempt_task_id r; attempt_engine := attempt_engine r;
  attempt_capability := attempt_capability r; attempt_role := attempt_role r;
  attempt_model_lane := attempt_model_lane r;
  attempt_permission_profile := attempt_permission_profile r;
  attempt_worktree_lease_id := attempt_worktree_lease_id r;
  attempt_base_sha := attempt_base_sha r; attempt_budget := attempt_budget r;
  attempt_provider_session_ref := attempt_provider_session_ref r;
  attempt_runtime_ref := attempt_runtime_ref r;
  attempt_runtime_started_at := attempt_runtime_started_at r;
  attempt_exit_code := attempt_exit_code r; attempt_provider_terminal_event := x;
  attempt_result_valid := attempt_result_valid r;
  attempt_evidence_manifest_ref := attempt_evidence_manifest_ref r;
  attempt_created_at := attempt_created_at r; attempt_updated_at := attempt_updated_at r |}.
Definition set_attempt_result_valid {T} (x : option bool) (r : AttemptRow T) : AttemptRow T := {|
  attempt_version := attempt_version r; attempt_state := attempt_state r;
  attempt_task_id := attempt_task_id r; attempt_engine := attempt_engine r;
  attempt_capability := attempt_capability r; attempt_role := attempt_role r;
  attempt_model_lane := attempt_model_lane r;
  attempt_permission_profile := attempt_permission_profile r;
  attempt_worktree_lease_id := attempt_worktree_lease_id r;
  attempt_base_sha := attempt_base_sha r; attempt_budget := attempt_budget r;
  attempt_provider_session_ref := attempt_provider_session_ref r;
  attempt_runtime_ref := attempt_runtime_ref r;
  attempt_runtime_started_at := attempt_runtime_started_at r;
  attempt_exit_code := attempt_exit_code r;
  attempt_provider_terminal_event := attempt_provider_terminal_event r;
  attempt_result_valid := x; attempt_evidence_manifest_ref := attempt_evidence_manifest_ref r;
  attempt_created_at := attempt_created_at r; attempt_updated_at := attempt_updated_at r |}.
Definition set_attempt_evidence_manifest_ref {T} (x : option string) (r : AttemptRow T) : AttemptRow T := {|
  attempt_version := attempt_version r; attempt_state := attempt_state r;
  attempt_task_id := attempt_task_id r; attempt_engine := attempt_engine r;
  attempt_capability := attempt_capability r; attempt_role := attempt_role r;
  attempt_model_lane := attempt_model_lane r;
  attempt_permission_profile := attempt_permission_profile r;
  attempt_worktree_lease_id := attempt_worktree_lease_id r;
  attempt_base_sha := attempt_base_sha r; attempt_budget := attempt_budget r;
  attempt_provider_session_ref := attempt_provider_session_ref r;
  attempt_runtime_ref := attempt_runtime_ref r;
  attempt_runtime_started_at := attempt_runtime_started_at r;
  attempt_exit_code := attempt_exit_code r;
  attempt_provider_terminal_event := attempt_provider_terminal_event r;
  attempt_result_valid := attempt_result_valid r; attempt_evidence_manifest_ref := x;
  attempt_created_at := attempt_created_at r; attempt_updated_at := attempt_updated_at r |}.
Definition set_attempt_updated_at {T} (x : T) (r : AttemptRow T) : AttemptRow T := {|
  attempt_version := attempt_version r; attempt_state := attempt_state r;
  attempt_task_id := attempt_task_id r; attempt_engine := attempt_engine r;
  attempt_capability := attempt_capability r; attempt_role := attempt_role r;
  attempt_model_lane := attempt_model_lane r;
  attempt_permission_profile := attempt_permission_profile r;
  attempt_worktree_lease_id := attempt_worktree_lease_id r;
  attempt_base_sha := attempt_base_sha r; attempt_budget := attempt_budget r;
  attempt_provider_session_ref := attempt_provider_session_ref r;
  attempt_runtime_ref := attempt_runtime_ref r;
  attempt_runtime_started_at := attempt_runtime_started_at r;
  attempt_exit_code := attempt_exit_code r;
  attempt_provider_terminal_event := attempt_provider_terminal_event r;
  attempt_result_valid := attempt_result_valid r;
  attempt_evidence_manifest_ref := attempt_evidence_manifest_ref r;
  attempt_created_at := attempt_created_at r; attempt_updated_at := x |}.

(** A row of [gwk.engine_session]. *)
Record EngineSessionRow (T : Type) := {
  es_attempt_id : string;
  es_engine : string;
  es_provider_session_ref : option string;
  es_started_at : T;
  es_ended_at : option T;
}.
Arguments es_attempt_id {T}. Arguments es_engine {T}. Arguments es_provider_session_ref {T}.
Arguments es_started_at {T}. Arguments es_ended_at {T}. Arguments Build_EngineSessionRow {T}.

Definition set_es_ended_at {T} (x : option T) (r : EngineSessionRow T) : EngineSessionRow T := {|
  es_attempt_id := es_attempt_id r; es_engine := es_engine r;
  es_provider_session_ref := es_provider_session_ref r; es_started_at := es_started_at r;
  es_ended_at := x |}.

(** A row of [gwk.message]. *)
Record MessageRow (T V : Type) := {
  message_version : Z;
  message_state : string;
  message_idempotency_key : string;
  message_correlation_id : option string;
  message_reply_to : option string;
  message_sender : option string;
  message_recipient : option string;
  message_channel : option string;
  message_kind : option string;
  message_payload : option V;
  message_deadline : option T;
  message_delivery_attempts : Z;
  message_dead_letter_reason : option string;
  message_delivery_refs : option V;
  message_created_at : T;
  message_updated_at : T;
}.
Arguments message_version {T V}. Arguments message_state {T V}.
Arguments message_idempotency_key {T V}. Arguments message_correlation_id {T V}.
Arguments message_reply_to {T V}. Arguments message_sender {T V}.
Arguments message_recipient {T V}. Arguments message_channel {T V}.
Arguments message_kind {T V}. Arguments message_payload {T V}.
Arguments message_deadline {T V}. Arguments message_delivery_attempts {T V}.
Arguments message_dead_letter_reason {T V}. Arguments message_delivery_refs {T V}.
Arguments message_created_at {T V}. Arguments message_updated_at {T V}.
Arguments Build_MessageRow {T V}.

Definition set_message_version {T V} (x : Z) (r : MessageRow T V) : MessageRow T V := {|
  message_version := x; message_state := message_state r;
  message_idempotency_key := message_idempotency_key r;
  message_correlation_id := message_correlation_id r; message_reply_to := message_reply_to r;
  message_sender := message_sender r; message_recipient := message_recipient r;
  message_channel := message_channel r; message_kind := message_kind r;
  message_payload := message_payload r; message_deadline := message_deadline r;
  message_delivery_attempts := message_delivery_attempts r;
  message_dead_letter_reason := message_dead_letter_reason r;
  message_delivery_refs := message_delivery_refs r; message_created_at := message_created_at r;
  message_updated_at := message_updated_at r |}.
Definition set_message_state {T V} (x : string) (r : MessageRow T V) : MessageRow T V := {|
  message_version := message_version r; message_state := x;
  message_idempotency_key := message_idempotency_key r;
  message_correlation_id := message_correlation_id r; message_reply_to := message_reply_to r;
  message_sender := message_sender r; message_recipient := message_recipient r;
  message_channel := message_channel r; message_kind := message_kind r;
  message_payload := message_payload r; message_deadline := message_deadline r;
  message_delivery_attempts := message_delivery_attempts r;
  message_dead_letter_reason := message_dead_letter_reason r;
  message_delivery_refs := message_delivery_refs r; message_created_at := message_created_at r;
  message_updated_at := message_updated_at r |}.
Definition set_message_dead_letter_reason {T V} (x : option string) (r : MessageRow T V) : MessageRow T V := {|
  message_version := message_version r; message_state := message_state r;
  message_idempotency_key := message_idempotency_key r;
  message_correlation_id := message_correlation_id r; message_reply_to := message_reply_to r;
  message_sender := message_sender r; message_recipient := message_recipient r;
  message_channel := message_channel r; message_kind := message_kind r;
  message_payload := message_payload r; message_deadline := message_deadline r;
  message_delivery_attempts := message_delivery_attempts r; message_dead_letter_reason := x;
  message_delivery_refs := message_delivery_refs r; message_created_at := message_created_at r;
  message_updated_at := message_updated_at r |}.
Definition set_message_updated_at {T V} (x : T) (r : MessageRow T V) : MessageRow T V := {|
  message_version := message_version r; message_state := message_state r;
  message_idempotency_key := message_idempotency_key r;
  message_correlation_id := message_correlation_id r; message_reply_to := message_reply_to r;
  message_sender := message_sender r; message_recipient := message_recipient r;
  message_channel := message_channel r; message_kind := message_kind r;
  message_payload := message_payload r; message_deadline := message_deadline r;
  message_delivery_attempts := message_delivery_attempts r;
  message_dead_letter_reason := message_dead_letter_reason r;
  message_delivery_refs := message_delivery_refs r; message_created_at := message_created_at r;
  message_updated_at := x |}.

(** A row of [gwk.command]. *)
Record CmdRow (T : Type) := {
  cmd_version : Z;
  cmd_state : string;
  cmd_kind : string;
  cmd_target : option string;
  cmd_actor : option Actor;
  cmd_idempotency_key : option string;
  cmd_outcome : option string;
  cmd_created_at : T;
  cmd_updated_at : T;
}.
Arguments cmd_version {T}. Arguments cmd_state {T}. Arguments cmd_kind {T}.
Arguments cmd_target {T}. Arguments cmd_actor {T}. Arguments cmd_idempotency_key {T}.
Arguments cmd_outcome {T}. Arguments cmd_created_at {T}. Arguments cmd_updated_at {T}.
Arguments Build_CmdRow {T}.

Definition set_cmd_version {T} (x : Z) (r : CmdRow T) : CmdRow T := {|
  cmd_version := x; cmd_state := cmd_state r; cmd_kind := cmd_kind r;
  cmd_target := cmd_target r; cmd_actor := cmd_actor r;
  cmd_idempotency_key := cmd_idempotency_key r; cmd_outcome := cmd_outcome r;
  cmd_created_at := cmd_created_at r; cmd_updated_at := cmd_updated_at r |}.
Definition set_cmd_state {T} (x : string) (r : CmdRow T) : CmdRow T := {|
  cmd_version := cmd_version r; cmd_state := x; cmd_kind := cmd_kind r;
  cmd_target := cmd_target r; cmd_actor := cmd_actor r;
  cmd_idempotency_key := cmd_idempotency_key r; cmd_outcome := cmd_outcome r;
  cmd_created_at := cmd_created_at r; cmd_updated_at := cmd_updated_at r |}.
Definition set_cmd_outcome {T} (x : option string) (r : CmdRow T) : CmdRow T := {|
  cmd_version := cmd_version r; cmd_state := cmd_state r; cmd_kind := cmd_kind r;
  cmd_target := cmd_target r; cmd_actor := cmd_actor r;
  cmd_idempotency_key := cmd_idempotency_key r; cmd_outcome := x;
  cmd_created_at := cmd_created_at r; cmd_updated_at := cmd_updated_at r |}.
Definition set_cmd_updated_at {T} (x : T) (r : CmdRow T) : CmdRow T := {|
  cmd_version := cmd_version r; cmd_state := cmd_state r; cmd_kind := cmd_kind r;
  cmd_target := cmd_target r; cmd_actor := cmd_actor r;
  cmd_idempotency_key := cmd_idempotency_key r; cmd_outcome := cmd_outcome r;
  cmd_created_at := cmd_created_at r; cmd_updated_at := x |}.

(** A row of [gwk.gate]. *)
Record GateRow (T : Type) := {
  gate_version : Z;
  gate_attempt_id : option string;
  gate_phase_ref : option string;
  gate_kind : option string;
  gate_question : option string;
  gate_options : option (list string);
  gate_verdict : string;
  gate_chosen_option : option string;
  gate_decided_by : option Actor;
  gate_evidence_ref : option string;
  gate_created_at : T;
  gate_updated_at : T;
}.
Arguments gate_version {T}. Arguments gate_attempt_id {T}. Arguments gate_phase_ref {T}.
Arguments gate_kind {T}. Arguments gate_question {T}. Arguments gate_options {T}.
Arguments gate_verdict {T}. Arguments gate_chosen_option {T}. Arguments gate_decided_by {T}.
Arguments gate_evidence_ref {T}. Arguments gate_created_at {T}. Arguments gate_updated_at {T}.
Arguments Build_GateRow {T}.

Definition set_gate_version {T} (x : Z) (r : GateRow T) : GateRow T := {|
  gate_version := x; gate_attempt_id := gate_attempt_id r; gate_phase_ref := gate_phase_ref r;
  gate_kind := gate_kind r; gate_question := gate_question r; gate_options := gate_options r;
  gate_verdict := gate_verdict r; gate_chosen_option := gate_chosen_option r;
  gate_decided_by := gate_decided_by r; gate_evidence_ref := gate_evidence_ref r;
  gate_created_at := gate_created_at r; gate_updated_at := gate_updated_at r |}.
Definition set_gate_verdict {T} (x : string) (r : GateRow T) : GateRow T := {|
  gate_version := gate_version r; gate_attempt_id := gate_attempt_id r;
  gate_phase_ref := gate_phase_ref r; gate_kind := gate_kind r;
  gate_question := gate_question r; gate_options := gate_options r; gate_verdict := x;
  gate_chosen_option := gate_chosen_option r; gate_decided_by := gate_decided_by r;
  gate_evidence_ref := gate_evidence_ref r; gate_created_at := gate_created_at r;
  gate_updated_at := gate_updated_at r |}.
Definition set_gate_chosen_option {T} (x : option string) (r : GateRow T) : GateRow T := {|
  gate_version := gate_version r; gate_attempt_id := gate_attempt_id r;
  gate_phase_ref := gate_phase_ref r; gate_kind := gate_kind r;
  gate_question := gate_question r; gate_options := gate_options r;
  gate_verdict := gate_verdict r; gate_chosen_option := x;
  gate_decided_by := gate_decided_by r; gate_evidence_ref := gate_evidence_ref r;
  gate_created_at := gate_created_at r; gate_updated_at := gate_updated_at r |}.
Definition set_gate_decided_by {T} (x : option Actor) (r : GateRow T) : GateRow T := {|
  gate_version := gate_version r; gate_attempt_id := gate_attempt_id r;
  gate_phase_ref := gate_phase_ref r; gate_kind := gate_kind r;
  gate_question := gate_question r; gate_options := gate_options r;
  gate_verdict := gate_verdict r; gate_chosen_option := gate_chosen_option r;
  gate_decided_by := x; gate_evidence_ref := gate_evidence_ref r;
  gate_created_at := gate_created_at r; gate_updated_at := gate_updated_at r |}.
Definition set_gate_evidence_ref {T} (x : option string) (r : GateRow T) : GateRow T := {|
  gate_version := gate_version r; gate_attempt_id := gate_attempt_id r;
  gate_phase_ref := gate_phase_ref r; gate_kind := gate_kind r;
  gate_question := gate_question r; gate_options := gate_options r;
  gate_verdict := gate_verdict r; gate_chosen_option := gate_chosen_option r;
  gate_decided_by := gate_decided_by r; gate_evidence_ref := x;
  gate_created_at := gate_created_at r; gate_updated_at := gate_updated_at r |}.
Definition set_gate_updated_at {T} (x : T) (r : GateRow T) : GateRow T := {|
  gate_version := gate_version r; gate_attempt_id := gate_attempt_id r;
  gate_phase_ref := gate_phase_ref r; gate_kind := gate_kind r;
  gate_question := gate_question r; gate_options := gate_options r;
  gate_verdict := gate_verdict r; gate_chosen_option := gate_chosen_option r;
  gate_decided_by := gate_decided_by r; gate_evidence_ref := gate_evidence_ref r;
  gate_created_at := gate_created_at r; gate_updated_at := x |}.

(** A row of [gwk.authority_grant]. *)
Record GrantRow (T : Type) := {
  grant_grantee : Actor;
  grant_action_class : string;
  grant_scope : option string;
  grant_granted_at : T;
  grant_expires_at : option T;
  grant_revoked_at : option T;
  grant_revoke_reason : option string;
  grant_receipt_id : option string;
}.
Arguments grant_grantee {T}. Arguments grant_action_class {T}. Arguments grant_scope {T}.
Arguments grant_granted_at {T}. Arguments grant_expires_at {T}. Arguments grant_revoked_at {T}.
Arguments grant_revoke_reason {T}. Arguments grant_receipt_id {T}.
Arguments Build_GrantRow {T}.

Definition set_grant_revoked_at {T} (x : option T) (r : GrantRow T) : GrantRow T := {|
  grant_grantee := grant_grantee r; grant_action_class := grant_action_class r;
  grant_scope := grant_scope r; grant_granted_at := grant_granted_at r;
  grant_expires_at := grant_expires_at r; grant_revoked_at := x;
  grant_revoke_reason := grant_revoke_reason r; grant_receipt_id := grant_receipt_id r |}.
Definition set_grant_revoke_reason {T} (x : option string) (r : GrantRow T) : GrantRow T := {|
  grant_grantee := grant_grantee r; grant_action_class := grant_action_class r;
  grant_scope := grant_scope r; grant_granted_at := grant_granted_at r;
  grant_expires_at := grant_expires_at r; grant_revoked_at := grant_revoked_at r;
  grant_revoke_reason := x; grant_receipt_id := grant_receipt_id r |}.

(** A row of [gwk.receipt]. *)
Record ReceiptRow (T : Type) := {
  rc_actor : Actor;
  rc_action : string;
  rc_subject_type : string;
  rc_subject_id : string;
  rc_from_state : option string;
  rc_to_state : option string;
  rc_observed_basis : option string;
  rc_ts : T;
}.
Arguments rc_actor {T}. Arguments rc_action {T}. Arguments rc_subject_type {T}.
Arguments rc_subject_id {T}. Arguments rc_from_state {T}. Arguments rc_to_state {T}.
Arguments rc_observed_basis {T}. Arguments rc_ts {T}. Arguments Build_ReceiptRow {T}.


(** A row of [gwk.evidence]. *)
Record EvidenceRow (T : Type) := {
  evidence_kind : string;
  evidence_ref : string;
  evidence_digest : option string;
  evidence_byte_size : option Z;
  evidence_created_at : T;
}.
Arguments evidence_kind {T}. Arguments evidence_ref {T}. Arguments evidence_digest {T}.
Arguments evidence_byte_size {T}. Arguments evidence_created_at {T}.
Arguments Build_EvidenceRow {T}.


(** A row of [gwk.attention_item]. *)
Record AttentionRow (T : Type) := {
  attn_kind : string;
  attn_summary : string;
  attn_subject_ref : option string;
  attn_raised_by : option Actor;
  attn_priority : option Z;
  attn_raised_at : T;
  attn_acked_at : option T;
  attn_muted_until : option T;
  attn_resolved_at : option T;
  attn_resolution : option string;
}.
Arguments attn_kind {T}. Arguments attn_summary {T}. Arguments attn_subject_ref {T}.
Arguments attn_raised_by {T}. Arguments attn_priority {T}. Arguments attn_raised_at {T}.
Arguments attn_acked_at {T}. Arguments attn_muted_until {T}. Arguments attn_resolved_at {T}.
Arguments attn_resolution {T}. Arguments Build_AttentionRow {T}.

Definition set_attn_acked_at {T} (x : option T) (r : AttentionRow T) : AttentionRow T := {|
  attn_kind := attn_kind r; attn_summary := attn_summary r;
  attn_subject_ref := attn_subject_ref r; attn_raised_by := attn_raised_by r;
  attn_priority := attn_priority r; attn_raised_at := attn_raised_at r; attn_acked_at := x;
  attn_muted_until := attn_muted_until r; attn_resolved_at := attn_resolved_at r;
  attn_resolution := attn_resolution r |}.
Definition set_attn_muted_until {T} (x : option T) (r : AttentionRow T) : AttentionRow T := {|
  attn_kind := attn_kind r; attn_summary := attn_summary r;
  attn_subject_ref := attn_subject_ref r; attn_raised_by := attn_raised_by r;
  attn_priority := attn_priority r; attn_raised_at := attn_raised_at r;
  attn_acked_at := attn_acked_at r; attn_muted_until := x;
  attn_resolved_at := attn_resolved_at r; attn_resolution := attn_resolution r |}.
Definition set_attn_resolved_at {T} (x : option T) (r : AttentionRow T) : AttentionRow T := {|
  attn_kind := attn_kind r; attn_summary := attn_summary r;
  attn_subject_ref := attn_subject_ref r; attn_raised_by := attn_raised_by r;
  attn_priority := attn_priority r; attn_raised_at := attn_raised_at r;
  attn_acked_at := attn_acked_at r; attn_muted_until := attn_muted_until r;
  attn_resolved_at := x; attn_resolution := attn_resolution r |}.
Definition set_attn_resolution {T} (x : option string) (r : AttentionRow T) : AttentionRow T := {|
  attn_kind := attn_kind r; attn_summary := attn_summary r;
  attn_subject_ref := attn_subject_ref r; attn_raised_by := attn_raised_by r;
  attn_priority := attn_priority r; attn_raised_at := attn_raised_at r;
  attn_acked_at := attn_acked_at r; attn_muted_until := attn_muted_until r;
  attn_resolved_at := attn_resolved_at r; attn_resolution := x |}.

(** A row of [gwk.lease]. *)
Record LeaseRow (T : Type) := {
  lease_version : Z;
  lease_state : string;
  lease_mode : string;
  lease_holder : option string;
  lease_scope : option string;
  lease_repo : option string;
  lease_path : option string;
  lease_branch : option string;
  lease_base_sha : option string;
  lease_fence_token : option Z;
  lease_heartbeat_at : option T;
  lease_expires_at : option T;
  lease_dirty : bool;
  lease_unpushed : bool;
  lease_disposition : option string;
  lease_created_at : T;
  lease_updated_at : T;
}.
Arguments lease_version {T}. Arguments lease_state {T}. Arguments lease_mode {T}.
Arguments lease_holder {T}. Arguments lease_scope {T}. Arguments lease_repo {T}.
Arguments lease_path {T}. Arguments lease_branch {T}. Arguments lease_base_sha {T}.
Arguments lease_fence_token {T}. Arguments lease_heartbeat_at {T}.
Arguments lease_expires_at {T}. Arguments lease_dirty {T}. Arguments lease_unpushed {T}.
Arguments lease_disposition {T}. Arguments lease_created_at {T}.
Arguments lease_updated_at {T}. Arguments Build_LeaseRow {T}.

Definition set_lease_version {T} (x : Z) (r : LeaseRow T) : LeaseRow T := {|
  lease_version := x; lease_state := lease_state r; lease_mode := lease_mode r;
  lease_holder := lease_holder r; lease_scope := lease_scope r; lease_repo := lease_repo r;
  lease_path := lease_path r; lease_branch := lease_branch r;
  lease_base_sha := lease_base_sha r; lease_fence_token := lease_fence_token r;
  lease_heartbeat_at := lease_heartbeat_at r; lease_expires_at := lease_expires_at r;
  lease_dirty := lease_dirty r; lease_unpushed := lease_unpushed r;
  lease_disposition := lease_disposition r; lease_created_at := lease_created_at r;
  lease_updated_at := lease_updated_at r |}.
Definition set_lease_state {T} (x : string) (r : LeaseRow T) : LeaseRow T := {|
  lease_version := lease_version r; lease_state := x; lease_mode := lease_mode r;
  lease_holder := lease_holder r; lease_scope := lease_scope r; lease_repo := lease_repo r;
  lease_path := lease_path r; lease_branch := lease_branch r;
  lease_base_sha := lease_base_sha r; lease_fence_token := lease_fence_token r;
  lease_heartbeat_at := lease_heartbeat_at r; lease_expires_at := lease_expires_at r;
  lease_dirty := lease_dirty r; lease_unpushed := lease_unpushed r;
  lease_disposition := lease_disposition r; lease_created_at := lease_created_at r;
  lease_updated_at := lease_updated_at r |}.
Definition set_lease_heartbeat_at {T} (x : option T) (r : LeaseRow T) : LeaseRow T := {|
  lease_version := lease_version r; lease_state := lease_state r; lease_mode := lease_mode r;
  lease_holder := lease_holder r; lease_scope := lease_scope r; lease_repo := lease_repo r;
  lease_path := lease_path r; lease_branch := lease_branch r;
  lease_base_sha := lease_base_sha r; lease_fence_token := lease_fence_token r;
  lease_heartbeat_at := x; lease_expires_at := lease_expires_at r;
  lease_dirty := lease_dirty r; lease_unpushed := lease_unpushed r;
  lease_disposition := lease_disposition r; lease_created_at := lease_created_at r;
  lease_updated_at := lease_updated_at r |}.
Definition set_lease_expires_at {T} (x : option T) (r : LeaseRow T) : LeaseRow T := {|
  lease_version := lease_version r; lease_state := lease_state r; lease_mode := lease_mode r;
  lease_holder := lease_holder r; lease_scope := lease_scope r; lease_repo := lease_repo r;
  lease_path := lease_path r; lease_branch := lease_branch r;
  lease_base_sha := lease_base_sha r; lease_fence_token := lease_fence_token r;
  lease_heartbeat_at := lease_heartbeat_at r; lease_expires_at := x;
  lease_dirty := lease_dirty r; lease_unpushed := lease_unpushed r;
  lease_disposition := lease_disposition r; lease_created_at := lease_created_at r;
  lease_updated_at := lease_updated_at r |}.
Definition set_lease_disposition {T} (x : option string) (r : LeaseRow T) : LeaseRow T := {|
  lease_version := lease_version r; lease_state := lease_state r; lease_mode := lease_mode r;
  lease_holder := lease_holder r; lease_scope := lease_scope r; lease_repo := lease_repo r;
  lease_path := lease_path r; lease_branch := lease_branch r;
  lease_base_sha := lease_base_sha r; lease_fence_token := lease_fence_token r;
  lease_heartbeat_at := lease_heartbeat_at r; lease_expires_at := lease_expires_at r;
  lease_dirty := lease_dirty r; lease_unpushed := lease_unpushed r; lease_disposition := x;
  lease_created_at := lease_created_at r; lease_updated_at := lease_updated_at r |}.
Definition set_lease_updated_at {T} (x : T) (r : LeaseRow T) : LeaseRow T := {|
  lease_version := lease_version r; lease_state := lease_state r; lease_mode := lease_mode r;
  lease_holder := lease_holder r; lease_scope := lease_scope r; lease_repo := lease_repo r;
  lease_path := lease_path r; lease_branch := lease_branch r;
  lease_base_sha := lease_base_sha r; lease_fence_token := lease_fence_token r;
  lease_heartbeat_at := lease_heartbeat_at r; lease_expires_at := lease_expires_at r;
  lease_dirty := lease_dirty r; lease_unpushed := lease_unpushed r;
  lease_disposition := lease_disposition r; lease_created_at := lease_created_at r;
  lease_updated_at := x |}.

(** A row of [gwk.worktree]. *)
Record WorktreeRow (T : Type) := {
  worktree_repo : string;
  worktree_path : string;
  worktree_branch : string;
  worktree_base_sha : option string;
  worktree_lease_id : option string;
  worktree_dirty : bool;
  worktree_unpushed : bool;
  worktree_released_at : option T;
  worktree_disposition : option string;
  worktree_created_at : T;
}.
Arguments worktree_repo {T}. Arguments worktree_path {T}. Arguments worktree_branch {T}.
Arguments worktree_base_sha {T}. Arguments worktree_lease_id {T}. Arguments worktree_dirty {T}.
Arguments worktree_unpushed {T}. Arguments worktree_released_at {T}.
Arguments worktree_disposition {T}. Arguments worktree_created_at {T}.
Arguments Build_WorktreeRow {T}.

Definition set_worktree_base_sha {T} (x : option string) (r : WorktreeRow T) : WorktreeRow T := {|
  worktree_repo := worktree_repo r; worktree_path := worktree_path r;
  worktree_branch := worktree_branch r; worktree_base_sha := x;
  worktree_lease_id := worktree_lease_id r; worktree_dirty := worktree_dirty r;
  worktree_unpushed := worktree_unpushed r; worktree_released_at := worktree_released_at r;
  worktree_disposition := worktree_disposition r; worktree_created_at := worktree_created_at r |}.
Definition set_worktree_dirty {T} (x : bool) (r : WorktreeRow T) : WorktreeRow T := {|
  worktree_repo := worktree_repo r; worktree_path := worktree_path r;
  worktree_branch := worktree_branch r; worktree_base_sha := worktree_base_sha r;
  worktree_lease_id := worktree_lease_id r; worktree_dirty := x;
  worktree_unpushed := worktree_unpushed r; worktree_released_at := worktree_released_at r;
  worktree_disposition := worktree_disposition r; worktree_created_at := worktree_created_at r |}.
Definition set_worktree_unpushed {T} (x : bool) (r : WorktreeRow T) : WorktreeRow T := {|
  worktree_repo := worktree_repo r; worktree_path := worktree_path r;
  worktree_branch := worktree_branch r; worktree_base_sha := worktree_base_sha r;
  worktree_lease_id := worktree_lease_id r; worktree_dirty := worktree_dirty r;
  worktree_unpushed := x; worktree_released_at := worktree_released_at r;
  worktree_disposition := worktree_disposition r; worktree_created_at := worktree_created_at r |}.
Definition set_worktree_released_at {T} (x : option T) (r : WorktreeRow T) : WorktreeRow T := {|
  worktree_repo := worktree_repo r; worktree_path := worktree_path r;
  worktree_branch := worktree_branch r; worktree_base_sha := worktree_base_sha r;
  worktree_lease_id := worktree_lease_id r; worktree_dirty := worktree_dirty r;
  worktree_unpushed := worktree_unpushed r; worktree_released_at := x;
  worktree_disposition := worktree_disposition r; worktree_created_at := worktree_created_at r |}.
Definition set_worktree_disposition {T} (x : option string) (r : WorktreeRow T) : WorktreeRow T := {|
  worktree_repo := worktree_repo r; worktree_path := worktree_path r;
  worktree_branch := worktree_branch r; worktree_base_sha := worktree_base_sha r;
  worktree_lease_id := worktree_lease_id r; worktree_dirty := worktree_dirty r;
  worktree_unpushed := worktree_unpushed r; worktree_released_at := worktree_released_at r;
  worktree_disposition := x; worktree_created_at := worktree_created_at r |}.

(** A row of [gwk.dispatch_node]. *)
Record DispatchRow (T : Type) := {
  dispatch_version : Z;
  dispatch_parent_id : option string;
  dispatch_attempt_id : option string;
  dispatch_kind : string;
  dispatch_state : string;
  dispatch_label : option string;
  dispatch_created_at : T;
  dispatch_updated_at : T;
}.
Arguments dispatch_version {T}. Arguments dispatch_parent_id {T}.
Arguments dispatch_attempt_id {T}. Arguments dispatch_kind {T}. Arguments dispatch_state {T}.
Arguments dispatch_label {T}. Arguments dispatch_created_at {T}.
Arguments dispatch_updated_at {T}. Arguments Build_DispatchRow {T}.

Definition set_dispatch_version {T} (x : Z) (r : DispatchRow T) : DispatchRow T := {|
  dispatch_version := x; dispatch_parent_id := dispatch_parent_id r;
  dispatch_attempt_id := dispatch_attempt_id r; dispatch_kind := dispatch_kind r;
  dispatch_state := dispatch_state r; dispatch_label := dispatch_label r;
  dispatch_created_at := dispatch_created_at r; dispatch_updated_at := dispatch_updated_at r |}.
Definition set_dispatch_state {T} (x : string) (r : DispatchRow T) : DispatchRow T := {|
  dispatch_version := dispatch_version r; dispatch_parent_id := dispatch_parent_id r;
  dispatch_attempt_id := dispatch_attempt_id r; dispatch_kind := dispatch_kind r;
  dispatch_state := x; dispatch_label := dispatch_label r;
  dispatch_created_at := dispatch_created_at r; dispatch_updated_at := dispatch_updated_at r |}.
Definition set_dispatch_updated_at {T} (x : T) (r : DispatchRow T) : DispatchRow T := {|
  dispatch_version := dispatch_version r; dispatch_parent_id := dispatch_parent_id r;
  dispatch_attempt_id := dispatch_attempt_id r; dispatch_kind := dispatch_kind r;
  dispatch_state := dispatch_state r; dispatch_label := dispatch_label r;
  dispatch_created_at := dispatch_created_at r; dispatch_updated_at := x |}.

(** A row of [gwk.workspace_node]. *)
Record NodeRow (T : Type) := {
  node_version : Z;
  node_kind : string;
  node_parent_id : option string;
  node_session_id : option string;
  node_created_at : T;
  node_updated_at : T;
}.
Arguments node_version {T}. Arguments node_kind {T}. Arguments node_parent_id {T}.
Arguments node_session_id {T}. Arguments node_created_at {T}. Arguments node_updated_at {T}.
Arguments Build_NodeRow {T}.

Definition set_node_version {T} (x : Z) (r : NodeRow T) : NodeRow T := {|
  node_version := x; node_kind := node_kind r; node_parent_id := node_parent_id r;
  node_session_id := node_session_id r; node_created_at := node_created_at r;
  node_updated_at := node_updated_at r |}.
Definition set_node_parent_id {T} (x : option string) (r : NodeRow T) : NodeRow T := {|
  node_version := node_version r; node_kind := node_kind r; node_parent_id := x;
  node_session_id := node_session_id r; node_created_at := node_created_at r;
  node_updated_at := node_updated_at r |}.
Definition set_node_session_id {T} (x : option string) (r : NodeRow T) : NodeRow T := {|
  node_version := node_version r; node_kind := node_kind r; node_parent_id := node_parent_id r;
  node_session_id := x; node_created_at := node_created_at r;
  node_updated_at := node_updated_at r |}.
Definition set_node_updated_at {T} (x : T) (r : NodeRow T) : NodeRow T := {|
  node_version := node_version r; node_kind := node_kind r; node_parent_id := node_parent_id r;
  node_session_id := node_session_id r; node_created_at := node_created_at r;
  node_updated_at := x |}.

(** A row of [gwk.workflow_run]. *)
Record RunRow (T : Type) := {
  run_version : Z;
  run_state : string;
  run_step : option string;
  run_template_ref : string;
  run_template_sha256 : option string;
  run_task_id : option string;
  run_title : option string;
  run_opened_at : T;
  run_updated_at : T;
  run_closed_at : option T;
}.
Arguments run_version {T}. Arguments run_state {T}. Arguments run_step {T}.
Arguments run_template_ref {T}. Arguments run_template_sha256 {T}. Arguments run_task_id {T}.
Arguments run_title {T}. Arguments run_opened_at {T}. Arguments run_updated_at {T}.
Arguments run_closed_at {T}. Arguments Build_RunRow {T}.

Definition set_run_version {T} (x : Z) (r : RunRow T) : RunRow T := {|
  run_version := x; run_state := run_state r; run_step := run_step r;
  run_template_ref := run_template_ref r; run_template_sha256 := run_template_sha256 r;
  run_task_id := run_task_id r; run_title := run_title r; run_opened_at := run_opened_at r;
  run_updated_at := run_updated_at r; run_closed_at := run_closed_at r |}.
Definition set_run_state {T} (x : string) (r : RunRow T) : RunRow T := {|
  run_version := run_version r; run_state := x; run_step := run_step r;
  run_template_ref := run_template_ref r; run_template_sha256 := run_template_sha256 r;
  run_task_id := run_task_id r; run_title := run_title r; run_opened_at := run_opened_at r;
  run_updated_at := run_updated_at r; run_closed_at := run_closed_at r |}.
Definition set_run_step {T} (x : option string) (r : RunRow T) : RunRow T := {|
  run_version := run_version r; run_state := run_state r; run_step := x;
  run_template_ref := run_template_ref r; run_template_sha256 := run_template_sha256 r;
  run_task_id := run_task_id r; run_title := run_title r; run_opened_at := run_opened_at r;
  run_updated_at := run_updated_at r; run_closed_at := run_closed_at r |}.
Definition set_run_updated_at {T} (x : T) (r : RunRow T) : RunRow T := {|
  run_version := run_version r; run_state := run_state r; run_step := run_step r;
  run_template_ref := run_template_ref r; run_template_sha256 := run_template_sha256 r;
  run_task_id := run_task_id r; run_title := run_title r; run_opened_at := run_opened_at r;
  run_updated_at := x; run_closed_at := run_closed_at r |}.
Definition set_run_closed_at {T} (x : option T) (r : RunRow T) : RunRow T := {|
  run_version := run_version r; run_state := run_state r; run_step := run_step r;
  run_template_ref := run_template_ref r; run_template_sha256 := run_template_sha256 r;
  run_task_id := run_task_id r; run_title := run_title r; run_opened_at := run_opened_at r;
  run_updated_at := run_updated_at r; run_closed_at := x |}.

(** A row of [gwk.pty_session]. *)
Record PtyRow (T : Type) := {
  pty_version : Z;
  pty_state : string;
  pty_generation : string;
  pty_engine_session_id : option string;
  pty_attach_count : Z;
  pty_detach_count : Z;
  pty_title : option string;
  pty_opened_at : T;
  pty_updated_at : T;
  pty_closed_at : option T;
}.
Arguments pty_version {T}. Arguments pty_state {T}. Arguments pty_generation {T}.
Arguments pty_engine_session_id {T}. Arguments pty_attach_count {T}.
Arguments pty_detach_count {T}. Arguments pty_title {T}. Arguments pty_opened_at {T}.
Arguments pty_updated_at {T}. Arguments pty_closed_at {T}. Arguments Build_PtyRow {T}.

Definition set_pty_version {T} (x : Z) (r : PtyRow T) : PtyRow T := {|
  pty_version := x; pty_state := pty_state r; pty_generation := pty_generation r;
  pty_engine_session_id := pty_engine_session_id r; pty_attach_count := pty_attach_count r;
  pty_detach_count := pty_detach_count r; pty_title := pty_title r;
  pty_opened_at := pty_opened_at r; pty_updated_at := pty_updated_at r;
  pty_closed_at := pty_closed_at r |}.
Definition set_pty_state {T} (x : string) (r : PtyRow T) : PtyRow T := {|
  pty_version := pty_version r; pty_state := x; pty_generation := pty_generation r;
  pty_engine_session_id := pty_engine_session_id r; pty_attach_count := pty_attach_count r;
  pty_detach_count := pty_detach_count r; pty_title := pty_title r;
  pty_opened_at := pty_opened_at r; pty_updated_at := pty_updated_at r;
  pty_closed_at := pty_closed_at r |}.
Definition set_pty_attach_count {T} (x : Z) (r : PtyRow T) : PtyRow T := {|
  pty_version := pty_version r; pty_state := pty_state r; pty_generation := pty_generation r;
  pty_engine_session_id := pty_engine_session_id r; pty_attach_count := x;
  pty_detach_count := pty_detach_count r; pty_title := pty_title r;
  pty_opened_at := pty_opened_at r; pty_updated_at := pty_updated_at r;
  pty_closed_at := pty_closed_at r |}.
Definition set_pty_detach_count {T} (x : Z) (r : PtyRow T) : PtyRow T := {|
  pty_version := pty_version r; pty_state := pty_state r; pty_generation := pty_generation r;
  pty_engine_session_id := pty_engine_session_id r; pty_attach_count := pty_attach_count r;
  pty_detach_count := x; pty_title := pty_title r; pty_opened_at := pty_opened_at r;
  pty_updated_at := pty_updated_at r; pty_closed_at := pty_closed_at r |}.
Definition set_pty_updated_at {T} (x : T) (r : PtyRow T) : PtyRow T := {|
  pty_version := pty_version r; pty_state := pty_state r; pty_generation := pty_generation r;
  pty_engine_session_id := pty_engine_session_id r; pty_attach_count := pty_attach_count r;
  pty_detach_count := pty_detach_count r; pty_title := pty_title r;
  pty_opened_at := pty_opened_at r; pty_updated_at := x; pty_closed_at := pty_closed_at r |}.
Definition set_pty_closed_at {T} (x : option T) (r : PtyRow T) : PtyRow T := {|
  pty_version := pty_version r; pty_state := pty_state r; pty_generation := pty_generation r;
  pty_engine_session_id := pty_engine_session_id r; pty_attach_count := pty_attach_count r;
  pty_detach_count := pty_detach_count r; pty_title := pty_title r;
  pty_opened_at := pty_opened_at r; pty_updated_at := pty_updated_at r; pty_closed_at := x |}.

(** A row of [gwk.pty_session_template]. *)
Record TemplateRow (T : Type) := {
  tpl_version : Z;
  tpl_state : string;
  tpl_command : string;
  tpl_args : list string;
  tpl_cwd : option string;
  tpl_env : gmap string string;
  tpl_cols : Z;
  tpl_rows : Z;
  tpl_declared_at : T;
  tpl_updated_at : T;
  tpl_retired_at : option T;
}.
Arguments tpl_version {T}. Arguments tpl_state {T}. Arguments tpl_command {T}.
Arguments tpl_args {T}. Arguments tpl_cwd {T}. Arguments tpl_env {T}. Arguments tpl_cols {T}.
Arguments tpl_rows {T}. Arguments tpl_declared_at {T}. Arguments tpl_updated_at {T}.
Arguments tpl_retired_at {T}. Arguments Build_TemplateRow {T}.

Definition set_tpl_version {T} (x : Z) (r : TemplateRow T) : TemplateRow T := {|
  tpl_version := x; tpl_state := tpl_state r; tpl_command := tpl_command r;
  tpl_args := tpl_args r; tpl_cwd := tpl_cwd r; tpl_env := tpl_env r; tpl_cols := tpl_cols r;
  tpl_rows := tpl_rows r; tpl_declared_at := tpl_declared_at r;
  tpl_updated_at := tpl_updated_at r; tpl_retired_at := tpl_retired_at r |}.
Definition set_tpl_state {T} (x : string) (r : TemplateRow T) : TemplateRow T := {|
  tpl_version := tpl_version r; tpl_state := x; tpl_command := tpl_command r;
  tpl_args := tpl_args r; tpl_cwd := tpl_cwd r; tpl_env := tpl_env r; tpl_cols := tpl_cols r;
  tpl_rows := tpl_rows r; tpl_declared_at := tpl_declared_at r;
  tpl_updated_at := tpl_updated_at r; tpl_retired_at := tpl_retired_at r |}.
Definition set_tpl_updated_at {T} (x : T) (r : TemplateRow T) : TemplateRow T := {|
  tpl_version := tpl_version r; tpl_state := tpl_state r; tpl_command := tpl_command r;
  tpl_args := tpl_args r; tpl_cwd := tpl_cwd r; tpl_env := tpl_env r; tpl_cols := tpl_cols r;
  tpl_rows := tpl_rows r; tpl_declared_at := tpl_declared_at r; tpl_updated_at := x;
  tpl_retired_at := tpl_retired_at r |}.
Definition set_tpl_retired_at {T} (x : option T) (r : TemplateRow T) : TemplateRow T := {|
  tpl_version := tpl_version r; tpl_state := tpl_state r; tpl_command := tpl_command r;
  tpl_args := tpl_args r; tpl_cwd := tpl_cwd r; tpl_env := tpl_env r; tpl_cols := tpl_cols r;
  tpl_rows := tpl_rows r; tpl_declared_at := tpl_declared_at r;
  tpl_updated_at := tpl_updated_at r; tpl_retired_at := x |}.

(** A row of [gwk.orchestrator_checkpoint]. *)
Record OrchCheckpointRow (T : Type) := {
  ocp_seq : Z;
  ocp_native_session_ref : option string;
  ocp_active_goal : option string;
  ocp_active_step_ref : option string;
  ocp_latest_command_ref : option string;
  ocp_open_attempts : option (list OpenAttemptRef);
  ocp_leases : option (list LeaseSnapshot);
  ocp_pending_approvals : option (list PendingApproval);
  ocp_budget_cursor : option BudgetCursor;
  ocp_updated_at : T;
}.
Arguments ocp_seq {T}. Arguments ocp_native_session_ref {T}. Arguments ocp_active_goal {T}.
Arguments ocp_active_step_ref {T}. Arguments ocp_latest_command_ref {T}.
Arguments ocp_open_attempts {T}. Arguments ocp_leases {T}. Arguments ocp_pending_approvals {T}.
Arguments ocp_budget_cursor {T}. Arguments ocp_updated_at {T}.
Arguments Build_OrchCheckpointRow {T}.


(** A row of [gwk.ingested_record]. *)
Record IngestedRow (T V : Type) := {
  ing_kind : string;
  ing_payload : V;
  ing_payload_ref : option PayloadRef;
  ing_ingested_by : option Actor;
  ing_event_seq : Z;
  ing_ingested_at : T;
}.
Arguments ing_kind {T V}. Arguments ing_payload {T V}. Arguments ing_payload_ref {T V}.
Arguments ing_ingested_by {T V}. Arguments ing_event_seq {T V}.
Arguments ing_ingested_at {T V}. Arguments Build_IngestedRow {T V}.


(** A row of [gwk.cost_entry]. *)
Record CostRow (T : Type) := {
  cost_attempt_id : option string;
  cost_engine_session_id : option string;
  cost_dispatch_node_id : option string;
  cost_engine : string;
  cost_model : option string;
  cost_input_tokens : option Z;
  cost_cached_input_tokens : option Z;
  cost_cache_write_tokens : option Z;
  cost_output_tokens : option Z;
  cost_reasoning_tokens : option Z;
  cost_micros : option Z;
  cost_is_estimate : option bool;
  cost_recorded_at : T;
}.
Arguments cost_attempt_id {T}. Arguments cost_engine_session_id {T}.
Arguments cost_dispatch_node_id {T}. Arguments cost_engine {T}. Arguments cost_model {T}.
Arguments cost_input_tokens {T}. Arguments cost_cached_input_tokens {T}.
Arguments cost_cache_write_tokens {T}. Arguments cost_output_tokens {T}.
Arguments cost_reasoning_tokens {T}. Arguments cost_micros {T}. Arguments cost_is_estimate {T}.
Arguments cost_recorded_at {T}. Arguments Build_CostRow {T}.


(** A row of [gwk_internal.pty_delivery]. *)
Record DeliveryRow (T : Type) := {
  dv_command_id : string;
  dv_event_id : string;
  dv_event_seq : Z;
  dv_input_binding : option string;
  dv_claim_token : option string;
  dv_claimed_until : option T;
  dv_delivered_at : option T;
  dv_failed_at : option T;
  dv_indeterminate_at : option T;
  dv_failure_code : option string;
  dv_failure_message : option string;
}.
Arguments dv_command_id {T}. Arguments dv_event_id {T}. Arguments dv_event_seq {T}.
Arguments dv_input_binding {T}. Arguments dv_claim_token {T}. Arguments dv_claimed_until {T}.
Arguments dv_delivered_at {T}. Arguments dv_failed_at {T}. Arguments dv_indeterminate_at {T}.
Arguments dv_failure_code {T}. Arguments dv_failure_message {T}.
Arguments Build_DeliveryRow {T}.


(** A row of [gwk_internal.checkpoint]. *)
Record CheckpointRow (T : Type) := {
  ck_schema_version : Z;
  ck_projection_hash : string;
  ck_records_ref : PayloadRef;
  ck_created_at : T;
}.
Arguments ck_schema_version {T}. Arguments ck_projection_hash {T}.
Arguments ck_records_ref {T}. Arguments ck_created_at {T}. Arguments Build_CheckpointRow {T}.
