(* ===== verification/Db.v ===== *)
(** * The contract schema: constraints and statements (gwk-domain/src/contract_sql.rs)

    The projection tables of the kernel database, each with its triggers, CHECK
    and UNIQUE constraints and foreign keys, and the INSERT, UPDATE and DELETE
    statements the kernel runs against them.  A statement fails as PostgreSQL
    makes it fail: BEFORE triggers first, then CHECK and uniqueness, then the
    foreign keys, which see the table with the new row in it.  [Db] is the whole
    database: the event log, the writer row, the projections, the receipts, the
    delivery queue and the checkpoints.

    No statement of the kernel deletes or truncates a guarded table, so the
    forbid-delete and forbid-truncate triggers have no operation to refuse. *)

From S2P Require Import Prelude Text Fsm Envelope Command Tables.

(** ** The projection tables *)

Record Proj (T V : Type) := {
  tasks : gmap string (TaskRow T);
  attempts : gmap string (AttemptRow T);
  engine_sessions : gmap string (EngineSessionRow T);
  messages : gmap string (MessageRow T V);
  commands : gmap string (CmdRow T);
  gates : gmap string (GateRow T);
  authority_grants : gmap string (GrantRow T);
  evidences : gmap string (EvidenceRow T);
  attention_items : gmap string (AttentionRow T);
  leases : gmap string (LeaseRow T);
  worktrees : gmap string (WorktreeRow T);
  dispatch_nodes : gmap string (DispatchRow T);
  workspace_nodes : gmap string (NodeRow T);
  workflow_runs : gmap string (RunRow T);
  pty_sessions : gmap string (PtyRow T);
  pty_templates : gmap string (TemplateRow T);
  orch_checkpoints : gmap string (OrchCheckpointRow T);
  ingested_records : gmap string (IngestedRow T V);
  cost_entries : gmap string (CostRow T);
}.
Arguments tasks {T V}. Arguments attempts {T V}. Arguments engine_sessions {T V}.
Arguments messages {T V}. Arguments commands {T V}. Arguments gates {T V}.
Arguments authority_grants {T V}. Arguments evidences {T V}. Arguments attention_items {T V}.
Arguments leases {T V}. Arguments worktrees {T V}. Arguments dispatch_nodes {T V}.
Arguments workspace_nodes {T V}. Arguments workflow_runs {T V}. Arguments pty_sessions {T V}.
Arguments pty_templates {T V}. Arguments orch_checkpoints {T V}.
Arguments ingested_records {T V}. Arguments cost_entries {T V}.
Arguments Build_Proj {T V}.

Definition set_tasks {T V} (x : gmap string (TaskRow T)) (p : Proj T V) : Proj T V := {|
  tasks := x; attempts := attempts p; engine_sessions := engine_sessions p;
  messages := messages p; commands := commands p; gates := gates p;
  authority_grants := authority_grants p; evidences := evidences p;
  attention_items := attention_items p; leases := leases p; worktrees := worktrees p;
  dispatch_nodes := dispatch_nodes p; workspace_nodes := workspace_nodes p;
  workflow_runs := workflow_runs p; pty_sessions := pty_sessions p;
  pty_templates := pty_templates p; orch_checkpoints := orch_checkpoints p;
  ingested_records := ingested_records p; cost_entries := cost_entries p |}.
Definition set_attempts {T V} (x : gmap string (AttemptRow T)) (p : Proj T V) : Proj T V := {|
  tasks := tasks p; attempts := x; engine_sessions := engine_sessions p;
  messages := messages p; commands := commands p; gates := gates p;
  authority_grants := authority_grants p; evidences := evidences p;
  attention_items := attention_items p; leases := leases p; worktrees := worktrees p;
  dispatch_nodes := dispatch_nodes p; workspace_nodes := workspace_nodes p;
  workflow_runs := workflow_runs p; pty_sessions := pty_sessions p;
  pty_templates := pty_templates p; orch_checkpoints := orch_checkpoints p;
  ingested_records := ingested_records p; cost_entries := cost_entries p |}.
Definition set_engine_sessions {T V} (x : gmap string (EngineSessionRow T)) (p : Proj T V) : Proj T V := {|
  tasks := tasks p; attempts := attempts p; engine_sessions := x; messages := messages p;
  commands := commands p; gates := gates p; authority_grants := authority_grants p;
  evidences := evidences p; attention_items := attention_items p; leases := leases p;
  worktrees := worktrees p; dispatch_nodes := dispatch_nodes p;
  workspace_nodes := workspace_nodes p; workflow_runs := workflow_runs p;
  pty_sessions := pty_sessions p; pty_templates := pty_templates p;
  orch_checkpoints := orch_checkpoints p; ingested_records := ingested_records p;
  cost_entries := cost_entries p |}.
Definition set_messages {T V} (x : gmap string (MessageRow T V)) (p : Proj T V) : Proj T V := {|
  tasks := tasks p; attempts := attempts p; engine_sessions := engine_sessions p;
  messages := x; commands := commands p; gates := gates p;
  authority_grants := authority_grants p; evidences := evidences p;
  attention_items := attention_items p; leases := leases p; worktrees := worktrees p;
  dispatch_nodes := dispatch_nodes p; workspace_nodes := workspace_nodes p;
  workflow_runs := workflow_runs p; pty_sessions := pty_sessions p;
  pty_templates := pty_templates p; orch_checkpoints := orch_checkpoints p;
  ingested_records := ingested_records p; cost_entries := cost_entries p |}.
Definition set_commands {T V} (x : gmap string (CmdRow T)) (p : Proj T V) : Proj T V := {|
  tasks := tasks p; attempts := attempts p; engine_sessions := engine_sessions p;
  messages := messages p; commands := x; gates := gates p;
  authority_grants := authority_grants p; evidences := evidences p;
  attention_items := attention_items p; leases := leases p; worktrees := worktrees p;
  dispatch_nodes := dispatch_nodes p; workspace_nodes := workspace_nodes p;
  workflow_runs := workflow_runs p; pty_sessions := pty_sessions p;
  pty_templates := pty_templates p; orch_checkpoints := orch_checkpoints p;
  ingested_records := ingested_records p; cost_entries := cost_entries p |}.
Definition set_gates {T V} (x : gmap string (GateRow T)) (p : Proj T V) : Proj T V := {|
  tasks := tasks p; attempts := attempts p; engine_sessions := engine_sessions p;
  messages := messages p; commands := commands p; gates := x;
  authority_grants := authority_grants p; evidences := evidences p;
  attention_items := attention_items p; leases := leases p; worktrees := worktrees p;
  dispatch_nodes := dispatch_nodes p; workspace_nodes := workspace_nodes p;
  workflow_runs := workflow_runs p; pty_sessions := pty_sessions p;
  pty_templates := pty_templates p; orch_checkpoints := orch_checkpoints p;
  ingested_records := ingested_records p; cost_entries := cost_entries p |}.
Definition set_authority_grants {T V} (x : gmap string (GrantRow T)) (p : Proj T V) : Proj T V := {|
  tasks := tasks p; attempts := attempts p; engine_sessions := engine_sessions p;
  messages := messages p; commands := commands p; gates := gates p; authority_grants := x;
  evidences := evidences p; attention_items := attention_items p; leases := leases p;
  worktrees := worktrees p; dispatch_nodes := dispatch_nodes p;
  workspace_nodes := workspace_nodes p; workflow_runs := workflow_runs p;
  pty_sessions := pty_sessions p; pty_templates := pty_templates p;
  orch_checkpoints := orch_checkpoints p; ingested_records := ingested_records p;
  cost_entries := cost_entries p |}.
Definition set_evidences {T V} (x : gmap string (EvidenceRow T)) (p : Proj T V) : Proj T V := {|
  tasks := tasks p; attempts := attempts p; engine_sessions := engine_sessions p;
  messages := messages p; commands := commands p; gates := gates p;
  authority_grants := authority_grants p; evidences := x; attention_items := attention_items p;
  leases := leases p; worktrees := worktrees p; dispatch_nodes := dispatch_nodes p;
  workspace_nodes := workspace_nodes p; workflow_runs := workflow_runs p;
  pty_sessions := pty_sessions p; pty_templates := pty_templates p;
  orch_checkpoints := orch_checkpoints p; ingested_records := ingested_records p;
  cost_entries := cost_entries p |}.
Definition set_attention_items {T V} (x : gmap string (AttentionRow T)) (p : Proj T V) : Proj T V := {|
  tasks := tasks p; attempts := attempts p; engine_sessions := engine_sessions p;
  messages := messages p; commands := commands p; gates := gates p;
  authority_grants := authority_grants p; evidences := evidences p; attention_items := x;
  leases := leases p; worktrees := worktrees p; dispatch_nodes := dispatch_nodes p;
  workspace_nodes := workspace_nodes p; workflow_runs := workflow_runs p;
  pty_sessions := pty_sessions p; pty_templates := pty_templates p;
  orch_checkpoints := orch_checkpoints p; ingested_records := ingested_records p;
  cost_entries := cost_entries p |}.
Definition set_leases {T V} (x : gmap string (LeaseRow T)) (p : Proj T V) : Proj T V := {|
  tasks := tasks p; attempts := attempts p; engine_sessions := engine_sessions p;
  messages := messages p; commands := commands p; gates := gates p;
  authority_grants := authority_grants p; evidences := evidences p;
  attention_items := attention_items p; leases := x; worktrees := worktrees p;
  dispatch_nodes := dispatch_nodes p; workspace_nodes := workspace_nodes p;
  workflow_runs := workflow_runs p; pty_sessions := pty_sessions p;
  pty_templates := pty_templates p; orch_checkpoints := orch_checkpoints p;
  ingested_records := ingested_records p; cost_entries := cost_entries p |}.
Definition set_worktrees {T V} (x : gmap string (WorktreeRow T)) (p : Proj T V) : Proj T V := {|
  tasks := tasks p; attempts := attempts p; engine_sessions := engine_sessions p;
  messages := messages p; commands := commands p; gates := gates p;
  authority_grants := authority_grants p; evidences := evidences p;
  attention_items := attention_items p; leases := leases p; worktrees := x;
  dispatch_nodes := dispatch_nodes p; workspace_nodes := workspace_nodes p;
  workflow_runs := workflow_runs p; pty_sessions := pty_sessions p;
  pty_templates := pty_templates p; orch_checkpoints := orch_checkpoints p;
  ingested_records := ingested_records p; cost_entries := cost_entries p |}.
Definition set_dispatch_nodes {T V} (x : gmap string (DispatchRow T)) (p : Proj T V) : Proj T V := {|
  tasks := tasks p; attempts := attempts p; engine_sessions := engine_sessions p;
  messages := messages p; commands := commands p; gates := gates p;
  authority_grants := authority_grants p; evidences := evidences p;
  attention_items := attention_items p; leases := leases p; worktrees := worktrees p;
  dispatch_nodes := x; workspace_nodes := workspace_nodes p; workflow_runs := workflow_runs p;
  pty_sessions := pty_sessions p; pty_templates := pty_templates p;
  orch_checkpoints := orch_checkpoints p; ingested_records := ingested_records p;
  cost_entries := cost_entries p |}.
Definition set_workspace_nodes {T V} (x : gmap string (NodeRow T)) (p : Proj T V) : Proj T V := {|
  tasks := tasks p; attempts := attempts p; engine_sessions := engine_sessions p;
  messages := messages p; commands := commands p; gates := gates p;
  authority_grants := authority_grants p; evidences := evidences p;
  attention_items := attention_items p; leases := leases p; worktrees := worktrees p;
  dispatch_nodes := dispatch_nodes p; workspace_nodes := x; workflow_runs := workflow_runs p;
  pty_sessions := pty_sessions p; pty_templates := pty_templates p;
  orch_checkpoints := orch_checkpoints p; ingested_records := ingested_records p;
  cost_entries := cost_entries p |}.
Definition set_workflow_runs {T V} (x : gmap string (RunRow T)) (p : Proj T V) : Proj T V := {|
  tasks := tasks p; attempts := attempts p; engine_sessions := engine_sessions p;
  messages := messages p; commands := commands p; gates := gates p;
  authority_grants := authority_grants p; evidences := evidences p;
  attention_items := attention_items p; leases := leases p; worktrees := worktrees p;
  dispatch_nodes := dispatch_nodes p; workspace_nodes := workspace_nodes p; workflow_runs := x;
  pty_sessions := pty_sessions p; pty_templates := pty_templates p;
  orch_checkpoints := orch_checkpoints p; ingested_records := ingested_records p;
  cost_entries := cost_entries p |}.
Definition set_pty_sessions {T V} (x : gmap string (PtyRow T)) (p : Proj T V) : Proj T V := {|
  tasks := tasks p; attempts := attempts p; engine_sessions := engine_sessions p;
  messages := messages p; commands := commands p; gates := gates p;
  authority_grants := authority_grants p; evidences := evidences p;
  attention_items := attention_items p; leases := leases p; worktrees := worktrees p;
  dispatch_nodes := dispatch_nodes p; workspace_nodes := workspace_nodes p;
  workflow_runs := workflow_runs p; pty_sessions := x; pty_templates := pty_templates p;
  orch_checkpoints := orch_checkpoints p; ingested_records := ingested_records p;
  cost_entries := cost_entries p |}.
Definition set_pty_templates {T V} (x : gmap string (TemplateRow T)) (p : Proj T V) : Proj T V := {|
  tasks := tasks p; attempts := attempts p; engine_sessions := engine_sessions p;
  messages := messages p; commands := commands p; gates := gates p;
  authority_grants := authority_grants p; evidences := evidences p;
  attention_items := attention_items p; leases := leases p; worktrees := worktrees p;
  dispatch_nodes := dispatch_nodes p; workspace_nodes := workspace_nodes p;
  workflow_runs := workflow_runs p; pty_sessions := pty_sessions p; pty_templates := x;
  orch_checkpoints := orch_checkpoints p; ingested_records := ingested_records p;
  cost_entries := cost_entries p |}.
Definition set_orch_checkpoints {T V} (x : gmap string (OrchCheckpointRow T)) (p : Proj T V) : Proj T V := {|
  tasks := tasks p; attempts := attempts p; engine_sessions := engine_sessions p;
  messages := messages p; commands := commands p; gates := gates p;
  authority_grants := authority_grants p; evidences := evidences p;
  attention_items := attention_items p; leases := leases p; worktrees := worktrees p;
  dispatch_nodes := dispatch_nodes p; workspace_nodes := workspace_nodes p;
  workflow_runs := workflow_runs p; pty_sessions := pty_sessions p;
  pty_templates := pty_templates p; orch_checkpoints := x;
  ingested_records := ingested_records p; cost_entries := cost_entries p |}.
Definition set_ingested_records {T V} (x : gmap string (IngestedRow T V)) (p : Proj T V) : Proj T V := {|
  tasks := tasks p; attempts := attempts p; engine_sessions := engine_sessions p;
  messages := messages p; commands := commands p; gates := gates p;
  authority_grants := authority_grants p; evidences := evidences p;
  attention_items := attention_items p; leases := leases p; worktrees := worktrees p;
  dispatch_nodes := dispatch_nodes p; workspace_nodes := workspace_nodes p;
  workflow_runs := workflow_runs p; pty_sessions := pty_sessions p;
  pty_templates := pty_templates p; orch_checkpoints := orch_checkpoints p;
  ingested_records := x; cost_entries := cost_entries p |}.
Definition set_cost_entries {T V} (x : gmap string (CostRow T)) (p : Proj T V) : Proj T V := {|
  tasks := tasks p; attempts := attempts p; engine_sessions := engine_sessions p;
  messages := messages p; commands := commands p; gates := gates p;
  authority_grants := authority_grants p; evidences := evidences p;
  attention_items := attention_items p; leases := leases p; worktrees := worktrees p;
  dispatch_nodes := dispatch_nodes p; workspace_nodes := workspace_nodes p;
  workflow_runs := workflow_runs p; pty_sessions := pty_sessions p;
  pty_templates := pty_templates p; orch_checkpoints := orch_checkpoints p;
  ingested_records := ingested_records p; cost_entries := x |}.

(** ** Edge data and the guards every table shares *)

(** The rows seeded into [gwk.transition]. *)
Definition TRANSITION_SEED : list (string * string * string) :=
  [("task", "submitted", "working"); ("task", "submitted", "canceled");
   ("task", "working", "input_required"); ("task", "working", "completed");
   ("task", "working", "failed"); ("task", "working", "canceled");
   ("task", "input_required", "working"); ("task", "input_required", "canceled");
   ("attempt", "queued", "leased"); ("attempt", "queued", "canceled");
   ("attempt", "leased", "starting"); ("attempt", "leased", "canceled");
   ("attempt", "starting", "running"); ("attempt", "starting", "failed");
   ("attempt", "starting", "unknown"); ("attempt", "starting", "canceling");
   ("attempt", "running", "blocked"); ("attempt", "running", "canceling");
   ("attempt", "running", "failed"); ("attempt", "running", "unknown");
   ("attempt", "running", "succeeded"); ("attempt", "blocked", "running");
   ("attempt", "blocked", "canceling"); ("attempt", "blocked", "failed");
   ("attempt", "blocked", "unknown"); ("attempt", "canceling", "canceled");
   ("attempt", "canceling", "unknown");
   ("message", "accepted", "delivered"); ("message", "accepted", "dead_letter");
   ("message", "delivered", "acknowledged"); ("message", "delivered", "dead_letter");
   ("message", "acknowledged", "applied"); ("message", "acknowledged", "rejected");
   ("message", "acknowledged", "dead_letter");
   ("command", "issued", "targeted"); ("command", "targeted", "signaled");
   ("command", "signaled", "verification_complete")].

(** [gwk.assert_transition]: a state change is a seeded edge, and the version
    advances by exactly one. *)
Definition assert_transition (entity old_state new_state : string) (old_version new_version : Z)
  : bool :=
  (bool_decide (new_state = old_state)
   || bool_decide ((entity, old_state, new_state) ∈ TRANSITION_SEED))
  && (new_version =? old_version + 1)%Z.

(** [gwk.assert_initial_state]. *)
Definition assert_initial_state (initial state : string) (version : Z) : bool :=
  bool_decide (state = initial) && (version =? 1)%Z.

(** [gwk.assert_version_cas]. *)
Definition assert_version_cas (old_version new_version : Z) : bool :=
  (new_version =? old_version + 1)%Z.

(** [gwk.assert_lease_guard]: the version CAS, and a fence that is never cleared
    or lowered. *)
Definition assert_lease_guard (old_version new_version : Z) (old_fence new_fence : option Z)
  : bool :=
  (new_version =? old_version + 1)%Z
  && match old_fence with
     | Some o => match new_fence with Some n => (o <=? n)%Z | None => false end
     | None => true
     end.

(** [gwk.assert_workspace_parentage]; comparing with an absent parent's kind is
    SQL's NULL, which raises nothing and leaves the foreign key to refuse. *)
Definition assert_workspace_parentage (id kind : string) (parent_id : option string)
    (parent_kind : option string) : bool :=
  match parent_id with
  | None => bool_decide (kind = "workspace")
  | Some parent =>
      negb (bool_decide (kind = "workspace"))
      && negb (bool_decide (parent = id))
      && match parent_kind with
         | None => true
         | Some pk =>
             negb (bool_decide (kind = "tab") && negb (bool_decide (pk = "workspace")))
             && negb (bool_decide (kind = "pane") && negb (bool_decide (pk ∈ ["tab"; "pane"])))
         end
  end.

(** [gwk.assert_checkpoint_seq_advances]. *)
Definition assert_checkpoint_seq_advances (old_seq new_seq : Z) : bool :=
  negb (new_seq <=? old_seq)%Z.

Definition version_check (v : Z) : bool := (1 <=? v)%Z && (v <=? u32_max)%Z.
Definition u64_check (v : Z) : bool := (0 <=? v)%Z && (v <=? u64_max)%Z.
(** A CHECK over a NULL column passes. *)
Definition u64_check_opt (v : option Z) : bool :=
  match v with Some v => u64_check v | None => true end.
Definition one_of (s : string) (l : list string) : bool := bool_decide (s ∈ l).
(** [length(text)]: characters, that is bytes that do not continue one. *)
Fixpoint char_length (s : string) : Z :=
  match s with
  | EmptyString => 0
  | String c s => (if Str.in_range 128 191 c then 0 else 1) + char_length s
  end%Z.

(** No row of [tbl] but the one under [id] satisfies [clash]. *)
Definition no_other {R} (clash : R -> bool) (tbl : gmap string R) (id : string) : bool :=
  bool_decide (map_Forall (fun k r => k = id \/ clash r = false) tbl).

Definition references {R} (tbl : gmap string R) (id : string) : bool := is_some (tbl !! id).
Definition references_opt {R} (tbl : gmap string R) (id : option string) : bool :=
  match id with Some id => references tbl id | None => true end.

(** ** Tables and their statements *)

(** How a statement fails: a foreign key that does not resolve, or anything else
    (a raised exception, a CHECK, a duplicate key, text that is no timestamp). *)
Inductive SqlError := FkViolation | SqlFailure.

#[export] Instance SqlError_eq_dec : EqDecision SqlError.
Proof. solve_decision. Defined.

Section Statements.
Context {P : Type}.

(** A table of the database [P]: where its rows live and what guards them. *)
Record Table (R : Type) := {
  t_get : P -> gmap string R;
  t_set : gmap string R -> P -> P;
  t_on_insert : gmap string R -> string -> R -> bool;
  t_on_update : gmap string R -> string -> R -> R -> bool;
  t_check : R -> bool;
  t_unique : gmap string R -> string -> R -> bool;
  t_fk_cols : R -> list (option string);
  t_fk : P -> R -> bool;
}.
Arguments t_get {R}. Arguments t_set {R}. Arguments t_on_insert {R}.
Arguments t_on_update {R}. Arguments t_check {R}. Arguments t_unique {R}. Arguments t_fk_cols {R}.
Arguments t_fk {R}.

Context {R : Type} (t : Table R).

(** [INSERT INTO t VALUES (row)]. *)
Definition sql_insert (id : string) (row : R) (p : P) : result SqlError P :=
  let tbl := t_get t p in
  _ ← ensure (t_on_insert t tbl id row) SqlFailure;
  _ ← ensure (t_check t row) SqlFailure;
  _ ← ensure (negb (is_some (tbl !! id)) && t_unique t tbl id row) SqlFailure;
  let p' := t_set t (<[id := row]> tbl) p in
  _ ← ensure (t_fk t p' row) FkViolation;
  mret p'.

(** [UPDATE t SET .. WHERE id = $1], with the number of rows it touched.  A
    foreign key is looked up again only when a referencing column changed. *)
Definition sql_update (id : string) (f : R -> R) (p : P) : result SqlError (Z * P) :=
  let tbl := t_get t p in
  match tbl !! id with
  | None => Ok (0%Z, p)
  | Some old =>
      let new := f old in
      _ ← ensure (t_on_update t tbl id old new) SqlFailure;
      _ ← ensure (t_check t new) SqlFailure;
      _ ← ensure (t_unique t tbl id new) SqlFailure;
      let p' := t_set t (<[id := new]> tbl) p in
      _ ← ensure (bool_decide (t_fk_cols t new = t_fk_cols t old) || t_fk t p' new) FkViolation;
      Ok (1%Z, p')
  end.

Lemma sql_insert_ok id row p p' :
  sql_insert id row p = Ok p' <->
  t_on_insert t (t_get t p) id row = true /\ t_check t row = true /\
  t_get t p !! id = None /\ t_unique t (t_get t p) id row = true /\
  t_fk t p' row = true /\ p' = t_set t (<[id := row]> (t_get t p)) p.
Proof.
  unfold sql_insert. cbn zeta. split.
  - intros Hr. inv_ok. unbool.
    match goal with Hs : is_some _ = false |- _ =>
      unfold is_some in Hs; destruct (t_get t p !! id) eqn:?; [done|] end.
    done.
  - intros (-> & -> & Hn & -> & Hf & ->). by rewrite Hn, Hf.
Qed.

Lemma sql_update_ok id f p n p' :
  sql_update id f p = Ok (n, p') <->
  (t_get t p !! id = None /\ n = 0%Z /\ p' = p) \/
  exists old, t_get t p !! id = Some old /\ n = 1%Z /\
    t_on_update t (t_get t p) id old (f old) = true /\ t_check t (f old) = true /\
    t_unique t (t_get t p) id (f old) = true /\
    (t_fk_cols t (f old) = t_fk_cols t old \/ t_fk t p' (f old) = true) /\
    p' = t_set t (<[id := f old]> (t_get t p)) p.
Proof.
  unfold sql_update. cbn zeta. destruct (t_get t p !! id) as [old|] eqn:E; split.
  - intros Hr. inv_ok. simplify_eq. right. exists old. do 5 (split; [done|]).
    split; [|done].
    match goal with Ho : _ || _ = true |- _ =>
      apply orb_true_iff in Ho as [Ho%bool_decide_eq_true|Ho]; [by left|by right] end.
  - intros [[? _]|(o & [= ->] & -> & Hu & Hc & Hq & Hf & ->)]; [done|].
    rewrite Hu, Hc, Hq. cbn [ensure mbind result_bind].
    rewrite (proj2 (orb_true_iff _ _)); [done|].
    rewrite bool_decide_eq_true. done.
  - intros [= <- <-]. by left.
  - by intros [(_ & -> & ->)|(o & ? & _)].
Qed.
End Statements.
Arguments Table : clear implicits.
Arguments t_get {P R}. Arguments t_set {P R}. Arguments t_on_insert {P R}.
Arguments t_on_update {P R}. Arguments t_check {P R}. Arguments t_unique {P R}.
Arguments t_fk_cols {P R}. Arguments t_fk {P R}. Arguments Build_Table {P R}.

(** Guards a table does not declare. *)
Definition no_insert_trigger {R} (_ : gmap string R) (_ : string) (_ : R) : bool := true.
Definition no_update_trigger {R} (_ : gmap string R) (_ : string) (_ _ : R) : bool := true.
Definition no_check {R} (_ : R) : bool := true.
Definition no_unique {R} (_ : gmap string R) (_ : string) (_ : R) : bool := true.
Definition no_fk {P R} (_ : P) (_ : R) : bool := true.

(** ** The tables of the contract *)

Section Contract.
Context {T V : Type}.
Notation P := (Proj T V).

Definition task_table : Table P (TaskRow T) := {|
  t_get := tasks; t_set := set_tasks;
  t_on_insert _ _ r := assert_initial_state "submitted" (task_state r) (task_version r);
  t_on_update _ _ o n :=
    assert_transition "task" (task_state o) (task_state n) (task_version o) (task_version n);
  t_check r := version_check (task_version r)
    && one_of (task_state r)
         ["submitted"; "working"; "input_required"; "completed"; "failed"; "canceled"];
  t_unique := no_unique; t_fk_cols _ := []; t_fk := no_fk;
|}.

Definition attempt_table : Table P (AttemptRow T) := {|
  t_get := attempts; t_set := set_attempts;
  t_on_insert _ _ r := assert_initial_state "queued" (attempt_state r) (attempt_version r);
  t_on_update _ _ o n :=
    assert_transition "attempt" (attempt_state o) (attempt_state n)
      (attempt_version o) (attempt_version n);
  t_check r := version_check (attempt_version r)
    && one_of (attempt_state r)
         ["queued"; "leased"; "starting"; "running"; "blocked"; "canceling"; "canceled";
          "failed"; "unknown"; "succeeded"];
  t_unique := no_unique;
  t_fk_cols r := [Some (attempt_task_id r); attempt_worktree_lease_id r];
  t_fk p r := references (tasks p) (attempt_task_id r)
    && references_opt (leases p) (attempt_worktree_lease_id r);
|}.

Definition engine_session_table : Table P (EngineSessionRow T) := {|
  t_get := engine_sessions; t_set := set_engine_sessions;
  t_on_insert := no_insert_trigger; t_on_update := no_update_trigger;
  t_check := no_check; t_unique := no_unique;
  t_fk_cols r := [Some (es_attempt_id r)];
  t_fk p r := references (attempts p) (es_attempt_id r);
|}.

Definition message_table : Table P (MessageRow T V) := {|
  t_get := messages; t_set := set_messages;
  t_on_insert _ _ r := assert_initial_state "accepted" (message_state r) (message_version r);
  t_on_update _ _ o n :=
    assert_transition "message" (message_state o) (message_state n)
      (message_version o) (message_version n);
  t_check r := version_check (message_version r)
    && one_of (message_state r)
         ["accepted"; "delivered"; "acknowledged"; "applied"; "rejected"; "dead_letter"]
    && (0 <=? message_delivery_attempts r)%Z;
  t_unique tbl id r :=
    no_other (fun q => bool_decide (message_idempotency_key q = message_idempotency_key r)) tbl id;
  t_fk_cols r := [message_reply_to r];
  t_fk p r := references_opt (messages p) (message_reply_to r);
|}.

Definition command_table : Table P (CmdRow T) := {|
  t_get := commands; t_set := set_commands;
  t_on_insert _ _ r := assert_initial_state "issued" (cmd_state r) (cmd_version r);
  t_on_update _ _ o n :=
    assert_transition "command" (cmd_state o) (cmd_state n) (cmd_version o) (cmd_version n);
  t_check r := version_check (cmd_version r)
    && one_of (cmd_state r) ["issued"; "targeted"; "signaled"; "verification_complete"]
    && match cmd_outcome r with
       | Some o => one_of o ["clean"; "partial"; "unknown"] | None => true end
    && Bool.eqb (bool_decide (cmd_state r = "verification_complete")) (is_some (cmd_outcome r));
  t_unique tbl id r :=
    match cmd_idempotency_key r with
    | Some k => no_other (fun q => bool_decide (cmd_idempotency_key q = Some k)) tbl id
    | None => true
    end;
  t_fk_cols _ := []; t_fk := no_fk;
|}.

Definition gate_table : Table P (GateRow T) := {|
  t_get := gates; t_set := set_gates;
  t_on_insert := no_insert_trigger; t_on_update := no_update_trigger;
  t_check r := version_check (gate_version r)
    && one_of (gate_verdict r) ["pending"; "pass"; "fail"; "partial"]
    && Bool.eqb (bool_decide (gate_verdict r = "pending")) (negb (is_some (gate_decided_by r)));
  t_unique := no_unique;
  t_fk_cols r := [gate_attempt_id r];
  t_fk p r := references_opt (attempts p) (gate_attempt_id r);
|}.

Definition authority_grant_table : Table P (GrantRow T) := {|
  t_get := authority_grants; t_set := set_authority_grants;
  t_on_insert := no_insert_trigger; t_on_update := no_update_trigger;
  t_check := no_check; t_unique := no_unique; t_fk_cols _ := []; t_fk := no_fk;
|}.

Definition evidence_table : Table P (EvidenceRow T) := {|
  t_get := evidences; t_set := set_evidences;
  t_on_insert := no_insert_trigger; t_on_update := no_update_trigger;
  t_check r := u64_check_opt (evidence_byte_size r);
  t_unique := no_unique; t_fk_cols _ := []; t_fk := no_fk;
|}.

(** The rows [attention_item_unresolved_dedup] holds a slot for. *)
Definition holds_slot (kind : string) (subject_ref : option string) (r : AttentionRow T) : bool :=
  bool_decide (attn_kind r = kind) && is_some subject_ref
  && bool_decide (attn_subject_ref r = subject_ref) && negb (is_some (attn_resolved_at r)).

Definition attention_table : Table P (AttentionRow T) := {|
  t_get := attention_items; t_set := set_attention_items;
  t_on_insert := no_insert_trigger; t_on_update := no_update_trigger;
  t_check := no_check;
  t_unique tbl id r :=
    is_some (attn_resolved_at r)
    || no_other (holds_slot (attn_kind r) (attn_subject_ref r)) tbl id;
  t_fk_cols _ := []; t_fk := no_fk;
|}.

Definition lease_table : Table P (LeaseRow T) := {|
  t_get := leases; t_set := set_leases;
  t_on_insert := no_insert_trigger;
  t_on_update _ _ o n :=
    assert_lease_guard (lease_version o) (lease_version n) (lease_fence_token o) (lease_fence_token n);
  t_check r := version_check (lease_version r)
    && one_of (lease_state r) ["held"; "released"; "expired"]
    && one_of (lease_mode r) ["exclusive"; "shared"]
    && u64_check_opt (lease_fence_token r);
  t_unique := no_unique; t_fk_cols _ := []; t_fk := no_fk;
|}.

Definition worktree_table : Table P (WorktreeRow T) := {|
  t_get := worktrees; t_set := set_worktrees;
  t_on_insert := no_insert_trigger; t_on_update := no_update_trigger;
  t_check := no_check; t_unique := no_unique;
  t_fk_cols r := [worktree_lease_id r];
  t_fk p r := references_opt (leases p) (worktree_lease_id r);
|}.

Definition dispatch_node_table : Table P (DispatchRow T) := {|
  t_get := dispatch_nodes; t_set := set_dispatch_nodes;
  t_on_insert := no_insert_trigger;
  t_on_update _ _ o n := assert_version_cas (dispatch_version o) (dispatch_version n);
  t_check r := version_check (dispatch_version r);
  t_unique := no_unique;
  t_fk_cols r := [dispatch_parent_id r; dispatch_attempt_id r];
  t_fk p r := references_opt (dispatch_nodes p) (dispatch_parent_id r)
    && references_opt (attempts p) (dispatch_attempt_id r);
|}.

Definition node_parentage (tbl : gmap string (NodeRow T)) (id : string) (r : NodeRow T) : bool :=
  assert_workspace_parentage id (node_kind r) (node_parent_id r)
    (match node_parent_id r with
     | Some parent => node_kind <$> tbl !! parent
     | None => None
     end).

Definition workspace_node_table : Table P (NodeRow T) := {|
  t_get := workspace_nodes; t_set := set_workspace_nodes;
  t_on_insert tbl id r := node_parentage tbl id r;
  t_on_update tbl id o n :=
    assert_version_cas (node_version o) (node_version n) && node_parentage tbl id n;
  t_check r := version_check (node_version r)
    && one_of (node_kind r) ["workspace"; "tab"; "pane"]
    && (bool_decide (node_kind r = "pane") || negb (is_some (node_session_id r)));
  t_unique := no_unique;
  t_fk_cols r := [node_parent_id r];
  t_fk p r := references_opt (workspace_nodes p) (node_parent_id r);
|}.

(** [DELETE FROM gwk.workspace_node WHERE id = $1]: the parent foreign key of a
    remaining child refuses it. *)
Definition delete_workspace_node (id : string) (p : P) : result SqlError (Z * P) :=
  match workspace_nodes p !! id with
  | None => Ok (0%Z, p)
  | Some _ =>
      let rest := delete id (workspace_nodes p) in
      _ ← ensure (bool_decide (map_Forall (fun _ r => node_parent_id r <> Some id) rest)) FkViolation;
      Ok (1%Z, set_workspace_nodes rest p)
  end.

Definition workflow_run_table : Table P (RunRow T) := {|
  t_get := workflow_runs; t_set := set_workflow_runs;
  t_on_insert := no_insert_trigger;
  t_on_update _ _ o n := assert_version_cas (run_version o) (run_version n);
  t_check r := version_check (run_version r)
    && match run_template_sha256 r with Some d => is_sha256_hex d | None => true end
    && Bool.eqb (bool_decide (run_state r = "running")) (negb (is_some (run_closed_at r)));
  t_unique := no_unique;
  t_fk_cols r := [run_task_id r];
  t_fk p r := references_opt (tasks p) (run_task_id r);
|}.

Definition pty_session_table : Table P (PtyRow T) := {|
  t_get := pty_sessions; t_set := set_pty_sessions;
  t_on_insert := no_insert_trigger;
  t_on_update _ _ o n := assert_version_cas (pty_version o) (pty_version n);
  t_check r := version_check (pty_version r)
    && one_of (pty_state r) ["running"; "stopping"; "closed"]
    && (0 <=? pty_attach_count r)%Z && (0 <=? pty_detach_count r)%Z
    && Bool.eqb (bool_decide (pty_state r = "closed")) (is_some (pty_closed_at r));
  t_unique := no_unique;
  t_fk_cols r := [pty_engine_session_id r];
  t_fk p r := references_opt (engine_sessions p) (pty_engine_session_id r);
|}.

Definition pty_template_table : Table P (TemplateRow T) := {|
  t_get := pty_templates; t_set := set_pty_templates;
  t_on_insert := no_insert_trigger;
  t_on_update _ _ o n := assert_version_cas (tpl_version o) (tpl_version n);
  t_check r := version_check (tpl_version r)
    && one_of (tpl_state r) ["active"; "retired"]
    && (1 <=? char_length (tpl_command r))%Z && (char_length (tpl_command r) <=? 4096)%Z
    && (1 <=? tpl_cols r)%Z && (tpl_cols r <=? 1000)%Z
    && (1 <=? tpl_rows r)%Z && (tpl_rows r <=? 1000)%Z
    && Bool.eqb (bool_decide (tpl_state r = "active")) (negb (is_some (tpl_retired_at r)))
    && (tpl_cols r * tpl_rows r <=? 100000)%Z;
  t_unique := no_unique; t_fk_cols _ := []; t_fk := no_fk;
|}.

Definition orch_checkpoint_table : Table P (OrchCheckpointRow T) := {|
  t_get := orch_checkpoints; t_set := set_orch_checkpoints;
  t_on_insert := no_insert_trigger;
  t_on_update _ _ o n := assert_checkpoint_seq_advances (ocp_seq o) (ocp_seq n);
  t_check r := u64_check (ocp_seq r);
  t_unique := no_unique; t_fk_cols _ := []; t_fk := no_fk;
|}.

Definition ingested_record_table : Table P (IngestedRow T V) := {|
  t_get := ingested_records; t_set := set_ingested_records;
  t_on_insert := no_insert_trigger; t_on_update := no_update_trigger;
  t_check r :=
    one_of (ing_kind r)
      ["memory"; "knowledge"; "graph_snapshot"; "eval_verdict"; "insight"; "cost"; "health";
       "session"; "config"; "checkpoint"; "round"; "finding"]
    && u64_check (ing_event_seq r);
  t_unique := no_unique; t_fk_cols _ := []; t_fk := no_fk;
|}.

Definition cost_entry_table : Table P (CostRow T) := {|
  t_get := cost_entries; t_set := set_cost_entries;
  t_on_insert := no_insert_trigger; t_on_update := no_update_trigger;
  t_check r :=
    u64_check_opt (cost_input_tokens r) && u64_check_opt (cost_cached_input_tokens r)
    && u64_check_opt (cost_cache_write_tokens r) && u64_check_opt (cost_output_tokens r)
    && u64_check_opt (cost_reasoning_tokens r) && u64_check_opt (cost_micros r)
    && (is_some (cost_attempt_id r) || is_some (cost_engine_session_id r)
        || is_some (cost_dispatch_node_id r))
    && (negb (is_some (cost_is_estimate r)) || is_some (cost_micros r));
  t_unique := no_unique;
  t_fk_cols r := [cost_attempt_id r; cost_engine_session_id r; cost_dispatch_node_id r];
  t_fk p r := references_opt (attempts p) (cost_attempt_id r)
    && references_opt (engine_sessions p) (cost_engine_session_id r)
    && references_opt (dispatch_nodes p) (cost_dispatch_node_id r);
|}.
End Contract.

(** ** The whole database *)

(** The singleton of [gwk_internal.writer]. *)
Record WriterRow (T : Type) := {
  w_epoch : Z;
  w_fence_token : option Z;
  w_next_seq : Z;
  w_checkpoint_seq : Z;
  w_checkpoint_at : T;
}.
Arguments w_epoch {T}. Arguments w_fence_token {T}. Arguments w_next_seq {T}.
Arguments w_checkpoint_seq {T}. Arguments w_checkpoint_at {T}. Arguments Build_WriterRow {T}.

Record Db (T V : Type) := {
  log : list (EventEnvelope V);
  writer : option (WriterRow T);
  proj : Proj T V;
  receipts : gmap string (ReceiptRow T);
  deliveries : gmap (string * string) (DeliveryRow T);
  checkpoints : gmap Z (CheckpointRow T);
}.
Arguments log {T V}. Arguments writer {T V}. Arguments proj {T V}. Arguments receipts {T V}.
Arguments deliveries {T V}. Arguments checkpoints {T V}. Arguments Build_Db {T V}.

Section DbOps.
Context {T V : Type}.
Notation db_t := (Db T V).

Definition set_log (x : list (EventEnvelope V)) (d : db_t) : db_t := {|
  log := x; writer := writer d; proj := proj d; receipts := receipts d;
  deliveries := deliveries d; checkpoints := checkpoints d |}.
Definition set_writer (x : option (WriterRow T)) (d : db_t) : db_t := {|
  log := log d; writer := x; proj := proj d; receipts := receipts d;
  deliveries := deliveries d; checkpoints := checkpoints d |}.
Definition set_proj (x : Proj T V) (d : db_t) : db_t := {|
  log := log d; writer := writer d; proj := x; receipts := receipts d;
  deliveries := deliveries d; checkpoints := checkpoints d |}.
Definition set_receipts (x : gmap string (ReceiptRow T)) (d : db_t) : db_t := {|
  log := log d; writer := writer d; proj := proj d; receipts := x;
  deliveries := deliveries d; checkpoints := checkpoints d |}.
Definition set_deliveries (x : gmap (string * string) (DeliveryRow T)) (d : db_t) : db_t := {|
  log := log d; writer := writer d; proj := proj d; receipts := receipts d;
  deliveries := x; checkpoints := checkpoints d |}.
Definition set_checkpoints (x : gmap Z (CheckpointRow T)) (d : db_t) : db_t := {|
  log := log d; writer := writer d; proj := proj d; receipts := receipts d;
  deliveries := deliveries d; checkpoints := x |}.

Definition empty_proj : Proj T V := {|
  tasks := ∅; attempts := ∅; engine_sessions := ∅; messages := ∅; commands := ∅; gates := ∅;
  authority_grants := ∅; evidences := ∅; attention_items := ∅; leases := ∅; worktrees := ∅;
  dispatch_nodes := ∅; workspace_nodes := ∅; workflow_runs := ∅; pty_sessions := ∅;
  pty_templates := ∅; orch_checkpoints := ∅; ingested_records := ∅; cost_entries := ∅ |}.

(** A database as the migrations leave it: the writer row at its defaults, every
    other table empty. *)
Definition initial_db (created_at : T) : db_t := {|
  log := [];
  writer := Some {| w_epoch := 0; w_fence_token := None; w_next_seq := 1;
                    w_checkpoint_seq := 0; w_checkpoint_at := created_at |};
  proj := empty_proj; receipts := ∅; deliveries := ∅; checkpoints := ∅ |}.
End DbOps.

(** ** The schema's edge data is the domain's *)

(** The edges of a machine as rows of [gwk.transition]. *)
Definition machine_rows {S} `{StateMachine S} (entity : string) : list (string * string * string) :=
  map (fun e => (entity, wire_name e.1, wire_name e.2)) EDGES.

Lemma seed_is_machines :
  TRANSITION_SEED =
  machine_rows (S := TaskState) "task" ++ machine_rows (S := AttemptState) "attempt" ++
  machine_rows (S := MessageState) "message" ++ machine_rows (S := CommandState) "command".
Proof. reflexivity. Qed.

Lemma machine_rows_spec {S} `{StateMachine S} entity ent' x y :
  (ent', x, y) ∈ machine_rows (S := S) entity <->
  ent' = entity /\ exists a b : S, wire_name a = x /\ wire_name b = y /\ can_transition a b = true.
Proof.
  unfold machine_rows. rewrite list_elem_of_In, in_map_iff. split.
  - intros ([a' b'] & [= <- <- <-] & Hin). split; [done|]. exists a', b'.
    split; [done|]. split; [done|]. by apply can_transition_spec, list_elem_of_In.
  - intros (-> & a' & b' & <- & <- & Hc%can_transition_spec).
    exists (a', b'). split; [done|]. by apply list_elem_of_In.
Qed.

(** The entity name a machine is seeded under; the rows of that name are its
    edges and no others. *)
Class SeededMachine (S : Type) `{StateMachine S} := {
  seeded_as : string;
  seeded_rows : forall x y : string,
    (seeded_as, x, y) ∈ TRANSITION_SEED <-> (seeded_as, x, y) ∈ machine_rows (S := S) seeded_as;
}.
Arguments seeded_as S {_ _}.

Ltac solve_seeded :=
  intros x y; rewrite seed_is_machines, !elem_of_app; split;
  [ intros [Hi|[Hi|[Hi|Hi]]]; solve [done | apply machine_rows_spec in Hi as [Hi _]; done]
  | tauto ].

#[export] Instance task_seeded : SeededMachine TaskState.
Proof. exists "task". solve_seeded. Defined.
#[export] Instance attempt_seeded : SeededMachine AttemptState.
Proof. exists "attempt". solve_seeded. Defined.
#[export] Instance message_seeded : SeededMachine MessageState.
Proof. exists "message". solve_seeded. Defined.
#[export] Instance command_seeded : SeededMachine CommandState.
Proof. exists "command". solve_seeded. Defined.

(** The trigger admits an update of a row exactly when the domain crate admits
    the edge (or the state stays) and the version advances by one. *)
Lemma assert_transition_spec (S : Type) `{SeededMachine S, !StateMachineLaws S} (a b : S) v v' :
  assert_transition (seeded_as S) (wire_name a) (wire_name b) v v' = true <->
  (a = b \/ can_transition a b = true) /\ v' = (v + 1)%Z.
Proof.
  unfold assert_transition. rewrite andb_true_iff, orb_true_iff, !bool_decide_eq_true, Z.eqb_eq.
  rewrite seeded_rows, machine_rows_spec. split.
  - intros [[Hw|(_ & a' & b' & Ha & Hb & Hc)] ->]; (split; [|done]).
    + left. by apply wire_name_inj in Hw.
    + right. by apply wire_name_inj in Ha as ->, Hb as ->.
  - intros [[->|Hc] ->]; (split; [|done]); [by left|right].
    split; [done|]. by exists a, b.
Qed.

(** The same, for whatever text the state columns hold: a legal update of a
    state column leaves a known state only along an edge. *)
Lemma assert_transition_state (S : Type) `{SeededMachine S, !StateMachineLaws S} (a : S) y v v' :
  assert_transition (seeded_as S) (wire_name a) y v v' = true ->
  y = wire_name a \/ exists b : S, y = wire_name b /\ can_transition a b = true.
Proof.
  unfold assert_transition. rewrite andb_true_iff, orb_true_iff, !bool_decide_eq_true.
  intros [[Hy|Hy] _]; [by left|right].
  apply seeded_rows, machine_rows_spec in Hy as (_ & a' & b' & Ha & Hb & Hc).
  apply wire_name_inj in Ha as ->. by exists b'.
Qed.

(** The schema's transition trigger admits an update of a task,
    attempt, message or command row exactly when the domain crate has the edge,
    or the state stays, and the version advances by one; the seed rows belong to
    these four machines and no other. *)
Theorem schema_guards_are_the_machines :
  (forall a b v v', assert_transition "task" (wire_name (a : TaskState)) (wire_name b) v v' = true
     <-> (a = b \/ can_transition a b = true) /\ v' = (v + 1)%Z) /\
  (forall a b v v', assert_transition "attempt" (wire_name (a : AttemptState)) (wire_name b) v v' = true
     <-> (a = b \/ can_transition a b = true) /\ v' = (v + 1)%Z) /\
  (forall a b v v', assert_transition "message" (wire_name (a : MessageState)) (wire_name b) v v' = true
     <-> (a = b \/ can_transition a b = true) /\ v' = (v + 1)%Z) /\
  (forall a b v v', assert_transition "command" (wire_name (a : CommandState)) (wire_name b) v v' = true
     <-> (a = b \/ can_transition a b = true) /\ v' = (v + 1)%Z) /\
  forall entity x y, (entity, x, y) ∈ TRANSITION_SEED ->
    entity ∈ ["task"; "attempt"; "message"; "command"].
Proof.
  split; [exact (assert_transition_spec TaskState)|].
  split; [exact (assert_transition_spec AttemptState)|].
  split; [exact (assert_transition_spec MessageState)|].
  split; [exact (assert_transition_spec CommandState)|].
  intros entity x y. rewrite seed_is_machines, !elem_of_app, !machine_rows_spec. set_solver.
Qed.
