(* ===== verification/Store.v ===== *)
(** * The PostgreSQL event store (gwk-kernel/src/store.rs, writer.rs, numeric.rs)

    Ordering is the whole job: a transaction locks the writer row, proves that
    this process still holds the writer epoch, answers a keyed retry from the
    log, compares the aggregate's version, and only then inserts its batch under
    consecutive sequence numbers.  [gwk.event] is held in primary-key order, so
    ORDER BY seq is the order of the list.

    A transaction is a function of the database: it returns the database it
    commits, or an error and commits nothing.  The writer row lock makes
    transactions serial, so a history of the system is a sequence of them. *)

From S2P Require Import Prelude Text Envelope Command Tables Db.

(** What an append may answer (gwk-domain/src/port.rs); messages are not kept. *)
Inductive AppendError :=
| VersionConflict (actual expected : Z)
| Fenced (presented current : Z)
| MalformedBatch
| StorageFailure.

#[export] Instance AppendError_eq_dec : EqDecision AppendError.
Proof. solve_decision. Defined.

Definition MAX_READ_LIMIT : Z := 65536.
Definition CHECKPOINT_EVENT_INTERVAL : Z := 10000.
Definition CHECKPOINT_INTERVAL_SECS : Z := 300.
Definition CHECKPOINT_SCHEMA_VERSION : Z := 1.
Definition RECORDS_MEDIA_TYPE : string := "application/x-ndjson".
Definition NO_FENCE_PRESENTED : Z := 0.
Definition i64_max : Z := 9223372036854775807.

Section Store.
Context `{TZ : Timestamptz} {V : Type} `{SD : Serde V}.
Notation event := (EventEnvelope V).
Notation database := (Db instant V).

(** ** A store and its transaction clock *)

(** The blob store a snapshot writes its records through: its key and the
    outcome of hashing and storing the canonical records of the projections, the
    digest and the byte count, or nothing when the write fails. *)
Record BlobStore := {
  kek : string;
  put_records : Proj instant V -> option (string * Z);
}.

(** [PgEventStore]: one process' handle on the log. *)
Record Store := {
  boot_epoch : Z;
  blobs : option BlobStore;
  (** Permits left in the admission semaphore. *)
  permits : Z;
}.

(** What the database's clocks read in one transaction: [now()], fixed at its
    start, and [clock_timestamp()]. *)
Record TxClock := { tx_now : instant; tx_wall : instant }.

Definition admit_append (st : Store) : result AppendError unit :=
  ensure (0 <? permits st)%Z StorageFailure.

Definition pty_input_binding_key (st : Store) : option string := kek <$> blobs st.

(** [PgEventStore::open_reader]. *)
Definition open_reader (inflight : Z) : Store :=
  {| boot_epoch := 0; blobs := None; permits := inflight |}.

(** [claim_epoch]: bump the durable counter and take its new value. *)
Definition claim_epoch (db : database) : result unit (Z * database) :=
  match writer db with
  | None => Err tt
  | Some w =>
      let epoch := (w_epoch w + 1)%Z in
      _ ← ensure (epoch <=? i64_max)%Z tt;
      Ok (epoch, set_writer (Some {| w_epoch := epoch; w_fence_token := w_fence_token w;
                                     w_next_seq := w_next_seq w;
                                     w_checkpoint_seq := w_checkpoint_seq w;
                                     w_checkpoint_at := w_checkpoint_at w |}) db)
  end.

(** [PgEventStore::with_capacity]. *)
Definition with_capacity (inflight : Z) (db : database) : result unit (Store * database) :=
  '(epoch, db) ← claim_epoch db;
  mret ({| boot_epoch := epoch; blobs := None; permits := inflight |}, db).

(** [EventStore::grant_fence]. *)
Definition grant_fence (db : database) : result AppendError (Z * database) :=
  match writer db with
  | None => Err StorageFailure
  | Some w =>
      let token := (default 0 (w_fence_token w) + 1)%Z in
      _ ← ensure ((1 <=? token) && (token <=? u64_max))%Z StorageFailure;
      token ← map_err (fun _ => StorageFailure)
                (Numeric.from_numeric_text (Numeric.to_numeric_text token));
      Ok (token, set_writer (Some {| w_epoch := w_epoch w; w_fence_token := Some token;
                                     w_next_seq := w_next_seq w;
                                     w_checkpoint_seq := w_checkpoint_seq w;
                                     w_checkpoint_at := w_checkpoint_at w |}) db)
  end.

(** ** The writer row, read under its lock *)

Record WriterState := {
  ws_next_seq : Z;
  ws_current_fence : option Z;
  ws_checkpoint_seq : Z;
  ws_checkpoint_overdue : bool;
}.

(** A [numeric(20,0)] column, crossing as text. *)
Definition read_numeric (z : Z) : result AppendError Z :=
  map_err (fun _ => StorageFailure) (Numeric.from_numeric_text (Numeric.to_numeric_text z)).

(** [PgEventStore::lock_writer]. *)
Definition lock_writer (st : Store) (clock : TxClock) (db : database)
  : result AppendError WriterState :=
  w ← ok_or (writer db) StorageFailure;
  _ ← ensure (w_epoch w =? boot_epoch st)%Z StorageFailure;
  current_fence ← match w_fence_token w with
                  | Some f => f ← read_numeric f; mret (Some f)
                  | None => mret None
                  end;
  next_seq ← read_numeric (w_next_seq w);
  checkpoint_seq ← read_numeric (w_checkpoint_seq w);
  mret {| ws_next_seq := next_seq; ws_current_fence := current_fence;
          ws_checkpoint_seq := checkpoint_seq;
          ws_checkpoint_overdue :=
            elapsed_at_least (tx_now clock) (w_checkpoint_at w) CHECKPOINT_INTERVAL_SECS |}.

(** [WriterState::checkpoint_due]. *)
Definition checkpoint_due (ws : WriterState) (through : Z) : bool :=
  ws_checkpoint_overdue ws
  || (CHECKPOINT_EVENT_INTERVAL <=? saturating_sub through (ws_checkpoint_seq ws))%Z.

(** ** Reading the log *)

Definition in_aggregate (aggregate_type0 aggregate_id0 : string) (e : event) : bool :=
  bool_decide (aggregate_type e = aggregate_type0) && bool_decide (aggregate_id e = aggregate_id0).

(** [current_aggregate_version]: the highest version, 0 without events. *)
Definition current_aggregate_version (l : list event) (aggregate_type0 aggregate_id0 : string)
  : result AppendError Z :=
  let actual := max_of aggregate_version 0
                  (List.filter (in_aggregate aggregate_type0 aggregate_id0) l) in
  _ ← ensure (actual <=? u32_max)%Z StorageFailure;
  mret actual.

(** [events_for_key]: every event either unique index would refuse a second of. *)
Definition events_for_key (l : list event) (project0 aggregate_type0 aggregate_id0 key : string)
  : list event :=
  List.filter (fun e =>
    bool_decide (idempotency_key e = Some key)
    && (bool_decide (project_id e = project0) || in_aggregate aggregate_type0 aggregate_id0 e)) l.

(** [read_page]: the page after a cursor, clamped to [MAX_READ_LIMIT]. *)
Definition read_page (l : list event) (cursor : option Z) (limit : Z) : list event :=
  take (Z.to_nat (Z.min limit MAX_READ_LIMIT))
    (List.filter (fun e => match cursor with
                           | Some c => (c <? global_sequence e)%Z
                           | None => true
                           end) l).

(** [SELECT max(seq)]. *)
Definition watermark (l : list event) : option Z :=
  match l with [] => None | _ => Some (max_of global_sequence 0 l) end.

(** ** Validating a batch *)

(** One iteration of the loop of [validate_batch]; [earlier] is the part of the
    batch before this event. *)
Definition validate_event (expected_version : Z) (first : event) (earlier : list event) (e : event)
  : result AppendError unit :=
  _ ← ensure (in_aggregate (aggregate_type first) (aggregate_id first) e) MalformedBatch;
  let want := (expected_version + 1 + Z.of_nat (length earlier))%Z in
  _ ← ensure (want <=? u32_max)%Z MalformedBatch;
  _ ← ensure (aggregate_version e =? want)%Z MalformedBatch;
  _ ← ensure (negb (schema_version e =? 0)%Z) MalformedBatch;
  _ ← ensure (serialized_len (payload e) <=? INLINE_PAYLOAD_MAX_BYTES)%Z MalformedBatch;
  ensure (match idempotency_key e with
          | Some key => negb (existsb (fun o => bool_decide (idempotency_key o = Some key)) earlier)
          | None => true
          end) MalformedBatch.

Fixpoint validate_events (expected_version : Z) (first : event) (earlier events : list event)
  : result AppendError unit :=
  match events with
  | [] => Ok tt
  | e :: events =>
      _ ← validate_event expected_version first earlier e;
      validate_events expected_version first (earlier ++ [e]) events
  end.

(** [validate_batch]. *)
Definition validate_batch (expected_version : Z) (events : list event) : result AppendError unit :=
  match events with
  | [] => Err MalformedBatch
  | first :: _ => validate_events expected_version first [] events
  end.

(** ** Appending *)

(** [is_replay_of]: the presented envelope, but for the three fields the store
    owns, is the stored one. *)
Definition normalized (stored presented : event) : event := {|
  event_id := event_id presented; project_id := project_id presented;
  aggregate_type := aggregate_type presented; aggregate_id := aggregate_id presented;
  aggregate_version := aggregate_version presented; event_type := event_type presented;
  schema_version := schema_version presented;
  global_sequence := global_sequence stored;
  occurred_at := occurred_at stored; appended_at := appended_at stored;
  actor := actor presented; origin := origin presented;
  causation_id := causation_id presented; correlation_id := correlation_id presented;
  idempotency_key := idempotency_key presented;
  payload := payload presented; payload_ref := payload_ref presented |}.

Definition is_replay_of (stored presented : event) : bool :=
  bool_decide (normalized stored presented = stored).

(** The row [RETURNING] gives back for one inserted event; its payload has been
    through a jsonb column. *)
Definition stored_row (seq : Z) (occurred now : instant) (e : event) : event := {|
  event_id := event_id e; project_id := project_id e;
  aggregate_type := aggregate_type e; aggregate_id := aggregate_id e;
  aggregate_version := aggregate_version e; event_type := event_type e;
  schema_version := schema_version e;
  global_sequence := seq; occurred_at := ts_json occurred; appended_at := ts_json now;
  actor := actor e; origin := origin e;
  causation_id := causation_id e; correlation_id := correlation_id e;
  idempotency_key := idempotency_key e; payload := jsonb (payload e); payload_ref := payload_ref e |}.

(** The unique indexes of [gwk.event] that two rows would share a key of. *)
Definition same_key (a b : event) : bool :=
  match idempotency_key a with
  | Some k =>
      bool_decide (idempotency_key b = Some k)
      && (bool_decide (project_id a = project_id b)
          || in_aggregate (aggregate_type a) (aggregate_id a) b)
  | None => false
  end.

Definition clashes (a b : event) : bool :=
  (global_sequence a =? global_sequence b)%Z
  || bool_decide (event_id a = event_id b)
  || in_aggregate (aggregate_type a) (aggregate_id a) b
     && (aggregate_version a =? aggregate_version b)%Z
  || same_key a b.

(** The CHECK constraints of [gwk.event]. *)
Definition event_check (e : event) : bool :=
  u64_check (global_sequence e) && version_check (aggregate_version e)
  && version_check (schema_version e).

(** A row takes its place in primary-key order. *)
Fixpoint insert_by_seq (row : event) (l : list event) : list event :=
  match l with
  | [] => [row]
  | e :: l =>
      if (global_sequence row <? global_sequence e)%Z then row :: e :: l
      else e :: insert_by_seq row l
  end.

(** [INSERT INTO gwk.event .. RETURNING ..]. *)
Definition insert_event (seq : Z) (now : instant) (e : event) (l : list event)
  : result AppendError (event * list event) :=
  occurred ← ok_or (ts_parse (occurred_at e)) StorageFailure;
  let row := stored_row seq occurred now e in
  _ ← ensure (event_check row) StorageFailure;
  _ ← ensure (forallb (fun o => negb (clashes row o)) l) StorageFailure;
  mret (row, insert_by_seq row l).

(** The insertion loop: event [offset] of the batch gets [next_seq + offset]. *)
Fixpoint insert_events (next_seq offset : Z) (now : instant) (events l : list event)
  : result AppendError (list event * list event) :=
  match events with
  | [] => mret ([], l)
  | e :: events =>
      seq ← ok_or (checked_add u64_max next_seq offset) StorageFailure;
      '(row, l) ← insert_event seq now e l;
      '(rows, l) ← insert_events next_seq (offset + 1) now events l;
      mret (row :: rows, l)
  end.

Record Appended := { app_events : list event; app_replayed : bool }.

Definition batch_keys (events : list event) : list string :=
  omap idempotency_key events.

(** The idempotency lookup of [append_locked]. *)
Definition stored_under (l : list event) (first : event) (keys : list string) : list event :=
  List.filter (fun e =>
    in_aggregate (aggregate_type first) (aggregate_id first) e
    && match idempotency_key e with
       | Some k => bool_decide (k ∈ keys)
       | None => false
       end) l.

Definition with_next_seq (seq : Z) (w : WriterRow instant) : WriterRow instant := {|
  w_epoch := w_epoch w; w_fence_token := w_fence_token w; w_next_seq := seq;
  w_checkpoint_seq := w_checkpoint_seq w; w_checkpoint_at := w_checkpoint_at w |}.

Definition check_fence (ws : WriterState) (fence : option Z) : result AppendError unit :=
  match ws_current_fence ws with
  | Some current =>
      let presented := default NO_FENCE_PRESENTED fence in
      ensure (presented =? current)%Z (Fenced presented current)
  | None => mret tt
  end.

(** The answer an idempotency lookup gives before any version is compared. *)
Definition keyed_retry (stored events : list event) (keys : list string)
  : result AppendError (option (list event)) :=
  if bool_decide (keys = []) || bool_decide (stored = []) then mret None
  else if bool_decide (length stored = length events) && bool_decide (length keys = length events)
  then
    _ ← ensure (forallb (fun '(s, p) => is_replay_of s p) (zip stored events)) MalformedBatch;
    mret (Some stored)
  else Err MalformedBatch.

(** [PgEventStore::append_locked]. *)
Definition append_locked (clock : TxClock) (ws : WriterState) (expected_version : Z)
    (fence : option Z) (events : list event) (db : database)
  : result AppendError (Appended * database) :=
  _ ← validate_batch expected_version events;
  first ← ok_or (head events) MalformedBatch;
  _ ← check_fence ws fence;
  let keys := batch_keys events in
  retry ← keyed_retry (stored_under (log db) first keys) events keys;
  match retry with
  | Some stored => mret ({| app_events := stored; app_replayed := true |}, db)
  | None =>
      actual ← current_aggregate_version (log db) (aggregate_type first) (aggregate_id first);
      _ ← ensure (actual =? expected_version)%Z (VersionConflict actual expected_version);
      '(rows, l) ← insert_events (ws_next_seq ws) 0 (tx_now clock) events (log db);
      advanced ← ok_or (checked_add u64_max (ws_next_seq ws) (Z.of_nat (length events)))
                   StorageFailure;
      mret ({| app_events := rows; app_replayed := false |},
            set_writer (with_next_seq advanced <$> writer db) (set_log l db))
  end.

(** [EventStore::append]: a whole transaction. *)
Definition append (st : Store) (clock : TxClock) (expected_version : Z) (fence : option Z)
    (events : list event) (db : database) : result AppendError (list event * database) :=
  _ ← admit_append st;
  ws ← lock_writer st clock db;
  '(appended, db) ← append_locked clock ws expected_version fence events db;
  mret (app_events appended, db).

(** ** Snapshots *)

(** [checkpoint::snapshot]: the records go to the blob store, the row and the
    barrier's counters to the database. *)
Definition snapshot (b : BlobStore) (through : Z) (created_at : string) (db : database)
  : result AppendError database :=
  '(hash, byte_size) ← ok_or (put_records b (proj db)) StorageFailure;
  _ ← ensure (is_sha256_hex hash) StorageFailure;
  at' ← ok_or (ts_parse created_at) StorageFailure;
  _ ← ensure ((1 <=? through) && (through <=? u64_max))%Z StorageFailure;
  let row := {| ck_schema_version := CHECKPOINT_SCHEMA_VERSION; ck_projection_hash := hash;
                ck_records_ref := {| pr_digest := "sha256:" +:+ hash;
                                     pr_media_type := RECORDS_MEDIA_TYPE;
                                     pr_byte_size := byte_size; pr_retention_class := None;
                                     pr_evidence_pin := None |};
                ck_created_at := at' |} in
  let db := match checkpoints db !! through with
            | Some _ => db
            | None => set_checkpoints (<[through := row]> (checkpoints db)) db
            end in
  mret (set_writer ((fun w => {| w_epoch := w_epoch w; w_fence_token := w_fence_token w;
                                 w_next_seq := w_next_seq w; w_checkpoint_seq := through;
                                 w_checkpoint_at := at' |}) <$> writer db) db).

(** [PgEventStore::checkpoint_if_due]. *)
Definition checkpoint_if_due (st : Store) (ws : WriterState) (through : Z) (created_at : string)
    (db : database) : result AppendError database :=
  match blobs st with
  | None => mret db
  | Some b => if checkpoint_due ws through then snapshot b through created_at db else mret db
  end.

(** [PgEventStore::checkpoint_at_watermark]: the snapshot of a clean shutdown. *)
Definition checkpoint_at_watermark (st : Store) (clock : TxClock) (db : database)
  : result AppendError (option Z * database) :=
  match blobs st with
  | None => mret (None, db)
  | Some b =>
      _ ← lock_writer st clock db;
      match watermark (log db) with
      | None => mret (None, db)
      | Some mark =>
          through ← read_numeric mark;
          db ← snapshot b through (ts_json (tx_now clock)) db;
          mret (Some through, db)
      end
  end.

(** ** The invariant of the log *)

(** The versions an aggregate has, in log order. *)
Definition versions (l : list event) (ty id : string) : list Z :=
  aggregate_version <$> List.filter (in_aggregate ty id) l.

(** Sequence numbers rise strictly and stay below the writer's next one, every
    aggregate counts 1, 2, 3, .., and no two rows share a unique key. *)
Record log_inv (db : database) : Prop := {
  li_writer : exists w, writer db = Some w /\ (1 <= w_next_seq w <= u64_max)%Z /\
                (forall e, e ∈ log db -> (global_sequence e < w_next_seq w)%Z);
  li_increasing : increasing_from global_sequence 0 (log db);
  li_contiguous : forall ty id,
    versions (log db) ty id = seqZ 1 (Z.of_nat (length (versions (log db) ty id)));
  li_distinct : ForallOrdPairs (fun a b => clashes b a = false) (log db);
  li_checked : forall e, e ∈ log db -> event_check e = true;
}.

Lemma in_aggregate_spec ty id (e : event) : in_aggregate ty id e = true <-> agg_key e = (ty, id).
Proof.
  unfold in_aggregate, agg_key. rewrite andb_true_iff, !bool_decide_eq_true. naive_solver.
Qed.

Lemma max_of_seqZ (f : event -> Z) (l : list event) (n : nat) :
  f <$> l = seqZ 1 (Z.of_nat n) -> max_of f 0 l = Z.of_nat n.
Proof.
  revert l. induction n as [|n IH] using nat_ind; intros l Hl.
  - by destruct l.
  - replace (Z.of_nat (S n)) with (Z.of_nat n + 1)%Z in * by lia.
    rewrite seqZ_app in Hl by lia. apply fmap_app_inv in Hl as (l1 & l2 & H1 & H2 & ->).
    symmetry in H1, H2.
    rewrite max_of_app, (IH l1) by done.
    change (seqZ (1 + Z.of_nat n) 1) with [(0 + (1 + Z.of_nat n))%Z] in H2.
    destruct l2 as [|x [|y l2]]; try done. injection H2 as Hx. simpl. lia.
Qed.

Lemma current_version_spec db ty id v :
  log_inv db ->
  current_aggregate_version (log db) ty id = Ok v <->
  v = Z.of_nat (length (versions (log db) ty id)) /\ (v <= u32_max)%Z.
Proof.
  intros Hinv. unfold current_aggregate_version. cbn zeta.
  rewrite (max_of_seqZ _ _ (length (versions (log db) ty id))) by apply (li_contiguous _ Hinv).
  split.
  - intros Hr. inv_ok. unbool. done.
  - intros [-> Hle%Z.leb_le]. by rewrite Hle.
Qed.

Lemma versions_app l1 l2 ty id : versions (l1 ++ l2) ty id = versions l1 ty id ++ versions l2 ty id.
Proof. unfold versions. by rewrite List.filter_app, fmap_app. Qed.

(** *** The insertion loop *)

Lemma insert_by_seq_last row l :
  (forall e, e ∈ l -> (global_sequence e < global_sequence row)%Z) ->
  insert_by_seq row l = l ++ [row].
Proof.
  induction l as [|e l IH]; intros Hl; [done|]. simpl.
  rewrite (proj2 (Z.ltb_ge _ _)).
  - f_equal. apply IH. set_solver.
  - assert (global_sequence e < global_sequence row)%Z by (apply Hl; left). lia.
Qed.

(** [row] is [e] as stored: nothing but the store's own fields differs. *)
Definition landed (now : instant) (e row : event) : Prop :=
  exists occurred, ts_parse (occurred_at e) = Some occurred /\
    row = stored_row (global_sequence row) occurred now e.

(** A payload the column gives back as it is. *)
Definition keeps (e : event) : Prop := jsonb (payload e) = payload e.

Lemma landed_replay now e row : keeps e -> landed now e row -> is_replay_of row e = true.
Proof.
  unfold keeps. intros Hk (occ & _ & ->). apply bool_decide_eq_true. unfold normalized, stored_row. cbn. by rewrite Hk.
Qed.

(** [row] answers for [e]: it is [e] but for the store's own fields, the payload
    as the column gives it back. *)
Definition records (row e : event) : Prop := is_replay_of row e = true \/ exists now, landed now e row.

Lemma insert_event_ok seq now e l row l' :
  insert_event seq now e l = Ok (row, l') <->
  landed now e row /\ global_sequence row = seq /\ event_check row = true /\
  Forall (fun o => clashes row o = false) l /\ l' = insert_by_seq row l.
Proof.
  unfold insert_event. cbn zeta. split.
  - intros Hr. inv_ok. simplify_eq.
    match goal with Hf : forallb _ _ = true |- _ => rewrite forallb_forall in Hf; rename Hf into H2 end.
    split; [by eexists|]. do 2 (split; [done|]). split; [|done].
    apply Forall_forall. intros o Ho. apply negb_true_iff, H2, list_elem_of_In, Ho.
  - intros ((occ & Hp & Hrow) & <- & Hc & Hf & ->). rewrite Hp. simpl.
    rewrite <-Hrow, Hc. simpl. rewrite (proj2 (forallb_forall _ _)); [done|].
    intros o Ho. apply negb_true_iff. rewrite Forall_forall in Hf. by apply Hf, list_elem_of_In.
Qed.

Lemma insert_events_ok next offset now events l rows l' :
  (forall e, e ∈ l -> (global_sequence e < next + offset)%Z) ->
  ForallOrdPairs (fun a b => clashes b a = false) l ->
  insert_events next offset now events l = Ok (rows, l') ->
  l' = l ++ rows /\ Forall2 (landed now) events rows /\
  global_sequence <$> rows = seqZ (next + offset) (Z.of_nat (length events)) /\
  ForallOrdPairs (fun a b => clashes b a = false) l' /\
  Forall (fun e => event_check e = true) rows.
Proof.
  revert offset l rows l'. induction events as [|e events IH]; intros offset l rows l' Hlt Hd.
  { intros [= <- <-]. rewrite app_nil_r. done. }
  simpl. intros Hr. inv_ok. simplify_eq/=.
  apply checked_add_some in Hrun as [-> Hmax].
  apply insert_event_ok in Hrun0 as (Hl & Hseq & Hc & Hf & ->).
  rewrite insert_by_seq_last in Hrun1 by (intros; rewrite Hseq; auto).
  apply IH in Hrun1 as (-> & HF & Hs & Hd' & Hcs).
  - rewrite <-app_assoc in *. simpl. split; [done|]. split; [by constructor|].
    split; [|split; [done|by constructor]].
    replace (Z.of_nat (S (length events))) with (1 + Z.of_nat (length events))%Z by lia.
    rewrite seqZ_app by lia. simpl. rewrite Hseq, Hs. f_equal; first [lia | f_equal; lia].
  - intros e' [He|He%list_elem_of_singleton]%elem_of_app.
    + specialize (Hlt _ He). lia.
    + subst. lia.
  - by apply ord_pairs_snoc.
Qed.

(** *** Validated batches *)

Lemma validate_event_ok ev first earlier e :
  validate_event ev first earlier e = Ok tt ->
  agg_key e = agg_key first /\
  aggregate_version e = (ev + 1 + Z.of_nat (length earlier))%Z /\
  (aggregate_version e <= u32_max)%Z /\
  (forall k, idempotency_key e = Some k -> k ∉ batch_keys earlier).
Proof.
  unfold validate_event. cbn zeta. intros Hr. inv_ok. unbool.
  split; [by apply in_aggregate_spec|]. split; [done|]. split; [lia|].
  intros k Hk Hin. rewrite Hk in Hr. apply negb_true_iff, not_true_iff_false in Hr.
  apply Hr, existsb_exists. apply list_elem_of_omap in Hin as (o & Ho & Hok).
  exists o. split; [by apply list_elem_of_In|]. by apply bool_decide_eq_true.
Qed.

Lemma validate_events_ok ev first earlier events :
  validate_events ev first earlier events = Ok tt ->
  Forall (fun e => agg_key e = agg_key first) events /\
  aggregate_version <$> events =
    seqZ (ev + 1 + Z.of_nat (length earlier)) (Z.of_nat (length events)) /\
  (NoDup (batch_keys earlier) -> NoDup (batch_keys (earlier ++ events))).
Proof.
  revert earlier. induction events as [|e events IH]; intros earlier.
  { intros _. rewrite app_nil_r. done. }
  cbn [validate_events]. intros Hr. inv_ok. destruct r. apply validate_event_ok in Hrun as (Ha & Hv & _ & Hk).
  apply IH in Hr as (HF & Hs & Hn). split; [by constructor|]. split.
  - cbn [length]. rewrite seqZ_cons by lia.
    rewrite fmap_cons, Hv, Hs, length_app. cbn [length]. f_equal. f_equal; lia.
  - intros Hd. rewrite <-app_assoc in Hn. simpl in Hn. apply Hn.
    unfold batch_keys. rewrite omap_app. simpl. destruct (idempotency_key e) as [k|] eqn:E.
    + apply NoDup_app. split; [done|]. split; [|apply NoDup_singleton].
      intros x Hx ->%list_elem_of_singleton. by apply (Hk k).
    + by rewrite app_nil_r.
Qed.

Lemma validate_batch_ok ev events :
  validate_batch ev events = Ok tt ->
  exists first, head events = Some first /\
  Forall (fun e => agg_key e = agg_key first) events /\
  aggregate_version <$> events = seqZ (ev + 1) (Z.of_nat (length events)) /\
  NoDup (batch_keys events).
Proof.
  destruct events as [|first events]; [done|]. unfold validate_batch. intros Hr.
  apply validate_events_ok in Hr as (HF & Hs & Hn). exists first. split; [done|].
  split; [done|]. split; [by rewrite Z.add_0_r in Hs|]. apply Hn, NoDup_nil_2.
Qed.

(** *** What an append does *)

Lemma read_numeric_ok z : is_u64 z -> read_numeric z = Ok z.
Proof. intros Hz. unfold read_numeric. by rewrite Numeric.from_to_numeric_text. Qed.

Lemma lock_writer_ok st clock db ws :
  log_inv db -> lock_writer st clock db = Ok ws ->
  exists w, writer db = Some w /\ w_epoch w = boot_epoch st /\ ws_next_seq ws = w_next_seq w.
Proof.
  intros [(w & Hw & Hn & _)]. unfold lock_writer. rewrite Hw. intros Hr. inv_ok. simplify_eq. unbool.
  match goal with Hw : writer db = Some ?w |- _ => exists w end. split; [done|]. split; [done|].
  match goal with Hr : read_numeric (w_next_seq _) = Ok _ |- _ =>
    rewrite read_numeric_ok in Hr by (unfold is_u64; lia); by injection Hr as <- end.
Qed.

(** The batch is already in the log, and the rows that hold it are the answer. *)
Record replayed_append (events : list event) (first : event) (db : database) (a : Appended)
    (db' : database) : Prop := {
  ra_flag : app_replayed a = true;
  ra_db : db' = db;
  ra_rows : app_events a = stored_under (log db) first (batch_keys events);
  ra_same : Forall2 (fun s e => is_replay_of s e = true) (app_events a) events;
  ra_keyed : length (batch_keys events) = length events;
  ra_some : app_events a <> [];
}.

(** The batch went to the end of the log under the next sequence numbers. *)
Record fresh_append (clock : TxClock) (ev : Z) (events : list event) (first : event)
    (db : database) (a : Appended) (db' : database) : Prop := {
  fa_flag : app_replayed a = false;
  fa_unused : batch_keys events = [] \/ stored_under (log db) first (batch_keys events) = [];
  fa_version : Z.of_nat (length (versions (log db) (aggregate_type first) (aggregate_id first))) = ev;
  fa_log : log db' = log db ++ app_events a;
  fa_landed : Forall2 (landed (tx_now clock)) events (app_events a);
  fa_seqs : exists w, writer db = Some w /\
    global_sequence <$> app_events a = seqZ (w_next_seq w) (Z.of_nat (length events)) /\
    db' = set_writer (Some (with_next_seq (w_next_seq w + Z.of_nat (length events))%Z w))
            (set_log (log db ++ app_events a) db) /\
    (w_next_seq w + Z.of_nat (length events) <= u64_max)%Z;
  fa_distinct : ForallOrdPairs (fun a b => clashes b a = false) (log db');
  fa_checked : Forall (fun e => event_check e = true) (app_events a);
}.

Lemma zip_forallb {A B} (f : A -> B -> bool) (l : list A) (k : list B) :
  length l = length k -> forallb (fun '(a, b) => f a b) (zip l k) = true ->
  Forall2 (fun a b => f a b = true) l k.
Proof.
  revert k. induction l as [|a l IH]; intros [|b k] Hl; simplify_eq/=; [constructor|].
  intros [? ?]%andb_true_iff. constructor; auto.
Qed.

Lemma append_locked_ok clock ws ev fence events db a db' w :
  log_inv db -> writer db = Some w -> ws_next_seq ws = w_next_seq w ->
  append_locked clock ws ev fence events db = Ok (a, db') ->
  validate_batch ev events = Ok tt /\ check_fence ws fence = Ok tt /\
  exists first, head events = Some first /\
    (replayed_append events first db a db' \/ fresh_append clock ev events first db a db').
Proof.
  intros Hinv Hw Hnext. unfold append_locked. cbn zeta. intros Hr. inv_ok.
  destruct r, r1. split; [done|]. split; [done|]. exists r0. split; [done|].
  destruct (li_writer _ Hinv) as (w' & Hw' & Hn & Hlt). rewrite Hw in Hw'. injection Hw' as <-.
  unfold keyed_retry in Hrun2.
  destruct (bool_decide_reflect (batch_keys events = [])) as [Hk|Hk]; simpl in Hrun2;
    [|destruct (bool_decide_reflect (stored_under (log db) r0 (batch_keys events) = [])) as [Hs|Hs];
      simpl in Hrun2; [|destruct (_ && _) eqn:Hlen; [|done]]].
  3: { inv_ok. unbool. injection Hr as <- <-. left. split; try done. by apply zip_forallb. }
  all: injection Hrun2 as <-; right; inv_ok; simplify_eq; unbool; subst;
    apply current_version_spec in Hrun2 as [-> Hle]; [|done];
    rewrite Hnext in *; apply checked_add_some in Hrun5 as [-> Hmax];
    (eapply insert_events_ok in Hrun4 as (-> & HF & Hq & Hd & Hc);
      [|by rewrite Z.add_0_r|by apply (li_distinct _ Hinv)]);
    rewrite Z.add_0_r in Hq; (split; simpl; try done);
    [ by left + by right | exists w; by rewrite Hw ].
Qed.

Lemma landed_fields now e row :
  landed now e row ->
  agg_key row = agg_key e /\ aggregate_version row = aggregate_version e /\
  idempotency_key row = idempotency_key e /\ project_id row = project_id e /\
  event_id row = event_id e /\ event_type row = event_type e /\ payload row = jsonb (payload e) /\
  actor row = actor e /\ appended_at row = ts_json now.
Proof. by intros (occ & _ & ->). Qed.

Lemma replay_fields s e :
  is_replay_of s e = true ->
  agg_key s = agg_key e /\ aggregate_version s = aggregate_version e /\
  idempotency_key s = idempotency_key e.
Proof. intros <-%bool_decide_eq_true. done. Qed.

Lemma increasing_seqZ (f : event -> Z) lo a l :
  (lo < a)%Z -> f <$> l = seqZ a (Z.of_nat (length l)) -> increasing_from f lo l.
Proof.
  revert lo a. induction l as [|x l IH]; intros lo a Ha; [done|].
  cbn [length]. rewrite fmap_cons, seqZ_cons by lia. intros [= Hx Hl].
  simpl. split; [lia|]. apply (IH _ (a + 1)%Z); [lia|].
  rewrite Hl. f_equal; lia.
Qed.

Lemma max_of_lt (f : event -> Z) d l b :
  (d < b)%Z -> (forall x, x ∈ l -> (f x < b)%Z) -> (max_of f d l < b)%Z.
Proof.
  intros Hd. induction l as [|x l IH]; intros Hl; simpl; [done|].
  assert (f x < b)%Z by (apply Hl; left). specialize (IH ltac:(intros; apply Hl; by right)). lia.
Qed.

Lemma versions_all (l : list event) ty id :
  Forall (fun e => agg_key e = (ty, id)) l -> versions l ty id = aggregate_version <$> l.
Proof.
  intros Hl. unfold versions. f_equal. induction Hl as [|e l He Hl IH]; [done|].
  simpl. rewrite (proj2 (in_aggregate_spec _ _ _) He). by f_equal.
Qed.

Lemma versions_none (l : list event) ty id k :
  k <> (ty, id) -> Forall (fun e => agg_key e = k) l -> versions l ty id = [].
Proof.
  intros Hk Hl. unfold versions. induction Hl as [|e l He Hl IH]; [done|]. simpl.
  destruct (in_aggregate ty id e) eqn:E; [|done]. apply in_aggregate_spec in E. congruence.
Qed.

Lemma fresh_append_keys clock ev events first db a db' :
  Forall (fun e => agg_key e = agg_key first) events ->
  fresh_append clock ev events first db a db' ->
  Forall (fun e => agg_key e = agg_key first) (app_events a) /\
  aggregate_version <$> app_events a = aggregate_version <$> events.
Proof.
  intros Hk [_ _ _ _ HF _ _ _]. induction HF as [|e row es rows Hl HF IH]; [done|].
  inversion Hk; subst. apply landed_fields in Hl as (Ha & Hv & _).
  destruct (IH ltac:(done)) as [Hks Hvs]. split; [constructor; congruence|].
  by rewrite !fmap_cons, Hv, Hvs.
Qed.

Lemma fresh_append_inv clock ev events first db a db' :
  log_inv db -> Forall (fun e => agg_key e = agg_key first) events ->
  aggregate_version <$> events = seqZ (ev + 1) (Z.of_nat (length events)) ->
  fresh_append clock ev events first db a db' -> log_inv db'.
Proof.
  intros Hinv Hk Hvs Hf. destruct (fresh_append_keys _ _ _ _ _ _ _ Hk Hf) as [Hka Hva].
  destruct Hf as [_ _ Hver Hlog HF (w & Hw & Hq & -> & Hmax) Hd Hc].
  destruct (li_writer _ Hinv) as (w' & Hw' & Hn & Hlt). rewrite Hw in Hw'. injection Hw' as <-.
  pose proof (Forall2_length _ _ _ HF) as Hlen. split; simpl.
  - eexists. split; [done|]. simpl. split; [lia|].
    intros e [He|He]%elem_of_app; [specialize (Hlt _ He); lia|].
    assert (global_sequence e ∈ global_sequence <$> app_events a) as Hi by (by apply list_elem_of_fmap_2).
    rewrite Hq in Hi. apply elem_of_seqZ in Hi. lia.
  - apply increasing_app. split; [apply Hinv|].
    apply (increasing_seqZ _ _ (w_next_seq w)); [|by rewrite <-Hlen].
    apply max_of_lt; [lia|done].
  - intros ty id. rewrite versions_app.
    destruct (decide (agg_key first = (ty, id))) as [He|He].
    + rewrite (versions_all (app_events a)), Hva, Hvs by (by rewrite <-He).
      unfold agg_key in He. simplify_eq. rewrite length_app, length_seqZ.
      rewrite (li_contiguous _ Hinv (aggregate_type first)) at 1.
      rewrite Nat2Z.inj_add, seqZ_app by lia. f_equal. f_equal; lia.
    + rewrite (versions_none _ _ _ _ He Hka), app_nil_r. apply Hinv.
  - done.
  - intros e [He|He]%elem_of_app; [by apply Hinv|]. rewrite Forall_forall in Hc. by apply Hc.
Qed.

Lemma append_locked_inv st clock ws ev fence events db a db' :
  log_inv db -> lock_writer st clock db = Ok ws ->
  append_locked clock ws ev fence events db = Ok (a, db') -> log_inv db'.
Proof.
  intros Hinv Hl Ha. destruct (lock_writer_ok _ _ _ _ Hinv Hl) as (w & Hw & _ & Hn).
  apply (append_locked_ok _ _ _ _ _ _ _ _ w) in Ha as (Hv & _ & first & Hh & Hout); [|done..].
  apply validate_batch_ok in Hv as (first' & Hh' & Hk & Hvs & _). simplify_eq.
  destruct Hout as [[_ -> _ _ _ _]|Hf]; [done|]. by eapply fresh_append_inv.
Qed.

(** *** Keyed retries *)

Lemma stored_under_spec l first keys (e : event) :
  e ∈ stored_under l first keys <->
  e ∈ l /\ agg_key e = agg_key first /\ exists k, idempotency_key e = Some k /\ k ∈ keys.
Proof.
  unfold stored_under. rewrite list_elem_of_In, filter_In, <-list_elem_of_In, andb_true_iff.
  rewrite in_aggregate_spec. destruct (idempotency_key e) as [k|]; [rewrite bool_decide_eq_true|].
  - split; [intros (? & ? & ?); eauto|]. intros (? & ? & k' & [= <-] & ?). done.
  - split; [by intros (? & ? & ?)|]. by intros (? & ? & k' & ? & ?).
Qed.

Lemma stored_under_nil l first keys :
  (forall e, e ∈ stored_under l first keys -> False) -> stored_under l first keys = [].
Proof. destruct (stored_under l first keys) as [|e l']; [done|]. intros Hn. destruct (Hn e). left. Qed.

Lemma stored_under_all l first keys :
  Forall (fun e => agg_key e = agg_key first /\ exists k, idempotency_key e = Some k /\ k ∈ keys) l ->
  stored_under l first keys = l.
Proof.
  unfold stored_under. induction 1 as [|e l (Ha & k & Hk & Hin) Hl IH]; [done|]. simpl.
  rewrite (proj2 (in_aggregate_spec _ _ _) Ha), Hk. rewrite bool_decide_eq_true_2 by done.
  simpl. by f_equal.
Qed.

Lemma same_key_clashes a b k :
  agg_key a = agg_key b -> idempotency_key a = Some k -> idempotency_key b = Some k ->
  clashes a b = true.
Proof.
  intros Ha Hka Hkb. unfold clashes, same_key. rewrite Hka, (bool_decide_eq_true_2 _ Hkb).
  rewrite (proj2 (in_aggregate_spec (aggregate_type a) (aggregate_id a) b)) by done.
  by rewrite !orb_true_r.
Qed.

(** Every presented key is held by the row that stores its event. *)
Lemma held_keys rows events k :
  Forall2 (fun s e => is_replay_of s e = true) rows events -> k ∈ batch_keys events ->
  exists s, s ∈ rows /\ idempotency_key s = Some k.
Proof.
  induction 1 as [|s e rows events Hs HF IH]; [by intros ?%not_elem_of_nil|].
  unfold batch_keys. simpl. destruct (idempotency_key e) as [k'|] eqn:E.
  - intros [->|Hk]%elem_of_cons.
    + exists s. split; [left|]. apply replay_fields in Hs as (_ & _ & ->). done.
    + destruct (IH Hk) as (s' & ? & ?). exists s'. split; [by right|done].
  - intros Hk. destruct (IH Hk) as (s' & ? & ?). exists s'. split; [by right|done].
Qed.

Lemma all_keyed (events : list event) :
  length (batch_keys events) = length events ->
  Forall (fun e => exists k, idempotency_key e = Some k /\ k ∈ batch_keys events) events.
Proof.
  intros Hl. apply Forall_forall. intros e He.
  assert (Forall (fun e => is_Some (idempotency_key e)) events) as Hall.
  { clear He. induction events as [|x events IH]; [constructor|].
    unfold batch_keys in Hl. csimpl in *. destruct (idempotency_key x) eqn:E; cbn [length] in Hl.
    - constructor; [by rewrite E|]. apply IH. by injection Hl.
    - assert (length (omap idempotency_key events) <= length events) as Hle.
      { clear. induction events as [|y events IH]; [done|]. csimpl.
        destruct (idempotency_key y); cbn [length]; lia. }
      lia. }
  rewrite Forall_forall in Hall. destruct (Hall e He) as [k Hk]. exists k. split; [done|].
  apply list_elem_of_omap. by exists e.
Qed.

Lemma append_outcome_stored clock ev events first db a db' :
  length (batch_keys events) = length events -> events <> [] -> Forall keeps events ->
  Forall (fun e => agg_key e = agg_key first) events ->
  replayed_append events first db a db' \/ fresh_append clock ev events first db a db' ->
  stored_under (log db') first (batch_keys events) = app_events a /\
  Forall2 (fun s e => is_replay_of s e = true) (app_events a) events.
Proof.
  intros Hl Hne Hkeep Hk [[_ -> Hr Hs _ _]|Hf]; [by split|].
  assert (Forall2 (fun s e => is_replay_of s e = true) (app_events a) events) as HF.
  { apply Forall2_flip. pose proof (fa_landed _ _ _ _ _ _ _ Hf) as HF. clear -HF Hkeep. revert Hkeep.
    induction HF as [|e row es rows He _ IH]; intros Hkeep; [constructor|]. apply Forall_cons in Hkeep as [Hke Hkes].
    constructor; [by eapply landed_replay|exact (IH Hkes)]. }
  split; [|done]. rewrite (fa_log _ _ _ _ _ _ _ Hf). unfold stored_under. rewrite List.filter_app.
  fold (stored_under (log db) first (batch_keys events)).
  fold (stored_under (app_events a) first (batch_keys events)).
  destruct (fa_unused _ _ _ _ _ _ _ Hf) as [Hn| ->].
  { rewrite Hn in Hl. by destruct events. }
  simpl. apply stored_under_all.
  pose proof (proj1 (fresh_append_keys _ _ _ _ _ _ _ Hk Hf)) as Hka.
  apply all_keyed in Hl. clear -HF Hl Hka.
  revert Hl Hka. generalize (batch_keys events) as keys. intros keys Hl Hka.
  induction HF as [|s e rows es Hs HF IH]; [constructor|]. inversion Hl; inversion Hka; subst.
  constructor; [|by apply IH]. apply replay_fields in Hs as (_ & _ & ->). done.
Qed.

Lemma stored_under_stable (db1 db2 : database) more first events rows :
  log_inv db2 -> log db2 = log db1 ++ more ->
  Forall2 (fun s e => is_replay_of s e = true) rows events ->
  stored_under (log db1) first (batch_keys events) = rows ->
  stored_under (log db2) first (batch_keys events) = rows.
Proof.
  intros Hinv Hlog HF Hs. rewrite Hlog. unfold stored_under. rewrite List.filter_app.
  fold (stored_under (log db1) first (batch_keys events)).
  fold (stored_under more first (batch_keys events)).
  rewrite Hs, stored_under_nil; [by rewrite app_nil_r|].
  intros e (He & Ha & k & Hk & Hin)%stored_under_spec.
  destruct (held_keys _ _ _ HF Hin) as (s & Hrow & Hsk).
  rewrite <-Hs in Hrow. apply stored_under_spec in Hrow as (Hl1 & Has & _).
  pose proof (li_distinct _ Hinv) as Hd. rewrite Hlog in Hd.
  apply ord_pairs_app in Hd as (_ & _ & Hd). specialize (Hd _ _ Hl1 He).
  rewrite (same_key_clashes e s k) in Hd; [done|congruence|done|done].
Qed.

Lemma keyed_retry_some rows events :
  rows <> [] -> length (batch_keys events) = length events ->
  Forall2 (fun s e => is_replay_of s e = true) rows events ->
  keyed_retry rows events (batch_keys events) = Ok (Some rows).
Proof.
  intros Hne Hl HF. pose proof (Forall2_length _ _ _ HF) as Hlen. unfold keyed_retry.
  rewrite (bool_decide_eq_false_2 (batch_keys events = []))
    by (intros Hn; rewrite Hn in Hl; by destruct rows, events).
  rewrite (bool_decide_eq_false_2 (rows = [])) by done.
  simpl. rewrite !bool_decide_eq_true_2 by done. simpl.
  replace (forallb _ _) with true; [done|]. symmetry.
  clear -HF. induction HF as [|s e rows es Hs HF IH]; [done|]. simpl. by rewrite Hs.
Qed.

(** *** The store's promises *)

(** A successful append of a batch keeps the log ordered and
    answers rows that are the batch but for the store's own fields.  Either they
    were already there and nothing changed, or they went to the end of the log
    under the writer's next sequence numbers, at the versions after the expected
    one. *)
Theorem append_orders_the_log st clock ev fence events db rows db' :
  log_inv db -> append st clock ev fence events db = Ok (rows, db') ->
  log_inv db' /\ Forall2 records rows events /\
  ((db' = db /\ forall row, row ∈ rows -> row ∈ log db) \/
   (log db' = log db ++ rows /\ proj db' = proj db /\
    exists w w', writer db = Some w /\ writer db' = Some w' /\
      global_sequence <$> rows = seqZ (w_next_seq w) (Z.of_nat (length events)) /\
      w_next_seq w' = (w_next_seq w + Z.of_nat (length events))%Z /\
      aggregate_version <$> rows = seqZ (ev + 1) (Z.of_nat (length events)))).
Proof.
  intros Hinv Hr. unfold append in Hr. inv_ok. simplify_eq.
  pose proof (append_locked_inv _ _ _ _ _ _ _ _ _ Hinv Hrun0 Hrun1) as Hinv'.
  destruct (lock_writer_ok _ _ _ _ Hinv Hrun0) as (w & Hw & _ & Hn).
  apply (append_locked_ok _ _ _ _ _ _ _ _ w) in Hrun1 as (Hv & _ & first & Hh & Hout); [|done..].
  apply validate_batch_ok in Hv as (first' & Hh' & Hk & Hvs & _). simplify_eq.
  split; [done|]. destruct Hout as [[_ -> Hrows Hs _ _]|Hf].
  - split; [eapply Forall2_impl; [exact Hs|]; intros ??; by left|]. left. split; [done|]. intros row. rewrite Hrows.
    by intros (? & _)%stored_under_spec.
  - split.
    { apply Forall2_flip. eapply Forall2_impl; [apply Hf|]. intros ??. right. by eexists. }
    right. destruct (fresh_append_keys _ _ _ _ _ _ _ Hk Hf) as [_ ->].
    destruct Hf as [_ _ _ Hlog _ (w' & Hw' & Hq & -> & _) _ _]. simplify_eq.
    split; [done|]. split; [done|]. by exists w', (with_next_seq (w_next_seq w' + Z.of_nat (length events))%Z w').
Qed.

(** A batch whose events all carry keys can be appended again
    after any extension of the log: the same rows come back and nothing
    changes. *)
Theorem append_retry_is_stable st st2 clock clock2 ev fence fence2 events db rows db1 db2 ws2 more :
  log_inv db -> append st clock ev fence events db = Ok (rows, db1) ->
  length (batch_keys events) = length events -> Forall keeps events ->
  log_inv db2 -> log db2 = log db1 ++ more ->
  (0 < permits st2)%Z -> lock_writer st2 clock2 db2 = Ok ws2 -> check_fence ws2 fence2 = Ok tt ->
  append st2 clock2 ev fence2 events db2 = Ok (rows, db2).
Proof.
  intros Hinv Hr Hkeys Hkeep Hinv2 Hlog Hp Hl2 Hf2. unfold append in Hr. inv_ok. simplify_eq.
  destruct (lock_writer_ok _ _ _ _ Hinv Hrun0) as (w & Hw & _ & Hn).
  apply (append_locked_ok _ _ _ _ _ _ _ _ w) in Hrun1 as (Hv & _ & first & Hh & Hout); [|done..].
  pose proof (validate_batch_ok _ _ Hv) as (first' & Hh' & Hk & _ & _). simplify_eq.
  assert (events <> []) as Hne by (by destruct events).
  destruct (append_outcome_stored _ _ _ _ _ _ _ Hkeys Hne Hkeep Hk Hout) as [Hs HF].
  pose proof (stored_under_stable _ _ _ _ _ _ Hinv2 Hlog HF Hs) as Hs2.
  unfold append, admit_append. rewrite (proj2 (Z.ltb_lt _ _) Hp). simpl. rewrite Hl2. simpl.
  unfold append_locked. rewrite Hv, Hh. simpl. rewrite Hf2. simpl. rewrite Hs2.
  rewrite keyed_retry_some; [done| |done|done].
  intros Hn0. rewrite Hn0 in HF. by apply Forall2_nil_inv_l in HF.
Qed.
End Store.
