(* ===== verification/Port.v ===== *)
(** * The storage port and its conformance suite (gwk-domain/src/port.rs,
    gwk-cert/src/conformance.rs)

    [EventStore] is the trait a backend implements and [EventStoreLaws] what
    port.rs promises of it, over an abstraction of the backend's state.  The
    suite of gwk-cert is a client of the trait: it is proved once, against the
    laws, that every lawful backend passes it.  A [Call] is one use of the
    trait, and [perform_all] a client that makes one call after the other.  The
    laws are on unkeyed traffic: idempotency keys are the kernel store's own
    addition to the port. *)

From stdpp Require Import sorting.
From S2P Require Import Prelude Text Envelope Command Tables Db Store.

(** ** The trait *)

(** Each operation is one atomic call on the store's state; a refused call
    leaves the state as it was. *)
Class EventStore (V S : Type) := {
  es_append : Z -> option Z -> list (EventEnvelope V) -> S
              -> result AppendError (list (EventEnvelope V) * S);
  es_read_from : option Z -> Z -> S -> result unit (list (EventEnvelope V));
  es_watermark : S -> result unit (option Z);
  es_grant_fence : S -> result unit (Z * S);
}.

(** The abstraction of a backend's state the laws speak of. *)
Class StoreModel (V S : Type) := {
  es_inv : S -> Prop;
  es_log : S -> list (EventEnvelope V);
  es_fence : S -> option Z;
  (** Counters left for this many more events and grants. *)
  es_room : S -> Z -> Prop;
  (** The texts the backend may stamp on [appended_at]. *)
  es_stamp : S -> string -> Prop;
  (** The backend can store the event's own fields. *)
  es_fits : S -> EventEnvelope V -> Prop;
  (** What the backend gives back of a payload. *)
  es_keeps : V -> V;
}.

Section Contract.
Context {V : Type}.
Notation event := (EventEnvelope V).

(** The highest version a log has of an aggregate. *)
Definition log_version (l : list event) (ty id : string) : Z :=
  max_of aggregate_version 0 (List.filter (in_aggregate ty id) l).

(** A batch the port's documentation admits. *)
Record well_formed (expected_version : Z) (first : event) (events : list event) : Prop := {
  wf_head : head events = Some first;
  wf_aggregate : Forall (fun e => agg_key e = agg_key first) events;
  wf_versions : aggregate_version <$> events = seqZ (expected_version + 1) (Z.of_nat (length events));
  wf_range : (0 <= expected_version)%Z /\ (expected_version + Z.of_nat (length events) <= u32_max)%Z;
  wf_schema : Forall (fun e => (1 <= schema_version e <= u32_max)%Z) events;
  wf_unkeyed : Forall (fun e => idempotency_key e = None) events;
}.

(** No event of the batch reuses an id of the log or of the batch. *)
Definition fresh_ids (l events : list event) : Prop :=
  NoDup (event_id <$> events) /\ forall o e, o ∈ l -> e ∈ events -> event_id o <> event_id e.

(** The store overwrote its own fields and kept the rest, the payload as it
    keeps payloads. *)
Definition assigned (keep : V -> V) (row e : event) : Prop :=
  row = {| event_id := event_id e; project_id := project_id e;
           aggregate_type := aggregate_type e; aggregate_id := aggregate_id e;
           aggregate_version := aggregate_version e; event_type := event_type e;
           schema_version := schema_version e; global_sequence := global_sequence row;
           occurred_at := occurred_at row; appended_at := appended_at row;
           actor := actor e; origin := origin e; causation_id := causation_id e;
           correlation_id := correlation_id e; idempotency_key := idempotency_key e;
           payload := keep (payload e); payload_ref := payload_ref e |}.
End Contract.

(** The token a caller owes: none before the first grant, then the current one. *)
Definition presents {S} {V} `{StoreModel V S} (s : S) (fence : option Z) : Prop := fence = es_fence s.

(** ** What port.rs promises *)

Class EventStoreLaws (V S : Type) `{EventStore V S} `{StoreModel V S} : Prop := {
  room_shrinks s m n : es_room s n -> (m <= n)%Z -> es_room s m;
  log_rises s : es_inv s -> increasing_from global_sequence 0 (es_log s);
  room_above s n e : es_inv s -> es_room s n -> e ∈ es_log s -> (global_sequence e + n < u64_max)%Z;
  append_lands s ev fence first events rows s' :
    es_inv s -> well_formed ev first events -> es_room s (Z.of_nat (length events)) ->
    es_append ev fence events s = Ok (rows, s') ->
    es_inv s' /\ es_log s' = es_log s ++ rows /\ Forall2 (assigned (es_keeps (S := S))) rows events /\
    Forall (fun row => es_stamp s (appended_at row)) rows /\ es_fence s' = es_fence s /\
    forall n, es_room s (n + Z.of_nat (length events)) -> es_room s' n;
  append_accepts s ev fence first events :
    es_inv s -> well_formed ev first events -> presents s fence ->
    log_version (es_log s) (aggregate_type first) (aggregate_id first) = ev ->
    Forall (es_fits s) events -> fresh_ids (es_log s) events ->
    es_room s (Z.of_nat (length events)) ->
    exists rows s', es_append ev fence events s = Ok (rows, s');
  append_conflicts s ev fence first events actual :
    es_inv s -> well_formed ev first events -> presents s fence -> Forall (es_fits s) events ->
    log_version (es_log s) (aggregate_type first) (aggregate_id first) = actual -> actual <> ev ->
    es_append ev fence events s = Err (VersionConflict actual ev);
  append_fenced s ev fence first events current :
    es_inv s -> well_formed ev first events -> Forall (es_fits s) events ->
    es_fence s = Some current -> default NO_FENCE_PRESENTED fence <> current ->
    es_append ev fence events s = Err (Fenced (default NO_FENCE_PRESENTED fence) current);
  reads_after s cursor limit :
    es_inv s -> (forall c, cursor = Some c -> (0 <= c)%Z) -> (0 <= limit)%Z ->
    es_read_from cursor limit s = Ok (read_page (es_log s) cursor limit);
  marks_the_last s :
    es_inv s -> es_watermark s = Ok (global_sequence <$> last (es_log s));
  grants_rise s n :
    es_inv s -> es_room s (n + 1) -> (0 <= n)%Z ->
    exists token s', es_grant_fence s = Ok (token, s') /\ es_inv s' /\ es_log s' = es_log s /\
      es_fence s' = Some token /\ (1 <= token)%Z /\ es_room s' n /\
      forall old, es_fence s = Some old -> (old < token)%Z;
}.

(** ** The conformance suite *)

Section Conformance.
Context {V S : Type} `{ES : EventStore V S} (empty_object : V).
Notation event := (EventEnvelope V).

Definition SENTINEL_APPENDED_AT : string := "9999-01-01T00:00:00Z".

(** [fixture_event]. *)
Definition fixture_event (aggregate_id0 : string) (version : Z) : event := {|
  event_id := "evt-" +:+ aggregate_id0 +:+ "-" +:+ Numeric.to_numeric_text version;
  project_id := "conformance"; aggregate_type := "task"; aggregate_id := aggregate_id0;
  aggregate_version := version; event_type := "conformance_tick";
  schema_version := ENVELOPE_SCHEMA_VERSION; global_sequence := u64_max;
  occurred_at := "2026-01-01T00:00:00Z"; appended_at := SENTINEL_APPENDED_AT;
  actor := {| actor_kind := "conformance"; actor_id := None |};
  origin := {| origin_system := "gwk-cert"; origin_ref := None |};
  causation_id := None; correlation_id := None; idempotency_key := None;
  payload := empty_object; payload_ref := None |}.

(** A check is [true] when no assertion of it panics.  [expect] and
    [expect_err] are the assertions that a call went one way or the other. *)
Definition expect {E A} (m : result E A) (k : A -> bool) : bool :=
  match m with Ok a => k a | Err _ => false end.
Definition expect_err {E A} (m : result E A) (k : E -> bool) : bool :=
  match m with Ok _ => false | Err e => k e end.
Definition index {A} (l : list A) (i : nat) (k : A -> bool) : bool :=
  match l !! i with Some a => k a | None => false end.

(** [Vec::dedup]. *)
Fixpoint dedup (l : list Z) : list Z :=
  match l with
  | x :: (y :: _) as l' => if (x =? y)%Z then dedup l' else x :: dedup l'
  | _ => l
  end.

Definition check_append_assigns_commit_order (store : S) : bool :=
  expect (es_append 0 None [fixture_event "agg-a" 1] store) (fun '(a, store) =>
  expect (es_append 0 None [fixture_event "agg-b" 1] store) (fun '(b, _) =>
  index a 0 (fun a0 => index b 0 (fun b0 =>
    (global_sequence a0 <? global_sequence b0)%Z
    && negb (global_sequence a0 =? u64_max)%Z
    && negb (bool_decide (appended_at a0 = SENTINEL_APPENDED_AT)))))).

Definition check_expected_version_conflict (store : S) : bool :=
  expect (es_append 0 None [fixture_event "agg" 1] store) (fun '(_, store) =>
  expect_err (es_append 0 None [fixture_event "agg" 1] store) (fun err =>
    bool_decide (err = VersionConflict 1 0))).

Definition check_cas_refusal_and_recovery (store : S) : bool :=
  expect (es_append 0 None [fixture_event "agg" 1] store) (fun '(_, store) =>
  expect_err (es_append 0 None [fixture_event "agg" 1] store) (fun loser =>
  match loser with
  | VersionConflict actual _ =>
      expect (es_append actual None [fixture_event "agg" (actual + 1)] store) (fun _ => true)
  | _ => false
  end)).

Definition is_fenced (err : AppendError) : bool :=
  match err with Fenced _ _ => true | _ => false end.

Definition check_fencing (store : S) : bool :=
  expect (es_grant_fence store) (fun '(old, store) =>
  expect (es_append 0 (Some old) [fixture_event "agg" 1] store) (fun '(_, store) =>
  expect (es_grant_fence store) (fun '(new, store) =>
  (old <? new)%Z &&
  expect_err (es_append 1 (Some old) [fixture_event "agg" 2] store) (fun err =>
  is_fenced err &&
  expect_err (es_append 1 None [fixture_event "agg" 2] store) (fun err =>
  is_fenced err &&
  expect (es_append 1 (Some new) [fixture_event "agg" 2] store) (fun _ => true)))))).

(** [for i in 1..=n { store.append(i - 1, None, vec![fixture_event("agg", i)]) }]. *)
Fixpoint ticks (n : nat) (store : S) : result AppendError S :=
  match n with
  | 0 => Ok store
  | Datatypes.S n =>
      store ← ticks n store;
      '(_, store) ← es_append (Z.of_nat n) None [fixture_event "agg" (Z.of_nat n + 1)] store;
      mret store
  end.

Definition check_cursor_recovery (store : S) : bool :=
  expect (ticks 5 store) (fun store =>
  expect (es_read_from None 2 store) (fun first_two =>
  bool_decide (length first_two = 2) &&
  index first_two 1 (fun second =>
  expect (es_read_from (Some (global_sequence second)) 100 store) (fun rest =>
  bool_decide (length rest = 3) &&
  let all := global_sequence <$> (first_two ++ rest) in
  bool_decide (length all = 5) && bool_decide (all = merge_sort Z.le all)
  && bool_decide (length (dedup all) = 5))))).

Definition read_all (store : S) : result unit (list (string * Z * Z)) :=
  match es_read_from None u64_max store with
  | Ok events =>
      Ok ((fun e : event => (aggregate_id e, aggregate_version e, global_sequence e)) <$> events)
  | Err e => Err e
  end.

Definition check_deterministic_rebuild (store : S) : bool :=
  expect (ticks 4 store) (fun store =>
  expect (read_all store) (fun once => expect (read_all store) (fun twice =>
    bool_decide (once = twice)))).

Definition check_watermark (store : S) : bool :=
  expect (es_watermark store) (fun mark => bool_decide (mark = None) &&
  expect (es_append 0 None [fixture_event "agg" 1] store) (fun '(_, store) =>
  expect (es_append 1 None [fixture_event "agg" 2] store) (fun '(rows, store) =>
  index rows 0 (fun last0 =>
  expect (es_watermark store) (fun mark => bool_decide (mark = Some (global_sequence last0))))))).

Definition check_read_limit_is_clamped (store : S) : bool :=
  expect (ticks 8 store) (fun store =>
  expect (es_read_from None 3 store) (fun short =>
  bool_decide (length short = 3) &&
  expect (es_read_from None u64_max store) (fun huge => bool_decide (length huge = 8)))).

Definition check_read_limit_ceiling (store : S) : bool :=
  expect (es_read_from None u64_max store) (fun page =>
  (Z.of_nat (length page) =? MAX_READ_LIMIT)%Z &&
  let sequences := global_sequence <$> page in
  bool_decide (sequences = dedup (merge_sort Z.le sequences)) &&
  expect (es_read_from (global_sequence <$> last page) MAX_READ_LIMIT store) (fun after =>
    match after with [] => false | _ => true end)).

(** [run_all]: every check, each on a fresh store. *)
Definition run_all (fresh : S) : bool :=
  check_append_assigns_commit_order fresh && check_expected_version_conflict fresh
  && check_cas_refusal_and_recovery fresh && check_fencing fresh && check_cursor_recovery fresh
  && check_deterministic_rebuild fresh && check_watermark fresh
  && check_read_limit_is_clamped fresh.
End Conformance.

(** ** Sorting a log that rises *)

Section Rising.
Context {A : Type} (f : A -> Z).

Lemma rising_sorted lo l : increasing_from f lo l -> Sorted Z.le (f <$> l).
Proof.
  revert lo. induction l as [|x l IH]; intros lo; [constructor|]. intros [_ Hl].
  constructor; [by eapply IH|]. destruct l as [|y l]; [constructor|]. destruct Hl. constructor. lia.
Qed.

Lemma rising_merge_sort lo l : increasing_from f lo l -> merge_sort Z.le (f <$> l) = f <$> l.
Proof.
  intros Hl. apply (Sorted_unique Z.le).
  - apply (Sorted_merge_sort Z.le).
  - by eapply rising_sorted.
  - apply merge_sort_Permutation.
Qed.

Lemma dedup_cons2 x y l :
  dedup (x :: y :: l) = if (x =? y)%Z then dedup (y :: l) else x :: dedup (y :: l).
Proof. done. Qed.

Lemma rising_dedup lo l : increasing_from f lo l -> dedup (f <$> l) = f <$> l.
Proof.
  revert lo. induction l as [|x [|y l] IH]; intros lo; [done..|]. intros [_ Hl].
  pose proof (IH _ Hl) as IH'. rewrite !fmap_cons in *. rewrite dedup_cons2.
  destruct Hl as [Hlt _]. rewrite (proj2 (Z.eqb_neq _ _)) by lia. by rewrite IH'.
Qed.
End Rising.

(** ** A lawful store passes the suite *)

Section Lawful.
Context {V S : Type} `{ES : EventStore V S} `{SM : StoreModel V S} `{L : !EventStoreLaws V S} (empty_object : V).
Notation event := (EventEnvelope V).
Notation fixture := (fixture_event empty_object).

(** What the checks depend on of an event. *)
Definition mark (e : event) : string * (string * string) * Z := (event_id e, agg_key e, aggregate_version e).
Definition mark_version (ms : list (string * (string * string) * Z)) (ty id : string) : Z :=
  max_of snd 0 (List.filter (fun m => bool_decide (m.1.2 = (ty, id))) ms).

Lemma log_version_marks (l : list event) ty id : log_version l ty id = mark_version (mark <$> l) ty id.
Proof.
  unfold log_version, mark_version. induction l as [|e l IH]; [done|]. rewrite fmap_cons.
  cbn [List.filter mark fst snd].
  replace (in_aggregate ty id e) with (bool_decide (agg_key e = (ty, id)))
    by (apply eq_bool_prop_intro; rewrite !Is_true_true, in_aggregate_spec, bool_decide_eq_true; done).
  destruct (bool_decide _); [|done]. cbn [max_of snd]. by rewrite IH.
Qed.

Lemma assigned_mark keep (row e : event) : assigned keep row e -> mark row = mark e.
Proof. intros ->. done. Qed.

(** What the suite starts from. *)
Record fresh_store (s : S) : Prop := {
  fs_inv : es_inv s;
  fs_log : es_log s = [];
  fs_fence : es_fence s = None;
  fs_room : es_room s 10;
}.

Context (Hfits : forall (s : S) id v, es_fits s (fixture id v))
  (Hstamp : forall s : S, ~ es_stamp s SENTINEL_APPENDED_AT).

Lemma fixture_well_formed id ev v :
  v = (ev + 1)%Z -> (0 <= ev < u32_max)%Z -> well_formed ev (fixture id v) [fixture id v].
Proof.
  intros -> Hv. split.
  - done.
  - by constructor.
  - change (seqZ (ev + 1) (Z.of_nat (length [fixture id (ev + 1)]))) with [(0 + (ev + 1))%Z].
    by rewrite Z.add_0_l.
  - simpl. lia.
  - constructor; [done|constructor].
  - by constructor.
Qed.

Definition unused (ms : list (string * (string * string) * Z)) (eid : string) : bool :=
  forallb (fun m => negb (bool_decide (m.1.1 = eid))) ms.

(** What an accepted event leaves. *)
Record ticked (s : S) (ms : list (string * (string * string) * Z)) (fence : option Z) (n : Z)
    (row : event) (s' : S) : Prop := {
  tk_inv : es_inv s';
  tk_log : es_log s' = es_log s ++ [row];
  tk_marks : mark <$> es_log s' = ms;
  tk_fence : es_fence s' = fence;
  tk_room : es_room s' n;
  tk_stamp : es_stamp s (appended_at row);
}.

(** One accepted fixture event. *)
Lemma tick s ms id ev v fence n :
  es_inv s -> mark <$> es_log s = ms -> v = (ev + 1)%Z -> (0 <= ev < u32_max)%Z ->
  mark_version ms "task" id = ev -> unused ms (event_id (fixture id v)) = true ->
  presents s fence -> es_room s (n + 1) -> (0 <= n)%Z ->
  exists row s', es_append ev fence [fixture id v] s = Ok ([row], s') /\
    ticked s (ms ++ [mark (fixture id v)]) fence n row s'.
Proof.
  intros Hi Hm Hev Hv Hver Hids Hf Hr Hn. pose proof (fixture_well_formed id ev v Hev Hv) as Hw.
  destruct (append_accepts s ev fence (fixture id v) [fixture id v]) as (rows & s' & Ha); try done.
  - by rewrite log_version_marks, Hm.
  - constructor; [done|constructor].
  - split; [apply NoDup_singleton|].
    intros o e Ho ->%list_elem_of_singleton. unfold unused in Hids. rewrite forallb_forall in Hids.
    specialize (Hids (mark o)). subst ms.
    rewrite negb_true_iff, bool_decide_eq_false in Hids. apply Hids, list_elem_of_In.
    by apply list_elem_of_fmap_2.
  - simpl. eapply room_shrinks; [done|lia].
  - destruct (append_lands _ _ _ _ _ _ _ Hi Hw (room_shrinks _ 1 _ Hr ltac:(lia)) Ha)
      as (Hi' & Hl & H2 & Hst & Hf' & Hroom).
    apply Forall2_cons_inv_r in H2 as (row & rows' & Hrow & ->%Forall2_nil_inv_r & ->).
    exists row, s'. split; [done|]. split; [done|done| |by rewrite Hf, Hf'|by apply Hroom|by inversion Hst].
    by rewrite Hl, fmap_app, Hm, fmap_cons, (assigned_mark _ _ _ Hrow).
Qed.

(** One at a version the aggregate has left behind. *)
Lemma stale_tick s ms id ev v fence actual :
  es_inv s -> mark <$> es_log s = ms -> v = (ev + 1)%Z -> (0 <= ev < u32_max)%Z ->
  mark_version ms "task" id = actual -> actual <> ev -> presents s fence ->
  es_append ev fence [fixture id v] s = Err (VersionConflict actual ev).
Proof.
  intros Hi Hm Hev Hv Hver Hne Hf.
  apply (append_conflicts s ev fence (fixture id v)); try done.
  - by apply fixture_well_formed.
  - constructor; [done|constructor].
  - by rewrite log_version_marks, Hm.
Qed.

(** One under a token that is not the current one. *)
Lemma fenced_tick s id ev v fence current :
  es_inv s -> v = (ev + 1)%Z -> (0 <= ev < u32_max)%Z ->
  es_fence s = Some current -> default NO_FENCE_PRESENTED fence <> current ->
  es_append ev fence [fixture id v] s = Err (Fenced (default NO_FENCE_PRESENTED fence) current).
Proof.
  intros Hi Hev Hv Hf Hne. apply (append_fenced s ev fence (fixture id v)); try done.
  - by apply fixture_well_formed.
  - constructor; [done|constructor].
Qed.

(** Run the next accepted append of the goal; [n] is the room left after it. *)
Ltac run_tick s n row s' H :=
  let Ha := fresh in
  let ms := match goal with
            | _ : mark <$> es_log s = ?ms |- _ => ms
            | _ : ticked _ ?ms _ _ _ s |- _ => ms
            end in
  match goal with |- context [es_append ?ev ?fence [fixture_event _ ?id ?v] s] =>
    destruct (tick s ms id ev v fence n) as (row & s' & Ha & H);
      [first [assumption | eapply tk_inv; eassumption]
      |first [eassumption | eapply tk_marks; eassumption]
      |reflexivity|done|reflexivity|reflexivity
      |first [by symmetry; eassumption | symmetry; eapply tk_fence; eassumption]
      |first [assumption | eapply tk_room; eassumption]|done
      |rewrite Ha; clear Ha; cbn [expect expect_err index lookup list_lookup]]
  end.

Lemma append_assigns_commit_order s :
  fresh_store s -> check_append_assigns_commit_order empty_object s = true.
Proof.
  intros [Hi Hl Hf Hr]. assert (mark <$> es_log s = []) as Hm by (by rewrite Hl).
  unfold check_append_assigns_commit_order.
  run_tick s 9%Z a s1 Ha. run_tick s1 8%Z b s2 Hb.
  pose proof (log_rises _ (tk_inv _ _ _ _ _ _ Hb)) as Hinc.
  pose proof (tk_log _ _ _ _ _ _ Ha) as Hl1.
  assert (a ∈ es_log s1) as Hin by (rewrite Hl1, Hl; by apply list_elem_of_singleton).
  pose proof (room_above s1 9 a (tk_inv _ _ _ _ _ _ Ha) (tk_room _ _ _ _ _ _ Ha) Hin).
  rewrite (tk_log _ _ _ _ _ _ Hb), Hl1, Hl in Hinc. destruct Hinc as (_ & Hlt & _).
  rewrite (proj2 (Z.ltb_lt _ _)) by done. rewrite (proj2 (Z.eqb_neq _ _)) by lia.
  rewrite bool_decide_eq_false_2; [done|]. intros E. apply (Hstamp s).
  rewrite <-E. apply Ha.
Qed.

(** The checks on versions. *)
Lemma expected_version_conflict s :
  fresh_store s -> check_expected_version_conflict empty_object s = true.
Proof.
  intros [Hi Hl Hf Hr]. assert (mark <$> es_log s = []) as Hm by (by rewrite Hl).
  unfold check_expected_version_conflict. run_tick s 9%Z a s1 Ha. destruct Ha.
  erewrite stale_tick by done. done.
Qed.

Lemma cas_refusal_and_recovery s :
  fresh_store s -> check_cas_refusal_and_recovery empty_object s = true.
Proof.
  intros [Hi Hl Hf Hr]. assert (mark <$> es_log s = []) as Hm by (by rewrite Hl).
  unfold check_cas_refusal_and_recovery. run_tick s 9%Z a s1 Ha.
  rewrite (stale_tick s1 _ _ _ _ _ 1%Z (tk_inv _ _ _ _ _ _ Ha) (tk_marks _ _ _ _ _ _ Ha));
    [|done|done|done|done|symmetry; apply (tk_fence _ _ _ _ _ _ Ha)].
  cbn [expect_err]. by run_tick s1 8%Z b s2 Hb.
Qed.

Lemma fencing s : fresh_store s -> check_fencing empty_object s = true.
Proof.
  intros [Hi Hl Hf Hr]. unfold check_fencing.
  destruct (grants_rise s 9 Hi Hr) as (old & s1 & -> & Hi1 & Hl1 & Hf1 & Hold & Hr1 & _); [done|].
  cbn [expect]. assert (mark <$> es_log s1 = []) as Hm by (by rewrite Hl1, Hl).
  run_tick s1 8%Z a s2 Ha. destruct Ha as [Hi2 _ Hm2 Hf2 Hr2 _].
  destruct (grants_rise s2 7 Hi2 Hr2) as (new & s3 & -> & Hi3 & Hl3 & Hf3 & Hnew & Hr3 & Hlt); [done|].
  cbn [expect]. specialize (Hlt _ Hf2). rewrite (proj2 (Z.ltb_lt _ _)) by done. cbn [andb].
  rewrite (fenced_tick s3 "agg" 1 2 (Some old) new) by (done || simpl; lia). cbn [expect_err is_fenced andb].
  rewrite (fenced_tick s3 "agg" 1 2 None new) by (done || simpl; unfold NO_FENCE_PRESENTED; lia).
  cbn [expect_err is_fenced andb].
  rewrite <-Hl3 in Hm2. clear Hm. by run_tick s3 6%Z b s4 Hb.
Qed.

(** A run of events of one aggregate. *)
Definition tick_marks (n : nat) : list (string * (string * string) * Z) :=
  (fun i => mark (fixture "agg" (Z.of_nat i))) <$> seq 1 n.

Lemma tick_marks_S n : tick_marks (Datatypes.S n) = tick_marks n ++ [mark (fixture "agg" (Z.of_nat n + 1))].
Proof.
  unfold tick_marks. rewrite seq_S, fmap_app. cbn [fmap list_fmap].
  by replace (Z.of_nat (1 + n)) with (Z.of_nat n + 1)%Z by lia.
Qed.

Lemma tick_marks_version n : mark_version (tick_marks n) "task" "agg" = Z.of_nat n.
Proof.
  induction n as [|n IH]; [done|]. rewrite tick_marks_S. unfold mark_version in *.
  rewrite List.filter_app, max_of_app, IH. cbn [List.filter mark fst snd].
  rewrite bool_decide_eq_true_2 by done. unfold mark. cbn [max_of snd fixture_event aggregate_version]. lia.
Qed.

Lemma tick_marks_unused n :
  unused (tick_marks n) (event_id (fixture "agg" (Z.of_nat n + 1))) = true.
Proof.
  apply forallb_forall. intros m (i & -> & Hi%elem_of_seq)%list_elem_of_In%list_elem_of_fmap.
  apply negb_true_iff, bool_decide_eq_false. cbn. intros [= E].
  apply Numeric.to_numeric_text_inj in E; lia.
Qed.

Lemma ticks_run s n r :
  es_inv s -> es_log s = [] -> es_fence s = None -> (0 <= r)%Z ->
  (Z.of_nat n <= u32_max)%Z -> es_room s (r + Z.of_nat n) ->
  exists s', ticks empty_object n s = Ok s' /\ es_inv s' /\ mark <$> es_log s' = tick_marks n /\
    es_fence s' = None /\ es_room s' r.
Proof.
  intros Hi Hl Hf. revert r. induction n as [|n IH]; intros r Hr Hn Hroom.
  { exists s. rewrite Z.add_0_r in Hroom. split; [done|]. split; [done|]. by rewrite Hl. }
  destruct (IH (r + 1)%Z) as (s1 & Ht & Hi1 & Hm1 & Hf1 & Hr1); [lia..| |].
  { by replace (r + 1 + Z.of_nat n)%Z with (r + Z.of_nat (Datatypes.S n))%Z by lia. }
  destruct (tick s1 _ "agg" (Z.of_nat n) (Z.of_nat n + 1) None r Hi1 Hm1) as (row & s2 & Ha & [? ? Hm ? ? ?]);
    [done|lia|apply tick_marks_version|apply tick_marks_unused|by symmetry|done|done|].
  exists s2. split; [cbn [ticks]; rewrite Ht; cbn; by rewrite Ha|]. split; [done|].
  by rewrite tick_marks_S.
Qed.

(** Reading the log such a run leaves. *)
Lemma ticks_log s n :
  es_inv s -> mark <$> es_log s = tick_marks n ->
  length (es_log s) = n /\ increasing_from global_sequence 0 (es_log s).
Proof.
  intros Hi Hm. split; [|by apply log_rises].
  apply (f_equal length) in Hm. unfold tick_marks in Hm. by rewrite !length_fmap, length_seq in Hm.
Qed.

Lemma read_start s limit :
  es_inv s -> (0 <= limit)%Z ->
  es_read_from None limit s = Ok (take (Z.to_nat (Z.min limit MAX_READ_LIMIT)) (es_log s)).
Proof.
  intros Hi Hl. rewrite reads_after by done. unfold read_page. do 2 f_equal.
  induction (es_log s) as [|e l IH]; [done|]. simpl. by rewrite IH.
Qed.

Lemma cursor_recovery s : fresh_store s -> check_cursor_recovery empty_object s = true.
Proof.
  intros [Hi Hl Hf Hr]. unfold check_cursor_recovery.
  destruct (ticks_run s 5 5 Hi Hl Hf) as (s1 & -> & Hi1 & Hm & _); [done..|]. cbn [expect].
  rewrite read_start by done. cbn [expect].
  destruct (ticks_log _ _ Hi1 Hm) as [Hlen Hinc]. remember (es_log s1) as l eqn:El.
  destruct l as [|a [|b [|c [|d [|e [|? ?]]]]]]; try discriminate Hlen.
  destruct Hinc as (? & ? & ? & ? & ? & _). cbn [Z.min Z.to_nat take index lookup list_lookup].
  change (take (Z.to_nat (2 `min` MAX_READ_LIMIT)) [a; b; c; d; e]) with [a; b].
  cbn [length index lookup list_lookup]. rewrite bool_decide_eq_true_2 by done. cbn [andb].
  rewrite reads_after by (done || intros ? [= <-]; lia). cbn [expect].
  rewrite <-El. unfold read_page. cbn [List.filter].
  rewrite !(proj2 (Z.ltb_ge _ _)), !(proj2 (Z.ltb_lt _ _)) by lia.
  change (take (Z.to_nat (100 `min` MAX_READ_LIMIT)) [c; d; e]) with [c; d; e].
  cbn [length app]. assert (increasing_from global_sequence 0 [a; b; c; d; e]) as Hinc by (simpl; lia).
  rewrite (rising_merge_sort _ _ _ Hinc), (rising_dedup _ _ _ Hinc). cbn [fmap list_fmap length].
  by rewrite !bool_decide_eq_true_2 by done.
Qed.

Lemma deterministic_rebuild s : fresh_store s -> check_deterministic_rebuild empty_object s = true.
Proof.
  intros [Hi Hl Hf Hr]. unfold check_deterministic_rebuild.
  destruct (ticks_run s 4 6 Hi Hl Hf) as (s1 & -> & Hi1 & Hm & _); [done..|]. cbn [expect].
  unfold read_all. rewrite read_start by done. cbn [expect]. by apply bool_decide_eq_true.
Qed.

Lemma watermark_is_last s : fresh_store s -> check_watermark empty_object s = true.
Proof.
  intros [Hi Hl Hf Hr]. assert (mark <$> es_log s = []) as Hm by (by rewrite Hl).
  unfold check_watermark. rewrite marks_the_last, Hl by done. cbn [expect last fmap option_fmap option_map].
  rewrite bool_decide_eq_true_2 by done. cbn [andb].
  run_tick s 9%Z a s1 Ha. run_tick s1 8%Z b s2 Hb. destruct Hb as [Hi2 Hl2 _ _ _ _].
  rewrite marks_the_last, Hl2, last_snoc by done. by apply bool_decide_eq_true.
Qed.

Lemma read_limit_is_clamped s : fresh_store s -> check_read_limit_is_clamped empty_object s = true.
Proof.
  intros [Hi Hl Hf Hr]. unfold check_read_limit_is_clamped.
  destruct (ticks_run s 8 2 Hi Hl Hf) as (s1 & -> & Hi1 & Hm & _); [done..|]. cbn [expect].
  destruct (ticks_log _ _ Hi1 Hm) as [Hlen _]. rewrite !read_start by done. cbn [expect].
  rewrite !length_take, Hlen. by rewrite !bool_decide_eq_true_2 by (unfold u64_max, MAX_READ_LIMIT; lia).
Qed.

Lemma lawful_run_all s : fresh_store s -> run_all empty_object s = true.
Proof.
  intros Hs. unfold run_all.
  by rewrite append_assigns_commit_order, expected_version_conflict, cas_refusal_and_recovery, fencing,
    cursor_recovery, deterministic_rebuild, watermark_is_last, read_limit_is_clamped.
Qed.

(** The check [run_all] leaves to its caller: a log longer than a page. *)
Lemma read_limit_ceiling s :
  es_inv s -> (MAX_READ_LIMIT < Z.of_nat (length (es_log s)))%Z -> check_read_limit_ceiling s = true.
Proof.
  intros Hi Hlen. pose proof (log_rises s Hi) as Hinc. unfold check_read_limit_ceiling.
  rewrite read_start by done. cbn [expect]. change (Z.min u64_max MAX_READ_LIMIT) with MAX_READ_LIMIT.
  assert (0 < MAX_READ_LIMIT)%Z as Hmax by done.
  remember (es_log s) as l eqn:El. pose proof (take_drop (Z.to_nat MAX_READ_LIMIT) l) as Htd.
  assert (length (take (Z.to_nat MAX_READ_LIMIT) l) = Z.to_nat MAX_READ_LIMIT) as Hpage
    by (rewrite length_take; lia).
  assert (drop (Z.to_nat MAX_READ_LIMIT) l <> []) as Hrest
    by (intros E; apply (f_equal length) in E; rewrite length_drop in E; cbn [length] in E; lia).
  destruct (take _ l) as [|x page] using rev_ind; [done|]. clear IHpage.
  destruct (drop _ l) as [|e rest]; [done|]. rewrite <-Htd in Hinc.
  apply increasing_app in Hinc as [H1 [H2 _]].
  rewrite Hpage, Z2Nat.id, Z.eqb_refl by done. cbn [andb].
  rewrite (rising_merge_sort _ _ _ H1), (rising_dedup _ _ _ H1), bool_decide_eq_true_2 by done. cbn [andb].
  assert (0 < global_sequence x <= max_of global_sequence 0 (page ++ [x]))%Z as Hx.
  { split; [by apply increasing_app in H1 as [_ [? _]]; pose proof (max_of_ge global_sequence 0 page); lia|].
    apply max_of_in, elem_of_app. right. by apply list_elem_of_singleton. }
  rewrite last_snoc. cbn [fmap option_fmap option_map].
  rewrite reads_after by (done || intros ? [= <-]; lia). cbn [expect].
  rewrite <-El, <-Htd. unfold read_page. rewrite List.filter_app. cbn [List.filter].
  rewrite (proj2 (Z.ltb_lt _ (global_sequence e))) by lia.
  rewrite Z.min_id. destruct (Z.to_nat MAX_READ_LIMIT) as [|n] eqn:E; [lia|].
  by destruct (List.filter _ (page ++ [x])).
Qed.
End Lawful.

(** ** A client of the trait *)

Section Client.
Context {V : Type}.
Notation event := (EventEnvelope V).

Inductive Call :=
| CallAppend (expected_version : Z) (fence : option Z) (events : list event)
| CallReadFrom (cursor : option Z) (limit : Z)
| CallWatermark
| CallGrantFence.

Inductive PortAnswer :=
| AppendAnswer (a : result AppendError (list event))
| PageAnswer (a : result unit (list event))
| MarkAnswer (a : result unit (option Z))
| FenceAnswer (a : result unit Z).

Definition perform {S} `{EventStore V S} (c : Call) (s : S) : PortAnswer * S :=
  match c with
  | CallAppend ev fence events =>
      match es_append ev fence events s with
      | Ok (rows, s') => (AppendAnswer (Ok rows), s')
      | Err e => (AppendAnswer (Err e), s)
      end
  | CallReadFrom cursor limit => (PageAnswer (es_read_from cursor limit s), s)
  | CallWatermark => (MarkAnswer (es_watermark s), s)
  | CallGrantFence =>
      match es_grant_fence s with
      | Ok (token, s') => (FenceAnswer (Ok token), s')
      | Err e => (FenceAnswer (Err e), s)
      end
  end.

Fixpoint perform_all {S} `{EventStore V S} (calls : list Call) (s : S) : list PortAnswer * S :=
  match calls with
  | [] => ([], s)
  | c :: calls =>
      let '(a, s) := perform c s in
      let '(answers, s) := perform_all calls s in
      (a :: answers, s)
  end.
End Client.

Arguments Call : clear implicits.
Arguments PortAnswer : clear implicits.
