(* ===== verification/Backends.v ===== *)
(** * Two backends of the storage port

    The in-memory reference store gwk-cert certifies itself against
    (gwk-cert/src/conformance.rs, module memory) and the kernel's PostgreSQL
    store (gwk-kernel/src/store.rs), as instances of [EventStore] that meet
    [EventStoreLaws].  From the laws: both pass the conformance suite, and the
    kernel's store answers unkeyed traffic as the reference store does. *)

From S2P Require Import Prelude Text Envelope Command Tables Db Store Port.

(** ** The reference store *)

Module Memory.

Definition wrap_u32 (n : Z) : Z := (n mod (u32_max + 1))%Z.
Definition wrap_u64 (n : Z) : Z := (n mod (u64_max + 1))%Z.

Section Memory.
Context {V : Type}.
Notation event := (EventEnvelope V).

(** [Inner], behind a lock no operation poisons.  Additions wrap. *)
Record Inner := {
  events : list event;
  next_seq : Z;
  fence : Z;
}.

(** [InMemoryStore::new]. *)
Definition new : Inner := {| events := []; next_seq := 0; fence := 0 |}.

(** The store's own fields of one event. *)
Definition stamped (seq : Z) (e : event) : event := {|
  event_id := event_id e; project_id := project_id e;
  aggregate_type := aggregate_type e; aggregate_id := aggregate_id e;
  aggregate_version := aggregate_version e; event_type := event_type e;
  schema_version := schema_version e; global_sequence := seq; occurred_at := occurred_at e;
  appended_at := "seq:" +:+ Numeric.to_numeric_text seq;
  actor := actor e; origin := origin e; causation_id := causation_id e;
  correlation_id := correlation_id e; idempotency_key := idempotency_key e;
  payload := payload e; payload_ref := payload_ref e |}.

(** The validation loop over the batch, from position [i]. *)
Fixpoint check_batch (agg : string * string) (expected_version i : Z) (batch : list event)
  : result AppendError unit :=
  match batch with
  | [] => Ok tt
  | e :: batch =>
      _ ← ensure (bool_decide (agg_key e = agg)) MalformedBatch;
      _ ← ensure (aggregate_version e =? wrap_u32 (expected_version + 1 + i))%Z MalformedBatch;
      check_batch agg expected_version (i + 1) batch
  end.

(** The assignment loop. *)
Fixpoint assign (seq : Z) (batch : list event) : list event * Z :=
  match batch with
  | [] => ([], seq)
  | e :: batch =>
      let seq := wrap_u64 (seq + 1) in
      let '(rows, last_seq) := assign seq batch in
      (stamped seq e :: rows, last_seq)
  end.

Definition append (expected_version : Z) (presented0 : option Z) (batch : list event) (inner : Inner)
  : result AppendError (list event * Inner) :=
  let presented := default 0%Z presented0 in
  _ ← ensure (presented =? fence inner)%Z (Fenced presented (fence inner));
  first ← ok_or (head batch) MalformedBatch;
  let agg := agg_key first in
  _ ← check_batch agg expected_version 0 batch;
  let actual := max_of aggregate_version 0
                  (List.filter (fun e => bool_decide (agg_key e = agg)) (events inner)) in
  _ ← ensure (actual =? expected_version)%Z (VersionConflict actual expected_version);
  let '(rows, last_seq) := assign (next_seq inner) batch in
  mret (rows, {| events := events inner ++ rows; next_seq := last_seq; fence := fence inner |}).

Definition read_from (cursor : option Z) (limit : Z) (inner : Inner) : list event :=
  let after := default 0%Z cursor in
  take (Z.to_nat (Z.min limit MAX_READ_LIMIT))
    (List.filter (fun e => (after <? global_sequence e)%Z) (events inner)).

Definition watermark (inner : Inner) : option Z := global_sequence <$> last (events inner).

Definition grant_fence (inner : Inner) : Z * Inner :=
  let token := wrap_u64 (fence inner + 1) in
  (token, {| events := events inner; next_seq := next_seq inner; fence := token |}).

(** [seed]: the bulk path of the ceiling check. *)
Fixpoint seed (empty_object : V) (count : nat) (inner : Inner) : Inner :=
  match count with
  | 0 => inner
  | S count =>
      let seq := wrap_u64 (next_seq inner + 1) in
      let e := fixture_event empty_object ("agg-seed-" +:+ Numeric.to_numeric_text seq) 1 in
      seed empty_object count
        {| events := events inner ++ [stamped seq e]; next_seq := seq; fence := fence inner |}
  end.

#[global] Instance store : EventStore V Inner := {|
  es_append := append;
  es_read_from cursor limit inner := Ok (read_from cursor limit inner);
  es_watermark inner := Ok (watermark inner);
  es_grant_fence inner := Ok (grant_fence inner);
|}.

#[global] Instance model : StoreModel V Inner := {|
  es_inv inner := increasing_from global_sequence 0 (events inner) /\
    (forall e, e ∈ events inner -> (global_sequence e <= next_seq inner)%Z) /\
    (0 <= next_seq inner <= u64_max)%Z /\ (0 <= fence inner <= u64_max)%Z;
  es_log := events;
  es_fence inner := if (fence inner =? 0)%Z then None else Some (fence inner);
  es_room inner n := (next_seq inner + n < u64_max)%Z /\ (fence inner + n <= u64_max)%Z;
  es_stamp _ text := Str.starts_with "seq:" text = true;
  es_fits _ _ := True;
  es_keeps v := v;
|}.

(** *** The laws *)

Lemma check_batch_ok agg ev i batch :
  Forall (fun e => agg_key e = agg) batch ->
  aggregate_version <$> batch = seqZ (ev + 1 + i) (Z.of_nat (length batch)) ->
  (0 <= ev + i)%Z -> (ev + i + Z.of_nat (length batch) <= u32_max)%Z ->
  check_batch agg ev i batch = Ok tt.
Proof.
  intros HF. revert i. induction HF as [|e batch He HF IH]; intros i Hv H0 Hmax; [done|].
  cbn [length] in *. rewrite Nat2Z.inj_succ, <-Z.add_1_l in *. rewrite fmap_cons, seqZ_cons in Hv by lia.
  injection Hv as Hv Hvs. simpl. rewrite bool_decide_eq_true_2 by done. simpl.
  unfold wrap_u32. rewrite Z.mod_small by (unfold u32_max in *; lia).
  rewrite (proj2 (Z.eqb_eq _ _) Hv). simpl. apply IH; [|lia..].
  rewrite Hvs. f_equal; lia.
Qed.

Lemma assign_ok seq batch rows last_seq :
  assign seq batch = (rows, last_seq) -> (0 <= seq)%Z ->
  (seq + Z.of_nat (length batch) <= u64_max)%Z ->
  last_seq = (seq + Z.of_nat (length batch))%Z /\
  rows = zip_with stamped (seqZ (seq + 1) (Z.of_nat (length batch))) batch.
Proof.
  revert seq rows last_seq. induction batch as [|e batch IH]; intros seq rows last_seq.
  { intros [= <- <-] _ _. split; [simpl; lia|]. done. }
  cbn [assign length]. intros Ha H0 Hmax. unfold wrap_u64 in Ha.
  rewrite Z.mod_small in Ha by lia.
  destruct (assign (seq + 1) batch) as [rows' last'] eqn:E. injection Ha as <- <-.
  apply IH in E as (-> & ->); [|lia..]. split; [lia|].
  rewrite Nat2Z.inj_succ, <-Z.add_1_l, (seqZ_cons (seq + 1)) by lia. cbn [zip_with]. do 2 f_equal. f_equal; lia.
Qed.

(** What is left of the batch in the rows it became. *)
Lemma zip_stamped seq (batch : list event) :
  let rows := zip_with stamped (seqZ seq (Z.of_nat (length batch))) batch in
  global_sequence <$> rows = seqZ seq (Z.of_nat (length batch)) /\
  Forall2 (assigned (fun v => v)) rows batch /\
  Forall (fun row => Str.starts_with "seq:" (appended_at row) = true) rows.
Proof.
  revert seq. induction batch as [|e batch IH]; intros seq; [done|]. cbn [length].
  rewrite Nat2Z.inj_succ, seqZ_cons by lia. rewrite Z.pred_succ. cbn [zip_with].
  destruct (IH (Z.succ seq)) as (Hs & HF & Hst). rewrite fmap_cons, Hs.
  split; [done|]. by split; constructor.
Qed.

Lemma log_version_agg (l : list event) (first : event) :
  max_of aggregate_version 0 (List.filter (fun e => bool_decide (agg_key e = agg_key first)) l) =
  log_version l (aggregate_type first) (aggregate_id first).
Proof.
  unfold log_version. f_equal. apply List.filter_ext. intros e.
  apply eq_bool_prop_intro. rewrite !Is_true_true, in_aggregate_spec, bool_decide_eq_true. done.
Qed.

(** What an append of a well-formed batch under the current token comes to. *)
Lemma append_well_formed ev presented first batch (inner : Inner) :
  well_formed ev first batch -> default 0%Z presented = fence inner ->
  append ev presented batch inner =
    if (log_version (events inner) (aggregate_type first) (aggregate_id first) =? ev)%Z
    then let '(rows, last_seq) := assign (next_seq inner) batch in
         Ok (rows, {| events := events inner ++ rows; next_seq := last_seq; fence := fence inner |})
    else Err (VersionConflict (log_version (events inner) (aggregate_type first) (aggregate_id first)) ev).
Proof.
  intros [Hh Hk Hv [H0 Hmax] _ _] Hf. unfold append. cbn zeta.
  rewrite (proj2 (Z.eqb_eq _ _) Hf), Hh. simpl. rewrite check_batch_ok; [|done|by rewrite Z.add_0_r|lia..].
  simpl. rewrite log_version_agg. destruct (_ =? _)%Z; [|done]. simpl. by destruct (assign _ _).
Qed.

Lemma presents_default (inner : Inner) presented :
  presents inner presented -> default 0%Z presented = fence inner.
Proof. unfold presents. simpl. intros ->. destruct (Z.eqb_spec (fence inner) 0); simpl; lia. Qed.

Lemma appended_rises (inner : Inner) rows n :
  es_inv inner -> global_sequence <$> rows = seqZ (next_seq inner + 1) (Z.of_nat n) ->
  increasing_from global_sequence 0 (events inner ++ rows) /\
  forall e, e ∈ events inner ++ rows -> (global_sequence e <= next_seq inner + Z.of_nat n)%Z.
Proof.
  intros (Hinc & Hle & Hn & _) Hs. split.
  - apply increasing_app. split; [done|]. apply (increasing_seqZ _ _ (next_seq inner + 1)%Z).
    + apply max_of_lt; [lia|]. intros x Hx. specialize (Hle _ Hx). lia.
    + assert (length rows = n) as ->; [|done].
      apply (f_equal length) in Hs. rewrite length_fmap, length_seqZ in Hs. lia.
  - intros e [He|He]%elem_of_app; [specialize (Hle _ He); lia|].
    apply (list_elem_of_fmap_2 global_sequence) in He. rewrite Hs in He. apply elem_of_seqZ in He. lia.
Qed.

#[global] Instance laws : EventStoreLaws V Inner.
Proof.
  split.
  - simpl. intros s m n [? ?] ?. lia.
  - by intros s [? _].
  - simpl. intros s n e (_ & Hle & _) [? _] He. specialize (Hle _ He). lia.
  - intros s ev presented first batch rows s' Hi Hw [Hr1 Hr2] Ha. simpl in Ha, Hr1, Hr2.
    assert (default 0%Z presented = fence s) as Hp.
    { unfold append in Ha. cbn zeta in Ha. inv_ok. by apply Z.eqb_eq. }
    rewrite (append_well_formed _ _ _ _ _ Hw Hp) in Ha. destruct (_ =? _)%Z; [|done].
    destruct (assign (next_seq s) batch) as [rows0 last0] eqn:E. injection Ha as <- <-.
    pose proof Hi as (_ & _ & Hn & Hf).
    apply assign_ok in E as (-> & ->); [|lia..].
    destruct (zip_stamped (next_seq s + 1) batch) as (Hs & HF & Hst).
    destruct (appended_rises _ _ _ Hi Hs) as [Hinc Hle]. simpl.
    split; [split_and!; [done|done|lia..]|]. split; [done|]. split; [done|]. split; [done|]. split; [done|].
    intros n [? ?]. lia.
  - intros s ev presented first batch Hi Hw Hp Hv _ _ _. simpl.
    rewrite (append_well_formed _ _ _ _ _ Hw (presents_default _ _ Hp)). simpl in Hv.
    rewrite (proj2 (Z.eqb_eq _ _) Hv). destruct (assign _ _). by eexists _, _.
  - intros s ev presented first batch actual Hi Hw Hp _ Hv Hne. simpl.
    rewrite (append_well_formed _ _ _ _ _ Hw (presents_default _ _ Hp)). simpl in Hv.
    by rewrite Hv, (proj2 (Z.eqb_neq _ _) Hne).
  - intros s ev presented first batch current Hi Hw _ Hc Hne. simpl in *.
    destruct (Z.eqb_spec (fence s) 0); [done|]. injection Hc as <-.
    unfold append. cbn zeta. change NO_FENCE_PRESENTED with 0%Z in *. by rewrite (proj2 (Z.eqb_neq _ _) Hne).
  - simpl. intros s cursor limit (Hinc & _) Hc Hl. unfold read_from, read_page. do 2 f_equal.
    apply List.filter_ext_in. intros e He%list_elem_of_In. destruct cursor as [c|]; [done|].
    apply Z.ltb_lt. eapply increasing_lower; [done|done].
  - done.
  - simpl. intros s n (Hinc & Hle & Hn & Hf) [Hr1 Hr2] H0. eexists _, _. split; [done|]. simpl.
    unfold wrap_u64. rewrite Z.mod_small by lia. rewrite (proj2 (Z.eqb_neq _ _)) by lia.
    split_and!; try done; try lia. intros old. destruct (Z.eqb_spec (fence s) 0); [done|]. intros [= <-]. lia.
Qed.
End Memory.
End Memory.

(** ** The kernel's store *)

Section Kernel.
Context `{TZ : Timestamptz} {V : Type} `{SD : Serde V}.
Notation event := (EventEnvelope V).
Notation database := (Db instant V).
Context (st : @Store _ V) (clock : nat -> TxClock).

(** The database a session of the store works on, and how many transactions of
    it have committed; [clock] gives the time of each. *)
Record Session := { tick_count : nat; session_db : database }.

Definition kernel_append (ev : Z) (fence : option Z) (events : list event) (s : Session)
  : result AppendError (list event * Session) :=
  '(rows, db) ← append st (clock (tick_count s)) ev fence events (session_db s);
  mret (rows, {| tick_count := S (tick_count s); session_db := db |}).

Definition kernel_grant_fence (s : Session) : result unit (Z * Session) :=
  '(token, db) ← map_err (fun _ => tt) (grant_fence (session_db s));
  mret (token, {| tick_count := S (tick_count s); session_db := db |}).

Definition kernel_store : EventStore V Session := {|
  es_append := kernel_append;
  es_read_from cursor limit s := Ok (read_page (log (session_db s)) cursor limit);
  es_watermark s := Ok (watermark (log (session_db s)));
  es_grant_fence := kernel_grant_fence;
|}.

(** The event's own fields fit their columns. *)
Definition kernel_fits (e : event) : Prop :=
  is_Some (ts_parse (occurred_at e)) /\ (serialized_len (payload e) <= INLINE_PAYLOAD_MAX_BYTES)%Z.

(** This process holds the writer epoch, and the counters of the row are u64. *)
Definition holds_writer (db : database) (w : WriterRow instant) : Prop :=
  writer db = Some w /\ w_epoch w = boot_epoch st /\ is_u64 (w_checkpoint_seq w) /\
  forall f, w_fence_token w = Some f -> (1 <= f <= u64_max)%Z.

Definition kernel_model : StoreModel V Session := {|
  es_inv s := log_inv (session_db s) /\ (0 < permits st)%Z /\ exists w, holds_writer (session_db s) w;
  es_log s := log (session_db s);
  es_fence s := writer (session_db s) ≫= w_fence_token;
  es_room s n := forall w, writer (session_db s) = Some w ->
    (w_next_seq w + n <= u64_max)%Z /\ (default 0 (w_fence_token w) + n <= u64_max)%Z;
  es_stamp _ text := exists n, text = ts_json (tx_now (clock n));
  es_fits _ := kernel_fits;
  es_keeps := jsonb;
|}.

(** *** Progress of the transaction *)

Lemma lock_writer_runs t db w :
  log_inv db -> holds_writer db w ->
  lock_writer st t db = Ok {| ws_next_seq := w_next_seq w; ws_current_fence := w_fence_token w;
    ws_checkpoint_seq := w_checkpoint_seq w;
    ws_checkpoint_overdue := elapsed_at_least (tx_now t) (w_checkpoint_at w) CHECKPOINT_INTERVAL_SECS |}.
Proof.
  intros Hinv (Hw & He & Hc & Hf). destruct (li_writer _ Hinv) as (w' & Hw' & Hn & _).
  rewrite Hw in Hw'. injection Hw' as <-.
  unfold lock_writer. rewrite Hw. simpl. rewrite (proj2 (Z.eqb_eq _ _) He). simpl.
  assert (read_numeric (w_next_seq w) = Ok (w_next_seq w)) as Hrn
    by (apply read_numeric_ok; unfold is_u64; lia).
  pose proof (read_numeric_ok _ Hc) as Hrc.
  destruct (w_fence_token w) as [f|] eqn:E; simpl.
  - specialize (Hf f eq_refl). rewrite (read_numeric_ok f) by (unfold is_u64; lia). simpl.
    rewrite Hrn. simpl. by rewrite Hrc.
  - rewrite Hrn. simpl. by rewrite Hrc.
Qed.

Lemma validate_events_runs ev (first : event) earlier events :
  Forall (fun e => agg_key e = agg_key first) events ->
  aggregate_version <$> events = seqZ (ev + 1 + Z.of_nat (length earlier)) (Z.of_nat (length events)) ->
  (ev + Z.of_nat (length earlier) + Z.of_nat (length events) <= u32_max)%Z ->
  Forall (fun e => (1 <= schema_version e <= u32_max)%Z) events ->
  Forall (fun e => idempotency_key e = None) events ->
  Forall kernel_fits events -> validate_events ev first earlier events = Ok tt.
Proof.
  intros Hk. revert earlier. induction Hk as [|e events Hk Hks IH]; intros earlier Hv Hmax Hs Hi Hf; [done|].
  inversion Hs; inversion Hi as [|? ? Hidem ?]; inversion Hf as [|? ? [_ Hlen] ?]; subst.
  cbn [length] in *. rewrite Nat2Z.inj_succ, <-Z.add_1_l in *.
  rewrite fmap_cons, seqZ_cons in Hv by lia. injection Hv as Hv Hvs.
  cbn [validate_events]. unfold validate_event. cbn zeta.
  rewrite (proj2 (in_aggregate_spec _ _ _) Hk), (proj2 (Z.leb_le (ev + 1 + _) _)) by lia.
  rewrite (proj2 (Z.eqb_eq _ _) Hv), (proj2 (Z.eqb_neq (schema_version e) 0)) by lia.
  rewrite (proj2 (Z.leb_le _ _) Hlen), Hidem. cbn.
  apply IH; try done; rewrite length_app; cbn [length]; [rewrite Hvs; f_equal; lia|lia].
Qed.

Lemma validate_batch_runs ev (first : event) events :
  well_formed ev first events -> Forall kernel_fits events -> validate_batch ev events = Ok tt.
Proof.
  intros [Hh Hk Hv [H0 Hm] Hs Hi] Hf. destruct events as [|e events]; [done|]. injection Hh as ->.
  unfold validate_batch. apply validate_events_runs; try done; cbn [length]; [|simpl in Hm; lia].
  by rewrite Z.add_0_r.
Qed.

(** Two rows the unique indexes of unkeyed events keep apart. *)
Definition apart (o e : event) : Prop :=
  event_id o <> event_id e /\ (agg_key o, aggregate_version o) <> (agg_key e, aggregate_version e).

Lemma apart_no_clash (row o : event) :
  idempotency_key row = None -> (global_sequence o < global_sequence row)%Z -> apart o row ->
  clashes row o = false.
Proof.
  intros Hk Hlt [Hid Hver]. unfold clashes, same_key. rewrite Hk, orb_false_r.
  rewrite (proj2 (Z.eqb_neq _ _)), bool_decide_eq_false_2 by (lia || congruence). simpl.
  apply andb_false_iff. destruct (in_aggregate _ _ o) eqn:E; [right|by left].
  apply in_aggregate_spec in E. apply Z.eqb_neq. intros Hv. apply Hver. by rewrite E, Hv.
Qed.

Lemma insert_events_runs next offset now events l :
  (1 <= next + offset)%Z -> (next + offset + Z.of_nat (length events) <= u64_max)%Z ->
  (forall o, o ∈ l -> (global_sequence o < next + offset)%Z) ->
  Forall (fun e => kernel_fits e /\ (1 <= aggregate_version e <= u32_max)%Z /\
                   (1 <= schema_version e <= u32_max)%Z /\ idempotency_key e = None) events ->
  (forall o e, o ∈ l -> e ∈ events -> apart o e) -> ForallOrdPairs apart events ->
  exists rows l', insert_events next offset now events l = Ok (rows, l').
Proof.
  intros Hn Hmax Hlt Hall. revert offset l Hn Hmax Hlt.
  induction Hall as [|e events ([[occ Hocc] _] & Hv & Hs & Hk) Hall IH];
    intros offset l Hn Hmax Hlt Hap Hord; [by eexists _, _|].
  cbn [length] in Hmax. inversion Hord as [|? ? Hhd Htl]; subst.
  cbn [insert_events]. 
  rewrite (proj2 (checked_add_some u64_max next offset (next + offset))) by (split; [done|lia]). cbn.
  set (row := stored_row (next + offset) occ now e).
  assert (insert_event (next + offset) now e l = Ok (row, l ++ [row])) as Hins.
  { apply insert_event_ok. split; [by exists occ|]. split; [done|].
    split; [unfold event_check, u64_check, version_check, row;
            cbn [stored_row global_sequence aggregate_version schema_version];
            rewrite !(proj2 (Z.leb_le _ _)) by lia; done|].
    split; [|symmetry; apply insert_by_seq_last; intros o Ho; simpl; by apply Hlt].
    apply Forall_forall. intros o Ho. apply apart_no_clash; [done|by apply Hlt|].
    apply (Hap o e); [done|left]. }
  rewrite Hins. cbn.
  destruct (IH (offset + 1)%Z (l ++ [row])) as (rows & l' & Hrun); [lia|lia| | |done|].
  - intros o [Ho| ->%list_elem_of_singleton]%elem_of_app; [specialize (Hlt _ Ho); lia|simpl; lia].
  - intros o e' [Ho| ->%list_elem_of_singleton]%elem_of_app He'; [apply Hap; [done|by right]|].
    rewrite Forall_forall in Hhd. by apply (Hhd e').
  - rewrite Hrun. cbn. by eexists _, _.
Qed.

Lemma unkeyed_batch (events : list event) :
  Forall (fun e => idempotency_key e = None) events -> batch_keys events = [].
Proof. unfold batch_keys. induction 1 as [|e events He _ IH]; [done|]. simpl. by rewrite He. Qed.

Lemma aggregate_version_reads (db : database) ty id :
  log_inv db -> current_aggregate_version (log db) ty id = Ok (log_version (log db) ty id).
Proof.
  intros Hinv. unfold current_aggregate_version. fold (log_version (log db) ty id).
  rewrite (proj2 (Z.leb_le _ _)); [done|]. unfold log_version. apply Z.lt_succ_r, max_of_lt; [done|].
  intros e [He _]%list_elem_of_In%filter_In. apply list_elem_of_In, (li_checked _ Hinv) in He.
  unfold event_check, version_check in He. unbool. lia.
Qed.

(** The whole transaction of a well-formed unkeyed batch that passes the fence. *)
Lemma append_unkeyed t ev fence (first : event) events db w :
  log_inv db -> holds_writer db w -> (0 < permits st)%Z ->
  well_formed ev first events -> Forall kernel_fits events ->
  (forall c, w_fence_token w = Some c -> default NO_FENCE_PRESENTED fence = c) ->
  let actual := log_version (log db) (aggregate_type first) (aggregate_id first) in
  append st t ev fence events db =
    if (actual =? ev)%Z then
      '(rows, l) ← insert_events (w_next_seq w) 0 (tx_now t) events (log db);
      advanced ← ok_or (checked_add u64_max (w_next_seq w) (Z.of_nat (length events))) StorageFailure;
      mret (rows, set_writer (Some (with_next_seq advanced w)) (set_log l db))
    else Err (VersionConflict actual ev).
Proof.
  intros Hinv Hh Hp Hw Hfits Hf actual. unfold append, admit_append.
  rewrite (proj2 (Z.ltb_lt _ _) Hp), (lock_writer_runs _ _ _ Hinv Hh). cbn. unfold append_locked.
  rewrite (validate_batch_runs _ _ _ Hw Hfits), (wf_head _ _ _ Hw).
  cbn [mbind result_bind ok_or]. unfold check_fence. cbn [ws_current_fence ws_next_seq].
  match goal with |- context [match w_fence_token w with Some c => @?f c | None => ?d end] =>
    replace (match w_fence_token w with Some c => f c | None => d end) with (@Ok AppendError unit tt) end.
  2: { destruct (w_fence_token w) as [c|]; [|done]. by rewrite (proj2 (Z.eqb_eq _ _) (Hf c eq_refl)). }
  cbn [mbind result_bind]. rewrite unkeyed_batch by apply Hw. cbn [keyed_retry].
  unfold keyed_retry. rewrite bool_decide_eq_true_2 by done. cbn [orb mret result_ret mbind result_bind].
  rewrite aggregate_version_reads by done. cbn [mbind result_bind].
  fold actual. destruct (actual =? ev)%Z; [|done]. cbn [ensure mbind result_bind].
  destruct (insert_events _ _ _ _ _) as [[rows l]|]; [|done]. cbn [mbind result_bind].
  destruct Hh as [Hwr _]. rewrite Hwr. by destruct (checked_add _ _ _).
Qed.

(** The next versions of the aggregate are above those the log has of it. *)
Lemma rising_apart ev (events : list event) :
  aggregate_version <$> events = seqZ (ev + 1) (Z.of_nat (length events)) ->
  NoDup (event_id <$> events) -> ForallOrdPairs apart events.
Proof.
  revert ev. induction events as [|e events IH]; intros ev Hvs Hnd; [constructor|].
  rewrite fmap_cons in *. apply NoDup_cons in Hnd as [Hid Hnd].
  cbn [length] in Hvs. rewrite Nat2Z.inj_succ, <-Z.add_1_l, seqZ_cons in Hvs by lia.
  injection Hvs as Hv Hvs. change (aggregate_version <$> events = seqZ (Z.succ (ev + 1)) (Z.pred (1 + Z.of_nat (length events)))) in Hvs.
  replace (Z.pred (1 + Z.of_nat (length events))) with (Z.of_nat (length events)) in Hvs by lia.
  constructor; [|by apply (IH (ev + 1)%Z)].
  apply Forall_forall. intros e' He'. split; [intros E; apply Hid; rewrite E; by apply list_elem_of_fmap_2|].
  intros [= _ _ E]. apply (list_elem_of_fmap_2 aggregate_version) in He'. rewrite Hvs in He'.
  apply elem_of_seqZ in He'. lia.
Qed.

Lemma next_versions_apart (db : database) ev (first : event) events :
  log_version (log db) (aggregate_type first) (aggregate_id first) = ev ->
  well_formed ev first events -> fresh_ids (log db) events ->
  forall o e, o ∈ log db -> e ∈ events -> apart o e.
Proof.
  intros Hv [_ Hk Hvs _ _ _] [_ Hfresh] o e Ho He. rewrite Forall_forall in Hk.
  split; [by apply Hfresh|]. intros E. injection E as Hty Hid Hver.
  assert (aggregate_version o <= ev)%Z.
  { rewrite <-Hv. apply max_of_in, list_elem_of_In, filter_In. rewrite <-list_elem_of_In.
    split; [done|]. apply in_aggregate_spec. transitivity (agg_key e); [|by apply Hk].
    unfold agg_key. congruence. }
  assert (aggregate_version e ∈ aggregate_version <$> events) as Hin by (by apply list_elem_of_fmap_2).
  rewrite Hvs in Hin. apply elem_of_seqZ in Hin. lia.
Qed.

(** *** The laws *)

Notation lawful_inv := (es_inv (StoreModel := kernel_model)).

Lemma kernel_lands s ev fence (first : event) events rows s' :
  lawful_inv s -> well_formed ev first events -> kernel_append ev fence events s = Ok (rows, s') ->
  exists db w, session_db s' = db /\ writer (session_db s) = Some w /\
    log_inv db /\ log db = log (session_db s) ++ rows /\
    Forall2 (landed (tx_now (clock (tick_count s)))) events rows /\
    writer db = Some (with_next_seq (w_next_seq w + Z.of_nat (length events)) w) /\
    global_sequence <$> rows = seqZ (w_next_seq w) (Z.of_nat (length events)) /\
    tick_count s' = S (tick_count s).
Proof.
  intros (Hinv & _ & w & Hw & _) Hwf. unfold kernel_append, append. intros Ha. inv_ok.
  simplify_eq.
  match goal with Hl : lock_writer _ _ _ = Ok _, Hr : append_locked _ _ _ _ _ _ = Ok _ |- _ =>
    pose proof (append_locked_inv _ _ _ _ _ _ _ _ _ Hinv Hl Hr) as Hinv';
    destruct (lock_writer_ok _ _ _ _ Hinv Hl) as (w' & Hw' & _ & Hn); simplify_eq;
    apply (append_locked_ok _ _ _ _ _ _ _ _ w Hinv Hw Hn) in Hr as (_ & _ & f & Hh & Hout) end.
  destruct Hout as [[_ _ _ _ Hlen _]|[_ _ _ Hlog HF (w' & Hw' & Hq & -> & _) _ _]].
  - rewrite unkeyed_batch in Hlen by apply Hwf. by destruct events.
  - simplify_eq. eexists _, w. by split_and!.
Qed.

(** A well-formed batch of unused ids, at the version it expects and under the
    current token, is stored. *)
Lemma kernel_accepts s ev fence (first : event) events w :
  log_inv (session_db s) -> holds_writer (session_db s) w -> (0 < permits st)%Z ->
  well_formed ev first events -> Forall kernel_fits events ->
  (forall c, w_fence_token w = Some c -> default NO_FENCE_PRESENTED fence = c) ->
  log_version (log (session_db s)) (aggregate_type first) (aggregate_id first) = ev ->
  fresh_ids (log (session_db s)) events -> (w_next_seq w + Z.of_nat (length events) <= u64_max)%Z ->
  exists rows s', kernel_append ev fence events s = Ok (rows, s').
Proof.
  intros Hinv Hh Hp Hwf Hfits Hpres Hv Hfresh Hmax.
  destruct (li_writer _ Hinv) as (w' & Hw' & Hn & Hlt). pose proof Hh as (Hw & _). rewrite Hw in Hw'. injection Hw' as <-.
  unfold kernel_append. rewrite (append_unkeyed _ _ _ _ _ _ _ Hinv Hh Hp Hwf Hfits Hpres), Hv, Z.eqb_refl.
  destruct (insert_events_runs (w_next_seq w) 0 (tx_now (clock (tick_count s))) events
              (log (session_db s))) as (rows & l' & Hins); [lia|lia|by rewrite Z.add_0_r| | | |].
  - rewrite Forall_forall in Hfits |- *. intros e He. destruct Hwf as [_ _ Hvs [? ?] Hs Hk].
    rewrite Forall_forall in Hs, Hk. split; [by apply Hfits|]. split; [|by split; [apply Hs|apply Hk]].
    apply (list_elem_of_fmap_2 aggregate_version) in He. rewrite Hvs in He. apply elem_of_seqZ in He. lia.
  - eapply next_versions_apart; [|done|done]. done.
  - eapply rising_apart; [apply Hwf|apply Hfresh].
  - rewrite Hins. cbn [mbind result_bind].
    rewrite (proj2 (checked_add_some _ _ _ (w_next_seq w + Z.of_nat (length events)))) by (split; [done|lia]).
    by eexists _, _.
Qed.

Lemma kernel_fenced s ev fence (first : event) events w current :
  log_inv (session_db s) -> holds_writer (session_db s) w -> (0 < permits st)%Z ->
  well_formed ev first events -> Forall kernel_fits events ->
  w_fence_token w = Some current -> default NO_FENCE_PRESENTED fence <> current ->
  kernel_append ev fence events s = Err (Fenced (default NO_FENCE_PRESENTED fence) current).
Proof.
  intros Hinv Hh Hp Hwf Hfits Hc Hne. unfold kernel_append, append, admit_append.
  rewrite (proj2 (Z.ltb_lt _ _) Hp), (lock_writer_runs _ _ _ Hinv Hh). cbn. unfold append_locked.
  rewrite (validate_batch_runs _ _ _ Hwf Hfits), (wf_head _ _ _ Hwf).
  cbn [mbind result_bind ok_or]. unfold check_fence. cbn [ws_current_fence].
  by rewrite Hc, (proj2 (Z.eqb_neq _ _) Hne).
Qed.

Lemma landed_assigned now (events rows : list event) :
  Forall2 (landed now) events rows ->
  Forall2 (assigned jsonb) rows events /\ Forall (fun row => appended_at row = ts_json now) rows.
Proof.
  induction 1 as [|e row events rows (occ & _ & ->) _ [IH1 IH2]]; [done|]. by repeat constructor.
Qed.

Lemma kernel_watermark (db : database) :
  log_inv db -> watermark (log db) = global_sequence <$> last (log db).
Proof.
  intros Hinv. pose proof (li_increasing _ Hinv) as Hi. unfold watermark.
  destruct (log db) as [|row l _] using rev_ind; [done|].
  rewrite last_snoc. destruct (l ++ [row]) as [|x l'] eqn:E; [by destruct l|]. cbn [fmap option_fmap option_map]. f_equal.
  rewrite <-E. rewrite <-E in Hi. apply increasing_app in Hi as [_ [Hlt _]].
  rewrite max_of_app. simpl. pose proof (max_of_ge global_sequence 0 l). lia.
Qed.

Lemma kernel_laws : @EventStoreLaws V Session kernel_store kernel_model.
Proof.
  split; simpl.
  - intros s m n Hr Hle w Hw. destruct (Hr w Hw). lia.
  - intros s (Hinv & _). apply Hinv.
  - intros s n e (Hinv & _) Hr He. destruct (li_writer _ Hinv) as (w & Hw & _ & Hlt).
    destruct (Hr w Hw). specialize (Hlt _ He). lia.
  - intros s ev fence first events rows s' Hi Hwf _ Ha.
    destruct (kernel_lands _ _ _ _ _ _ _ Hi Hwf Ha) as (db & w & -> & Hw & Hinv & Hlog & HF & Hw' & _).
    apply landed_assigned in HF as [HF Hst]. destruct Hi as (_ & Hp & w0 & Hw0 & He & Hc & Hf). simplify_eq.
    split; [split; [done|]; split; [done|]; by exists (with_next_seq (w_next_seq w0 + Z.of_nat (length events)) w0)|].
    do 2 (split; [done|]). split; [|split; [by rewrite Hw', Hw0|]].
    + eapply Forall_impl; [exact Hst|]. intros row ->. by eexists.
    + intros n Hr w1 Hw1. simplify_eq. destruct (Hr _ Hw0). simpl. lia.
  - intros s ev fence first events (Hinv & Hp & w & Hh) Hwf Hpres Hv Hfits Hfresh Hroom.
    pose proof Hh as (Hw & _). destruct (Hroom _ Hw) as [Hmax _].
    apply (kernel_accepts _ _ _ first _ w); try done.
    + intros c Hc. unfold presents in Hpres. simpl in Hpres. rewrite Hpres, Hw. simpl. by rewrite Hc.
  - intros s ev fence first events actual (Hinv & Hp & w & Hh) Hwf Hpres Hfits Hv Hne.
    unfold kernel_append. erewrite append_unkeyed; [|done..|].
    + by rewrite Hv, (proj2 (Z.eqb_neq _ _) Hne).
    + intros c Hc. unfold presents in Hpres. simpl in Hpres. destruct Hh as (Hw & _).
      rewrite Hpres, Hw. simpl. by rewrite Hc.
  - intros s ev fence first events current (Hinv & Hp & w & Hh) Hwf Hfits Hc Hne.
    pose proof Hh as (Hw & _). rewrite Hw in Hc. by eapply kernel_fenced.
  - done.
  - intros s (Hinv & _). by rewrite kernel_watermark.
  - intros s n (Hinv & Hp & w & Hw & He & Hc & Hf) Hr Hn. destruct (Hr _ Hw) as [Hs Ht].
    assert (1 <= default 0 (w_fence_token w) + 1 <= u64_max)%Z as Htok.
    { destruct (w_fence_token w) as [f|] eqn:E; simpl in *; [specialize (Hf f eq_refl); lia|done]. }
    unfold kernel_grant_fence, grant_fence. rewrite Hw. cbn zeta.
    rewrite !(proj2 (Z.leb_le _ _)) by lia. cbn [andb ensure mbind result_bind].
    rewrite Numeric.from_to_numeric_text by (unfold is_u64; lia). cbn. eexists _, _. split; [done|]. simpl.
    split_and!; try done; try lia.
    + destruct Hinv as [Hiw ? ? ? ?]. split; try done. destruct Hiw as (w' & Hw' & ?). simplify_eq.
      by eexists.
    + eexists. split_and!; try done. simpl. intros f [= <-]. lia.
    + intros w' [= <-]. simpl. lia.
    + intros old ->. simpl. lia.
Qed.
End Kernel.

(** ** What the laws give *)

Section Conform.
Context `{TZ : Timestamptz} {V : Type} `{SD : Serde V}.
Notation event := (EventEnvelope V).

Lemma claimed_fresh inflight t0 (st : @Store _ V) db clock :
  with_capacity inflight (initial_db t0) = Ok (st, db) -> (0 < inflight)%Z ->
  fresh_store (SM := kernel_model st clock) {| tick_count := 0; session_db := db |}.
Proof.
  intros [= <- <-] Hp. split; simpl.
  - split; [|split; [done|]].
    + split; simpl; [|done|done|constructor|by intros ? ?%elem_of_nil].
      eexists. split; [done|]. split; [done|]. by intros ? ?%elem_of_nil.
    + eexists. by split.
  - done.
  - done.
  - by intros w [= <-].
Qed.

(** What [seed] leaves. *)
Lemma seed_log (empty_object : V) n (inner : Memory.Inner) :
  es_inv inner -> (Memory.next_seq inner + Z.of_nat n <= u64_max)%Z ->
  es_inv (Memory.seed empty_object n inner) /\
  length (Memory.events (Memory.seed empty_object n inner)) = length (Memory.events inner) + n.
Proof.
  revert inner. induction n as [|n IH]; intros inner Hi Hmax; [by split; [|simpl; lia]|].
  pose proof Hi as (_ & _ & Hn & Hf). cbn [Memory.seed]. unfold Memory.wrap_u64.
  rewrite Z.mod_small by lia. cbn zeta.
  destruct (IH {| Memory.events := Memory.events inner ++ [Memory.stamped (Memory.next_seq inner + 1)
      (fixture_event empty_object ("agg-seed-" +:+ Numeric.to_numeric_text (Memory.next_seq inner + 1)) 1)];
      Memory.next_seq := Memory.next_seq inner + 1; Memory.fence := Memory.fence inner |}) as [Hi' Hl].
  - destruct (Memory.appended_rises inner [Memory.stamped (Memory.next_seq inner + 1)
      (fixture_event empty_object ("agg-seed-" +:+ Numeric.to_numeric_text (Memory.next_seq inner + 1)) 1)] 1)
      as [Hr Hle]; [done|simpl; f_equal; lia|]. simpl. split_and!; try done; lia.
  - cbn [Memory.next_seq]. lia.
  - split; [done|]. rewrite Hl. cbn [Memory.events]. rewrite length_app. simpl. lia.
Qed.

Lemma new_inv : es_inv (Memory.new (V := V)).
Proof. split; [done|]. split; [by intros ? ?%elem_of_nil|]. done. Qed.

(** The reference store passes the conformance suite. *)
Theorem reference_store_conforms (empty_object : V) :
  run_all empty_object Memory.new = true /\
  check_read_limit_ceiling (Memory.seed empty_object (Z.to_nat (MAX_READ_LIMIT + 1)) Memory.new) = true.
Proof.
  split.
  - apply (lawful_run_all empty_object); [done|intros s Hs; vm_compute in Hs; discriminate|].
    split; [apply new_inv|done..].
  - assert (Z.of_nat (Z.to_nat (MAX_READ_LIMIT + 1)) = MAX_READ_LIMIT + 1)%Z as Hn by (by apply Z2Nat.id).
    remember (Z.to_nat (MAX_READ_LIMIT + 1)) as n eqn:En. clear En.
    destruct (seed_log empty_object n Memory.new) as [Hi Hl]; [apply new_inv|by rewrite Hn|].
    apply read_limit_ceiling; [done|]. cbn [es_log Memory.model]. rewrite Hl. cbn. lia.
Qed.

(** A kernel store whose writer has just been claimed passes the
    conformance suite. *)
Theorem kernel_store_conforms (empty_object : V) inflight t0 (st : @Store _ V) db clock :
  with_capacity inflight (initial_db t0) = Ok (st, db) -> (0 < inflight)%Z ->
  is_Some (ts_parse "2026-01-01T00:00:00Z") ->
  (serialized_len empty_object <= INLINE_PAYLOAD_MAX_BYTES)%Z ->
  (forall n, ts_json (tx_now (clock n)) <> SENTINEL_APPENDED_AT) ->
  run_all (ES := kernel_store st clock) empty_object {| tick_count := 0; session_db := db |} = true.
Proof.
  intros Hc Hp Hts Hlen Hclock.
  apply (lawful_run_all (SM := kernel_model st clock) (L := kernel_laws st clock) empty_object).
  - done.
  - intros s (n & Hn). by apply (Hclock n).
  - by eapply claimed_fresh.
Qed.

End Conform.

(** ** The kernel's store beside the reference store *)

Section Lockstep.
Context `{TZ : Timestamptz} {V : Type} `{SD : Serde V}.
Notation event := (EventEnvelope V).
Notation database := (Db instant V).
Context (st : @Store _ V) (clock : nat -> TxClock).

(** The kernel's row of the event the reference store holds as [m], committed
    by the session's transaction [n]: the same sequence, the payload and the
    time it occurred as the columns give them back, and the transaction's time. *)
Definition counterpart (n : nat) (k m : event) : Prop :=
  exists occurred, ts_parse (occurred_at m) = Some occurred /\
    k = stored_row (global_sequence m) occurred (tx_now (clock n)) m.

(** One of the first [n] transactions committed it. *)
Definition held (n : nat) (k m : event) : Prop := exists i, i < n /\ counterpart i k m.

(** A batch of the next versions of one aggregate. *)
Definition consecutive (ev : Z) (events : list event) : Prop :=
  exists first, head events = Some first /\ Forall (fun e => agg_key e = agg_key first) events /\
    aggregate_version <$> events = seqZ (ev + 1) (Z.of_nat (length events)).

(** The kernel's answer [k] to a call and the reference store's [m], when [n]
    transactions of the session have committed.  The kernel validates a batch
    before it checks the fence, and the reference store after. *)
Definition alike (n : nat) (c : Call V) (k m : PortAnswer V) : Prop :=
  match k, m with
  | AppendAnswer (Ok ks), AppendAnswer (Ok ms) => Forall2 (counterpart n) ks ms
  | AppendAnswer (Err ek), AppendAnswer (Err em) =>
      ek = em \/
      (ek = MalformedBatch /\ exists ev fence events current, c = CallAppend ev fence events /\
         ~ consecutive ev events /\ default NO_FENCE_PRESENTED fence <> current /\
         em = Fenced (default NO_FENCE_PRESENTED fence) current)
  | PageAnswer (Ok ks), PageAnswer (Ok ms) => Forall2 (held n) ks ms
  | MarkAnswer (Ok k), MarkAnswer (Ok m) => k = m
  | FenceAnswer (Ok k), FenceAnswer (Ok m) => k = m
  | _, _ => False
  end.

(** The transactions an answer says were committed. *)
Definition commits (a : PortAnswer V) : nat :=
  match a with AppendAnswer (Ok _) | FenceAnswer (Ok _) => 1 | _ => 0 end.

Fixpoint all_alike (n : nat) (calls : list (Call V)) (ks ms : list (PortAnswer V)) : Prop :=
  match calls, ks, ms with
  | [], [], [] => True
  | c :: calls, k :: ks, m :: ms => alike n c k m /\ all_alike (n + commits k) calls ks ms
  | _, _, _ => False
  end.

(** What the columns can hold of a call: unkeyed events of a stated schema
    version, times the database parses, versions of 32 bits; and a token only
    once one was granted. *)
Definition portable (granted : bool) (c : Call V) : Prop :=
  match c with
  | CallAppend ev fence events =>
      (0 <= ev)%Z /\ (ev + Z.of_nat (length events) <= u32_max)%Z /\
      Forall (fun e => kernel_fits e /\ (1 <= schema_version e <= u32_max)%Z /\
                       idempotency_key e = None) events /\
      (granted = false -> fence = None)
  | CallReadFrom cursor limit => (0 <= default 0 cursor)%Z /\ (0 <= limit)%Z
  | CallWatermark | CallGrantFence => True
  end.

Definition grants (c : Call V) : bool := match c with CallGrantFence => true | _ => false end.

Fixpoint all_portable (granted : bool) (calls : list (Call V)) : Prop :=
  match calls with
  | [] => True
  | c :: calls => portable granted c /\ all_portable (granted || grants c) calls
  end.

(** The sequence numbers and tokens a call may use up. *)
Definition weight (c : Call V) : Z :=
  match c with
  | CallAppend _ _ events => Z.of_nat (length events)
  | CallGrantFence => 1
  | _ => 0
  end.
Definition weights (calls : list (Call V)) : Z := foldr Z.add 0%Z (weight <$> calls).

(** The two stores after the same calls, with room for [room] more. *)
Record lockstep (room : Z) (s : Session) (m : Memory.Inner) : Prop := {
  ls_inv : log_inv (session_db s);
  ls_held : Forall2 (held (tick_count s)) (log (session_db s)) (Memory.events m);
  ls_writer : exists w, holds_writer st (session_db s) w /\
    w_next_seq w = (Memory.next_seq m + 1)%Z /\ default 0%Z (w_fence_token w) = Memory.fence m /\
    (0 <= Memory.next_seq m)%Z /\ (Memory.next_seq m + room < u64_max)%Z /\
    (0 <= Memory.fence m)%Z /\ (Memory.fence m + room < u64_max)%Z;
}.

Lemma counterpart_marks n k m : counterpart n k m ->
  event_id k = event_id m /\ agg_key k = agg_key m /\ aggregate_version k = aggregate_version m /\
  global_sequence k = global_sequence m.
Proof. by intros (occ & _ & ->). Qed.

Lemma held_later n n' k m : n <= n' -> held n k m -> held n' k m.
Proof. intros Hle (i & Hi & Hc). exists i. split; [lia|done]. Qed.

Lemma held_version n (l l' : list event) ty id :
  Forall2 (held n) l l' -> log_version l ty id = log_version l' ty id.
Proof.
  intros HF. rewrite !log_version_marks. f_equal. induction HF as [|k m l l' (i & _ & Hc) HF IH]; [done|].
  rewrite !fmap_cons, IH. destruct (counterpart_marks _ _ _ Hc) as (Hi & Ha & Hv & _).
  unfold mark. by rewrite Hi, Ha, Hv.
Qed.

Lemma held_ids n (l l' : list event) : Forall2 (held n) l l' -> event_id <$> l = event_id <$> l'.
Proof.
  induction 1 as [|k m l l' (i & _ & Hc) HF IH]; [done|]. rewrite !fmap_cons, IH.
  by destruct (counterpart_marks _ _ _ Hc) as (-> & _).
Qed.

Lemma held_seqs n (l l' : list event) :
  Forall2 (held n) l l' -> global_sequence <$> l = global_sequence <$> l'.
Proof.
  induction 1 as [|k m l l' (i & _ & Hc) HF IH]; [done|]. rewrite !fmap_cons, IH.
  by destruct (counterpart_marks _ _ _ Hc) as (_ & _ & _ & ->).
Qed.

(** On a batch the columns can hold, the two validations are one. *)
Lemma validations_agree ev (first : event) earlier events :
  (0 <= ev)%Z -> (ev + Z.of_nat (length earlier) + Z.of_nat (length events) <= u32_max)%Z ->
  Forall (fun e => kernel_fits e /\ (1 <= schema_version e <= u32_max)%Z /\ idempotency_key e = None) events ->
  validate_events ev first earlier events =
  Memory.check_batch (agg_key first) ev (Z.of_nat (length earlier)) events.
Proof.
  intros Hev Hmax HF. revert earlier Hmax.
  induction HF as [|e events ([_ Hlen] & Hs & Hk) HF IH]; intros earlier Hmax; [done|].
  cbn [length] in Hmax. cbn [validate_events Memory.check_batch]. unfold validate_event. cbn zeta.
  replace (in_aggregate (aggregate_type first) (aggregate_id first) e) with (bool_decide (agg_key e = agg_key first))
    by (apply eq_bool_prop_intro; rewrite !Is_true_true, in_aggregate_spec, bool_decide_eq_true; done).
  destruct (bool_decide _); [|done]. cbn [ensure mbind result_bind].
  unfold Memory.wrap_u32. rewrite Z.mod_small by (unfold u32_max in *; lia).
  rewrite (proj2 (Z.leb_le _ u32_max)) by lia. cbn [ensure mbind result_bind].
  destruct (aggregate_version e =? _)%Z; [|done]. cbn [ensure mbind result_bind].
  rewrite (proj2 (Z.eqb_neq (schema_version e) 0)), (proj2 (Z.leb_le _ _) Hlen), Hk by lia.
  cbn [negb ensure mbind result_bind]. rewrite IH by (rewrite length_app; cbn [length]; lia).
  rewrite length_app. cbn [length]. f_equal. lia.
Qed.

Lemma consecutive_valid ev events :
  portable true (CallAppend ev None events) -> validate_batch ev events = Ok tt <-> consecutive ev events.
Proof.
  intros (Hev & Hmax & HF & _). split.
  - intros (first & Hh & Hk & Hv & _)%validate_batch_ok. by exists first.
  - intros (first & Hh & Hk & Hv). apply (validate_batch_runs ev first).
    + split; try done; (eapply Forall_impl; [exact HF|]; by intros ? (? & ? & ?)).
    + eapply Forall_impl; [exact HF|]. by intros ? (? & ? & ?).
Qed.

Lemma landed_counterparts n q (events rows : list event) :
  Forall2 (landed (tx_now (clock n))) events rows ->
  global_sequence <$> rows = seqZ q (Z.of_nat (length events)) ->
  Forall2 (counterpart n) rows (zip_with Memory.stamped (seqZ q (Z.of_nat (length events))) events).
Proof.
  intros HF. revert q. induction HF as [|e row events rows (occ & Hocc & Hrow) HF IH]; intros q; [done|].
  cbn [length]. rewrite Nat2Z.inj_succ, seqZ_cons, Z.pred_succ, fmap_cons by lia. intros [= Hq Hqs].
  cbn [zip_with]. constructor; [|by apply IH]. exists occ. split; [done|]. rewrite Hrow, Hq. done.
Qed.

Lemma stamped_ids q (events : list event) :
  event_id <$> zip_with Memory.stamped (seqZ q (Z.of_nat (length events))) events = event_id <$> events.
Proof.
  revert q. induction events as [|e events IH]; intros q; [done|].
  cbn [length]. rewrite Nat2Z.inj_succ, seqZ_cons, Z.pred_succ by lia.
  cbn [zip_with]. rewrite !fmap_cons, IH. done.
Qed.

Lemma check_batch_refuses agg ev i (events : list event) :
  Memory.check_batch agg ev i events <> Ok tt -> Memory.check_batch agg ev i events = Err MalformedBatch.
Proof.
  revert i. induction events as [|e events IH]; intros i Hbad; [done|].
  cbn [Memory.check_batch] in *. destruct (bool_decide _); [|done]. cbn [ensure mbind result_bind] in *.
  destruct (_ =? _)%Z; [|done]. cbn [ensure mbind result_bind] in *. by apply IH.
Qed.

(** The refusals of a batch the kernel will not validate. *)
Lemma malformed_append room s m granted ev fence events :
  lockstep room s m -> (0 < permits st)%Z -> portable granted (CallAppend ev fence events) ->
  validate_batch ev events <> Ok tt ->
  kernel_append st clock ev fence events s = Err MalformedBatch /\
  Memory.append ev fence events m =
    if (default 0 fence =? Memory.fence m)%Z then Err MalformedBatch
    else Err (Fenced (default 0 fence) (Memory.fence m))%Z.
Proof.
  intros [Hinv _ (w & Hh & _)] Hp (Hev & Hmax & HF & _) Hbad.
  assert (validate_batch ev events = Err MalformedBatch /\
    (first ← ok_or (head events) MalformedBatch;
     Memory.check_batch (agg_key first) ev 0 events) = Err MalformedBatch) as [Hv Hc].
  { destruct events as [|first events]; [done|]. cbn [head ok_or mbind result_bind]. unfold validate_batch in *.
    rewrite (validations_agree ev first [] (first :: events)) in * by (done || simpl in *; lia).
    split; by apply check_batch_refuses. }
  split.
  - unfold kernel_append, append, admit_append.
    rewrite (proj2 (Z.ltb_lt _ _) Hp), (lock_writer_runs _ _ _ _ Hinv Hh). cbn. unfold append_locked.
    by rewrite Hv.
  - unfold Memory.append. cbn zeta. destruct (_ =? _)%Z; [|done]. cbn [ensure mbind result_bind].
    destruct (head events) as [first|]; [|done]. cbn in Hc |- *. by rewrite Hc.
Qed.

(** The two stores take the same call. *)
Definition stepped (room : Z) (c : Call V) (s : Session) (m : Memory.Inner) : Prop :=
  let '(k, s') := perform (H := kernel_store st clock) c s in
  let '(a, m') := perform c m in
  alike (tick_count s) c k a /\ lockstep room s' m' /\ tick_count s' = tick_count s + commits k /\
  (Memory.fence m' = 0%Z -> Memory.fence m = 0%Z /\ grants c = false).

Lemma refused_append room s m c ek em :
  lockstep room s m -> alike (tick_count s) c (AppendAnswer (Err ek)) (AppendAnswer (Err em)) ->
  forall ev fence events, c = CallAppend ev fence events ->
  kernel_append st clock ev fence events s = Err ek -> Memory.append ev fence events m = Err em ->
  stepped room c s m.
Proof.
  intros Hls Ha ev fence events -> Hk Hm. unfold stepped, perform. simpl es_append. rewrite Hk, Hm.
  split; [done|]. split; [done|]. simpl. split; [lia|done].
Qed.

(** A batch both stores validate, under the current token. *)
Lemma valid_append room s m ev fence (first : event) events :
  lockstep (Z.of_nat (length events) + room) s m -> (0 <= room)%Z -> (0 < permits st)%Z ->
  well_formed ev first events -> Forall kernel_fits events ->
  default 0%Z fence = Memory.fence m ->
  NoDup (event_id <$> Memory.events (perform (CallAppend ev fence events) m).2) ->
  stepped room (CallAppend ev fence events) s m.
Proof.
  intros Hls Hroom Hp Hwf Hfits Hpres Hnd. pose proof Hls as [Hinv Hheld (w & Hh & Hq & Hf & Hn0 & Hn & Hf0 & Hfn)].
  pose proof (Memory.append_well_formed _ _ _ _ _ Hwf Hpres) as Hm.
  assert (Hpres' : forall c, w_fence_token w = Some c -> default NO_FENCE_PRESENTED fence = c).
  { intros c Hc. rewrite Hc in Hf. change NO_FENCE_PRESENTED with 0%Z. rewrite Hpres. by rewrite <-Hf. }
  pose proof (append_unkeyed st (clock (tick_count s)) _ _ _ _ _ _ Hinv Hh Hp Hwf Hfits Hpres') as Hk.
  cbn zeta in Hk. rewrite (held_version _ _ _ _ _ Hheld) in Hk.
  destruct (Z.eqb_spec (log_version (Memory.events m) (aggregate_type first) (aggregate_id first)) ev) as [Hv|Hv].
  2: { eapply refused_append; [|by left|done| |exact Hm].
       - destruct Hls. split; [done|done|]. exists w. split_and!; try done; lia.
       - unfold kernel_append. by rewrite Hk. }
  clear Hk. destruct (Memory.assign _ _) as [ms last] eqn:Ea.
  apply Memory.assign_ok in Ea as [-> ->]; [|lia..].
  unfold perform in Hnd. simpl es_append in Hnd. rewrite Hm in Hnd. simpl in Hnd.
  rewrite fmap_app, stamped_ids in Hnd. apply NoDup_app in Hnd as (_ & Hdis & Hids).
  destruct (kernel_accepts st clock s ev fence first events w) as (rows & s' & Ha); try done.
  { by rewrite (held_version _ _ _ _ _ Hheld). }
  { split; [done|]. intros o e Ho He Heq. apply (list_elem_of_fmap_2 event_id) in Ho, He.
    rewrite (held_ids _ _ _ Hheld) in Ho. apply (Hdis _ Ho). by rewrite Heq. }
  { lia. }
  destruct (kernel_lands st clock s ev fence first events rows s') as (db & w' & Hdb & Hw' & Hinv' & Hlog & HF & Hw2 & Hseq & Htick);
    [split; [done|]; split; [done|by exists w]|done|done|].
  pose proof Hh as (Hw & He & Hc & Hft). rewrite Hw in Hw'. injection Hw' as <-.
  unfold stepped, perform. simpl es_append. rewrite Ha, Hm. cbn [commits alike].
  assert (Forall2 (counterpart (tick_count s)) rows
    (zip_with Memory.stamped (seqZ (Memory.next_seq m + 1) (Z.of_nat (length events))) events)) as Hrows
    by (rewrite <-Hq; apply landed_counterparts; [done|by rewrite Hseq]).
  split; [done|]. split; [|split; [lia|by simpl]]. split; [by rewrite Hdb| |].
  - rewrite Hdb, Hlog. simpl. apply Forall2_app.
    + eapply Forall2_impl; [exact Hheld|]. intros ??. apply held_later. lia.
    + eapply Forall2_impl; [exact Hrows|]. intros k r Hc'. exists (tick_count s). split; [lia|done].
  - exists (with_next_seq (w_next_seq w + Z.of_nat (length events)) w). rewrite Hdb. simpl.
    split; [by split_and!|]. split_and!; try done; lia.
Qed.

Lemma lockstep_shrinks room room' s m : lockstep room s m -> (room' <= room)%Z -> lockstep room' s m.
Proof. intros [Hi Hh (w & Hw & ? & ? & ? & ? & ? & ?)] Hle. split; [done|done|]. exists w. split_and!; (done || lia). Qed.

Lemma append_steps room s m granted ev fence events :
  lockstep (Z.of_nat (length events) + room) s m -> (0 <= room)%Z -> (0 < permits st)%Z ->
  portable granted (CallAppend ev fence events) -> (granted = true -> Memory.fence m <> 0%Z) ->
  NoDup (event_id <$> Memory.events (perform (CallAppend ev fence events) m).2) ->
  stepped room (CallAppend ev fence events) s m.
Proof.
  intros Hls Hroom Hp Hport Hgr Hnd. pose proof Hport as (Hev & Hmax & HF & Hnone).
  assert (lockstep room s m) as Hls' by (eapply lockstep_shrinks; [done|lia]).
  destruct (decide (validate_batch ev events = Ok tt)) as [Hv|Hv].
  2: { destruct (malformed_append _ _ _ _ _ _ _ Hls Hp Hport Hv) as [Hk Hm].
       assert (~ consecutive ev events) as Hcon by (intros Hc; apply Hv; by apply consecutive_valid).
       destruct (Z.eqb_spec (default 0%Z fence) (Memory.fence m)) as [E|E];
         (eapply refused_append; [done| |done|exact Hk|exact Hm]); [by left|].
       right. split; [done|]. exists ev, fence, events, (Memory.fence m). by split_and!. }
  apply validate_batch_ok in Hv as (first & Hh & Hk & Hvs & _).
  assert (well_formed ev first events) as Hwf
    by (split; try done; (eapply Forall_impl; [exact HF|]; by intros ? (? & ? & ?))).
  assert (Forall kernel_fits events) as Hfits by (eapply Forall_impl; [exact HF|]; by intros ? (? & ? & ?)).
  destruct (decide (default 0%Z fence = Memory.fence m)) as [E|E]; [by eapply valid_append|].
  pose proof Hls as [Hinv Hheld (w & Hhw & Hq & Hf & _)].
  assert (w_fence_token w = Some (Memory.fence m)) as Hcur.
  { destruct (w_fence_token w) as [c|] eqn:Ec; [by f_equal|]. destruct granted; [by destruct Hgr|].
    rewrite Hnone in E by done. by destruct E. }
  eapply refused_append; [done|by left|done| |].
  - by eapply kernel_fenced.
  - unfold Memory.append. cbn zeta. by rewrite (proj2 (Z.eqb_neq _ _) E).
Qed.

(** Reading the same page of both. *)
Lemma held_page n (l l' : list event) cursor limit :
  Forall2 (held n) l l' -> Forall2 (held n) (read_page l cursor limit) (read_page l' cursor limit).
Proof.
  intros HF. unfold read_page. apply Forall2_take.
  induction HF as [|k m l l' Hc HF IH]; [done|]. pose proof Hc as (i & _ & Hi).
  cbn [List.filter]. destruct (counterpart_marks _ _ _ Hi) as (_ & _ & _ & ->).
  destruct (match cursor with Some c => _ | None => _ end); [by constructor|done].
Qed.

Lemma call_steps room s m granted c :
  lockstep (weight c + room) s m -> (0 <= room)%Z -> (0 < permits st)%Z ->
  portable granted c -> (granted = true -> Memory.fence m <> 0%Z) ->
  NoDup (event_id <$> Memory.events (perform c m).2) -> stepped room c s m.
Proof.
  destruct c as [ev fence events|cursor limit| |]; intros Hls Hroom Hp Hport Hgr Hnd; cbn [weight] in Hls.
  - by eapply append_steps.
  - destruct Hport as [Hc Hl]. pose proof Hls as [Hinv Hheld _].
    unfold stepped, perform. simpl. split; [|by rewrite Nat.add_0_r].
    pose proof (li_increasing _ Hinv) as Hinc.
    replace (Memory.read_from cursor limit m) with (read_page (Memory.events m) cursor limit); [by apply held_page|].
    unfold Memory.read_from, read_page. f_equal. apply List.filter_ext_in. intros e He%list_elem_of_In.
    destruct cursor as [c|]; [done|]. symmetry. apply Z.ltb_lt. simpl.
    apply (list_elem_of_fmap_2 global_sequence) in He. rewrite <-(held_seqs _ _ _ Hheld) in He.
    apply list_elem_of_fmap in He as (k & -> & Hk). eapply increasing_lower; [exact Hinc|done].
  - pose proof Hls as [Hinv Hheld _]. unfold stepped, perform. simpl. split; [|by rewrite Nat.add_0_r].
    rewrite kernel_watermark by done. unfold Memory.watermark.
    rewrite <-!fmap_last. by rewrite (held_seqs _ _ _ Hheld).
  - pose proof Hls as [Hinv Hheld (w & (Hw & He & Hc & Hft) & Hq & Hf & Hn0 & Hn & Hf0 & Hfn)].
    assert (1 <= default 0 (w_fence_token w) + 1 <= u64_max)%Z as Htok by lia.
    unfold stepped, perform. simpl es_grant_fence. unfold kernel_grant_fence, grant_fence. rewrite Hw. cbn zeta.
    rewrite !(proj2 (Z.leb_le _ _)) by lia. cbn [andb ensure mbind result_bind].
    rewrite Numeric.from_to_numeric_text by (unfold is_u64; lia). cbn.
    unfold Memory.wrap_u64. rewrite Z.mod_small by lia. split; [by rewrite Hf|].
    split; [|split; [lia|lia]]. split; simpl.
    + destruct Hinv as [Hiw ? ? ? ?]. split; try done. destruct Hiw as (w' & Hw' & ?). simplify_eq. by eexists.
    + eapply Forall2_impl; [exact Hheld|]. intros ??. apply held_later. lia.
    + eexists. split; [split_and!; [done|done|done|]|]; simpl; [intros f [= <-]; lia|]. split_and!; lia.
Qed.

(** The reference store's log only grows. *)
Lemma perform_grows (c : Call V) (m : Memory.Inner) : exists rows, Memory.events (perform c m).2 = Memory.events m ++ rows.
Proof.
  destruct c as [ev fence events|cursor limit| |]; unfold perform; simpl;
    try (exists []; by rewrite app_nil_r).
  destruct (Memory.append ev fence events m) as [[rows m']|e] eqn:Ha; [|exists []; by rewrite app_nil_r].
  unfold Memory.append in Ha. cbn zeta in Ha. inv_ok. destruct (Memory.assign _ _) as [rows0 q]. injection Ha as <- <-. by eexists.
Qed.

Lemma perform_all_grows (calls : list (Call V)) (m : Memory.Inner) :
  exists rows, Memory.events (perform_all calls m).2 = Memory.events m ++ rows.
Proof.
  revert m. induction calls as [|c calls IH]; intros m; [exists []; by rewrite app_nil_r|].
  cbn [perform_all]. destruct (perform_grows c m) as (rows & Hr). destruct (perform c m) as [a m'].
  destruct (IH m') as (rows' & Hr'). destruct (perform_all calls m') as [answers m'']. simpl in *.
  exists (rows ++ rows'). by rewrite Hr', Hr, app_assoc.
Qed.

Lemma calls_step calls room s m granted :
  lockstep (weights calls + room) s m -> (0 <= room)%Z -> (0 < permits st)%Z ->
  all_portable granted calls -> (granted = true -> Memory.fence m <> 0%Z) ->
  NoDup (event_id <$> Memory.events (perform_all calls m).2) ->
  let '(ks, s') := perform_all (H := kernel_store st clock) calls s in
  let '(ms, m') := perform_all calls m in
  all_alike (tick_count s) calls ks ms /\ lockstep room s' m'.
Proof.
  revert s m granted. induction calls as [|c calls IH]; intros s m granted Hls Hroom Hp Hport Hgr Hnd; [done|].
  destruct Hport as [Hpc Hport]. cbn [perform_all] in *.
  unfold weights in Hls. rewrite fmap_cons in Hls. cbn [foldr] in Hls. fold (weights calls) in Hls.
  assert (0 <= weights calls)%Z as Hw.
  { clear. unfold weights. induction calls as [|[] calls IH]; cbn; unfold weight in *; lia. }
  rewrite <-Z.add_assoc in Hls.
  assert (stepped (weights calls + room) c s m) as Hst.
  { eapply call_steps; [done|lia|done|done|done|].
    destruct (perform c m) as [a m']. destruct (perform_all_grows calls m') as (rows & Hr).
    destruct (perform_all calls m') as [answers m'']. simpl in *. rewrite Hr, fmap_app in Hnd.
    by apply NoDup_app in Hnd as (? & _). }
  unfold stepped in Hst. destruct (perform c s) as [k s'], (perform c m) as [a m'].
  destruct Hst as (Ha & Hls' & Ht & Hz).
  specialize (IH s' m' (granted || grants c)%bool Hls' Hroom Hp Hport).
  destruct (perform_all calls s') as [ks s''], (perform_all calls m') as [ms m''].
  destruct IH as [Hall Hfin]; [|done|].
  - intros Hg Hm0. destruct (Hz Hm0) as [Hm Hgc]. rewrite Hgc, orb_false_r in Hg. by apply Hgr.
  - cbn [all_alike]. by rewrite <-Ht.
Qed.
End Lockstep.

Section Matching.
Context `{TZ : Timestamptz} {V : Type} `{SD : Serde V}.
Notation event := (EventEnvelope V).

(** C11: A kernel store whose writer has just been claimed answers any
    sequence of appends, reads, watermarks and fence grants as the reference
    store of the conformance suite does: the same rows with the same global
    sequences, the kernel's with the payload and the time it occurred as its
    columns give them back and stamped with the time of the transaction that
    committed them; the same tokens and watermarks; and the same refusals,
    version conflict, malformed batch and stale fence, except that a batch at
    fault both in its versions and in its token is called malformed by the one
    and fenced by the other.  The events are unkeyed and fit their columns, no
    append presents a token before one was granted, no two events the reference
    store holds share an id, and the counters do not run out. *)
Theorem kernel_store_matches_reference inflight t0 (st : @Store _ V) db clock (calls : list (Call V)) :
  with_capacity inflight (initial_db t0) = Ok (st, db) -> (0 < inflight)%Z ->
  all_portable false calls -> (weights calls < u64_max)%Z ->
  NoDup (event_id <$> Memory.events (perform_all calls Memory.new).2) ->
  let kernel := perform_all (H := kernel_store st clock) calls {| tick_count := 0; session_db := db |} in
  let reference := perform_all calls Memory.new in
  all_alike clock 0 calls kernel.1 reference.1 /\
  Forall2 (held clock (tick_count kernel.2)) (log (session_db kernel.2)) (Memory.events reference.2).
Proof.
  intros Hc Hp Hport Hw Hnd kernel reference.
  assert (lockstep st clock (weights calls + 0) {| tick_count := 0; session_db := db |} Memory.new) as Hls.
  { destruct (claimed_fresh _ _ _ _ clock Hc Hp) as [(Hinv & _ & _) _ _ _].
    injection Hc as <- <-. split; [done|by constructor|]. eexists. split; [by split_and!|]. simpl.
    split_and!; (done || lia). }
  assert (0 < permits st)%Z as Hst by (by injection Hc as <- <-).
  pose proof (calls_step st clock calls 0 _ _ false Hls) as Hstep. subst kernel reference.
  destruct (perform_all calls {| tick_count := 0; session_db := db |}) as [ks s'].
  destruct (perform_all calls Memory.new) as [ms m'].
  destruct Hstep as [Hall Hfin]; [done..|]. split; [done|]. apply (ls_held _ _ _ _ _ Hfin).
Qed.
End Matching.
