(* ===== verification/Project.v ===== *)
(** * Event to projection rows (gwk-kernel/src/project.rs)

    [apply_event] derives every column from the event alone: the payload is the
    command body that caused it, the row's version is the event's aggregate
    version and the timestamps are the event's [appended_at].  Its match on the
    command is split here by aggregate, one function per group of arms.
    [write_receipt] and [page_attention] are the two writers the command path
    calls directly.

    A refusal keeps its wire code and its detail object; the human message is
    not modelled. *)

From S2P Require Import Prelude Text Fsm Envelope Command Tables Db Store.

(** ** Refusals *)

Inductive DetailValue := DNum (n : Z) | DStr (s : string).

Record Refusal := { code : KernelErrorCode; detail : option (list (string * DetailValue)) }.

#[export] Instance DetailValue_eq_dec : EqDecision DetailValue.
Proof. solve_decision. Defined.
#[export] Instance Refusal_eq_dec : EqDecision Refusal.
Proof. solve_decision. Defined.

Definition refuse (c : KernelErrorCode) : Refusal := {| code := c; detail := None |}.
Definition with_detail (r : Refusal) (d : list (string * DetailValue)) : Refusal :=
  {| code := code r; detail := Some d |}.
Definition validation : Refusal := refuse EValidation.
Definition not_found : Refusal := refuse ENotFound.
Definition storage : Refusal := refuse EStorage.

(** [impl From<AppendError> for Refusal]. *)
Definition of_append_error (e : AppendError) : Refusal :=
  match e with
  | VersionConflict actual expected =>
      with_detail (refuse EStaleVersion) [("actual", DNum actual); ("expected", DNum expected)]
  | Fenced presented current =>
      with_detail (refuse EFenced)
        [("presented", DStr (Numeric.to_numeric_text presented));
         ("current", DStr (Numeric.to_numeric_text current))]
  | MalformedBatch => validation
  | StorageFailure => storage
  end.

(** [db]: a foreign key that does not resolve is the caller's, the rest is the
    backend's. *)
Definition db_error (e : SqlError) : Refusal :=
  match e with FkViolation => not_found | SqlFailure => storage end.

(** [require_one]. *)
Definition require_one (rows_affected : Z) : result Refusal unit :=
  if (rows_affected =? 1)%Z then Ok tt
  else if (rows_affected =? 0)%Z then Err not_found
  else Err storage.

(** SQL's [coalesce(new, old)]. *)
Definition coalesce {A} (new old : option A) : option A :=
  match new with Some _ => new | None => old end.

(** [is_context_aggregate], over [ContextAggregate::ALL]. *)
Definition is_context_aggregate (ty : string) : bool :=
  bool_decide (ty ∈ ["context_manifest"; "context_run"; "context_optimization"]).

Section Project.
Context `{TZ : Timestamptz} {V : Type} `{SD : Serde V}.
Notation event := (EventEnvelope V).
Notation P := (Proj instant V).
Notation database := (Db instant V).

(** [$n::timestamptz] of a bound text. *)
Definition ts (s : string) : result Refusal instant := ok_or (ts_parse s) storage.
Definition ts_opt (s : option string) : result Refusal (option instant) :=
  match s with Some s => t ← ts s; mret (Some t) | None => mret None end.

(** One INSERT, and one UPDATE that must have found its row. *)
Definition ins {R} (t : Table P R) (id : string) (row : R) (p : P) : result Refusal P :=
  map_err db_error (sql_insert t id row p).
Definition upd {R} (t : Table P R) (id : string) (f : R -> R) (p : P) : result Refusal P :=
  '(n, p') ← map_err db_error (sql_update t id f p);
  _ ← require_one n;
  mret p'.

(** The same, when a SET expression casts a text of the command: it is evaluated
    for the row WHERE selects, so not at all when there is none. *)
Definition upd_cast {R A} (t : Table P R) (id : string) (cast : result Refusal A)
    (f : A -> R -> R) (p : P) : result Refusal P :=
  match t_get t p !! id with
  | None => Err not_found
  | Some _ => a ← cast; upd t id (f a) p
  end.

(** ** Task *)

Definition project_task (e : event) (c : KernelCommand V) (p : P) : result Refusal P :=
  match c with
  | CreateTask task_id kind title spec_ref project priority tracker_ref =>
      at' ← ts (appended_at e);
      ins task_table task_id
        {| task_version := aggregate_version e; task_state := "submitted"; task_kind := kind;
           task_title := title; task_spec_ref := spec_ref; task_project := project;
           task_priority := priority; task_tracker_ref := tracker_ref;
           task_created_at := at'; task_updated_at := at' |} p
  | TransitionTask task_id to _ =>
      at' ← ts (appended_at e);
      upd task_table task_id
        (fun r => set_task_state (wire_name to)
                    (set_task_version (aggregate_version e) (set_task_updated_at at' r))) p
  | _ => mret p
  end.

(** ** Attempt *)

Definition project_attempt (e : event) (c : KernelCommand V) (p : P) : result Refusal P :=
  at' ← ts (appended_at e);
  let touch r := set_attempt_version (aggregate_version e) (set_attempt_updated_at at' r) in
  match c with
  | CreateAttempt attempt_id task_id engine capability role model_lane permission_profile
      worktree_lease_id base_sha budget =>
      ins attempt_table attempt_id
        {| attempt_version := aggregate_version e; attempt_state := "queued";
           attempt_task_id := task_id; attempt_engine := engine;
           attempt_capability := capability; attempt_role := role;
           attempt_model_lane := model_lane; attempt_permission_profile := permission_profile;
           attempt_worktree_lease_id := worktree_lease_id; attempt_base_sha := base_sha;
           attempt_budget := budget; attempt_provider_session_ref := None;
           attempt_runtime_ref := None; attempt_runtime_started_at := None;
           attempt_exit_code := None; attempt_provider_terminal_event := None;
           attempt_result_valid := None; attempt_evidence_manifest_ref := None;
           attempt_created_at := at'; attempt_updated_at := at' |} p
  | TransitionAttempt attempt_id to _ _ =>
      upd attempt_table attempt_id (fun r => set_attempt_state (wire_name to) (touch r)) p
  | UpdateBudget attempt_id _ budget =>
      upd attempt_table attempt_id (fun r => set_attempt_budget (Some budget) (touch r)) p
  | RecordAttemptRuntime attempt_id _ runtime_ref runtime_started_at =>
      upd_cast attempt_table attempt_id (ts runtime_started_at)
        (fun started r => set_attempt_runtime_ref (Some runtime_ref)
                    (set_attempt_runtime_started_at (Some started) (touch r))) p
  | RecordAttemptOutcome attempt_id _ exit_code provider_terminal_event result_valid
      evidence_manifest_ref =>
      upd attempt_table attempt_id
        (fun r =>
           set_attempt_exit_code (coalesce exit_code (attempt_exit_code r))
           (set_attempt_provider_terminal_event
              (coalesce provider_terminal_event (attempt_provider_terminal_event r))
           (set_attempt_result_valid (coalesce result_valid (attempt_result_valid r))
           (set_attempt_evidence_manifest_ref
              (coalesce evidence_manifest_ref (attempt_evidence_manifest_ref r)) (touch r))))) p
  | RecordRound attempt_id _ _ | RecordFinding attempt_id _ _ _ _ =>
      upd attempt_table attempt_id touch p
  | _ => mret p
  end.

(** ** Engine session *)

Definition project_engine_session (e : event) (c : KernelCommand V) (p : P) : result Refusal P :=
  at' ← ts (appended_at e);
  match c with
  | OpenEngineSession engine_session_id attempt_id engine provider_session_ref =>
      ins engine_session_table engine_session_id
        {| es_attempt_id := attempt_id; es_engine := engine;
           es_provider_session_ref := provider_session_ref;
           es_started_at := at'; es_ended_at := None |} p
  | CloseEngineSession engine_session_id =>
      upd engine_session_table engine_session_id (set_es_ended_at (Some at')) p
  | _ => mret p
  end.

(** ** Lease *)

Definition project_lease (e : event) (c : KernelCommand V) (p : P) : result Refusal P :=
  at' ← ts (appended_at e);
  let touch r := set_lease_version (aggregate_version e) (set_lease_updated_at at' r) in
  match c with
  | AcquireLease lease_id mode holder scope repo path branch base_sha expires_at =>
      expires ← ts_opt expires_at;
      ins lease_table lease_id
        {| lease_version := aggregate_version e; lease_state := "held";
           lease_mode := lease_mode_wire mode; lease_holder := holder; lease_scope := scope;
           lease_repo := repo; lease_path := path; lease_branch := branch;
           lease_base_sha := base_sha; lease_fence_token := None; lease_heartbeat_at := None;
           lease_expires_at := expires; lease_dirty := false; lease_unpushed := false;
           lease_disposition := None; lease_created_at := at'; lease_updated_at := at' |} p
  | RenewLease lease_id _ expires_at =>
      upd_cast lease_table lease_id (ts_opt expires_at)
        (fun expires r => set_lease_expires_at (coalesce expires (lease_expires_at r))
                    (set_lease_heartbeat_at (Some at') (touch r))) p
  | ReleaseLease lease_id _ disposition =>
      upd lease_table lease_id
        (fun r => set_lease_state "released"
                    (set_lease_disposition (coalesce disposition (lease_disposition r)) (touch r))) p
  | ExpireLease lease_id _ =>
      upd lease_table lease_id (fun r => set_lease_state "expired" (touch r)) p
  | _ => mret p
  end.

(** ** Worktree *)

Definition project_worktree (e : event) (c : KernelCommand V) (p : P) : result Refusal P :=
  match c with
  | RegisterWorktree worktree_id repo path branch base_sha lease_id =>
      at' ← ts (appended_at e);
      ins worktree_table worktree_id
        {| worktree_repo := repo; worktree_path := path; worktree_branch := branch;
           worktree_base_sha := base_sha; worktree_lease_id := lease_id;
           worktree_dirty := false; worktree_unpushed := false; worktree_released_at := None;
           worktree_disposition := None; worktree_created_at := at' |} p
  | UpdateWorktree worktree_id dirty unpushed base_sha =>
      upd worktree_table worktree_id
        (fun r => set_worktree_dirty dirty (set_worktree_unpushed unpushed
                    (set_worktree_base_sha (coalesce base_sha (worktree_base_sha r)) r))) p
  | ReleaseWorktree worktree_id disposition =>
      at' ← ts (appended_at e);
      upd worktree_table worktree_id
        (fun r => set_worktree_released_at (Some at')
                    (set_worktree_disposition (coalesce disposition (worktree_disposition r)) r)) p
  | _ => mret p
  end.

(** ** Dispatch tree *)

Definition project_dispatch (e : event) (c : KernelCommand V) (p : P) : result Refusal P :=
  at' ← ts (appended_at e);
  match c with
  | RegisterDispatchNode dispatch_node_id parent_id attempt_id kind label =>
      ins dispatch_node_table dispatch_node_id
        {| dispatch_version := aggregate_version e; dispatch_parent_id := parent_id;
           dispatch_attempt_id := attempt_id; dispatch_kind := kind;
           dispatch_state := DISPATCH_NODE_INITIAL_STATE; dispatch_label := label;
           dispatch_created_at := at'; dispatch_updated_at := at' |} p
  | TransitionDispatchNode dispatch_node_id to _ =>
      upd dispatch_node_table dispatch_node_id
        (fun r => set_dispatch_state to
                    (set_dispatch_version (aggregate_version e) (set_dispatch_updated_at at' r))) p
  | _ => mret p
  end.

(** ** Orchestrator checkpoint: the latest per orchestrator, an upsert *)

Definition upsert_checkpoint (id : string) (row : OrchCheckpointRow instant) (p : P)
  : result Refusal P :=
  match orch_checkpoints p !! id with
  | None => ins orch_checkpoint_table id row p
  | Some _ =>
      _ ← map_err db_error (ensure (t_check (orch_checkpoint_table (V := V)) row) SqlFailure);
      '(_, p') ← map_err db_error (sql_update orch_checkpoint_table id (fun _ => row) p);
      mret p'
  end.

Definition project_checkpoint (e : event) (c : KernelCommand V) (p : P) : result Refusal P :=
  match c with
  | WriteOrchestratorCheckpoint ck =>
      orchestrator_id ← ok_or (oc_orchestrator_id ck) validation;
      at' ← ts (appended_at e);
      upsert_checkpoint orchestrator_id
        {| ocp_seq := oc_seq ck; ocp_native_session_ref := oc_native_session_ref ck;
           ocp_active_goal := oc_active_goal ck; ocp_active_step_ref := oc_active_step_ref ck;
           ocp_latest_command_ref := oc_latest_command_ref ck;
           ocp_open_attempts := oc_open_attempts ck; ocp_leases := oc_leases ck;
           ocp_pending_approvals := oc_pending_approvals ck;
           ocp_budget_cursor := oc_budget_cursor ck; ocp_updated_at := at' |} p
  | _ => mret p
  end.

(** ** Message *)

Definition project_message (e : event) (c : KernelCommand V) (p : P) : result Refusal P :=
  match c with
  | SendMessage message_id correlation_id reply_to sender recipient channel kind body deadline =>
      key ← ok_or (idempotency_key e) validation;
      due ← ts_opt deadline;
      at' ← ts (appended_at e);
      ins message_table message_id
        {| message_version := aggregate_version e; message_state := "accepted";
           message_idempotency_key := key; message_correlation_id := correlation_id;
           message_reply_to := reply_to; message_sender := sender;
           message_recipient := recipient; message_channel := channel; message_kind := kind;
           message_payload := jsonb <$> body; message_deadline := due; message_delivery_attempts := 0;
           message_dead_letter_reason := None; message_delivery_refs := None;
           message_created_at := at'; message_updated_at := at' |} p
  | TransitionMessage message_id to _ dead_letter_reason =>
      at' ← ts (appended_at e);
      upd message_table message_id
        (fun r => set_message_state (wire_name to)
                    (set_message_version (aggregate_version e) (set_message_updated_at at'
                       (set_message_dead_letter_reason
                          (coalesce dead_letter_reason (message_dead_letter_reason r)) r)))) p
  | _ => mret p
  end.

(** ** Execution command *)

Definition project_exec_command (e : event) (c : KernelCommand V) (p : P) : result Refusal P :=
  at' ← ts (appended_at e);
  let touch r := set_cmd_version (aggregate_version e) (set_cmd_updated_at at' r) in
  match c with
  | IssueCommand command_id kind targets issuer =>
      ins command_table command_id
        {| cmd_version := aggregate_version e; cmd_state := "issued"; cmd_kind := kind;
           cmd_target := head targets; cmd_actor := issuer;
           cmd_idempotency_key := idempotency_key e; cmd_outcome := None;
           cmd_created_at := at'; cmd_updated_at := at' |} p
  | TransitionCommand command_id to _ =>
      upd command_table command_id (fun r => set_cmd_state (wire_name to) (touch r)) p
  | RecordCommandOutcome command_id _ outcome =>
      upd command_table command_id
        (fun r => set_cmd_state "verification_complete"
                    (set_cmd_outcome (Some (outcome_wire outcome)) (touch r))) p
  | _ => mret p
  end.

(** ** Gate *)

Definition project_gate (e : event) (c : KernelCommand V) (p : P) : result Refusal P :=
  at' ← ts (appended_at e);
  match c with
  | OpenGate gate_id attempt_id phase_ref kind question options =>
      ins gate_table gate_id
        {| gate_version := aggregate_version e; gate_attempt_id := attempt_id;
           gate_phase_ref := phase_ref; gate_kind := kind; gate_question := question;
           gate_options := options; gate_verdict := "pending"; gate_chosen_option := None;
           gate_decided_by := None; gate_evidence_ref := None;
           gate_created_at := at'; gate_updated_at := at' |} p
  | DecideGate gate_id _ verdict chosen_option evidence_ref =>
      let decided_by := if bool_decide (verdict = VerdictPending) then None else Some (actor e) in
      upd gate_table gate_id
        (fun r => set_gate_verdict (verdict_wire verdict)
                    (set_gate_chosen_option chosen_option (set_gate_decided_by decided_by
                       (set_gate_version (aggregate_version e) (set_gate_updated_at at'
                          (set_gate_evidence_ref (coalesce evidence_ref (gate_evidence_ref r)) r)))))) p
  | _ => mret p
  end.

(** ** Evidence and the spend ledger: rows written once *)

Definition project_evidence (e : event) (c : KernelCommand V) (p : P) : result Refusal P :=
  at' ← ts (appended_at e);
  match c with
  | RecordEvidence evidence_id kind ref digest byte_size =>
      ins evidence_table evidence_id
        {| evidence_kind := kind; evidence_ref := ref; evidence_digest := digest;
           evidence_byte_size := byte_size; evidence_created_at := at' |} p
  | RecordCostEntry cost_entry_id attempt_id engine_session_id dispatch_node_id engine model
      input_tokens cached_input_tokens cache_write_tokens output_tokens reasoning_tokens
      cost_micros cost_is_estimate =>
      ins cost_entry_table cost_entry_id
        {| cost_attempt_id := attempt_id; cost_engine_session_id := engine_session_id;
           cost_dispatch_node_id := dispatch_node_id; cost_engine := engine; cost_model := model;
           cost_input_tokens := input_tokens; cost_cached_input_tokens := cached_input_tokens;
           cost_cache_write_tokens := cache_write_tokens; cost_output_tokens := output_tokens;
           cost_reasoning_tokens := reasoning_tokens; cost_micros := cost_micros;
           cost_is_estimate := cost_is_estimate; cost_recorded_at := at' |} p
  | _ => mret p
  end.

(** ** Authority *)

Definition project_authority (e : event) (c : KernelCommand V) (p : P) : result Refusal P :=
  at' ← ts (appended_at e);
  match c with
  | GrantAuthority authority_grant_id grantee action_class scope expires_at =>
      expires ← ts_opt expires_at;
      ins authority_grant_table authority_grant_id
        {| grant_grantee := grantee; grant_action_class := action_class; grant_scope := scope;
           grant_granted_at := at'; grant_expires_at := expires; grant_revoked_at := None;
           grant_revoke_reason := None; grant_receipt_id := None |} p
  | RevokeAuthority authority_grant_id reason =>
      upd authority_grant_table authority_grant_id
        (fun r => set_grant_revoked_at (Some at')
                    (set_grant_revoke_reason (coalesce reason (grant_revoke_reason r)) r)) p
  | _ => mret p
  end.

(** ** Attention *)

Definition project_attention (e : event) (c : KernelCommand V) (p : P) : result Refusal P :=
  match c with
  | RaiseAttention attention_item_id kind summary subject_ref raised_by priority =>
      at' ← ts (appended_at e);
      ins attention_table attention_item_id
        {| attn_kind := kind; attn_summary := summary; attn_subject_ref := subject_ref;
           attn_raised_by := raised_by; attn_priority := priority; attn_raised_at := at';
           attn_acked_at := None; attn_muted_until := None; attn_resolved_at := None;
           attn_resolution := None |} p
  | ResolveAttention attention_item_id resolution =>
      at' ← ts (appended_at e);
      (* WHERE id = $1 AND resolved_at IS NULL *)
      match attention_items p !! attention_item_id with
      | Some item =>
          if is_some (attn_resolved_at item) then Err not_found
          else upd attention_table attention_item_id
                 (fun r => set_attn_resolved_at (Some at')
                             (set_attn_resolution (coalesce resolution (attn_resolution r)) r)) p
      | None => Err not_found
      end
  | AckAttention attention_item_id =>
      at' ← ts (appended_at e);
      upd attention_table attention_item_id (set_attn_acked_at (Some at')) p
  | MuteAttention attention_item_id muted_until =>
      upd_cast attention_table attention_item_id (ts muted_until)
        (fun until => set_attn_muted_until (Some until)) p
  | UnmuteAttention attention_item_id =>
      upd attention_table attention_item_id (set_attn_muted_until None) p
  | _ => mret p
  end.

(** ** Workspace tree *)

Definition project_workspace (e : event) (c : KernelCommand V) (p : P) : result Refusal P :=
  match c with
  | CreateWorkspaceNode workspace_node_id kind parent_id session_id =>
      at' ← ts (appended_at e);
      ins workspace_node_table workspace_node_id
        {| node_version := aggregate_version e; node_kind := node_kind_str kind;
           node_parent_id := parent_id; node_session_id := session_id;
           node_created_at := at'; node_updated_at := at' |} p
  | MoveWorkspaceNode workspace_node_id parent_id _ =>
      at' ← ts (appended_at e);
      upd workspace_node_table workspace_node_id
        (fun r => set_node_parent_id (Some parent_id)
                    (set_node_version (aggregate_version e) (set_node_updated_at at' r))) p
  | RebindWorkspacePane workspace_node_id session_id _ =>
      at' ← ts (appended_at e);
      upd workspace_node_table workspace_node_id
        (fun r => set_node_session_id (Some session_id)
                    (set_node_version (aggregate_version e) (set_node_updated_at at' r))) p
  | CloseWorkspaceNode workspace_node_id _ =>
      '(n, p') ← map_err db_error (delete_workspace_node workspace_node_id p);
      _ ← require_one n;
      mret p'
  | _ => mret p
  end.

(** ** Workflow runs *)

Definition project_workflow (e : event) (c : KernelCommand V) (p : P) : result Refusal P :=
  at' ← ts (appended_at e);
  let touch r := set_run_version (aggregate_version e) (set_run_updated_at at' r) in
  match c with
  | OpenWorkflowRun workflow_run_id template_ref template_sha256 task_id title =>
      ins workflow_run_table workflow_run_id
        {| run_version := aggregate_version e; run_state := "running"; run_step := None;
           run_template_ref := template_ref; run_template_sha256 := template_sha256;
           run_task_id := task_id; run_title := title; run_opened_at := at';
           run_updated_at := at'; run_closed_at := None |} p
  | AdvanceWorkflowRun workflow_run_id step _ =>
      upd workflow_run_table workflow_run_id (fun r => set_run_step (Some step) (touch r)) p
  | CloseWorkflowRun workflow_run_id outcome _ =>
      upd workflow_run_table workflow_run_id
        (fun r => set_run_state outcome (set_run_closed_at (Some at') (touch r))) p
  | _ => mret p
  end.

(** ** PTY sessions *)

Definition project_pty_session (e : event) (c : KernelCommand V) (p : P) : result Refusal P :=
  at' ← ts (appended_at e);
  let touch r := set_pty_version (aggregate_version e) (set_pty_updated_at at' r) in
  match c with
  | OpenPtySession pty_session_id generation engine_session_id title =>
      ins pty_session_table pty_session_id
        {| pty_version := aggregate_version e; pty_state := "running";
           pty_generation := generation; pty_engine_session_id := engine_session_id;
           pty_attach_count := 0; pty_detach_count := 0; pty_title := title;
           pty_opened_at := at'; pty_updated_at := at'; pty_closed_at := None |} p
  | RecordPtyAttach pty_session_id _ =>
      upd pty_session_table pty_session_id
        (fun r => set_pty_attach_count (pty_attach_count r + 1) (touch r)) p
  | RecordPtyDetach pty_session_id _ =>
      upd pty_session_table pty_session_id
        (fun r => set_pty_detach_count (pty_detach_count r + 1) (touch r)) p
  | SendPtyInput pty_session_id generation _
  | ResizePtySession pty_session_id generation _ _
  | StopPtySession pty_session_id generation =>
      upd pty_session_table (pty_session_lifetime_id pty_session_id generation) touch p
  | ClosePtySession pty_session_id _ =>
      upd pty_session_table pty_session_id
        (fun r => set_pty_state "closed" (set_pty_closed_at (Some at') (touch r))) p
  | _ => mret p
  end.

Definition project_pty_template (e : event) (c : KernelCommand V) (p : P) : result Refusal P :=
  at' ← ts (appended_at e);
  match c with
  | DeclarePtySessionTemplate template_name command args cwd env cols rows =>
      ins pty_template_table template_name
        {| tpl_version := aggregate_version e; tpl_state := "active"; tpl_command := command;
           tpl_args := args; tpl_cwd := cwd; tpl_env := env; tpl_cols := cols; tpl_rows := rows;
           tpl_declared_at := at'; tpl_updated_at := at'; tpl_retired_at := None |} p
  | RetirePtySessionTemplate template_name _ =>
      upd pty_template_table template_name
        (fun r => set_tpl_state "retired" (set_tpl_version (aggregate_version e)
                    (set_tpl_retired_at (Some at') (set_tpl_updated_at at' r)))) p
  | _ => mret p
  end.

(** ** Ingestion *)

Definition project_ingest (e : event) (c : KernelCommand V) (p : P) : result Refusal P :=
  match c with
  | IngestRecord kind body body_ref =>
      at' ← ts (appended_at e);
      ins ingested_record_table (aggregate_id e)
        {| ing_kind := ingestion_str kind; ing_payload := jsonb body; ing_payload_ref := body_ref;
           ing_ingested_by := Some (actor e); ing_event_seq := global_sequence e;
           ing_ingested_at := at' |} p
  | _ => mret p
  end.

(** ** The applier *)

(** The whole match of [apply_event] on the decoded command. *)
Definition project_command (e : event) (c : KernelCommand V) (p : P) : result Refusal P :=
  match c with
  | CreateTask _ _ _ _ _ _ _ | TransitionTask _ _ _ => project_task e c p
  | CreateAttempt _ _ _ _ _ _ _ _ _ _ | TransitionAttempt _ _ _ _ | UpdateBudget _ _ _
  | RecordAttemptRuntime _ _ _ _ | RecordAttemptOutcome _ _ _ _ _ _ | RecordRound _ _ _
  | RecordFinding _ _ _ _ _ => project_attempt e c p
  | OpenEngineSession _ _ _ _ | CloseEngineSession _ => project_engine_session e c p
  | AcquireLease _ _ _ _ _ _ _ _ _ | RenewLease _ _ _ | ReleaseLease _ _ _
  | ExpireLease _ _ => project_lease e c p
  | RegisterWorktree _ _ _ _ _ _ | UpdateWorktree _ _ _ _ | ReleaseWorktree _ _ =>
      project_worktree e c p
  | RegisterDispatchNode _ _ _ _ _ | TransitionDispatchNode _ _ _ => project_dispatch e c p
  | WriteOrchestratorCheckpoint _ => project_checkpoint e c p
  | SendMessage _ _ _ _ _ _ _ _ _ | TransitionMessage _ _ _ _ => project_message e c p
  | IssueCommand _ _ _ _ | TransitionCommand _ _ _ | RecordCommandOutcome _ _ _ =>
      project_exec_command e c p
  | OpenGate _ _ _ _ _ _ | DecideGate _ _ _ _ _ => project_gate e c p
  | RecordEvidence _ _ _ _ _ | RecordCostEntry _ _ _ _ _ _ _ _ _ _ _ _ _ =>
      project_evidence e c p
  | GrantAuthority _ _ _ _ _ | RevokeAuthority _ _ => project_authority e c p
  | RaiseAttention _ _ _ _ _ _ | ResolveAttention _ _ | AckAttention _ | MuteAttention _ _
  | UnmuteAttention _ => project_attention e c p
  | CreateWorkspaceNode _ _ _ _ | MoveWorkspaceNode _ _ _ | RebindWorkspacePane _ _ _
  | CloseWorkspaceNode _ _ => project_workspace e c p
  | OpenWorkflowRun _ _ _ _ _ | AdvanceWorkflowRun _ _ _ | CloseWorkflowRun _ _ _ =>
      project_workflow e c p
  | OpenPtySession _ _ _ _ | RecordPtyAttach _ _ | RecordPtyDetach _ _ | SendPtyInput _ _ _
  | ResizePtySession _ _ _ _ | StopPtySession _ _ | ClosePtySession _ _ =>
      project_pty_session e c p
  | DeclarePtySessionTemplate _ _ _ _ _ _ _ | RetirePtySessionTemplate _ _ =>
      project_pty_template e c p
  | RequestPtySessionStart _ _ | ActivateKernel _ _ => mret p
  | IngestRecord _ _ _ => project_ingest e c p
  end.

(** [apply_event].  Context events carry no command body and go to the Context
    projector, which is a component of its own: [apply_context_event] is its
    entry point. *)
Definition apply_event (apply_context_event : event -> P -> result Refusal P) (e : event) (p : P)
  : result Refusal P :=
  if is_context_aggregate (aggregate_type e) then apply_context_event e p
  else
    command ← ok_or (deserialize (payload e)) storage;
    project_command e command p.

(** ** The two writers outside the applier *)

Record Receipt := {
  receipt_id : string;
  receipt_actor : Actor;
  receipt_action : string;
  receipt_subject_type : string;
  receipt_subject_id : string;
  receipt_from : option string;
  receipt_to : option string;
  receipt_observed_basis : option string;
  receipt_ts : string;
}.

#[export] Instance ReceiptRow_eq_dec : EqDecision (ReceiptRow instant).
Proof. solve_decision. Defined.

(** [write_receipt]: the first attestation under an id stands, an identical one
    is a no-op and a different one a conflict. *)
Definition write_receipt (r : Receipt) (db : database) : result Refusal database :=
  at' ← ts (receipt_ts r);
  let row := {| rc_actor := receipt_actor r; rc_action := receipt_action r;
                rc_subject_type := receipt_subject_type r; rc_subject_id := receipt_subject_id r;
                rc_from_state := receipt_from r; rc_to_state := receipt_to r;
                rc_observed_basis := receipt_observed_basis r; rc_ts := at' |} in
  match receipts db !! receipt_id r with
  | None => mret (set_receipts (<[receipt_id r := row]> (receipts db)) db)
  | Some stored =>
      _ ← ensure (bool_decide (stored = row)) (refuse EIdempotencyConflict);
      mret db
  end.

(** The unresolved items that hold the slot of a kind and a subject. *)
Definition open_items (p : P) (kind : string) (subject_ref : option string) : list string :=
  (map_to_list (filter (fun '(_, r) => holds_slot kind subject_ref r = true) (attention_items p))).*1.

(** [page_attention]: joins the open item of its slot, or raises one. *)
Definition page_attention (attention_item_id summary subject_ref : string) (raised_by : Actor)
    (at_text : string) (p : P) : result Refusal P :=
  at' ← ts at_text;
  let kind := "authority" in
  if bool_decide (open_items p kind (Some subject_ref) = []) then
    ins attention_table attention_item_id
      {| attn_kind := kind; attn_summary := summary; attn_subject_ref := Some subject_ref;
         attn_raised_by := Some raised_by; attn_priority := None; attn_raised_at := at';
         attn_acked_at := None; attn_muted_until := None; attn_resolved_at := None;
         attn_resolution := None |} p
  else mret p.

(** [unresolved_attention]. *)
Definition unresolved_attention (kind : string) (subject_ref : option string) (p : P)
  : option string :=
  match subject_ref with
  | None => None
  | Some _ => head (open_items p kind subject_ref)
  end.

End Project.
