(* ===== verification/Authority.v ===== *)
(** * Authority and the epoch (gwk-kernel/src/authority.rs, epoch.rs)

    Which commands are gated and what the gate answers from the grants on
    record; and the kernel's own lifecycle, read off the log: genesis seals it,
    activation opens it. *)

From S2P Require Import Prelude Text Envelope Command Tables Db Store Project.

(** ** Risk classes *)

Definition RISK_CLASS : list (string * string) :=
  [("issue_command", "stop");
   ("record_evidence:config_change", "config_change");
   ("send_pty_input", PTY_INPUT_ACTION_CLASS);
   ("resize_pty_session", PTY_CONTROL_ACTION_CLASS);
   ("stop_pty_session", PTY_CONTROL_ACTION_CLASS);
   ("request_pty_session_start", PTY_START_ACTION_CLASS);
   ("declare_pty_session_template", PTY_TEMPLATE_ACTION_CLASS);
   ("retire_pty_session_template", PTY_TEMPLATE_ACTION_CLASS)].

Definition MATCHING_GRANT_BASIS : string := "matching unexpired scoped grant".
Definition OPERATOR_BASIS : string := "operator authority".
Definition UNGRANTED_BASIS : string := "no matching unexpired scoped grant".
Definition ACTOR_KIND_BASIS : string := "actor kind is neither operator nor orchestrator".

Inductive Decision :=
| Unclassified
| Allow (action_class observed_basis : string)
| Page (action_class observed_basis : string).

#[export] Instance Decision_eq_dec : EqDecision Decision.
Proof. solve_decision. Defined.

(** [Decision::action_class] zipped with [Decision::observed_basis]. *)
Definition authority_result (d : Decision) : option (string * string) :=
  match d with
  | Unclassified => None
  | Allow c b | Page c b => Some (c, b)
  end.

(** [classification_key]. *)
Definition classification_key {V} (command_type0 : string) (c : KernelCommand V) : string :=
  match c with
  | RecordEvidence _ kind _ _ _ =>
      if bool_decide (kind = "config_change") then "record_evidence:config_change"
      else command_type0
  | _ => command_type0
  end.

(** [class_of]. *)
Definition class_of (command_type0 : string) : option string :=
  snd <$> List.find (fun '(name, _) => bool_decide (name = command_type0)) RISK_CLASS.

Definition is_pty_action (action_class : string) : bool :=
  bool_decide (action_class ∈ [PTY_INPUT_ACTION_CLASS; PTY_CONTROL_ACTION_CLASS;
                               PTY_START_ACTION_CLASS; PTY_TEMPLATE_ACTION_CLASS]).

Section Authority.
Context `{TZ : Timestamptz} {V : Type} `{SD : Serde V}.
Notation event := (EventEnvelope V).
Notation P := (Proj instant V).
Notation database := (Db instant V).

(** The grants [matching_grant] selects before it looks at their expiry. *)
Definition covering_grants (p : P) (who : Actor) (action_class subject : string)
  : list (GrantRow instant) :=
  List.filter (fun g =>
      bool_decide (grant_action_class g = action_class)
      && bool_decide (grant_grantee g = who)
      && match grant_scope g with Some s => bool_decide (s = subject) | None => true end
      && negb (is_some (grant_revoked_at g)))
    (map_to_list (authority_grants p)).*2.

(** [matching_grant]: PTY actions compare expiry to the wall clock, the others
    to the command's own time, whose text is cast only when it is needed. *)
Definition matching_grant (p : P) (wall : instant) (who : Actor)
    (action_class subject issued_at : string) (live_expiry : bool) : result Refusal bool :=
  let grants := covering_grants p who action_class subject in
  if existsb (fun g => match grant_expires_at g with
                       | None => true
                       | Some x => live_expiry && instant_ltb wall x
                       end) grants then mret true
  else if live_expiry || bool_decide (grants = []) then mret false
  else
    t ← ts issued_at;
    mret (existsb (fun g => match grant_expires_at g with
                            | None => true
                            | Some x => instant_ltb t x
                            end) grants).

(** [evaluate]. *)
Definition evaluate (p : P) (wall : instant) (envelope : CommandEnvelope V)
    (command_type0 subject : string) : result Refusal Decision :=
  match class_of command_type0 with
  | None => mret Unclassified
  | Some action_class =>
      let kind := actor_kind (ce_actor envelope) in
      if is_pty_action action_class && bool_decide (kind = "operator")
      then mret (Allow action_class OPERATOR_BASIS)
      else if is_pty_action action_class && negb (bool_decide (kind = "orchestrator"))
      then mret (Page action_class ACTOR_KIND_BASIS)
      else
        allowed ← matching_grant p wall (ce_actor envelope) action_class subject
                    (ce_issued_at envelope) (is_pty_action action_class);
        mret (if allowed : bool then Allow action_class MATCHING_GRANT_BASIS
              else Page action_class UNGRANTED_BASIS)
  end.

(** ** The epoch *)

Definition KERNEL_AGGREGATE : string := "kernel".
Definition KERNEL_SINGLETON : string := "singleton".
Definition SYSTEM_PROJECT : string := "system".
Definition GENESIS_KEY : string := "kernel_initialized:v1".
Definition GENESIS_EVENT_TYPE : string := "kernel_initialized".
Definition ACTIVATION_EVENT_TYPE : string := "kernel_activated".
Definition REVISION_HEX_LEN : Z := 40.

Inductive Epoch := EpochNone | EpochSealed | EpochActive.

#[export] Instance Epoch_eq_dec : EqDecision Epoch.
Proof. solve_decision. Defined.

(** [Epoch::of_version]. *)
Definition of_version (version : Z) : Epoch :=
  if (version =? 0)%Z then EpochNone
  else if (version =? 1)%Z then EpochSealed
  else EpochActive.

(** [epoch_of]. *)
Definition epoch_of (l : list event) : result Refusal Epoch :=
  version ← map_err of_append_error
              (current_aggregate_version l KERNEL_AGGREGATE KERNEL_SINGLETON);
  mret (of_version version).

(** [ORDER BY aggregate_version LIMIT 1]. *)
Fixpoint first_by_version (l : list event) : option event :=
  match l with
  | [] => None
  | e :: l =>
      match first_by_version l with
      | Some m => if (aggregate_version m <? aggregate_version e)%Z then Some m else Some e
      | None => Some e
      end
  end.

(** [committed_cutover]. *)
Definition committed_cutover (l : list event) : option string :=
  match first_by_version
          (List.filter (fun e => in_aggregate KERNEL_AGGREGATE KERNEL_SINGLETON e
                                 && bool_decide (event_type e = ACTIVATION_EVENT_TYPE)) l) with
  | Some e => json_text (payload e) "cutover_id"
  | None => None
  end.

(** [activation_key]. *)
Definition activation_key (cutover_id : string) : string :=
  ACTIVATION_EVENT_TYPE +:+ ":" +:+ cutover_id.

(** [is_public_revision]. *)
Definition is_public_revision (value : string) : bool :=
  (Str.len value =? REVISION_HEX_LEN)%Z && Str.all_bytes is_lower_hex value.

(** [genesis_event]. *)
Definition genesis_event (public_revision at_text : string) : event := {|
  event_id := KERNEL_AGGREGATE +:+ ":" +:+ KERNEL_SINGLETON +:+ ":1";
  project_id := SYSTEM_PROJECT;
  aggregate_type := KERNEL_AGGREGATE; aggregate_id := KERNEL_SINGLETON;
  aggregate_version := 1; event_type := GENESIS_EVENT_TYPE;
  schema_version := ENVELOPE_SCHEMA_VERSION; global_sequence := 0;
  appended_at := at_text; occurred_at := at_text;
  actor := {| actor_kind := "kernel"; actor_id := None |};
  origin := {| origin_system := "gw"; origin_ref := None |};
  causation_id := None; correlation_id := None; idempotency_key := Some GENESIS_KEY;
  payload := genesis_payload CONTRACT_VERSION public_revision; payload_ref := None |}.

(** [ensure_genesis]: one transaction, a no-op on a log that has an epoch. *)
Definition ensure_genesis (st : Store (V := V)) (clock : TxClock) (public_revision : string) (db : database)
  : result Refusal database :=
  _ ← ensure (is_public_revision public_revision) validation;
  ws ← map_err of_append_error (lock_writer st clock db);
  epoch ← epoch_of (log db);
  if negb (bool_decide (epoch = EpochNone)) then mret db
  else
    '(_, db') ← map_err of_append_error
                  (append_locked clock ws 0 (ws_current_fence ws)
                     [genesis_event public_revision (ts_json (tx_now clock))] db);
    mret db'.

(** [sealed_refusal]. *)
Definition sealed_refusal : Refusal := refuse ESealed.
End Authority.
