(* ===== verification/Submit.v ===== *)
(** * The command path (gwk-kernel/src/submit.rs)

    One command envelope in, one committed event with its projection out, or a
    refusal.  The order of the steps is the design: shape checks, the writer
    lock, the epoch, the answer to a replay, ownership, authority, the decision,
    then the append and the projection in one transaction.

    [submit_tx] is the transaction: an error rolls it back, [Ok] commits the
    database it returns, together with the answer that follows the commit.  Two
    refusals commit: a page leaves its receipt and attention item, a refused PTY
    control its receipt. *)

From S2P Require Import Prelude Text Fsm Envelope Transition Command Tables Db Store Project Authority.

(** [Hmac<Sha256>]: the tag of a message under a key. *)
Class Hmac := hmac_sha256 : string -> string -> string.

Inductive PtyInputCarrier := CarrierBytes (bytes : string) | CarrierInvalid.

Record Route := { r_aggregate_type : string; r_aggregate_id : string; r_event_type : string }.

Section Submit.
Context `{TZ : Timestamptz} {V : Type} `{SD : Serde V} `{HM : Hmac}.
Context (apply_context_event : EventEnvelope V -> Proj instant V -> result Refusal (Proj instant V)).
Notation event := (EventEnvelope V).
Notation P := (Proj instant V).
Notation database := (Db instant V).
Notation command := (KernelCommand V).
Notation envelope := (CommandEnvelope V).

Inductive Prior := Unused | Replay (events : list event) | Conflict.

(** What the caller is told. *)
Inductive KernelResult :=
| CommandApplied (command_id : string) (events : list event) (watermark : Z)
| KernelError (r : Refusal).

(** What a committed transaction answers. *)
Inductive Verdict := VApplied (events : list event) | VRefused (r : Refusal).

(** ** Shape checks *)

(** [validate_pty_input_carrier]. *)
Definition validate_pty_input_carrier (c : command) (pty_input : option PtyInputCarrier)
  : result Refusal unit :=
  match c, pty_input with
  | SendPtyInput _ _ byte_count, Some (CarrierBytes bytes) =>
      _ ← ensure (negb (Str.is_empty bytes)) validation;
      _ ← ensure (Str.len bytes <=? PTY_INPUT_MAX_BYTES)%Z validation;
      ensure (Str.len bytes =? byte_count)%Z validation
  | SendPtyInput _ _ _, Some CarrierInvalid => Err validation
  | SendPtyInput _ _ _, None => Err validation
  | _, Some _ => Err validation
  | _, None => mret tt
  end.

(** [valid_environment_name]. *)
Definition valid_environment_name (name : string) : bool :=
  match name with
  | EmptyString => false
  | String b rest =>
      (Str.is_ascii_alphabetic b || (Str.code b =? 95)%Z)
      && Str.all_bytes (fun b => Str.is_ascii_alphanumeric b || (Str.code b =? 95)%Z) rest
      && (Str.len name <=? 256)%Z
  end.

(** [validate_pty_grid]. *)
Definition validate_pty_grid (cols rows : Z) : result Refusal unit :=
  ensure (pty_grid_dimensions_are_bounded cols rows) validation.

Definition template_name_byte (b : Ascii.ascii) : bool :=
  Str.is_ascii_alphanumeric b || (Str.code b =? 45)%Z || (Str.code b =? 95)%Z || (Str.code b =? 46)%Z.

Definition env_entry_ok (kv : string * string) : bool :=
  let '(key, value) := kv in
  negb (Str.is_empty key || Str.contains_byte Str.equals_sign key
        || (16384 <? Str.len key)%Z || (16384 <? Str.len value)%Z
        || Str.contains_byte Str.nul key || Str.contains_byte Str.nul value).

(** [validate_pty_template]; it trims the name it looks at. *)
Definition validate_pty_template (name cmd : string) (args : list string) (cwd : option string)
    (env : gmap string string) (cols rows : Z) : result Refusal unit :=
  let name := Str.trim name in
  _ ← ensure (negb (Str.is_empty name || (128 <? Str.len name)%Z
                    || negb (Str.all_bytes template_name_byte name))) validation;
  _ ← ensure (negb (Str.is_empty (Str.trim cmd) || (4096 <? Str.len cmd)%Z
                    || Str.contains_byte Str.nul cmd)) validation;
  _ ← ensure (negb ((256 <? Z.of_nat (length args))%Z
                    || existsb (fun a => (16384 <? Str.len a)%Z || Str.contains_byte Str.nul a) args))
        validation;
  _ ← ensure (match cwd with
              | Some cwd => negb (Str.is_empty cwd || (4096 <? Str.len cwd)%Z
                                  || Str.contains_byte Str.nul cwd)
              | None => true
              end) validation;
  let entries := map_to_list env in
  _ ← ensure (negb ((256 <? Z.of_nat (length entries))%Z
                    || negb (forallb env_entry_ok entries))) validation;
  _ ← ensure (forallb (fun '(_, value) =>
                match Str.strip_prefix "env:" value with
                | Some name => valid_environment_name name
                | None => false
                end) entries) validation;
  validate_pty_grid cols rows.

(** ** Routing *)

Definition route (ty id ev : string) : result Refusal Route :=
  mret {| r_aggregate_type := ty; r_aggregate_id := id; r_event_type := ev |}.

(** The arms of [route_of] for the epoch, tasks, attempts, engine sessions,
    leases and worktrees. *)
Definition route_work (c : command) : result Refusal Route :=
  match c with
  | ActivateKernel _ _ => route KERNEL_AGGREGATE KERNEL_SINGLETON ACTIVATION_EVENT_TYPE
  | CreateTask id _ _ _ _ _ _ => route "task" id "task_created"
  | TransitionTask id _ _ => route "task" id "task_transitioned"
  | CreateAttempt id _ _ _ _ _ _ _ _ _ => route "attempt" id "attempt_created"
  | TransitionAttempt id _ _ _ => route "attempt" id "attempt_transitioned"
  | RecordAttemptRuntime id _ _ _ => route "attempt" id "attempt_runtime_recorded"
  | RecordAttemptOutcome id _ _ _ _ _ => route "attempt" id "attempt_outcome_recorded"
  | UpdateBudget id _ _ => route "attempt" id "budget_updated"
  | RecordRound id _ _ => route "attempt" id "round_recorded"
  | RecordFinding id _ _ _ _ => route "attempt" id "finding_recorded"
  | OpenEngineSession id _ _ _ => route "engine_session" id "engine_session_opened"
  | CloseEngineSession id => route "engine_session" id "engine_session_closed"
  | AcquireLease id _ _ _ _ _ _ _ _ => route "lease" id "lease_acquired"
  | RenewLease id _ _ => route "lease" id "lease_renewed"
  | ReleaseLease id _ _ => route "lease" id "lease_released"
  | ExpireLease id _ => route "lease" id "lease_expired"
  | RegisterWorktree id _ _ _ _ _ => route "worktree" id "worktree_registered"
  | UpdateWorktree id _ _ _ => route "worktree" id "worktree_updated"
  | ReleaseWorktree id _ => route "worktree" id "worktree_released"
  | _ => Err storage
  end.

(** The workspace tree and the workflow runs, with the shape rules that need no
    row. *)
Definition route_workspace (c : command) : result Refusal Route :=
  match c with
  | CreateWorkspaceNode id kind parent_id session_id =>
      _ ← ensure (negb (is_some session_id && negb (bool_decide (kind = KPane)))) validation;
      _ ← ensure (match kind, parent_id with
                  | KWorkspace, Some _ => false
                  | (KTab | KPane), None => false
                  | _, _ => true
                  end) validation;
      _ ← ensure (negb (bool_decide (parent_id = Some id))) validation;
      route "workspace_node" id "workspace_node_created"
  | MoveWorkspaceNode id parent_id _ =>
      _ ← ensure (negb (bool_decide (parent_id = id))) validation;
      route "workspace_node" id "workspace_node_moved"
  | RebindWorkspacePane id _ _ => route "workspace_node" id "workspace_pane_rebound"
  | CloseWorkspaceNode id _ => route "workspace_node" id "workspace_node_closed"
  | OpenWorkflowRun id template_ref template_sha256 _ _ =>
      _ ← ensure (negb (Str.is_empty (Str.trim template_ref))) validation;
      _ ← ensure (match template_sha256 with Some d => is_sha256_hex d | None => true end) validation;
      route "workflow_run" id "workflow_run_opened"
  | AdvanceWorkflowRun id step _ =>
      _ ← ensure (negb (Str.is_empty (Str.trim step))) validation;
      route "workflow_run" id "workflow_run_advanced"
  | CloseWorkflowRun id outcome _ =>
      _ ← ensure (one_of outcome ["completed"; "failed"; "canceled"]) validation;
      route "workflow_run" id "workflow_run_closed"
  | _ => Err storage
  end.

(** The PTY sessions and their templates. *)
Definition route_pty (env : envelope) (c : command) : result Refusal Route :=
  match c with
  | OpenPtySession id generation _ _ =>
      _ ← ensure (negb (Str.is_empty (Str.trim generation))) validation;
      route "pty_session" id "pty_session_opened"
  | RecordPtyAttach id _ => route "pty_session" id "pty_attach_recorded"
  | RecordPtyDetach id _ => route "pty_session" id "pty_detach_recorded"
  | SendPtyInput id generation _ =>
      route "pty_session" (pty_session_lifetime_id id generation) "pty_input_requested"
  | ResizePtySession id generation cols rows =>
      _ ← validate_pty_grid cols rows;
      route "pty_session" (pty_session_lifetime_id id generation) "pty_resize_requested"
  | StopPtySession id generation =>
      route "pty_session" (pty_session_lifetime_id id generation) "pty_stop_requested"
  | ClosePtySession id _ => route "pty_session" id "pty_session_closed"
  | DeclarePtySessionTemplate name cmd args cwd e cols rows =>
      _ ← validate_pty_template name cmd args cwd e cols rows;
      route "pty_session_template" name "pty_session_template_declared"
  | RetirePtySessionTemplate name _ =>
      route "pty_session_template" name "pty_session_template_retired"
  | RequestPtySessionStart name id =>
      _ ← ensure (negb (Str.is_empty (Str.trim name))) validation;
      route "pty_session_start" (id +:+ ":" +:+ ce_command_id env) "pty_session_start_requested"
  | _ => Err storage
  end.

(** Everything else: dispatch tree, messages, execution commands, gates,
    evidence, cost, authority, attention, checkpoints and ingestion. *)
Definition route_records (env : envelope) (c : command) : result Refusal Route :=
  match c with
  | RegisterDispatchNode id _ _ _ _ => route "dispatch_node" id "dispatch_node_registered"
  | TransitionDispatchNode id _ _ => route "dispatch_node" id "dispatch_node_transitioned"
  | SendMessage id _ _ _ _ _ _ _ _ => route "message" id "message_sent"
  | TransitionMessage id _ _ _ => route "message" id "message_transitioned"
  | IssueCommand id _ _ _ => route "command" id "command_issued"
  | TransitionCommand id _ _ => route "command" id "command_transitioned"
  | RecordCommandOutcome id _ _ => route "command" id "command_outcome_recorded"
  | OpenGate id _ _ _ _ _ => route "gate" id "gate_opened"
  | DecideGate id _ _ _ _ => route "gate" id "gate_decided"
  | RecordEvidence id _ _ _ _ => route "evidence" id "evidence_recorded"
  | RecordCostEntry id attempt_id engine_session_id dispatch_node_id _ _ _ _ _ _ _ _ _ =>
      _ ← ensure (is_some attempt_id || is_some engine_session_id || is_some dispatch_node_id)
            validation;
      route "cost_entry" id "cost_entry_recorded"
  | GrantAuthority id _ _ _ _ => route "authority_grant" id "authority_granted"
  | RevokeAuthority id _ => route "authority_grant" id "authority_revoked"
  | RaiseAttention id _ _ _ _ _ => route "attention_item" id "attention_raised"
  | ResolveAttention id _ => route "attention_item" id "attention_resolved"
  | AckAttention id => route "attention_item" id "attention_acked"
  | MuteAttention id _ => route "attention_item" id "attention_muted"
  | UnmuteAttention id => route "attention_item" id "attention_unmuted"
  | WriteOrchestratorCheckpoint ck =>
      id ← ok_or (oc_orchestrator_id ck) validation;
      route "orchestrator_checkpoint" id "orchestrator_checkpoint_written"
  | IngestRecord _ _ _ =>
      route "ingested_record"
        ("ingest:" +:+ ce_project_id env +:+ ":" +:+ ce_idempotency_key env) "record_ingested"
  | _ => Err storage
  end.

(** [route_of]: the arms, then the check that the id is not empty. *)
Definition route_of (env : envelope) (c : command) : result Refusal Route :=
  rt ← match c with
       | CreateWorkspaceNode _ _ _ _ | MoveWorkspaceNode _ _ _ | RebindWorkspacePane _ _ _
       | CloseWorkspaceNode _ _ | OpenWorkflowRun _ _ _ _ _ | AdvanceWorkflowRun _ _ _
       | CloseWorkflowRun _ _ _ => route_workspace c
       | OpenPtySession _ _ _ _ | RecordPtyAttach _ _ | RecordPtyDetach _ _ | SendPtyInput _ _ _
       | ResizePtySession _ _ _ _ | StopPtySession _ _ | ClosePtySession _ _
       | DeclarePtySessionTemplate _ _ _ _ _ _ _ | RetirePtySessionTemplate _ _
       | RequestPtySessionStart _ _ => route_pty env c
       | RegisterDispatchNode _ _ _ _ _ | TransitionDispatchNode _ _ _
       | SendMessage _ _ _ _ _ _ _ _ _ | TransitionMessage _ _ _ _ | IssueCommand _ _ _ _
       | TransitionCommand _ _ _ | RecordCommandOutcome _ _ _ | OpenGate _ _ _ _ _ _
       | DecideGate _ _ _ _ _ | RecordEvidence _ _ _ _ _
       | RecordCostEntry _ _ _ _ _ _ _ _ _ _ _ _ _ | GrantAuthority _ _ _ _ _
       | RevokeAuthority _ _ | RaiseAttention _ _ _ _ _ _ | ResolveAttention _ _
       | AckAttention _ | MuteAttention _ _ | UnmuteAttention _
       | WriteOrchestratorCheckpoint _ | IngestRecord _ _ _ => route_records env c
       | _ => route_work c
       end;
  _ ← ensure (negb (Str.is_empty (r_aggregate_id rt))) validation;
  mret rt.

(** ** The checks before the transaction *)

(** [check_routing]. *)
Definition check_routing (env : envelope) (rt : Route) : result Refusal unit :=
  _ ← ensure (match ce_target_aggregate_type env with
              | Some declared => bool_decide (declared = r_aggregate_type rt)
              | None => true
              end) validation;
  ensure (match ce_target_aggregate_id env with
          | Some declared => bool_decide (declared = r_aggregate_id rt)
          | None => true
          end) validation.

(** [check_body_project]. *)
Definition check_body_project (env : envelope) (c : command) : result Refusal unit :=
  match c with
  | CreateTask _ _ _ _ (Some project) _ _ =>
      ensure (bool_decide (project = ce_project_id env)) validation
  | _ => mret tt
  end.

(** [check_activation]. *)
Definition check_activation (env : envelope) (c : command) : result Refusal unit :=
  match c with
  | ActivateKernel cutover_id archive_manifest_sha256 =>
      _ ← ensure (negb (Str.is_empty cutover_id)) validation;
      _ ← ensure (is_sha256_hex archive_manifest_sha256) validation;
      ensure (bool_decide (ce_idempotency_key env = activation_key cutover_id)) validation
  | _ => mret tt
  end.

Definition administers_authority (c : command) : bool :=
  match c with
  | GrantAuthority _ _ _ _ _ | RevokeAuthority _ _
  | DeclarePtySessionTemplate _ _ _ _ _ _ _ | RetirePtySessionTemplate _ _ => true
  | _ => false
  end.

(** [check_authority_admin]. *)
Definition check_authority_admin (env : envelope) (c : command) : result Refusal unit :=
  ensure (negb (administers_authority c && negb (bool_decide (actor_kind (ce_actor env) = "operator"))))
    (refuse EAuthority).

(** [admitted]: the sealed allowlist. *)
Definition admitted (ep : Epoch) (c : command) : bool :=
  match ep with
  | EpochActive => true
  | EpochSealed => match c with ActivateKernel _ _ => true | _ => false end
  | EpochNone => false
  end.

(** [receipt_for]. *)
Definition receipt_for (env : envelope) (rt : Route) (c : command)
    (action_class observed_basis : string) : Receipt :=
  let observed_basis :=
    match c with
    | SendPtyInput _ _ byte_count =>
        observed_basis +:+ "; byte_count=" +:+ Numeric.to_numeric_text byte_count
    | ResizePtySession _ _ cols rows =>
        observed_basis +:+ "; cols=" +:+ Numeric.to_numeric_text cols
        +:+ "; rows=" +:+ Numeric.to_numeric_text rows
    | StopPtySession _ _ => observed_basis +:+ "; stop=true"
    | RequestPtySessionStart template_name _ => observed_basis +:+ "; template=" +:+ template_name
    | _ => observed_basis
    end in
  {| receipt_id := "receipt:" +:+ ce_project_id env +:+ ":" +:+ ce_idempotency_key env;
     receipt_actor := ce_actor env; receipt_action := action_class;
     receipt_subject_type := r_aggregate_type rt; receipt_subject_id := r_aggregate_id rt;
     receipt_from := None; receipt_to := None;
     receipt_observed_basis := Some observed_basis; receipt_ts := ce_issued_at env |}.

(** [check_attention_dedup]. *)
Definition check_attention_dedup (c : command) (p : P) : result Refusal unit :=
  match c with
  | RaiseAttention _ kind _ subject_ref _ _ =>
      ensure (negb (is_some (unresolved_attention kind subject_ref p))) validation
  | _ => mret tt
  end.

(** [check_second_cutover]. *)
Definition check_second_cutover (c : command) (ep : Epoch) (l : list event) : result Refusal unit :=
  match c, ep with
  | ActivateKernel _ _, EpochActive =>
      committed ← ok_or (committed_cutover l) storage;
      Err (with_detail (refuse EAlreadyActive) [("activated_cutover_id", DStr committed)])
  | _, _ => mret tt
  end.

(** [AGGREGATE_OWNER]: the project of the aggregate's first event. *)
Definition aggregate_owner (l : list event) (ty id : string) : option string :=
  project_id <$> first_by_version (List.filter (in_aggregate ty id) l).

(** [check_aggregate_owner]. *)
Definition check_aggregate_owner (env : envelope) (rt : Route) (l : list event)
  : result Refusal unit :=
  ensure (match aggregate_owner l (r_aggregate_type rt) (r_aggregate_id rt) with
          | Some owner => bool_decide (owner = ce_project_id env)
          | None => true
          end) validation.

(** [check_expected_version]. *)
Definition check_expected_version (env : envelope) (derived : Z) : result Refusal unit :=
  match ce_expected_version env with
  | Some expected =>
      ensure (expected =? derived)%Z
        (with_detail (refuse EStaleVersion) [("actual", DNum derived); ("expected", DNum expected)])
  | None => mret tt
  end.

(** [prior_for_key]. *)
Definition prior_for_key (env : envelope) (rt : Route) (body : V) (l : list event) : Prior :=
  let stored := events_for_key l (ce_project_id env) (r_aggregate_type rt) (r_aggregate_id rt)
                  (ce_idempotency_key env) in
  match stored with
  | [] => Unused
  | first :: rest =>
      if bool_decide (rest = [])
         && bool_decide (project_id first = ce_project_id env)
         && bool_decide (aggregate_type first = r_aggregate_type rt)
         && bool_decide (aggregate_id first = r_aggregate_id rt)
         && bool_decide (actor first = ce_actor env)
         && bool_decide (payload first = body)
      then Replay stored else Conflict
  end.

(** ** Deciding *)

(** [row_version]. *)
Definition row_version (v : Z) : result Refusal Z :=
  _ ← ensure ((0 <=? v) && (v <=? u32_max))%Z storage;
  mret v.

(** [decide_cas], on the version column of the row read. *)
Definition decide_cas (row : option Z) (expected : Z) : result Refusal Z :=
  v ← ok_or row not_found;
  actual ← row_version v;
  _ ← ensure (actual =? expected)%Z
        (with_detail (refuse EStaleVersion) [("actual", DNum actual); ("expected", DNum expected)]);
  mret actual.

(** [fsm_cursor], on the state and version columns of the row read. *)
Definition fsm_cursor {S} `{StateMachine S} (row : option (string * Z)) : result Refusal (Cursor S) :=
  '(state, version) ← ok_or row not_found;
  s ← ok_or (of_wire state) storage;
  v ← row_version version;
  mret {| cur_state := s; cur_version := v; applied_idempotency_key := None; applied_by := None |}.

(** [decide_transition]. *)
Definition decide_transition {S} `{TransitionGuard S} (cursor : Cursor S) (to : S)
    (expected_version : Z) (env : envelope) (receipt : option string) : result Refusal Z :=
  match Transition.apply cursor
          {| req_to := to; req_expected_version := expected_version; req_actor := ce_actor env;
             req_idempotency_key := None; req_receipt_id := receipt |} with
  | Applied _ _ => mret (cur_version cursor)
  | IllegalEdge from to =>
      Err (with_detail (refuse EIllegalEdge)
             [("from", DStr (wire_name from)); ("to", DStr (wire_name to))])
  | StaleVersion actual expected =>
      Err (with_detail (refuse EStaleVersion) [("actual", DNum actual); ("expected", DNum expected)])
  | UnauthorizedActor _ => Err (refuse EAuthority)
  end.

(** [assert_legal_parent]. *)
Definition assert_legal_parent (kind : WorkspaceNodeKind) (parent_id : string) (p : P)
  : result Refusal unit :=
  parent_kind ← ok_or (node_kind <$> workspace_nodes p !! parent_id) validation;
  ensure (match kind with
          | KWorkspace => false
          | KTab => bool_decide (parent_kind = "workspace")
          | KPane => bool_decide (parent_kind = "tab") || bool_decide (parent_kind = "pane")
          end) validation.

(** The recursive walk of [WORKSPACE_NODE_ANCESTOR]: a node and everything above
    it.  The fuel is one more than the table has rows, which is enough on a
    forest. *)
Fixpoint ancestors (fuel : nat) (nodes : gmap string (NodeRow instant)) (id : string) : list string :=
  match fuel with
  | 0 => []
  | S fuel =>
      match nodes !! id with
      | None => []
      | Some r =>
          id :: match node_parent_id r with
                | Some parent => ancestors fuel nodes parent
                | None => []
                end
      end
  end.

Definition ancestor_walk (nodes : gmap string (NodeRow instant)) (id : string) : list string :=
  ancestors (S (size nodes)) nodes id.

Definition has_children (p : P) (id : string) : bool :=
  negb (bool_decide (map_Forall (fun _ r => node_parent_id r <> Some id) (workspace_nodes p))).

(** The arms of [decide] for the workspace tree. *)
Definition decide_workspace (c : command) (rt : Route) (p : P) : result Refusal Z :=
  let version := node_version <$> workspace_nodes p !! r_aggregate_id rt in
  match c with
  | CreateWorkspaceNode _ kind parent_id _ =>
      _ ← match parent_id with
          | Some parent => assert_legal_parent kind parent p
          | None => mret tt
          end;
      mret 0%Z
  | MoveWorkspaceNode id parent_id expected_version =>
      kind ← ok_or (node_kind <$> workspace_nodes p !! id) validation;
      _ ← ensure (negb (bool_decide (kind = "workspace"))) validation;
      let kind := if bool_decide (kind = "tab") then KTab else KPane in
      _ ← assert_legal_parent kind parent_id p;
      _ ← ensure (negb (bool_decide (id ∈ ancestor_walk (workspace_nodes p) parent_id))) validation;
      decide_cas version expected_version
  | RebindWorkspacePane id _ expected_version =>
      kind ← ok_or (node_kind <$> workspace_nodes p !! id) validation;
      _ ← ensure (bool_decide (kind = "pane")) validation;
      decide_cas version expected_version
  | CloseWorkspaceNode id expected_version =>
      _ ← ensure (negb (has_children p id)) validation;
      decide_cas version expected_version
  | _ => Err storage
  end.

Definition pty_stale (generation stored_generation state : string) : Refusal :=
  with_detail (refuse EStaleVersion)
    [("presented_generation", DStr generation); ("stored_generation", DStr stored_generation);
     ("state", DStr state)].

(** Input, resize and stop address one lifetime and are guarded by its
    generation, not by a version the caller read. *)
Definition decide_pty_control (generation : string) (is_stop : bool) (rt : Route) (p : P)
  : result Refusal Z :=
  row ← ok_or (pty_sessions p !! r_aggregate_id rt) not_found;
  version ← row_version (pty_version row);
  let state := pty_state row in
  let state_is_admissible :=
    bool_decide (state = "running") || (is_stop && bool_decide (state = "stopping")) in
  _ ← ensure (bool_decide (pty_generation row = generation) && state_is_admissible)
        (pty_stale generation (pty_generation row) state);
  mret version.

(** The arms of [decide] for workflow runs, PTY sessions and templates. *)
Definition decide_runs (c : command) (rt : Route) (p : P) : result Refusal Z :=
  let run_version0 := run_version <$> workflow_runs p !! r_aggregate_id rt in
  let pty_version0 := pty_version <$> pty_sessions p !! r_aggregate_id rt in
  match c with
  | AdvanceWorkflowRun id _ expected_version | CloseWorkflowRun id _ expected_version =>
      state ← ok_or (run_state <$> workflow_runs p !! id) not_found;
      _ ← ensure (bool_decide (state = "running")) validation;
      decide_cas run_version0 expected_version
  | RecordPtyAttach id expected_version =>
      state ← ok_or (pty_state <$> pty_sessions p !! id) not_found;
      _ ← ensure (bool_decide (state = "running")) validation;
      decide_cas pty_version0 expected_version
  | ClosePtySession id expected_version =>
      state ← ok_or (pty_state <$> pty_sessions p !! id) not_found;
      _ ← ensure (one_of state ["running"; "stopping"]) validation;
      decide_cas pty_version0 expected_version
  | SendPtyInput _ generation _ | ResizePtySession _ generation _ _ =>
      decide_pty_control generation false rt p
  | StopPtySession _ generation => decide_pty_control generation true rt p
  | RetirePtySessionTemplate name expected_version =>
      state ← ok_or (tpl_state <$> pty_templates p !! name) not_found;
      _ ← ensure (bool_decide (state = "active")) validation;
      decide_cas (tpl_version <$> pty_templates p !! r_aggregate_id rt) expected_version
  | RequestPtySessionStart name _ =>
      state ← ok_or (tpl_state <$> pty_templates p !! name) not_found;
      _ ← ensure (bool_decide (state = "active")) validation;
      mret 0%Z
  | RecordPtyDetach id expected_version =>
      _ ← ok_or (pty_state <$> pty_sessions p !! id) not_found;
      decide_cas pty_version0 expected_version
  | _ => Err storage
  end.

(** The arms of [decide] that run a transition through the domain crate. *)
Definition decide_fsm (env : envelope) (c : command) (rt : Route) (p : P) : result Refusal Z :=
  let id := r_aggregate_id rt in
  let command_row := (fun r => (cmd_state r, cmd_version r)) <$> commands p !! id in
  match c with
  | TransitionTask _ to expected_version =>
      cursor ← fsm_cursor (S := TaskState) ((fun r => (task_state r, task_version r)) <$> tasks p !! id);
      decide_transition cursor to expected_version env None
  | TransitionAttempt _ to expected_version receipt =>
      cursor ← fsm_cursor (S := AttemptState)
                 ((fun r => (attempt_state r, attempt_version r)) <$> attempts p !! id);
      decide_transition cursor to expected_version env receipt
  | TransitionMessage _ to expected_version _ =>
      cursor ← fsm_cursor (S := MessageState)
                 ((fun r => (message_state r, message_version r)) <$> messages p !! id);
      decide_transition cursor to expected_version env None
  | TransitionCommand _ to expected_version =>
      _ ← ensure (negb (bool_decide (to = CommandVerificationComplete))) validation;
      cursor ← fsm_cursor (S := CommandState) command_row;
      decide_transition cursor to expected_version env None
  | RecordCommandOutcome _ expected_version _ =>
      cursor ← fsm_cursor (S := CommandState) command_row;
      decide_transition cursor CommandVerificationComplete expected_version env None
  | _ => Err storage
  end.

(** The arms of [decide] that compare a version, or take the log as it is. *)
Definition decide_records (c : command) (rt : Route) (db : database) : result Refusal Z :=
  let id := r_aggregate_id rt in
  let p := proj db in
  let current := map_err of_append_error
                   (current_aggregate_version (log db) (r_aggregate_type rt) id) in
  match c with
  | DecideGate _ expected_version _ _ _ => decide_cas (gate_version <$> gates p !! id) expected_version
  | UpdateBudget _ expected_version _ | RecordAttemptRuntime _ expected_version _ _
  | RecordAttemptOutcome _ expected_version _ _ _ _ =>
      decide_cas (attempt_version <$> attempts p !! id) expected_version
  | RenewLease _ expected_version _ | ReleaseLease _ expected_version _
  | ExpireLease _ expected_version => decide_cas (lease_version <$> leases p !! id) expected_version
  | TransitionDispatchNode _ _ expected_version =>
      decide_cas (dispatch_version <$> dispatch_nodes p !! id) expected_version
  | WriteOrchestratorCheckpoint ck =>
      _ ← match orch_checkpoints p !! id with
          | Some row =>
              now ← map_err of_append_error (read_numeric (ocp_seq row));
              ensure (negb (oc_seq ck <=? now)%Z)
                (with_detail (refuse EStaleVersion)
                   [("actual", DStr (Numeric.to_numeric_text now));
                    ("presented", DStr (Numeric.to_numeric_text (oc_seq ck)))])
          | None => mret tt
          end;
      current
  | RevokeAuthority _ _ | ResolveAttention _ _ | AckAttention _ | MuteAttention _ _
  | UnmuteAttention _ | CloseEngineSession _ | UpdateWorktree _ _ _ _ | ReleaseWorktree _ _
  | RecordRound _ _ _ | RecordFinding _ _ _ _ _ | IngestRecord _ _ _ => current
  | _ => Err storage
  end.

(** [decide]: the version the aggregate must be at for this command to apply. *)
Definition decide_command (env : envelope) (c : command) (rt : Route) (db : database)
  : result Refusal Z :=
  match c with
  | ActivateKernel _ _ => mret 1%Z
  | CreateWorkspaceNode _ _ _ _ | MoveWorkspaceNode _ _ _ | RebindWorkspacePane _ _ _
  | CloseWorkspaceNode _ _ => decide_workspace c rt (proj db)
  | CreateTask _ _ _ _ _ _ _ | CreateAttempt _ _ _ _ _ _ _ _ _ _ | OpenEngineSession _ _ _ _
  | AcquireLease _ _ _ _ _ _ _ _ _ | RegisterWorktree _ _ _ _ _ _
  | RegisterDispatchNode _ _ _ _ _ | SendMessage _ _ _ _ _ _ _ _ _ | IssueCommand _ _ _ _
  | OpenGate _ _ _ _ _ _ | RecordEvidence _ _ _ _ _
  | RecordCostEntry _ _ _ _ _ _ _ _ _ _ _ _ _ | OpenWorkflowRun _ _ _ _ _
  | OpenPtySession _ _ _ _ | DeclarePtySessionTemplate _ _ _ _ _ _ _ | GrantAuthority _ _ _ _ _
  | RaiseAttention _ _ _ _ _ _ => mret 0%Z
  | AdvanceWorkflowRun _ _ _ | CloseWorkflowRun _ _ _ | RecordPtyAttach _ _ | ClosePtySession _ _
  | SendPtyInput _ _ _ | ResizePtySession _ _ _ _ | StopPtySession _ _
  | RetirePtySessionTemplate _ _ | RequestPtySessionStart _ _ | RecordPtyDetach _ _ =>
      decide_runs c rt (proj db)
  | TransitionTask _ _ _ | TransitionAttempt _ _ _ _ | TransitionMessage _ _ _ _
  | TransitionCommand _ _ _ | RecordCommandOutcome _ _ _ => decide_fsm env c rt (proj db)
  | _ => decide_records c rt db
  end.

(** [build_event]. *)
Definition build_event (env : envelope) (body : V) (rt : Route) (expected_version : Z)
  : result Refusal event :=
  version ← ok_or (checked_add u32_max expected_version 1) (refuse EStaleVersion);
  mret {|
    event_id := r_aggregate_type rt +:+ ":" +:+ r_aggregate_id rt +:+ ":"
                +:+ Numeric.to_numeric_text version;
    project_id := ce_project_id env;
    aggregate_type := r_aggregate_type rt; aggregate_id := r_aggregate_id rt;
    aggregate_version := version; event_type := r_event_type rt;
    schema_version := ENVELOPE_SCHEMA_VERSION; global_sequence := 0;
    appended_at := ce_issued_at env; occurred_at := ce_issued_at env;
    actor := ce_actor env; origin := ce_origin env;
    causation_id := ce_causation_id env; correlation_id := ce_correlation_id env;
    idempotency_key := Some (ce_idempotency_key env);
    payload := body; payload_ref := None |}.

(** ** Submitting *)

Definition receipted_pty_command (c : command) : bool :=
  match c with
  | SendPtyInput _ _ _ | ResizePtySession _ _ _ _ | StopPtySession _ _
  | RequestPtySessionStart _ _ => true
  | _ => false
  end.

Definition pty_input_command (c : command) : bool :=
  match c with SendPtyInput _ _ _ => true | _ => false end.

(** The tag that binds the bytes of an input batch to its key. *)
Definition input_binding_of (key bytes : string) : string :=
  hmac_sha256 key ("gwk:pty-input-binding:v1" +:+ String Str.nul "" +:+ bytes).

(** What the steps before the transaction establish. *)
Record Prepared := {
  pre_command : command;
  pre_route : Route;
  pre_payload : V;
  pre_input_refusal : option Refusal;
  pre_binding : option string;
}.

(** [try_submit] up to the point where it opens its transaction. *)
Definition prepare (st : Store (V := V)) (env : envelope) (pty_input : option PtyInputCarrier)
  : result Refusal Prepared :=
  _ ← map_err (fun _ => refuse EOverloaded) (admit_append st);
  _ ← map_err (fun _ => refuse ESchema)
        (accept_schema_version (ce_schema_version env) ENVELOPE_SCHEMA_VERSION []);
  c ← map_err (fun _ => validation) (from_envelope env);
  input_refusal ←
    (if pty_input_command c then
       mret (match validate_pty_input_carrier c pty_input with
             | Err r => Some r
             | Ok _ => if is_some (ce_expected_version env) then Some validation else None
             end)
     else _ ← validate_pty_input_carrier c pty_input; mret None);
  rt ← route_of env c;
  _ ← check_routing env rt;
  _ ← check_body_project env c;
  _ ← check_activation env c;
  _ ← check_authority_admin env c;
  binding ← match pty_input with
            | Some (CarrierBytes bytes) =>
                key ← ok_or (pty_input_binding_key st) storage;
                mret (Some (input_binding_of key bytes))
            | Some CarrierInvalid | None => mret None
            end;
  mret {| pre_command := c; pre_route := rt; pre_payload := to_value c;
          pre_input_refusal := input_refusal; pre_binding := binding |}.

(** [paged]: the refusal that commits its own trail. *)
Definition paged (env : envelope) (c : command) (rt : Route) (action_class observed_basis : string)
    (db : database) : result Refusal (database * Verdict) :=
  let subject := r_aggregate_type rt +:+ "/" +:+ r_aggregate_id rt in
  db ← write_receipt (receipt_for env rt c action_class observed_basis) db;
  p ← page_attention ("page:" +:+ action_class +:+ ":" +:+ subject)
        (ce_command_type env +:+ " requires an unexpired " +:+ action_class +:+ " grant")
        subject (ce_actor env) (ce_issued_at env) (proj db);
  mret (set_proj p db,
        VRefused (with_detail (refuse EAuthority)
                    [("action_class", DStr action_class); ("subject", DStr subject)])).

(** [receipted_pty_refusal]. *)
Definition receipted_pty_refusal (env : envelope) (c : command) (rt : Route)
    (authority : string * string) (refusal : Refusal) (db : database)
  : result Refusal (database * Verdict) :=
  let '(action_class, basis) := authority in
  db ← write_receipt
         (receipt_for env rt c action_class (basis +:+ "; refused=" +:+ code_str (code refusal))) db;
  mret (db, VRefused refusal).

(** [INSERT INTO gwk_internal.pty_delivery]. *)
Definition register_delivery (env : envelope) (e : event) (binding : option string) (db : database)
  : result Refusal database :=
  let key := (ce_project_id env, ce_idempotency_key env) in
  _ ← ensure (negb (is_some (deliveries db !! key))
              && bool_decide (map_Forall (fun _ d => dv_command_id d <> ce_command_id env
                                                     /\ dv_event_id d <> event_id e)
                                (deliveries db))) storage;
  mret (set_deliveries
          (<[key := {| dv_command_id := ce_command_id env; dv_event_id := event_id e;
                       dv_event_seq := global_sequence e; dv_input_binding := binding;
                       dv_claim_token := None; dv_claimed_until := None; dv_delivered_at := None;
                       dv_failed_at := None; dv_indeterminate_at := None; dv_failure_code := None;
                       dv_failure_message := None |}]> (deliveries db)) db).

(** The projection of every appended event. *)
Definition apply_events (events : list event) (p : P) : result Refusal P :=
  fold_res (fun p e => apply_event apply_context_event e p) p events.

(** The tail of [try_submit]: append, project, register, checkpoint. *)
Definition append_and_project (st : Store (V := V)) (clock : TxClock) (ws : WriterState) (env : envelope)
    (pre : Prepared) (expected_version : Z) (db : database) : result Refusal (database * Verdict) :=
  _ ← check_expected_version env expected_version;
  e ← build_event env (pre_payload pre) (pre_route pre) expected_version;
  '(appended, db) ← map_err of_append_error
                      (append_locked clock ws expected_version (ws_current_fence ws) [e] db);
  db ← (if app_replayed appended then mret db
        else
          p ← apply_events (app_events appended) (proj db);
          let db := set_proj p db in
          if receipted_pty_command (pre_command pre) then
            e ← ok_or (head (app_events appended)) storage;
            register_delivery env e (pre_binding pre) db
          else mret db);
  db ← match last (app_events appended) with
       | Some e => map_err of_append_error
                     (checkpoint_if_due st ws (global_sequence e) (appended_at e) db)
       | None => mret db
       end;
  mret (db, VApplied (app_events appended)).

(** The path of a request whose key is unused. *)
Definition submit_unused (st : Store (V := V)) (clock : TxClock) (ws : WriterState) (ep : Epoch)
    (env : envelope) (pre : Prepared) (db : database) : result Refusal (database * Verdict) :=
  let c := pre_command pre in
  let rt := pre_route pre in
  _ ← check_aggregate_owner env rt (log db);
  _ ← ensure (negb (receipted_pty_command c
                    && negb (bool_decide (map_Forall (fun _ d => dv_command_id d <> ce_command_id env)
                                            (deliveries db)))))
        (refuse EIdempotencyConflict);
  _ ← check_second_cutover c ep (log db);
  let subject := match c with
                 | RequestPtySessionStart template_name _ => template_name
                 | _ => r_aggregate_id rt
                 end in
  decision ← evaluate (proj db) (tx_wall clock) env
               (classification_key (ce_command_type env) c) subject;
  match decision with
  | Page action_class observed_basis => paged env c rt action_class observed_basis db
  | _ =>
      let authority := authority_result decision in
      db ← (if receipted_pty_command c then mret db
            else match authority with
                 | Some (action_class, basis) =>
                     write_receipt (receipt_for env rt c action_class basis) db
                 | None => mret db
                 end);
      _ ← check_attention_dedup c (proj db);
      match decide_command env c rt db with
      | Err refusal =>
          if receipted_pty_command c then
            authority ← ok_or authority storage;
            receipted_pty_refusal env c rt authority refusal db
          else Err refusal
      | Ok expected_version =>
          db ← (if receipted_pty_command c then
                  '(action_class, basis) ← ok_or authority storage;
                  write_receipt (receipt_for env rt c action_class basis) db
                else mret db);
          append_and_project st clock ws env pre expected_version db
      end
  end.

(** The transaction of [try_submit]. *)
Definition submit_tx (st : Store (V := V)) (clock : TxClock) (env : envelope) (pre : Prepared) (db : database)
  : result Refusal (database * Verdict) :=
  let c := pre_command pre in
  ws ← map_err of_append_error (lock_writer st clock db);
  ep ← epoch_of (log db);
  _ ← ensure (admitted ep c) sealed_refusal;
  match pre_input_refusal pre with
  | Some refusal =>
      receipted_pty_refusal env c (pre_route pre) (PTY_INPUT_ACTION_CLASS, "request validation")
        refusal db
  | None =>
      match prior_for_key env (pre_route pre) (pre_payload pre) (log db) with
      | Replay events =>
          let stored := deliveries db !! (ce_project_id env, ce_idempotency_key env)
                          ≫= dv_input_binding in
          _ ← ensure (negb (pty_input_command c) || bool_decide (stored = pre_binding pre))
                (refuse EIdempotencyConflict);
          mret (db, VApplied events)
      | Conflict => Err (refuse EIdempotencyConflict)
      | Unused => submit_unused st clock ws ep env pre db
      end
  end.

(** [submit_inner]: the answer and the database afterwards. *)
Definition submit (st : Store (V := V)) (clock : TxClock) (env : envelope)
    (pty_input : option PtyInputCarrier) (db : database) : KernelResult * database :=
  match (pre ← prepare st env pty_input; submit_tx st clock env pre db) with
  | Err r => (KernelError r, db)
  | Ok (db', VRefused r) => (KernelError r, db')
  | Ok (db', VApplied events) =>
      match watermark (log db') with
      | Some w => (CommandApplied (ce_command_id env) events w, db')
      | None => (KernelError storage, db')
      end
  end.

End Submit.
