(* ===== verification/Writes.v ===== *)
(** * What a projection writes

    Every arm of the applier is one statement against one table: the row it
    leaves, the version column behind an aggregate, and the closed list of the
    tables a projection may touch. *)

From S2P Require Import Prelude Text Fsm Envelope Transition Command Tables Db Store Project Authority Submit.

Section Statements.
Context `{TZ : Timestamptz} {V : Type} `{SD : Serde V}.
Notation P := (Proj instant V).

(** ** The row an event writes *)

Lemma ins_ok {R} (t : Table P R) id row p p' :
  ins t id row p = Ok p' ->
  t_get t p !! id = None /\ t_on_insert t (t_get t p) id row = true /\ t_check t row = true /\
  t_unique t (t_get t p) id row = true /\
  t_fk t p' row = true /\ p' = t_set t (<[id := row]> (t_get t p)) p.
Proof.
  unfold ins. intros Hr. destruct (sql_insert t id row p) eqn:E; [|done]. injection Hr as ->.
  apply sql_insert_ok in E as (? & ? & ? & ? & ? & ?). done.
Qed.

Lemma upd_ok {R} (t : Table P R) id f p p' :
  upd t id f p = Ok p' ->
  exists old, t_get t p !! id = Some old /\ t_on_update t (t_get t p) id old (f old) = true /\
    t_check t (f old) = true /\ t_unique t (t_get t p) id (f old) = true /\
    (t_fk_cols t (f old) = t_fk_cols t old \/ t_fk t p' (f old) = true) /\
    p' = t_set t (<[id := f old]> (t_get t p)) p.
Proof.
  unfold upd. intros Hr. destruct (sql_update t id f p) as [[n q]|] eqn:E; [|done].
  simpl in Hr. apply bind_ok_iff in Hr as ([] & Hn & [= ->]).
  apply sql_update_ok in E as [(_ & -> & ->)|(old & ? & -> & ? & ? & ? & ? & ?)]; [done|].
  by exists old.
Qed.

Lemma upd_cast_ok {R A} (t : Table P R) id (cast : result Refusal A) f p p' :
  upd_cast t id cast f p = Ok p' -> exists a, cast = Ok a /\ upd t id (f a) p = Ok p'.
Proof.
  unfold upd_cast. destruct (t_get t p !! id); [|done]. by intros (a & -> & Hu)%bind_ok_iff; exists a.
Qed.

End Statements.

(** Turn the successful run of one projection arm into the table it leaves. *)
Ltac inv_arm :=
  repeat match goal with
  | H : map_err _ ?m = Ok _ |- _ => destruct m eqn:?; simpl in H; [|discriminate H]
  | H : (if ?b then _ else _) = Ok _ |- _ => destruct b eqn:?; try discriminate H
  | H : match ?o with Some _ => _ | None => _ end = Ok _ |- _ => destruct o eqn:?; try discriminate H
  | H : ins _ _ _ _ = Ok _ |- _ => apply ins_ok in H as (? & ? & ? & ? & ? & ?)
  | H : upd _ _ _ _ = Ok _ |- _ => apply upd_ok in H as (? & ? & ? & ? & ? & ? & ?)
  | H : upd_cast _ _ _ _ _ = Ok _ |- _ => apply upd_cast_ok in H as (? & ? & ?)
  | H : sql_update _ _ _ _ = Ok _ |- _ =>
      apply sql_update_ok in H as [(? & ? & ?)|(? & ? & ? & ? & ? & ? & ? & ?)]
  | H : _ = Ok _ |- _ => progress inv_ok
  end; simplify_eq/=.


Ltac unfold_arms :=
  unfold project_task, project_attempt, project_engine_session, project_lease, project_worktree,
    project_dispatch, project_checkpoint, upsert_checkpoint, project_message, project_exec_command,
    project_gate, project_evidence, project_authority, project_attention, project_workspace,
    project_workflow, project_pty_session, project_pty_template, project_ingest,
    delete_workspace_node in *.


Section Writes.
Context `{TZ : Timestamptz} {V : Type} `{SD : Serde V} `{HM : Hmac}.
Notation event := (EventEnvelope V).
Notation P := (Proj instant V).
Notation command := (KernelCommand V).
Notation envelope := (CommandEnvelope V).

(** The version column of the row behind an aggregate, for the tables that have
    one. *)
Definition table_version (p : P) (ty id : string) : option Z :=
  if bool_decide (ty = "task") then task_version <$> tasks p !! id
  else if bool_decide (ty = "attempt") then attempt_version <$> attempts p !! id
  else if bool_decide (ty = "message") then message_version <$> messages p !! id
  else if bool_decide (ty = "command") then cmd_version <$> commands p !! id
  else if bool_decide (ty = "gate") then gate_version <$> gates p !! id
  else if bool_decide (ty = "lease") then lease_version <$> leases p !! id
  else if bool_decide (ty = "dispatch_node") then dispatch_version <$> dispatch_nodes p !! id
  else if bool_decide (ty = "workspace_node") then node_version <$> workspace_nodes p !! id
  else if bool_decide (ty = "workflow_run") then run_version <$> workflow_runs p !! id
  else if bool_decide (ty = "pty_session") then pty_version <$> pty_sessions p !! id
  else if bool_decide (ty = "pty_session_template") then tpl_version <$> pty_templates p !! id
  else None.

(** [p'] is [p] with the version behind one aggregate replaced. *)
Definition writes (p p' : P) (ty0 id0 : string) (v : option Z) : Prop :=
  forall ty id, table_version p' ty id =
    if bool_decide (ty = ty0 /\ id = id0) then v else table_version p ty id.

Ltac solve_writes :=
  let ty := fresh "ty" in let id := fresh "id" in
  intros ty id; unfold table_version; cbn -[lookup insert delete bool_decide];
  match goal with |- context [bool_decide (ty = ?t /\ id = ?i)] =>
    destruct (bool_decide_reflect (ty = t /\ id = i)) as [[-> ->]|?Hne];
    [ cbn -[lookup insert delete]; by rewrite ?lookup_insert_eq, ?lookup_delete_eq
    | destruct (bool_decide_reflect (ty = t)) as [->|]; [|reflexivity];
      cbn -[lookup insert delete];
      by rewrite ?lookup_insert_ne, ?lookup_delete_ne by (intros ->; by apply Hne) ]
  end.

Lemma writes_task p id r :
  writes p (set_tasks (<[id := r]> (tasks p)) p) "task" id (Some (task_version r)).
Proof. solve_writes. Qed.
Lemma writes_attempt p id r :
  writes p (set_attempts (<[id := r]> (attempts p)) p) "attempt" id (Some (attempt_version r)).
Proof. solve_writes. Qed.
Lemma writes_message p id r :
  writes p (set_messages (<[id := r]> (messages p)) p) "message" id (Some (message_version r)).
Proof. solve_writes. Qed.
Lemma writes_command p id r :
  writes p (set_commands (<[id := r]> (commands p)) p) "command" id (Some (cmd_version r)).
Proof. solve_writes. Qed.
Lemma writes_gate p id r :
  writes p (set_gates (<[id := r]> (gates p)) p) "gate" id (Some (gate_version r)).
Proof. solve_writes. Qed.
Lemma writes_lease p id r :
  writes p (set_leases (<[id := r]> (leases p)) p) "lease" id (Some (lease_version r)).
Proof. solve_writes. Qed.
Lemma writes_dispatch p id r :
  writes p (set_dispatch_nodes (<[id := r]> (dispatch_nodes p)) p) "dispatch_node" id
    (Some (dispatch_version r)).
Proof. solve_writes. Qed.
Lemma writes_node p id r :
  writes p (set_workspace_nodes (<[id := r]> (workspace_nodes p)) p) "workspace_node" id
    (Some (node_version r)).
Proof. solve_writes. Qed.
Lemma writes_node_delete p id :
  writes p (set_workspace_nodes (delete id (workspace_nodes p)) p) "workspace_node" id None.
Proof. solve_writes. Qed.
Lemma writes_run p id r :
  writes p (set_workflow_runs (<[id := r]> (workflow_runs p)) p) "workflow_run" id
    (Some (run_version r)).
Proof. solve_writes. Qed.
Lemma writes_pty p id r :
  writes p (set_pty_sessions (<[id := r]> (pty_sessions p)) p) "pty_session" id
    (Some (pty_version r)).
Proof. solve_writes. Qed.
Lemma writes_template p id r :
  writes p (set_pty_templates (<[id := r]> (pty_templates p)) p) "pty_session_template" id
    (Some (tpl_version r)).
Proof. solve_writes. Qed.

(** An arm that touches no versioned table writes nothing. *)
Lemma writes_none p p' ty0 id0 :
  table_version p' = table_version p -> table_version p ty0 id0 = None -> writes p p' ty0 id0 None.
Proof.
  intros Hp Hn ty id. rewrite Hp.
  by destruct (bool_decide_reflect (ty = ty0 /\ id = id0)) as [[-> ->]|].
Qed.

(** Close a goal [writes .. \/ writes ..] by the table the arm has set. *)
Ltac use_writes :=
  lazymatch goal with
  | |- writes _ (set_tasks _ _) _ _ _ \/ _ => left; exact (writes_task _ _ _)
  | |- writes _ (set_attempts _ _) _ _ _ \/ _ => left; exact (writes_attempt _ _ _)
  | |- writes _ (set_messages _ _) _ _ _ \/ _ => left; exact (writes_message _ _ _)
  | |- writes _ (set_commands _ _) _ _ _ \/ _ => left; exact (writes_command _ _ _)
  | |- writes _ (set_gates _ _) _ _ _ \/ _ => left; exact (writes_gate _ _ _)
  | |- writes _ (set_leases _ _) _ _ _ \/ _ => left; exact (writes_lease _ _ _)
  | |- writes _ (set_dispatch_nodes _ _) _ _ _ \/ _ => left; exact (writes_dispatch _ _ _)
  | |- writes _ (set_workspace_nodes (delete _ _) _) _ _ _ \/ _ =>
      right; exact (writes_node_delete _ _)
  | |- writes _ (set_workspace_nodes _ _) _ _ _ \/ _ => left; exact (writes_node _ _ _)
  | |- writes _ (set_workflow_runs _ _) _ _ _ \/ _ => left; exact (writes_run _ _ _)
  | |- writes _ (set_pty_sessions _ _) _ _ _ \/ _ => left; exact (writes_pty _ _ _)
  | |- writes _ (set_pty_templates _ _) _ _ _ \/ _ => left; exact (writes_template _ _ _)
  | |- _ => right; apply writes_none; reflexivity
  end.

(** A stored command goes where the command goes. *)
Lemma route_of_stored (env : envelope) c : route_of env (stored_command c) = route_of env c.
Proof. by destruct c. Qed.

(** An event writes the version of its own row and of no other. *)
Lemma project_version (env : envelope) c rt row (p p' : P) :
  route_of env c = Ok rt -> agg_key row = (r_aggregate_type rt, r_aggregate_id rt) ->
  project_command row c p = Ok p' ->
  writes p p' (aggregate_type row) (aggregate_id row) (Some (aggregate_version row)) \/
  writes p p' (aggregate_type row) (aggregate_id row) None.
Proof.
  intros Hroute Hkey. unfold agg_key in Hkey. injection Hkey as Ht Hi.
  rewrite Ht, Hi. clear Ht Hi.
  unfold route_of in Hroute. apply bind_ok_iff in Hroute as (rt' & Hroute & Hn). inv_ok.
  destruct c; simpl in Hroute; unfold route in Hroute; inv_ok;
    cbn [r_aggregate_type r_aggregate_id]; intros Hp; unfold project_command in Hp;
    unfold_arms; inv_arm.
  all: use_writes.
Qed.



(** ** One statement per event *)

(** The tables a projection may write. *)
Inductive declared : forall R : Type, Table P R -> Prop :=
| d_task : declared _ task_table
| d_attempt : declared _ attempt_table
| d_engine_session : declared _ engine_session_table
| d_message : declared _ message_table
| d_command : declared _ command_table
| d_gate : declared _ gate_table
| d_grant : declared _ authority_grant_table
| d_evidence : declared _ evidence_table
| d_attention : declared _ attention_table
| d_lease : declared _ lease_table
| d_worktree : declared _ worktree_table
| d_dispatch : declared _ dispatch_node_table
| d_node : declared _ workspace_node_table
| d_run : declared _ workflow_run_table
| d_pty : declared _ pty_session_table
| d_template : declared _ pty_template_table
| d_checkpoint : declared _ orch_checkpoint_table
| d_ingested : declared _ ingested_record_table
| d_cost : declared _ cost_entry_table.

(** One statement, or none. *)
Inductive table_write (p p' : P) : Prop :=
| tw_none : p' = p -> table_write p p'
| tw_ins R (t : Table P R) id row : declared R t -> ins t id row p = Ok p' -> table_write p p'
| tw_upd R (t : Table P R) id f : declared R t -> upd t id f p = Ok p' -> table_write p p'
| tw_delete id row :
    workspace_nodes p !! id = Some row ->
    map_Forall (fun _ r => node_parent_id r <> Some id) (delete id (workspace_nodes p)) ->
    p' = set_workspace_nodes (delete id (workspace_nodes p)) p -> table_write p p'.

(** Name the constructor by the table: trying all of them unfolds every table. *)
Ltac by_declared :=
  lazymatch goal with
  | |- declared _ task_table => exact d_task
  | |- declared _ attempt_table => exact d_attempt
  | |- declared _ engine_session_table => exact d_engine_session
  | |- declared _ message_table => exact d_message
  | |- declared _ command_table => exact d_command
  | |- declared _ gate_table => exact d_gate
  | |- declared _ authority_grant_table => exact d_grant
  | |- declared _ evidence_table => exact d_evidence
  | |- declared _ attention_table => exact d_attention
  | |- declared _ lease_table => exact d_lease
  | |- declared _ worktree_table => exact d_worktree
  | |- declared _ dispatch_node_table => exact d_dispatch
  | |- declared _ workspace_node_table => exact d_node
  | |- declared _ workflow_run_table => exact d_run
  | |- declared _ pty_session_table => exact d_pty
  | |- declared _ pty_template_table => exact d_template
  | |- declared _ orch_checkpoint_table => exact d_checkpoint
  | |- declared _ ingested_record_table => exact d_ingested
  | |- declared _ cost_entry_table => exact d_cost
  end.

Lemma upsert_write id row (p p' : P) : upsert_checkpoint id row p = Ok p' -> table_write p p'.
Proof.
  unfold upsert_checkpoint. destruct (orch_checkpoints p !! id) as [old|] eqn:E.
  - intros Hr. inv_ok. simplify_eq.
    eapply (tw_upd _ _ _ orch_checkpoint_table id (fun _ => row)); [exact d_checkpoint|].
    unfold upd. destruct (sql_update _ _ _ _) as [[n q]|] eqn:Hu; [|done]. simpl in *. simplify_eq.
    apply sql_update_ok in Hu as [(Hn & _)|(o & _ & -> & _)]; [|done]. simpl in Hn. congruence.
  - intros Hr. by eapply tw_ins; [exact d_checkpoint|].
Qed.

(** The shape of one arm of the applier. *)
Ltac arm :=
  repeat match goal with
  | H : (_ ≫= _) = Ok _ |- _ => apply bind_ok_iff in H as (? & ? & H)
  | H : upd_cast _ _ _ _ _ = Ok _ |- _ => apply upd_cast_ok in H as (? & ? & H)
  end;
  lazymatch goal with
  | H : ins _ _ _ _ = Ok _ |- _ => eapply tw_ins; [|exact H]; by_declared
  | H : upd _ _ _ _ = Ok _ |- _ => eapply tw_upd; [|exact H]; by_declared
  | H : upsert_checkpoint _ _ _ = Ok _ |- _ => by eapply upsert_write
  | H : mret _ = Ok _ |- _ => injection H as <-; by apply tw_none
  | |- _ => idtac
  end.

Lemma project_table_write (e : event) c (p p' : P) :
  project_command e c p = Ok p' -> table_write p p'.
Proof.
  intros Hp. destruct c; unfold project_command in Hp;
    unfold project_task, project_attempt, project_engine_session, project_lease, project_worktree,
      project_dispatch, project_checkpoint, project_message, project_exec_command,
      project_gate, project_evidence, project_authority, project_attention, project_workspace,
      project_workflow, project_pty_session, project_pty_template, project_ingest in Hp;
    cbn zeta in Hp; arm.
  - destruct (attention_items p !! _) as [item|]; [|done]. destruct (is_some _); [done|]. arm.
  - match goal with H : map_err _ (delete_workspace_node ?id p) = Ok _ |- _ =>
      unfold delete_workspace_node in H; destruct (workspace_nodes p !! id) as [old|] eqn:E end;
      [|by simplify_eq/=].
    destruct (bool_decide _) eqn:Hb; simplify_eq/=. apply bool_decide_eq_true in Hb.
    eapply tw_delete; [exact E|exact Hb|]. by injection Hp as <-.
Qed.

(** ** What a statement keeps *)

(** A row that is there stays, changed by at most one UPDATE its guards let
    through; only a childless workspace node is deleted. *)
Definition evolves {R} (t : Table P R) (p p' : P) : Prop :=
  forall id old, t_get t p !! id = Some old ->
    exists new, t_get t p' !! id = Some new /\
      (new = old \/ t_on_update t (t_get t p) id old new = true).

Ltac write_cases Hw :=
  destruct Hw as [->|R0 t0 id0 row0 Hd Hi|R0 t0 id0 f0 Hd Hu|id0 row0 Hl0 Hc0 ->];
    [ | apply ins_ok in Hi as (Hn & Ht & Hk & Hq & Hf & ->); destruct Hd
      | apply upd_ok in Hu as (old0 & Ho & Ht & Hk & Hq & Hf & ->); destruct Hd | ].

(** The rows of one table under any single statement. *)
Ltac solve_evolves Hw :=
  write_cases Hw; intros id old Hl; simpl in *;
  try (by exists old; auto);
  match goal with
  | |- context [<[?i := ?r]> _ !! _] =>
      destruct (decide (i = id)) as [->|?];
      [rewrite lookup_insert_eq; simplify_eq; eauto
      |rewrite lookup_insert_ne by done; eauto]
  end.

Lemma task_evolves (p p' : P) : table_write p p' -> evolves task_table p p'.
Proof. intros Hw. solve_evolves Hw. Qed.
Lemma attempt_evolves (p p' : P) : table_write p p' -> evolves attempt_table p p'.
Proof. intros Hw. solve_evolves Hw. Qed.
Lemma message_evolves (p p' : P) : table_write p p' -> evolves message_table p p'.
Proof. intros Hw. solve_evolves Hw. Qed.
Lemma command_evolves (p p' : P) : table_write p p' -> evolves command_table p p'.
Proof. intros Hw. solve_evolves Hw. Qed.
Lemma lease_evolves (p p' : P) : table_write p p' -> evolves lease_table p p'.
Proof. intros Hw. solve_evolves Hw. Qed.
Lemma orch_checkpoint_evolves (p p' : P) : table_write p p' -> evolves orch_checkpoint_table p p'.
Proof. intros Hw. solve_evolves Hw. Qed.

(** ** Constraints hold of every row *)

(** The tables foreign keys point into only gain rows. *)
Record grows (p p' : P) : Prop := {
  g_tasks : forall id, references (tasks p) id = true -> references (tasks p') id = true;
  g_attempts : forall id, references (attempts p) id = true -> references (attempts p') id = true;
  g_sessions : forall id, references (engine_sessions p) id = true -> references (engine_sessions p') id = true;
  g_messages : forall id, references (messages p) id = true -> references (messages p') id = true;
  g_leases : forall id, references (leases p) id = true -> references (leases p') id = true;
  g_dispatch : forall id, references (dispatch_nodes p) id = true -> references (dispatch_nodes p') id = true;
  g_nodes : forall id, references (workspace_nodes p) id = true -> references (workspace_nodes p') id = true;
}.

Lemma references_opt_mono {R} (m m' : gmap string R) (o : option string) :
  (forall id, references m id = true -> references m' id = true) ->
  references_opt m o = true -> references_opt m' o = true.
Proof. intros Hm. destruct o; simpl; auto. Qed.

Lemma references_insert {R} (m : gmap string R) id row id' :
  references m id' = true -> references (<[id := row]> m) id' = true.
Proof.
  unfold references. destruct (decide (id = id')) as [->|?].
  - by rewrite lookup_insert_eq.
  - by rewrite lookup_insert_ne.
Qed.

#[local] Hint Resolve references_opt_mono references_insert : gwk.

Lemma grows_refl p : grows p p.
Proof. by split. Qed.

Lemma set_grows {R} (t : Table P R) id row (p : P) :
  declared R t -> grows p (t_set t (<[id := row]> (t_get t p)) p).
Proof. intros Hd. revert row. destruct Hd; intros row; split; simpl; auto with gwk. Qed.

Lemma fk_mono {R} (t : Table P R) (p p' : P) row :
  declared R t -> grows p p' -> t_fk t p row = true -> t_fk t p' row = true.
Proof.
  intros Hd. revert row. destruct Hd; intros row [] Hf; simpl in *;
    rewrite ?andb_true_iff in *; intuition eauto with gwk.
Qed.

(** A foreign key is a function of its columns. *)
Lemma fk_of_cols {R} (t : Table P R) (p : P) a b :
  declared R t -> t_fk_cols t a = t_fk_cols t b -> t_fk t p a = t_fk t p b.
Proof.
  intros Hd. revert a b. destruct Hd; intros a b Hc; simpl in *; unfold no_fk; try reflexivity;
    by simplify_eq; repeat match goal with H : _ = _ |- _ => rewrite H; clear H end.
Qed.

(** The rows of a table after a write to a table. *)
Lemma set_rows {R R0} (t : Table P R) (t0 : Table P R0) id0 row0 (p : P) id row :
  declared R t -> declared R0 t0 -> t_get t (t_set t0 (<[id0 := row0]> (t_get t0 p)) p) !! id = Some row ->
  t_get t p !! id = Some row \/
  id = id0 /\ forall Q : (forall R, Table P R -> R -> Prop), Q R0 t0 row0 -> Q R t row.
Proof.
  intros Hd Hd0. revert row row0.
  destruct Hd0; destruct Hd; intros row row0 Hl; simpl in *; try (by left);
    (destruct (decide (id0 = id)) as [<-|?];
     [rewrite lookup_insert_eq in Hl; injection Hl as <-; by right
     |rewrite lookup_insert_ne in Hl by done; by left]).
Qed.

(** Every row meets the CHECK constraints and foreign keys of its table. *)
Definition rows_ok (p : P) : Prop :=
  forall R (t : Table P R) id row, declared R t -> t_get t p !! id = Some row ->
    t_check t row = true /\ t_fk t p row = true.

Lemma write_rows_ok (p p' : P) : table_write p p' -> rows_ok p -> rows_ok p'.
Proof.
  intros Hw Hp. destruct Hw as [->|R0 t0 id0 row0 Hd0 Hi|R0 t0 id0 f0 Hd0 Hu|id0 row0 Hl0 Hc0 ->]; [done|..].
  - apply ins_ok in Hi as (_ & _ & Hk & _ & Hf & ->). intros R t id row Hd Hl.
    destruct (set_rows _ _ _ _ _ _ _ Hd Hd0 Hl) as [Hold|[_ HQ]].
    + destruct (Hp _ _ _ _ Hd Hold). split; [done|]. eapply fk_mono; [done| |done]. by apply set_grows.
    + by apply (HQ (fun R t r => t_check t r = true /\ t_fk t _ r = true)).
  - apply upd_ok in Hu as (old & Ho & _ & Hk & _ & Hf & ->). intros R t id row Hd Hl.
    destruct (set_rows _ _ _ _ _ _ _ Hd Hd0 Hl) as [Hold|[_ HQ]].
    + destruct (Hp _ _ _ _ Hd Hold). split; [done|]. eapply fk_mono; [done| |done]. by apply set_grows.
    + apply (HQ (fun R t r => t_check t r = true /\ t_fk t _ r = true)). split; [done|].
      destruct Hf as [Hc|Hf]; [|done]. rewrite (fk_of_cols _ _ _ _ Hd0 Hc).
      eapply fk_mono; [done|by apply set_grows|]. by eapply Hp.
  - intros R t id row Hd Hl.
    assert (t_get t p !! id = Some row) as Hl'.
    { revert row Hl. destruct Hd; intros row Hl; simpl in *; try done. by apply lookup_delete_Some in Hl as [_ ?]. }
    destruct (Hp _ _ _ _ Hd Hl') as [Hk Hf]. split; [done|].
    revert row Hl Hl' Hk Hf. destruct Hd; intros row Hl Hl' Hk Hf; simpl in *; try done.
    specialize (Hc0 _ _ Hl). simpl in Hc0. destruct (node_parent_id row) as [parent|]; [|done]. simpl in *.
    unfold references in *. by rewrite lookup_delete_ne by congruence.
Qed.

Lemma empty_rows_ok : rows_ok empty_proj.
Proof. intros R t id row Hd. revert row. destruct Hd; intros row; simpl; by rewrite lookup_empty. Qed.

(** ** One open item per subject *)

Definition slots_ok (p : P) : Prop :=
  forall id1 id2 r1 r2 s,
    attention_items p !! id1 = Some r1 -> attention_items p !! id2 = Some r2 ->
    attn_resolved_at r1 = None -> attn_resolved_at r2 = None ->
    attn_kind r1 = attn_kind r2 -> attn_subject_ref r1 = Some s -> attn_subject_ref r2 = Some s ->
    id1 = id2.

Lemma no_other_spec {R} (f : R -> bool) (m : gmap string R) id :
  no_other f m id = true <-> forall id' r, m !! id' = Some r -> f r = true -> id' = id.
Proof.
  unfold no_other. rewrite bool_decide_eq_true. split.
  - intros Hm id' r Hl Hf. destruct (Hm _ _ Hl) as [?|Hn]; [done|congruence].
  - intros Hm id' r Hl. destruct (f r) eqn:E; [left; by eapply Hm|by right].
Qed.

Lemma slots_insert id row (p p' : P) :
  attention_items p' = <[id := row]> (attention_items p) -> slots_ok p ->
  t_unique (attention_table (V := V)) (attention_items p) id row = true -> slots_ok p'.
Proof.
  intros Hm Hp Hu id1 id2 r1 r2 s. rewrite Hm, !lookup_insert_Some.
  assert (forall id' r, attention_items p !! id' = Some r -> attn_resolved_at r = None ->
            attn_resolved_at row = None -> attn_kind r = attn_kind row ->
            attn_subject_ref r = Some s -> attn_subject_ref row = Some s -> id' = id) as Hone.
  { intros id' r Hl Hr Hr0 Hk Hs Hs0. simpl in Hu. rewrite Hr0 in Hu. simpl in Hu.
    eapply no_other_spec; [done..|]. unfold holds_slot.
    rewrite Hr, Hs, Hs0. by rewrite !bool_decide_eq_true_2 by done. }
  intros [[<- <-]|[H1 L1]] [[<- <-]|[H2 L2]] R1 R2 K S1 S2; try done.
  - symmetry. by eapply Hone.
  - by eapply Hone.
  - by eapply Hp.
Qed.

Lemma write_slots_ok (p p' : P) : table_write p p' -> slots_ok p -> slots_ok p'.
Proof.
  intros Hw Hp. write_cases Hw; [done|..]; simpl in *; try exact Hp; by eapply (slots_insert _ _ p).
Qed.

(** ** The rows of a state machine *)

(** A table whose state column is a machine of the domain crate. *)
Class FsmRows (S R : Type) `{SeededMachine S} := {
  rows_of : P -> gmap string R;
  state_col : R -> string;
  version_col : R -> Z;
  rows_evolve : forall p p' id old, table_write p p' -> rows_of p !! id = Some old ->
    exists new, rows_of p' !! id = Some new /\
      (new = old \/ assert_transition (seeded_as S) (state_col old) (state_col new)
                      (version_col old) (version_col new) = true);
  rows_known : forall p id row, rows_ok p -> rows_of p !! id = Some row ->
    exists s : S, state_col row = wire_name s;
}.

Ltac known_state :=
  match goal with H : one_of _ _ = true |- _ => unfold one_of in H; apply bool_decide_eq_true in H;
    repeat (apply elem_of_cons in H as [->|H]); [..|by apply not_elem_of_nil in H] end.

#[export] Instance task_rows : FsmRows TaskState (TaskRow instant).
Proof.
  refine {| rows_of := tasks; state_col := task_state; version_col := task_version |}.
  - intros p p' id old Hw. by apply (task_evolves p p').
  - intros p id row Hp Hl. destruct (Hp _ task_table _ _ d_task Hl) as [Hc _]. simpl in Hc. unbool.
    known_state; [by exists TaskSubmitted|by exists TaskWorking|by exists TaskInputRequired
                 |by exists TaskCompleted|by exists TaskFailed|by exists TaskCanceled].
Defined.

#[export] Instance attempt_rows : FsmRows AttemptState (AttemptRow instant).
Proof.
  refine {| rows_of := attempts; state_col := attempt_state; version_col := attempt_version |}.
  - intros p p' id old Hw. by apply (attempt_evolves p p').
  - intros p id row Hp Hl. destruct (Hp _ attempt_table _ _ d_attempt Hl) as [Hc _]. simpl in Hc. unbool.
    known_state; [by exists AttemptQueued|by exists AttemptLeased|by exists AttemptStarting
                 |by exists AttemptRunning|by exists AttemptBlocked|by exists AttemptCanceling
                 |by exists AttemptCanceled|by exists AttemptFailed|by exists AttemptUnknown
                 |by exists AttemptSucceeded].
Defined.

#[export] Instance message_rows : FsmRows MessageState (MessageRow instant V).
Proof.
  refine {| rows_of := messages; state_col := message_state; version_col := message_version |}.
  - intros p p' id old Hw. by apply (message_evolves p p').
  - intros p id row Hp Hl. destruct (Hp _ message_table _ _ d_message Hl) as [Hc _]. simpl in Hc. unbool.
    known_state; [by exists MessageAccepted|by exists MessageDelivered|by exists MessageAcknowledged
                 |by exists MessageApplied|by exists MessageRejected|by exists MessageDeadLetter].
Defined.

#[export] Instance command_rows : FsmRows CommandState (CmdRow instant).
Proof.
  refine {| rows_of := commands; state_col := cmd_state; version_col := cmd_version |}.
  - intros p p' id old Hw. by apply (command_evolves p p').
  - intros p id row Hp Hl. destruct (Hp _ command_table _ _ d_command Hl) as [Hc _]. simpl in Hc. unbool.
    known_state; [by exists CommandIssued|by exists CommandTargeted|by exists CommandSignaled
                 |by exists CommandVerificationComplete].
Defined.

(** Only a transition of that attempt moves an attempt's state column. *)
Lemma attempt_state_moves (e : event) c (p p' : P) id old new :
  project_command e c p = Ok p' ->
  attempts p !! id = Some old -> attempts p' !! id = Some new ->
  attempt_state new = attempt_state old \/
  exists to v r, c = TransitionAttempt id to v r /\ attempt_state new = wire_name to.
Proof.
  intros Hp Ho Hn.
  assert (attempts p' = attempts p \/ exists i r, attempts p' = <[i := r]> (attempts p) /\
            (attempts p !! i = None \/ exists o, attempts p !! i = Some o /\
               (attempt_state r = attempt_state o \/
                exists to v rc, c = TransitionAttempt i to v rc /\ attempt_state r = wire_name to)))
    as [He|(i & r & He & Hi)].
  { clear Ho Hn. destruct c; unfold project_command in Hp; unfold_arms; inv_arm;
      try (left; reflexivity); right; eexists _, _; (split; [reflexivity|]); first [by left|right; eauto 10]. }
  - rewrite He in Hn. left. congruence.
  - rewrite He in Hn. apply lookup_insert_Some in Hn as [[-> ->]|[? Hn]]; [|left; congruence].
    destruct Hi as [Hi|(o & Hi & Hcase)]; [congruence|].
    assert (o = old) as -> by congruence.
    destruct Hcase as [?|(to & v & rc & -> & ?)]; [by left|right; eauto].
Qed.
End Writes.
