(* ===== verification/Kernel.v ===== *)
(** * The kernel as a transition system

    What one call of [submit] may do to the database, as one lemma with two
    outcomes: it leaves the log alone, or it appends one event whose projection
    is the new state of the tables.  The steps of the running system (a process
    claiming the writer epoch, a fence grant, genesis, a submission by any
    process) and the states they reach, with the invariants of those states. *)

From S2P Require Import Prelude Text Fsm Envelope Transition Command Tables Db Store Project Authority Submit Writes.

Section Kernel.
Context `{TZ : Timestamptz} `{TZL : !TimestamptzLaws} {V : Type} `{SD : Serde V} `{SDL : !SerdeLaws V}
  `{HM : Hmac}.
Context (apply_context_event : EventEnvelope V -> Proj instant V -> result Refusal (Proj instant V)).
Notation event := (EventEnvelope V).
Notation P := (Proj instant V).
Notation database := (Db instant V).
Notation command := (KernelCommand V).
Notation envelope := (CommandEnvelope V).
Notation store := (Store (V := V)).
Notation submit := (submit apply_context_event).

(** ** The pieces *)

Lemma write_receipt_ok r (db db' : database) :
  write_receipt r db = Ok db' ->
  exists m, db' = set_receipts m db /\ receipts db ⊆ m.
Proof.
  unfold write_receipt. intros Hr. inv_ok. destruct (receipts db !! receipt_id r) as [old|] eqn:E.
  - inv_ok. exists (receipts db'). by destruct db'.
  - inv_ok. eexists. split; [done|]. by apply insert_subseteq.
Qed.

Lemma write_receipt_row r (db db' : database) :
  write_receipt r db = Ok db' ->
  exists row, receipts db' !! receipt_id r = Some row /\ rc_actor row = receipt_actor r /\
    rc_action row = receipt_action r /\ rc_subject_type row = receipt_subject_type r /\
    rc_subject_id row = receipt_subject_id r.
Proof.
  unfold write_receipt. intros Hr. inv_ok. destruct (receipts db !! receipt_id r) as [old|] eqn:E.
  - inv_ok. unbool. subst. by eexists.
  - inv_ok. simpl. rewrite lookup_insert_eq. by eexists.
Qed.

(** Two databases that differ in their receipts at most, and only by growth. *)
Definition same_but_receipts (db db' : database) : Prop :=
  exists m, db' = set_receipts m db /\ receipts db ⊆ m.

Lemma same_but_receipts_refl db : same_but_receipts db db.
Proof. exists (receipts db). by destruct db. Qed.

Lemma route_not_context (env : envelope) c rt :
  route_of env c = Ok rt -> is_context_aggregate (r_aggregate_type rt) = false.
Proof.
  unfold route_of. intros Hr. apply bind_ok_iff in Hr as (rt' & Hr & Hn). inv_ok.
  destruct c; simpl in Hr; unfold route in Hr; inv_ok; done.
Qed.

Lemma build_event_ok (env : envelope) body rt v e :
  build_event env body rt v = Ok e ->
  aggregate_type e = r_aggregate_type rt /\ aggregate_id e = r_aggregate_id rt /\
  aggregate_version e = (v + 1)%Z /\ (v + 1 <= u32_max)%Z /\ payload e = body /\
  event_type e = r_event_type rt /\ project_id e = ce_project_id env /\
  actor e = ce_actor env /\ idempotency_key e = Some (ce_idempotency_key env) /\
  event_id e = r_aggregate_type rt +:+ ":" +:+ r_aggregate_id rt +:+ ":"
               +:+ Numeric.to_numeric_text (v + 1).
Proof.
  unfold build_event. intros Hr. inv_ok. apply checked_add_some in Hrun as [-> Hle]. done.
Qed.

Lemma prepare_ok (st : store) (env : envelope) carrier pre :
  prepare st env carrier = Ok pre ->
  deserialize (ce_payload env) = Some (pre_command pre) /\
  ce_command_type env = command_type (pre_command pre) /\
  route_of env (pre_command pre) = Ok (pre_route pre) /\
  pre_payload pre = to_value (pre_command pre) /\
  check_activation env (pre_command pre) = Ok tt /\
  check_authority_admin env (pre_command pre) = Ok tt /\
  (0 < permits st)%Z.
Proof.
  unfold prepare, admit_append. intros Hr. inv_ok.
  repeat match goal with H : map_err _ ?m = Ok _ |- _ => destruct m eqn:?; simpl in H; [|done] end.
  inv_ok. unfold from_envelope in *. inv_ok. unbool. simpl.
  repeat match goal with u : () |- _ => destruct u end. done.
Qed.

Lemma checkpoint_if_due_ok (st : store) ws through at_ (db db' : database) :
  checkpoint_if_due st ws through at_ db = Ok db' ->
  log db' = log db /\ proj db' = proj db /\ receipts db' = receipts db /\
  deliveries db' = deliveries db /\
  (writer db' = writer db \/ exists w w', writer db = Some w /\ writer db' = Some w' /\
     w_epoch w' = w_epoch w /\ w_fence_token w' = w_fence_token w /\ w_next_seq w' = w_next_seq w /\
     is_u64 (w_checkpoint_seq w')).
Proof.
  unfold checkpoint_if_due. destruct (blobs st) as [b|]; [|intros Hr; inv_ok; eauto 10].
  destruct (checkpoint_due ws through); [|intros Hr; inv_ok; eauto 10].
  unfold snapshot. intros Hr. inv_ok. unbool.
  destruct (checkpoints db !! through); simpl; (split; [done|]; split; [done|]; split; [done|]; split; [done|]);
    (destruct (writer db) as [w|]; [right; eexists _, _; repeat split; simpl; lia|by left]).
Qed.

Lemma log_inv_ext (db db' : database) :
  log_inv db -> log db' = log db ->
  (writer db' = writer db \/ exists w w', writer db = Some w /\ writer db' = Some w' /\
     w_next_seq w' = w_next_seq w) ->
  log_inv db'.
Proof.
  intros [(w & Hw & Hn & Hlt) Hi Hc Hd Hk] Hl Hwr. split; rewrite ?Hl; try done.
  destruct Hwr as [->|(w1 & w2 & H1 & H2 & H3)]; [by exists w|].
  exists w2. simplify_eq. by rewrite H3.
Qed.

(** ** What a submission does *)

(** The receipt of a gated command is on record. *)
Definition receipted (env : envelope) (rt : Route) (cls : string) (db : database) : Prop :=
  exists row, receipts db !! ("receipt:" +:+ ce_project_id env +:+ ":" +:+ ce_idempotency_key env) = Some row /\
    rc_actor row = ce_actor env /\ rc_action row = cls /\
    rc_subject_type row = r_aggregate_type rt /\ rc_subject_id row = r_aggregate_id rt.

(** What a grant must cover for a command: the template a start names, the
    aggregate otherwise. *)
Definition gate_subject (c : command) (rt : Route) : string :=
  match c with
  | RequestPtySessionStart template_name _ => template_name
  | _ => r_aggregate_id rt
  end.

(** The command was new, and its one event and that event's projection are in
    the database. *)
Record applied_effect (clock : TxClock) (env : envelope) (db db' : database) (c : command) (rt : Route) (v : Z)
    (row : event) : Prop := {
  ae_decode : deserialize (ce_payload env) = Some c;
  ae_type : ce_command_type env = command_type c;
  ae_route : route_of env c = Ok rt;
  ae_activation : check_activation env c = Ok tt;
  ae_admin : check_authority_admin env c = Ok tt;
  ae_epoch : exists ep, epoch_of (log db) = Ok ep /\ admitted ep c = true;
  ae_unused : events_for_key (log db) (ce_project_id env) (r_aggregate_type rt) (r_aggregate_id rt)
                (ce_idempotency_key env) = [];
  ae_owner : check_aggregate_owner env rt (log db) = Ok tt;
  ae_decide : decide_command env c rt db = Ok v;
  ae_version : v = Z.of_nat (length (versions (log db) (r_aggregate_type rt) (r_aggregate_id rt)));
  ae_expected : check_expected_version env v = Ok tt;
  ae_key : agg_key row = (r_aggregate_type rt, r_aggregate_id rt);
  ae_row_version : aggregate_version row = (v + 1)%Z;
  ae_row_payload : payload row = jsonb (to_value c);
  ae_row_type : event_type row = r_event_type rt;
  ae_row_project : project_id row = ce_project_id env;
  ae_row_actor : actor row = ce_actor env;
  ae_row_idem : idempotency_key row = Some (ce_idempotency_key env);
  ae_row_id : event_id row = r_aggregate_type rt +:+ ":" +:+ r_aggregate_id rt +:+ ":"
                             +:+ Numeric.to_numeric_text (v + 1);
  ae_row_at : appended_at row = ts_json (tx_now clock);
  ae_log : log db' = log db ++ [row];
  ae_proj : project_command row (stored_command c) (proj db) = Ok (proj db');
  ae_receipts : receipts db ⊆ receipts db';
  ae_inv : log_inv db';
  ae_writer : exists w w', writer db = Some w /\ writer db' = Some w' /\
    w_epoch w' = w_epoch w /\ w_fence_token w' = w_fence_token w /\
    global_sequence row = w_next_seq w /\ w_next_seq w' = (w_next_seq w + 1)%Z /\
    (is_u64 (w_checkpoint_seq w) -> is_u64 (w_checkpoint_seq w'));
  ae_authority : exists d,
    evaluate (proj db) (tx_wall clock) env (classification_key (ce_command_type env) c) (gate_subject c rt) = Ok d /\
    match d with
    | Unclassified => True
    | Allow cls _ => receipted env rt cls db'
    | Page _ _ => False
    end;
  ae_dedup : check_attention_dedup c (proj db) = Ok tt;
}.

(** Nothing was appended.  The receipts may have grown, and a page may have
    raised one attention item. *)
Definition quiet_effect (db db' : database) : Prop :=
  log db' = log db /\ writer db' = writer db /\ deliveries db' = deliveries db /\
  checkpoints db' = checkpoints db /\ receipts db ⊆ receipts db' /\
  (proj db' = proj db \/
   exists id row, ins attention_table id row (proj db) = Ok (proj db')).

Lemma quiet_refl db : quiet_effect db db.
Proof. repeat split; auto. Qed.

Lemma stored_under_subset (l : list event) first k e ty id project0 :
  agg_key first = (ty, id) -> e ∈ stored_under l first [k] -> e ∈ events_for_key l project0 ty id k.
Proof.
  intros Hf (He & Ha & k' & Hk & ->%list_elem_of_singleton)%stored_under_spec.
  unfold events_for_key. apply list_elem_of_In, filter_In. split; [by apply list_elem_of_In|].
  rewrite bool_decide_eq_true_2 by done. simpl. rewrite (proj2 (in_aggregate_spec ty id e)).
  - by rewrite orb_true_r.
  - congruence.
Qed.

(** One event whose key its aggregate has not used goes to the end of the log. *)
Lemma append_one_fresh (st : store) clock ws v fence e (db db' : database) a :
  log_inv db -> lock_writer st clock db = Ok ws -> stored_under (log db) e (batch_keys [e]) = [] ->
  append_locked clock ws v fence [e] db = Ok (a, db') ->
  exists row w, a = {| app_events := [row]; app_replayed := false |} /\ landed (tx_now clock) e row /\
    writer db = Some w /\ global_sequence row = w_next_seq w /\
    db' = set_writer (Some (with_next_seq (w_next_seq w + 1) w)) (set_log (log db ++ [row]) db) /\
    v = Z.of_nat (length (versions (log db) (aggregate_type e) (aggregate_id e))) /\ log_inv db'.
Proof.
  intros Hinv Hlock Hkey Happ. destruct (lock_writer_ok _ _ _ _ Hinv Hlock) as (w & Hw & _ & Hn).
  pose proof (append_locked_inv st clock _ _ _ _ _ _ _ Hinv Hlock Happ) as Hinv'.
  apply (append_locked_ok _ _ _ _ _ _ _ _ w) in Happ as (_ & _ & first & [= <-] & Hout); [|done..].
  destruct Hout as [[_ _ Hrows _ _ Hsome]|[Hflag _ Hcas Hlog HF (w0 & Hw0 & Hq & Hdb & Hmax) _ _]];
    [congruence|].
  simplify_eq. destruct a as [rows flag]. simpl in *. subst flag.
  inversion HF as [|? row ? rest Hland HF']; subst. inversion HF'; subst.
  injection Hq as Hq. exists row, w0. split; [done|]. split; [done|]. split; [done|].
  split; [lia|]. by split.
Qed.

Lemma stored_under_unused (l : list event) e k project0 :
  idempotency_key e = Some k ->
  events_for_key l project0 (aggregate_type e) (aggregate_id e) k = [] ->
  stored_under l e (batch_keys [e]) = [].
Proof.
  intros Hk Hu. apply stored_under_nil. intros x Hx. unfold batch_keys in Hx. csimpl in Hx.
  rewrite Hk in Hx. eapply stored_under_subset in Hx; [|done]. rewrite Hu in Hx.
  by apply not_elem_of_nil in Hx.
Qed.

(** The barrier of a transaction that has appended one row. *)
Lemma checkpoint_after_row (st : store) ws through at_ (db db2 db' : database) row w :
  log_inv db2 -> writer db = Some w -> log db2 = log db ++ [row] ->
  writer db2 = Some (with_next_seq (w_next_seq w + 1) w) ->
  checkpoint_if_due st ws through at_ db2 = Ok db' ->
  log_inv db' /\ log db' = log db ++ [row] /\ proj db' = proj db2 /\ receipts db' = receipts db2 /\
  exists w', writer db' = Some w' /\ w_epoch w' = w_epoch w /\
    w_fence_token w' = w_fence_token w /\ w_next_seq w' = (w_next_seq w + 1)%Z /\
    (is_u64 (w_checkpoint_seq w) -> is_u64 (w_checkpoint_seq w')).
Proof.
  intros Hinv Hw Hl Hw2 Hck. apply checkpoint_if_due_ok in Hck as (Hl3 & Hp3 & Hr3 & _ & Hw3).
  split.
  { eapply (log_inv_ext _ _ Hinv); [done|].
    destruct Hw3 as [?|(w1 & w2 & ? & ? & _ & _ & ? & _)]; [by left|right; by exists w1, w2]. }
  split; [congruence|]. split; [done|]. split; [done|]. rewrite Hw2 in Hw3.
  destruct Hw3 as [->|(w1 & w2 & [= <-] & H2 & H3 & H4 & H5 & H6)]; [by eexists|by exists w2].
Qed.

(** The tail of the pipeline, from the version the command was decided at. *)
Lemma append_and_project_ok (st : store) clock ws env pre v (db db1 db' : database) verdict :
  log_inv db -> same_but_receipts db db1 -> lock_writer st clock db = Ok ws ->
  route_of env (pre_command pre) = Ok (pre_route pre) ->
  pre_payload pre = to_value (pre_command pre) ->
  deserialize (jsonb (to_value (pre_command pre))) = Some (stored_command (pre_command pre)) ->
  events_for_key (log db) (ce_project_id env) (r_aggregate_type (pre_route pre))
    (r_aggregate_id (pre_route pre)) (ce_idempotency_key env) = [] ->
  append_and_project apply_context_event st clock ws env pre v db1 = Ok (db', verdict) ->
  exists row e w w', verdict = VApplied [row] /\ check_expected_version env v = Ok tt /\
    build_event env (pre_payload pre) (pre_route pre) v = Ok e /\
    landed (tx_now clock) e row /\ log db' = log db ++ [row] /\
    project_command row (stored_command (pre_command pre)) (proj db) = Ok (proj db') /\
    receipts db ⊆ receipts db' /\ log_inv db' /\
    v = Z.of_nat (length (versions (log db) (r_aggregate_type (pre_route pre))
                            (r_aggregate_id (pre_route pre)))) /\
    writer db = Some w /\ writer db' = Some w' /\
    w_epoch w' = w_epoch w /\ w_fence_token w' = w_fence_token w /\
    global_sequence row = w_next_seq w /\ w_next_seq w' = (w_next_seq w + 1)%Z /\
    (is_u64 (w_checkpoint_seq w) -> is_u64 (w_checkpoint_seq w')) /\
    receipts db1 ⊆ receipts db'.
Proof.
  intros Hinv (m & -> & Hm) Hlock Hroute Hpay Hdec Hunused. unfold append_and_project. intros Hr.
  apply bind_ok_iff in Hr as ([] & Hexp & Hr). apply bind_ok_iff in Hr as (e & Hbuild & Hr).
  apply bind_ok_iff in Hr as ([a dba] & Happ & Hr).
  destruct (append_locked _ _ _ _ _ _) as [[a' dba']|] eqn:Happ'; [|done]. injection Happ as -> ->.
  pose proof (build_event_ok _ _ _ _ _ Hbuild) as (Hty & Hid & _ & _ & Hbody & _ & _ & _ & Hidem & _).
  eapply (append_one_fresh st) in Happ' as (row & w & -> & Hland & Hw & Hseq & Hdba & Hv & Hinva);
    [|by eapply (log_inv_ext db); eauto|done|by eapply stored_under_unused; [|rewrite Hty, Hid]].
  rewrite Hty, Hid in Hv. simpl in *.
  apply bind_ok_iff in Hr as (dbb & Hproj & Hr). apply bind_ok_iff in Hproj as (p & Hp & Hdel).
  apply bind_ok_iff in Hr as (dbc & Hck & Hr). injection Hr as -> <-.
  destruct (checkpoint_if_due _ _ _ _ _) eqn:Hck'; [|done]. injection Hck as ->.
  assert (exists dl, dbb = set_deliveries dl (set_proj p dba)) as (dl & ->).
  { destruct (receipted_pty_command _).
    - unfold register_delivery in Hdel. inv_ok. by eexists.
    - injection Hdel as <-. exists (deliveries dba). by destruct dba. }
  assert (project_command row (stored_command (pre_command pre)) (proj dba) = Ok p) as Hpc.
  { unfold apply_events in Hp. simpl in Hp. apply bind_ok_iff in Hp as (p' & Hp & [= ->]).
    unfold apply_event in Hp. pose proof (landed_fields _ _ _ Hland) as (Hka & _ & _ & _ & _ & _ & Hpl & _).
    unfold agg_key in Hka. injection Hka as Hta _.
    rewrite Hta, Hty, (route_not_context _ _ _ Hroute), Hpl, Hbody, Hpay, Hdec in Hp. done. }
  subst dba. eapply (checkpoint_after_row _ _ _ _ db) in Hck'
    as (Hinv' & Hl3 & Hp3 & Hr3 & w' & Hw' & E1 & E2 & E3 & E4);
    [|by eapply (log_inv_ext _ _ Hinva); eauto|done..].
  simpl in *. exists row, e, w, w'. rewrite Hp3, Hr3. by repeat (split; [done|]).
Qed.

Lemma page_attention_ok id summary subject who at_text (p p' : P) :
  page_attention id summary subject who at_text p = Ok p' ->
  p' = p \/ exists row, ins attention_table id row p = Ok p'.
Proof.
  unfold page_attention. intros Hr. inv_ok. cbn zeta in Hr.
  destruct (bool_decide _); [|inv_ok; by left]. right. by eexists.
Qed.

Lemma quiet_of_receipts db db' : same_but_receipts db db' -> quiet_effect db db'.
Proof. intros (m & -> & Hm). repeat split; auto. Qed.

Lemma paged_ok env c rt cls basis (db db' : database) verdict :
  paged env c rt cls basis db = Ok (db', verdict) ->
  quiet_effect db db' /\ exists r, verdict = VRefused r /\ code r = EAuthority.
Proof.
  unfold paged. intros Hr. inv_ok. simplify_eq. split; [|by eexists].
  apply write_receipt_ok in Hrun as (m & -> & Hm).
  apply page_attention_ok in Hrun0 as [->|(row & Hi)]; (split; [done|]); repeat split; auto.
  simpl. right. by eexists _, _.
Qed.

Lemma receipted_pty_refusal_ok env c rt authority refusal (db db' : database) verdict :
  receipted_pty_refusal env c rt authority refusal db = Ok (db', verdict) ->
  same_but_receipts db db' /\ verdict = VRefused refusal.
Proof.
  unfold receipted_pty_refusal. destruct authority. intros Hr. inv_ok. simplify_eq.
  by apply write_receipt_ok in Hrun.
Qed.

(** The receipt of an allowed command, before the decision or after it. *)
Lemma receipt_step_ok (b : bool) (o : option (string * string)) (f : string -> string -> Receipt)
    (db db' : database) :
  (if b then mret db
   else match o with Some (x, y) => write_receipt (f x y) db | None => mret db end) = Ok db' ->
  same_but_receipts db db'.
Proof.
  destruct b; [intros [= ->]; apply same_but_receipts_refl|].
  destruct o as [[x y]|]; [apply write_receipt_ok|intros [= ->]; apply same_but_receipts_refl].
Qed.

Lemma same_but_receipts_trans db1 db2 db3 :
  same_but_receipts db1 db2 -> same_but_receipts db2 db3 -> same_but_receipts db1 db3.
Proof. intros (m & -> & Hm) (m' & -> & Hm'). exists m'. split; [done|]. by etransitivity. Qed.

Lemma decide_command_receipts env c rt (db db1 : database) :
  same_but_receipts db db1 -> decide_command env c rt db1 = decide_command env c rt db.
Proof. by intros (m & -> & _). Qed.

(** The effect of a committed transaction whose key was unused. *)
Definition fresh_effect (clock : TxClock) (env : envelope) (db db' : database) (verdict : Verdict) : Prop :=
  (quiet_effect db db' /\ exists r, verdict = VRefused r) \/
  exists c rt v row, applied_effect clock env db db' c rt v row /\ verdict = VApplied [row].

(** The effect of a committed transaction. *)
Definition effect (clock : TxClock) (env : envelope) (db db' : database) (verdict : Verdict) : Prop :=
  (quiet_effect db db' /\
   ((exists r, verdict = VRefused r) \/
    (db' = db /\ exists rows, verdict = VApplied rows /\ rows <> [] /\
       forall row, row ∈ rows -> row ∈ log db))) \/
  exists c rt v row, applied_effect clock env db db' c rt v row /\ verdict = VApplied [row].

(** The receipt of an allowed command is written before the decision, a PTY
    control's after it; either way it is there before the append. *)
Lemma receipts_written env c rt (authority : option (string * string)) (db db1 db2 : database) :
  (if receipted_pty_command c then mret db
   else match authority with
        | Some (x, y) => write_receipt (receipt_for env rt c x y) db
        | None => mret db
        end) = Ok db1 ->
  (if receipted_pty_command c then
     '(x, y) ← ok_or authority storage; write_receipt (receipt_for env rt c x y) db1
   else mret db1) = Ok db2 ->
  same_but_receipts db db2 /\
  match authority with Some (cls, _) => receipted env rt cls db2 | None => True end.
Proof.
  destruct (receipted_pty_command c).
  - intros [= <-] Hr. apply bind_ok_iff in Hr as ([x y] & [= ->]%ok_or_ok_iff & Hr).
    split; [by apply write_receipt_ok in Hr|by apply write_receipt_row in Hr].
  - intros Hr [= <-]. destruct authority as [[x y]|]; [|injection Hr as <-; auto using same_but_receipts_refl].
    split; [by apply write_receipt_ok in Hr|by apply write_receipt_row in Hr].
Qed.

Lemma receipted_mono env rt cls (db db' : database) :
  receipts db ⊆ receipts db' -> receipted env rt cls db -> receipted env rt cls db'.
Proof. intros Hs (row & Hr & Hrow). exists row. split; [by eapply lookup_weaken|done]. Qed.

(** The arm of an allowed or unclassified command, [authority] its basis. *)
Lemma submit_allowed_ok (st : store) clock ws ep env pre carrier authority (db db' : database) verdict :
  log_inv db -> prepare st env carrier = Ok pre -> lock_writer st clock db = Ok ws ->
  epoch_of (log db) = Ok ep -> admitted ep (pre_command pre) = true ->
  events_for_key (log db) (ce_project_id env) (r_aggregate_type (pre_route pre))
    (r_aggregate_id (pre_route pre)) (ce_idempotency_key env) = [] ->
  check_aggregate_owner env (pre_route pre) (log db) = Ok tt ->
  (exists d, evaluate (proj db) (tx_wall clock) env
     (classification_key (ce_command_type env) (pre_command pre))
     (gate_subject (pre_command pre) (pre_route pre)) = Ok d /\
     authority_result d = authority /\ match d with Page _ _ => False | _ => True end) ->
  (db1 ← (if receipted_pty_command (pre_command pre) then mret db
          else match authority with
               | Some (x, y) => write_receipt (receipt_for env (pre_route pre) (pre_command pre) x y) db
               | None => mret db
               end);
   _ ← check_attention_dedup (pre_command pre) (proj db1);
   match decide_command env (pre_command pre) (pre_route pre) db1 with
   | Err refusal =>
       if receipted_pty_command (pre_command pre) then
         auth ← ok_or authority storage;
         receipted_pty_refusal env (pre_command pre) (pre_route pre) auth refusal db1
       else Err refusal
   | Ok v =>
       db2 ← (if receipted_pty_command (pre_command pre) then
                '(x, y) ← ok_or authority storage;
                write_receipt (receipt_for env (pre_route pre) (pre_command pre) x y) db1
              else mret db1);
       append_and_project apply_context_event st clock ws env pre v db2
   end) = Ok (db', verdict) ->
  fresh_effect clock env db db' verdict.
Proof.
  intros Hinv Hprep Hlock Hep Hadm Hunused Hown (d & Hd & Hauth & Hnp) Hr.
  apply prepare_ok in Hprep as (Hdec & Hcty & Hroute & Hpay & Hact & Hadmin & _).
  apply bind_ok_iff in Hr as (db1 & Hrec & Hr).
  pose proof (receipt_step_ok _ _ (receipt_for env (pre_route pre) (pre_command pre)) _ _ Hrec) as Hs1.
  apply bind_ok_iff in Hr as ([] & Hdedup & Hr).
  rewrite (decide_command_receipts _ _ _ _ _ Hs1) in Hr.
  destruct (decide_command env (pre_command pre) (pre_route pre) db) as [v|r] eqn:Hdecide.
  2:{ destruct (receipted_pty_command (pre_command pre)); [|done].
      apply bind_ok_iff in Hr as (auth & _ & Hr). apply receipted_pty_refusal_ok in Hr as [Hs ->].
      left. split; [by eapply quiet_of_receipts, same_but_receipts_trans|by eexists]. }
  apply bind_ok_iff in Hr as (db2 & Hrec2 & Hr).
  destruct (receipts_written _ _ _ _ _ _ _ Hrec Hrec2) as [Hs2 Hreceipt].
  eapply append_and_project_ok in Hr
    as (row & e & w & w' & -> & Hexp & Hb & Hland & Hlog & Hp & Hrc & Hinv' & Hv & Hw1 & Hw2 & E1 & E2 & E3
        & E4 & E5 & Hrc2); [|done..|by eapply deserialize_stored|done].
  right. exists (pre_command pre), (pre_route pre), v, row. split; [|done].
  pose proof (build_event_ok _ _ _ _ _ Hb) as (B1 & B2 & B3 & _ & B5 & B6 & B7 & B8 & B9 & B10).
  pose proof (landed_fields _ _ _ Hland) as (L1 & L2 & L3 & L4 & L5 & L6 & L7 & L8 & L9).
  assert (check_attention_dedup (pre_command pre) (proj db) = Ok tt) as Hdd
    by (destruct Hs1 as (m & -> & _); exact Hdedup).
  split; try done; try congruence; try (by eexists); try (by exists w, w').
  - unfold agg_key in *. congruence.
  - exists d. split; [done|]. destruct d; simpl in Hauth; subst authority; try done.
    by eapply receipted_mono.
Qed.

Lemma submit_unused_ok (st : store) clock ws ep env pre carrier (db db' : database) verdict :
  log_inv db -> prepare st env carrier = Ok pre -> lock_writer st clock db = Ok ws ->
  epoch_of (log db) = Ok ep -> admitted ep (pre_command pre) = true ->
  events_for_key (log db) (ce_project_id env) (r_aggregate_type (pre_route pre))
    (r_aggregate_id (pre_route pre)) (ce_idempotency_key env) = [] ->
  submit_unused apply_context_event st clock ws ep env pre db = Ok (db', verdict) ->
  fresh_effect clock env db db' verdict.
Proof.
  intros Hinv Hprep Hlock Hep Hadm Hunused. unfold submit_unused. cbn zeta. intros Hr.
  apply bind_ok_iff in Hr as ([] & Hown & Hr). apply bind_ok_iff in Hr as ([] & _ & Hr).
  apply bind_ok_iff in Hr as ([] & _ & Hr). apply bind_ok_iff in Hr as (d & Hd & Hr).
  destruct d as [|cls basis|cls basis].
  3:{ apply paged_ok in Hr as (Hq & r & -> & _). left. split; [done|]. by eexists. }
  all: eapply submit_allowed_ok; [done..| |exact Hr]; by eexists.
Qed.

Lemma watermark_snoc (db : database) l row :
  log_inv db -> log db = l ++ [row] -> watermark (log db) = Some (global_sequence row).
Proof.
  intros Hinv Hl. pose proof (li_increasing _ Hinv) as Hi. rewrite Hl in *.
  unfold watermark. destruct (l ++ [row]) as [|x l'] eqn:E; [by destruct l|]. f_equal.
  rewrite <-E. rewrite <-E in Hi. apply increasing_app in Hi as [_ [Hlt _]].
  rewrite max_of_app. simpl. pose proof (max_of_ge global_sequence 0 l). lia.
Qed.

Lemma submit_tx_ok (st : store) clock env pre carrier (db db' : database) verdict :
  log_inv db -> prepare st env carrier = Ok pre ->
  submit_tx apply_context_event st clock env pre db = Ok (db', verdict) ->
  effect clock env db db' verdict.
Proof.
  intros Hinv Hprep. unfold submit_tx. cbn zeta. intros Hr.
  apply bind_ok_iff in Hr as (ws & Hlock & Hr). apply bind_ok_iff in Hr as (ep & Hep & Hr).
  apply bind_ok_iff in Hr as ([] & Hadm & Hr). apply ensure_ok_iff in Hadm.
  destruct (lock_writer st clock db) as [ws'|] eqn:Hlock'; [|done]. injection Hlock as ->.
  destruct (pre_input_refusal pre) as [r|].
  { apply receipted_pty_refusal_ok in Hr as [Hs ->]. left. split; [by apply quiet_of_receipts|].
    left. by eexists. }
  unfold prior_for_key in Hr. cbn zeta in Hr.
  destruct (events_for_key _ _ _ _ _) as [|first rest] eqn:Hk.
  { eapply submit_unused_ok in Hr as [[Hq [r ->]]|Ha]; [| |done..]; [left; eauto|by right]. }
  destruct (_ && _) in Hr; [|done].
  apply bind_ok_iff in Hr as ([] & _ & Hr). injection Hr as <- <-.
  left. split; [apply quiet_refl|]. right. split; [done|]. eexists. split; [done|]. split; [done|].
  intros row. rewrite <-Hk. unfold events_for_key. intros Hin%list_elem_of_In.
  apply filter_In in Hin as [Hin _]. by apply list_elem_of_In.
Qed.

(** One call of [submit]: it answers an error or rows already in the log and
    appends nothing, or it applies the command. *)
Lemma submit_cases (st : store) clock env carrier (db db' : database) res :
  log_inv db -> submit st clock env carrier db = (res, db') ->
  (quiet_effect db db' /\
   ((exists r, res = KernelError r) \/
    (db' = db /\ exists rows w, res = CommandApplied (ce_command_id env) rows w /\
       forall row, row ∈ rows -> row ∈ log db))) \/
  exists c rt v row, applied_effect clock env db db' c rt v row /\
    res = CommandApplied (ce_command_id env) [row] (global_sequence row).
Proof.
  intros Hinv. unfold Submit.submit.
  destruct (pre ← prepare st env carrier; submit_tx _ st clock env pre db) as [[dbx verdict]|r] eqn:E.
  2:{ intros [= <- <-]. left. split; [apply quiet_refl|]. left. by eexists. }
  apply bind_ok_iff in E as (pre & Hprep & Htx). eapply submit_tx_ok in Htx; [|done|done].
  destruct Htx as [[Hq [[r ->]|(-> & rows & -> & Hne & Hrows)]]|(c & rt & v & row & Hae & ->)].
  - intros [= <- <-]. left. split; [done|]. left. by eexists.
  - destruct (watermark (log db)) as [w|] eqn:Hw; intros [= <- <-]; left; (split; [done|]).
    + right. split; [done|]. by eexists _, _.
    + left. by eexists.
  - rewrite (watermark_snoc _ _ _ (ae_inv _ _ _ _ _ _ _ _ Hae) (ae_log _ _ _ _ _ _ _ _ Hae)).
    intros [= <- <-]. right. by exists c, rt, v, row.
Qed.

(** ** What a refusal leaves *)

(** The receipt of the request was written, where it was not on record yet. *)
Definition receipt_written (env : envelope) (rt : Route) (cls : string) (m m' : gmap string (ReceiptRow instant)) : Prop :=
  let id := "receipt:" +:+ ce_project_id env +:+ ":" +:+ ce_idempotency_key env in
  m' = m \/
  exists row, m !! id = None /\ m' = <[id := row]> m /\ rc_actor row = ce_actor env /\ rc_action row = cls /\
    rc_subject_type row = r_aggregate_type rt /\ rc_subject_id row = r_aggregate_id rt.

(** The item of the page was raised, where its subject had none open. *)
Definition page_raised (env : envelope) (rt : Route) (cls : string) (p p' : P) : Prop :=
  let subject := r_aggregate_type rt +:+ "/" +:+ r_aggregate_id rt in
  let id := "page:" +:+ cls +:+ ":" +:+ subject in
  p' = p \/
  exists item, attention_items p !! id = None /\ p' = set_attention_items (<[id := item]> (attention_items p)) p /\
    attn_kind item = "authority" /\ attn_subject_ref item = Some subject /\ attn_raised_by item = Some (ce_actor env) /\
    attn_resolved_at item = None.

(** A refusal leaves the database as it was, or the receipt of its request and,
    when authority was missing, the attention item of a page. *)
Definition refusal_effect (env : envelope) (r : Refusal) (db db' : database) : Prop :=
  db' = db \/
  exists c rt cls m p, deserialize (ce_payload env) = Some c /\ route_of env c = Ok rt /\
    db' = set_proj p (set_receipts m db) /\ receipt_written env rt cls (receipts db) m /\
    (p = proj db \/ code r = EAuthority /\ page_raised env rt cls (proj db) p).

Lemma write_receipt_exact env c rt cls basis (db db' : database) :
  write_receipt (receipt_for env rt c cls basis) db = Ok db' ->
  exists m, db' = set_receipts m db /\ receipt_written env rt cls (receipts db) m.
Proof.
  unfold write_receipt. intros Hr. inv_ok. cbn [receipt_for receipt_id] in *.
  destruct (receipts db !! _) as [old|] eqn:E; inv_ok.
  - exists (receipts db'). split; [by destruct db'|by left].
  - eexists. split; [done|]. right. eexists. by split_and!.
Qed.

Lemma page_attention_exact env rt cls summary (p p' : P) at_text :
  page_attention ("page:" +:+ cls +:+ ":" +:+ (r_aggregate_type rt +:+ "/" +:+ r_aggregate_id rt)) summary
    (r_aggregate_type rt +:+ "/" +:+ r_aggregate_id rt) (ce_actor env) at_text p = Ok p' -> page_raised env rt cls p p'.
Proof.
  unfold page_attention. intros Hr. inv_ok. cbn zeta in Hr. destruct (bool_decide _); [|inv_ok; by left].
  apply ins_ok in Hr as (Hn & _ & _ & _ & _ & ->). right. eexists. by split_and!.
Qed.

Lemma paged_exact env c rt cls basis (db db' : database) r :
  deserialize (ce_payload env) = Some c -> route_of env c = Ok rt ->
  paged env c rt cls basis db = Ok (db', VRefused r) -> refusal_effect env r db db'.
Proof.
  intros Hd Hrt Hr. unfold paged in Hr. inv_ok. simplify_eq. apply write_receipt_exact in Hrun as (m & -> & Hm).
  apply page_attention_exact in Hrun0. right. exists c, rt, cls, m. eexists. split_and!; try done. by right.
Qed.

Lemma pty_refusal_exact env c rt authority refusal (db db' : database) r :
  deserialize (ce_payload env) = Some c -> route_of env c = Ok rt ->
  receipted_pty_refusal env c rt authority refusal db = Ok (db', VRefused r) -> refusal_effect env r db db'.
Proof.
  intros Hd Hrt Hr. unfold receipted_pty_refusal in Hr. destruct authority as [cls basis]. inv_ok. simplify_eq.
  apply write_receipt_exact in Hrun as (m & -> & Hm). right. exists c, rt, cls, m, (proj db). split_and!; try done. by left.
Qed.

Lemma applied_not_refused (st : store) clock ws env pre v (db db' : database) r :
  append_and_project apply_context_event st clock ws env pre v db <> Ok (db', VRefused r).
Proof. unfold append_and_project. intros Hr. by inv_ok. Qed.

Lemma submit_tx_refused (st : store) clock env pre carrier (db db' : database) r :
  prepare st env carrier = Ok pre -> submit_tx apply_context_event st clock env pre db = Ok (db', VRefused r) ->
  refusal_effect env r db db'.
Proof.
  intros (Hd & _ & Hrt & _)%prepare_ok Hr. unfold submit_tx in Hr. cbn zeta in Hr.
  apply bind_ok_iff in Hr as (ws & _ & Hr). apply bind_ok_iff in Hr as (ep & _ & Hr). apply bind_ok_iff in Hr as ([] & _ & Hr).
  destruct (pre_input_refusal pre); [by eapply pty_refusal_exact|].
  destruct (prior_for_key _ _ _ _); [|by inv_ok|done]. unfold submit_unused in Hr. cbn zeta in Hr.
  apply bind_ok_iff in Hr as ([] & _ & Hr). apply bind_ok_iff in Hr as ([] & _ & Hr). apply bind_ok_iff in Hr as ([] & _ & Hr).
  apply bind_ok_iff in Hr as (d & _ & Hr).
  destruct (match d with Page _ _ => true | _ => false end) eqn:Ed; [destruct d; try done; by eapply paged_exact|].
  assert (exists auth db1, (if receipted_pty_command (pre_command pre) then db1 = db else True) /\
    match decide_command env (pre_command pre) (pre_route pre) db1 with
    | Err refusal => if receipted_pty_command (pre_command pre)
        then auth' ← ok_or auth storage; receipted_pty_refusal env (pre_command pre) (pre_route pre) auth' refusal db1 else Err refusal
    | Ok v => db2 ← (if receipted_pty_command (pre_command pre) then '(x, y) ← ok_or auth storage;
                       write_receipt (receipt_for env (pre_route pre) (pre_command pre) x y) db1 else mret db1);
              append_and_project apply_context_event st clock ws env pre v db2
    end = Ok (db', VRefused r)) as (auth & db1 & H1 & H2).
  { destruct d; [..|done]; apply bind_ok_iff in Hr as (db1 & Hb & Hr); apply bind_ok_iff in Hr as ([] & _ & Hr);
      (eexists _, db1; split; [|exact Hr]); destruct (receipted_pty_command _); [by injection Hb|done|by injection Hb|done]. }
  destruct (decide_command _ _ _ _) as [v|refusal].
  - apply bind_ok_iff in H2 as (db2 & _ & []%applied_not_refused).
  - destruct (receipted_pty_command _); [|done]. subst db1. apply bind_ok_iff in H2 as (a & _ & H2). by eapply pty_refusal_exact.
Qed.

Lemma submit_refused (st : store) clock env carrier (db db' : database) r :
  log_inv db -> submit st clock env carrier db = (KernelError r, db') -> refusal_effect env r db db'.
Proof.
  intros Hinv. unfold Submit.submit.
  destruct (pre ← prepare st env carrier; submit_tx _ st clock env pre db) as [[dbx verdict]|r'] eqn:E; [|intros [= <- <-]; by left].
  apply bind_ok_iff in E as (pre & Hprep & Htx). destruct verdict as [rows|r'].
  - eapply submit_tx_ok in Htx as [[_ [[r' ?]|(-> & rows' & [= <-] & Hne & Hrows)]]|(c & rt & v & row & Hae & [= ->])]; [done| | |done..].
    + destruct rows as [|row rows]; [done|]. assert (row ∈ log db) as Hin by (apply Hrows; left).
      unfold watermark. destruct (log db); [by apply not_elem_of_nil in Hin|done].
    + by rewrite (watermark_snoc _ _ _ (ae_inv _ _ _ _ _ _ _ _ Hae) (ae_log _ _ _ _ _ _ _ _ Hae)).
  - intros [= <- <-]. by eapply submit_tx_refused.
Qed.

(** ** Derived event ids *)

Lemma route_type_no_colon (env : envelope) c rt :
  route_of env c = Ok rt -> Str.contains_byte Str.colon (r_aggregate_type rt) = false.
Proof.
  unfold route_of. intros Hr. apply bind_ok_iff in Hr as (rt' & Hr & Hn). inv_ok.
  destruct c; simpl in Hr; unfold route in Hr; inv_ok; done.
Qed.

(** The derived event ids of two commands agree only when the
    events have the same aggregate and the same version, colons in aggregate ids
    notwithstanding. *)
Theorem event_ids_are_injective (env env' : envelope) c c' rt rt' body body' v v' e e' :
  route_of env c = Ok rt -> route_of env' c' = Ok rt' -> (0 <= v)%Z -> (0 <= v')%Z ->
  build_event env body rt v = Ok e -> build_event env' body' rt' v' = Ok e' ->
  event_id e = event_id e' ->
  agg_key e = agg_key e' /\ aggregate_version e = aggregate_version e'.
Proof.
  intros Hr Hr' Hv Hv' Hb Hb' Hid.
  apply build_event_ok in Hb as (T1 & I1 & V1 & _ & _ & _ & _ & _ & _ & E1).
  apply build_event_ok in Hb' as (T2 & I2 & V2 & _ & _ & _ & _ & _ & _ & E2).
  rewrite E1, E2 in Hid.
  apply (Str.split_first Str.colon) in Hid as [Hty Hid];
    [|by eapply route_type_no_colon|by eapply route_type_no_colon].
  apply (Str.split_last Str.colon) in Hid as [Hagg Hnum];
    [|by apply Str.digits_no_byte; [|apply Numeric.to_numeric_text_digits]..].
  apply Numeric.to_numeric_text_inj in Hnum; [|lia..]. unfold agg_key. split; [congruence|lia].
Qed.
End Kernel.
