(* ===== verification/System.v ===== *)
(** * The running system

    The steps a kernel database takes: a process claims the writer epoch, a
    fence is granted, genesis is appended, a clean shutdown takes its snapshot, a command is submitted by whichever
    process, or the Context engine records a fact.  Every transaction holds the
    writer row, so a history is a sequence of steps; [reachable] is what such
    histories reach from a migrated, empty database.  The theorems are the
    promises of the command path over those histories. *)

From S2P Require Import Prelude Text Fsm Envelope Transition Command Tables Db Store Project Authority Submit Writes Kernel.

Section System.
Context `{TZ : Timestamptz} `{TZL : !TimestamptzLaws} {V : Type} `{SD : Serde V} `{SDL : !SerdeLaws V}
  `{HM : Hmac}.
Context (apply_context_event : EventEnvelope V -> Proj instant V -> result Refusal (Proj instant V)).
Notation event := (EventEnvelope V).
Notation P := (Proj instant V).
Notation database := (Db instant V).
Notation command := (KernelCommand V).
Notation envelope := (CommandEnvelope V).
Notation store := (Store (V := V)).
Notation submit := (submit apply_context_event).

(** ** Recording a Context fact *)

(** [Route] of the Context engine. *)
Record ContextRoute := {
  cr_aggregate_type : string;
  cr_aggregate_id : string;
  cr_event_type : string;
}.

Definition context_event (project key : string) (rt : ContextRoute) (body : V) (at_text : string)
    (version : Z) : event := {|
  event_id := cr_aggregate_type rt +:+ ":" +:+ cr_aggregate_id rt +:+ ":"
              +:+ Numeric.to_numeric_text version;
  project_id := project;
  aggregate_type := cr_aggregate_type rt; aggregate_id := cr_aggregate_id rt;
  aggregate_version := version; event_type := cr_event_type rt;
  schema_version := ENVELOPE_SCHEMA_VERSION; global_sequence := 0;
  occurred_at := at_text; appended_at := at_text;
  actor := {| actor_kind := "kernel"; actor_id := None |};
  origin := {| origin_system := "gwk-context"; origin_ref := None |};
  causation_id := None; correlation_id := None; idempotency_key := Some key;
  payload := body; payload_ref := None |}.

(** [record_context_fact].  What the Context tables say of the fact, its route
    and the verdict of [precheck], is an argument: those tables belong to the
    Context engine. *)
Definition record_context_fact (st : store) (clock : TxClock) (project key : string)
    (route0 : result Refusal ContextRoute) (body : V) (at_text : string)
    (precheck : Z -> result Refusal unit) (db : database)
  : result Refusal (Appended (V := V) * database) :=
  _ ← map_err (fun _ => refuse EOverloaded) (admit_append st);
  ws ← map_err of_append_error (lock_writer st clock db);
  ep ← epoch_of (log db);
  _ ← ensure (bool_decide (ep = EpochActive)) sealed_refusal;
  rt ← route0;
  let stored := events_for_key (log db) project (cr_aggregate_type rt) (cr_aggregate_id rt) key in
  let who := {| actor_kind := "kernel"; actor_id := None |} in
  match stored with
  | first :: rest =>
      _ ← ensure (bool_decide (rest = [])
                  && bool_decide (project_id first = project)
                  && bool_decide (aggregate_type first = cr_aggregate_type rt)
                  && bool_decide (aggregate_id first = cr_aggregate_id rt)
                  && bool_decide (actor first = who)
                  && bool_decide (payload first = body)) (refuse EIdempotencyConflict);
      mret ({| app_events := stored; app_replayed := true |}, db)
  | [] =>
      expected ← map_err of_append_error
                   (current_aggregate_version (log db) (cr_aggregate_type rt) (cr_aggregate_id rt));
      _ ← precheck expected;
      version ← ok_or (checked_add u32_max expected 1) (refuse EStaleVersion);
      '(appended, db) ← map_err of_append_error
          (append_locked clock ws expected (ws_current_fence ws)
             [context_event project key rt body at_text version] db);
      db ← (if app_replayed appended then mret db
            else p ← fold_res (fun p e => apply_event apply_context_event e p) (proj db)
                       (app_events appended);
                 mret (set_proj p db));
      db ← match last (app_events appended) with
           | Some e => map_err of_append_error
                         (checkpoint_if_due st ws (global_sequence e) (appended_at e) db)
           | None => mret db
           end;
      mret (appended, db)
  end.

(** ** Steps *)

Inductive step : database -> database -> Prop :=
| step_claim inflight st db db' :
    with_capacity inflight db = Ok (st, db') -> step db db'
| step_fence token db db' :
    grant_fence db = Ok (token, db') -> step db db'
| step_genesis st clock revision db db' :
    ensure_genesis st clock revision db = Ok db' -> step db db'
| step_checkpoint st clock r db db' :
    checkpoint_at_watermark st clock db = Ok (r, db') -> step db db'
| step_submit st clock env carrier res db db' :
    submit st clock env carrier db = (res, db') -> step db db'
| step_delivery queue db :
    (* the delivery worker claims and settles rows of its own table *)
    step db (set_deliveries queue db)
| step_context st clock project key rt body at_text precheck a db db' :
    is_context_aggregate (cr_aggregate_type rt) = true ->
    record_context_fact st clock project key (Ok rt) body at_text precheck db = Ok (a, db') ->
    step db db'.

Definition reachable (db : database) : Prop := exists t0, rtc step (initial_db t0) db.

(** ** What every step keeps *)

(** The writer row's counters cross the wire as decimal text; they stay inside
    the range that text round-trips. *)
Definition writer_ok (db : database) : Prop :=
  exists w, writer db = Some w /\ (0 <= w_epoch w)%Z /\
    (forall f, w_fence_token w = Some f -> is_u64 f) /\ is_u64 (w_checkpoint_seq w).

(** ** What one step does *)

(** One row went to the end of the log that no command caused. *)
Record row_effect (db db' : database) (row : event) : Prop := {
  re_log : log db' = log db ++ [row];
  re_version : aggregate_version row =
    (Z.of_nat (length (versions (log db) (aggregate_type row) (aggregate_id row))) + 1)%Z;
  re_receipts : receipts db' = receipts db;
  re_inv : log_inv db';
  re_writer : exists w w', writer db = Some w /\ writer db' = Some w' /\
    w_epoch w' = w_epoch w /\ w_fence_token w' = w_fence_token w /\
    (is_u64 (w_checkpoint_seq w) -> is_u64 (w_checkpoint_seq w'));
}.

Lemma max_of_le (f : event -> Z) d b l :
  (d <= b)%Z -> (forall e, e ∈ l -> (f e <= b)%Z) -> (max_of f d l <= b)%Z.
Proof.
  intros Hd. induction l as [|x l IH]; intros Hl; simpl; [done|].
  pose proof (Hl x (list_elem_of_here _ _)). assert (max_of f d l <= b)%Z by (apply IH; set_solver). lia.
Qed.

Lemma current_version_total (db : database) ty id :
  log_inv db ->
  current_aggregate_version (log db) ty id = Ok (Z.of_nat (length (versions (log db) ty id))).
Proof.
  intros Hinv. apply current_version_spec; [done|]. split; [done|].
  assert (current_aggregate_version (log db) ty id
          = Ok (max_of aggregate_version 0 (List.filter (in_aggregate ty id) (log db)))) as Hok.
  { unfold current_aggregate_version. rewrite (proj2 (Z.leb_le _ _)); [done|].
    apply max_of_le; [done|]. intros e [He _]%list_elem_of_In%filter_In.
    apply list_elem_of_In, (li_checked _ Hinv) in He. unfold event_check, version_check in He.
    unbool. lia. }
  pose proof Hok as Hok2. apply current_version_spec in Hok2 as [<- Hle]; done.
Qed.

Lemma epoch_total (db : database) :
  log_inv db ->
  epoch_of (log db) = Ok (of_version (Z.of_nat (length (versions (log db) KERNEL_AGGREGATE KERNEL_SINGLETON)))).
Proof. intros Hinv. unfold epoch_of. by rewrite current_version_total. Qed.

Lemma no_versions_no_events (l : list event) ty id :
  versions l ty id = [] <-> forall e, e ∈ l -> agg_key e <> (ty, id).
Proof.
  unfold versions. split.
  - intros Hn%fmap_nil_inv e He Ha. apply in_aggregate_spec in Ha.
    assert (In e (List.filter (in_aggregate ty id) l)) as Hin
      by (apply filter_In; split; [by apply list_elem_of_In|done]).
    by rewrite Hn in Hin.
  - intros Hn. destruct (List.filter _ l) as [|e l'] eqn:Hf; [done|].
    assert (In e (List.filter (in_aggregate ty id) l)) as Hin by (rewrite Hf; by left).
    apply filter_In in Hin as [Hin Ha%in_aggregate_spec].
    by destruct (Hn e (proj2 (list_elem_of_In _ _) Hin)).
Qed.

(** The kernel's own event, on a log that has none. *)
Definition genesis_effect (db db' : database) : Prop :=
  exists row, row_effect db db' row /\ proj db' = proj db /\
    versions (log db) KERNEL_AGGREGATE KERNEL_SINGLETON = [] /\
    agg_key row = (KERNEL_AGGREGATE, KERNEL_SINGLETON) /\ event_type row = GENESIS_EVENT_TYPE /\
    project_id row = SYSTEM_PROJECT.

Lemma ensure_genesis_ok (st : store) clock revision (db db' : database) :
  log_inv db -> ensure_genesis st clock revision db = Ok db' ->
  db' = db \/ genesis_effect db db'.
Proof.
  intros Hinv. unfold ensure_genesis. rewrite epoch_total by done. intros Hr.
  apply bind_ok_iff in Hr as ([] & _ & Hr). apply bind_ok_iff in Hr as (ws & Hlock & Hr).
  destruct (lock_writer st clock db) as [ws'|] eqn:Hl; [|done]. injection Hlock as ->. simpl in Hr.
  destruct (bool_decide _) eqn:Hep; simpl in Hr; [|injection Hr as ->; by left]. right.
  assert (versions (log db) KERNEL_AGGREGATE KERNEL_SINGLETON = []) as Hnone.
  { apply bool_decide_eq_true in Hep. unfold of_version in Hep.
    destruct (versions (log db) KERNEL_AGGREGATE KERNEL_SINGLETON) as [|x [|y l]]; [done|done|].
    exfalso. cbn [length] in Hep. destruct (Z.eqb_spec (Z.of_nat (S (S (length l)))) 0); [lia|].
    destruct (Z.eqb_spec (Z.of_nat (S (S (length l)))) 1); [lia|done]. }
  apply bind_ok_iff in Hr as ([a dba] & Happ & [= ->]).
  destruct (append_locked _ _ _ _ _ _) as [[a' dba']|] eqn:Happ'; [|done]. injection Happ as -> ->.
  eapply (append_one_fresh st) in Happ' as (row & w & -> & Hland & Hw & Hseq & -> & Hv & Hinv'); [|done..|].
  2:{ apply stored_under_nil. intros e (He & Ha & _)%stored_under_spec.
      by apply (proj1 (no_versions_no_events _ _ _) Hnone e He). }
  apply landed_fields in Hland as (L1 & L2 & L3 & L4 & L5 & L6 & L7 & L8 & L9).
  exists row. split; [|done]. split; simpl; try done.
  - pose proof L1 as L1'. unfold agg_key in L1'. injection L1' as -> ->. by rewrite L2, Hnone.
  - by eexists _, _.
Qed.

(** A fact of the Context engine. *)
Definition context_effect (db db' : database) : Prop :=
  exists row, row_effect db db' row /\ is_context_aggregate (aggregate_type row) = true /\
    apply_context_event row (proj db) = Ok (proj db') /\ epoch_of (log db) = Ok EpochActive.

(** A recorded fact is answered from the log, or its row lands after its check. *)
Lemma record_context_fact_row (st : store) clock project key rt body at_text precheck a (db db' : database) :
  log_inv db -> is_context_aggregate (cr_aggregate_type rt) = true ->
  record_context_fact st clock project key (Ok rt) body at_text precheck db = Ok (a, db') ->
  db' = db /\ app_replayed a = true \/
  exists row, a = {| app_events := [row]; app_replayed := false |} /\ row_effect db db' row /\
    agg_key row = (cr_aggregate_type rt, cr_aggregate_id rt) /\ event_type row = cr_event_type rt /\
    payload row = jsonb body /\
    precheck (Z.of_nat (length (versions (log db) (cr_aggregate_type rt) (cr_aggregate_id rt)))) = Ok tt /\
    apply_context_event row (proj db) = Ok (proj db') /\ epoch_of (log db) = Ok EpochActive.
Proof.
  intros Hinv Hctx. unfold record_context_fact. intros Hr. simpl in Hr.
  apply bind_ok_iff in Hr as ([] & _ & Hr). apply bind_ok_iff in Hr as (ws & Hlock & Hr).
  destruct (lock_writer st clock db) as [ws'|] eqn:Hl; [|done]. injection Hlock as ->.
  apply bind_ok_iff in Hr as (ep & Hep & Hr). apply bind_ok_iff in Hr as ([] & Hact & Hr).
  apply ensure_ok_iff, bool_decide_eq_true in Hact. subst ep.
  destruct (events_for_key _ _ _ _ _) as [|first rest] eqn:Hk.
  2:{ apply bind_ok_iff in Hr as (? & _ & [= <- ->]). by left. }
  right. rewrite current_version_total in Hr by done. simpl in Hr.
  apply bind_ok_iff in Hr as ([] & Hpre & Hr). apply bind_ok_iff in Hr as (v & Hv & Hr).
  apply ok_or_ok_iff, checked_add_some in Hv as [-> _].
  apply bind_ok_iff in Hr as ([a0 dba] & Happ & Hr).
  destruct (append_locked _ _ _ _ _ _) as [[a' dba']|] eqn:Happ'; [|done]. injection Happ as -> ->.
  eapply (append_one_fresh st) in Happ' as (row & w & -> & Hland & Hw & Hseq & -> & _ & Hinv'); [|done..|].
  2:{ by eapply stored_under_unused. }
  apply bind_ok_iff in Hr as (dbb & Hp & Hr). simpl in Hp.
  apply bind_ok_iff in Hp as (p & Hp & [= <-]). apply bind_ok_iff in Hp as (p' & Hp & [= ->]).
  apply bind_ok_iff in Hr as (dbc & Hck & [= <- ->]). simpl in Hck.
  destruct (checkpoint_if_due _ _ _ _ _) eqn:Hck'; [|done]. injection Hck as ->.
  eapply (checkpoint_after_row _ _ _ _ db) in Hck'
    as (Hinv2 & Hl3 & Hp3 & Hr3 & w' & Hw' & E1 & E2 & E3 & E4);
    [|by eapply (log_inv_ext _ _ Hinv'); eauto|done..].
  apply landed_fields in Hland as (L1 & L2 & _ & _ & _ & L6 & L7 & _).
  pose proof L1 as L1'. unfold agg_key in L1'. injection L1' as Ht Hi.
  exists row. split; [done|]. split; [split; try done|].
  - by rewrite Ht, Hi, L2.
  - by exists w, w'.
  - do 4 (split; [done|]). split; [|done].
    unfold apply_event in Hp. rewrite Ht in Hp. simpl in Hp. rewrite Hctx in Hp. by rewrite Hp3.
Qed.

Lemma record_context_fact_ok (st : store) clock project key rt body at_text precheck a (db db' : database) :
  log_inv db -> is_context_aggregate (cr_aggregate_type rt) = true ->
  record_context_fact st clock project key (Ok rt) body at_text precheck db = Ok (a, db') ->
  db' = db \/ context_effect db db'.
Proof.
  intros Hinv Hctx Hr. destruct (record_context_fact_row _ _ _ _ _ _ _ _ _ _ _ Hinv Hctx Hr)
    as [[-> _]|(row & _ & Hrow & Hkey & _ & _ & _ & Hap & Hep)]; [by left|].
  right. exists row. unfold agg_key in Hkey. injection Hkey as -> _. done.
Qed.

(** A step that appends nothing: the epoch or the fence moves, or a submission
    that is refused or answered from the log. *)
Record still_effect (db db' : database) : Prop := {
  se_log : log db' = log db;
  se_proj : proj db' = proj db \/
   exists id row, ins attention_table id row (proj db) = Ok (proj db');
  se_receipts : receipts db ⊆ receipts db';
  se_writer : exists w w', writer db = Some w /\ writer db' = Some w' /\
    (w_epoch w <= w_epoch w')%Z /\ w_next_seq w' = w_next_seq w /\
    (is_u64 (w_checkpoint_seq w) -> is_u64 (w_checkpoint_seq w')) /\
    (w_fence_token w' = w_fence_token w \/ exists f, w_fence_token w' = Some f /\ is_u64 f);
}.

Lemma with_capacity_ok inflight st (db db' : database) :
  with_capacity inflight db = Ok (st, db') ->
  still_effect db db' /\ exists w w', writer db = Some w /\ writer db' = Some w' /\
    w_epoch w' = (w_epoch w + 1)%Z /\ boot_epoch st = w_epoch w'.
Proof.
  unfold with_capacity, claim_epoch. intros Hr. destruct (writer db) as [w|] eqn:Hw; [|done].
  inv_ok. simplify_eq. split.
  - split; simpl; auto. eexists _, _. split; [done|]. split; [done|]. simpl.
    split; [lia|]. by auto.
  - by eexists _, _.
Qed.

Lemma grant_fence_ok token (db db' : database) :
  grant_fence db = Ok (token, db') -> still_effect db db'.
Proof.
  unfold grant_fence. intros Hr. destruct (writer db) as [w|] eqn:Hw; [|done]. inv_ok. simplify_eq. unbool.
  assert (is_u64 (default 0%Z (w_fence_token w) + 1)) as Hu by (unfold is_u64; lia).
  rewrite Numeric.from_to_numeric_text in Hrun0 by done. injection Hrun0 as <-.
  split; simpl; auto. eexists _, _. split; [done|]. split; [done|]. simpl.
  split; [lia|]. split; [done|]. split; [done|]. right. by eexists.
Qed.

Lemma quiet_still (db db' : database) :
  log_inv db -> quiet_effect db db' -> still_effect db db'.
Proof.
  intros [(w & Hw & _)] (Hl & Hwr & _ & _ & Hrc & Hp). split; try done.
  exists w, w. rewrite Hwr. split; [done|]. split; [done|]. split; [lia|]. by auto.
Qed.

Lemma checkpoint_at_watermark_ok (st : store) clock (db db' : database) r :
  log_inv db -> checkpoint_at_watermark st clock db = Ok (r, db') -> still_effect db db'.
Proof.
  intros Hinv Hr. pose proof (quiet_still db db Hinv (quiet_refl db)) as Hsame.
  unfold checkpoint_at_watermark in Hr. destruct (blobs st) as [b|]; [|by injection Hr as _ <-].
  apply bind_ok_iff in Hr as (ws & _ & Hr). destruct (watermark (log db)) as [mark|]; [|by injection Hr as _ <-].
  apply bind_ok_iff in Hr as (through & _ & Hr). apply bind_ok_iff in Hr as (db1 & Hs & [= _ ->]).
  unfold snapshot in Hs. inv_ok. unbool. destruct (li_writer _ Hinv) as (w & Hw & _).
  destruct (checkpoints db !! through); simpl; (split; simpl; auto);
    rewrite Hw; eexists _, _; (split; [done|]); (split; [done|]); simpl; (split; [lia|]); (split; [done|]); unfold is_u64; auto with lia.
Qed.

(** Every step is one of four. *)
Lemma step_cases (db db' : database) :
  log_inv db -> step db db' ->
  still_effect db db' \/ genesis_effect db db' \/ context_effect db db' \/
  exists clk env c rt v row, applied_effect clk env db db' c rt v row.
Proof.
  intros Hinv Hs. destruct Hs as [inflight st db db' Hr|token db db' Hr|st clock rev db db' Hr
    |st clock r db db' Hr|st clock env carrier res db db' Hr|queue db|st clock project key rt body at_text pre a db db' Hctx Hr].
  - apply with_capacity_ok in Hr as [Hr _]. by left.
  - apply grant_fence_ok in Hr. by left.
  - apply ensure_genesis_ok in Hr as [->|Hg]; [|by right; left|done].
    left. apply quiet_still; [done|]. apply quiet_refl.
  - apply checkpoint_at_watermark_ok in Hr; [by left|done].
  - apply submit_cases in Hr as [[Hq _]|(c & rt & v & row & Ha & _)]; [| |done].
    + left. by apply quiet_still.
    + right. right. right. by exists clock, env, c, rt, v, row.
  - left. destruct (quiet_still db db Hinv (quiet_refl db)) as [H1 H2 H3 H4]. by split.
  - apply record_context_fact_ok in Hr as [->|Hg]; [|by right; right; left|done..].
    left. apply quiet_still; [done|]. apply quiet_refl.
Qed.

(** Case analysis on what a step did. *)
Ltac step_cases Hinv Hs :=
  destruct (step_cases _ _ Hinv Hs) as
    [Hstill|[(row & Hrow & Hproj & Hnone & Hkey & Hety & Hprj)
            |[(row & Hrow & Hctx & Hproj & Hep)|(clk & env & c & rt & v & row & Hae)]]].

(** ** The invariants of reachable states *)

Lemma versions_snoc (l : list event) row ty id :
  versions (l ++ [row]) ty id =
  versions l ty id ++ (if bool_decide (agg_key row = (ty, id)) then [aggregate_version row] else []).
Proof.
  rewrite versions_app. f_equal. unfold versions. simpl.
  destruct (bool_decide_reflect (agg_key row = (ty, id))) as [Ha|Ha].
  - by rewrite (proj2 (in_aggregate_spec _ _ _) Ha).
  - destruct (in_aggregate ty id row) eqn:E; [|done]. by apply in_aggregate_spec in E.
Qed.

(** The appended rows, if any. *)
Lemma step_extends (db db' : database) :
  log_inv db -> step db db' -> log_inv db' /\
    (log db' = log db \/ exists row, log db' = log db ++ [row]).
Proof.
  intros Hinv Hs. step_cases Hinv Hs.
  - destruct Hstill as [Hl _ _ (w & w' & Hw & Hw' & _ & Hn & _)]. split; [|by left].
    eapply (log_inv_ext db); eauto 10.
  - split; [by apply Hrow|]. right. exists row. by apply Hrow.
  - split; [by apply Hrow|]. right. exists row. by apply Hrow.
  - split; [by apply Hae|]. right. exists row. by apply Hae.
Qed.

Lemma history_extends (db db' : database) :
  log_inv db -> rtc step db db' -> log_inv db' /\ exists more, log db' = log db ++ more.
Proof.
  intros Hinv Hs. induction Hs as [db|db db1 db' Hs Hr IH].
  { split; [done|]. exists []. by rewrite app_nil_r. }
  apply step_extends in Hs as [Hinv1 Hl]; [|done].
  destruct (IH Hinv1) as [Hinv' [more Hm]]. split; [done|].
  destruct Hl as [Hl|[row Hl]]; rewrite Hm, Hl; [by eexists|].
  rewrite <-(assoc_L (++)). by eexists.
Qed.

Lemma initial_log_inv t0 : log_inv (initial_db t0 : database).
Proof.
  split; simpl; try done.
  - eexists. split; [done|]. simpl. split; [done|]. by intros e ?%not_elem_of_nil.
  - constructor.
  - by intros e ?%not_elem_of_nil.
Qed.

Lemma reachable_log_inv db : reachable db -> log_inv db.
Proof. intros [t0 Hr]. apply (history_extends (initial_db t0)); [apply initial_log_inv|done]. Qed.

(** A property of the empty database that every step from a reachable state
    keeps holds of every reachable state. *)
Lemma reachable_invariant (Q : database -> Prop) :
  (forall t0, Q (initial_db t0)) ->
  (forall db db', reachable db -> log_inv db -> Q db -> step db db' -> Q db') ->
  forall db, reachable db -> Q db.
Proof.
  intros H0 Hstep db [t0 Hr]. revert db Hr. apply rtc_ind_r; [apply H0|].
  intros db1 db2 Hr1 Hs IH. assert (reachable db1) as Hreach by (by exists t0).
  apply (Hstep db1); [done|by apply reachable_log_inv|done|done].
Qed.

Lemma reachable_step db db' : reachable db -> step db db' -> reachable db'.
Proof. intros [t0 Hr] Hs. exists t0. by eapply rtc_r. Qed.

Lemma reachable_steps db db' : reachable db -> rtc step db db' -> reachable db'.
Proof. intros [t0 Hr] Hs. exists t0. by etransitivity. Qed.

(** The writer epoch only rises, and the counters keep their range. *)
Lemma writer_ok_step (db db' : database) :
  log_inv db -> writer_ok db -> step db db' -> writer_ok db' /\
  forall w w', writer db = Some w -> writer db' = Some w' -> (w_epoch w <= w_epoch w')%Z.
Proof.
  intros Hinv (w & Hw & He & Hf & Hc) Hs. step_cases Hinv Hs.
  - destruct Hstill as [_ _ _ (w1 & w2 & Hw1 & Hw2 & Hle & _ & Hcp & Hft)].
    simplify_eq. split; [|intros; simplify_eq; done].
    exists w2. split; [done|]. split; [lia|]. split; [|auto].
    intros f Hf2. destruct Hft as [Hft|(f' & Hft & ?)]; [apply Hf; congruence|congruence].
  - destruct (re_writer _ _ _ Hrow) as (w1 & w2 & Hw1 & Hw2 & E1 & E2 & E3). simplify_eq.
    split; [|intros; simplify_eq; lia]. exists w2. rewrite E1, E2. auto.
  - destruct (re_writer _ _ _ Hrow) as (w1 & w2 & Hw1 & Hw2 & E1 & E2 & E3). simplify_eq.
    split; [|intros; simplify_eq; lia]. exists w2. rewrite E1, E2. auto.
  - destruct (ae_writer _ _ _ _ _ _ _ _ Hae) as (w1 & w2 & Hw1 & Hw2 & E1 & E2 & _ & _ & E3). simplify_eq.
    split; [|intros; simplify_eq; lia]. exists w2. rewrite E1, E2. auto.
Qed.

Lemma reachable_writer_ok db : reachable db -> writer_ok db.
Proof.
  apply reachable_invariant.
  - intros t0. eexists. split; [done|]. by simpl.
  - intros db1 db2 _ Hinv Hw Hs. by eapply writer_ok_step.
Qed.

(** Under those ranges the lock is taken by whoever holds the epoch. *)
Lemma lock_writer_total (st : store) clock (db : database) w :
  log_inv db -> writer_ok db -> writer db = Some w -> w_epoch w = boot_epoch st ->
  exists ws, lock_writer st clock db = Ok ws.
Proof.
  intros [(w1 & Hw1 & Hn & _)] (w2 & Hw2 & _ & Hf & Hc) Hw He.
  rewrite Hw in Hw1, Hw2. injection Hw1 as <-. injection Hw2 as <-.
  unfold lock_writer. rewrite Hw. simpl. rewrite (proj2 (Z.eqb_eq _ _) He). simpl.
  rewrite (read_numeric_ok (w_next_seq _)), (read_numeric_ok (w_checkpoint_seq _)) by (done || unfold is_u64; lia).
  destruct (w_fence_token w) as [f|] eqn:Hft; simpl; [|by eexists].
  rewrite read_numeric_ok by auto. by eexists.
Qed.

(** *** The kernel's own lifecycle *)

Lemma route_kernel (env : envelope) c rt :
  route_of env c = Ok rt -> r_aggregate_type rt = KERNEL_AGGREGATE ->
  (exists cutover digest, c = ActivateKernel cutover digest) /\
  r_aggregate_id rt = KERNEL_SINGLETON /\ r_event_type rt = ACTIVATION_EVENT_TYPE.
Proof.
  unfold route_of. intros Hr Ht. apply bind_ok_iff in Hr as (rt' & Hr & Hn). inv_ok.
  destruct c; simpl in Hr; unfold route in Hr; inv_ok; simpl in *; try discriminate Ht; eauto.
Qed.

Definition is_genesis (e : event) : Prop :=
  agg_key e = (KERNEL_AGGREGATE, KERNEL_SINGLETON) /\ event_type e = GENESIS_EVENT_TYPE /\
  project_id e = SYSTEM_PROJECT /\ aggregate_version e = 1%Z.
Definition is_activation (e : event) : Prop :=
  agg_key e = (KERNEL_AGGREGATE, KERNEL_SINGLETON) /\ event_type e = ACTIVATION_EVENT_TYPE /\
  aggregate_version e = 2%Z.

(** The three shapes a log has: nothing, genesis, or genesis, activation and
    then work. *)
Inductive kernel_log : list event -> Epoch -> Prop :=
| kl_none : kernel_log [] EpochNone
| kl_sealed g : is_genesis g -> kernel_log [g] EpochSealed
| kl_active g a work :
    is_genesis g -> is_activation a ->
    Forall (fun e => aggregate_type e <> KERNEL_AGGREGATE) work ->
    kernel_log (g :: a :: work) EpochActive.

Lemma kernel_log_versions l ep :
  kernel_log l ep -> of_version (Z.of_nat (length (versions l KERNEL_AGGREGATE KERNEL_SINGLETON))) = ep.
Proof.
  intros [|g [Hg _]|g a work [Hg _] [Ha _] Hw]; [done| |].
  - by rewrite (versions_snoc [] g), bool_decide_eq_true_2.
  - change (g :: a :: work) with ([g; a] ++ work). rewrite versions_app.
    rewrite (versions_all [g; a]) by (by repeat constructor).
    rewrite (proj2 (no_versions_no_events work _ _)); [done|].
    intros e He [= Ht _]. rewrite Forall_forall in Hw. by apply (Hw e).
Qed.

Lemma kernel_log_epoch (db : database) ep :
  log_inv db -> kernel_log (log db) ep -> epoch_of (log db) = Ok ep.
Proof. intros Hinv Hk. by rewrite epoch_total, (kernel_log_versions _ _ Hk). Qed.

Lemma context_not_kernel ty : is_context_aggregate ty = true -> ty <> KERNEL_AGGREGATE.
Proof. by intros H ->. Qed.

Lemma kernel_log_work l row :
  kernel_log l EpochActive -> aggregate_type row <> KERNEL_AGGREGATE ->
  kernel_log (l ++ [row]) EpochActive.
Proof.
  inversion 1 as [| |g a work Hg Ha Hw]; subst. intros Hr. simpl. constructor; [done..|].
  apply Forall_app. split; [done|]. by repeat constructor.
Qed.

Lemma kernel_log_applied clk env (db db' : database) c rt v row ep :
  log_inv db -> kernel_log (log db) ep -> applied_effect clk env db db' c rt v row ->
  exists ep', kernel_log (log db') ep'.
Proof.
  intros Hinv Hk Hae. rewrite (ae_log _ _ _ _ _ _ _ _ Hae).
  destruct (ae_epoch _ _ _ _ _ _ _ _ Hae) as (ep1 & Hep & Hadm).
  rewrite (kernel_log_epoch _ _ Hinv Hk) in Hep. injection Hep as <-.
  pose proof (ae_key _ _ _ _ _ _ _ _ Hae) as Hkey. pose proof Hkey as Hkey'.
  unfold agg_key in Hkey'. injection Hkey' as Hty Hid.
  destruct (decide (r_aggregate_type rt = KERNEL_AGGREGATE)) as [Hkt|Hkt].
  - destruct (route_kernel _ _ _ (ae_route _ _ _ _ _ _ _ _ Hae) Hkt) as ((cu & di & ->) & Hsi & Het).
    pose proof (ae_decide _ _ _ _ _ _ _ _ Hae) as [= <-].
    pose proof (ae_version _ _ _ _ _ _ _ _ Hae) as Hv. rewrite Hkt, Hsi in Hv.
    inversion Hk as [Hl|g Hg Hl|g a work Hg Ha Hw Hl]; subst.
    + by rewrite <-Hl in Hv.
    + exists EpochActive. apply kl_active; [done| |constructor].
      split; [congruence|]. split; [|by apply Hae].
      by rewrite (ae_row_type _ _ _ _ _ _ _ _ Hae).
    + exfalso. pose proof (kernel_log_versions _ _ Hk) as He. by rewrite <-Hv in He.
  - inversion Hk as [Hl|g Hg Hl|g a work Hg Ha Hw Hl]; subst.
    + done.
    + destruct c; try done. exfalso. apply Hkt.
      pose proof (ae_route _ _ _ _ _ _ _ _ Hae) as Hr. unfold route_of in Hr. simpl in Hr.
      by injection Hr as <-.
    + exists EpochActive. apply (kernel_log_work (g :: a :: work)); [by constructor|]. by rewrite Hty.
Qed.

Lemma reachable_kernel_log db : reachable db -> exists ep, kernel_log (log db) ep.
Proof.
  apply (reachable_invariant (fun db => exists ep, kernel_log (log db) ep)).
  - intros t0. exists EpochNone. constructor.
  - intros db1 db2 _ Hinv [ep Hk] Hs. step_cases Hinv Hs.
    + rewrite (se_log _ _ Hstill). by exists ep.
    + assert (log db1 = []) as Hl0.
      { pose proof (kernel_log_versions _ _ Hk) as He. rewrite Hnone in He. simpl in He. subst ep.
        by inversion Hk. }
      rewrite (re_log _ _ _ Hrow), Hl0. exists EpochSealed. constructor.
      pose proof (re_version _ _ _ Hrow) as Hv. rewrite Hl0 in Hv. by split.
    + rewrite (kernel_log_epoch _ _ Hinv Hk) in Hep. injection Hep as ->.
      rewrite (re_log _ _ _ Hrow). exists EpochActive. apply kernel_log_work; [done|].
      by apply context_not_kernel.
    + by eapply kernel_log_applied.
Qed.

(** *** Ownership *)

Lemma first_by_version_elem (l : list event) e : first_by_version l = Some e -> e ∈ l.
Proof.
  revert e. induction l as [|x l IH]; intros e; simpl; [done|].
  destruct (first_by_version l) as [m|]; [destruct (_ <? _)%Z|]; intros [= <-]; [|left|left].
  right. by apply IH.
Qed.

Lemma first_by_version_none (l : list event) : first_by_version l = None -> l = [].
Proof. destruct l as [|x l]; simpl; [done|]. by destruct (first_by_version l); [destruct (_ <? _)%Z|]. Qed.

(** The events of an aggregate all belong to one project. *)
Definition owned (l : list event) : Prop :=
  forall e1 e2, e1 ∈ l -> e2 ∈ l -> agg_key e1 = agg_key e2 ->
    is_context_aggregate (aggregate_type e1) = false -> project_id e1 = project_id e2.

Lemma owned_snoc (l : list event) row :
  owned l ->
  (forall e, e ∈ l -> agg_key e = agg_key row -> is_context_aggregate (aggregate_type row) = false ->
     project_id e = project_id row) ->
  owned (l ++ [row]).
Proof.
  intros Hl Hr e1 e2 [H1|<-%list_elem_of_singleton]%elem_of_app [H2|<-%list_elem_of_singleton]%elem_of_app Hk Hc.
  - by apply Hl.
  - apply Hr; [done..|]. unfold agg_key in Hk. congruence.
  - symmetry. by apply Hr.
  - done.
Qed.

Lemma owner_checked clk env (db db' : database) c rt v row e :
  owned (log db) -> applied_effect clk env db db' c rt v row ->
  e ∈ log db -> agg_key e = agg_key row -> is_context_aggregate (aggregate_type row) = false ->
  project_id e = project_id row.
Proof.
  intros Ho Hae He Hk Hc. rewrite (ae_row_project _ _ _ _ _ _ _ _ Hae).
  pose proof (ae_owner _ _ _ _ _ _ _ _ Hae) as Hown. apply ensure_ok_iff in Hown.
  unfold aggregate_owner in Hown. rewrite (ae_key _ _ _ _ _ _ _ _ Hae) in Hk.
  assert (In e (List.filter (in_aggregate (r_aggregate_type rt) (r_aggregate_id rt)) (log db))) as Hin
    by (apply filter_In; split; [by apply list_elem_of_In|by apply in_aggregate_spec]).
  destruct (first_by_version _) as [f|] eqn:Hf; simpl in Hown.
  - apply bool_decide_eq_true in Hown. rewrite <-Hown. apply first_by_version_elem in Hf.
    apply list_elem_of_In, filter_In in Hf as [Hf Ha%in_aggregate_spec].
    apply Ho; [done|by apply list_elem_of_In|congruence|].
    pose proof (ae_key _ _ _ _ _ _ _ _ Hae) as Hkr. unfold agg_key in *. congruence.
  - apply first_by_version_none in Hf. by rewrite Hf in Hin.
Qed.

Lemma reachable_owned db : reachable db -> owned (log db).
Proof.
  apply (reachable_invariant (fun db => owned (log db))).
  - intros t0 e1 e2 He. by apply not_elem_of_nil in He.
  - intros db1 db2 _ Hinv Ho Hs. step_cases Hinv Hs.
    + by rewrite (se_log _ _ Hstill).
    + rewrite (re_log _ _ _ Hrow). apply owned_snoc; [done|]. intros e He Hke.
      exfalso. apply (proj1 (no_versions_no_events _ _ _) Hnone e He). congruence.
    + rewrite (re_log _ _ _ Hrow). apply owned_snoc; [done|]. intros e He Hke. by rewrite Hctx.
    + rewrite (ae_log _ _ _ _ _ _ _ _ Hae). apply owned_snoc; [done|]. intros e. by eapply owner_checked.
Qed.

(** *** Retries *)

Lemma events_for_key_app (l1 l2 : list event) project0 ty id k :
  events_for_key (l1 ++ l2) project0 ty id k =
  events_for_key l1 project0 ty id k ++ events_for_key l2 project0 ty id k.
Proof. apply List.filter_app. Qed.

Lemma events_for_key_elem (l : list event) project0 ty id k e :
  e ∈ events_for_key l project0 ty id k <->
  e ∈ l /\ idempotency_key e = Some k /\ (project_id e = project0 \/ agg_key e = (ty, id)).
Proof.
  unfold events_for_key. rewrite list_elem_of_In, filter_In, <-list_elem_of_In, andb_true_iff, orb_true_iff,
    !bool_decide_eq_true, in_aggregate_spec. done.
Qed.

(** The row that answers a request. *)
Definition answers (env : envelope) (rt : Route) (body : V) (row : event) : Prop :=
  project_id row = ce_project_id env /\ agg_key row = (r_aggregate_type rt, r_aggregate_id rt) /\
  actor row = ce_actor env /\ payload row = body /\
  idempotency_key row = Some (ce_idempotency_key env).

Lemma prior_replay_iff env rt body (l rows : list event) :
  prior_for_key env rt body l = Replay rows <->
  exists row, rows = [row] /\ answers env rt body row /\
    events_for_key l (ce_project_id env) (r_aggregate_type rt) (r_aggregate_id rt)
      (ce_idempotency_key env) = [row].
Proof.
  unfold prior_for_key. cbn zeta.
  destruct (events_for_key _ _ _ _ _) as [|first rest] eqn:Hk.
  { split; [done|]. by intros (row & _ & _ & ?). }
  assert (first ∈ events_for_key l (ce_project_id env) (r_aggregate_type rt) (r_aggregate_id rt)
            (ce_idempotency_key env)) as (_ & Hidem & _)%events_for_key_elem by (rewrite Hk; left).
  destruct (_ && _) eqn:E.
  - unbool. subst rest. split; [|by intros (row & -> & _ & [= ->])].
    intros [= <-]. exists first. split; [done|]. split; [|done].
    split; [done|]. split; [unfold agg_key; congruence|done].
  - split; [done|]. intros (row & -> & (A1 & A2 & A3 & A4 & _) & [= -> ->]). exfalso.
    unfold agg_key in A2. injection A2 as A2 A2'.
    by rewrite !bool_decide_eq_true_2 in E.
Qed.

Lemma distinct_later (db : database) l more row e :
  log_inv db -> log db = l ++ more -> row ∈ l -> e ∈ more -> clashes e row = false.
Proof.
  intros Hinv Hl Hr He. pose proof (li_distinct _ Hinv) as Hd. rewrite Hl in Hd.
  apply ord_pairs_app in Hd as (_ & _ & Hd). by apply Hd.
Qed.

(** An answer stands in every longer log. *)
Lemma prior_stable env rt body (db : database) l more rows :
  log_inv db -> log db = l ++ more -> prior_for_key env rt body l = Replay rows ->
  prior_for_key env rt body (log db) = Replay rows.
Proof.
  intros Hinv Hl (row & -> & Ha & Hk)%prior_replay_iff. apply prior_replay_iff. exists row.
  split; [done|]. split; [done|]. rewrite Hl, events_for_key_app, Hk.
  destruct (events_for_key more _ _ _ _) as [|e rest] eqn:Hm; [done|]. exfalso.
  assert (e ∈ events_for_key more (ce_project_id env) (r_aggregate_type rt) (r_aggregate_id rt)
            (ce_idempotency_key env)) as (He & Hei & Hor)%events_for_key_elem by (rewrite Hm; left).
  assert (row ∈ l) as Hrow.
  { eapply proj1, events_for_key_elem. rewrite Hk. left. }
  pose proof (distinct_later _ _ _ _ _ Hinv Hl Hrow He) as Hc.
  destruct Ha as (A1 & A2 & _ & _ & A5). unfold clashes, same_key in Hc.
  rewrite Hei, A5, (bool_decide_eq_true_2 (Some _ = Some _)) in Hc by done.
  apply orb_false_iff in Hc as [_ Hc]. simpl in Hc. apply orb_false_iff in Hc as [Hc1 Hc2].
  destruct Hor as [Hp|Hp].
  - apply bool_decide_eq_false in Hc1. congruence.
  - rewrite (proj2 (in_aggregate_spec _ _ _)) in Hc2; [done|]. unfold agg_key in *. congruence.
Qed.

(** An applied command is its own answer. *)
Lemma applied_prior clk env (db db' : database) c rt v row :
  applied_effect clk env db db' c rt v row ->
  prior_for_key env rt (jsonb (to_value c)) (log db') = Replay [row].
Proof.
  intros Hae. apply prior_replay_iff. exists row. split; [done|].
  assert (answers env rt (jsonb (to_value c)) row) as Ha by (by split_and!; apply Hae).
  split; [done|]. rewrite (ae_log _ _ _ _ _ _ _ _ Hae), events_for_key_app, (ae_unused _ _ _ _ _ _ _ _ Hae).
  unfold events_for_key. simpl. destruct Ha as (A1 & _ & _ & _ & A5).
  by rewrite A1, A5, !bool_decide_eq_true_2 by done.
Qed.

(** What an applied answer says of the request, whichever path gave it: its rows
    answer for the body, or for the body as it was stored. *)
Lemma submit_applied_prior (st : store) clock env carrier (db db' : database) rows w :
  log_inv db -> submit st clock env carrier db = (CommandApplied (ce_command_id env) rows w, db') ->
  exists pre ep body, prepare st env carrier = Ok pre /\ pre_input_refusal pre = None /\
    epoch_of (log db) = Ok ep /\ admitted ep (pre_command pre) = true /\
    (body = pre_payload pre \/ body = jsonb (pre_payload pre)) /\
    prior_for_key env (pre_route pre) body (log db') = Replay rows.
Proof.
  intros Hinv. unfold Submit.submit.
  destruct (pre ← prepare st env carrier; submit_tx _ st clock env pre db) as [[dbx verdict]|r] eqn:E; [|done].
  apply bind_ok_iff in E as (pre & Hprep & Htx). destruct verdict as [rows'|r]; [|done].
  destruct (watermark (log dbx)); [|done]. intros [= -> _ ->].
  exists pre. unfold submit_tx in Htx. cbn zeta in Htx.
  apply bind_ok_iff in Htx as (ws & Hlock & Htx). apply bind_ok_iff in Htx as (ep & Hep & Htx).
  apply bind_ok_iff in Htx as ([] & Hadm & Htx). apply ensure_ok_iff in Hadm.
  exists ep. destruct (pre_input_refusal pre) as [r|] eqn:Hin.
  { apply receipted_pty_refusal_ok in Htx as [_ ?]. done. }
  destruct (prior_for_key env (pre_route pre) (pre_payload pre) (log db)) as [|stored|] eqn:Hpr; [| |done].
  - destruct (lock_writer st clock db) as [ws'|] eqn:Hl; [|done]. injection Hlock as ->.
    eapply submit_unused_ok in Htx as [[_ [r ?]]|(c & rt & v & row & Hae & [= ->])]; [done| |done..|].
    + pose proof Hprep as Hprep0. apply prepare_ok in Hprep0 as (Hd & _ & Hrt & Hpay & _).
      pose proof (ae_decode _ _ _ _ _ _ _ _ Hae) as Hd'. rewrite Hd in Hd'. injection Hd' as <-.
      pose proof (ae_route _ _ _ _ _ _ _ _ Hae) as Hr'. rewrite Hrt in Hr'. injection Hr' as <-.
      exists (jsonb (pre_payload pre)). do 4 (split; [done|]). split; [by right|]. rewrite Hpay. by eapply applied_prior.
    + unfold prior_for_key in Hpr. destruct (events_for_key _ _ _ _ _); [done|].
      by destruct (_ && _) in Hpr.
  - apply bind_ok_iff in Htx as ([] & _ & [= -> ->]). exists (pre_payload pre). do 4 (split; [done|]). split; [by left|done].
Qed.

Lemma kernel_log_admits (l more : list event) ep ep' (c : command) :
  kernel_log l ep -> kernel_log (l ++ more) ep' -> admitted ep c = true -> admitted ep' c = true.
Proof.
  intros Hk Hk' Ha. inversion Hk; subst; [done| |].
  - inversion Hk'; subst; done.
  - by inversion Hk'; subst.
Qed.

Lemma prepare_any (st st2 : store) env :
  (0 < permits st)%Z -> (0 < permits st2)%Z -> prepare st env None = prepare st2 env None.
Proof.
  intros H1 H2. unfold prepare, admit_append.
  by rewrite !(proj2 (Z.ltb_lt _ _)).
Qed.

Lemma prepare_permits (st : store) env carrier pre :
  prepare st env carrier = Ok pre -> (0 < permits st)%Z.
Proof. intros Hp. by apply prepare_ok in Hp as (_ & _ & _ & _ & _ & _ & ?). Qed.

(** A command other than PTY input carries no bytes, and its binding is empty. *)
Lemma prepare_none (st : store) env pre :
  prepare st env None = Ok pre -> pre_input_refusal pre = None ->
  pty_input_command (pre_command pre) = false.
Proof.
  unfold prepare. intros Hr. inv_ok. simpl. destruct (pty_input_command _) eqn:Hc; [|done].
  destruct (validate_pty_input_carrier _ None) eqn:Hv.
  - match goal with H : pty_input_command ?c = true |- _ => destruct c; try discriminate H end. done.
  - match goal with H : mret _ = Ok _ |- _ => injection H as <- end. done.
Qed.

(** An applied request sent again reaches the comparison with its prior rows,
    which stand; what it finds is the answer. *)
Lemma resubmitted (st st2 : store) clock clock2 env (db db' db2 : database) rows w w2 :
  reachable db -> submit st clock env None db = (CommandApplied (ce_command_id env) rows w, db') ->
  rtc step db' db2 ->
  writer db2 = Some w2 -> w_epoch w2 = boot_epoch st2 -> (0 < permits st2)%Z ->
  exists pre body, prepare st env None = Ok pre /\
    (body = pre_payload pre \/ body = jsonb (pre_payload pre)) /\
    prior_for_key env (pre_route pre) body (log db2) = Replay rows /\
    match prior_for_key env (pre_route pre) (pre_payload pre) (log db2) with
    | Replay rows => forall mark, watermark (log db2) = Some mark ->
        submit st2 clock2 env None db2 = (CommandApplied (ce_command_id env) rows mark, db2)
    | Conflict => submit st2 clock2 env None db2 = (KernelError (refuse EIdempotencyConflict), db2)
    | Unused => True
    end.
Proof.
  intros Hreach Hs Hsteps Hw2 He2 Hperm. pose proof (reachable_log_inv _ Hreach) as Hinv.
  pose proof (reachable_step _ _ Hreach (step_submit _ _ _ _ _ _ _ Hs)) as Hreach1.
  pose proof (reachable_steps _ _ Hreach1 Hsteps) as Hreach2.
  pose proof (reachable_log_inv _ Hreach2) as Hinv2.
  destruct (step_extends _ _ Hinv (step_submit _ _ _ _ _ _ _ Hs)) as [Hinv1 Hl1].
  destruct (history_extends _ _ Hinv1 Hsteps) as [_ [more Hmore]].
  apply submit_applied_prior in Hs as (pre & ep & body & Hprep & Hin & Hep & Hadm & Hbody & Hprior); [|done].
  pose proof (prepare_permits _ _ _ _ Hprep) as Hperm1. exists pre, body. split; [done|]. split; [done|].
  pose proof (prior_stable _ _ _ _ _ _ _ Hinv2 Hmore Hprior) as Hprior2. split; [done|].
  pose proof (prepare_none _ _ _ Hprep Hin) as Hni. rewrite (prepare_any _ st2) in Hprep by done.
  destruct (reachable_kernel_log _ Hreach) as [ep1 Hk1]. destruct (reachable_kernel_log _ Hreach2) as [ep2 Hk2].
  rewrite (kernel_log_epoch _ _ Hinv Hk1) in Hep. injection Hep as ->.
  assert (admitted ep2 (pre_command pre) = true) as Hadm2.
  { destruct Hl1 as [Hl1|[row Hl1]]; rewrite Hmore, Hl1 in Hk2; [exact (kernel_log_admits _ _ _ _ _ Hk1 Hk2 Hadm)|].
    rewrite <-(assoc_L (++)) in Hk2. exact (kernel_log_admits _ _ _ _ _ Hk1 Hk2 Hadm). }
  destruct (lock_writer_total st2 clock2 _ _ Hinv2 (reachable_writer_ok _ Hreach2) Hw2 He2) as [ws Hlock].
  unfold Submit.submit. rewrite Hprep. simpl. unfold submit_tx. rewrite Hlock. simpl.
  rewrite (kernel_log_epoch _ _ Hinv2 Hk2). simpl. rewrite Hadm2, Hin. simpl.
  destruct (prior_for_key env (pre_route pre) (pre_payload pre) (log db2)); [done| |done].
  intros mark Hm. rewrite Hni. simpl. by rewrite Hm.
Qed.

(** ** The promises *)

(** Every history extends the log it starts from and keeps it
    ordered: sequence numbers rise, each aggregate counts 1, 2, 3, .., and no two
    events share an id, an aggregate version or an idempotency key. *)
Theorem log_is_append_only (db db' : database) :
  reachable db -> rtc step db db' ->
  log_inv db' /\ exists more, log db' = log db ++ more.
Proof. intros Hr%reachable_log_inv. by apply history_extends. Qed.

(** C7: A reachable log is empty, or genesis alone, or genesis, then
    one activation, then events none of which are the kernel's own; the epoch
    read off it is none, sealed or active accordingly. *)
Theorem kernel_lifecycle (db : database) :
  reachable db -> exists ep, epoch_of (log db) = Ok ep /\ kernel_log (log db) ep.
Proof.
  intros Hr. destruct (reachable_kernel_log _ Hr) as [ep Hk]. exists ep.
  split; [|done]. by apply kernel_log_epoch; [apply reachable_log_inv|].
Qed.

(** C1: What one submission may do, from any reachable state: an
    error appends nothing and leaves the database as it was, but for the receipt
    of its request and, when authority was missing, the one attention item of a
    page; an applied answer is either rows already in the log, with the database
    untouched, or exactly one new event at the end of the log whose aggregate,
    type, project, actor and key come from the command, whose payload is the
    command's as the jsonb column gives it back, whose version is the
    aggregate's next, and whose projection is the new state of the tables. *)
Theorem submit_outcomes (st : store) clock env carrier (db db' : database) res :
  reachable db -> submit st clock env carrier db = (res, db') ->
  reachable db' /\
  match res with
  | KernelError r =>
      refusal_effect env r db db'
  | CommandApplied id rows mark =>
      id = ce_command_id env /\
      ((db' = db /\ forall row, row ∈ rows -> row ∈ log db) \/
       exists c rt row, deserialize (ce_payload env) = Some c /\ route_of env c = Ok rt /\
         rows = [row] /\ mark = global_sequence row /\
         log db' = log db ++ [row] /\ project_command row (stored_command c) (proj db) = Ok (proj db') /\
         agg_key row = (r_aggregate_type rt, r_aggregate_id rt) /\
         payload row = jsonb (to_value c) /\ event_type row = r_event_type rt /\
         project_id row = ce_project_id env /\ actor row = ce_actor env /\
         idempotency_key row = Some (ce_idempotency_key env) /\
         aggregate_version row =
           (Z.of_nat (length (versions (log db) (r_aggregate_type rt) (r_aggregate_id rt))) + 1)%Z)
  end.
Proof.
  intros Hreach Hs. split; [by eapply reachable_step, step_submit|].
  destruct res as [id rows mark|r]; [|by apply submit_refused in Hs; [|by apply reachable_log_inv]].
  apply submit_cases in Hs as [[Hq [[r ?]|(-> & rows' & w & [= -> -> ->] & Hrows)]]|(c & rt & v & row & Hae & [= -> -> ->])];
    [done| | |by apply reachable_log_inv].
  - split; [done|]. by left.
  - split; [done|]. right. exists c, rt, row. destruct Hae as []. subst v. by split_and!.
Qed.

(** C2: An applied command whose payload the jsonb column gives back as
    it is can be retried for ever: after any further history, by whatever process
    holds the epoch then, the same envelope is answered with the same rows and
    changes nothing.  (Every command but a message or an ingested record with
    free JSON has such a payload.  Commands that carry PTY bytes are bound to
    those bytes as well and are not covered.) *)
Theorem submit_retry_is_stable (st st2 : store) clock clock2 env (db db' db2 : database) rows w w2 :
  reachable db -> submit st clock env None db = (CommandApplied (ce_command_id env) rows w, db') ->
  (forall c, deserialize (ce_payload env) = Some c -> stored_command c = c) ->
  rtc step db' db2 ->
  writer db2 = Some w2 -> w_epoch w2 = boot_epoch st2 -> (0 < permits st2)%Z ->
  exists mark, watermark (log db2) = Some mark /\
    submit st2 clock2 env None db2 = (CommandApplied (ce_command_id env) rows mark, db2).
Proof.
  intros Hreach Hs Hkept Hsteps Hw2 He2 Hperm.
  destruct (resubmitted st st2 clock clock2 env db db' db2 rows w w2) as (pre & body & Hprep & Hbody & Hprior & Hrest); try done.
  apply prepare_ok in Hprep as (Hd & _ & _ & Hpay & _). apply Hkept, jsonb_typed in Hd.
  assert (body = pre_payload pre) as -> by (destruct Hbody as [-> | ->]; [done|congruence]).
  rewrite Hprior in Hrest. apply prior_replay_iff in Hprior as (row & _ & _ & Hk).
  destruct (watermark (log db2)) as [mark|] eqn:Hm; [exists mark; split; [done|by apply Hrest]|].
  unfold watermark in Hm. destruct (log db2); [|done]. done.
Qed.

(** A command whose free JSON the jsonb column rewrites is applied
    once and then refused: the retry compares the stored body with the presented
    one and finds another request. *)
Theorem rewritten_retry_conflicts (st st2 : store) clock clock2 env (db db' db2 : database) row c w w2 :
  reachable db -> submit st clock env None db = (CommandApplied (ce_command_id env) [row] w, db') ->
  log db' = log db ++ [row] -> deserialize (ce_payload env) = Some c -> jsonb (to_value c) <> to_value c ->
  rtc step db' db2 ->
  writer db2 = Some w2 -> w_epoch w2 = boot_epoch st2 -> (0 < permits st2)%Z ->
  submit st2 clock2 env None db2 = (KernelError (refuse EIdempotencyConflict), db2).
Proof.
  intros Hreach Hs Hlog Hd Hne Hsteps Hw2 He2 Hperm.
  destruct (resubmitted st st2 clock clock2 env db db' db2 [row] w w2) as (pre & body & Hprep & _ & Hprior & Hrest); try done.
  assert (payload row = jsonb (to_value c)) as Hrow.
  { apply submit_cases in Hs as [[Hq _]|(c' & rt & v & row' & Hae & [= ->])]; [| |by apply reachable_log_inv].
    - destruct Hq as [Hq _]. rewrite Hq in Hlog. apply (f_equal length) in Hlog. rewrite length_app in Hlog. cbn in Hlog. lia.
    - rewrite (ae_decode _ _ _ _ _ _ _ _ Hae) in Hd. injection Hd as <-. apply Hae. }
  apply prepare_ok in Hprep as (Hd' & _ & _ & Hpay & _). rewrite Hd in Hd'. injection Hd' as ->.
  apply prior_replay_iff in Hprior as (row' & [= <-] & Ha & Hk).
  assert (prior_for_key env (pre_route pre) (pre_payload pre) (log db2) = Conflict) as Hc; [|by rewrite Hc in Hrest].
  destruct (prior_for_key env (pre_route pre) (pre_payload pre) (log db2)) as [|rows|] eqn:E; [| |done].
  - unfold prior_for_key in E. rewrite Hk in E. cbn zeta in E. by destruct (_ && _) in E.
  - apply prior_replay_iff in E as (row' & -> & (_ & _ & _ & Hp & _) & Hk'). rewrite Hk in Hk'. injection Hk' as <-. congruence.
Qed.

Lemma epoch_monotone (db db' : database) w w' :
  reachable db -> rtc step db db' -> writer db = Some w -> writer db' = Some w' ->
  (w_epoch w <= w_epoch w')%Z.
Proof.
  intros Hr Hs. revert w Hr. induction Hs as [db|db db1 db' Hs Hss IH]; intros w Hr Hw Hw'.
  { simplify_eq. lia. }
  pose proof (reachable_log_inv _ Hr) as Hinv. pose proof (reachable_writer_ok _ Hr) as Hok.
  destruct (writer_ok_step _ _ Hinv Hok Hs) as [(w1 & Hw1 & _) Hle].
  specialize (Hle _ _ Hw Hw1). specialize (IH _ (reachable_step _ _ Hr Hs) Hw1 Hw'). lia.
Qed.

(** A store whose epoch is not the writer row's is refused at the lock. *)
Lemma not_holder_refused (st : store) clock env carrier (db : database) w :
  writer db = Some w -> w_epoch w <> boot_epoch st ->
  exists r, submit st clock env carrier db = (KernelError r, db).
Proof.
  intros Hw He. unfold Submit.submit. destruct (prepare st env carrier) as [pre|r]; simpl; [|by eexists].
  unfold submit_tx, lock_writer. rewrite Hw. simpl. rewrite (proj2 (Z.eqb_neq _ _) He). simpl. by eexists.
Qed.

(** C6: Once another process has claimed the writer epoch, whatever
    happens afterwards, the earlier store's submissions are refused and leave the
    database as it is. *)
Theorem deposed_writer_is_refused (st st' : store) inflight inflight' clock env carrier
    (db0 db1 db2 db3 db4 : database) :
  reachable db0 ->
  with_capacity inflight db0 = Ok (st, db1) -> rtc step db1 db2 ->
  with_capacity inflight' db2 = Ok (st', db3) -> rtc step db3 db4 ->
  exists r, submit st clock env carrier db4 = (KernelError r, db4).
Proof.
  intros Hr0 Hc1 Hs1 Hc2 Hs2.
  pose proof (reachable_step _ _ Hr0 (step_claim _ _ _ _ Hc1)) as Hr1.
  pose proof (reachable_steps _ _ Hr1 Hs1) as Hr2.
  pose proof (reachable_step _ _ Hr2 (step_claim _ _ _ _ Hc2)) as Hr3.
  pose proof (reachable_steps _ _ Hr3 Hs2) as Hr4.
  apply with_capacity_ok in Hc1 as (_ & w0 & w1 & _ & Hw1 & _ & Hb1).
  apply with_capacity_ok in Hc2 as (_ & w2 & w3 & Hw2 & Hw3 & Hn & _).
  destruct (reachable_writer_ok _ Hr4) as (w4 & Hw4 & _).
  apply (not_holder_refused _ _ _ _ _ w4 Hw4).
  pose proof (epoch_monotone _ _ _ _ Hr1 Hs1 Hw1 Hw2). pose proof (epoch_monotone _ _ _ _ Hr3 Hs2 Hw3 Hw4). lia.
Qed.

(** Before activation every command but the activation of a
    sealed kernel is refused and leaves the database as it is. *)
Theorem sealed_kernel_takes_only_activation (st : store) clock env carrier (db : database) ep c :
  epoch_of (log db) = Ok ep -> ep <> EpochActive -> deserialize (ce_payload env) = Some c ->
  (forall cutover digest, c = ActivateKernel cutover digest -> ep = EpochNone) ->
  exists r, submit st clock env carrier db = (KernelError r, db).
Proof.
  intros Hep Hne Hd Hc. unfold Submit.submit.
  destruct (prepare st env carrier) as [pre|r] eqn:Hprep; simpl; [|by eexists].
  apply prepare_ok in Hprep as (Hd' & _). rewrite Hd in Hd'. injection Hd' as ->.
  unfold submit_tx. destruct (lock_writer st clock db) as [ws|e]; simpl; [|by eexists].
  rewrite Hep. simpl. assert (admitted ep (pre_command pre) = false) as ->; [|by eexists].
  destruct ep; [done| |done]. destruct (pre_command pre); try done. by specialize (Hc _ _ eq_refl).
Qed.

(** The events of an aggregate outside the Context engine all
    belong to the project that created it: no other project's command can append
    to it. *)
Theorem aggregates_belong_to_one_project (db : database) e1 e2 :
  reachable db -> e1 ∈ log db -> e2 ∈ log db -> agg_key e1 = agg_key e2 ->
  is_context_aggregate (aggregate_type e1) = false -> project_id e1 = project_id e2.
Proof. intros Hr. by apply reachable_owned. Qed.

(** ** The tables *)

(** The Context projector keeps its own tables; the nineteen of the contract
    are not among them. *)
Definition context_frame : Prop :=
  forall e p p', apply_context_event e p = Ok p' -> p' = p.

Section Tables.
Context (Hframe : context_frame).

(** Every step is at most one guarded statement against the tables. *)
Lemma step_writes (db db' : database) :
  log_inv db -> step db db' -> table_write (proj db) (proj db').
Proof.
  intros Hinv Hs. step_cases Hinv Hs.
  - destruct (se_proj _ _ Hstill) as [->|(id & row & Hi)]; [by apply tw_none|].
    eapply tw_ins; [|exact Hi]. exact d_attention.
  - by apply tw_none.
  - apply tw_none. by eapply Hframe.
  - eapply project_table_write, (ae_proj _ _ _ _ _ _ _ _ Hae).
Qed.

Lemma reachable_rows_ok db : reachable db -> rows_ok (proj db).
Proof.
  apply (reachable_invariant (fun db => rows_ok (proj db))).
  - intros t0. exact empty_rows_ok.
  - intros db1 db2 _ Hinv Hok Hs. eapply write_rows_ok; [|done]. by apply step_writes.
Qed.

Lemma reachable_slots_ok db : reachable db -> slots_ok (proj db).
Proof.
  apply (reachable_invariant (fun db => slots_ok (proj db))).
  - intros t0 id1 id2 r1 r2 s. simpl. by rewrite lookup_empty.
  - intros db1 db2 _ Hinv Hok Hs. eapply write_slots_ok; [|done]. by apply step_writes.
Qed.

(** The version column of a row is the number of events of its aggregate. *)
Definition versions_ok (db : database) : Prop :=
  forall ty id v, table_version (proj db) ty id = Some v ->
    v = Z.of_nat (length (versions (log db) ty id)).

Lemma versions_ok_row (db db' : database) row :
  versions_ok db -> log db' = log db ++ [row] -> proj db' = proj db ->
  table_version (proj db) (aggregate_type row) (aggregate_id row) = None -> versions_ok db'.
Proof.
  intros Hok Hl Hp Hn ty id v Hv. rewrite Hp in Hv. rewrite Hl, versions_snoc.
  destruct (bool_decide_reflect (agg_key row = (ty, id))) as [[= <- <-]|Hne]; [congruence|].
  rewrite app_nil_r. by apply Hok.
Qed.

Lemma versions_ok_applied clk env (db db' : database) c rt v row :
  versions_ok db -> applied_effect clk env db db' c rt v row -> versions_ok db'.
Proof.
  intros Hok Hae ty id v' Hv'. rewrite (ae_log _ _ _ _ _ _ _ _ Hae), versions_snoc.
  pose proof (project_version _ _ _ _ _ _ (eq_trans (route_of_stored env c) (ae_route _ _ _ _ _ _ _ _ Hae)) (ae_key _ _ _ _ _ _ _ _ Hae)
                (ae_proj _ _ _ _ _ _ _ _ Hae)) as Hw.
  assert (table_version (proj db') ty id =
    if bool_decide (ty = aggregate_type row /\ id = aggregate_id row)
    then table_version (proj db') (aggregate_type row) (aggregate_id row)
    else table_version (proj db) ty id) as Hif.
  { destruct (bool_decide_reflect (ty = aggregate_type row /\ id = aggregate_id row)) as [[-> ->]|Hne]; [done|].
    destruct Hw as [Hw|Hw]; rewrite Hw, bool_decide_eq_false_2; done. }
  rewrite Hif in Hv'.
  destruct (bool_decide_reflect (ty = aggregate_type row /\ id = aggregate_id row)) as [[-> ->]|Hne].
  - rewrite bool_decide_eq_true_2 by done. rewrite length_app. simpl.
    destruct Hw as [Hw|Hw]; rewrite Hw, bool_decide_eq_true_2 in Hv' by done; [|done].
    injection Hv' as <-. rewrite (ae_row_version _ _ _ _ _ _ _ _ Hae), (ae_version _ _ _ _ _ _ _ _ Hae).
    pose proof (ae_key _ _ _ _ _ _ _ _ Hae) as Hk. unfold agg_key in Hk. injection Hk as -> ->. lia.
  - rewrite bool_decide_eq_false_2, app_nil_r by (unfold agg_key; intros [= <- <-]; by apply Hne).
    by apply Hok.
Qed.

Lemma context_unversioned (p : P) ty id :
  is_context_aggregate ty = true -> table_version p ty id = None.
Proof.
  unfold is_context_aggregate. rewrite bool_decide_eq_true.
  intros [->|[->|[->|[]%not_elem_of_nil]%elem_of_cons]%elem_of_cons]%elem_of_cons; done.
Qed.

Lemma reachable_versions_ok db : reachable db -> versions_ok db.
Proof.
  apply (reachable_invariant versions_ok).
  - intros t0 ty id v. unfold table_version. simpl.
    by repeat destruct (bool_decide _); rewrite ?lookup_empty.
  - intros db1 db2 _ Hinv Hok Hs. step_cases Hinv Hs.
    + intros ty id v. rewrite (se_log _ _ Hstill).
      destruct (se_proj _ _ Hstill) as [->|(i & r & Hi)]; [apply Hok|].
      apply ins_ok in Hi as (_ & _ & _ & _ & _ & ->). apply Hok.
    + eapply versions_ok_row; [done|apply Hrow|done|]. unfold agg_key in Hkey. by injection Hkey as -> ->.
    + eapply versions_ok_row; [done|apply Hrow|by apply Hframe in Hproj|]. by apply context_unversioned.
    + by eapply versions_ok_applied.
Qed.

(** A state-machine row over a history. *)
Lemma fsm_history {S R} `{SeededMachine S, !StateMachineLaws S, !FsmRows S R}
    (db db' : database) id (old : R) (s : S) :
  log_inv db -> rtc step db db' -> rows_of (proj db) !! id = Some old -> state_col old = wire_name s ->
  exists new s', rows_of (proj db') !! id = Some new /\ state_col new = wire_name s' /\
    rtc (fun a b => can_transition a b = true) s s' /\
    (version_col old <= version_col new)%Z /\ (s <> s' -> version_col old < version_col new)%Z.
Proof.
  intros Hinv Hs. revert old s Hinv. induction Hs as [db|db db1 db' Hs Hss IH]; intros old s Hinv Hl Hst.
  { exists old, s. repeat split; done || lia. }
  pose proof (step_writes _ _ Hinv Hs) as Hw. destruct (step_extends _ _ Hinv Hs) as [Hinv1 _].
  destruct (rows_evolve _ _ _ _ Hw Hl) as (mid & Hmid & Hev).
  assert (exists s1 : S, state_col mid = wire_name s1 /\
            rtc (fun a b => can_transition a b = true) s s1 /\
            (version_col old <= version_col mid)%Z /\ (s <> s1 -> version_col old < version_col mid)%Z)
    as (s1 & Hs1 & Hr1 & Hv1 & Hv1').
  { destruct Hev as [->|Hev]; [exists s; repeat split; done || lia|].
    rewrite Hst in Hev. pose proof (assert_transition_state _ _ _ _ _ Hev) as Hcase.
    assert (version_col mid = version_col old + 1)%Z as Hvm
      by (unfold assert_transition in Hev; unbool; lia).
    destruct Hcase as [He|(b & He & Hc)].
    - exists s. repeat split; try done; lia.
    - exists b. split; [done|]. split; [by apply rtc_once|]. lia. }
  destruct (IH _ _ Hinv1 Hmid Hs1) as (new & s' & Hn & Hsn & Hr & Hv & Hv').
  exists new, s'. split; [done|]. split; [done|]. split; [by etransitivity|]. split; [lia|].
  intros Hne. destruct (decide (s = s1)) as [->|Hne1]; [|specialize (Hv1' Hne1); lia].
  specialize (Hv' Hne). lia.
Qed.

Lemma terminal_rtc {S} `{StateMachine S} (s s' : S) :
  is_terminal s = true -> rtc (fun a b => can_transition a b = true) s s' -> s' = s.
Proof.
  intros Ht Hr. destruct Hr as [|s s1 s' H1 _]; [done|].
  by rewrite terminal_no_transition in H1.
Qed.

(** Every row of every projection table of a reachable state
    meets its table's CHECK constraints, and every foreign key resolves. *)
Theorem rows_meet_their_constraints (db : database) R (t : Table P R) id row :
  reachable db -> declared R t -> t_get t (proj db) !! id = Some row ->
  t_check t row = true /\ t_fk t (proj db) row = true.
Proof. intros Hr. by apply reachable_rows_ok. Qed.

(** Two unresolved attention items of one kind never name the
    same subject, whether a command or a page raised them. *)
Theorem one_open_item_per_subject (db : database) id1 id2 r1 r2 s :
  reachable db ->
  attention_items (proj db) !! id1 = Some r1 -> attention_items (proj db) !! id2 = Some r2 ->
  attn_resolved_at r1 = None -> attn_resolved_at r2 = None ->
  attn_kind r1 = attn_kind r2 -> attn_subject_ref r1 = Some s -> attn_subject_ref r2 = Some s ->
  id1 = id2.
Proof. intros Hr. by apply reachable_slots_ok. Qed.

(** C4: In every reachable state the version column of a row is the
    number of events of its aggregate, and the version the log reports for it. *)
Theorem row_version_counts_events (db : database) ty id v :
  reachable db -> table_version (proj db) ty id = Some v ->
  v = Z.of_nat (length (versions (log db) ty id)) /\
  current_aggregate_version (log db) ty id = Ok v.
Proof.
  intros Hr Hv. pose proof (reachable_versions_ok _ Hr _ _ _ Hv) as ->. split; [done|].
  apply current_version_total. by apply reachable_log_inv.
Qed.

(** C5: Over any history a task, attempt, message or command row
    stays in its table, its state moves only along the edges of its machine, a
    terminal state is never left, and every move raises the version. *)
Theorem rows_follow_the_machine {S R} `{SeededMachine S, !StateMachineLaws S, !FsmRows S R}
    (db db' : database) id (old : R) :
  reachable db -> rtc step db db' -> rows_of (proj db) !! id = Some old ->
  exists (s s' : S) new, rows_of (proj db') !! id = Some new /\
    state_col old = wire_name s /\ state_col new = wire_name s' /\
    rtc (fun a b => can_transition a b = true) s s' /\
    (is_terminal s = true -> s' = s) /\
    (version_col old <= version_col new)%Z /\ (s <> s' -> version_col old < version_col new)%Z.
Proof.
  intros Hr Hs Hl. destruct (rows_known _ _ _ (reachable_rows_ok _ Hr) Hl) as [s Hst].
  destruct (fsm_history _ _ _ _ _ (reachable_log_inv _ Hr) Hs Hl Hst) as (new & s' & Hn & Hsn & Hrt & Hv & Hv').
  exists s, s', new. repeat (split; [done|]). split; [|done]. intros Ht. by eapply terminal_rtc.
Qed.

(** The cursor a transition is decided on is the row it reads. *)
Lemma decide_fsm_attempt env id to v receipt rt (p : P) cur old :
  attempts p !! r_aggregate_id rt = Some old ->
  decide_fsm env (TransitionAttempt id to v receipt) rt p = Ok cur ->
  exists s, attempt_state old = wire_name s /\ can_transition s to = true /\
    guard s to {| ctx_actor := ce_actor env; ctx_receipt_id := receipt |} = Ok tt /\
    cur = attempt_version old /\ v = attempt_version old.
Proof.
  intros Hl Hr. unfold decide_fsm in Hr. cbn zeta in Hr. rewrite Hl in Hr. simpl in Hr.
  apply bind_ok_iff in Hr as (cursor & Hc & Hr). unfold fsm_cursor, row_version in Hc.
  simpl in Hc. inv_ok. unfold decide_transition in Hr.
  match goal with H : of_wire _ = Some ?s |- _ => rename H into Hw; exists s end.
  apply of_wire_Some in Hw. split; [done|].
  destruct (Transition.apply _ _) as [s' v'| | |] eqn:Ha; try done. injection Hr as <-.
  apply apply_applied_iff in Ha as [Hg Hsp]. destruct Hsp as [Hre|Hre He Hv Hm]; [done|].
  simpl in *. split; [by apply can_transition_spec|]. by repeat split.
Qed.

(** C9: If a submission moves an attempt between running and
    blocked, the actor is the liveness producer and the command is a transition
    of that attempt, at the version the row had, with a non-empty receipt. *)
Theorem liveness_flips_are_guarded (st : store) clock env carrier (db db' : database) res id old new
    (from to : AttemptState) :
  reachable db -> submit st clock env carrier db = (res, db') ->
  attempts (proj db) !! id = Some old -> attempts (proj db') !! id = Some new ->
  attempt_state old = wire_name from -> attempt_state new = wire_name to -> is_flip from to = true ->
  actor_kind (ce_actor env) = LIVENESS_PRODUCER_KIND /\
  exists receipt, receipt <> "" /\
    deserialize (ce_payload env) = Some (TransitionAttempt id to (attempt_version old) (Some receipt)).
Proof.
  intros Hr Hs Ho Hn Hfrom Hto Hflip. pose proof (reachable_log_inv _ Hr) as Hinv.
  assert (from <> to) as Hne by (intros ->; by destruct to).
  assert (attempt_state new <> attempt_state old) as Hmoved.
  { rewrite Hfrom, Hto. intros Hw%wire_name_inj. by apply Hne. }
  apply submit_cases in Hs as [[Hq _]|(c & rt & v & row & Hae & _)]; [| |done].
  { exfalso. apply Hmoved. destruct Hq as (_ & _ & _ & _ & _ & [Hp|(i & r & Hi)]).
    - rewrite Hp in Hn. congruence.
    - apply ins_ok in Hi as (_ & _ & _ & _ & _ & Hp). rewrite Hp in Hn. simpl in Hn. congruence. }
  destruct (attempt_state_moves _ _ _ _ _ _ _ (ae_proj _ _ _ _ _ _ _ _ Hae) Ho Hn)
    as [?|(to' & v' & rc & ->%stored_other & Hto')]; [done| |done].
  rewrite Hto in Hto'. apply wire_name_inj in Hto' as <-.
  assert (r_aggregate_id rt = id) as Hid.
  { pose proof (ae_route _ _ _ _ _ _ _ _ Hae) as Hrt. unfold route_of in Hrt. simpl in Hrt. by inv_ok. }
  pose proof (ae_decide _ _ _ _ _ _ _ _ Hae) as Hd. cbn [decide_command] in Hd. rewrite <-Hid in Ho.
  destruct (decide_fsm_attempt _ _ _ _ _ _ _ _ _ Ho Hd) as (s & Hs & _ & Hg & _ & Hv').
  rewrite Hfrom in Hs. apply wire_name_inj in Hs as <-.
  apply (attempt_guard_flip _ _ _ Hflip) in Hg as [Hk (r & Hrc & Hre)]. simpl in Hk, Hrc.
  split; [done|]. exists r. split; [done|]. rewrite (ae_decode _ _ _ _ _ _ _ _ Hae). congruence.
Qed.
End Tables.

(** ** Authority *)

(** A grant on record that covers the action at the time it is judged by. *)
Definition granted (p : P) (env : envelope) (cls subject : string) (wall : instant) : Prop :=
  exists id g, authority_grants p !! id = Some g /\
    grant_action_class g = cls /\ grant_grantee g = ce_actor env /\
    (grant_scope g = None \/ grant_scope g = Some subject) /\ grant_revoked_at g = None /\
    match grant_expires_at g with
    | None => True
    | Some expiry => exists t, instant_ltb t expiry = true /\
        if is_pty_action cls then t = wall else ts_parse (ce_issued_at env) = Some t
    end.

Lemma covering_grants_elem (p : P) who cls subject g :
  g ∈ covering_grants p who cls subject ->
  exists id, authority_grants p !! id = Some g /\ grant_action_class g = cls /\
    grant_grantee g = who /\ (grant_scope g = None \/ grant_scope g = Some subject) /\
    grant_revoked_at g = None.
Proof.
  unfold covering_grants. intros [Hin Hb]%list_elem_of_In%filter_In. unbool.
  apply list_elem_of_In, list_elem_of_fmap in Hin as ([id g'] & -> & Hin%elem_of_map_to_list). simpl in *.
  exists id. split; [done|]. split; [done|]. split; [done|]. split.
  - destruct (grant_scope g'); [right|by left]. unbool. congruence.
  - by destruct (grant_revoked_at g').
Qed.

Lemma evaluate_allow (p : P) wall env key subject cls basis :
  evaluate p wall env key subject = Ok (Allow cls basis) ->
  class_of key = Some cls /\
  (is_pty_action cls = true /\ actor_kind (ce_actor env) = "operator" \/
   granted p env cls subject wall).
Proof.
  unfold evaluate. destruct (class_of key) as [cls'|]; [|done]. cbn zeta.
  destruct (is_pty_action cls') eqn:Hpty; simpl.
  - destruct (bool_decide_reflect (actor_kind (ce_actor env) = "operator")) as [Hop|Hop].
    { intros [= <- <-]. split; [done|]. by left. }
    destruct (bool_decide _); simpl; [|done]. intros Hr.
    apply bind_ok_iff in Hr as (allowed & Hm & Hr). destruct allowed; [|done]. injection Hr as <- <-.
    split; [done|]. right. unfold matching_grant in Hm. cbn zeta in Hm.
    destruct (existsb _ _) eqn:Hex; [|done].
    apply existsb_exists in Hex as (g & Hg%list_elem_of_In & He).
    destruct (covering_grants_elem _ _ _ _ _ Hg) as (id & Hid & H1 & H2 & H3 & H4).
    exists id, g. repeat (split; [done|]). destruct (grant_expires_at g); [|done].
    simpl in He. exists wall. by rewrite Hpty.
  - intros Hr. apply bind_ok_iff in Hr as (allowed & Hm & Hr). destruct allowed; [|done].
    injection Hr as <- <-. split; [done|]. right. unfold matching_grant in Hm. cbn zeta in Hm.
    assert (exists g, g ∈ covering_grants p (ce_actor env) cls' subject /\
              match grant_expires_at g with None => True
              | Some x => exists t, instant_ltb t x = true /\ ts_parse (ce_issued_at env) = Some t end)
      as (g & Hg & He).
    { destruct (existsb _ _) eqn:Hex.
      - apply existsb_exists in Hex as (g & Hg%list_elem_of_In & He). exists g. split; [done|].
        by destruct (grant_expires_at g).
      - simpl in Hm. destruct (bool_decide _); [done|].
        apply bind_ok_iff in Hm as (t & Ht & [= Hm]). apply ok_or_ok_iff in Ht.
        apply existsb_exists in Hm as (g & Hg%list_elem_of_In & He). exists g. split; [done|].
        destruct (grant_expires_at g); [|done]. by exists t. }
    destruct (covering_grants_elem _ _ _ _ _ Hg) as (id & Hid & H1 & H2 & H3 & H4).
    exists id, g. repeat (split; [done|]). destruct (grant_expires_at g); [|done]. by rewrite Hpty.
Qed.


(** A page commits its trail and refuses: nothing is appended,
    the receipt of the refused action is on record, and an unresolved authority
    item names the subject. *)
Theorem page_leaves_its_trail (env : envelope) (c : command) rt cls basis (db db' : database) verdict :
  paged env c rt cls basis db = Ok (db', verdict) ->
  log db' = log db /\ writer db' = writer db /\ receipted env rt cls db' /\
  (exists r, verdict = VRefused r /\ code r = EAuthority) /\
  exists id row, attention_items (proj db') !! id = Some row /\ attn_kind row = "authority" /\
    attn_subject_ref row = Some (r_aggregate_type rt +:+ "/" +:+ r_aggregate_id rt) /\
    attn_resolved_at row = None.
Proof.
  unfold paged. cbn zeta. intros Hr. apply bind_ok_iff in Hr as (db1 & Hw & Hr).
  apply bind_ok_iff in Hr as (p & Hp & [= <- <-]).
  pose proof (write_receipt_ok _ _ _ Hw) as (m & -> & _). apply write_receipt_row in Hw as (row & Hrow).
  split; [done|]. split; [done|]. split; [by exists row|]. split; [by eexists|].
  unfold page_attention in Hp. apply bind_ok_iff in Hp as (at' & _ & Hp). cbn zeta in Hp.
  destruct (bool_decide_reflect (open_items (proj (set_receipts m db)) "authority"
    (Some (r_aggregate_type rt +:+ "/" +:+ r_aggregate_id rt)) = [])) as [Hn|Hn].
  - apply ins_ok in Hp as (_ & _ & _ & _ & _ & ->). eexists _, _. split; [apply lookup_insert_eq|done].
  - injection Hp as <-. unfold open_items in Hn.
    destruct (map_to_list _) as [|[id r] l] eqn:Hm in Hn; [done|].
    assert ((id, r) ∈ map_to_list (filter (fun '(_, r) => holds_slot "authority"
      (Some (r_aggregate_type rt +:+ "/" +:+ r_aggregate_id rt)) r = true) (attention_items (proj db)))) as Hin
      by (simpl in Hm; rewrite Hm; left).
    apply elem_of_map_to_list, map_lookup_filter_Some in Hin as [Hin Hs].
    unfold holds_slot in Hs. unbool. exists id, r. split; [done|]. split; [done|]. split; [done|].
    by destruct (attn_resolved_at r).
Qed.

(** The id of a page's item is a function of its class and
    subject.  While an item of that id is on record and no authority item of the
    subject is open (the page was resolved), a further page of the same class and
    subject fails as a whole, receipt included, with a storage error unless the
    receipt already failed it. *)
Theorem page_is_raised_once (env : envelope) (c : command) rt cls basis (db : database) :
  let subject := r_aggregate_type rt +:+ "/" +:+ r_aggregate_id rt in
  is_Some (attention_items (proj db) !! ("page:" +:+ cls +:+ ":" +:+ subject)) ->
  open_items (proj db) "authority" (Some subject) = [] ->
  exists r, paged env c rt cls basis db = Err r /\
    (receipts db !! receipt_id (receipt_for env rt c cls basis) = None -> r = storage).
Proof.
  intros subject [row Hrow] Hopen. unfold paged. fold subject. cbn zeta.
  unfold write_receipt, ts. destruct (ts_parse _) as [at'|] eqn:Hts; [|by eexists]. cbn [ok_or mbind result_bind].
  assert (forall m, page_attention ("page:" +:+ cls +:+ ":" +:+ subject)
    (ce_command_type env +:+ " requires an unexpired " +:+ cls +:+ " grant") subject (ce_actor env)
    (ce_issued_at env) (proj (set_receipts m db)) = Err storage) as Hpage.
  { intros m. unfold page_attention, ts. simpl in Hts. rewrite Hts. cbn [ok_or mbind result_bind].
    change (proj (set_receipts m db)) with (proj db).
    rewrite bool_decide_eq_true_2 by done. unfold ins, sql_insert. cbn [t_get attention_table].
    by rewrite Hrow. }
  destruct (receipts db !! _) as [stored|].
  - destruct (bool_decide _); cbn [ensure mbind result_bind mret result_ret]; [|by eexists].
    pose proof (Hpage (receipts db)) as Hp. replace (set_receipts (receipts db) db) with db in Hp by (by destruct db).
    rewrite Hp. by eexists.
  - cbn [mbind result_bind mret result_ret]. rewrite Hpage. by eexists.
Qed.
End System.

(** Reachability, for the components built on top. *)
#[export] Hint Resolve reachable_log_inv reachable_step reachable_steps : gwk.
