(* ===== verification/Recover.v ===== *)
(** * Recovery by replay (gwk-kernel/src/recover.rs)

    The log is read back page by page and every event but genesis goes through
    the applier that projected it in the first place.  The loop is bounded by
    the length of the log; paging is proved to visit every event once and in
    order, and the rebuilt tables to be the live ones wherever the log can
    rebuild them: every table but [attention_item], which a page writes without
    an event. *)

From S2P Require Import Prelude Text Fsm Envelope Transition Command Tables Db Store Project Authority Submit Writes Kernel System.

Definition REPLAY_PAGE : Z := 1000.

Section Recover.
Context `{TZ : Timestamptz} `{TZL : !TimestamptzLaws} {V : Type} `{SD : Serde V} `{SDL : !SerdeLaws V}
  `{HM : Hmac}.
Context (apply_context_event : EventEnvelope V -> Proj instant V -> result Refusal (Proj instant V)).
Notation event := (EventEnvelope V).
Notation P := (Proj instant V).
Notation database := (Db instant V).
Notation reachable := (reachable apply_context_event).
Notation apply_event := (apply_event apply_context_event).

(** ** The replay loop *)

Definition is_genesis_event (e : event) : bool :=
  bool_decide (aggregate_type e = KERNEL_AGGREGATE) && bool_decide (event_type e = GENESIS_EVENT_TYPE).

(** The body of the loop over a page: the count of applied events and the
    target's tables. *)
Definition replay_event (acc : Z * P) (e : event) : result Refusal (Z * P) :=
  let '(events, target) := acc in
  if is_genesis_event e then mret (events, target)
  else target ← apply_event e target; mret ((events + 1)%Z, target).

(** The loop over pages; [None] is fuel run out. *)
Fixpoint replay_pages (fuel : nat) (l : list event) (cursor : option Z) (acc : Z * P)
  : option (result Refusal (Z * P)) :=
  match fuel with
  | 0 => None
  | S fuel =>
      let page := read_page l cursor REPLAY_PAGE in
      if bool_decide (page = []) then Some (Ok acc)
      else
        match fold_res replay_event acc page with
        | Err r => Some (Err r)
        | Ok acc =>
            if (Z.of_nat (length page) <? REPLAY_PAGE)%Z then Some (Ok acc)
            else replay_pages fuel l (global_sequence <$> last page) acc
        end
  end.

(** [replay] of a log into a target's tables: one page more than there are
    events is always enough. *)
Definition replay (l : list event) (target : P) : option (result Refusal (Z * P)) :=
  replay_pages (S (length l)) l None (0%Z, target).

(** The tables a replay rebuilds. *)
Definition derived (p : P) : P := set_attention_items ∅ p.

Record RebuildReport := {
  through_sequence : option Z;
  live_hash : string;
  rebuilt_hash : string;
  agrees : bool;
}.

(** No row in any derived table. *)
Definition holds_no_rows (p : P) : bool :=
  bool_decide (size (tasks p) = 0) && bool_decide (size (attempts p) = 0)
  && bool_decide (size (engine_sessions p) = 0) && bool_decide (size (messages p) = 0)
  && bool_decide (size (commands p) = 0) && bool_decide (size (gates p) = 0)
  && bool_decide (size (authority_grants p) = 0) && bool_decide (size (evidences p) = 0)
  && bool_decide (size (leases p) = 0) && bool_decide (size (worktrees p) = 0)
  && bool_decide (size (dispatch_nodes p) = 0) && bool_decide (size (workspace_nodes p) = 0)
  && bool_decide (size (workflow_runs p) = 0) && bool_decide (size (pty_sessions p) = 0)
  && bool_decide (size (pty_templates p) = 0) && bool_decide (size (orch_checkpoints p) = 0)
  && bool_decide (size (ingested_records p) = 0) && bool_decide (size (cost_entries p) = 0).

(** [rebuild_into]: refuse a scratch database that holds rows, replay into it,
    compare hashes.  [projection_hash] is the digest of the canonical records of
    the derived tables. *)
Definition rebuild_into (projection_hash : P -> string) (db : database) (scratch : P)
  : option (result Refusal (RebuildReport * P)) :=
  if negb (holds_no_rows scratch) then Some (Err validation)
  else
    match replay (log db) scratch with
    | None => None
    | Some (Err r) => Some (Err r)
    | Some (Ok (_, target)) =>
        let live := projection_hash (derived (proj db)) in
        let rebuilt := projection_hash (derived target) in
        Some (Ok ({| through_sequence := watermark (log db); live_hash := live;
                     rebuilt_hash := rebuilt; agrees := bool_decide (live = rebuilt) |}, target))
    end.

(** [uncertain_states]: the states with an edge to [unknown]. *)
Definition uncertain_states : list string :=
  wire_name <$> List.filter (fun s => can_transition s AttemptUnknown) STATES.

(** [uncertain_attempts], up to the order of the ids. *)
Definition uncertain_attempts (p : P) : list string :=
  (map_to_list (filter (fun '(_, r) => attempt_state r ∈ uncertain_states) (attempts p))).*1.

(** ** Paging visits every event once, in order *)

Definition after (cursor : option Z) (l : list event) : list event :=
  List.filter (fun e => match cursor with Some c => (c <? global_sequence e)%Z | None => true end) l.

Lemma after_suffix lo l cursor :
  increasing_from global_sequence lo l -> exists pre, l = pre ++ after cursor l.
Proof.
  destruct cursor as [c|]; [|intros _; exists []; unfold after; by rewrite (filter_all (fun _ => true))].
  revert lo. induction l as [|x l IH]; intros lo Hi; [by exists []|]. destruct Hi as [Hx Hi]. simpl.
  destruct (Z.ltb_spec c (global_sequence x)).
  - exists []. simpl. f_equal. symmetry. apply filter_all. intros e He.
    pose proof (increasing_lower _ _ _ _ Hi He). apply Z.ltb_lt. lia.
  - destruct (IH _ Hi) as [pre Hp]. exists (x :: pre). simpl. by f_equal.
Qed.

Lemma after_last lo (a rest : list event) x :
  increasing_from global_sequence lo (a ++ x :: rest) ->
  after (Some (global_sequence x)) (a ++ x :: rest) = rest.
Proof.
  intros [Ha Hx]%increasing_app. destruct Hx as [Hx Hrest]. unfold after.
  rewrite List.filter_app. simpl. rewrite Z.ltb_irrefl.
  rewrite (filter_nothing _ a), (filter_all _ rest); [done| |].
  - intros e He. pose proof (increasing_lower _ _ _ _ Hrest He). by apply Z.ltb_lt.
  - intros e He. pose proof (max_of_in global_sequence lo a e He). apply Z.ltb_ge. lia.
Qed.

Lemma replay_pages_all fuel lo l cursor acc :
  increasing_from global_sequence lo l -> length (after cursor l) < fuel ->
  replay_pages fuel l cursor acc = Some (fold_res replay_event acc (after cursor l)).
Proof.
  intros Hi. revert cursor acc. induction fuel as [|fuel IH]; intros cursor acc Hf; [lia|]. simpl.
  unfold read_page. change (Z.min REPLAY_PAGE MAX_READ_LIMIT) with REPLAY_PAGE.
  fold (after cursor l). set (rest := after cursor l) in *.
  destruct (bool_decide_reflect (take (Z.to_nat REPLAY_PAGE) rest = [])) as [Hn|Hn].
  { assert (rest = []) as -> by (by destruct rest). done. }
  replace (fold_res replay_event acc rest) with
    (fold_res replay_event acc (take (Z.to_nat REPLAY_PAGE) rest ++ drop (Z.to_nat REPLAY_PAGE) rest))
    by (by rewrite take_drop).
  rewrite fold_res_app.
  destruct (fold_res replay_event acc (take _ rest)) as [acc'|r] eqn:Hfold; simpl; [|done].
  destruct (Z.ltb_spec (Z.of_nat (length (take (Z.to_nat REPLAY_PAGE) rest))) REPLAY_PAGE) as [Hlt|Hge].
  { rewrite drop_ge; [done|]. rewrite length_take in Hlt. unfold REPLAY_PAGE in *. lia. }
  destruct (after_suffix lo l cursor Hi) as [pre Hpre]. fold rest in Hpre.
  destruct (exists_last Hn) as (page & x & Hp). rewrite Hp, last_snoc. simpl.
  assert (l = (pre ++ page) ++ x :: drop (Z.to_nat REPLAY_PAGE) rest) as Hl.
  { rewrite Hpre at 1. rewrite <-(take_drop (Z.to_nat REPLAY_PAGE) rest) at 1. rewrite Hp.
    by rewrite <-!(assoc_L (++)). }
  assert (after (Some (global_sequence x)) l = drop (Z.to_nat REPLAY_PAGE) rest) as Haft.
  { rewrite Hl at 1. eapply (after_last lo). by rewrite <-Hl. }
  rewrite IH, Haft; [done|]. rewrite Haft, length_drop.
  unfold REPLAY_PAGE in *. rewrite length_take in Hge. lia.
Qed.

Lemma replay_is_fold (db : database) target :
  log_inv db -> replay (log db) target = Some (fold_res replay_event (0%Z, target) (log db)).
Proof.
  intros Hinv. unfold replay. rewrite (replay_pages_all _ 0 _ _ _ (li_increasing _ Hinv)).
  - unfold after. by rewrite (filter_all (fun _ => true)).
  - unfold after. rewrite (filter_all (fun _ => true)) by done. lia.
Qed.

(** ** Projections that do not look at attention items *)

Definition attn_map (x : gmap string (AttentionRow instant)) (m : result Refusal P) : result Refusal P :=
  match m with Ok p => Ok (set_attention_items x p) | Err r => Err r end.

(** A table whose statements read and write other tables only. *)
Record attn_free {R} (t : Table P R) : Prop := {
  af_get : forall x p, t_get t (set_attention_items x p) = t_get t p;
  af_set : forall x m p, t_set t m (set_attention_items x p) = set_attention_items x (t_set t m p);
  af_fk : forall x p r, t_fk t (set_attention_items x p) r = t_fk t p r;
}.

Ltac free := split; reflexivity.

Lemma bind_frame {A} x (m : result Refusal A) (f g : A -> result Refusal P) :
  (forall a, f a = attn_map x (g a)) -> (m ≫= f) = attn_map x (m ≫= g).
Proof. intros Hf. destruct m; simpl; [apply Hf|done]. Qed.

Lemma ins_frame {R} (t : Table P R) x id row p :
  attn_free t -> ins t id row (set_attention_items x p) = attn_map x (ins t id row p).
Proof.
  intros [Hg Hs Hf]. unfold ins, sql_insert. cbn zeta. rewrite Hg, Hs, Hf.
  by destruct (t_on_insert _ _ _ _), (t_check _ _), (_ && _), (t_fk _ _ _).
Qed.

Lemma upd_frame {R} (t : Table P R) x id f p :
  attn_free t -> upd t id f (set_attention_items x p) = attn_map x (upd t id f p).
Proof.
  intros [Hg Hs Hf]. unfold upd, sql_update. cbn zeta. rewrite Hg.
  destruct (t_get t p !! id) as [old|]; simpl; [|done]. rewrite Hs, Hf.
  by destruct (t_on_update _ _ _ _ _), (t_check _ _), (t_unique _ _ _ _), (_ || _).
Qed.

Lemma upd_cast_frame {R A} (t : Table P R) x id (cast : result Refusal A) f p :
  attn_free t -> upd_cast t id cast f (set_attention_items x p) = attn_map x (upd_cast t id cast f p).
Proof.
  intros Ht. unfold upd_cast. rewrite (af_get _ Ht). destruct (t_get t p !! id); [|done].
  apply bind_frame. intros a. by apply upd_frame.
Qed.

Lemma upsert_frame x id row (p : P) :
  upsert_checkpoint id row (set_attention_items x p) = attn_map x (upsert_checkpoint id row p).
Proof.
  unfold upsert_checkpoint. simpl. destruct (orch_checkpoints p !! id) as [old|] eqn:E.
  - unfold sql_update. simpl. rewrite E. simpl.
    by destruct (u64_check _), (assert_checkpoint_seq_advances _ _).
  - apply ins_frame. free.
Qed.

(** The one arm group that does. *)
Definition touches_attention (c : KernelCommand V) : bool :=
  match c with
  | RaiseAttention _ _ _ _ _ _ | ResolveAttention _ _ | AckAttention _ | MuteAttention _ _
  | UnmuteAttention _ => true
  | _ => false
  end.

Lemma project_frame (e : event) c x (p : P) :
  touches_attention c = false ->
  project_command e c (set_attention_items x p) = attn_map x (project_command e c p).
Proof.
  intros Hc. destruct c; try discriminate Hc; unfold project_command;
    unfold project_task, project_attempt, project_engine_session, project_lease, project_worktree,
      project_dispatch, project_checkpoint, project_message, project_exec_command,
      project_gate, project_evidence, project_authority, project_workspace,
      project_workflow, project_pty_session, project_pty_template, project_ingest;
    cbn zeta; try reflexivity;
    repeat (apply bind_frame; intros ?);
    lazymatch goal with
    | |- ins _ _ _ _ = _ => apply ins_frame; free
    | |- upd _ _ _ _ = _ => apply upd_frame; free
    | |- upd_cast _ _ _ _ _ = _ => apply upd_cast_frame; free
    | |- upsert_checkpoint _ _ _ = _ => apply upsert_frame
    | |- _ => idtac
    end.
  unfold delete_workspace_node. simpl.
  destruct (workspace_nodes p !! _); [|done]. by destruct (bool_decide _).
Qed.

(** ** Attention arms, on fewer items than the live table has *)

(** The item an attention command names, and whether it must be there. *)
Definition stamped_item (c : KernelCommand V) : option string :=
  match c with
  | ResolveAttention id _ | AckAttention id | MuteAttention id _ | UnmuteAttention id => Some id
  | _ => None
  end.

Lemma no_other_mono {R} (f : R -> bool) (m m' : gmap string R) id :
  m ⊆ m' -> no_other f m' id = true -> no_other f m id = true.
Proof.
  intros Hs Hn. apply no_other_spec. intros id' r Hl Hf.
  eapply no_other_spec; [done| |done]. by eapply lookup_weaken.
Qed.

Lemma attention_unique_mono (x y : gmap string (AttentionRow instant)) id row :
  x ⊆ y -> t_unique (attention_table (V := V)) y id row = true ->
  t_unique (attention_table (V := V)) x id row = true.
Proof.
  intros Hs. simpl. rewrite !orb_true_iff. intros [?|Hn]; [by left|right]. by eapply no_other_mono.
Qed.

Lemma upd_attention_sim id f (p p' : P) x old :
  upd attention_table id f p = Ok p' -> x ⊆ attention_items p -> x !! id = Some old ->
  upd attention_table id f (set_attention_items x p) = Ok (set_attention_items (<[id := f old]> x) p') /\
  <[id := f old]> x ⊆ attention_items p'.
Proof.
  intros Hu Hs Hl. apply upd_ok in Hu as (old' & Ho & _ & _ & Hq & _ & ->). simpl in Ho.
  assert (old' = old) as -> by (eapply lookup_weaken in Hl; [|done]; congruence).
  split; [|by apply insert_mono].
  unfold upd, sql_update. cbn [t_get attention_table attention_items set_attention_items]. rewrite Hl.
  cbn [t_on_update attention_table no_update_trigger ensure mbind result_bind t_check no_check].
  rewrite (attention_unique_mono _ _ _ _ Hs Hq). done.
Qed.

(** Close an arm that stamps the item [Ho] finds. *)
Ltac by_stamp Hu :=
  match goal with Hs : ?x ⊆ _, Ho : ?x !! _ = Some _ |- _ =>
    destruct (upd_attention_sim _ _ _ _ _ _ Hu Hs Ho) as [-> ?] end;
  eexists; split; [done|]; split; [done|]; split; [set_solver|]; split; [|done];
  intros ? [= <-]; rewrite lookup_insert_eq; by eexists.

Lemma attention_sim (e : event) c (p p' : P) x :
  touches_attention c = true -> project_command e c p = Ok p' -> x ⊆ attention_items p ->
  (forall id, stamped_item c = Some id -> is_Some (x !! id)) ->
  exists x', project_command e c (set_attention_items x p) = Ok (set_attention_items x' p') /\
    x' ⊆ attention_items p' /\ dom x ⊆ dom x' /\
    (forall id, stamped_item c = Some id -> is_Some (x' !! id)) /\
    (forall id kind summary subject who prio, c = RaiseAttention id kind summary subject who prio ->
       is_Some (x' !! id)).
Proof.
  intros Hc Hp Hs Hst. destruct c; try discriminate Hc; unfold project_command, project_attention in *.
  - apply bind_ok_iff in Hp as (at' & Ht & Hi). rewrite Ht. simpl mbind.
    apply ins_ok in Hi as (Hn & _ & _ & Hq & _ & ->). simpl in Hn.
    match goal with |- context [ins _ ?i ?r _] => set (row := r) in *; exists (<[i := row]> x) end.
    split.
    { unfold ins, sql_insert.
      cbn [t_get t_set attention_table attention_items set_attention_items t_on_insert no_insert_trigger ensure mbind
           result_bind t_check no_check t_fk no_fk mret result_ret].
      rewrite (attention_unique_mono _ _ _ _ Hs Hq).
      assert (x !! attention_item_id = None) as -> by (by eapply lookup_weaken_None).
      done. }
    split; [by apply insert_mono|]. split; [set_solver|]. split; [done|].
    intros ? ? ? ? ? ? [= <- _ _ _ _ _]. rewrite lookup_insert_eq. by eexists.
  - destruct (Hst _ eq_refl) as [old Ho].
    apply bind_ok_iff in Hp as (at' & Ht & Hi). rewrite Ht. simpl mbind.
    pose proof (lookup_weaken _ _ _ _ Ho Hs) as Ho'. rewrite Ho' in Hi.
    cbn [attention_items set_attention_items]. rewrite Ho. destruct (is_some _); [done|].
    by_stamp Hi.
  - destruct (Hst _ eq_refl) as [old Ho].
    apply bind_ok_iff in Hp as (at' & Ht & Hi). rewrite Ht. simpl mbind.
    by_stamp Hi.
  - destruct (Hst _ eq_refl) as [old Ho].
    apply upd_cast_ok in Hp as (a & Ht & Hi). unfold upd_cast. cbn [t_get attention_table attention_items set_attention_items].
    rewrite Ho, Ht. simpl mbind.
    by_stamp Hi.
  - destruct (Hst _ eq_refl) as [old Ho].
    by_stamp Hp.
Qed.

(** ** Replay rebuilds the derived tables *)

Lemma route_attention (env : CommandEnvelope V) c rt :
  route_of env c = Ok rt ->
  (r_aggregate_type rt = "attention_item" -> touches_attention c = true) /\
  (touches_attention c = true -> r_aggregate_type rt = "attention_item") /\
  (forall id, stamped_item c = Some id -> r_aggregate_id rt = id /\ r_event_type rt <> "attention_raised") /\
  (touches_attention c = true -> stamped_item c = None ->
     r_event_type rt = "attention_raised" /\ exists kind summary subject who prio,
       c = RaiseAttention (r_aggregate_id rt) kind summary subject who prio).
Proof.
  unfold route_of. intros Hr. apply bind_ok_iff in Hr as (rt' & Hr & Hn). inv_ok.
  destruct c; simpl in Hr; unfold route in Hr; inv_ok; simpl in *;
    repeat split; intros; simplify_eq; try done; by eexists _, _, _, _, _.
Qed.

(** Every attention item the log speaks of was raised by the log: no command
    acknowledged, muted or resolved an item a page had raised. *)
Definition raised_first (l : list event) : Prop :=
  forall e, e ∈ l -> aggregate_type e = "attention_item" -> aggregate_version e = 1%Z ->
    event_type e = "attention_raised".

(** The Context projector reads no attention items. *)
Definition context_blind : Prop :=
  forall e p p' x, apply_context_event e p = Ok p' ->
    apply_context_event e (set_attention_items x p) = Ok (set_attention_items x p').

(** What the replay of a log has rebuilt, against the live tables. *)
Definition rebuilt (db : database) : Prop :=
  exists n x, fold_res replay_event (0%Z, empty_proj) (log db) = Ok (n, set_attention_items x (proj db)) /\
    n = Z.of_nat (length (List.filter (fun e => negb (is_genesis_event e)) (log db))) /\
    x ⊆ attention_items (proj db) /\
    forall id, versions (log db) "attention_item" id <> [] -> is_Some (x !! id).

Lemma rebuilt_snoc (db db' : database) row n x x' :
  log db' = log db ++ [row] ->
  fold_res replay_event (0%Z, empty_proj) (log db) = Ok (n, set_attention_items x (proj db)) ->
  n = Z.of_nat (length (List.filter (fun e => negb (is_genesis_event e)) (log db))) ->
  (forall id, versions (log db) "attention_item" id <> [] -> is_Some (x !! id)) ->
  is_genesis_event row = false ->
  apply_event row (set_attention_items x (proj db)) = Ok (set_attention_items x' (proj db')) ->
  x' ⊆ attention_items (proj db') -> dom x ⊆ dom x' ->
  (aggregate_type row = "attention_item" -> is_Some (x' !! aggregate_id row)) ->
  rebuilt db'.
Proof.
  intros Hl Hf Hn Hx Hg Ha Hs Hd Hr. exists (n + 1)%Z, x'. rewrite Hl, fold_res_app, Hf. simpl.
  rewrite Hg, Ha. simpl. split; [done|].
  rewrite List.filter_app, length_app. simpl. rewrite Hg. simpl. split; [lia|]. split; [done|].
  intros id. rewrite versions_snoc.
  destruct (bool_decide_reflect (agg_key row = ("attention_item", id))) as [[= Ht <-]|Hne]; [auto|].
  rewrite app_nil_r. intros Hv. apply Hx in Hv. apply elem_of_dom. apply Hd. by apply elem_of_dom.
Qed.

(** The row of an applied command is not genesis, and the applier runs the
    command it was built from. *)
Lemma applied_not_genesis clk env (db db' : database) c rt v row :
  applied_effect clk env db db' c rt v row -> is_genesis_event row = false.
Proof.
  intros Hae. pose proof (ae_key _ _ _ _ _ _ _ _ Hae) as Hk. unfold agg_key in Hk. injection Hk as Hty _.
  unfold is_genesis_event. rewrite Hty, (ae_row_type _ _ _ _ _ _ _ _ Hae).
  destruct (bool_decide_reflect (r_aggregate_type rt = KERNEL_AGGREGATE)) as [E|]; [|done].
  by destruct (route_kernel _ _ _ (ae_route _ _ _ _ _ _ _ _ Hae) E) as (_ & _ & ->).
Qed.

Lemma applied_projects clk env (db db' : database) c rt v row q :
  applied_effect clk env db db' c rt v row -> apply_event row q = project_command row (stored_command c) q.
Proof.
  intros Hae. pose proof (ae_key _ _ _ _ _ _ _ _ Hae) as Hk. unfold agg_key in Hk. injection Hk as Hty _.
  unfold Project.apply_event. rewrite Hty, (route_not_context _ _ _ (ae_route _ _ _ _ _ _ _ _ Hae)).
  rewrite (ae_row_payload _ _ _ _ _ _ _ _ Hae).
  by rewrite (deserialize_stored _ _ (ae_decode _ _ _ _ _ _ _ _ Hae)).
Qed.

Lemma rebuilt_applied clk env (db db' : database) c rt v row :
  rebuilt db -> raised_first (log db') -> applied_effect clk env db db' c rt v row -> rebuilt db'.
Proof.
  intros (n & x & Hf & Hn & Hs & Hx) Hraised Hae.
  pose proof (ae_log _ _ _ _ _ _ _ _ Hae) as Hl. pose proof (eq_trans (route_of_stored env c) (ae_route _ _ _ _ _ _ _ _ Hae)) as Hrt.
  pose proof (ae_key _ _ _ _ _ _ _ _ Hae) as Hk. unfold agg_key in Hk. injection Hk as Hty Hid.
  destruct (route_attention _ _ _ Hrt) as (R1 & R2 & R3 & R4).
  pose proof (applied_not_genesis _ _ _ _ _ _ _ _ Hae) as Hg.
  pose proof (fun q => applied_projects _ _ _ _ _ _ _ _ q Hae) as Happ.
  pose proof (ae_proj _ _ _ _ _ _ _ _ Hae) as Hp.
  destruct (touches_attention (stored_command c)) eqn:Hc.
  - assert (forall id, stamped_item (stored_command c) = Some id -> is_Some (x !! id)) as Hst.
    { intros id Hsi. destruct (R3 _ Hsi) as [<- Het]. apply Hx. intros Hv0. apply Het.
      rewrite <-(ae_row_type _ _ _ _ _ _ _ _ Hae). apply Hraised.
      - rewrite Hl. apply elem_of_app. right. by apply list_elem_of_singleton.
      - rewrite Hty. auto.
      - rewrite (ae_row_version _ _ _ _ _ _ _ _ Hae), (ae_version _ _ _ _ _ _ _ _ Hae), (R2 eq_refl), Hv0. done. }
    destruct (attention_sim _ _ _ _ _ Hc Hp Hs Hst) as (x' & Hp' & Hs' & Hd & Hst' & Hra).
    eapply (rebuilt_snoc db db' row); [done..|by rewrite Happ|done|done|].
    intros _. rewrite Hid. destruct (stamped_item (stored_command c)) as [id|] eqn:Hsi.
    + destruct (R3 _ eq_refl) as [-> _]. by apply Hst'.
    + destruct (R4 eq_refl eq_refl) as (_ & k & su & sb & wh & pr & Heq). by eapply Hra.
  - pose proof (project_frame row (stored_command c) x (proj db) Hc) as Hfr. rewrite Hp in Hfr. simpl in Hfr.
    eapply (rebuilt_snoc db db' row); [done..|by rewrite Happ| |done|].
    + assert (attention_items (proj db') = attention_items (proj db)) as ->; [|done].
      assert (set_attention_items (attention_items (proj db)) (proj db) = proj db) as Hid' by (by destruct (proj db)).
      pose proof (project_frame row (stored_command c) (attention_items (proj db)) (proj db) Hc) as Hfr2.
      rewrite Hid', Hp in Hfr2. simpl in Hfr2. injection Hfr2 as Hfr2. rewrite Hfr2. done.
    + rewrite Hty. intros E. by apply R1 in E.
Qed.

Lemma reachable_rebuilt (Hframe : context_frame apply_context_event) (Hblind : context_blind) db :
  reachable db -> raised_first (log db) -> rebuilt db.
Proof.
  apply (reachable_invariant _ (fun db => raised_first (log db) -> rebuilt db)).
  - intros t0 _. exists 0%Z, ∅. split; [done|]. split; [done|]. split; [done|]. by intros id [].
  - intros db1 db2 Hreach Hinv IH Hs Hraised.
    assert (forall e, e ∈ log db1 -> e ∈ log db2) as Hsub.
    { destruct (step_extends _ _ _ Hinv Hs) as [_ [->|[row ->]]]; set_solver. }
    specialize (IH ltac:(intros e He; apply Hraised; auto)).
    destruct (step_cases _ _ _ Hinv Hs) as
      [Hstill|[(row & Hrow & Hproj & Hnone & Hkey & Hety & Hprj)
              |[(row & Hrow & Hctx & Hproj & Hep)|(clk & env & c & rt & v & row & Hae)]]].
    + destruct IH as (n & x & Hf & Hn & Hsx & Hx). exists n, x. rewrite (se_log _ _ Hstill).
      destruct (se_proj _ _ Hstill) as [->|(id & r & Hi)]; [done|].
      apply ins_ok in Hi as (Hnone & _ & _ & _ & _ & ->). split; [done|]. split; [done|]. split; [|done].
      simpl. etransitivity; [done|]. by apply insert_subseteq.
    + destruct IH as (n & x & Hf & Hn & Hsx & Hx). exists n, x.
      assert (is_genesis_event row = true) as Hg.
      { unfold is_genesis_event. unfold agg_key in Hkey. injection Hkey as -> _. by rewrite Hety. }
      rewrite (re_log _ _ _ Hrow), fold_res_app, Hf, Hproj. simpl. rewrite Hg. split; [done|].
      rewrite List.filter_app. simpl. rewrite Hg. simpl. rewrite app_nil_r. split; [done|]. split; [done|].
      intros id. rewrite versions_snoc, Hkey. rewrite bool_decide_eq_false_2 by done. rewrite app_nil_r. auto.
    + destruct IH as (n & x & Hf & Hn & Hsx & Hx).
      eapply (rebuilt_snoc db1 db2 row n x x); [apply Hrow|done..| | | |done|].
      * unfold is_genesis_event. rewrite bool_decide_eq_false_2; [done|]. by apply context_not_kernel.
      * unfold Project.apply_event. rewrite Hctx. by apply Hblind.
      * by rewrite (Hframe _ _ _ Hproj).
      * intros E. by rewrite E in Hctx.
    + by eapply rebuilt_applied.
Qed.

(** ** Replay succeeds only then *)

(** An arm that stamps an item found it, and adds none. *)
Lemma stamp_keeps id0 f (p p' : P) :
  upd attention_table id0 f p = Ok p' ->
  (forall id, Some id0 = Some id -> is_Some (attention_items p !! id)) /\
  (forall id, is_Some (attention_items p' !! id) -> is_Some (attention_items p !! id) \/ False).
Proof.
  intros Hi. apply upd_ok in Hi as (old & Ho & _ & _ & _ & _ & ->). simpl in *. split.
  - intros id [= <-]. by eexists.
  - intros id. rewrite lookup_insert_is_Some. intros [<-|[_ ?]]; left; [by eexists|done].
Qed.

(** Close an arm by [stamp_keeps]. *)
Ltac stamps H :=
  apply stamp_keeps in H as [? Hkeep]; split; [done|]; intros id Hid; left; by destruct (Hkeep id Hid).

(** A command applied to any tables adds no attention item but the one it
    raises, and needs the one it stamps. *)
Lemma attention_grows (e : event) c (p p' : P) :
  project_command e c p = Ok p' ->
  (forall id, stamped_item c = Some id -> is_Some (attention_items p !! id)) /\
  (forall id, is_Some (attention_items p' !! id) ->
     is_Some (attention_items p !! id) \/ (touches_attention c = true /\ stamped_item c = None /\
       exists kind summary subject who prio, c = RaiseAttention id kind summary subject who prio)).
Proof.
  intros Hp. destruct (touches_attention c) eqn:Hc.
  - destruct c; try discriminate Hc; unfold project_command, project_attention in Hp; simpl.
    + apply bind_ok_iff in Hp as (at' & _ & Hi). apply ins_ok in Hi as (_ & _ & _ & _ & _ & ->).
      split; [done|]. intros id. simpl. rewrite lookup_insert_is_Some.
      intros [<-|[_ ?]]; [right|by left]. split; [done|]. split; [done|]. by eexists _, _, _, _, _.
    + apply bind_ok_iff in Hp as (at' & _ & Hi).
      destruct (attention_items p !! attention_item_id) as [old|] eqn:Ho; [|done].
      destruct (is_some _); [done|]. stamps Hi.
    + apply bind_ok_iff in Hp as (at' & _ & Hi). stamps Hi.
    + apply upd_cast_ok in Hp as (a & _ & Hi). stamps Hi.
    + stamps Hp.
  - split; [by intros id; destruct c|]. intros id Hid0. left.
    pose proof (project_frame e c (attention_items p) p Hc) as Hfr.
    assert (set_attention_items (attention_items p) p = p) as Hid by (by destruct p).
    rewrite Hid, Hp in Hfr. simpl in Hfr. injection Hfr as Hfr. rewrite Hfr in Hid0. done.
Qed.

(** What a replay that succeeds says of the log. *)
Definition justified (db : database) : Prop :=
  forall n q, fold_res replay_event (0%Z, empty_proj) (log db) = Ok (n, q) ->
    raised_first (log db) /\
    forall id, is_Some (attention_items q !! id) -> versions (log db) "attention_item" id <> [].

Lemma raised_first_snoc (l : list event) row :
  raised_first l ->
  (aggregate_type row = "attention_item" -> aggregate_version row = 1%Z -> event_type row = "attention_raised") ->
  raised_first (l ++ [row]).
Proof.
  intros Hl Hr e He. apply elem_of_app in He as [He|He%list_elem_of_singleton]; [by apply Hl|by subst].
Qed.

Lemma versions_grow (l : list event) row ty id : versions l ty id <> [] -> versions (l ++ [row]) ty id <> [].
Proof. rewrite versions_app. intros Hn E. by apply app_nil in E as [? _]. Qed.

Lemma justified_applied clk env (db db' : database) c rt v row :
  justified db -> applied_effect clk env db db' c rt v row -> justified db'.
Proof.
  intros IH Hae n' q' Hf'. rewrite (ae_log _ _ _ _ _ _ _ _ Hae), fold_res_app in Hf'.
  apply bind_ok_iff in Hf' as ([n q] & Hf & Hrow). destruct (IH _ _ Hf) as [Hrf Hv].
  simpl in Hrow. rewrite (applied_not_genesis _ _ _ _ _ _ _ _ Hae) in Hrow.
  rewrite (applied_projects _ _ _ _ _ _ _ _ _ Hae) in Hrow.
  apply bind_ok_iff in Hrow as ([n2 q2] & Hrow & [= <- <-]).
  apply bind_ok_iff in Hrow as (q3 & Hp & [= <- <-]).
  pose proof (eq_trans (route_of_stored env c) (ae_route _ _ _ _ _ _ _ _ Hae)) as Hrt.
  pose proof (ae_key _ _ _ _ _ _ _ _ Hae) as Hk. unfold agg_key in Hk. injection Hk as Hty Hid.
  destruct (route_attention _ _ _ Hrt) as (R1 & R2 & R3 & R4).
  destruct (attention_grows _ _ _ _ Hp) as [Hst Hgr]. rewrite (ae_log _ _ _ _ _ _ _ _ Hae). split.
  - apply raised_first_snoc; [done|]. rewrite Hty, (ae_row_type _ _ _ _ _ _ _ _ Hae).
    intros E Hv1. destruct (stamped_item (stored_command c)) as [id|] eqn:Hsi.
    + destruct (R3 _ eq_refl) as [Hi _]. exfalso. apply (Hv id (Hst _ eq_refl)).
      rewrite (ae_row_version _ _ _ _ _ _ _ _ Hae), (ae_version _ _ _ _ _ _ _ _ Hae), E, Hi in Hv1.
      destruct (versions (log db) "attention_item" id); [done|]. simpl in Hv1. lia.
    + by destruct (R4 (R1 E) eq_refl).
  - intros id Hi. destruct (Hgr _ Hi) as [Hi'|(Hc & Hsi & k & su & sb & wh & pr & Hc')].
    + apply versions_grow. auto.
    + rewrite versions_app. intros E%app_nil. destruct E as [_ E]. revert E.
      destruct (R4 Hc Hsi) as (_ & ? & ? & ? & ? & ? & Hc''). rewrite Hc' in Hc''. injection Hc'' as -> _ _ _ _ _.
      unfold versions. simpl. rewrite (proj2 (in_aggregate_spec _ _ _)); [done|].
      unfold agg_key. by rewrite Hty, Hid, (R2 Hc).
Qed.

Lemma reachable_justified (Hframe : context_frame apply_context_event) db : reachable db -> justified db.
Proof.
  apply (reachable_invariant _ justified).
  - intros t0 n q [= <- <-]. split; [by intros e He%not_elem_of_nil|]. by intros id [? ?].
  - intros db1 db2 Hreach Hinv IH Hs.
    destruct (step_cases _ _ _ Hinv Hs) as
      [Hstill|[(row & Hrow & Hproj & Hnone & Hkey & Hety & Hprj)
              |[(row & Hrow & Hctx & Hproj & Hep)|(clk & env & c & rt & v & row & Hae)]]].
    + unfold justified. by rewrite (se_log _ _ Hstill).
    + unfold agg_key in Hkey. injection Hkey as Hty _.
      intros n' q' Hf'. rewrite (re_log _ _ _ Hrow), fold_res_app in Hf'.
      apply bind_ok_iff in Hf' as ([n q] & Hf & Hq). destruct (IH _ _ Hf) as [Hrf Hv].
      assert (is_genesis_event row = true) as Hg by (unfold is_genesis_event; by rewrite Hty, Hety).
      simpl in Hq. rewrite Hg in Hq. injection Hq as <- <-. rewrite (re_log _ _ _ Hrow).
      split; [apply raised_first_snoc; [done|by rewrite Hty]|]. intros id Hi. apply versions_grow. auto.
    + intros n' q' Hf'. rewrite (re_log _ _ _ Hrow), fold_res_app in Hf'.
      apply bind_ok_iff in Hf' as ([n q] & Hf & Hq). destruct (IH _ _ Hf) as [Hrf Hv].
      assert (is_genesis_event row = false) as Hg.
      { unfold is_genesis_event. rewrite bool_decide_eq_false_2; [done|]. by apply context_not_kernel. }
      simpl in Hq. rewrite Hg in Hq. unfold Project.apply_event in Hq. rewrite Hctx in Hq.
      apply bind_ok_iff in Hq as ([n2 q2] & Hq & [= <- <-]).
      apply bind_ok_iff in Hq as (q3 & Hq & [= <- <-]). rewrite (Hframe _ _ _ Hq) in *.
      rewrite (re_log _ _ _ Hrow).
      split; [apply raised_first_snoc; [done|intros E; by rewrite E in Hctx]|].
      intros id Hi. apply versions_grow. auto.
    + by eapply justified_applied.
Qed.

(** C3: Replaying the log of a reachable database into empty tables
    succeeds, applies every event but genesis, and rebuilds every derived table
    exactly as the command path left it, provided no command stamped an attention
    item that only a page had raised.  The Context projector is assumed to keep
    to its own tables and not to read attention items. *)
Theorem replay_rebuilds_the_projections (db : database) :
  context_frame apply_context_event -> context_blind -> reachable db -> raised_first (log db) ->
  exists n target, replay (log db) empty_proj = Some (Ok (n, target)) /\
    n = Z.of_nat (length (List.filter (fun e => negb (is_genesis_event e)) (log db))) /\
    derived target = derived (proj db) /\ attention_items target ⊆ attention_items (proj db).
Proof.
  intros Hframe Hblind Hr Hraised.
  destruct (reachable_rebuilt Hframe Hblind _ Hr Hraised) as (n & x & Hf & Hn & Hs & _).
  exists n, (set_attention_items x (proj db)).
  rewrite replay_is_fold, Hf by eauto with gwk. done.
Qed.

(** C36: The paged replay loop ends within one page more than there
    are events and applies every event of a reachable log once, in order. *)
Theorem replay_pages_are_the_log (db : database) target :
  reachable db ->
  replay (log db) target = Some (fold_res replay_event (0%Z, target) (log db)).
Proof. intros Hr. apply replay_is_fold. eauto with gwk. Qed.

(** The log of a reachable database replays into empty tables
    exactly when the first event of every attention item in it is its raise: an
    item a page raised without an event, and a command then acknowledged, muted
    or resolved, makes every replay fail. *)
Theorem replay_needs_the_raises (db : database) :
  context_frame apply_context_event -> context_blind -> reachable db ->
  (exists n target, replay (log db) empty_proj = Some (Ok (n, target))) <-> raised_first (log db).
Proof.
  intros Hframe Hblind Hr. assert (log_inv db) as Hinv by eauto with gwk. split.
  - intros (n & target & Hp). rewrite replay_is_fold in Hp by done. injection Hp as Hp.
    by destruct (reachable_justified Hframe _ Hr _ _ Hp).
  - intros Hraised. destruct (reachable_rebuilt Hframe Hblind _ Hr Hraised) as (n & x & Hf & _).
    exists n, (set_attention_items x (proj db)). by rewrite replay_is_fold, Hf.
Qed.

End Recover.
