(* ===== verification/Workspace.v ===== *)
(** * The workspace tree

    The nodes of the workspace projection form a forest in every reachable
    state: from any node the parent links lead to a root without repeating.  The
    schema's trigger sees one row at a time and cannot promise this; it is the
    ancestor walk of the command path, run before a move is appended, that does.
    The same fact bounds the walk: one step more than there are rows. *)

From S2P Require Import Prelude Text Fsm Envelope Transition Command Tables Db Store Project Authority Submit Writes Kernel System.

Section Forest.
Context {T : Type}.
Notation nodes_t := (gmap string (NodeRow T)).

(** The parent links from a node to its root. *)
Inductive chain (nodes : nodes_t) : string -> list string -> Prop :=
| chain_root id r : nodes !! id = Some r -> node_parent_id r = None -> chain nodes id [id]
| chain_up id r parent path :
    nodes !! id = Some r -> node_parent_id r = Some parent -> chain nodes parent path ->
    chain nodes id (id :: path).

Definition forest (nodes : nodes_t) : Prop :=
  forall id, is_Some (nodes !! id) -> exists path, chain nodes id path.

Lemma chain_det nodes id path path' : chain nodes id path -> chain nodes id path' -> path = path'.
Proof.
  intros Hc. revert path'. induction Hc as [id r Hl Hn|id r parent path Hl Hp Hc IH]; intros path' Hc';
    inversion Hc'; simplify_eq; [done|]. f_equal. by apply IH.
Qed.

Lemma chain_in nodes id path x : chain nodes id path -> x ∈ path -> is_Some (nodes !! x).
Proof.
  induction 1 as [id r Hl Hn|id r parent path Hl Hp Hc IH]; intros [->|Hx]%elem_of_cons; eauto.
  by apply not_elem_of_nil in Hx.
Qed.

(** A node on a chain has a chain of its own, a suffix. *)
Lemma chain_suffix nodes id path x :
  chain nodes id path -> x ∈ path -> exists pre rest, path = pre ++ rest /\ chain nodes x rest.
Proof.
  induction 1 as [id r Hl Hn|id r parent path Hl Hp Hc IH]; intros [->|Hx]%elem_of_cons.
  - exists [], [id]. split; [done|]. by econstructor.
  - by apply not_elem_of_nil in Hx.
  - exists [], (id :: path). split; [done|]. by eapply chain_up.
  - destruct (IH Hx) as (pre & rest & -> & Hr). by exists (id :: pre), rest.
Qed.

Lemma chain_nodup nodes id path : chain nodes id path -> NoDup path.
Proof.
  induction 1 as [id r Hl Hn|id r parent path Hl Hp Hc IH]; [apply NoDup_singleton|].
  apply NoDup_cons. split; [|done]. intros Hin.
  destruct (chain_suffix _ _ _ _ Hc Hin) as (pre & rest & -> & Hr).
  assert (chain nodes id (id :: pre ++ rest)) as Hc' by (by eapply chain_up).
  pose proof (chain_det _ _ _ _ Hr Hc') as Heq. apply (f_equal length) in Heq.
  simpl in Heq. rewrite length_app in Heq. lia.
Qed.

Lemma chain_length nodes id path : chain nodes id path -> length path <= size nodes.
Proof.
  intros Hc. rewrite <-size_dom, <-(size_list_to_set (C := gset string) path) by (by eapply chain_nodup).
  apply subseteq_size. intros x Hx%elem_of_list_to_set. apply elem_of_dom. by eapply chain_in.
Qed.
End Forest.

Section Walk.
Context `{TZ : Timestamptz}.
Notation nodes_t := (gmap string (NodeRow instant)).

Lemma ancestors_chain (nodes : nodes_t) fuel id path :
  chain nodes id path -> length path <= fuel -> ancestors fuel nodes id = path.
Proof.
  intros Hc. revert fuel. induction Hc as [id r Hl Hn|id r parent path Hl Hp Hc IH]; intros [|fuel] Hf;
    simpl in *; try lia; rewrite Hl.
  - by rewrite Hn.
  - rewrite Hp. f_equal. apply IH. lia.
Qed.

(** The walk's fuel is enough. *)
Lemma walk_chain (nodes : nodes_t) id path : chain nodes id path -> ancestor_walk nodes id = path.
Proof. intros Hc. apply ancestors_chain; [done|]. pose proof (chain_length _ _ _ Hc). lia. Qed.

(** *** Forests under the four statements *)

Lemma chain_keep (nodes nodes' : nodes_t) id path :
  (forall x, x ∈ path -> nodes' !! x = nodes !! x) -> chain nodes id path -> chain nodes' id path.
Proof.
  intros Hk Hc. induction Hc as [id r Hl Hn|id r parent path Hl Hp Hc IH].
  - econstructor; [|done]. by rewrite Hk by left.
  - eapply chain_up; [by rewrite Hk by left|done|]. apply IH. intros x Hx. apply Hk. by right.
Qed.

Lemma forest_insert (nodes : nodes_t) id row :
  forest nodes -> nodes !! id = None ->
  (forall parent, node_parent_id row = Some parent -> is_Some (nodes !! parent)) ->
  forest (<[id := row]> nodes).
Proof.
  intros Hf Hn Hp.
  assert (forall x path, chain nodes x path -> chain (<[id := row]> nodes) x path) as Hkeep.
  { intros x path Hc. apply (chain_keep nodes); [|done]. intros y Hy. rewrite lookup_insert_ne; [done|].
    intros ->. apply (chain_in _ _ _ _ Hc) in Hy as [? ?]. congruence. }
  intros x [r Hx]. apply lookup_insert_Some in Hx as [[<- <-]|[Hne Hx]].
  - destruct (node_parent_id row) as [parent|] eqn:Hpar.
    + destruct (Hf _ (Hp _ eq_refl)) as [path Hc]. exists (id :: path).
      eapply chain_up; [apply lookup_insert_eq|done|auto].
    + exists [id]. econstructor; [apply lookup_insert_eq|done].
  - destruct (Hf x) as [path Hc]; [by eexists|]. exists path. auto.
Qed.

Lemma forest_same_parent (nodes : nodes_t) id old row :
  forest nodes -> nodes !! id = Some old -> node_parent_id row = node_parent_id old ->
  forest (<[id := row]> nodes).
Proof.
  intros Hf Ho Hp x [r Hx].
  assert (is_Some (nodes !! x)) as Hx'.
  { apply lookup_insert_Some in Hx as [[<- _]|[_ Hx]]; eauto. }
  destruct (Hf _ Hx') as [path Hc]. exists path. clear Hx Hx'.
  induction Hc as [x r' Hl Hn|x r' parent path Hl Hpar Hc IH].
  - destruct (decide (id = x)) as [->|Hne].
    + eapply chain_root; [apply lookup_insert_eq|congruence].
    + eapply chain_root; [by rewrite lookup_insert_ne|done].
  - destruct (decide (id = x)) as [->|Hne].
    + eapply (chain_up _ _ row parent); [apply lookup_insert_eq|congruence|done].
    + eapply chain_up; [by rewrite lookup_insert_ne|done..].
Qed.

(** A move keeps the forest when the walk from the new parent misses the node. *)
Lemma forest_move (nodes : nodes_t) id row parent :
  forest nodes -> is_Some (nodes !! id) -> is_Some (nodes !! parent) ->
  node_parent_id row = Some parent -> id ∉ ancestor_walk nodes parent ->
  forest (<[id := row]> nodes).
Proof.
  intros Hf Hid Hpar Hp Hwalk. destruct (Hf _ Hpar) as [ppath Hpc].
  rewrite (walk_chain _ _ _ Hpc) in Hwalk.
  assert (chain (<[id := row]> nodes) id (id :: ppath)) as Hnew.
  { eapply chain_up; [apply lookup_insert_eq|done|]. apply (chain_keep nodes); [|done].
    intros x Hx. rewrite lookup_insert_ne; [done|]. by intros ->. }
  intros x [r Hx].
  assert (is_Some (nodes !! x)) as Hx'.
  { apply lookup_insert_Some in Hx as [[<- _]|[_ Hx]]; eauto. }
  destruct (Hf _ Hx') as [path Hc]. clear Hx Hx'.
  induction Hc as [x r' Hl Hn|x r' q path Hl Hq Hc IH];
    (destruct (decide (id = x)) as [->|Hne]; [by eexists|]).
  - exists [x]. eapply chain_root; [by rewrite lookup_insert_ne|done].
  - destruct IH as [path' Hc']. exists (x :: path'). eapply chain_up; [by rewrite lookup_insert_ne|done..].
Qed.

Lemma forest_delete (nodes : nodes_t) id :
  forest nodes -> map_Forall (fun _ r => node_parent_id r <> Some id) (delete id nodes) ->
  forest (delete id nodes).
Proof.
  intros Hf Hno x [r Hx]. apply lookup_delete_Some in Hx as [Hne Hx].
  destruct (Hf x) as [path Hc]; [by eexists|]. exists path. clear Hx.
  induction Hc as [x r' Hl Hn|x r' q path Hl Hq Hc IH].
  - eapply chain_root; [by rewrite lookup_delete_ne|done].
  - assert (delete id nodes !! x = Some r') as Hl' by (by rewrite lookup_delete_ne).
    eapply chain_up; [done..|]. apply IH. intros ->. by apply (Hno _ _ Hl').
Qed.
End Walk.

Section System.
Context `{TZ : Timestamptz} `{TZL : !TimestamptzLaws} {V : Type} `{SD : Serde V} `{SDL : !SerdeLaws V}
  `{HM : Hmac}.
Context (apply_context_event : EventEnvelope V -> Proj instant V -> result Refusal (Proj instant V)).
Notation event := (EventEnvelope V).
Notation P := (Proj instant V).
Notation database := (Db instant V).
Notation reachable := (reachable apply_context_event).

(** What one event does to the node table. *)
Inductive node_write (c : KernelCommand V) (p p' : P) : Prop :=
| nw_same : workspace_nodes p' = workspace_nodes p -> node_write c p p'
| nw_insert id row :
    workspace_nodes p !! id = None -> node_parentage (workspace_nodes p) id row = true ->
    references_opt (<[id := row]> (workspace_nodes p)) (node_parent_id row) = true ->
    workspace_nodes p' = <[id := row]> (workspace_nodes p) -> node_write c p p'
| nw_keep id old row :
    workspace_nodes p !! id = Some old -> node_parent_id row = node_parent_id old ->
    workspace_nodes p' = <[id := row]> (workspace_nodes p) -> node_write c p p'
| nw_move id old row parent v :
    c = MoveWorkspaceNode id parent v -> workspace_nodes p !! id = Some old ->
    node_parent_id row = Some parent ->
    workspace_nodes p' = <[id := row]> (workspace_nodes p) -> node_write c p p'
| nw_delete id :
    map_Forall (fun _ r => node_parent_id r <> Some id) (delete id (workspace_nodes p)) ->
    workspace_nodes p' = delete id (workspace_nodes p) -> node_write c p p'.

Lemma project_nodes (e : event) c (p p' : P) : project_command e c p = Ok p' -> node_write c p p'.
Proof.
  intros Hp. destruct c; unfold project_command in Hp; unfold_arms; inv_arm;
    lazymatch goal with
    | |- node_write (CreateWorkspaceNode _ _ _ _) _ _ => by eapply nw_insert
    | |- node_write (MoveWorkspaceNode _ _ _) _ _ => eapply nw_move; [reflexivity|eassumption| |reflexivity]; reflexivity
    | |- node_write (RebindWorkspacePane _ _ _) _ _ => eapply nw_keep; [eassumption| |reflexivity]; reflexivity
    | |- node_write (CloseWorkspaceNode _ _) _ _ => idtac
    | |- _ => by apply nw_same
    end.
  match goal with H : bool_decide _ = true |- _ => apply bool_decide_eq_true in H end.
  by eapply nw_delete.
Qed.

(** A move that was decided: the parent is there and the node is not above it. *)
Lemma decided_move id parent v rt (p : P) n :
  decide_workspace (MoveWorkspaceNode id parent v) rt p = Ok n ->
  is_Some (workspace_nodes p !! parent) /\ id ∉ ancestor_walk (workspace_nodes p) parent.
Proof.
  unfold decide_workspace. cbn zeta. intros Hr. apply bind_ok_iff in Hr as (k & _ & Hr).
  apply bind_ok_iff in Hr as ([] & _ & Hr). apply bind_ok_iff in Hr as ([] & Hl & Hr).
  apply bind_ok_iff in Hr as ([] & Hw & _). apply ensure_ok_iff, negb_true_iff, bool_decide_eq_false in Hw.
  split; [|done]. unfold assert_legal_parent in Hl. apply bind_ok_iff in Hl as (pk & Hp & _).
  apply ok_or_ok_iff in Hp. destruct (workspace_nodes p !! parent); [by eexists|done].
Qed.

Lemma forest_applied clk env (db db' : database) c rt v row :
  forest (workspace_nodes (proj db)) -> applied_effect clk env db db' c rt v row ->
  forest (workspace_nodes (proj db')).
Proof.
  intros Hf Hae. pose proof (ae_proj _ _ _ _ _ _ _ _ Hae) as Hp.
  destruct (project_nodes _ _ _ _ Hp) as [->|id r Hn Htr Hfk ->|id old r Ho Hpar ->
    |id old r parent v' Hc Ho Hpar ->|id Hno ->]; [done|..].
  - apply forest_insert; [done..|]. intros parent Hpar. rewrite Hpar in Hfk. simpl in Hfk.
    unfold node_parentage, assert_workspace_parentage in Htr. rewrite Hpar in Htr. unbool.
    unfold references in Hfk. rewrite lookup_insert_ne in Hfk by done.
    destruct (workspace_nodes (proj db) !! parent); [by eexists|done].
  - by eapply forest_same_parent.
  - apply stored_other in Hc as ->; [|done]. pose proof (ae_decide _ _ _ _ _ _ _ _ Hae) as Hd. cbn [decide_command] in Hd.
    apply decided_move in Hd as [Hex Hwalk]. eapply forest_move; [done|by eexists|done..].
  - by apply forest_delete.
Qed.

Lemma reachable_forest (Hframe : context_frame apply_context_event) db :
  reachable db -> forest (workspace_nodes (proj db)).
Proof.
  apply (reachable_invariant _ (fun db => forest (workspace_nodes (proj db)))).
  - intros t0 id [? Hl]. simpl in Hl. by rewrite lookup_empty in Hl.
  - intros db1 db2 _ Hinv Hf Hs. destruct (step_cases _ _ _ Hinv Hs) as
      [Hstill|[(row & _ & -> & _)|[(row & _ & _ & Hproj & _)|(clk & env & c & rt & v & row & Hae)]]]; [|done| |].
    + destruct (se_proj _ _ Hstill) as [->|(i & r & Hi)]; [done|].
      by apply ins_ok in Hi as (_ & _ & _ & _ & _ & ->).
    + by rewrite (Hframe _ _ _ Hproj).
    + by eapply forest_applied.
Qed.

(** C10: In every reachable state the parent links of a workspace
    node lead to a root without repeating, and the ancestor walk of the command
    path, with its bound of one step more than there are rows, returns exactly
    that path. *)
Theorem workspace_is_a_forest (db : database) id :
  context_frame apply_context_event -> reachable db -> is_Some (workspace_nodes (proj db) !! id) ->
  exists path, chain (workspace_nodes (proj db)) id path /\ NoDup path /\
    ancestor_walk (workspace_nodes (proj db)) id = path.
Proof.
  intros Hframe Hr Hid. destruct (reachable_forest Hframe _ Hr id Hid) as [path Hc].
  exists path. split; [done|]. split; [by eapply chain_nodup|by apply walk_chain].
Qed.
End System.
