(* ===== verification/Screen.v ===== *)
(** * The styled-cell wire shape (gwk-domain/src/frame.rs)

    A frame carries every distinct style once, in first-appearance order, and
    each row as runs that refer to the table.  [from_cells] interns a grid,
    [cells] expands a frame back.  The theorems: expansion undoes interning on
    every grid the wire can carry, interning undoes expansion on canonical
    frames, so that the canonical frames and the grids are in bijection. *)

From stdpp Require Import countable.
From S2P Require Import Prelude Text.


(** ** Colors and styles *)

Inductive PtyAnsiSlot :=
| Black | Red | Green | Yellow | Blue | Magenta | Cyan | White
| BrightBlack | BrightRed | BrightGreen | BrightYellow
| BrightBlue | BrightMagenta | BrightCyan | BrightWhite.

#[export] Instance PtyAnsiSlot_eq_dec : EqDecision PtyAnsiSlot.
Proof. solve_decision. Defined.

(** [PtyAnsiSlot::ALL]. *)
Definition ALL_SLOTS : list PtyAnsiSlot :=
  [Black; Red; Green; Yellow; Blue; Magenta; Cyan; White;
   BrightBlack; BrightRed; BrightGreen; BrightYellow;
   BrightBlue; BrightMagenta; BrightCyan; BrightWhite].

(** [PtyAnsiSlot::index]: the discriminant. *)
Definition slot_index (s : PtyAnsiSlot) : Z :=
  match s with
  | Black => 0 | Red => 1 | Green => 2 | Yellow => 3
  | Blue => 4 | Magenta => 5 | Cyan => 6 | White => 7
  | BrightBlack => 8 | BrightRed => 9 | BrightGreen => 10 | BrightYellow => 11
  | BrightBlue => 12 | BrightMagenta => 13 | BrightCyan => 14 | BrightWhite => 15
  end.

(** [PtyAnsiSlot::as_str]. *)
Definition slot_str (s : PtyAnsiSlot) : string :=
  match s with
  | Black => "black" | Red => "red" | Green => "green" | Yellow => "yellow"
  | Blue => "blue" | Magenta => "magenta" | Cyan => "cyan" | White => "white"
  | BrightBlack => "bright_black" | BrightRed => "bright_red"
  | BrightGreen => "bright_green" | BrightYellow => "bright_yellow"
  | BrightBlue => "bright_blue" | BrightMagenta => "bright_magenta"
  | BrightCyan => "bright_cyan" | BrightWhite => "bright_white"
  end.

Inductive CellColor :=
| Ansi16 (slot : PtyAnsiSlot)
| Xterm256 (index : Z)
| Truecolor (r g b : Z).

#[export] Instance CellColor_eq_dec : EqDecision CellColor.
Proof. solve_decision. Defined.

Inductive CellUnderline := Single | Double | Curly | Dotted | Dashed.

#[export] Instance CellUnderline_eq_dec : EqDecision CellUnderline.
Proof. solve_decision. Defined.

Record CellStyle := {
  bold : bool;
  dim : bool;
  italic : bool;
  blink : bool;
  inverse : bool;
  invisible : bool;
  strikethrough : bool;
  overline : bool;
  underline : option CellUnderline;
  fg : option CellColor;
  bg : option CellColor;
  underline_color : option CellColor;
}.

#[export] Instance CellStyle_eq_dec : EqDecision CellStyle.
Proof. solve_decision. Defined.

(** [Hash]: styles are the keys of the interner's map. *)
Definition slot_of_index (n : Z) : PtyAnsiSlot := default Black (ALL_SLOTS !! Z.to_nat n).

#[export] Instance PtyAnsiSlot_countable : Countable PtyAnsiSlot.
Proof. refine (inj_countable' slot_index slot_of_index _). by intros []. Defined.

Definition color_code (c : CellColor) : PtyAnsiSlot + (Z + Z * Z * Z) :=
  match c with
  | Ansi16 s => inl s
  | Xterm256 i => inr (inl i)
  | Truecolor r g b => inr (inr (r, g, b))
  end.

Definition color_decode (c : PtyAnsiSlot + (Z + Z * Z * Z)) : CellColor :=
  match c with
  | inl s => Ansi16 s
  | inr (inl i) => Xterm256 i
  | inr (inr (r, g, b)) => Truecolor r g b
  end.

#[export] Instance CellColor_countable : Countable CellColor.
Proof. refine (inj_countable' color_code color_decode _). by intros []. Defined.

Definition underline_code (u : CellUnderline) : nat :=
  match u with Single => 0 | Double => 1 | Curly => 2 | Dotted => 3 | Dashed => 4 end.
Definition underline_decode (n : nat) : CellUnderline :=
  match n with 0 => Single | 1 => Double | 2 => Curly | 3 => Dotted | _ => Dashed end.

#[export] Instance CellUnderline_countable : Countable CellUnderline.
Proof. refine (inj_countable' underline_code underline_decode _). by intros []. Defined.

#[export] Instance CellStyle_countable : Countable CellStyle.
Proof.
  refine (inj_countable'
    (fun s => (bold s, dim s, italic s, blink s, (inverse s, invisible s, strikethrough s, overline s),
               (underline s, fg s, bg s, underline_color s)))
    (fun '(b, d, i, k, (v, n, t, o), (u, f, g, c)) => {|
       bold := b; dim := d; italic := i; blink := k; inverse := v; invisible := n;
       strikethrough := t; overline := o; underline := u; fg := f; bg := g; underline_color := c |}) _).
  by intros [].
Defined.

(** ** Cells, runs and frames *)

Record StyledCell := { glyph : string; style : CellStyle }.

#[export] Instance StyledCell_eq_dec : EqDecision StyledCell.
Proof. solve_decision. Defined.

Inductive PtyRun :=
| Cells (style : Z) (glyphs : list string)
| Fill (style : Z) (glyph : string) (count : Z).

#[export] Instance PtyRun_eq_dec : EqDecision PtyRun.
Proof. solve_decision. Defined.

Definition width (run : PtyRun) : Z :=
  match run with
  | Cells _ glyphs => Z.of_nat (length glyphs)
  | Fill _ _ count => count
  end.

Definition style_index (run : PtyRun) : Z :=
  match run with Cells style _ | Fill style _ _ => style end.

Record PtyCursor := { cur_row : Z; cur_col : Z }.

Record PtyFrame := {
  styles : list CellStyle;
  rows : list (list PtyRun);
  cursor : option PtyCursor;
}.

Record PtyCellUpdate := { up_row : Z; up_col : Z; up_glyph : string; up_style : Z }.

Inductive PtyDelta :=
| CellsChanged (styles : list CellStyle) (updates : list PtyCellUpdate)
| Resized (rows cols : Z).

(** ** Interning *)

Record StyleInterner := {
  si_styles : list CellStyle;
  si_index : gmap CellStyle Z;
}.

Definition empty_interner : StyleInterner := {| si_styles := []; si_index := ∅ |}.

(** [as u32]. *)
Definition as_u32 (n : Z) : Z := (n mod (u32_max + 1))%Z.

(** [StyleInterner::intern]. *)
Definition intern (style0 : CellStyle) (it : StyleInterner) : Z * StyleInterner :=
  match si_index it !! style0 with
  | Some index => (index, it)
  | None =>
      let index := as_u32 (Z.of_nat (length (si_styles it))) in
      (index, {| si_styles := si_styles it ++ [style0];
                 si_index := <[style0 := index]> (si_index it) |})
  end.

(** The inner loop of [from_cells]: the cells from [start] on that share a
    style, and those after them. *)
Fixpoint span (style0 : CellStyle) (row : list StyledCell) : list StyledCell * list StyledCell :=
  match row with
  | cell :: row' =>
      if bool_decide (style cell = style0)
      then let '(run, rest) := span style0 row' in (cell :: run, rest)
      else ([], row)
  | [] => ([], [])
  end.

(** The run a maximal slice becomes: one glyph repeated, or one per cell. *)
Definition run_of (index : Z) (first : StyledCell) (run : list StyledCell) : PtyRun :=
  if forallb (fun cell => bool_decide (glyph cell = glyph first)) run
  then Fill index (glyph first) (as_u32 (Z.of_nat (length run)))
  else Cells index (glyph <$> run).

(** One row.  Each turn of the loop consumes a cell at least, so that the row's
    length is fuel enough. *)
Fixpoint row_runs (fuel : nat) (row : list StyledCell) (it : StyleInterner)
  : list PtyRun * StyleInterner :=
  match fuel, row with
  | S fuel, first :: row' =>
      let '(same, rest) := span (style first) row' in
      let '(index, it) := intern (style first) it in
      let '(runs, it) := row_runs fuel rest it in
      (run_of index first (first :: same) :: runs, it)
  | _, _ => ([], it)
  end.

Fixpoint grid_runs (grid : list (list StyledCell)) (it : StyleInterner)
  : list (list PtyRun) * StyleInterner :=
  match grid with
  | [] => ([], it)
  | row :: grid =>
      let '(runs, it) := row_runs (length row) row it in
      let '(rest, it) := grid_runs grid it in
      (runs :: rest, it)
  end.

(** [PtyFrame::from_cells]. *)
Definition from_cells (grid : list (list StyledCell)) (cursor0 : option PtyCursor) : PtyFrame :=
  let '(runs, it) := grid_runs grid empty_interner in
  {| styles := si_styles it; rows := runs; cursor := cursor0 |}.

(** ** Expanding *)

(** The arithmetic pass over one row: every style index in range, the sum of
    the widths. *)
Fixpoint row_total (table : Z) (row : list PtyRun) (total : Z) : option Z :=
  match row with
  | [] => Some total
  | run :: row =>
      if (table <=? style_index run)%Z then None else row_total table row (total + width run)
  end.

(** One run's cells under the style its index names. *)
Definition run_cells (style0 : CellStyle) (run : PtyRun) : list StyledCell :=
  match run with
  | Cells _ glyphs => (fun g => {| glyph := g; style := style0 |}) <$> glyphs
  | Fill _ g count => replicate (Z.to_nat count) {| glyph := g; style := style0 |}
  end.

Fixpoint expand_row (table : list CellStyle) (row : list PtyRun) : option (list StyledCell) :=
  match row with
  | [] => Some []
  | run :: row =>
      style0 ← table !! Z.to_nat (style_index run);
      rest ← expand_row table row;
      Some (run_cells style0 run ++ rest)
  end.

(** The loop over the rows; [width0] is the width the first one set. *)
Fixpoint expand_rows (table : list CellStyle) (rows0 : list (list PtyRun)) (width0 : option Z)
  : option (list (list StyledCell) * option Z) :=
  match rows0 with
  | [] => Some ([], width0)
  | row :: rows0 =>
      total ← row_total (Z.of_nat (length table)) row 0;
      guard (total <= u16_max)%Z;;
      guard (default total width0 = total);;
      expanded ← expand_row table row;
      '(rest, width0) ← expand_rows table rows0 (Some (default total width0));
      Some (expanded :: rest, width0)
  end.

Definition cursor_inside (rows0 cols0 : Z) (c : option PtyCursor) : bool :=
  match c with
  | Some c => (cur_row c <? rows0)%Z && (cur_col c <? cols0)%Z
  | None => true
  end.

(** [PtyFrame::cells]. *)
Definition cells (frame : PtyFrame) : option (list (list StyledCell)) :=
  guard (Z.of_nat (length (rows frame)) <= u16_max)%Z;;
  '(grid, width0) ← expand_rows (styles frame) (rows frame) None;
  guard (cursor_inside (Z.of_nat (length (rows frame))) (default 0%Z width0) (cursor frame) = true);;
  Some grid.

(** ** Reference definitions *)

(** The distinct elements of a list in the order of their first appearance. *)
Definition add_style (seen : list CellStyle) (s : CellStyle) : list CellStyle :=
  if bool_decide (s ∈ seen) then seen else seen ++ [s].
Definition first_appearances (seen l : list CellStyle) : list CellStyle := foldl add_style seen l.

(** A grid the wire can carry: a rectangle within u16, the cursor inside. *)
Definition grid_cols (grid : list (list StyledCell)) : Z :=
  match grid with [] => 0 | row :: _ => Z.of_nat (length row) end.
Record shaped (grid : list (list StyledCell)) (c : option PtyCursor) : Prop := {
  sh_rows : (Z.of_nat (length grid) <= u16_max)%Z;
  sh_rect : Forall (fun row => Z.of_nat (length row) = grid_cols grid) grid;
  sh_cols : (grid_cols grid <= u16_max)%Z;
  sh_cursor : cursor_inside (Z.of_nat (length grid)) (grid_cols grid) c = true;
}.

(** The form [from_cells] documents: a fill carries a cell at least, glyphs are
    spelled out only when they differ, and neighbours differ in style. *)
Definition canonical_run (run : PtyRun) : bool :=
  match run with
  | Fill _ _ count => (1 <=? count)%Z
  | Cells _ [] => false
  | Cells _ (g :: glyphs) => negb (forallb (fun g' => bool_decide (g' = g)) glyphs)
  end.

Fixpoint canonical_row (row : list PtyRun) : bool :=
  match row with
  | run :: (next :: _) as row' =>
      canonical_run run && negb (style_index run =? style_index next)%Z && canonical_row row'
  | [run] => canonical_run run
  | [] => true
  end.

(** The table is used in order: a run names a style used before, or the next. *)
Fixpoint in_order (used : Z) (runs : list PtyRun) : option Z :=
  match runs with
  | [] => Some used
  | run :: runs =>
      if (0 <=? style_index run)%Z && (style_index run <? used)%Z then in_order used runs
      else if (style_index run =? used)%Z then in_order (used + 1) runs else None
  end.

Record canonical (frame : PtyFrame) : Prop := {
  ca_distinct : NoDup (styles frame);
  ca_order : in_order 0 (concat (rows frame)) = Some (Z.of_nat (length (styles frame)));
  ca_rows : Forall (fun row => canonical_row row = true) (rows frame);
}.

(** ** Interning keeps the table *)

Record interner_ok (it : StyleInterner) : Prop := {
  io_distinct : NoDup (si_styles it);
  io_index : forall s i, si_index it !! s = Some i <-> (0 <= i)%Z /\ si_styles it !! Z.to_nat i = Some s;
}.

Lemma empty_interner_ok : interner_ok empty_interner.
Proof. split; [constructor|]. intros s i. simpl. rewrite lookup_empty. split; [done|]. by intros [_ ?]. Qed.

Lemma as_u32_small n : (0 <= n <= u32_max)%Z -> as_u32 n = n.
Proof. intros Hn. unfold as_u32. apply Z.mod_small. lia. Qed.

Lemma intern_spec s it i it' :
  interner_ok it -> (Z.of_nat (length (si_styles it)) <= u32_max)%Z -> intern s it = (i, it') ->
  interner_ok it' /\ si_styles it' = add_style (si_styles it) s /\
  (0 <= i)%Z /\ si_styles it' !! Z.to_nat i = Some s.
Proof.
  intros [Hd Hi] Hlen. unfold intern, add_style. destruct (si_index it !! s) as [j|] eqn:E.
  - intros [= -> ->]. apply Hi in E as [H0 E].
    rewrite bool_decide_eq_true_2 by (by eapply list_elem_of_lookup_2). done.
  - assert (s ∉ si_styles it) as Hs.
    { intros (k & Hk)%list_elem_of_lookup. assert (si_index it !! s = Some (Z.of_nat k)) by
        (apply Hi; rewrite Nat2Z.id; split; [lia|done]). congruence. }
    rewrite bool_decide_eq_false_2 by done. intros [= <- <-]. rewrite as_u32_small by lia. simpl.
    split; [|split; [done|]; split; [lia|by rewrite Nat2Z.id, list_lookup_middle]].
    split; simpl.
    + apply NoDup_app. split; [done|]. split; [|apply NoDup_singleton]. intros x Hx ->%list_elem_of_singleton. done.
    + intros s' i'. rewrite lookup_insert_Some, Hi, lookup_app_Some. split.
      * intros [[-> <-]|[Hne [H0 Hl]]]; [|by split; [|left]]. split; [lia|]. right.
        rewrite Nat2Z.id, Nat.sub_diag. done.
      * intros [H0 [Hl|[Hge Hl]]].
        -- right. split; [|done]. intros ->. by apply Hs, list_elem_of_lookup; eexists.
        -- left. apply list_lookup_singleton_Some in Hl as [Hz ->]. split; [done|]. lia.
Qed.

Lemma add_style_prefix seen s : seen `prefix_of` add_style seen s.
Proof. unfold add_style. destruct (bool_decide _); [done|]. by eexists. Qed.

Lemma add_style_length seen s : length (add_style seen s) <= S (length seen).
Proof. unfold add_style. destruct (bool_decide _); [lia|]. rewrite length_app. simpl. lia. Qed.

Lemma add_style_in seen s : s ∈ add_style seen s.
Proof. unfold add_style. destruct (bool_decide_reflect (s ∈ seen)); [done|]. set_solver. Qed.

Lemma first_appearances_prefix l seen : seen `prefix_of` first_appearances seen l.
Proof.
  revert seen. induction l as [|s l IH]; intros seen; [done|]. simpl.
  etrans; [apply add_style_prefix|apply IH].
Qed.

Lemma first_appearances_length l seen : length (first_appearances seen l) <= length seen + length l.
Proof.
  revert seen. induction l as [|s l IH]; intros seen; simpl; [lia|].
  specialize (IH (add_style seen s)). pose proof (add_style_length seen s). unfold first_appearances in *. lia.
Qed.

Lemma first_appearances_app seen l k :
  first_appearances seen (l ++ k) = first_appearances (first_appearances seen l) k.
Proof. apply foldl_app. Qed.

(** A run adds the one style it has. *)
Lemma first_appearances_same seen s l :
  s ∈ seen -> Forall (fun s' => s' = s) l -> first_appearances seen l = seen.
Proof.
  intros Hs. induction 1 as [|? l -> _ IH]; [done|]. simpl. unfold add_style.
  by rewrite bool_decide_eq_true_2.
Qed.

(** ** The runs of a row *)

Lemma span_spec s row run rest :
  span s row = (run, rest) ->
  row = run ++ rest /\ Forall (fun c => style c = s) run /\
  match rest with [] => True | c :: _ => style c <> s end.
Proof.
  revert run rest. induction row as [|c row IH]; intros run rest; simpl; [by intros [= <- <-]|].
  destruct (bool_decide_reflect (style c = s)) as [Hc|Hc]; [|by intros [= <- <-]].
  destruct (span s row) as [run' rest'] eqn:E. intros [= <- <-].
  destruct (IH _ _ eq_refl) as (-> & HF & Hr). by repeat constructor.
Qed.

Lemma run_of_cells i first (run : list StyledCell) :
  (Z.of_nat (length run) <= u32_max)%Z ->
  Forall (fun c => style c = style first) run ->
  run_cells (style first) (run_of i first run) = run /\
  width (run_of i first run) = Z.of_nat (length run) /\ style_index (run_of i first run) = i.
Proof.
  intros Hlen HF. unfold run_of. destruct (forallb _ run) eqn:E; simpl.
  - rewrite as_u32_small by lia. split; [|done]. rewrite Nat2Z.id.
    rewrite forallb_forall in E. rewrite Forall_forall in HF.
    apply replicate_as_elem_of. split; [done|]. intros [g' s'] Hc.
    specialize (HF _ Hc). apply list_elem_of_In, E, bool_decide_eq_true in Hc. simpl in *. by subst.
  - rewrite length_fmap. split; [|done]. induction HF as [|[g' s'] run Hc HF IH]; [done|].
    simpl in *. subst. rewrite <-list_fmap_compose. f_equal.
    clear -HF. induction HF as [|[g'' s''] run Hc HF IH]; [done|]. simpl in *. subst. by f_equal.
Qed.

Lemma run_of_canonical i first run :
  (Z.of_nat (length (first :: run)) <= u32_max)%Z -> canonical_run (run_of i first (first :: run)) = true.
Proof.
  intros Hlen. unfold run_of. destruct (forallb _ (first :: run)) eqn:E; simpl.
  - rewrite as_u32_small by (cbn [length] in *; lia). apply Z.leb_le. cbn [length]. lia.
  - simpl in E. rewrite bool_decide_eq_true_2 in E by done. simpl in E. rewrite negb_true_iff, <-E.
    clear. induction run as [|c run IH]; [done|]. simpl. by rewrite IH.
Qed.

(** What interning one row leaves. *)
Record interned (row : list StyledCell) (it : StyleInterner) (runs : list PtyRun) (it' : StyleInterner)
  : Prop := {
  in_ok : interner_ok it';
  in_styles : si_styles it' = first_appearances (si_styles it) (style <$> row);
  in_expands table : si_styles it' `prefix_of` table -> expand_row table runs = Some row;
  in_total table : (Z.of_nat (length (si_styles it')) <= table)%Z ->
    forall t, row_total table runs t = Some (t + Z.of_nat (length row))%Z;
  in_canonical : canonical_row runs = true;
  in_sorted : in_order (Z.of_nat (length (si_styles it))) runs = Some (Z.of_nat (length (si_styles it')));
}.

Lemma row_total_shift table runs t k :
  row_total table runs t = Some k -> forall t', row_total table runs t' = Some (k - t + t')%Z.
Proof.
  revert t. induction runs as [|r runs IH]; intros t; simpl.
  - intros [= ->] t'. f_equal. lia.
  - destruct (_ <=? _)%Z; [done|]. intros Hk t'. rewrite (IH _ Hk). f_equal. lia.
Qed.

(** The index of a style is one used before, or the next. *)
Lemma interned_order s it i it' runs :
  interner_ok it -> (Z.of_nat (length (si_styles it)) <= u32_max)%Z -> intern s it = (i, it') ->
  forall r, style_index r = i ->
  in_order (Z.of_nat (length (si_styles it))) (r :: runs) =
  in_order (Z.of_nat (length (si_styles it'))) runs.
Proof.
  intros [Hd Hi] Hlen Hint r <-. unfold intern in Hint. simpl.
  destruct (si_index it !! s) as [j|] eqn:E.
  - injection Hint as Hj <-. rewrite <-Hj in *. apply Hi in E as [H0 E%lookup_lt_Some].
    rewrite (proj2 (Z.leb_le _ _)), (proj2 (Z.ltb_lt _ _)) by lia. done.
  - injection Hint as Hj <-. rewrite as_u32_small in Hj by lia. rewrite <-Hj. simpl.
    rewrite (proj2 (Z.ltb_ge _ _)), andb_false_r, Z.eqb_refl by lia.
    rewrite length_app. simpl. f_equal. lia.
Qed.

Lemma canonical_row_cons2 run next runs :
  canonical_row (run :: next :: runs) =
  canonical_run run && negb (style_index run =? style_index next)%Z && canonical_row (next :: runs).
Proof. done. Qed.

Lemma canonical_row_head run runs : canonical_row (run :: runs) = true -> canonical_run run = true.
Proof. destruct runs; simpl; [done|]. by intros [[? _]%andb_true_iff _]%andb_true_iff. Qed.

(** A canonical run shows its style. *)
Lemma run_cells_head s run :
  canonical_run run = true -> exists c l, run_cells s run = c :: l /\ Forall (fun c => style c = s) (c :: l).
Proof.
  destruct run as [i [|g gs]|i g n]; simpl; intros Hr; [done|..].
  - eexists _, _. split; [done|]. constructor; [done|]. apply Forall_fmap, Forall_true. done.
  - apply Z.leb_le in Hr. destruct (Z.to_nat n) as [|k] eqn:E; [lia|].
    eexists _, _. split; [done|]. constructor; [done|]. by apply Forall_replicate.
Qed.

Lemma expand_head table run runs row :
  canonical_run run = true -> expand_row table (run :: runs) = Some row ->
  exists c row', row = c :: row' /\ table !! Z.to_nat (style_index run) = Some (style c).
Proof.
  intros Hr. simpl. destruct (table !! _) as [s|]; [|done]. simpl.
  destruct (expand_row table runs) as [rest|]; [|done]. simpl. intros [= <-].
  destruct (run_cells_head s run Hr) as (c & l & -> & HF). inversion HF; subst. by eexists _, _.
Qed.

Lemma row_runs_spec fuel row it runs it' :
  length row <= fuel -> interner_ok it ->
  (Z.of_nat (length (si_styles it)) + Z.of_nat (length row) <= u32_max)%Z ->
  row_runs fuel row it = (runs, it') -> interned row it runs it'.
Proof.
  revert row it runs it'. induction fuel as [|fuel IH]; intros [|first row] it runs it' Hf Hok Hlen.
  1, 3: cbn [row_runs]; intros [= <- <-]; split; try done; intros; simpl; f_equal; lia.
  { simpl in Hf. lia. }
  cbn [row_runs]. destruct (span (style first) row) as [same rest] eqn:Es.
  destruct (intern (style first) it) as [i it1] eqn:Ei.
  destruct (row_runs fuel rest it1) as [runs' it2] eqn:Er. intros [= <- <-].
  destruct (span_spec _ _ _ _ Es) as (-> & Hsame & Hrest). cbn [length] in *.
  rewrite length_app in Hf, Hlen.
  destruct (intern_spec _ _ _ _ Hok ltac:(lia) Ei) as (Hok1 & Hst1 & H0 & Hi).
  pose proof (add_style_length (si_styles it) (style first)) as Hl1. rewrite <-Hst1 in Hl1.
  destruct (IH rest it1 runs' it2) as [Hok2 Hst2 Hex Htot Hcan Hord]; [lia|done|lia|done|].
  assert (Forall (fun c => style c = style first) (first :: same)) as Hrun by (by constructor).
  destruct (run_of_cells i first (first :: same)) as (Hcells & Hw & Hsi); [cbn [length]; lia|done|].
  assert (canonical_run (run_of i first (first :: same)) = true) as Hcr
    by (apply run_of_canonical; cbn [length]; lia).
  assert (si_styles it1 `prefix_of` si_styles it2) as Hpre by (rewrite Hst2; apply first_appearances_prefix).
  split.
  - done.
  - rewrite Hst2, Hst1, fmap_cons, fmap_app. cbn [first_appearances foldl].
    change (first_appearances (add_style (si_styles it) (style first)) (style <$> rest) =
      first_appearances (add_style (si_styles it) (style first)) ((style <$> same) ++ (style <$> rest))).
    rewrite first_appearances_app, (first_appearances_same _ (style first) (style <$> same)); [done|apply add_style_in|].
    by apply Forall_fmap.
  - intros table Htab. cbn [expand_row]. rewrite Hsi.
    rewrite (prefix_lookup_Some (si_styles it1) table _ _ Hi) by (by etrans). cbn.
    by rewrite (Hex _ Htab), Hcells.
  - intros table Htab t. cbn [row_total]. rewrite Hsi, Hw.
    apply lookup_lt_Some in Hi. apply prefix_length in Hpre.
    rewrite (proj2 (Z.leb_gt _ _)) by lia. rewrite Htot by done. f_equal. cbn [length].
    rewrite length_app. lia.
  - destruct runs' as [|next runs']; [done|]. rewrite canonical_row_cons2, Hcr, Hcan, andb_true_r. cbn [andb].
    rewrite negb_true_iff, Hsi. apply Z.eqb_neq. intros Hii.
    destruct (expand_head _ _ _ _ (canonical_row_head _ _ Hcan) (Hex _ ltac:(done))) as (c & row' & -> & Hc).
    rewrite <-Hii, (prefix_lookup_Some _ _ _ _ Hi Hpre) in Hc. injection Hc as Hc. by apply Hrest.
  - by rewrite (interned_order _ _ _ _ _ Hok ltac:(lia) Ei _ Hsi).
Qed.

(** ** The runs of a grid *)

Lemma in_order_app n l k : in_order n (l ++ k) = (m ← in_order n l; in_order m k).
Proof.
  revert n. induction l as [|r l IH]; intros n; [done|]. simpl.
  destruct (_ && _); [apply IH|]. destruct (_ =? _)%Z; [apply IH|done].
Qed.

Record grid_interned (grid : list (list StyledCell)) (it : StyleInterner) (runs : list (list PtyRun))
    (it' : StyleInterner) : Prop := {
  gi_ok : interner_ok it';
  gi_styles : si_styles it' = first_appearances (si_styles it) (style <$> concat grid);
  gi_rows table : si_styles it' `prefix_of` table ->
    Forall2 (fun row runs => expand_row table runs = Some row /\
               row_total (Z.of_nat (length table)) runs 0 = Some (Z.of_nat (length row))) grid runs;
  gi_canonical : Forall (fun row => canonical_row row = true) runs;
  gi_sorted : in_order (Z.of_nat (length (si_styles it))) (concat runs) =
              Some (Z.of_nat (length (si_styles it')));
}.

Lemma grid_runs_spec grid it runs it' :
  interner_ok it ->
  (Z.of_nat (length (si_styles it)) + Z.of_nat (length (concat grid)) <= u32_max)%Z ->
  grid_runs grid it = (runs, it') -> grid_interned grid it runs it'.
Proof.
  revert it runs it'. induction grid as [|row grid IH]; intros it runs it' Hok Hlen.
  { intros [= <- <-]. by split. }
  cbn [grid_runs]. destruct (row_runs (length row) row it) as [runs1 it1] eqn:E1.
  destruct (grid_runs grid it1) as [runs2 it2] eqn:E2. intros [= <- <-].
  cbn [concat] in Hlen. rewrite length_app in Hlen.
  apply row_runs_spec in E1 as [Hok1 Hst1 Hex1 Htot1 Hcan1 Hord1]; [|done|done|lia].
  pose proof (first_appearances_length (style <$> row) (si_styles it)) as Hl1.
  rewrite <-Hst1, length_fmap in Hl1.
  apply IH in E2 as [Hok2 Hst2 Hex2 Hcan2 Hord2]; [|done|lia].
  assert (si_styles it1 `prefix_of` si_styles it2) as Hpre by (rewrite Hst2; apply first_appearances_prefix).
  split.
  - done.
  - by rewrite Hst2, Hst1, concat_cons, fmap_app, first_appearances_app.
  - intros table Htab. constructor; [|by apply Hex2].
    assert (si_styles it1 `prefix_of` table) as Hpre' by (etrans; [exact Hpre|exact Htab]).
    split; [by apply Hex1|]. apply (Htot1 (Z.of_nat (length table))).
    apply prefix_length in Hpre'. lia.
  - by constructor.
  - cbn [concat]. by rewrite in_order_app, Hord1.
Qed.

Lemma expand_rows_spec table grid runs c width0 :
  Forall2 (fun row runs => expand_row table runs = Some row /\
             row_total (Z.of_nat (length table)) runs 0 = Some (Z.of_nat (length row))) grid runs ->
  Forall (fun row => Z.of_nat (length row) = c) grid -> (c <= u16_max)%Z -> default c width0 = c ->
  expand_rows table runs width0 = Some (grid, match grid with [] => width0 | _ => Some c end).
Proof.
  intros HF. revert width0. induction HF as [|row rs grid runs [Hex Htot] HF IH]; intros width0 Hc Hmax Hw; [done|].
  inversion Hc as [|? ? Hrow Hrest]; subst. cbn [expand_rows]. rewrite Htot. cbn.
  rewrite option_guard_True by done. rewrite option_guard_True by done. cbn. rewrite Hex. cbn.
  rewrite Hw, IH by done. cbn. by destruct grid.
Qed.

Lemma area_bound (grid : list (list StyledCell)) c :
  Forall (fun row => Z.of_nat (length row) = c) grid ->
  Z.of_nat (length (concat grid)) = (Z.of_nat (length grid) * c)%Z.
Proof. induction 1 as [|row grid Hr _ IH]; [done|]. cbn [concat length]. rewrite length_app. lia. Qed.

(** A rectangle within u16 has fewer cells than an index can count. *)
Lemma shaped_area grid c : shaped grid c -> (Z.of_nat (length (concat grid)) <= u32_max)%Z.
Proof.
  intros [Hr Hrect Hc _]. rewrite (area_bound _ _ Hrect).
  assert (0 <= grid_cols grid)%Z by (destruct grid; simpl; lia). unfold u16_max, u32_max in *. nia.
Qed.

Lemma cells_from_cells (grid : list (list StyledCell)) (c : option PtyCursor) :
  shaped grid c -> cells (from_cells grid c) = Some grid.
Proof.
  intros Hs. pose proof (shaped_area _ _ Hs) as Harea. destruct Hs as [Hr Hrect Hc Hcur].
  unfold from_cells. destruct (grid_runs grid empty_interner) as [runs it] eqn:E.
  apply grid_runs_spec in E as [_ _ Hex _ _]; [|apply empty_interner_ok|simpl; lia].
  specialize (Hex (si_styles it) ltac:(done)). pose proof (Forall2_length _ _ _ Hex) as Hlen.
  unfold cells. cbn [rows styles cursor]. rewrite <-Hlen, option_guard_True by done. cbn.
  rewrite (expand_rows_spec _ _ _ (grid_cols grid) None Hex Hrect Hc eq_refl). cbn.
  replace (default 0%Z match grid with [] => None | _ :: _ => Some (grid_cols grid) end)
    with (grid_cols grid) by (by destruct grid).
  by rewrite option_guard_True.
Qed.

(** ** Canonical frames are interned grids *)

(** The table a frame has used after its first [n] styles. *)
Definition used_table (table : list CellStyle) (n : Z) (it : StyleInterner) : Prop :=
  interner_ok it /\ si_styles it = take (Z.to_nat n) table /\ (0 <= n <= Z.of_nat (length table))%Z.

Lemma intern_used table n it s i :
  NoDup table -> (Z.of_nat (length table) <= u32_max)%Z -> used_table table n it ->
  (0 <= i <= n)%Z -> table !! Z.to_nat i = Some s ->
  exists it', intern s it = (i, it') /\ used_table table (if (i =? n)%Z then n + 1 else n)%Z it'.
Proof.
  intros Hd Hlen (Hok & Hst & Hn) Hi Hs. pose proof (lookup_lt_Some _ _ _ Hs) as Hlt.
  destruct (intern s it) as [j it'] eqn:E.
  assert (length (si_styles it) = Z.to_nat n) as Hl by (rewrite Hst, length_take; lia).
  destruct (intern_spec _ _ _ _ Hok ltac:(lia) E) as (Hok' & Hst' & H0 & Hj).
  assert (si_styles it' = take (Z.to_nat (if (i =? n)%Z then n + 1 else n)) table) as Htake.
  { rewrite Hst', Hst. unfold add_style. destruct (Z.eqb_spec i n) as [->|Hne].
    - rewrite bool_decide_eq_false_2.
      + rewrite Z2Nat.inj_add, Nat.add_1_r by lia. by rewrite (take_S_r _ _ _ Hs).
      + intros (k & Hk)%list_elem_of_lookup. apply lookup_take_Some in Hk as [Hk Hkn].
        pose proof (NoDup_lookup _ _ _ _ Hd Hk Hs). lia.
    - rewrite bool_decide_eq_true_2; [done|]. apply list_elem_of_lookup. exists (Z.to_nat i).
      apply lookup_take_Some. split; [done|lia]. }
  exists it'. split.
  - f_equal. rewrite Htake in Hj. apply lookup_take_Some in Hj as [Hj _].
    pose proof (NoDup_lookup _ _ _ _ Hd Hj Hs). lia.
  - split; [done|]. split; [done|]. destruct (Z.eqb_spec i n); lia.
Qed.

(** A canonical slice is the run it came from. *)
Lemma run_of_run_cells s run c l :
  canonical_run run = true -> run_cells s run = c :: l -> (width run <= u32_max)%Z ->
  run_of (style_index run) c (c :: l) = run.
Proof.
  destruct run as [i [|g gs]|i g n]; simpl; intros Hr; [done|..].
  - intros [= <- <-] _. unfold run_of. simpl.
    replace (forallb _ _) with (forallb (fun g' => bool_decide (g' = g)) gs).
    + apply negb_true_iff in Hr. rewrite Hr, bool_decide_eq_true_2 by done. simpl.
      f_equal. f_equal. rewrite <-list_fmap_compose. apply list_fmap_id.
    + clear. induction gs as [|g' gs IH]; [done|]. simpl. by rewrite IH.
  - apply Z.leb_le in Hr. destruct (Z.to_nat n) as [|k] eqn:E; [lia|]. intros [= <- <-] Hw.
    unfold run_of. rewrite (proj2 (forallb_forall _ _)).
    + simpl. rewrite length_replicate, as_u32_small by lia. f_equal. lia.
    + intros x Hx%list_elem_of_In. rewrite <-replicate_S in Hx.
      apply elem_of_replicate in Hx as [-> _]. by apply bool_decide_eq_true.
Qed.

Lemma span_app s l rest :
  Forall (fun c => style c = s) l -> match rest with [] => True | c :: _ => style c <> s end ->
  span s (l ++ rest) = (l, rest).
Proof.
  intros HF Hr. induction HF as [|c l Hc HF IH]; simpl.
  - destruct rest as [|c rest]; [done|]. simpl. by rewrite bool_decide_eq_false_2.
  - by rewrite bool_decide_eq_true_2, IH.
Qed.

Lemma in_order_nonneg n m runs :
  (0 <= n)%Z -> in_order n runs = Some m -> Forall (fun r => 0 <= style_index r)%Z runs.
Proof.
  revert n. induction runs as [|r runs IH]; intros n Hn; [done|]. simpl.
  destruct (Z.leb_spec 0 (style_index r)); simpl.
  - destruct (_ <? _)%Z; [|destruct (_ =? _)%Z; [|done]]; intros Ho; constructor; try done;
      (eapply IH; [|exact Ho]); lia.
  - destruct (Z.eqb_spec (style_index r) n); [lia|done].
Qed.

Lemma row_runs_back table fuel runs row n n' it :
  NoDup table -> (Z.of_nat (length table) <= u32_max)%Z -> used_table table n it ->
  canonical_row runs = true -> in_order n runs = Some n' ->
  expand_row table runs = Some row -> length row <= fuel -> (Z.of_nat (length row) <= u32_max)%Z ->
  exists it', row_runs fuel row it = (runs, it') /\ used_table table n' it'.
Proof.
  intros Hd Hlen. revert fuel row n it. induction runs as [|run runs IH]; intros fuel row n it Hu Hcan Hord Hex Hf Hmax.
  { injection Hex as <-. injection Hord as <-. exists it. by destruct fuel. }
  pose proof (canonical_row_head _ _ Hcan) as Hcr. cbn [expand_row] in Hex.
  destruct (table !! Z.to_nat (style_index run)) as [s|] eqn:Es; [|done]. cbn in Hex.
  destruct (expand_row table runs) as [rest|] eqn:Er; [|done]. injection Hex as <-.
  destruct (run_cells_head s run Hcr) as (c & l & Hrc & HF). rewrite Hrc in *.
  assert (match rest with [] => True | c' :: _ => style c' <> s end) as Hrest.
  { destruct runs as [|next runs]; [by injection Er as <-|]. rewrite canonical_row_cons2 in Hcan.
    apply andb_true_iff in Hcan as [[_ Hne]%andb_true_iff Hcan].
    destruct (expand_head _ _ _ _ (canonical_row_head _ _ Hcan) Er) as (c' & rest' & -> & Hc').
    apply negb_true_iff, Z.eqb_neq in Hne. intros Hs. rewrite Hs in Hc'. apply Hne.
    pose proof (NoDup_lookup _ _ _ _ Hd Es Hc') as Hidx. destruct Hu as (_ & _ & Hn).
    apply in_order_nonneg in Hord; [|lia]. inversion Hord as [|? ? ? Hord']; subst. inversion Hord'; subst. lia. }
  assert (width run = Z.of_nat (length (c :: l))) as Hw.
  { rewrite <-Hrc. destruct run as [? ?|? ? k]; simpl; [by rewrite length_fmap|].
    rewrite length_replicate. simpl in Hcr. apply Z.leb_le in Hcr. lia. }
  destruct fuel as [|fuel]; [simpl in Hf; lia|]. inversion HF as [|? ? Hc Hl]; subst.
  rewrite <-app_comm_cons in *. cbn [row_runs].
  rewrite (span_app (style c) l rest Hl Hrest).
  cbn [length] in *. rewrite length_app in Hf, Hmax.
  cbn [in_order] in Hord.
  assert ((0 <= style_index run <= n)%Z /\
          in_order (if (style_index run =? n)%Z then n + 1 else n) runs = Some n') as [Hi Hord'].
  { destruct Hu as (_ & _ & Hn). destruct (Z.leb_spec 0 (style_index run)), (Z.ltb_spec (style_index run) n);
      simpl in Hord; destruct (Z.eqb_spec (style_index run) n); try done; split; (done || lia). }
  destruct (intern_used _ _ _ _ _ Hd Hlen Hu Hi Es) as (it1 & -> & Hu1).
  assert (canonical_row runs = true) as Hcan'.
  { destruct runs; [done|]. rewrite canonical_row_cons2 in Hcan. by apply andb_true_iff in Hcan as [_ ?]. }
  destruct (IH fuel rest _ it1 Hu1 Hcan' Hord' eq_refl) as (it2 & -> & Hu2); [lia|lia|].
  exists it2. split; [|done]. f_equal. f_equal. by eapply run_of_run_cells; [done|done|lia].
Qed.

Lemma run_cells_length s run : (0 <= width run)%Z -> Z.of_nat (length (run_cells s run)) = width run.
Proof. destruct run; simpl; intros; [by rewrite length_fmap|]. rewrite length_replicate. lia. Qed.

Lemma canonical_run_width run : canonical_run run = true -> (1 <= width run)%Z.
Proof. destruct run as [i [|g gs]|i g n]; simpl; intros H; [done|lia|by apply Z.leb_le]. Qed.

Lemma canonical_row_runs runs : canonical_row runs = true -> Forall (fun r => canonical_run r = true) runs.
Proof.
  induction runs as [|r [|r' runs] IH]; [constructor|by repeat constructor|].
  rewrite canonical_row_cons2. intros [[? _]%andb_true_iff Hr]%andb_true_iff. constructor; auto.
Qed.

Lemma expand_row_length table n runs row t t' :
  Forall (fun r => canonical_run r = true) runs ->
  expand_row table runs = Some row -> row_total n runs t = Some t' ->
  t' = (t + Z.of_nat (length row))%Z /\ length runs <= length row.
Proof.
  intros HF. revert row t. induction HF as [|r runs Hr HF IH]; intros row t; simpl.
  { intros [= <-] [= <-]. simpl. lia. }
  destruct (table !! _) as [s|]; [|done]. simpl. destruct (expand_row table runs) as [rest|]; [|done].
  intros [= <-]. destruct (_ <=? _)%Z; [done|]. intros Ht. apply (IH _ _ eq_refl) in Ht as [-> Hl].
  apply canonical_run_width in Hr. pose proof (run_cells_length s r ltac:(lia)). rewrite length_app. lia.
Qed.

(** What a successful expansion says of the rows. *)
Lemma expand_rows_inv table runs w grid w' :
  Forall (fun row => canonical_row row = true) runs ->
  expand_rows table runs w = Some (grid, w') ->
  Forall2 (fun runs row => expand_row table runs = Some row /\ (Z.of_nat (length row) <= u16_max)%Z /\
             length runs <= length row) runs grid.
Proof.
  intros HF. revert w grid w'. induction HF as [|rs runs Hc HF IH]; intros w grid w'; simpl.
  { intros [= <- _]. constructor. }
  destruct (row_total _ rs 0) as [total|] eqn:Et; [|done]. cbn. intros Hr.
  repeat (case_guard; simplify_eq/=).
  destruct (expand_row table rs) as [row|] eqn:Ee; [|done]. cbn in Hr.
  destruct (expand_rows table runs _) as [[rest w1]|] eqn:Er; [|done]. injection Hr as <- <-.
  destruct (expand_row_length _ _ _ _ _ _ (canonical_row_runs _ Hc) Ee Et) as [-> Hl].
  constructor; [|by eapply IH]. split; [done|]. split; [lia|done].
Qed.

Lemma in_order_length n m runs : in_order n runs = Some m -> (m <= n + Z.of_nat (length runs))%Z.
Proof.
  revert n. induction runs as [|r runs IH]; intros n; simpl; [intros [= <-]; lia|].
  destruct (_ && _); [|destruct (_ =? _)%Z; [|done]]; intros Ho%IH; lia.
Qed.

Lemma grid_runs_back table runs grid n n' it :
  NoDup table -> (Z.of_nat (length table) <= u32_max)%Z -> used_table table n it ->
  Forall (fun row => canonical_row row = true) runs -> in_order n (concat runs) = Some n' ->
  Forall2 (fun runs row => expand_row table runs = Some row /\ (Z.of_nat (length row) <= u16_max)%Z /\
             length runs <= length row) runs grid ->
  exists it', grid_runs grid it = (runs, it') /\ used_table table n' it'.
Proof.
  intros Hd Hlen Hu Hc Ho HF. revert n it Hu Hc Ho.
  induction HF as [|rs row runs grid (He & Hmax & _) HF IH]; intros n it Hu Hc Ho.
  { injection Ho as <-. by exists it. }
  inversion Hc; subst. cbn [concat] in Ho. rewrite in_order_app in Ho.
  destruct (in_order n rs) as [k|] eqn:Ek; [|done]. cbn in Ho. cbn [grid_runs].
  edestruct (row_runs_back table (length row) rs row n k it) as (it1 & -> & Hu1); try done.
  { unfold u16_max, u32_max in *. lia. }
  destruct (IH _ _ Hu1 ltac:(done) Ho) as (it2 & -> & Hu2). by exists it2.
Qed.

Lemma cells_back frame grid :
  canonical frame -> cells frame = Some grid -> from_cells grid (cursor frame) = frame.
Proof.
  intros [Hd Ho Hc] Hcells. unfold cells in Hcells. cbn in Hcells.
  case_guard as Hrows; simplify_eq/=.
  destruct (expand_rows (styles frame) (rows frame) None) as [[grid' w]|] eqn:Ee; [|done]. cbn in Hcells.
  case_guard; simplify_eq/=.
  apply expand_rows_inv in Ee; [|done].
  assert (Z.of_nat (length (styles frame)) <= u32_max)%Z as Hlen.
  { apply in_order_length in Ho. assert (forall runs grid, Forall2 (fun runs row =>
        expand_row (styles frame) runs = Some row /\ (Z.of_nat (length row) <= u16_max)%Z /\
        length runs <= length row) runs grid ->
        (Z.of_nat (length (concat runs)) <= Z.of_nat (length runs) * u16_max)%Z) as Hb.
    { clear. induction 1 as [|rs row runs grid (_ & ? & ?) HF IH]; [done|].
      cbn [concat length]. rewrite length_app. lia. }
    apply Hb in Ee. unfold u16_max, u32_max in *. nia. }
  unfold from_cells.
  destruct (grid_runs_back (styles frame) (rows frame) grid 0 (Z.of_nat (length (styles frame)))
    empty_interner) as (it & -> & _ & Hst & _); try done.
  - split; [apply empty_interner_ok|]. split; [done|]. lia.
  - rewrite Nat2Z.id, take_ge in Hst by lia. rewrite Hst. by destruct frame.
Qed.

Lemma from_cells_canonical grid c :
  shaped grid c ->
  canonical (from_cells grid c) /\
  styles (from_cells grid c) = first_appearances [] (style <$> concat grid).
Proof.
  intros Hs. pose proof (shaped_area _ _ Hs) as Harea.
  unfold from_cells; destruct (grid_runs grid empty_interner) as [runs it] eqn:E;
    (apply grid_runs_spec in E as [[Hd _] Hst _ Hcan Hord]; [|apply empty_interner_ok|simpl; lia]).
  split; [by split|done].
Qed.

(** Encoding a grid as styled runs and expanding it again gives
    the grid back; the encoding is the canonical one (each style interned once in
    order of first appearance, runs maximal, fills for uniform runs), and it is
    the only canonical frame that expands to that grid. *)
Theorem frames_and_grids_correspond (grid : list (list StyledCell)) (c : option PtyCursor) :
  shaped grid c ->
  cells (from_cells grid c) = Some grid /\ canonical (from_cells grid c) /\
  styles (from_cells grid c) = first_appearances [] (style <$> concat grid) /\
  forall frame, canonical frame -> cells frame = Some grid -> cursor frame = c -> frame = from_cells grid c.
Proof.
  intros Hs. destruct (from_cells_canonical _ _ Hs) as [Hc Hst].
  split; [by apply cells_from_cells|]. split; [done|]. split; [done|].
  intros frame Hf Hcells <-. symmetry. by apply cells_back.
Qed.

(** ** What expansion says of a frame *)

(** The integers of a frame are unsigned. *)
Definition typed_run (run : PtyRun) : Prop := (0 <= style_index run)%Z /\ (0 <= width run)%Z.
Definition typed_frame (frame : PtyFrame) : Prop := Forall (Forall typed_run) (rows frame).

Lemma expand_row_typed table n runs row t t' :
  Forall typed_run runs -> expand_row table runs = Some row -> row_total n runs t = Some t' ->
  t' = (t + Z.of_nat (length row))%Z.
Proof.
  intros HF. revert row t. induction HF as [|r runs [_ Hr] HF IH]; intros row t; simpl.
  { intros [= <-] [= <-]. simpl. lia. }
  destruct (table !! _) as [s|]; [|done]. simpl. destruct (expand_row table runs) as [rest|]; [|done].
  intros [= <-]. destruct (_ <=? _)%Z; [done|]. intros Ht. apply (IH _ _ eq_refl) in Ht as ->.
  pose proof (run_cells_length s r Hr). rewrite length_app. lia.
Qed.

(** Indices in range expand. *)
Lemma row_total_expands table runs t t' :
  Forall typed_run runs -> row_total (Z.of_nat (length table)) runs t = Some t' ->
  is_Some (expand_row table runs).
Proof.
  intros HF. revert t. induction HF as [|r runs [Hi _] HF IH]; intros t; simpl; [by eexists|].
  destruct (Z.leb_spec (Z.of_nat (length table)) (style_index r)); [done|]. intros Ht.
  destruct (IH _ Ht) as [rest ->].
  destruct (lookup_lt_is_Some_2 table (Z.to_nat (style_index r))) as [s ->]; [lia|]. by eexists.
Qed.

Lemma expand_rows_shape table runs w grid w' :
  Forall (Forall typed_run) runs -> expand_rows table runs w = Some (grid, w') ->
  length grid = length runs /\
  w' = match grid with [] => w | row :: _ => Some (Z.of_nat (length row)) end /\
  Forall (fun row => Z.of_nat (length row) = default (grid_cols grid) w) grid /\
  Forall (fun row => Z.of_nat (length row) <= u16_max)%Z grid.
Proof.
  intros HF. revert w grid w'. induction HF as [|rs runs Ht HF IH]; intros w grid w'; simpl.
  { intros [= <- <-]. done. }
  destruct (row_total _ rs 0) as [total|] eqn:Et; [|done]. cbn. intros Hr.
  repeat (case_guard; simplify_eq/=).
  destruct (expand_row table rs) as [row|] eqn:Ee; [|done]. cbn in Hr.
  destruct (expand_rows table runs _) as [[rest w1]|] eqn:Er; [|done]. injection Hr as <- <-.
  pose proof (expand_row_typed _ _ _ _ _ _ Ht Ee Et) as ->. rewrite Z.add_0_l in *.
  apply IH in Er as (Hl & Hw1 & Hrect & Hmax). simpl in Hrect.
  split; [simpl; by rewrite Hl|]. split; [|split].
  - rewrite Hw1. destruct rest as [|row' rest]; [congruence|]. inversion Hrect; subst. congruence.
  - simpl. constructor; [by destruct w|]. eapply Forall_impl; [exact Hrect|].
    simpl. intros ? ->. by destruct w.
  - by constructor.
Qed.

Lemma cells_shaped frame grid :
  typed_frame frame -> cells frame = Some grid ->
  shaped grid (cursor frame) /\ length grid = length (rows frame) /\
  expand_rows (styles frame) (rows frame) None =
    Some (grid, match grid with [] => None | _ => Some (grid_cols grid) end).
Proof.
  intros Ht. unfold cells. cbn. intros Hc.
  case_guard as Hrows; simplify_eq/=.
  destruct (expand_rows (styles frame) (rows frame) None) as [[grid' w]|] eqn:Ee; [|done]. cbn in Hc.
  case_guard as Hcur; simplify_eq/=.
  destruct (expand_rows_shape _ _ _ _ _ Ht Ee) as (Hl & -> & Hrect & Hmax). simpl in Hrect.
  split; [|split; [done|by destruct grid]]. rewrite <-Hl in *. split; [done|done| |].
  - destruct grid; [done|]. by inversion Hmax.
  - by destruct grid.
Qed.
