(* ===== verification/Hub.v ===== *)
(** * The PTY session registry (gwk-kernel/src/wire/pty.rs)

    One host publishes a session's screen, any number of consumers attach.  The
    hub keeps a mirror of the screen, a bounded window of the batches that led
    to it, and the raw fallback stream.  Every verb runs under the hub's lock:
    it is a function of the hub's state, and an error leaves the state as it
    was.

    A broadcast channel is the list of what was sent on it; a subscription is
    a position in that list.  Sizes are those of serde_json's output
    ([PtyJson]). *)

From S2P Require Import Prelude Text Command Screen.

(** ** Constants *)

Definition FRAME_BODY_MAX_BYTES : Z := 4194304.
Definition PTY_SESSION_MAX_COUNT : nat := 64.
Definition RETAINED_BATCHES : Z := 256.
Definition RETAINED_BYTES : Z := 8388608.
Definition PUBLISH_BYTE_BUDGET : Z := FRAME_BODY_MAX_BYTES / 2.
Definition MAX_GLYPH_BYTES : Z := 64.
Definition RAW_RETAINED_EVENTS : Z := 1024.
Definition RAW_RETAINED_BYTES : Z := 8388608.
Definition MAX_SESSIONS : nat := PTY_SESSION_MAX_COUNT.

(** The lengths of serde_json's compact output.  [None] is a failed
    serialization; the two plain lengths are of values the source expects to
    serialize. *)
Class PtyJson := {
  frame_json_len : PtyFrame -> option Z;
  deltas_json_len : list PtyDelta -> option Z;
  style_json_len : CellStyle -> Z;
  run_json_len : PtyRun -> Z;
}.

(** ** Refusals *)

Record PtyRefusal := {
  pr_code : KernelErrorCode;
  pr_detail : option (list (string * option string));
  pr_indeterminate : bool;
}.

Definition pty_refuse (c : KernelErrorCode) : PtyRefusal :=
  {| pr_code := c; pr_detail := None; pr_indeterminate := false |}.
Definition indeterminate : PtyRefusal :=
  {| pr_code := EIndeterminate; pr_detail := None; pr_indeterminate := true |}.
Definition unknown_session : PtyRefusal := pty_refuse ENotFound.
Definition delivery_already_pending : PtyRefusal := pty_refuse EOverloaded.
Definition stale_generation (presented actual : string) : PtyRefusal :=
  {| pr_code := EStaleVersion;
     pr_detail := Some [("presented_generation", Some presented); ("actual_generation", Some actual)];
     pr_indeterminate := false |}.
Definition raw_stale (head : option Z) : PtyRefusal :=
  {| pr_code := EStaleVersion; pr_detail := Some [("head", Numeric.to_numeric_text <$> head)];
     pr_indeterminate := false |}.
Definition backwards (head : Z) : PtyRefusal := raw_stale (Some head).
Definition out_of_range : PtyRefusal := pty_refuse EValidation.
Definition oversized : PtyRefusal := pty_refuse EValidation.

(** ** The strict decode of a published frame *)

(** [duplicate_free]: the loop over the table, [seen] the set it fills. *)
Fixpoint duplicate_free_from (seen : gset CellStyle) (table : list CellStyle)
  : result PtyRefusal unit :=
  match table with
  | [] => Ok tt
  | s :: table =>
      _ ← ensure (negb (bool_decide (s ∈ seen))) (pty_refuse EValidation);
      duplicate_free_from ({[s]} ∪ seen) table
  end.
Definition duplicate_free (table : list CellStyle) : result PtyRefusal unit :=
  duplicate_free_from ∅ table.

Definition bounded_grid (cols0 rows0 : Z) : result PtyRefusal unit :=
  ensure (pty_grid_dimensions_are_bounded cols0 rows0) (pty_refuse EValidation).

Fixpoint strict_row (table : Z) (row : list PtyRun) (total : Z) : result PtyRefusal Z :=
  match row with
  | [] => Ok total
  | run :: row =>
      _ ← ensure (negb (width run =? 0)%Z) (pty_refuse EValidation);
      _ ← ensure (style_index run <? table)%Z out_of_range;
      strict_row table row (total + width run)
  end.

Fixpoint strict_rows (table : Z) (rows0 : list (list PtyRun)) (width0 : option Z)
  : result PtyRefusal (option Z) :=
  match rows0 with
  | [] => Ok width0
  | row :: rows0 =>
      total ← strict_row table row 0;
      _ ← ensure (total <=? u16_max)%Z oversized;
      _ ← ensure (default total width0 =? total)%Z (pty_refuse EValidation);
      strict_rows table rows0 (Some (default total width0))
  end.

(** [strict_frame]. *)
Definition strict_frame (frame : PtyFrame)
  : result PtyRefusal (Z * Z * list (list StyledCell)) :=
  _ ← duplicate_free (styles frame);
  let rows0 := Z.of_nat (length (rows frame)) in
  _ ← ensure (rows0 <=? u16_max)%Z oversized;
  width0 ← strict_rows (Z.of_nat (length (styles frame))) (rows frame) None;
  let cols0 := default 0%Z width0 in
  _ ← bounded_grid cols0 rows0;
  _ ← ensure (cursor_inside rows0 cols0 (cursor frame)) (pty_refuse EValidation);
  grid ← ok_or (cells frame) (pty_refuse EValidation);
  mret (rows0, cols0, grid).

(** ** Blank screens *)

Definition blank_style : CellStyle := {|
  bold := false; dim := false; italic := false; blink := false; inverse := false;
  invisible := false; strikethrough := false; overline := false; underline := None;
  fg := None; bg := None; underline_color := None |}.
Definition blank : StyledCell := {| glyph := " "; style := blank_style |}.

Definition blank_grid (rows0 cols0 : Z) : list (list StyledCell) :=
  replicate (Z.to_nat rows0) (replicate (Z.to_nat cols0) blank).

Definition saturating_u64 (n : Z) : Z := Z.min u64_max n.

Section Hub.
Context `{PJ : PtyJson}.

(** [blank_grid_bytes]: the size of a blank screen, without building it. *)
Definition blank_grid_bytes (rows0 cols0 : Z) : Z :=
  if (rows0 =? 0)%Z then 23
  else if (cols0 =? 0)%Z then 21 + 3 * rows0 + 1
  else
    let style0 := style_json_len blank_style in
    let fill := run_json_len (Fill 0 " " cols0) in
    saturating_u64 (style0 + 22 + saturating_u64 (rows0 * (fill + 3))).

(** [measured], at its two types. *)
Definition within_budget (len : option Z) : result PtyRefusal Z :=
  bytes ← ok_or len (pty_refuse EStorage);
  _ ← ensure (bytes <=? PUBLISH_BYTE_BUDGET)%Z (pty_refuse EValidation);
  mret bytes.
Definition measured (frame : PtyFrame) : result PtyRefusal Z := within_budget (frame_json_len frame).
Definition measured_deltas (deltas : list PtyDelta) : result PtyRefusal Z :=
  within_budget (deltas_json_len deltas).

(** ** Sessions *)

Record PtyBatch := { b_seq : Z; b_deltas : list PtyDelta }.

(** Bytes are opaque here and below. *)
Inductive PtyRawDelivery :=
| RawSnapshot (seq : option Z) (rows cols : Z) (bytes : string)
| RawOutput (seq : Z) (bytes : string)
| RawResized (seq rows cols : Z).

Definition raw_delivery_seq (d : PtyRawDelivery) : option Z :=
  match d with
  | RawSnapshot seq _ _ _ => seq
  | RawOutput seq _ | RawResized seq _ _ => Some seq
  end.

Definition raw_delivery_bytes (d : PtyRawDelivery) : Z :=
  match d with
  | RawSnapshot _ _ _ bytes | RawOutput _ bytes => Z.of_nat (String.length bytes)
  | RawResized _ _ _ => 0
  end.

Record Session := {
  s_owner : Z;
  s_generation : string;
  s_seq : option Z;
  s_cells : list (list StyledCell);
  s_cursor : option PtyCursor;
  s_retained : list (PtyBatch * Z);
  s_retained_bytes : Z;
  s_evicted_through : option Z;
  s_live : list PtyBatch;
  s_raw_snapshot : option PtyRawDelivery;
  s_raw_seq : option Z;
  s_raw_retained : list PtyRawDelivery;
  s_raw_retained_bytes : Z;
  s_raw_live : list PtyRawDelivery;
}.

Definition as_u16 (n : Z) : Z := (n mod (u16_max + 1))%Z.

(** [Session::size]: columns, then rows. *)
Definition session_size (s : Session) : Z * Z :=
  (match s_cells s with [] => 0%Z | row :: _ => as_u16 (Z.of_nat (length row)) end,
   as_u16 (Z.of_nat (length (s_cells s)))).

(** The eviction loop of [Session::retain]. *)
Fixpoint evict (retained : list (PtyBatch * Z)) (bytes : Z) (evicted : option Z)
  : list (PtyBatch * Z) * Z * option Z :=
  match retained with
  | [] => ([], bytes, evicted)
  | (dropped, dropped_bytes) :: rest =>
      if (RETAINED_BATCHES <? Z.of_nat (length retained))%Z || (RETAINED_BYTES <? bytes)%Z
      then evict rest (bytes - dropped_bytes) (Some (b_seq dropped))
      else (retained, bytes, evicted)
  end.

(** [Session::publish]: retain the batch, then send it live. *)
Definition publish (batch : PtyBatch) (bytes : Z) (s : Session) : Session :=
  let '(retained, retained_bytes, evicted) :=
    evict (s_retained s ++ [(batch, bytes)]) (s_retained_bytes s + bytes) (s_evicted_through s) in
  {| s_owner := s_owner s; s_generation := s_generation s; s_seq := s_seq s;
     s_cells := s_cells s; s_cursor := s_cursor s;
     s_retained := retained; s_retained_bytes := retained_bytes; s_evicted_through := evicted;
     s_live := s_live s ++ [batch];
     s_raw_snapshot := s_raw_snapshot s; s_raw_seq := s_raw_seq s;
     s_raw_retained := s_raw_retained s; s_raw_retained_bytes := s_raw_retained_bytes s;
     s_raw_live := s_raw_live s |}.

(** A new screen at a revision. *)
Definition with_screen (seq : option Z) (grid : list (list StyledCell)) (c : option PtyCursor)
    (s : Session) : Session := {|
  s_owner := s_owner s; s_generation := s_generation s; s_seq := seq;
  s_cells := grid; s_cursor := c;
  s_retained := s_retained s; s_retained_bytes := s_retained_bytes s;
  s_evicted_through := s_evicted_through s; s_live := s_live s;
  s_raw_snapshot := s_raw_snapshot s; s_raw_seq := s_raw_seq s;
  s_raw_retained := s_raw_retained s; s_raw_retained_bytes := s_raw_retained_bytes s;
  s_raw_live := s_raw_live s |}.

Definition with_raw (snapshot : option PtyRawDelivery) (seq : option Z)
    (retained : list PtyRawDelivery) (bytes : Z) (sent : list PtyRawDelivery) (s : Session)
  : Session := {|
  s_owner := s_owner s; s_generation := s_generation s; s_seq := s_seq s;
  s_cells := s_cells s; s_cursor := s_cursor s;
  s_retained := s_retained s; s_retained_bytes := s_retained_bytes s;
  s_evicted_through := s_evicted_through s; s_live := s_live s;
  s_raw_snapshot := snapshot; s_raw_seq := seq;
  s_raw_retained := retained; s_raw_retained_bytes := bytes; s_raw_live := sent |}.

(** A session as the first publish leaves it. *)
Definition claimed_session (conn : Z) (generation : string) (seq : option Z)
    (grid : list (list StyledCell)) (c : option PtyCursor) : Session := {|
  s_owner := conn; s_generation := generation; s_seq := seq; s_cells := grid; s_cursor := c;
  s_retained := []; s_retained_bytes := 0; s_evicted_through := seq; s_live := [];
  s_raw_snapshot := None; s_raw_seq := None; s_raw_retained := []; s_raw_retained_bytes := 0;
  s_raw_live := [] |}.

Definition owned (s : Session) (conn : Z) : result PtyRefusal unit :=
  ensure (s_owner s =? conn)%Z (pty_refuse EAuthority).

(** ** Applying deltas to a grid *)

(** [cells[row][col] = cell]; the batch was checked against the grid's bounds. *)
Definition apply_update (table : list CellStyle) (grid : list (list StyledCell)) (u : PtyCellUpdate)
  : list (list StyledCell) :=
  match table !! Z.to_nat (up_style u) with
  | Some s => alter (<[Z.to_nat (up_col u) := {| glyph := up_glyph u; style := s |}]>)
                (Z.to_nat (up_row u)) grid
  | None => grid
  end.

Definition apply_delta (grid : list (list StyledCell)) (d : PtyDelta) : list (list StyledCell) :=
  match d with
  | Resized rows0 cols0 => blank_grid rows0 cols0
  | CellsChanged table updates => foldl (apply_update table) grid updates
  end.

Definition clears_cursor (d : PtyDelta) : bool :=
  match d with Resized _ _ => true | CellsChanged _ _ => false end.

(** The validation pass of [publish_deltas]. *)
Definition check_update (table : Z) (cols0 rows0 : Z) (u : PtyCellUpdate) : result PtyRefusal unit :=
  _ ← ensure (up_style u <? table)%Z out_of_range;
  _ ← ensure ((up_row u <? rows0) && (up_col u <? cols0))%Z (pty_refuse EValidation);
  ensure (Z.of_nat (String.length (up_glyph u)) <=? MAX_GLYPH_BYTES)%Z (pty_refuse EValidation).

Fixpoint check_updates (table : Z) (cols0 rows0 : Z) (updates : list PtyCellUpdate)
  : result PtyRefusal unit :=
  match updates with
  | [] => Ok tt
  | u :: updates => _ ← check_update table cols0 rows0 u; check_updates table cols0 rows0 updates
  end.

Fixpoint check_deltas (cols0 rows0 : Z) (deltas : list PtyDelta) : result PtyRefusal unit :=
  match deltas with
  | [] => Ok tt
  | Resized new_rows new_cols :: deltas =>
      _ ← bounded_grid new_cols new_rows;
      _ ← ensure (blank_grid_bytes new_rows new_cols <=? PUBLISH_BYTE_BUDGET)%Z (pty_refuse EValidation);
      check_deltas new_cols new_rows deltas
  | CellsChanged table updates :: deltas =>
      _ ← duplicate_free table;
      _ ← check_updates (Z.of_nat (length table)) cols0 rows0 updates;
      check_deltas cols0 rows0 deltas
  end.

(** ** Reverse controls *)

(** The controls that carry a delivery, and the rest. *)
Inductive ServerControl :=
| PtyInput (delivery_id command_id session_id generation : string) (byte_size : Z) (data_base64 : string)
| PtyResize (delivery_id command_id session_id generation : string) (cols rows : Z)
| PtyStop (delivery_id command_id session_id generation : string)
| PtyStart (delivery_id command_id template_name session_id : string)
| OtherControl.

Definition control_delivery_id (c : ServerControl) : option string :=
  match c with
  | PtyInput d _ _ _ _ _ | PtyResize d _ _ _ _ _ | PtyStop d _ _ _ | PtyStart d _ _ _ => Some d
  | OtherControl => None
  end.

(** A route; its channel is named by the connection, and [rt_disconnect] is the
    value of its watch. *)
Record ControlRoute := {
  rt_input_enabled : bool;
  rt_control_enabled : bool;
  rt_start_enabled : bool;
  rt_disconnect : bool;
}.

(** [pd_channel] names the one-shot channel the delivery waits on. *)
Record PendingDelivery := { pd_owner : Z; pd_claim_token : string; pd_channel : Z }.

Record PtyHub := {
  h_sessions : gmap string Session;
  h_routes : gmap Z ControlRoute;
  h_start_managers : list Z;
  h_pending : gmap string PendingDelivery;
  (** What was sent to each connection's control queue. *)
  h_queues : gmap Z (list ServerControl);
  h_start_changes : Z;
  h_connections : Z;
  h_writer_epoch : Z;
  h_generations : Z;
  (** One-shot channels made so far. *)
  h_channels : Z;
}.

(** [PtyHub::new]. *)
Definition new_hub (writer_epoch : Z) : PtyHub := {|
  h_sessions := ∅; h_routes := ∅; h_start_managers := []; h_pending := ∅; h_queues := ∅;
  h_start_changes := 0; h_connections := 0; h_writer_epoch := writer_epoch; h_generations := 0;
  h_channels := 0 |}.

Definition with_sessions (m : gmap string Session) (h : PtyHub) : PtyHub := {|
  h_sessions := m; h_routes := h_routes h; h_start_managers := h_start_managers h;
  h_pending := h_pending h; h_queues := h_queues h; h_start_changes := h_start_changes h;
  h_connections := h_connections h; h_writer_epoch := h_writer_epoch h;
  h_generations := h_generations h; h_channels := h_channels h |}.

Definition with_generations (n : Z) (h : PtyHub) : PtyHub := {|
  h_sessions := h_sessions h; h_routes := h_routes h; h_start_managers := h_start_managers h;
  h_pending := h_pending h; h_queues := h_queues h; h_start_changes := h_start_changes h;
  h_connections := h_connections h; h_writer_epoch := h_writer_epoch h;
  h_generations := n; h_channels := h_channels h |}.

Definition with_controls (routes : gmap Z ControlRoute) (managers : list Z)
    (pending : gmap string PendingDelivery) (changes : Z) (h : PtyHub) : PtyHub := {|
  h_sessions := h_sessions h; h_routes := routes; h_start_managers := managers;
  h_pending := pending; h_queues := h_queues h; h_start_changes := changes;
  h_connections := h_connections h; h_writer_epoch := h_writer_epoch h;
  h_generations := h_generations h; h_channels := h_channels h |}.

(** [PtyHub::connection]: [fetch_add(1) + 1]. *)
Definition connection (h : PtyHub) : Z * PtyHub :=
  let c := (h_connections h + 1)%Z in
  (c, {| h_sessions := h_sessions h; h_routes := h_routes h; h_start_managers := h_start_managers h;
         h_pending := h_pending h; h_queues := h_queues h; h_start_changes := h_start_changes h;
         h_connections := (c mod (u64_max + 1))%Z; h_writer_epoch := h_writer_epoch h;
         h_generations := h_generations h; h_channels := h_channels h |}).

(** [PtyHub::register_connection]. *)
Definition register_connection (conn : Z) (input control start : bool) (h : PtyHub) : PtyHub :=
  let routes := <[conn := {| rt_input_enabled := input; rt_control_enabled := control;
                             rt_start_enabled := start; rt_disconnect := false |}]> (h_routes h) in
  if start
  then with_controls routes
         (List.filter (fun m => negb (m =? conn)%Z) (h_start_managers h) ++ [conn])
         (h_pending h) (h_start_changes h + 1) h
  else with_controls routes (h_start_managers h) (h_pending h) (h_start_changes h) h.

(** ** Publishing the screen *)

(** [PtyHub::next_generation]. *)
Definition next_generation (h : PtyHub) : result PtyRefusal (string * PtyHub) :=
  counter ← ok_or (checked_add u64_max (h_generations h) 1) (pty_refuse EOverloaded);
  mret (Numeric.to_numeric_text (h_writer_epoch h) +:+ ":" +:+ Numeric.to_numeric_text counter,
        with_generations counter h).

(** What a snapshot may not do to the head of a live session. *)
Definition check_snapshot_seq (head seq : option Z) : result PtyRefusal unit :=
  match head, seq with
  | Some head, Some seq => ensure (negb (seq <? head)%Z) (backwards head)
  | Some _, None => Err (pty_refuse EStaleVersion)
  | None, _ => Ok tt
  end.

Definition snapshot_advances (head seq : option Z) : bool :=
  match head, seq with
  | Some head, Some seq => (head <? seq)%Z
  | None, Some _ => true
  | _, _ => false
  end.

(** The owner's snapshot of a live session. *)
Definition reseed (conn : Z) (seq : option Z) (rows0 cols0 : Z) (grid : list (list StyledCell))
    (c : option PtyCursor) (bytes : Z) (s : Session) : result PtyRefusal Session :=
  _ ← owned s conn;
  _ ← check_snapshot_seq (s_seq s) seq;
  let advanced := snapshot_advances (s_seq s) seq in
  _ ← ensure (advanced || bool_decide ((cols0, rows0) = session_size s)) (pty_refuse EValidation);
  let s := with_screen seq grid c s in
  mret (match advanced, seq with
        | true, Some seq => publish {| b_seq := seq; b_deltas := [Resized rows0 cols0] |} bytes s
        | _, _ => s
        end).

(** [PtyHub::publish_snapshot]: the generation it opened, if it did. *)
Definition publish_snapshot (conn : Z) (id : string) (seq : option Z) (frame : PtyFrame) (h : PtyHub)
  : result PtyRefusal (option string * PtyHub) :=
  '(rows0, cols0, grid) ← strict_frame frame;
  bytes ← measured frame;
  match h_sessions h !! id with
  | None =>
      _ ← ensure (size (h_sessions h) <? MAX_SESSIONS) (pty_refuse EOverloaded);
      '(generation, h) ← next_generation h;
      mret (Some generation,
            with_sessions (<[id := claimed_session conn generation seq grid (cursor frame)]>
                             (h_sessions h)) h)
  | Some s =>
      s ← reseed conn seq rows0 cols0 grid (cursor frame) bytes s;
      mret (None, with_sessions (<[id := s]> (h_sessions h)) h)
  end.

(** [PtyHub::publish_deltas]. *)
Definition publish_deltas (conn : Z) (id : string) (seq : Z) (deltas : list PtyDelta) (h : PtyHub)
  : result PtyRefusal PtyHub :=
  bytes ← measured_deltas deltas;
  s ← ok_or (h_sessions h !! id) unknown_session;
  _ ← owned s conn;
  _ ← match s_seq s with
      | Some head => ensure (head <? seq)%Z (backwards head)
      | None => Ok tt
      end;
  let '(cols0, rows0) := session_size s in
  _ ← check_deltas cols0 rows0 deltas;
  let grid := foldl apply_delta (s_cells s) deltas in
  let c := if existsb clears_cursor deltas then None else s_cursor s in
  let s := publish {| b_seq := seq; b_deltas := deltas |} bytes (with_screen (Some seq) grid c s) in
  mret (with_sessions (<[id := s]> (h_sessions h)) h).

(** ** Publishing the raw fallback *)

(** [PtyHub::publish_raw_snapshot]. *)
Definition publish_raw_snapshot (conn : Z) (id : string) (seq : option Z) (rows0 cols0 : Z)
    (bytes : string) (h : PtyHub) : result PtyRefusal PtyHub :=
  _ ← ensure (Z.of_nat (String.length bytes) + 1 <=? FRAME_BODY_MAX_BYTES)%Z (pty_refuse EFrameSize);
  s ← ok_or (h_sessions h !! id) unknown_session;
  _ ← owned s conn;
  _ ← ensure (bool_decide (s_raw_snapshot s = None)) (pty_refuse EOverloaded);
  _ ← ensure (bool_decide (seq = s_seq s)) (raw_stale (s_seq s));
  _ ← ensure (bool_decide ((cols0, rows0) = session_size s)) (pty_refuse EValidation);
  let s := with_raw (Some (RawSnapshot seq rows0 cols0 bytes)) seq [] 0 (s_raw_live s) s in
  mret (with_sessions (<[id := s]> (h_sessions h)) h).

(** [PtyHub::publish_raw]. *)
Definition publish_raw (conn : Z) (id : string) (delivery : PtyRawDelivery) (h : PtyHub)
  : result PtyRefusal PtyHub :=
  seq ← ok_or (raw_delivery_seq delivery) (pty_refuse EValidation);
  s ← ok_or (h_sessions h !! id) unknown_session;
  _ ← owned s conn;
  _ ← ensure (negb (bool_decide (s_raw_snapshot s = None))) (pty_refuse EOverloaded);
  expected ← match s_raw_seq s with
             | Some head => ok_or (checked_add u64_max head 1) (pty_refuse EOverloaded)
             | None => mret 0%Z
             end;
  _ ← ensure (seq =? expected)%Z (raw_stale (s_raw_seq s));
  let bytes := raw_delivery_bytes delivery in
  _ ← ensure ((Z.of_nat (length (s_raw_retained s)) <? RAW_RETAINED_EVENTS)%Z
              && (s_raw_retained_bytes s + bytes <=? RAW_RETAINED_BYTES)%Z) (pty_refuse EOverloaded);
  let s := with_raw (s_raw_snapshot s) (Some seq) (s_raw_retained s ++ [delivery])
             (s_raw_retained_bytes s + bytes) (s_raw_live s ++ [delivery]) s in
  mret (with_sessions (<[id := s]> (h_sessions h)) h).

(** [PtyHub::publish_raw_output]. *)
Definition publish_raw_output (conn : Z) (id : string) (seq : Z) (bytes : string) (h : PtyHub)
  : result PtyRefusal PtyHub :=
  _ ← ensure (Z.of_nat (String.length bytes) + 1 <=? FRAME_BODY_MAX_BYTES)%Z (pty_refuse EFrameSize);
  publish_raw conn id (RawOutput seq bytes) h.

(** [PtyHub::publish_raw_resize]. *)
Definition publish_raw_resize (conn : Z) (id : string) (seq rows0 cols0 : Z) (h : PtyHub)
  : result PtyRefusal PtyHub := publish_raw conn id (RawResized seq rows0 cols0) h.

(** ** Ending sessions *)

(** [PtyHub::retire]: the generation that ended. *)
Definition retire (conn : Z) (id : string) (h : PtyHub) : result PtyRefusal (string * PtyHub) :=
  s ← ok_or (h_sessions h !! id) unknown_session;
  _ ← owned s conn;
  mret (s_generation s, with_sessions (delete id (h_sessions h)) h).

Record DisconnectOutcome := {
  retired : list (string * string);
  abandoned : list (string * string);
}.

(** [PtyHub::disconnect]. *)
Definition disconnect (conn : Z) (h : PtyHub) : DisconnectOutcome * PtyHub :=
  let mine := filter (fun '(_, p) => pd_owner p = conn) (h_pending h) in
  let managers := List.filter (fun m => negb (m =? conn)%Z) (h_start_managers h) in
  let changes := if bool_decide (last managers = last (h_start_managers h))
                 then h_start_changes h else (h_start_changes h + 1)%Z in
  let h := with_controls (delete conn (h_routes h)) managers
             (filter (fun '(_, p) => pd_owner p <> conn) (h_pending h)) changes h in
  let claimed := filter (fun '(_, s) => s_owner s = conn) (h_sessions h) in
  ({| retired := (fun '(id, s) => (id, s_generation s)) <$> map_to_list claimed;
      abandoned := (fun '(id, p) => (id, pd_claim_token p)) <$> map_to_list mine |},
   with_sessions (filter (fun '(_, s) => s_owner s <> conn) (h_sessions h)) h).

(** ** Attaching *)

Record Attached := {
  at_generation : string;
  at_rows : Z;
  at_cols : Z;
  at_cursor : option Z;
  at_replay : list PtyBatch;
  (** The position the subscription starts at. *)
  at_live : nat;
}.

(** A cursor of this life, within the head and not before the horizon. *)
Definition serviceable (s : Session) (generation : option string) (cursor0 : option Z) : option Z :=
  match generation, cursor0 with
  | Some generation, Some cursor0 =>
      if bool_decide (generation = s_generation s) then
        let past_head := match s_seq s with Some head => (head <? cursor0)%Z | None => true end in
        let evicted := match s_evicted_through s with Some e => (cursor0 <? e)%Z | None => false end in
        if negb past_head && negb evicted then Some cursor0 else None
      else None
  | _, _ => None
  end.

(** [PtyHub::attach]. *)
Definition attach (id : string) (generation : option string) (cursor0 : option Z) (h : PtyHub)
  : result PtyRefusal Attached :=
  s ← ok_or (h_sessions h !! id) unknown_session;
  let '(cols0, rows0) := session_size s in
  let '(answer, replay) :=
    match serviceable s generation cursor0 with
    | Some cursor0 =>
        (Some cursor0, List.filter (fun b => (cursor0 <? b_seq b)%Z) (fst <$> s_retained s))
    | None => (s_seq s, [])
    end in
  mret {| at_generation := s_generation s; at_rows := rows0; at_cols := cols0;
          at_cursor := answer; at_replay := replay; at_live := length (s_live s) |}.

Record RawAttached := {
  ra_generation : string;
  ra_rows : Z;
  ra_cols : Z;
  ra_cursor : option Z;
  ra_delivered : option Z;
  ra_replay : list PtyRawDelivery;
  ra_live : nat;
}.

Definition raw_serviceable (s : Session) (snapshot_seq : option Z) (generation : option string)
    (cursor0 : option Z) : option Z :=
  match generation, cursor0 with
  | Some generation, Some cursor0 =>
      if bool_decide (generation = s_generation s) then
        let after_snapshot := match snapshot_seq with Some at0 => (at0 <=? cursor0)%Z | None => true end in
        let before_head := match s_raw_seq s with Some head => (cursor0 <=? head)%Z | None => false end in
        if after_snapshot && before_head then Some cursor0 else None
      else None
  | _, _ => None
  end.

(** [PtyHub::attach_raw]. *)
Definition attach_raw (id : string) (generation : option string) (cursor0 : option Z) (h : PtyHub)
  : result PtyRefusal RawAttached :=
  s ← ok_or (h_sessions h !! id) unknown_session;
  snapshot ← ok_or (s_raw_snapshot s) (pty_refuse EOverloaded);
  let '(cols0, rows0) := session_size s in
  let '(answer, delivered, replay) :=
    match raw_serviceable s (raw_delivery_seq snapshot) generation cursor0 with
    | Some cursor0 =>
        (Some cursor0, Some cursor0,
         List.filter (fun d => match raw_delivery_seq d with
                               | Some seq => (cursor0 <? seq)%Z
                               | None => false
                               end) (s_raw_retained s))
    | None => (s_raw_seq s, None, snapshot :: s_raw_retained s)
    end in
  mret {| ra_generation := s_generation s; ra_rows := rows0; ra_cols := cols0; ra_cursor := answer;
          ra_delivered := delivered; ra_replay := replay; ra_live := length (s_raw_live s) |}.

(** [PtyHub::snapshot]. *)
Definition snapshot (id : string) (h : PtyHub) : result PtyRefusal (string * Z * PtyFrame) :=
  s ← ok_or (h_sessions h !! id) unknown_session;
  seq ← ok_or (s_seq s) (pty_refuse ENotFound);
  let frame := from_cells (s_cells s) (s_cursor s) in
  bytes ← ok_or (frame_json_len frame) (pty_refuse EStorage);
  _ ← ensure (bytes <=? PUBLISH_BYTE_BUDGET)%Z (pty_refuse EOverloaded);
  mret (s_generation s, seq, frame).
(** ** Reverse deliveries

    [deliver_input], [deliver_control] and [deliver_start] release the locks
    while they wait.  Each part that holds a lock is one definition; what
    happens in between is any sequence of verbs. *)

(** The owner of this exact lifetime. *)
Definition deliver_owner (id generation : string) (h : PtyHub) : result PtyRefusal Z :=
  s ← ok_or (h_sessions h !! id) unknown_session;
  _ ← ensure (bool_decide (s_generation s = generation)) (stale_generation generation (s_generation s));
  mret (s_owner s).

(** The owner's route, when it negotiated what the delivery needs. *)
Definition deliver_route (enabled : ControlRoute -> bool) (owner : Z) (h : PtyHub)
  : result PtyRefusal ControlRoute :=
  route ← ok_or (h_routes h !! owner) (pty_refuse ENotFound);
  _ ← ensure (enabled route) (pty_refuse ECapability);
  mret route.

(** How a bounded wait for queue capacity ends. *)
Inductive Reservation := Reserved | QueueClosed | QueueTimedOut.

Definition reserve (r : Reservation) : result PtyRefusal unit :=
  match r with
  | Reserved => Ok tt
  | QueueClosed => Err (pty_refuse ENotFound)
  | QueueTimedOut => Err (pty_refuse ESlowConsumer)
  end.

(** Record the delivery as pending and send it; the channel its ack comes on. *)
Definition enqueue (owner : Z) (claim_token delivery_id : string) (control : ServerControl) (h : PtyHub)
  : result PtyRefusal (Z * PtyHub) :=
  _ ← ensure (bool_decide (h_pending h !! delivery_id = None)) delivery_already_pending;
  let channel := h_channels h in
  mret (channel,
        {| h_sessions := h_sessions h; h_routes := h_routes h; h_start_managers := h_start_managers h;
           h_pending := <[delivery_id := {| pd_owner := owner; pd_claim_token := claim_token;
                                            pd_channel := channel |}]> (h_pending h);
           h_queues := <[owner := default [] (h_queues h !! owner) ++ [control]]> (h_queues h);
           h_start_changes := h_start_changes h; h_connections := h_connections h;
           h_writer_epoch := h_writer_epoch h; h_generations := h_generations h;
           h_channels := (channel + 1)%Z |}).

(** The locked part of [deliver_input] and [deliver_control]: the lifetime is
    read again before the control is sent. *)
Definition deliver_to_session (id generation : string) (owner : Z) (claim_token : string)
    (control : ServerControl) (h : PtyHub) : result PtyRefusal (Z * PtyHub) :=
  delivery_id ← ok_or (control_delivery_id control) (pty_refuse EValidation);
  s ← ok_or (h_sessions h !! id) unknown_session;
  _ ← ensure (bool_decide (s_generation s = generation) && (s_owner s =? owner)%Z)
        (stale_generation generation (s_generation s));
  enqueue owner claim_token delivery_id control h.

(** [PtyHub::start_route]. *)
Definition start_route (h : PtyHub) : option (Z * ControlRoute) :=
  manager ← last (h_start_managers h);
  route ← h_routes h !! manager;
  Some (manager, route).

(** The locked part of [deliver_start]; [None] is another turn of its loop. *)
Definition deliver_to_manager (manager : Z) (claim_token : string) (control : ServerControl) (h : PtyHub)
  : result PtyRefusal (option (Z * PtyHub)) :=
  delivery_id ← ok_or (control_delivery_id control) (pty_refuse EValidation);
  if bool_decide (last (h_start_managers h) = Some manager)
  then '(channel, h) ← enqueue manager claim_token delivery_id control h; mret (Some (channel, h))
  else mret None.

Definition with_pending (pending : gmap string PendingDelivery) (h : PtyHub) : PtyHub :=
  with_controls (h_routes h) (h_start_managers h) pending (h_start_changes h) h.

(** [PtyHub::invalidate_connection]. *)
Definition invalidate_connection (conn : Z) (h : PtyHub) : PtyHub :=
  with_controls
    (alter (fun r => {| rt_input_enabled := rt_input_enabled r; rt_control_enabled := rt_control_enabled r;
                        rt_start_enabled := rt_start_enabled r; rt_disconnect := true |}) conn (h_routes h))
    (h_start_managers h) (h_pending h) (h_start_changes h) h.

(** How the wait for the acknowledgement ends: an answer, a dropped sender, or
    the deadline. *)
Inductive Acknowledged := Answered (r : result PtyRefusal unit) | SenderDropped | AckTimedOut.

(** The end of [deliver_input] and [deliver_control]. *)
Definition deliver_finish (owner : Z) (delivery_id : string) (a : Acknowledged) (h : PtyHub)
  : result PtyRefusal unit * PtyHub :=
  let '(r, h) := match a with
                 | Answered r => (r, h)
                 | SenderDropped => (Err indeterminate, h)
                 | AckTimedOut => (Err indeterminate, invalidate_connection owner h)
                 end in
  (r, match r with
      | Err e => if pr_indeterminate e then h else with_pending (delete delivery_id (h_pending h)) h
      | Ok _ => with_pending (delete delivery_id (h_pending h)) h
      end).

(** The end of [deliver_start]: the owner to invalidate is read from the entry. *)
Definition deliver_start_finish (delivery_id : string) (a : Acknowledged) (h : PtyHub)
  : result PtyRefusal unit * PtyHub :=
  match a, h_pending h !! delivery_id with
  | AckTimedOut, None => (Err indeterminate, h)
  | _, p => deliver_finish (default 0%Z (pd_owner <$> p)) delivery_id a h
  end.

(** [PtyHub::delivery_pending]. *)
Definition delivery_pending (delivery_id : string) (h : PtyHub) : bool :=
  bool_decide (is_Some (h_pending h !! delivery_id)).

(** [PtyHub::delivery_ack_claim]. *)
Definition delivery_ack_claim (conn : Z) (delivery_id : string) (h : PtyHub) : result PtyRefusal string :=
  p ← ok_or (h_pending h !! delivery_id) (pty_refuse ENotFound);
  _ ← ensure (pd_owner p =? conn)%Z (pty_refuse EAuthority);
  mret (pd_claim_token p).

(** [PtyHub::take_delivery_ack]: the channel to answer on, out of the map. *)
Definition take_delivery_ack (conn : Z) (delivery_id claim_token : string) (h : PtyHub)
  : result PtyRefusal (Z * PtyHub) :=
  p ← ok_or (h_pending h !! delivery_id) (pty_refuse ENotFound);
  _ ← ensure (pd_owner p =? conn)%Z (pty_refuse EAuthority);
  _ ← ensure (bool_decide (pd_claim_token p = claim_token)) (pty_refuse EStaleVersion);
  mret (pd_channel p, with_pending (delete delivery_id (h_pending h)) h).

(** ** The verbs *)

Inductive HubVerb :=
| Connection
| RegisterConnection (conn : Z) (input control start : bool)
| PublishSnapshot (conn : Z) (id : string) (seq : option Z) (frame : PtyFrame)
| PublishDeltas (conn : Z) (id : string) (seq : Z) (deltas : list PtyDelta)
| PublishRawSnapshot (conn : Z) (id : string) (seq : option Z) (rows cols : Z) (bytes : string)
| PublishRawOutput (conn : Z) (id : string) (seq : Z) (bytes : string)
| PublishRawResize (conn : Z) (id : string) (seq rows cols : Z)
| Retire (conn : Z) (id : string)
| Disconnect (conn : Z)
| DeliverToSession (id generation : string) (owner : Z) (claim_token : string) (control : ServerControl)
| DeliverToManager (manager : Z) (claim_token : string) (control : ServerControl)
| DeliverFinish (owner : Z) (delivery_id : string) (a : Acknowledged)
| DeliverStartFinish (delivery_id : string) (a : Acknowledged)
| TakeDeliveryAck (conn : Z) (delivery_id claim_token : string).

(** The state a verb leaves: the old one when it is refused. *)
Definition settle {A} (r : result PtyRefusal A) (f : A -> PtyHub) (h : PtyHub) : PtyHub :=
  match r with Ok a => f a | Err _ => h end.

Definition exec (h : PtyHub) (v : HubVerb) : PtyHub :=
  match v with
  | Connection => (connection h).2
  | RegisterConnection conn input control start => register_connection conn input control start h
  | PublishSnapshot conn id seq frame => settle (publish_snapshot conn id seq frame h) snd h
  | PublishDeltas conn id seq deltas => settle (publish_deltas conn id seq deltas h) Datatypes.id h
  | PublishRawSnapshot conn id seq rows0 cols0 bytes =>
      settle (publish_raw_snapshot conn id seq rows0 cols0 bytes h) Datatypes.id h
  | PublishRawOutput conn id seq bytes => settle (publish_raw_output conn id seq bytes h) Datatypes.id h
  | PublishRawResize conn id seq rows0 cols0 =>
      settle (publish_raw_resize conn id seq rows0 cols0 h) Datatypes.id h
  | Retire conn id => settle (retire conn id h) snd h
  | Disconnect conn => (disconnect conn h).2
  | DeliverToSession id generation owner claim control =>
      settle (deliver_to_session id generation owner claim control h) snd h
  | DeliverToManager manager claim control =>
      settle (deliver_to_manager manager claim control h)
        (fun r => match r with Some (_, h') => h' | None => h end) h
  | DeliverFinish owner d a => (deliver_finish owner d a h).2
  | DeliverStartFinish d a => (deliver_start_finish d a h).2
  | TakeDeliveryAck conn d claim => settle (take_delivery_ack conn d claim h) snd h
  end.

Definition run (h : PtyHub) (vs : list HubVerb) : PtyHub := foldl exec h vs.
End Hub.

(** ** The strict decode against the tolerant one *)

Lemma duplicate_free_from_ok seen table :
  duplicate_free_from seen table = Ok tt <-> NoDup table /\ forall s, s ∈ table -> s ∉ seen.
Proof.
  revert seen. induction table as [|s table IH]; intros seen; simpl.
  { split; [split; [constructor|by intros ? ?%elem_of_nil]|done]. }
  destruct (bool_decide_reflect (s ∈ seen)) as [Hs|Hs]; simpl.
  - split; [done|]. intros [_ Hn]. by destruct (Hn s ltac:(left)).
  - rewrite IH, NoDup_cons. split.
    + intros [Hd Hn]. split; [split; [|done]|].
      * intros Hin. apply (Hn _ Hin). set_solver.
      * intros s' [->|Hin]%elem_of_cons; [done|]. specialize (Hn _ Hin). set_solver.
    + intros [[Hs' Hd] Hn]. split; [done|]. intros s' Hin. specialize (Hn s' ltac:(by right)). set_solver.
Qed.

Lemma duplicate_free_ok table : duplicate_free table = Ok tt <-> NoDup table.
Proof. unfold duplicate_free. rewrite duplicate_free_from_ok. set_solver. Qed.

Lemma strict_row_ok table row t t' :
  strict_row table row t = Ok t' <->
  row_total table row t = Some t' /\ Forall (fun r => width r <> 0%Z) row.
Proof.
  revert t. induction row as [|r row IH]; intros t; simpl.
  { split; [intros [= ->]; by split|by intros [[= ->] _]]. }
  rewrite Forall_cons. destruct (Z.eqb_spec (width r) 0) as [Hw|Hw]; simpl; [naive_solver|].
  destruct (Z.ltb_spec (style_index r) table), (Z.leb_spec table (style_index r)); try lia; simpl.
  - rewrite IH. tauto.
  - naive_solver.
Qed.

Lemma strict_rows_ok (table : list CellStyle) rows0 w w' :
  Forall (Forall typed_run) rows0 ->
  strict_rows (Z.of_nat (length table)) rows0 w = Ok w' <->
  (exists grid, expand_rows table rows0 w = Some (grid, w')) /\
  Forall (Forall (fun r => width r <> 0%Z)) rows0.
Proof.
  intros HF. revert w. induction HF as [|row rows0 Ht HF IH]; intros w; simpl.
  { split; [intros [= ->]; split; [by eexists|constructor]|by intros [(? & [= _ ->]) _]]. }
  rewrite Forall_cons. split.
  - intros Hr. inv_ok. unbool. apply strict_row_ok in Hrun as [Htot Hw].
    destruct (row_total_expands _ _ _ _ Ht Htot) as [ex Hex]. rewrite Htot. cbn.
    do 2 rewrite option_guard_True by done. cbn. rewrite Hex. cbn.
    apply IH in Hr as [(grid & ->) Hws]. cbn. split; [by eexists|done].
  - intros [(grid & Hex) [Hw Hws]]. destruct (row_total _ row 0) as [total|] eqn:Et; [|done]. cbn in Hex.
    rewrite (proj2 (strict_row_ok _ _ _ _) (conj Et Hw)). cbn. repeat (case_guard; simplify_eq/=).
    rewrite (proj2 (Z.leb_le _ _)), (proj2 (Z.eqb_eq _ _)) by done. cbn.
    destruct (expand_row table row) as [ex|]; [|done]. cbn in Hex.
    destruct (expand_rows table rows0 _) as [[rest w1]|] eqn:Er; [|done]. injection Hex as <- <-.
    apply IH. split; [by eexists|done].
Qed.

Lemma strict_frame_spec (frame : PtyFrame) rows0 cols0 grid :
  typed_frame frame ->
  strict_frame frame = Ok (rows0, cols0, grid) <->
  cells frame = Some grid /\ NoDup (styles frame) /\
  Forall (Forall (fun r => width r <> 0%Z)) (rows frame) /\
  rows0 = Z.of_nat (length grid) /\ cols0 = grid_cols grid /\
  pty_grid_dimensions_are_bounded cols0 rows0 = true.
Proof.
  intros Ht. unfold strict_frame. cbn zeta. split.
  - intros Hr. inv_ok. simplify_eq. destruct r. apply duplicate_free_ok in Hrun.
    apply (strict_rows_ok (styles frame)) in Hrun1 as [(g & Hg) Hw]; [|done].
    destruct (cells_shaped _ _ Ht Hrun4) as (_ & Hl & Hex). rewrite Hex in Hg. injection Hg as <- <-.
    assert (default 0%Z match grid with [] => None | _ :: _ => Some (grid_cols grid) end = grid_cols grid)
      as Hc by (by destruct grid).
    rewrite Hc, Hl in *. unfold bounded_grid in Hrun2. inv_ok. by split_and!.
  - intros (Hc & Hd & Hw & -> & -> & Hb). rewrite (proj2 (duplicate_free_ok _) Hd). cbn.
    destruct (cells_shaped _ _ Ht Hc) as ([Hr _ _ Hcur] & Hl & Hex). rewrite <-Hl.
    rewrite (proj2 (Z.leb_le _ _) Hr). cbn.
    rewrite (proj2 (strict_rows_ok (styles frame) _ _ _ Ht) (conj (ex_intro _ _ Hex) Hw)). cbn.
    replace (default 0%Z match grid with [] => None | _ :: _ => Some (grid_cols grid) end) with (grid_cols grid)
      by (by destruct grid).
    unfold bounded_grid. by rewrite Hb, Hcur, Hc.
Qed.

(** The kernel's strict decoder accepts exactly the frames that
    expand, intern no style twice, have no empty run and fit the grid bounds, and
    answers the grid the tolerant expansion gives. *)
Theorem strict_decode_refines_expansion (frame : PtyFrame) rows0 cols0 grid :
  typed_frame frame ->
  strict_frame frame = Ok (rows0, cols0, grid) <->
  cells frame = Some grid /\ NoDup (styles frame) /\
  Forall (Forall (fun r => width r <> 0%Z)) (rows frame) /\
  rows0 = Z.of_nat (length grid) /\ cols0 = grid_cols grid /\
  pty_grid_dimensions_are_bounded cols0 rows0 = true.
Proof. apply strict_frame_spec. Qed.

(** ** The size of a blank screen *)

(** serde_json writes an array as its elements between brackets, with commas
    between them. *)
Definition json_array (lens : list Z) : Z :=
  (2 + foldr Z.add 0 lens + Z.max 0 (Z.of_nat (length lens) - 1))%Z.

(** The derived encoding of a frame without a cursor, which is skipped:
    an object with the members styles and rows. *)
Class PtyJsonLaws `{PtyJson} : Prop := {
  frame_json_shape frame : cursor frame = None ->
    frame_json_len frame =
      Some (10 + json_array (style_json_len <$> styles frame) + 8
            + json_array ((fun row => json_array (run_json_len <$> row)) <$> rows frame) + 1)%Z;
  style_json_pos s : (0 <= style_json_len s)%Z;
  run_json_pos r : (0 <= run_json_len r)%Z;
}.

Lemma json_array_replicate n k :
  (0 < n)%nat -> json_array (replicate n k) = (1 + Z.of_nat n * (k + 1))%Z.
Proof.
  intros Hn. unfold json_array. rewrite length_replicate.
  assert (foldr Z.add 0%Z (replicate n k) = Z.of_nat n * k)%Z as ->; [|lia].
  clear. induction n as [|n IH]; simpl replicate; simpl foldr; [done|]. rewrite IH. lia.
Qed.

Lemma json_array_nil : json_array [] = 2%Z.
Proof. done. Qed.
Lemma json_array_one k : json_array [k] = (2 + k)%Z.
Proof. unfold json_array. simpl. lia. Qed.

(** What interning makes of a blank screen. *)
Lemma blank_frame rows0 cols0 :
  (0 <= rows0 <= u16_max)%Z -> (0 <= cols0 <= u16_max)%Z ->
  from_cells (blank_grid rows0 cols0) None =
  {| styles := if (rows0 =? 0)%Z || (cols0 =? 0)%Z then [] else [blank_style];
     rows := replicate (Z.to_nat rows0) (if (cols0 =? 0)%Z then [] else [Fill 0 " " cols0]);
     cursor := None |}.
Proof.
  intros Hr Hc. set (F := {| styles := _; rows := _; cursor := None |}).
  change None with (cursor F) at 1. apply cells_back.
  - split; simpl.
    + destruct (_ || _); [constructor|apply NoDup_singleton].
    + destruct (Z.eqb_spec rows0 0) as [->|Hr0]; [done|]. destruct (Z.eqb_spec cols0 0) as [->|Hc0]; simpl.
      * clear. by induction (Z.to_nat rows0).
      * destruct (Z.to_nat rows0) as [|n] eqn:E; [lia|]. cbn. clear. induction n as [|n IH]; [done|]. cbn. exact IH.
    + apply Forall_replicate. destruct (Z.eqb_spec cols0 0); [done|]. apply Z.leb_le. lia.
  - assert (Forall2 (fun row runs => expand_row (styles F) runs = Some row /\
              row_total (Z.of_nat (length (styles F))) runs 0 = Some (Z.of_nat (length row)))
              (blank_grid rows0 cols0) (rows F)) as HF.
    { unfold blank_grid, F. cbn [rows styles]. destruct (Z.eqb_spec rows0 0) as [->|Hr0]; [constructor|].
      apply Forall2_replicate. destruct (Z.eqb_spec cols0 0) as [->|Hc0]; [done|].
      split; [simpl; by rewrite app_nil_r|]. simpl. rewrite length_replicate. f_equal. lia. }
    unfold cells. replace (length (rows F)) with (Z.to_nat rows0) by (simpl; by rewrite length_replicate).
    rewrite option_guard_True by lia. cbn [mbind option_bind].
    rewrite (expand_rows_spec _ _ _ cols0 None HF); [|apply Forall_replicate; rewrite length_replicate; lia|lia|done].
    cbn. by rewrite option_guard_True.
Qed.

(** The arithmetic size of a blank screen is the size of the frame
    that would be sent for it. *)
Theorem blank_size_is_exact `{PtyJsonLaws} rows0 cols0 n :
  (0 <= rows0 <= u16_max)%Z -> (0 <= cols0 <= u16_max)%Z ->
  frame_json_len (from_cells (blank_grid rows0 cols0) None) = Some n -> (n <= u64_max)%Z ->
  blank_grid_bytes rows0 cols0 = n.
Proof.
  intros Hr Hc. rewrite blank_frame, frame_json_shape by done. cbn [styles rows].
  pose proof (style_json_pos blank_style). pose proof (run_json_pos (Fill 0 " " cols0)).
  rewrite fmap_replicate. unfold blank_grid_bytes, saturating_u64.
  destruct (Z.eqb_spec rows0 0) as [->|Hr0]; [by intros [= <-]|].
  destruct (Z.eqb_spec cols0 0) as [->|Hc0]; cbn [orb]; rewrite json_array_replicate by lia;
    cbn [fmap list_fmap]; rewrite ?json_array_one, ?json_array_nil, Z2Nat.id by lia; intros [= <-]; lia.
Qed.
