(* ===== verification/Streams.v ===== *)
(** * What the hub promises its consumers (gwk-kernel/src/wire/pty.rs)

    The invariant of a session and of the hub, kept by every verb; what an
    attach delivers, over any later history of the same life; that a snapshot
    shows the mirror; that a generation is never used twice. *)

From S2P Require Import Prelude Text Command Screen Hub.

(** ** Typed input *)


Definition typed_delta (d : PtyDelta) : Prop :=
  match d with
  | Resized rows0 cols0 => is_u16 rows0 /\ is_u16 cols0
  | CellsChanged _ _ => True
  end.

(** Integers of a verb are unsigned, as their types say; the clients of the
    control registry name no type the invariant depends on. *)
Definition typed (v : HubVerb) : Prop :=
  match v with
  | PublishSnapshot _ _ seq frame => typed_frame frame /\ (forall q, seq = Some q -> is_u64 q)
  | PublishDeltas _ _ seq deltas => is_u64 seq /\ Forall typed_delta deltas
  | PublishRawSnapshot _ _ seq _ _ _ => forall q, seq = Some q -> is_u64 q
  | _ => True
  end.

(** ** The invariant of a session *)

Definition window_bytes (l : list (PtyBatch * Z)) : Z := foldr (fun p n => (p.2 + n)%Z) 0%Z l.

Record stream_inv (s : Session) : Prop := {
  (** The window is the end of what was sent; the rest is behind the horizon. *)
  st_window : exists dropped, s_live s = dropped ++ (fst <$> s_retained s) /\
    forall b, b ∈ dropped -> exists e, s_evicted_through s = Some e /\ (b_seq b <= e)%Z;
  st_rising : increasing_from b_seq (-1) (s_live s);
  st_horizon : forall b e, b ∈ fst <$> s_retained s -> s_evicted_through s = Some e -> (e < b_seq b)%Z;
  st_head : s_seq s = match last (s_live s) with Some b => Some (b_seq b) | None => s_evicted_through s end;
  st_below : forall e, s_evicted_through s = Some e ->
    (0 <= e)%Z /\ exists head, s_seq s = Some head /\ (e <= head)%Z;
  st_bytes : s_retained_bytes s = window_bytes (s_retained s);
  st_bounds : (Z.of_nat (length (s_retained s)) <= RETAINED_BATCHES)%Z /\
              (s_retained_bytes s <= RETAINED_BYTES)%Z;
  (** The newest batch stays. *)
  st_newest : s_live s <> [] -> s_retained s <> [];
}.

(** The mirror is a screen the wire can carry. *)
Record mirror_inv (s : Session) : Prop := {
  mi_shaped : shaped (s_cells s) (s_cursor s);
  mi_bounded : pty_grid_dimensions_are_bounded (grid_cols (s_cells s))
                 (Z.of_nat (length (s_cells s))) = true;
}.

(** The raw stream is contiguous from its snapshot, and nothing of it is lost. *)
Definition raw_inv (s : Session) : Prop :=
  s_raw_live s = s_raw_retained s /\
  s_raw_retained_bytes s = foldr (fun d n => (raw_delivery_bytes d + n)%Z) 0%Z (s_raw_retained s) /\
  (Z.of_nat (length (s_raw_retained s)) <= RAW_RETAINED_EVENTS)%Z /\
  (s_raw_retained_bytes s <= RAW_RETAINED_BYTES)%Z /\
  match s_raw_snapshot s with
  | None => s_raw_retained s = [] /\ s_raw_seq s = None
  | Some snap =>
      let start := match raw_delivery_seq snap with Some q => (q + 1)%Z | None => 0%Z end in
      (0 <= start)%Z /\
      raw_delivery_seq <$> s_raw_retained s =
        Some <$> seqZ start (Z.of_nat (length (s_raw_retained s))) /\
      s_raw_seq s = match last (s_raw_retained s) with
                    | Some d => raw_delivery_seq d
                    | None => raw_delivery_seq snap
                    end
  end.

Record session_inv (s : Session) : Prop := {
  se_stream : stream_inv s;
  se_mirror : mirror_inv s;
  se_raw : raw_inv s;
}.

(** ** The window *)

Lemma window_bytes_app l k : window_bytes (l ++ k) = (window_bytes l + window_bytes k)%Z.
Proof. induction l as [|p l IH]; simpl; [done|]. rewrite IH. lia. Qed.

Lemma evict_spec retained bytes evicted q n e :
  bytes = window_bytes retained -> evict retained bytes evicted = (q, n, e) ->
  exists dropped, retained = dropped ++ q /\ n = window_bytes q /\
    (Z.of_nat (length q) <= RETAINED_BATCHES)%Z /\ (n <= RETAINED_BYTES)%Z /\
    e = match last dropped with Some p => Some (b_seq p.1) | None => evicted end.
Proof.
  revert bytes evicted. induction retained as [|[b k] retained IH]; intros bytes evicted ->.
  { intros [= <- <- <-]. exists []. by split_and!. }
  cbn [evict]. destruct (_ || _) eqn:E.
  - intros He. apply IH in He as (dropped & -> & Hn & Hl & Hb & ->); [|simpl; lia].
    exists ((b, k) :: dropped). split_and!; try done. destruct dropped as [|p dropped]; [done|].
    rewrite last_cons_cons. destruct (last (p :: dropped)) eqn:El; [done|]. by apply last_None in El.
  - intros [= <- <- <-]. unbool. exists []. split_and!; try done; apply Z.ltb_ge; done.
Qed.

(** The last batch of a bounded list is not evicted when it fits by itself. *)
Lemma evict_keeps_last retained b k bytes evicted q n e :
  bytes = window_bytes (retained ++ [(b, k)]) -> (k <= RETAINED_BYTES)%Z ->
  evict (retained ++ [(b, k)]) bytes evicted = (q, n, e) -> last q = Some (b, k).
Proof.
  revert bytes evicted. induction retained as [|[b' k'] retained IH]; intros bytes evicted -> Hk.
  { simpl. rewrite Z.add_0_r. rewrite (proj2 (Z.ltb_ge _ _)) by done.
    by intros [= <- <- <-]. }
  cbn [app evict]. destruct (_ || _).
  - intros He. eapply IH; [|done|exact He]. simpl. lia.
  - intros [= <- <- <-]. rewrite app_comm_cons. by rewrite last_snoc.
Qed.

Lemma increasing_before {A} (f : A -> Z) lo l k x y :
  increasing_from f lo (l ++ k) -> x ∈ l -> y ∈ k -> (f x < f y)%Z.
Proof.
  intros [_ Hk]%increasing_app Hx Hy. pose proof (increasing_lower _ _ _ _ Hk Hy).
  pose proof (max_of_in f lo l x Hx). lia.
Qed.

Lemma increasing_last {A} (f : A -> Z) lo l x y :
  increasing_from f lo l -> last l = Some y -> x ∈ l -> (f x <= f y)%Z.
Proof.
  intros Hi (l' & ->)%last_Some [Hx| ->%list_elem_of_singleton]%elem_of_app; [|done].
  apply Z.lt_le_incl, (increasing_before _ _ _ _ _ _ Hi Hx), list_elem_of_singleton. done.
Qed.

Lemma live_below_head s b :
  stream_inv s -> b ∈ s_live s -> exists head, s_seq s = Some head /\ (b_seq b <= head)%Z.
Proof.
  intros [_ Hr _ Hh _ _ _ _] Hb. destruct (last (s_live s)) as [x|] eqn:E.
  - exists (b_seq x). split; [done|]. by eapply increasing_last.
  - apply last_None in E. rewrite E in Hb. by apply elem_of_nil in Hb.
Qed.

(** A batch past the head keeps the invariant. *)
Lemma publish_stream s batch bytes grid c :
  stream_inv s -> (0 <= b_seq batch)%Z -> (forall head, s_seq s = Some head -> (head < b_seq batch)%Z) ->
  (bytes <= RETAINED_BYTES)%Z ->
  stream_inv (publish batch bytes (with_screen (Some (b_seq batch)) grid c s)).
Proof.
  intros Hs H0 Hnew Hb. unfold publish. cbn [s_retained s_retained_bytes s_evicted_through with_screen].
  destruct (evict _ _ _) as [[q n] e] eqn:Ee. pose proof Hs as [(dr & Hlive & Hdr) Hr Hhor Hh Hbel Hby Hbd Hne].
  pose proof Ee as Ek. apply evict_spec in Ee as (dropped & Hsplit & Hn & Hl & Hb' & He);
    [|rewrite window_bytes_app, Hby; simpl; lia].
  apply evict_keeps_last in Ek; [|rewrite window_bytes_app, Hby; simpl; lia|done].
  assert (s_live s ++ [batch] = (dr ++ (fst <$> dropped)) ++ (fst <$> q)) as Hall.
  { rewrite <-app_assoc, <-fmap_app, <-Hsplit, fmap_app, app_assoc, <-Hlive. done. }
  assert (increasing_from b_seq (-1) (s_live s ++ [batch])) as Hrise.
  { apply increasing_app. split; [done|]. split; [|done]. apply Z.le_lt_trans with (b_seq batch - 1)%Z; [|lia].
    apply max_of_upper; [lia|]. intros b Hb1. destruct (live_below_head _ _ Hs Hb1) as (h & Hh1 & Hle).
    specialize (Hnew _ Hh1). lia. }
  assert (forall e0, s_evicted_through s = Some e0 -> forall b, b ∈ (fst <$> dropped) ++ (fst <$> q) ->
            (e0 < b_seq b)%Z) as Hlow.
  { intros e0 He0 b. rewrite <-fmap_app, <-Hsplit, fmap_app, elem_of_app.
    intros [Hin| ->%list_elem_of_singleton]; [by eapply Hhor|].
    destruct (Hbel _ He0) as (_ & h & Hh1 & Hle). specialize (Hnew _ Hh1). simpl. lia. }
  assert (forall p, last dropped = Some p -> p.1 ∈ fst <$> dropped) as Hld.
  { intros p (l' & ->)%last_Some. rewrite fmap_app. apply elem_of_app. right. by apply list_elem_of_singleton. }
  split; cbn [s_live s_retained s_evicted_through s_seq s_retained_bytes].
  - exists (dr ++ (fst <$> dropped)). split; [done|]. intros b Hin.
    destruct (last dropped) as [p|] eqn:El.
    + exists (b_seq p.1). split; [done|]. apply elem_of_app in Hin as [Hin|Hin].
      * destruct (Hdr _ Hin) as (e0 & He0 & Hle). pose proof (Hlow _ He0 p.1) as Hlt.
        specialize (Hlt ltac:(apply elem_of_app; left; by apply Hld)). lia.
      * rewrite Hall in Hrise. apply increasing_app in Hrise as [Hrise _].
        apply increasing_app in Hrise as [_ Hrise].
        eapply (increasing_last b_seq); [exact Hrise|by rewrite fmap_last, El|done].
    + apply last_None in El as ->. rewrite app_nil_r in Hin. subst e. by apply Hdr.
  - done.
  - intros b e1 Hin He1. destruct (last dropped) as [p|] eqn:El; subst e.
    + injection He1 as <-. rewrite Hall in Hrise. eapply increasing_before; [exact Hrise| |done].
      apply elem_of_app. right. by apply Hld.
    + eapply Hlow; [exact He1|]. apply elem_of_app. by right.
  - by rewrite last_snoc.
  - intros e1 He1. destruct (last dropped) as [p|] eqn:El; subst e.
    + injection He1 as <-. specialize (Hld p eq_refl).
      assert (p.1 ∈ s_live s ++ [batch]) as Hin by (rewrite Hall; set_solver).
      split; [pose proof (increasing_lower _ _ _ _ Hrise Hin); lia|]. exists (b_seq batch). split; [done|].
      eapply (increasing_last b_seq); [exact Hrise|by rewrite last_snoc|done].
    + destruct (Hbel _ He1) as (? & h & Hh1 & Hle). split; [done|]. exists (b_seq batch). split; [done|].
      specialize (Hnew _ Hh1). lia.
  - done.
  - by split.
  - intros _ ->. discriminate Ek.
Qed.

(** ** The mirror *)

Lemma as_u16_small n : is_u16 n -> as_u16 n = n.
Proof. unfold is_u16. intros Hn. apply Z.mod_small. lia. Qed.

Lemma shaped_size s :
  shaped (s_cells s) (s_cursor s) ->
  session_size s = (grid_cols (s_cells s), Z.of_nat (length (s_cells s))).
Proof.
  intros [Hr _ Hc _]. unfold session_size. rewrite (as_u16_small (Z.of_nat (length (s_cells s)))) by (split; [lia|done]).
  destruct (s_cells s) as [|row g]; [done|]. simpl in *. by rewrite as_u16_small by (split; [lia|done]).
Qed.

Lemma apply_update_lengths table grid u : length <$> apply_update table grid u = length <$> grid.
Proof.
  unfold apply_update. destruct (table !! _) as [s|]; [|done].
  generalize (Z.to_nat (up_row u)) as n. induction grid as [|row grid IH]; intros n; [done|].
  destruct n as [|n]; cbn [alter list_alter fmap list_fmap]; [by rewrite length_insert|].
  f_equal. apply IH.
Qed.

Lemma apply_updates_lengths table updates grid :
  length <$> foldl (apply_update table) grid updates = length <$> grid.
Proof.
  revert grid. induction updates as [|u updates IH]; intros grid; [done|]. simpl.
  by rewrite IH, apply_update_lengths.
Qed.

Lemma same_lengths (g g' : list (list StyledCell)) :
  length <$> g = length <$> g' ->
  length g = length g' /\ grid_cols g = grid_cols g' /\
  forall c, Forall (fun row => Z.of_nat (length row) = c) g -> Forall (fun row => Z.of_nat (length row) = c) g'.
Proof.
  revert g'. induction g as [|row g IH]; intros [|row' g'] Hl; try done. injection Hl as Hr Hl.
  apply IH in Hl as (Hlen & _ & HF). split; [simpl; by rewrite Hlen|]. split; [simpl; by rewrite Hr|].
  intros c Hc. inversion Hc; subst. constructor; [by rewrite Hr|by apply HF].
Qed.

Lemma shaped_lengths g g' c : length <$> g = length <$> g' -> shaped g c -> shaped g' c.
Proof.
  intros (Hl & Hc & HF)%same_lengths [H1 H2 H3 H4]. rewrite Hl, Hc in *. split; try done. by apply HF.
Qed.

Lemma blank_grid_shaped rows0 cols0 :
  is_u16 rows0 -> is_u16 cols0 -> pty_grid_dimensions_are_bounded cols0 rows0 = true ->
  shaped (blank_grid rows0 cols0) None /\ grid_cols (blank_grid rows0 cols0) = cols0 /\
  Z.of_nat (length (blank_grid rows0 cols0)) = rows0.
Proof.
  intros Hr Hc Hb. unfold is_u16 in *. unfold pty_grid_dimensions_are_bounded in Hb. unbool.
  assert (Z.of_nat (length (blank_grid rows0 cols0)) = rows0) as Hl
    by (unfold blank_grid; rewrite length_replicate; lia).
  assert (grid_cols (blank_grid rows0 cols0) = cols0) as Hg.
  { unfold blank_grid. destruct (Z.to_nat rows0) eqn:E; [lia|]. simpl. rewrite length_replicate. lia. }
  split; [|done]. split; rewrite ?Hg, ?Hl; [lia| |lia|done].
  apply Forall_replicate. rewrite length_replicate. lia.
Qed.

Section Hub.
Context `{PJ : PtyJson}.

Lemma deltas_mirror deltas grid c :
  Forall typed_delta deltas -> shaped grid c ->
  pty_grid_dimensions_are_bounded (grid_cols grid) (Z.of_nat (length grid)) = true ->
  check_deltas (grid_cols grid) (Z.of_nat (length grid)) deltas = Ok tt ->
  shaped (foldl apply_delta grid deltas) (if existsb clears_cursor deltas then None else c) /\
  pty_grid_dimensions_are_bounded (grid_cols (foldl apply_delta grid deltas))
    (Z.of_nat (length (foldl apply_delta grid deltas))) = true.
Proof.
  intros HF. revert grid c. induction HF as [|d deltas Hd HF IH]; intros grid c Hs Hb Hc; [done|].
  destruct d as [table updates|rows0 cols0]; cbn [check_deltas foldl existsb clears_cursor orb apply_delta] in *.
  - inv_ok. pose proof (apply_updates_lengths table updates grid) as Hl. symmetry in Hl.
    pose proof (shaped_lengths _ _ _ Hl Hs) as Hs'. destruct (same_lengths _ _ Hl) as (Hlen & Hcols & _).
    apply IH; [done|by rewrite <-Hcols, <-Hlen|]. by rewrite <-Hcols, <-Hlen.
  - inv_ok. unfold bounded_grid in Hrun. inv_ok. destruct Hd as [Hr Hcl].
    destruct (blank_grid_shaped _ _ Hr Hcl Hrun) as (Hs' & Hg & Hl).
    destruct (IH (blank_grid rows0 cols0) None) as [H1 H2];
      rewrite ?Hg, ?Hl; try done.
    split; [|done]. by destruct (existsb clears_cursor deltas).
Qed.

(** ** Every verb keeps the invariant *)

Lemma stream_screen s grid c : stream_inv s -> stream_inv (with_screen (s_seq s) grid c s).
Proof. by intros []. Qed.

Lemma raw_screen s seq grid c : raw_inv s -> raw_inv (with_screen seq grid c s).
Proof. done. Qed.
Lemma raw_publish s b n : raw_inv s -> raw_inv (publish b n s).
Proof. unfold publish. by destruct (evict _ _ _) as [[? ?] ?]. Qed.
Lemma mirror_publish s b n : mirror_inv s -> mirror_inv (publish b n s).
Proof. unfold publish. destruct (evict _ _ _) as [[? ?] ?]. by intros []. Qed.
Lemma mirror_screen s seq grid c :
  shaped grid c -> pty_grid_dimensions_are_bounded (grid_cols grid) (Z.of_nat (length grid)) = true ->
  mirror_inv (with_screen seq grid c s).
Proof. by split. Qed.
Lemma stream_raw s snap seq l n k : stream_inv s -> stream_inv (with_raw snap seq l n k s).
Proof. by intros []. Qed.
Lemma mirror_raw s snap seq l n k : mirror_inv s -> mirror_inv (with_raw snap seq l n k s).
Proof. by intros []. Qed.

Lemma claimed_inv conn gen seq grid c :
  shaped grid c -> pty_grid_dimensions_are_bounded (grid_cols grid) (Z.of_nat (length grid)) = true ->
  (forall q, seq = Some q -> is_u64 q) -> session_inv (claimed_session conn gen seq grid c).
Proof.
  intros Hs Hb Hq. split; [|by split|].
  - split; simpl; try done.
    + exists []. split; [done|]. by intros ? ?%elem_of_nil.
    + by intros ? ? ?%elem_of_nil.
    + intros e ->. split; [by apply (Hq e)|]. by exists e.
  - by split_and!.
Qed.

Lemma strict_frame_ok frame rows0 cols0 grid :
  typed_frame frame -> strict_frame frame = Ok (rows0, cols0, grid) ->
  shaped grid (cursor frame) /\ rows0 = Z.of_nat (length grid) /\ cols0 = grid_cols grid /\
  pty_grid_dimensions_are_bounded (grid_cols grid) (Z.of_nat (length grid)) = true.
Proof.
  intros Ht Hr. apply strict_frame_spec in Hr as (Hc & _ & _ & -> & -> & Hb); [|done].
  by destruct (cells_shaped _ _ Ht Hc) as (Hs & _).
Qed.

(** One life of a session, seen twice. *)
Record later (s s' : Session) : Prop := {
  la_generation : s_generation s' = s_generation s;
  la_owner : s_owner s' = s_owner s;
  la_live : exists sent, s_live s' = s_live s ++ sent /\
    (forall b head, b ∈ sent -> s_seq s = Some head -> (head < b_seq b)%Z) /\
    s_seq s' = match last sent with Some b => Some (b_seq b) | None => s_seq s end;
  la_raw : s_raw_live s `prefix_of` s_raw_live s';
  la_seeded : forall snap, s_raw_snapshot s = Some snap -> s_raw_snapshot s' = Some snap;
}.

#[export] Instance later_preorder : PreOrder later.
Proof.
  split.
  - intros s. split; try done.
    exists []. rewrite app_nil_r. split; [done|]. split; [by intros ? ? ?%elem_of_nil|done].
  - intros s1 s2 s3 [G1 O1 (k1 & L1 & A1 & Q1) R1 S1] [G2 O2 (k2 & L2 & A2 & Q2) R2 S2].
    split; [congruence|congruence| |by etrans|auto].
    exists (k1 ++ k2). rewrite L2, L1, app_assoc, Q2, Q1, last_app. split; [done|].
    split; [|by destruct (last k2), (last k1)].
    intros b head [Hb|Hb]%elem_of_app Hh; [by eapply A1|].
    destruct (last k1) as [b1|] eqn:E1; [|rewrite Hh in Q1; by eapply A2].
    assert (b1 ∈ k1) as Hb1 by (apply last_Some in E1 as (l & ->); set_solver).
    specialize (A1 _ _ Hb1 Hh). specialize (A2 _ _ Hb Q1). lia.
Qed.

(** The mirror moved by the batches that were sent, and by nothing else. *)
Definition apply_batch (grid : list (list StyledCell)) (b : PtyBatch) : list (list StyledCell) :=
  foldl apply_delta grid (b_deltas b).
Definition followed (s s' : Session) : Prop :=
  exists sent, s_live s' = s_live s ++ sent /\ s_cells s' = foldl apply_batch (s_cells s) sent.

#[export] Instance followed_preorder : PreOrder followed.
Proof.
  split.
  - intros s. exists []. by rewrite app_nil_r.
  - intros s1 s2 s3 (k1 & L1 & C1) (k2 & L2 & C2). exists (k1 ++ k2).
    by rewrite L2, L1, C2, C1, foldl_app, app_assoc.
Qed.

Lemma publish_live b n s : s_live (publish b n s) = s_live s ++ [b] /\ s_cells (publish b n s) = s_cells s.
Proof. unfold publish. by destruct (evict _ _ _) as [[? ?] ?]. Qed.

Lemma publish_later b n grid c s :
  (forall head, s_seq s = Some head -> (head < b_seq b)%Z) ->
  later s (publish b n (with_screen (Some (b_seq b)) grid c s)).
Proof.
  intros Hn. unfold publish. destruct (evict _ _ _) as [[? ?] ?]. split; try done; simpl.
  exists [b]. split; [done|]. split; [|done]. intros b' head ->%list_elem_of_singleton. apply Hn.
Qed.

(** *** The snapshot of a live session *)

Lemma within_budget_ok len n : within_budget len = Ok n -> (n <= RETAINED_BYTES)%Z.
Proof.
  unfold within_budget. intros Hr. inv_ok. unbool.
  assert (PUBLISH_BYTE_BUDGET <= RETAINED_BYTES)%Z by done. lia.
Qed.

Lemma reseed_inv conn seq rows0 cols0 grid c bytes s s' :
  session_inv s -> shaped grid c -> (bytes <= RETAINED_BYTES)%Z -> (forall q, seq = Some q -> is_u64 q) ->
  pty_grid_dimensions_are_bounded (grid_cols grid) (Z.of_nat (length grid)) = true ->
  reseed conn seq rows0 cols0 grid c bytes s = Ok s' -> session_inv s' /\ later s s'.
Proof.
  intros [Hst Hmi Hra] Hsh Hby Hq Hb. unfold reseed. cbn zeta. intros Hr. inv_ok.
  destruct (snapshot_advances (s_seq s) seq) eqn:Ea.
  - destruct seq as [q|]; [|by destruct (s_seq s)].
    assert (forall head, s_seq s = Some head -> (head < q)%Z) as Hn
      by (intros head Hh; rewrite Hh in Ea; simpl in *; by apply Z.ltb_lt).
    split; [|by apply (publish_later {| b_seq := q; b_deltas := _ |})].
    split; [|by apply mirror_publish, mirror_screen|by apply raw_publish, raw_screen].
    apply publish_stream; [done|by apply (Hq q)|done|done].
  - assert (seq = s_seq s) as ->.
    { unfold check_snapshot_seq, snapshot_advances in *. destruct (s_seq s), seq; try done. inv_ok.
      unbool. f_equal. lia. }
    cbn. split; [|split; try done; apply (reflexivity (R := later) s)].
    split; [by apply stream_screen|by apply mirror_screen|by apply raw_screen].
Qed.

(** *** What a verb may do to the sessions *)

Definition gen_text (epoch n : Z) : string :=
  Numeric.to_numeric_text epoch +:+ ":" +:+ Numeric.to_numeric_text n.

(** Nothing; one session moved on; one opened; some ended.  [snap] are the ids a
    snapshot was published for. *)
Inductive change (snap : string -> Prop) (h h' : PtyHub) : Prop :=
| change_none :
    h_sessions h' = h_sessions h -> h_generations h' = h_generations h -> change snap h h'
| change_moved id s s' :
    h_sessions h !! id = Some s -> h_sessions h' = <[id := s']> (h_sessions h) ->
    h_generations h' = h_generations h -> session_inv s' -> later s s' ->
    (~ snap id -> followed s s') -> change snap h h'
| change_opened id s :
    h_sessions h !! id = None -> size (h_sessions h) < MAX_SESSIONS ->
    h_sessions h' = <[id := s]> (h_sessions h) -> session_inv s ->
    h_generations h' = (h_generations h + 1)%Z -> (h_generations h' <= u64_max)%Z ->
    s_generation s = gen_text (h_writer_epoch h) (h_generations h') -> change snap h h'
| change_ended :
    h_sessions h' ⊆ h_sessions h -> h_generations h' = h_generations h -> change snap h h'.

Definition no_snap : string -> Prop := fun _ => False.

Lemma publish_snapshot_change conn id seq frame h r h' :
  (forall id s, h_sessions h !! id = Some s -> session_inv s) ->
  typed_frame frame -> (forall q, seq = Some q -> is_u64 q) ->
  publish_snapshot conn id seq frame h = Ok (r, h') ->
  change (eq id) h h' /\ h_writer_epoch h' = h_writer_epoch h.
Proof.
  intros Hinv Ht Hq. unfold publish_snapshot. intros Hr.
  apply bind_ok_iff in Hr as ([[rows0 cols0] grid] & Hrun & Hr). apply bind_ok_iff in Hr as (bytes & Hrun0 & Hr).
  apply strict_frame_ok in Hrun as (Hs & -> & -> & Hb); [|done].
  apply within_budget_ok in Hrun0. destruct (h_sessions h !! id) as [s|] eqn:E; inv_ok; simplify_eq.
  - apply reseed_inv in Hrun as [Hs' Hl]; [|by eapply Hinv|done..].
    split; [|done]. by eapply change_moved.
  - match goal with H : next_generation _ = Ok _ |- _ => unfold next_generation in H end. inv_ok. simplify_eq.
    match goal with H : checked_add _ _ _ = Some _ |- _ => apply checked_add_some in H as [-> Hmax] end.
    split; [|done].
    eapply (change_opened _ _ _ id); simpl; try done; [by apply Nat.ltb_lt|by apply claimed_inv].
Qed.

Lemma publish_deltas_change conn id seq deltas h h' :
  (forall id s, h_sessions h !! id = Some s -> session_inv s) ->
  is_u64 seq -> Forall typed_delta deltas ->
  publish_deltas conn id seq deltas h = Ok h' ->
  change no_snap h h' /\ h_writer_epoch h' = h_writer_epoch h.
Proof.
  intros Hinv Hq Ht. unfold publish_deltas. cbn zeta. intros Hr. apply bind_ok_iff in Hr as (bytes & Hby & Hr).
  apply within_budget_ok in Hby. apply bind_ok_iff in Hr as (s & Hs & Hr). apply ok_or_ok_iff in Hs.
  apply bind_ok_iff in Hr as (_ & _ & Hr). apply bind_ok_iff in Hr as ([] & Hhead & Hr).
  destruct (Hinv _ _ Hs) as [Hst [Hsh Hbd] Hra]. rewrite (shaped_size _ Hsh) in Hr.
  apply bind_ok_iff in Hr as ([] & Hchk & Hr). injection Hr as <-.
  destruct (deltas_mirror _ _ _ Ht Hsh Hbd Hchk) as [Hsh' Hbd'].
  assert (forall head, s_seq s = Some head -> (head < seq)%Z) as Hn
    by (intros head Hh; rewrite Hh in Hhead; inv_ok; by apply Z.ltb_lt).
  split; [|done]. eapply change_moved; [done|simpl; done|done| |
    by apply (publish_later {| b_seq := seq; b_deltas := deltas |})|].
  - split; [|by apply mirror_publish, mirror_screen|by apply raw_publish, raw_screen].
    apply publish_stream; [done|by apply Hq|done|done].
  - intros _. exists [{| b_seq := seq; b_deltas := deltas |}]. cbn [foldl].
    destruct (publish_live {| b_seq := seq; b_deltas := deltas |} bytes
      (with_screen (Some seq) (foldl apply_delta (s_cells s) deltas)
         (if existsb clears_cursor deltas then None else s_cursor s) s)) as [-> ->]. done.
Qed.

Lemma followed_raw s snap seq l n k : followed s (with_raw snap seq l n k s).
Proof. exists []. by rewrite app_nil_r. Qed.

Lemma publish_raw_snapshot_change conn id seq rows0 cols0 bytes h h' :
  (forall id s, h_sessions h !! id = Some s -> session_inv s) ->
  (forall q, seq = Some q -> is_u64 q) ->
  publish_raw_snapshot conn id seq rows0 cols0 bytes h = Ok h' ->
  change no_snap h h' /\ h_writer_epoch h' = h_writer_epoch h.
Proof.
  intros Hinv Hq. unfold publish_raw_snapshot. cbn zeta. intros Hr. inv_ok. unbool. subst.
  match goal with Hs : h_sessions h !! id = Some ?s |- _ =>
    pose proof (Hinv _ _ Hs) as [Hst Hmi (Hl & Hb & Hn & Hbd & Hsn)]; rename s into s0 end.
  match goal with Hn : s_raw_snapshot s0 = None |- _ => rewrite Hn in Hsn; destruct Hsn as [Hnil Hrs] end.
  rewrite Hnil in *. split; [|done]. eapply change_moved; [done|done|done| | |intros _; apply followed_raw].
  - split; [by apply stream_raw|by apply mirror_raw|]. unfold raw_inv. simpl. rewrite Hl.
    split_and!; try done. destruct (s_seq s0) as [q|]; [|done]. pose proof (Hq q eq_refl) as [? _]. lia.
  - destruct (reflexivity (R := later) s0). split; try done. simpl. intros snap Hsnap. congruence.
Qed.

Lemma publish_raw_change conn id d h h' :
  (forall id s, h_sessions h !! id = Some s -> session_inv s) ->
  publish_raw conn id d h = Ok h' ->
  change no_snap h h' /\ h_writer_epoch h' = h_writer_epoch h.
Proof.
  intros Hinv. unfold publish_raw. cbn zeta. intros Hr. inv_ok. unbool.
  match goal with Hs : h_sessions h !! id = Some ?s |- _ =>
    pose proof (Hinv _ _ Hs) as [Hst Hmi (Hl & Hb & Hn & Hbd & Hsn)]; rename s into s0 end.
  subst. split; [|done]. eapply change_moved; [done|done|done| | |intros _; apply followed_raw].
  2: { destruct (reflexivity (R := later) s0). split; try done. by eexists. }
  split; [by apply stream_raw|by apply mirror_raw|]. unfold raw_inv. cbn zeta. simpl.
  destruct (s_raw_snapshot s0) as [snap|] eqn:Esnap; [|done]. destruct Hsn as (Hstart & Hseqs & Hhead).
  split; [by rewrite Hl|]. split; [|split; [|split; [done|split; [done|split]]]].
  - rewrite foldr_app. simpl. rewrite Hb. clear.
    induction (s_raw_retained s0) as [|x l IH]; simpl; [lia|]. rewrite <-IH. lia.
  - rewrite length_app. simpl. lia.
  - rewrite fmap_app, Hseqs, length_app. simpl. rewrite Nat2Z.inj_add, seqZ_app by lia. rewrite fmap_app.
    f_equal. change (seqZ ?a (Z.of_nat 1)) with [(0 + a)%Z]. simpl. f_equal.
    match goal with H : raw_delivery_seq d = Some ?q |- _ => rewrite H; f_equal end.
    destruct (s_raw_retained s0) as [|x l _] using rev_ind.
    + simpl in *. rewrite Hhead in *. destruct (raw_delivery_seq snap); inv_ok; [|simpl; lia].
      match goal with H : checked_add _ _ _ = Some _ |- _ => apply checked_add_some in H end. lia.
    + rewrite last_snoc in Hhead. rewrite length_app in Hseqs |- *. cbn [length] in *.
      rewrite Nat2Z.inj_add, seqZ_app, !fmap_app in Hseqs by lia.
      apply app_inj_2 in Hseqs as [_ Hx]; [|by rewrite !length_fmap]. 
      change (seqZ ?a (Z.of_nat 1)) with [(0 + a)%Z] in Hx. injection Hx as Hx. rewrite Hx in Hhead.
      rewrite Hhead in *. inv_ok.
      match goal with H : checked_add _ _ _ = Some _ |- _ => apply checked_add_some in H end. lia.
  - by rewrite last_snoc.
Qed.

(** The ids a verb publishes a snapshot for. *)
Definition snaps (v : HubVerb) (id : string) : Prop :=
  match v with PublishSnapshot _ id' _ _ => id' = id | _ => False end.

Lemma finish_same owner d a h :
  h_sessions (deliver_finish owner d a h).2 = h_sessions h /\
  h_generations (deliver_finish owner d a h).2 = h_generations h /\
  h_writer_epoch (deliver_finish owner d a h).2 = h_writer_epoch h.
Proof. unfold deliver_finish. destruct a as [[[]|e]| |]; simpl; try destruct (pr_indeterminate e); done. Qed.

Lemma exec_change h v :
  (forall id s, h_sessions h !! id = Some s -> session_inv s) -> typed v ->
  change (snaps v) h (exec h v) /\ h_writer_epoch (exec h v) = h_writer_epoch h.
Proof.
  intros Hinv Ht.
  assert (forall h', h_sessions h' = h_sessions h -> h_generations h' = h_generations h ->
            h_writer_epoch h' = h_writer_epoch h ->
            change (snaps v) h h' /\ h_writer_epoch h' = h_writer_epoch h) as Hsame
    by (intros; split; [by apply change_none|done]).
  assert (forall m h', h' = with_sessions m h -> m ⊆ h_sessions h ->
            change (snaps v) h h' /\ h_writer_epoch h' = h_writer_epoch h) as Hend
    by (intros m h' -> Hm; split; [by apply change_ended|done]).
  destruct v; cbn [exec] in *; try (by apply Hsame); unfold settle.
  - unfold register_connection. destruct start; by apply Hsame.
  - destruct (publish_snapshot _ _ _ _ _) as [[r h']|] eqn:E; [|by apply Hsame].
    destruct Ht as [Ht Hq]. by eapply publish_snapshot_change.
  - destruct (publish_deltas _ _ _ _ _) as [h'|] eqn:E; [|by apply Hsame].
    destruct Ht as [Hq Ht]. by eapply publish_deltas_change.
  - destruct (publish_raw_snapshot _ _ _ _ _ _ _) as [h'|] eqn:E; [|by apply Hsame].
    by eapply publish_raw_snapshot_change.
  - unfold publish_raw_output. destruct (ensure _ _) as [[]|]; [|by apply Hsame]. cbn [mbind result_bind].
    destruct (publish_raw _ _ _ _) as [h'|] eqn:E; [|by apply Hsame]. by eapply publish_raw_change.
  - unfold publish_raw_resize. destruct (publish_raw _ _ _ _) as [h'|] eqn:E; [|by apply Hsame].
    by eapply publish_raw_change.
  - destruct (retire conn id h) as [[g h']|] eqn:E; [|by apply Hsame]. unfold retire in E. inv_ok.
    simplify_eq. by eapply Hend; [done|apply delete_subseteq].
  - split; [|done]. apply change_ended; [|done]. simpl. apply map_filter_subseteq.
  - destruct (deliver_to_session _ _ _ _ _ _) as [[ch h']|] eqn:E; [|by apply Hsame].
    unfold deliver_to_session, enqueue in E. inv_ok. simplify_eq. by apply Hsame.
  - destruct (deliver_to_manager _ _ _ _) as [r|] eqn:E; [|by apply Hsame].
    unfold deliver_to_manager, enqueue in E. inv_ok. destruct (bool_decide _); inv_ok; simplify_eq; by apply Hsame.
  - apply Hsame; apply (finish_same owner delivery_id a h).
  - unfold deliver_start_finish. destruct a, (h_pending h !! delivery_id); try (by apply Hsame);
      apply Hsame; apply finish_same.
  - destruct (take_delivery_ack _ _ _ _) as [[ch h']|] eqn:E; [|by apply Hsame].
    unfold take_delivery_ack in E. inv_ok. simplify_eq. by apply Hsame.
Qed.

(** ** The invariant of the hub *)

Record hub_inv (h : PtyHub) : Prop := {
  hi_sessions id s : h_sessions h !! id = Some s -> session_inv s;
  hi_count : size (h_sessions h) <= MAX_SESSIONS;
  hi_counter : (0 <= h_generations h <= u64_max)%Z;
  hi_epoch : is_u64 (h_writer_epoch h);
  hi_generations id s : h_sessions h !! id = Some s ->
    exists n, (1 <= n <= h_generations h)%Z /\ s_generation s = gen_text (h_writer_epoch h) n;
  hi_distinct id id' s s' : h_sessions h !! id = Some s -> h_sessions h !! id' = Some s' ->
    s_generation s = s_generation s' -> id = id';
}.

Lemma gen_text_inj epoch n m : (0 <= n)%Z -> (0 <= m)%Z -> gen_text epoch n = gen_text epoch m -> n = m.
Proof.
  intros Hn Hm He. unfold gen_text in He. apply (inj _) in He. injection He as He.
  by apply Numeric.to_numeric_text_inj.
Qed.

Lemma new_hub_inv epoch : is_u64 epoch -> hub_inv (new_hub epoch).
Proof.
  intros He. split; simpl; try done; intros *; rewrite ?lookup_empty; try done.
  rewrite map_size_empty. lia.
Qed.

Lemma change_inv snap h h' :
  hub_inv h -> change snap h h' -> h_writer_epoch h' = h_writer_epoch h -> hub_inv h'.
Proof.
  intros [Hs Hc Hg He Hgen Hd] Hch Hep. destruct Hch as [Es Eg|id s s' El Es Eg Hi Hl _|id s El Hlt Es Hi Eg Hm Ht|Es Eg].
  - split; rewrite ?Es, ?Eg, ?Hep; done.
  - split; rewrite ?Es, ?Eg, ?Hep; try done.
    + intros i x [[<- <-]|[_ Hx]]%lookup_insert_Some; [done|by eapply Hs].
    + by rewrite map_size_insert_Some.
    + intros i x [[<- <-]|[_ Hx]]%lookup_insert_Some; [|by eapply Hgen].
      destruct (Hgen _ _ El) as (n & Hn & Hn'). exists n. by rewrite (la_generation _ _ Hl).
    + intros i j x y [[<- <-]|[Hne Hx]]%lookup_insert_Some [[<- <-]|[Hne' Hy]]%lookup_insert_Some Hxy; try done.
      * rewrite (la_generation _ _ Hl) in Hxy. by apply (Hd _ _ _ _ El Hy).
      * rewrite (la_generation _ _ Hl) in Hxy. by apply (Hd _ _ _ _ Hx El).
      * by apply (Hd _ _ _ _ Hx Hy).
  - assert (forall i x, h_sessions h !! i = Some x -> s_generation x <> s_generation s) as Hnew.
    { intros i x Hx. destruct (Hgen _ _ Hx) as (n & Hn & ->). rewrite Ht. intros E%gen_text_inj; lia. }
    split; rewrite ?Es, ?Hep; try done; try lia.
    + intros i x [[<- <-]|[_ Hx]]%lookup_insert_Some; [done|by eapply Hs].
    + rewrite map_size_insert_None by done. lia.
    + intros i x [[<- <-]|[_ Hx]]%lookup_insert_Some.
      * exists (h_generations h'). split; [lia|done].
      * destruct (Hgen _ _ Hx) as (n & Hn & Hn'). exists n. split; [lia|done].
    + intros i j x y [[<- <-]|[Hne Hx]]%lookup_insert_Some [[<- <-]|[Hne' Hy]]%lookup_insert_Some Hxy; try done.
      * by destruct (Hnew _ _ Hy).
      * by destruct (Hnew _ _ Hx).
      * by apply (Hd _ _ _ _ Hx Hy).
  - assert (forall i x, h_sessions h' !! i = Some x -> h_sessions h !! i = Some x) as Hsub
      by (intros i x Hx; by eapply lookup_weaken).
    split; rewrite ?Eg, ?Hep; try done; eauto.
    etrans; [by apply map_subseteq_size|done].
Qed.

Lemma run_inv vs h : hub_inv h -> Forall typed vs -> hub_inv (run h vs).
Proof.
  intros Hh HF. revert h Hh. induction HF as [|v vs Ht HF IH]; intros h Hh; [done|]. apply IH.
  destruct (exec_change h v (hi_sessions _ Hh) Ht) as [Hc He]. by eapply change_inv.
Qed.

(** ** One life over a history *)

Lemma hub_run_snoc h vs v : run h (vs ++ [v]) = exec (run h vs) v.
Proof. unfold run. by rewrite foldl_app. Qed.

Lemma run_epoch vs h : hub_inv h -> Forall typed vs -> h_writer_epoch (run h vs) = h_writer_epoch h.
Proof.
  intros Hh HF. induction vs as [|v vs IH] using rev_ind; [done|].
  apply Forall_app in HF as [HF [Ht _]%Forall_cons]. rewrite hub_run_snoc, <-(IH HF).
  by destruct (exec_change _ v (hi_sessions _ (run_inv _ _ Hh HF)) Ht).
Qed.

Lemma generations_rise vs h : hub_inv h -> Forall typed vs -> (h_generations h <= h_generations (run h vs))%Z.
Proof.
  intros Hh HF. induction vs as [|v vs IH] using rev_ind; [done|].
  apply Forall_app in HF as [HF [Ht _]%Forall_cons]. rewrite hub_run_snoc.
  destruct (exec_change _ v (hi_sessions _ (run_inv _ _ Hh HF)) Ht) as [Hc _]. specialize (IH HF).
  destruct Hc; lia.
Qed.

(** A generation met again is the same life of the same session. *)
Lemma run_life vs h id id' s s' :
  hub_inv h -> Forall typed vs -> h_sessions h !! id = Some s -> h_sessions (run h vs) !! id' = Some s' ->
  s_generation s' = s_generation s ->
  id' = id /\ later s s' /\ (Forall (fun v => ~ snaps v id) vs -> followed s s').
Proof.
  intros Hh. revert id' s'. induction vs as [|v vs IH] using rev_ind; intros id' s' HF Hs Hs' Hg.
  { simpl in Hs'. assert (id' = id) as -> by (by eapply (hi_distinct h Hh)). simplify_eq. done. }
  apply Forall_app in HF as [HF [Ht _]%Forall_cons]. pose proof (run_inv _ _ Hh HF) as Hh1.
  rewrite hub_run_snoc in Hs'.
  pose proof (generations_rise _ _ Hh HF) as Hmono. pose proof (run_epoch _ _ Hh HF) as Hep.
  destruct (exec_change _ v (hi_sessions _ Hh1) Ht) as [Hc _].
  assert ((exists s1, h_sessions (run h vs) !! id' = Some s1 /\ later s1 s' /\ (~ snaps v id' -> followed s1 s')) \/
          s_generation s' = gen_text (h_writer_epoch (run h vs)) (h_generations (run h vs) + 1)) as [Hold|Hnew].
  { destruct Hc as [Es _|i x x' El Es _ _ Hl Hf|i x _ _ Es _ Eg _ Et|Es _].
    - left. rewrite Es in Hs'. by exists s'.
    - rewrite Es in Hs'. apply lookup_insert_Some in Hs' as [[<- <-]|[_ Hs']]; left; [by exists x|by exists s'].
    - rewrite Es in Hs'. apply lookup_insert_Some in Hs' as [[<- <-]|[_ Hs']]; [right; by rewrite Et, Eg|left; by exists s'].
    - left. exists s'. split; [by eapply lookup_weaken|done]. }
  - destruct Hold as (s1 & Hs1 & Hl1 & Hf1).
    destruct (IH id' s1 HF Hs Hs1) as (-> & Hl & Hf); [rewrite <-Hg; symmetry; apply Hl1|].
    split; [done|]. split; [by etrans|]. intros [Hn [Hv _]%Forall_cons]%Forall_app.
    etrans; [by apply Hf|by apply Hf1].
  - destruct (hi_generations _ Hh _ _ Hs) as (n & Hn & Hgn). rewrite Hg, Hgn, Hep in Hnew.
    apply gen_text_inj in Hnew; lia.
Qed.

(** ** What an attach delivers *)

Definition after (c : option Z) (b : PtyBatch) : bool :=
  match c with Some c => (c <? b_seq b)%Z | None => true end.

Lemma last_filter {A} (f : A -> bool) l x : last l = Some x -> f x = true -> last (List.filter f l) = Some x.
Proof. intros (l' & ->)%last_Some Hf. rewrite List.filter_app. simpl. by rewrite Hf, last_snoc. Qed.

(** The replay of an honored cursor: what the life sent after it, up to the head. *)
Lemma attach_answer s gen cur c :
  session_inv s -> serviceable s gen cur = Some c ->
  let replay := List.filter (after (Some c)) (fst <$> s_retained s) in
  (exists head, s_seq s = Some head /\ (c <= head)%Z) /\
  List.filter (after (Some c)) (s_live s) = replay /\
  s_seq s = match last replay with Some b => Some (b_seq b) | None => Some c end.
Proof.
  intros Hs Hsv replay. pose proof Hs as [[(dr & Hlive & Hdr) Hr Hhor Hh Hbel _ _ Hne] _ _].
  unfold serviceable in Hsv.
  destruct gen as [g|], cur as [k|]; try done. destruct (bool_decide _); [|done].
  destruct (s_seq s) as [head|] eqn:Eh; [|done]. cbn zeta in Hsv. destruct (_ && _) eqn:E; [|done].
  injection Hsv as ->. unbool.
  assert (forall e, s_evicted_through s = Some e -> (e <= c)%Z) as Hec.
  { intros e He. rewrite He in *. match goal with H : (c <? e)%Z = false |- _ => apply Z.ltb_ge in H; lia end. }
  split; [exists head; split; [done|lia]|]. split.
  { rewrite Hlive, List.filter_app, filter_nothing; [done|]. intros b Hb.
    destruct (Hdr _ Hb) as (e & He & Hle). simpl. apply Z.ltb_ge. specialize (Hec _ He). lia. }
  destruct (last (s_live s)) as [x|] eqn:Ex.
  - injection Hh as ->. assert (last (fst <$> s_retained s) = Some x) as Hx.
    { rewrite Hlive, last_app in Ex. destruct (last (fst <$> s_retained s)) eqn:El; [done|].
      apply last_None, fmap_nil_inv in El. apply last_Some in Ex as (l & Ex). destruct Hne; [|done].
      rewrite Hlive, Ex. by destruct l. }
    destruct (Z.ltb_spec c (b_seq x)) as [Hc|Hc].
    + unfold replay. rewrite (last_filter _ _ _ Hx); [done|]. by apply Z.ltb_lt.
    + unfold replay. rewrite filter_nothing; [simpl; f_equal; lia|]. intros b Hb. apply Z.ltb_ge.
      assert (b ∈ s_live s) as Hb' by (rewrite Hlive; set_solver).
      pose proof (increasing_last _ _ _ _ _ Hr Ex Hb'). lia.
  - apply last_None in Ex. rewrite Ex in Hlive. symmetry in Hlive. apply app_nil in Hlive as [_ Hnil].
    unfold replay. rewrite Hnil. simpl. f_equal. specialize (Hec _ (eq_sym Hh)). lia.
Qed.

Lemma attach_stream s s' gen cur h id a :
  session_inv s -> later s s' -> h_sessions h !! id = Some s -> attach id gen cur h = Ok a ->
  at_replay a ++ drop (at_live a) (s_live s') = List.filter (after (at_cursor a)) (s_live s') /\
  s_seq s' = match last (at_replay a ++ drop (at_live a) (s_live s')) with
             | Some b => Some (b_seq b)
             | None => at_cursor a
             end.
Proof.
  intros Hs Hl Hid. unfold attach. rewrite Hid. cbn [ok_or mbind result_bind].
  destruct (session_size s) as [c0 r0]. destruct (la_live _ _ Hl) as (sent & Hsent & Hnew & Hq).
  assert (forall c, (exists head, s_seq s = Some head /\ (c <= head)%Z) ->
            List.filter (after (Some c)) sent = sent) as Hall.
  { intros c (head & Hh & Hle). apply filter_all. intros b Hb. apply Z.ltb_lt.
    specialize (Hnew _ _ Hb Hh). lia. }
  destruct (serviceable s gen cur) as [c|] eqn:Esv; intros [= <-]; cbn [at_replay at_live at_cursor];
    rewrite Hsent, drop_app_length, List.filter_app.
  - destruct (attach_answer _ _ _ _ Hs Esv) as (Hhead & Hrep & Hq0). split.
    + f_equal; [by rewrite Hrep|by symmetry; apply Hall].
    + rewrite last_app, Hq, Hq0. by destruct (last sent), (last (List.filter _ _)).
  - split; [|done]. simpl. destruct (s_seq s) as [head|] eqn:Eh.
    + rewrite (filter_nothing _ (s_live s)), (Hall head); [done|by exists head; split|].
      intros b Hb. apply Z.ltb_ge. destruct (live_below_head _ _ (se_stream _ Hs) Hb) as (h1 & Hh1 & ?).
      by simplify_eq.
    + assert (s_live s = []) as ->.
      { destruct (s_live s) as [|b l] eqn:El; [done|].
        destruct (live_below_head _ b (se_stream _ Hs)) as (h1 & Hh1 & _); [rewrite El; left|congruence]. }
      symmetry. by apply filter_all.
Qed.

Lemma attached_session id gen cur h a :
  attach id gen cur h = Ok a -> exists s, h_sessions h !! id = Some s /\ at_generation a = s_generation s.
Proof.
  unfold attach. intros Ha. inv_ok. eexists. split; [done|]. destruct (session_size _).
  destruct (serviceable _ _ _); inv_ok; by subst.
Qed.

(** Filtering keeps an order. *)
Lemma increasing_filter (f : PtyBatch -> bool) lo l :
  increasing_from b_seq lo l -> increasing_from b_seq lo (List.filter f l).
Proof.
  revert lo. induction l as [|x l IH]; intros lo; [done|]. intros [Hx Hl]. simpl.
  destruct (f x); [by split; [|apply IH]|]. apply (increasing_weaken _ (b_seq x)); [lia|by apply IH].
Qed.
Lemma increasing_raise (l : list PtyBatch) lo lo' :
  increasing_from b_seq lo l -> (forall b, b ∈ l -> (lo' < b_seq b)%Z) -> increasing_from b_seq lo' l.
Proof. destruct l as [|x l]; [done|]. intros [_ Hl] Hb. split; [apply Hb; left|done]. Qed.

(** C28: Whatever verbs are run, every session of the registry is
    well formed: its window is the end of what was sent and within both of its
    bounds, revisions rise, the screen is a rectangle the wire can carry with the
    cursor inside it, the raw stream is contiguous from its snapshot, the
    registry holds no more sessions than its limit, and every generation is one
    it handed out. *)
Theorem hub_invariant epoch vs :
  is_u64 epoch -> Forall typed vs -> hub_inv (run (new_hub epoch) vs).
Proof. intros He Ht. apply run_inv; [by apply new_hub_inv|done]. Qed.

(** What an attached consumer receives, the replay and then the
    live batches, is every batch of the session's life after the revision the
    attach answered, in rising order without a gap or a repetition, and ends at
    the session's current revision, for as long as that life goes on. *)
Theorem attach_is_gapless epoch vs vs' id gen cur a s' :
  is_u64 epoch -> Forall typed vs -> Forall typed vs' ->
  attach id gen cur (run (new_hub epoch) vs) = Ok a ->
  h_sessions (run (new_hub epoch) (vs ++ vs')) !! id = Some s' -> s_generation s' = at_generation a ->
  let stream := at_replay a ++ drop (at_live a) (s_live s') in
  stream = List.filter (after (at_cursor a)) (s_live s') /\
  increasing_from b_seq (default (-1) (at_cursor a))%Z stream /\
  s_seq s' = match last stream with Some b => Some (b_seq b) | None => at_cursor a end.
Proof.
  intros He Ht Ht' Ha Hs' Hg stream. subst stream.
  pose proof (run_inv _ _ (new_hub_inv _ He) Ht) as Hh.
  pose proof (run_inv _ _ Hh Ht') as Hh'. unfold run in Hs'. rewrite foldl_app in Hs'.
  destruct (attached_session _ _ _ _ _ Ha) as (s & Hs & Hga). rewrite Hga in Hg.
  destruct (run_life vs' _ _ _ _ _ Hh Ht' Hs Hs' Hg) as (_ & Hl & _).
  destruct (attach_stream _ _ _ _ _ _ _ (hi_sessions _ Hh _ _ Hs) Hl Hs Ha) as [Hst Hq].
  split; [done|]. split; [|done]. rewrite Hst.
  pose proof (st_rising _ (se_stream _ (hi_sessions _ Hh' _ _ Hs'))) as Hr.
  apply (increasing_filter (after (at_cursor a))) in Hr. destruct (at_cursor a) as [c|]; [|done].
  apply (increasing_raise _ _ _ Hr). intros b [_ Hb]%list_elem_of_In%filter_In. by apply Z.ltb_lt.
Qed.

(** ** From a snapshot on *)

Lemma snapshot_is_mirror id h g q frame :
  hub_inv h -> snapshot id h = Ok (g, q, frame) ->
  exists s, h_sessions h !! id = Some s /\ s_generation s = g /\ s_seq s = Some q /\
    cells frame = Some (s_cells s) /\ cursor frame = s_cursor s.
Proof.
  intros Hh. unfold snapshot. cbn zeta. intros Hr. inv_ok. simplify_eq.
  match goal with Hs : h_sessions h !! id = Some ?s |- _ =>
    exists s; destruct (hi_sessions _ Hh _ _ Hs) as [_ [Hsh _] _] end.
  split_and!; try done; [by apply cells_from_cells|]. unfold from_cells. by destruct (grid_runs _ _).
Qed.

(** C27: A consumer that takes a snapshot, attaches at its revision
    some time later and applies the batches it is replayed and then sent, in
    order, ends with the screen the registry holds, whatever else happened to
    the registry in between, unless the host published a new snapshot or the
    session's life ended. *)
Theorem consumer_converges epoch vs1 vs2 vs3 id g q frame a s' :
  is_u64 epoch -> Forall typed (vs1 ++ vs2 ++ vs3) ->
  snapshot id (run (new_hub epoch) vs1) = Ok (g, q, frame) ->
  attach id (Some g) (Some q) (run (new_hub epoch) (vs1 ++ vs2)) = Ok a ->
  at_generation a = g -> at_cursor a = Some q ->
  h_sessions (run (new_hub epoch) (vs1 ++ vs2 ++ vs3)) !! id = Some s' -> s_generation s' = g ->
  Forall (fun v => ~ snaps v id) (vs2 ++ vs3) ->
  exists grid, cells frame = Some grid /\
    foldl apply_batch grid (at_replay a ++ drop (at_live a) (s_live s')) = s_cells s'.
Proof.
  intros He Ht Hsn Ha Hga Hcur Hs' Hg Hno.
  apply Forall_app in Ht as [Ht1 Ht23]. pose proof Ht23 as [Ht2 Ht3]%Forall_app.
  pose proof (run_inv _ _ (new_hub_inv _ He) Ht1) as Hh1.
  destruct (snapshot_is_mirror _ _ _ _ _ Hh1 Hsn) as (s1 & Hs1 & Hg1 & Hq1 & Hc & _).
  exists (s_cells s1). split; [done|].
  unfold run in Hs', Ha. rewrite foldl_app in Hs', Ha.
  pose proof (run_inv _ _ Hh1 Ht2) as Hh2.
  destruct (run_life _ _ _ _ _ _ Hh1 Ht23 Hs1 Hs') as (_ & Hl1 & Hf); [congruence|].
  destruct (Hf Hno) as (sent & Hsent & Hcells).
  rewrite foldl_app in Hs'. destruct (attached_session _ _ _ _ _ Ha) as (s2 & Hs2 & Hga2).
  destruct (run_life _ _ _ _ _ _ Hh2 Ht3 Hs2 Hs') as (_ & Hl2 & _); [congruence|].
  destruct (attach_stream _ _ _ _ _ _ _ (hi_sessions _ Hh2 _ _ Hs2) Hl2 Hs2 Ha) as [-> _].
  rewrite Hcells, Hcur, Hsent, List.filter_app, filter_nothing, filter_all; [done| |].
  - intros b Hb. destruct (la_live _ _ Hl1) as (sent' & Hsent' & Hnew & _).
    rewrite Hsent in Hsent'. apply app_inv_head in Hsent' as ->. apply Z.ltb_lt. by eapply Hnew.
  - intros b Hb. destruct (live_below_head _ _ (se_stream _ (hi_sessions _ Hh1 _ _ Hs1)) Hb) as (hd & Hhd & Hle).
    apply Z.ltb_ge. by simplify_eq.
Qed.

(** ** Generations *)

Lemma gen_text_epoch epoch epoch' n m :
  is_u64 epoch -> is_u64 epoch' -> gen_text epoch n = gen_text epoch' m -> epoch = epoch'.
Proof.
  intros He He' Heq. unfold gen_text in Heq.
  apply (Str.split_first Str.colon) in Heq as [Heq _];
    [|by apply Str.digits_no_byte; [|apply Numeric.to_numeric_text_digits]..].
  unfold is_u64 in *. apply Numeric.to_numeric_text_inj in Heq; lia.
Qed.

(** A generation handed out is not the generation of any session
    of an earlier state of the same registry, nor of a registry of another writer
    epoch. *)
Theorem generations_are_never_reused epoch epoch' vs vs1 vs2 conn id seq frame g h' id' s' :
  is_u64 epoch -> is_u64 epoch' -> Forall typed (vs1 ++ vs2) -> Forall typed vs ->
  publish_snapshot conn id seq frame (run (new_hub epoch) (vs1 ++ vs2)) = Ok (Some g, h') ->
  h_sessions (run (new_hub epoch') vs) !! id' = Some s' ->
  epoch' <> epoch \/ vs = vs1 -> s_generation s' <> g.
Proof.
  intros He He' Ht Ht' Hp Hs' Hcase.
  pose proof (run_inv _ _ (new_hub_inv _ He) Ht) as Hh.
  pose proof (run_inv _ _ (new_hub_inv _ He') Ht') as Hh'.
  assert (g = gen_text epoch (h_generations (run (new_hub epoch) (vs1 ++ vs2)) + 1)) as Hgt.
  { unfold publish_snapshot in Hp. apply bind_ok_iff in Hp as ([[r0 c0] grid] & _ & Hp).
    apply bind_ok_iff in Hp as (bytes & _ & Hp). destruct (h_sessions _ !! id); inv_ok; simplify_eq.
    match goal with H : next_generation _ = Ok _ |- _ => unfold next_generation in H end. inv_ok. simplify_eq.
    match goal with H : checked_add _ _ _ = Some _ |- _ => apply checked_add_some in H as [-> _] end.
    unfold gen_text. by rewrite (run_epoch _ _ (new_hub_inv _ He) Ht). }
  intros Hg. destruct (hi_generations _ Hh' _ _ Hs') as (n & Hn & Hgn).
  rewrite (run_epoch _ _ (new_hub_inv _ He') Ht') in Hgn. cbn [new_hub h_writer_epoch] in Hgn.
  rewrite Hg, Hgt in Hgn. destruct Hcase as [Hne| ->]; [by apply gen_text_epoch in Hgn|].
  assert (epoch' = epoch) as -> by (symmetry; by eapply gen_text_epoch).
  apply Forall_app in Ht as [Ht1 Ht2]. pose proof (generations_rise vs2 _ Hh' Ht2) as Hrise.
  unfold run at 2 in Hrise. unfold run at 2 in Hrise. rewrite <-foldl_app in Hrise.
  change (foldl exec (new_hub epoch) (vs1 ++ vs2)) with (run (new_hub epoch) (vs1 ++ vs2)) in Hrise.
  apply gen_text_inj in Hgn; lia.
Qed.

(** ** The raw fallback *)

Definition raw_after (c : Z) (d : PtyRawDelivery) : bool :=
  match raw_delivery_seq d with Some q => (c <? q)%Z | None => false end.

(** The revisions of a contiguous stretch. *)
Definition contiguous (start : Z) (l : list PtyRawDelivery) : Prop :=
  raw_delivery_seq <$> l = Some <$> seqZ start (Z.of_nat (length l)).

Lemma contiguous_cons start d l :
  contiguous start (d :: l) <-> raw_delivery_seq d = Some start /\ contiguous (start + 1) l.
Proof.
  unfold contiguous. cbn [length]. rewrite fmap_cons, Nat2Z.inj_succ, <-Z.add_1_l, seqZ_cons, fmap_cons by lia.
  replace (Z.pred (1 + Z.of_nat (length l))) with (Z.of_nat (length l)) by lia.
  change (Z.succ start) with (start + 1)%Z. split; [by intros [= -> ->]|by intros [-> ->]].
Qed.

Lemma contiguous_app start l k :
  contiguous start (l ++ k) <-> contiguous start l /\ contiguous (start + Z.of_nat (length l)) k.
Proof.
  revert start. induction l as [|d l IH]; intros start; cbn [app].
  - cbn [length]. rewrite Z.add_0_r. split; [by split|by intros [_ ?]].
  - rewrite !contiguous_cons, IH. cbn [length].
    replace (start + Z.of_nat (S (length l)))%Z with (start + 1 + Z.of_nat (length l))%Z by lia. tauto.
Qed.

Lemma contiguous_above start l c :
  contiguous start l -> (c < start)%Z -> List.filter (raw_after c) l = l.
Proof.
  revert start. induction l as [|d l IH]; intros start; [done|]. rewrite contiguous_cons. intros [Hd Hl] Hc.
  cbn [List.filter]. unfold raw_after at 1. rewrite Hd, (proj2 (Z.ltb_lt _ _)) by done. f_equal. apply (IH (start + 1)%Z); [done|lia].
Qed.

(** What is left of a contiguous stretch after a cursor within it. *)
Lemma contiguous_filter start l c :
  contiguous start l -> (start <= c + 1)%Z -> (c < start + Z.of_nat (length l))%Z \/ l = [] ->
  contiguous (c + 1) (List.filter (raw_after c) l).
Proof.
  revert start. induction l as [|d l IH]; intros start; [done|]. rewrite contiguous_cons. intros [Hd Hl] Hs Hc.
  cbn [List.filter]. unfold raw_after at 1. rewrite Hd. destruct (Z.ltb_spec c start).
  - rewrite (contiguous_above (start + 1)) by (done || lia). assert (start = c + 1)%Z as -> by lia.
    by apply contiguous_cons.
  - apply (IH (start + 1)%Z); [done|lia|]. destruct l; [by right|]. left. destruct Hc as [Hc|]; [|done].
    cbn [length] in *. lia.
Qed.

Definition raw_start (snap : PtyRawDelivery) : Z :=
  match raw_delivery_seq snap with Some q => (q + 1)%Z | None => 0%Z end.

Lemma contiguous_last start l d :
  contiguous start l -> last l = Some d -> raw_delivery_seq d = Some (start + Z.of_nat (length l) - 1)%Z.
Proof.
  intros Hl (l' & ->)%last_Some. apply contiguous_app in Hl as [_ [Hd _]%contiguous_cons].
  rewrite length_app. cbn [length]. rewrite Hd. f_equal. lia.
Qed.

(** What a raw attach delivers is the stored snapshot followed by
    every raw event of the session's life, or, when its cursor is honoured, every
    raw event after the cursor, contiguously numbered in both cases. *)
Theorem raw_attach_is_gapless epoch vs vs' id gen cur a s' :
  is_u64 epoch -> Forall typed vs -> Forall typed vs' -> (forall c, cur = Some c -> is_u64 c) ->
  attach_raw id gen cur (run (new_hub epoch) vs) = Ok a ->
  h_sessions (run (new_hub epoch) (vs ++ vs')) !! id = Some s' -> s_generation s' = ra_generation a ->
  let stream := ra_replay a ++ drop (ra_live a) (s_raw_live s') in
  match ra_delivered a with
  | Some c => stream = List.filter (raw_after c) (s_raw_live s') /\ contiguous (c + 1) stream
  | None => exists snap, s_raw_snapshot s' = Some snap /\ stream = snap :: s_raw_live s' /\
              contiguous (raw_start snap) (s_raw_live s')
  end.
Proof.
  intros He Ht Ht' Hcur Ha Hs' Hg stream. subst stream.
  pose proof (run_inv _ _ (new_hub_inv _ He) Ht) as Hh.
  pose proof (run_inv _ _ Hh Ht') as Hh'. unfold run in Hs'. rewrite foldl_app in Hs'.
  unfold attach_raw in Ha. inv_ok. rename r into s, r0 into snap.
  assert (ra_generation a = s_generation s) as Hga.
  { destruct (session_size s). destruct (raw_serviceable _ _ _ _); inv_ok; by subst. }
  rewrite Hga in Hg. destruct (run_life vs' _ _ _ _ _ Hh Ht' Hrun Hs' Hg) as (_ & Hl & _).
  destruct (se_raw _ (hi_sessions _ Hh _ _ Hrun)) as (Hlv & _ & _ & _ & Hsn). rewrite Hrun0 in Hsn.
  destruct Hsn as (H0 & Hseq & Hhead). fold (raw_start snap) in *. fold (contiguous (raw_start snap) (s_raw_retained s)) in Hseq.
  pose proof (la_seeded _ _ Hl _ Hrun0) as Hsnap'.
  destruct (se_raw _ (hi_sessions _ Hh' _ _ Hs')) as (Hlv' & _ & _ & _ & Hsn'). rewrite Hsnap' in Hsn'.
  destruct Hsn' as (_ & Hseq' & _). fold (contiguous (raw_start snap) (s_raw_retained s')) in Hseq'.
  destruct (la_raw _ _ Hl) as (sent & Hsent). rewrite <-Hlv in *. rewrite <-Hlv' in Hseq'.
  pose proof Hseq' as Hsplit. rewrite Hsent in Hsplit. apply contiguous_app in Hsplit as [_ Hsplit].
  destruct (session_size s). destruct (raw_serviceable s _ gen cur) as [c|] eqn:Esv; inv_ok; subst;
    cbn [ra_delivered ra_replay ra_live]; rewrite Hsent, drop_app_length.
  - assert (is_u64 c /\ (raw_start snap <= c + 1)%Z /\
            exists head, s_raw_seq s = Some head /\ (c <= head)%Z) as (Hu & Hlo & head & Hhd & Hle).
    { unfold raw_serviceable in Esv. destruct gen as [g|], cur as [k|]; try done.
      destruct (bool_decide _); [|done]. cbn zeta in Esv. destruct (_ && _) eqn:E; [|done]. injection Esv as ->.
      pose proof (Hcur _ eq_refl) as Hu. unfold is_u64 in Hu. unbool. split; [done|].
      unfold raw_start. destruct (raw_delivery_seq snap), (s_raw_seq s) as [hd|]; try done; unbool;
        (split; [lia|exists hd; split; [done|lia]]). }
    assert (c < raw_start snap + Z.of_nat (length (s_raw_live s)))%Z as Hin.
    { rewrite Hhd in Hhead. destruct (last (s_raw_live s)) as [d|] eqn:El.
      - rewrite (contiguous_last _ _ _ Hseq El) in Hhead. injection Hhead as ->. lia.
      - unfold raw_start. rewrite <-Hhead. lia. }
    replace (List.filter _ (s_raw_live s) ++ sent) with (List.filter (raw_after c) (s_raw_live s ++ sent)).
    + split; [done|]. rewrite <-Hsent. apply (contiguous_filter (raw_start snap)); [done|done|].
      left. rewrite Hsent, length_app. lia.
    + rewrite List.filter_app, (contiguous_above _ sent _ Hsplit); [done|exact Hin].
  - exists snap. split; [done|]. split; [done|]. by rewrite <-Hsent.
Qed.
End Hub.
