(* ===== verification/Deliver.v ===== *)
(** * Reverse deliveries to a host (gwk-kernel/src/wire/pty.rs)

    A committed input, resize, stop or start is sent back over the connection
    that owns the session.  The delivery gives up the locks while it waits for
    queue capacity and for the acknowledgement, so that any verbs may run in
    between: it still reaches the lifetime it was addressed to or nothing, and
    its acknowledgement is taken once, by its owner. *)

From S2P Require Import Prelude Text Command Screen Hub Streams.

Section Deliver.
Context `{PJ : PtyJson}.

(** ** The control registry's invariant *)

(** What is pending was sent to its owner, each entry on a channel of its own. *)
Record controls_inv (h : PtyHub) : Prop := {
  ci_sent d p : h_pending h !! d = Some p ->
    exists c, c ∈ default [] (h_queues h !! pd_owner p) /\ control_delivery_id c = Some d;
  ci_channels d p : h_pending h !! d = Some p -> (0 <= pd_channel p < h_channels h)%Z;
  ci_distinct d d' p p' : h_pending h !! d = Some p -> h_pending h !! d' = Some p' ->
    pd_channel p = pd_channel p' -> d = d';
  ci_counter : (0 <= h_channels h)%Z;
}.

(** What a verb may do to the pending entries: forget some, or add one. *)
Inductive pending_change (h h' : PtyHub) : Prop :=
| pending_forgot : h_pending h' ⊆ h_pending h -> h_queues h' = h_queues h ->
    h_channels h' = h_channels h -> pending_change h h'
| pending_added d p c : h_pending h !! d = None -> control_delivery_id c = Some d ->
    pd_channel p = h_channels h -> h_channels h' = (h_channels h + 1)%Z ->
    h_pending h' = <[d := p]> (h_pending h) ->
    h_queues h' = <[pd_owner p := default [] (h_queues h !! pd_owner p) ++ [c]]> (h_queues h) ->
    pending_change h h'.

Lemma enqueue_ok owner claim d c h ch h' :
  control_delivery_id c = Some d -> enqueue owner claim d c h = Ok (ch, h') ->
  pending_change h h' /\ h_sessions h' = h_sessions h /\ ch = h_channels h /\
  h_pending h' = <[d := {| pd_owner := owner; pd_claim_token := claim; pd_channel := ch |}]> (h_pending h) /\
  h_queues h' = <[owner := default [] (h_queues h !! owner) ++ [c]]> (h_queues h).
Proof.
  intros Hc. unfold enqueue. cbn zeta. intros Hr. inv_ok. unbool. simplify_eq.
  split; [|done]. by eapply (pending_added _ _ d
    {| pd_owner := owner; pd_claim_token := claim; pd_channel := h_channels h |} c).
Qed.

Lemma publish_keeps_pending (r : result PtyRefusal PtyHub) (h : PtyHub) :
  (forall h', r = Ok h' -> h_pending h' = h_pending h /\ h_queues h' = h_queues h /\
     h_channels h' = h_channels h) ->
  pending_change h (settle r Datatypes.id h).
Proof.
  intros Hr. destruct r as [h'|]; simpl; [|by apply pending_forgot].
  destruct (Hr _ eq_refl) as (E1 & E2 & E3). apply pending_forgot; [by rewrite E1|done|done].
Qed.

Lemma publish_raw_pending conn id d h h' :
  publish_raw conn id d h = Ok h' ->
  h_pending h' = h_pending h /\ h_queues h' = h_queues h /\ h_channels h' = h_channels h.
Proof. unfold publish_raw. cbn zeta. intros Hr. inv_ok. by subst. Qed.

Lemma finish_pending owner d a h : pending_change h (deliver_finish owner d a h).2.
Proof.
  unfold deliver_finish. destruct a as [[[]|e]| |]; simpl; try destruct (pr_indeterminate e);
    apply pending_forgot; simpl; try done; apply delete_subseteq.
Qed.

Lemma exec_pending h v : pending_change h (exec h v).
Proof.
  destruct v; cbn [exec]; try (by apply pending_forgot).
  - unfold register_connection. destruct start; by apply pending_forgot.
  - unfold settle. destruct (publish_snapshot _ _ _ _ _) as [[r h']|] eqn:E; [|by apply pending_forgot].
    unfold publish_snapshot in E. apply bind_ok_iff in E as ([[? ?] ?] & _ & E).
    apply bind_ok_iff in E as (? & _ & E). destruct (h_sessions h !! id); inv_ok; simplify_eq.
    + by apply pending_forgot.
    + match goal with H : next_generation _ = Ok _ |- _ => unfold next_generation in H end. inv_ok.
      simplify_eq. by apply pending_forgot.
  - apply publish_keeps_pending. intros h' Hr. unfold publish_deltas in Hr.
    apply bind_ok_iff in Hr as (? & _ & Hr). apply bind_ok_iff in Hr as (s & _ & Hr).
    apply bind_ok_iff in Hr as (_ & _ & Hr). apply bind_ok_iff in Hr as (_ & _ & Hr).
    destruct (session_size s). inv_ok. by subst.
  - apply publish_keeps_pending. intros h' Hr. unfold publish_raw_snapshot in Hr. inv_ok. by subst.
  - apply publish_keeps_pending. intros h' Hr. unfold publish_raw_output in Hr. inv_ok.
    by eapply publish_raw_pending.
  - apply publish_keeps_pending. intros h' Hr. by eapply publish_raw_pending.
  - unfold settle. destruct (retire conn id h) as [[g h']|] eqn:E; [|by apply pending_forgot].
    unfold retire in E. inv_ok. simplify_eq. by apply pending_forgot.
  - apply pending_forgot; [|done|done]. simpl. apply map_filter_subseteq.
  - unfold settle. destruct (deliver_to_session _ _ _ _ _ _) as [[ch h']|] eqn:E; [|by apply pending_forgot].
    unfold deliver_to_session in E. inv_ok. by eapply enqueue_ok.
  - unfold settle. destruct (deliver_to_manager _ _ _ _) as [r|] eqn:E; [|by apply pending_forgot].
    unfold deliver_to_manager in E. inv_ok. destruct (bool_decide _); inv_ok; [|by apply pending_forgot].
    simplify_eq. by eapply enqueue_ok.
  - apply finish_pending.
  - unfold deliver_start_finish. destruct a, (h_pending h !! delivery_id); try apply finish_pending;
      by apply pending_forgot.
  - unfold settle. destruct (take_delivery_ack _ _ _ _) as [[ch h']|] eqn:E; [|by apply pending_forgot].
    unfold take_delivery_ack in E. inv_ok. simplify_eq. apply pending_forgot; simpl; try done.
    apply delete_subseteq.
Qed.

Lemma pending_change_inv h h' : controls_inv h -> pending_change h h' -> controls_inv h'.
Proof.
  intros [Hs Hc Hd H0] [Hsub Hq Hn|d p c Hnone Hid Hch Hn Hp Hq].
  - assert (forall d p, h_pending h' !! d = Some p -> h_pending h !! d = Some p) as Hw
      by (intros d p Hp; by eapply lookup_weaken).
    split; rewrite ?Hq, ?Hn; eauto.
  - split; rewrite ?Hn, ?Hp; [| | |lia].
    + intros d' p' [[<- <-]|[Hne Hp']]%lookup_insert_Some.
      * exists c. rewrite Hq, lookup_insert_eq. split; [|done]. simpl. set_solver.
      * destruct (Hs _ _ Hp') as (c' & Hc' & Hd'). exists c'. split; [|done]. rewrite Hq.
        destruct (decide (pd_owner p = pd_owner p')) as [Ho|Ho].
        -- rewrite Ho, lookup_insert_eq. apply elem_of_app. by left.
        -- by rewrite lookup_insert_ne.
    + intros d' p' [[<- <-]|[Hne Hp']]%lookup_insert_Some; [lia|]. specialize (Hc _ _ Hp'). lia.
    + intros d1 d2 p1 p2 [[<- <-]|[? Hp1]]%lookup_insert_Some [[<- <-]|[? Hp2]]%lookup_insert_Some Hch'; try done.
      * specialize (Hc _ _ Hp2). lia.
      * specialize (Hc _ _ Hp1). lia.
      * by eapply Hd.
Qed.

Lemma run_controls_inv vs h : controls_inv h -> controls_inv (run h vs).
Proof.
  revert h. induction vs as [|v vs IH]; intros h Hh; [done|]. apply IH.
  eapply pending_change_inv; [done|apply exec_pending].
Qed.

Lemma new_controls_inv epoch : controls_inv (new_hub epoch).
Proof. split; simpl; try done; intros *; by rewrite lookup_empty. Qed.

(** ** The lifetime a delivery reaches *)

(** A delivery whose session was looked up in one lifetime and
    sent after any interleaving of other verbs is queued on the connection that
    owns that same lifetime, and on no other, and touches no session: it is never
    redirected to a session that reused the id. *)
Theorem delivery_reaches_its_lifetime epoch vs vs' id generation owner claim control ch h' :
  is_u64 epoch -> Forall typed vs -> Forall typed vs' ->
  let looked_up := run (new_hub epoch) vs in
  let sending := run (new_hub epoch) (vs ++ vs') in
  deliver_owner id generation looked_up = Ok owner ->
  deliver_to_session id generation owner claim control sending = Ok (ch, h') ->
  exists s s', h_sessions looked_up !! id = Some s /\ h_sessions sending !! id = Some s' /\
    s_generation s = generation /\ s_owner s' = owner /\ later s s' /\
    h_sessions h' = h_sessions sending /\
    (forall d, h_pending sending !! d = None -> is_Some (h_pending h' !! d) -> control_delivery_id control = Some d) /\
    forall conn, default [] (h_queues h' !! conn) =
      default [] (h_queues sending !! conn) ++ (if bool_decide (conn = owner) then [control] else []).
Proof.
  intros He Ht Ht' looked_up sending Ho Hd.
  pose proof (run_inv _ _ (new_hub_inv _ He) Ht) as Hh. fold looked_up in Hh.
  assert (sending = run looked_up vs') as Hrun by (unfold sending, looked_up, run; by rewrite foldl_app).
  unfold deliver_owner in Ho. inv_ok. unbool. subst. unfold deliver_to_session in Hd. inv_ok. unbool.
  match goal with H1 : h_sessions looked_up !! id = Some ?s, H2 : h_sessions sending !! id = Some ?s' |- _ =>
    rename s into s0; rename s' into s1; rename H1 into Hs0; rename H2 into Hs1 end.
  rewrite Hrun in Hs1. destruct (run_life _ _ _ _ _ _ Hh Ht' Hs0 Hs1) as (_ & Hl & _); [congruence|].
  rewrite <-Hrun in Hs1. exists s0, s1.
  match goal with H : enqueue _ _ _ _ _ = Ok _ |- _ => eapply enqueue_ok in H as (_ & Es & -> & Ep & Eq); [|done] end.
  split_and!; try done.
  - rewrite Ep. intros d Hn [p Hp]. apply lookup_insert_Some in Hp as [[<- _]|[_ Hp]]; [done|congruence].
  - intros conn. rewrite Eq. destruct (bool_decide_reflect (conn = s_owner s0)) as [->|Hne].
    + by rewrite lookup_insert_eq.
    + rewrite lookup_insert_ne by done. by rewrite app_nil_r.
Qed.

(** ** Acknowledgements *)

(** A channel out of the map does not come back. *)
Lemma channel_gone vs h ch :
  controls_inv h -> (ch < h_channels h)%Z -> (forall d p, h_pending h !! d = Some p -> pd_channel p <> ch) ->
  forall d p, h_pending (run h vs) !! d = Some p -> pd_channel p <> ch.
Proof.
  revert h. induction vs as [|v vs IH]; intros h Hc Hlt Hno; [done|].
  apply (IH (exec h v)); [by eapply pending_change_inv, exec_pending|..];
    destruct (exec_pending h v) as [Hsub Hq Hn|d p c Hnone Hid Hch Hn Hp Hq]; rewrite ?Hn; try lia.
  - intros d p Hp. eapply Hno, lookup_weaken; [exact Hp|done].
  - rewrite Hp. intros d' p' [[<- <-]|[_ Hp']]%lookup_insert_Some; [lia|by eapply Hno].
Qed.

(** Two acknowledgements that are accepted, one after the other
    and with any verbs in between, answer two different deliveries, and each was
    sent to the connection that acknowledges it. *)
Theorem deliveries_are_acknowledged_once epoch vs vs' conn d claim ch h conn' d' claim' ch' h' :
  take_delivery_ack conn d claim (run (new_hub epoch) vs) = Ok (ch, h) ->
  take_delivery_ack conn' d' claim' (run h vs') = Ok (ch', h') ->
  ch' <> ch /\
  exists c, c ∈ default [] (h_queues (run (new_hub epoch) vs) !! conn) /\ control_delivery_id c = Some d.
Proof.
  intros H1 H2. pose proof (run_controls_inv vs _ (new_controls_inv epoch)) as Hc.
  unfold take_delivery_ack in H1, H2. inv_ok. unbool. simplify_eq.
  match goal with H : h_pending (run (new_hub epoch) vs) !! d = Some ?p |- _ =>
    rename p into p0; rename H into Hp0 end.
  split; [|by apply (ci_sent _ Hc)].
  match goal with H : h_pending (run _ vs') !! d' = Some ?p |- pd_channel ?q <> _ =>
    refine (channel_gone vs' _ (pd_channel p0) _ _ _ _ _ H) end.
  - eapply pending_change_inv; [exact Hc|]. apply pending_forgot; [apply delete_subseteq|done|done].
  - apply (ci_channels _ Hc _ _ Hp0).
  - simpl. intros d1 p1 [Hne Hp1]%lookup_delete_Some E. by apply Hne, (ci_distinct _ Hc _ _ _ _ Hp0 Hp1).
Qed.

(** ** Hanging up *)

(** A connection that ends takes its sessions, its routes and its
    pending deliveries with it, reports each of them, and leaves the others as
    they were; waiting starts are woken exactly when the manager changes. *)
Theorem hangup_leaves_nothing conn (h : PtyHub) :
  let '(out, h') := disconnect conn h in
  (forall id g, (id, g) ∈ retired out <->
     exists s, h_sessions h !! id = Some s /\ s_owner s = conn /\ s_generation s = g) /\
  (forall d t, (d, t) ∈ abandoned out <->
     exists p, h_pending h !! d = Some p /\ pd_owner p = conn /\ pd_claim_token p = t) /\
  (forall id s, h_sessions h' !! id = Some s <-> h_sessions h !! id = Some s /\ s_owner s <> conn) /\
  (forall d p, h_pending h' !! d = Some p <-> h_pending h !! d = Some p /\ pd_owner p <> conn) /\
  h_routes h' !! conn = None /\ conn ∉ h_start_managers h' /\
  (last (h_start_managers h') = last (h_start_managers h) <-> h_start_changes h' = h_start_changes h).
Proof.
  simpl. split_and!.
  - intros id g. rewrite list_elem_of_fmap. split.
    + intros ([id' s] & [= -> ->] & [Hs Ho]%elem_of_map_to_list%map_lookup_filter_Some). by exists s.
    + intros (s & Hs & Ho & <-). exists (id, s). split; [done|]. apply elem_of_map_to_list.
      by apply map_lookup_filter_Some.
  - intros d t. rewrite list_elem_of_fmap. split.
    + intros ([d' p] & [= -> ->] & [Hp Ho]%elem_of_map_to_list%map_lookup_filter_Some). by exists p.
    + intros (p & Hp & Ho & <-). exists (d, p). split; [done|]. apply elem_of_map_to_list.
      by apply map_lookup_filter_Some.
  - intros id s. by rewrite map_lookup_filter_Some.
  - intros d p. by rewrite map_lookup_filter_Some.
  - apply lookup_delete_eq.
  - rewrite list_elem_of_In, filter_In. intros [_ Hn]. by rewrite Z.eqb_refl in Hn.
  - destruct (bool_decide_reflect (last (List.filter (fun m => negb (m =? conn)%Z) (h_start_managers h)) =
                                   last (h_start_managers h))) as [E|E]; split; try done; lia.
Qed.
End Deliver.
