(* ===== verification/Attempts.v ===== *)
(** * Delivery attempts (gwk-kernel/src/wire/serve.rs, migrations/0005_pty_delivery.sql)

    A committed PTY control has a row in [pty_delivery].  An attempt claims the
    row in a transaction, sends the control to its host through the registry,
    waits for the acknowledgement, and releases or settles the row; the host's
    acknowledgement settles it too; a claim that runs out, a connection that
    closes and a restart of the daemon leave it indeterminate.  Attempts,
    acknowledgements and the registry's verbs interleave freely.  The theorems:
    no control is sent to a host twice, and what a row may become. *)

From S2P Require Import Prelude Text Envelope Command Tables Db Store Screen Hub Streams Deliver.

Definition SLOW_CONSUMER_TIMEOUT_SECS : Z := 30.
Definition PTY_DELIVERY_LEASE_SECS : Z := SLOW_CONSUMER_TIMEOUT_SECS * 2 + 5.
Definition PTY_DELIVERY_FAILURE_MAX_BYTES : Z := 4 * 1024.

(** [PtyDeliveryResult]. *)
Inductive PtyDeliveryResult := Applied | Refused (code : KernelErrorCode) (message : string).

Section Attempts.
Context `{TZ : Timestamptz} {V : Type} `{PJ : PtyJson}.
Notation event := (EventEnvelope V).
Notation row := (DeliveryRow instant).
Notation table := (gmap (string * string) (DeliveryRow instant)).

Implicit Types (now : instant) (d token : string) (k key : string * string) (sel : string * string -> row -> bool)
  (t : table) (r : row) (f : row -> row).

(** ** The rows *)

Definition delivered (r : row) : bool := is_some (dv_delivered_at r).
Definition failed (r : row) : bool := is_some (dv_failed_at r).
Definition undetermined (r : row) : bool := is_some (dv_indeterminate_at r).
Definition claimed (r : row) : bool := is_some (dv_claim_token r).

(** [delivered_at IS NULL AND failed_at IS NULL AND indeterminate_at IS NULL]. *)
Definition unsettled (r : row) : bool := negb (delivered r) && negb (failed r) && negb (undetermined r).

(** The CHECK constraints of the table. *)
Definition delivery_check (r : row) : bool :=
  (Nat.b2n (delivered r) + Nat.b2n (failed r) + Nat.b2n (undetermined r) <=? 1)%nat
  && Bool.eqb (claimed r) (is_some (dv_claimed_until r))
  && (unsettled r || negb (claimed r))
  && Bool.eqb (failed r) (is_some (dv_failure_code r))
  && Bool.eqb (failed r) (is_some (dv_failure_message r)).

(** The SET clauses. *)
Definition set_claim (c : option string) (until : option instant) (r : row) : row := {|
  dv_command_id := dv_command_id r; dv_event_id := dv_event_id r; dv_event_seq := dv_event_seq r;
  dv_input_binding := dv_input_binding r; dv_claim_token := c; dv_claimed_until := until;
  dv_delivered_at := dv_delivered_at r; dv_failed_at := dv_failed_at r;
  dv_indeterminate_at := dv_indeterminate_at r; dv_failure_code := dv_failure_code r;
  dv_failure_message := dv_failure_message r |}.
Definition set_delivered (at_ : instant) (r : row) : row := {|
  dv_command_id := dv_command_id r; dv_event_id := dv_event_id r; dv_event_seq := dv_event_seq r;
  dv_input_binding := dv_input_binding r; dv_claim_token := None; dv_claimed_until := None;
  dv_delivered_at := Some at_; dv_failed_at := dv_failed_at r;
  dv_indeterminate_at := dv_indeterminate_at r; dv_failure_code := dv_failure_code r;
  dv_failure_message := dv_failure_message r |}.
Definition set_failed (at_ : instant) (code message : string) (r : row) : row := {|
  dv_command_id := dv_command_id r; dv_event_id := dv_event_id r; dv_event_seq := dv_event_seq r;
  dv_input_binding := dv_input_binding r; dv_claim_token := None; dv_claimed_until := None;
  dv_delivered_at := dv_delivered_at r; dv_failed_at := Some at_;
  dv_indeterminate_at := dv_indeterminate_at r; dv_failure_code := Some code;
  dv_failure_message := Some message |}.
Definition set_indeterminate (at_ : instant) (r : row) : row := {|
  dv_command_id := dv_command_id r; dv_event_id := dv_event_id r; dv_event_seq := dv_event_seq r;
  dv_input_binding := dv_input_binding r; dv_claim_token := None; dv_claimed_until := None;
  dv_delivered_at := dv_delivered_at r; dv_failed_at := dv_failed_at r;
  dv_indeterminate_at := Some at_; dv_failure_code := dv_failure_code r;
  dv_failure_message := dv_failure_message r |}.
(** [delivered_at = now(), indeterminate_at = NULL]: the claim is not touched. *)
Definition set_reconciled (at_ : instant) (r : row) : row := {|
  dv_command_id := dv_command_id r; dv_event_id := dv_event_id r; dv_event_seq := dv_event_seq r;
  dv_input_binding := dv_input_binding r; dv_claim_token := dv_claim_token r;
  dv_claimed_until := dv_claimed_until r; dv_delivered_at := Some at_; dv_failed_at := dv_failed_at r;
  dv_indeterminate_at := None; dv_failure_code := dv_failure_code r;
  dv_failure_message := dv_failure_message r |}.

(** [UPDATE .. SET f WHERE sel]: the table and the rows affected. *)
Definition update_where (sel : (string * string) -> row -> bool) (f : row -> row) t : table * Z :=
  (map_imap (fun k r => Some (if sel k r then f r else r)) t,
   Z.of_nat (size (filter (fun '(k, r) => sel k r = true) t))).

(** ** The transaction that claims *)

Inductive ClaimAnswer :=
| NoRow
| AlreadyDelivered
| AlreadyFailed (code message : string)
| AlreadyIndeterminate
| ActivelyClaimed
| ClaimExpired
| EarlierPending
| Claimed.

Definition event_of (l : list event) (id : string) : option event :=
  head (List.filter (fun e => bool_decide (event_id e = id)) l).

(** An earlier row of the same aggregate that is claimed now or was appended
    within the lease. *)
Definition earlier_pending (l : list event) (now : instant) (r : row) t : bool :=
  match event_of l (dv_event_id r) with
  | None => false
  | Some current =>
      existsb (fun '(_, d) =>
        match event_of l (dv_event_id d) with
        | None => false
        | Some e =>
            unsettled d && (dv_event_seq d <? dv_event_seq r)%Z
            && (match dv_claimed_until d with Some until => instant_ltb now until | None => false end
                || match ts_parse (appended_at e) with
                   | Some at_ => negb (elapsed_at_least now at_ PTY_DELIVERY_LEASE_SECS)
                   | None => false
                   end)
            && bool_decide (aggregate_type e = aggregate_type current)
            && bool_decide (aggregate_id e = aggregate_id current)
        end) (map_to_list t)
  end.

Definition at_key (key k : string * string) : bool := bool_decide (k = key).

(** The transaction of [deliver_submission]. *)
Definition claim_delivery (l : list event) (now : instant) (claim_token : string) (key : string * string) t
  : ClaimAnswer * table :=
  match t !! key with
  | None => (NoRow, t)
  | Some r =>
      if delivered r then (AlreadyDelivered, t)
      else if failed r then
        (AlreadyFailed (default "" (dv_failure_code r)) (default "" (dv_failure_message r)), t)
      else if undetermined r then (AlreadyIndeterminate, t)
      else if match dv_claimed_until r with Some until => instant_ltb now until | None => false end
      then (ActivelyClaimed, t)
      else if claimed r then
        (ClaimExpired,
         (update_where (fun k r => at_key key k && unsettled r && claimed r) (set_indeterminate now) t).1)
      else if earlier_pending l now r t then (EarlierPending, t)
      else
        (Claimed,
         (update_where (fun k r => at_key key k && unsettled r && negb (claimed r))
            (set_claim (Some claim_token) (Some (plus_secs now PTY_DELIVERY_LEASE_SECS))) t).1)
  end.

(** What the requester is answered when the claim was not taken; [None] is the
    answer of the command itself. *)
Definition all_codes : list KernelErrorCode :=
  [EHandshake; EUnsupportedVersion; ECapability; EValidation; EDuplicateKey; EFrameSize; ESealed; EAlreadyActive;
   ENotFound; EIndeterminate; EStaleVersion; EIllegalEdge; EAuthority; EIdempotencyConflict; EFenced; EOverloaded;
   ESlowConsumer; EStorage; ESchema; EPrivilege; EBlobIntegrity; EBlobTombstoned].
Definition claim_refusal (a : ClaimAnswer) : option KernelErrorCode :=
  match a with
  | AlreadyDelivered | Claimed => None
  | AlreadyFailed code _ =>
      Some (default EStorage (head (List.filter (fun c => bool_decide (code_str c = code)) all_codes)))
  | AlreadyIndeterminate | ClaimExpired => Some EIndeterminate
  | ActivelyClaimed => Some EOverloaded
  | EarlierPending => Some EStaleVersion
  | NoRow => Some EStorage
  end.

(** ** The updates outside it *)

(** The release after a refusal that is not indeterminate. *)
Definition release_claim (key : string * string) (claim_token : string) t : table :=
  (update_where (fun k r => at_key key k && bool_decide (dv_claim_token r = Some claim_token) && unsettled r)
     (set_claim None None) t).1.

Definition held_by (delivery_id claim_token : string) (r : row) : bool :=
  bool_decide (dv_event_id r = delivery_id) && unsettled r && bool_decide (dv_claim_token r = Some claim_token).

(** [abandon_pty_delivery]. *)
Definition abandon_pty_delivery (now : instant) (delivery_id claim_token : string) t : table :=
  (update_where (fun _ r => held_by delivery_id claim_token r) (set_indeterminate now) t).1.

(** [settle_pty_delivery]. *)
Definition settle_pty_delivery (now : instant) (delivery_id claim_token : string) (result : PtyDeliveryResult) t
  : option table :=
  let '(t', n) :=
    update_where (fun _ r => held_by delivery_id claim_token r)
      (match result with
       | Applied => set_delivered now
       | Refused code message => set_failed now (code_str code) message
       end) t in
  if (n =? 1)%Z then Some t' else None.

Definition row_of_event (delivery_id : string) t : option row :=
  snd <$> head (map_to_list (filter (fun '(_, r) => dv_event_id r = delivery_id) t)).

(** [reconcile_pty_delivery]. *)
Definition reconcile_pty_delivery (now : instant) (delivery_id : string) (result : PtyDeliveryResult) t
  : option table :=
  match result with
  | Refused _ _ => None
  | Applied =>
      r ← row_of_event delivery_id t;
      if failed r || (negb (delivered r) && negb (undetermined r)) || claimed r then None
      else if undetermined r then
        let '(t', n) :=
          update_where (fun _ r => bool_decide (dv_event_id r = delivery_id) && undetermined r
                                   && negb (delivered r) && negb (failed r) && negb (claimed r))
            (set_reconciled now) t in
        if (n =? 1)%Z then Some t' else None
      else Some t
  end.

(** [quarantine_orphaned_pty_deliveries]. *)
Definition quarantine_orphaned (now : instant) t : table :=
  (update_where (fun _ r => unsettled r) (set_indeterminate now) t).1.

(** [delivery_ack_result]. *)
Definition delivery_ack_result (r : PtyDeliveryResult) : result KernelErrorCode (result PtyRefusal unit) :=
  match r with
  | Applied => Ok (Ok tt)
  | Refused code message =>
      if (PTY_DELIVERY_FAILURE_MAX_BYTES <? Str.len message)%Z then Err EFrameSize
      else Ok (Err (pty_refuse code))
  end.

(** ** Attempts, acknowledgements and the registry together *)

(** Where an attempt is: holding its claim, waiting for the acknowledgement on a
    channel, about to release the claim ([true]: after it had sent), or about to
    abandon it. *)
Inductive Phase := Holding | Waiting (owner channel : Z) | Releasing (after_send : bool) | Abandoning.
Record Attempt := { at_key_ : string * string; at_delivery : string; at_phase : Phase }.

(** An acknowledgement being handled: found in the registry, then settled. *)
Record Ack := {
  ack_conn : Z;
  ack_delivery : string;
  ack_claim : string;
  ack_result : PtyDeliveryResult;
  ack_answer : result PtyRefusal unit;
  ack_settled : bool;
}.

(** [w_attempts] is by claim token; [w_answers] holds what was sent on a one-shot
    channel; [w_orphans] are the claims a closed connection left to abandon;
    [w_used] are the tokens minted so far and [w_sent] the deliveries handed to a
    host, in order, over all runs of the daemon. *)
Record AttemptWorld := {
  w_hub : PtyHub;
  w_table : table;
  w_attempts : gmap string Attempt;
  w_acks : list Ack;
  w_answers : gmap Z (result PtyRefusal unit);
  w_orphans : list (string * string);
  w_used : gset string;
  w_sent : list string;
}.

Definition with_table t (w : AttemptWorld) : AttemptWorld := {|
  w_hub := w_hub w; w_table := t; w_attempts := w_attempts w; w_acks := w_acks w; w_answers := w_answers w;
  w_orphans := w_orphans w; w_used := w_used w; w_sent := w_sent w |}.
Definition with_hub (h : PtyHub) (w : AttemptWorld) : AttemptWorld := {|
  w_hub := h; w_table := w_table w; w_attempts := w_attempts w; w_acks := w_acks w; w_answers := w_answers w;
  w_orphans := w_orphans w; w_used := w_used w; w_sent := w_sent w |}.
Definition with_attempts (m : gmap string Attempt) (w : AttemptWorld) : AttemptWorld := {|
  w_hub := w_hub w; w_table := w_table w; w_attempts := m; w_acks := w_acks w; w_answers := w_answers w;
  w_orphans := w_orphans w; w_used := w_used w; w_sent := w_sent w |}.
Definition with_acks (acks : list Ack) (w : AttemptWorld) : AttemptWorld := {|
  w_hub := w_hub w; w_table := w_table w; w_attempts := w_attempts w; w_acks := acks; w_answers := w_answers w;
  w_orphans := w_orphans w; w_used := w_used w; w_sent := w_sent w |}.
Definition with_orphans (o : list (string * string)) (w : AttemptWorld) : AttemptWorld := {|
  w_hub := w_hub w; w_table := w_table w; w_attempts := w_attempts w; w_acks := w_acks w; w_answers := w_answers w;
  w_orphans := o; w_used := w_used w; w_sent := w_sent w |}.
Definition set_phase (p : Phase) (a : Attempt) : Attempt := {|
  at_key_ := at_key_ a; at_delivery := at_delivery a; at_phase := p |}.

Definition fresh_row (command_id event_id : string) (seq : Z) (binding : option string) : row := {|
  dv_command_id := command_id; dv_event_id := event_id; dv_event_seq := seq; dv_input_binding := binding;
  dv_claim_token := None; dv_claimed_until := None; dv_delivered_at := None; dv_failed_at := None;
  dv_indeterminate_at := None; dv_failure_code := None; dv_failure_message := None |}.

(** Send one control under a claim: to the session's owner, or to the manager. *)
Definition sends (claim_token : string) (control : ServerControl) (h : PtyHub) (owner ch : Z) (h' : PtyHub) : Prop :=
  (exists id generation, deliver_to_session id generation owner claim_token control h = Ok (ch, h')) \/
  deliver_to_manager owner claim_token control h = Ok (Some (ch, h')).

(** The end of the wait, for a session's delivery and for a start. *)
Definition finishes (owner : Z) (delivery_id : string) (a : Acknowledged) (h : PtyHub) (res : result PtyRefusal unit)
    (h' : PtyHub) : Prop :=
  deliver_finish owner delivery_id a h = (res, h') \/ deliver_start_finish delivery_id a h = (res, h').

(** The verbs that are not part of a delivery. *)
Definition plain_verb (v : HubVerb) : bool :=
  match v with
  | DeliverToSession _ _ _ _ _ | DeliverToManager _ _ _ | DeliverFinish _ _ _ | DeliverStartFinish _ _
  | TakeDeliveryAck _ _ _ | Disconnect _ => false
  | _ => true
  end.

Inductive attempt_step : AttemptWorld -> AttemptWorld -> Prop :=
| as_register key command_id event_id_ seq binding w :
    (* the command path inserts the row with its event *)
    w_table w !! key = None -> (forall k r, w_table w !! k = Some r -> dv_event_id r <> event_id_) ->
    attempt_step w (with_table (<[key := fresh_row command_id event_id_ seq binding]> (w_table w)) w)
| as_claim l now token key r t' w :
    token ∉ w_used w -> w_table w !! key = Some r ->
    claim_delivery l now token key (w_table w) = (Claimed, t') ->
    attempt_step w {| w_hub := w_hub w; w_table := t';
      w_attempts := <[token := {| at_key_ := key; at_delivery := dv_event_id r; at_phase := Holding |}]> (w_attempts w);
      w_acks := w_acks w; w_answers := w_answers w; w_orphans := w_orphans w;
      w_used := {[token]} ∪ w_used w; w_sent := w_sent w |}
| as_not_claimed l now token key answer t' w :
    claim_delivery l now token key (w_table w) = (answer, t') -> answer <> Claimed ->
    attempt_step w (with_table t' w)
| as_refused token a w :
    (* no session, no route, no capability, no queue capacity, or pending already *)
    w_attempts w !! token = Some a -> at_phase a = Holding ->
    attempt_step w (with_attempts (<[token := set_phase (Releasing false) a]> (w_attempts w)) w)
| as_send token a control owner ch h' w :
    w_attempts w !! token = Some a -> at_phase a = Holding -> control_delivery_id control = Some (at_delivery a) ->
    sends token control (w_hub w) owner ch h' ->
    attempt_step w {| w_hub := h'; w_table := w_table w;
      w_attempts := <[token := set_phase (Waiting owner ch) a]> (w_attempts w);
      w_acks := w_acks w; w_answers := w_answers w; w_orphans := w_orphans w; w_used := w_used w;
      w_sent := w_sent w ++ [at_delivery a] |}
| as_finish token a owner ch answer res h' w :
    w_attempts w !! token = Some a -> at_phase a = Waiting owner ch ->
    (forall res0, answer = Answered res0 -> w_answers w !! ch = Some res0) ->
    finishes owner (at_delivery a) answer (w_hub w) res h' ->
    attempt_step w (with_hub h' (with_attempts
      (match res with
       | Ok _ => delete token (w_attempts w)
       | Err e => <[token := set_phase (if pr_indeterminate e then Abandoning else Releasing true) a]> (w_attempts w)
       end) w))
| as_release token a b w :
    w_attempts w !! token = Some a -> at_phase a = Releasing b ->
    attempt_step w (with_table (release_claim (at_key_ a) token (w_table w))
                      (with_attempts (delete token (w_attempts w)) w))
| as_abandon now token a w :
    w_attempts w !! token = Some a -> at_phase a = Abandoning ->
    attempt_step w (with_table (abandon_pty_delivery now (at_delivery a) token (w_table w))
                      (with_attempts (delete token (w_attempts w)) w))
| as_cancel token w :
    (* the requester's connection closed: its task is dropped wherever it is *)
    attempt_step w (with_attempts (delete token (w_attempts w)) w)
| as_ack conn d result answer token w :
    delivery_ack_result result = Ok answer -> delivery_ack_claim conn d (w_hub w) = Ok token ->
    attempt_step w (with_acks ({| ack_conn := conn; ack_delivery := d; ack_claim := token; ack_result := result;
                                  ack_answer := answer; ack_settled := false |} :: w_acks w) w)
| as_settle now pre x post t' w :
    w_acks w = pre ++ x :: post ->
    settle_pty_delivery now (ack_delivery x) (ack_claim x) (ack_result x) (w_table w) = Some t' ->
    attempt_step w (with_table t' (with_acks
      (pre ++ {| ack_conn := ack_conn x; ack_delivery := ack_delivery x; ack_claim := ack_claim x;
                 ack_result := ack_result x; ack_answer := ack_answer x; ack_settled := true |} :: post) w))
| as_take pre x post ch h' w :
    w_acks w = pre ++ x :: post -> ack_settled x = true ->
    take_delivery_ack (ack_conn x) (ack_delivery x) (ack_claim x) (w_hub w) = Ok (ch, h') ->
    attempt_step w {| w_hub := h'; w_table := w_table w; w_attempts := w_attempts w; w_acks := pre ++ post;
      w_answers := <[ch := ack_answer x]> (w_answers w); w_orphans := w_orphans w; w_used := w_used w;
      w_sent := w_sent w |}
| as_drop_ack pre x post w :
    (* settling or taking failed: the connection closes *)
    w_acks w = pre ++ x :: post -> attempt_step w (with_acks (pre ++ post) w)
| as_reconcile now d result t' w :
    reconcile_pty_delivery now d result (w_table w) = Some t' -> attempt_step w (with_table t' w)
| as_verb v w : plain_verb v = true -> attempt_step w (with_hub (exec (w_hub w) v) w)
| as_disconnect conn out h' w :
    disconnect conn (w_hub w) = (out, h') ->
    attempt_step w (with_hub h' (with_orphans (w_orphans w ++ abandoned out) w))
| as_orphan now d token pre post w :
    w_orphans w = pre ++ (d, token) :: post ->
    attempt_step w (with_table (abandon_pty_delivery now d token (w_table w)) (with_orphans (pre ++ post) w))
| as_restart now epoch w :
    attempt_step w {| w_hub := new_hub epoch; w_table := quarantine_orphaned now (w_table w); w_attempts := ∅;
      w_acks := []; w_answers := ∅; w_orphans := []; w_used := w_used w; w_sent := w_sent w |}.

Definition attempt_start (epoch : Z) : AttemptWorld := {|
  w_hub := new_hub epoch; w_table := ∅; w_attempts := ∅; w_acks := []; w_answers := ∅; w_orphans := [];
  w_used := ∅; w_sent := [] |}.

Definition attempt_reachable (w : AttemptWorld) : Prop := exists epoch, rtc attempt_step (attempt_start epoch) w.

(** ** What happens to a row *)

Definition final (r : row) : bool := delivered r || failed r.

(** A row stays, or is settled when it was not final. *)
Inductive row_move (r : row) : row -> Prop :=
| rm_same : row_move r r
| rm_settle r' : final r = false -> unsettled r' = false -> dv_claim_token r' = None ->
    (undetermined r = true -> delivered r' = true) -> delivery_check r' = true -> dv_event_id r' = dv_event_id r -> row_move r r'.

(** What the row says of an answer. *)
Definition says (r : row) (answer : result PtyRefusal unit) : bool :=
  match answer with Ok _ => delivered r | Err _ => failed r end.

Definition table_move t t' : Prop :=
  forall k, match t !! k, t' !! k with
            | None, None => True
            | Some r, Some r' => delivery_check r = true -> row_move r r'
            | _, _ => False
            end.

Lemma update_where_lookup sel f t k :
  (update_where sel f t).1 !! k = (fun r => if sel k r then f r else r) <$> t !! k.
Proof. unfold update_where. cbn. rewrite map_lookup_imap. by destruct (t !! k). Qed.

Ltac row_cases r :=
  destruct r as [? ? ? ? claim_ until_ deliv_ fail_ indet_ fcode_ fmsg_];
  destruct claim_, until_, deliv_, fail_, indet_, fcode_, fmsg_; cbn in *; try done.

Lemma update_moves sel f t :
  (forall k r, delivery_check r = true -> sel k r = true -> row_move r (f r)) -> table_move t (update_where sel f t).1.
Proof.
  intros Hf k. rewrite update_where_lookup. destruct (t !! k) as [r|]; [|done]. cbn. intros Hc.
  destruct (sel k r) eqn:E; [by eapply Hf|constructor].
Qed.

Lemma settle_move now r : delivery_check r = true -> unsettled r = true ->
  row_move r (set_indeterminate now r) /\ row_move r (set_delivered now r) /\
  forall c m, row_move r (set_failed now c m r).
Proof. intros Hc Hu. row_cases r; (split; [|split; [|intros c m]]); by apply rm_settle. Qed.

Lemma reconcile_move now r : delivery_check r = true -> undetermined r = true -> delivered r = false -> failed r = false ->
  claimed r = false -> row_move r (set_reconciled now r).
Proof. intros Hc H1 H2 H3 H4. row_cases r; by apply rm_settle. Qed.

Lemma table_move_refl t : table_move t t.
Proof. intros k. destruct (t !! k); [constructor|done]. Qed.

Lemma abandon_moves now d token t : table_move t (abandon_pty_delivery now d token t).
Proof.
  apply update_moves. intros k r Hc Hs. unfold held_by in Hs. unbool. by apply settle_move.
Qed.

Lemma quarantine_moves now t : table_move t (quarantine_orphaned now t).
Proof. apply update_moves. intros k r Hc Hs. by apply settle_move. Qed.

Lemma settle_moves now d token result t t' :
  settle_pty_delivery now d token result t = Some t' -> table_move t t'.
Proof.
  unfold settle_pty_delivery. destruct (update_where _ _ t) as [u n] eqn:E. destruct (n =? 1)%Z; [|done]. intros [= <-].
  assert (u = (update_where (fun _ r => held_by d token r)
    (match result with Applied => set_delivered now | Refused code message => set_failed now (code_str code) message end) t).1)
    as -> by (by rewrite E).
  apply update_moves. intros k r Hc Hs. unfold held_by in Hs. unbool. destruct result; by apply settle_move.
Qed.

Lemma reconcile_moves now d result t t' :
  reconcile_pty_delivery now d result t = Some t' -> table_move t t'.
Proof.
  unfold reconcile_pty_delivery. destruct result; [|done]. destruct (row_of_event d t) as [r|]; [|done]. cbn.
  destruct (_ || _); [done|]. destruct (undetermined r); [|intros [= <-]; apply table_move_refl].
  destruct (_ =? 1)%Z; [|done]. intros [= <-]. apply update_moves. intros k r' Hc Hs. unbool. by apply reconcile_move.
Qed.

(** A claim that is not taken settles the row or leaves it. *)
Lemma not_claimed_moves l now token key t answer t' :
  claim_delivery l now token key t = (answer, t') -> answer <> Claimed -> table_move t t'.
Proof.
  unfold claim_delivery. destruct (t !! key) as [r|]; [|intros [= <- <-] _; apply table_move_refl].
  repeat match goal with |- context [if ?b then _ else _] => destruct b end; intros [= <- <-] Hn;
    try done; try apply table_move_refl.
  apply (update_moves (fun k r => at_key key k && unsettled r && claimed r)). intros k r' Hc Hs. unbool. by apply settle_move.
Qed.

(** A claim is taken on an open row, and only there. *)
Lemma claimed_row l now token key t r t' :
  t !! key = Some r -> claim_delivery l now token key t = (Claimed, t') ->
  unsettled r = true /\ claimed r = false /\
  t' = <[key := set_claim (Some token) (Some (plus_secs now PTY_DELIVERY_LEASE_SECS)) r]> t.
Proof.
  intros Hr. unfold claim_delivery. rewrite Hr. destruct (delivered r) eqn:H1; [done|]. destruct (failed r) eqn:H2; [done|].
  destruct (undetermined r) eqn:H3; [done|]. destruct (match dv_claimed_until r with Some _ => _ | None => _ end); [done|].
  destruct (claimed r) eqn:H4; [done|]. destruct (earlier_pending _ _ _ _); [done|]. intros [= <-].
  assert (unsettled r = true) as Hu by (unfold unsettled; by rewrite H1, H2, H3). split; [done|]. split; [done|].
  apply map_eq. intros k.
  pose proof (update_where_lookup (fun k r => at_key key k && unsettled r && negb (claimed r))
    (set_claim (Some token) (Some (plus_secs now PTY_DELIVERY_LEASE_SECS))) t k) as Hl. unfold update_where in Hl. cbn in Hl. rewrite Hl.
  unfold at_key. destruct (decide (k = key)) as [->|Hne].
  - rewrite lookup_insert_eq, Hr. cbn. by rewrite bool_decide_eq_true_2, Hu, H4.
  - rewrite lookup_insert_ne by done. rewrite bool_decide_eq_false_2 by done. cbn. by destruct (t !! k).
Qed.

Lemma release_lookup key token t k :
  release_claim key token t !! k =
  (fun r => if at_key key k && bool_decide (dv_claim_token r = Some token) && unsettled r then set_claim None None r else r)
    <$> t !! k.
Proof. apply update_where_lookup. Qed.

(** ** The invariant *)

(** A row an attempt may claim. *)
Definition open_row (r : row) : Prop := unsettled r = true /\ claimed r = false.

(** What an attempt knows of its row. *)
Definition attempt_ok (w : AttemptWorld) (token : string) (a : Attempt) (r : row) : Prop :=
  match at_phase a with
  | Holding | Releasing false =>
      at_delivery a ∉ w_sent w /\ (dv_claim_token r = Some token \/ unsettled r = false)
  | Waiting _ ch => (0 <= ch < h_channels (w_hub w))%Z /\
      (forall d p, h_pending (w_hub w) !! d = Some p -> pd_channel p = ch -> d = at_delivery a) /\
      (forall answer, w_answers w !! ch = Some answer -> says r answer = true)
  | Releasing true => dv_claim_token r <> Some token
  | Abandoning => True
  end.

(** Nothing was sent for this attempt yet. *)
Definition unsent (a : Attempt) : bool :=
  match at_phase a with Holding | Releasing false => true | _ => false end.

Record attempts_inv (w : AttemptWorld) : Prop := {
  ai_controls : controls_inv (w_hub w);
  ai_unique k k' r r' : w_table w !! k = Some r -> w_table w !! k' = Some r' -> dv_event_id r = dv_event_id r' -> k = k';
  ai_checks k r : w_table w !! k = Some r -> delivery_check r = true;
  ai_once : NoDup (w_sent w);
  ai_sent d : d ∈ w_sent w -> exists k r, w_table w !! k = Some r /\ dv_event_id r = d /\ ~ open_row r;
  ai_used token : is_Some (w_attempts w !! token) -> token ∈ w_used w;
  ai_tokens k r token : w_table w !! k = Some r -> dv_claim_token r = Some token -> token ∈ w_used w;
  ai_attempts token a : w_attempts w !! token = Some a ->
    exists r, w_table w !! at_key_ a = Some r /\ dv_event_id r = at_delivery a /\ attempt_ok w token a r;
  ai_unsent token token' a a' : w_attempts w !! token = Some a -> w_attempts w !! token' = Some a' ->
    unsent a = true -> unsent a' = true -> at_delivery a = at_delivery a' -> token = token';
  ai_results x : x ∈ w_acks w -> delivery_ack_result (ack_result x) = Ok (ack_answer x);
  ai_acks x : x ∈ w_acks w -> ack_settled x = true ->
    exists key r, w_table w !! key = Some r /\ dv_event_id r = ack_delivery x /\ says r (ack_answer x) = true;
  ai_answers ch : is_Some (w_answers w !! ch) -> (0 <= ch < h_channels (w_hub w))%Z;
}.

Lemma start_inv epoch : attempts_inv (attempt_start epoch).
Proof.
  split; cbn; [apply new_controls_inv|..]; try (by constructor); try (by intros ? ?%not_elem_of_nil);
    intros *; rewrite ?lookup_empty; try done; by intros [].
Qed.

Lemma row_move_facts r r' : delivery_check r = true -> row_move r r' ->
  dv_event_id r' = dv_event_id r /\ delivery_check r' = true /\ (forall x, says r x = true -> says r' x = true) /\
  (unsettled r = false -> unsettled r' = false) /\ (~ open_row r -> ~ open_row r') /\
  (forall tok, dv_claim_token r' = Some tok -> dv_claim_token r = Some tok) /\
  (forall tok, dv_claim_token r = Some tok -> dv_claim_token r' = Some tok \/ unsettled r' = false).
Proof.
  intros Hc Hm. destruct Hm as [|s' Hf Hu Hcl _ Hc' He]; [by split_and!; auto|]. split_and!; try done.
  - unfold final in Hf. apply orb_false_iff in Hf as [Hd Hf]. intros [] Hx; cbn in Hx; congruence.
  - intros _ [Ho _]. congruence.
  - intros tok. by rewrite Hcl.
  - intros tok _. by right.
Qed.

Lemma move_lookup t t' k r' : table_move t t' -> t' !! k = Some r' ->
  exists r, t !! k = Some r /\ (delivery_check r = true -> row_move r r').
Proof. intros Hm Hl. specialize (Hm k). rewrite Hl in Hm. destruct (t !! k) as [r|]; [by exists r|done]. Qed.

Lemma move_lookup_r t t' k r : table_move t t' -> t !! k = Some r ->
  exists r', t' !! k = Some r' /\ (delivery_check r = true -> row_move r r').
Proof. intros Hm Hl. specialize (Hm k). rewrite Hl in Hm. destruct (t' !! k) as [r'|]; [by exists r'|done]. Qed.

Lemma attempt_ok_move w t' token a r r' :
  delivery_check r = true -> row_move r r' -> attempt_ok w token a r -> attempt_ok (with_table t' w) token a r'.
Proof.
  intros Hc Hm. destruct (row_move_facts _ _ Hc Hm) as (_ & _ & Hf & Hu & _ & Hcl & Hcl').
  unfold attempt_ok. destruct (at_phase a) as [|ow ch|[]|]; cbn.
  - intros [Hs [Ht|Ht]]; (split; [done|]); [by apply Hcl'|right; by apply Hu].
  - intros (H1 & H2 & H3). split_and!; try done; try apply H1. intros x Ha. by apply Hf, H3.
  - intros Hne Ht. by apply Hne, Hcl.
  - intros [Hs [Ht|Ht]]; (split; [done|]); [by apply Hcl'|right; by apply Hu].
  - done.
Qed.

(** Settling rows keeps the invariant. *)
Lemma move_inv w t' : attempts_inv w -> table_move (w_table w) t' -> attempts_inv (with_table t' w).
Proof.
  intros Hi Hm. split; cbn; try apply Hi.
  - intros k k' r r' H1 H2 He. destruct (move_lookup _ _ _ _ Hm H1) as (r0 & L1 & M1).
    destruct (move_lookup _ _ _ _ Hm H2) as (r0' & L2 & M2). pose proof (ai_checks _ Hi _ _ L1) as C1.
    pose proof (ai_checks _ Hi _ _ L2) as C2. eapply (ai_unique _ Hi); [done..|].
    destruct (row_move_facts _ _ C1 (M1 C1)) as (<- & _). by destruct (row_move_facts _ _ C2 (M2 C2)) as (<- & _).
  - intros k r H1. destruct (move_lookup _ _ _ _ Hm H1) as (r0 & L1 & M1). pose proof (ai_checks _ Hi _ _ L1) as C1.
    by apply (row_move_facts _ _ C1 (M1 C1)).
  - intros d Hd. destruct (ai_sent _ Hi _ Hd) as (k & r & L & He & Ho). destruct (move_lookup_r _ _ _ _ Hm L) as (r' & L' & M).
    pose proof (ai_checks _ Hi _ _ L) as C. destruct (row_move_facts _ _ C (M C)) as (He' & _ & _ & _ & Ho' & _).
    exists k, r'. split_and!; [done|congruence|by apply Ho'].
  - intros k r token L Ht. destruct (move_lookup _ _ _ _ Hm L) as (r0 & L0 & M). pose proof (ai_checks _ Hi _ _ L0) as C.
    destruct (row_move_facts _ _ C (M C)) as (_ & _ & _ & _ & _ & Hcl & _). eapply (ai_tokens _ Hi); [done|by apply Hcl].
  - intros token a Ha. destruct (ai_attempts _ Hi _ _ Ha) as (r & L & He & Hok).
    destruct (move_lookup_r _ _ _ _ Hm L) as (r' & L' & M). pose proof (ai_checks _ Hi _ _ L) as C.
    destruct (row_move_facts _ _ C (M C)) as (He' & _). exists r'. split; [done|]. split; [congruence|].
    eapply attempt_ok_move; [done|by apply M|done].
  - intros k Hk Hs. destruct (ai_acks _ Hi _ Hk Hs) as (key & r & L & He & Hf).
    destruct (move_lookup_r _ _ _ _ Hm L) as (r' & L' & M). pose proof (ai_checks _ Hi _ _ L) as C.
    destruct (row_move_facts _ _ C (M C)) as (He' & _ & Hf' & _). exists key, r'. split_and!; [done|congruence|by apply Hf'].
Qed.

(** A change of the registry keeps it: no entry takes a channel that was given. *)
Lemma hub_inv w h' : attempts_inv w -> pending_change (w_hub w) h' -> attempts_inv (with_hub h' w).
Proof.
  intros Hi Hp. pose proof (pending_change_inv _ _ (ai_controls _ Hi) Hp) as Hc.
  assert (h_channels (w_hub w) <= h_channels h' /\
    forall d p, h_pending h' !! d = Some p -> h_pending (w_hub w) !! d = Some p \/ h_channels (w_hub w) <= pd_channel p)%Z
    as [Hle Hpend].
  { destruct Hp as [Hsub _ ->|d p c _ _ Hch -> -> _]; (split; [lia|]).
    - intros d p Hp. left. by eapply lookup_weaken.
    - intros d' p' [[<- <-]|[_ Hp]]%lookup_insert_Some; [right; lia|by left]. }
  split; cbn; try apply Hi; [done|..].
  - intros token a Ha. destruct (ai_attempts _ Hi _ _ Ha) as (r & L & He & Hok). exists r. split_and!; [done..|].
    unfold attempt_ok in *. cbn. destruct (at_phase a) as [|ow ch|[]|]; try done. destruct Hok as (H1 & H2 & H3).
    split_and!; try lia; [|done]. intros d p Hd Hch. destruct (Hpend _ _ Hd) as [Hd'|]; [by eapply H2|lia].
  - intros ch Hch. pose proof (ai_answers _ Hi _ Hch). lia.
Qed.

(** An attempt that ends. *)
Lemma drop_attempt_inv w token : attempts_inv w -> attempts_inv (with_attempts (delete token (w_attempts w)) w).
Proof.
  intros Hi. split; cbn; try apply Hi.
  - intros tok [a [_ Ha]%lookup_delete_Some]. by apply (ai_used _ Hi).
  - intros tok a [_ Ha]%lookup_delete_Some. by apply (ai_attempts _ Hi).
  - intros tok tok' a a' [_ Ha]%lookup_delete_Some [_ Ha']%lookup_delete_Some. by apply (ai_unsent _ Hi).
Qed.

(** An attempt that goes on to its next phase. *)
Lemma phase_inv w token a ph :
  attempts_inv w -> w_attempts w !! token = Some a ->
  (forall r, w_table w !! at_key_ a = Some r -> attempt_ok w token a r -> attempt_ok w token (set_phase ph a) r) ->
  (unsent (set_phase ph a) = true -> unsent a = true) ->
  attempts_inv (with_attempts (<[token := set_phase ph a]> (w_attempts w)) w).
Proof.
  intros Hi Ha Hok Hun. split; cbn; try apply Hi.
  - intros tok [a' [[<- _]|[_ Ha']]%lookup_insert_Some]; by apply (ai_used _ Hi).
  - intros tok a' [[<- <-]|[_ Ha']]%lookup_insert_Some; [|by apply (ai_attempts _ Hi)]. cbn.
    destruct (ai_attempts _ Hi _ _ Ha) as (r & L & He & Hr). exists r. split_and!; [done..|by apply Hok].
  - intros tok tok' b b' [[<- <-]|[_ Hb]]%lookup_insert_Some [[<- <-]|[_ Hb']]%lookup_insert_Some U U' He; [done|..].
    + by eapply (ai_unsent _ Hi); [..|exact (Hun U)|exact U'|].
    + by eapply (ai_unsent _ Hi); [..|exact U|exact (Hun U')|].
    + by eapply (ai_unsent _ Hi).
Qed.

(** The acknowledgements being handled. *)
Lemma acks_inv w acks :
  attempts_inv w ->
  (forall x, x ∈ acks -> delivery_ack_result (ack_result x) = Ok (ack_answer x) /\ (ack_settled x = true ->
     exists key r, w_table w !! key = Some r /\ dv_event_id r = ack_delivery x /\ says r (ack_answer x) = true)) ->
  attempts_inv (with_acks acks w).
Proof. intros Hi Hx. split; cbn; try apply Hi; intros; by apply Hx. Qed.

Lemma orphans_inv w o : attempts_inv w -> attempts_inv (with_orphans o w).
Proof. intros Hi. split; apply Hi. Qed.

Lemma register_inv w key c e seq binding :
  attempts_inv w -> w_table w !! key = None -> (forall k r, w_table w !! k = Some r -> dv_event_id r <> e) ->
  attempts_inv (with_table (<[key := fresh_row c e seq binding]> (w_table w)) w).
Proof.
  intros Hi Hn He.
  assert (forall k r, w_table w !! k = Some r -> <[key := fresh_row c e seq binding]> (w_table w) !! k = Some r) as Hold.
  { intros k r L. rewrite lookup_insert_ne; [done|congruence]. }
  split; cbn; try apply Hi.
  - intros k k' r r' [[<- <-]|[_ L]]%lookup_insert_Some [[<- <-]|[_ L']]%lookup_insert_Some E; [done|..].
    + by destruct (He _ _ L').
    + by destruct (He _ _ L).
    + by eapply (ai_unique _ Hi).
  - intros k r [[<- <-]|[_ L]]%lookup_insert_Some; [done|by eapply (ai_checks _ Hi)].
  - intros d Hd. destruct (ai_sent _ Hi _ Hd) as (k & r & L & H). exists k, r. split; [by apply Hold|done].
  - intros k r token [[<- <-]|[_ L]]%lookup_insert_Some; [done|by eapply (ai_tokens _ Hi)].
  - intros token a Ha. destruct (ai_attempts _ Hi _ _ Ha) as (r & L & H). exists r. split; [by apply Hold|done].
  - intros x Hx Hs. destruct (ai_acks _ Hi _ Hx Hs) as (k & r & L & H). exists k, r. split; [by apply Hold|done].
Qed.

Lemma says_not_final r x : final r = false -> says r x = false.
Proof. unfold final. rewrite orb_false_iff. intros [??]. by destruct x. Qed.

(** The claim of an unsettled row nothing was sent for, taken or released. *)
Lemma claim_change_inv w key r r' :
  attempts_inv w -> w_table w !! key = Some r -> final r = false -> dv_event_id r' = dv_event_id r ->
  delivery_check r' = true -> dv_event_id r ∉ w_sent w ->
  (forall token a, w_attempts w !! token = Some a -> at_delivery a = dv_event_id r ->
     unsent a = false /\ dv_claim_token r' <> Some token) ->
  (forall token, dv_claim_token r' = Some token -> token ∈ w_used w) ->
  attempts_inv (with_table (<[key := r']> (w_table w)) w).
Proof.
  intros Hi L Hf He Hc Hs Ha Hu.
  assert (forall k s', <[key := r']> (w_table w) !! k = Some s' ->
    exists s, w_table w !! k = Some s /\ dv_event_id s = dv_event_id s') as Hback.
  { intros k s' [[<- <-]|[_ L']]%lookup_insert_Some; [by exists r|by exists s']. }
  split; cbn; try apply Hi.
  - intros k k' s s' (q & Q & E)%Hback (q' & Q' & E')%Hback E0. eapply (ai_unique _ Hi); [done..|congruence].
  - intros k s [[<- <-]|[_ L']]%lookup_insert_Some; [done|by eapply (ai_checks _ Hi)].
  - intros d Hd. destruct (ai_sent _ Hi _ Hd) as (k & s & L' & E & Ho). exists k, s.
    rewrite lookup_insert_ne; [done|]. intros ->. congruence.
  - intros k s token [[<- <-]|[_ L']]%lookup_insert_Some; [apply Hu|by eapply (ai_tokens _ Hi)].
  - intros token a La. destruct (ai_attempts _ Hi _ _ La) as (s & L' & E & Hok).
    destruct (decide (at_key_ a = key)) as [Hk|Hk]; [|exists s; by rewrite lookup_insert_ne].
    rewrite Hk in *. simplify_eq. exists r'. rewrite lookup_insert_eq. split_and!; [done|congruence|].
    destruct (Ha _ _ La) as [Hun Hne]; [done|]. unfold attempt_ok, unsent in *.
    destruct (at_phase a) as [|ow ch|[]|]; try done. cbn. destruct Hok as (H1 & H2 & H3). split_and!; try apply H1; [done|].
    intros x Hans. specialize (H3 _ Hans). by rewrite says_not_final in H3.
  - intros x Hx Hset. destruct (ai_acks _ Hi _ Hx Hset) as (k & s & L' & E & Hfin). exists k, s.
    rewrite lookup_insert_ne; [done|]. intros ->. simplify_eq. by rewrite says_not_final in Hfin.
Qed.

(** A row nothing holds: no attempt is about to send it, and it was never sent. *)
Lemma open_row_free w key r :
  attempts_inv w -> w_table w !! key = Some r -> open_row r ->
  dv_event_id r ∉ w_sent w /\
  forall token a, w_attempts w !! token = Some a -> at_delivery a = dv_event_id r -> unsent a = false.
Proof.
  intros Hi L Ho. split.
  - intros Hd. destruct (ai_sent _ Hi _ Hd) as (k & r' & L' & E & Hno).
    assert (k = key) as -> by (by eapply (ai_unique _ Hi)). congruence.
  - intros token a La E. destruct (ai_attempts _ Hi _ _ La) as (r' & L' & E' & Hok).
    assert (at_key_ a = key) as Hk by (eapply (ai_unique _ Hi); [done..|congruence]). rewrite Hk in L'. simplify_eq.
    destruct Ho as [Hu Hc]. unfold attempt_ok, unsent, claimed in *.
    destruct (at_phase a) as [|ow ch|[]|]; try done; destruct Hok as (_ & [Ht|Ht]); try congruence; by rewrite Ht in Hc.
Qed.

Lemma set_claim_check r claim until : unsettled r = true -> delivery_check r = true -> is_some claim = is_some until ->
  delivery_check (set_claim claim until r) = true /\ final r = false.
Proof. intros Hu Hc Hs. destruct claim, until; try done; row_cases r. Qed.

Lemma claim_inv w l now token key r t' :
  attempts_inv w -> token ∉ w_used w -> w_table w !! key = Some r ->
  claim_delivery l now token key (w_table w) = (Claimed, t') ->
  attempts_inv {| w_hub := w_hub w; w_table := t';
    w_attempts := <[token := {| at_key_ := key; at_delivery := dv_event_id r; at_phase := Holding |}]> (w_attempts w);
    w_acks := w_acks w; w_answers := w_answers w; w_orphans := w_orphans w;
    w_used := {[token]} ∪ w_used w; w_sent := w_sent w |}.
Proof.
  intros Hi Hfresh L Hcl. destruct (claimed_row _ _ _ _ _ _ _ L Hcl) as (Hu & Hc & ->).
  destruct (open_row_free _ _ _ Hi L) as [Hs Hfree]; [done|].
  destruct (set_claim_check r (Some token) (Some (plus_secs now PTY_DELIVERY_LEASE_SECS)) Hu (ai_checks _ Hi _ _ L) eq_refl)
    as [Hck Hf].
  set (r' := set_claim _ _ r) in *.
  set (w1 := {| w_hub := w_hub w; w_table := w_table w; w_attempts := w_attempts w; w_acks := w_acks w;
                w_answers := w_answers w; w_orphans := w_orphans w; w_used := {[token]} ∪ w_used w; w_sent := w_sent w |}).
  assert (attempts_inv w1) as Hi1.
  { split; try apply Hi; cbn; [intros tok H; pose proof (ai_used _ Hi _ H)|
      intros k q tok H1 H2; pose proof (ai_tokens _ Hi _ _ _ H1 H2)]; set_solver. }
  assert (attempts_inv (with_table (<[key := r']> (w_table w1)) w1)) as Hi2.
  { eapply (claim_change_inv _ _ r); try done; cbn.
    - intros tok a La E. split; [by eapply Hfree|]. intros [= <-]. apply Hfresh, (ai_used _ Hi). by eexists.
    - intros tok [= <-]. set_solver. }
  split; cbn; try apply Hi2.
  - intros tok [a [[<- _]|[_ Ha]]%lookup_insert_Some]; [set_solver|]. apply (ai_used _ Hi2). by eexists.
  - intros tok a [[<- <-]|[_ Ha]]%lookup_insert_Some; [|by apply (ai_attempts _ Hi2)]. cbn. exists r'.
    rewrite lookup_insert_eq. split_and!; try done. by left.
  - intros tok tok' a a' [[<- <-]|[_ Ha]]%lookup_insert_Some [[<- <-]|[_ Ha']]%lookup_insert_Some U U' E; [done|..].
    + cbn in E. pose proof (Hfree _ _ Ha' (eq_sym E)). congruence.
    + cbn in E. pose proof (Hfree _ _ Ha E). congruence.
    + by eapply (ai_unsent _ Hi).
Qed.

Lemma release_cases key token t :
  release_claim key token t = t \/
  exists r, t !! key = Some r /\ dv_claim_token r = Some token /\ unsettled r = true /\
    release_claim key token t = <[key := set_claim None None r]> t.
Proof.
  destruct (t !! key) as [r|] eqn:L.
  - destruct (bool_decide (dv_claim_token r = Some token) && unsettled r) eqn:E.
    + right. exists r. unbool. split_and!; try done. apply map_eq. intros k. rewrite release_lookup. unfold at_key.
      destruct (decide (k = key)) as [->|Hne].
      * rewrite lookup_insert_eq, L. cbn. rewrite !bool_decide_eq_true_2 by done. by destruct (unsettled r).
      * rewrite lookup_insert_ne, bool_decide_eq_false_2 by done. cbn. by destruct (t !! k).
    + left. apply map_eq. intros k. rewrite release_lookup. unfold at_key. destruct (decide (k = key)) as [->|Hne].
      * rewrite L. cbn. by rewrite <-andb_assoc, E, andb_false_r.
      * rewrite bool_decide_eq_false_2 by done. cbn. by destruct (t !! k).
  - left. apply map_eq. intros k. rewrite release_lookup. unfold at_key. destruct (decide (k = key)) as [->|Hne].
    + by rewrite L.
    + rewrite bool_decide_eq_false_2 by done. cbn. by destruct (t !! k).
Qed.

Lemma release_inv w token a b :
  attempts_inv w -> w_attempts w !! token = Some a -> at_phase a = Releasing b ->
  attempts_inv (with_table (release_claim (at_key_ a) token (w_table w)) (with_attempts (delete token (w_attempts w)) w)).
Proof.
  intros Hi La Hp. pose proof (drop_attempt_inv w token Hi) as Hd.
  destruct (release_cases (at_key_ a) token (w_table w)) as [->|(r & L & Ht & Hu & ->)]; [by destruct w|].
  destruct (ai_attempts _ Hi _ _ La) as (r' & L' & E & Hok). simplify_eq. unfold attempt_ok in Hok. rewrite Hp in Hok.
  destruct b; [done|]. destruct Hok as [Hs _].
  destruct (set_claim_check r None None Hu (ai_checks _ Hi _ _ L) eq_refl) as [Hck Hf].
  eapply (claim_change_inv (with_attempts _ w) _ r); try done; cbn; [by rewrite E|].
  intros tok a' [Hne La']%lookup_delete_Some E'. split; [|done]. destruct (unsent a') eqn:U; [|done]. exfalso. apply Hne.
  eapply (ai_unsent _ Hi); [done..| |done|congruence]. unfold unsent. by rewrite Hp.
Qed.

(** What was sent: on a new channel, which no answer was sent on. *)
Lemma sends_ok token control h owner ch h' d :
  control_delivery_id control = Some d -> sends token control h owner ch h' ->
  pending_change h h' /\ ch = h_channels h /\ h_channels h' = (h_channels h + 1)%Z /\
  exists p, h_pending h' = <[d := p]> (h_pending h).
Proof.
  intros Hd Hs.
  assert (exists claim, enqueue owner claim d control h = Ok (ch, h')) as (claim & He).
  { destruct Hs as [(id & g & Hr)|Hr].
    - unfold deliver_to_session in Hr. rewrite Hd in Hr. inv_ok. simplify_eq. by eexists.
    - unfold deliver_to_manager in Hr. rewrite Hd in Hr. inv_ok. destruct (bool_decide _); inv_ok; simplify_eq. by eexists. }
  destruct (enqueue_ok _ _ _ _ _ _ _ Hd He) as (Hpc & _ & Hch & Hp & _). split_and!; [done|done| |by eexists].
  unfold enqueue in He. inv_ok. by simplify_eq.
Qed.

Lemma send_inv w token a control owner ch h' :
  attempts_inv w -> w_attempts w !! token = Some a -> at_phase a = Holding ->
  control_delivery_id control = Some (at_delivery a) -> sends token control (w_hub w) owner ch h' ->
  attempts_inv {| w_hub := h'; w_table := w_table w;
    w_attempts := <[token := set_phase (Waiting owner ch) a]> (w_attempts w);
    w_acks := w_acks w; w_answers := w_answers w; w_orphans := w_orphans w; w_used := w_used w;
    w_sent := w_sent w ++ [at_delivery a] |}.
Proof.
  intros Hi La Hp Hd Hs. destruct (sends_ok _ _ _ _ _ _ _ Hd Hs) as (Hpc & Hch & Hn & p & Hpend).
  pose proof (hub_inv _ _ Hi Hpc) as Hh.
  destruct (ai_attempts _ Hi _ _ La) as (r & L & E & Hok). unfold attempt_ok in Hok. rewrite Hp in Hok. destruct Hok as [Hns Hr].
  assert (Hun : unsent a = true) by (unfold unsent; by rewrite Hp).
  assert (attempts_inv (with_attempts (<[token := set_phase (Waiting owner ch) a]> (w_attempts w)) (with_hub h' w))) as Hi2.
  { apply (phase_inv (with_hub h' w) token a); [done..| |by rewrite Hun]. cbn. intros r0 L0 _. pose proof (ci_counter _ (ai_controls _ Hi)).
    split_and!; [lia|lia| |].
    - rewrite Hpend. intros d q [[<- _]|[_ Hq]]%lookup_insert_Some Hqc; [done|].
      pose proof (ci_channels _ (ai_controls _ Hi) _ _ Hq). lia.
    - intros x Hans. pose proof (ai_answers _ Hi ch ltac:(by eexists)). lia. }
  split; cbn; try apply Hi2.
  - apply NoDup_app. split_and!; [apply Hi| |apply NoDup_singleton]. intros d Hin ->%list_elem_of_singleton. done.
  - intros d [Hd'| ->%list_elem_of_singleton]%elem_of_app; [by apply (ai_sent _ Hi)|]. exists (at_key_ a), r.
    split_and!; try done. intros [Hu Hc]. unfold claimed in Hc. destruct Hr as [Hr|Hr]; [by rewrite Hr in Hc|congruence].
  - intros tok a' La'. destruct (ai_attempts _ Hi2 _ _ La') as (r' & L' & E' & Hok'). exists r'. split_and!; [done..|].
    destruct (unsent a') eqn:U.
    + assert (tok <> token) as Hne.
      { intros ->. apply lookup_insert_Some in La' as [[_ <-]|[? _]]; [done|congruence]. }
      assert (at_delivery a' <> at_delivery a) as Hda.
      { intros Heq. apply Hne. apply lookup_insert_Some in La' as [[? _]|[_ La']]; [congruence|].
        by eapply (ai_unsent _ Hi). }
      unfold attempt_ok, unsent in *. destruct (at_phase a') as [|ow c|[]|]; try done; cbn in *;
        destruct Hok' as [H1 H2]; (split; [|done]); rewrite elem_of_app, list_elem_of_singleton; by intros [?|?].
    + unfold attempt_ok, unsent in *. by destruct (at_phase a') as [|ow c|[]|].
Qed.

(** The end of a wait: a refusal that is not indeterminate was answered. *)
Lemma finishes_ok owner d answer h res h' :
  finishes owner d answer h res h' ->
  pending_change h h' /\ (forall e, res = Err e -> pr_indeterminate e = false -> answer = Answered (Err e)).
Proof.
  intros Hf. split.
  - destruct Hf as [Hf|Hf].
    + pose proof (finish_pending owner d answer h) as Hp. by rewrite Hf in Hp.
    + pose proof (exec_pending h (DeliverStartFinish d answer)) as Hp. cbn [exec] in Hp. by rewrite Hf in Hp.
  - intros e -> He. destruct Hf as [Hf|Hf].
    + unfold deliver_finish in Hf. destruct answer as [[]| |]; by simplify_eq/=.
    + unfold deliver_start_finish, deliver_finish in Hf. destruct answer as [[]| |], (h_pending h !! d); by simplify_eq/=.
Qed.

Lemma finish_inv w token a owner ch answer res h' :
  attempts_inv w -> w_attempts w !! token = Some a -> at_phase a = Waiting owner ch ->
  (forall res0, answer = Answered res0 -> w_answers w !! ch = Some res0) ->
  finishes owner (at_delivery a) answer (w_hub w) res h' ->
  attempts_inv (with_hub h' (with_attempts
    (match res with
     | Ok _ => delete token (w_attempts w)
     | Err e => <[token := set_phase (if pr_indeterminate e then Abandoning else Releasing true) a]> (w_attempts w)
     end) w)).
Proof.
  intros Hi La Hp Hans Hf. destruct (finishes_ok _ _ _ _ _ _ Hf) as [Hpc Hans'].
  apply hub_inv; [|done]. destruct res as [u|e]; [by apply drop_attempt_inv|].
  apply phase_inv; try done.
  - intros r L Hok. unfold attempt_ok in *. rewrite Hp in Hok. cbn. destruct (pr_indeterminate e) eqn:He; [done|].
    specialize (Hans _ (Hans' _ eq_refl He)). destruct Hok as (_ & _ & Hfin).
    pose proof (Hfin _ Hans) as Hr. pose proof (ai_checks _ Hi _ _ L) as Hc.
    row_cases r.
  - unfold unsent. cbn. by destruct (pr_indeterminate e).
Qed.

(** Settling settles the row of the delivery. *)
Lemma settle_says now d token result answer t t' :
  delivery_ack_result result = Ok answer -> settle_pty_delivery now d token result t = Some t' ->
  exists k r, t' !! k = Some r /\ dv_event_id r = d /\ says r answer = true.
Proof.
  intros Hres. unfold settle_pty_delivery. set (f := match result with Applied => _ | Refused _ _ => _ end).
  destruct (update_where _ _ t) as [u n] eqn:E. destruct (n =? 1)%Z eqn:En; [|done]. intros [= <-].
  assert (u = (update_where (fun _ r => held_by d token r) f t).1) as -> by (by rewrite E).
  apply (f_equal snd) in E. cbn in E. subst n. set (sel := filter _ t) in En.
  destruct (decide (sel = ∅)) as [H0|Hne]; [by rewrite H0 in En|]. apply map_choose in Hne as (k & r & Hk).
  apply map_lookup_filter_Some in Hk as [Hk Hh]. exists k, (f r). rewrite update_where_lookup, Hk. cbn. rewrite Hh.
  unfold held_by in Hh. unbool. split; [done|].
  unfold f, delivery_ack_result in *. destruct result; [|destruct (_ <? _)%Z; [done|]]; by simplify_eq/=.
Qed.

Lemma take_inv w pre x post ch h' :
  attempts_inv w -> w_acks w = pre ++ x :: post -> ack_settled x = true ->
  take_delivery_ack (ack_conn x) (ack_delivery x) (ack_claim x) (w_hub w) = Ok (ch, h') ->
  attempts_inv {| w_hub := h'; w_table := w_table w; w_attempts := w_attempts w; w_acks := pre ++ post;
    w_answers := <[ch := ack_answer x]> (w_answers w); w_orphans := w_orphans w; w_used := w_used w;
    w_sent := w_sent w |}.
Proof.
  intros Hi Hx Hs Ht. pose proof (exec_pending (w_hub w) (TakeDeliveryAck (ack_conn x) (ack_delivery x) (ack_claim x))) as Hpc.
  cbn [exec] in Hpc. rewrite Ht in Hpc. pose proof (hub_inv _ _ Hi Hpc) as Hh.
  unfold take_delivery_ack in Ht. inv_ok. simplify_eq.
  match goal with H : h_pending _ !! _ = Some ?q |- _ => rename q into p; rename H into Hpend end.
  destruct (ai_acks _ Hi x) as (k & r & L & E & Hf); [rewrite Hx; set_solver|done|].
  split; cbn; try apply Hh.
  - intros token a La. destruct (ai_attempts _ Hi _ _ La) as (r' & L' & E' & Hok').
    destruct (ai_attempts _ Hh _ _ La) as (r2 & L2 & _ & Hok). cbn in L2. simplify_eq. exists r'. split_and!; [done..|].
    unfold attempt_ok in *. destruct (at_phase a) as [|ow c|[]|]; try done. destruct Hok as (H1 & H2 & H3).
    split_and!; try apply H1; [done|]. cbn in *. intros res [[<- <-]|[_ Hres]]%lookup_insert_Some.
    + destruct Hok' as (_ & H2' & _). pose proof (H2' _ _ Hpend eq_refl) as Hd. rewrite <-Hd in E'.
      assert (k = at_key_ a) as -> by (eapply (ai_unique _ Hi); [done..|congruence]). congruence.
    + by apply H3.
  - intros y Hy. apply (ai_results _ Hi). rewrite Hx. set_solver.
  - intros y Hy. apply (ai_acks _ Hi). rewrite Hx. set_solver.
  - intros c [res [[<- _]|[_ Hres]]%lookup_insert_Some]; [by apply (ci_channels _ (ai_controls _ Hi) _ _ Hpend)|].
    apply (ai_answers _ Hi). by eexists.
Qed.

Lemma restart_inv w now epoch :
  attempts_inv w ->
  attempts_inv {| w_hub := new_hub epoch; w_table := quarantine_orphaned now (w_table w); w_attempts := ∅;
      w_acks := []; w_answers := ∅; w_orphans := []; w_used := w_used w; w_sent := w_sent w |}.
Proof.
  intros Hi. pose proof (move_inv _ _ Hi (quarantine_moves now (w_table w))) as Hm.
  split; cbn; try apply Hm; [apply new_controls_inv|..]; try (by intros ? ?%not_elem_of_nil);
    intros *; rewrite ?lookup_empty; try done; by intros [].
Qed.

(** ** Every step keeps the invariant *)

Lemma step_inv w w' : attempts_inv w -> attempt_step w w' -> attempts_inv w'.
Proof.
  intros Hi Hs. destruct Hs.
  - by apply register_inv.
  - by eapply claim_inv.
  - by eapply move_inv, not_claimed_moves.
  - apply phase_inv; try done; intros *; unfold attempt_ok, unsent; by rewrite H0.
  - by eapply send_inv.
  - by eapply finish_inv.
  - by eapply release_inv.
  - eapply (move_inv (with_attempts _ w)), abandon_moves. by apply drop_attempt_inv.
  - by apply drop_attempt_inv.
  - apply acks_inv; [done|]. intros x [-> |Hx]%elem_of_cons; [done|].
    split; [by apply (ai_results _ Hi)|by apply (ai_acks _ Hi)].
  - assert (attempts_inv (with_table t' w)) as Hm by (by eapply move_inv, settle_moves).
    apply (acks_inv (with_table t' w)); [done|].
    assert (delivery_ack_result (ack_result x) = Ok (ack_answer x)) as Hx by (apply (ai_results _ Hi); rewrite H; set_solver).
    intros y [Hy|[-> |Hy]%elem_of_cons]%elem_of_app; [|split; [done|intros _; by eapply settle_says]|];
      (split; [apply (ai_results _ Hm)|apply (ai_acks _ Hm)]); cbn; rewrite H; set_solver.
  - by eapply take_inv.
  - apply acks_inv; [done|]. intros y Hy. split; [apply (ai_results _ Hi)|apply (ai_acks _ Hi)]; rewrite H; set_solver.
  - by eapply move_inv, reconcile_moves.
  - by eapply hub_inv, exec_pending.
  - apply (hub_inv (with_orphans _ w)); [by apply orphans_inv|].
    pose proof (exec_pending (w_hub w) (Disconnect conn)) as Hp. cbn [exec] in Hp. by rewrite H in Hp.
  - apply (move_inv (with_orphans (pre ++ post) w)); [by apply orphans_inv|apply abandon_moves].
  - by apply restart_inv.
Qed.

Lemma attempt_reachable_inv w : attempt_reachable w -> attempts_inv w.
Proof.
  intros [epoch Hr]. eapply (rtc_ind_r attempts_inv); [apply start_inv| |exact Hr]. intros y z _ Hs Hi. by eapply step_inv.
Qed.
(** ** What a row may become *)

(** Later on: the same delivery; a final row is untouched, and an indeterminate
    one becomes delivered or stays. *)
Definition row_later (r r' : row) : Prop :=
  dv_event_id r' = dv_event_id r /\ (final r = true -> r' = r) /\
  (undetermined r = true -> r' = r \/ delivered r' = true).

Lemma row_later_refl r : row_later r r.
Proof. by split_and!; auto. Qed.

Lemma row_later_trans r1 r2 r3 : row_later r1 r2 -> row_later r2 r3 -> row_later r1 r3.
Proof.
  intros (E1 & F1 & U1) (E2 & F2 & U2). split_and!; [congruence|..].
  - intros Hf. specialize (F1 Hf). subst. by apply F2.
  - intros Hu. destruct (U1 Hu) as [-> |Hd]; [by apply U2|]. right. rewrite F2; [done|]. unfold final. by rewrite Hd.
Qed.

Lemma move_later r r' : row_move r r' -> row_later r r'.
Proof. intros [|s Hf Hu Hc Hd Hck He]; [apply row_later_refl|]. split_and!; [done|congruence|auto]. Qed.

Lemma set_claim_later r claim until : delivery_check r = true -> unsettled r = true -> row_later r (set_claim claim until r).
Proof. intros Hc Hu. row_cases r. Qed.

Lemma step_rows w w' k r :
  attempts_inv w -> attempt_step w w' -> w_table w !! k = Some r ->
  exists r', w_table w' !! k = Some r' /\ row_later r r'.
Proof.
  intros Hi Hs L. pose proof (ai_checks _ Hi _ _ L) as Hc.
  assert (forall t', table_move (w_table w) t' -> exists r', t' !! k = Some r' /\ row_later r r') as Hmove.
  { intros t' Hm. destruct (move_lookup_r _ _ _ _ Hm L) as (r' & L' & M). exists r'. split; [done|]. by apply move_later, M. }
  destruct Hs; cbn [w_table with_table with_hub with_attempts with_acks with_orphans]; try (by exists r; split; [|apply row_later_refl]).
  - exists r. split; [|apply row_later_refl]. rewrite lookup_insert_ne; [done|congruence].
  - destruct (claimed_row _ _ _ _ _ _ _ H0 H1) as (Hu & _ & ->).
    destruct (decide (k = key)) as [-> |Hne]; [|exists r; rewrite lookup_insert_ne by done; split; [done|apply row_later_refl]].
    simplify_eq. rewrite lookup_insert_eq. eexists. split; [done|]. by apply set_claim_later.
  - by eapply Hmove, not_claimed_moves.
  - destruct (release_cases (at_key_ a) token (w_table w)) as [-> |(q & Lq & _ & Hu & ->)];
      [by exists r; split; [|apply row_later_refl]|].
    destruct (decide (k = at_key_ a)) as [-> |Hne]; [|exists r; rewrite lookup_insert_ne by done; split; [done|apply row_later_refl]].
    simplify_eq. rewrite lookup_insert_eq. eexists. split; [done|]. by apply set_claim_later.
  - by apply Hmove, abandon_moves.
  - by eapply Hmove, settle_moves.
  - by eapply Hmove, reconcile_moves.
  - by apply Hmove, abandon_moves.
  - by apply Hmove, quarantine_moves.
Qed.

(** ** The theorems *)

(** C32: A committed PTY command reaches a host at most
    once: over any history of attempts, acknowledgements, disconnects, expired
    leases and restarts no delivery is sent twice, and the row of one that was
    sent can never be claimed again. *)
Theorem deliveries_are_sent_once w :
  attempt_reachable w ->
  NoDup (w_sent w) /\
  forall d, d ∈ w_sent w -> exists k r, w_table w !! k = Some r /\ dv_event_id r = d /\
    forall l now token, (claim_delivery l now token k (w_table w)).1 <> Claimed.
Proof.
  intros Hi%attempt_reachable_inv. split; [apply Hi|]. intros d Hd. destruct (ai_sent _ Hi _ Hd) as (k & r & L & E & Ho).
  exists k, r. split_and!; [done..|]. intros l now token Hcl. apply Ho.
  destruct (claim_delivery l now token k (w_table w)) as [x t'] eqn:Hx. cbn in Hcl. subst x.
  by destruct (claimed_row _ _ _ _ _ _ _ L Hx) as (Hu & Hc & _).
Qed.

(** When the host's answer reaches a waiting attempt, the
    delivery's row already says it, and says it in every later state. *)
Theorem answers_are_durable w token a owner ch answer :
  attempt_reachable w -> w_attempts w !! token = Some a -> at_phase a = Waiting owner ch ->
  w_answers w !! ch = Some answer ->
  exists r, w_table w !! at_key_ a = Some r /\ dv_event_id r = at_delivery a /\ says r answer = true /\
    forall w', rtc attempt_step w w' -> w_table w' !! at_key_ a = Some r.
Proof.
  intros Hr La Hp Ha. pose proof (attempt_reachable_inv _ Hr) as Hi.
  destruct (ai_attempts _ Hi _ _ La) as (r & L & E & Hok). unfold attempt_ok in Hok. rewrite Hp in Hok.
  destruct Hok as (_ & _ & Hs). specialize (Hs _ Ha). exists r. split_and!; try done. clear Hr La Ha. intros w' Hsteps.
  induction Hsteps as [|w w1 w2 Hst _ IH]; [done|]. destruct (step_rows _ _ _ _ Hi Hst L) as (r' & L' & _ & Hf & _).
  assert (r' = r) as -> by (apply Hf; unfold final; destruct answer; cbn in Hs; rewrite Hs; [done|apply orb_true_r]).
  apply IH; [by eapply step_inv|done].
Qed.

(** A delivery's row keeps its constraints in every state; once
    delivered or failed it is never touched again, and once indeterminate it stays
    so or becomes delivered. *)
Theorem delivery_rows_settle w w' k r :
  attempt_reachable w -> w_table w !! k = Some r -> rtc attempt_step w w' ->
  exists r', w_table w' !! k = Some r' /\ row_later r r' /\ delivery_check r' = true.
Proof.
  intros Hi%attempt_reachable_inv L Hs. revert r L.
  induction Hs as [w|w w1 w2 Hst _ IH]; intros r L.
  - exists r. split_and!; [done|apply row_later_refl|by eapply (ai_checks _ Hi)].
  - destruct (step_rows _ _ _ _ Hi Hst L) as (r1 & L1 & R1). destruct (IH (step_inv _ _ Hi Hst) _ L1) as (r2 & L2 & R2 & C2).
    exists r2. split_and!; [done|by eapply row_later_trans|done].
Qed.
End Attempts.
