(* ===== verification/Wire.v ===== *)
(** * The wire: frames, their budget and the handshake
    (gwk-kernel/src/wire/frame.rs, hello.rs, gwk-domain/src/protocol.rs)

    A frame is a four-byte big-endian length, a kind byte and a body.  A
    connection may move so many bytes per window in each direction; a frame
    beyond that waits for the next window.  Bytes are integers of [0..255], a
    reader is the bytes still to come and how they end, and time is a counter
    that every reading of the clock and every sleep moves forward. *)

From S2P Require Import Prelude Text Command Hub.

Definition FRAME_LENGTH_PREFIX_BYTES : Z := 4.
Definition FRAME_BODY_MIN_BYTES : Z := 1.
Definition HELLO_MAX_BYTES : Z := 65536.
Definition CONNECTION_BUDGET_WINDOW_SECS : Z := 1.
Definition CONNECTION_INGRESS_BYTES_PER_WINDOW : Z := 8388608.
Definition CONNECTION_EGRESS_BYTES_PER_WINDOW : Z := 8388608.

(** ** Frame kinds *)

Inductive FrameKind := FkJson | FkPtyRaw.

#[export] Instance FrameKind_eq_dec : EqDecision FrameKind.
Proof. solve_decision. Defined.

(** [FrameKind::as_u8] and [FrameKind::from_u8]. *)
Definition kind_as_u8 (k : FrameKind) : Z := match k with FkJson => 1 | FkPtyRaw => 2 end.
Definition kind_from_u8 (b : Z) : option FrameKind :=
  if (b =? 1)%Z then Some FkJson else if (b =? 2)%Z then Some FkPtyRaw else None.

(** [WireError]: every one of them ends the connection. *)
Record WireError := { we_code : KernelErrorCode; we_fatal : bool }.
Definition wire_error (c : KernelErrorCode) : WireError := {| we_code := c; we_fatal := true |}.
Definition wire_io : WireError := wire_error EStorage.

#[export] Instance WireError_eq_dec : EqDecision WireError.
Proof. solve_decision. Defined.

(** ** Big-endian lengths *)

(** [u32::to_be_bytes] and [u32::from_be_bytes]. *)
Definition to_be_bytes (n : Z) : list Z :=
  [Z.land (Z.shiftr n 24) 255; Z.land (Z.shiftr n 16) 255; Z.land (Z.shiftr n 8) 255; Z.land n 255].
Definition from_be_bytes (l : list Z) : Z := foldl (fun n b => Z.lor (Z.shiftl n 8) b) 0%Z l.

Lemma land_255 n : Z.land n 255 = (n mod 256)%Z.
Proof. apply (Z.land_ones n 8). lia. Qed.

Lemma lor_byte n b : (0 <= b < 256)%Z -> Z.lor (Z.shiftl n 8) b = (n * 256 + b)%Z.
Proof.
  intros Hb. pose proof (Z.add_lor_land (Z.shiftl n 8) b) as H.
  assert (Z.land (Z.shiftl n 8) b = 0)%Z as Hz.
  { rewrite <-(Z.mod_small b 256), <-land_255 by lia. rewrite (Z.land_comm b), Z.land_assoc, land_255.
    rewrite Z.shiftl_mul_pow2 by lia. change (2 ^ 8)%Z with 256%Z. by rewrite Z.mod_mul. }
  rewrite Z.shiftl_mul_pow2 in * by lia. change (2 ^ 8)%Z with 256%Z in *. lia.
Qed.

Lemma from_to_be_bytes n : (0 <= n <= u32_max)%Z -> from_be_bytes (to_be_bytes n) = n.
Proof.
  intros Hn. unfold to_be_bytes, from_be_bytes. cbn [foldl]. rewrite !land_255, !Z.shiftr_div_pow2 by lia.
  change (2 ^ 24)%Z with 16777216%Z. change (2 ^ 16)%Z with 65536%Z. change (2 ^ 8)%Z with 256%Z.
  rewrite !lor_byte by (apply Z.mod_pos_bound; lia). unfold u32_max in Hn.
  Z.to_euclidean_division_equations. lia.
Qed.

Lemma to_be_bytes_range n : Forall (fun b => 0 <= b < 256)%Z (to_be_bytes n).
Proof. unfold to_be_bytes. rewrite !land_255. repeat constructor; apply Z.mod_pos_bound; lia. Qed.

(** ** Time and the budget *)

(** The clock: the time reached, and how many times it was read. *)
Record World := { w_now : Z; w_reads : nat }.

(** How long after the last point in time each reading falls. *)
Class Clock := delay : nat -> N.

Definition instant_now `{Clock} (w : World) : Z * World :=
  let now := (w_now w + Z.of_N (delay (w_reads w)))%Z in
  (now, {| w_now := now; w_reads := S (w_reads w) |}).

Definition sleep (d : Z) (w : World) : World := {| w_now := (w_now w + d)%Z; w_reads := w_reads w |}.

Inductive Direction := Ingress | Egress.

#[export] Instance Direction_eq_dec : EqDecision Direction.
Proof. solve_decision. Defined.

Record Budget := {
  ingress_per_window : Z;
  egress_per_window : Z;
  window : Z;
  ingress_spent : Z;
  egress_spent : Z;
  window_started : Z;
}.

Definition per_window (d : Direction) (b : Budget) : Z :=
  match d with Ingress => ingress_per_window b | Egress => egress_per_window b end.
Definition spent (d : Direction) (b : Budget) : Z :=
  match d with Ingress => ingress_spent b | Egress => egress_spent b end.

Definition refill (started : Z) (b : Budget) : Budget := {|
  ingress_per_window := ingress_per_window b; egress_per_window := egress_per_window b;
  window := window b; ingress_spent := 0; egress_spent := 0; window_started := started |}.
Definition charge (d : Direction) (bytes : Z) (b : Budget) : Budget := {|
  ingress_per_window := ingress_per_window b; egress_per_window := egress_per_window b;
  window := window b;
  ingress_spent := match d with Ingress => ingress_spent b + bytes | Egress => ingress_spent b end;
  egress_spent := match d with Egress => egress_spent b + bytes | Ingress => egress_spent b end;
  window_started := window_started b |}.

Section Budget.
Context `{C : Clock}.

(** [Budget::with_window]. *)
Definition with_window (ingress egress window0 : Z) (w : World) : Budget * World :=
  let '(now, w) := instant_now w in
  ({| ingress_per_window := ingress; egress_per_window := egress; window := window0;
      ingress_spent := 0; egress_spent := 0; window_started := now |}, w).

(** The loop of [Budget::spend]; [None] is out of fuel. *)
Fixpoint spend_loop (fuel : nat) (bytes : Z) (d : Direction) (b : Budget) (w : World)
  : option (Budget * World) :=
  match fuel with
  | 0 => None
  | S fuel =>
      let '(now, w) := instant_now w in
      let elapsed := saturating_sub now (window_started b) in
      let '(b, w) := if (window b <=? elapsed)%Z
                     then let '(now, w) := instant_now w in (refill now b, w)
                     else (b, w) in
      if (spent d b + bytes <=? per_window d b)%Z then Some (charge d bytes b, w)
      else spend_loop fuel bytes d b (sleep (window b - elapsed) w)
  end.

(** Two turns are enough: see [spend_loop_runs]. *)
Definition SPEND_FUEL : nat := 2.

(** [Budget::spend]. *)
Definition spend (bytes : Z) (d : Direction) (b : Budget) (w : World)
  : option (result WireError (Budget * World)) :=
  if (per_window d b <? bytes)%Z then Some (Err (wire_error EFrameSize))
  else Ok <$> spend_loop SPEND_FUEL bytes d b w.

(** ** Reading and writing frames *)

Inductive ReadEnd := Eof | ReadFailed.

(** The bytes a peer sends, and what follows the last of them. *)
Record Reader := { rd_bytes : list Z; rd_end : ReadEnd }.

(** [AsyncReadExt::read_exact]. *)
Definition read_exact (n : nat) (r : Reader) : result ReadEnd (list Z * Reader) :=
  if (n <=? length (rd_bytes r)) then
    Ok (take n (rd_bytes r), {| rd_bytes := drop n (rd_bytes r); rd_end := rd_end r |})
  else Err (rd_end r).

Record Frame := { f_kind : FrameKind; f_body : list Z }.
Inductive Incoming := InFrame (f : Frame) | InClosed.

(** What a call leaves behind: the reader, the budget and the clock. *)
Record Conn := { c_reader : Reader; c_budget : Budget; c_world : World }.

(** The body and its kind byte, once the budget let them in; an announced length
    is positive, so that the body has a first byte. *)
Definition read_body (announced : Z) (c : Conn) : result WireError (Incoming * Conn) :=
  '(body, r) ← map_err (fun _ => wire_io) (read_exact (Z.to_nat announced) (c_reader c));
  match body with
  | [] => Err wire_io
  | kind_byte :: body =>
      kind ← ok_or (kind_from_u8 kind_byte) (wire_error EHandshake);
      mret (InFrame {| f_kind := kind; f_body := body |},
            {| c_reader := r; c_budget := c_budget c; c_world := c_world c |})
  end.

(** [read_frame]. *)
Definition read_frame (max_body : Z) (c : Conn) : option (result WireError (Incoming * Conn)) :=
  let ceiling := Z.min max_body FRAME_BODY_MAX_BYTES in
  match read_exact 1 (c_reader c) with
  | Err Eof => Some (Ok (InClosed, c))
  | Err ReadFailed => Some (Err wire_io)
  | Ok (first, r) =>
      match read_exact 3 r with
      | Err _ => Some (Err wire_io)
      | Ok (rest, r) =>
          let announced := from_be_bytes (first ++ rest) in
          if (announced <? FRAME_BODY_MIN_BYTES)%Z then Some (Err (wire_error EFrameSize))
          else if (ceiling <? announced)%Z then Some (Err (wire_error EFrameSize))
          else
            match spend (FRAME_LENGTH_PREFIX_BYTES + announced) Ingress (c_budget c) (c_world c) with
            | None => None
            | Some (Err e) => Some (Err e)
            | Some (Ok (b, w)) =>
                Some (read_body announced {| c_reader := r; c_budget := b; c_world := w |})
            end
      end
  end.

(** [write_frame]: the bytes that go out in one write. *)
Definition write_frame (kind : FrameKind) (body : list Z) (b : Budget) (w : World)
  : option (result WireError (list Z * Budget * World)) :=
  let announced := (Z.of_nat (length body) + 1)%Z in
  if (u32_max <? announced)%Z then Some (Err (wire_error EFrameSize))
  else if (FRAME_BODY_MAX_BYTES <? announced)%Z then Some (Err (wire_error EFrameSize))
  else
    match spend (FRAME_LENGTH_PREFIX_BYTES + announced) Egress b w with
    | None => None
    | Some (Err e) => Some (Err e)
    | Some (Ok (b, w)) => Some (Ok (to_be_bytes announced ++ kind_as_u8 kind :: body, b, w))
    end.

(** ** The budget admits what fits, after one sleep at most *)

Record budget_ok (b : Budget) (w : World) : Prop := {
  bo_window : (0 <= window b)%Z;
  bo_started : (window_started b <= w_now w)%Z;
  bo_spent d : (0 <= spent d b <= per_window d b)%Z;
}.

(** How a charge lands: in the window that is open, or in one opened no less than
    a window's length after it. *)
Record charged (d : Direction) (bytes : Z) (b : Budget) (w : World) (b' : Budget) (w' : World) : Prop := {
  ch_ok : budget_ok b' w';
  ch_later : (w_now w <= w_now w')%Z;
  ch_window : window b' = window b;
  ch_per d' : per_window d' b' = per_window d' b;
  ch_how : (window_started b' = window_started b /\ spent d b' = spent d b + bytes /\
            forall d', d' <> d -> spent d' b' = spent d' b)%Z \/
           (window_started b + window b <= window_started b' /\ w_now w <= window_started b' /\
            spent d b' = bytes /\ forall d', d' <> d -> spent d' b' = 0)%Z;
}.

Lemma charge_spent d b bytes :
  spent d (charge d bytes b) = (spent d b + bytes)%Z /\
  forall d', d' <> d -> spent d' (charge d bytes b) = spent d' b.
Proof. destruct d; split; try done; intros []; done. Qed.

Lemma charge_here d bytes b w w' :
  budget_ok b w -> (0 <= bytes)%Z -> (spent d b + bytes <= per_window d b)%Z -> (w_now w <= w_now w')%Z ->
  charged d bytes b w (charge d bytes b) w'.
Proof.
  intros [H1 H2 H3] H0 Hfit Hw. destruct (charge_spent d b bytes) as [Hs Ho].
  split; [|done|done|by intros []|left; by split_and!]. split; [done|simpl; lia|].
  intros d'. destruct (decide (d' = d)) as [->|Hne].
  - rewrite Hs. specialize (H3 d). destruct d; simpl in *; lia.
  - rewrite Ho by done. specialize (H3 d'). by destruct d'.
Qed.

Lemma charge_next d bytes b w w' now :
  budget_ok b w -> (0 <= bytes <= per_window d b)%Z -> now = w_now w' ->
  (window_started b + window b <= now)%Z -> (w_now w <= now)%Z ->
  charged d bytes b w (charge d bytes (refill now b)) w'.
Proof.
  intros [H1 H2 H3] Hb -> Hlate Hw. destruct (charge_spent d (refill (w_now w') b) bytes) as [Hs Ho].
  split; [|done|done|by intros []|right].
  - split; [done|simpl; lia|]. intros d'. destruct (decide (d' = d)) as [->|Hne].
    + rewrite Hs. destruct d; simpl in *; lia.
    + rewrite Ho by done. specialize (H3 d'). destruct d'; simpl in *; lia.
  - split; [done|]. split; [done|]. rewrite Hs. split; [destruct d; simpl; lia|].
    intros d' Hne. rewrite Ho by done. by destruct d'.
Qed.

Lemma spend_loop_runs bytes d b w :
  budget_ok b w -> (0 <= bytes <= per_window d b)%Z ->
  exists b' w', spend_loop SPEND_FUEL bytes d b w = Some (b', w') /\ charged d bytes b w b' w'.
Proof.
  intros Hok Hb. pose proof Hok as [Hw Hs Hsp]. unfold SPEND_FUEL.
  assert (forall now, spent d (refill now b) + bytes <=? per_window d (refill now b) = true)%Z as Hfits.
  { intros now. apply Z.leb_le. destruct d; simpl in *; lia. }
  cbn [spend_loop instant_now w_now w_reads]. unfold saturating_sub.
  set (now := (w_now w + Z.of_N (delay (w_reads w)))%Z). rewrite Z.max_r by lia.
  destruct (Z.leb_spec (window b) (now - window_started b)) as [Hlate|Hearly].
  - rewrite Hfits. eexists _, _. split; [done|]. apply charge_next; simpl; (done || lia).
  - destruct (Z.leb_spec (spent d b + bytes) (per_window d b)) as [Hfit|Hnot].
    + eexists _, _. split; [done|]. apply charge_here; simpl; (done || lia).
    + cbn [sleep w_now w_reads].
      set (woken := (now + (window b - (now - window_started b)) + Z.of_N (delay (S (w_reads w))))%Z).
      rewrite Z.max_r by lia. rewrite (proj2 (Z.leb_le _ _)) by lia. rewrite Hfits.
      eexists _, _. split; [done|]. apply charge_next; simpl; (done || lia).
Qed.

Lemma spend_runs bytes d b w :
  budget_ok b w -> (0 <= bytes)%Z ->
  (per_window d b < bytes)%Z /\ spend bytes d b w = Some (Err (wire_error EFrameSize)) \/
  exists b' w', (bytes <= per_window d b)%Z /\ spend bytes d b w = Some (Ok (b', w')) /\
    charged d bytes b w b' w'.
Proof.
  intros Hok H0. unfold spend. destruct (Z.ltb_spec (per_window d b) bytes); [by left|right].
  destruct (spend_loop_runs bytes d b w Hok) as (b' & w' & -> & Hc); [lia|]. by exists b', w'.
Qed.

(** ** The rate *)

(** A connection's charges: direction, time and size, until one is refused. *)
Fixpoint charges (reqs : list (Direction * Z)) (b : Budget) (w : World)
  : option (list (Direction * Z * Z)) :=
  match reqs with
  | [] => Some []
  | (d, bytes) :: reqs =>
      match spend bytes d b w with
      | None => None
      | Some (Err _) => Some []
      | Some (Ok (b, w)) =>
          match charges reqs b w with
          | None => None
          | Some l => Some ((d, w_now w, bytes) :: l)
          end
      end
  end.

(** What was charged in a direction during a stretch of time. *)
Definition moved (d : Direction) (from until : Z) (l : list (Direction * Z * Z)) : Z :=
  foldr (fun '(d', t, n) acc =>
    match d, d' with
    | Ingress, Ingress | Egress, Egress =>
        if (from <=? t)%Z && (t <? until)%Z then (n + acc)%Z else acc
    | _, _ => acc
    end) 0%Z l.

Lemma charges_later reqs b w l :
  budget_ok b w -> Forall (fun r => 0 <= r.2)%Z reqs -> charges reqs b w = Some l ->
  Forall (fun '(_, t, _) => w_now w <= t)%Z l.
Proof.
  intros Hok HF. revert b w l Hok. induction HF as [|[d n] reqs Hn HF IH]; intros b w l Hok; simpl.
  { by intros [= <-]. }
  destruct (spend_runs n d b w Hok Hn) as [[_ ->]|(b' & w' & _ & -> & Hc)]; [by intros [= <-]|].
  destruct (charges reqs b' w') as [l'|] eqn:E; [|done]. intros [= <-].
  pose proof (ch_later _ _ _ _ _ _ Hc). constructor; [done|].
  eapply Forall_impl; [by eapply IH; [apply Hc|exact E]|]. intros [[? ?] ?]. lia.
Qed.

Lemma moved_after d from until l :
  Forall (fun '(_, t, _) => until <= t)%Z l -> moved d from until l = 0%Z.
Proof.
  induction 1 as [|[[d' t] n] l Ht _ IH]; [done|]. simpl. rewrite (proj2 (Z.ltb_ge _ _)), andb_false_r by done.
  by destruct d, d'.
Qed.

Lemma moved_cons d from until d' t n l :
  (0 <= n)%Z ->
  (moved d from until ((d', t, n) :: l) = moved d from until l \/
   d' = d /\ (from <= t < until)%Z /\ moved d from until ((d', t, n) :: l) = n + moved d from until l)%Z.
Proof.
  intros Hn. simpl. destruct (Z.leb_spec from t), (Z.ltb_spec t until), d, d'; simpl; auto; right; done.
Qed.

(** One step of the charges: the request was refused and ends them, or it was
    charged. *)
Lemma charges_cons d n reqs b w l :
  budget_ok b w -> (0 <= n)%Z -> charges ((d, n) :: reqs) b w = Some l ->
  l = [] \/ exists b' w' l', charged d n b w b' w' /\ charges reqs b' w' = Some l' /\ l = (d, w_now w', n) :: l'.
Proof.
  intros Hok Hn. simpl. destruct (spend_runs n d b w Hok Hn) as [[_ ->]|(b' & w' & _ & -> & Hc)].
  { intros [= <-]. by left. }
  destruct (charges reqs b' w') as [l'|] eqn:E; [|done]. intros [= <-]. right. by exists b', w', l'.
Qed.

(** A stretch that begins no later than the window: only this window counts. *)
Lemma moved_one_window d from reqs b w l :
  budget_ok b w -> Forall (fun r => 0 <= r.2)%Z reqs -> charges reqs b w = Some l ->
  (from <= window_started b)%Z ->
  (moved d from (from + window b) l <= per_window d b - spent d b)%Z.
Proof.
  intros Hok HF. revert b w l Hok. induction HF as [|[d' n] reqs Hn HF IH]; intros b w l Hok Hl Hfrom.
  { injection Hl as <-. pose proof (bo_spent _ _ Hok d). simpl. lia. }
  simpl in Hn. pose proof (bo_spent _ _ Hok d) as Hsp.
  destruct (charges_cons _ _ _ _ _ _ Hok Hn Hl) as [->|(b' & w' & l' & Hc & Hl' & ->)]; [simpl; lia|].
  destruct Hc as [Hok' Hlat Hwin Hper [(Hst & Hsd & Hso)|(Hst & Hnow & Hsd & Hso)]].
  - specialize (IH _ _ _ Hok' Hl' ltac:(lia)). rewrite Hwin, Hper in IH.
    destruct (moved_cons d from (from + window b) d' (w_now w') n l' Hn) as [->|(-> & _ & ->)]; [|lia].
    destruct (decide (d = d')) as [->|Hne]; [lia|]. rewrite (Hso d) in IH by done. lia.
  - rewrite moved_after; [lia|]. constructor; [pose proof (bo_started _ _ Hok'); lia|].
    eapply Forall_impl; [by eapply charges_later; [exact Hok'|done|exact Hl']|].
    intros [[? ?] ?] Ht. pose proof (bo_started _ _ Hok'). lia.
Qed.

(** A stretch that has begun: the rest of this window and the next. *)
Lemma moved_two_windows d from reqs b w l :
  budget_ok b w -> Forall (fun r => 0 <= r.2)%Z reqs -> charges reqs b w = Some l ->
  (from <= w_now w)%Z ->
  (moved d from (from + window b) l <= per_window d b - spent d b + per_window d b)%Z.
Proof.
  intros Hok HF. revert b w l Hok. induction HF as [|[d' n] reqs Hn HF IH]; intros b w l Hok Hl Hfrom.
  { injection Hl as <-. pose proof (bo_spent _ _ Hok d). simpl. lia. }
  simpl in Hn. pose proof (bo_spent _ _ Hok d) as Hsp.
  destruct (charges_cons _ _ _ _ _ _ Hok Hn Hl) as [->|(b' & w' & l' & Hc & Hl' & ->)]; [simpl; lia|].
  destruct Hc as [Hok' Hlat Hwin Hper [(Hst & Hsd & Hso)|(Hst & Hnow & Hsd & Hso)]].
  - specialize (IH _ _ _ Hok' Hl' ltac:(lia)). rewrite Hwin, Hper in IH.
    destruct (moved_cons d from (from + window b) d' (w_now w') n l' Hn) as [->|(-> & _ & ->)]; [|lia].
    destruct (decide (d = d')) as [->|Hne]; [lia|]. rewrite (Hso d) in IH by done. lia.
  - pose proof (moved_one_window d from _ _ _ _ Hok' HF Hl' ltac:(lia)) as Hone. rewrite Hwin, Hper in Hone.
    pose proof (bo_spent _ _ Hok' d) as Hsp'.
    destruct (moved_cons d from (from + window b) d' (w_now w') n l' Hn) as [->|(-> & _ & ->)]; lia.
Qed.

Lemma charges_run reqs b w :
  budget_ok b w -> Forall (fun r => 0 <= r.2)%Z reqs -> exists l, charges reqs b w = Some l.
Proof.
  intros Hok HF. revert b w Hok. induction HF as [|[d n] reqs Hn HF IH]; intros b w Hok; [by eexists|]. simpl.
  destruct (spend_runs n d b w Hok Hn) as [[_ ->]|(b' & w' & _ & -> & Hc)]; [by eexists|].
  destruct (IH b' w' (ch_ok _ _ _ _ _ _ Hc)) as [l ->]. by eexists.
Qed.

Lemma moved_bound d from reqs b w l :
  budget_ok b w -> Forall (fun r => 0 <= r.2)%Z reqs -> charges reqs b w = Some l ->
  (moved d from (from + window b) l <= 2 * per_window d b)%Z.
Proof.
  intros Hok HF. revert b w l Hok. induction HF as [|[d' n] reqs Hn HF IH]; intros b w l Hok Hl.
  { injection Hl as <-. pose proof (bo_spent _ _ Hok d). simpl. lia. }
  simpl in Hn. pose proof (bo_spent _ _ Hok d) as Hsp.
  destruct (charges_cons _ _ _ _ _ _ Hok Hn Hl) as [->|(b' & w' & l' & Hc & Hl' & ->)]; [simpl; lia|].
  pose proof (IH _ _ _ (ch_ok _ _ _ _ _ _ Hc) Hl') as IH'.
  rewrite (ch_window _ _ _ _ _ _ Hc), (ch_per _ _ _ _ _ _ Hc) in IH'.
  destruct (moved_cons d from (from + window b) d' (w_now w') n l' Hn) as [->|(-> & Hin & ->)]; [done|].
  pose proof (moved_two_windows d from _ _ _ _ (ch_ok _ _ _ _ _ _ Hc) HF Hl' ltac:(lia)) as Htwo.
  rewrite (ch_window _ _ _ _ _ _ Hc), (ch_per _ _ _ _ _ _ Hc) in Htwo.
  destruct (ch_how _ _ _ _ _ _ Hc) as [(_ & Hsd & _)|(_ & _ & Hsd & _)]; lia.
Qed.

(** Every charge of a connection is admitted or refused after at
    most one sleep, and in any stretch of time as long as a window no more than
    two windows' allowance is charged in a direction. *)
Theorem budget_bounds_the_rate ingress egress window0 w b w1 reqs :
  (0 <= ingress)%Z -> (0 <= egress)%Z -> (0 <= window0)%Z -> Forall (fun r => 0 <= r.2)%Z reqs ->
  with_window ingress egress window0 w = (b, w1) ->
  exists l, charges reqs b w1 = Some l /\
    forall d from, (moved d from (from + window0) l <= 2 * per_window d b)%Z.
Proof.
  intros Hi He Hw HF [= <- <-]. set (b := {| ingress_per_window := _ |}). set (w1 := {| w_now := _ |}).
  assert (budget_ok b w1) as Hok by (split; [done|simpl; lia|intros []; simpl; lia]).
  destruct (charges_run reqs b w1 Hok HF) as [l Hl]. exists l. split; [done|].
  intros d from. by apply (moved_bound d from reqs b w1).
Qed.

(** ** Frames come back *)

Lemma kind_round_trip k : kind_from_u8 (kind_as_u8 k) = Some k.
Proof. by destruct k. Qed.

Lemma read_exact_app l k e :
  read_exact (length l) {| rd_bytes := l ++ k; rd_end := e |} = Ok (l, {| rd_bytes := k; rd_end := e |}).
Proof.
  unfold read_exact. simpl. rewrite length_app, (proj2 (Nat.leb_le _ _)) by lia.
  by rewrite take_app_length, drop_app_length.
Qed.

(** The bytes of one frame. *)
Definition frame_bytes (f : Frame) : list Z :=
  to_be_bytes (Z.of_nat (length (f_body f)) + 1) ++ kind_as_u8 (f_kind f) :: f_body f.

Lemma write_frame_runs f b w :
  budget_ok b w -> (Z.of_nat (length (f_body f)) + 1 <= FRAME_BODY_MAX_BYTES)%Z ->
  (FRAME_LENGTH_PREFIX_BYTES + FRAME_BODY_MAX_BYTES <= per_window Egress b)%Z ->
  exists b' w', write_frame (f_kind f) (f_body f) b w = Some (Ok (frame_bytes f, b', w')) /\
    charged Egress (4 + (Z.of_nat (length (f_body f)) + 1)) b w b' w'.
Proof.
  intros Hok Hlen Hper. unfold write_frame. cbn zeta. unfold FRAME_BODY_MAX_BYTES, FRAME_LENGTH_PREFIX_BYTES, u32_max in *.
  rewrite (proj2 (Z.ltb_ge _ _)) by lia. rewrite (proj2 (Z.ltb_ge _ _)) by lia.
  destruct (spend_runs (4 + (Z.of_nat (length (f_body f)) + 1)) Egress b w Hok) as [[Hlt _]|(b' & w' & _ & -> & Hc)];
    [lia..|]. by exists b', w'.
Qed.

Lemma read_frame_runs f rest e max_body b w :
  budget_ok b w -> (Z.of_nat (length (f_body f)) + 1 <= FRAME_BODY_MAX_BYTES)%Z ->
  (Z.of_nat (length (f_body f)) + 1 <= max_body)%Z ->
  (FRAME_LENGTH_PREFIX_BYTES + FRAME_BODY_MAX_BYTES <= per_window Ingress b)%Z ->
  exists b' w',
    read_frame max_body {| c_reader := {| rd_bytes := frame_bytes f ++ rest; rd_end := e |};
                           c_budget := b; c_world := w |} =
      Some (Ok (InFrame f, {| c_reader := {| rd_bytes := rest; rd_end := e |}; c_budget := b'; c_world := w' |})) /\
    charged Ingress (4 + (Z.of_nat (length (f_body f)) + 1)) b w b' w'.
Proof.
  intros Hok Hlen Hmax Hper. set (n := (Z.of_nat (length (f_body f)) + 1)%Z) in *.
  assert (exists b1 b2 b3 b4, to_be_bytes n = [b1; b2; b3; b4]) as (b1 & b2 & b3 & b4 & Hb) by (by eexists _, _, _, _).
  assert (from_be_bytes [b1; b2; b3; b4] = n) as Hn.
  { rewrite <-Hb. apply from_to_be_bytes. unfold FRAME_BODY_MAX_BYTES, u32_max in *. lia. }
  unfold read_frame, frame_bytes. fold n. rewrite Hb. cbn [c_reader app].
  change (read_exact 1 {| rd_bytes := b1 :: ?l; rd_end := e |}) with
    (@Ok ReadEnd _ ([b1], {| rd_bytes := l; rd_end := e |})).
  cbn [read_exact]. change (read_exact 3 {| rd_bytes := b2 :: b3 :: b4 :: ?l; rd_end := e |}) with
    (@Ok ReadEnd _ ([b2; b3; b4], {| rd_bytes := l; rd_end := e |})).
  cbn zeta. cbn [app]. rewrite Hn. unfold FRAME_BODY_MIN_BYTES. rewrite (proj2 (Z.ltb_ge _ _)) by lia.
  rewrite (proj2 (Z.ltb_ge _ _)) by lia. cbn [c_budget c_world].
  destruct (spend_runs (4 + n) Ingress b w Hok) as [[Hlt _]|(b' & w' & _ & Hsp & Hc)];
    [lia|unfold FRAME_LENGTH_PREFIX_BYTES in *; lia|].
  unfold FRAME_LENGTH_PREFIX_BYTES. rewrite Hsp. exists b', w'. split; [|done].
  unfold read_body. cbn [c_reader c_budget c_world].
  replace (Z.to_nat n) with (length (kind_as_u8 (f_kind f) :: f_body f)) by (cbn [length]; lia).
  rewrite app_comm_cons, read_exact_app. cbn. rewrite kind_round_trip. cbn. by destruct f.
Qed.

(** A peer that writes frames one after the other, and one that reads to the end. *)
Fixpoint write_frames (fs : list Frame) (b : Budget) (w : World)
  : option (result WireError (list Z * Budget * World)) :=
  match fs with
  | [] => Some (Ok ([], b, w))
  | f :: fs =>
      match write_frame (f_kind f) (f_body f) b w with
      | Some (Ok (out, b, w)) =>
          match write_frames fs b w with
          | Some (Ok (out', b, w)) => Some (Ok (out ++ out', b, w))
          | r => r
          end
      | r => r
      end
  end.

Fixpoint read_frames (fuel : nat) (max_body : Z) (c : Conn) : option (result WireError (list Frame * Conn)) :=
  match fuel with
  | 0 => None
  | S fuel =>
      match read_frame max_body c with
      | None => None
      | Some (Err e) => Some (Err e)
      | Some (Ok (InClosed, c)) => Some (Ok ([], c))
      | Some (Ok (InFrame f, c)) =>
          match read_frames fuel max_body c with
          | Some (Ok (fs, c)) => Some (Ok (f :: fs, c))
          | r => r
          end
      end
  end.

Definition fits_frame (max_body : Z) (f : Frame) : Prop :=
  (Z.of_nat (length (f_body f)) + 1 <= Z.min max_body FRAME_BODY_MAX_BYTES)%Z.

(** A budget with room for the largest frame. *)
Definition serves_frames (d : Direction) (b : Budget) (w : World) : Prop :=
  budget_ok b w /\ (FRAME_LENGTH_PREFIX_BYTES + FRAME_BODY_MAX_BYTES <= per_window d b)%Z.

Lemma charged_serves d d' n b w b' w' : serves_frames d b w -> charged d' n b w b' w' -> serves_frames d b' w'.
Proof. intros [_ Hp] Hc. split; [apply Hc|]. by rewrite (ch_per _ _ _ _ _ _ Hc). Qed.

Lemma write_frames_run fs max_body b w :
  serves_frames Egress b w -> Forall (fits_frame max_body) fs ->
  exists b' w', write_frames fs b w = Some (Ok (concat (frame_bytes <$> fs), b', w')).
Proof.
  intros Hs HF. revert b w Hs. induction HF as [|f fs Hf HF IH]; intros b w Hs; [by eexists _, _|].
  cbn [write_frames]. unfold fits_frame in Hf.
  destruct (write_frame_runs f b w (proj1 Hs) ltac:(lia) (proj2 Hs)) as (b1 & w1 & -> & Hc).
  destruct (IH b1 w1 (charged_serves _ _ _ _ _ _ _ Hs Hc)) as (b2 & w2 & ->). by eexists _, _.
Qed.

Lemma read_frames_run fs max_body b w :
  serves_frames Ingress b w -> Forall (fits_frame max_body) fs ->
  exists b' w', read_frames (S (length fs)) max_body
      {| c_reader := {| rd_bytes := concat (frame_bytes <$> fs); rd_end := Eof |}; c_budget := b; c_world := w |} =
    Some (Ok (fs, {| c_reader := {| rd_bytes := []; rd_end := Eof |}; c_budget := b'; c_world := w' |})).
Proof.
  intros Hs HF. revert b w Hs. induction HF as [|f fs Hf HF IH]; intros b w Hs; [by eexists _, _|].
  cbn [length]. remember (S (length fs)) as k. cbn [read_frames fmap list_fmap concat]. unfold fits_frame in Hf.
  destruct (read_frame_runs f (concat (frame_bytes <$> fs)) Eof max_body b w (proj1 Hs) ltac:(lia) ltac:(lia) (proj2 Hs))
    as (b1 & w1 & -> & Hc).
  destruct (IH b1 w1 (charged_serves _ _ _ _ _ _ _ Hs Hc)) as (b2 & w2 & ->). by eexists _, _.
Qed.

(** C14: Frames written one after the other to a connection are read
    back as the same frames, followed by a clean end, when each fits the ceiling
    and both byte budgets let a whole frame pass in time. *)
Theorem frames_survive_the_wire fs max_body b w b2 w2 :
  serves_frames Egress b w -> serves_frames Ingress b2 w2 -> Forall (fits_frame max_body) fs ->
  exists bytes b' w' b2' w2',
    write_frames fs b w = Some (Ok (bytes, b', w')) /\
    read_frames (S (length fs)) max_body
      {| c_reader := {| rd_bytes := bytes; rd_end := Eof |}; c_budget := b2; c_world := w2 |} =
    Some (Ok (fs, {| c_reader := {| rd_bytes := []; rd_end := Eof |}; c_budget := b2'; c_world := w2' |})).
Proof.
  intros Hw Hr HF. destruct (write_frames_run fs max_body b w Hw HF) as (b' & w' & Hb).
  destruct (read_frames_run fs max_body b2 w2 Hr HF) as (b2' & w2' & Hb2). by eexists _, _, _, _, _.
Qed.

(** ** Whatever a peer sends is answered *)

Lemma to_from_be_bytes b1 b2 b3 b4 :
  Forall (fun b => 0 <= b < 256)%Z [b1; b2; b3; b4] ->
  to_be_bytes (from_be_bytes [b1; b2; b3; b4]) = [b1; b2; b3; b4] /\
  (0 <= from_be_bytes [b1; b2; b3; b4] <= u32_max)%Z.
Proof.
  intros HF. repeat match goal with H : Forall _ (_ :: _) |- _ => apply Forall_cons in H as [? H] end.
  unfold to_be_bytes, from_be_bytes. cbn [foldl]. rewrite !lor_byte, !land_255, !Z.shiftr_div_pow2 by lia.
  change (2 ^ 24)%Z with 16777216%Z. change (2 ^ 16)%Z with 65536%Z. change (2 ^ 8)%Z with 256%Z.
  unfold u32_max. split; [|lia]. repeat f_equal; Z.to_euclidean_division_equations; lia.
Qed.

Lemma kind_from_as b k : kind_from_u8 b = Some k -> kind_as_u8 k = b.
Proof.
  unfold kind_from_u8. destruct (Z.eqb_spec b 1) as [->|]; [by intros [= <-]|].
  destruct (Z.eqb_spec b 2) as [->|]; [by intros [= <-]|done].
Qed.

Lemma read_exact_ok n r l r' :
  read_exact n r = Ok (l, r') ->
  rd_bytes r = l ++ rd_bytes r' /\ length l = n /\ rd_end r' = rd_end r.
Proof.
  unfold read_exact. destruct (Nat.leb_spec n (length (rd_bytes r))); [|done]. intros [= <- <-]. simpl.
  split; [by rewrite take_drop|]. split; [rewrite length_take; lia|done].
Qed.

Lemma read_body_exact announced c r c' :
  (1 <= announced)%Z -> read_body announced c = Ok (r, c') ->
  exists f, r = InFrame f /\ (Z.of_nat (length (f_body f)) + 1 = announced)%Z /\
    rd_bytes (c_reader c) = kind_as_u8 (f_kind f) :: f_body f ++ rd_bytes (c_reader c') /\
    c_budget c' = c_budget c /\ c_world c' = c_world c.
Proof.
  intros Ha. unfold read_body. intros Hr. apply bind_ok_iff in Hr as ([body rd] & He & Hr).
  destruct (read_exact _ _) as [[body' rd']|] eqn:E; [|done]. injection He as -> ->.
  apply read_exact_ok in E as (Hb & Hl & _). destruct body as [|kb body]; [done|].
  inv_ok. simplify_eq. match goal with H : kind_from_u8 kb = Some _ |- _ => apply kind_from_as in H end.
  eexists. split; [done|]. simpl in *. subst. split; [lia|]. done.
Qed.

(** What one read does. *)
Definition reads_exactly (max_body : Z) (c : Conn) (r : result WireError (Incoming * Conn)) : Prop :=
  match r with
  | Ok (InClosed, c') => rd_bytes (c_reader c) = [] /\ c' = c
  | Ok (InFrame f, c') =>
      rd_bytes (c_reader c) = frame_bytes f ++ rd_bytes (c_reader c') /\ fits_frame max_body f /\
      charged Ingress (Z.of_nat (length (frame_bytes f))) (c_budget c) (c_world c) (c_budget c') (c_world c')
  | Err e => we_fatal e = true /\ we_code e ∈ [EFrameSize; EHandshake; EStorage]
  end.

Lemma read_frame_exact max_body c :
  budget_ok (c_budget c) (c_world c) -> Forall (fun b => 0 <= b < 256)%Z (rd_bytes (c_reader c)) ->
  exists r, read_frame max_body c = Some r /\ reads_exactly max_body c r.
Proof.
  intros Hok Hby. unfold reads_exactly, read_frame. cbn zeta.
  destruct (read_exact 1 (c_reader c)) as [[l1 r1]|e1] eqn:E1.
  2: { unfold read_exact in E1. destruct (Nat.leb_spec 1 (length (rd_bytes (c_reader c)))) as [|Hlen]; [done|].
       destruct (rd_bytes (c_reader c)) as [|x l] eqn:El; [|simpl in Hlen; lia].
       destruct e1; eexists; (split; [done|]); [done|]. split; [done|set_solver]. }
  apply read_exact_ok in E1 as (H1 & L1 & _).
  destruct (read_exact 3 r1) as [[l2 r2]|e2] eqn:E2; [|eexists; split; [done|]; split; [done|set_solver]].
  apply read_exact_ok in E2 as (H2 & L2 & _).
  destruct l1 as [|b1 [|? ?]]; try done. destruct l2 as [|b2 [|b3 [|b4 [|? ?]]]]; try done. cbn [app].
  rewrite H1, H2 in Hby. simpl in Hby.
  assert (Forall (fun b => 0 <= b < 256)%Z [b1; b2; b3; b4]) as H4.
  { rewrite !Forall_cons in Hby. destruct Hby as (? & ? & ? & ? & _). by rewrite !Forall_cons, Forall_nil. }
  destruct (to_from_be_bytes _ _ _ _ H4) as [Hbe Hrange].
  set (n := from_be_bytes [b1; b2; b3; b4]) in *. unfold FRAME_BODY_MIN_BYTES.
  destruct (Z.ltb_spec n 1); [eexists; split; [done|]; split; [done|set_solver]|].
  destruct (Z.ltb_spec (Z.min max_body FRAME_BODY_MAX_BYTES) n); [eexists; split; [done|]; split; [done|set_solver]|].
  unfold FRAME_LENGTH_PREFIX_BYTES.
  destruct (spend_runs (4 + n) Ingress (c_budget c) (c_world c) Hok ltac:(lia)) as [[_ ->]|(b' & w' & _ & -> & Hc)];
    [eexists; split; [done|]; split; [done|set_solver]|].
  eexists. split; [done|]. destruct (read_body n _) as [[r c']|e] eqn:Eb.
  - apply read_body_exact in Eb as (f & -> & Hn & Hrd & Hb & Hw); [|done]. cbn [c_reader c_budget c_world] in *.
    rewrite Hb, Hw. split; [|split].
    + rewrite H1, H2, Hrd. unfold frame_bytes. by rewrite Hn, Hbe.
    + unfold fits_frame. lia.
    + unfold frame_bytes. rewrite Hn, Hbe. cbn [app length]. by replace (Z.of_nat _) with (4 + n)%Z by lia.
  - unfold read_body in Eb. apply bind_err_iff in Eb as [Eb|([body rd] & Eb & Hr)].
    + destruct (read_exact _ _); [done|]. injection Eb as <-. split; [done|set_solver].
    + destruct body as [|kb body]; [injection Hr as <-; split; [done|set_solver]|].
      destruct (kind_from_u8 kb); [done|]. injection Hr as <-. split; [done|set_solver].
Qed.

(** Reading from whatever bytes a peer sends always ends: with a
    clean end when there are none, with a frame whose encoding is exactly the
    bytes consumed and charged, or with a fatal error of one of three codes. *)
Theorem read_frame_is_exact max_body c :
  budget_ok (c_budget c) (c_world c) -> Forall (fun b => 0 <= b < 256)%Z (rd_bytes (c_reader c)) ->
  exists r, read_frame max_body c = Some r /\
  match r with
  | Ok (InClosed, c') => rd_bytes (c_reader c) = [] /\ c' = c
  | Ok (InFrame f, c') =>
      rd_bytes (c_reader c) = frame_bytes f ++ rd_bytes (c_reader c') /\ fits_frame max_body f /\
      charged Ingress (Z.of_nat (length (frame_bytes f))) (c_budget c) (c_world c) (c_budget c') (c_world c')
  | Err e => we_fatal e = true /\ we_code e ∈ [EFrameSize; EHandshake; EStorage]
  end.
Proof. apply read_frame_exact. Qed.
End Budget.
