(* ===== verification/Outbound.v ===== *)
(** * The outbound half of a connection (gwk-kernel/src/wire/serve.rs, subscribe.rs, pty.rs)

    A connection answers requests and carries streams: event subscriptions, PTY
    attaches and raw attaches.  Each stream is a task that reads its source and
    queues frames; one loop writes frames out, answers first, and records in the
    stream's cell what has left.  The tasks, the request loop, the write loop and
    the log interleave freely.  The theorems: a stream is announced before its
    first frame and carries its source in order without a gap, what a closing
    stream reports is what the client received, and the queues stay bounded. *)

From S2P Require Import Prelude Text Envelope Command Tables Db Store Port Screen Hub Streams Wire.

Definition SUBSCRIPTION_BATCH_ROWS : Z := 256.
Definition MAX_SUBSCRIPTIONS_PER_CONNECTION : nat := 8.
Definition BATCH_QUEUE_DEPTH : nat := MAX_SUBSCRIPTIONS_PER_CONNECTION.
Definition RESPONSE_QUEUE_DEPTH : nat := 1.
Definition PAGE_BYTE_BUDGET : Z := FRAME_BODY_MAX_BYTES / 2.

(** ** Cutting a page *)

Section FitPage.
(** [item_len] is the size of an item's JSON; [None] when it does not serialize. *)
Context {A : Type} (item_len : A -> option Z).

Fixpoint fit_from (bytes : Z) (kept items : list A) : option (list A * bool) :=
  match items with
  | [] => Some (kept, false)
  | item :: items =>
      n ← item_len item;
      let bytes := (bytes + n)%Z in
      if negb (Nat.eqb (length kept) 0) && (PAGE_BYTE_BUDGET <? bytes)%Z then Some (kept, true)
      else fit_from bytes (kept ++ [item]) items
  end.

(** [fit_page]. *)
Definition fit_page (items : list A) : option (list A * bool) := fit_from 0 [] items.

Definition page_bytes (l : list A) : Z := foldr (fun x n => (default 0 (item_len x) + n)%Z) 0%Z l.
End FitPage.

Section Outbound.
Context {V S : Type} `{ES : EventStore V S} `{SM : StoreModel V S} {LAWS : EventStoreLaws V S}.
(** The size of an event's JSON. *)
Context (event_len : EventEnvelope V -> option Z).
Notation event := (EventEnvelope V).

(** ** Frames *)

(** The answers that matter here; the rest of [KernelResult] is [OtherReply]. *)
Inductive Reply :=
| Subscribed (cursor : option Z)
| PtyAttached (session_id generation : string) (rows cols : Z) (cursor : option Z)
| PtyRawAttached (session_id generation : string) (rows cols : Z) (cursor : option Z)
| ErrorReply (code : KernelErrorCode)
| OtherReply.

Inductive OutControl :=
| Response (request_id : string) (reply : Reply)
| EventBatch (request_id : string) (events : list event) (cursor : Z)
| PtyDeltaBatch (request_id session_id generation : string) (deltas : list PtyDelta) (seq : Z)
| PtyRawSnapshot (request_id generation : string) (seq : option Z) (rows cols byte_size : Z)
| PtyRawChunk (request_id generation : string) (seq byte_size : Z)
| PtyRawResized (request_id generation : string) (seq rows cols : Z)
| StreamClosed (request_id : string) (code : KernelErrorCode) (last_cursor : option Z)
| PtyStreamClosed (request_id generation : string) (code : KernelErrorCode) (last_seq : option Z)
| PtyRawStreamClosed (request_id generation : string) (code : KernelErrorCode) (last_seq : option Z)
| HostControl (control : ServerControl).

(** What a stream carries. *)
Inductive StreamUnit := UEvent (e : event) | UBatch (b : PtyBatch) | URaw (d : PtyRawDelivery).

(** What a frame is to the streams of the connection, which are numbered in the
    order they start.  This is not on the wire and no step looks at it: it only
    names the frames in the invariants.  The theorems on what a client was sent
    read [og_control] and [og_raw], by [frame_units] below. *)
Inductive Role := Plain | Announces (i : nat) | Carries (i : nat) (units : list StreamUnit) | Closes (i : nat) (cell : Z).

(** [Outgoing]: cells and flags are shared, and named by their stream. *)
Record Outgoing := {
  og_control : OutControl;
  og_raw : option string;
  og_delivered : option (nat * Z);
  og_active : option nat;
  og_role : Role;
}.

Definition plain (control : OutControl) (role : Role) : Outgoing := {|
  og_control := control; og_raw := None; og_delivered := None; og_active := None; og_role := role |}.

(** ** Stream tasks *)

Inductive Ended := SlowConsumer | Storage | Retired | Gone.

Definition ended_code (e : Ended) : option KernelErrorCode :=
  match e with
  | SlowConsumer => Some ESlowConsumer
  | Storage => Some EStorage
  | Retired => Some ENotFound
  | Gone => None
  end.

(** Where a task reads: the log after a cursor, or the replay and then what the
    session broadcasts. *)
Inductive Source :=
| FromLog (opened cursor : option Z)
| FromSession (session_id generation : string) (replay live : list PtyBatch) (next : nat) (closed : bool)
| FromRaw (generation : string) (replay live : list PtyRawDelivery) (next : nat) (closed : bool).

Inductive TaskState :=
| Running
| Sending (o : Outgoing)
| Stopped (e : Ended)
| Closing (o : Outgoing)
| Finished.

(** [tk_opened] is the value the cell was created with. *)
Record StreamTask := {
  tk_request : string;
  tk_source : Source;
  tk_state : TaskState;
  tk_opened : Z;
  tk_cell : Z;
  tk_active : bool;
}.

Definition with_source (src : Source) (t : StreamTask) : StreamTask := {|
  tk_request := tk_request t; tk_source := src; tk_state := tk_state t; tk_opened := tk_opened t;
  tk_cell := tk_cell t; tk_active := tk_active t |}.
Definition with_state (st : TaskState) (t : StreamTask) : StreamTask := {|
  tk_request := tk_request t; tk_source := tk_source t; tk_state := st; tk_opened := tk_opened t;
  tk_cell := tk_cell t; tk_active := tk_active t |}.
Definition with_cell (c : Z) (t : StreamTask) : StreamTask := {|
  tk_request := tk_request t; tk_source := tk_source t; tk_state := tk_state t; tk_opened := tk_opened t;
  tk_cell := c; tk_active := tk_active t |}.
Definition deactivated (t : StreamTask) : StreamTask := {|
  tk_request := tk_request t; tk_source := tk_source t; tk_state := tk_state t; tk_opened := tk_opened t;
  tk_cell := tk_cell t; tk_active := false |}.

(** [seq.saturating_add(1)]. *)
Definition stored_seq (seq : Z) : Z := saturating_u64 (seq + 1).

(** The items of the three loops. *)
Definition event_item (i : nat) (request_id : string) (events : list event) (cursor : Z) : Outgoing := {|
  og_control := EventBatch request_id events cursor; og_raw := None; og_delivered := Some (i, cursor);
  og_active := None; og_role := Carries i (UEvent <$> events) |}.

Definition send_item (i : nat) (request_id session_id generation : string) (b : PtyBatch) : Outgoing := {|
  og_control := PtyDeltaBatch request_id session_id generation (b_deltas b) (b_seq b); og_raw := None;
  og_delivered := Some (i, stored_seq (b_seq b)); og_active := None; og_role := Carries i [UBatch b] |}.

Definition send_raw_item (i : nat) (request_id generation : string) (d : PtyRawDelivery) : Outgoing :=
  let '(control, raw, seq) :=
    match d with
    | RawSnapshot seq rows cols bytes =>
        (PtyRawSnapshot request_id generation seq rows cols (Str.len bytes), Some bytes, seq)
    | RawOutput seq bytes => (PtyRawChunk request_id generation seq (Str.len bytes), Some bytes, Some seq)
    | RawResized seq rows cols => (PtyRawResized request_id generation seq rows cols, None, Some seq)
    end in
  {| og_control := control; og_raw := raw; og_delivered := (fun s => (i, stored_seq s)) <$> seq;
     og_active := Some i; og_role := Carries i [URaw d] |}.

Inductive Pulled := Wait | Stop (e : Ended) | Send (o : Outgoing).

(** One turn of a task's loop, up to its send. *)
Definition pull (i : nat) (t : StreamTask) (s : S) : Pulled :=
  match tk_source t with
  | FromLog _ cursor =>
      match es_read_from cursor SUBSCRIPTION_BATCH_ROWS s with
      | Err _ => Stop Storage
      | Ok [] => Wait
      | Ok events =>
          match fit_page event_len events with
          | None => Stop Storage
          | Some (events, _) =>
              match last events with
              | None => Stop Storage
              | Some e => Send (event_item i (tk_request t) events (global_sequence e))
              end
          end
      end
  | FromSession id g replay live next closed =>
      match (replay ++ live) !! next with
      | Some b => Send (send_item i (tk_request t) id g b)
      | None => if closed then Stop Retired else Wait
      end
  | FromRaw g replay live next closed =>
      match (replay ++ live) !! next with
      | Some d => Send (send_raw_item i (tk_request t) g d)
      | None => if closed then Stop Retired else Wait
      end
  end.

(** The source after its item was queued. *)
Definition advance (src : Source) (o : Outgoing) : Source :=
  match src with
  | FromLog opened _ => FromLog opened (snd <$> og_delivered o)
  | FromSession id g replay live next closed => FromSession id g replay live (Datatypes.S next) closed
  | FromRaw g replay live next closed => FromRaw g replay live (Datatypes.S next) closed
  end.

(** The last frame of a stream, from its cell. *)
Definition close_control (request_id : string) (src : Source) (code : KernelErrorCode) (cell : Z) : OutControl :=
  match src with
  | FromLog _ _ => StreamClosed request_id code (if (cell =? 0)%Z then None else Some cell)
  | FromSession _ g _ _ _ _ => PtyStreamClosed request_id g code (if (cell =? 0)%Z then None else Some (cell - 1)%Z)
  | FromRaw g _ _ _ _ => PtyRawStreamClosed request_id g code (if (cell =? 0)%Z then None else Some (cell - 1)%Z)
  end.
Definition close_item (i : nat) (t : StreamTask) (code : KernelErrorCode) : Outgoing :=
  plain (close_control (tk_request t) (tk_source t) code (tk_cell t)) (Closes i (tk_cell t)).

(** ** Admission *)

Inductive AdmittedStream :=
| AEvents (request_id : string) (cursor : option Z)
| APty (request_id session_id : string) (attached : Attached)
| APtyRaw (request_id : string) (attached : RawAttached).

(** A task that has not finished. *)
Definition alive (t : StreamTask) : bool := match tk_state t with Finished => false | _ => true end.

(** [Subscriptions::full]. *)
Definition full (streams : list StreamTask) : bool :=
  (MAX_SUBSCRIPTIONS_PER_CONNECTION <=? length (List.filter alive streams))%nat.

(** [Subscriptions::admit]. *)
Definition admit_events (request_id : string) (cursor : option Z) (streams : list StreamTask)
  : Reply * option AdmittedStream :=
  if full streams then (ErrorReply EOverloaded, None)
  else (Subscribed cursor, Some (AEvents request_id cursor)).

(** [Subscriptions::admit_pty]; [attached] is the registry's answer. *)
Definition admit_pty (request_id session_id : string) (attached : result PtyRefusal Attached)
    (streams : list StreamTask) : Reply * option AdmittedStream :=
  if full streams then (ErrorReply EOverloaded, None)
  else match attached with
       | Err e => (ErrorReply (pr_code e), None)
       | Ok a => (PtyAttached session_id (at_generation a) (at_rows a) (at_cols a) (at_cursor a),
                  Some (APty request_id session_id a))
       end.

(** [Subscriptions::admit_raw]. *)
Definition admit_raw (raw_enabled : bool) (request_id session_id : string) (attached : result PtyRefusal RawAttached)
    (streams : list StreamTask) : Reply * option AdmittedStream :=
  if negb raw_enabled then (ErrorReply ECapability, None)
  else if full streams then (ErrorReply EOverloaded, None)
  else match attached with
       | Err e => (ErrorReply (pr_code e), None)
       | Ok a => (PtyRawAttached session_id (ra_generation a) (ra_rows a) (ra_cols a) (ra_cursor a),
                  Some (APtyRaw request_id a))
       end.

Definition task (request_id : string) (src : Source) (cell : Z) : StreamTask := {|
  tk_request := request_id; tk_source := src; tk_state := Running; tk_opened := cell; tk_cell := cell;
  tk_active := true |}.

Definition seeded (cursor : option Z) : Z := match cursor with Some seq => stored_seq seq | None => 0%Z end.

(** [Subscriptions::start]. *)
Definition start (a : AdmittedStream) : StreamTask :=
  match a with
  | AEvents request_id cursor => task request_id (FromLog cursor cursor) (default 0%Z cursor)
  | APty request_id session_id a =>
      task request_id (FromSession session_id (at_generation a) (at_replay a) [] 0 false) (seeded (at_cursor a))
  | APtyRaw request_id a => task request_id (FromRaw (ra_generation a) (ra_replay a) [] 0 false) (seeded (ra_delivered a))
  end.

(** ** The connection *)

Inductive Reader := Reading | Answering (o : Outgoing) (a : option AdmittedStream) | Starting (a : option AdmittedStream).

(** The write loop: waiting, writing a frame, or with the frame out and its cell
    still to store; [Halted] when the connection is over. *)
Inductive Writer := Idle | Writing (o : Outgoing) | Wrote (o : Outgoing) | Halted.

Record ConnWorld := {
  cw_store : S;
  cw_streams : list StreamTask;
  cw_reader : Reader;
  cw_responses : list Outgoing;
  cw_inputs : list Outgoing;
  cw_batches : list Outgoing;
  cw_writer : Writer;
  cw_written : list Outgoing;
}.

Definition set_store (s : S) (w : ConnWorld) : ConnWorld := {|
  cw_store := s; cw_streams := cw_streams w; cw_reader := cw_reader w; cw_responses := cw_responses w;
  cw_inputs := cw_inputs w; cw_batches := cw_batches w; cw_writer := cw_writer w; cw_written := cw_written w |}.
Definition set_streams (l : list StreamTask) (w : ConnWorld) : ConnWorld := {|
  cw_store := cw_store w; cw_streams := l; cw_reader := cw_reader w; cw_responses := cw_responses w;
  cw_inputs := cw_inputs w; cw_batches := cw_batches w; cw_writer := cw_writer w; cw_written := cw_written w |}.
Definition set_reader (r : Reader) (w : ConnWorld) : ConnWorld := {|
  cw_store := cw_store w; cw_streams := cw_streams w; cw_reader := r; cw_responses := cw_responses w;
  cw_inputs := cw_inputs w; cw_batches := cw_batches w; cw_writer := cw_writer w; cw_written := cw_written w |}.
Definition set_responses (l : list Outgoing) (w : ConnWorld) : ConnWorld := {|
  cw_store := cw_store w; cw_streams := cw_streams w; cw_reader := cw_reader w; cw_responses := l;
  cw_inputs := cw_inputs w; cw_batches := cw_batches w; cw_writer := cw_writer w; cw_written := cw_written w |}.
Definition set_inputs (l : list Outgoing) (w : ConnWorld) : ConnWorld := {|
  cw_store := cw_store w; cw_streams := cw_streams w; cw_reader := cw_reader w; cw_responses := cw_responses w;
  cw_inputs := l; cw_batches := cw_batches w; cw_writer := cw_writer w; cw_written := cw_written w |}.
Definition set_batches (l : list Outgoing) (w : ConnWorld) : ConnWorld := {|
  cw_store := cw_store w; cw_streams := cw_streams w; cw_reader := cw_reader w; cw_responses := cw_responses w;
  cw_inputs := cw_inputs w; cw_batches := l; cw_writer := cw_writer w; cw_written := cw_written w |}.
Definition set_writer (x : Writer) (w : ConnWorld) : ConnWorld := {|
  cw_store := cw_store w; cw_streams := cw_streams w; cw_reader := cw_reader w; cw_responses := cw_responses w;
  cw_inputs := cw_inputs w; cw_batches := cw_batches w; cw_writer := x; cw_written := cw_written w |}.
Definition set_written (l : list Outgoing) (w : ConnWorld) : ConnWorld := {|
  cw_store := cw_store w; cw_streams := cw_streams w; cw_reader := cw_reader w; cw_responses := cw_responses w;
  cw_inputs := cw_inputs w; cw_batches := cw_batches w; cw_writer := cw_writer w; cw_written := l |}.

(** One stream's task changes. *)
Definition update (i : nat) (f : StreamTask -> StreamTask) (w : ConnWorld) : ConnWorld :=
  set_streams (alter f i (cw_streams w)) w.

(** A skipped frame: its stream was closed. *)
Definition inactive (o : Outgoing) (w : ConnWorld) : bool :=
  match og_active o with
  | Some i => match cw_streams w !! i with Some t => negb (tk_active t) | None => false end
  | None => false
  end.

(** What the write loop does with the frame it took. *)
Definition take_frame (o : Outgoing) (w : ConnWorld) : ConnWorld :=
  if inactive o w then w else set_writer (Writing o) w.

(** After a write: store the cell. *)
Definition store_cell (o : Outgoing) (w : ConnWorld) : ConnWorld :=
  match og_delivered o with Some (i, v) => update i (with_cell v) w | None => w end.

(** The log grew by an append. *)
Definition grows (s s' : S) : Prop :=
  exists ev fence first events rows,
    well_formed ev first events /\ es_room s (Z.of_nat (length events)) /\
    es_append ev fence events s = Ok (rows, s').

Definition broadcast_batch (b : PtyBatch) (t : StreamTask) : StreamTask :=
  match tk_source t with
  | FromSession id g replay live next false => with_source (FromSession id g replay (live ++ [b]) next false) t
  | _ => t
  end.
Definition broadcast_raw (d : PtyRawDelivery) (t : StreamTask) : StreamTask :=
  match tk_source t with
  | FromRaw g replay live next false => with_source (FromRaw g replay (live ++ [d]) next false) t
  | _ => t
  end.
Definition drop_sender (t : StreamTask) : StreamTask :=
  match tk_source t with
  | FromSession id g replay live next _ => with_source (FromSession id g replay live next true) t
  | FromRaw g replay live next _ => with_source (FromRaw g replay live next true) t
  | FromLog _ _ => t
  end.

(** The receiver is past its replay, where it can lag. *)
Definition in_live (t : StreamTask) : bool :=
  match tk_source t with
  | FromLog _ _ => false
  | FromSession _ _ replay _ next _ => (length replay <=? next)%nat
  | FromRaw _ replay _ next _ => (length replay <=? next)%nat
  end.

Definition raw_source (src : Source) : bool := match src with FromRaw _ _ _ _ _ => true | _ => false end.
Definition is_log (t : StreamTask) : bool := match tk_source t with FromLog _ _ => true | _ => false end.
Definition is_raw (t : StreamTask) : bool := raw_source (tk_source t).

(** The reader answers: what it queues, and what it then starts. *)
Definition answer (request_id : string) (r : Reply * option AdmittedStream) (w : ConnWorld) : ConnWorld :=
  set_reader (Answering (plain (Response request_id r.1)
                           (match r.2 with Some _ => Announces (length (cw_streams w)) | None => Plain end)) r.2) w.

Inductive conn_step : ConnWorld -> ConnWorld -> Prop :=
| cs_append s' w : grows (cw_store w) s' -> conn_step w (set_store s' w)
| cs_broadcast i b w : conn_step w (update i (broadcast_batch b) w)
| cs_broadcast_raw i d w : conn_step w (update i (broadcast_raw d) w)
| cs_drop_sender i w : conn_step w (update i drop_sender w)
(* the request loop *)
| cs_other request_id code w : cw_reader w = Reading ->
    conn_step w (answer request_id (default OtherReply (ErrorReply <$> code), None) w)
| cs_subscribe request_id cursor w : cw_reader w = Reading -> (forall c, cursor = Some c -> (0 <= c)%Z) ->
    conn_step w (answer request_id (admit_events request_id cursor (cw_streams w)) w)
| cs_attach request_id session_id attached w : cw_reader w = Reading ->
    conn_step w (answer request_id (admit_pty request_id session_id attached (cw_streams w)) w)
| cs_attach_raw raw_enabled request_id session_id attached w : cw_reader w = Reading ->
    conn_step w (answer request_id (admit_raw raw_enabled request_id session_id attached (cw_streams w)) w)
| cs_respond o a w : cw_reader w = Answering o a -> (length (cw_responses w) < RESPONSE_QUEUE_DEPTH)%nat ->
    conn_step w (set_reader (Starting a) (set_responses (cw_responses w ++ [o]) w))
| cs_start a w : cw_reader w = Starting a ->
    conn_step w (set_reader Reading (set_streams (cw_streams w ++ option_list (start <$> a)) w))
(* a stream *)
| cs_pull i t o w : cw_streams w !! i = Some t -> tk_state t = Running -> pull i t (cw_store w) = Send o ->
    conn_step w (update i (with_state (Sending o)) w)
| cs_stop i t e w : cw_streams w !! i = Some t -> tk_state t = Running -> pull i t (cw_store w) = Stop e ->
    conn_step w (update i (with_state (Stopped e)) w)
| cs_read_failed i t w : cw_streams w !! i = Some t -> tk_state t = Running -> is_log t = true ->
    conn_step w (update i (with_state (Stopped Storage)) w)
| cs_lagged i t w : cw_streams w !! i = Some t -> tk_state t = Running -> in_live t = true ->
    conn_step w (update i (with_state (Stopped SlowConsumer)) w)
| cs_queue i t o w : cw_streams w !! i = Some t -> tk_state t = Sending o ->
    (length (cw_batches w) < BATCH_QUEUE_DEPTH)%nat ->
    conn_step w (set_batches (cw_batches w ++ [o])
                   (update i (fun t => with_source (advance (tk_source t) o) (with_state Running t)) w))
| cs_slow i t o w : cw_streams w !! i = Some t -> tk_state t = Sending o ->
    conn_step w (update i (with_state (Stopped SlowConsumer)) w)
| cs_gone i t o w : cw_streams w !! i = Some t -> tk_state t = Sending o -> cw_writer w = Halted ->
    conn_step w (update i (with_state (Stopped Gone)) w)
| cs_deactivate i t e w : cw_streams w !! i = Some t -> tk_state t = Stopped e -> is_raw t = true -> e <> Gone ->
    conn_step w (update i deactivated w)
| cs_load i t e code w : cw_streams w !! i = Some t -> tk_state t = Stopped e -> ended_code e = Some code ->
    (is_raw t = true -> tk_active t = false) ->
    conn_step w (update i (with_state (Closing (close_item i t code))) w)
| cs_leave i t w : cw_streams w !! i = Some t -> tk_state t = Stopped Gone ->
    conn_step w (update i (with_state Finished) w)
| cs_close i t o w : cw_streams w !! i = Some t -> tk_state t = Closing o ->
    (length (cw_responses w) < RESPONSE_QUEUE_DEPTH)%nat ->
    conn_step w (set_responses (cw_responses w ++ [o]) (update i (with_state Finished) w))
| cs_close_lost i t o w : cw_streams w !! i = Some t -> tk_state t = Closing o -> cw_writer w = Halted ->
    conn_step w (update i (with_state Finished) w)
(* the registry's reverse controls *)
| cs_control c w : (length (cw_inputs w) < RESPONSE_QUEUE_DEPTH)%nat ->
    conn_step w (set_inputs (cw_inputs w ++ [plain (HostControl c) Plain]) w)
(* the write loop: responses, then inputs, then batches *)
| cs_take_response o rest w : cw_writer w = Idle -> cw_responses w = o :: rest ->
    conn_step w (take_frame o (set_responses rest w))
| cs_take_input o rest w : cw_writer w = Idle -> cw_responses w = [] -> cw_inputs w = o :: rest ->
    conn_step w (take_frame o (set_inputs rest w))
| cs_take_batch o rest w : cw_writer w = Idle -> cw_responses w = [] -> cw_inputs w = [] -> cw_batches w = o :: rest ->
    conn_step w (take_frame o (set_batches rest w))
| cs_wrote o w : cw_writer w = Writing o ->
    conn_step w (set_writer (Wrote o) (set_written (cw_written w ++ [o]) w))
| cs_store o w : cw_writer w = Wrote o -> conn_step w (store_cell o (set_writer Idle w))
| cs_write_failed o timed_out w : cw_writer w = Writing o ->
    conn_step w (set_writer Halted
      (match og_active o with Some i => if timed_out : bool then update i deactivated w else w | None => w end))
| cs_hangup w : conn_step w (set_writer Halted w).

Definition conn_start (s : S) : ConnWorld := {|
  cw_store := s; cw_streams := []; cw_reader := Reading; cw_responses := []; cw_inputs := []; cw_batches := [];
  cw_writer := Idle; cw_written := [] |}.

Definition conn_reachable (w : ConnWorld) : Prop := exists s, es_inv s /\ rtc conn_step (conn_start s) w.

(** ** What a stream carried *)

Definition units_of (i : nat) (o : Outgoing) : list StreamUnit :=
  match og_role o with Carries j us => if Nat.eqb j i then us else [] | _ => [] end.
Definition carried (i : nat) (l : list Outgoing) : list StreamUnit := flat_map (units_of i) l.

(** The cell of stream [i] after these frames. *)
Definition marks (i : nat) (c : Z) (l : list Outgoing) : Z :=
  foldl (fun c o => match og_delivered o with Some (j, v) => if Nat.eqb j i then v else c | None => c end) c l.

Definition after_cursor (cursor : option Z) (e : event) : bool :=
  match cursor with Some c => (c <? global_sequence e)%Z | None => true end.

(** Everything a stream is to carry, and what it has not queued yet. *)
Definition feed (s : S) (src : Source) : list StreamUnit :=
  match src with
  | FromLog opened _ => UEvent <$> List.filter (after_cursor opened) (es_log s)
  | FromSession _ _ replay live _ _ => UBatch <$> (replay ++ live)
  | FromRaw _ replay live _ _ => URaw <$> (replay ++ live)
  end.
Definition rest (s : S) (src : Source) : list StreamUnit :=
  match src with
  | FromLog _ cursor => UEvent <$> List.filter (after_cursor cursor) (es_log s)
  | FromSession _ _ replay live next _ => UBatch <$> drop next (replay ++ live)
  | FromRaw _ replay live next _ => URaw <$> drop next (replay ++ live)
  end.

(** The value a frame's departure stores. *)
Definition mark (i : nat) (us : list StreamUnit) : option (nat * Z) :=
  match last us with
  | Some (UEvent e) => Some (i, global_sequence e)
  | Some (UBatch b) => Some (i, stored_seq (b_seq b))
  | Some (URaw d) => (fun s => (i, stored_seq s)) <$> raw_delivery_seq d
  | None => None
  end.

Lemma carried_app i l1 l2 : carried i (l1 ++ l2) = carried i l1 ++ carried i l2.
Proof. apply flat_map_app. Qed.

Lemma marks_app i c l1 l2 : marks i c (l1 ++ l2) = marks i (marks i c l1) l2.
Proof. apply foldl_app. Qed.

(** ** Pages *)

Lemma fit_from_ok {A} (len : A -> option Z) items bytes kept page cut :
  fit_from len bytes kept items = Some (page, cut) ->
  exists more, page = kept ++ more /\ more `prefix_of` items /\ (cut = false -> more = items) /\
    (kept = [] -> items <> [] -> more <> []).
Proof.
  revert bytes kept. induction items as [|x items IH]; intros bytes kept; cbn.
  { intros [= <- <-]. exists []. by rewrite app_nil_r. }
  destruct (len x) as [n|]; [|done]. cbn. destruct (_ && _) eqn:E.
  - intros [= <- <-]. exists []. rewrite app_nil_r. split_and!; try done; [apply prefix_nil|]. intros ->. done.
  - intros (more & -> & Hp & Hc & _)%IH. exists (x :: more). rewrite <-app_assoc. split_and!; try done.
    + by apply prefix_cons.
    + intros ->. by rewrite Hc.
Qed.

Lemma fit_page_ok {A} (len : A -> option Z) items page cut :
  fit_page len items = Some (page, cut) -> items <> [] -> page <> [] /\ page `prefix_of` items.
Proof. intros (more & -> & Hp & _ & Hn)%fit_from_ok Hi. cbn. split; [by apply Hn|done]. Qed.

(** The log after an event of the log. *)
Lemma log_after_last (l : list event) lo cursor es tail e :
  increasing_from global_sequence lo l ->
  List.filter (after_cursor cursor) l = es ++ tail -> last es = Some e ->
  List.filter (after_cursor (Some (global_sequence e))) l = tail.
Proof.
  intros Hinc Hf Hl.
  assert (increasing_from global_sequence lo (es ++ tail)) as Hsub.
  { rewrite <-Hf. clear -Hinc. revert lo Hinc. induction l as [|x l IH]; intros lo; cbn; [done|]. intros [Hx Hinc].
    destruct (after_cursor cursor x); cbn; [by split; [|apply IH]|]. apply (increasing_weaken _ (global_sequence x)); [lia|by apply IH]. }
  assert (after_cursor cursor e = true) as He.
  { assert (e ∈ List.filter (after_cursor cursor) l) as Hin by (rewrite Hf; apply elem_of_app; left; by apply last_Some_elem_of).
    apply list_elem_of_In, filter_In in Hin. apply Hin. }
  assert (List.filter (after_cursor (Some (global_sequence e))) l =
          List.filter (after_cursor (Some (global_sequence e))) (List.filter (after_cursor cursor) l)) as ->.
  { clear -He. induction l as [|x l IH]; cbn [List.filter]; [done|]. destruct (after_cursor cursor x) eqn:E.
    - cbn [List.filter]. by rewrite IH.
    - rewrite <-IH. destruct (after_cursor (Some (global_sequence e)) x) eqn:E2; [|done]. exfalso.
      destruct cursor as [c|]; [|done]. cbn in *. lia. }
  rewrite Hf, List.filter_app, filter_nothing, filter_all; [done|..].
  - intros x Hx. cbn. pose proof (increasing_before _ _ _ _ e x Hsub (last_Some_elem_of _ _ Hl) Hx). lia.
  - intros x Hx. cbn. apply increasing_app in Hsub as [H1 _]. pose proof (increasing_last _ _ _ x e H1 Hl Hx). lia.
Qed.

(** ** Sources *)

(** A log cursor is where the stream was opened, or an event of the log; a
    session's is within what was broadcast. *)
Definition cursor_ok (s : S) (src : Source) : Prop :=
  match src with
  | FromLog opened cursor =>
      (forall c, opened = Some c -> (0 <= c)%Z) /\
      (cursor = opened \/ exists e, e ∈ es_log s /\ cursor = Some (global_sequence e) /\ after_cursor opened e = true)
  | FromSession _ _ replay live next _ => (next <= length (replay ++ live))%nat
  | FromRaw _ replay live next _ => (next <= length (replay ++ live))%nat
  end.

Definition one_by_one (src : Source) : bool := match src with FromLog _ _ => false | _ => true end.

(** An item of the source that was not queued yet. *)
Definition item_ok (s : S) (i : nat) (src : Source) (o : Outgoing) : Prop :=
  exists us, og_role o = Carries i us /\ us <> [] /\ og_delivered o = mark i us /\
    (forall j, og_active o = Some j -> j = i) /\
    us `prefix_of` rest s src /\ (one_by_one src = true -> length us = 1%nat) /\
    (raw_source src = true -> og_active o = Some i).

Lemma cursor_nonneg s opened cursor :
  es_inv s -> cursor_ok s (FromLog opened cursor) -> forall c, cursor = Some c -> (0 <= c)%Z.
Proof.
  intros Hs [Ho [-> |(e & He & -> & _)]] c; [apply Ho|]. intros [= <-].
  pose proof (increasing_lower _ _ _ _ (log_rises _ Hs) He). lia.
Qed.

Lemma pull_item s i t o :
  es_inv s -> cursor_ok s (tk_source t) -> pull i t s = Send o -> item_ok s i (tk_source t) o.
Proof.
  intros Hs Hc. unfold pull. destruct (tk_source t) as [opened cursor|id g r l n c|g r l n c].
  - rewrite reads_after by (done || by eapply cursor_nonneg). destruct (read_page _ _ _) as [|e0 events] eqn:Ep; [done|].
    destruct (fit_page event_len (e0 :: events)) as [[page cut]|] eqn:Ef; [|done].
    destruct (last page) as [e|] eqn:El; [|done]. intros [= <-]. apply fit_page_ok in Ef as [Hn Hp]; [|done].
    exists (UEvent <$> page). cbn. split_and!; try done.
    + by destruct page.
    + unfold mark. by rewrite fmap_last, El.
    + rewrite <-Ep in Hp. unfold read_page in Hp. destruct (transitivity Hp (prefix_take _ _)) as [tail Ht].
      exists (UEvent <$> tail). by rewrite <-fmap_app, <-Ht.
  - destruct ((r ++ l) !! n) as [b|] eqn:E; [|by destruct c]. intros [= <-]. exists [UBatch b]. split_and!; try done. cbn.
    rewrite (drop_S _ b n E). cbn. by exists (UBatch <$> drop (Datatypes.S n) (r ++ l)).
  - destruct ((r ++ l) !! n) as [d|] eqn:E; [|by destruct c]. intros [= <-]. exists [URaw d].
    unfold send_raw_item. split_and!; try (by destruct d).
    + destruct d; cbn; intros j Hj; by simplify_eq.
    + cbn. rewrite (drop_S _ d n E). cbn. by exists (URaw <$> drop (Datatypes.S n) (r ++ l)).
Qed.

Lemma drop_S' {A} (l : list A) n x k : drop n l = x :: k -> drop (Datatypes.S n) l = k.
Proof. intros H. by rewrite <-Nat.add_1_r, <-drop_drop, H. Qed.

(** Queueing an item moves the source past it. *)
Lemma advance_rest s i src o :
  es_inv s -> cursor_ok s src -> item_ok s i src o ->
  exists us, og_role o = Carries i us /\ rest s src = us ++ rest s (advance src o) /\
    feed s (advance src o) = feed s src /\ cursor_ok s (advance src o).
Proof.
  intros Hs Hc (us & Hr & Hn & Hd & _ & [tail Hp] & H1 & _). exists us. split; [done|].
  destruct src as [opened cursor|id g r l n c|g r l n c]; cbn in *.
  - apply fmap_app_inv in Hp as (es & tl & -> & -> & Hf). unfold mark in Hd. rewrite fmap_last in Hd.
    destruct (last es) as [e|] eqn:El; [|by apply last_None in El as ->]. cbn in Hd. rewrite Hd. cbn.
    rewrite (log_after_last _ _ _ _ _ _ (log_rises _ Hs) Hf El).
    split_and!; [by rewrite Hf, fmap_app|done|apply Hc|]. right. exists e.
    assert (e ∈ List.filter (after_cursor cursor) (es_log s)) as Hin.
    { rewrite Hf. apply elem_of_app. left. by apply last_Some_elem_of. }
    apply list_elem_of_In, filter_In in Hin as [Hin Ha]. split_and!; [by apply list_elem_of_In|done|].
    destruct Hc as [_ [-> |(e' & _ & -> & He')]]; [done|]. destruct opened as [c|]; [|done]. cbn in *. lia.
  - destruct us as [|u [|]]; [done| |by specialize (H1 eq_refl)]. destruct (drop n (r ++ l)) as [|b k] eqn:E; [done|].
    cbn in Hp. rewrite (drop_S' _ _ _ _ E). cbn. injection Hp as <- _. split_and!; try done.
    pose proof (f_equal length E) as El. rewrite length_drop in El. cbn in El. lia.
  - destruct us as [|u [|]]; [done| |by specialize (H1 eq_refl)]. destruct (drop n (r ++ l)) as [|b k] eqn:E; [done|].
    cbn in Hp. rewrite (drop_S' _ _ _ _ E). cbn. injection Hp as <- _. split_and!; try done.
    pose proof (f_equal length E) as El. rewrite length_drop in El. cbn in El. lia.
Qed.

(** An append adds the same events to what is left and to the whole. *)
Lemma grows_sources s s' src :
  es_inv s -> grows s s' ->
  es_inv s' /\ (cursor_ok s src -> cursor_ok s' src /\ exists more, feed s' src = feed s src ++ more /\ rest s' src = rest s src ++ more).
Proof.
  intros Hs (ev & fence & first & events & rows & Hw & Hroom & Ha).
  destruct (append_lands _ _ _ _ _ _ _ Hs Hw Hroom Ha) as (Hs' & Hlog & _). split; [done|].
  destruct src as [opened cursor|id g r l n c|g r l n c]; cbn; [|intros Hn; split; [done|]; exists []; by rewrite !app_nil_r..].
  intros [Ho Hc]. rewrite Hlog, !List.filter_app, !fmap_app. split.
  - split; [done|]. destruct Hc as [-> |(e & He & H)]; [by left|]. right. exists e. split; [|done]. apply elem_of_app. by left.
  - exists (UEvent <$> List.filter (after_cursor opened) rows). split; [done|]. do 2 f_equal.
    destruct Hc as [-> |(e & He & -> & Hoe)]; [done|].
    assert (forall x, x ∈ rows -> (global_sequence e < global_sequence x)%Z) as Hx.
    { intros x Hx. pose proof (log_rises _ Hs') as Hi. rewrite Hlog in Hi. by eapply increasing_before. }
    rewrite !filter_all; [done|..]; intros x Hin; specialize (Hx x Hin); [|cbn; lia].
    destruct opened as [c|]; [|done]. cbn in *. lia.
Qed.

Lemma item_grows s i src o more :
  item_ok s i src o -> forall s', rest s' src = rest s src ++ more -> item_ok s' i src o.
Proof.
  intros (us & H1 & H2 & H3 & H4 & H5 & H6 & H7) s' Hr. exists us. split_and!; try done. rewrite Hr. by apply prefix_app_r.
Qed.

(** ** The invariant of the streams *)

Definition in_hand (x : Writer) : list Outgoing := match x with Writing o => [o] | _ => [] end.

Definition halted (x : Writer) : bool := match x with Halted => true | _ => false end.

(** The cell says what left, up to the frame whose cell is still to be stored. *)
Definition cell_ok (i : nat) (t : StreamTask) (x : Writer) (written : list Outgoing) : Prop :=
  match x with
  | Wrote o => exists before, written = before ++ [o] /\ tk_cell t = marks i (tk_opened t) before
  | Halted => exists before, before `prefix_of` written /\ tk_cell t = marks i (tk_opened t) before
  | _ => tk_cell t = marks i (tk_opened t) written
  end.

(** What a closing frame says: the cell at some moment. *)
Definition closes (written : list Outgoing) (i : nat) (t : StreamTask) (o : Outgoing) : Prop :=
  exists code c before, og_role o = Closes i c /\ og_control o = close_control (tk_request t) (tk_source t) code c /\
    before `prefix_of` written /\ c = marks i (tk_opened t) before.

Record stream_ok (s : S) (batches : list Outgoing) (x : Writer) (written : list Outgoing) (i : nat) (t : StreamTask) : Prop := {
  so_cursor : cursor_ok s (tk_source t);
  so_prefix : carried i (written ++ in_hand x) `prefix_of` feed s (tk_source t);
  so_whole : halted x = false -> tk_active t = true ->
    carried i (written ++ in_hand x ++ batches) ++ rest s (tk_source t) = feed s (tk_source t);
  so_sending o : tk_state t = Sending o -> item_ok s i (tk_source t) o;
  so_closing o : tk_state t = Closing o -> closes written i t o /\ og_delivered o = None /\ og_active o = None;
  so_cell : cell_ok i t x written;
  so_opened opened cursor : tk_source t = FromLog opened cursor -> tk_opened t = default 0%Z opened;
  so_raw : halted x = false -> is_raw t = false -> tk_active t = true;
}.

(** A frame in a queue or on the wire. *)
Definition frame_ok (o : Outgoing) : Prop :=
  match og_role o with
  | Carries i us => us <> [] /\ og_delivered o = mark i us /\ forall j, og_active o = Some j -> j = i
  | _ => og_delivered o = None /\ og_active o = None
  end.

(** What the request loop is about to start. *)
Definition pending_admission (r : Reader) : option AdmittedStream :=
  match r with Reading => None | Answering _ a | Starting a => a end.

Definition admitted_ok (a : AdmittedStream) : Prop :=
  match a with AEvents _ cursor => forall c, cursor = Some c -> (0 <= c)%Z | _ => True end.

Record outbound_inv (w : ConnWorld) : Prop := {
  oi_store : es_inv (cw_store w);
  oi_streams i t : cw_streams w !! i = Some t ->
    stream_ok (cw_store w) (cw_batches w) (cw_writer w) (cw_written w) i t;
  oi_frames o : o ∈ cw_written w ++ in_hand (cw_writer w) ++ cw_batches w ++ cw_responses w ++ cw_inputs w -> frame_ok o;
  oi_wrote o : cw_writer w = Wrote o -> exists before, cw_written w = before ++ [o];
  oi_known o i us : o ∈ cw_written w ++ in_hand (cw_writer w) -> og_role o = Carries i us -> is_Some (cw_streams w !! i);
  oi_batches o : o ∈ cw_batches w -> exists i us t, og_role o = Carries i us /\ cw_streams w !! i = Some t /\
    (is_raw t = true -> og_active o = Some i);
  oi_quiet o i us : o ∈ cw_responses w ++ cw_inputs w -> og_role o <> Carries i us;
  oi_inputs o i c : o ∈ cw_inputs w -> og_role o <> Closes i c;
  oi_reader o a : cw_reader w = Answering o a ->
    (og_role o = Plain \/ exists i, og_role o = Announces i) /\ og_delivered o = None /\ og_active o = None;
  oi_admitted a : pending_admission (cw_reader w) = Some a -> admitted_ok a;
  oi_closes o i c : o ∈ cw_written w ++ in_hand (cw_writer w) ++ cw_responses w -> og_role o = Closes i c ->
    exists t, cw_streams w !! i = Some t /\ closes (cw_written w) i t o;
}.

(** The same stream, a step later. *)
Definition same_stream (t t' : StreamTask) : Prop :=
  tk_opened t' = tk_opened t /\ is_raw t' = is_raw t /\
  forall code c, close_control (tk_request t') (tk_source t') code c = close_control (tk_request t) (tk_source t) code c.

Lemma same_stream_refl t : same_stream t t.
Proof. done. Qed.

Lemma closes_same written i t t' o : same_stream t t' -> closes written i t o -> closes written i t' o.
Proof.
  intros (Ho & _ & Hc) (code & c & before & H1 & H2 & H3 & H4). exists code, c, before. by rewrite Hc, Ho.
Qed.

Lemma closes_more written more i t o : closes written i t o -> closes (written ++ more) i t o.
Proof.
  intros (code & c & before & H1 & H2 & H3 & H4). exists code, c, before. split_and!; try done. by apply prefix_app_r.
Qed.

Lemma update_lookup i f w j t' : cw_streams (update i f w) !! j = Some t' ->
  exists t, cw_streams w !! j = Some t /\ (j = i /\ t' = f t \/ j <> i /\ t' = t).
Proof.
  cbn. rewrite list_lookup_alter. case_decide as E.
  - subst j. destruct (cw_streams w !! i) as [t|]; [|done]. cbn. intros [= <-]. exists t. auto.
  - intros H. exists t'. auto.
Qed.

Lemma update_keeps i f w j t : cw_streams w !! j = Some t ->
  (forall t, cw_streams w !! i = Some t -> same_stream t (f t)) ->
  exists t', cw_streams (update i f w) !! j = Some t' /\ same_stream t t'.
Proof.
  intros H Hf. cbn. rewrite list_lookup_alter. case_decide as E; [|exists t; split; [done|apply same_stream_refl]].
  subst j. rewrite H. exists (f t). split; [done|]. by apply Hf.
Qed.

(** A change of one task that is good for its stream. *)
Lemma update_inv w i f :
  outbound_inv w ->
  (forall t, cw_streams w !! i = Some t -> stream_ok (cw_store w) (cw_batches w) (cw_writer w) (cw_written w) i t ->
     stream_ok (cw_store w) (cw_batches w) (cw_writer w) (cw_written w) i (f t) /\ same_stream t (f t)) ->
  outbound_inv (update i f w).
Proof.
  intros Hi Hf.
  assert (forall t, cw_streams w !! i = Some t -> same_stream t (f t)) as Hsame.
  { intros t Ht. apply (Hf t Ht). by apply (oi_streams _ Hi). }
  split; try apply Hi.
  - intros j t' (t & Ht & [[-> ->]|[_ ->]])%update_lookup; [apply (Hf t Ht)|]; by apply (oi_streams _ Hi).
  - intros o j us Ho Hr. destruct (oi_known _ Hi _ _ _ Ho Hr) as [t Ht].
    destruct (update_keeps i f w j t Ht Hsame) as (t' & Ht' & _). by exists t'.
  - intros o Ho. destruct (oi_batches _ Hi _ Ho) as (j & us & t & Hr & Ht & Ha).
    destruct (update_keeps i f w j t Ht Hsame) as (t' & Ht' & _ & Hraw & _). exists j, us, t'. by rewrite Hraw.
  - intros o j c Ho Hr. destruct (oi_closes _ Hi _ _ _ Ho Hr) as (t & Ht & Hc).
    destruct (update_keeps i f w j t Ht Hsame) as (t' & Ht' & Hs). exists t'. split; [done|]. by eapply closes_same.
Qed.

Lemma append_inv w s' : outbound_inv w -> grows (cw_store w) s' -> outbound_inv (set_store s' w).
Proof.
  intros Hi Hg. pose proof (oi_store _ Hi) as Hs.
  split; try apply Hi; cbn; [apply (grows_sources _ _ (FromLog None None) Hs Hg)|].
  intros i t Ht. pose proof (oi_streams _ Hi _ _ Ht) as Ho.
  destruct (grows_sources _ _ (tk_source t) Hs Hg) as (_ & Hsrc). destruct (Hsrc (so_cursor _ _ _ _ _ _ Ho)) as (Hc & more & Hf & Hr).
  split; try apply Ho; [done|..].
  - rewrite Hf. apply prefix_app_r, Ho.
  - intros Hh Ha. rewrite Hf, Hr, app_assoc. f_equal. by apply Ho.
  - intros o Hst. eapply item_grows; [by apply Ho|exact Hr].
Qed.

(** ** Steps of a task *)

Lemma state_ok s q x written i t st :
  stream_ok s q x written i t ->
  (forall o, st = Sending o -> item_ok s i (tk_source t) o) ->
  (forall o, st = Closing o -> closes written i t o /\ og_delivered o = None /\ og_active o = None) ->
  stream_ok s q x written i (with_state st t) /\ same_stream t (with_state st t).
Proof.
  intros Ho H1 H2. split; [|done]. split; try apply Ho; cbn; [done|]. intros o Hst. destruct (H2 o Hst) as (Hc & ?). split; [|done].
  by eapply closes_same.
Qed.

(** The source may change where the stream is no log, no item is on its way and
    nothing else moves; the kinds stay. *)
Lemma source_ok s q x written i t src more :
  stream_ok s q x written i t -> is_log t = false -> one_by_one src = true -> cursor_ok s src ->
  raw_source src = raw_source (tk_source t) ->
  (forall code c, close_control (tk_request t) src code c = close_control (tk_request t) (tk_source t) code c) ->
  feed s src = feed s (tk_source t) ++ more -> rest s src = rest s (tk_source t) ++ more ->
  stream_ok s q x written i (with_source src t) /\ same_stream t (with_source src t).
Proof.
  intros Ho Hlog H1 Hcur Hraw Hc Hf Hr.
  assert (same_stream t (with_source src t)) as Hsame by done. split; [|done]. split; cbn.
  - done.
  - rewrite Hf. apply prefix_app_r, Ho.
  - intros Hh Ha. rewrite Hf, Hr, app_assoc. f_equal. by apply Ho.
  - intros o Hst. destruct (so_sending _ _ _ _ _ _ Ho o Hst) as (us & A1 & A2 & A3 & A4 & A5 & A6 & A7).
    exists us. split_and!; try done; [rewrite Hr; by apply prefix_app_r| |by rewrite Hraw].
    intros _. apply A6. unfold is_log in Hlog. by destruct (tk_source t).
  - intros o Hst. destruct (so_closing _ _ _ _ _ _ Ho o Hst) as (Hcl & ?). split; [|done]. by eapply closes_same.
  - apply Ho.
  - intros opened cursor ->. done.
  - unfold is_raw. cbn. rewrite Hraw. apply (so_raw _ _ _ _ _ _ Ho).
Qed.

Lemma broadcast_batch_ok s q x written i t b :
  stream_ok s q x written i t ->
  stream_ok s q x written i (broadcast_batch b t) /\ same_stream t (broadcast_batch b t).
Proof.
  intros Ho. pose proof (so_cursor _ _ _ _ _ _ Ho) as Hc. unfold broadcast_batch.
  destruct (tk_source t) as [|id g r l n []|] eqn:E; try (split; [done|apply same_stream_refl]). cbn in Hc.
  apply (source_ok _ _ _ _ _ _ _ [UBatch b]); unfold is_log; rewrite ?E; try done; cbn; rewrite app_assoc.
  - rewrite length_app. lia.
  - by rewrite (fmap_app _ (r ++ l)).
  - by rewrite drop_app_le, fmap_app.
Qed.

Lemma broadcast_raw_ok s q x written i t d :
  stream_ok s q x written i t ->
  stream_ok s q x written i (broadcast_raw d t) /\ same_stream t (broadcast_raw d t).
Proof.
  intros Ho. pose proof (so_cursor _ _ _ _ _ _ Ho) as Hc. unfold broadcast_raw.
  destruct (tk_source t) as [| |g r l n []] eqn:E; try (split; [done|apply same_stream_refl]). cbn in Hc.
  apply (source_ok _ _ _ _ _ _ _ [URaw d]); unfold is_log; rewrite ?E; try done; cbn; rewrite app_assoc.
  - rewrite length_app. lia.
  - by rewrite (fmap_app _ (r ++ l)).
  - by rewrite drop_app_le, fmap_app.
Qed.

Lemma drop_sender_ok s q x written i t :
  stream_ok s q x written i t ->
  stream_ok s q x written i (drop_sender t) /\ same_stream t (drop_sender t).
Proof.
  intros Ho. pose proof (so_cursor _ _ _ _ _ _ Ho) as Hc. unfold drop_sender.
  destruct (tk_source t) as [|id g r l n c|g r l n c] eqn:E; [split; [done|apply same_stream_refl]|..];
    apply (source_ok _ _ _ _ _ _ _ []); unfold is_log; rewrite ?E, ?app_nil_r; done.
Qed.

Lemma deactivated_ok s q x written i t :
  is_raw t = true \/ x = Halted -> stream_ok s q x written i t ->
  stream_ok s q x written i (deactivated t) /\ same_stream t (deactivated t).
Proof.
  intros Hr Ho. split; [|done]. split; try apply Ho; cbn; [done|]. unfold is_raw in *. cbn.
  destruct Hr as [Hr| ->]; [congruence|done].
Qed.

(** A closing frame reports the cell. *)
Lemma close_item_ok s q x written i t code :
  stream_ok s q x written i t -> closes written i t (close_item i t code).
Proof.
  intros Ho. pose proof (so_cell _ _ _ _ _ _ Ho) as Hc. unfold close_item, closes. cbn.
  destruct x as [|o|o|]; cbn in Hc.
  - by exists code, (tk_cell t), written.
  - by exists code, (tk_cell t), written.
  - destruct Hc as (before & -> & Hc). exists code, (tk_cell t), before. split_and!; try done. by exists [o].
  - destruct Hc as (before & Hp & Hc). by exists code, (tk_cell t), before.
Qed.

(** ** Steps of the queues *)

Lemma carried_other i j us o : og_role o = Carries j us -> j <> i -> carried i [o] = [].
Proof. intros Hr Hne. cbn. unfold units_of. rewrite Hr. by rewrite (proj2 (Nat.eqb_neq j i)) by done. Qed.

Lemma carried_own i us o : og_role o = Carries i us -> carried i [o] = us.
Proof. intros Hr. cbn. unfold units_of. by rewrite Hr, Nat.eqb_refl, app_nil_r. Qed.

Lemma carried_quiet i o : (forall j us, og_role o <> Carries j us) -> carried i [o] = [].
Proof. intros Hr. cbn. unfold units_of. destruct (og_role o) eqn:E; try done. by destruct (Hr i0 units). Qed.

Lemma queue_stream s q x written i t o :
  es_inv s -> stream_ok s q x written i t -> tk_state t = Sending o ->
  let t' := with_source (advance (tk_source t) o) (with_state Running t) in
  stream_ok s (q ++ [o]) x written i t' /\ same_stream t t'.
Proof.
  intros Hs Ho Hst t'. pose proof (so_sending _ _ _ _ _ _ Ho o Hst) as Hitem.
  destruct (advance_rest _ _ _ _ Hs (so_cursor _ _ _ _ _ _ Ho) Hitem) as (us & Hr & Hrest & Hfeed & Hcur).
  assert (same_stream t t') as Hsame by (unfold t', is_raw; split; [done|]; unfold is_raw; cbn; by destruct (tk_source t)).
  split; [|done]. split; cbn; rewrite ?Hfeed; try done.
  - apply Ho.
  - intros Hh Ha. rewrite !app_assoc, carried_app, <-app_assoc, (carried_own _ _ _ Hr), <-Hrest, <-app_assoc. by apply Ho.
  - apply Ho.
  - intros opened cursor E. destruct (tk_source t) as [op cu| |] eqn:Es; cbn in E; simplify_eq. by apply (so_opened _ _ _ _ _ _ Ho _ cu).
  - destruct Hsame as (_ & -> & _). apply Ho.
Qed.

(** Another stream's frame does not matter. *)
Lemma queue_other s q x written i t o j us :
  stream_ok s q x written i t -> og_role o = Carries j us -> j <> i -> stream_ok s (q ++ [o]) x written i t.
Proof.
  intros Ho Hr Hne. split; try apply Ho. intros Hh Ha.
  rewrite !app_assoc, carried_app, (carried_other _ _ _ _ Hr Hne), app_nil_r, <-app_assoc. by apply Ho.
Qed.

Lemma queue_inv w i t o :
  outbound_inv w -> cw_streams w !! i = Some t -> tk_state t = Sending o ->
  outbound_inv (set_batches (cw_batches w ++ [o])
    (update i (fun t => with_source (advance (tk_source t) o) (with_state Running t)) w)).
Proof.
  intros Hi Ht Hst. pose proof (oi_streams _ Hi _ _ Ht) as Ho. pose proof (so_sending _ _ _ _ _ _ Ho o Hst) as Hitem.
  destruct (queue_stream _ _ _ _ _ _ _ (oi_store _ Hi) Ho Hst) as [Hq Hsame].
  destruct Hitem as (us & Hr & Hn & Hd & Ha & _ & _ & Hraw).
  set (f := fun t => with_source (advance (tk_source t) o) (with_state Running t)) in *.
  assert (forall t0, cw_streams w !! i = Some t0 -> same_stream t0 (f t0)) as Hf by (intros; by simplify_eq).
  split; try apply Hi.
  - intros j t' Ht'. apply (update_lookup i f w) in Ht' as (t0 & Ht0 & [[-> ->]|[Hne ->]]); [by simplify_eq|]. cbn.
    by eapply queue_other; [apply (oi_streams _ Hi)| |].
  - cbn. intros o' Ho'. assert (o' = o \/ o' ∈ cw_written w ++ in_hand (cw_writer w) ++ cw_batches w ++ cw_responses w ++ cw_inputs w)
      as [-> |Hin] by set_solver; [|by apply (oi_frames _ Hi)]. unfold frame_ok. by rewrite Hr.
  - cbn. intros o' j us' Ho' Hr'. destruct (oi_known _ Hi _ _ _ Ho' Hr') as [t' Ht'].
    destruct (update_keeps i f w j t' Ht' Hf) as (t2 & Ht2 & _). by exists t2.
  - cbn. intros o' [Ho'| ->%list_elem_of_singleton]%elem_of_app.
    + destruct (oi_batches _ Hi _ Ho') as (j & us' & t' & Hr' & Ht' & Ha').
      destruct (update_keeps i f w j t' Ht' Hf) as (t2 & Ht2 & _ & Hraw2 & _). exists j, us', t2. by rewrite Hraw2.
    + destruct (update_keeps i f w i t Ht Hf) as (t2 & Ht2 & _ & Hraw2 & _). exists i, us, t2. by rewrite Hraw2.
  - cbn. intros o' j c Ho' Hr'. destruct (oi_closes _ Hi _ _ _ Ho' Hr') as (t' & Ht' & Hc).
    destruct (update_keeps i f w j t' Ht' Hf) as (t2 & Ht2 & Hs). exists t2. split; [done|]. by eapply closes_same.
Qed.

(** ** Steps of the write loop *)

(** The write loop takes a frame that carries nothing. *)
Lemma hold_quiet s q written i t o :
  stream_ok s q Idle written i t -> carried i [o] = [] -> stream_ok s q (Writing o) written i t.
Proof.
  intros Ho Hq. pose proof (so_prefix _ _ _ _ _ _ Ho) as Hp. pose proof (so_whole _ _ _ _ _ _ Ho eq_refl) as Hw.
  split; try apply Ho; cbn [in_hand halted] in *.
  - rewrite carried_app, Hq, app_nil_r. by rewrite app_nil_r in Hp.
  - intros _ Ha. rewrite !carried_app, Hq. specialize (Hw Ha). by rewrite !carried_app in Hw.
Qed.

Lemma take_quiet_inv w o w' :
  outbound_inv w -> cw_writer w = Idle -> o ∈ cw_responses w ++ cw_inputs w ->
  cw_store w' = cw_store w -> cw_streams w' = cw_streams w -> cw_reader w' = cw_reader w ->
  cw_batches w' = cw_batches w -> cw_written w' = cw_written w -> cw_writer w' = cw_writer w ->
  cw_responses w' ⊆ cw_responses w -> cw_inputs w' ⊆ cw_inputs w ->
  outbound_inv (take_frame o w').
Proof.
  intros Hi Hx Ho E1 E2 E3 E4 E5 E6 Hr Hin.
  assert (forall j us, og_role o <> Carries j us) as Hq by (intros j us; by apply (oi_quiet _ Hi)).
  assert (frame_ok o) as Hf by (apply (oi_frames _ Hi); set_solver).
  assert (og_active o = None) as Ha. { unfold frame_ok in Hf. destruct (og_role o) eqn:E; try apply Hf. by destruct (Hq i units). }
  unfold take_frame, inactive. rewrite Ha. split; cbn; rewrite ?E1, ?E2, ?E3, ?E4, ?E5; try apply Hi.
  - intros i t Ht. apply hold_quiet; [|by apply carried_quiet]. rewrite <-Hx. by apply (oi_streams _ Hi).
  - intros o' Ho'. assert (o' = o \/ o' ∈ cw_written w ++ in_hand (cw_writer w) ++ cw_batches w ++ cw_responses w ++ cw_inputs w)
      as [-> |Hin'] by set_solver; [done|by apply (oi_frames _ Hi)].
  - done.
  - intros o' i us Ho' Hr'. assert (o' = o \/ o' ∈ cw_written w ++ in_hand (cw_writer w)) as [-> |Hin'] by set_solver.
    + by destruct (Hq i us).
    + by apply (oi_known _ Hi _ _ _ Hin' Hr').
  - intros o' i us Ho'. apply (oi_quiet _ Hi). set_solver.
  - intros o' i c Ho'. apply (oi_inputs _ Hi). set_solver.
  - intros o' i c Ho' Hr'.
    assert (o' = o \/ o' ∈ cw_written w ++ in_hand (cw_writer w) ++ cw_responses w) as [-> |Hin'] by (clear Ho; set_solver).
    + apply elem_of_app in Ho as [Ho|Ho]; [|by destruct (oi_inputs _ Hi _ i c Ho)].
      eapply (oi_closes _ Hi o); [rewrite !elem_of_app; auto|done].
    + by eapply (oi_closes _ Hi).
Qed.

(** A frame of a stream leaves the queue, for the wire. *)
Lemma hold_batch s rest_ written i t o :
  stream_ok s (o :: rest_) Idle written i t -> (carried i [o] <> [] -> tk_active t = true) ->
  stream_ok s rest_ (Writing o) written i t.
Proof.
  intros Ho Hact. pose proof (so_prefix _ _ _ _ _ _ Ho) as Hp. pose proof (so_whole _ _ _ _ _ _ Ho eq_refl) as Hw.
  split; try apply Ho; cbn [in_hand halted] in *.
  rewrite app_nil_r in Hp. rewrite carried_app. destruct (carried i [o]) as [|u us] eqn:E; [by rewrite app_nil_r|].
  specialize (Hw (Hact ltac:(done))). cbn [app] in Hw. change (o :: rest_) with ([o] ++ rest_) in Hw.
  rewrite !carried_app, E in Hw. rewrite <-Hw. apply prefix_app_r. rewrite app_assoc. by apply prefix_app_r.
Qed.

Lemma drop_batch s rest_ written i t o :
  stream_ok s (o :: rest_) Idle written i t -> (carried i [o] <> [] -> tk_active t = false) ->
  stream_ok s rest_ Idle written i t.
Proof.
  intros Ho Hact. pose proof (so_whole _ _ _ _ _ _ Ho eq_refl) as Hw.
  split; try apply Ho. intros _ Ha. specialize (Hw Ha). cbn [in_hand app] in *. change (o :: rest_) with ([o] ++ rest_) in Hw.
  rewrite !carried_app in Hw. destruct (carried i [o]) as [|u us] eqn:E; [by rewrite carried_app|].
  rewrite Hact in Ha by done. done.
Qed.

Lemma take_batch_inv w o rest_ :
  outbound_inv w -> cw_writer w = Idle -> cw_batches w = o :: rest_ ->
  outbound_inv (take_frame o (set_batches rest_ w)).
Proof.
  intros Hi Hx Hq. destruct (oi_batches _ Hi o) as (i & us & t & Hr & Ht & Hraw); [rewrite Hq; left|].
  assert (frame_ok o) as Hf by (apply (oi_frames _ Hi); rewrite Hq; set_solver).
  unfold frame_ok in Hf. rewrite Hr in Hf. destruct Hf as (Hn & Hd & Hact).
  assert (forall j t', cw_streams w !! j = Some t' -> stream_ok (cw_store w) (o :: rest_) Idle (cw_written w) j t') as Hs.
  { intros j t' Ht'. rewrite <-Hq, <-Hx. by apply (oi_streams _ Hi). }
  assert (forall j, carried j [o] <> [] -> j = i) as Hj.
  { intros j Hc. destruct (decide (i = j)); [done|]. by rewrite (carried_other _ _ _ _ Hr) in Hc. }
  unfold take_frame. destruct (inactive o (set_batches rest_ w)) eqn:Ha; unfold inactive in Ha; cbn [cw_streams set_batches] in Ha.
  - assert (tk_active t = false) as Hoff.
    { destruct (og_active o) as [k|] eqn:Ek; [|done]. rewrite (Hact k eq_refl), Ht in Ha. by destruct (tk_active t). }
    split; try apply Hi; cbn.
    + intros j t' Ht'. rewrite Hx. apply (drop_batch _ _ _ _ _ o); [by apply Hs|]. intros ->%Hj. by simplify_eq.
    + intros o' Ho'. apply (oi_frames _ Hi). rewrite Hq. set_solver.
    + intros o' Ho'. apply (oi_batches _ Hi). rewrite Hq. by right.
  - assert (tk_active t = true) as Hon.
    { destruct (tk_active t) eqn:Et; [done|]. destruct (is_raw t) eqn:Er.
      - rewrite Hraw, Ht, Et in Ha by done. done.
      - rewrite (so_raw _ _ _ _ _ _ (Hs _ _ Ht) eq_refl Er) in Et. done. }
    split; try apply Hi; cbn.
    + intros j t' Ht'. apply hold_batch; [by apply Hs|]. intros ->%Hj. by simplify_eq.
    + intros o' Ho'. apply (oi_frames _ Hi). rewrite Hq. set_solver.
    + done.
    + intros o' j us' [Ho'| ->%list_elem_of_singleton]%elem_of_app Hr'; [|rewrite Hr in Hr'; injection Hr' as <- _; by exists t].
      eapply (oi_known _ Hi); [|done]. apply elem_of_app. by left.
    + intros o' Ho'. apply (oi_batches _ Hi). rewrite Hq. by right.
    + intros o' j c Ho' Hr'. eapply (oi_closes _ Hi); [|done]. rewrite Hx. cbn.
      apply elem_of_app in Ho' as [Ho'|[-> |Ho']%elem_of_cons]; [|congruence|]; apply elem_of_app; auto.
Qed.

Lemma wrote_inv w o :
  outbound_inv w -> cw_writer w = Writing o -> outbound_inv (set_writer (Wrote o) (set_written (cw_written w ++ [o]) w)).
Proof.
  intros Hi Hx. pose proof (oi_streams _ Hi) as Hs. rewrite Hx in Hs. split; try apply Hi; cbn.
  - intros i t Ht. specialize (Hs i t Ht). split; try apply Hs; cbn.
    + rewrite app_nil_r. apply (so_prefix _ _ _ _ _ _ Hs).
    + intros _ Ha. rewrite <-app_assoc. by apply (so_whole _ _ _ _ _ _ Hs).
    + intros o' Hst. destruct (so_closing _ _ _ _ _ _ Hs o' Hst) as (Hc & ?). split; [by apply closes_more|done].
    + exists (cw_written w). split; [done|]. apply (so_cell _ _ _ _ _ _ Hs).
  - intros o' Ho'. apply (oi_frames _ Hi). rewrite Hx. cbn. set_solver.
  - intros ? [= <-]. by exists (cw_written w).
  - intros o' i us Ho' Hr'. eapply (oi_known _ Hi); [|done]. rewrite Hx. cbn. by rewrite app_nil_r in Ho'.
  - intros o' i c Ho' Hr'. destruct (oi_closes _ Hi o' i c) as (t & Ht & Hc); [|done|].
    + rewrite Hx. cbn. set_solver.
    + exists t. split; [done|by apply closes_more].
Qed.

(** The cell is stored: for its stream the last mark is this frame's. *)
Lemma store_stream s q before o i t :
  frame_ok o -> stream_ok s q (Wrote o) (before ++ [o]) i t -> tk_cell t = marks i (tk_opened t) before ->
  let t' := match og_delivered o with Some (j, v) => if Nat.eqb j i then with_cell v t else t | None => t end in
  stream_ok s q Idle (before ++ [o]) i t'.
Proof.
  intros Hf Hs Hc. assert (marks i (tk_opened t) (before ++ [o]) =
    match og_delivered o with Some (j, v) => if Nat.eqb j i then v else tk_cell t | None => tk_cell t end) as Hm.
  { rewrite marks_app. cbn. by rewrite <-Hc. }
  destruct (og_delivered o) as [[j v]|]; cbn zeta; [destruct (Nat.eqb j i)|]; (split; try apply Hs; cbn; by rewrite Hm).
Qed.

Lemma with_cell_same c t : same_stream t (with_cell c t).
Proof. done. Qed.

Lemma store_inv w o : outbound_inv w -> cw_writer w = Wrote o -> outbound_inv (store_cell o (set_writer Idle w)).
Proof.
  intros Hi Hx. pose proof (oi_streams _ Hi) as Hs. rewrite Hx in Hs.
  assert (frame_ok o) as Hf.
  { apply (oi_frames _ Hi), elem_of_app. left. destruct (oi_wrote _ Hi _ Hx) as (before & ->). set_solver. }
  assert (outbound_inv w -> forall i t, cw_streams w !! i = Some t ->
    stream_ok (cw_store w) (cw_batches w) Idle (cw_written w) i
      (match og_delivered o with Some (j, v) => if Nat.eqb j i then with_cell v t else t | None => t end)) as Hok.
  { intros _ i t Ht. specialize (Hs i t Ht). pose proof (so_cell _ _ _ _ _ _ Hs) as (before & Hw & Hc). rewrite Hw in Hs |- *.
    by apply store_stream. }
  specialize (Hok Hi). unfold store_cell. destruct (og_delivered o) as [[j v]|] eqn:Ed.
  - assert (forall t, cw_streams w !! j = Some t -> same_stream t (with_cell v t)) as Hsame by (intros; apply with_cell_same).
    split; try apply Hi; cbn [cw_store cw_batches cw_writer cw_written cw_responses cw_inputs cw_reader set_writer update set_streams in_hand].
    + intros i t' Ht'. apply (update_lookup j (with_cell v) (set_writer Idle w)) in Ht' as (t & Ht & H). specialize (Hok i t Ht).
      destruct H as [[-> ->]|[Hne ->]]; [by rewrite Nat.eqb_refl in Hok|]. by rewrite (proj2 (Nat.eqb_neq j i)) in Hok by done.
    + intros o' Ho'. apply (oi_frames _ Hi). rewrite Hx. done.
    + done.
    + intros o' i us Ho' Hr'. destruct (oi_known _ Hi o' i us) as [t Ht]; [by rewrite Hx|done|].
      destruct (update_keeps j (with_cell v) w i t Ht Hsame) as (t' & Ht' & _). by exists t'.
    + intros o' Ho'. destruct (oi_batches _ Hi _ Ho') as (i & us & t & Hr & Ht & Ha).
      destruct (update_keeps j (with_cell v) w i t Ht Hsame) as (t' & Ht' & _ & Hraw & _). exists i, us, t'. by rewrite Hraw.
    + intros o' i c Ho' Hr'. destruct (oi_closes _ Hi o' i c) as (t & Ht & Hc); [by rewrite Hx|done|].
      destruct (update_keeps j (with_cell v) w i t Ht Hsame) as (t' & Ht' & Hss). exists t'. split; [done|]. by eapply closes_same.
  - split; try apply Hi; cbn.
    + intros i t Ht. by apply Hok.
    + intros o' Ho'. apply (oi_frames _ Hi). rewrite Hx. done.
    + done.
    + intros o' i us Ho' Hr'. eapply (oi_known _ Hi); [|done]. by rewrite Hx.
    + intros o' i c Ho' Hr'. eapply (oi_closes _ Hi); [|done]. by rewrite Hx.
Qed.

(** The connection ends. *)
Lemma halt_inv w : outbound_inv w -> outbound_inv (set_writer Halted w).
Proof.
  intros Hi. split; try apply Hi; cbn.
  - intros i t Ht. pose proof (oi_streams _ Hi _ _ Ht) as Hs. split; try apply Hs; cbn.
    + pose proof (so_prefix _ _ _ _ _ _ Hs) as Hp. rewrite carried_app in Hp. rewrite app_nil_r. by eapply prefix_app_l.
    + done.
    + pose proof (so_cell _ _ _ _ _ _ Hs) as Hc. destruct (cw_writer w) as [|o|o|]; cbn in Hc.
      * by exists (cw_written w).
      * by exists (cw_written w).
      * destruct Hc as (before & -> & Hc). exists before. split; [by exists [o]|done].
      * done.
    + done.
  - intros o Ho. apply (oi_frames _ Hi). set_solver.
  - done.
  - intros o i us Ho Hr. eapply (oi_known _ Hi); [|done]. set_solver.
  - intros o i c Ho Hr. eapply (oi_closes _ Hi); [|done]. set_solver.
Qed.

(** A response is queued. *)
Lemma respond_inv w o :
  outbound_inv w -> og_delivered o = None -> og_active o = None -> (forall i us, og_role o <> Carries i us) ->
  (forall i c, og_role o = Closes i c -> exists t, cw_streams w !! i = Some t /\ closes (cw_written w) i t o) ->
  outbound_inv (set_responses (cw_responses w ++ [o]) w).
Proof.
  intros Hi Hd Ha Hq Hc. split; try apply Hi; cbn.
  - intros o' Ho'. assert (o' = o \/ o' ∈ cw_written w ++ in_hand (cw_writer w) ++ cw_batches w ++ cw_responses w ++ cw_inputs w)
      as [-> |Hin] by set_solver; [|by apply (oi_frames _ Hi)].
    unfold frame_ok. destruct (og_role o) eqn:E; try done. by destruct (Hq i units).
  - intros o' i us Ho'. assert (o' = o \/ o' ∈ cw_responses w ++ cw_inputs w) as [-> |Hin] by set_solver; [done|].
    by apply (oi_quiet _ Hi).
  - intros o' i c Ho' Hr'. assert (o' = o \/ o' ∈ cw_written w ++ in_hand (cw_writer w) ++ cw_responses w) as [-> |Hin] by set_solver.
    + by eapply Hc.
    + by eapply (oi_closes _ Hi).
Qed.

Lemma reader_inv w r :
  outbound_inv w ->
  (forall o a, r = Answering o a -> (og_role o = Plain \/ exists i, og_role o = Announces i) /\ og_delivered o = None /\ og_active o = None) ->
  (forall a, pending_admission r = Some a -> admitted_ok a) ->
  outbound_inv (set_reader r w).
Proof. intros Hi Hr Ha. split; try apply Hi; [exact Hr|exact Ha]. Qed.

(** Nothing was written for a stream that did not start. *)
Lemma carried_unknown l i : (forall o us, o ∈ l -> og_role o <> Carries i us) -> carried i l = [].
Proof.
  induction l as [|o l IH]; intros Hl; [done|]. change (o :: l) with ([o] ++ l). rewrite carried_app, IH by set_solver.
  rewrite app_nil_r. cbn. unfold units_of. destruct (og_role o) as [| |j us|] eqn:E; try done.
  destruct (Nat.eqb_spec j i) as [-> |]; [|done]. destruct (Hl o us); [left|done].
Qed.

Lemma marks_unknown l i c :
  (forall o, o ∈ l -> frame_ok o) -> (forall o us, o ∈ l -> og_role o <> Carries i us) -> marks i c l = c.
Proof.
  revert c. induction l as [|o l IH]; intros c Hf Hl; [done|]. change (o :: l) with ([o] ++ l). rewrite marks_app, IH by set_solver.
  cbn. assert (frame_ok o) as Ho by set_solver. unfold frame_ok in Ho. destruct (og_role o) as [| |j us|] eqn:E;
    try (destruct Ho as [-> _]; done). destruct Ho as (_ & -> & _).
  assert (j <> i) as Hne. { intros ->. destruct (Hl o us); [left|done]. }
  unfold mark. destruct (last us) as [[e|b|d]|]; try done; try (by rewrite (proj2 (Nat.eqb_neq j i))).
  destruct (raw_delivery_seq d); [|done]. cbn. by rewrite (proj2 (Nat.eqb_neq j i)).
Qed.

(** A new stream has carried nothing. *)
Lemma start_stream s q x written i a :
  admitted_ok a -> (forall o us, o ∈ written ++ in_hand x ++ q -> og_role o <> Carries i us) ->
  (forall o, o ∈ written -> frame_ok o) -> (forall o, x = Wrote o -> exists before, written = before ++ [o]) ->
  stream_ok s q x written i (start a).
Proof.
  intros Ha Hno Hf Hwr.
  assert (feed s (tk_source (start a)) = rest s (tk_source (start a))) as Hfeed by (by destruct a).
  assert (tk_cell (start a) = tk_opened (start a)) as Hcell by (by destruct a).
  split.
  - destruct a; cbn; [split; [done|by left]|lia|lia].
  - rewrite carried_unknown; [apply prefix_nil|]. intros o us Ho. apply Hno. set_solver.
  - intros _ _. by rewrite carried_unknown, Hfeed.
  - by destruct a.
  - by destruct a.
  - assert (forall before, before `prefix_of` written -> tk_cell (start a) = marks i (tk_opened (start a)) before) as Hm.
    { intros before Hb. rewrite Hcell, marks_unknown; [done|..].
      - intros o Ho. apply Hf. by eapply elem_of_prefix.
      - intros o us Ho. apply Hno, elem_of_app. left. by eapply elem_of_prefix. }
    destruct x as [|o|o|]; cbn; [by apply Hm|by apply Hm| |].
    + destruct (Hwr o eq_refl) as (before & ->). exists before. split; [done|]. apply Hm. by exists [o].
    + exists written. split; [done|by apply Hm].
  - intros opened cursor E. destruct a; cbn in E; by simplify_eq.
  - by destruct a.
Qed.

Lemma conn_start_inv w a :
  outbound_inv w -> cw_reader w = Starting a ->
  outbound_inv (set_reader Reading (set_streams (cw_streams w ++ option_list (start <$> a)) w)).
Proof.
  intros Hi Hr. apply reader_inv; [|done..]. destruct a as [a|]; cbn; [|rewrite app_nil_r; by destruct w].
  assert (forall i t, cw_streams w !! i = Some t -> (cw_streams w ++ [start a]) !! i = Some t) as Hold
    by (intros; by apply lookup_app_l_Some).
  split; try apply Hi; cbn.
  - intros i t [Ht|[Hlen Ht]]%lookup_app_Some; [by apply (oi_streams _ Hi)|].
    destruct (i - length (cw_streams w))%nat as [|n] eqn:E; [|done]. cbn in Ht. injection Ht as <-.
    assert (i = length (cw_streams w)) as -> by lia.
    assert (cw_streams w !! length (cw_streams w) = None) as Hnone by (by apply lookup_ge_None).
    apply start_stream.
    + apply (oi_admitted _ Hi). by rewrite Hr.
    + intros o us Ho Hcar. rewrite app_assoc in Ho. apply elem_of_app in Ho as [Ho|Ho].
      * destruct (oi_known _ Hi _ _ _ Ho Hcar). congruence.
      * destruct (oi_batches _ Hi _ Ho) as (j & us' & t & Hcar' & Ht & _). congruence.
    + intros o Ho. apply (oi_frames _ Hi), elem_of_app. by left.
    + apply (oi_wrote _ Hi).
  - intros o i us Ho Hcar. destruct (oi_known _ Hi _ _ _ Ho Hcar) as [t Ht]. exists t. by apply Hold.
  - intros o Ho. destruct (oi_batches _ Hi _ Ho) as (j & us' & t & Hcar' & Ht & H). exists j, us', t. by split_and!; auto.
  - intros o i c Ho Hcl. destruct (oi_closes _ Hi _ _ _ Ho Hcl) as (t & Ht & H). exists t. split; [by apply Hold|done].
Qed.

Lemma control_inv w c : outbound_inv w -> outbound_inv (set_inputs (cw_inputs w ++ [plain (HostControl c) Plain]) w).
Proof.
  intros Hi. split; try apply Hi; cbn.
  - intros o Ho. assert (o = plain (HostControl c) Plain \/
      o ∈ cw_written w ++ in_hand (cw_writer w) ++ cw_batches w ++ cw_responses w ++ cw_inputs w) as [-> |Hin] by set_solver;
      [done|by apply (oi_frames _ Hi)].
  - intros o i us Ho. assert (o = plain (HostControl c) Plain \/ o ∈ cw_responses w ++ cw_inputs w) as [-> |Hin] by set_solver;
      [done|by apply (oi_quiet _ Hi)].
  - intros o i c' [Ho| ->%list_elem_of_singleton]%elem_of_app; [by apply (oi_inputs _ Hi)|done].
Qed.

Lemma answer_inv w request_id r :
  outbound_inv w -> (forall a, r.2 = Some a -> admitted_ok a) -> outbound_inv (answer request_id r w).
Proof.
  intros Hi Ha. apply reader_inv; [done| |exact Ha]. intros o a [= <- <-]. cbn. split; [|done].
  destruct (r.2); [right; by eexists|by left].
Qed.

Lemma outbound_step w w' : outbound_inv w -> conn_step w w' -> outbound_inv w'.
Proof.
  intros Hi Hs. destruct Hs.
  - by apply append_inv.
  - apply update_inv; [done|]. intros t Ht. apply broadcast_batch_ok.
  - apply update_inv; [done|]. intros t Ht. apply broadcast_raw_ok.
  - apply update_inv; [done|]. intros t Ht. apply drop_sender_ok.
  - by apply answer_inv.
  - apply answer_inv; [done|]. unfold admit_events. destruct (full _); [done|]. by intros a [= <-].
  - apply answer_inv; [done|]. unfold admit_pty. destruct (full _); [done|]. destruct attached; [|done]. by intros a0 [= <-].
  - apply answer_inv; [done|]. unfold admit_raw. destruct (negb _); [done|]. destruct (full _); [done|].
    destruct attached; [|done]. by intros a0 [= <-].
  - destruct (oi_reader _ Hi _ _ H) as (Hr & Hd & Ha). apply reader_inv; [|done|].
    + apply respond_inv; try done; intros i c; destruct Hr as [Hr|[j Hr]]; congruence.
    + cbn. intros a' ->. apply (oi_admitted _ Hi). by rewrite H.
  - by apply conn_start_inv.
  - apply update_inv; [done|]. intros t' Ht' Ho. simplify_eq. apply state_ok; [done| |done]. intros o' [= <-].
    apply pull_item; [apply Hi|apply Ho|done].
  - apply update_inv; [done|]. intros t' Ht' Ho. by apply state_ok.
  - apply update_inv; [done|]. intros t' Ht' Ho. by apply state_ok.
  - apply update_inv; [done|]. intros t' Ht' Ho. by apply state_ok.
  - by eapply queue_inv.
  - apply update_inv; [done|]. intros t' Ht' Ho. by apply state_ok.
  - apply update_inv; [done|]. intros t' Ht' Ho. by apply state_ok.
  - apply update_inv; [done|]. intros t' Ht' Ho. simplify_eq. apply deactivated_ok; [by left|done].
  - apply update_inv; [done|]. intros t' Ht' Ho. simplify_eq. apply state_ok; [done|done|]. intros o' [= <-].
    split; [by eapply close_item_ok|done].
  - apply update_inv; [done|]. intros t' Ht' Ho. by apply state_ok.
  - pose proof (so_closing _ _ _ _ _ _ (oi_streams _ Hi _ _ H) _ H0) as (Hc & Hd & Ha).
    apply (respond_inv (update i (with_state Finished) w)); try done.
    + apply update_inv; [done|]. intros t' Ht' Ho. by apply state_ok.
    + intros j us. destruct Hc as (code & c & before & Hc & _). by rewrite Hc.
    + intros j c' Hj. destruct Hc as (code & c & before & Hc & Hrest). rewrite Hj in Hc. injection Hc as -> ->.
      exists (with_state Finished t). split; [|by exists code, c, before].
      cbn. by rewrite list_lookup_alter_eq, H.
  - apply update_inv; [done|]. intros t' Ht' Ho. by apply state_ok.
  - by apply control_inv.
  - eapply (take_quiet_inv w); try done; cbn; rewrite H0; set_solver.
  - eapply (take_quiet_inv w); try done; cbn; rewrite ?H0, ?H1; set_solver.
  - by apply take_batch_inv.
  - by apply wrote_inv.
  - by apply store_inv.
  - pose proof (halt_inv _ Hi) as Hh. destruct (og_active o) as [i|]; [|done]. destruct timed_out; [|done].
    apply (update_inv (set_writer Halted w)); [done|]. intros t Ht Ho. apply deactivated_ok; [by right|done].
  - by apply halt_inv.
Qed.

(** ** Announcements *)

Definition announced (l : list Outgoing) (i : nat) : Prop := exists o, o ∈ l /\ og_role o = Announces i.

Lemma announced_weaken l l' i : l ⊆ l' -> announced l i -> announced l' i.
Proof. intros Hl (o & Ho & Hr). exists o. split; [by apply Hl|done]. Qed.

Record announce_inv (w : ConnWorld) : Prop := {
  an_started i : halted (cw_writer w) = false -> (i < length (cw_streams w))%nat ->
    announced (cw_written w ++ in_hand (cw_writer w) ++ cw_responses w) i;
  an_starting a : halted (cw_writer w) = false -> cw_reader w = Starting (Some a) ->
    announced (cw_written w ++ in_hand (cw_writer w) ++ cw_responses w) (length (cw_streams w));
  an_answering o a : cw_reader w = Answering o (Some a) -> og_role o = Announces (length (cw_streams w));
  an_hand o i us : cw_writer w = Writing o -> og_role o = Carries i us -> announced (cw_written w) i;
  an_order before o after i us : cw_written w = before ++ o :: after -> og_role o = Carries i us -> announced before i;
}.

Lemma announce_same w w' :
  announce_inv w -> length (cw_streams w') = length (cw_streams w) -> cw_reader w' = cw_reader w ->
  cw_writer w' = cw_writer w -> cw_written w' = cw_written w ->
  (cw_written w ++ in_hand (cw_writer w) ++ cw_responses w) ⊆ (cw_written w ++ in_hand (cw_writer w) ++ cw_responses w') ->
  announce_inv w'.
Proof.
  intros Ha El Er Ex Ew Hl. split; rewrite ?El, ?Er, ?Ex, ?Ew; try apply Ha.
  - intros i Hh Hi. eapply announced_weaken; [exact Hl|]. by apply Ha.
  - intros a Hh Hr. eapply announced_weaken; [exact Hl|]. by eapply (an_starting _ Ha).
Qed.

Lemma announce_update w i f : announce_inv w -> announce_inv (update i f w).
Proof. intros Ha. eapply announce_same; try done. apply length_alter. Qed.

Lemma announce_halt w : announce_inv w -> announce_inv (set_writer Halted w).
Proof. intros Ha. split; cbn; try done; apply Ha. Qed.

(** A frame is taken: what was announced still is. *)
Lemma announce_take w w' o :
  announce_inv w -> cw_writer w = Idle -> length (cw_streams w') = length (cw_streams w) -> cw_reader w' = cw_reader w ->
  cw_writer w' = Idle -> cw_written w' = cw_written w -> cw_responses w ⊆ o :: cw_responses w' ->
  (forall i us, og_role o = Carries i us -> announced (cw_written w) i) ->
  (inactive o w' = true -> forall i, og_role o <> Announces i) ->
  announce_inv (take_frame o w').
Proof.
  intros Ha Hx El Er Ex Ew Hr Hc Hn. unfold take_frame. destruct (inactive o w').
  - assert (forall i, announced (cw_written w ++ cw_responses w) i -> announced (cw_written w ++ cw_responses w') i) as Hstill.
    { intros i (o' & Ho' & Hro). exists o'. split; [|done]. apply elem_of_app in Ho' as [Ho'|Ho']; [set_solver|].
      apply Hr, elem_of_cons in Ho' as [-> |Ho']; [by destruct (Hn eq_refl i)|set_solver]. }
    split; rewrite ?El, ?Er, ?Ex, ?Ew; try apply Ha; cbn.
    + intros i _ Hi. apply Hstill. pose proof (an_started _ Ha i) as H. rewrite Hx in H. by apply H.
    + intros a _ Hs. apply Hstill. pose proof (an_starting _ Ha a) as H. rewrite Hx in H. by apply H.
    + done.
  - split; cbn; rewrite ?El, ?Er, ?Ew; try apply Ha.
    + intros i _ Hi. pose proof (an_started _ Ha i) as H. rewrite Hx in H. eapply announced_weaken; [|by apply H]. cbn. set_solver.
    + intros a _ Hs. pose proof (an_starting _ Ha a) as H. rewrite Hx in H. eapply announced_weaken; [|by apply H]. cbn. set_solver.
    + intros o' i us [= <-]. apply Hc.
Qed.

Lemma announce_step w w' : outbound_inv w -> announce_inv w -> conn_step w w' -> announce_inv w'.
Proof.
  intros Hi Ha Hs. destruct Hs; try (by apply announce_update).
  - by eapply announce_same.
  - split; cbn; try apply Ha; done.
  - split; cbn; try apply Ha; [done|]. intros o a [= <- Hadm]. cbn. by rewrite Hadm.
  - split; cbn; try apply Ha; [done|]. intros o a [= <- Hadm]. cbn. by rewrite Hadm.
  - split; cbn; try apply Ha; [done|]. intros o a [= <- Hadm]. cbn. by rewrite Hadm.
  - split; cbn; try apply Ha; [| |done].
    + intros i Hh Hl. eapply announced_weaken; [|by apply (an_started _ Ha)]. set_solver.
    + intros a' Hh [= ->]. exists o. split; [set_solver|]. by eapply (an_answering _ Ha).
  - split; cbn; try apply Ha; [|done|done]. intros i Hh Hl. rewrite length_app in Hl.
    destruct (decide (i < length (cw_streams w))%nat); [by apply (an_started _ Ha)|].
    destruct a as [a|]; cbn in Hl; [|lia]. assert (i = length (cw_streams w)) as -> by lia. by eapply (an_starting _ Ha).
  - eapply announce_same; try done. apply length_alter.
  - eapply announce_same; try done; [apply length_alter|set_solver].
  - by eapply announce_same.
  - apply (announce_take w); try done; cbn; [by rewrite H0|..].
    + intros i us Hc. by destruct (oi_quiet _ Hi o i us); [rewrite H0; set_solver|].
    + unfold inactive. destruct (og_active o) eqn:E; [|done]. intros _ i Hr.
      assert (frame_ok o) as Hf by (apply (oi_frames _ Hi); rewrite H0; set_solver). unfold frame_ok in Hf. rewrite Hr in Hf. by destruct Hf; congruence.
  - apply (announce_take w); try done; cbn; [set_solver|..].
    + intros i us Hc. by destruct (oi_quiet _ Hi o i us); [rewrite H1; set_solver|].
    + unfold inactive. destruct (og_active o) eqn:E; [|done]. intros _ i Hr.
      assert (frame_ok o) as Hf by (apply (oi_frames _ Hi); rewrite H1; set_solver). unfold frame_ok in Hf. rewrite Hr in Hf. by destruct Hf; congruence.
  - destruct (oi_batches _ Hi o) as (j & us & t & Hr & Ht & _); [rewrite H2; left|].
    apply (announce_take w); try done; cbn; [set_solver|..|by intros _ i; rewrite Hr].
    intros i us' Hc. rewrite Hr in Hc. injection Hc as <- <-. pose proof (an_started _ Ha j) as Hj.
    rewrite H, H0 in Hj. cbn in Hj. rewrite app_nil_r in Hj. apply Hj; [done|]. by eapply lookup_lt_Some.
  - pose proof (an_hand _ Ha) as Hh. rewrite H in Hh. split; cbn; try apply Ha.
    + intros i _ Hl. pose proof (an_started _ Ha i) as Hst. rewrite H in Hst. eapply announced_weaken; [|by apply Hst]. cbn. set_solver.
    + intros a _ Hl. pose proof (an_starting _ Ha a) as Hst. rewrite H in Hst. eapply announced_weaken; [|by apply Hst]. cbn. set_solver.
    + done.
    + intros before o' after i us E Hr. destruct after as [|x after] using rev_ind.
      * apply app_inj_tail in E as [<- <-]. by eapply Hh.
      * rewrite app_comm_cons, app_assoc in E. apply app_inj_tail in E as [E _]. by eapply (an_order _ Ha).
  - unfold store_cell. assert (announce_inv (set_writer Idle w)) as Hw.
    { pose proof (an_started _ Ha) as H1. pose proof (an_starting _ Ha) as H2. rewrite H in H1, H2. split; cbn; try done; apply Ha. }
    destruct (og_delivered o) as [[j v]|]; [by apply announce_update|done].
  - apply announce_halt. destruct (og_active o); [|done]. destruct timed_out; [by apply announce_update|done].
  - by apply announce_halt.
Qed.

(** ** Bounds *)

Definition live_count (l : list StreamTask) : nat := length (List.filter alive l).

Definition pending_count (a : option AdmittedStream) : nat := match a with Some _ => 1 | None => 0 end.

Record bounds_inv (w : ConnWorld) : Prop := {
  bi_responses : (length (cw_responses w) <= RESPONSE_QUEUE_DEPTH)%nat;
  bi_inputs : (length (cw_inputs w) <= RESPONSE_QUEUE_DEPTH)%nat;
  bi_batches : (length (cw_batches w) <= BATCH_QUEUE_DEPTH)%nat;
  bi_streams : (live_count (cw_streams w) + pending_count (pending_admission (cw_reader w))
                <= MAX_SUBSCRIPTIONS_PER_CONNECTION)%nat;
}.

Ltac world := cbn [cw_store cw_streams cw_reader cw_responses cw_inputs cw_batches cw_writer cw_written set_store set_streams
  set_reader set_responses set_inputs set_batches set_writer set_written update answer].

Lemma live_alter l i f :
  (forall t, l !! i = Some t -> alive (f t) = true -> alive t = true) -> (live_count (alter f i l) <= live_count l)%nat.
Proof.
  revert i. unfold live_count. induction l as [|t l IH]; intros [|i] Hf; cbn; try done.
  - specialize (Hf t eq_refl). destruct (alive (f t)); [by rewrite Hf|]. destruct (alive t); cbn; lia.
  - specialize (IH i Hf). destruct (alive t); cbn; lia.
Qed.

Lemma bounds_update w i f :
  bounds_inv w -> (forall t, cw_streams w !! i = Some t -> alive (f t) = true -> alive t = true) -> bounds_inv (update i f w).
Proof. intros Hb Hf. split; try apply Hb. cbn [cw_streams cw_reader update set_streams]. pose proof (live_alter (cw_streams w) i f Hf). pose proof (bi_streams _ Hb). lia. Qed.

Lemma bounds_answer w request_id r :
  bounds_inv w -> (full (cw_streams w) = true -> r.2 = None) -> bounds_inv (answer request_id r w).
Proof.
  intros Hb Hf. split; try apply Hb. pose proof (bi_streams _ Hb) as Hs. cbn [cw_streams cw_reader answer set_reader pending_admission].
  destruct (full (cw_streams w)) eqn:E.
  - rewrite Hf by done. cbn [pending_count]. lia.
  - unfold full in E. apply Nat.leb_gt in E. unfold live_count. destruct (r.2); cbn [pending_count]; lia.
Qed.

Lemma bounds_take w w' o :
  bounds_inv w -> cw_streams w' = cw_streams w -> cw_reader w' = cw_reader w ->
  (length (cw_responses w') <= length (cw_responses w))%nat -> (length (cw_inputs w') <= length (cw_inputs w))%nat ->
  (length (cw_batches w') <= length (cw_batches w))%nat -> bounds_inv (take_frame o w').
Proof.
  intros [H1 H2 H3 H4] E1 E2 L1 L2 L3. unfold take_frame. destruct (inactive o w'); split; world; rewrite ?E1, ?E2; lia.
Qed.

Lemma bounds_step w w' : bounds_inv w -> conn_step w w' -> bounds_inv w'.
Proof.
  intros Hb Hs. pose proof Hb as [B1 B2 B3 B4]. destruct Hs;
    try (apply bounds_update; [done|]; intros t' Ht'; simplify_eq;
         unfold alive; cbn; repeat match goal with H : tk_state _ = _ |- _ => rewrite H end; done).
  - by split.
  - apply bounds_update; [done|]. intros t _. unfold broadcast_batch. by destruct (tk_source t) as [|? ? ? ? ? []|].
  - apply bounds_update; [done|]. intros t _. unfold broadcast_raw. by destruct (tk_source t) as [| |? ? ? ? []].
  - apply bounds_update; [done|]. intros t _. unfold drop_sender. by destruct (tk_source t).
  - by apply bounds_answer.
  - apply bounds_answer; [done|]. unfold admit_events. by intros ->.
  - apply bounds_answer; [done|]. unfold admit_pty. by intros ->.
  - apply bounds_answer; [done|]. unfold admit_raw. intros ->. by destruct (negb _).
  - split; world; try done; rewrite ?length_app; cbn [length]; [lia|]. rewrite H in B4. exact B4.
  - split; world; try done. rewrite H in B4. cbn [pending_admission] in *. unfold live_count in *.
    rewrite List.filter_app, length_app. destruct a as [a|]; cbn [pending_count] in *; [|cbn; lia].
    cbn. destruct (alive (start a)); cbn [length]; lia.
  - split; world; try done; [rewrite length_app; cbn [length]; lia|].
    pose proof (live_alter (cw_streams w) i (fun t => with_source (advance (tk_source t) o) (with_state Running t))) as Hl.
    specialize (Hl ltac:(intros t' Ht'; simplify_eq; unfold alive; cbn; by rewrite H0)). lia.
  - split; world; try done; [rewrite length_app; cbn [length]; lia|].
    pose proof (live_alter (cw_streams w) i (with_state Finished) ltac:(done)) as Hl. lia.
  - split; world; try done. rewrite length_app. cbn [length]. lia.
  - eapply (bounds_take w); try done; world. rewrite H0. cbn. lia.
  - eapply (bounds_take w); try done; world. rewrite H1. cbn. lia.
  - eapply (bounds_take w); try done; world. rewrite H2. cbn. lia.
  - by split.
  - unfold store_cell. destruct (og_delivered o) as [[j v]|]; [|by split]. by apply (bounds_update (set_writer Idle w)).
  - destruct (og_active o); [|by split]. destruct timed_out; [|by split].
    by apply (bounds_update (set_writer Halted w)).
  - by split.
Qed.

(** ** Reachable connections *)

Lemma reachable_inv w : conn_reachable w -> outbound_inv w /\ announce_inv w /\ bounds_inv w.
Proof.
  intros (s & Hs & Hr). eapply (rtc_ind_r (fun w => outbound_inv w /\ announce_inv w /\ bounds_inv w)); [| |exact Hr].
  - split_and!.
    + split; cbn; try done; by intros ? ? ?%not_elem_of_nil || by intros ? ?%not_elem_of_nil || by intros ? ? ? ?%not_elem_of_nil || intros [].
    + split; cbn; try done; [lia|]. intros [] ? ? ? ? ?; done.
    + split; cbn; unfold RESPONSE_QUEUE_DEPTH, BATCH_QUEUE_DEPTH, MAX_SUBSCRIPTIONS_PER_CONNECTION; lia.
  - intros y z _ Hst (H1 & H2 & H3). split_and!; [by eapply outbound_step|by eapply announce_step|by eapply bounds_step].
Qed.

(** ** What is on the wire *)

(** Where a stream's frames go: the request names the stream, and a session's
    frames name its generation. *)
Inductive Named := NLog (opened : option Z) | NSession (session_id generation : string) | NRaw (generation : string).
Definition named (src : Source) : Named :=
  match src with
  | FromLog opened _ => NLog opened
  | FromSession id g _ _ _ _ => NSession id g
  | FromRaw g _ _ _ _ => NRaw g
  end.

(** The address a frame of such a stream carries beside its request. *)
Definition address (n : Named) : option (option string * string) :=
  match n with NLog _ => None | NSession id g => Some (Some id, g) | NRaw g => Some (None, g) end.

(** What a client reads in a frame: the request, the address and the contents.
    The cursor of an event batch has to be its last event's sequence, and the
    payload behind a raw header the size it announced. *)
Definition frame_units (o : Outgoing) : option (string * option (option string * string) * list StreamUnit) :=
  match og_control o, og_raw o with
  | EventBatch r events cursor, None =>
      if bool_decide (global_sequence <$> last events = Some cursor) then Some (r, None, UEvent <$> events) else None
  | PtyDeltaBatch r id g deltas seq, None =>
      Some (r, Some (Some id, g), [UBatch {| b_seq := seq; b_deltas := deltas |}])
  | PtyRawSnapshot r g seq rows cols n, Some bytes =>
      if (n =? Str.len bytes)%Z then Some (r, Some (None, g), [URaw (RawSnapshot seq rows cols bytes)]) else None
  | PtyRawChunk r g seq n, Some bytes =>
      if (n =? Str.len bytes)%Z then Some (r, Some (None, g), [URaw (RawOutput seq bytes)]) else None
  | PtyRawResized r g seq rows cols, None => Some (r, Some (None, g), [URaw (RawResized seq rows cols)])
  | _, _ => None
  end.

(** What frames bring to a stream. *)
Definition units_to (t : StreamTask) (o : Outgoing) : list StreamUnit :=
  match frame_units o with
  | Some (r, a, us) => if bool_decide (r = tk_request t /\ a = address (named (tk_source t))) then us else []
  | None => []
  end.
Definition received (t : StreamTask) (l : list Outgoing) : list StreamUnit := flat_map (units_to t) l.

(** The answer that admitted a stream: where the log is read from, or the session
    and its generation. *)
Definition admits (n : Named) (reply : Reply) : Prop :=
  match n, reply with
  | NLog opened, Subscribed cursor => cursor = opened
  | NSession id g, PtyAttached id' g' _ _ _ => id' = id /\ g' = g
  | NRaw g, PtyRawAttached _ g' _ _ _ => g' = g
  | _, _ => False
  end.

Definition announces (n : Named) (request_id : string) (o : Outgoing) : Prop :=
  exists reply, og_control o = Response request_id reply /\ admits n reply.

(** A frame says what it is for. *)
Definition truthful (streams : list StreamTask) (o : Outgoing) : Prop :=
  match og_role o with
  | Carries j us => exists t, streams !! j = Some t /\ frame_units o = Some (tk_request t, address (named (tk_source t)), us)
  | Closes _ _ => frame_units o = None
  | Plain | Announces _ => match og_control o with Response _ _ | HostControl _ => True | _ => False end
  end.

Record wire_inv (w : ConnWorld) : Prop := {
  wi_frames o : o ∈ cw_written w ++ in_hand (cw_writer w) ++ cw_batches w ++ cw_responses w ++ cw_inputs w ->
    truthful (cw_streams w) o;
  wi_sending i t o : cw_streams w !! i = Some t -> tk_state t = Sending o ->
    exists us, og_role o = Carries i us /\ frame_units o = Some (tk_request t, address (named (tk_source t)), us);
  wi_closing i t o : cw_streams w !! i = Some t -> tk_state t = Closing o -> exists c, og_role o = Closes i c /\ frame_units o = None;
  wi_inputs o : o ∈ cw_inputs w -> og_role o = Plain;
  wi_answer o a : cw_reader w = Answering o a ->
    og_role o = match a with Some _ => Announces (length (cw_streams w)) | None => Plain end /\ match og_control o with Response _ _ => True | _ => False end;
  wi_answering o a : cw_reader w = Answering o (Some a) ->
    announces (named (tk_source (start a))) (tk_request (start a)) o;
  wi_announced o i : o ∈ cw_written w ++ in_hand (cw_writer w) ++ cw_responses w -> og_role o = Announces i ->
    (exists t, cw_streams w !! i = Some t /\ announces (named (tk_source t)) (tk_request t) o) \/
    (i = length (cw_streams w) /\ exists a, cw_reader w = Starting (Some a) /\
       announces (named (tk_source (start a))) (tk_request (start a)) o);
}.

(** A stream keeps its request and its name. *)
Definition keeps_name (l l' : list StreamTask) : Prop :=
  forall j t, l !! j = Some t -> exists t', l' !! j = Some t' /\
    tk_request t' = tk_request t /\ named (tk_source t') = named (tk_source t).

Lemma truthful_later l l' o : keeps_name l l' -> truthful l o -> truthful l' o.
Proof.
  intros Hk. unfold truthful. destruct (og_role o) as [| |j us|]; try done. intros (t & Ht & Hu).
  destruct (Hk j t Ht) as (t' & Ht' & Hr & Hn). exists t'. split; [done|]. by rewrite Hr, Hn.
Qed.

Lemma keeps_name_alter l i f :
  (forall t, l !! i = Some t -> tk_request (f t) = tk_request t /\ named (tk_source (f t)) = named (tk_source t)) ->
  keeps_name l (alter f i l).
Proof.
  intros Hf j t Ht. rewrite list_lookup_alter. case_decide as E; [|by exists t]. subst j. rewrite Ht. exists (f t).
  split; [done|]. by apply Hf.
Qed.

Lemma wire_update w i f :
  wire_inv w ->
  (forall t, cw_streams w !! i = Some t ->
     tk_request (f t) = tk_request t /\ named (tk_source (f t)) = named (tk_source t) /\
     (tk_state (f t) = tk_state t \/
      match tk_state (f t) with
      | Sending o => exists us, og_role o = Carries i us /\ frame_units o = Some (tk_request t, address (named (tk_source t)), us)
      | Closing o => exists c, og_role o = Closes i c /\ frame_units o = None
      | _ => True
      end)) ->
  wire_inv (update i f w).
Proof.
  intros Hi Hf.
  assert (keeps_name (cw_streams w) (alter f i (cw_streams w))) as Hk.
  { apply keeps_name_alter. intros t Ht. destruct (Hf t Ht) as (? & ? & _). done. }
  split; cbn [update set_streams cw_streams cw_written cw_writer cw_batches cw_responses cw_inputs cw_reader].
  - intros o Ho. eapply truthful_later; [exact Hk|]. by apply (wi_frames _ Hi).
  - intros j t' o (t & Ht & [[-> ->]|[_ ->]])%(update_lookup i f w) Hst; [|by eapply (wi_sending _ Hi)].
    destruct (Hf t Ht) as (Hr & Hn & [Hs|Hs]); rewrite Hr, Hn; [eapply (wi_sending _ Hi); [done|congruence]|by rewrite Hst in Hs].
  - intros j t' o (t & Ht & [[-> ->]|[_ ->]])%(update_lookup i f w) Hst; [|by eapply (wi_closing _ Hi)].
    destruct (Hf t Ht) as (Hr & Hn & [Hs|Hs]); [eapply (wi_closing _ Hi); [done|congruence]|by rewrite Hst in Hs].
  - apply (wi_inputs _ Hi).
  - rewrite length_alter. apply (wi_answer _ Hi).
  - apply (wi_answering _ Hi).
  - intros o j Ho Hr. rewrite length_alter. destruct (wi_announced _ Hi o j Ho Hr) as [(t & Ht & Ha)|H]; [left|by right].
    destruct (Hk j t Ht) as (t' & Ht' & Hr' & Hn'). exists t'. by rewrite Hr', Hn'.
Qed.

(** Nothing but the frames moves, and no frame is new. *)
Lemma wire_same w w' :
  wire_inv w -> cw_streams w' = cw_streams w -> cw_reader w' = cw_reader w -> cw_inputs w' ⊆ cw_inputs w ->
  cw_written w' ++ in_hand (cw_writer w') ++ cw_batches w' ++ cw_responses w' ++ cw_inputs w' ⊆
    cw_written w ++ in_hand (cw_writer w) ++ cw_batches w ++ cw_responses w ++ cw_inputs w ->
  (forall o i, o ∈ cw_written w' ++ in_hand (cw_writer w') ++ cw_responses w' -> og_role o = Announces i ->
     o ∈ cw_written w ++ in_hand (cw_writer w) ++ cw_responses w) ->
  wire_inv w'.
Proof.
  intros Hi Es Er Hin Hf Ha. split; rewrite ?Es, ?Er; try apply Hi.
  - intros o Ho. by apply (wi_frames _ Hi), Hf.
  - intros o Ho. by apply (wi_inputs _ Hi), Hin.
  - intros o i Ho Hr. by apply (wi_announced _ Hi); [eapply Ha|].
Qed.

Lemma pull_says i t s o :
  pull i t s = Send o ->
  exists us, og_role o = Carries i us /\ frame_units o = Some (tk_request t, address (named (tk_source t)), us).
Proof.
  unfold pull. destruct (tk_source t) as [opened cursor|id g r l n c|g r l n c].
  - destruct (es_read_from _ _ _) as [[|e0 events]|]; [done| |done].
    destruct (fit_page event_len _) as [[page cut]|]; [|done]. destruct (last page) as [e|] eqn:El; [|done]. intros [= <-].
    exists (UEvent <$> page). split; [done|]. unfold frame_units. cbn. by rewrite El, bool_decide_eq_true_2.
  - destruct ((r ++ l) !! n) as [b|]; [|by destruct c]. intros [= <-]. exists [UBatch b]. by destruct b.
  - destruct ((r ++ l) !! n) as [d|]; [|by destruct c]. intros [= <-]. exists [URaw d].
    destruct d; (split; [done|]); unfold frame_units; cbn; by rewrite ?Z.eqb_refl.
Qed.

Lemma close_item_says i t code : og_role (close_item i t code) = Closes i (tk_cell t) /\ frame_units (close_item i t code) = None.
Proof. split; [done|]. unfold frame_units, close_item. cbn. by destruct (tk_source t). Qed.

Lemma wire_answer w request_id r :
  wire_inv w -> cw_reader w = Reading ->
  (forall a, r.2 = Some a -> tk_request (start a) = request_id /\ admits (named (tk_source (start a))) r.1) ->
  wire_inv (answer request_id r w).
Proof.
  intros Hi Hrd Hr. split; cbn; try apply Hi.
  - intros o a [= <- <-]. done.
  - intros o a [= <- Ha]. destruct (Hr a Ha) as [<- Had]. by exists r.1.
  - intros o i Ho Hro. destruct (wi_announced _ Hi o i Ho Hro) as [H|(_ & a & Ha & _)]; [by left|congruence].
Qed.

(** A frame that was in order goes to the end of the responses. *)
Lemma wire_respond w o :
  wire_inv w -> truthful (cw_streams w) o -> (forall i, og_role o <> Announces i) ->
  wire_inv (set_responses (cw_responses w ++ [o]) w).
Proof.
  intros Hi Ht Hn. split; cbn; try apply Hi.
  - intros o' Ho'. assert (o' = o \/ o' ∈ cw_written w ++ in_hand (cw_writer w) ++ cw_batches w ++ cw_responses w ++ cw_inputs w)
      as [-> |Hin] by set_solver; [done|by apply (wi_frames _ Hi)].
  - intros o' i Ho' Hr'. assert (o' = o \/ o' ∈ cw_written w ++ in_hand (cw_writer w) ++ cw_responses w)
      as [-> |Hin] by set_solver; [by destruct (Hn i)|by apply (wi_announced _ Hi)].
Qed.

Lemma wire_take w w' o :
  wire_inv w -> cw_writer w = Idle -> cw_streams w' = cw_streams w -> cw_reader w' = cw_reader w ->
  cw_writer w' = Idle -> cw_written w' = cw_written w -> cw_inputs w' ⊆ cw_inputs w ->
  o ∈ cw_batches w ++ cw_responses w ++ cw_inputs w ->
  cw_batches w' ++ cw_responses w' ++ cw_inputs w' ⊆ cw_batches w ++ cw_responses w ++ cw_inputs w ->
  cw_responses w' ⊆ cw_responses w -> (forall i, og_role o = Announces i -> o ∈ cw_responses w) ->
  wire_inv (take_frame o w').
Proof.
  intros Hi Hx Es Er Ex Ew Hin Ho Hq Hr Ha. unfold take_frame.
  destruct (inactive o w'); (apply (wire_same w); [done|done|done|done|..]); cbn; rewrite ?Ex, ?Ew, ?Hx; cbn.
  - set_solver.
  - set_solver.
  - set_solver.
  - intros o' i Ho' Hro. assert (o' = o \/ o' ∈ cw_written w ++ cw_responses w) as [-> |?] by set_solver; [|done].
    apply elem_of_app. right. by eapply Ha.
Qed.

Lemma wire_started w a :
  wire_inv w -> cw_reader w = Starting a ->
  wire_inv (set_reader Reading (set_streams (cw_streams w ++ option_list (start <$> a)) w)).
Proof.
  intros Hi Hr. assert (keeps_name (cw_streams w) (cw_streams w ++ option_list (start <$> a))) as Hk.
  { intros j t Ht. exists t. split; [by apply lookup_app_l_Some|done]. }
  assert (forall j t, (cw_streams w ++ option_list (start <$> a)) !! j = Some t ->
    cw_streams w !! j = Some t \/ tk_state t = Running) as Hnew.
  { intros j t [Ht|[_ Ht]]%lookup_app_Some; [by left|right]. destruct a as [a|]; [|done].
    destruct (j - _)%nat; [|done]. cbn in Ht. injection Ht as <-. by destruct a. }
  split; cbn; try done.
  - intros o Ho. eapply truthful_later; [exact Hk|]. by apply (wi_frames _ Hi).
  - intros j t o Ht Hst. destruct (Hnew j t Ht) as [H|H]; [by eapply (wi_sending _ Hi)|congruence].
  - intros j t o Ht Hst. destruct (Hnew j t Ht) as [H|H]; [by eapply (wi_closing _ Hi)|congruence].
  - apply (wi_inputs _ Hi).
  - intros o i Ho Hro. left. destruct (wi_announced _ Hi o i Ho Hro) as [(t & Ht & Ha)|(-> & a' & Hs & Ha)].
    + exists t. split; [by apply lookup_app_l_Some|done].
    + rewrite Hr in Hs. injection Hs as ->. exists (start a'). split; [|done]. cbn. by rewrite lookup_app_r, Nat.sub_diag by done.
Qed.

Lemma wire_responded w o a :
  wire_inv w -> cw_reader w = Answering o a ->
  wire_inv (set_reader (Starting a) (set_responses (cw_responses w ++ [o]) w)).
Proof.
  intros Hi Hr. destruct (wi_answer _ Hi _ _ Hr) as [Hro Hct]. split; cbn; try done; try apply Hi.
  - intros o' Ho'. assert (o' = o \/ o' ∈ cw_written w ++ in_hand (cw_writer w) ++ cw_batches w ++ cw_responses w ++ cw_inputs w)
      as [-> |Hin] by set_solver; [|by apply (wi_frames _ Hi)].
    unfold truthful. destruct (og_control o); try done. by destruct a; rewrite Hro.
  - intros o' i Ho' Hro'. assert (o' ∈ cw_written w ++ in_hand (cw_writer w) ++ cw_responses w \/ o' = o) as [Hin| ->] by set_solver.
    + destruct (wi_announced _ Hi o' i Hin Hro') as [H|(_ & a' & Ha' & _)]; [by left|congruence].
    + rewrite Hro in Hro'. destruct a as [a|]; [|done]. injection Hro' as <-. right. split; [done|]. exists a.
      split; [done|]. by eapply (wi_answering _ Hi).
Qed.

Lemma wire_queued w i t o :
  wire_inv w -> cw_streams w !! i = Some t -> tk_state t = Sending o ->
  wire_inv (set_batches (cw_batches w ++ [o])
    (update i (fun t => with_source (advance (tk_source t) o) (with_state Running t)) w)).
Proof.
  intros Hi Ht Hst. destruct (wi_sending _ Hi _ _ _ Ht Hst) as (us & Hr & Hu).
  assert (wire_inv (update i (fun t => with_source (advance (tk_source t) o) (with_state Running t)) w)) as Hw.
  { apply wire_update; [done|]. intros t' _. split; [done|]. split; [by destruct t' as [? [] ? ? ? ?]|by right]. }
  split; try apply Hw.
  - intros o' Ho'. assert (o' = o \/ o' ∈ cw_written w ++ in_hand (cw_writer w) ++ cw_batches w ++ cw_responses w ++ cw_inputs w)
      as [-> |Hin] by (cbn in Ho'; set_solver); [|by apply (wi_frames _ Hw)].
    unfold truthful. rewrite Hr. cbn. rewrite list_lookup_alter_eq, Ht. eexists. split; [done|]. cbn.
    rewrite Hu. by destruct (tk_source t).
Qed.

Lemma wire_control w c : wire_inv w -> wire_inv (set_inputs (cw_inputs w ++ [plain (HostControl c) Plain]) w).
Proof.
  intros Hi. split; cbn; try apply Hi.
  - intros o Ho. assert (o = plain (HostControl c) Plain \/
      o ∈ cw_written w ++ in_hand (cw_writer w) ++ cw_batches w ++ cw_responses w ++ cw_inputs w) as [-> |Hin] by set_solver;
      [done|by apply (wi_frames _ Hi)].
  - intros o [Ho| ->%list_elem_of_singleton]%elem_of_app; [by apply (wi_inputs _ Hi)|done].
Qed.

Lemma wire_step w w' : outbound_inv w -> wire_inv w -> conn_step w w' -> wire_inv w'.
Proof.
  intros Ho Hi Hs. destruct Hs;
    try (apply wire_update; [done|]; intros t' Ht'; simplify_eq; split_and!; [done|done|by right]).
  - by apply (wire_same w).
  - apply wire_update; [done|]. intros t Ht. unfold broadcast_batch.
    destruct (tk_source t) as [|? ? ? ? ? []|] eqn:E; (split; [done|]; split; [by rewrite ?E|by left]).
  - apply wire_update; [done|]. intros t Ht. unfold broadcast_raw.
    destruct (tk_source t) as [| |? ? ? ? []] eqn:E; (split; [done|]; split; [by rewrite ?E|by left]).
  - apply wire_update; [done|]. intros t Ht. unfold drop_sender.
    destruct (tk_source t) eqn:E; (split; [done|]; split; [by rewrite ?E|by left]).
  - by apply wire_answer.
  - apply wire_answer; [done..|]. unfold admit_events. destruct (full _); [done|]. by intros a [= <-].
  - apply wire_answer; [done..|]. unfold admit_pty. destruct (full _); [done|]. destruct attached; [|done]. by intros a0 [= <-].
  - apply wire_answer; [done..|]. unfold admit_raw. destruct (negb _); [done|]. destruct (full _); [done|].
    destruct attached; [|done]. by intros a0 [= <-].
  - by apply wire_responded.
  - by apply wire_started.
  - apply wire_update; [done|]. intros t' Ht'. simplify_eq. split; [done|]. split; [done|]. right. by eapply pull_says.
  - by eapply wire_queued.
  - apply wire_update; [done|]. intros t' Ht'. split; [done|]. split; [done|by left].
  - apply wire_update; [done|]. intros t' Ht'. simplify_eq. split; [done|]. split; [done|]. right. cbn. eexists. apply close_item_says.
  - destruct (wi_closing _ Hi _ _ _ H H0) as (c & Hr & Hu). apply (wire_respond (update i (with_state Finished) w)).
    + apply wire_update; [done|]. intros t' Ht'. split; [done|]. split; [done|by right].
    + unfold truthful. by rewrite Hr.
    + intros j. by rewrite Hr.
  - by apply wire_control.
  - eapply (wire_take w); try done; cbn; rewrite H0; set_solver.
  - eapply (wire_take w); try done; cbn; rewrite ?H0, ?H1; try set_solver.
    intros j Hr. by rewrite (wi_inputs _ Hi o) in Hr by (rewrite H1; left).
  - eapply (wire_take w); try done; cbn; rewrite ?H0, ?H1, ?H2; try set_solver.
    intros j Hr. destruct (oi_batches _ Ho o) as (k & us & t & Hr' & _); [rewrite H2; left|congruence].
  - apply (wire_same w); try done; cbn; rewrite H; cbn; set_solver.
  - assert (wire_inv (set_writer Idle w)) as Hw by (apply (wire_same w); try done; cbn; rewrite H; cbn; set_solver).
    unfold store_cell. destruct (og_delivered o) as [[j v]|]; [|done].
    apply wire_update; [done|]. intros t' Ht'. split; [done|]. split; [done|by left].
  - assert (wire_inv (set_writer Halted w)) as Hw by (apply (wire_same w); try done; cbn; rewrite H; cbn; set_solver).
    destruct (og_active o) as [j|]; [|done]. destruct timed_out; [|done].
    apply (wire_update (set_writer Halted w)); [done|]. intros t' Ht'. split; [done|]. split; [done|by left].
  - apply (wire_same w); try done; cbn; set_solver.
Qed.

(** ** The theorems *)

Lemma carried_prefix w i t :
  outbound_inv w -> cw_streams w !! i = Some t -> carried i (cw_written w) `prefix_of` feed (cw_store w) (tk_source t).
Proof.
  intros Hi Ht. pose proof (so_prefix _ _ _ _ _ _ (oi_streams _ Hi _ _ Ht)) as Hp. rewrite carried_app in Hp.
  by eapply prefix_app_l.
Qed.

Lemma reachable_wire w : conn_reachable w -> wire_inv w.
Proof.
  intros (s & Hs & Hr). assert (conn_reachable w /\ wire_inv w) as [_ H]; [|done].
  eapply (rtc_ind_r (fun w => conn_reachable w /\ wire_inv w)); [| |exact Hr].
  - split; [by exists s|]. split; cbn; try done; by intros ? ?%not_elem_of_nil || by intros ? ? ?%not_elem_of_nil.
  - intros y z _ Hst [(s' & Hs' & Hr') Hw]. assert (conn_reachable y) as Hy by (by exists s').
    split; [exists s'; split; [done|by eapply rtc_r]|]. destruct (reachable_inv _ Hy) as [Ho _]. by eapply wire_step.
Qed.

(** No other stream of the connection was asked for under the stream's request. *)
Definition sole (w : ConnWorld) (i : nat) (t : StreamTask) : Prop :=
  forall j t', cw_streams w !! j = Some t' -> tk_request t' = tk_request t -> j = i.

(** What a client reads for a stream is what was sent for it. *)
Lemma received_carried w i t l :
  cw_streams w !! i = Some t -> sole w i t -> (forall o, o ∈ l -> truthful (cw_streams w) o) -> received t l = carried i l.
Proof.
  intros Ht Hsole Hl. unfold received, carried. induction l as [|o l IH]; [done|]. cbn [flat_map].
  rewrite IH by (intros; apply Hl; by right). f_equal. specialize (Hl o ltac:(left)). unfold units_to, units_of, truthful in *.
  destruct (og_role o) as [| |j us|].
  - unfold frame_units. by destruct (og_control o).
  - unfold frame_units. by destruct (og_control o).
  - destruct Hl as (t' & Ht' & ->). destruct (Nat.eqb_spec j i) as [->|Hne].
    + rewrite Ht in Ht'. injection Ht' as <-. by rewrite bool_decide_eq_true_2.
    + rewrite bool_decide_eq_false_2; [done|]. intros [Hr _]. apply Hne. by eapply Hsole.
  - by rewrite Hl.
Qed.

(** C26: Whatever runs on a connection, what the frames written to a
    client say of a stream, log, screen or raw, is a prefix of what its source
    feeds from where it was opened, in order and without gaps; with the frames
    still queued and what the task has not read yet it is the whole feed, while
    the connection is up and the stream active; and no frame of a stream is
    written before the answer that admitted it, which names its cursor or its
    generation.  (For a client that does not use a request id twice.) *)
Theorem streams_are_in_order w i t :
  conn_reachable w -> cw_streams w !! i = Some t -> sole w i t ->
  received t (cw_written w) `prefix_of` feed (cw_store w) (tk_source t) /\
  (halted (cw_writer w) = false -> tk_active t = true ->
     received t (cw_written w ++ in_hand (cw_writer w) ++ cw_batches w) ++ rest (cw_store w) (tk_source t) =
     feed (cw_store w) (tk_source t)) /\
  forall before o after, cw_written w = before ++ o :: after -> units_to t o <> [] ->
    exists answer reply, answer ∈ before /\ og_control answer = Response (tk_request t) reply /\
      admits (named (tk_source t)) reply.
Proof.
  intros Hr Ht Hsole. pose proof (reachable_wire _ Hr) as Hw. destruct (reachable_inv _ Hr) as (Hi & Ha & _).
  assert (forall o, o ∈ cw_written w -> truthful (cw_streams w) o) as Htr by (intros o Ho; apply (wi_frames _ Hw); set_solver).
  split_and!.
  - rewrite (received_carried w i) by done. by apply carried_prefix.
  - intros Hh Hact. rewrite (received_carried w i); [|done..|intros o Ho; apply (wi_frames _ Hw); set_solver].
    by apply (so_whole _ _ _ _ _ _ (oi_streams _ Hi _ _ Ht)).
  - intros before o after Hsp Hu.
    assert (carried i [o] <> []) as Hc.
    { rewrite <-(received_carried w i t [o]); [|done..|].
      - cbn. by rewrite app_nil_r.
      - intros o' ->%list_elem_of_singleton. apply Htr. rewrite Hsp. set_solver. }
    assert (exists us, og_role o = Carries i us) as [us Hro].
    { cbn in Hc. unfold units_of in Hc. destruct (og_role o) as [| |j us|]; try done.
      destruct (Nat.eqb_spec j i) as [->|]; [by exists us|done]. }
    destruct (an_order _ Ha _ _ _ _ _ Hsp Hro) as (answer & Hin & Hro').
    destruct (wi_announced _ Hw answer i) as [(t' & Ht' & reply & Hct & Had)|(-> & _)];
      [rewrite Hsp; set_solver|done| |].
    + rewrite Ht in Ht'. injection Ht' as <-. by exists answer, reply.
    + apply lookup_lt_Some in Ht. lia.
Qed.

(** The cell after frames that carried these events. *)
Lemma marks_carried i c l es :
  (forall o, o ∈ l -> frame_ok o) -> carried i l = UEvent <$> es ->
  marks i c l = match last es with Some e => global_sequence e | None => c end.
Proof.
  revert es. induction l as [|o l IH] using rev_ind; intros es Hf Hc.
  { destruct es; [done|]. by apply (f_equal length) in Hc. }
  rewrite carried_app in Hc. symmetry in Hc. apply fmap_app_inv in Hc as (es1 & es2 & H1 & H2 & ->).
  rewrite marks_app, (IH es1) by set_solver. assert (frame_ok o) as Ho by set_solver. unfold frame_ok in Ho.
  cbn. cbn in H2. rewrite app_nil_r in H2. unfold units_of in H2. destruct (og_role o) as [| |j us|] eqn:E;
    try (symmetry in H2; apply fmap_nil_inv in H2 as ->; rewrite app_nil_r; destruct Ho as [-> _]; done).
  destruct Ho as (Hn & -> & _). destruct (Nat.eqb_spec j i) as [-> |Hne].
  - subst us. unfold mark. rewrite fmap_last. destruct (last es2) as [e|] eqn:El; [|by apply last_None in El as ->].
    cbn. rewrite Nat.eqb_refl. apply last_Some in El as (k & ->). by rewrite app_assoc, last_snoc.
  - symmetry in H2. apply fmap_nil_inv in H2 as ->. rewrite app_nil_r. unfold mark.
    destruct (last us) as [[e|b|d]|]; try done; try (by rewrite (proj2 (Nat.eqb_neq j i))).
    destruct (raw_delivery_seq d); [|done]. cbn. by rewrite (proj2 (Nat.eqb_neq j i)).
Qed.

(** A frame that closes a subscription is the closing frame of a stream. *)
Lemma closed_frame w o r code last_cursor :
  wire_inv w -> o ∈ cw_written w -> og_control o = StreamClosed r code last_cursor -> exists j c, og_role o = Closes j c.
Proof.
  intros Hw Ho Hctl. assert (truthful (cw_streams w) o) as Ht by (apply (wi_frames _ Hw); set_solver).
  unfold truthful in Ht. rewrite Hctl in Ht. destruct (og_role o) as [| |j us|j c]; try done; [|by exists j, c].
  destruct Ht as (t & _ & Hu). unfold frame_units in Hu. by rewrite Hctl in Hu.
Qed.

(** The cursor a closed log subscription reports is one the
    client can resume at: the events written to it before, followed by the log
    after that cursor, are the log after the cursor it opened with. *)
Theorem resume_is_gapless w i t opened cursor o code last_cursor :
  conn_reachable w -> cw_streams w !! i = Some t -> sole w i t -> tk_source t = FromLog opened cursor ->
  o ∈ cw_written w -> og_control o = StreamClosed (tk_request t) code last_cursor ->
  exists before events, before `prefix_of` cw_written w /\ received t before = UEvent <$> events /\
    List.filter (after_cursor opened) (es_log (cw_store w)) =
    events ++ List.filter (after_cursor last_cursor) (es_log (cw_store w)).
Proof.
  intros Hr Ht Hsole Hsrc Ho Hctl. pose proof (reachable_inv _ Hr) as (Hi & _ & _). pose proof (reachable_wire _ Hr) as Hw.
  pose proof (carried_prefix _ _ _ Hi Ht) as Hp. rewrite Hsrc in Hp. cbn in Hp.
  destruct (closed_frame w o _ _ _ Hw Ho Hctl) as (j & c & Hrole).
  destruct (oi_closes _ Hi o j c) as (t' & Ht' & code' & c' & before & Hrole' & Hctl' & [more Hb] & Hc); [set_solver|done|].
  rewrite Hrole in Hrole'. injection Hrole' as <-. rewrite Hctl in Hctl'.
  assert (j = i) as -> by (apply (Hsole _ _ Ht'); destruct (tk_source t'); cbn in Hctl'; congruence).
  rewrite Ht in Ht'. injection Ht' as <-. rewrite Hsrc in Hctl'. cbn in Hctl'. injection Hctl' as _ ->.
  rewrite Hb, carried_app in Hp. destruct Hp as [tail Hp]. rewrite <-app_assoc in Hp.
  apply fmap_app_inv in Hp as (es & rest_ & He & _ & Hlog).
  exists before, es. split; [by exists more|]. split.
  { rewrite (received_carried w i); [done..|]. intros o' Ho'. apply (wi_frames _ Hw). rewrite Hb. set_solver. }
  rewrite (so_opened _ _ _ _ _ _ (oi_streams _ Hi _ _ Ht) _ _ Hsrc) in Hc.
  assert (forall o, o ∈ before -> frame_ok o) as Hf by (intros o' Ho'; apply (oi_frames _ Hi); rewrite Hb; set_solver).
  rewrite (marks_carried i _ before es Hf He) in Hc. rewrite Hlog at 1. f_equal. pose proof (log_rises _ (oi_store _ Hi)) as Hinc.
  destruct (last es) as [e|] eqn:El.
  - assert (e ∈ es_log (cw_store w)) as Hin.
    { apply last_Some_elem_of in El. assert (e ∈ es ++ rest_) as Hin by set_solver. rewrite <-Hlog in Hin.
      apply list_elem_of_In, filter_In in Hin as [Hin _]. by apply list_elem_of_In. }
    pose proof (increasing_lower _ _ _ _ Hinc Hin). destruct (Z.eqb_spec c 0); [lia|]. subst c.
    symmetry. by eapply log_after_last.
  - apply last_None in El as ->. cbn in Hlog. rewrite <-Hlog. subst c. destruct opened as [k|]; cbn; [|done].
    destruct (Z.eqb_spec k 0) as [-> |]; [|done]. apply List.filter_ext_in. intros e He'%list_elem_of_In. cbn.
    pose proof (increasing_lower _ _ _ _ Hinc He'). lia.
Qed.

(** C30: A connection never has more than eight live streams, and
    its queues never hold more than one response, one input and eight batches,
    however slowly the client reads. *)
Theorem connection_is_bounded w :
  conn_reachable w ->
  (length (cw_responses w) <= 1)%nat /\ (length (cw_inputs w) <= 1)%nat /\ (length (cw_batches w) <= 8)%nat /\
  (length (List.filter alive (cw_streams w)) <= 8)%nat.
Proof.
  intros (_ & _ & [H1 H2 H3 H4])%reachable_inv. unfold live_count, MAX_SUBSCRIPTIONS_PER_CONNECTION in *. split_and!; try done. lia.
Qed.

(** ** Catching up *)

Lemma fit_from_total {A} (len : A -> option Z) items bytes kept :
  (forall x, x ∈ items -> is_Some (len x)) -> is_Some (fit_from len bytes kept items).
Proof.
  revert bytes kept. induction items as [|x items IH]; intros bytes kept Hl; cbn; [by eexists|].
  destruct (Hl x) as [n Hn]; [left|]. rewrite Hn. cbn. destruct (_ && _); [by eexists|]. apply IH. intros y Hy. apply Hl. by right.
Qed.

(** The queues are empty and the client reads. *)
Definition ready (w : ConnWorld) : Prop :=
  cw_writer w = Idle /\ cw_responses w = [] /\ cw_inputs w = [] /\ cw_batches w = [].

(** A running subscription that is behind sends its next page. *)
Lemma pull_behind s i t opened cursor :
  es_inv s -> tk_source t = FromLog opened cursor -> cursor_ok s (tk_source t) ->
  (forall e, e ∈ es_log s -> is_Some (event_len e)) -> rest s (tk_source t) <> [] ->
  exists o, pull i t s = Send o /\ og_active o = None /\ exists v, og_delivered o = Some (i, v).
Proof.
  intros Hs Hsrc Hc Hl Hr. unfold pull. rewrite Hsrc in *. cbn in Hr.
  rewrite reads_after by (done || by eapply cursor_nonneg). unfold read_page.
  change (List.filter (fun e : event => match cursor with Some c => (c <? global_sequence e)%Z | None => true end))
    with (List.filter (after_cursor cursor)).
  assert (forall x, x ∈ List.filter (after_cursor cursor) (es_log s) -> is_Some (event_len x)) as Hl'.
  { intros x [Hx _]%list_elem_of_In%filter_In. apply Hl. by apply list_elem_of_In. }
  destruct (List.filter (after_cursor cursor) (es_log s)) as [|e0 l] eqn:El; [done|].
  change (Z.to_nat (SUBSCRIPTION_BATCH_ROWS `min` MAX_READ_LIMIT)) with 256%nat. cbn [take].
  destruct (fit_from_total event_len (e0 :: take 255 l) 0 []) as [[page cut] Hp].
  { intros x Hx. apply Hl'. apply elem_of_cons in Hx as [-> |Hx]; [left|]. right. by eapply elem_of_take in Hx as (? & ? & _); eapply list_elem_of_lookup_2. }
  unfold fit_page. rewrite Hp. destruct (fit_page_ok event_len _ _ _ Hp) as [Hne _]; [done|].
  destruct (last page) as [e|] eqn:E; [|by apply last_None in E]. eexists. split; [done|]. split; [done|]. by eexists.
Qed.

Lemma requests_alter i f (l : list StreamTask) :
  (forall t, tk_request (f t) = tk_request t) -> tk_request <$> alter f i l = tk_request <$> l.
Proof. intros Hf. revert i. induction l as [|t l IH]; intros [|i]; cbn; by rewrite ?Hf, ?IH. Qed.

(** One page: read, queued, written and recorded. *)
Lemma page_round w i t opened cursor :
  outbound_inv w -> ready w -> cw_streams w !! i = Some t -> tk_state t = Running -> tk_source t = FromLog opened cursor ->
  (forall e, e ∈ es_log (cw_store w) -> is_Some (event_len e)) -> rest (cw_store w) (tk_source t) <> [] ->
  exists w' t' cursor', rtc conn_step w w' /\ ready w' /\ cw_store w' = cw_store w /\ cw_streams w' !! i = Some t' /\
    tk_state t' = Running /\ tk_source t' = FromLog opened cursor' /\
    (length (rest (cw_store w) (tk_source t')) < length (rest (cw_store w) (tk_source t)))%nat /\
    tk_request <$> cw_streams w' = tk_request <$> cw_streams w.
Proof.
  intros Hi (Hx & Hr & Hin & Hq) Ht Hrun Hsrc Hl Hrest. pose proof (oi_streams _ Hi _ _ Ht) as Ho.
  destruct (pull_behind (cw_store w) i t opened cursor) as (o & Hp & Hact & v & Hd); try done; [apply Hi|apply Ho|].
  pose proof (pull_item _ _ _ _ (oi_store _ Hi) (so_cursor _ _ _ _ _ _ Ho) Hp) as Hitem.
  destruct (advance_rest _ _ _ _ (oi_store _ Hi) (so_cursor _ _ _ _ _ _ Ho) Hitem) as (us & Hrole & Hadv & _ & _).
  destruct Hitem as (us' & Hrole' & Hne & _). rewrite Hrole in Hrole'. injection Hrole' as <-.
  set (w1 := update i (with_state (Sending o)) w).
  set (w2 := set_batches (cw_batches w1 ++ [o])
    (update i (fun t => with_source (advance (tk_source t) o) (with_state Running t)) w1)).
  set (w3 := set_writer (Writing o) (set_batches [] w2)).
  set (w4 := set_writer (Wrote o) (set_written (cw_written w3 ++ [o]) w3)).
  set (w5 := store_cell o (set_writer Idle w4)).
  set (t1 := with_state (Sending o) t).
  assert (cw_streams w1 !! i = Some t1) as Ht1 by (cbn; by rewrite list_lookup_alter_eq, Ht).
  set (t2 := with_source (advance (tk_source t) o) (with_state Running t1)).
  assert (cw_streams w4 !! i = Some t2) as Ht2 by (cbn; by rewrite !list_lookup_alter_eq, Ht).
  exists w5, (with_cell v t2), (Some v). split_and!.
  - eapply rtc_l; [by eapply cs_pull|]. eapply rtc_l; [eapply (cs_queue i t1 o w1); [done..|]|].
    { cbn. rewrite Hq. cbn. unfold BATCH_QUEUE_DEPTH, MAX_SUBSCRIPTIONS_PER_CONNECTION. lia. }
    fold w2. eapply rtc_l; [apply (cs_take_batch o [] w2); try done; cbn; by rewrite Hq|].
    unfold take_frame, inactive. rewrite Hact. fold w3. eapply rtc_l; [by apply (cs_wrote o w3)|]. fold w4.
    apply rtc_once. by apply (cs_store o w4).
  - unfold w5, store_cell. rewrite Hd. unfold ready. cbn. by rewrite Hr, Hin.
  - unfold w5, store_cell. by rewrite Hd.
  - unfold w5, store_cell. rewrite Hd. cbn [update set_streams cw_streams set_writer]. by rewrite list_lookup_alter_eq, Ht2.
  - done.
  - cbn. rewrite Hsrc. cbn. by rewrite Hd.
  - cbn. rewrite Hadv, length_app. destruct us; [done|]. cbn. lia.
  - unfold w5, store_cell. rewrite Hd. cbn. by rewrite !requests_alter.
Qed.

(** The rounds that catch up, by the frames' roles. *)
Lemma catches_up w i t opened cursor :
  outbound_inv w -> ready w -> cw_streams w !! i = Some t -> tk_state t = Running -> tk_source t = FromLog opened cursor ->
  (forall e, e ∈ es_log (cw_store w) -> is_Some (event_len e)) ->
  exists w', rtc conn_step w w' /\ cw_store w' = cw_store w /\ tk_request <$> cw_streams w' = tk_request <$> cw_streams w /\
    (exists t', cw_streams w' !! i = Some t' /\ named (tk_source t') = named (tk_source t)) /\
    carried i (cw_written w') = UEvent <$> List.filter (after_cursor opened) (es_log (cw_store w)).
Proof.
  intros Hi.
  assert (exists n, (length (rest (cw_store w) (tk_source t)) < n)%nat) as [n Hn] by (eexists; apply Nat.lt_succ_diag_r).
  revert w t cursor Hi Hn. induction n as [|n IH]; intros w t cursor Hi Hn Hready Ht Hrun Hsrc Hl; [lia|].
  destruct (rest (cw_store w) (tk_source t)) as [|u us] eqn:E.
  - exists w. split; [constructor|]. split; [done|]. split; [done|]. split; [by exists t|]. pose proof (oi_streams _ Hi _ _ Ht) as Ho.
    destruct Hready as (Hx & _ & _ & Hq).
    pose proof (so_whole _ _ _ _ _ _ Ho) as Hw. rewrite Hx, Hq, E, Hsrc in Hw. cbn in Hw. rewrite !app_nil_r in Hw.
    apply Hw; [done|]. apply (so_raw _ _ _ _ _ _ Ho); [by rewrite Hx|]. unfold is_raw. by rewrite Hsrc.
  - destruct (page_round w i t opened cursor) as (w1 & t1 & cursor1 & Hst & Hready1 & Hs1 & Ht1 & Hrun1 & Hsrc1 & Hlen & Hreq); try done;
      [by rewrite E|]. rewrite E in Hlen.
    assert (outbound_inv w1) as Hi1 by (eapply (rtc_ind_r outbound_inv); [exact Hi| |exact Hst]; intros; by eapply outbound_step).
    destruct (IH w1 t1 cursor1) as (w2 & Hst2 & Hs2 & Hreq2 & (t2 & Ht2 & Hn2) & Hc); try done; [rewrite Hs1; lia|by rewrite Hs1|].
    exists w2. split; [by etrans|]. split; [congruence|]. split; [congruence|]. rewrite Hs1 in Hc. split; [|done].
    exists t2. split; [done|]. by rewrite Hn2, Hsrc1, Hsrc.
Qed.

(** C31: From any reachable state in which the writer and the
    queues are free, a running log subscription has steps after which the frames
    written to the client hold exactly the events of the log after the cursor it
    opened with, provided each event serialises.  (For a client that does not use
    a request id twice.) *)
Theorem subscription_catches_up w i t opened cursor :
  conn_reachable w -> ready w -> cw_streams w !! i = Some t -> sole w i t -> tk_state t = Running ->
  tk_source t = FromLog opened cursor ->
  (forall e, e ∈ es_log (cw_store w) -> is_Some (event_len e)) ->
  exists w', rtc conn_step w w' /\ cw_store w' = cw_store w /\
    received t (cw_written w') = UEvent <$> List.filter (after_cursor opened) (es_log (cw_store w)).
Proof.
  intros Hr Hready Ht Hsole Hrun Hsrc Hl. destruct (reachable_inv _ Hr) as (Hi & _).
  destruct (catches_up w i t opened cursor Hi Hready Ht Hrun Hsrc Hl) as (w' & Hst & Hs & Hreq & (t' & Ht' & Hn) & Hc).
  exists w'. split; [done|]. split; [done|]. rewrite <-Hc.
  assert (wire_inv w') as Hw.
  { apply reachable_wire. destruct Hr as (s & Hs0 & Hr). exists s. split; [done|]. by etrans. }
  assert (forall j t0, cw_streams w' !! j = Some t0 ->
    exists t1, cw_streams w !! j = Some t1 /\ tk_request t1 = tk_request t0) as Hback.
  { intros j t0 Hj. assert ((tk_request <$> cw_streams w) !! j = Some (tk_request t0)) as H
      by (rewrite <-Hreq, list_lookup_fmap, Hj; done).
    rewrite list_lookup_fmap in H. destruct (cw_streams w !! j) as [t1|]; [|done]. injection H as H. by exists t1. }
  assert (tk_request t' = tk_request t) as Hrt by (destruct (Hback i t' Ht') as (t1 & H1 & <-); congruence).
  assert (received t (cw_written w') = received t' (cw_written w')) as ->.
  { unfold received. f_equal. unfold units_to. by rewrite Hn, Hrt. }
  apply (received_carried w' i); [done| |intros o Ho; apply (wi_frames _ Hw); set_solver].
  intros j t0 Hj Hq. destruct (Hback j t0 Hj) as (t1 & H1 & Hr1). eapply Hsole; [exact H1|congruence].
Qed.
End Outbound.
