(* ===== verification/Container.v ===== *)
(** * Blob containers (gwk-kernel/src/blob/container.rs, gwk-domain/src/blob.rs)

    A container is an authenticated header and the plaintext sealed in chunks of
    one mebibyte, each behind its length; the wrapped data key is kept beside it.
    The ciphers, the digest and the random source are other crates': they are the
    parameters of [Aead], whose laws are what the format relies on.  The theorems:
    a header survives its encoding and has no other, a sealed blob opens to what
    went in, a range of it reads as that range, and what was cut or moved does
    not open. *)

From S2P Require Import Prelude Text Command Hub Wire.

Notation bytes := (list Z).

Definition byte (b : Z) : Prop := (0 <= b < 256)%Z.

Definition BLOB_CHUNK_BYTES : Z := 1024 * 1024.
(** The chunk size, as a length. *)
Definition chunk_nat : nat := Z.to_nat BLOB_CHUNK_BYTES.
Definition MAGIC : bytes := [71; 87; 75; 66; 76; 79; 66; 0]%Z.
Definition FORMAT_VERSION : Z := 1.
Definition DEK_BYTES : Z := 32.
Definition WRAP_NONCE_BYTES : Z := 24.
Definition TAG_BYTES : Z := 16.
Definition WRAPPED_DEK_BYTES : Z := DEK_BYTES + TAG_BYTES.
Definition STREAM_NONCE_BYTES : Z := WRAP_NONCE_BYTES - 5.
Definition CHUNK_LEN_BYTES : Z := 4.
Definition MAX_CIPHERTEXT_CHUNK_BYTES : Z := BLOB_CHUNK_BYTES + TAG_BYTES.
Definition FRAMED_CHUNK_BYTES : Z := CHUNK_LEN_BYTES + MAX_CIPHERTEXT_CHUNK_BYTES.
Definition DIGEST_BYTES : Z := 32.
Definition FIXED_HEADER_BYTES : Z := 8 + 2 + DIGEST_BYTES + 8 + STREAM_NONCE_BYTES + 2 + 2.

Definition zlen (l : bytes) : Z := Z.of_nat (length l).

(** [BlobError], without its texts. *)
Inductive BlobError :=
| NotFound
| Tombstoned
| DigestMismatch
| Integrity
| Pinned
| BlobStorage.

(** ** Integers and strings as bytes *)

(** [to_be_bytes] of an integer of [k] bytes. *)
Fixpoint be (k : nat) (n : Z) : bytes :=
  match k with
  | O => []
  | S k => be k (Z.shiftr n 8) ++ [Z.land n 255]
  end.

Definition within (lo hi b : Z) : bool := ((lo <=? b) && (b <=? hi))%Z.
Definition continuation : Z -> bool := within 128 191.

(** [std::str::from_utf8]: the well-formed sequences. *)
Fixpoint utf8_ok (l : bytes) : bool :=
  match l with
  | [] => true
  | b1 :: l1 =>
      if within 0 127 b1 then utf8_ok l1
      else match l1 with
           | [] => false
           | b2 :: l2 =>
               if within 194 223 b1 then continuation b2 && utf8_ok l2
               else match l2 with
                    | [] => false
                    | b3 :: l3 =>
                        if within 224 239 b1 then
                          within (if b1 =? 224 then 160 else 128)%Z (if b1 =? 237 then 159 else 191)%Z b2
                          && continuation b3 && utf8_ok l3
                        else match l3 with
                             | [] => false
                             | b4 :: l4 =>
                                 within 240 244 b1
                                 && within (if b1 =? 240 then 144 else 128)%Z (if b1 =? 244 then 143 else 191)%Z b2
                                 && continuation b3 && continuation b4 && utf8_ok l4
                             end
                    end
           end
  end.

(** ** The ciphers *)

(** XChaCha20-Poly1305, its BE32 stream (a key, a nonce, a position and whether
    the chunk is the last), and SHA-256. *)
Class Aead := {
  sha256 : bytes -> bytes;
  aead_encrypt : bytes -> bytes -> bytes -> bytes -> option bytes;
  aead_decrypt : bytes -> bytes -> bytes -> bytes -> option bytes;
  stream_encrypt : bytes -> bytes -> Z -> bool -> bytes -> bytes -> option bytes;
  stream_decrypt : bytes -> bytes -> Z -> bool -> bytes -> bytes -> option bytes;
}.

(** Encryption accepts a chunk, adds the tag and is undone.  What the tag gives
    except with negligible probability is stated as its ideal: under any key a
    ciphertext opens to what was sealed or not at all, and the stream
    authenticates a chunk's place, so that it opens at no other. *)
Class AeadLaws `{Aead} : Prop := {
  sha256_len l : length (sha256 l) = 32%nat;
  aead_total k n a m : (zlen m <= BLOB_CHUNK_BYTES)%Z -> is_Some (aead_encrypt k n a m);
  aead_opens k n a m c : aead_encrypt k n a m = Some c -> aead_decrypt k n a c = Some m;
  aead_authentic k k' n a m m' c : aead_encrypt k n a m = Some c -> aead_decrypt k' n a c = Some m' -> m' = m;
  aead_len k n a m c : aead_encrypt k n a m = Some c -> zlen c = (zlen m + TAG_BYTES)%Z;
  stream_total k n p l a m : (0 <= p < u32_max)%Z -> (zlen m <= BLOB_CHUNK_BYTES)%Z -> is_Some (stream_encrypt k n p l a m);
  stream_opens k n p l a m c : stream_encrypt k n p l a m = Some c -> stream_decrypt k n p l a c = Some m;
  stream_len k n p l a m c : stream_encrypt k n p l a m = Some c -> zlen c = (zlen m + TAG_BYTES)%Z;
  stream_place k n p l p' l' a m c : stream_encrypt k n p l a m = Some c -> (p', l') <> (p, l) ->
    stream_decrypt k n p' l' a c = None;
}.

(** ** The header *)

Record Header := {
  hd_digest : bytes;
  hd_byte_size : Z;
  hd_media_type : bytes;
  hd_kek_id : bytes;
  hd_stream_nonce : bytes;
}.

(** [Header::encode]. *)
Definition encode (h : Header) : bytes :=
  MAGIC ++ be 2 FORMAT_VERSION ++ hd_digest h ++ be 8 (hd_byte_size h) ++ hd_stream_nonce h ++
  be 2 (zlen (hd_media_type h)) ++ be 2 (zlen (hd_kek_id h)) ++ hd_media_type h ++ hd_kek_id h.

(** [bytes[from..to]]. *)
Definition slice (from to : Z) (l : bytes) : bytes := take (Z.to_nat (to - from)) (drop (Z.to_nat from) l).

Definition VERSION_AT : Z := 8.
Definition DIGEST_AT : Z := VERSION_AT + 2.
Definition SIZE_AT : Z := DIGEST_AT + DIGEST_BYTES.
Definition NONCE_AT : Z := SIZE_AT + 8.
Definition MEDIA_LEN_AT : Z := NONCE_AT + STREAM_NONCE_BYTES.
Definition KEK_LEN_AT : Z := MEDIA_LEN_AT + 2.

(** [Header::decode]. *)
Definition decode (l : bytes) : result BlobError (Header * Z) :=
  _ ← ensure (FIXED_HEADER_BYTES <=? zlen l)%Z Integrity;
  _ ← ensure (bool_decide (slice 0 VERSION_AT l = MAGIC)) Integrity;
  _ ← ensure (from_be_bytes (slice VERSION_AT DIGEST_AT l) =? FORMAT_VERSION)%Z Integrity;
  let media_len := from_be_bytes (slice MEDIA_LEN_AT KEK_LEN_AT l) in
  let kek_len := from_be_bytes (slice KEK_LEN_AT FIXED_HEADER_BYTES l) in
  let at_ := FIXED_HEADER_BYTES in
  _ ← ensure (at_ + media_len + kek_len <=? zlen l)%Z Integrity;
  let media_type := slice at_ (at_ + media_len) l in
  _ ← ensure (utf8_ok media_type) Integrity;
  let at_ := (at_ + media_len)%Z in
  let kek_id := slice at_ (at_ + kek_len) l in
  _ ← ensure (utf8_ok kek_id) Integrity;
  mret ({| hd_digest := slice DIGEST_AT SIZE_AT l; hd_byte_size := from_be_bytes (slice SIZE_AT NONCE_AT l);
           hd_media_type := media_type; hd_kek_id := kek_id; hd_stream_nonce := slice NONCE_AT MEDIA_LEN_AT l |},
        (at_ + kek_len)%Z).

(** [header_len], [chunk_count] and [chunk_offset]. *)
Definition header_len (media_type kek_id : bytes) : Z := (FIXED_HEADER_BYTES + zlen media_type + zlen kek_id)%Z.
Definition chunk_count (byte_size : Z) : Z := Z.max 1 ((byte_size + BLOB_CHUNK_BYTES - 1) / BLOB_CHUNK_BYTES).
Definition chunk_offset (header_len index : Z) : Z := (header_len + index * FRAMED_CHUNK_BYTES)%Z.

(** ** Sealing and opening *)

Section Container.
Context `{AE : Aead}.

(** [wrap_dek] and [unwrap_dek]: a data key and its wrap have fixed widths. *)
Definition wrap_dek (dek kek nonce aad : bytes) : result BlobError bytes :=
  sealed ← ok_or (aead_encrypt kek nonce aad dek) Integrity;
  _ ← ensure (zlen sealed =? WRAPPED_DEK_BYTES)%Z Integrity;
  mret sealed.
Definition unwrap_dek (wrapped kek nonce aad : bytes) : result BlobError bytes :=
  dek ← ok_or (aead_decrypt kek nonce aad wrapped) Integrity;
  _ ← ensure (zlen dek =? DEK_BYTES)%Z Integrity;
  mret dek.

(** [push_chunk]: what it appends. *)
Definition push_chunk (chunk : bytes) : result BlobError bytes :=
  _ ← ensure (zlen chunk <=? u32_max)%Z Integrity;
  mret (be 4 (zlen chunk) ++ chunk).

(** [plaintext.chunks(BLOB_CHUNK_BYTES)]. *)
Fixpoint chunks_of (fuel : nat) (l : bytes) : list bytes :=
  match fuel, l with
  | S fuel, _ :: _ => take chunk_nat l :: chunks_of fuel (drop chunk_nat l)
  | _, _ => []
  end.
Definition chunks (l : bytes) : list bytes := chunks_of (length l) l.

(** An empty blob still has a chunk. *)
Definition blob_chunks (l : bytes) : list bytes := match chunks l with [] => [[]] | cs => cs end.

(** The sealed chunks from [position] on: [encrypt_next] has a last position it
    does not pass, and the last chunk is sealed as such. *)
Fixpoint seal_chunks (dek nonce aad : bytes) (position : Z) (cs : list bytes) : result BlobError bytes :=
  match cs with
  | [] => Err Integrity
  | [last] =>
      sealed ← ok_or (stream_encrypt dek nonce position true aad last) Integrity;
      push_chunk sealed
  | chunk :: cs =>
      _ ← ensure (position <? u32_max)%Z Integrity;
      sealed ← ok_or (stream_encrypt dek nonce position false aad chunk) Integrity;
      framed ← push_chunk sealed;
      rest ← seal_chunks dek nonce aad (position + 1) cs;
      mret (framed ++ rest)
  end.

Record Sealed := {
  sl_container : bytes;
  sl_wrap_nonce : bytes;
  sl_wrapped_dek : bytes;
  sl_digest : bytes;
}.

Definition header_of (plaintext media_type kek_id stream_nonce : bytes) : Header := {|
  hd_digest := sha256 plaintext; hd_byte_size := zlen plaintext; hd_media_type := media_type; hd_kek_id := kek_id;
  hd_stream_nonce := stream_nonce |}.

(** [seal_with]; [seal] calls it with fresh keys and nonces. *)
Definition seal_with (plaintext media_type kek kek_id dek wrap_nonce stream_nonce : bytes) : result BlobError Sealed :=
  _ ← ensure (negb ((u16_max <? zlen media_type) || (u16_max <? zlen kek_id)))%Z Integrity;
  let aad := encode (header_of plaintext media_type kek_id stream_nonce) in
  wrapped_dek ← wrap_dek dek kek wrap_nonce aad;
  body ← seal_chunks dek stream_nonce aad 0 (blob_chunks plaintext);
  mret {| sl_container := aad ++ body; sl_wrap_nonce := wrap_nonce; sl_wrapped_dek := wrapped_dek;
          sl_digest := sha256 plaintext |}.

(** [read_chunk], on what is left of the container. *)
Definition read_chunk (rest : bytes) : result BlobError (bytes * bytes) :=
  _ ← ensure (CHUNK_LEN_BYTES <=? zlen rest)%Z Integrity;
  let len := from_be_bytes (take 4 rest) in
  let rest := drop 4 rest in
  _ ← ensure (len <=? zlen rest)%Z Integrity;
  mret (take (Z.to_nat len) rest, drop (Z.to_nat len) rest).

(** The framing loop of [open]. *)
Fixpoint read_chunks (fuel : nat) (rest : bytes) : result BlobError (list bytes) :=
  match fuel, rest with
  | S fuel, _ :: _ =>
      '(chunk, rest) ← read_chunk rest;
      more ← read_chunks fuel rest;
      mret (chunk :: more)
  | _, _ => mret []
  end.

(** The decryptor's chunks from [position] on. *)
Fixpoint open_chunks (dek nonce aad : bytes) (position : Z) (cs : list bytes) : result BlobError bytes :=
  match cs with
  | [] => Err Integrity
  | [last] => ok_or (stream_decrypt dek nonce position true aad last) Integrity
  | chunk :: cs =>
      _ ← ensure (position <? u32_max)%Z Integrity;
      part ← ok_or (stream_decrypt dek nonce position false aad chunk) Integrity;
      rest ← open_chunks dek nonce aad (position + 1) cs;
      mret (part ++ rest)
  end.

(** [open]. *)
Definition open (container kek wrap_nonce wrapped_dek : bytes) : result BlobError (Header * bytes) :=
  '(header, len) ← decode container;
  let aad := take (Z.to_nat len) container in
  dek ← unwrap_dek wrapped_dek kek wrap_nonce aad;
  framed ← read_chunks (length container) (drop (Z.to_nat len) container);
  plaintext ← open_chunks dek (hd_stream_nonce header) aad 0 framed;
  _ ← ensure (zlen plaintext =? hd_byte_size header)%Z Integrity;
  _ ← ensure (bool_decide (sha256 plaintext = hd_digest header)) Integrity;
  mret (header, plaintext).

(** [rewrap]. *)
Definition rewrap (container old_kek new_kek wrap_nonce wrapped_dek new_wrap_nonce : bytes) : result BlobError bytes :=
  '(_, len) ← decode container;
  let aad := take (Z.to_nat len) container in
  dek ← unwrap_dek wrapped_dek old_kek wrap_nonce aad;
  wrap_dek dek new_kek new_wrap_nonce aad.

(** [open_chunk]. *)
Definition open_chunk (aad dek stream_nonce : bytes) (position : Z) (last : bool) (ciphertext : bytes)
  : result BlobError bytes :=
  ok_or (stream_decrypt dek stream_nonce position last aad ciphertext) Integrity.

(** ** Reading a range (the container half of [PgBlobStore::read]) *)

(** [read_exact] after a seek: running off the end is truncation. *)
Definition read_at (offset n : Z) (container : bytes) : result BlobError bytes :=
  _ ← ensure (offset + n <=? zlen container)%Z Integrity;
  mret (slice offset (offset + n) container).

(** The loop over the chunks of the range. *)
Fixpoint read_range_chunks (count : nat) (aad dek nonce : bytes) (final_index index : Z) (container : bytes)
  : result BlobError bytes :=
  match count with
  | O => mret []
  | S count =>
      let at_ := chunk_offset (zlen aad) index in
      prefix ← read_at at_ CHUNK_LEN_BYTES container;
      let ciphertext_len := from_be_bytes prefix in
      _ ← ensure (ciphertext_len <=? MAX_CIPHERTEXT_CHUNK_BYTES)%Z Integrity;
      body ← read_at (at_ + CHUNK_LEN_BYTES) ciphertext_len container;
      _ ← ensure (index <=? u32_max)%Z Integrity;
      part ← open_chunk aad dek nonce index (index =? final_index)%Z body;
      rest ← read_range_chunks count aad dek nonce final_index (index + 1) container;
      mret (part ++ rest)
  end.

(** The range, already clamped to the blob and to one chunk. *)
Definition read_range (size offset length_ : Z) (header : Header) (aad dek container : bytes) : result BlobError bytes :=
  let chunk := BLOB_CHUNK_BYTES in
  let final_index := (chunk_count size - 1)%Z in
  let first := (offset / chunk)%Z in
  let last_ := ((offset + length_ - 1) / chunk)%Z in
  plaintext ← read_range_chunks (Z.to_nat (last_ - first + 1)) aad dek (hd_stream_nonce header) final_index first container;
  let start := (offset - first * chunk)%Z in
  let stop := (start + length_)%Z in
  _ ← ensure (stop <=? zlen plaintext)%Z Integrity;
  mret (slice start stop plaintext).
End Container.

(** ** Bytes *)

Lemma zlen_app a b : zlen (a ++ b) = (zlen a + zlen b)%Z.
Proof. unfold zlen. rewrite length_app. lia. Qed.

Lemma nat_zlen l : Z.to_nat (zlen l) = length l.
Proof. apply Nat2Z.id. Qed.

Lemma zlen_nonneg l : (0 <= zlen l)%Z.
Proof. unfold zlen. lia. Qed.

Lemma be_length k n : length (be k n) = k.
Proof. revert n. induction k as [|k IH]; intros n; cbn; [done|]. rewrite length_app, IH. cbn. lia. Qed.

Lemma be_bytes k n : Forall byte (be k n).
Proof.
  revert n. induction k as [|k IH]; intros n; cbn; [constructor|]. apply Forall_app. split; [apply IH|]. constructor; [|constructor].
  unfold byte. rewrite land_255. apply Z.mod_pos_bound. lia.
Qed.

Lemma from_be_snoc l b : byte b -> from_be_bytes (l ++ [b]) = (from_be_bytes l * 256 + b)%Z.
Proof. intros Hb. unfold from_be_bytes. rewrite foldl_app. cbn. by apply lor_byte. Qed.

Lemma from_be k n : (0 <= n < 256 ^ Z.of_nat k)%Z -> from_be_bytes (be k n) = n.
Proof.
  revert n. induction k as [|k IH]; intros n Hn; [cbn in *; lia|]. cbn [be]. rewrite from_be_snoc.
  - rewrite Z.shiftr_div_pow2, land_255 by lia. change (2 ^ 8)%Z with 256%Z.
    rewrite IH; [pose proof (Z.div_mod n 256); lia|]. rewrite Nat2Z.inj_succ, Z.pow_succ_r in Hn by lia.
    split; [apply Z.div_pos; lia|]. apply Z.div_lt_upper_bound; lia.
  - unfold byte. rewrite land_255. apply Z.mod_pos_bound. lia.
Qed.

Lemma be_from l : Forall byte l -> be (length l) (from_be_bytes l) = l /\ (0 <= from_be_bytes l < 256 ^ zlen l)%Z.
Proof.
  induction l as [|b l IH] using rev_ind; intros Hl; [by split; [|unfold zlen; cbn; split]|]. apply Forall_app in Hl as [Hl Hb].
  apply Forall_cons in Hb as [Hb _]. destruct (IH Hl) as [E R]. rewrite from_be_snoc by done. unfold zlen in *.
  rewrite length_app. cbn [length]. rewrite Nat.add_1_r. cbn [be]. unfold byte in Hb. split.
  - rewrite Z.shiftr_div_pow2, land_255 by lia. change (2 ^ 8)%Z with 256%Z.
    rewrite Z.div_add_l, (Z.div_small b), Z.add_0_r, E by lia. f_equal. f_equal.
    rewrite Z.add_comm, Z.mod_add, Z.mod_small by lia. done.
  - rewrite Nat2Z.inj_succ, Z.pow_succ_r by lia. nia.
Qed.

Lemma slice_app a b c from to :
  zlen a = from -> zlen b = (to - from)%Z -> slice from to (a ++ b ++ c) = b.
Proof.
  intros Ha Hb. unfold slice. rewrite drop_app_length' by (unfold zlen in *; lia).
  apply take_app_length'. unfold zlen in *. lia.
Qed.

Lemma slice_split from to l : (0 <= from <= to)%Z -> (to <= zlen l)%Z ->
  zlen (slice from to l) = (to - from)%Z /\ drop (Z.to_nat from) l = slice from to l ++ drop (Z.to_nat to) l.
Proof.
  intros Hft Hl. unfold slice, zlen in *. split; [rewrite length_take, length_drop; lia|].
  rewrite <-(take_drop (Z.to_nat (to - from)) (drop (Z.to_nat from) l)) at 1. f_equal. rewrite drop_drop. f_equal. lia.
Qed.

(** ** Headers *)

Record header_ok (h : Header) : Prop := {
  ho_digest : zlen (hd_digest h) = DIGEST_BYTES;
  ho_nonce : zlen (hd_stream_nonce h) = STREAM_NONCE_BYTES;
  ho_size : is_u64 (hd_byte_size h);
  ho_media : utf8_ok (hd_media_type h) = true /\ (zlen (hd_media_type h) <= u16_max)%Z;
  ho_kek : utf8_ok (hd_kek_id h) = true /\ (zlen (hd_kek_id h) <= u16_max)%Z;
}.

Lemma encode_len h : header_ok h -> zlen (encode h) = header_len (hd_media_type h) (hd_kek_id h).
Proof.
  intros [H1 H2 _ _ _]. unfold encode, header_len. rewrite !zlen_app, H1, H2.
  assert (forall k n, zlen (be k n) = Z.of_nat k) as Hbe by (intros; unfold zlen; by rewrite be_length). rewrite !Hbe.
  change (zlen MAGIC) with 8%Z. unfold FIXED_HEADER_BYTES, DIGEST_BYTES, STREAM_NONCE_BYTES, WRAP_NONCE_BYTES. lia.
Qed.

(** The constants of the layout. *)
Ltac offsets :=
  unfold KEK_LEN_AT, MEDIA_LEN_AT, NONCE_AT, SIZE_AT, DIGEST_AT, VERSION_AT, FIXED_HEADER_BYTES, STREAM_NONCE_BYTES,
    WRAP_NONCE_BYTES, DIGEST_BYTES in *.

(** The fields of an encoded header, wherever what follows. *)
Lemma encode_slices h tail :
  header_ok h -> let l := encode h ++ tail in
  slice 0 VERSION_AT l = MAGIC /\ slice VERSION_AT DIGEST_AT l = be 2 FORMAT_VERSION /\
  slice DIGEST_AT SIZE_AT l = hd_digest h /\ slice SIZE_AT NONCE_AT l = be 8 (hd_byte_size h) /\
  slice NONCE_AT MEDIA_LEN_AT l = hd_stream_nonce h /\
  slice MEDIA_LEN_AT KEK_LEN_AT l = be 2 (zlen (hd_media_type h)) /\
  slice KEK_LEN_AT FIXED_HEADER_BYTES l = be 2 (zlen (hd_kek_id h)) /\
  slice FIXED_HEADER_BYTES (FIXED_HEADER_BYTES + zlen (hd_media_type h)) l = hd_media_type h /\
  slice (FIXED_HEADER_BYTES + zlen (hd_media_type h))
        (FIXED_HEADER_BYTES + zlen (hd_media_type h) + zlen (hd_kek_id h)) l = hd_kek_id h.
Proof.
  intros [H1 H2 _ _ _]. cbn zeta. unfold encode.
  assert (forall k n, zlen (be k n) = Z.of_nat k) as Hbe by (intros; unfold zlen; by rewrite be_length).
  assert (zlen MAGIC = 8%Z) as Hm by done.
  offsets.
  set (A := MAGIC) in *. set (B := be 2 FORMAT_VERSION) in *. set (C := hd_digest h) in *. set (D := be 8 _) in *.
  set (E := hd_stream_nonce h) in *. set (F := be 2 (zlen (hd_media_type h))) in *. set (G := be 2 (zlen (hd_kek_id h))) in *.
  set (M := hd_media_type h) in *. set (K := hd_kek_id h) in *.
  assert (zlen B = 2 /\ zlen D = 8 /\ zlen F = 2 /\ zlen G = 2)%Z as (LB & LD & LF & LG) by (unfold B, D, F, G; by rewrite !Hbe).
  assert (forall x y from to, zlen x = from -> (A ++ B ++ C ++ D ++ E ++ F ++ G ++ M ++ K) ++ tail = x ++ y ->
    forall z t, y = z ++ t -> zlen z = (to - from)%Z -> slice from to ((A ++ B ++ C ++ D ++ E ++ F ++ G ++ M ++ K) ++ tail) = z) as Hs.
  { intros x y from to Hx Hxy z t -> Hz. rewrite Hxy. by apply slice_app. }
  split_and!.
  - eapply (Hs []); [done|rewrite <-!app_assoc; reflexivity|done|lia].
  - eapply (Hs A); [done|by rewrite <-!app_assoc|done|lia].
  - eapply (Hs (A ++ B)); [rewrite !zlen_app; lia|by rewrite <-!app_assoc|done|lia].
  - eapply (Hs (A ++ B ++ C)); [rewrite !zlen_app; lia|by rewrite <-!app_assoc|done|lia].
  - eapply (Hs (A ++ B ++ C ++ D)); [rewrite !zlen_app; lia|by rewrite <-!app_assoc|done|lia].
  - eapply (Hs (A ++ B ++ C ++ D ++ E)); [rewrite !zlen_app; lia|by rewrite <-!app_assoc|done|lia].
  - eapply (Hs (A ++ B ++ C ++ D ++ E ++ F)); [rewrite !zlen_app; lia|by rewrite <-!app_assoc|done|lia].
  - eapply (Hs (A ++ B ++ C ++ D ++ E ++ F ++ G)); [rewrite !zlen_app; lia|by rewrite <-!app_assoc|done|lia].
  - eapply (Hs (A ++ B ++ C ++ D ++ E ++ F ++ G ++ M)); [rewrite !zlen_app; lia|by rewrite <-!app_assoc|done|lia].
Qed.

Lemma from_be_u16 n : (0 <= n <= u16_max)%Z -> from_be_bytes (be 2 n) = n.
Proof. intros Hn. apply from_be. unfold u16_max in Hn. cbn. lia. Qed.

(** What an encoded header decodes to, whatever follows it. *)
Lemma decode_encode h tail : header_ok h -> decode (encode h ++ tail) = Ok (h, zlen (encode h)).
Proof.
  intros Hh. pose proof (encode_slices h tail Hh) as (S1 & S2 & S3 & S4 & S5 & S6 & S7 & S8 & S9). cbn zeta in *.
  pose proof (encode_len h Hh) as Hlen. unfold header_len in Hlen. destruct Hh as [H1 H2 H3 [U1 L1] [U2 L2]].
  pose proof (zlen_nonneg (hd_media_type h)). pose proof (zlen_nonneg (hd_kek_id h)). pose proof (zlen_nonneg tail).
  unfold decode. cbn zeta. rewrite zlen_app, Hlen.
  destruct (Z.leb_spec FIXED_HEADER_BYTES (FIXED_HEADER_BYTES + zlen (hd_media_type h) + zlen (hd_kek_id h) + zlen tail)); [|lia].
  rewrite S1, bool_decide_eq_true_2 by done. rewrite S2. change (from_be_bytes (be 2 FORMAT_VERSION) =? FORMAT_VERSION)%Z with true.
  rewrite S6, S7, !from_be_u16 by done.
  destruct (Z.leb_spec (FIXED_HEADER_BYTES + zlen (hd_media_type h) + zlen (hd_kek_id h))
    (FIXED_HEADER_BYTES + zlen (hd_media_type h) + zlen (hd_kek_id h) + zlen tail)); [|lia].
  rewrite S8, S9, U1, U2, S3, S4, S5, (from_be 8); [by destruct h|].
  unfold is_u64, u64_max in H3. change (256 ^ Z.of_nat 8)%Z with 18446744073709551616%Z. lia.
Qed.

Lemma slice_cat i j k l : (0 <= i <= j)%Z -> (j <= k)%Z -> (k <= zlen l)%Z -> slice i k l = slice i j l ++ slice j k l.
Proof.
  intros Hi Hj Hk. unfold slice. rewrite <-(take_drop (Z.to_nat (j - i)) (take (Z.to_nat (k - i)) _)). f_equal.
  - rewrite take_take. f_equal. lia.
  - replace (Z.to_nat j) with (Z.to_nat i + Z.to_nat (j - i))%nat by lia. rewrite <-drop_drop, (take_drop_commute _ (Z.to_nat (k - j))). do 2 f_equal. lia.
Qed.

Lemma slice_be i j l :
  Forall byte l -> (0 <= i <= j)%Z -> (j <= zlen l)%Z ->
  be (Z.to_nat (j - i)) (from_be_bytes (slice i j l)) = slice i j l /\ (0 <= from_be_bytes (slice i j l) < 256 ^ (j - i))%Z.
Proof.
  intros Hb Hi Hj. destruct (slice_split i j l Hi Hj) as [Hlen _].
  assert (Forall byte (slice i j l)) as Hs by (unfold slice; by apply Forall_take, Forall_drop).
  destruct (be_from _ Hs) as [E R]. rewrite Hlen in R. split; [|done]. rewrite <-E at 2. f_equal. unfold zlen in Hlen. lia.
Qed.

(** Bytes that decode as a header are its encoding and no
    other: the decoded fields are well formed, encode back to the bytes that were
    read, and decode again to themselves. *)
Theorem header_has_one_encoding l h n :
  Forall byte l -> decode l = Ok (h, n) ->
  header_ok h /\ take (Z.to_nat n) l = encode h /\ decode (encode h) = Ok (h, n).
Proof.
  intros Hb Hd. unfold decode in Hd. cbn zeta in Hd. inv_ok. unbool. simplify_eq.
  set (ml := from_be_bytes (slice MEDIA_LEN_AT KEK_LEN_AT l)) in *.
  set (kl := from_be_bytes (slice KEK_LEN_AT FIXED_HEADER_BYTES l)) in *.
  set (F := FIXED_HEADER_BYTES) in *. assert (F = 73%Z) as HF by done.
  assert (VERSION_AT = 8 /\ DIGEST_AT = 10 /\ SIZE_AT = 42 /\ NONCE_AT = 50 /\ MEDIA_LEN_AT = 69 /\ KEK_LEN_AT = 71)%Z
    as (E1 & E2 & E3 & E4 & E5 & E6) by done.
  destruct (slice_be MEDIA_LEN_AT KEK_LEN_AT l Hb) as [Bm Rm]; [lia|lia|].
  destruct (slice_be KEK_LEN_AT F l Hb) as [Bk Rk]; [lia|lia|].
  destruct (slice_be SIZE_AT NONCE_AT l Hb) as [Bs Rs]; [lia|lia|].
  destruct (slice_be VERSION_AT DIGEST_AT l Hb) as [Bv Rv]; [lia|lia|].
  fold ml in Bm, Rm. fold kl in Bk, Rk. rewrite ?E5, ?E6, ?E3, ?E4, ?E1, ?E2, ?HF in *.
  assert (zlen (slice 73 (73 + ml) l) = ml) as Lm by (rewrite (proj1 (slice_split 73 (73 + ml) l ltac:(lia) ltac:(lia))); lia).
  assert (zlen (slice (73 + ml) (73 + ml + kl) l) = kl) as Lk
    by (rewrite (proj1 (slice_split (73 + ml) (73 + ml + kl) l ltac:(lia) ltac:(lia))); lia).
  set (h := Build_Header _ _ _ _ _).
  assert (header_ok h) as Hh.
  { split; cbn.
    - rewrite (proj1 (slice_split 10 42 l ltac:(lia) ltac:(lia))). done.
    - rewrite (proj1 (slice_split 50 69 l ltac:(lia) ltac:(lia))). done.
    - unfold is_u64, u64_max. cbn in Rs. lia.
    - split; [done|]. rewrite Lm. unfold u16_max. cbn in Rm. lia.
    - split; [done|]. rewrite Lk. unfold u16_max. cbn in Rk. lia. }
  assert (take (Z.to_nat (73 + ml + kl)) l = encode h) as He.
  { assert (take (Z.to_nat (73 + ml + kl)) l = slice 0 (73 + ml + kl) l) as ->.
    { unfold slice. cbn. f_equal. lia. }
    rewrite (slice_cat 0 8), (slice_cat 8 10), (slice_cat 10 42), (slice_cat 42 50), (slice_cat 50 69), (slice_cat 69 71),
      (slice_cat 71 73), (slice_cat 73 (73 + ml)) by lia.
    unfold encode. cbn [hd_digest hd_byte_size hd_media_type hd_kek_id hd_stream_nonce h]. rewrite Lm, Lk.
    change (Z.to_nat (71 - 69)) with 2%nat in Bm. change (Z.to_nat (73 - 71)) with 2%nat in Bk.
    change (Z.to_nat (50 - 42)) with 8%nat in Bs. change (Z.to_nat (10 - 8)) with 2%nat in Bv. rewrite Hrun1 in Bv.
    by rewrite Bm, Bk, Bs, Bv, Hrun0. }
  split_and!; [done|done|]. pose proof (decode_encode h [] Hh) as Hde. rewrite app_nil_r in Hde. rewrite Hde. do 2 f_equal.
  rewrite (encode_len h Hh). unfold header_len. cbn. rewrite Lm, Lk. done.
Qed.

(** ** Chunks *)

Lemma chunk_nat_Z : Z.of_nat chunk_nat = BLOB_CHUNK_BYTES.
Proof. unfold chunk_nat. rewrite Z2Nat.id; [done|]. unfold BLOB_CHUNK_BYTES. lia. Qed.

Lemma chunk_nat_pos : (0 < chunk_nat)%nat.
Proof. pose proof chunk_nat_Z as H. unfold BLOB_CHUNK_BYTES in H. lia. Qed.

Opaque chunk_nat.

Lemma chunks_of_lookup fuel l i :
  (length l <= fuel)%nat ->
  chunks_of fuel l !! i =
  if decide (i * chunk_nat < length l)%nat then Some (take chunk_nat (drop (i * chunk_nat) l)) else None.
Proof.
  pose proof chunk_nat_pos as Hp. revert l i. induction fuel as [|fuel IH]; intros l i Hl.
  { destruct l; cbn in *; [|lia]. case_decide; [lia|done]. }
  destruct l as [|b l]; [cbn; case_decide; [lia|done]|]. cbn [chunks_of].
  destruct i as [|i]; [rewrite decide_True by (cbn; lia); done|]. cbn [lookup list_lookup].
  change (list_lookup i ?l) with (l !! i). rewrite IH by (rewrite length_drop; cbn [length] in *; lia).
  rewrite length_drop, drop_drop. rewrite (decide_ext _ (Datatypes.S i * chunk_nat < length (b :: l))%nat) by lia.
  by rewrite Nat.mul_succ_l, (Nat.add_comm (i * chunk_nat)).
Qed.

(** A chunk of a blob, by its index. *)
Definition chunk_at (l : bytes) (i : nat) : bytes := take chunk_nat (drop (i * chunk_nat) l).

Lemma blob_chunks_lookup l i :
  blob_chunks l !! i = if decide (i * chunk_nat < length l \/ i = 0)%nat then Some (chunk_at l i) else None.
Proof.
  unfold blob_chunks, chunks. destruct l as [|b l].
  - cbn. destruct i as [|i]; [done|]. by rewrite decide_False by lia.
  - destruct (chunks_of (length (b :: l)) (b :: l)) as [|c cs] eqn:E.
    { pose proof (chunks_of_lookup (length (b :: l)) (b :: l) 0 ltac:(done)) as H. rewrite E in H. cbn in H. done. }
    rewrite <-E, chunks_of_lookup by done. unfold chunk_at. case_decide as H1; case_decide as H2; try done; cbn [length] in *; lia.
Qed.

Lemma blob_chunks_length l : Z.of_nat (length (blob_chunks l)) = chunk_count (zlen l).
Proof.
  pose proof chunk_nat_pos as Hp. pose proof chunk_nat_Z as HZ. unfold chunk_count, zlen.
  set (n := length (blob_chunks l)). set (q := ((Z.of_nat (length l) + BLOB_CHUNK_BYTES - 1) / BLOB_CHUNK_BYTES)%Z).
  assert (forall i, (i < n)%nat <-> (i * chunk_nat < length l \/ i = 0)%nat) as Hn.
  { intros i. unfold n. rewrite <-lookup_lt_is_Some, blob_chunks_lookup. case_decide as Hd.
    - split; [intros _; exact Hd|intros _; eexists; reflexivity].
    - split; [intros [x Hx]; discriminate Hx|intros Hx; contradiction]. }
  assert (BLOB_CHUNK_BYTES * q <= Z.of_nat (length l) + BLOB_CHUNK_BYTES - 1 < BLOB_CHUNK_BYTES * q + BLOB_CHUNK_BYTES)%Z as Hq.
  { pose proof (Z.div_mod (Z.of_nat (length l) + BLOB_CHUNK_BYTES - 1) BLOB_CHUNK_BYTES).
    pose proof (Z.mod_pos_bound (Z.of_nat (length l) + BLOB_CHUNK_BYTES - 1) BLOB_CHUNK_BYTES). fold q in H. lia. }
  assert (0 < n)%nat by (apply Hn; by right).
  pose proof (proj1 (Hn (n - 1)%nat) ltac:(lia)) as Hlast.
  assert (~ (n * chunk_nat < length l)%nat) as Hbeyond.
  { intros Hc. assert (n < n)%nat; [|lia]. apply Hn. by left. }
  rewrite <-HZ in *. nia.
Qed.

(** The chunks make up the blob. *)
Lemma blob_chunks_concat l : concat (blob_chunks l) = l.
Proof.
  unfold blob_chunks, chunks. destruct l as [|b l]; [done|].
  assert (forall fuel k, (length k <= fuel)%nat -> concat (chunks_of fuel k) = k) as Hc.
  { pose proof chunk_nat_pos. induction fuel as [|fuel IH]; intros [|x k] Hk; cbn [length] in *; try lia; [done|done|].
    cbn [chunks_of concat]. rewrite IH by (rewrite length_drop; cbn [length]; lia). apply take_drop. }
  destruct (chunks_of (length (b :: l)) (b :: l)) eqn:E; [|rewrite <-E; by apply Hc].
  specialize (Hc _ (b :: l) (Nat.le_refl _)). rewrite E in Hc. discriminate Hc.
Qed.

Lemma chunk_at_len l i : (zlen (chunk_at l i) <= BLOB_CHUNK_BYTES)%Z.
Proof. unfold chunk_at, zlen. rewrite length_take, <-chunk_nat_Z. lia. Qed.

(** All but the last are full. *)
Lemma chunk_at_full l i : is_Some (blob_chunks l !! Datatypes.S i) -> zlen (chunk_at l i) = BLOB_CHUNK_BYTES.
Proof.
  rewrite blob_chunks_lookup. case_decide as Hd; [|intros [x Hx]; discriminate Hx]. intros _. unfold chunk_at, zlen.
  rewrite length_take, length_drop, <-chunk_nat_Z. lia.
Qed.

Section Sealed.
Context `{AE : Aead} `{!AeadLaws}.

Definition framed (c : bytes) : bytes := be 4 (zlen c) ++ c.

(** What sealing chunks makes: the ciphertexts, framed one after the other. *)
Definition sealed_as (dek nonce aad : bytes) (position : Z) (cs cts : list bytes) : Prop :=
  length cts = length cs /\
  forall i m, cs !! i = Some m -> exists c, cts !! i = Some c /\
    stream_encrypt dek nonce (position + Z.of_nat i) (Nat.eqb (Datatypes.S i) (length cs)) aad m = Some c /\
    (zlen c <= u32_max)%Z.

Lemma push_chunk_ok c out : push_chunk c = Ok out -> out = framed c /\ (zlen c <= u32_max)%Z.
Proof. unfold push_chunk. intros Hp. inv_ok. unbool. by simplify_eq. Qed.

Lemma sealed_as_cons dek nonce aad position m cs c cts :
  cs <> [] -> stream_encrypt dek nonce position false aad m = Some c -> (zlen c <= u32_max)%Z ->
  sealed_as dek nonce aad (position + 1) cs cts -> sealed_as dek nonce aad position (m :: cs) (c :: cts).
Proof.
  intros Hne Hc Hl [Hlen Hs]. split; [cbn; lia|]. intros [|i] m' Hm.
  - cbn in Hm. injection Hm as <-. exists c. rewrite Z.add_0_r. split_and!; try done. destruct cs; [done|]. exact Hc.
  - cbn in Hm. destruct (Hs i m' Hm) as (c' & Hc' & He & Hl'). exists c'. split_and!; try done.
    rewrite <-He. f_equal. lia.
Qed.

Lemma seal_chunks_cons dek nonce aad position chunk c cs :
  seal_chunks dek nonce aad position (chunk :: c :: cs) =
  (_ ← ensure (position <? u32_max)%Z Integrity;
   sealed ← ok_or (stream_encrypt dek nonce position false aad chunk) Integrity;
   framed ← push_chunk sealed;
   rest ← seal_chunks dek nonce aad (position + 1) (c :: cs);
   mret (framed ++ rest)).
Proof. reflexivity. Qed.

Lemma open_chunks_cons dek nonce aad position chunk c cs :
  open_chunks dek nonce aad position (chunk :: c :: cs) =
  (_ ← ensure (position <? u32_max)%Z Integrity;
   part ← ok_or (stream_decrypt dek nonce position false aad chunk) Integrity;
   rest ← open_chunks dek nonce aad (position + 1) (c :: cs);
   mret (part ++ rest)).
Proof. reflexivity. Qed.

Lemma seal_chunks_ok dek nonce aad position cs body :
  seal_chunks dek nonce aad position cs = Ok body ->
  exists cts, body = concat (framed <$> cts) /\ sealed_as dek nonce aad position cs cts /\
    (position + Z.of_nat (length cs) - 1 <= Z.max position u32_max)%Z.
Proof.
  revert position body. induction cs as [|m cs IH]; intros position body Hs; [done|].
  destruct cs as [|m' cs].
  - cbn in Hs. inv_ok. apply push_chunk_ok in Hs as [-> Hl]. eexists [_]. cbn. rewrite app_nil_r. split_and!; [done| |lia].
    split; [done|]. intros [|i] m0; cbn; [|done]. intros [= <-]. eexists. rewrite Z.add_0_r. done.
  - rewrite seal_chunks_cons in Hs. inv_ok. unbool.
    match goal with H : push_chunk _ = Ok _ |- _ => apply push_chunk_ok in H as [-> Hl] end.
    match goal with H : seal_chunks _ _ _ (position + 1) _ = Ok _ |- _ => apply IH in H as (cts & -> & Hsa & Hp) end.
    simplify_eq. eexists (_ :: cts). cbn [fmap list_fmap concat]. split_and!; [done|by eapply sealed_as_cons|].
    cbn [length] in *. lia.
Qed.

(** Sealing cannot fail on a blob of fewer chunks than there are positions. *)
Lemma seal_chunks_total dek nonce aad position cs :
  cs <> [] -> (0 <= position)%Z -> (position + Z.of_nat (length cs) <= u32_max)%Z ->
  Forall (fun m => (zlen m <= BLOB_CHUNK_BYTES)%Z) cs -> exists body, seal_chunks dek nonce aad position cs = Ok body.
Proof.
  assert (forall m c p l, (zlen m <= BLOB_CHUNK_BYTES)%Z -> stream_encrypt dek nonce p l aad m = Some c ->
    push_chunk c = Ok (framed c)) as Hpush.
  { intros m c p l Hm Hc%stream_len. unfold push_chunk. unfold BLOB_CHUNK_BYTES, TAG_BYTES in *.
    destruct (Z.leb_spec (zlen c) u32_max) as [|Hgt]; [done|]. unfold u32_max in Hgt. lia. }
  revert position. induction cs as [|m cs IH]; intros position Hne Hp Hlen HF; [done|]. apply Forall_cons in HF as [Hm HF].
  destruct cs as [|m' cs].
  - cbn. cbn in Hlen. destruct (stream_total dek nonce position true aad m) as [c Hc]; [lia|done|]. rewrite Hc. cbn.
    exists (framed c). by eapply Hpush.
  - rewrite seal_chunks_cons. cbn [length] in Hlen. destruct (Z.ltb_spec position u32_max); [|lia].
    destruct (stream_total dek nonce position false aad m) as [c Hc]; [lia|done|]. rewrite Hc. cbn [ensure ok_or mbind].
    destruct (IH (position + 1)%Z) as [body Hb]; [done|lia|cbn [length]; lia|done|]. exists (framed c ++ body).
    cbn -[seal_chunks push_chunk]. rewrite (Hpush _ _ _ _ Hm Hc). cbn -[seal_chunks]. rewrite Hb. done.
Qed.

Lemma framed_len c : zlen (framed c) = (CHUNK_LEN_BYTES + zlen c)%Z.
Proof. unfold framed. rewrite zlen_app. unfold zlen at 1. rewrite be_length. unfold CHUNK_LEN_BYTES. lia. Qed.

Lemma read_chunk_framed c rest :
  (zlen c <= u32_max)%Z -> read_chunk (framed c ++ rest) = Ok (c, rest).
Proof.
  intros Hc. unfold read_chunk. pose proof (zlen_nonneg c). pose proof (zlen_nonneg rest).
  rewrite zlen_app, framed_len. destruct (Z.leb_spec CHUNK_LEN_BYTES (CHUNK_LEN_BYTES + zlen c + zlen rest)); [|lia].
  unfold framed. rewrite <-app_assoc. rewrite (take_app_length' (be 4 (zlen c))) by (by rewrite be_length).
  rewrite (drop_app_length' (be 4 (zlen c))) by (by rewrite be_length).
  assert (from_be_bytes (be 4 (zlen c)) = zlen c) as ->
    by (apply from_be; change (256 ^ Z.of_nat 4)%Z with 4294967296%Z; unfold u32_max in Hc; lia).
  rewrite zlen_app. destruct (Z.leb_spec (zlen c) (zlen c + zlen rest)); [|lia]. unfold zlen. rewrite Nat2Z.id.
  cbn -[take drop]. by rewrite take_app_length, drop_app_length.
Qed.

Lemma framed_nonempty c rest : exists b k, framed c ++ rest = b :: k.
Proof. unfold framed. destruct (be 4 (zlen c)) as [|b k] eqn:E; [by apply (f_equal length) in E; rewrite be_length in E|]. by eexists _, _. Qed.

Lemma read_chunks_framed fuel cts :
  Forall (fun c => (zlen c <= u32_max)%Z) cts -> (length (concat (framed <$> cts)) <= fuel)%nat ->
  read_chunks fuel (concat (framed <$> cts)) = Ok cts.
Proof.
  revert fuel. induction cts as [|c cts IH]; intros fuel HF Hl; cbn [fmap list_fmap concat] in *; [by destruct fuel|].
  apply Forall_cons in HF as [Hc HF]. destruct (framed_nonempty c (concat (framed <$> cts))) as (b & k & E).
  destruct fuel as [|fuel]; [rewrite E in Hl; cbn in Hl; lia|]. cbn [read_chunks].
  change (concat (list_fmap _ _ framed cts)) with (concat (framed <$> cts)) in *. rewrite E, <-E. rewrite read_chunk_framed by done.
  cbn [mbind]. cbn -[read_chunks framed]. rewrite IH; [done|done|]. rewrite length_app in Hl.
  assert (0 < length (framed c))%nat; [|lia]. unfold framed. rewrite length_app, be_length. lia.
Qed.

Lemma open_chunks_sealed dek nonce aad position cs cts :
  cs <> [] -> (position + Z.of_nat (length cs) - 1 <= Z.max position u32_max)%Z ->
  sealed_as dek nonce aad position cs cts -> open_chunks dek nonce aad position cts = Ok (concat cs).
Proof.
  revert position cts. induction cs as [|m cs IH]; intros position cts Hne Hp [Hlen Hs]; [done|].
  destruct (Hs 0%nat m eq_refl) as (c & Hc & He & _). destruct cts as [|c' cts]; [done|]. cbn in Hc. injection Hc as ->.
  rewrite Z.add_0_r in He. destruct cs as [|m' cs].
  - destruct cts; [|done]. apply stream_opens in He. cbn in He |- *. rewrite He. cbn. by rewrite app_nil_r.
  - destruct cts as [|c' cts]; [done|]. rewrite open_chunks_cons. cbn [length] in *.
    destruct (Z.ltb_spec position u32_max); [|lia]. apply stream_opens in He. cbn [Nat.eqb] in He. rewrite He.
    cbn -[open_chunks concat]. rewrite (IH (position + 1)%Z (c' :: cts)); [done|done|cbn [length]; lia|].
    split; [cbn [length]; lia|]. intros i mm Hm. destruct (Hs (Datatypes.S i) mm Hm) as (cc & Hcc & Hee & Hll).
    exists cc. split_and!; try done. rewrite <-Hee. f_equal. lia.
Qed.

(** ** Opening what was sealed *)

(** What sealing returns: the header, and the framed ciphertexts of its chunks. *)
Lemma seal_with_ok plaintext media_type kek kek_id dek wrap_nonce stream_nonce s :
  seal_with plaintext media_type kek kek_id dek wrap_nonce stream_nonce = Ok s ->
  let aad := encode (header_of plaintext media_type kek_id stream_nonce) in
  exists cts, sl_container s = aad ++ concat (framed <$> cts) /\ sl_wrap_nonce s = wrap_nonce /\
    sl_digest s = sha256 plaintext /\ wrap_dek dek kek wrap_nonce aad = Ok (sl_wrapped_dek s) /\
    sealed_as dek stream_nonce aad 0 (blob_chunks plaintext) cts /\
    (chunk_count (zlen plaintext) - 1 <= u32_max)%Z /\ (zlen media_type <= u16_max)%Z /\ (zlen kek_id <= u16_max)%Z.
Proof.
  intros Hs aad. unfold seal_with in Hs. inv_ok. unbool. fold aad in Hrun0, Hrun1.
  destruct (seal_chunks_ok _ _ _ _ _ _ Hrun1) as (cts & -> & Hsa & Hp). simplify_eq. cbn.
  exists cts. rewrite <-blob_chunks_length. split_and!; try done; unfold u32_max, u16_max in *; lia.
Qed.

Lemma header_of_ok plaintext media_type kek_id stream_nonce :
  zlen stream_nonce = STREAM_NONCE_BYTES -> (zlen plaintext <= u64_max)%Z ->
  utf8_ok media_type = true -> (zlen media_type <= u16_max)%Z -> utf8_ok kek_id = true -> (zlen kek_id <= u16_max)%Z ->
  header_ok (header_of plaintext media_type kek_id stream_nonce).
Proof.
  intros. split; cbn; try done. { unfold zlen. rewrite sha256_len. done. } split; [apply zlen_nonneg|done].
Qed.

(** A container in the making: its header, its key and the ciphertexts of its
    chunks. *)
Record sealed_container (plaintext media_type kek_id dek stream_nonce : bytes) (cts : list bytes) : Prop := {
  sc_header : header_ok (header_of plaintext media_type kek_id stream_nonce);
  sc_sealed : sealed_as dek stream_nonce (encode (header_of plaintext media_type kek_id stream_nonce)) 0
                (blob_chunks plaintext) cts;
  sc_count : (chunk_count (zlen plaintext) - 1 <= u32_max)%Z;
}.

Lemma sealed_framable dek nonce aad position cs cts :
  sealed_as dek nonce aad position cs cts -> Forall (fun c => (zlen c <= u32_max)%Z) cts.
Proof.
  intros [Hlen Hs]. apply Forall_lookup. intros i c Hc. destruct (cs !! i) as [m|] eqn:Em.
  - destruct (Hs i m Em) as (c' & Hc' & _ & Hl). congruence.
  - apply lookup_ge_None in Em. apply lookup_lt_Some in Hc. lia.
Qed.

Lemma open_sealed plaintext media_type kek_id dek stream_nonce cts kek wrap_nonce wrapped :
  sealed_container plaintext media_type kek_id dek stream_nonce cts ->
  let h := header_of plaintext media_type kek_id stream_nonce in
  unwrap_dek wrapped kek wrap_nonce (encode h) = Ok dek ->
  open (encode h ++ concat (framed <$> cts)) kek wrap_nonce wrapped = Ok (h, plaintext).
Proof.
  intros [Hh Hs Hc] h Hw. fold h in Hh, Hs. unfold open. rewrite (decode_encode h _ Hh).
  cbn -[read_chunks open_chunks encode take drop h zlen]. rewrite nat_zlen, take_app_length, drop_app_length, Hw. cbn -[read_chunks open_chunks encode h].
  rewrite read_chunks_framed; [|by eapply sealed_framable|rewrite length_app; lia]. cbn -[open_chunks encode h].
  change (hd_stream_nonce h) with stream_nonce. rewrite (open_chunks_sealed _ _ _ _ (blob_chunks plaintext)); [| | |exact Hs].
  - cbn -[encode h]. rewrite blob_chunks_concat. change (hd_byte_size h) with (zlen plaintext). rewrite Z.eqb_refl.
    change (hd_digest h) with (sha256 plaintext). by rewrite bool_decide_eq_true_2.
  - intros E. pose proof (blob_chunks_length plaintext) as Hl. rewrite E in Hl. unfold chunk_count in Hl. cbn in Hl. lia.
  - rewrite blob_chunks_length. lia.
Qed.

Lemma unwrap_wrapped dek kek nonce aad wrapped :
  zlen dek = DEK_BYTES -> wrap_dek dek kek nonce aad = Ok wrapped -> unwrap_dek wrapped kek nonce aad = Ok dek.
Proof.
  intros Hd Hw. unfold wrap_dek in Hw. inv_ok. unbool. simplify_eq. unfold unwrap_dek.
  match goal with H : aead_encrypt _ _ _ _ = Some _ |- _ => rewrite (aead_opens _ _ _ _ _ H) end. cbn. by rewrite Hd.
Qed.

Lemma wrap_total dek kek nonce aad : zlen dek = DEK_BYTES -> exists wrapped, wrap_dek dek kek nonce aad = Ok wrapped.
Proof.
  intros Hd. destruct (aead_total kek nonce aad dek) as [c Hc]; [rewrite Hd; unfold DEK_BYTES, BLOB_CHUNK_BYTES; lia|].
  exists c. unfold wrap_dek. rewrite Hc. cbn. apply aead_len in Hc as ->. by rewrite Hd.
Qed.

Lemma blob_chunks_nonempty l : blob_chunks l <> [].
Proof. intros E. pose proof (blob_chunks_lookup l 0) as Hl. rewrite E in Hl. by rewrite decide_True in Hl by lia. Qed.

Lemma seal_with_total plaintext media_type kek kek_id dek wrap_nonce stream_nonce :
  zlen dek = DEK_BYTES -> (chunk_count (zlen plaintext) <= u32_max)%Z ->
  (zlen media_type <= u16_max)%Z -> (zlen kek_id <= u16_max)%Z ->
  exists s, seal_with plaintext media_type kek kek_id dek wrap_nonce stream_nonce = Ok s.
Proof.
  intros Hd Hc Hm Hk. unfold seal_with. destruct (Z.ltb_spec u16_max (zlen media_type)); [lia|].
  destruct (Z.ltb_spec u16_max (zlen kek_id)); [lia|]. set (aad := encode _).
  destruct (wrap_total dek kek wrap_nonce aad Hd) as [wrapped Hw].
  destruct (seal_chunks_total dek stream_nonce aad 0 (blob_chunks plaintext)) as [body Hb];
    [apply blob_chunks_nonempty|lia|rewrite blob_chunks_length; lia| |].
  - apply Forall_lookup. intros i m. rewrite blob_chunks_lookup. case_decide; [|done]. intros [= <-]. apply chunk_at_len.
  - cbn -[wrap_dek seal_chunks aad blob_chunks]. fold aad. rewrite Hw. cbn -[seal_chunks aad blob_chunks]. rewrite Hb. eexists. reflexivity.
Qed.

(** What sealing leaves, as a container. *)
Lemma seal_container plaintext media_type kek kek_id dek wrap_nonce stream_nonce s :
  zlen stream_nonce = STREAM_NONCE_BYTES -> (zlen plaintext <= u64_max)%Z ->
  utf8_ok media_type = true -> utf8_ok kek_id = true ->
  seal_with plaintext media_type kek kek_id dek wrap_nonce stream_nonce = Ok s ->
  let h := header_of plaintext media_type kek_id stream_nonce in
  exists cts, sealed_container plaintext media_type kek_id dek stream_nonce cts /\
    sl_container s = encode h ++ concat (framed <$> cts) /\ sl_wrap_nonce s = wrap_nonce /\
    sl_digest s = sha256 plaintext /\ wrap_dek dek kek wrap_nonce (encode h) = Ok (sl_wrapped_dek s).
Proof.
  intros Hn Hp Hm Hk Hs h. destruct (seal_with_ok _ _ _ _ _ _ _ _ Hs) as (cts & E1 & E2 & E3 & E4 & E5 & E6 & E7 & E8).
  exists cts. split_and!; try done. split; [by apply header_of_ok|done|done].
Qed.

Lemma rewrap_sealed plaintext media_type kek_id dek stream_nonce cts kek new_kek wrap_nonce new_wrap_nonce wrapped :
  sealed_container plaintext media_type kek_id dek stream_nonce cts ->
  let h := header_of plaintext media_type kek_id stream_nonce in
  unwrap_dek wrapped kek wrap_nonce (encode h) = Ok dek ->
  rewrap (encode h ++ concat (framed <$> cts)) kek new_kek wrap_nonce wrapped new_wrap_nonce =
  wrap_dek dek new_kek new_wrap_nonce (encode h).
Proof.
  intros [Hh _ _] h Hw. unfold rewrap. rewrite (decode_encode h _ Hh). cbn -[encode h take drop zlen wrap_dek].
  by rewrite nat_zlen, take_app_length, Hw.
Qed.

Lemma count_is_u64 n : (0 <= n)%Z -> (chunk_count n <= u32_max)%Z -> (n <= u64_max)%Z.
Proof.
  unfold chunk_count, BLOB_CHUNK_BYTES, u32_max, u64_max. intros H0 Hc.
  pose proof (Z.div_mod (n + 1024 * 1024 - 1) (1024 * 1024)). pose proof (Z.mod_pos_bound (n + 1024 * 1024 - 1) (1024 * 1024)). lia.
Qed.

(** C25: Sealing a blob succeeds up to the stream's chunk
    count, the container opens to the header and the plaintext that went in, and
    rewrapping its data key under another key succeeds and opens to the same
    without touching the container. *)
Theorem sealed_blobs_open plaintext media_type kek kek_id dek wrap_nonce stream_nonce :
  zlen dek = DEK_BYTES -> zlen stream_nonce = STREAM_NONCE_BYTES -> (chunk_count (zlen plaintext) <= u32_max)%Z ->
  utf8_ok media_type = true -> (zlen media_type <= u16_max)%Z -> utf8_ok kek_id = true -> (zlen kek_id <= u16_max)%Z ->
  exists s, seal_with plaintext media_type kek kek_id dek wrap_nonce stream_nonce = Ok s /\
    open (sl_container s) kek (sl_wrap_nonce s) (sl_wrapped_dek s) =
      Ok (header_of plaintext media_type kek_id stream_nonce, plaintext) /\
    forall new_kek new_wrap_nonce, exists wrapped,
      rewrap (sl_container s) kek new_kek (sl_wrap_nonce s) (sl_wrapped_dek s) new_wrap_nonce = Ok wrapped /\
      open (sl_container s) new_kek new_wrap_nonce wrapped =
        Ok (header_of plaintext media_type kek_id stream_nonce, plaintext).
Proof.
  intros Hd Hn Hc Hm Lm Hk Lk. destruct (seal_with_total plaintext media_type kek kek_id dek wrap_nonce stream_nonce) as [s Hs];
    try done. exists s. split; [done|].
  destruct (seal_container _ _ _ _ _ _ _ _ Hn (count_is_u64 _ (zlen_nonneg plaintext) Hc) Hm Hk Hs) as (cts & Hsc & -> & -> & _ & Hw).
  pose proof (unwrap_wrapped _ _ _ _ _ Hd Hw) as Hu. split; [by eapply open_sealed|].
  intros new_kek new_wrap_nonce.
  destruct (wrap_total dek new_kek new_wrap_nonce (encode (header_of plaintext media_type kek_id stream_nonce)) Hd) as [w' Hw'].
  exists w'. split; [by rewrite (rewrap_sealed _ _ _ _ _ _ _ _ _ _ _ Hsc Hu)|].
  apply (open_sealed _ _ _ _ _ _ _ _ _ Hsc). by apply unwrap_wrapped.
Qed.

(** ** Ranges *)

Lemma cts_lookup plaintext media_type kek_id dek stream_nonce cts i :
  sealed_container plaintext media_type kek_id dek stream_nonce cts -> (i < length cts)%nat ->
  exists c, cts !! i = Some c /\ zlen c = (zlen (chunk_at plaintext i) + TAG_BYTES)%Z /\
    stream_decrypt dek stream_nonce (Z.of_nat i) (Nat.eqb (Datatypes.S i) (length cts))
      (encode (header_of plaintext media_type kek_id stream_nonce)) c = Some (chunk_at plaintext i).
Proof.
  intros [_ [Hlen Hs] _] Hi. assert (blob_chunks plaintext !! i = Some (chunk_at plaintext i)) as Hm.
  { destruct (lookup_lt_is_Some_2 (blob_chunks plaintext) i) as [m Hm]; [by rewrite <-Hlen|]. rewrite Hm.
    rewrite blob_chunks_lookup in Hm. case_decide; [by symmetry|discriminate Hm]. }
  destruct (Hs i _ Hm) as (c & Hc & He & _). rewrite Z.add_0_l, <-Hlen in He. exists c.
  split_and!; [done|by apply stream_len in He|by apply stream_opens].
Qed.

Lemma frames_before plaintext media_type kek_id dek stream_nonce cts i :
  sealed_container plaintext media_type kek_id dek stream_nonce cts -> (i < length cts)%nat ->
  zlen (concat (framed <$> take i cts)) = (Z.of_nat i * FRAMED_CHUNK_BYTES)%Z.
Proof.
  intros Hsc. induction i as [|i IH]; intros Hi; [done|]. destruct (cts_lookup _ _ _ _ _ _ i Hsc) as (c & Hc & Hl & _); [lia|].
  rewrite (take_S_r _ _ _ Hc), fmap_app, concat_app, zlen_app, IH by lia. cbn [fmap list_fmap concat]. rewrite app_nil_r, framed_len, Hl.
  rewrite chunk_at_full; [unfold FRAMED_CHUNK_BYTES, MAX_CIPHERTEXT_CHUNK_BYTES; lia|]. apply lookup_lt_is_Some_2.
  destruct Hsc as [_ [<- _] _]. done.
Qed.

(** A chunk of a container, by its computed offset. *)
Lemma container_at plaintext media_type kek_id dek stream_nonce cts i c :
  sealed_container plaintext media_type kek_id dek stream_nonce cts -> cts !! i = Some c ->
  let aad := encode (header_of plaintext media_type kek_id stream_nonce) in
  exists before after, aad ++ concat (framed <$> cts) = before ++ framed c ++ after /\
    zlen before = chunk_offset (zlen aad) (Z.of_nat i).
Proof.
  intros Hsc Hc aad. exists (aad ++ concat (framed <$> take i cts)), (concat (framed <$> drop (Datatypes.S i) cts)). split.
  - rewrite <-(take_drop_middle _ _ _ Hc) at 1. by rewrite fmap_app, fmap_cons, concat_app, <-app_assoc.
  - rewrite zlen_app, (frames_before _ _ _ _ _ _ _ Hsc); [done|]. by eapply lookup_lt_Some.
Qed.

Lemma read_at_app a b c n : zlen b = n -> read_at (zlen a) n (a ++ b ++ c) = Ok b.
Proof.
  intros <-. unfold read_at. rewrite !zlen_app. pose proof (zlen_nonneg c).
  destruct (Z.leb_spec (zlen a + zlen b) (zlen a + (zlen b + zlen c))); [|lia]. cbn -[slice].
  f_equal. apply slice_app; lia.
Qed.

Lemma chunk_at_slice l i : (Z.of_nat i * BLOB_CHUNK_BYTES <= zlen l)%Z ->
  chunk_at l i = slice (Z.of_nat i * BLOB_CHUNK_BYTES) (Z.min ((Z.of_nat i + 1) * BLOB_CHUNK_BYTES) (zlen l)) l.
Proof.
  intros Hi. pose proof chunk_nat_Z as HZ. unfold chunk_at, slice.
  replace (Z.to_nat (Z.of_nat i * BLOB_CHUNK_BYTES)) with (i * chunk_nat)%nat by lia. rewrite <-HZ in *. unfold zlen in *.
  destruct (Z.min_spec ((Z.of_nat i + 1) * Z.of_nat chunk_nat) (Z.of_nat (length l))) as [[Hlt ->]|[Hge ->]].
  - f_equal. lia.
  - rewrite !take_ge; [done|rewrite length_drop; lia..].
Qed.

Lemma range_chunks plaintext media_type kek_id dek stream_nonce cts count i :
  sealed_container plaintext media_type kek_id dek stream_nonce cts -> (i + count <= length cts)%nat -> (0 < zlen plaintext)%Z ->
  let aad := encode (header_of plaintext media_type kek_id stream_nonce) in
  read_range_chunks count aad dek stream_nonce (chunk_count (zlen plaintext) - 1) (Z.of_nat i) (aad ++ concat (framed <$> cts)) =
  Ok (slice (Z.of_nat i * BLOB_CHUNK_BYTES) (Z.min (Z.of_nat (i + count) * BLOB_CHUNK_BYTES) (zlen plaintext)) plaintext).
Proof.
  intros Hsc Hle Hpos aad. pose proof Hsc as [_ [Hlen _] Hcount]. remember aad as a eqn:Ha. unfold aad in Ha. clear aad.
  assert (Z.of_nat (length cts) = chunk_count (zlen plaintext)) as Hcc by (by rewrite Hlen, blob_chunks_length).
  assert (0 < BLOB_CHUNK_BYTES)%Z as Hbp by done.
  revert i Hle. induction count as [|count IH]; intros i Hle.
  { cbn [read_range_chunks]. rewrite Nat.add_0_r. unfold slice. rewrite (Z2Nat.nonpos (_ - _)) by lia. done. }
  destruct (cts_lookup _ _ _ _ _ _ i Hsc) as (c & Hc & Hl & Hd); [lia|].
  destruct (container_at _ _ _ _ _ _ _ _ Hsc Hc) as (before & after & E & Hb). rewrite <-Ha in E, Hb, Hd.
  assert (Z.of_nat i * BLOB_CHUNK_BYTES < zlen plaintext)%Z as Hlt.
  { assert (is_Some (blob_chunks plaintext !! i)) as [m Hm] by (apply lookup_lt_is_Some_2; rewrite <-Hlen; lia).
    rewrite blob_chunks_lookup in Hm. case_decide as Hor; [|discriminate Hm]. pose proof chunk_nat_Z. unfold zlen in *. lia. }
  assert (before ++ framed c ++ after = before ++ be 4 (zlen c) ++ c ++ after) as E' by (unfold framed; by rewrite <-app_assoc).
  cbn [read_range_chunks]. rewrite <-Hb, E, E'.
  rewrite (read_at_app before (be 4 (zlen c)) (c ++ after)) by (unfold zlen; by rewrite be_length). cbn -[read_range_chunks read_at open_chunk be slice].
  pose proof (chunk_at_len plaintext i) as Hcl. pose proof (zlen_nonneg c).
  assert (from_be_bytes (be 4 (zlen c)) = zlen c) as ->.
  { apply from_be. change (256 ^ Z.of_nat 4)%Z with 4294967296%Z. unfold BLOB_CHUNK_BYTES, TAG_BYTES in *. lia. }
  destruct (Z.leb_spec (zlen c) MAX_CIPHERTEXT_CHUNK_BYTES); [|unfold MAX_CIPHERTEXT_CHUNK_BYTES in *; lia].
  assert (zlen before + CHUNK_LEN_BYTES = zlen (before ++ be 4 (zlen c)))%Z as -> by (rewrite zlen_app; unfold zlen at 3; by rewrite be_length).
  assert (read_at (zlen (before ++ be 4 (zlen c))) (zlen c) (before ++ be 4 (zlen c) ++ c ++ after) = Ok c) as ->
    by (rewrite (app_assoc before); by apply read_at_app).
  cbn -[read_range_chunks open_chunk be slice].
  destruct (Z.leb_spec (Z.of_nat i) u32_max); [|lia]. unfold open_chunk.
  assert ((Z.of_nat i =? chunk_count (zlen plaintext) - 1)%Z = Nat.eqb (Datatypes.S i) (length cts)) as ->.
  { apply eq_bool_prop_intro. rewrite !Is_true_true, Z.eqb_eq, Nat.eqb_eq. lia. }
  rewrite Hd. cbn -[read_range_chunks be slice]. rewrite <-E', <-E. replace (Z.of_nat i + 1)%Z with (Z.of_nat (Datatypes.S i)) by lia. rewrite IH by lia. cbn -[slice be].
  f_equal. rewrite chunk_at_slice by lia. replace (i + Datatypes.S count)%nat with (Datatypes.S i + count)%nat by lia.
  destruct (Z.le_gt_cases (Z.of_nat (Datatypes.S i) * BLOB_CHUNK_BYTES) (zlen plaintext)) as [Hin|Hout].
  - rewrite (Z.min_l ((Z.of_nat i + 1) * BLOB_CHUNK_BYTES)) by lia. rewrite Nat2Z.inj_succ, <-Z.add_1_r in *.
    symmetry. apply slice_cat; nia.
  - rewrite !Z.min_r by nia. replace (slice (Z.of_nat (Datatypes.S i) * _) _ _) with (@nil Z); [by rewrite app_nil_r|].
    unfold slice. rewrite (Z2Nat.nonpos (_ - _)) by lia. done.
Qed.

Lemma slice_slice i j a b l : (0 <= a <= b)%Z -> (0 <= i)%Z -> (i + b <= j)%Z -> (j <= zlen l)%Z ->
  slice a b (slice i j l) = slice (i + a) (i + b) l.
Proof.
  intros Ha Hi Hb Hj. unfold slice. rewrite !take_drop_commute, take_take, drop_drop. f_equal; [|f_equal]; lia.
Qed.

Lemma read_range_sealed plaintext media_type kek_id dek stream_nonce cts offset n :
  sealed_container plaintext media_type kek_id dek stream_nonce cts ->
  (0 <= offset)%Z -> (0 < n)%Z -> (offset + n <= zlen plaintext)%Z ->
  let h := header_of plaintext media_type kek_id stream_nonce in
  read_range (zlen plaintext) offset n h (encode h) dek (encode h ++ concat (framed <$> cts)) =
  Ok (slice offset (offset + n) plaintext).
Proof.
  intros Hsc Ho Hn Hle h. pose proof Hsc as [_ [Hlen _] _].
  assert (Z.of_nat (length cts) = chunk_count (zlen plaintext)) as Hcc by (by rewrite Hlen, blob_chunks_length).
  unfold read_range. cbn zeta. change (hd_stream_nonce h) with stream_nonce.
  set (first := (offset / BLOB_CHUNK_BYTES)%Z). set (last_ := ((offset + n - 1) / BLOB_CHUNK_BYTES)%Z).
  assert (0 < BLOB_CHUNK_BYTES)%Z as Hbp by done.
  assert (BLOB_CHUNK_BYTES * first <= offset < BLOB_CHUNK_BYTES * first + BLOB_CHUNK_BYTES)%Z as Hf.
  { pose proof (Z.div_mod offset BLOB_CHUNK_BYTES). pose proof (Z.mod_pos_bound offset BLOB_CHUNK_BYTES). fold first in H. lia. }
  assert (BLOB_CHUNK_BYTES * last_ <= offset + n - 1 < BLOB_CHUNK_BYTES * last_ + BLOB_CHUNK_BYTES)%Z as Hl.
  { pose proof (Z.div_mod (offset + n - 1) BLOB_CHUNK_BYTES). pose proof (Z.mod_pos_bound (offset + n - 1) BLOB_CHUNK_BYTES).
    fold last_ in H. lia. }
  assert (0 <= first <= last_)%Z as Hfl by nia.
  assert (last_ < chunk_count (zlen plaintext))%Z as Hlc.
  { unfold chunk_count. apply Z.lt_le_trans with ((zlen plaintext + BLOB_CHUNK_BYTES - 1) / BLOB_CHUNK_BYTES)%Z; [|lia].
    apply Z.lt_le_trans with (last_ + 1)%Z; [lia|]. apply Z.div_le_lower_bound; lia. }
  replace first with (Z.of_nat (Z.to_nat first)) at 2 by lia.
  pose proof (range_chunks _ _ _ _ _ _ (Z.to_nat (last_ - first + 1)) (Z.to_nat first) Hsc ltac:(lia) ltac:(lia)) as Hrc.
  cbn zeta in Hrc. fold h in Hrc. rewrite Hrc. cbn [mbind result_bind].
  replace (Z.of_nat (Z.to_nat first)) with first by lia.
  replace (Z.of_nat (Z.to_nat first + Z.to_nat (last_ - first + 1))) with (last_ + 1)%Z by lia.
  set (hi := Z.min _ _). assert (offset + n <= hi <= zlen plaintext)%Z as Hhi by (unfold hi; nia).
  assert (0 <= first * BLOB_CHUNK_BYTES <= hi)%Z as Hlo by nia.
  rewrite (proj1 (slice_split (first * BLOB_CHUNK_BYTES) hi plaintext Hlo ltac:(lia))).
  destruct (Z.leb_spec (offset - first * BLOB_CHUNK_BYTES + n) (hi - first * BLOB_CHUNK_BYTES)); [|lia]. cbn -[slice].
  rewrite slice_slice by lia. do 2 f_equal; lia.
Qed.

(** Reading a range of a sealed container through its chunks
    gives that range of the plaintext. *)
Theorem ranges_read_as_ranges plaintext media_type kek kek_id dek wrap_nonce stream_nonce s offset n :
  zlen dek = DEK_BYTES -> zlen stream_nonce = STREAM_NONCE_BYTES -> (zlen plaintext <= u64_max)%Z ->
  utf8_ok media_type = true -> utf8_ok kek_id = true ->
  seal_with plaintext media_type kek kek_id dek wrap_nonce stream_nonce = Ok s ->
  (0 <= offset)%Z -> (0 < n)%Z -> (offset + n <= zlen plaintext)%Z ->
  let h := header_of plaintext media_type kek_id stream_nonce in
  read_range (zlen plaintext) offset n h (encode h) dek (sl_container s) = Ok (slice offset (offset + n) plaintext).
Proof.
  intros Hd Hn Hp Hm Hk Hs Ho Hpos Hle h. destruct (seal_container _ _ _ _ _ _ _ _ Hn Hp Hm Hk Hs) as (cts & Hsc & -> & _).
  by apply read_range_sealed.
Qed.

(** ** Truncation *)

Lemma read_chunk_short n c :
  (zlen c <= u32_max)%Z -> (n < length (framed c))%nat -> read_chunk (take n (framed c)) = Err Integrity.
Proof.
  intros Hc Hn. unfold read_chunk. assert (zlen (take n (framed c)) = Z.of_nat n) as -> by (unfold zlen; rewrite length_take; lia).
  destruct (Z.leb_spec CHUNK_LEN_BYTES (Z.of_nat n)) as [H4|]; [|done]. unfold CHUNK_LEN_BYTES in H4.
  cbn [ensure mbind result_bind]. rewrite take_take, Nat.min_l by lia.
  assert (take 4 (framed c) = be 4 (zlen c)) as -> by (apply take_app_length'; by rewrite be_length). pose proof (zlen_nonneg c).
  rewrite (from_be 4) by (change (256 ^ Z.of_nat 4)%Z with 4294967296%Z; unfold u32_max in Hc; lia).
  assert (zlen (drop 4 (take n (framed c))) = (Z.of_nat n - 4)%Z) as -> by (unfold zlen; rewrite length_drop, length_take; lia).
  pose proof (framed_len c) as Hf. unfold CHUNK_LEN_BYTES in Hf. unfold zlen in Hf, Hn |- *.
  destruct (Z.leb_spec (Z.of_nat (length c)) (Z.of_nat n - 4)); [lia|done].
Qed.

(** The frames that are left of a cut body: fewer, or none that read. *)
Lemma read_chunks_short fuel n cts :
  Forall (fun c => (zlen c <= u32_max)%Z) cts -> (n <= fuel)%nat -> (n < length (concat (framed <$> cts)))%nat ->
  read_chunks fuel (take n (concat (framed <$> cts))) = Err Integrity \/
  exists k, (k < length cts)%nat /\ read_chunks fuel (take n (concat (framed <$> cts))) = Ok (take k cts).
Proof.
  revert fuel n. induction cts as [|c cts IH]; intros fuel n HF Hf Hn; [cbn in Hn; lia|]. apply Forall_cons in HF as [Hc HF].
  rewrite fmap_cons in *. cbn [concat] in *. destruct n as [|n].
  { right. exists 0%nat. split; [cbn; lia|]. rewrite !take_0. by destruct fuel. }
  destruct (framed_nonempty c []) as (b & l & E). rewrite app_nil_r in E. destruct fuel as [|fuel]; [lia|].
  destruct (decide (S n < length (framed c))%nat) as [Hs|Hs].
  - left. rewrite take_app_le by lia. pose proof (read_chunk_short _ _ Hc Hs) as Hr. rewrite E in Hr |- *. cbn [take read_chunks] in Hr |- *.
    by rewrite Hr.
  - rewrite length_app in Hn. rewrite take_app_ge by lia. set (r := take _ _).
    assert (read_chunks (Datatypes.S fuel) (framed c ++ r) =
      ('(chunk, rest) ← read_chunk (framed c ++ r); more ← read_chunks fuel rest; mret (chunk :: more))) as -> by (by rewrite E).
    rewrite read_chunk_framed by done. cbn [mbind result_bind].
    assert (0 < length (framed c))%nat as Hpos by (rewrite E; cbn; lia).
    destruct (IH fuel (Datatypes.S n - length (framed c))%nat HF) as [Hr|(k & Hk & Hr)]; [lia|lia| |]; unfold r; rewrite Hr.
    + by left.
    + right. exists (Datatypes.S k). split; [cbn [length]; lia|done].
Qed.

(** The stream's last chunk is sealed as such, so no prefix of it opens. *)
Lemma open_chunks_short dek nonce aad position cs cts k :
  sealed_as dek nonce aad position cs cts -> (k < length cts)%nat ->
  open_chunks dek nonce aad position (take k cts) = Err Integrity.
Proof.
  revert position cs cts. induction k as [|k IH]; intros position cs cts [Hlen Hs] Hk; [done|].
  destruct cts as [|c cts]; [cbn in Hk; lia|]. destruct cs as [|m cs]; [done|]. cbn [length] in *.
  destruct (Hs 0%nat m eq_refl) as (c' & Hc & He & _). cbn in Hc. injection Hc as <-. rewrite Z.add_0_r in He.
  assert (Nat.eqb 1 (Datatypes.S (length cs)) = false) as Hnl by (apply Nat.eqb_neq; lia). rewrite Hnl in He.
  cbn [take]. destruct k as [|k].
  - rewrite take_0. cbn [open_chunks]. by rewrite (stream_place _ _ _ _ position true _ _ _ He) by congruence.
  - destruct cts as [|c2 cts]; [cbn in Hk; lia|]. cbn [take]. rewrite open_chunks_cons.
    destruct (position <? u32_max)%Z; [|done]. rewrite (stream_opens _ _ _ _ _ _ _ He). cbn [ensure ok_or mbind result_bind].
    change (c2 :: take k cts) with (take (Datatypes.S k) (c2 :: cts)). rewrite (IH (position + 1)%Z cs (c2 :: cts)); [done| |cbn [length] in *; lia].
    split; [cbn [length] in *; lia|]. intros i mm Hm. destruct (Hs (Datatypes.S i) mm Hm) as (cc & Hcc & Hee & Hll).
    exists cc. split_and!; try done. rewrite <-Hee. f_equal; lia.
Qed.

Lemma slice_take i j n l : (0 <= i <= j)%Z -> (j <= Z.of_nat n)%Z -> slice i j (take n l) = slice i j l.
Proof. intros Hi Hj. unfold slice. rewrite !take_drop_commute, take_take. do 2 f_equal. lia. Qed.

Lemma decode_short h tail n :
  header_ok h -> (Z.of_nat n < zlen (encode h))%Z -> decode (take n (encode h ++ tail)) = Err Integrity.
Proof.
  intros Hh Hn. pose proof (encode_slices h tail Hh) as (S1 & S2 & _ & _ & _ & S6 & S7 & _). cbn zeta in *.
  pose proof (encode_len h Hh) as Hlen. unfold header_len in Hlen. destruct Hh as [_ _ _ [_ L1] [_ L2]].
  pose proof (zlen_nonneg (hd_media_type h)). pose proof (zlen_nonneg (hd_kek_id h)).
  assert (zlen (take n (encode h ++ tail)) = Z.of_nat n) as El by (unfold zlen in *; rewrite length_take, length_app; lia).
  unfold decode. cbn zeta. rewrite El. destruct (Z.leb_spec FIXED_HEADER_BYTES (Z.of_nat n)) as [Hf|]; [|done].
  rewrite (slice_take 0 VERSION_AT), (slice_take VERSION_AT DIGEST_AT), (slice_take MEDIA_LEN_AT KEK_LEN_AT),
    (slice_take KEK_LEN_AT FIXED_HEADER_BYTES) by (offsets; lia). rewrite S1, bool_decide_eq_true_2 by done. rewrite S2.
  change (from_be_bytes (be 2 FORMAT_VERSION) =? FORMAT_VERSION)%Z with true. rewrite S6, S7, !from_be_u16 by done.
  destruct (Z.leb_spec (FIXED_HEADER_BYTES + zlen (hd_media_type h) + zlen (hd_kek_id h)) (Z.of_nat n)); [lia|done].
Qed.

(** Every proper prefix of a sealed container, cut in the
    header, inside a frame or between two frames, is refused with Integrity. *)
Theorem cut_blobs_do_not_open plaintext media_type kek kek_id dek wrap_nonce stream_nonce s n :
  zlen dek = DEK_BYTES -> zlen stream_nonce = STREAM_NONCE_BYTES -> (zlen plaintext <= u64_max)%Z ->
  utf8_ok media_type = true -> utf8_ok kek_id = true ->
  seal_with plaintext media_type kek kek_id dek wrap_nonce stream_nonce = Ok s ->
  (n < length (sl_container s))%nat ->
  open (take n (sl_container s)) kek (sl_wrap_nonce s) (sl_wrapped_dek s) = Err Integrity.
Proof.
  intros Hd Hn Hp Hm Hk Hs. destruct (seal_container _ _ _ _ _ _ _ _ Hn Hp Hm Hk Hs) as (cts & [Hh Hsa _] & -> & -> & _ & Hw).
  set (h := header_of _ _ _ _) in *. intros Hlt. pose proof (unwrap_wrapped _ _ _ _ _ Hd Hw) as Hu. unfold open.
  destruct (decide (n < length (encode h))%nat) as [Hc|Hc].
  { by rewrite decode_short by (done || unfold zlen; lia). }
  rewrite length_app in Hlt. rewrite take_app_ge by lia. set (r := take _ _). rewrite (decode_encode h _ Hh).
  cbn [mbind result_bind]. rewrite nat_zlen, take_app_length, drop_app_length, Hu. cbn [mbind result_bind].
  destruct (read_chunks_short (length (encode h ++ r)) (n - length (encode h)) cts) as [Hr|(k & Hlk & Hr)];
    [by eapply sealed_framable|unfold r; rewrite length_app, length_take; lia|lia| |]; fold r in Hr; rewrite Hr; [done|].
  cbn [mbind result_bind]. change (hd_stream_nonce h) with stream_nonce. by rewrite (open_chunks_short _ _ _ _ _ _ _ Hsa).
Qed.
End Sealed.
