(* ===== verification/Strict.v ===== *)
(** * Strict decoding of a frame body

    The body of a control frame is JSON text.  [decode] refuses bytes that are
    not UTF-8, text that is not one JSON value, an object that names a key twice
    at any depth, trailing bytes, and values the contract's types do not take
    (wire/strict.rs).  The JSON reader itself is a class: it presents a text as a
    tree of what a visitor meets, in order, with the place where the reader
    fails as a leaf. *)

From S2P Require Import Prelude Text Command Wire Container.

(** ** What the reader presents *)

(** One value as [deserialize_any] hands it to a visitor.  [RFail] is where the
    reader itself fails; [KFail] fails at a key. *)
Inductive Raw (F : Type) :=
| RNull
| RBool (b : bool)
| RInt (n : Z)
| RF64 (x : F)
| RStr (s : string)
| RSeq (items : list (Raw F))
| RMap (entries : list (RawEntry F))
| RFail (message : string)
with RawEntry (F : Type) :=
| KV (key : string) (value : Raw F)
| KFail (message : string).
Arguments RNull {F}. Arguments RBool {F}. Arguments RInt {F}. Arguments RF64 {F}. Arguments RStr {F}.
Arguments RSeq {F}. Arguments RMap {F}. Arguments RFail {F}. Arguments KV {F}. Arguments KFail {F}.

(** [serde_json::Value]; an object lists its entries in the order of arrival. *)
Inductive Value (N : Type) :=
| VNull
| VBool (b : bool)
| VNumber (n : N)
| VString (s : string)
| VArray (items : list (Value N))
| VObject (entries : list (string * Value N)).
Arguments VNull {N}. Arguments VBool {N}. Arguments VNumber {N}. Arguments VString {N}.
Arguments VArray {N}. Arguments VObject {N}.

(** The JSON reader. *)
Class JsonReader := {
  json_f64 : Type;
  json_number : Type;
  (** [Number::from] of an integer, [Number::from_f64]. *)
  number_of_int : Z -> json_number;
  number_of_f64 : json_f64 -> option json_number;
  (** The first value of the text and the offset behind it; [None] when the text
      holds nothing but whitespace. *)
  next_value : bytes -> option (Raw json_f64 * nat);
  (** [{key:?}], and the position the reader adds to a visitor's error. *)
  debug_text : string -> string;
  located : string -> string;
}.

Definition DUPLICATE_KEY : string := "duplicate object key".

Section Strict.
Context `{JR : JsonReader}.
Notation raw := (Raw json_f64).
Notation entry := (RawEntry json_f64).
Notation value := (Value json_number).

(** The induction principle of both trees. *)
Section RawInd.
Context (P : raw -> Prop) (Q : entry -> Prop).
Context (Hnull : P RNull) (Hbool : forall b, P (RBool b)) (Hint : forall n, P (RInt n)) (Hf64 : forall x, P (RF64 x))
  (Hstr : forall s, P (RStr s)) (Hseq : forall l, Forall P l -> P (RSeq l)) (Hmap : forall l, Forall Q l -> P (RMap l))
  (Hfail : forall m, P (RFail m)) (Hkv : forall k v, P v -> Q (KV k v)) (Hkfail : forall m, Q (KFail m)).

Fixpoint raw_induction (r : raw) : P r :=
  match r with
  | RNull => Hnull
  | RBool b => Hbool b
  | RInt n => Hint n
  | RF64 x => Hf64 x
  | RStr s => Hstr s
  | RSeq l => Hseq l ((fix go (l : list raw) : Forall P l :=
      match l with [] => @List.Forall_nil _ P | x :: l => @List.Forall_cons _ P x l (raw_induction x) (go l) end) l)
  | RMap l => Hmap l ((fix go (l : list entry) : Forall Q l :=
      match l with [] => @List.Forall_nil _ Q | x :: l => @List.Forall_cons _ Q x l (entry_induction x) (go l) end) l)
  | RFail m => Hfail m
  end
with entry_induction (e : entry) : Q e :=
  match e with
  | KV k v => Hkv k v (raw_induction v)
  | KFail m => Hkfail m
  end.
End RawInd.

(** ** The visitor *)

(** [Map::insert]: whether the key was there is what the visitor asks. *)
Definition has_key (key : string) (out : list (string * value)) : bool :=
  existsb (fun p => bool_decide (p.1 = key)) out.

(** [visit_seq] and [visit_map], with the visitor of their elements. *)
Definition visit_seq (f : raw -> result string value) : list raw -> list value -> result string value :=
  fix go items out :=
    match items with
    | [] => Ok (VArray out)
    | r :: items => v ← f r; go items (out ++ [v])
    end.

Definition visit_map (f : raw -> result string value) : list entry -> list (string * value) -> result string value :=
  fix go entries out :=
    match entries with
    | [] => Ok (VObject out)
    | KFail message :: _ => Err message
    | KV key r :: entries =>
        v ← f r;
        if has_key key out then Err (located (DUPLICATE_KEY +:+ " " +:+ debug_text key))
        else go entries (out ++ [(key, v)])
    end.

(** [StrictValue]: the value, or the message of the first error on the way. *)
Fixpoint visit (r : raw) : result string value :=
  match r with
  | RNull => Ok VNull
  | RBool b => Ok (VBool b)
  | RInt n => Ok (VNumber (number_of_int n))
  | RF64 x => n ← ok_or (number_of_f64 x) (located "a non-finite number is not JSON"); Ok (VNumber n)
  | RStr s => Ok (VString s)
  | RSeq items => visit_seq visit items []
  | RMap entries => visit_map visit entries []
  | RFail message => Err message
  end.

(** The bytes as the string the trimming functions read. *)
Definition text_of (l : bytes) : string :=
  foldr (fun b s => String (Ascii.ascii_of_N (Z.to_N b)) s) EmptyString l.

(** [decode]. *)
Definition decode {T} (from_value : value -> option T) (body : bytes) : result WireError T :=
  _ ← ensure (utf8_ok body) (wire_error ESchema);
  '(r, offset) ← ok_or (next_value body) (wire_error ESchema);
  v ← map_err (fun text => wire_error (if Str.starts_with DUPLICATE_KEY text then EDuplicateKey else ESchema))
        (visit r);
  _ ← ensure (Str.is_empty (Str.trim (text_of (drop offset body)))) (wire_error ESchema);
  ok_or (from_value v) (wire_error EValidation).

(** ** What the trees say *)

(** The value a tree without failures stands for. *)
Definition reads_seq (f : raw -> value -> Prop) : list raw -> list value -> Prop :=
  fix go items vs :=
    match items, vs with
    | [], [] => True
    | r :: items, v :: vs => f r v /\ go items vs
    | _, _ => False
    end.
Definition reads_map (f : raw -> value -> Prop) : list entry -> list (string * value) -> Prop :=
  fix go entries vs :=
    match entries, vs with
    | [], [] => True
    | KV key r :: entries, (key', v) :: vs => key' = key /\ f r v /\ go entries vs
    | _, _ => False
    end.
Fixpoint reads (r : raw) (v : value) {struct r} : Prop :=
  match r with
  | RNull => v = VNull
  | RBool b => v = VBool b
  | RInt n => v = VNumber (number_of_int n)
  | RF64 x => exists n, number_of_f64 x = Some n /\ v = VNumber n
  | RStr s => v = VString s
  | RSeq items => exists vs, v = VArray vs /\ reads_seq reads items vs
  | RMap entries => exists vs, v = VObject vs /\ reads_map reads entries vs
  | RFail _ => False
  end.

Definition entry_key (e : entry) : option string := match e with KV key _ => Some key | KFail _ => None end.
Definition entry_keys (l : list entry) : list string := omap entry_key l.

(** No object of the tree names a key twice. *)
Definition each (P : raw -> Prop) : list entry -> Prop :=
  fix go entries :=
    match entries with
    | [] => True
    | KV _ r :: entries => P r /\ go entries
    | KFail _ :: entries => go entries
    end.
Definition each_item (P : raw -> Prop) : list raw -> Prop :=
  fix go items := match items with [] => True | r :: items => P r /\ go items end.
Fixpoint unique_keys (r : raw) : Prop :=
  match r with
  | RSeq items => each_item unique_keys items
  | RMap entries => NoDup (entry_keys entries) /\ each unique_keys entries
  | _ => True
  end.

(** The reader got through: no failing leaf, every number finite. *)
Definition whole (entries : list entry) : Prop := Forall (fun e => is_Some (entry_key e)) entries.
Fixpoint readable (r : raw) : Prop :=
  match r with
  | RF64 x => is_Some (number_of_f64 x)
  | RSeq items => each_item readable items
  | RMap entries => whole entries /\ each readable entries
  | RFail _ => False
  | _ => True
  end.

Lemma has_key_spec key out : has_key key out = true <-> key ∈ out.*1.
Proof.
  unfold has_key. rewrite existsb_exists, list_elem_of_fmap. split.
  - intros (p & Hp & Hk%bool_decide_eq_true). exists p. by rewrite list_elem_of_In.
  - intros (p & -> & Hp%list_elem_of_In). exists p. by rewrite bool_decide_eq_true_2.
Qed.

(** The messages of the failing leaves. *)
Definition each_message (P : string -> Prop) (f : raw -> Prop) : list entry -> Prop :=
  fix go entries :=
    match entries with
    | [] => True
    | KV _ r :: entries => f r /\ go entries
    | KFail m :: entries => P m /\ go entries
    end.
Fixpoint messages (P : string -> Prop) (r : raw) : Prop :=
  match r with
  | RSeq items => each_item (messages P) items
  | RMap entries => each_message P (messages P) entries
  | RFail m => P m
  | _ => True
  end.

(** What [decode] relies on: a position is added behind a message, and no message
    of the reader begins like the visitor's refusal of a key. *)
Class JsonReaderLaws : Prop := {
  located_keeps : forall m, Str.starts_with DUPLICATE_KEY (located m) = Str.starts_with DUPLICATE_KEY m;
  reader_messages : forall body r offset, next_value body = Some (r, offset) ->
    messages (fun m => Str.starts_with DUPLICATE_KEY m = false) r;
}.

(** ** The visitor accepts exactly the trees without failure and repetition *)

Lemma visit_seq_ok items :
  Forall (fun r => forall v, visit r = Ok v <-> reads r v /\ unique_keys r) items ->
  forall out v, visit_seq visit items out = Ok v <->
    exists vs, v = VArray (out ++ vs) /\ reads_seq reads items vs /\ each_item unique_keys items.
Proof.
  induction 1 as [|r items Hr _ IH]; intros out v; cbn.
  - split; [intros [= <-]; exists []; by rewrite app_nil_r|]. intros ([|] & -> & ? & _); [|done]. by rewrite app_nil_r.
  - rewrite bind_ok_iff. split.
    + intros (x & [Hx Hu]%Hr & (vs & -> & Hvs & Hus)%IH). exists (x :: vs). rewrite <-app_assoc. naive_solver.
    + intros ([|x vs] & -> & Hvs & Hu & Hus); [done|]. destruct Hvs as [Hx Hvs]. exists x. rewrite Hr. split; [done|].
      apply IH. exists vs. rewrite <-app_assoc. naive_solver.
Qed.

Lemma visit_map_ok entries :
  Forall (fun e => match e with KV _ r => forall v, visit r = Ok v <-> reads r v /\ unique_keys r | KFail _ => True end) entries ->
  forall out v, visit_map visit entries out = Ok v <->
    exists vs, v = VObject (out ++ vs) /\ reads_map reads entries vs /\ each unique_keys entries /\
      NoDup (entry_keys entries) /\ (forall key, key ∈ entry_keys entries -> key ∉ out.*1).
Proof.
  induction 1 as [|[key r|m] entries Hr _ IH]; intros out v; cbn.
  - split; [intros [= <-]; exists []; rewrite app_nil_r; split_and!; [done..|constructor|set_solver]|].
    intros ([|] & -> & ? & _); [|done]. by rewrite app_nil_r.
  - rewrite bind_ok_iff. split.
    + intros (x & [Hx Hu]%Hr & H). destruct (has_key key out) eqn:E; [done|].
      assert (key ∉ out.*1) as Hn by (rewrite <-has_key_spec, E; done).
      apply IH in H as (vs & -> & Hvs & Hus & Hd & Hout). exists ((key, x) :: vs). rewrite <-app_assoc.
      split_and!; [done..| |].
      * constructor; [|done]. intros Hin%Hout. apply Hin. rewrite fmap_app. set_solver.
      * intros k [->|Hk]%elem_of_cons; [done|]. specialize (Hout k Hk). rewrite fmap_app in Hout. set_solver.
    + intros ([|[key' x] vs] & -> & Hvs & Hu & Hd & Hout); [done|]. destruct Hvs as (-> & Hx & Hvs). destruct Hu as [Hu Hus].
      exists x. rewrite Hr. split; [done|]. apply NoDup_cons in Hd as [Hn Hd].
      destruct (has_key key out) eqn:E; [apply has_key_spec in E; by destruct (Hout key ltac:(left))|].
      apply IH. exists vs. rewrite <-app_assoc. split_and!; [done..|].
      intros k Hk. rewrite fmap_app, elem_of_app. intros [Hin|Hin].
      * by apply (Hout k ltac:(by right)).
      * cbn in Hin. apply list_elem_of_singleton in Hin as ->. done.
  - split; [done|]. by intros ([|[? ?] vs] & -> & ? & _).
Qed.

Lemma visit_ok r v : visit r = Ok v <-> reads r v /\ unique_keys r.
Proof.
  revert v. apply (raw_induction (fun r => forall v, visit r = Ok v <-> reads r v /\ unique_keys r)
    (fun e => match e with KV _ r => forall v, visit r = Ok v <-> reads r v /\ unique_keys r | KFail _ => True end));
    clear r; cbn; try naive_solver.
  - intros x v. destruct (number_of_f64 x) as [n|]; cbn; naive_solver.
  - intros items H v. rewrite (visit_seq_ok items H). naive_solver.
  - intros entries H v. rewrite (visit_map_ok entries H). cbn. split; [naive_solver|].
    intros ((vs & -> & Hvs) & Hd & Hu). exists vs. split_and!; [done..|]. set_solver.
Qed.

(** ** What a refusal means *)

Context `{JRL : !JsonReaderLaws}.
Notation genuine := (messages (fun m => Str.starts_with DUPLICATE_KEY m = false)).

(** The fault a message stands for. *)
Definition explains (r : raw) (m : string) : Prop :=
  if Str.starts_with DUPLICATE_KEY m then ~ unique_keys r else ~ readable r.

Lemma duplicate_message key : Str.starts_with DUPLICATE_KEY (located (DUPLICATE_KEY +:+ " " +:+ debug_text key)) = true.
Proof. rewrite located_keeps. reflexivity. Qed.

Lemma visit_seq_err items :
  Forall (fun r => genuine r -> forall m, visit r = Err m -> explains r m) items ->
  forall out m, genuine (RSeq items) -> visit_seq visit items out = Err m -> explains (RSeq items) m.
Proof.
  unfold explains. induction 1 as [|r items Hr _ IH]; intros out m Hg; cbn in *; [done|]. destruct Hg as [Hg Hgs].
  rewrite bind_err_iff. intros [H|(x & _ & H)].
  - specialize (Hr Hg m H). destruct (Str.starts_with _ _); naive_solver.
  - specialize (IH _ _ Hgs H). destruct (Str.starts_with _ _); naive_solver.
Qed.

Lemma visit_map_err entries :
  Forall (fun e => match e with KV _ r => genuine r -> forall m, visit r = Err m -> explains r m | KFail _ => True end) entries ->
  forall out m, genuine (RMap entries) -> visit_map visit entries out = Err m ->
    if Str.starts_with DUPLICATE_KEY m
    then ~ (each unique_keys entries /\ NoDup (entry_keys entries) /\ forall key, key ∈ entry_keys entries -> key ∉ out.*1)
    else ~ readable (RMap entries).
Proof.
  unfold explains. induction 1 as [|[key r|m'] entries Hr _ IH]; intros out m Hg; cbn in *; [done| |].
  - destruct Hg as [Hg Hgs]. rewrite bind_err_iff. intros [H|(x & _ & H)].
    + specialize (Hr Hg m H). destruct (Str.starts_with _ _); naive_solver.
    + destruct (has_key key out) eqn:E.
      * simplify_eq. rewrite duplicate_message. intros (_ & _ & Hout). apply has_key_spec in E. apply (Hout key); [left|done].
      * specialize (IH _ _ Hgs H). destruct (Str.starts_with _ _).
        -- intros ([_ Hu] & Hd & Hout). apply NoDup_cons in Hd as [Hn Hd]. apply IH. split_and!; [done..|].
           intros k Hk. rewrite fmap_app, elem_of_app. intros [Hin|Hin].
           ++ by apply (Hout k ltac:(by right)).
           ++ cbn in Hin. apply list_elem_of_singleton in Hin as ->. done.
        -- intros [Hw [_ Hrd]]. apply IH. split; [|done]. by apply Forall_cons in Hw as [_ Hw].
  - intros [= <-]. destruct Hg as [-> _]. intros [Hw _]. apply Forall_cons in Hw as [[? ?] _]. done.
Qed.

Lemma visit_err r m : genuine r -> visit r = Err m -> explains r m.
Proof.
  revert m.
  apply (raw_induction (fun r => forall m, genuine r -> visit r = Err m -> explains r m)
    (fun e => match e with KV _ r => forall m, genuine r -> visit r = Err m -> explains r m | KFail _ => True end));
    clear r; try done.
  - intros x m _. unfold explains. cbn. destruct (number_of_f64 x) as [n|] eqn:E; [done|]. intros [= <-].
    rewrite located_keeps. cbn. by intros [? ?].
  - intros items H m Hg Hv. apply (visit_seq_err items) in Hv; [done| |done].
    eapply Forall_impl; [exact H|]. naive_solver.
  - intros entries H m Hg Hv. apply (visit_map_err entries) in Hv; [|eapply Forall_impl; [exact H|intros []; naive_solver]|done].
    unfold explains. destruct (Str.starts_with _ _); [|done]. intros [Hd Hu]. apply Hv. split_and!; [done..|]. set_solver.
  - intros m0 m Hg. unfold explains. cbn in *. intros [= <-]. rewrite Hg. by intros [].
Qed.

(** C18: The strict decoder of a frame body accepts exactly a value
    without a repeated key at any depth, with nothing but blanks behind it, that
    the type accepts; it answers duplicate_key only when a key is repeated, and
    always then when the text is otherwise readable. *)
Theorem decode_is_strict {T} (from_value : value -> option T) body r offset :
  utf8_ok body = true -> next_value body = Some (r, offset) ->
  (forall t, decode from_value body = Ok t <->
     exists v, reads r v /\ unique_keys r /\ Str.is_empty (Str.trim (text_of (drop offset body))) = true /\
       from_value v = Some t) /\
  (decode from_value body = Err (wire_error EDuplicateKey) -> ~ unique_keys r) /\
  (readable r -> ~ unique_keys r -> decode from_value body = Err (wire_error EDuplicateKey)).
Proof.
  intros Hu Hn. unfold decode. rewrite Hu, Hn. cbn.
  pose proof (reader_messages _ _ _ Hn) as Hg. split_and!.
  - intros t. split.
    + intros (v & Hv & H)%bind_ok_iff. destruct (visit r) as [v'|] eqn:E; cbn in Hv; [|done]. simplify_eq.
      apply visit_ok in E as [Hr Hk]. apply bind_ok_iff in H as ([] & H1%ensure_ok_iff & H2%ok_or_ok_iff). naive_solver.
    + intros (v & Hr & Hk & Hb & Hf). assert (visit r = Ok v) as -> by (by apply visit_ok). cbn. by rewrite Hb, Hf.
  - destruct (visit r) as [v|m] eqn:E; cbn.
    + destruct (Str.is_empty _); cbn; [|done]. by destruct (from_value v).
    + apply visit_err in E; [|done]. unfold explains in E. by destruct (Str.starts_with _ m).
  - intros Hrd Hk. destruct (visit r) as [v|m] eqn:E; [by apply visit_ok in E as []|].
    apply visit_err in E; [|done]. unfold explains in E. cbn. by destruct (Str.starts_with _ m).
Qed.

(** A refusal has one of three codes. *)
Lemma decode_codes {T} (from_value : value -> option T) body e :
  decode from_value body = Err e -> e = wire_error ESchema \/ e = wire_error EDuplicateKey \/ e = wire_error EValidation.
Proof.
  unfold decode. destruct (utf8_ok body); cbn; [|naive_solver]. destruct (next_value body) as [[r off]|]; cbn; [|naive_solver].
  destruct (visit r) as [v|m]; cbn; [|destruct (Str.starts_with _ m); naive_solver].
  destruct (Str.is_empty _); cbn; [|naive_solver]. destruct (from_value v); naive_solver.
Qed.

End Strict.
