(* ===== verification/Ordered.v ===== *)
(** * Sorting and ordered maps

    What the Context crates use of the standard library's ordered data: the
    stable [sort_by] of a slice, [Vec::dedup], and the iteration of a
    [BTreeMap] in key order.  Strings compare byte by byte. *)

From stdpp Require Export sorting.
From S2P Require Import Prelude.

(** ** Filters *)

Lemma filter_ext_in {A} (P Q : A -> Prop) `{!∀ x, Decision (P x), !∀ x, Decision (Q x)} (l : list A) :
  (forall x, x ∈ l -> P x <-> Q x) -> filter P l = filter Q l.
Proof.
  induction l as [|x l IH]; intros He; [done|]. rewrite !filter_cons, IH by set_solver.
  specialize (He x ltac:(left)). repeat case_decide; tauto.
Qed.

Lemma filter_none_in {A} (P : A -> Prop) `{!∀ x, Decision (P x)} (l : list A) :
  (forall x, x ∈ l -> ~ P x) -> filter P l = [].
Proof.
  induction l as [|x l IH]; intros Hn; [done|]. rewrite filter_cons_False by (apply Hn; left). apply IH. set_solver.
Qed.

(** ** The stable sort *)

Section Sort.
Context {A : Type} (leb : A -> A -> bool).

(** Insertion keeps a new element in front of those that compare equal. *)
Fixpoint insert_by (x : A) (l : list A) : list A :=
  match l with
  | [] => [x]
  | y :: l => if leb x y then x :: y :: l else y :: insert_by x l
  end.

Definition sort_by (l : list A) : list A := foldr insert_by [] l.

Lemma insert_by_perm x l : insert_by x l ≡ₚ x :: l.
Proof.
  induction l as [|y l IH]; simpl; [done|]. destruct (leb x y); [done|]. rewrite IH. apply Permutation_swap.
Qed.

Lemma sort_by_perm l : sort_by l ≡ₚ l.
Proof. induction l as [|x l IH]; simpl; [done|]. by rewrite insert_by_perm, IH. Qed.

Lemma sort_by_elem_of x l : x ∈ sort_by l <-> x ∈ l.
Proof. by rewrite sort_by_perm. Qed.

Lemma sort_by_length l : length (sort_by l) = length l.
Proof. by rewrite sort_by_perm. Qed.

(** A comparison that is a total preorder. *)
Class TotalPreorder : Prop := {
  leb_total x y : leb x y = true \/ leb y x = true;
  leb_trans x y z : leb x y = true -> leb y z = true -> leb x z = true;
}.

Context `{TotalPreorder}.

Lemma leb_refl x : leb x x = true.
Proof. by destruct (leb_total x x). Qed.

Lemma insert_by_sorted x l : StronglySorted leb l -> StronglySorted leb (insert_by x l).
Proof.
  induction 1 as [|y l Hl IH HF]; simpl; [repeat constructor|].
  destruct (leb x y) eqn:E.
  - constructor; [by constructor|]. constructor; [by rewrite E|].
    eapply Forall_impl; [exact HF|]. intros z Hz%Is_true_true. apply Is_true_true. by eapply leb_trans.
  - constructor; [done|]. rewrite insert_by_perm. constructor; [|done].
    apply Is_true_true. destruct (leb_total x y) as [|Hyx]; [congruence|done].
Qed.

Lemma sort_by_sorted l : StronglySorted leb (sort_by l).
Proof. induction l as [|x l IH]; [constructor|]. by apply insert_by_sorted. Qed.

(** Sorted lists with the same elements agree wherever ties are equalities. *)
Lemma sort_by_unique l1 l2 :
  (forall x y, x ∈ l1 -> y ∈ l1 -> leb x y = true -> leb y x = true -> x = y) ->
  l1 ≡ₚ l2 -> sort_by l1 = sort_by l2.
Proof.
  intros Hanti Hp. apply (StronglySorted_unique_strong leb).
  - intros x y Hx Hy Hxy%Is_true_true Hyx%Is_true_true. rewrite sort_by_elem_of in Hx, Hy.
    apply Hanti; [done|by rewrite Hp|done|done].
  - apply sort_by_sorted.
  - apply sort_by_sorted.
  - by rewrite !sort_by_perm.
Qed.

Lemma sort_by_fixed l : StronglySorted leb l -> sort_by l = l.
Proof.
  induction 1 as [|x l Hl IH HF]; simpl; [done|]. rewrite IH.
  destruct HF as [|y l Hxy%Is_true_true HF]; simpl; [done|]. by rewrite Hxy.
Qed.
End Sort.

Arguments TotalPreorder {A} leb.

(** A comparison read through a key. *)
#[export] Instance leb_by_key {A B} (f : A -> B) leb :
  TotalPreorder leb -> TotalPreorder (fun x y => leb (f x) (f y)).
Proof. intros [Ht Htr]. split; intros; [apply Ht|by eapply Htr]. Qed.

Lemma sort_by_fmap {A B} (f : A -> B) (leb : B -> B -> bool) l :
  f <$> sort_by (fun x y => leb (f x) (f y)) l = sort_by leb (f <$> l).
Proof.
  assert (forall x k, f <$> insert_by (fun x y => leb (f x) (f y)) x k = insert_by leb (f x) (f <$> k)) as Hi.
  { intros x k. induction k as [|y k IH]; [done|]. rewrite fmap_cons. simpl. destruct (leb (f x) (f y)); [done|]. by rewrite fmap_cons, IH. }
  unfold sort_by. induction l as [|x l IH]; [done|]. rewrite fmap_cons. simpl. by rewrite Hi, IH.
Qed.

(** Two comparisons, the second deciding the ties of the first. *)
Definition lex {A} (leb1 leb2 : A -> A -> bool) (x y : A) : bool :=
  if leb1 x y then if leb1 y x then leb2 x y else true else false.

#[export] Instance lex_total {A} (leb1 leb2 : A -> A -> bool) :
  TotalPreorder leb1 -> TotalPreorder leb2 -> TotalPreorder (lex leb1 leb2).
Proof.
  intros [T1 R1] [T2 R2]. unfold lex. split.
  - intros x y. destruct (T1 x y) as [E|E], (leb1 x y) eqn:Exy, (leb1 y x) eqn:Eyx; eauto; discriminate.
  - intros x y z. destruct (leb1 x y) eqn:Exy; [|done]. destruct (leb1 y z) eqn:Eyz; [|by destruct (leb1 y x)].
    rewrite (R1 _ _ _ Exy Eyz). destruct (leb1 y x) eqn:Eyx.
    + destruct (leb1 z y) eqn:Ezy.
      * rewrite (R1 _ _ _ Ezy Eyx). eauto.
      * destruct (leb1 z x) eqn:Ezx; [|done]. by rewrite (R1 _ _ _ Ezx Exy) in Ezy.
    + destruct (leb1 z x) eqn:Ezx; [|done]. by rewrite (R1 _ _ _ Eyz Ezx) in Eyx.
Qed.

Lemma lex_both {A} (leb1 leb2 : A -> A -> bool) x y :
  lex leb1 leb2 x y = true -> lex leb1 leb2 y x = true ->
  (leb1 x y = true /\ leb1 y x = true) /\ leb2 x y = true /\ leb2 y x = true.
Proof. unfold lex. destruct (leb1 x y), (leb1 y x); naive_solver. Qed.

(** ** Strings *)

#[export] Instance string_leb_total : TotalPreorder String.leb.
Proof.
  split; [apply String.leb_total|]. intros x y z Hxy%Is_true_true Hyz%Is_true_true.
  apply Is_true_true. by apply (transitivity (R := String.le) (y := y)).
Qed.

Lemma string_leb_antisym s t : String.leb s t = true -> String.leb t s = true -> s = t.
Proof. apply String.leb_antisym. Qed.

(** [a < b] on strings. *)
Definition string_ltb (a b : string) : bool := negb (String.leb b a).

Lemma string_compare_lt a b : String.compare a b = Lt <-> string_ltb a b = true.
Proof.
  unfold string_ltb, String.leb. rewrite (String.compare_antisym b a). destruct (String.compare a b); simpl; naive_solver.
Qed.

Lemma string_ltb_spec a b : string_ltb a b = true <-> String.leb a b = true /\ a <> b.
Proof.
  unfold string_ltb. rewrite negb_true_iff. split.
  - intros Hba. destruct (leb_total String.leb a b) as [Hab|]; [|congruence].
    split; [done|]. intros ->. congruence.
  - intros [Hab Hne]. destruct (String.leb b a) eqn:E; [|done]. by destruct Hne; apply string_leb_antisym.
Qed.

#[export] Instance Z_leb_total : TotalPreorder Z.leb.
Proof. split; intros *; rewrite !Z.leb_le; lia. Qed.

(** Strings in strictly ascending order. *)
Definition ascending (l : list string) : Prop := StronglySorted (fun a b => string_ltb a b) l.

Lemma ascending_of_sorted l : StronglySorted String.leb l -> NoDup l -> ascending l.
Proof.
  induction 1 as [|x l Hl IH HF]; [constructor|]. intros [Hx Hnd]%NoDup_cons.
  constructor; [by apply IH|]. rewrite Forall_forall in *. intros y Hy.
  apply Is_true_true, string_ltb_spec. split; [by apply Is_true_true, HF|]. by intros ->.
Qed.

(** ** [Vec::dedup] *)

(** Drop an element that equals the one before it. *)
Fixpoint dedup_from {A} `{EqDecision A} (x : A) (l : list A) : list A :=
  match l with
  | [] => [x]
  | y :: l => if decide (x = y) then dedup_from x l else x :: dedup_from y l
  end.
Definition dedup {A} `{EqDecision A} (l : list A) : list A :=
  match l with [] => [] | x :: l => dedup_from x l end.

Lemma dedup_from_sorted x l :
  StronglySorted String.leb (x :: l) ->
  ascending (dedup_from x l) /\ (forall y, y ∈ dedup_from x l <-> y ∈ x :: l).
Proof.
  revert x. induction l as [|y l IH]; intros x Hs; simpl.
  { split; [repeat constructor|done]. }
  apply StronglySorted_cons in Hs as [[Hxy HF]%Forall_cons Hs]. case_decide as E.
  - subst y. destruct (IH x Hs) as [Ha He]. split; [done|]. intros z. rewrite He. set_solver.
  - destruct (IH y Hs) as [Ha He]. split.
    + constructor; [done|]. apply Forall_forall. intros z Hz%He.
      apply Is_true_true, string_ltb_spec. apply StronglySorted_cons in Hs as [HFy _].
      rewrite Forall_forall in HF, HFy. apply elem_of_cons in Hz as [->|Hz].
      * split; [by apply Is_true_true|done].
      * split; [by apply Is_true_true, HF|]. intros <-. apply E, string_leb_antisym; [by apply Is_true_true|].
        by apply Is_true_true, HFy.
    + intros z. rewrite !elem_of_cons, He. set_solver.
Qed.

(** Sorting and removing repetitions: the elements, ascending. *)
Lemma sort_dedup l :
  ascending (dedup (sort_by String.leb l)) /\ (forall y, y ∈ dedup (sort_by String.leb l) <-> y ∈ l).
Proof.
  pose proof (sort_by_sorted String.leb l) as Hs. setoid_rewrite <-(sort_by_elem_of String.leb _ l).
  destruct (sort_by String.leb l) as [|x k]; [split; [constructor|done]|]. by apply dedup_from_sorted.
Qed.

Lemma ascending_unique l k : ascending l -> ascending k -> (forall x, x ∈ l <-> x ∈ k) -> l = k.
Proof.
  assert (forall l, ascending l -> NoDup l) as Hnd.
  { induction 1 as [|x l' Hl IH HF]; constructor; [|done]. intros Hx. rewrite Forall_forall in HF.
    specialize (HF _ Hx). apply Is_true_true, string_ltb_spec in HF as [_ Hne]. done. }
  intros Hl Hk He. apply (StronglySorted_unique_strong (fun a b => string_ltb a b)); [|done|done|].
  - intros x y _ _ Hxy%Is_true_true Hyx%Is_true_true.
    apply string_ltb_spec in Hxy as [Hxy _], Hyx as [Hyx _]. by apply string_leb_antisym.
  - apply NoDup_Permutation; [by apply Hnd|by apply Hnd|done].
Qed.

(** ** [BTreeMap] with string keys *)

Definition entry_leb {A} (x y : string * A) : bool := String.leb x.1 y.1.

(** [BTreeMap::iter]: the entries in key order. *)
Definition btree_iter {A} (m : gmap string A) : list (string * A) := sort_by entry_leb (map_to_list m).

(** [BTreeMap::into_values]. *)
Definition btree_values {A} (m : gmap string A) : list A := snd <$> btree_iter m.

Lemma btree_iter_elem {A} (m : gmap string A) k x : (k, x) ∈ btree_iter m <-> m !! k = Some x.
Proof. unfold btree_iter. by rewrite sort_by_elem_of, elem_of_map_to_list. Qed.

Lemma btree_iter_keys {A} (m : gmap string A) : ascending (fst <$> btree_iter m).
Proof.
  unfold btree_iter, entry_leb. rewrite (sort_by_fmap fst String.leb).
  apply ascending_of_sorted; [apply sort_by_sorted, _|]. rewrite sort_by_perm. apply NoDup_fst_map_to_list.
Qed.

Lemma btree_iter_length {A} (m : gmap string A) : length (btree_iter m) = size m.
Proof. unfold btree_iter. by rewrite sort_by_length, length_map_to_list. Qed.

Lemma btree_values_elem {A} (m : gmap string A) x : x ∈ btree_values m <-> exists k, m !! k = Some x.
Proof.
  unfold btree_values. rewrite list_elem_of_fmap. split.
  - intros ([k y] & -> & Hy%btree_iter_elem). by exists k.
  - intros [k Hk]. exists (k, x). split; [done|]. by apply btree_iter_elem.
Qed.

(** Values that name their own key come out in ascending order of it. *)
Lemma btree_values_keys {A} (key : A -> string) (m : gmap string A) :
  (forall k x, m !! k = Some x -> key x = k) -> key <$> btree_values m = fst <$> btree_iter m.
Proof.
  intros Hk. unfold btree_values. rewrite <-list_fmap_compose. apply list_fmap_ext.
  intros i [k x] Hi. simpl. apply Hk, btree_iter_elem. by eapply list_elem_of_lookup_2.
Qed.
