(* ===== verification/Sweep.v ===== *)
(** * The TTL sweep (gwk-kernel/src/ttl_sweep.rs)

    The kernel's own notice of a holder that stopped: leases whose time ran out
    are expired through the command path, and attempts with no live lease behind
    them are marked [unknown].  Other submissions run between any two accesses
    of a pass.  The theorem: a pass acts on a lease or an attempt only while it
    is still the row it read. *)

From S2P Require Import Prelude Text Fsm Envelope Transition Command Tables Db Store Project Authority Submit Writes Kernel System Recover Ordered.

Definition STALE_AFTER : Z := 3600.
Definition STALE_SWEEP_BATCH : nat := 256.

Record SweepReport := { leases_expired : list string; attempts_marked_unknown : list string }.

(** [version_of]: a bigint column as a u32. *)
Definition version_of (raw : Z) : option Z := if bool_decide (is_u32 raw) then Some raw else None.

(** [stale_state_names]: the uncertain states but [blocked]. *)
Definition stale_state_names : list string :=
  List.filter (fun s => negb (bool_decide (s = wire_name AttemptBlocked))) uncertain_states.

(** The two commands the sweep mints decode to themselves. *)
Class MintedCommands (V : Type) `{Serde V} : Prop := {
  minted_expire id v : is_u32 v -> deserialize (to_value (ExpireLease id v)) = Some (ExpireLease id v);
  minted_mark id v : is_u32 v ->
    deserialize (to_value (TransitionAttempt id AttemptUnknown v None)) =
    Some (TransitionAttempt id AttemptUnknown v None);
}.

Section Sweep.
Context `{TZ : Timestamptz} `{TZL : !TimestamptzLaws} {V : Type} `{SD : Serde V} `{SDL : !SerdeLaws V}
  `{HM : Hmac}.
Context (apply_context_event : EventEnvelope V -> Proj instant V -> result Refusal (Proj instant V)).
Notation event := (EventEnvelope V).
Notation P := (Proj instant V).
Notation database := (Db instant V).
Notation command := (KernelCommand V).
Notation envelope := (CommandEnvelope V).
Notation store := (Store (V := V)).
Notation submit := (submit apply_context_event).
Notation step := (step apply_context_event).
Notation reachable := (reachable apply_context_event).

(** [kernel_envelope]. *)
Definition kernel_envelope (c : command) (key project issued_at : string) : envelope := {|
  ce_command_id := "cmd-" +:+ key; ce_project_id := project; ce_command_type := command_type c;
  ce_schema_version := ENVELOPE_SCHEMA_VERSION; ce_issued_at := issued_at;
  ce_actor := {| actor_kind := "kernel"; actor_id := None |};
  ce_origin := {| origin_system := "kernel"; origin_ref := None |};
  ce_target_aggregate_type := None; ce_target_aggregate_id := None; ce_expected_version := None;
  ce_idempotency_key := key; ce_causation_id := None; ce_correlation_id := None;
  ce_payload := to_value c |}.

(** ** The three queries *)

(** The rows of an aggregate's table that [keep], each with its version and the
    project of its first event; a row without events joins nothing. *)
Definition with_owner (l : list event) (ty : string) (rows : list (string * Z)) : list (string * Z * string) :=
  omap (fun '(id, v) => (fun owner => (id, v, owner)) <$> aggregate_owner l ty id) rows.

Definition lease_elapsed (now : instant) (r : LeaseRow instant) : bool :=
  bool_decide (lease_state r = "held")
  && match lease_expires_at r with Some t => instant_ltb t now | None => false end.

Definition expired_leases (now : instant) (db : database) : list (string * Z * string) :=
  with_owner (log db) "lease"
    ((fun '(id, r) => (id, lease_version r)) <$>
       map_to_list (filter (fun '(_, r) => lease_elapsed now r = true) (leases (proj db)))).

Definition backed_by (lease_id : string) (r : AttemptRow instant) : bool :=
  bool_decide (attempt_worktree_lease_id r = Some lease_id) && bool_decide (attempt_state r ∈ uncertain_states).

Definition dead_attempts (lease_id : string) (db : database) : list (string * Z * string) :=
  with_owner (log db) "attempt"
    ((fun '(id, r) => (id, attempt_version r)) <$>
       map_to_list (filter (fun '(_, r) => backed_by lease_id r = true) (attempts (proj db)))).

(** A held lease with a time to live behind the attempt. *)
Definition live_lease (p : P) (r : AttemptRow instant) : bool :=
  match attempt_worktree_lease_id r ≫= (fun id => leases p !! id) with
  | Some l => bool_decide (lease_state l = "held") && is_some (lease_expires_at l)
  | None => false
  end.

Definition silent (now : instant) (stale_after : Z) (p : P) (r : AttemptRow instant) : bool :=
  bool_decide (attempt_state r ∈ stale_state_names)
  && older_than now (attempt_updated_at r) stale_after
  && negb (live_lease p r).

(** [ORDER BY a.id LIMIT 256], on the joined rows. *)
Definition stale_attempts (now : instant) (stale_after : Z) (db : database) : list (string * Z * string) :=
  take STALE_SWEEP_BATCH
    (sort_by (fun a b => String.leb a.1.1 b.1.1)
      (with_owner (log db) "attempt"
        ((fun '(id, r) => (id, attempt_version r)) <$>
           map_to_list (filter (fun '(_, r) => silent now stale_after (proj db) r = true) (attempts (proj db)))))).

(** ** One pass *)

(** The pass's accesses are numbered: [others n] is what other clients committed
    before the n-th, [clocks n] its time. *)
Context (st : store) (others : nat -> database -> database) (clocks : nat -> TxClock).

Record Pass := { ps_access : nat; ps_db : database; ps_report : SweepReport }.

(** The database at the next access. *)
Definition access (s : Pass) : database := others (ps_access s) (ps_db s).

(** The submission of one command, and whether it was applied. *)
Definition sweep_submit (issued_at key project : string) (c : command) (s : Pass) : bool * Pass :=
  let '(res, db) := submit st (clocks (ps_access s)) (kernel_envelope c key project issued_at) None (access s) in
  (match res with CommandApplied _ _ _ => true | KernelError _ => false end,
   {| ps_access := S (ps_access s); ps_db := db; ps_report := ps_report s |}).

Definition report_lease (id : string) (s : Pass) : Pass := {|
  ps_access := ps_access s; ps_db := ps_db s;
  ps_report := {| leases_expired := leases_expired (ps_report s) ++ [id];
                  attempts_marked_unknown := attempts_marked_unknown (ps_report s) |} |}.
Definition report_attempt (id : string) (s : Pass) : Pass := {|
  ps_access := ps_access s; ps_db := ps_db s;
  ps_report := {| leases_expired := leases_expired (ps_report s);
                  attempts_marked_unknown := attempts_marked_unknown (ps_report s) ++ [id] |} |}.

(** A query: the database is read at an access and stays. *)
Definition queried (s : Pass) : Pass := {|
  ps_access := S (ps_access s); ps_db := access s; ps_report := ps_report s |}.

(** Mark one attempt; an error ends the pass, with what it committed in place. *)
Definition bury (issued_at arm : string) (s : Pass) (row : string * Z * string) : result Pass Pass :=
  let '(id, raw, project) := row in
  version ← ok_or (version_of raw) s;
  let key := "ttl_sweep:" +:+ arm +:+ ":" +:+ id +:+ ":" +:+ Numeric.to_numeric_text version in
  let '(applied, s) := sweep_submit issued_at key project (TransitionAttempt id AttemptUnknown version None) s in
  mret (if applied then report_attempt id s else s).

(** [sweep_dead_attempts]. *)
Definition sweep_dead_attempts (issued_at lease_id : string) (s : Pass) : result Pass Pass :=
  fold_res (bury issued_at "attempt_unknown") (queried s) (dead_attempts lease_id (access s)).

(** [sweep_stale_attempts]. *)
Definition sweep_stale_attempts (issued_at : string) (stale_after : Z) (s : Pass) : result Pass Pass :=
  fold_res (bury issued_at "attempt_stale") (queried s)
    (stale_attempts (tx_now (clocks (ps_access s))) stale_after (access s)).

(** Expire one lease, and go on to its attempts when that was applied. *)
Definition expire (issued_at : string) (s : Pass) (row : string * Z * string) : result Pass Pass :=
  let '(id, raw, project) := row in
  version ← ok_or (version_of raw) s;
  let key := "ttl_sweep:expire_lease:" +:+ id +:+ ":" +:+ Numeric.to_numeric_text version in
  let '(applied, s) := sweep_submit issued_at key project (ExpireLease id version) s in
  if applied then sweep_dead_attempts issued_at id (report_lease id s) else mret s.

(** [sweep_once_with]. *)
Definition sweep_once_with (stale_after : Z) (db : database) : result Pass Pass :=
  let start := {| ps_access := 0; ps_db := db;
                  ps_report := {| leases_expired := []; attempts_marked_unknown := [] |} |} in
  let issued_at := ts_json (tx_now (clocks 0)) in
  let s := queried start in
  s ← fold_res (expire issued_at) (queried s) (expired_leases (tx_now (clocks (ps_access s))) (access s));
  sweep_stale_attempts issued_at stale_after s.

Definition sweep_once (db : database) : result Pass Pass := sweep_once_with STALE_AFTER db.

(** ** What a pass acts on *)

Definition outcome (r : result Pass Pass) : Pass := match r with Ok s | Err s => s end.

Lemma fold_outcome {X} (I : Pass -> Prop) (f : Pass -> X -> result Pass Pass) l :
  (forall s x, x ∈ l -> I s -> I (outcome (f s x))) -> forall s, I s -> I (outcome (fold_res f s l)).
Proof.
  induction l as [|x l IH]; intros Hf s Hs; [done|]. cbn [fold_res].
  pose proof (Hf s x ltac:(by left) Hs) as Hx. destruct (f s x) as [s'|s']; [|done].
  apply IH; [|done]. intros s0 y Hy. apply Hf. by right.
Qed.

(** [dbr] is the database the k-th access of a pass from [db] sees. *)
Definition read_at (k : nat) (db dbr : database) : Prop :=
  exists db0, rtc step db db0 /\ rtc step db0 dbr /\ dbr = others k db0.

(** A lease whose time to live is over. *)
Definition run_out (now : instant) (r : LeaseRow instant) : Prop :=
  lease_state r = "held" /\ exists t, lease_expires_at r = Some t /\ instant_ltb t now = true.

(** A lease that had run out at the time of the pass's query, the second of its
    accesses, expired while it was still the row that was read: no heartbeat came
    in between. *)
Definition expired_on_proof (db db' : database) (id : string) : Prop :=
  exists dbr r dbw dbx rx,
    read_at 1 db dbr /\ leases (proj dbr) !! id = Some r /\ run_out (tx_now (clocks 1)) r /\
    rtc step dbr dbw /\ leases (proj dbw) !! id = Some r /\
    step dbw dbx /\ leases (proj dbx) !! id = Some rx /\ lease_state rx = "expired" /\ rtc step dbx db'.

(** An attempt that [why] selected at an access, marked while its state and
    version were still those that were read; it is [unknown] for good. *)
Definition buried (why : nat -> P -> AttemptRow instant -> Prop) (db db' : database) (id : string) : Prop :=
  exists k dbr r dbw rw dbx,
    read_at k db dbr /\ attempts (proj dbr) !! id = Some r /\ why k (proj dbr) r /\
    rtc step dbr dbw /\ attempts (proj dbw) !! id = Some rw /\ attempt_state rw = attempt_state r /\
    attempt_version rw = attempt_version r /\ step dbw dbx /\ rtc step dbx db' /\
    exists rx, attempts (proj db') !! id = Some rx /\ attempt_state rx = wire_name AttemptUnknown.

(** An attempt whose machine lets it become [unknown], in the state [s]. *)
Definition may_be_lost (s : AttemptState) (r : AttemptRow instant) : Prop :=
  attempt_state r = wire_name s /\ can_transition s AttemptUnknown = true.

(** Why the two arms act: a lease the pass expired was behind the attempt; or
    nothing was heard of it for longer than the threshold at the time of the
    query, it was not blocked, and no held lease with a time to live was behind
    it. *)
Definition lease_arm (expired : list string) (r : AttemptRow instant) : Prop :=
  exists lease s, lease ∈ expired /\ attempt_worktree_lease_id r = Some lease /\ may_be_lost s r.
Definition stale_arm (stale_after : Z) (k : nat) (p : P) (r : AttemptRow instant) : Prop :=
  (exists s, may_be_lost s r /\ s <> AttemptBlocked) /\
  older_than (tx_now (clocks k)) (attempt_updated_at r) stale_after = true /\
  (forall id l, attempt_worktree_lease_id r = Some id -> leases p !! id = Some l ->
     lease_state l = "held" -> lease_expires_at l = None).
Definition either_arm (stale_after : Z) (expired : list string) (k : nat) (p : P) (r : AttemptRow instant) : Prop :=
  lease_arm expired r \/ stale_arm stale_after k p r.

(** What the predicates of the queries decide. *)
Lemma lease_elapsed_spec now r : lease_elapsed now r = true -> run_out now r.
Proof.
  unfold lease_elapsed. intros H. unbool. destruct (lease_expires_at r) as [t|] eqn:E; [|done]. split; [done|].
  by exists t.
Qed.

Lemma uncertain_spec (r : AttemptRow instant) : attempt_state r ∈ uncertain_states -> exists s, may_be_lost s r.
Proof.
  unfold uncertain_states. intros (s & Hs & Hin)%list_elem_of_fmap. exists s. split; [done|].
  by apply list_elem_of_In, filter_In in Hin as [_ ?].
Qed.

Lemma backed_by_spec lease expired r : lease ∈ expired -> backed_by lease r = true -> lease_arm expired r.
Proof. unfold backed_by. intros Hin H. unbool. destruct (uncertain_spec r) as [s Hs]; [done|]. by exists lease, s. Qed.

Lemma silent_spec k sa p r : silent (tx_now (clocks k)) sa p r = true -> stale_arm sa k p r.
Proof.
  unfold silent, stale_state_names. intros H. unbool. split_and!; [|done|].
  - match goal with H : attempt_state r ∈ _ |- _ => apply list_elem_of_In, filter_In in H as [[s Hs]%list_elem_of_In%uncertain_spec Hb] end.
    exists s. split; [done|]. intros ->. unbool. by destruct Hs.
  - intros id l Hid Hl Hheld. destruct (lease_expires_at l) eqn:E; [|done].
    match goal with H : live_lease p r = false |- _ => unfold live_lease in H; rewrite Hid in H; cbn in H; rewrite Hl, Hheld, E in H end.
    done.
Qed.

(** ** Histories of rows *)

Context (Hframe : context_frame apply_context_event).
Context (Hothers : forall n db, reachable db -> rtc step db (others n db)).
Context `{Hmint : !MintedCommands V}.

(** A lease whose version did not move is the same row. *)
Lemma lease_history (db db' : database) id r :
  log_inv db -> rtc step db db' -> leases (proj db) !! id = Some r ->
  exists r', leases (proj db') !! id = Some r' /\ (lease_version r <= lease_version r')%Z /\
    (lease_version r' = lease_version r -> r' = r).
Proof.
  intros Hinv Hs. revert r Hinv. induction Hs as [db|db db1 db' Hs Hss IH]; intros r Hinv Hl.
  { exists r. split; [done|]. split; [lia|done]. }
  pose proof (step_writes _ Hframe _ _ Hinv Hs) as Hw. destruct (step_extends _ _ _ Hinv Hs) as [Hinv1 _].
  destruct (lease_evolves _ _ Hw id r Hl) as (mid & Hmid & Hev).
  destruct (IH _ Hinv1 Hmid) as (r' & Hl' & Hle & Hsame). exists r'. split; [done|].
  destruct Hev as [->|Hev]; [done|]. cbn in Hev. unfold assert_lease_guard in Hev. unbool. split; [lia|]. intros. lia.
Qed.

(** An attempt whose version did not move is in the same state. *)
Lemma attempt_history (db db' : database) id r :
  reachable db -> rtc step db db' -> attempts (proj db) !! id = Some r ->
  exists r', attempts (proj db') !! id = Some r' /\
    (attempt_version r' = attempt_version r -> attempt_state r' = attempt_state r) /\
    (attempt_state r = wire_name AttemptUnknown -> attempt_state r' = wire_name AttemptUnknown).
Proof.
  intros Hr Hs Hl. pose proof (reachable_rows_ok _ Hframe _ Hr) as Hok.
  destruct (rows_known (FsmRows := attempt_rows) _ _ _ Hok Hl) as [a Ha].
  destruct (fsm_history _ Hframe (FsmRows0 := attempt_rows) _ _ _ _ a (reachable_log_inv _ _ Hr) Hs Hl Ha)
    as (r' & a' & Hl' & Ha' & Hrt & Hv & Hne).
  cbn [rows_of state_col version_col attempt_rows] in *.
  exists r'. split; [done|]. split.
  - intros He. destruct (decide (a = a')) as [->|Hd]; [congruence|]. specialize (Hne Hd). lia.
  - intros Hu. rewrite Ha in Hu. apply wire_name_inj in Hu as ->.
    rewrite Ha'. f_equal. by eapply terminal_rtc.
Qed.

(** ** One submission of a pass *)

Definition minted (c : command) : Prop := deserialize (to_value c) = Some c.

Lemma sweep_submit_steps issued_at key project c (s s' : Pass) b :
  reachable (ps_db s) -> sweep_submit issued_at key project c s = (b, s') ->
  rtc step (ps_db s) (access s) /\ step (access s) (ps_db s') /\ ps_report s' = ps_report s.
Proof.
  intros Hr. unfold sweep_submit. destruct (submit _ _ _ _ _) as [res db'] eqn:E. intros [= _ <-].
  split; [by apply Hothers|]. split; [|done]. by eapply step_submit.
Qed.

(** Where an event that a command left on the log came from. *)
Lemma event_origin (db db' : database) e :
  log_inv db -> rtc step db db' -> e ∈ log db' ->
  aggregate_type e <> KERNEL_AGGREGATE -> is_context_aggregate (aggregate_type e) = false ->
  e ∈ log db \/
  exists clk env c rt v dbw dbx, rtc step db dbw /\ step dbw dbx /\ rtc step dbx db' /\
    applied_effect clk env dbw dbx c rt v e.
Proof.
  intros Hinv Hs. revert Hinv. induction Hs as [db|db db1 db' Hs Hss IH]; intros Hinv He Hk Hx; [by left|].
  pose proof (step_extends _ _ _ Hinv Hs) as [Hinv1 _].
  destruct (IH Hinv1 He Hk Hx) as [Hin|(clk & env & c & rt & v & dbw & dbx & H1 & H2 & H3 & H4)].
  2: { right. exists clk, env, c, rt, v, dbw, dbx. split_and!; try done. by eapply rtc_l. }
  destruct (step_cases _ _ _ Hinv Hs) as [Hstill|[(row & Hrow & _ & _ & Hkey & _)
    |[(row & Hrow & Hctx & _)|(clk & env & c & rt & v & row & Hae)]]].
  - left. by destruct Hstill as [<- _ _ _].
  - rewrite (re_log _ _ _ Hrow) in Hin. apply elem_of_app in Hin as [Hin| ->%list_elem_of_singleton]; [by left|].
    injection Hkey as Hty _. done.
  - rewrite (re_log _ _ _ Hrow) in Hin. apply elem_of_app in Hin as [Hin| ->%list_elem_of_singleton]; [by left|].
    congruence.
  - rewrite (ae_log _ _ _ _ _ _ _ _ Hae) in Hin.
    apply elem_of_app in Hin as [Hin| ->%list_elem_of_singleton]; [by left|].
    right. exists clk, env, c, rt, v, db, db1. by split_and!.
Qed.

(** [c] took effect on the aggregate [id] after [dbr]. *)
Definition acted (dbr : database) (c : command) (id : string) (dbw dbx db' : database) : Prop :=
  rtc step dbr dbw /\ step dbw dbx /\ rtc step dbx db' /\
  exists clk env rt v row, r_aggregate_id rt = id /\ applied_effect clk env dbw dbx c rt v row.

(** Applied: the minted command took effect, now or when the event that answers
    it was appended.  [dbr] is a state that shows it had not yet. *)
Lemma sweep_submit_applied issued_at key project c (s s' : Pass) ty id (dbr : database) :
  reachable dbr -> rtc step dbr (ps_db s) -> minted c -> stored_command c = c ->
  (forall c', stored_command c' = c -> c' = c) ->
  (forall env rt, route_of env c = Ok rt -> r_aggregate_type rt = ty /\ r_aggregate_id rt = id) ->
  ty <> KERNEL_AGGREGATE -> is_context_aggregate ty = false ->
  (forall db0 dbw dbx, reachable db0 -> ~ acted db0 c id dbw dbx dbr) ->
  sweep_submit issued_at key project c s = (true, s') ->
  exists dbw dbx, acted dbr c id dbw dbx (ps_db s').
Proof.
  intros Hrr Hd Hc Hsc Hst Hrt Hty Hcx Hnot. unfold sweep_submit.
  destruct (submit _ _ _ _ _) as [res db'] eqn:E. intros [= Hres <-].
  destruct res as [cid rows w|]; [|done]. cbn [ps_db].
  pose proof (reachable_steps _ _ _ Hrr Hd) as Hr. pose proof (Hothers (ps_access s) _ Hr) as Ho.
  fold (access s) in Ho. pose proof (reachable_log_inv _ _ (reachable_steps _ _ _ Hr Ho)) as Hinv.
  assert (rtc step dbr (access s)) as Hda by (by etransitivity).
  destruct (submit_cases _ _ _ _ _ _ _ _ Hinv E) as [[_ [[r ?]|(-> & rows' & w' & Hres' & _)]]|(c' & rt' & v & row & Hae & _)];
    [done| |].
  - injection Hres' as -> -> ->.
    apply submit_applied_prior in E as (pre & ep & body & Hp & _ & _ & _ & Hbody & Hpr); [|done].
    apply prepare_ok in Hp as (Hde & _ & Hro & Hb & _). cbn [kernel_envelope ce_payload] in Hde.
    rewrite Hc in Hde. injection Hde as Hde. rewrite <-Hde in Hro. apply Hrt in Hro as [Hrty Hrid].
    apply prior_replay_iff in Hpr as (row & -> & (_ & Hk & _ & Hpl & _) & He).
    assert (payload row = to_value c) as Hpay.
    { rewrite Hpl. destruct Hbody as [->| ->]; rewrite Hb, <-Hde; [done|]. by apply jsonb_typed. }
    assert (row ∈ log (access s)) as Hin by (eapply proj1, events_for_key_elem; rewrite He; left).
    assert (aggregate_type row = ty) as Hrow by (injection Hk; congruence).
    assert (forall db0 db1, log_inv db0 -> rtc step db0 db1 -> row ∈ log db1 ->
              row ∈ log db0 \/ exists dbw dbx, acted db0 c id dbw dbx db1) as Hact.
    { intros db0 db1 Hi0 H01 Hin1. destruct (event_origin _ _ _ Hi0 H01 Hin1) as
        [?|(clk & env & c0 & rt & v & dbw & dbx & H1 & H2 & H3 & Hae)]; [congruence|congruence|by left|right].
      exists dbw, dbx. split_and!; try done.
      assert (c0 = c) as ->.
      { apply Hst. pose proof (deserialize_stored _ _ (ae_decode _ _ _ _ _ _ _ _ Hae)) as Hs.
        rewrite <-(ae_row_payload _ _ _ _ _ _ _ _ Hae), Hpay, Hc in Hs. by injection Hs. }
      exists clk, env, rt, v, row. split; [|done]. by destruct (Hrt _ _ (ae_route _ _ _ _ _ _ _ _ Hae)). }
    destruct (Hact _ _ (reachable_log_inv _ _ Hrr) Hda Hin) as [Hold|Hnew]; [exfalso|done].
    pose proof Hrr as [t0 Ht0].
    destruct (Hact _ _ (initial_log_inv t0) Ht0 Hold) as [Hnil|(dbw & dbx & Ha)]; [by apply elem_of_nil in Hnil|].
    eapply Hnot; [|exact Ha]. by exists t0.
  - pose proof (ae_decode _ _ _ _ _ _ _ _ Hae) as Hde. cbn [kernel_envelope ce_payload] in Hde.
    rewrite Hc in Hde. injection Hde as <-. destruct (Hrt _ _ (ae_route _ _ _ _ _ _ _ _ Hae)) as [_ Hid].
    exists (access s), db'. split_and!; try done; [by eapply step_submit|].
    by exists (clocks (ps_access s)), (kernel_envelope c key project issued_at), rt', v, row.
Qed.

Lemma expire_route id v env rt :
  route_of env (ExpireLease id v : command) = Ok rt -> r_aggregate_type rt = "lease" /\ r_aggregate_id rt = id.
Proof. unfold route_of. simpl. intros. by inv_ok. Qed.
Lemma mark_route id v env rt :
  route_of env (TransitionAttempt id AttemptUnknown v None : command) = Ok rt ->
  r_aggregate_type rt = "attempt" /\ r_aggregate_id rt = id.
Proof. unfold route_of. simpl. intros. by inv_ok. Qed.

(** An expiry that took effect found the version it named. *)
Lemma expire_effect clk env (db db' : database) id v rt n row :
  r_aggregate_id rt = id -> applied_effect clk env db db' (ExpireLease id v) rt n row ->
  exists r r', leases (proj db) !! id = Some r /\ lease_version r = v /\
    leases (proj db') !! id = Some r' /\ lease_state r' = "expired" /\ (v < lease_version r')%Z.
Proof.
  intros Hid Hae. pose proof (ae_decide _ _ _ _ _ _ _ _ Hae) as Hd. cbn in Hd. rewrite Hid in Hd.
  unfold decide_cas, row_version in Hd. inv_ok. unbool.
  pose proof (ae_proj _ _ _ _ _ _ _ _ Hae) as Hp. cbn in Hp. inv_ok.
  apply fmap_Some in Hrun as (r & Hr & Hv).
  unfold project_lease in Hp. inv_ok. apply upd_ok in Hp as (old & Ho & _ & _ & _ & _ & ->).
  pose proof (ae_row_version _ _ _ _ _ _ _ _ Hae) as Hrv.
  exists r. eexists. split; [done|]. split; [done|]. split; [apply lookup_insert_eq|]. split; [done|].
  cbn. rewrite Hrv. lia.
Qed.

(** So did a burial. *)
Lemma mark_effect clk env (db db' : database) id v rt n row :
  r_aggregate_id rt = id -> applied_effect clk env db db' (TransitionAttempt id AttemptUnknown v None) rt n row ->
  exists r r', attempts (proj db) !! id = Some r /\ attempt_version r = v /\
    attempts (proj db') !! id = Some r' /\ attempt_state r' = wire_name AttemptUnknown.
Proof.
  intros Hid Hae. pose proof (ae_proj _ _ _ _ _ _ _ _ Hae) as Hp. cbn [project_command stored_command] in Hp.
  unfold project_attempt in Hp. inv_ok. apply upd_ok in Hp as (old & Ho & _ & _ & _ & _ & Hp).
  pose proof (ae_decide _ _ _ _ _ _ _ _ Hae) as Hd. cbn [decide_command] in Hd. cbn in Ho.
  destruct (decide_fsm_attempt _ _ _ _ _ _ _ _ _ Ho Hd) as (a & _ & _ & _ & _ & Hv).
  exists old. eexists. split; [done|]. split; [done|]. split; [rewrite Hp; apply lookup_insert_eq|done].
Qed.

(** ** What a pass keeps *)

Definition sound (stale_after : Z) (db : database) (s : Pass) : Prop :=
  rtc step db (ps_db s) /\
  (forall id, id ∈ leases_expired (ps_report s) -> expired_on_proof db (ps_db s) id) /\
  (forall id, id ∈ attempts_marked_unknown (ps_report s) ->
     buried (either_arm stale_after (leases_expired (ps_report s))) db (ps_db s) id).

Lemma expired_later (db db1 db2 : database) id :
  rtc step db1 db2 -> expired_on_proof db db1 id -> expired_on_proof db db2 id.
Proof.
  intros Hs (dbr & r & dbw & dbx & rx & H).
  exists dbr, r, dbw, dbx, rx. destruct_and!. split_and!; try done. by etransitivity.
Qed.

Lemma buried_later sa ex ex' (db db1 db2 : database) id :
  reachable db1 -> rtc step db1 db2 -> ex ⊆ ex' ->
  buried (either_arm sa ex) db db1 id -> buried (either_arm sa ex') db db2 id.
Proof.
  intros Hr Hs Hex (k & dbr & r & dbw & rw & dbx & H1 & H2 & Hwhy & H3 & H4 & H5 & H6 & H7 & H8 & rx & Hrx & Hu).
  exists k, dbr, r, dbw, rw, dbx. split_and!; try done.
  - destruct Hwhy as [(l & x & Hl & Hb)|Hst]; [left; exists l, x; split; [by apply Hex|done]|by right].
  - by etransitivity.
  - destruct (attempt_history _ _ _ _ Hr Hs Hrx) as (ry & Hy & _ & Huy). exists ry. split; [done|]. by apply Huy.
Qed.

Lemma sound_later sa (db : database) (s s' : Pass) :
  reachable db -> sound sa db s -> rtc step (ps_db s) (ps_db s') -> ps_report s' = ps_report s -> sound sa db s'.
Proof.
  intros Hr (H1 & H2 & H3) Hs Hrep. pose proof (reachable_steps _ _ _ Hr H1) as Hr1. unfold sound. rewrite Hrep.
  split; [by etransitivity|]. split; intros id Hid.
  - by eapply expired_later, H2.
  - by eapply buried_later, H3.
Qed.

Lemma sound_report_lease sa (db : database) (s : Pass) id :
  reachable db -> sound sa db s -> expired_on_proof db (ps_db s) id -> sound sa db (report_lease id s).
Proof.
  intros Hr (H1 & H2 & H3) Hok. split; [done|]. pose proof (reachable_steps _ _ _ Hr H1) as Hr1.
  split; intros x; cbn; [intros [Hx|Hx%list_elem_of_singleton]%elem_of_app; subst; auto|].
  intros Hx. eapply buried_later, H3; [done..| |done]. set_solver.
Qed.

Lemma sound_report_attempt sa (db : database) (s : Pass) id :
  sound sa db s -> buried (either_arm sa (leases_expired (ps_report s))) db (ps_db s) id ->
  sound sa db (report_attempt id s).
Proof.
  intros (H1 & H2 & H3) Hok. split; [done|]. split; [done|].
  intros x; cbn. intros [Hx|Hx%list_elem_of_singleton]%elem_of_app; subst; auto.
Qed.

Lemma version_of_Some raw v : version_of raw = Some v -> v = raw /\ is_u32 v.
Proof. unfold version_of. case_bool_decide; [|done]. by intros [= ->]. Qed.

(** Neither arm looks at an attempt that is [unknown] already. *)
Lemma live_not_unknown sa expired k p r :
  either_arm sa expired k p r -> attempt_state r <> wire_name AttemptUnknown.
Proof.
  intros [(l & s & _ & _ & [-> Hs])|((s & [-> Hs] & _) & _)]; by destruct s.
Qed.

Lemma read_later k (db dbr : database) : read_at k db dbr -> rtc step db dbr.
Proof. intros (db0 & H1 & H2 & _). by etransitivity. Qed.

(** A row of a burial list, read at [dbr]. *)
Lemma bury_sound sa k (db dbr : database) issued_at arm (s : Pass) id raw project r :
  reachable db -> sound sa db s -> read_at k db dbr -> rtc step dbr (ps_db s) ->
  attempts (proj dbr) !! id = Some r -> attempt_version r = raw ->
  either_arm sa (leases_expired (ps_report s)) k (proj dbr) r ->
  let s' := outcome (bury issued_at arm s (id, raw, project)) in
  sound sa db s' /\ rtc step dbr (ps_db s') /\ leases_expired (ps_report s') = leases_expired (ps_report s).
Proof.
  intros Hr Hso Hread Hd2 Hl Hv Hwhy. pose proof (read_later _ _ _ Hread) as Hd1. unfold bury. destruct (version_of raw) as [v|] eqn:E; [|done].
  apply version_of_Some in E as [-> Hu]. cbn [ok_or mbind result_bind].
  destruct (sweep_submit _ _ _ _ _) as [b s'] eqn:E. cbn [mret result_ret outcome].
  pose proof (reachable_steps _ _ _ Hr Hd1) as Hrr. pose proof (reachable_steps _ _ _ Hrr Hd2) as Hrs.
  destruct (sweep_submit_steps _ _ _ _ _ _ _ Hrs E) as (Ha & Hst & Hrep).
  assert (rtc step (ps_db s) (ps_db s')) as Hss by (by eapply rtc_r).
  assert (sound sa db s') as Hso' by (by eapply sound_later).
  assert (rtc step dbr (ps_db s')) as Hdr by (by etransitivity).
  destruct b; [|by rewrite Hrep]. cbn [report_attempt ps_db ps_report leases_expired]. rewrite Hrep.
  split; [|done]. apply sound_report_attempt; [done|]. rewrite Hrep.
  eapply (sweep_submit_applied _ _ _ _ _ _ "attempt" id dbr) in E as
    (dbw & dbx & Hdw & Hwx & Hxs & clk & env & rt & n & row & Hid & Hae);
    [|done|done|by apply minted_mark|done|by intros []|apply mark_route|done|done|].
  - apply mark_effect in Hae as (rw & rx & Hw & Hvw & Hx & Hsx); [|done].
    destruct (attempt_history _ _ _ _ Hrr Hdw Hl) as (rw' & Hw' & Hsame & _).
    rewrite Hw in Hw'. injection Hw' as <-.
    assert (reachable dbx) as Hrx by (eapply reachable_steps; [exact Hrr|by eapply rtc_r]).
    destruct (attempt_history _ _ _ _ Hrx Hxs Hx) as (ry & Hy & _ & Huy).
    exists k, dbr, r, dbw, rw, dbx. split_and!; try done; [apply Hsame; congruence|congruence|].
    exists ry. split; [done|]. by apply Huy.
  - intros db0 dbw dbx Hr0 (H1 & H2 & H3 & clk & env & rt & n & row & Hid & Hae).
    apply mark_effect in Hae as (rw & rx & _ & _ & Hx & Hsx); [|done].
    assert (reachable dbx) as Hrx by (eapply reachable_steps; [exact Hr0|by eapply rtc_r]).
    destruct (attempt_history _ _ _ _ Hrx H3 Hx) as (ry & Hy & _ & Huy). rewrite Hl in Hy. injection Hy as <-.
    by apply (live_not_unknown _ _ _ _ _ Hwhy), Huy.
Qed.

(** ** The queries' rows *)

Lemma with_owner_elem (l : list event) ty rows id v project :
  (id, v, project) ∈ with_owner l ty rows -> (id, v) ∈ rows.
Proof.
  unfold with_owner. intros ([id' v'] & Hin & Ho)%list_elem_of_omap.
  destruct (aggregate_owner _ _ _); cbn in Ho; [|done]. by injection Ho as <- <- _.
Qed.

Lemma selected_elem {R} (f : R -> bool) (version : R -> Z) (m : gmap string R) id v :
  (id, v) ∈ (fun '(id, r) => (id, version r)) <$> map_to_list (filter (fun '(_, r) => f r = true) m) ->
  exists r, m !! id = Some r /\ version r = v /\ f r = true.
Proof.
  intros ([id' r] & [= -> ->] & Hin)%list_elem_of_fmap. apply elem_of_map_to_list, map_lookup_filter_Some in Hin as [Hl Hf].
  by exists r.
Qed.

Lemma expired_leases_elem now (db : database) id v project :
  (id, v, project) ∈ expired_leases now db ->
  exists r, leases (proj db) !! id = Some r /\ lease_version r = v /\ lease_elapsed now r = true.
Proof. by intros Hin%with_owner_elem%selected_elem. Qed.

Lemma dead_attempts_elem lease (db : database) id v project :
  (id, v, project) ∈ dead_attempts lease db ->
  exists r, attempts (proj db) !! id = Some r /\ attempt_version r = v /\ backed_by lease r = true.
Proof. by intros Hin%with_owner_elem%selected_elem. Qed.

Lemma stale_attempts_elem now sa (db : database) id v project :
  (id, v, project) ∈ stale_attempts now sa db ->
  exists r, attempts (proj db) !! id = Some r /\ attempt_version r = v /\ silent now sa (proj db) r = true.
Proof.
  unfold stale_attempts. intros Hin%subseteq_take. rewrite sort_by_perm in Hin. by apply with_owner_elem, selected_elem in Hin.
Qed.

(** ** The passes *)

Lemma access_steps (s : Pass) (db : database) :
  reachable db -> rtc step db (ps_db s) -> rtc step (ps_db s) (access s).
Proof. intros Hr Hs. apply Hothers. by eapply reachable_steps. Qed.

Lemma access_read (s : Pass) (db : database) :
  reachable db -> rtc step db (ps_db s) -> read_at (ps_access s) db (access s).
Proof. intros Hr Hs. exists (ps_db s). split; [done|]. split; [by apply (access_steps s db)|done]. Qed.

Lemma queried_sound sa (db : database) (s : Pass) : reachable db -> sound sa db s -> sound sa db (queried s).
Proof. intros Hr Hso. eapply sound_later; [done..| |done]. eapply access_steps; [done|apply Hso]. Qed.

(** Burying the rows of one query. *)
Lemma burials_sound sa (db : database) issued_at arm (s : Pass) rows :
  reachable db -> sound sa db s ->
  (forall id v project, (id, v, project) ∈ rows -> exists r, attempts (proj (access s)) !! id = Some r /\
     attempt_version r = v /\ either_arm sa (leases_expired (ps_report s)) (ps_access s) (proj (access s)) r) ->
  sound sa db (outcome (fold_res (bury issued_at arm) (queried s) rows)).
Proof.
  intros Hr Hso Hrows.
  apply (fold_outcome (fun s' => sound sa db s' /\ rtc step (access s) (ps_db s') /\
           leases_expired (ps_report s') = leases_expired (ps_report s))).
  - intros s' [[id v] project] Hin (H1 & H2 & H3). destruct (Hrows _ _ _ Hin) as (r & Hl & Hv & Hwhy).
    rewrite <-H3 in Hwhy |- *. eapply bury_sound; try done. by apply access_read, Hso.
  - split; [by apply queried_sound|done].
Qed.

Lemma dead_attempts_sound sa (db : database) issued_at lease (s : Pass) :
  reachable db -> sound sa db s -> lease ∈ leases_expired (ps_report s) ->
  sound sa db (outcome (sweep_dead_attempts issued_at lease s)).
Proof.
  intros Hr Hso Hin. apply burials_sound; [done..|].
  intros id v project (r & Hl & Hv & Hb)%dead_attempts_elem. exists r. split_and!; try done. left. by eapply backed_by_spec.
Qed.

Lemma stale_attempts_sound sa (db : database) issued_at (s : Pass) :
  reachable db -> sound sa db s -> sound sa db (outcome (sweep_stale_attempts issued_at sa s)).
Proof.
  intros Hr Hso. apply burials_sound; [done..|].
  intros id v project (r & Hl & Hv & Hb)%stale_attempts_elem. exists r. split_and!; try done. right. by apply silent_spec.
Qed.

(** Whatever a lease meets, the pass only goes forward. *)
Lemma bury_steps issued_at arm (db : database) (s : Pass) row :
  reachable db -> rtc step db (ps_db s) -> rtc step db (ps_db (outcome (bury issued_at arm s row))).
Proof.
  intros Hr Hs. destruct row as [[id raw] project]. unfold bury. destruct (version_of raw); [|done].
  cbn [ok_or mbind result_bind]. destruct (sweep_submit _ _ _ _ _) as [b s'] eqn:E.
  apply sweep_submit_steps in E as (H1 & H2 & _); [|by eapply reachable_steps].
  assert (rtc step db (ps_db s')) by (eapply rtc_r; [by etransitivity|done]). by destruct b.
Qed.

Lemma expire_steps issued_at (db : database) (s : Pass) row :
  reachable db -> rtc step db (ps_db s) -> rtc step db (ps_db (outcome (expire issued_at s row))).
Proof.
  intros Hr Hs. destruct row as [[id raw] project]. unfold expire. destruct (version_of raw); [|done].
  cbn [ok_or mbind result_bind]. destruct (sweep_submit _ _ _ _ _) as [b s'] eqn:E.
  apply sweep_submit_steps in E as (H1 & H2 & _); [|by eapply reachable_steps].
  assert (rtc step db (ps_db s')) as Hs' by (eapply rtc_r; [by etransitivity|done]). destruct b; [|done].
  apply (fold_outcome (fun s0 => rtc step db (ps_db s0))); [intros s0 x _; by apply bury_steps|].
  cbn. etransitivity; [exact Hs'|]. by eapply (access_steps (report_lease id s')).
Qed.

(** Expiring a lease read at [dbr]. *)
Lemma expire_sound sa (db dbr : database) issued_at (s : Pass) id raw project r :
  reachable db -> sound sa db s -> read_at 1 db dbr -> rtc step dbr (ps_db s) ->
  leases (proj dbr) !! id = Some r -> lease_version r = raw -> run_out (tx_now (clocks 1)) r ->
  sound sa db (outcome (expire issued_at s (id, raw, project))).
Proof.
  intros Hr Hso Hread Hd2 Hl Hv Hel. pose proof (read_later _ _ _ Hread) as Hd1. unfold expire. destruct (version_of raw) as [v|] eqn:E; [|done].
  apply version_of_Some in E as [-> Hu]. cbn [ok_or mbind result_bind].
  destruct (sweep_submit _ _ _ _ _) as [b s'] eqn:E.
  pose proof (reachable_steps _ _ _ Hr Hd1) as Hrr. pose proof (reachable_steps _ _ _ Hrr Hd2) as Hrs.
  destruct (sweep_submit_steps _ _ _ _ _ _ _ Hrs E) as (Ha & Hst & Hrep).
  assert (sound sa db s') as Hso' by (eapply sound_later; [done..|by eapply rtc_r|done]).
  destruct b; [|done]. apply dead_attempts_sound; [done| |cbn; apply elem_of_app; right; by left].
  apply sound_report_lease; [done..|].
  eapply (sweep_submit_applied _ _ _ _ _ _ "lease" id dbr) in E as
    (dbw & dbx & Hdw & Hwx & Hxs & clk & env & rt & n & row & Hid & Hae);
    [|done|done|by apply minted_expire|done|by intros []|apply expire_route|done|done|].
  - apply expire_effect in Hae as (rw & rx & Hw & Hvw & Hx & Hsx & _); [|done].
    destruct (lease_history _ _ _ _ (reachable_log_inv _ _ Hrr) Hdw Hl) as (rw' & Hw' & _ & Hsame).
    rewrite Hw in Hw'. injection Hw' as <-. rewrite (Hsame ltac:(congruence)) in Hw.
    by exists dbr, r, dbw, dbx, rx.
  - intros db0 dbw dbx Hr0 (H1 & H2 & H3 & clk & env & rt & n & row & Hid & Hae).
    apply expire_effect in Hae as (rw & rx & _ & _ & Hx & _ & Hlt); [|done].
    assert (reachable dbx) as Hrx by (eapply reachable_steps; [exact Hr0|by eapply rtc_r]).
    destruct (lease_history _ _ _ _ (reachable_log_inv _ _ Hrx) H3 Hx) as (ry & Hy & Hle & _).
    rewrite Hl in Hy. injection Hy as <-. lia.
Qed.

End Sweep.
