(* ===== verification/Chars.v ===== *)
(** * Text as characters

    A Rust [str] seen through [chars]: a list of Unicode scalar values, with the
    UTF-8 width of each where the source counts bytes.  The functions are those
    the skill parser uses (lines, trims, splits, byte slices). *)

From S2P Require Import Prelude.
From Stdlib Require Export Ascii.
#[local] Open Scope Z_scope.

Definition char := Z.
Definition str := list char.

#[export] Instance str_eq_dec : EqDecision str := _.

(** An ASCII character and an ASCII literal. *)
Definition ch (a : Ascii.ascii) : char := Z.of_N (Ascii.N_of_ascii a).
Arguments ch _%_char.
Fixpoint text (s : string) : str :=
  match s with EmptyString => [] | String a s => ch a :: text s end.
Arguments text _%_string.

Definition newline : char := 10.
Definition carriage_return : char := 13.
Definition tab : char := 9.
Definition double_quote : char := 34.
Definition single_quote : char := 39.
Definition backslash : char := 92.

(** [char::len_utf8], [str::len]. *)
Definition len_utf8 (c : char) : Z :=
  if c <? 128 then 1 else if c <? 2048 then 2 else if c <? 65536 then 3 else 4.
Definition str_len (s : str) : Z := foldr (fun c n => len_utf8 c + n)%Z 0%Z s.

(** [char::is_control]: category Cc. *)
Definition is_control (c : char) : bool := ((0 <=? c) && (c <? 32) || (127 <=? c) && (c <? 160))%Z.

(** [char::is_whitespace]: the White_Space property. *)
Definition is_whitespace (c : char) : bool :=
  ((9 <=? c) && (c <=? 13) || (c =? 32) || (c =? 133) || (c =? 160) || (c =? 5760)
   || (8192 <=? c) && (c <=? 8202) || (c =? 8232) || (c =? 8233) || (c =? 8239)
   || (c =? 8287) || (c =? 12288))%Z.

Definition between (lo hi c : char) : bool := ((lo <=? c) && (c <=? hi))%Z.
Definition is_ascii_digit : char -> bool := between 48 57.
Definition is_ascii_lowercase : char -> bool := between 97 122.
Definition is_ascii_uppercase : char -> bool := between 65 90.
Definition is_ascii_alphanumeric (c : char) : bool :=
  is_ascii_digit c || is_ascii_lowercase c || is_ascii_uppercase c.
Definition is_ascii_hexdigit (c : char) : bool :=
  is_ascii_digit c || between 97 102 c || between 65 70 c.
Definition to_ascii_lowercase (s : str) : str :=
  (fun c => if is_ascii_uppercase c then c + 32 else c)%Z <$> s.

(** Space or tab. *)
Definition is_blank (c : char) : bool := ((c =? 32) || (c =? 9))%Z.

Definition is_nil (s : str) : bool := match s with [] => true | _ => false end.
Definition all (f : char -> bool) (s : str) : bool := forallb f s.
Definition any (f : char -> bool) (s : str) : bool := existsb f s.
Definition contains (c : char) (s : str) : bool := any (Z.eqb c) s.

Fixpoint strip_prefix (p s : str) : option str :=
  match p, s with
  | [], s => Some s
  | a :: p, b :: s => if (a =? b)%Z then strip_prefix p s else None
  | _ :: _, [] => None
  end.
Definition starts_with (p s : str) : bool := is_some (strip_prefix p s).
Definition strip_suffix (p s : str) : option str := reverse <$> strip_prefix (reverse p) (reverse s).

(** [split_once] on a text: at its first occurrence. *)
Fixpoint split_once (p s : str) : option (str * str) :=
  match strip_prefix p s with
  | Some rest => Some ([], rest)
  | None =>
      match s with
      | [] => None
      | c :: s => (fun '(a, b) => (c :: a, b)) <$> split_once p s
      end
  end.

(** [rsplit_once] on a character: at its last occurrence. *)
Definition rsplit_once (c : char) (s : str) : option (str * str) :=
  (fun '(a, b) => (reverse b, reverse a)) <$> split_once [c] (reverse s).

(** [split] on a character. *)
Fixpoint split (c : char) (s : str) : list str :=
  match s with
  | [] => [[]]
  | d :: s =>
      match split c s with
      | [] => [[d]]
      | w :: ws => if (d =? c)%Z then [] :: w :: ws else (d :: w) :: ws
      end
  end.

Fixpoint drop_while (f : char -> bool) (s : str) : str :=
  match s with [] => [] | c :: s' => if f c then drop_while f s' else s end.
Fixpoint take_while (f : char -> bool) (s : str) : str :=
  match s with [] => [] | c :: s' => if f c then c :: take_while f s' else [] end.
Definition trim_start_matches (f : char -> bool) (s : str) : str := drop_while f s.
Definition trim_end_matches (f : char -> bool) (s : str) : str := reverse (drop_while f (reverse s)).

(** [str::lines]: at each newline, with a carriage return before it; the last
    piece only when it is not empty. *)
Definition strip_cr (s : str) : str :=
  match strip_suffix [carriage_return] s with Some s' => s' | None => s end.
Definition lines (s : str) : list str :=
  match reverse (split newline s) with
  | [] => []
  | last :: ended => reverse (strip_cr <$> ended) ++ (if is_nil last then [] else [last])
  end.

(** [char_indices]: each character with the byte it starts at. *)
Fixpoint char_indices_from (at_ : Z) (s : str) : list (Z * char) :=
  match s with [] => [] | c :: s => (at_, c) :: char_indices_from (at_ + len_utf8 c) s end.

(** [s.get(..end)]: the text before byte [end_], when that is a boundary. *)
Fixpoint get_to (end_ : Z) (s : str) : option str :=
  if (end_ =? 0)%Z then Some []
  else match s with
       | [] => None
       | c :: s => if (end_ <? len_utf8 c)%Z then None else cons c <$> get_to (end_ - len_utf8 c) s
       end.

(** The longest prefix within [max] bytes that ends at a boundary. *)
Fixpoint truncate_to (max : Z) (s : str) : str :=
  match s with
  | [] => []
  | c :: s => if (len_utf8 c <=? max)%Z then c :: truncate_to (max - len_utf8 c) s else []
  end.

(** ** Lemmas *)

Lemma len_utf8_pos c : (1 <= len_utf8 c)%Z.
Proof. unfold len_utf8. repeat case_match; lia. Qed.

Lemma str_len_nonneg s : (0 <= str_len s)%Z.
Proof. induction s as [|c s IH]; simpl; [lia|]. pose proof (len_utf8_pos c). lia. Qed.

Lemma str_len_app s t : str_len (s ++ t) = (str_len s + str_len t)%Z.
Proof. induction s as [|c s IH]; simpl; [lia|]. rewrite IH. lia. Qed.

Lemma get_to_app s t : get_to (str_len s) (s ++ t) = Some s.
Proof.
  induction s as [|c s IH]; simpl.
  - by destruct t.
  - pose proof (len_utf8_pos c). pose proof (str_len_nonneg s).
    destruct (Z.eqb_spec (len_utf8 c + str_len s) 0); [lia|].
    destruct (Z.ltb_spec (len_utf8 c + str_len s) (len_utf8 c)); [lia|].
    replace (len_utf8 c + str_len s - len_utf8 c)%Z with (str_len s) by lia. by rewrite IH.
Qed.

Lemma get_to_Some n s k : get_to n s = Some k -> exists t, s = k ++ t /\ str_len k = n.
Proof.
  revert n k. induction s as [|c s IH]; intros n k; simpl; destruct (Z.eqb_spec n 0) as [->|].
  - intros [= <-]. by exists [].
  - done.
  - intros [= <-]. by exists (c :: s).
  - destruct (_ <? _)%Z; [done|]. intros (k' & Hk & ->)%fmap_Some. apply IH in Hk as (t & -> & Hl).
    exists t. split; [done|]. simpl. lia.
Qed.

Lemma truncate_to_len max s : (0 <= max)%Z -> (str_len (truncate_to max s) <= max)%Z.
Proof.
  revert max. induction s as [|c s IH]; intros max Hm; simpl; [lia|].
  destruct (Z.leb_spec (len_utf8 c) max); [|done]. simpl. specialize (IH (max - len_utf8 c)%Z ltac:(lia)). lia.
Qed.

Lemma truncate_to_prefix max s : truncate_to max s `prefix_of` s.
Proof.
  revert max. induction s as [|c s IH]; intros max; simpl; [done|].
  destruct (_ <=? _)%Z; [by apply prefix_cons|apply prefix_nil].
Qed.

Lemma strip_prefix_Some p s t : strip_prefix p s = Some t <-> s = p ++ t.
Proof.
  revert s. induction p as [|a p IH]; intros s; simpl; [split; congruence|].
  destruct s as [|b s]; [done|]. destruct (Z.eqb_spec a b) as [->|Hne].
  - rewrite IH. split; [by intros ->|by intros [= ->]].
  - split; [done|]. by intros [= ->].
Qed.

Lemma split_once_Some p s a b : split_once p s = Some (a, b) -> s = a ++ p ++ b.
Proof.
  revert a b. induction s as [|c s IH]; intros a b; simpl.
  - destruct (strip_prefix p []) eqn:E; [|done]. apply strip_prefix_Some in E. by intros [= <- <-].
  - destruct (strip_prefix p (c :: s)) eqn:E.
    + apply strip_prefix_Some in E. by intros [= <- <-].
    + intros ([a' b'] & Hs & [= -> ->])%fmap_Some. apply IH in Hs as ->. done.
Qed.

(** No occurrence starts before the one found. *)
Lemma split_once_first p s a b : split_once p s = Some (a, b) ->
  forall a' b', s = a' ++ p ++ b' -> (length a <= length a')%nat.
Proof.
  revert a b. induction s as [|c s IH]; intros a b; simpl.
  - destruct (strip_prefix p []); [|done]. intros [= <- _] a' b' _. simpl. lia.
  - destruct (strip_prefix p (c :: s)) eqn:E.
    + intros [= <- _] a' b' _. simpl. lia.
    + intros ([a0 b0] & Hs & [= -> ->])%fmap_Some a' b' Heq. destruct a' as [|x a'].
      * simpl in Heq. rewrite Heq in E. by rewrite (proj2 (strip_prefix_Some p _ b') eq_refl) in E.
      * injection Heq as -> Heq. apply le_n_S. by eapply IH.
Qed.

Lemma drop_while_split f s : s = take_while f s ++ drop_while f s.
Proof. induction s as [|c s IH]; simpl; [done|]. destruct (f c); [|done]. simpl. by rewrite <-IH. Qed.

Lemma take_while_all f s : all f (take_while f s) = true.
Proof. induction s as [|c s IH]; simpl; [done|]. destruct (f c) eqn:E; [|done]. simpl. by rewrite E. Qed.

Lemma trim_end_prefix f s : exists t, s = trim_end_matches f s ++ t /\ all f t = true.
Proof.
  unfold trim_end_matches. exists (reverse (take_while f (reverse s))). split.
  - rewrite <-reverse_app, <-drop_while_split. by rewrite reverse_involutive.
  - apply forallb_forall. intros x Hx%list_elem_of_In. rewrite elem_of_reverse in Hx.
    pose proof (take_while_all f (reverse s)) as Ha. apply (proj1 (forallb_forall _ _) Ha), list_elem_of_In, Hx.
Qed.

Lemma drop_while_app f x c y : f c = false -> drop_while f (x ++ c :: y) = drop_while f x ++ c :: y.
Proof.
  intros Hc. induction x as [|d x IH]; simpl; [by rewrite Hc|]. by destruct (f d).
Qed.

Lemma trim_end_app f a c b : f c = false -> trim_end_matches f (a ++ c :: b) = a ++ c :: trim_end_matches f b.
Proof.
  intros Hc. unfold trim_end_matches. rewrite reverse_app, reverse_cons, <-app_assoc. cbn [app].
  rewrite drop_while_app by done. rewrite reverse_app, reverse_cons, reverse_involutive, <-app_assoc. done.
Qed.

Lemma trim_end_blank_head f s : match s with [] => True | c :: _ => f c = true end ->
  match trim_end_matches f s with [] => True | c :: _ => f c = true end.
Proof.
  destruct (trim_end_prefix f s) as (t & Hs & _). intros H. destruct (trim_end_matches f s) as [|c u]; [done|].
  by rewrite Hs in H.
Qed.
