(* ===== verification/Scan.v ===== *)
(** * The YAML subset of a skill manifest (gwk-context/src/skill.rs)

    [scan_subset] reads the frontmatter of a third-party manifest line by line,
    before any YAML parser sees it, and refuses what is outside a small subset:
    anchors, aliases, tags, merge keys, flow mappings, explicit keys, constructs
    that run over the end of a line, keys that readers resolve differently, and
    nesting beyond two levels.  The theorems: which keys it returns, what it
    refuses wherever a value can begin, and that depth does not depend on how a
    document is indented. *)

From S2P Require Import Prelude Chars.
#[local] Open Scope Z_scope.

Inductive BundleRefusal :=
| ParentTraversal | AbsolutePath | NotARegularFile | Executable
| ExecutableSuffix (suffix : str) | Unclassified (suffix : str) | MalformedPath.

(** [SkillError]; the static texts are kept, the texts of other crates' errors
    are not. *)
Inductive SkillError :=
| InputTooLarge | MissingFrontmatter | FrontmatterTooLarge | ControlCharacter | TabIndentation
| DuplicateKey (key : str) | UnsupportedYaml (what : string) | TooDeeplyNested | MalformedTopLevelKey
| KeyNotInDocument (key : str) | Yaml11AmbiguousKey (key : str) | Malformed (why : string)
| InvalidName | NameDirectoryMismatch | FieldTooLong (field : string) | TooManyEntries (field : string)
| MetadataValueNotString (key : str) | InvalidGridworkExtension
| RefusedBundleEntry (refusal : BundleRefusal).

Definition SKILL_MAX_NESTING_DEPTH : Z := 2.

(** ** Keys *)

(** [is_plain_key]. *)
Definition is_plain_key (key : str) : bool :=
  negb (is_nil key)
  && all (fun c => is_ascii_alphanumeric c || (c =? ch "-") || (c =? ch "_") || (c =? ch ".")) key.

(** [yaml11_bool_not_pinned]. *)
Definition yaml11_bool_not_pinned (key : str) : bool :=
  bool_decide (key ∈ text <$> ["y"; "Y"; "yes"; "Yes"; "YES"; "n"; "N"; "no"; "No"; "NO";
                               "on"; "On"; "ON"; "off"; "Off"; "OFF"]%string).

Definition all_digits (s : str) : bool := all is_ascii_digit s.

(** [yaml11_underscored_number]. *)
Definition yaml11_underscored_number (key : str) : bool :=
  let body := match strip_prefix (text "-") key with Some b => b | None => key end in
  if negb (contains (ch "_") body) || negb (match body with c :: _ => is_ascii_digit c | [] => false end)
  then false
  else
    let compact := List.filter (fun c => negb (c =? ch "_")) body in
    let is_int :=
      all_digits compact
      || match strip_prefix (text "0x") compact with
         | Some hex => negb (is_nil hex) && all is_ascii_hexdigit hex | None => false end
      || match strip_prefix (text "0b") compact with
         | Some bin => negb (is_nil bin) && all (fun c => (c =? ch "0") || (c =? ch "1")) bin | None => false end in
    let is_float :=
      match split_once (text ".") compact with
      | Some (int, frac) => negb (is_nil int) && all_digits int && all_digits frac
      | None => false
      end in
    is_int || is_float.

(** [yaml11_date], on a plain key, whose characters are its bytes. *)
Definition yaml11_date (key : str) : bool :=
  match key with
  | [y1; y2; y3; y4; d1; m1; m2; d2; a1; a2] =>
      (d1 =? ch "-") && (d2 =? ch "-") && all_digits [y1; y2; y3; y4; m1; m2; a1; a2]
  | _ => false
  end.

(** [yaml11_ambiguous_key]. *)
Definition yaml11_ambiguous_key (key : str) : bool :=
  yaml11_bool_not_pinned key || yaml11_underscored_number key || yaml11_date key.

(** ** One line *)

(** [check_block_scalar_header], on the characters after the header. *)
Fixpoint header_indicators (s : str) : result SkillError str :=
  match s with
  | [] => Ok []
  | c :: s' =>
      if (c =? ch "-") || (c =? ch "+") then header_indicators s'
      else if is_ascii_digit c then Err (UnsupportedYaml "block scalar indentation indicator")
      else Ok s
  end.
Definition check_block_scalar_header (rest : str) : result SkillError unit :=
  tail ← header_indicators rest;
  match drop_while is_blank tail with
  | [] => Ok tt
  | c :: _ => ensure (c =? ch "#") (UnsupportedYaml "block scalar header")
  end.

(** The locals of [scan_line]. *)
Record LineScan := {
  quote : option char;
  after_quoted : bool;
  after_flow_close : bool;
  flow : Z;
  flow_depth : Z;
  sequence_markers : Z;
  openings : list (Z * bool);
  node_offset : Z;
  key_end : option Z;
  block_scalar : bool;
  node_start : bool;
}.

Definition line_start : LineScan := {|
  quote := None; after_quoted := false; after_flow_close := false; flow := 0; flow_depth := 0;
  sequence_markers := 0; openings := []; node_offset := 0; key_end := None; block_scalar := false;
  node_start := true |}.

(** Assignments to them. *)
Definition open_quote (at_ : Z) (c : char) (s : LineScan) : LineScan := {|
  quote := Some c; after_quoted := after_quoted s; after_flow_close := after_flow_close s;
  flow := flow s; flow_depth := flow_depth s; sequence_markers := sequence_markers s;
  openings := openings s; node_offset := at_; key_end := key_end s;
  block_scalar := block_scalar s; node_start := false |}.
Definition close_quote (s : LineScan) : LineScan := {|
  quote := None; after_quoted := true; after_flow_close := after_flow_close s;
  flow := flow s; flow_depth := flow_depth s; sequence_markers := sequence_markers s;
  openings := openings s; node_offset := node_offset s; key_end := key_end s;
  block_scalar := block_scalar s; node_start := node_start s |}.
Definition set_node_offset (at_ : Z) (s : LineScan) : LineScan := {|
  quote := quote s; after_quoted := after_quoted s; after_flow_close := after_flow_close s;
  flow := flow s; flow_depth := flow_depth s; sequence_markers := sequence_markers s;
  openings := openings s; node_offset := at_; key_end := key_end s;
  block_scalar := block_scalar s; node_start := node_start s |}.
Definition set_block_scalar (s : LineScan) : LineScan := {|
  quote := quote s; after_quoted := after_quoted s; after_flow_close := after_flow_close s;
  flow := flow s; flow_depth := flow_depth s; sequence_markers := sequence_markers s;
  openings := openings s; node_offset := node_offset s; key_end := key_end s;
  block_scalar := true; node_start := node_start s |}.
Definition set_node_start (b : bool) (s : LineScan) : LineScan := {|
  quote := quote s; after_quoted := after_quoted s; after_flow_close := after_flow_close s;
  flow := flow s; flow_depth := flow_depth s; sequence_markers := sequence_markers s;
  openings := openings s; node_offset := node_offset s; key_end := key_end s;
  block_scalar := block_scalar s; node_start := b |}.
Definition set_flow (f depth : Z) (s : LineScan) : LineScan := {|
  quote := quote s; after_quoted := after_quoted s; after_flow_close := after_flow_close s;
  flow := f; flow_depth := depth; sequence_markers := sequence_markers s;
  openings := openings s; node_offset := node_offset s; key_end := key_end s;
  block_scalar := block_scalar s; node_start := node_start s |}.
Definition open_mapping (at_ : Z) (s : LineScan) : LineScan := {|
  quote := quote s; after_quoted := after_quoted s; after_flow_close := after_flow_close s;
  flow := flow s; flow_depth := flow_depth s; sequence_markers := sequence_markers s;
  openings := openings s ++ [(node_offset s, false)]; node_offset := node_offset s;
  key_end := match key_end s with None => Some at_ | Some e => Some e end;
  block_scalar := block_scalar s; node_start := node_start s |}.
Definition open_sequence (s : LineScan) : LineScan := {|
  quote := quote s; after_quoted := after_quoted s; after_flow_close := after_flow_close s;
  flow := flow s; flow_depth := flow_depth s; sequence_markers := sequence_markers s + 1;
  openings := openings s ++ [(node_offset s, true)]; node_offset := node_offset s; key_end := key_end s;
  block_scalar := block_scalar s; node_start := node_start s |}.
Definition end_char (closed : bool) (s : LineScan) : LineScan := {|
  quote := quote s; after_quoted := false; after_flow_close := closed;
  flow := flow s; flow_depth := flow_depth s; sequence_markers := sequence_markers s;
  openings := openings s; node_offset := node_offset s; key_end := key_end s;
  block_scalar := block_scalar s; node_start := node_start s |}.

(** The next character is a blank or there is none. *)
Definition blank_or_end (rest : str) : bool := match rest with [] => true | n :: _ => is_blank n end.

(** Between tokens, where the parser consults its dispatch table. *)
Definition between_tokens (s : LineScan) : bool := node_start s || after_quoted s || after_flow_close s.

(** The indicators refused there; [true] ends the line at a block scalar header. *)
Definition indicator (s : LineScan) (c : char) (rest : str) : result SkillError bool :=
  if c =? ch "&" then Err (UnsupportedYaml "anchor")
  else if c =? ch "*" then Err (UnsupportedYaml "alias")
  else if c =? ch "!" then Err (UnsupportedYaml "tag")
  else if c =? ch "{" then Err (UnsupportedYaml "flow mapping")
  else if (c =? ch "<") && match rest with n :: _ => n =? ch "<" | [] => false end then
    Err (UnsupportedYaml "merge key")
  else if (c =? ch "[") && (0 <? flow s) then Err (UnsupportedYaml "flow sequence node")
  else if (c =? ch "?") && ((0 <? flow s) || blank_or_end rest) then Err (UnsupportedYaml "explicit key")
  else if ((c =? ch "|") || (c =? ch ">")) && (node_start s && (flow s =? 0)) then
    _ ← check_block_scalar_header rest; Ok true
  else Ok false.

(** The last [match] of the loop. *)
Definition structural (s : LineScan) (at_ : Z) (c : char) (rest : str) : LineScan :=
  if (c =? ch "[") && node_start s then
    set_node_start true (set_flow (flow s + 1) (Z.max (flow_depth s) (flow s + 1)) s)
  else if (c =? ch "]") || (c =? ch "}") then
    set_node_start false (set_flow (saturating_sub (flow s) 1) (flow_depth s) s)
  else if c =? ch "," then set_node_start (0 <? flow s) s
  else if c =? ch ":" then
    if blank_or_end rest || ((after_quoted s || node_start s) && (0 <? flow s)) then
      set_node_start true
        (if flow s =? 0 then open_mapping at_ s
         else set_flow (flow s) (Z.max (flow_depth s) (flow s + 1)) s)
    else set_node_start false s
  else if c =? ch "-" then
    if node_start s && blank_or_end rest then open_sequence s else set_node_start false s
  else set_node_start false s.

(** How the loop goes on: one character, two, or it breaks. *)
Inductive Turn := Advance (s : LineScan) | AdvanceTwo (s : LineScan) | Break (s : LineScan).

(** One turn of the loop at byte [at_], with the character before and those
    after. *)
Definition scan_turn (s : LineScan) (prev : option char) (at_ : Z) (c : char) (rest : str)
  : result SkillError Turn :=
  match quote s with
  | Some q =>
      if (q =? double_quote) && (c =? backslash) then Ok (AdvanceTwo s)
      else if c =? q then
        if (q =? single_quote) && match rest with n :: _ => n =? single_quote | [] => false end
        then Ok (AdvanceTwo s) else Ok (Advance (close_quote s))
      else Ok (Advance s)
  | None =>
      if ((c =? single_quote) || (c =? double_quote)) && node_start s then Ok (Advance (open_quote at_ c s))
      else if (c =? ch "#")
              && match prev with None => true | Some p => between_tokens s || is_blank p end then Ok (Break s)
      else if is_blank c then Ok (Advance s)
      else
        let flow_before := flow s in
        let between := between_tokens s in
        let s := if node_start s then set_node_offset at_ s else s in
        header ← (if between then indicator s c rest else Ok false);
        if header : bool then Ok (Break (set_block_scalar s))
        else
          _ ← ensure (negb ((0 <? flow s) && (c =? ch "{"))) (UnsupportedYaml "flow mapping");
          _ ← ensure (negb ((0 <? flow s) && (c =? ch "["))) (UnsupportedYaml "flow sequence node");
          Ok (Advance (end_char (((c =? ch "]") || (c =? ch "}")) && (0 <? flow_before))
                         (structural s at_ c rest)))
  end.

(** The loop. *)
Fixpoint scan_chars (s : LineScan) (prev : option char) (at_ : Z) (l : str) : result SkillError LineScan :=
  match l with
  | [] => Ok s
  | c :: rest =>
      turn ← scan_turn s prev at_ c rest;
      match turn with
      | Advance s => scan_chars s (Some c) (at_ + len_utf8 c) rest
      | AdvanceTwo s =>
          match rest with
          | [] => Ok s
          | c2 :: rest2 => scan_chars s (Some c2) (at_ + len_utf8 c + len_utf8 c2) rest2
          end
      | Break s => Ok s
      end
  end.

(** [scan_line]; its [LineFacts] are the fields of the final locals. *)
Definition scan_line (trimmed : str) : result SkillError LineScan :=
  s ← scan_chars line_start None 0 trimmed;
  _ ← ensure (match quote s with None => true | Some _ => false end) (UnsupportedYaml "multi-line quoted scalar");
  _ ← ensure (flow s <=? 0) (UnsupportedYaml "multi-line flow collection");
  Ok s.

(** ** The document *)

(** The open levels, the innermost first: a column, and whether a marker opened
    it. *)
Definition Stack := list (Z * bool).

Fixpoint close_levels (column : Z) (is_sequence : bool) (stack : Stack) : Stack :=
  match stack with
  | (open_, kind) :: rest =>
      if (column <? open_) || ((open_ =? column) && kind && negb is_sequence)
      then close_levels column is_sequence rest else stack
  | [] => []
  end.
Definition open_level (stack : Stack) (opening : Z * bool) : Stack :=
  let '(column, is_sequence) := opening in
  let stack := close_levels column is_sequence stack in
  match stack with
  | (open_, kind) :: _ =>
      if (open_ =? column) && Bool.eqb kind is_sequence then stack else (column, is_sequence) :: stack
  | [] => [(column, is_sequence)]
  end.

(** The locals of [scan_subset]. *)
Record SubsetScan := {
  keys : list str;
  seen : gset (list Z);
  stack : Stack;
  scalar : option Z;
}.

Definition refused_char (c : char) : bool :=
  (is_control c && negb (c =? tab)) || (c =? 8232) || (c =? 8233).

Definition is_empty_line (line : str) : bool := all is_whitespace line.

(** The key at the head of a line. *)
Definition head_key (facts : LineScan) (trimmed : str) : option str := key_end facts ≫= (fun e => get_to e trimmed).

(** A line at column zero is a key or an item of the sequence above. *)
Definition top_level (s : SubsetScan) (facts : LineScan) (trimmed : str) : result SkillError (list str * gset (list Z)) :=
  if 0 <? sequence_markers facts then
    _ ← ensure (match keys s with [] => false | _ => true end) MalformedTopLevelKey;
    Ok (keys s, seen s)
  else
    key ← ok_or (head_key facts trimmed) MalformedTopLevelKey;
    _ ← ensure (is_plain_key key) MalformedTopLevelKey;
    _ ← ensure (bool_decide (key ∉ seen s)) (DuplicateKey key);
    Ok (keys s ++ [key], {[key]} ∪ seen s).

(** The part of the loop that reads a line as YAML. *)
Definition scan_node (s : SubsetScan) (indent : Z) (trimmed : str) : result SkillError SubsetScan :=
  facts ← scan_line trimmed;
  _ ← match head_key facts trimmed with
      | Some key => ensure (negb (is_plain_key key && yaml11_ambiguous_key key)) (Yaml11AmbiguousKey key)
      | None => Ok tt
      end;
  _ ← ensure (negb (block_scalar facts && (0 <? sequence_markers facts)))
        (UnsupportedYaml "block scalar behind a sequence marker");
  '(ks, sn) ← (if indent =? 0 then top_level s facts trimmed else Ok (keys s, seen s));
  let levels := foldl open_level (stack s) ((fun '(offset, q) => (indent + offset, q)) <$> openings facts) in
  let depth := saturating_sub (Z.of_nat (length levels)) 1 + flow_depth facts in
  _ ← ensure (depth <=? SKILL_MAX_NESTING_DEPTH) TooDeeplyNested;
  Ok {| keys := ks; seen := sn; stack := levels;
        scalar := if block_scalar facts then Some indent else scalar s |}.

(** The body of the loop. *)
Definition scan_raw_line (s : SubsetScan) (raw : str) : result SkillError SubsetScan :=
  let line := strip_cr raw in
  _ ← ensure (negb (any refused_char line)) ControlCharacter;
  let blanks := take_while is_blank line in
  let indent := Z.of_nat (length blanks) in
  let inside := match scalar s with
                | Some header => is_empty_line line || (header <? indent)
                | None => false
                end in
  if inside then Ok s
  else
    let s := {| keys := keys s; seen := seen s; stack := stack s; scalar := None |} in
    _ ← ensure (negb (contains tab blanks)) TabIndentation;
    let trimmed := trim_end_matches is_blank (drop_while is_blank line) in
    if is_nil trimmed || starts_with (text "#") trimmed then Ok s
    else
      _ ← ensure (negb (bool_decide (trimmed = text "---") || bool_decide (trimmed = text "...")
                        || starts_with (text "%") trimmed)) (UnsupportedYaml "document marker or directive");
      scan_node s indent trimmed.

Definition subset_start : SubsetScan := {| keys := []; seen := ∅; stack := []; scalar := None |}.

(** [scan_subset]. *)
Definition scan_subset (front : str) : result SkillError (list str) :=
  s ← fold_res scan_raw_line subset_start (lines front);
  _ ← ensure (match keys s with [] => false | _ => true end) MalformedTopLevelKey;
  Ok (keys s).

(** ** Depth does not depend on indentation *)

Section Renaming.
Context (f : Z -> Z) (Hf : forall a b, a < b -> f a < f b).

Definition rename (level : Z * bool) : Z * bool := (f level.1, level.2).

Lemma renamed_lt a b : (f a <? f b) = (a <? b).
Proof.
  destruct (Z.ltb_spec a b) as [H|H]; [by apply Z.ltb_lt, Hf|]. apply Z.ltb_ge.
  destruct (Z.eq_dec b a) as [->|]; [done|]. apply Z.lt_le_incl, Hf. lia.
Qed.

Lemma renamed_eq a b : (f a =? f b) = (a =? b).
Proof.
  destruct (Z.eqb_spec a b) as [->|Hne]; [by apply Z.eqb_eq|]. apply Z.eqb_neq.
  destruct (Z.lt_ge_cases a b) as [H|H]; [apply Hf in H; lia|].
  assert (b < a) as H' by lia. apply Hf in H'. lia.
Qed.

Lemma close_levels_rename column q (levels : Stack) :
  close_levels (f column) q (rename <$> levels) = rename <$> close_levels column q levels.
Proof.
  induction levels as [|[open_ kind] levels IH]; [done|]. cbn. rewrite renamed_lt, renamed_eq.
  by destruct (_ || _).
Qed.

Lemma open_level_rename levels opening :
  open_level (rename <$> levels) (rename opening) = rename <$> open_level levels opening.
Proof.
  destruct opening as [column q]. cbn. rewrite close_levels_rename.
  destruct (close_levels column q levels) as [|[open_ kind] rest]; [done|]. cbn. rewrite renamed_eq.
  by destruct (_ && _).
Qed.

Lemma levels_rename openings levels :
  foldl open_level (rename <$> levels) (rename <$> openings) = rename <$> foldl open_level levels openings.
Proof.
  revert levels. induction openings as [|o openings IH]; intros levels; [done|].
  cbn [fmap list_fmap foldl]. by rewrite open_level_rename, IH.
Qed.

Context (H0 : f 0 = 0).

Definition spaces (n : Z) : str := replicate (Z.to_nat n) (ch " ").

(** A line and its respelling with the columns renamed; a node opened further to
    the right on the same line would keep its distance, so every opening of the
    line is at its head. *)
Definition reindented (l l' : str) : Prop :=
  exists n body, 0 <= n /\ strip_cr l = spaces n ++ body /\ strip_cr l' = spaces (f n) ++ body /\
    match body with [] => True | c :: _ => is_blank c = false end /\
    forall facts o, scan_line (trim_end_matches is_blank body) = Ok facts -> o ∈ openings facts -> o.1 = 0.

Lemma spaces_app_take n body :
  match body with [] => True | c :: _ => is_blank c = false end ->
  take_while is_blank (spaces n ++ body) = spaces n /\ drop_while is_blank (spaces n ++ body) = body.
Proof.
  intros Hb. unfold spaces. induction (Z.to_nat n) as [|k [IH1 IH2]]; cbn.
  - destruct body as [|c body]; [done|]. cbn. by rewrite Hb.
  - by rewrite IH1, IH2.
Qed.

Lemma any_spaces g n : g (ch " ") = false -> any g (spaces n) = false.
Proof. intros Hg. unfold spaces, any. induction (Z.to_nat n) as [|k IH]; [done|]. cbn [replicate existsb]. by rewrite Hg. Qed.
Lemma all_spaces g n : g (ch " ") = true -> all g (spaces n) = true.
Proof. intros Hg. unfold spaces, all. induction (Z.to_nat n) as [|k IH]; [done|]. cbn [replicate forallb]. by rewrite Hg. Qed.
Lemma any_app g s t : any g (s ++ t) = any g s || any g t.
Proof. apply existsb_app. Qed.
Lemma all_app g s t : all g (s ++ t) = all g s && all g t.
Proof. apply forallb_app. Qed.

Lemma renamed_pos n : 0 <= n -> 0 <= f n.
Proof. intros Hn. destruct (Z.eq_dec n 0) as [->|]; [lia|]. rewrite <-H0. apply Z.lt_le_incl, Hf. lia. Qed.

Lemma spaces_length n : 0 <= n -> Z.of_nat (length (spaces n)) = n.
Proof. intros Hn. unfold spaces. rewrite length_replicate. lia. Qed.

Definition renamed_scan (s : SubsetScan) : SubsetScan := {|
  keys := keys s; seen := seen s; stack := rename <$> stack s; scalar := f <$> scalar s |}.

Definition renamed_result (r : result SkillError SubsetScan) : result SkillError SubsetScan :=
  match r with Ok s => Ok (renamed_scan s) | Err e => Err e end.

Lemma top_level_renamed s facts trimmed : top_level (renamed_scan s) facts trimmed = top_level s facts trimmed.
Proof. done. Qed.

Lemma scan_node_renamed s n trimmed :
  0 <= n -> (forall facts o, scan_line trimmed = Ok facts -> o ∈ openings facts -> o.1 = 0) ->
  scan_node (renamed_scan s) (f n) trimmed = renamed_result (scan_node s n trimmed).
Proof.
  intros Hn Hop. unfold scan_node. destruct (scan_line trimmed) as [facts|e] eqn:Hs; [|done].
  cbn [mbind result_bind]. rewrite top_level_renamed.
  destruct (match head_key facts trimmed with Some _ => _ | None => _ end) as [[]|]; [|done]. cbn [mbind result_bind].
  destruct (ensure (negb (block_scalar facts && _)) _) as [[]|]; [|done]. cbn [mbind result_bind].
  assert ((f n =? 0) = (n =? 0)) as -> by (rewrite <-H0 at 1; apply renamed_eq).
  cbn [keys seen renamed_scan].
  destruct (if n =? 0 then _ else _) as [[ks sn]|]; [|done]. cbn [mbind result_bind].
  assert ((fun '(offset, q) => (f n + offset, q)) <$> openings facts =
          rename <$> ((fun '(offset, q) => (n + offset, q)) <$> openings facts)) as Ho.
  { rewrite <-list_fmap_compose. apply list_fmap_ext. intros i [off q] Hi%list_elem_of_lookup_2.
    pose proof (Hop facts (off, q) eq_refl Hi) as E. cbn in E |- *. subst off.
    unfold rename. cbn. by rewrite !Z.add_0_r. }
  rewrite Ho. cbn [stack renamed_scan]. rewrite levels_rename, length_fmap.
  destruct (ensure _ _) as [[]|]; [|done]. cbn. unfold renamed_scan. cbn. by destruct (block_scalar facts).
Qed.

Lemma scan_raw_line_renamed s l l' :
  reindented l l' -> scan_raw_line (renamed_scan s) l' = renamed_result (scan_raw_line s l).
Proof.
  intros (n & body & Hn & Hl & Hl' & Hb & Hop). unfold scan_raw_line. rewrite Hl, Hl'.
  destruct (spaces_app_take n body Hb) as [-> ->]. destruct (spaces_app_take (f n) body Hb) as [-> ->].
  rewrite !any_app, !any_spaces by done.
  cbn [orb]. destruct (ensure (negb (any refused_char body)) _) as [[]|]; [|done]. cbn [mbind result_bind].
  rewrite !spaces_length by (done || by apply renamed_pos).
  assert (forall k, is_empty_line (spaces k ++ body) = is_empty_line body) as He.
  { intros k. unfold is_empty_line. by rewrite all_app, all_spaces. }
  rewrite !He. cbn [scalar renamed_scan].
  assert (match f <$> scalar s with Some header => is_empty_line body || (header <? f n) | None => false end =
          match scalar s with Some header => is_empty_line body || (header <? n) | None => false end) as ->.
  { destruct (scalar s); [|done]. cbn. by rewrite renamed_lt. }
  destruct (match scalar s with Some _ => _ | None => false end); [done|].
  unfold contains. rewrite !any_spaces by done. cbn [ensure negb mbind result_bind].
  destruct (is_nil _ || _); [done|]. destruct (ensure (negb (_ || starts_with _ _)) _) as [[]|]; [|done]. cbn [mbind result_bind].
  by apply (scan_node_renamed {| keys := keys s; seen := seen s; stack := stack s; scalar := None |}).
Qed.

Lemma scan_lines_renamed ls ls' s :
  Forall2 reindented ls ls' ->
  fold_res scan_raw_line (renamed_scan s) ls' = renamed_result (fold_res scan_raw_line s ls).
Proof.
  intros HF. revert s. induction HF as [|l l' ls ls' Hl HF IH]; intros s; [done|].
  cbn [fold_res]. rewrite (scan_raw_line_renamed _ _ _ Hl). destruct (scan_raw_line s l) as [s'|]; [|done].
  apply IH.
Qed.
End Renaming.

(** Indenting the lines of a document anew, by any
    strictly increasing change of columns that keeps column zero, does not change
    the scan's answer. *)
Theorem scan_ignores_indentation (f : Z -> Z) (front front' : str) :
  (forall a b, a < b -> f a < f b) -> f 0 = 0 ->
  Forall2 (reindented f) (lines front) (lines front') ->
  scan_subset front' = scan_subset front.
Proof.
  intros Hf H0 HF. unfold scan_subset.
  pose proof (scan_lines_renamed f Hf H0 _ _ subset_start HF) as E. change (renamed_scan f subset_start) with subset_start in E.
  rewrite E. by destruct (fold_res scan_raw_line subset_start (lines front)).
Qed.

(** ** What a scanned line says *)

Definition turn_state (t : Turn) : LineScan := match t with Advance s | AdvanceTwo s | Break s => s end.

(** An invariant of the locals that every turn keeps holds at the end. *)
Lemma scan_chars_inv (full : str) (I : LineScan -> Prop) :
  (forall pre c rest prev s turn, full = pre ++ c :: rest -> I s ->
     scan_turn s prev (str_len pre) c rest = Ok turn -> I (turn_state turn)) ->
  forall l pre prev s s', full = pre ++ l -> I s ->
    scan_chars s prev (str_len pre) l = Ok s' -> I s'.
Proof.
  intros Hstep l. remember (length l) as n eqn:Hn. revert l Hn. induction n as [n IH] using lt_wf_ind.
  intros [|c rest] -> pre prev s s' Hfull HI; cbn [scan_chars]; [by intros [= <-]|].
  destruct (scan_turn _ _ _ _ _) as [turn|] eqn:Ht; [|done]. cbn [mbind result_bind].
  pose proof (Hstep _ _ _ _ _ _ Hfull HI Ht) as HI'. destruct turn as [s1|s1|s1]; cbn [turn_state] in HI'.
  - intros Hsc. apply (IH (length rest) ltac:(cbn; lia) rest eq_refl (pre ++ [c]) (Some c) s1);
      [by rewrite Hfull, <-app_assoc|done|]. rewrite str_len_app. cbn. by rewrite Z.add_0_r.
  - destruct rest as [|c2 rest]; [by intros [= <-]|]. intros Hsc.
    apply (IH (length rest) ltac:(cbn; lia) rest eq_refl (pre ++ [c; c2]) (Some c2) s1);
      [by rewrite Hfull, <-app_assoc|done|]. rewrite str_len_app. cbn. by rewrite Z.add_0_r, Z.add_assoc.
  - by intros [= <-].
Qed.

Ltac turn_cases H :=
  unfold scan_turn in H; cbn zeta in H;
  repeat match type of H with
  | (match ?x with _ => _ end) = _ => destruct x eqn:?; try discriminate H
  | (if ?x then _ else _) = _ => destruct x eqn:?; try discriminate H
  | (mbind _ _) = _ => apply bind_ok_iff in H as (? & ? & H)
  end.

(** Decide comparisons of character constants. *)
Ltac eval_chars :=
  repeat (match goal with
  | |- context [Z.eqb ?x ?y] =>
      let v := eval vm_compute in (Z.eqb x y) in
      match v with true => idtac | false => idtac end; change (Z.eqb x y) with v
  | |- context [is_blank ?x] =>
      let v := eval vm_compute in (is_blank x) in
      match v with true => idtac | false => idtac end; change (is_blank x) with v
  end; cbn [andb orb negb]).

(** The end of the key is the colon of a key terminator. *)
Definition key_at (full : str) (e : Z) : Prop :=
  exists k rest, full = k ++ ch ":" :: rest /\ str_len k = e /\ blank_or_end rest = true.

Lemma structural_key s at_ c rest e :
  key_end (structural s at_ c rest) = Some e -> key_end s = Some e \/
  (key_end s = None /\ e = at_ /\ c = ch ":" /\ blank_or_end rest = true).
Proof.
  unfold structural. destruct (Z.eqb_spec c (ch ":")) as [->|]; [eval_chars|].
  - destruct (blank_or_end rest) eqn:Hb; cbn [orb].
    + cbn. destruct (flow s =? 0); cbn; [|by left]. destruct (key_end s); [by left|]. intros [= <-]. by right.
    + destruct (_ && (0 <? flow s)) eqn:Hf; cbn; [|by left]. apply andb_true_iff in Hf as [_ Hf].
      destruct (Z.eqb_spec (flow s) 0); [lia|]. by left.
  - repeat match goal with |- context [if ?b then _ else _] => destruct b end; cbn; by left.
Qed.

Lemma scan_line_key (trimmed : str) facts e :
  scan_line trimmed = Ok facts -> key_end facts = Some e -> key_at trimmed e.
Proof.
  unfold scan_line. intros (s & Hs & Hr)%bind_ok_iff He.
  assert (forall e, key_end s = Some e -> key_at trimmed e) as HI.
  { refine (scan_chars_inv trimmed (fun s => forall e, key_end s = Some e -> key_at trimmed e) _
              trimmed [] None line_start s eq_refl _ Hs); [|by intros ?].
    intros pre c rest prev s0 turn Hfull HI Ht. turn_cases Ht; injection Ht as <-; cbn; auto.
    all: intros e' He'.
    all: try (apply HI; by destruct (node_start s0)).
    apply structural_key in He' as [He'|(_ & -> & -> & Hb)].
    - apply HI. by destruct (node_start s0).
    - by exists pre, rest. }
  apply bind_ok_iff in Hr as ([] & _ & Hr). apply bind_ok_iff in Hr as ([] & _ & [= <-]). by apply HI.
Qed.

(** ** What is refused where a value begins *)

(** Text that opens no quote, comment or block scalar, and text that moreover
    closes no flow collection. *)
Definition no_escape (c : char) : bool :=
  negb ((c =? single_quote) || (c =? double_quote) || (c =? ch "#") || (c =? ch "|") || (c =? ch ">")).
Definition no_close (c : char) : bool := no_escape c && negb ((c =? ch "]") || (c =? ch "}")).

(** The places where a value begins: the head of the line, after a key, after a
    sequence marker, after the opening of a flow sequence, after a comma in it. *)
Inductive at_value : str -> Prop :=
| at_head : at_value []
| after_key k b : all no_escape k = true -> b <> [] -> all is_blank b = true -> at_value (k ++ ch ":" :: b)
| after_marker p b : at_value p -> b <> [] -> all is_blank b = true -> at_value (p ++ ch "-" :: b)
| after_open p b : at_value p -> all is_blank b = true -> at_value (p ++ ch "[" :: b)
| after_comma p mid b : at_value p -> all no_close mid = true -> all is_blank b = true ->
    at_value (p ++ ch "[" :: mid ++ ch "," :: b).

(** Anchor, alias, tag, flow mapping, merge key, explicit key. *)
Definition refused_node (c : char) (rest : str) : bool :=
  (c =? ch "&") || (c =? ch "*") || (c =? ch "!") || (c =? ch "{")
  || ((c =? ch "<") && match rest with n :: _ => n =? ch "<" | [] => false end)
  || ((c =? ch "?") && blank_or_end rest).

(** Scanning [p] and then [rest] fails, or reaches [rest] in a state with [Q]. *)
Definition reaches (Q : LineScan -> Prop) (s : LineScan) (prev : option char) (at_ : Z) (p rest : str) : Prop :=
  (exists e, scan_chars s prev at_ (p ++ rest) = Err e) \/
  exists s' prev' at', scan_chars s prev at_ (p ++ rest) = scan_chars s' prev' at' rest /\ Q s'.

Lemma reaches_nil (Q : LineScan -> Prop) s prev at_ rest : Q s -> reaches Q s prev at_ [] rest.
Proof. intros HQ. right. by exists s, prev, at_. Qed.

Lemma reaches_app (Q R : LineScan -> Prop) s prev at_ p1 p2 rest :
  reaches Q s prev at_ p1 (p2 ++ rest) ->
  (forall s' prev' at', Q s' -> reaches R s' prev' at' p2 rest) ->
  reaches R s prev at_ (p1 ++ p2) rest.
Proof.
  intros [[e He]|(s' & prev' & at' & Hs & HQ)] H2; unfold reaches; rewrite <-app_assoc.
  - left. by exists e.
  - rewrite Hs. by apply H2.
Qed.

Lemma reaches_one (Q : LineScan -> Prop) s prev at_ c rest :
  (forall turn, scan_turn s prev at_ c rest = Ok turn -> exists s', turn = Advance s' /\ Q s') ->
  reaches Q s prev at_ [c] rest.
Proof.
  intros Ht. unfold reaches. cbn [app scan_chars].
  destruct (scan_turn _ _ _ _ _) as [turn|e]; [|left; by exists e].
  destruct (Ht _ eq_refl) as (s' & -> & HQ). right. by exists s', (Some c), (at_ + len_utf8 c).
Qed.

Lemma reaches_all (f : char -> bool) (Q : LineScan -> Prop) p :
  (forall s prev at_ c rest, f c = true -> Q s -> reaches Q s prev at_ [c] rest) ->
  forall s prev at_ rest, all f p = true -> Q s -> reaches Q s prev at_ p rest.
Proof.
  intros H1. induction p as [|c p IH]; intros s prev at_ rest Hp HQ; [by apply reaches_nil|].
  apply andb_true_iff in Hp as [Hc Hp]. change (c :: p) with ([c] ++ p).
  eapply reaches_app; [by apply H1|]. intros s' prev' at' HQ'. by apply IH.
Qed.

(** Outside a quote, with a flow depth that is a count. *)
Definition plain_state (s : LineScan) : Prop := quote s = None /\ 0 <= flow s.
Definition value_state (s : LineScan) : Prop := plain_state s /\ node_start s = true.
Definition flow_state (s : LineScan) : Prop := quote s = None /\ 0 < flow s.

Lemma blank_keeps (Q : LineScan -> Prop) s prev at_ c rest :
  (forall s, Q s -> quote s = None) -> is_blank c = true -> Q s -> reaches Q s prev at_ [c] rest.
Proof.
  intros HQ0 Hc HQ. apply reaches_one. intros turn Ht. unfold scan_turn in Ht. rewrite (HQ0 _ HQ) in Ht.
  assert (c = 32 \/ c = 9) as [->| ->]; [unfold is_blank in Hc; lia| |]; cbn in Ht; injection Ht as <-; by exists s.
Qed.

(** A turn outside a quote on a character that opens nothing. *)
Lemma plain_turn s prev at_ c rest turn :
  quote s = None -> no_escape c = true -> scan_turn s prev at_ c rest = Ok turn ->
  (is_blank c = true /\ turn = Advance s) \/
  exists closed, turn = Advance (end_char closed
    (structural (if node_start s then set_node_offset at_ s else s) at_ c rest)) /\
    (0 < flow s -> c <> ch "[").
Proof.
  intros Hq Hn Ht. unfold no_escape in Hn. apply negb_true_iff in Hn.
  repeat (apply orb_false_iff in Hn as [Hn ?]). unfold scan_turn in Ht. rewrite Hq, Hn in Ht.
  rewrite H2, H1 in Ht. cbn [orb andb] in Ht. destruct (is_blank c) eqn:Hb; [injection Ht as <-; by left|].
  cbn zeta in Ht. apply bind_ok_iff in Ht as (header & Hh & Ht). destruct header.
  { exfalso. destruct (between_tokens s); [|done]. unfold indicator in Hh. rewrite H, H0 in Hh.
    repeat match type of Hh with (if ?b then _ else _) = _ => destruct b; try done end. }
  apply bind_ok_iff in Ht as ([] & _ & Ht). apply bind_ok_iff in Ht as ([] & Hfl & [= <-]). right. eexists. split; [done|].
  intros Hf ->. apply ensure_ok_iff in Hfl.
  assert (flow (if node_start s then set_node_offset at_ s else s) = flow s) as E by (by destruct (node_start s)).
  rewrite E in Hfl. apply Z.ltb_lt in Hf. rewrite Hf in Hfl. by vm_compute in Hfl.
Qed.

Lemma structural_quote s at_ c rest : quote (structural s at_ c rest) = quote s.
Proof.
  unfold structural. repeat match goal with |- context [if ?b then _ else _] => destruct b end; done.
Qed.

Lemma structural_flow s at_ c rest : 0 <= flow s -> 0 <= flow (structural s at_ c rest).
Proof.
  intros Hf. unfold structural.
  repeat match goal with |- context [if ?b then _ else _] => destruct b end; cbn; unfold saturating_sub; lia.
Qed.

(** Only a closing bracket lowers the flow depth. *)
Lemma structural_flow_open s at_ c rest :
  (c =? ch "]") || (c =? ch "}") = false -> flow s <= flow (structural s at_ c rest).
Proof.
  intros Hc. unfold structural. rewrite Hc.
  repeat match goal with |- context [if ?b then _ else _] => destruct b end; cbn; lia.
Qed.

Lemma node_offset_same s at_ : quote (if node_start s then set_node_offset at_ s else s) = quote s
  /\ flow (if node_start s then set_node_offset at_ s else s) = flow s
  /\ node_start (if node_start s then set_node_offset at_ s else s) = node_start s
  /\ after_quoted (if node_start s then set_node_offset at_ s else s) = after_quoted s.
Proof. by destruct (node_start s) eqn:?. Qed.

Lemma no_escape_keeps s prev at_ c rest :
  no_escape c = true -> plain_state s -> reaches plain_state s prev at_ [c] rest.
Proof.
  intros Hc [Hq Hf]. apply reaches_one. intros turn Ht. apply plain_turn in Ht as [[_ ->]|(cl & -> & _)]; [| |done..].
  - by exists s.
  - eexists. split; [done|]. split; cbn; [rewrite structural_quote; by rewrite (proj1 (node_offset_same _ _))|].
    apply structural_flow. by rewrite (proj1 (proj2 (node_offset_same _ _))).
Qed.

Lemma no_close_keeps s prev at_ c rest :
  no_close c = true -> flow_state s -> reaches flow_state s prev at_ [c] rest.
Proof.
  intros [Hc Hcl]%andb_true_iff [Hq Hf]. apply negb_true_iff in Hcl. apply reaches_one. intros turn Ht.
  apply plain_turn in Ht as [[_ ->]|(cl & -> & _)]; [| |done..]; [by exists s|].
  eexists. split; [done|]. split; cbn; [rewrite structural_quote; by rewrite (proj1 (node_offset_same _ _))|].
  eapply Z.lt_le_trans, structural_flow_open; [|done]. by rewrite (proj1 (proj2 (node_offset_same _ _))).
Qed.

(** The four characters after which a value begins. *)
Lemma turn_to_value (Q : LineScan -> Prop) s prev at_ c rest :
  quote s = None -> no_escape c = true -> is_blank c = false ->
  (forall s1, quote s1 = None -> flow s1 = flow s -> node_start s1 = node_start s ->
     forall closed, Q (end_char closed (structural s1 at_ c rest))) ->
  reaches Q s prev at_ [c] rest.
Proof.
  intros Hq Hn Hb HQ. apply reaches_one. intros turn Ht.
  apply plain_turn in Ht as [[Hb' _]|(cl & -> & Hfl)]; [congruence| |done..].
  eexists. split; [done|]. destruct (node_offset_same s at_) as (E1 & E2 & E3 & _). by apply HQ; rewrite ?E1.
Qed.

Lemma blank_head b rest : b <> [] -> all is_blank b = true -> blank_or_end (b ++ rest) = true.
Proof. destruct b as [|c b]; [done|]. intros _ [Hc _]%andb_true_iff. done. Qed.

Lemma key_colon s prev at_ b rest :
  plain_state s -> b <> [] -> all is_blank b = true -> reaches value_state s prev at_ [ch ":"] (b ++ rest).
Proof.
  intros [Hq Hf] Hne Hb. apply turn_to_value; [done..|]. intros s1 E1 E2 E3 cl. unfold structural. eval_chars.
  rewrite (blank_head _ _ Hne Hb). cbn [orb]. split; [split|]; cbn.
  - by destruct (flow s1 =? 0).
  - destruct (flow s1 =? 0); cbn; lia.
  - done.
Qed.

Lemma marker_dash s prev at_ b rest :
  value_state s -> b <> [] -> all is_blank b = true -> reaches value_state s prev at_ [ch "-"] (b ++ rest).
Proof.
  intros [[Hq Hf] Hn] Hne Hb. apply turn_to_value; [done..|]. intros s1 E1 E2 E3 cl. unfold structural. eval_chars.
  rewrite E3, Hn, (blank_head _ _ Hne Hb). cbn [andb]. split; [split|]; cbn; [done|lia|congruence].
Qed.

Definition opened_state (s : LineScan) : Prop := value_state s /\ 0 < flow s.

Lemma flow_open s prev at_ rest : value_state s -> reaches opened_state s prev at_ [ch "["] rest.
Proof.
  intros [[Hq Hf] Hn]. apply turn_to_value; [done..|]. intros s1 E1 E2 E3 cl. unfold structural. eval_chars.
  rewrite E3, Hn. repeat split; cbn; [done|lia|lia].
Qed.

Lemma flow_comma s prev at_ rest : flow_state s -> reaches value_state s prev at_ [ch ","] rest.
Proof.
  intros [Hq Hf]. apply turn_to_value; [done..|]. intros s1 E1 E2 E3 cl. unfold structural. eval_chars.
  repeat split; cbn; [done|lia|]. apply Z.ltb_lt. lia.
Qed.

Lemma blanks_keep (Q : LineScan -> Prop) b s prev at_ rest :
  (forall s, Q s -> quote s = None) -> all is_blank b = true -> Q s -> reaches Q s prev at_ b rest.
Proof. intros HQ. apply reaches_all. intros. by apply blank_keeps. Qed.

Lemma at_value_reaches p rest : at_value p -> reaches value_state line_start None 0 p rest.
Proof.
  assert (forall s, value_state s -> quote s = None) as Hv by (by intros s [[? _] _]).
  intros Hp. revert rest. induction Hp as [|k b Hk Hne Hb|p b _ IH Hne Hb|p b _ IH Hb|p mid b _ IH Hm Hb]; intros rest.
  - by apply reaches_nil.
  - eapply reaches_app; [eapply (reaches_all no_escape plain_state); [intros; by apply no_escape_keeps|done|done]|].
    intros s1 p1 a1 H1. change (ch ":" :: b) with ([ch ":"] ++ b). eapply reaches_app; [by apply key_colon|].
    intros s2 p2 a2 H2. by apply blanks_keep.
  - eapply reaches_app; [apply IH|]. intros s1 p1 a1 H1. change (ch "-" :: b) with ([ch "-"] ++ b).
    eapply reaches_app; [by apply marker_dash|]. intros s2 p2 a2 H2. by apply blanks_keep.
  - eapply reaches_app; [apply IH|]. intros s1 p1 a1 H1. change (ch "[" :: b) with ([ch "["] ++ b).
    eapply reaches_app; [by apply flow_open|]. intros s2 p2 a2 [H2 _]. by apply blanks_keep.
  - eapply reaches_app; [apply IH|]. intros s1 p1 a1 H1. change (ch "[" :: mid ++ ch "," :: b) with ([ch "["] ++ mid ++ ch "," :: b).
    eapply reaches_app; [by apply flow_open|]. intros s2 p2 a2 [[[H2 _] _] H2'].
    eapply reaches_app; [eapply (reaches_all no_close flow_state); [intros; by apply no_close_keeps|done|by split]|].
    intros s3 p3 a3 H3. change (ch "," :: b) with ([ch ","] ++ b). eapply reaches_app; [by apply flow_comma|].
    intros s4 p4 a4 H4. by apply blanks_keep.
Qed.

Lemma scan_line_refuses (p : str) (c : char) (rest : str) :
  at_value p -> refused_node c rest = true -> exists e, scan_line (p ++ c :: rest) = Err e.
Proof.
  intros Hp Hc. unfold scan_line.
  destruct (at_value_reaches p (c :: rest) Hp) as [[e ->]|(s & prev & at' & -> & [Hq Hf] & Hn)]; [by exists e|].
  cbn [scan_chars]. assert (exists e, scan_turn s prev at' c rest = Err e) as [e ->]; [|by exists e].
  unfold scan_turn. rewrite Hq. unfold between_tokens. rewrite Hn. cbn zeta. cbn [orb].
  unfold refused_node in Hc. repeat setoid_rewrite orb_true_iff in Hc.
  destruct Hc as [[[[[Hc|Hc]|Hc]|Hc]|[Hc Hr]%andb_true_iff]|[Hc Hr]%andb_true_iff];
    apply Z.eqb_eq in Hc as ->; unfold indicator; eval_chars; cbn [mbind result_bind]; try rewrite Hr; eval_chars; try by eexists.
  cbn. rewrite orb_true_r. by eexists.
Qed.

(** *** Lines at column zero *)

(** Such a line is never inside a block scalar. *)
Definition at_column_zero (line : str) : Prop := match line with [] => False | c :: _ => is_whitespace c = false end.

Lemma not_blank c : is_whitespace c = false -> is_blank c = false.
Proof. unfold is_whitespace, is_blank. intros H. repeat (apply orb_false_iff in H as [H ?]). lia. Qed.

Lemma scan_column_zero s raw line :
  strip_cr raw = line -> at_column_zero line -> 0 <= default 0 (scalar s) ->
  scan_raw_line s raw =
  (_ ← ensure (negb (any refused_char line)) ControlCharacter;
   let s := {| keys := keys s; seen := seen s; stack := stack s; scalar := None |} in
   let trimmed := trim_end_matches is_blank line in
   if starts_with (text "#") trimmed then Ok s
   else
     _ ← ensure (negb (bool_decide (trimmed = text "---") || bool_decide (trimmed = text "...")
                       || starts_with (text "%") trimmed)) (UnsupportedYaml "document marker or directive");
     scan_node s 0 trimmed).
Proof.
  intros Hl Hz Hs. unfold scan_raw_line. rewrite Hl. destruct line as [|c line]; [done|]. cbn in Hz.
  destruct (ensure (negb (any refused_char (c :: line))) ControlCharacter) as [[]|]; [|done]. cbn [mbind result_bind].
  cbn [take_while drop_while]. rewrite (not_blank _ Hz). cbn [length contains].
  assert (match scalar s with Some header => is_empty_line (c :: line) || (header <? Z.of_nat 0) | None => false end = false) as ->.
  { destruct (scalar s) as [h|]; [|done]. unfold is_empty_line. cbn. rewrite Hz. cbn in Hs |- *. apply Z.ltb_ge. lia. }
  cbn [contains any existsb ensure negb mbind result_bind].
  pose proof (trim_end_app is_blank [] c line (not_blank _ Hz)) as Ht. cbn [app] in Ht. rewrite Ht. done.
Qed.

(** The header of an open block scalar is a column. *)
Definition scalar_ok (s : SubsetScan) : Prop := 0 <= default 0 (scalar s).

Lemma scan_node_scalar s indent trimmed s' :
  0 <= indent -> scalar_ok s -> scan_node s indent trimmed = Ok s' -> scalar_ok s'.
Proof.
  intros Hi Hs Hr. unfold scan_node in Hr.
  repeat match type of Hr with mbind _ _ = Ok _ => apply bind_ok_iff in Hr as (? & _ & Hr) end.
  match type of Hr with (let '(_, _) := ?x in _) = _ => destruct x as [ks sn] end. cbn zeta in Hr.
  apply bind_ok_iff in Hr as ([] & _ & [= <-]). unfold scalar_ok. cbn. by destruct (block_scalar _).
Qed.

Lemma scan_raw_line_scalar s raw s' : scalar_ok s -> scan_raw_line s raw = Ok s' -> scalar_ok s'.
Proof.
  intros Hs. unfold scan_raw_line. cbn zeta. intros ([] & _ & Hr)%bind_ok_iff.
  destruct (match scalar s with Some _ => _ | None => _ end); [by injection Hr as <-|].
  apply bind_ok_iff in Hr as ([] & _ & Hr). destruct (is_nil _ || _); [by injection Hr as <-|].
  apply bind_ok_iff in Hr as ([] & _ & Hr). eapply scan_node_scalar; [| |exact Hr]; [lia|done].
Qed.

(** A line that fails from every state fails the document. *)
Lemma scan_fails front raw :
  raw ∈ lines front -> (forall s, scalar_ok s -> exists e, scan_raw_line s raw = Err e) ->
  exists e, scan_subset front = Err e.
Proof.
  intros (pre & post & Hl)%list_elem_of_split Hf. unfold scan_subset. rewrite Hl, fold_res_app.
  destruct (fold_res scan_raw_line subset_start pre) as [s|e] eqn:Hp; [|by exists e]. cbn [mbind result_bind fold_res].
  assert (scalar_ok s) as Hs.
  { refine (fold_res_ind scalar_ok _ _ _ _ _ _ Hp); [intros s0 x s1 _; apply scan_raw_line_scalar|unfold scalar_ok; cbn; lia]. }
  destruct (Hf s Hs) as [e ->]. by exists e.
Qed.

Lemma at_value_head p c rest : at_value p -> refused_node c rest = true ->
  match p ++ c :: rest with x :: _ => x <> ch "#" | [] => True end.
Proof.
  intros Hp Hc. assert (c <> ch "#") as Hc' by (intros ->; by vm_compute in Hc).
  induction Hp as [|k b Hk|p b _ IH|p b _ IH|p mid b _ IH]; [done|..].
  - destruct k as [|x k]; [done|]. apply andb_true_iff in Hk as [Hx _]. by intros ->.
  - destruct p; [done|]. done.
  - destruct p; [done|]. done.
  - destruct p; [done|]. done.
Qed.

(** An anchor, an alias, a tag, a flow mapping, a merge key
    or an explicit key where a value begins is refused: at the head of a line,
    behind a key, behind sequence markers, at the opening of a flow sequence and
    behind a comma in one (text before it without quotes or comments); and so is
    every frontmatter with such a line at column zero. *)
Theorem scan_refuses_indicators (p : str) (c : char) (rest : str) :
  at_value p -> refused_node c rest = true ->
  (exists e, scan_line (p ++ c :: rest) = Err e) /\
  forall front raw, raw ∈ lines front -> strip_cr raw = p ++ c :: rest -> at_column_zero (p ++ c :: rest) ->
    exists e, scan_subset front = Err e.
Proof.
  intros Hp Hc. split; [by apply scan_line_refuses|]. intros front raw Hin Hraw Hz. eapply scan_fails; [done|].
  intros s Hs. rewrite (scan_column_zero _ _ _ Hraw Hz Hs). destruct (ensure _ _) as [[]|e]; [|by exists e].
  cbn [mbind result_bind]. assert (is_blank c = false /\ refused_node c (trim_end_matches is_blank rest) = true) as [Hb Hc'].
  { apply orb_true_iff in Hc as [Hc|[Hq Hr]%andb_true_iff].
    - repeat (apply orb_true_iff in Hc as [Hc|Hc]); try (apply Z.eqb_eq in Hc as ->; done).
      apply andb_true_iff in Hc as [Hl Hr]. apply Z.eqb_eq in Hl as ->. split; [done|].
      destruct rest as [|n rest]; [done|]. apply Z.eqb_eq in Hr as ->.
      pose proof (trim_end_app is_blank [] (ch "<") rest eq_refl) as Ht. cbn [app] in Ht. by rewrite Ht.
    - apply Z.eqb_eq in Hq as ->. split; [done|]. apply orb_true_iff. right. apply andb_true_iff. split; [done|].
      pose proof (trim_end_blank_head is_blank rest) as Ht. unfold blank_or_end in *.
      destruct (trim_end_matches is_blank rest); [done|]. apply Ht. by destruct rest. }
  rewrite trim_end_app by done.
  pose proof (at_value_head p c (trim_end_matches is_blank rest) Hp Hc') as Hh.
  assert (starts_with (text "#") (p ++ c :: trim_end_matches is_blank rest) = false) as ->.
  { destruct (p ++ c :: trim_end_matches is_blank rest) as [|x l]; [done|]. unfold starts_with. cbn [text strip_prefix].
    destruct (Z.eqb_spec (ch "#") x) as [<-|]; [by destruct Hh|done]. }
  destruct (ensure _ _) as [[]|e]; [|by exists e]. cbn [mbind result_bind]. unfold scan_node.
  destruct (scan_line_refuses _ _ _ Hp Hc') as [e ->]. by exists e.
Qed.

(** ** The keys of the document *)

(** A head key of a line: the text before its first key terminator. *)
Lemma head_key_spec trimmed facts k :
  scan_line trimmed = Ok facts -> head_key facts trimmed = Some k ->
  exists rest, trimmed = k ++ ch ":" :: rest /\ blank_or_end rest = true.
Proof.
  intros Hs. unfold head_key. destruct (key_end facts) as [e|] eqn:He; [|done]. cbn. intros Hg.
  destruct (scan_line_key _ _ _ Hs He) as (k' & rest & Heq & Hlen & Hb). exists rest. split; [|done].
  rewrite Heq, <-Hlen in Hg. rewrite get_to_app in Hg. by injection Hg as <-.
Qed.

(** A top-level key as the document has it. *)
Definition key_line (front k : str) : Prop :=
  exists raw rest, raw ∈ lines front /\ strip_cr raw = k ++ ch ":" :: rest /\ blank_or_end rest = true.

Definition keys_ok (front : str) (s : SubsetScan) : Prop :=
  NoDup (keys s) /\ seen s = list_to_set (keys s) /\
  forall k, k ∈ keys s -> is_plain_key k = true /\ yaml11_ambiguous_key k = false /\ key_line front k.

Lemma top_level_ok s facts trimmed ks sn :
  top_level s facts trimmed = Ok (ks, sn) ->
  (ks = keys s /\ sn = seen s) \/
  exists k, head_key facts trimmed = Some k /\ is_plain_key k = true /\ k ∉ seen s /\
    ks = keys s ++ [k] /\ sn = {[k]} ∪ seen s.
Proof.
  unfold top_level. destruct (_ <? _).
  - intros ([] & _ & [= <- <-])%bind_ok_iff. by left.
  - intros (k & Hk & Hr)%bind_ok_iff. apply bind_ok_iff in Hr as ([] & Hp & Hr).
    apply bind_ok_iff in Hr as ([] & Hn & [= <- <-]). right. exists k. apply ok_or_ok_iff in Hk.
    apply ensure_ok_iff in Hp, Hn. apply bool_decide_eq_true in Hn. done.
Qed.

(** What a line read as YAML leaves. *)
Lemma scan_node_ok s indent trimmed s' :
  scan_node s indent trimmed = Ok s' ->
  exists facts, scan_line trimmed = Ok facts /\
    (forall k, head_key facts trimmed = Some k -> is_plain_key k = true -> yaml11_ambiguous_key k = false) /\
    (if indent =? 0 then top_level s facts trimmed = Ok (keys s', seen s')
     else keys s' = keys s /\ seen s' = seen s).
Proof.
  unfold scan_node. intros (facts & Hf & Hr)%bind_ok_iff. exists facts. split; [done|].
  apply bind_ok_iff in Hr as ([] & Hk & Hr). apply bind_ok_iff in Hr as ([] & _ & Hr).
  apply bind_ok_iff in Hr as ([ks sn] & Ht & Hr). cbn zeta in Hr. apply bind_ok_iff in Hr as ([] & _ & [= <-]).
  split.
  - intros k Hh Hp. rewrite Hh in Hk. apply ensure_ok_iff in Hk. rewrite Hp in Hk. by destruct (yaml11_ambiguous_key k).
  - cbn. destruct (indent =? 0); [done|]. by injection Ht as <- <-.
Qed.

Lemma take_while_nil f s : take_while f s = [] -> drop_while f s = s.
Proof. destruct s as [|c s]; [done|]. cbn. by destruct (f c). Qed.

(** A key terminator survives the trim of the line. *)
Lemma untrim_key line k rest :
  trim_end_matches is_blank line = k ++ ch ":" :: rest -> blank_or_end rest = true ->
  exists rest', line = k ++ ch ":" :: rest' /\ blank_or_end rest' = true.
Proof.
  intros Ht Hb. destruct (trim_end_prefix is_blank line) as (t & Hl & Hbl). rewrite Ht in Hl.
  exists (rest ++ t). rewrite Hl, <-app_assoc. split; [done|].
  destruct rest as [|c rest]; [|done]. cbn. destruct t as [|c t]; [done|]. by apply andb_true_iff in Hbl as [? _].
Qed.

Lemma scan_raw_line_keys front s raw s' :
  raw ∈ lines front -> keys_ok front s -> scan_raw_line s raw = Ok s' -> keys_ok front s'.
Proof.
  intros Hin Hok. unfold scan_raw_line. cbn zeta. intros ([] & _ & Hr)%bind_ok_iff.
  destruct (match scalar s with Some _ => _ | None => _ end); [by injection Hr as <-|].
  apply bind_ok_iff in Hr as ([] & _ & Hr). destruct (is_nil _ || _); [by injection Hr as <-|].
  apply bind_ok_iff in Hr as ([] & _ & Hr). apply scan_node_ok in Hr as (facts & Hf & Ha & Hk).
  destruct (Z.eqb_spec (Z.of_nat (length (take_while is_blank (strip_cr raw)))) 0) as [Hz|_].
  2:{ destruct Hk as [Hk Hs]. unfold keys_ok. by rewrite Hk, Hs. }
  assert (take_while is_blank (strip_cr raw) = []) as Hz' by (destruct (take_while _ _); [done|cbn in Hz; lia]).
  rewrite (take_while_nil _ _ Hz') in *. destruct Hok as (Hnd & Hseen & Hall).
  apply top_level_ok in Hk as [[Hk Hs]|(k & Hh & Hp & Hn & Hk & Hs)]; cbn [keys seen] in *.
  { unfold keys_ok. by rewrite Hk, Hs. }
  rewrite Hseen, elem_of_list_to_set in Hn. unfold keys_ok. rewrite Hk, Hs, Hseen. split_and!.
  - apply NoDup_app. split; [done|]. split; [|apply NoDup_singleton]. set_solver.
  - rewrite list_to_set_app_L. set_solver.
  - intros k' [Hk'|Hk']%elem_of_app; [by apply Hall|]. apply list_elem_of_singleton in Hk' as ->.
    split; [done|]. split; [by apply Ha|].
    destruct (head_key_spec _ _ _ Hf Hh) as (rest & Ht & Hb). destruct (untrim_key _ _ _ Ht Hb) as (rest' & Hl & Hb').
    by exists raw, rest'.
Qed.

Lemma scan_subset_keys front ks : scan_subset front = Ok ks ->
  ks <> [] /\ exists s, fold_res scan_raw_line subset_start (lines front) = Ok s /\ keys s = ks /\ keys_ok front s.
Proof.
  unfold scan_subset. intros (s & Hs & Hr)%bind_ok_iff. apply bind_ok_iff in Hr as ([] & Hn & [= <-]).
  apply ensure_ok_iff in Hn. split; [by destruct (keys s)|]. exists s. split_and!; [done..|].
  refine (fold_res_ind (keys_ok front) _ _ _ _ _ _ Hs).
  - intros s0 x s1. apply scan_raw_line_keys.
  - split; [apply NoDup_nil_2|]. split; [done|]. by intros k Hk%not_elem_of_nil.
Qed.

(** Before the key terminator: nothing is open and no key has been read. *)
Definition fresh_state (s : LineScan) : Prop :=
  quote s = None /\ flow s = 0 /\ key_end s = None /\ sequence_markers s = 0.

Definition plain_char (c : char) : bool :=
  is_ascii_alphanumeric c || (c =? ch "-") || (c =? ch "_") || (c =? ch ".").

Lemma plain_char_not c : plain_char c = true ->
  no_escape c = true /\ is_blank c = false /\ is_whitespace c = false /\
  c <> ch "[" /\ c <> ch "]" /\ c <> ch "}" /\ c <> ch "," /\ c <> ch ":" /\ c <> ch "{" /\ c <> ch "#" /\ c <> ch "%".
Proof.
  unfold plain_char, is_ascii_alphanumeric, is_ascii_digit, is_ascii_lowercase, is_ascii_uppercase, between,
    no_escape, is_blank, is_whitespace, single_quote, double_quote.
  change (ch "-") with 45. change (ch "_") with 95. change (ch ".") with 46. change (ch "#") with 35.
  change (ch "|") with 124. change (ch ">") with 62. change (ch "[") with 91. change (ch "]") with 93.
  change (ch "}") with 125. change (ch ",") with 44. change (ch ":") with 58. change (ch "{") with 123. change (ch "%") with 37.
  intros H. split_and!; lia.
Qed.

(** A turn on a character of a plain key, before the end of the key. *)
Lemma plain_key_turn s prev at_ c n rest :
  plain_char c = true -> is_blank n = false -> fresh_state s ->
  (exists e, scan_turn s prev at_ c (n :: rest) = Err e) \/
  exists s', scan_turn s prev at_ c (n :: rest) = Ok (Advance s') /\ fresh_state s'.
Proof.
  intros Hc Hn (Hq & Hf & Hk & Hs). destruct (plain_char_not c Hc) as (Hne & Hb & _ & H1 & H2 & H3 & H4 & H5 & H6 & _).
  destruct (scan_turn s prev at_ c (n :: rest)) as [turn|e] eqn:Ht; [|left; by exists e]. right.
  apply plain_turn in Ht as [[Hb' _]|(cl & -> & _)]; [congruence| |done..].
  eexists. split; [done|]. destruct (node_offset_same s at_) as (E1 & E2 & _).
  set (s1 := if node_start s then set_node_offset at_ s else s) in *.
  assert (key_end s1 = None) as E5 by (by unfold s1; destruct (node_start s)).
  assert (sequence_markers s1 = 0) as E6 by (by unfold s1; destruct (node_start s)).
  unfold fresh_state, structural, blank_or_end. rewrite Hn.
  rewrite (proj2 (Z.eqb_neq c (ch "["))), (proj2 (Z.eqb_neq c (ch "]"))), (proj2 (Z.eqb_neq c (ch "}"))),
    (proj2 (Z.eqb_neq c (ch ","))), (proj2 (Z.eqb_neq c (ch ":"))) by done.
  cbn [andb orb]. rewrite andb_false_r. destruct (c =? ch "-"); cbn; split_and!; congruence.
Qed.

Lemma scan_plain_key k rest s prev at_ :
  all plain_char k = true -> is_blank (ch ":") = false -> fresh_state s ->
  (exists e, scan_chars s prev at_ (k ++ ch ":" :: rest) = Err e) \/
  exists s' prev', scan_chars s prev at_ (k ++ ch ":" :: rest) = scan_chars s' prev' (at_ + str_len k) (ch ":" :: rest)
    /\ fresh_state s'.
Proof.
  intros Hk Hcol. revert s prev at_. induction k as [|c k IH]; intros s prev at_ Hs.
  { right. exists s, prev. cbn [app str_len foldr]. by rewrite Z.add_0_r. }
  apply andb_true_iff in Hk as [Hc Hk]. specialize (IH Hk). cbn [app].
  assert (exists n tl, k ++ ch ":" :: rest = n :: tl /\ is_blank n = false) as (n & tl & Heq & Hn).
  { destruct k as [|n k]; [by exists (ch ":"), rest|]. apply andb_true_iff in Hk as [Hn _].
    exists n, (k ++ ch ":" :: rest). split; [done|]. by apply plain_char_not. }
  cbn [scan_chars]. rewrite Heq. destruct (plain_key_turn s prev at_ c n tl Hc Hn Hs) as [[e ->]|(s' & -> & Hs')]; [left; by exists e|].
  cbn [mbind result_bind]. rewrite <-Heq. destruct (IH s' (Some c) (at_ + len_utf8 c) Hs') as [H|(s2 & p2 & H2 & Hf2)]; [by left|].
  right. exists s2, p2. rewrite H2. split; [|done]. change (str_len (c :: k)) with (len_utf8 c + str_len k). by rewrite Z.add_assoc.
Qed.

(** After it: the key stays, and without a dash no marker is counted. *)
Definition after_state (e : Z) (s : LineScan) : Prop := key_end s = Some e /\ sequence_markers s = 0.

Lemma structural_after e s at_ c rest : c <> ch "-" -> after_state e s -> after_state e (structural s at_ c rest).
Proof.
  intros Hc [Hk Hs]. unfold structural. rewrite (proj2 (Z.eqb_neq c (ch "-")) Hc).
  repeat match goal with |- context [if ?b then _ else _] => destruct b end; split; cbn; rewrite ?Hk; done.
Qed.

Lemma turn_after e s prev at_ c rest turn :
  c <> ch "-" -> after_state e s -> scan_turn s prev at_ c rest = Ok turn -> after_state e (turn_state turn).
Proof.
  intros Hc Hs Ht. turn_cases Ht; injection Ht as <-; cbn [turn_state]; try done.
  - by destruct (node_start s).
  - apply structural_after; [done|]. by destruct (node_start s).
Qed.

Lemma scan_after e l : contains (ch "-") l = false -> forall s prev at_ s',
  after_state e s -> scan_chars s prev at_ l = Ok s' -> after_state e s'.
Proof.
  remember (length l) as n eqn:Hn. revert l Hn. induction n as [n IH] using lt_wf_ind.
  intros [|c rest] -> Hl s prev at_ s' Hs; cbn [scan_chars]; [by intros [= <-]|].
  unfold contains, any in Hl. cbn [existsb] in Hl. apply orb_false_iff in Hl as [Hc Hl].
  assert (c <> ch "-") as Hc' by (intros ->; by rewrite Z.eqb_refl in Hc).
  destruct (scan_turn _ _ _ _ _) as [turn|] eqn:Ht; [|done]. cbn [mbind result_bind].
  apply (turn_after e) in Ht; [|done..]. destruct turn as [s1|s1|s1]; cbn [turn_state] in Ht.
  - by apply (IH (length rest) ltac:(cbn; lia)).
  - destruct rest as [|c2 rest]; [by intros [= <-]|]. cbn [existsb] in Hl. apply orb_false_iff in Hl as [_ Hl].
    by apply (IH (length rest) ltac:(cbn; lia)).
  - by intros [= <-].
Qed.

(** A line that begins with a plain key, read as such. *)
Lemma scan_key_line k rest facts :
  all plain_char k = true -> blank_or_end rest = true -> contains (ch "-") rest = false ->
  scan_line (k ++ ch ":" :: rest) = Ok facts -> head_key facts (k ++ ch ":" :: rest) = Some k /\ sequence_markers facts = 0.
Proof.
  intros Hk Hb Hd. unfold scan_line. intros (s & Hs & Hr)%bind_ok_iff.
  apply bind_ok_iff in Hr as ([] & _ & Hr). apply bind_ok_iff in Hr as ([] & _ & [= <-]).
  destruct (scan_plain_key k rest line_start None 0 Hk eq_refl) as [[e He]|(s1 & p1 & H1 & Hq & Hf & He & Hm)];
    [done|congruence|].
  rewrite H1 in Hs. cbn [scan_chars] in Hs. destruct (scan_turn _ _ _ _ _) as [turn|] eqn:Ht; [|done].
  apply plain_turn in Ht as [[Hb' _]|(cl & -> & _)]; [done| |done..]. cbn [mbind result_bind] in Hs.
  assert (after_state (str_len k) s) as [E1 E2]; [|unfold head_key; rewrite E1; cbn; by rewrite get_to_app].
  eapply scan_after; [exact Hd| |exact Hs].
  set (s2 := if node_start s1 then _ else _).
  assert (flow s2 = 0 /\ key_end s2 = None /\ sequence_markers s2 = 0) as (F1 & F2 & F3) by (by unfold s2; destruct (node_start s1)).
  unfold structural, after_state. eval_chars. rewrite Hb, F1. cbn. by rewrite F2.
Qed.

(** The keys only grow. *)
Lemma scan_raw_line_grows s raw s' : scan_raw_line s raw = Ok s' -> keys s ⊆ keys s'.
Proof.
  unfold scan_raw_line. cbn zeta. intros ([] & _ & Hr)%bind_ok_iff.
  destruct (match scalar s with Some _ => _ | None => _ end); [by injection Hr as <-|].
  apply bind_ok_iff in Hr as ([] & _ & Hr). destruct (is_nil _ || _); [by injection Hr as <-|].
  apply bind_ok_iff in Hr as ([] & _ & Hr). apply scan_node_ok in Hr as (facts & _ & _ & Hk).
  destruct (_ =? 0); [|by destruct Hk as [-> _]].
  apply top_level_ok in Hk as [[-> _]|(k & _ & _ & _ & -> & _)]; [done|]. cbn. intros x Hx. apply elem_of_app. by left.
Qed.

(** The key of a column-zero line joins the keys. *)
Lemma column_zero_key s raw k rest s' :
  scalar_ok s -> strip_cr raw = k ++ ch ":" :: rest -> is_plain_key k = true -> blank_or_end rest = true ->
  contains (ch "-") rest = false -> scan_raw_line s raw = Ok s' -> k ∈ keys s'.
Proof.
  intros Hs Hraw Hp Hb Hd. pose proof Hp as [Hk1 Hk2]%andb_true_iff.
  change (all plain_char k = true) in Hk2.
  assert (at_column_zero (k ++ ch ":" :: rest)) as Hz.
  { destruct k as [|c k]; [done|]. apply andb_true_iff in Hk2 as [Hc _]. by apply plain_char_not. }
  rewrite (scan_column_zero _ _ _ Hraw Hz Hs). intros ([] & _ & Hr)%bind_ok_iff. cbn zeta in Hr.
  rewrite trim_end_app in Hr by done. set (rest' := trim_end_matches is_blank rest) in *.
  assert (blank_or_end rest' = true) as Hb'.
  { pose proof (trim_end_blank_head is_blank rest) as Ht. fold rest' in Ht. unfold blank_or_end in *.
    destruct rest'; [done|]. apply Ht. by destruct rest. }
  assert (contains (ch "-") rest' = false) as Hd'.
  { destruct (trim_end_prefix is_blank rest) as (t & Ht & _). fold rest' in Ht. rewrite Ht in Hd.
    unfold contains in *. rewrite any_app in Hd. by apply orb_false_iff in Hd as [? _]. }
  assert (starts_with (text "#") (k ++ ch ":" :: rest') = false) as Hh.
  { destruct k as [|c k]; [done|]. apply andb_true_iff in Hk2 as [Hc _].
    apply plain_char_not in Hc as (_ & _ & _ & _ & _ & _ & _ & _ & _ & Hc & _).
    unfold starts_with. cbn [app text strip_prefix]. by rewrite (proj2 (Z.eqb_neq (ch "#") c)). }
  rewrite Hh in Hr. apply bind_ok_iff in Hr as ([] & _ & Hr).
  apply scan_node_ok in Hr as (facts & Hf & _ & Hk). cbn in Hk.
  destruct (scan_key_line _ _ _ Hk2 Hb' Hd' Hf) as [Hh' Hm].
  unfold top_level in Hk. rewrite Hm, Hh' in Hk. cbn in Hk. rewrite Hp in Hk. cbn in Hk.
  destruct (ensure _ _) as [[]|]; [|done]. injection Hk as Hk _. rewrite <-Hk. apply elem_of_app. right. by left.
Qed.

(** ** The words of YAML 1.1 *)

(** A word in lower case, with a capital, in capitals. *)
Definition ascii_upper (c : char) : char := if (97 <=? c) && (c <=? 122) then c - 32 else c.
Definition casings (w : str) : list str :=
  [w; match w with c :: w' => ascii_upper c :: w' | [] => [] end; ascii_upper <$> w].

(** A digit of a number, or the separator. *)
Definition separated (digit : char -> bool) (body : str) : Prop :=
  Forall (fun c => digit c = true \/ c = ch "_") body.

(** The plain keys that the 1.1 resolution makes a boolean, a number or a date
    and the 1.2 reader a string: the short booleans, numbers with separators,
    and dates. *)
Inductive yaml11_word : str -> Prop :=
| word_bool w k :
    w ∈ text <$> ["y"; "yes"; "n"; "no"; "on"; "off"]%string -> k ∈ casings w -> yaml11_word k
| word_int sign d body :
    sign ∈ [[]; text "-"] -> is_ascii_digit d = true -> separated is_ascii_digit body -> ch "_" ∈ body ->
    yaml11_word (sign ++ d :: body)
| word_hex sign body c :
    sign ∈ [[]; text "-"] -> separated is_ascii_hexdigit body -> ch "_" ∈ body -> c ∈ body -> is_ascii_hexdigit c = true ->
    yaml11_word (sign ++ text "0x" ++ body)
| word_bin sign body c :
    sign ∈ [[]; text "-"] -> separated (fun c => (c =? ch "0") || (c =? ch "1")) body -> ch "_" ∈ body -> c ∈ body -> c <> ch "_" ->
    yaml11_word (sign ++ text "0b" ++ body)
| word_float sign d int frac :
    sign ∈ [[]; text "-"] -> is_ascii_digit d = true -> separated is_ascii_digit int -> separated is_ascii_digit frac ->
    ch "_" ∈ int ++ frac -> yaml11_word (sign ++ d :: int ++ ch "." :: frac)
| word_date year month day :
    length year = 4%nat -> length month = 2%nat -> length day = 2%nat ->
    Forall (fun c => is_ascii_digit c = true) (year ++ month ++ day) ->
    yaml11_word (year ++ ch "-" :: month ++ ch "-" :: day).

Notation compact_of := (List.filter (fun c => negb (c =? ch "_"))).

Lemma compact_separated digit body :
  separated digit body -> all digit (compact_of body) = true.
Proof.
  induction 1 as [|c body Hc _ IH]; [done|]. cbn. destruct (Z.eqb_spec c (ch "_")) as [|Hne]; cbn; [done|].
  destruct Hc as [->|]; [done|congruence].
Qed.

Lemma compact_digit c body : c ∈ body -> c <> ch "_" -> is_nil (compact_of body) = false.
Proof.
  intros Hin Hc. assert (c ∈ compact_of body) as Hk.
  { apply list_elem_of_In, List.filter_In. split; [by apply list_elem_of_In|]. by apply negb_true_iff, Z.eqb_neq. }
  destruct (compact_of body); [by apply not_elem_of_nil in Hk|done].
Qed.

Lemma contains_elem c s : c ∈ s -> contains c s = true.
Proof. intros Hc%list_elem_of_In. apply existsb_exists. exists c. split; [done|apply Z.eqb_refl]. Qed.

Lemma digit_not c : is_ascii_digit c = true -> c <> ch "_" /\ c <> ch "-" /\ c <> ch ".".
Proof. unfold is_ascii_digit, between. change (ch "_") with 95. change (ch "-") with 45. change (ch ".") with 46. lia. Qed.

Lemma strip_prefix_self p s : strip_prefix p (p ++ s) = Some s.
Proof. induction p as [|c p IH]; [done|]. cbn. by rewrite Z.eqb_refl. Qed.

(** The number behind its sign is what the check looks at. *)
Lemma unsigned_body sign d body :
  sign ∈ [[]; text "-"] -> is_ascii_digit d = true ->
  match strip_prefix (text "-") (sign ++ d :: body) with Some b => b | None => sign ++ d :: body end = d :: body.
Proof.
  intros Hs Hd. apply digit_not in Hd as (_ & Hd & _).
  apply elem_of_cons in Hs as [->|Hs]; [|by apply list_elem_of_singleton in Hs as ->].
  cbn [app text strip_prefix]. cbn. by rewrite (proj2 (Z.eqb_neq (ch "-") d)).
Qed.

(** What is left to show of a number with a separator. *)
Lemma underscored sign d body :
  sign ∈ [[]; text "-"] -> is_ascii_digit d = true -> ch "_" ∈ body ->
  (let compact := d :: compact_of body in
   all_digits compact = true \/
   (exists hex, compact = text "0x" ++ hex /\ is_nil hex = false /\ all is_ascii_hexdigit hex = true) \/
   (exists bin, compact = text "0b" ++ bin /\ is_nil bin = false /\ all (fun c => (c =? ch "0") || (c =? ch "1")) bin = true) \/
   (exists int frac, split_once (text ".") compact = Some (int, frac) /\ is_nil int = false /\
      all_digits int = true /\ all_digits frac = true)) ->
  yaml11_ambiguous_key (sign ++ d :: body) = true.
Proof.
  intros Hs Hd Hu H. unfold yaml11_ambiguous_key. apply orb_true_iff. left. apply orb_true_iff. right.
  unfold yaml11_underscored_number. cbn zeta. rewrite unsigned_body, Hd by done.
  rewrite (contains_elem _ (d :: body)) by (by right). cbn [negb orb].
  assert (compact_of (d :: body) = d :: compact_of body) as ->.
  { cbn. apply digit_not in Hd as (Hd & _). by rewrite (proj2 (Z.eqb_neq d (ch "_"))). }
  cbn zeta in H. set (compact := d :: compact_of body) in *.
  destruct H as [H|[(hex & H & Hn & Ha)|[(bin & H & Hn & Ha)|(int & frac & H & Hn & Hi & Hf)]]].
  - by rewrite H.
  - rewrite H, strip_prefix_self, Hn, Ha. cbn. by rewrite !orb_true_r.
  - rewrite H, (strip_prefix_self (text "0b")), Hn, Ha. cbn [negb andb]. by rewrite !orb_true_r.
  - rewrite H, Hn, Hi, Hf. cbn. by rewrite !orb_true_r.
Qed.

Lemma split_at_dot int frac :
  all_digits int = true -> split_once (text ".") (int ++ ch "." :: frac) = Some (int, frac).
Proof.
  induction int as [|c int IH]; cbn [app]; intros H; [reflexivity|]. apply andb_true_iff in H as [Hc H].
  apply digit_not in Hc as (_ & _ & Hc). cbn [split_once text strip_prefix].
  rewrite (proj2 (Z.eqb_neq (ch ".") c)) by congruence. change [ch "."] with (text "."). by rewrite (IH H).
Qed.

(** Each of these words is refused. *)
Lemma word_is_ambiguous k : yaml11_word k -> yaml11_ambiguous_key k = true.
Proof.
  intros [w k' Hw Hk|sign d body Hs Hd Hb Hu|sign body c Hs Hb Hu Hc Hx|sign body c Hs Hb Hu Hc Hx
         |sign d int frac Hs Hd Hi Hf Hu|year month day Hy Hm Hd Hall].
  - unfold yaml11_ambiguous_key. apply orb_true_iff. left. apply orb_true_iff. left. apply bool_decide_eq_true.
    repeat (apply elem_of_cons in Hw as [->|Hw];
      [repeat (apply elem_of_cons in Hk as [->|Hk]; [apply (bool_decide_unpack _); vm_compute; exact I|]);
       by apply not_elem_of_nil in Hk|]).
    by apply not_elem_of_nil in Hw.
  - apply underscored; [done..|]. left. unfold all_digits. cbn. rewrite Hd. by apply compact_separated.
  - apply (underscored sign (ch "0") (ch "x" :: body)); [done|done|by right|]. right. left. exists (compact_of body).
    split; [done|]. split; [|by apply compact_separated]. eapply compact_digit; [exact Hc|]. intros ->. by vm_compute in Hx.
  - apply (underscored sign (ch "0") (ch "b" :: body)); [done|done|by right|]. right. right. left. exists (compact_of body).
    split; [done|]. split; [by eapply compact_digit|by apply compact_separated].
  - apply underscored; [done|done|set_solver|]. do 3 right. exists (d :: compact_of int), (compact_of frac).
    rewrite List.filter_app. change (compact_of (ch "." :: frac)) with (ch "." :: compact_of frac).
    pose proof (compact_separated _ _ Hi) as Hi'. pose proof (compact_separated _ _ Hf) as Hf'.
    split_and!; [|done|unfold all_digits; cbn; by rewrite Hd|done].
    apply (split_at_dot (d :: compact_of int)). unfold all_digits. cbn. by rewrite Hd.
  - unfold yaml11_ambiguous_key. apply orb_true_iff. right.
    destruct year as [|y1 [|y2 [|y3 [|y4 [|]]]]], month as [|m1 [|m2 [|]]], day as [|a1 [|a2 [|]]]; try done.
    cbn. repeat (apply Forall_cons in Hall as [-> Hall]). done.
Qed.

