(* ===== verification/Skill.v ===== *)
(** * Skill manifests (gwk-context/src/skill.rs)

    The bundle inventory, the split of a [SKILL.md] into frontmatter and body,
    and the manifest decoded from the scanned and parsed frontmatter.  The YAML
    parser and the JSON decoder are other crates ([SkillSerde]).  The theorems:
    an accepted bundle is declarative content only; an accepted manifest carries
    every field of the document, within its bounds, and nothing else. *)

From S2P Require Import Prelude Chars Scan.
#[local] Open Scope Z_scope.

Definition SKILL_INPUT_MAX_BYTES : Z := 64 * 1024.
Definition SKILL_FRONTMATTER_MAX_BYTES : Z := 8 * 1024.
Definition SKILL_NAME_MAX_BYTES : Z := 64.
Definition SKILL_DESCRIPTION_MAX_BYTES : Z := 1024.
Definition SKILL_LICENSE_MAX_BYTES : Z := 128.
Definition SKILL_COMPATIBILITY_MAX_BYTES : Z := 128.
Definition SKILL_METADATA_MAX_ENTRIES : Z := 32.
Definition SKILL_METADATA_KEY_MAX_BYTES : Z := 64.
Definition SKILL_METADATA_VALUE_MAX_BYTES : Z := 4 * 1024.
Definition SKILL_ALLOWED_TOOLS_MAX_COUNT : Z := 64.
Definition SKILL_ALLOWED_TOOL_MAX_BYTES : Z := 128.
Definition SKILL_OPAQUE_FIELD_MAX_COUNT : Z := 32.
Definition SKILL_OPAQUE_VALUE_MAX_BYTES : Z := 1024.
Definition SKILL_BUNDLE_MAX_ENTRIES : Z := 256.
Definition SKILL_BUNDLE_PATH_MAX_BYTES : Z := 256.

Definition PORTABLE_CORE_FIELDS : list str :=
  text <$> ["allowed-tools"; "compatibility"; "description"; "license"; "metadata"; "name"]%string.
Definition GRIDWORK_METADATA_KEY : str := text "gridwork".

(** ** Bundles *)

Inductive RawEntryKind := File (executable : bool) | Directory | Symlink | Other.
Inductive BundleEntryKind := Reference | Data | Text.
Record BundleEntry := { path : str; kind : BundleEntryKind }.

Definition EXECUTABLE_SUFFIXES : list str :=
  text <$> ["bat"; "cmd"; "com"; "dll"; "exe"; "js"; "mjs"; "pl"; "ps1"; "py"; "rb"; "sh"]%string.

Definition refuse_entry {A} (r : BundleRefusal) : result SkillError A := Err (RefusedBundleEntry r).

(** The lowercased text after the last dot, or nothing. *)
Definition suffix_of (p : str) : str :=
  match rsplit_once (ch ".") p with Some (_, s) => to_ascii_lowercase s | None => [] end.

(** [BundleEntry::classify]. *)
Definition classify (p : str) (k : RawEntryKind) : result SkillError BundleEntry :=
  if is_nil p || (SKILL_BUNDLE_PATH_MAX_BYTES <? str_len p) || contains backslash p || any is_control p
  then refuse_entry MalformedPath
  else if starts_with (text "/") p || match p with _ :: c :: _ => c =? ch ":" | _ => false end
  then refuse_entry AbsolutePath
  else if existsb (fun segment => bool_decide (segment = text "..")) (split (ch "/") p)
  then refuse_entry ParentTraversal
  else
    match k with
    | Symlink | Other | Directory => refuse_entry NotARegularFile
    | File true => refuse_entry Executable
    | File false =>
        let suffix := suffix_of p in
        if bool_decide (suffix ∈ EXECUTABLE_SUFFIXES) then refuse_entry (ExecutableSuffix suffix)
        else if bool_decide (suffix ∈ text <$> ["md"; "markdown"]%string) then Ok {| path := p; kind := Reference |}
        else if bool_decide (suffix ∈ text <$> ["json"; "yaml"; "yml"; "toml"]%string) then Ok {| path := p; kind := Data |}
        else if bool_decide (suffix = text "txt") then Ok {| path := p; kind := Text |}
        else refuse_entry (Unclassified suffix)
    end.

(** [BundleEntry::inventory]. *)
Definition inventory (entries : list (str * RawEntryKind)) : result SkillError (list BundleEntry) :=
  fold_res (fun out '(p, k) =>
      _ ← ensure (negb (Z.of_nat (length out) =? SKILL_BUNDLE_MAX_ENTRIES)) (TooManyEntries "bundle");
      e ← classify p k;
      Ok (out ++ [e])) [] entries.

(** ** The two halves of a manifest *)

Definition or_else {A} (o o' : option A) : option A := match o with Some a => Some a | None => o' end.

Definition fence : str := text "---".

(** [split_frontmatter]. *)
Definition split_frontmatter (input : str) : result SkillError (str * str) :=
  _ ← ensure (str_len input <=? SKILL_INPUT_MAX_BYTES) InputTooLarge;
  rest ← ok_or (or_else (strip_prefix (fence ++ [newline]) input)
                        (strip_prefix (fence ++ [carriage_return; newline]) input)) MissingFrontmatter;
  '(front, body) ←
    ok_or (or_else (split_once ([newline] ++ fence ++ [newline]) rest)
             (or_else (split_once ([newline] ++ fence ++ [carriage_return; newline]) rest)
                      ((fun front => (front, [])) <$> strip_suffix ([newline] ++ fence) rest)))
          MissingFrontmatter;
  _ ← ensure (str_len front <=? SKILL_FRONTMATTER_MAX_BYTES) FrontmatterTooLarge;
  Ok (front, body).

(** ** Documents *)

(** A YAML value, as far as the parser tells values apart. *)
Inductive Value (A : Type) :=
| VString (s : str)
| VSequence (items : list (Value A))
| VMapping (entries : list (Value A * Value A))
| VOther (a : A).
Arguments VString {A}. Arguments VSequence {A}. Arguments VMapping {A}. Arguments VOther {A}.

(** [GridworkExt]. *)
Record GridworkExt := { routes : list str; budget_tokens : option Z; note : option str }.

(** The other crates: the YAML parser and printer, and the JSON decoder of the
    extension. *)
Class SkillSerde := {
  scalar_t : Type;
  yaml_from_str : str -> option (list (Value scalar_t * Value scalar_t));
  yaml_to_string : Value scalar_t -> option str;
  gridwork_from_json : str -> option GridworkExt;
}.

Section Manifest.
Context `{SS : SkillSerde}.
Notation value := (Value scalar_t).
Notation mapping := (list (Value scalar_t * Value scalar_t)).

(** [Mapping::get] of a string key. *)
Fixpoint mapping_get (k : str) (m : mapping) : option value :=
  match m with
  | [] => None
  | (VString k', v) :: m => if bool_decide (k' = k) then Some v else mapping_get k m
  | _ :: m => mapping_get k m
  end.

(** [AllowedToolsEvidence]. *)
Record AllowedToolsEvidence := { claimed : list str }.
Record OpaquePortableField := { key : str; opaque_value : str }.
Record SkillManifest := {
  name : str;
  description : str;
  license : option str;
  compatibility : option str;
  allowed_tools : AllowedToolsEvidence;
  metadata : gmap (list Z) str;
  gridwork : option GridworkExt;
  opaque : list OpaquePortableField;
}.

(** [render_opaque]. *)
Definition render_opaque (v : value) : str :=
  let rendered := match v with
                  | VString s => s
                  | other => trim_end_matches is_whitespace
                      (match yaml_to_string other with Some s => s | None => text "<unrenderable>" end)
                  end in
  if SKILL_OPAQUE_VALUE_MAX_BYTES <? str_len rendered
  then truncate_to SKILL_OPAQUE_VALUE_MAX_BYTES rendered else rendered.

Definition bounded (field : string) (s : str) (max : Z) : result SkillError str :=
  if max <? str_len s then Err (FieldTooLong field) else Ok s.

(** The closure [string] of [parse]. *)
Definition as_string (v : option value) : result SkillError (option str) :=
  match v with
  | None => Ok None
  | Some (VString s) => Ok (Some s)
  | Some _ => Err (Malformed "must be a string")
  end.

Definition valid_name (n : str) : bool :=
  negb (is_nil n) && (str_len n <=? SKILL_NAME_MAX_BYTES)
  && all (fun b => is_ascii_lowercase b || is_ascii_digit b || (b =? ch "-")) n.

Definition optional_field (field : string) (doc : mapping) (k : str) (max : Z) : result SkillError (option str) :=
  v ← as_string (mapping_get k doc);
  match v with
  | None => Ok None
  | Some s => s ← bounded field s max; Ok (Some s)
  end.

Definition read_allowed_tools (doc : mapping) : result SkillError AllowedToolsEvidence :=
  match mapping_get (text "allowed-tools") doc with
  | None => Ok {| claimed := [] |}
  | Some (VSequence items) =>
      _ ← ensure (Z.of_nat (length items) <=? SKILL_ALLOWED_TOOLS_MAX_COUNT) (TooManyEntries "allowed-tools");
      tools ← fold_res (fun acc item =>
                match item with
                | VString tool =>
                    t ← bounded "allowed-tools" tool SKILL_ALLOWED_TOOL_MAX_BYTES; Ok (acc ++ [t])
                | _ => Err (Malformed "`allowed-tools` entries must be strings")
                end) [] items;
      Ok {| claimed := tools |}
  | Some _ => Err (Malformed "`allowed-tools` must be a sequence")
  end.

(** One entry of [metadata]. *)
Definition metadata_entry (acc : gmap (list Z) str * option GridworkExt) (entry : value * value)
  : result SkillError (gmap (list Z) str * option GridworkExt) :=
  match entry with
  | (VString k, v) =>
      _ ← ensure (str_len k <=? SKILL_METADATA_KEY_MAX_BYTES) (FieldTooLong "metadata key");
      match v with
      | VString v =>
          _ ← ensure (str_len v <=? SKILL_METADATA_VALUE_MAX_BYTES) (FieldTooLong "metadata value");
          if bool_decide (k = GRIDWORK_METADATA_KEY) then
            ext ← ok_or (gridwork_from_json v) InvalidGridworkExtension;
            Ok (acc.1, Some ext)
          else Ok (<[k := v]> acc.1, acc.2)
      | _ => Err (MetadataValueNotString k)
      end
  | _ => Err (Malformed "`metadata` keys must be strings")
  end.

Definition read_metadata (doc : mapping) : result SkillError (gmap (list Z) str * option GridworkExt) :=
  match mapping_get (text "metadata") doc with
  | None => Ok (∅, None)
  | Some (VMapping entries) =>
      _ ← ensure (Z.of_nat (length entries) <=? SKILL_METADATA_MAX_ENTRIES) (TooManyEntries "metadata");
      fold_res metadata_entry (∅, None) entries
  | Some _ => Err (Malformed "`metadata` must be a mapping")
  end.

(** The fields outside the portable core. *)
Definition opaque_field (doc : mapping) (acc : list OpaquePortableField) (k : str)
  : result SkillError (list OpaquePortableField) :=
  if bool_decide (k ∈ PORTABLE_CORE_FIELDS) then Ok acc
  else
    _ ← ensure (negb (Z.of_nat (length acc) =? SKILL_OPAQUE_FIELD_MAX_COUNT)) (TooManyEntries "unrecognized fields");
    v ← ok_or (mapping_get k doc) (KeyNotInDocument k);
    Ok (acc ++ [{| key := k; opaque_value := render_opaque v |}]).

(** [SkillManifest::parse]. *)
Definition parse (input : str) : result SkillError SkillManifest :=
  '(front, body) ← split_frontmatter input;
  ks ← scan_subset front;
  doc ← ok_or (yaml_from_str front) (Malformed "did not decode");
  n ← as_string (mapping_get (text "name") doc);
  n ← ok_or n (Malformed "`name` is required");
  _ ← ensure (valid_name n) InvalidName;
  d ← as_string (mapping_get (text "description") doc);
  d ← ok_or d (Malformed "`description` is required");
  d ← bounded "description" d SKILL_DESCRIPTION_MAX_BYTES;
  lic ← optional_field "license" doc (text "license") SKILL_LICENSE_MAX_BYTES;
  comp ← optional_field "compatibility" doc (text "compatibility") SKILL_COMPATIBILITY_MAX_BYTES;
  tools ← read_allowed_tools doc;
  '(meta, ext) ← read_metadata doc;
  fields ← fold_res (opaque_field doc) [] ks;
  Ok {| name := n; description := d; license := lic; compatibility := comp; allowed_tools := tools;
        metadata := meta; gridwork := ext; opaque := fields |}.

(** [SkillManifest::parse_in]. *)
Definition parse_in (directory input : str) : result SkillError SkillManifest :=
  m ← parse input;
  _ ← ensure (bool_decide (name m = directory)) NameDirectoryMismatch;
  Ok m.

(** ** What a manifest carries *)

Definition string_keys (m : mapping) : list str :=
  omap (fun '(k, _) => match k with VString s => Some s | _ => None end) m.

(** A parsed mapping holds each key once. *)
Class SkillSerdeLaws : Prop := {
  yaml_distinct front doc k entries :
    yaml_from_str front = Some doc -> mapping_get k doc = Some (VMapping entries) -> NoDup (string_keys entries);
}.

Lemma bounded_ok field s max t : bounded field s max = Ok t -> t = s /\ str_len s <= max.
Proof. unfold bounded. destruct (Z.ltb_spec max (str_len s)); [done|]. by intros [= <-]. Qed.

Lemma as_string_ok v s : as_string v = Ok (Some s) <-> v = Some (VString s).
Proof. split; [|by intros ->]. destruct v as [[]|]; cbn; congruence. Qed.

Lemma as_string_none v : as_string v = Ok None <-> v = None.
Proof. split; [|by intros ->]. by destruct v as [[]|]. Qed.

Lemma optional_field_ok field doc k max o :
  optional_field field doc k max = Ok o ->
  mapping_get k doc = VString <$> o /\ match o with Some s => str_len s <= max | None => True end.
Proof.
  unfold optional_field. intros (v & Hv & Hr)%bind_ok_iff. destruct v as [s|].
  - apply bind_ok_iff in Hr as (t & [-> Hb]%bounded_ok & [= <-]). split; [by apply as_string_ok|done].
  - injection Hr as <-. split; [by apply as_string_none|done].
Qed.

Lemma allowed_tools_ok doc ev :
  read_allowed_tools doc = Ok ev ->
  mapping_get (text "allowed-tools") doc = Some (VSequence (VString <$> claimed ev)) \/
  (mapping_get (text "allowed-tools") doc = None /\ claimed ev = []).
Proof.
  unfold read_allowed_tools. destruct (mapping_get _ doc) as [[]|]; try done; [|intros [= <-]; by right].
  intros ([] & _ & Hr)%bind_ok_iff. apply bind_ok_iff in Hr as (tools & Hf & [= <-]). left. f_equal. f_equal. cbn.
  revert tools Hf. induction items as [|item items IH] using rev_ind; intros tools.
  { by intros [= <-]. }
  rewrite fold_res_app. intros (acc & Ha & Hr)%bind_ok_iff. cbn in Hr. apply bind_ok_iff in Hr as (acc' & Hi & [= <-]).
  destruct item; try done. apply bind_ok_iff in Hi as (t & [-> _]%bounded_ok & [= <-]).
  rewrite fmap_app. by rewrite <-(IH _ Ha).
Qed.

Lemma allowed_tools_bounds doc ev :
  read_allowed_tools doc = Ok ev ->
  Z.of_nat (length (claimed ev)) <= SKILL_ALLOWED_TOOLS_MAX_COUNT /\
  Forall (fun t => str_len t <= SKILL_ALLOWED_TOOL_MAX_BYTES) (claimed ev).
Proof.
  intros Hr. pose proof (allowed_tools_ok _ _ Hr) as Hc. unfold read_allowed_tools in Hr.
  destruct (mapping_get _ doc) as [[]|] eqn:E; try done; [|injection Hr as <-; split; [cbn; unfold SKILL_ALLOWED_TOOLS_MAX_COUNT; lia|done]].
  destruct Hc as [[= ->]|[? _]]; [|done]. apply bind_ok_iff in Hr as ([] & Hn & Hr). apply ensure_ok_iff in Hn.
  rewrite length_fmap in Hn. split; [lia|]. apply bind_ok_iff in Hr as (tools & Hf & [= <-]). cbn in *.
  refine (fold_res_ind (Forall (fun t => str_len t <= SKILL_ALLOWED_TOOL_MAX_BYTES)) _ _ _ _ _ _ Hf); [|done].
  intros acc item acc' _ Ha Hi. destruct item; try done. apply bind_ok_iff in Hi as (t & [-> Hb]%bounded_ok & [= <-]).
  apply Forall_app. split; [done|]. by constructor.
Qed.

(** The entries of [metadata], split between the upstream map and the extension. *)
Lemma metadata_ok entries meta ext :
  NoDup (string_keys entries) -> fold_res metadata_entry (∅, None) entries = Ok (meta, ext) ->
  (forall k v, meta !! k = Some v <-> k <> GRIDWORK_METADATA_KEY /\ (VString k, VString v) ∈ entries) /\
  (forall x, ext = Some x <-> exists v, (VString GRIDWORK_METADATA_KEY, VString v) ∈ entries /\ gridwork_from_json v = Some x) /\
  (forall e, e ∈ entries -> exists k v, e = (VString k, VString v) /\
     str_len k <= SKILL_METADATA_KEY_MAX_BYTES /\ str_len v <= SKILL_METADATA_VALUE_MAX_BYTES).
Proof.
  revert meta ext. induction entries as [|[k v] entries IH] using rev_ind; intros meta ext.
  { intros _ [= <- <-]. split; [|split].
    - intros k v. rewrite lookup_empty. split; [done|]. by intros [_ ?%not_elem_of_nil].
    - intros x. split; [done|]. by intros (v & ?%not_elem_of_nil & _).
    - by intros e ?%not_elem_of_nil. }
  unfold string_keys. rewrite omap_app. intros Hnd. rewrite fold_res_app.
  intros ([m0 g0] & Hf & Hr)%bind_ok_iff. cbn in Hr. apply bind_ok_iff in Hr as ([m1 g1] & Hr & [= -> ->]).
  apply NoDup_app in Hnd as (Hnd & Hdis & _). destruct (IH _ _ Hnd Hf) as (IH1 & IH2 & IH3). clear IH.
  destruct k as [k| | |]; try done. apply bind_ok_iff in Hr as ([] & Hk & Hr). apply ensure_ok_iff in Hk.
  destruct v as [v| | |]; try done. apply bind_ok_iff in Hr as ([] & Hv & Hr). apply ensure_ok_iff in Hv.
  assert (forall v', (VString k, VString v') ∉ entries) as Hnew.
  { intros v' Hin. apply (Hdis k); [|by left]. apply list_elem_of_omap. by exists (VString k, VString v'). }
  assert (forall e, e ∈ entries ++ [(VString k, VString v)] -> exists k v, e = (VString k, VString v) /\
     str_len k <= SKILL_METADATA_KEY_MAX_BYTES /\ str_len v <= SKILL_METADATA_VALUE_MAX_BYTES) as Hall.
  { intros e [He|He%list_elem_of_singleton]%elem_of_app; [by apply IH3|]. exists k, v. split; [done|]. lia. }
  case_bool_decide as Hg.
  - subst k. apply bind_ok_iff in Hr as (x & Hx%ok_or_ok_iff & [= <- <-]). cbn. split; [|split; [|done]].
    + intros k' v'. rewrite IH1. split; intros [Hne Hin]; (split; [done|]); [apply elem_of_app; by left|].
      apply elem_of_app in Hin as [?|[= -> _]%list_elem_of_singleton]; [done|by destruct Hne].
    + intros x'. split.
      * intros [= <-]. exists v. split; [apply elem_of_app; right; by left|done].
      * intros (v' & [Hin|[= ->]%list_elem_of_singleton]%elem_of_app & Hv'); [by apply Hnew in Hin|]. congruence.
  - injection Hr as <- <-. cbn. split; [|split; [|done]].
    + intros k' v'. destruct (decide (k = k')) as [<-|Hne].
      * rewrite lookup_insert_eq. split.
        -- intros [= <-]. split; [done|]. apply elem_of_app. right. by left.
        -- intros [_ [Hin|[= ->]%list_elem_of_singleton]%elem_of_app]; [by apply Hnew in Hin|done].
      * rewrite lookup_insert_ne by done. rewrite IH1. split; intros [Hn Hin]; (split; [done|]); [apply elem_of_app; by left|].
        apply elem_of_app in Hin as [?|[= ->]%list_elem_of_singleton]; done.
    + intros x. rewrite IH2. split; intros (v' & Hin & Hv'); exists v'; (split; [|done]); [apply elem_of_app; by left|].
      apply elem_of_app in Hin as [?|[= ? _]%list_elem_of_singleton]; [done|congruence].
Qed.

(** The fields outside the core, in the order of the document. *)
Lemma opaque_ok doc ks fields :
  fold_res (opaque_field doc) [] ks = Ok fields ->
  key <$> fields = filter (fun k => k ∉ PORTABLE_CORE_FIELDS) ks /\
  Z.of_nat (length fields) <= SKILL_OPAQUE_FIELD_MAX_COUNT /\
  Forall (fun o => exists v, mapping_get (key o) doc = Some v /\ opaque_value o = render_opaque v) fields.
Proof.
  revert fields. induction ks as [|k ks IH] using rev_ind; intros fields.
  { intros [= <-]. split; [done|]. split; [unfold SKILL_OPAQUE_FIELD_MAX_COUNT; cbn; lia|done]. }
  rewrite fold_res_app. intros (acc & Ha & Hr)%bind_ok_iff. cbn in Hr. apply bind_ok_iff in Hr as (acc' & Hr & [= ->]).
  destruct (IH _ Ha) as (IH1 & IH2 & IH3). rewrite filter_app, filter_cons. unfold opaque_field in Hr.
  case_bool_decide as Hc.
  - injection Hr as <-. rewrite decide_False by (by intros ?). by rewrite filter_nil, app_nil_r.
  - rewrite decide_True by done. rewrite filter_nil.
    apply bind_ok_iff in Hr as ([] & Hn & Hr). apply ensure_ok_iff in Hn.
    apply bind_ok_iff in Hr as (v & Hv%ok_or_ok_iff & [= <-]). rewrite fmap_app, IH1. split; [done|]. split.
    + rewrite length_app. cbn. apply negb_true_iff, Z.eqb_neq in Hn. lia.
    + apply Forall_app. split; [done|]. constructor; [|done]. by exists v.
Qed.

Lemma render_opaque_len v : str_len (render_opaque v) <= SKILL_OPAQUE_VALUE_MAX_BYTES.
Proof.
  unfold render_opaque. cbn zeta.
  match goal with |- context [?m <? ?n] => destruct (Z.ltb_spec m n) end; [|done].
  apply truncate_to_len. unfold SKILL_OPAQUE_VALUE_MAX_BYTES. lia.
Qed.

(** Everything the document says, and nothing else, under the bounds. *)
Record carries (ks : list str) (doc : mapping) (m : SkillManifest) : Prop := {
  c_name : mapping_get (text "name") doc = Some (VString (name m)) /\ valid_name (name m) = true;
  c_description : mapping_get (text "description") doc = Some (VString (description m)) /\
    str_len (description m) <= SKILL_DESCRIPTION_MAX_BYTES;
  c_license : mapping_get (text "license") doc = VString <$> license m /\
    match license m with Some s => str_len s <= SKILL_LICENSE_MAX_BYTES | None => True end;
  c_compatibility : mapping_get (text "compatibility") doc = VString <$> compatibility m /\
    match compatibility m with Some s => str_len s <= SKILL_COMPATIBILITY_MAX_BYTES | None => True end;
  c_tools : mapping_get (text "allowed-tools") doc = Some (VSequence (VString <$> claimed (allowed_tools m))) \/
    (mapping_get (text "allowed-tools") doc = None /\ claimed (allowed_tools m) = []);
  c_metadata : match mapping_get (text "metadata") doc with
    | Some (VMapping entries) =>
        (forall k v, metadata m !! k = Some v <-> k <> GRIDWORK_METADATA_KEY /\ (VString k, VString v) ∈ entries) /\
        (forall x, gridwork m = Some x <->
           exists v, (VString GRIDWORK_METADATA_KEY, VString v) ∈ entries /\ gridwork_from_json v = Some x) /\
        (forall e, e ∈ entries -> exists k v, e = (VString k, VString v) /\
           str_len k <= SKILL_METADATA_KEY_MAX_BYTES /\ str_len v <= SKILL_METADATA_VALUE_MAX_BYTES)
    | Some _ => False
    | None => metadata m = ∅ /\ gridwork m = None
    end;
  c_opaque : key <$> opaque m = filter (fun k => k ∉ PORTABLE_CORE_FIELDS) ks;
  c_opaque_values : Forall (fun o => exists v, mapping_get (key o) doc = Some v /\ opaque_value o = render_opaque v /\
    str_len (opaque_value o) <= SKILL_OPAQUE_VALUE_MAX_BYTES) (opaque m);
  c_bounds : Z.of_nat (length (opaque m)) <= SKILL_OPAQUE_FIELD_MAX_COUNT /\
    Z.of_nat (length (claimed (allowed_tools m))) <= SKILL_ALLOWED_TOOLS_MAX_COUNT /\
    Forall (fun t => str_len t <= SKILL_ALLOWED_TOOL_MAX_BYTES) (claimed (allowed_tools m));
}.

Lemma read_metadata_ok `{!SkillSerdeLaws} front doc meta ext :
  yaml_from_str front = Some doc -> read_metadata doc = Ok (meta, ext) ->
  match mapping_get (text "metadata") doc with
  | Some (VMapping entries) => NoDup (string_keys entries) /\ fold_res metadata_entry (∅, None) entries = Ok (meta, ext)
  | Some _ => False
  | None => meta = ∅ /\ ext = None
  end.
Proof.
  intros Hy. unfold read_metadata. destruct (mapping_get _ doc) as [[]|] eqn:E; try done.
  - intros ([] & _ & Hr)%bind_ok_iff. split; [by eapply yaml_distinct|done].
  - by intros [= <- <-].
Qed.

Lemma parse_carries `{!SkillSerdeLaws} input m :
  parse input = Ok m ->
  exists front body ks doc, split_frontmatter input = Ok (front, body) /\ scan_subset front = Ok ks /\
    yaml_from_str front = Some doc /\ carries ks doc m.
Proof.
  unfold parse. intros ([front body] & Hs & Hr)%bind_ok_iff. apply bind_ok_iff in Hr as (ks & Hk & Hr).
  apply bind_ok_iff in Hr as (doc & Hd%ok_or_ok_iff & Hr).
  apply bind_ok_iff in Hr as (n0 & Hn0 & Hr). apply bind_ok_iff in Hr as (n & ->%ok_or_ok_iff & Hr).
  apply bind_ok_iff in Hr as ([] & Hn%ensure_ok_iff & Hr).
  apply bind_ok_iff in Hr as (d0 & Hd0 & Hr). apply bind_ok_iff in Hr as (d1 & ->%ok_or_ok_iff & Hr).
  apply bind_ok_iff in Hr as (d & [-> Hdl]%bounded_ok & Hr).
  apply bind_ok_iff in Hr as (lic & Hl%optional_field_ok & Hr).
  apply bind_ok_iff in Hr as (comp & Hc%optional_field_ok & Hr).
  apply bind_ok_iff in Hr as (tools & Ht & Hr). apply bind_ok_iff in Hr as ([meta ext] & Hm & Hr).
  apply bind_ok_iff in Hr as (fields & Hf & [= <-]).
  exists front, body, ks, doc. split; [done|]. split; [done|]. split; [done|].
  destruct (opaque_ok _ _ _ Hf) as (Ho1 & Ho2 & Ho3). destruct (allowed_tools_bounds _ _ Ht) as [Hb1 Hb2].
  split; cbn [name description license compatibility allowed_tools metadata gridwork opaque]; try done.
  - by split; [apply as_string_ok|].
  - by split; [apply as_string_ok|].
  - by apply allowed_tools_ok.
  - pose proof (read_metadata_ok _ _ _ _ Hd Hm) as Hmo. destruct (mapping_get (text "metadata") doc) as [[]|]; try done.
    destruct Hmo as [Hnd Hfo]. by apply metadata_ok.
  - eapply Forall_impl; [exact Ho3|]. intros o (v & Hv & Hov). exists v. split; [done|]. split; [done|].
    rewrite Hov. apply render_opaque_len.
Qed.

(** The closing fence is a line of its own. *)
Lemma split_frontmatter_ok input front body :
  split_frontmatter input = Ok (front, body) ->
  str_len input <= SKILL_INPUT_MAX_BYTES /\ str_len front <= SKILL_FRONTMATTER_MAX_BYTES /\
  exists eol rest, (eol = [newline] \/ eol = [carriage_return; newline]) /\ input = fence ++ eol ++ rest /\
    (rest = front ++ [newline] ++ fence ++ [newline] ++ body \/
     rest = front ++ [newline] ++ fence ++ [carriage_return; newline] ++ body \/
     (rest = front ++ [newline] ++ fence /\ body = [])).
Proof.
  unfold split_frontmatter. intros ([] & Hl%ensure_ok_iff & Hr)%bind_ok_iff.
  apply bind_ok_iff in Hr as (rest & Hrest%ok_or_ok_iff & Hr).
  apply bind_ok_iff in Hr as ([front' body'] & Hf%ok_or_ok_iff & Hr).
  apply bind_ok_iff in Hr as ([] & Hfl%ensure_ok_iff & [= <- <-]). split; [lia|]. split; [lia|].
  assert (exists eol, (eol = [newline] \/ eol = [carriage_return; newline]) /\ input = fence ++ eol ++ rest) as (eol & He & Hi).
  { unfold or_else in Hrest. destruct (strip_prefix (fence ++ [newline]) input) as [r|] eqn:E.
    - injection Hrest as ->. apply strip_prefix_Some in E. exists [newline]. split; [by left|]. by rewrite E, <-app_assoc.
    - apply strip_prefix_Some in Hrest. exists [carriage_return; newline]. split; [by right|]. by rewrite Hrest, <-app_assoc. }
  exists eol, rest. split; [done|]. split; [done|]. unfold or_else in Hf.
  destruct (split_once ([newline] ++ fence ++ [newline]) rest) as [[]|] eqn:E1.
  { injection Hf as -> ->. left. apply split_once_Some in E1. by rewrite E1, <-!app_assoc. }
  destruct (split_once ([newline] ++ fence ++ [carriage_return; newline]) rest) as [[]|] eqn:E2.
  { injection Hf as -> ->. right. left. apply split_once_Some in E2. by rewrite E2, <-!app_assoc. }
  right. right. apply fmap_Some in Hf as (fr & Hf & [= -> ->]). split; [|done]. unfold strip_suffix in Hf.
  apply fmap_Some in Hf as (x & Hx%strip_prefix_Some & ->).
  rewrite <-(reverse_involutive rest), Hx, reverse_app, reverse_involutive. done.
Qed.

(** A manifest that parses says what its document says:
    its fields are the document's, within their bounds, and every key of the
    document that is not a recognized one is kept as evidence, in order. *)
Theorem manifest_is_the_document `{!SkillSerdeLaws} (directory input : str) (m : SkillManifest) :
  parse_in directory input = Ok m ->
  name m = directory /\
  exists front body ks doc,
    split_frontmatter input = Ok (front, body) /\ str_len input <= SKILL_INPUT_MAX_BYTES /\
    str_len front <= SKILL_FRONTMATTER_MAX_BYTES /\
    scan_subset front = Ok ks /\ NoDup ks /\ yaml_from_str front = Some doc /\ carries ks doc m.
Proof.
  unfold parse_in. intros (m' & Hp & Hr)%bind_ok_iff. apply bind_ok_iff in Hr as ([] & Hn%ensure_ok_iff & [= <-]).
  apply bool_decide_eq_true in Hn. split; [done|].
  destruct (parse_carries _ _ Hp) as (front & body & ks & doc & Hs & Hk & Hy & Hc).
  exists front, body, ks, doc. destruct (split_frontmatter_ok _ _ _ Hs) as (H1 & H2 & _).
  destruct (scan_subset_keys _ _ Hk) as (_ & s & _ & <- & Hnd & _). done.
Qed.
End Manifest.

(** ** Bundles *)

Lemma classify_ok p k e :
  classify p k = Ok e ->
  path e = p /\ k = File false /\ p <> [] /\ str_len p <= SKILL_BUNDLE_PATH_MAX_BYTES /\
  contains backslash p = false /\ any is_control p = false /\ starts_with (text "/") p = false /\
  text ".." ∉ split (ch "/") p /\ suffix_of p ∉ EXECUTABLE_SUFFIXES /\
  suffix_of p ∈ text <$> ["md"; "markdown"; "json"; "yaml"; "yml"; "toml"; "txt"]%string.
Proof.
  unfold classify. destruct (is_nil p || _ || _ || _) eqn:E1; [done|].
  destruct (starts_with _ p || _) eqn:E2; [done|]. destruct (existsb _ _) eqn:E3; [done|].
  destruct k as [[]| | |]; try done. cbn zeta. case_bool_decide as Hx; [done|].
  repeat (apply orb_false_iff in E1 as [E1 ?]). apply orb_false_iff in E2 as [E2 _].
  assert (text ".." ∉ split (ch "/") p) as Hdots.
  { intros Hin. assert (existsb (fun segment => bool_decide (segment = text "..")) (split (ch "/") p) = true) as Hex;
      [|congruence]. apply existsb_exists. exists (text ".."). split; [by apply list_elem_of_In|by apply bool_decide_eq_true]. }
  intros Hr. assert (path e = p /\ suffix_of p ∈ text <$> ["md"; "markdown"; "json"; "yaml"; "yml"; "toml"; "txt"]%string) as [Hp Hsx].
  { repeat (case_bool_decide; [injection Hr as <-; split; [done|]|]); [set_solver..|done]. }
  split_and!; try done; [by destruct p|lia].
Qed.

(** A bundle's inventory lists its entries in order, and is
    given only when every one is a plain file that is not executable, at a
    relative path without a parent segment, with a declarative suffix. *)
Theorem inventory_is_declarative (entries : list (str * RawEntryKind)) (out : list BundleEntry) :
  inventory entries = Ok out ->
  path <$> out = entries.*1 /\ Z.of_nat (length out) <= SKILL_BUNDLE_MAX_ENTRIES /\
  forall p k, (p, k) ∈ entries ->
    k = File false /\ p <> [] /\ str_len p <= SKILL_BUNDLE_PATH_MAX_BYTES /\ any is_control p = false /\
    starts_with (text "/") p = false /\ text ".." ∉ split (ch "/") p /\ suffix_of p ∉ EXECUTABLE_SUFFIXES /\
    suffix_of p ∈ text <$> ["md"; "markdown"; "json"; "yaml"; "yml"; "toml"; "txt"]%string.
Proof.
  unfold inventory. revert out. induction entries as [|[p k] entries IH] using rev_ind; intros out.
  { intros [= <-]. split; [done|]. split; [unfold SKILL_BUNDLE_MAX_ENTRIES; cbn; lia|]. by intros p k ?%not_elem_of_nil. }
  rewrite fold_res_app. intros (acc & Ha & Hr)%bind_ok_iff. cbn in Hr. apply bind_ok_iff in Hr as (acc' & Hr & [= ->]).
  apply bind_ok_iff in Hr as ([] & Hn%ensure_ok_iff & Hr). apply bind_ok_iff in Hr as (e & He & [= <-]).
  destruct (IH _ Ha) as (IH1 & IH2 & IH3). apply classify_ok in He as (Hp & Hk & H1 & H2 & _ & H3 & H4 & H5 & H6 & H7).
  rewrite !fmap_app, IH1. cbn. rewrite Hp. split; [done|]. split.
  - rewrite length_app. cbn. apply negb_true_iff, Z.eqb_neq in Hn. lia.
  - intros p' k' [Hin|[= -> ->]%list_elem_of_singleton]%elem_of_app; [by apply IH3|done].
Qed.
