(* ===== verification/Truth.v ===== *)
(** * Context truth records
    (gwk-domain/src/context.rs, context_digest.rs, context_participation.rs,
    context_truth.rs)

    The records the Context engine writes once and never changes: the resolved
    manifest of an attempt, its release, its observations and its finalization,
    with the bounds their constructors enforce.  A newtype over a string is the
    string; its constructor is a checking function. *)

From S2P Require Import Prelude Text Fsm Envelope Transition Command.

(** ** Content classes *)

Inductive ContentClass := Conformance | Private.

#[export] Instance ContentClass_eq_dec : EqDecision ContentClass.
Proof. solve_decision. Defined.

Definition content_class_str (c : ContentClass) : string :=
  match c with Conformance => "conformance" | Private => "private" end.
Definition content_class_parse (s : string) : option ContentClass :=
  if decide (s = "conformance") then Some Conformance
  else if decide (s = "private") then Some Private else None.

(** ** Digests *)

Definition DIGEST_SCHEME : string := "sha256:".

Inductive DigestError := UnknownScheme | MalformedDigest.

#[export] Instance DigestError_eq_dec : EqDecision DigestError.
Proof. solve_decision. Defined.

(** [Digest::parse] and [Digest::from_hex]. *)
Definition digest_parse (value : string) : result DigestError string :=
  hex ← ok_or (Str.strip_prefix DIGEST_SCHEME value) UnknownScheme;
  _ ← ensure (is_sha256_hex hex) MalformedDigest;
  mret value.

Definition from_hex (hex : string) : result DigestError string :=
  _ ← ensure (is_sha256_hex hex) MalformedDigest;
  mret (DIGEST_SCHEME +:+ hex).

(** ** Participation *)

Inductive ParticipationState := PsAvailable | PsSelectable | PsActive | PsExcluded | PsUnavailable.

#[export] Instance ParticipationState_eq_dec : EqDecision ParticipationState.
Proof. solve_decision. Defined.

Definition requires_reason (s : ParticipationState) : bool :=
  match s with PsExcluded | PsUnavailable => true | _ => false end.

Inductive ParticipationReason :=
| PrecedenceLoss | PermissionDenied | BudgetCut | ReasonQuarantined | ReasonRejected | ReasonPinDrift
| ReasonNotEligible | ReasonUnavailable.

#[export] Instance ParticipationReason_eq_dec : EqDecision ParticipationReason.
Proof. solve_decision. Defined.

Record Participation := {
  p_digest : string;
  p_class : ContentClass;
  p_state : ParticipationState;
  p_reason : option ParticipationReason;
  p_detail : option string;
}.

#[export] Instance Participation_eq_dec : EqDecision Participation.
Proof. solve_decision. Defined.

Inductive ParticipationError := MissingReason | UnexpectedReason | DetailWithoutReason.

#[export] Instance ParticipationError_eq_dec : EqDecision ParticipationError.
Proof. solve_decision. Defined.

(** [Participation::active] and [Participation::excluded]. *)
Definition active (digest : string) (class : ContentClass) : Participation := {|
  p_digest := digest; p_class := class; p_state := PsActive; p_reason := None; p_detail := None |}.
Definition excluded (digest : string) (class : ContentClass) (reason : ParticipationReason)
  : Participation := {|
  p_digest := digest; p_class := class; p_state := PsExcluded; p_reason := Some reason; p_detail := None |}.

(** [Participation::validate]. *)
Definition participation_validate (p : Participation) : result ParticipationError unit :=
  match requires_reason (p_state p), is_some (p_reason p) with
  | true, false => Err MissingReason
  | false, true => Err UnexpectedReason
  | _, _ => if is_some (p_detail p) && negb (is_some (p_reason p)) then Err DetailWithoutReason else Ok tt
  end.

(** ** Bounds *)

Definition CONTEXT_ID_MAX_BYTES : Z := 128.
Definition CONTEXT_EVIDENCE_MAX_COUNT : nat := 64.
Definition CONTEXT_PARTICIPATION_MAX_COUNT : Z := 4096.
Definition CONTEXT_PARTICIPATION_DETAIL_MAX_BYTES : Z := 1024.
Definition CONTEXT_RECORD_COUNT_MAX : Z := 65535.

Inductive TruthRecordError :=
| EmptyId | IdTooLong | InvalidIdCharacter | TooManyEvidenceRefs | InvalidEvidenceRef
| TooManyParticipations | InvalidParticipation | ParticipationDetailTooLong | CountTooLarge
| ObservationIndexOutOfRange.

#[export] Instance TruthRecordError_eq_dec : EqDecision TruthRecordError.
Proof. solve_decision. Defined.

Definition id_byte (c : Ascii.ascii) : bool :=
  Str.is_ascii_alphanumeric c
  || existsb (fun b => (Str.code c =? b)%Z) [46; 95; 58; 45]%Z.

Definition id_is_valid (value : string) : result TruthRecordError unit :=
  _ ← ensure (negb (Str.is_empty value)) EmptyId;
  _ ← ensure (Str.len value <=? CONTEXT_ID_MAX_BYTES)%Z IdTooLong;
  ensure (Str.all_bytes id_byte value) InvalidIdCharacter.

(** The [parse] of every [context_id!] type. *)
Definition context_id_parse (value : string) : result TruthRecordError string :=
  _ ← id_is_valid value; mret value.

(** [RecordCount::new] and [ObservationIndex::new]. *)
Definition record_count (value : Z) : result TruthRecordError Z :=
  _ ← ensure (value <=? CONTEXT_RECORD_COUNT_MAX)%Z CountTooLarge; mret value.
Definition observation_index (value : Z) : result TruthRecordError Z :=
  _ ← ensure (negb (value =? 0) && (value <=? CONTEXT_RECORD_COUNT_MAX))%Z ObservationIndexOutOfRange;
  mret value.

(** [EvidenceRefs::new]. *)
Definition evidence_refs (values : list string) : result TruthRecordError (list string) :=
  _ ← ensure (length values <=? CONTEXT_EVIDENCE_MAX_COUNT) TooManyEvidenceRefs;
  _ ← ensure (forallb (fun v => is_ok (id_is_valid v)) values) InvalidEvidenceRef;
  mret values.

(** One turn of the loop of [ParticipationRecords::new]. *)
Definition participation_record_ok (_ : unit) (value : Participation) : result TruthRecordError unit :=
  _ ← map_err (fun _ => InvalidParticipation) (participation_validate value);
  match p_detail value with
  | Some detail =>
      ensure (Str.len detail <=? CONTEXT_PARTICIPATION_DETAIL_MAX_BYTES)%Z ParticipationDetailTooLong
  | None => Ok tt
  end.

(** [ParticipationRecords::new]. *)
Definition participation_records (values : list Participation)
  : result TruthRecordError (list Participation) :=
  _ ← ensure (Z.of_nat (length values) <=? CONTEXT_PARTICIPATION_MAX_COUNT)%Z TooManyParticipations;
  _ ← fold_res participation_record_ok tt values;
  mret values.

(** ** The records *)

Inductive Assurance := Trace | Deterministic.

#[export] Instance Assurance_eq_dec : EqDecision Assurance.
Proof. solve_decision. Defined.

Definition assurance_str (a : Assurance) : string :=
  match a with Trace => "trace" | Deterministic => "deterministic" end.

Record ResolvedManifest := {
  rm_id : string;
  rm_attempt_id : string;
  rm_manifest_digest : string;
  rm_route_digest : string;
  rm_authority_digest : string;
  rm_source_count : Z;
  rm_source_bytes : Z;
  rm_participations : list Participation;
  rm_evidence_ids : list string;
  rm_resolved_at : string;
}.

#[export] Instance ResolvedManifest_eq_dec : EqDecision ResolvedManifest.
Proof. solve_decision. Defined.

Record ReleaseSupplement := {
  rl_id : string;
  rl_manifest_id : string;
  rl_rendered_digest : string;
  rl_tool_schema_digest : string;
  rl_rendered_bytes : Z;
  rl_tool_schema_count : Z;
  rl_evidence_ids : list string;
  rl_released_at : string;
}.

Record ObservationSupplement := {
  ob_id : string;
  ob_manifest_id : string;
  ob_observation_index : Z;
  ob_fact_digest : string;
  ob_observed_bytes : Z;
  ob_visible_source_count : Z;
  ob_truncated : bool;
  ob_evidence_ids : list string;
  ob_observed_at : string;
}.

Record FinalizationSupplement := {
  fz_id : string;
  fz_manifest_id : string;
  fz_output_digest : string;
  fz_verification_digest : string;
  fz_approval_count : Z;
  fz_observation_count : Z;
  fz_final_event_root : string;
  fz_lifecycle_complete : bool;
  fz_assurance : Assurance;
  fz_evidence_ids : list string;
  fz_finalized_at : string;
}.

(** Where a compiled record comes from (context_event.rs). *)
Record ContextAttribution := {
  ca_compiler : string;
  ca_route_digest : string;
  ca_authority_digest : string;
  ca_derived_from : string;
}.

#[export] Instance ContextAttribution_eq_dec : EqDecision ContextAttribution.
Proof. solve_decision. Defined.

(** The manifest as it is hashed: its own digest replaced. *)
Definition with_manifest_digest (d : string) (m : ResolvedManifest) : ResolvedManifest := {|
  rm_id := rm_id m; rm_attempt_id := rm_attempt_id m; rm_manifest_digest := d;
  rm_route_digest := rm_route_digest m; rm_authority_digest := rm_authority_digest m;
  rm_source_count := rm_source_count m; rm_source_bytes := rm_source_bytes m;
  rm_participations := rm_participations m; rm_evidence_ids := rm_evidence_ids m;
  rm_resolved_at := rm_resolved_at m |}.

(** serde_json's bytes of a manifest ([None] when it cannot be serialized), and
    SHA-256 of a byte string, both as integers of [0..255]. *)
Class ManifestHash := {
  manifest_json : ResolvedManifest -> option (list Z);
  sha256 : list Z -> list Z;
}.

(** What the callers rely on: a digest of thirty-two bytes. *)
Class ManifestHashLaws `{ManifestHash} : Prop := {
  sha256_len b : length (sha256 b) = 32;
  sha256_bytes b : Forall (fun x => 0 <= x < 256)%Z (sha256 b);
}.

Lemma participation_records_ok values r :
  participation_records values = Ok r -> r = values.
Proof. unfold participation_records. intros H. inv_ok. done. Qed.
Lemma evidence_refs_ok values r : evidence_refs values = Ok r -> r = values.
Proof. unfold evidence_refs. intros H. inv_ok. done. Qed.
Lemma record_count_ok n r : record_count n = Ok r -> r = n /\ (n <= CONTEXT_RECORD_COUNT_MAX)%Z.
Proof. unfold record_count. intros H. inv_ok. unbool. done. Qed.
