(* ===== verification/Compile.v ===== *)
(** * The Context compiler
    (gwk-context-compiler/src/compile.rs, precedence.rs, gwk-context/src/precedence.rs)

    One resolved manifest per attempt, from typed inputs: every candidate gets
    one row, ready candidates compete by tier within their slot, winners are
    admitted against a byte budget, and claimed tools are intersected with the
    granted ones.  The theorems: what a compiled manifest says of every
    candidate; that the order of the candidates changes neither a manifest nor a
    refusal; what each refusal means, and that two of them cannot occur. *)

From S2P Require Import Prelude Text Fsm Envelope Transition Command Ordered Truth.

(** ** Precedence *)

Inductive PrecedenceTier :=
| Security | RunDeclaration | RouteConfig | RequestedSkill | AutomaticSkill | Annotation.

#[export] Instance PrecedenceTier_eq_dec : EqDecision PrecedenceTier.
Proof. solve_decision. Defined.

(** The derived order follows the declaration: the least tier wins. *)
Definition tier_rank (t : PrecedenceTier) : Z :=
  match t with
  | Security => 0 | RunDeclaration => 1 | RouteConfig => 2
  | RequestedSkill => 3 | AutomaticSkill => 4 | Annotation => 5
  end.

Definition outranks (a b : PrecedenceTier) : bool := (tier_rank a <? tier_rank b)%Z.

Record PrecedenceConflict := { pc_tier : PrecedenceTier; pc_distinct_values : nat }.

Section Resolve.
Context {T : Type} `{EqDecision T}.

Record Contribution := { ct_tier : PrecedenceTier; ct_value : T }.

(** [iter().map(|c| c.tier).min()]. *)
Fixpoint min_tier (l : list PrecedenceTier) : option PrecedenceTier :=
  match l with
  | [] => None
  | t :: l => Some match min_tier l with
                   | Some u => if (tier_rank u <? tier_rank t)%Z then u else t
                   | None => t
                   end
  end.

(** The loop of [resolve] from [index] on: the winner and the distinct values. *)
Fixpoint resolve_loop (all : list Contribution) (top : PrecedenceTier) (index : nat)
    (rest : list Contribution) (winner : option nat) (distinct : nat) : option nat * nat :=
  match rest with
  | [] => (winner, distinct)
  | c :: rest =>
      if decide (ct_tier c = top) then
        match winner with
        | None => resolve_loop all top (S index) rest (Some index) 1
        | Some first =>
            let seen := List.filter (fun c' => bool_decide (ct_tier c' = top))
                          (take (index - first) (drop first all)) in
            let already_seen := existsb (fun c' => bool_decide (ct_value c' = ct_value c)) seen in
            resolve_loop all top (S index) rest winner (if already_seen then distinct else S distinct)
        end
      else resolve_loop all top (S index) rest winner distinct
  end.

(** [resolve]. *)
Definition resolve (contributions : list Contribution) : result PrecedenceConflict (option nat) :=
  match min_tier (ct_tier <$> contributions) with
  | None => Ok None
  | Some top =>
      let '(winner, distinct) := resolve_loop contributions top 0 contributions None 0 in
      if 1 <? distinct then Err {| pc_tier := top; pc_distinct_values := distinct |} else Ok winner
  end.
End Resolve.
Arguments Contribution T : clear implicits.

(** ** Inputs *)

Record Route := { route_digest : string }.
Record Authority := { auth_digest : string; auth_tools : gset string }.

Inductive Standing := Ready | NotEligible | Denied | Quarantined | Rejected | PinDrift | Unreadable.

#[export] Instance Standing_eq_dec : EqDecision Standing.
Proof. solve_decision. Defined.

(** [Standing::verdict]. *)
Definition verdict (s : Standing) : option (ParticipationState * ParticipationReason) :=
  match s with
  | Ready => None
  | NotEligible => Some (PsExcluded, ReasonNotEligible)
  | Denied => Some (PsExcluded, PermissionDenied)
  | Quarantined => Some (PsUnavailable, ReasonQuarantined)
  | Rejected => Some (PsUnavailable, ReasonRejected)
  | PinDrift => Some (PsUnavailable, ReasonPinDrift)
  | Unreadable => Some (PsUnavailable, ReasonUnavailable)
  end.

Record Candidate := {
  c_digest : string;
  c_class : ContentClass;
  c_slot : string;
  c_tier : PrecedenceTier;
  c_bytes : Z;
  c_claimed_tools : list string;
  c_standing : Standing;
}.

#[export] Instance Candidate_eq_dec : EqDecision Candidate.
Proof. solve_decision. Defined.

Record CompileRequest := {
  rq_manifest_id : string;
  rq_attempt_id : string;
  rq_resolved_at : string;
  rq_budget : option Z;
  rq_evidence : list string;
}.

Inductive CompileError :=
| EmptySlot (digest : string)
| SlotTooLong (digest : string)
| DuplicateCandidate (digest : string)
| TierConflict (slot : string) (conflict : PrecedenceConflict)
| SecurityCut (digest : string) (bytes remaining : Z)
| SourceBytesOverflow
| Bound (e : TruthRecordError)
| Encode
| Incomplete (offered recorded : nat)
| Widened (digest tool : string).

Record Compiled := {
  cp_manifest : ResolvedManifest;
  cp_tools : gmap string (gset string);
  cp_attribution : ContextAttribution;
}.

(** ** The canonical order *)

Definition canonical_key (c : Candidate) : Z * string * string := (tier_rank (c_tier c), c_slot c, c_digest c).

Definition key_leb : Z * string * string -> Z * string * string -> bool :=
  lex (fun a b => a.1.1 <=? b.1.1)%Z (lex (fun a b => String.leb a.1.2 b.1.2) (fun a b => String.leb a.2 b.2)).

(** [canonical], as "not greater". *)
Definition canonical (a b : Candidate) : bool := key_leb (canonical_key a) (canonical_key b).

#[export] Instance key_leb_total : TotalPreorder key_leb.
Proof. unfold key_leb. apply _. Qed.
#[export] Instance canonical_total : TotalPreorder canonical.
Proof. unfold canonical. apply _. Qed.

Lemma key_leb_antisym k k' : key_leb k k' = true -> key_leb k' k = true -> k = k'.
Proof.
  intros H1 H2. destruct (lex_both _ _ _ _ H1 H2) as ([Ha Hb] & H3 & H4).
  destruct (lex_both _ _ _ _ H3 H4) as ([Hc Hd] & He & Hf). destruct k as [[r s] d], k' as [[r' s'] d']. simpl in *.
  apply Z.leb_le in Ha, Hb. repeat f_equal; [lia|by apply string_leb_antisym..].
Qed.

(** ** The digest of a manifest *)

Definition MANIFEST_DIGEST_PLACEHOLDER_HEX : string :=
  "0000000000000000000000000000000000000000000000000000000000000000".

Definition placeholder : string := DIGEST_SCHEME +:+ MANIFEST_DIGEST_PLACEHOLDER_HEX.

(** The [expect] of [placeholder]. *)
Lemma placeholder_is_legal : from_hex MANIFEST_DIGEST_PLACEHOLDER_HEX = Ok placeholder.
Proof. vm_compute. reflexivity. Qed.

Definition HEX : list Ascii.ascii := String.list_ascii_of_string "0123456789abcdef".

(** [HEX[n]]; a nibble is in range. *)
Definition hex_at (n : Z) : Ascii.ascii := default Ascii.Space (HEX !! Z.to_nat n).

Fixpoint hex_lower (bytes : list Z) : string :=
  match bytes with
  | [] => ""
  | b :: bytes => String (hex_at (Z.shiftr b 4)) (String (hex_at (Z.land b 15)) (hex_lower bytes))
  end.

(** The record's rows, by digest. *)
Notation Rows := (gmap string Participation).

Section Compile.
Context `{ManifestHash}.

Definition manifest_digest (m : ResolvedManifest) : result CompileError string :=
  bytes ← ok_or (manifest_json (with_manifest_digest placeholder m)) Encode;
  map_err (fun _ => Encode) (from_hex (hex_lower (sha256 bytes))).

Definition COMPILER : string := "gwk-context-compiler/0.0.1".

(** [attribution]; the constant is a legal attribution part. *)
Definition attribution (m : ResolvedManifest) : ContextAttribution := {|
  ca_compiler := COMPILER; ca_route_digest := rm_route_digest m;
  ca_authority_digest := rm_authority_digest m; ca_derived_from := rm_id m |}.

(** ** The steps of a compile *)

(** Step 1: distinct, well-formed candidates. *)
Fixpoint validate (seen : gset string) (ordered : list Candidate) : result CompileError unit :=
  match ordered with
  | [] => Ok tt
  | c :: ordered =>
      _ ← ensure (negb (Str.is_empty (c_slot c))) (EmptySlot (c_digest c));
      _ ← ensure (Str.len (c_slot c) <=? CONTEXT_ID_MAX_BYTES)%Z (SlotTooLong (c_digest c));
      _ ← ensure (bool_decide (c_digest c ∉ seen)) (DuplicateCandidate (c_digest c));
      validate ({[c_digest c]} ∪ seen) ordered
  end.

(** Step 2: upstream verdicts are recorded, the rest compete. *)
Definition record_verdict (s : Rows * list Candidate) (c : Candidate) : Rows * list Candidate :=
  match verdict (c_standing c) with
  | Some (state, reason) =>
      (<[c_digest c := {| p_digest := c_digest c; p_class := c_class c; p_state := state;
                          p_reason := Some reason; p_detail := None |}]> s.1, s.2)
  | None => (s.1, s.2 ++ [c])
  end.

(** Step 3: one decision per slot. *)
Definition push_slot (m : gmap string (list Candidate)) (c : Candidate) : gmap string (list Candidate) :=
  <[c_slot c := default [] (m !! c_slot c) ++ [c]]> m.
Definition by_slot (ready : list Candidate) : gmap string (list Candidate) := foldl push_slot ∅ ready.

Fixpoint settle_group (winner index : nat) (group : list Candidate) (s : Rows * list Candidate)
  : Rows * list Candidate :=
  match group with
  | [] => s
  | c :: group =>
      settle_group winner (S index) group
        (if index =? winner then (s.1, s.2 ++ [c])
         else (<[c_digest c := excluded (c_digest c) (c_class c) PrecedenceLoss]> s.1, s.2))
  end.

Definition decide_slot (s : Rows * list Candidate) (group : string * list Candidate)
  : result CompileError (Rows * list Candidate) :=
  match resolve ((fun c => {| ct_tier := c_tier c; ct_value := c_digest c |}) <$> group.2) with
  | Ok (Some winner) => Ok (settle_group winner 0 group.2 s)
  | Ok None => Ok s
  | Err conflict => Err (TierConflict group.1 conflict)
  end.

(** Step 4: the budget, highest authority first. *)
Record Admission := {
  ad_rows : Rows;
  ad_remaining : option Z;
  ad_source_bytes : Z;
  ad_tools : gmap string (gset string);
}.

Definition effective (authority : Authority) (c : Candidate) : gset string :=
  list_to_set (List.filter (fun tool => bool_decide (tool ∈ auth_tools authority)) (c_claimed_tools c)).

Definition fits (remaining : option Z) (cost : Z) : bool :=
  match remaining with Some room => (cost <=? room)%Z | None => true end.

Definition admit_candidate (authority : Authority) (s : Admission) (c : Candidate) : result CompileError Admission :=
  let cost := c_bytes c in
  if fits (ad_remaining s) cost then
    source_bytes ← ok_or (checked_add u64_max (ad_source_bytes s) cost) SourceBytesOverflow;
    mret {| ad_rows := <[c_digest c := active (c_digest c) (c_class c)]> (ad_rows s);
            ad_remaining := (fun room => (room - cost)%Z) <$> ad_remaining s;
            ad_source_bytes := source_bytes;
            ad_tools := <[c_digest c := effective authority c]> (ad_tools s) |}
  else if decide (c_tier c = Security)
  then Err (SecurityCut (c_digest c) cost (default u64_max (ad_remaining s)))
  else mret {| ad_rows := <[c_digest c := excluded (c_digest c) (c_class c) BudgetCut]> (ad_rows s);
               ad_remaining := ad_remaining s; ad_source_bytes := ad_source_bytes s;
               ad_tools := ad_tools s |}.

(** Step 6: no emitted tool set exceeds the authority. *)
Definition check_narrow (authority : Authority) (_ : unit) (entry : string * gset string)
  : result CompileError unit :=
  match List.find (fun t => bool_decide (t ∉ auth_tools authority))
          (sort_by String.leb (elements entry.2)) with
  | Some tool => Err (Widened entry.1 tool)
  | None => Ok tt
  end.

(** Step 7: the record. *)
Definition build_manifest (request : CompileRequest) (route : Route) (authority : Authority)
    (s : Admission) : result CompileError ResolvedManifest :=
  let active := Z.of_nat (size (ad_tools s)) in
  _ ← ensure (active <=? u32_max)%Z (Bound CountTooLarge);
  source_count ← map_err Bound (record_count active);
  participations ← map_err Bound (participation_records (btree_values (ad_rows s)));
  evidence ← map_err Bound (evidence_refs (dedup (sort_by String.leb (rq_evidence request))));
  let manifest := {|
    rm_id := rq_manifest_id request; rm_attempt_id := rq_attempt_id request;
    rm_manifest_digest := placeholder; rm_route_digest := route_digest route;
    rm_authority_digest := auth_digest authority; rm_source_count := source_count;
    rm_source_bytes := ad_source_bytes s; rm_participations := participations;
    rm_evidence_ids := evidence; rm_resolved_at := rq_resolved_at request |} in
  digest ← manifest_digest manifest;
  mret (with_manifest_digest digest manifest).

(** Everything after the validation, on candidates in canonical order. *)
Definition compile_ordered (request : CompileRequest) (route : Route) (authority : Authority)
    (offered : nat) (ordered : list Candidate) : result CompileError Compiled :=
  let '(rows, ready) := foldl record_verdict (∅, []) ordered in
  '(rows, winners) ← fold_res decide_slot (rows, []) (btree_iter (by_slot ready));
  s ← fold_res (admit_candidate authority)
        {| ad_rows := rows; ad_remaining := rq_budget request; ad_source_bytes := 0; ad_tools := ∅ |}
        (sort_by canonical winners);
  let recorded := size (ad_rows s) in
  _ ← ensure (recorded =? offered) (Incomplete offered recorded);
  _ ← fold_res (check_narrow authority) tt (btree_iter (ad_tools s));
  manifest ← build_manifest request route authority s;
  mret {| cp_manifest := manifest; cp_tools := ad_tools s; cp_attribution := attribution manifest |}.

(** [compile]. *)
Definition compile (request : CompileRequest) (route : Route) (authority : Authority)
    (candidates : list Candidate) : result CompileError Compiled :=
  let ordered := sort_by canonical candidates in
  _ ← validate ∅ ordered;
  compile_ordered request route authority (length candidates) ordered.
End Compile.

(** ** What [resolve] decides *)

Section ResolveSpec.
Context {T : Type} `{EqDecision T}.
Implicit Types (c : Contribution T) (l all pre : list (Contribution T)).

(** The values a tier offers. *)
Definition tier_values (top : PrecedenceTier) l : list T :=
  ct_value <$> filter (fun c => ct_tier c = top) l.

Lemma distinct_snoc (vs : list T) v :
  length (remove_dups (vs ++ [v])) = length (remove_dups vs) + (if decide (v ∈ vs) then 0 else 1).
Proof.
  case_decide as Hv.
  - rewrite Nat.add_0_r. apply Permutation_length, NoDup_Permutation; [apply NoDup_remove_dups..|].
    intros x. rewrite !elem_of_remove_dups. set_solver.
  - rewrite Nat.add_1_r. change (S (length (remove_dups vs))) with (length (v :: remove_dups vs)).
    apply Permutation_length, NoDup_Permutation; [apply NoDup_remove_dups| |].
    + constructor; [by rewrite elem_of_remove_dups|apply NoDup_remove_dups].
    + intros x. rewrite elem_of_cons, !elem_of_remove_dups. set_solver.
Qed.

Lemma tier_values_snoc top l c :
  tier_values top (l ++ [c]) = tier_values top l ++ (if decide (ct_tier c = top) then [ct_value c] else []).
Proof.
  unfold tier_values. rewrite filter_app, fmap_app. f_equal. rewrite filter_cons, filter_nil. by case_decide.
Qed.

(** The slice the loop searches holds every value of the tier so far. *)
Lemma seen_values top pre rest first c v :
  list_find (fun c => ct_tier c = top) pre = Some (first, c) ->
  existsb (fun c' => bool_decide (ct_value c' = v))
    (List.filter (fun c' => bool_decide (ct_tier c' = top))
       (take (length pre - first) (drop first (pre ++ rest)))) = bool_decide (v ∈ tier_values top pre).
Proof.
  intros Hf%list_find_Some. destruct Hf as (Hc & Ht & Hmin).
  assert (first < length pre) as Hlt by (by eapply lookup_lt_Some).
  rewrite drop_app_le, take_app_le, take_ge by (rewrite ?length_drop; lia).
  apply eq_bool_prop_intro. rewrite bool_decide_spec. unfold tier_values. rewrite list_elem_of_fmap. split.
  - intros (c' & Hin & Hv%bool_decide_eq_true)%Is_true_true%existsb_exists.
    apply filter_In in Hin as [Hin Ht'%bool_decide_eq_true]. exists c'. split; [done|].
    apply list_elem_of_filter. split; [done|]. apply list_elem_of_In in Hin. rewrite <-(take_drop first pre). set_solver.
  - intros (c' & -> & [Ht' Hin]%list_elem_of_filter). apply Is_true_true, existsb_exists. exists c'.
    split; [|by apply bool_decide_eq_true]. apply filter_In. split; [|by apply bool_decide_eq_true].
    apply list_elem_of_In. apply list_elem_of_lookup in Hin as [j Hj].
    destruct (decide (j < first)) as [Hj'|Hj']; [by destruct (Hmin _ _ Hj Hj')|].
    apply list_elem_of_lookup. exists (j - first). rewrite lookup_drop. by replace (first + (j - first)) with j by lia.
Qed.

Lemma resolve_loop_spec all top pre rest :
  all = pre ++ rest ->
  resolve_loop all top (length pre) rest (fst <$> list_find (fun c => ct_tier c = top) pre)
    (length (remove_dups (tier_values top pre))) =
  (fst <$> list_find (fun c => ct_tier c = top) all, length (remove_dups (tier_values top all))).
Proof.
  revert pre. induction rest as [|c rest IH]; intros pre Hall; simpl; [by rewrite Hall, app_nil_r|].
  assert (all = (pre ++ [c]) ++ rest) as Hall' by (by rewrite <-app_assoc).
  specialize (IH (pre ++ [c]) Hall'). rewrite length_app, Nat.add_1_r in IH.
  rewrite tier_values_snoc in IH. case_decide as Ht.
  - destruct (list_find _ pre) as [[first c0]|] eqn:Ef.
    + rewrite (list_find_app_l _ _ _ _ _ Ef) in IH. cbn [fst fmap option_fmap option_map] in *.
      rewrite Hall, (seen_values _ _ _ _ _ _ Ef), <-Hall, <-IH. rewrite distinct_snoc.
      case_bool_decide; case_decide; try done; f_equal; lia.
    + assert (tier_values top pre = []) as Hn.
      { unfold tier_values. apply list_find_None in Ef. clear -Ef.
        induction Ef as [|x l Hx HF IH]; [done|]. by rewrite filter_cons_False. }
      rewrite (list_find_app_r _ _ _ Ef) in IH. rewrite Hn in IH. simpl in IH.
      rewrite decide_True in IH by done. exact IH.
  - rewrite app_nil_r in IH. rewrite <-IH. f_equal. destruct (list_find _ pre) as [[first c0]|] eqn:Ef.
    + by rewrite (list_find_app_l _ _ _ _ _ Ef).
    + rewrite (list_find_app_r _ _ _ Ef). simpl. by rewrite decide_False.
Qed.

Lemma min_tier_spec (l : list PrecedenceTier) t :
  min_tier l = Some t -> t ∈ l /\ forall u, u ∈ l -> (tier_rank t <= tier_rank u)%Z.
Proof.
  revert t. induction l as [|x l IH]; intros t; simpl; [done|]. intros [= <-].
  destruct (min_tier l) as [u|] eqn:E.
  - destruct (IH _ eq_refl) as [Hu Hmin]. destruct (Z.ltb_spec (tier_rank u) (tier_rank x)).
    + split; [by right|]. intros v [->|Hv]%elem_of_cons; [lia|by apply Hmin].
    + split; [by left|]. intros v [->|Hv]%elem_of_cons; [lia|]. specialize (Hmin _ Hv). lia.
  - destruct l; [|done]. split; [by left|]. intros v ->%list_elem_of_singleton. lia.
Qed.

(** The three outcomes of [resolve]: nothing spoke; the first contribution of the
    top tier, whose values agree; or the top tier and the number of its values. *)
Lemma resolve_spec l :
  match resolve l with
  | Ok None => l = []
  | Ok (Some i) => exists c, l !! i = Some c /\
      (forall c', c' ∈ l -> (tier_rank (ct_tier c) <= tier_rank (ct_tier c'))%Z) /\
      (forall c', c' ∈ l -> ct_tier c' = ct_tier c -> ct_value c' = ct_value c)
  | Err conflict =>
      pc_distinct_values conflict = length (remove_dups (tier_values (pc_tier conflict) l)) /\
      2 <= pc_distinct_values conflict /\
      forall c', c' ∈ l -> (tier_rank (pc_tier conflict) <= tier_rank (ct_tier c'))%Z
  end.
Proof.
  unfold resolve. destruct (min_tier (ct_tier <$> l)) as [top|] eqn:Em.
  2: { by destruct l. }
  apply min_tier_spec in Em as [Htop Hmin]. apply list_elem_of_fmap in Htop as (c0 & -> & Hc0).
  assert (forall c', c' ∈ l -> (tier_rank (ct_tier c0) <= tier_rank (ct_tier c'))%Z) as Hmin'.
  { intros c' Hc'. by apply Hmin, list_elem_of_fmap_2. }
  pose proof (resolve_loop_spec l (ct_tier c0) [] l eq_refl) as Hl. cbn in Hl. rewrite Hl.
  destruct (Nat.ltb_spec 1 (length (remove_dups (tier_values (ct_tier c0) l)))) as [|Hone]; [by split_and!|].
  destruct (list_find_elem_of (fun c => ct_tier c = ct_tier c0) l c0 Hc0 eq_refl) as [[i c] Hf]. rewrite Hf. simpl.
  apply list_find_Some in Hf as (Hi & Ht & _). exists c. split; [done|]. rewrite Ht. split; [done|].
  intros c' Hc' Ht'. assert (forall v w, v ∈ tier_values (ct_tier c0) l -> w ∈ tier_values (ct_tier c0) l -> v = w) as Hag.
  { intros v w Hv%elem_of_remove_dups Hw%elem_of_remove_dups.
    destruct (remove_dups _) as [|x [|y r]]; simpl in Hone; [set_solver|set_solver|lia]. }
  apply Hag; apply list_elem_of_fmap_2, list_elem_of_filter; [done|]. split; [done|]. by eapply list_elem_of_lookup_2.
Qed.
End ResolveSpec.

(** ** The rows as a ledger *)

(** Rows that were written once each: who for, and what. *)
Definition ledger (L : list (Candidate * Participation)) : Rows :=
  list_to_map ((fun e => (c_digest e.1, e.2)) <$> L).

Definition verdict_row (c : Candidate) (state : ParticipationState) (reason : ParticipationReason)
  : Participation := {|
  p_digest := c_digest c; p_class := c_class c; p_state := state; p_reason := Some reason; p_detail := None |}.

Definition is_ready (c : Candidate) : bool := bool_decide (c_standing c = Ready).

Lemma is_ready_verdict c : is_ready c = negb (is_some (verdict (c_standing c))).
Proof. unfold is_ready. by destruct (c_standing c). Qed.

Lemma verdicts_spec ordered L ready :
  exists V, foldl record_verdict (ledger L, ready) ordered =
    (ledger (V ++ L), ready ++ List.filter is_ready ordered) /\
    fst <$> V ≡ₚ List.filter (fun c => negb (is_ready c)) ordered /\
    Forall (fun e => exists s r, verdict (c_standing e.1) = Some (s, r) /\ e.2 = verdict_row e.1 s r) V.
Proof.
  revert L ready. induction ordered as [|c ordered IH]; intros L ready; simpl.
  { exists []. by rewrite app_nil_r. }
  unfold record_verdict at 2. rewrite is_ready_verdict. destruct (verdict (c_standing c)) as [[s r]|] eqn:Ev; simpl.
  - destruct (IH ((c, verdict_row c s r) :: L) ready) as (V & Hf & Hp & HF).
    exists (V ++ [(c, verdict_row c s r)]). split; [by rewrite <-app_assoc|]. split.
    + rewrite fmap_app. simpl. by rewrite Hp, Permutation_app_comm.
    + apply Forall_app. split; [done|]. repeat constructor. by exists s, r.
  - destruct (IH L (ready ++ [c])) as (V & -> & Hp & HF). exists V. by rewrite <-app_assoc.
Qed.

(** ** Slots *)

Lemma push_slot_perm m c :
  concat (snd <$> map_to_list (push_slot m c)) ≡ₚ c :: concat (snd <$> map_to_list m).
Proof.
  unfold push_slot. destruct (m !! c_slot c) as [g|] eqn:Eg; simpl.
  - rewrite <-(insert_id m _ _ Eg) at 2. rewrite <-!(insert_delete_eq m).
    rewrite !map_to_list_insert by apply lookup_delete_eq. simpl. rewrite <-app_assoc. simpl.
    by rewrite <-Permutation_middle.
  - rewrite map_to_list_insert by done. done.
Qed.

Lemma by_slot_perm ready : concat (snd <$> btree_iter (by_slot ready)) ≡ₚ ready.
Proof.
  unfold btree_iter. rewrite sort_by_perm. unfold by_slot.
  assert (forall m, concat (snd <$> map_to_list (foldl push_slot m ready)) ≡ₚ
            ready ++ concat (snd <$> map_to_list m)) as Hg.
  { induction ready as [|c ready IH]; intros m; simpl; [done|]. by rewrite IH, push_slot_perm, Permutation_middle. }
  rewrite Hg, map_to_list_empty. simpl. by rewrite app_nil_r.
Qed.

Lemma by_slot_group ready s g c :
  by_slot ready !! s = Some g -> c ∈ g <-> c ∈ ready /\ c_slot c = s.
Proof.
  intros Hs. assert (forall m, (forall s g, m !! s = Some g -> Forall (fun c => c_slot c = s) g) ->
    forall s, default [] (foldl push_slot m ready !! s) =
      default [] (m !! s) ++ List.filter (fun c => bool_decide (c_slot c = s)) ready) as Hg.
  { clear. induction ready as [|c ready IH]; intros m Hm s; simpl; [by rewrite app_nil_r|].
    rewrite IH; unfold push_slot.
    - case_bool_decide as E.
      + subst s. rewrite lookup_insert_eq. simpl. by rewrite <-app_assoc.
      + by rewrite lookup_insert_ne.
    - intros s' g'. destruct (decide (c_slot c = s')) as [<-|Hne].
      + rewrite lookup_insert_eq. intros [= <-]. apply Forall_app. split; [|by constructor].
        destruct (m !! c_slot c) as [g|] eqn:E; [by apply Hm|constructor].
      + rewrite lookup_insert_ne by done. apply Hm. }
  specialize (Hg ∅ ltac:(by intros ? ?; rewrite lookup_empty) s). unfold by_slot in Hs. rewrite Hs in Hg.
  simpl in Hg. rewrite lookup_empty in Hg. simpl in Hg. rewrite Hg, list_elem_of_In, filter_In, <-list_elem_of_In.
  by rewrite bool_decide_eq_true.
Qed.

(** The row of a candidate that lost its slot. *)
Definition is_loss (e : Candidate * Participation) : Prop :=
  e.2 = excluded (c_digest e.1) (c_class e.1) PrecedenceLoss.

Lemma settle_group_spec winner index group L W :
  exists X Y, settle_group winner index group (ledger L, W) = (ledger (X ++ L), W ++ Y) /\
    Y ++ (fst <$> X) ≡ₚ group /\ Forall is_loss X /\
    Y = (if index <=? winner then option_list (group !! (winner - index)) else []).
Proof.
  revert index L W. induction group as [|c group IH]; intros index L W; simpl.
  { exists [], []. rewrite app_nil_r. split_and!; try done. by destruct (index <=? winner). }
  destruct (Nat.eqb_spec index winner) as [->|Hne].
  - destruct (IH (S winner) L (W ++ [c])) as (X & Y & Hf & Hp & HF & HY). exists X, (c :: Y).
    rewrite (proj2 (Nat.leb_gt _ _)) in HY by lia. subst Y. rewrite Nat.leb_refl, Nat.sub_diag. simpl.
    split; [by rewrite Hf, app_nil_r|]. split_and!; try done. simpl in Hp. by rewrite Hp.
  - destruct (IH (S index) ((c, excluded (c_digest c) (c_class c) PrecedenceLoss) :: L) W)
      as (X & Y & Hf & Hp & HF & HY).
    exists (X ++ [(c, excluded (c_digest c) (c_class c) PrecedenceLoss)]), Y.
    split; [by rewrite <-app_assoc|]. split_and!.
    + rewrite fmap_app, app_assoc, Hp. simpl. by rewrite Permutation_app_comm.
    + apply Forall_app. split; [done|]. by constructor.
    + rewrite HY. destruct (Nat.leb_spec (S index) winner), (Nat.leb_spec index winner); try lia; [|done].
      replace (winner - index) with (S (winner - S index)) by lia. done.
Qed.

(** [w] outranks everything else that speaks to its slot. *)
Definition leads (l : list Candidate) (w : Candidate) : Prop :=
  w ∈ l /\ forall y, y ∈ l -> y = w \/ (tier_rank (c_tier w) < tier_rank (c_tier y))%Z.

Lemma decide_slot_spec L W name group r :
  NoDup (c_digest <$> group) -> group <> [] -> decide_slot (ledger L, W) (name, group) = Ok r ->
  exists X w, r = (ledger (X ++ L), W ++ [w]) /\ w :: (fst <$> X) ≡ₚ group /\ Forall is_loss X /\ leads group w.
Proof.
  intros Hnd Hne. unfold decide_slot. cbn [snd fst].
  set (cs := (fun c => {| ct_tier := c_tier c; ct_value := c_digest c |}) <$> group).
  pose proof (resolve_spec cs) as Hr. destruct (resolve cs) as [[i|]|]; [|by destruct group|done].
  intros [= <-]. destruct Hr as (ct & Hi & Hmin & Hag).
  apply list_lookup_fmap_Some in Hi as (w & -> & Hi). cbn [ct_tier ct_value] in *.
  destruct (settle_group_spec i 0 group L W) as (X & Y & Hf & Hp & HF & HY). rewrite Nat.sub_0_r, Hi in HY.
  simpl in HY. subst Y. exists X, w. split; [done|]. split; [done|]. split; [done|].
  assert (w ∈ group) as Hw by (by eapply list_elem_of_lookup_2). split; [done|].
  intros y Hy. assert ({| ct_tier := c_tier y; ct_value := c_digest y |} ∈ cs) as Hcy.
  { by apply (list_elem_of_fmap_2 (fun c => {| ct_tier := c_tier c; ct_value := c_digest c |})). }
  destruct (decide (c_tier y = c_tier w)) as [Et|Et].
  - left. specialize (Hag _ Hcy Et). cbn in Hag. clear -Hnd Hag Hw Hy.
    apply list_elem_of_lookup in Hw as [j Hj], Hy as [k Hk].
    assert (k = j) as ->; [|congruence]. eapply (NoDup_lookup (c_digest <$> group)); [done| |].
    + rewrite list_lookup_fmap, Hk. done.
    + rewrite list_lookup_fmap, Hj. simpl. by rewrite Hag.
  - right. specialize (Hmin _ Hcy). cbn in Hmin. destruct (c_tier y), (c_tier w); simpl in *; try done; lia.
Qed.

Lemma slots_spec groups L W r :
  Forall (fun g => NoDup (c_digest <$> g.2) /\ g.2 <> []) groups ->
  fold_res decide_slot (ledger L, W) groups = Ok r ->
  exists X Y, r = (ledger (X ++ L), W ++ Y) /\ Y ++ (fst <$> X) ≡ₚ concat (snd <$> groups) /\
    Forall is_loss X /\
    (forall w, w ∈ Y -> exists g, g ∈ groups /\ leads g.2 w) /\
    (forall e, e ∈ X -> exists g w, g ∈ groups /\ e.1 ∈ g.2 /\ e.1 <> w /\ leads g.2 w).
Proof.
  intros HF. revert L W. induction HF as [|[name g] groups [Hnd Hne] HF IH]; intros L W; simpl.
  { intros [= <-]. exists [], []. rewrite app_nil_r. split_and!; try done; set_solver. }
  intros ([rows ws] & Hd & Hr)%bind_ok_iff.
  apply decide_slot_spec in Hd as (X1 & w & [= -> ->] & Hp1 & HL1 & Hlead); [|done|done].
  destruct (IH _ _ Hr) as (X2 & Y2 & -> & Hp2 & HL2 & HW & HX).
  exists (X2 ++ X1), (w :: Y2). rewrite <-!app_assoc. split; [done|]. split_and!.
  - rewrite fmap_app. simpl. rewrite <-Hp1. simpl. f_equiv. rewrite <-Hp2.
    rewrite (Permutation_app_comm (fst <$> X2)). rewrite (app_assoc Y2), (Permutation_app_comm Y2).
    by rewrite <-app_assoc.
  - by apply Forall_app.
  - intros w' [->|Hw']%elem_of_cons; [exists (name, g); split; [by left|done]|].
    destruct (HW _ Hw') as (g' & Hg' & ?). exists g'. split; [by right|done].
  - intros e [He|He]%elem_of_app.
    + destruct (HX _ He) as (g' & w' & Hg' & ?). exists g', w'. split; [by right|done].
    + exists (name, g), w. split; [by left|]. assert (e.1 ∈ fst <$> X1) as Hin by (by apply list_elem_of_fmap_2).
      split; [rewrite <-Hp1; by right|]. split; [|done]. intros Heq. rewrite Heq in Hin.
      assert (NoDup (w :: (fst <$> X1))) as [? _]%NoDup_cons; [|done]. rewrite Hp1. by eapply NoDup_fmap_1.
Qed.

(** ** The budget *)

Definition bytes_of (l : list Candidate) : Z := foldr (fun c n => (c_bytes c + n)%Z) 0%Z l.

#[export] Instance bytes_of_perm : Proper ((≡ₚ) ==> (=)) bytes_of.
Proof. intros l k Hp. induction Hp; simpl; lia. Qed.

(** The winners that fit, taken in order. *)
Fixpoint greedy (room : option Z) (ws : list Candidate) : list Candidate :=
  match ws with
  | [] => []
  | w :: ws => if fits room (c_bytes w)
               then w :: greedy ((fun r => (r - c_bytes w)%Z) <$> room) ws
               else greedy room ws
  end.

Lemma greedy_sub room ws : greedy room ws ⊆ ws.
Proof.
  revert room. induction ws as [|w ws IH]; intros room; simpl; [done|].
  destruct (fits room (c_bytes w)); [|set_solver]. specialize (IH ((fun r => (r - c_bytes w)%Z) <$> room)). set_solver.
Qed.

Lemma greedy_nodup room ws : NoDup ws -> NoDup (greedy room ws).
Proof.
  intros Hnd. revert room. induction Hnd as [|w ws Hw Hnd IH]; intros room; simpl; [constructor|].
  destruct (fits room (c_bytes w)); [|done]. constructor; [|done]. intros Hin%greedy_sub. done.
Qed.

Lemma greedy_bound room ws : (0 <= room)%Z -> (bytes_of (greedy (Some room) ws) <= room)%Z.
Proof.
  revert room. induction ws as [|w ws IH]; intros room Hr; simpl; [done|].
  destruct (Z.leb_spec (c_bytes w) room); [|by apply IH]. simpl.
  specialize (IH (room - c_bytes w)%Z ltac:(lia)). lia.
Qed.

(** [y] is considered before [w]. *)
Definition before (y w : Candidate) : Prop := y <> w /\ canonical y w = true.
#[export] Instance before_dec y w : Decision (before y w).
Proof. unfold before. apply _. Defined.

Lemma canonical_antisym (l : list Candidate) x y :
  NoDup (c_digest <$> l) -> x ∈ l -> y ∈ l -> canonical x y = true -> canonical y x = true -> x = y.
Proof.
  intros Hnd Hx Hy Hxy Hyx. pose proof (key_leb_antisym _ _ Hxy Hyx) as [= _ _ Hd].
  apply list_elem_of_lookup in Hx as [i Hi], Hy as [j Hj].
  assert (i = j) as ->; [|congruence]. eapply (NoDup_lookup (c_digest <$> l)); [done| |].
  - by rewrite list_lookup_fmap, Hi.
  - rewrite list_lookup_fmap, Hj. simpl. by rewrite Hd.
Qed.

Lemma fits_shift room a b :
  fits ((fun r => (r - a)%Z) <$> room) b = fits room (a + b).
Proof. destruct room as [r|]; simpl; [|done]. destruct (Z.leb_spec b (r - a)), (Z.leb_spec (a + b) r); lia. Qed.

(** A winner is admitted exactly when it fits beside those admitted before it. *)
Lemma greedy_spec room ws w :
  NoDup (c_digest <$> ws) -> StronglySorted canonical ws ->
  w ∈ greedy room ws <->
  w ∈ ws /\ fits room (c_bytes w + bytes_of (filter (fun y => y ∈ greedy room ws /\ before y w) ws)) = true.
Proof.
  revert room. induction ws as [|c ws IH]; intros room Hnd Hs.
  { simpl. set_solver. }
  pose proof Hnd as Hnd0. apply NoDup_cons in Hnd as [Hc Hnd].
  apply StronglySorted_cons in Hs as [HF Hs]. rewrite Forall_forall in HF.
  assert (c ∉ ws) as Hc' by (intros Hin; apply Hc; by apply list_elem_of_fmap_2).
  assert (forall y, y ∈ c :: ws -> ~ before y c) as Hfirst.
  { intros y Hy [Hne Hyc]. apply Hne. apply (canonical_antisym (c :: ws)); [done|done|by left|done|].
    apply elem_of_cons in Hy as [->|Hy]; [done|]. by apply Is_true_true, HF. }
  assert (forall A : list Candidate, bytes_of (filter (fun y => y ∈ A /\ before y c) (c :: ws)) = 0%Z) as Hnone.
  { intros A. rewrite filter_none_in; [done|]. intros y Hy [_ Hb]. by eapply Hfirst. }
  assert (forall (A : list Candidate) w, w ∈ ws -> filter (fun y => y ∈ c :: A /\ before y w) ws = filter (fun y => y ∈ A /\ before y w) ws) as Hrest.
  { intros A w' _. apply filter_ext_in. intros y Hy. rewrite elem_of_cons. naive_solver. }
  destruct (decide (w = c)) as [->|Hwc].
  - rewrite Hnone, Z.add_0_r. simpl. destruct (fits room (c_bytes c)) eqn:Ef; [set_solver|].
    split; [|by intros [_ ?]]. intros Hin%greedy_sub. done.
  - simpl. destruct (fits room (c_bytes c)) eqn:Ef.
    + rewrite !elem_of_cons. split.
      * intros [->|Hin]; [done|]. pose proof (greedy_sub _ _ _ Hin) as Hw. split; [by right|].
        apply IH in Hin as [_ Hfit]; [|done|done]. rewrite filter_cons_True.
        2: { split; [by left|]. split; [done|]. by apply Is_true_true, HF. }
        rewrite Hrest by done. simpl. rewrite fits_shift in Hfit. by rewrite Z.add_shuffle3.
      * intros [[->|Hw] Hfit]; [done|]. right. apply IH; [done|done|]. split; [done|].
        rewrite filter_cons_True in Hfit.
        2: { split; [by left|]. split; [done|]. by apply Is_true_true, HF. }
        rewrite Hrest in Hfit by done. simpl in Hfit. by rewrite fits_shift, Z.add_shuffle3.
    + rewrite IH by done. rewrite filter_cons_False.
      2: { intros [Hin _]. by apply greedy_sub in Hin. }
      rewrite elem_of_cons. naive_solver.
Qed.

Section Admission.
Context (authority : Authority).

(** The row of a winner, admitted or cut. *)
Definition admission_row (A : list Candidate) (c : Candidate) : Participation :=
  if decide (c ∈ A) then active (c_digest c) (c_class c) else excluded (c_digest c) (c_class c) BudgetCut.

(** The tools of the admitted. *)
Definition tool_sets (A : list Candidate) : gmap string (gset string) :=
  list_to_map ((fun c => (c_digest c, effective authority c)) <$> A).

Lemma admissions_spec ws s L T s' :
  NoDup ws -> ad_rows s = ledger L -> ad_tools s = tool_sets T ->
  fold_res (admit_candidate authority) s ws = Ok s' ->
  let A := greedy (ad_remaining s) ws in
  exists X, ad_rows s' = ledger (X ++ L) /\ fst <$> X ≡ₚ ws /\
    Forall (fun e => e.2 = admission_row A e.1) X /\
    ad_tools s' = tool_sets (reverse A ++ T) /\
    ad_source_bytes s' = (ad_source_bytes s + bytes_of A)%Z /\
    Forall (fun w => c_tier w = Security -> w ∈ A) ws.
Proof.
  intros Hnd. revert s L T s'. induction Hnd as [|w ws Hw Hnd IH]; intros s L T s' HL HT; cbn [fold_res greedy].
  { intros [= <-]. exists []. rewrite Z.add_0_r. by split_and!. }
  intros (s1 & Ha & Hr)%bind_ok_iff. unfold admit_candidate in Ha. destruct (fits (ad_remaining s) (c_bytes w)) eqn:Ef.
  - apply bind_ok_iff in Ha as (sb & Hsb & [= <-]). apply ok_or_ok_iff, checked_add_some in Hsb as [-> _].
    cbn [ad_rows ad_remaining ad_source_bytes ad_tools] in Hr.
    apply (IH _ ((w, active (c_digest w) (c_class w)) :: L) (w :: T)) in Hr as (X & HX & Hp & HF & Ht & Hb & Hsec);
      [|cbn; by rewrite HL|cbn; by rewrite HT].
    cbn [ad_remaining ad_source_bytes] in *. set (A := greedy _ ws) in *.
    exists (X ++ [(w, active (c_digest w) (c_class w))]). rewrite <-app_assoc. split; [done|]. split_and!.
    + rewrite fmap_app, Hp. simpl. by rewrite Permutation_app_comm.
    + apply Forall_app. split.
      * apply Forall_forall. intros e He. rewrite Forall_forall in HF. rewrite (HF _ He). unfold admission_row.
        assert (e.1 <> w) as Hne.
        { intros Heq. apply Hw. rewrite <-Heq, <-Hp. by apply list_elem_of_fmap_2. }
        apply decide_ext. set_solver.
      * constructor; [|done]. unfold admission_row. by rewrite decide_True by left.
    + rewrite Ht, reverse_cons, <-app_assoc. done.
    + rewrite Hb. simpl. lia.
    + constructor; [by left|]. eapply Forall_impl; [exact Hsec|]. intros x Hx Hs. right. by apply Hx.
  - destruct (decide (c_tier w = Security)) as [|Hns]; [done|]. injection Ha as <-.
    apply (IH _ ((w, excluded (c_digest w) (c_class w) BudgetCut) :: L) T) in Hr as (X & HX & Hp & HF & Ht & Hb & Hsec);
      [|cbn; by rewrite HL|done].
    cbn [ad_remaining ad_source_bytes] in *. set (A := greedy _ ws) in *.
    exists (X ++ [(w, excluded (c_digest w) (c_class w) BudgetCut)]). rewrite <-app_assoc. split; [done|]. split_and!; try done.
    + rewrite fmap_app, Hp. simpl. by rewrite Permutation_app_comm.
    + apply Forall_app. split; [done|]. constructor; [|done]. unfold admission_row. rewrite decide_False; [done|].
      intros Hin%greedy_sub. done.
    + by constructor.
Qed.

(** Intersection with the grant stays within the grant. *)
Lemma effective_spec c t : t ∈ effective authority c <-> t ∈ c_claimed_tools c /\ t ∈ auth_tools authority.
Proof.
  unfold effective. rewrite elem_of_list_to_set, list_elem_of_In, filter_In, <-list_elem_of_In. by rewrite bool_decide_eq_true.
Qed.

Lemma check_narrow_ok entries :
  Forall (fun e => exists c, e.2 = effective authority c) entries ->
  fold_res (check_narrow authority) tt entries = Ok tt.
Proof.
  assert (forall u e c, e.2 = effective authority c -> check_narrow authority u e = Ok tt) as Hone.
  { intros u e c Hc. unfold check_narrow.
    match goal with |- context [List.find ?f ?l] => destruct (List.find f l) as [t|] eqn:Ef end; [|done].
    apply find_some in Ef as [Hin Hout%bool_decide_eq_true]. destruct Hout.
    rewrite <-list_elem_of_In, sort_by_elem_of, elem_of_elements, Hc in Hin. by apply effective_spec in Hin as [_ ?]. }
  induction 1 as [|e entries [c Hc] HF IH]; [done|]. cbn [fold_res]. by rewrite (Hone tt e c Hc).
Qed.
End Admission.

(** ** The whole compile *)

(** [w] is ready and outranks every other ready candidate of its slot. *)
Definition rivals (candidates : list Candidate) (w : Candidate) : list Candidate :=
  filter (fun y => c_standing y = Ready /\ c_slot y = c_slot w) candidates.
Definition wins (candidates : list Candidate) (w : Candidate) : Prop := leads (rivals candidates w) w.

#[export] Instance leads_dec l w : Decision (leads l w).
Proof.
  refine (cast_if (decide (w ∈ l /\ Forall (fun y => y = w \/ (tier_rank (c_tier w) < tier_rank (c_tier y))%Z) l)));
    abstract (unfold leads; rewrite Forall_forall in *; done).
Defined.

Lemma leads_perm l k w : (forall x, x ∈ l <-> x ∈ k) -> leads l w <-> leads k w.
Proof. intros He. unfold leads. setoid_rewrite He. done. Qed.

Lemma wins_perm l k w : l ≡ₚ k -> wins l w <-> wins k w.
Proof. intros Hp. apply leads_perm. intros x. unfold rivals. rewrite !list_elem_of_filter. by rewrite Hp. Qed.

(** What becomes of a candidate, [A] being the admitted ones. *)
Definition fate (A candidates : list Candidate) (c : Candidate) : Participation :=
  match verdict (c_standing c) with
  | Some (state, reason) => verdict_row c state reason
  | None =>
      if decide (c ∈ A) then active (c_digest c) (c_class c)
      else if decide (wins candidates c) then excluded (c_digest c) (c_class c) BudgetCut
      else excluded (c_digest c) (c_class c) PrecedenceLoss
  end.

Lemma fate_digest A candidates c : p_digest (fate A candidates c) = c_digest c.
Proof. unfold fate. destruct (verdict _) as [[]|]; [done|]. by repeat case_decide. Qed.

(** The admitted: winners that fit beside those admitted before them. *)
Definition admitted (budget : option Z) (candidates A : list Candidate) : Prop :=
  NoDup A /\ forall c, c ∈ A <->
    wins candidates c /\
    fits budget (c_bytes c + bytes_of (filter (fun y => y ∈ A /\ before y c) candidates)) = true.

Lemma group_ok ready g :
  NoDup (c_digest <$> ready) -> g ∈ btree_iter (by_slot ready) -> NoDup (c_digest <$> g.2) /\ g.2 <> [].
Proof.
  intros Hnd Hg. split.
  - pose proof (by_slot_perm ready) as Hp. assert (NoDup (c_digest <$> concat (snd <$> btree_iter (by_slot ready)))) as Hn.
    { by rewrite Hp. }
    apply list_elem_of_split in Hg as (pre & post & E). rewrite E, fmap_app, concat_app, fmap_app in Hn.
    simpl in Hn. rewrite fmap_app in Hn. by apply NoDup_app in Hn as (_ & _ & [Hn _]%NoDup_app).
  - destruct g as [s g]. apply btree_iter_elem in Hg. simpl. unfold by_slot in Hg.
    assert (forall m, (forall s g, m !! s = Some g -> g <> []) ->
      forall s g, foldl push_slot m ready !! s = Some g -> g <> []) as Hne.
    { clear. induction ready as [|c ready IH]; intros m Hm; simpl; [done|]. apply IH. intros s g. unfold push_slot.
      destruct (decide (c_slot c = s)) as [<-|?]; [|rewrite lookup_insert_ne by done; apply Hm].
      rewrite lookup_insert_eq. intros [= <-]. by destruct (default [] _). }
    eapply Hne; [|exact Hg]. by intros ? ?; rewrite lookup_empty.
Qed.

Lemma group_rivals ready candidates s g w :
  (forall c, c ∈ ready <-> c ∈ candidates /\ c_standing c = Ready) ->
  (s, g) ∈ btree_iter (by_slot ready) -> w ∈ g -> forall x, x ∈ g <-> x ∈ rivals candidates w.
Proof.
  intros Hr Hg%btree_iter_elem Hw x. pose proof (by_slot_group ready s g) as Hs.
  rewrite (Hs x Hg). apply (Hs w Hg) in Hw as [_ <-]. unfold rivals. rewrite list_elem_of_filter, Hr. tauto.
Qed.

(** Verdicts and slots together: the rows so far, and the winners. *)
Lemma resolution_spec ordered rows ready rows' winners :
  NoDup (c_digest <$> ordered) ->
  foldl record_verdict (∅, []) ordered = (rows, ready) ->
  fold_res decide_slot (rows, []) (btree_iter (by_slot ready)) = Ok (rows', winners) ->
  exists E, rows' = ledger E /\ winners ++ (fst <$> E) ≡ₚ ordered /\
    (forall w, w ∈ winners <-> wins ordered w) /\
    (forall A, Forall (fun e => e.1 ∉ A -> e.2 = fate A ordered e.1) E).
Proof.
  intros Hnd Hv Hs. assert (NoDup ordered) as Hnd' by (by eapply NoDup_fmap_1).
  destruct (verdicts_spec ordered [] []) as (V & Hf & HpV & HV). change (ledger []) with (∅ : Rows) in Hf.
  rewrite Hf in Hv. injection Hv as <- <-. rewrite app_nil_r in Hs. cbn [app] in Hs.
  set (ready := List.filter is_ready ordered) in *.
  assert (forall c, c ∈ ready <-> c ∈ ordered /\ c_standing c = Ready) as Hready.
  { intros c. unfold ready, is_ready. rewrite list_elem_of_In, filter_In, <-list_elem_of_In. by rewrite bool_decide_eq_true. }
  assert (NoDup (c_digest <$> ready)) as Hndr.
  { eapply sublist_NoDup; [exact Hnd|]. apply fmap_sublist. unfold ready. clear.
    induction ordered as [|c l IH]; simpl; [constructor|]. destruct (is_ready c); by constructor. }
  apply slots_spec in Hs as (X & Y & [= -> ->] & HpX & HX & HW & HL).
  2: { apply Forall_forall. intros g Hg. by eapply group_ok. }
  cbn [app]. rewrite by_slot_perm in HpX. exists (X ++ V). split; [done|]. split.
  { rewrite fmap_app, app_assoc, HpX, HpV. unfold ready. clear.
    induction ordered as [|c l IH]; simpl; [done|]. destruct (is_ready c); simpl; [by rewrite IH|].
    by rewrite <-Permutation_middle, IH. }
  assert (forall g w x, g ∈ btree_iter (by_slot ready) -> w ∈ g.2 -> leads g.2 x <-> leads (rivals ordered w) x) as Hgr.
  { intros [s g] w x Hg Hw. apply leads_perm. by eapply group_rivals. }
  assert (forall w, w ∈ Y -> wins ordered w) as Hwin.
  { intros w Hw. destruct (HW _ Hw) as (g & Hg & Hl). apply (Hgr g w w Hg (proj1 Hl)), Hl. }
  assert (forall e, e ∈ X -> ~ wins ordered e.1) as Hlose.
  { intros e He Hwe. destruct (HL _ He) as (g & w & Hg & Heg & Hne & Hl).
    destruct (proj2 (Hgr g e.1 e.1 Hg Heg) Hwe) as [_ Hmin], Hl as [Hwg Hl].
    destruct (Hmin _ Hwg) as [|Hlt]; [congruence|]. destruct (Hl _ Heg) as [|Hlt']; [congruence|lia]. }
  split.
  - intros w. split; [apply Hwin|]. intros Hw. assert (w ∈ ready) as Hin.
    { destruct Hw as [Hin _]. unfold rivals in Hin. apply list_elem_of_filter in Hin as [[? _] ?]. by apply Hready. }
    rewrite <-HpX in Hin. apply elem_of_app in Hin as [|(e & -> & He)%list_elem_of_fmap]; [done|]. by destruct (Hlose _ He).
  - intros A. apply Forall_app. split; apply Forall_forall; intros e He HA; unfold fate.
    + assert (e.1 ∈ ready) as [_ Hst]%Hready.
      { rewrite <-HpX. apply elem_of_app. right. by apply list_elem_of_fmap_2. }
      rewrite Hst. simpl. rewrite decide_False by done. rewrite decide_False by (by apply Hlose).
      rewrite Forall_forall in HX. by apply HX.
    + rewrite Forall_forall in HV. destruct (HV _ He) as (s & r & -> & ->). done.
Qed.

Lemma validate_ok seen l :
  validate seen l = Ok tt -> NoDup (c_digest <$> l) /\ forall c, c ∈ l -> c_digest c ∉ seen /\ c_slot c <> "".
Proof.
  revert seen. induction l as [|c l IH]; intros seen; cbn [validate]; intros Hv.
  { split; [constructor|set_solver]. }
  inv_ok. unbool. apply IH in Hv as [Hnd Hl]. split.
  - constructor; [|done]. intros (c' & Hd & Hc')%list_elem_of_fmap. destruct (Hl _ Hc') as [Hn _]. set_solver.
  - intros c' [->|Hc']%elem_of_cons.
    + split; [done|]. by intros E; rewrite E in *.
    + destruct (Hl _ Hc'). set_solver.
Qed.

Lemma ledger_size E : NoDup (c_digest <$> (fst <$> E)) -> size (ledger E) = length E.
Proof.
  intros Hnd. unfold ledger. rewrite <-length_map_to_list, map_to_list_to_map; [by rewrite length_fmap|].
  by rewrite <-!list_fmap_compose in *.
Qed.

Lemma tool_sets_size authority A : NoDup (c_digest <$> A) -> size (tool_sets authority A) = length A.
Proof.
  intros Hnd. unfold tool_sets. rewrite <-length_map_to_list, map_to_list_to_map; [by rewrite length_fmap|].
  by rewrite <-list_fmap_compose.
Qed.

(** The state after the budget: one row per candidate, and the admitted. *)
Record settled (budget : option Z) (authority : Authority) (ordered : list Candidate) (s : Admission)
    (A : list Candidate) : Prop := {
  se_admitted : admitted budget ordered A;
  se_size : size (ad_rows s) = length ordered;
  se_rows : snd <$> map_to_list (ad_rows s) ≡ₚ fate A ordered <$> ordered;
  se_keys : forall d p, ad_rows s !! d = Some p -> p_digest p = d;
  se_tools : ad_tools s = tool_sets authority A;
  se_count : size (ad_tools s) = length A;
  se_bytes : ad_source_bytes s = bytes_of A;
  se_budget : forall b, budget = Some b -> (0 <= b)%Z -> (bytes_of A <= b)%Z;
  se_security : forall w, wins ordered w -> c_tier w = Security -> w ∈ A;
}.

Lemma compile_settles authority budget ordered rows ready rows' winners s :
  NoDup (c_digest <$> ordered) ->
  foldl record_verdict (∅, []) ordered = (rows, ready) ->
  fold_res decide_slot (rows, []) (btree_iter (by_slot ready)) = Ok (rows', winners) ->
  fold_res (admit_candidate authority)
    {| ad_rows := rows'; ad_remaining := budget; ad_source_bytes := 0; ad_tools := ∅ |}
    (sort_by canonical winners) = Ok s ->
  settled budget authority ordered s (greedy budget (sort_by canonical winners)).
Proof.
  intros Hnd Hv Hs Ha. destruct (resolution_spec _ _ _ _ _ Hnd Hv Hs) as (E & -> & Hp & Hw & HF).
  set (ws := sort_by canonical winners) in *. assert (ws ≡ₚ winners) as Hpw by apply sort_by_perm.
  assert (NoDup (c_digest <$> winners)) as Hndw.
  { rewrite <-Hp, fmap_app in Hnd. by apply NoDup_app in Hnd as [? _]. }
  assert (NoDup (c_digest <$> ws)) as Hndws by (by rewrite Hpw).
  assert (NoDup ws) as Hndws' by (by eapply NoDup_fmap_1).
  assert (NoDup ordered) as Hndo by (by eapply NoDup_fmap_1).
  apply (admissions_spec authority ws _ E []) in Ha as (X & HX & HpX & HFX & Ht & Hb & Hsec); [|done..].
  cbn [ad_remaining ad_source_bytes] in *. set (A := greedy budget ws) in *.
  assert (forall c, c ∈ ws <-> wins ordered c) as Hwin by (intros c; by rewrite Hpw, Hw).
  assert (A ⊆ ws) as HA by apply greedy_sub.
  assert (NoDup A) as HndA by (by apply greedy_nodup).
  assert (NoDup (c_digest <$> A)) as HndAd.
  { apply NoDup_fmap_2_strong; [|done]. intros x y Hx%HA Hy%HA Hd.
    apply list_elem_of_lookup in Hx as [i Hi], Hy as [j Hj].
    assert (i = j) as ->; [|congruence]. eapply (NoDup_lookup (c_digest <$> ws)); [done| |].
    - by rewrite list_lookup_fmap, Hi.
    - rewrite list_lookup_fmap, Hj. simpl. by rewrite Hd. }
  assert (fst <$> (X ++ E) ≡ₚ ordered) as Hall by (rewrite fmap_app, HpX, Hpw; exact Hp).
  assert (forall e, e ∈ X ++ E -> e.2 = fate A ordered e.1) as Hfate.
  { intros e [He|He]%elem_of_app.
    - rewrite Forall_forall in HFX. rewrite (HFX _ He).
      assert (wins ordered e.1) as He1 by (apply Hwin; rewrite <-HpX; by apply list_elem_of_fmap_2).
      assert (c_standing e.1 = Ready) as Hst.
      { destruct He1 as [Hin _]. unfold rivals in Hin. by apply list_elem_of_filter in Hin as [[? _] _]. }
      unfold admission_row, fate. rewrite Hst. simpl. case_decide; [done|]. by rewrite decide_True.
    - specialize (HF A). rewrite Forall_forall in HF. apply HF; [done|]. intros Hin%HA.
      assert (NoDup (winners ++ (fst <$> E))) as (_ & Hdis & _)%NoDup_app by (by rewrite Hp).
      apply (Hdis e.1); [by rewrite Hpw in Hin|by apply list_elem_of_fmap_2]. }
  assert (NoDup (c_digest <$> (fst <$> (X ++ E)))) as HndXE by (by rewrite Hall).
  split.
  - split; [done|]. intros c. unfold A at 1. rewrite greedy_spec by (done || apply sort_by_sorted, _). fold A.
    rewrite Hwin. assert (filter (fun y => y ∈ A /\ before y c) ws ≡ₚ filter (fun y => y ∈ A /\ before y c) ordered) as ->.
    { apply NoDup_Permutation; [by apply NoDup_filter..|]. intros y. rewrite !list_elem_of_filter.
      split; intros [[Hy Hbe] Hin]; (split; [done|]).
      - apply Hwin in Hin as [Hin _]. unfold rivals in Hin. by apply list_elem_of_filter in Hin as [_ ?].
      - by apply HA. }
    done.
  - rewrite HX, ledger_size by done. rewrite <-Hall, length_fmap. done.
  - rewrite HX. unfold ledger. rewrite map_to_list_to_map.
    + rewrite <-list_fmap_compose. transitivity (fate A ordered <$> (fst <$> (X ++ E))); [|by rewrite Hall].
      rewrite <-list_fmap_compose. rewrite (list_fmap_ext (snd ∘ _) (fate A ordered ∘ fst) (X ++ E)); [done|].
      intros i e He%list_elem_of_lookup_2. simpl. by apply Hfate.
    + by rewrite <-!list_fmap_compose in *.
  - intros d p. rewrite HX. unfold ledger. intros (e & [= -> ->] & He)%elem_of_list_to_map_2%list_elem_of_fmap.
    rewrite (Hfate _ He). apply fate_digest.
  - rewrite Ht, app_nil_r. unfold tool_sets. rewrite fmap_reverse. apply list_to_map_proper; [|by rewrite reverse_Permutation].
    rewrite reverse_Permutation. by rewrite <-list_fmap_compose.
  - rewrite Ht, app_nil_r, tool_sets_size, length_reverse; [done|]. by rewrite fmap_reverse, reverse_Permutation.
  - rewrite Hb. lia.
  - intros b -> Hb0. by apply greedy_bound.
  - intros w Hww Hsw. rewrite Forall_forall in Hsec. apply Hsec; [|done]. by apply Hwin.
Qed.

Lemma fate_perm A l k c : l ≡ₚ k -> fate A l c = fate A k c.
Proof.
  intros Hp. unfold fate. destruct (verdict _) as [[]|]; [done|]. case_decide; [done|].
  apply decide_ext. by apply wins_perm.
Qed.

Lemma settled_perm budget authority l k s A :
  l ≡ₚ k -> settled budget authority l s A -> settled budget authority k s A.
Proof.
  intros Hp [[Hnd Ha] Hsz Hr Hk Ht Hc Hb Hbu Hse]. split; try done.
  - split; [done|]. intros c. rewrite Ha, (wins_perm _ _ _ Hp). by rewrite Hp.
  - by rewrite <-Hp.
  - rewrite Hr, (list_fmap_ext (fate A l) (fate A k) l); [by apply fmap_Permutation|]. intros i c _. by apply fate_perm.
  - intros w Hw. apply Hse. by apply (wins_perm _ _ _ Hp).
Qed.

Definition by_digest (p q : Participation) : bool := String.leb (p_digest p) (p_digest q).

(** The rows of the record: every candidate's fate, in digest order. *)
Lemma settled_rows budget authority l s A :
  NoDup (c_digest <$> l) -> settled budget authority l s A ->
  btree_values (ad_rows s) = sort_by by_digest (fate A l <$> l).
Proof.
  intros Hnd Hs. pose proof (se_rows _ _ _ _ _ Hs) as Hr. pose proof (se_keys _ _ _ _ _ Hs) as Hk.
  assert (btree_values (ad_rows s) ≡ₚ fate A l <$> l) as Hp.
  { unfold btree_values, btree_iter. by rewrite sort_by_perm. }
  assert (StronglySorted by_digest (btree_values (ad_rows s))) as Hsort.
  { pose proof (btree_iter_keys (ad_rows s)) as Hasc. rewrite <-(btree_values_keys p_digest _ Hk) in Hasc. clear -Hasc.
    induction (btree_values (ad_rows s)) as [|p ps IH]; [constructor|].
    rewrite fmap_cons in Hasc. apply StronglySorted_cons in Hasc as [HF Hasc]. constructor; [by apply IH|].
    apply Forall_forall. intros q Hq. rewrite Forall_forall in HF. apply Is_true_true.
    specialize (HF _ (list_elem_of_fmap_2 p_digest _ _ Hq)). by apply Is_true_true, string_ltb_spec in HF as [? _]. }
  rewrite <-(sort_by_fixed by_digest _ Hsort). unfold by_digest in *.
  apply sort_by_unique; [apply _| |done].
  intros x y Hx Hy Hxy Hyx. pose proof (string_leb_antisym _ _ Hxy Hyx) as Hd. rewrite Hp in Hx, Hy.
  apply list_elem_of_fmap in Hx as (c & -> & Hc), Hy as (c' & -> & Hc'). rewrite !fate_digest in Hd. f_equal.
  apply list_elem_of_lookup in Hc as [i Hi], Hc' as [j Hj].
  assert (i = j) as ->; [|congruence]. eapply (NoDup_lookup (c_digest <$> l)); [done| |].
  - by rewrite list_lookup_fmap, Hi.
  - rewrite list_lookup_fmap, Hj. simpl. by rewrite Hd.
Qed.

Section Compiled.
Context `{ManifestHash}.

(** The body of a successful compile. *)
Lemma compile_ok request route authority candidates out :
  compile request route authority candidates = Ok out ->
  exists s A, NoDup (c_digest <$> candidates) /\
    settled (rq_budget request) authority candidates s A /\
    build_manifest request route authority s = Ok (cp_manifest out) /\
    cp_tools out = ad_tools s /\ cp_attribution out = attribution (cp_manifest out).
Proof.
  unfold compile. intros (u & Hv & Hc)%bind_ok_iff. destruct u. apply validate_ok in Hv as [Hnd _].
  pose proof (sort_by_perm canonical candidates) as Hp. unfold compile_ordered in Hc.
  destruct (foldl record_verdict _ _) as [rows ready] eqn:Ev.
  apply bind_ok_iff in Hc as ([rows' winners] & Hs & Hc). apply bind_ok_iff in Hc as (s & Ha & Hc).
  pose proof (compile_settles _ _ _ _ _ _ _ _ Hnd Ev Hs Ha) as Hset. inv_ok. eexists s, _. cbn.
  split; [by rewrite <-Hp|]. split; [by eapply settled_perm|]. done.
Qed.

Lemma build_manifest_ok request route authority s m :
  build_manifest request route authority s = Ok m ->
  rm_source_count m = Z.of_nat (size (ad_tools s)) /\ rm_source_bytes m = ad_source_bytes s /\
  rm_participations m = btree_values (ad_rows s) /\
  rm_evidence_ids m = dedup (sort_by String.leb (rq_evidence request)) /\
  manifest_digest m = Ok (rm_manifest_digest m).
Proof.
  unfold build_manifest. intros Hm. inv_ok. unfold map_err in *.
  repeat match goal with H : match ?x with _ => _ end = Ok _ |- _ => destruct x eqn:?; [|done] end. simplify_eq.
  repeat match goal with
  | H : record_count _ = Ok _ |- _ => apply record_count_ok in H as [-> _]
  | H : participation_records _ = Ok _ |- _ => apply participation_records_ok in H as ->
  | H : evidence_refs _ = Ok _ |- _ => apply evidence_refs_ok in H as -> end.
  done.
Qed.

Lemma tool_sets_narrow authority A d tools t :
  tool_sets authority A !! d = Some tools -> t ∈ tools -> t ∈ auth_tools authority.
Proof.
  unfold tool_sets. intros (c & [= -> ->] & _)%elem_of_list_to_map_2%list_elem_of_fmap Ht.
  by apply effective_spec in Ht as [_ ?].
Qed.

(** C37: A compilation records every candidate's fate: the upstream
    verdict, a precedence loss, a budget cut or admission, where the admitted
    ones are the winners of their slots that fit the budget taken greedily in
    canonical order, every security winner among them; an admitted source has
    the tools it claims that the authority grants and no others, the totals are
    those of the admitted ones and within the budget, the citations are the
    request's, ascending, and the digest is the manifest's own. *)
Theorem compile_resolves request route authority candidates out :
  (forall b, rq_budget request = Some b -> is_u64 b) ->
  compile request route authority candidates = Ok out ->
  let m := cp_manifest out in
  exists A,
    admitted (rq_budget request) candidates A /\
    rm_participations m = sort_by by_digest (fate A candidates <$> candidates) /\
    (forall w, wins candidates w -> c_tier w = Security -> w ∈ A) /\
    cp_tools out = tool_sets authority A /\
    (forall d tools t, cp_tools out !! d = Some tools -> t ∈ tools -> t ∈ auth_tools authority) /\
    rm_source_count m = Z.of_nat (length A) /\ rm_source_bytes m = bytes_of A /\
    (forall b, rq_budget request = Some b -> (rm_source_bytes m <= b)%Z) /\
    ascending (rm_evidence_ids m) /\ (forall e, e ∈ rm_evidence_ids m <-> e ∈ rq_evidence request) /\
    manifest_digest m = Ok (rm_manifest_digest m).
Proof.
  intros Hbud Hc m. subst m. destruct (compile_ok _ _ _ _ _ Hc) as (s & A & Hnd & Hs & Hm & Ht & _).
  apply build_manifest_ok in Hm as (-> & -> & -> & -> & Hd).
  pose proof (sort_dedup (rq_evidence request)) as [Hasc Hel].
  pose proof (settled_rows _ _ _ _ _ Hnd Hs) as Hrows.
  destruct Hs as [Ha _ _ _ Hts Hct Hb Hbu Hse]. exists A. rewrite Ht, Hts in *. split_and!; try done.
  - intros d tools t. apply tool_sets_narrow.
  - by rewrite Hct.
  - intros b Hb0. rewrite Hb. apply Hbu; [done|]. by apply Hbud.
Qed.

(** ** The order of the candidates *)

Lemma validate_keys seen l k :
  (fun c => (c_slot c, c_digest c)) <$> l = (fun c => (c_slot c, c_digest c)) <$> k ->
  validate seen l = validate seen k.
Proof.
  revert seen k. induction l as [|c l IH]; intros seen [|c' k] He; try done.
  rewrite !fmap_cons in He. injection He as Hs Hd He. cbn [validate]. by rewrite Hs, Hd, (IH _ _ He).
Qed.

Lemma sorted_keys l k :
  l ≡ₚ k -> canonical_key <$> sort_by canonical l = canonical_key <$> sort_by canonical k.
Proof.
  intros Hp. unfold canonical. rewrite !(sort_by_fmap canonical_key key_leb).
  apply sort_by_unique; [apply _| |by rewrite Hp]. intros x y _ _. apply key_leb_antisym.
Qed.

(** The outcome of a compilation, refusals included, does not
    depend on the order in which the candidates were offered. *)
Theorem compile_is_order_blind request route authority candidates candidates' :
  candidates ≡ₚ candidates' ->
  compile request route authority candidates = compile request route authority candidates'.
Proof.
  intros Hp. unfold compile. rewrite (validate_keys ∅ (sort_by canonical candidates) (sort_by canonical candidates')).
  2: { pose proof (f_equal (fmap (fun k : Z * string * string => (k.1.2, k.2))) (sorted_keys _ _ Hp)) as He.
       by rewrite <-!list_fmap_compose in He. }
  destruct (validate _ _) as [[]|] eqn:Ev; [|done]. cbn. apply validate_ok in Ev as [Hnd _].
  rewrite (Permutation_length Hp). f_equal. apply sort_by_unique; [apply _| |done].
  intros x y Hx Hy. apply (canonical_antisym candidates); [|done|done]. rewrite Hp. by rewrite sort_by_perm in Hnd.
Qed.

(** ** What a refusal means *)

Lemma validate_err seen l e :
  validate seen l = Err e ->
  match e with
  | EmptySlot d => exists c, c ∈ l /\ c_digest c = d /\ c_slot c = ""
  | SlotTooLong d => exists c, c ∈ l /\ c_digest c = d /\ (CONTEXT_ID_MAX_BYTES < Str.len (c_slot c))%Z
  | DuplicateCandidate d => exists i j c c', l !! j = Some c /\ c_digest c = d /\
      (d ∈ seen \/ i < j /\ l !! i = Some c' /\ c_digest c' = d)
  | _ => False
  end.
Proof.
  revert seen. induction l as [|c l IH]; intros seen; cbn [validate]; [done|].
  destruct (Str.is_empty (c_slot c)) eqn:E1; cbn.
  { intros [= <-]. exists c. split; [by left|]. split; [done|]. by destruct (c_slot c). }
  destruct (Z.leb_spec (Str.len (c_slot c)) CONTEXT_ID_MAX_BYTES); cbn.
  2: { intros [= <-]. exists c. split; [by left|]. done. }
  case_bool_decide as Hs; cbn.
  2: { intros [= <-]. exists 0, 0, c, c. split; [done|]. split; [done|]. left. by destruct (decide (c_digest c ∈ seen)). }
  intros He%IH. destruct e as [d|d|d| | | | | | |]; try done.
  - destruct He as (c' & ? & ?). exists c'. split; [by right|done].
  - destruct He as (c' & ? & ?). exists c'. split; [by right|done].
  - destruct He as (i & j & x & x' & Hj & Hd & [Hin|(Hij & Hi & Hd')]).
    + apply elem_of_union in Hin as [->%elem_of_singleton|Hin].
      * exists 0, (S j), x, c. split; [done|]. split; [done|]. right. split; [lia|done].
      * exists 0, (S j), x, x. split; [done|]. split; [done|]. by left.
    + exists (S i), (S j), x, x'. split; [done|]. split; [done|]. right. split; [lia|done].
Qed.

Lemma admit_totals authority ws s s' :
  fold_res (admit_candidate authority) s ws = Ok s' ->
  let A := greedy (ad_remaining s) ws in
  ad_remaining s' = (fun r => (r - bytes_of A)%Z) <$> ad_remaining s /\
  ad_source_bytes s' = (ad_source_bytes s + bytes_of A)%Z.
Proof.
  revert s. induction ws as [|w ws IH]; intros s; cbn [fold_res greedy].
  { intros [= <-]. destruct (ad_remaining s) as [r|]; simpl; split; try lia; f_equal; lia. }
  intros (s1 & Ha & Hr)%bind_ok_iff. apply IH in Hr as [Hrem Hsb]. unfold admit_candidate in Ha.
  destruct (fits (ad_remaining s) (c_bytes w)) eqn:Ef.
  - apply bind_ok_iff in Ha as (sb & Hs & [= <-]). apply ok_or_ok_iff, checked_add_some in Hs as [-> _].
    cbn [ad_remaining ad_source_bytes] in *. rewrite Hrem, Hsb. change (bytes_of (w :: ?A)) with (c_bytes w + bytes_of A)%Z.
    split; [|lia]. destruct (ad_remaining s); [|done]. simpl. f_equal. lia.
  - destruct (decide _); [done|]. by injection Ha as <-.
Qed.

(** The conflict of a slot names its top tier and counts who speaks for it. *)
Lemma decide_slot_err s name group e :
  NoDup (c_digest <$> group) -> decide_slot s (name, group) = Err e ->
  exists conflict, e = TierConflict name conflict /\
    pc_distinct_values conflict = length (filter (fun c => c_tier c = pc_tier conflict) group) /\
    2 <= pc_distinct_values conflict /\
    forall c, c ∈ group -> (tier_rank (pc_tier conflict) <= tier_rank (c_tier c))%Z.
Proof.
  intros Hnd. unfold decide_slot. cbn [fst snd].
  set (f := fun c => {| ct_tier := c_tier c; ct_value := c_digest c |}).
  pose proof (resolve_spec (f <$> group)) as Hr. destruct (resolve _) as [[i|]|conflict]; [done|done|].
  intros [= <-]. exists conflict. destruct Hr as (Hd & H2 & Hmin). split; [done|]. split; [|split; [done|]].
  - rewrite Hd. assert (tier_values (pc_tier conflict) (f <$> group) =
      c_digest <$> filter (fun c => c_tier c = pc_tier conflict) group) as ->.
    { unfold tier_values. clear. induction group as [|c group IH]; [done|].
      rewrite fmap_cons, !filter_cons. cbn [ct_tier f]. case_decide; rewrite ?fmap_cons, IH; done. }
    assert (NoDup (c_digest <$> filter (fun c => c_tier c = pc_tier conflict) group)) as Hn.
    { eapply sublist_NoDup; [exact Hnd|]. apply fmap_sublist, sublist_filter. }
    transitivity (length (c_digest <$> filter (fun c => c_tier c = pc_tier conflict) group)); [|by rewrite length_fmap].
    apply Permutation_length, NoDup_Permutation; [apply NoDup_remove_dups|done|]. intros x. apply elem_of_remove_dups.
  - intros c Hc. apply (Hmin (f c)). by apply list_elem_of_fmap_2.
Qed.

Lemma bytes_of_sub l k :
  NoDup l -> l ⊆ k -> Forall (fun c => 0 <= c_bytes c)%Z k -> (bytes_of l <= bytes_of k)%Z.
Proof.
  intros Hnd. revert k. induction Hnd as [|x l Hx Hnd IH]; intros k Hs HF; simpl.
  { clear Hs. induction HF; simpl; lia. }
  assert (x ∈ k) as Hk by (apply Hs; left). apply list_elem_of_split in Hk as (k1 & k2 & ->).
  rewrite <-Permutation_middle in HF |- *. simpl. apply Forall_cons in HF as [_ HF].
  enough (bytes_of l <= bytes_of (k1 ++ k2))%Z by lia. apply IH; [|done]. intros y Hy. specialize (Hs y ltac:(by right)).
  assert (y <> x) by (by intros ->). set_solver.
Qed.

Lemma ready_rows ordered rows ready :
  foldl record_verdict (∅, []) ordered = (rows, ready) ->
  ready = filter (fun c => c_standing c = Ready) ordered.
Proof.
  intros Hv. destruct (verdicts_spec ordered [] []) as (V & Hf & _). change (ledger []) with (∅ : Rows) in Hf.
  rewrite Hf in Hv. injection Hv as _ <-. cbn [app]. clear. induction ordered as [|c l IH]; [done|].
  rewrite filter_cons. cbn [List.filter]. unfold is_ready at 1. case_bool_decide; case_decide; try done; by f_equal.
Qed.

(** A slot refuses when its top tier disagrees with itself. *)
Lemma slots_err candidates ready s e :
  NoDup (c_digest <$> ready) -> NoDup candidates ->
  (forall c, c ∈ ready <-> c_standing c = Ready /\ c ∈ candidates) ->
  fold_res decide_slot s (btree_iter (by_slot ready)) = Err e ->
  match e with
  | TierConflict slot conflict =>
      let speaks c := c_standing c = Ready /\ c_slot c = slot in
      pc_distinct_values conflict = length (filter (fun c => speaks c /\ c_tier c = pc_tier conflict) candidates) /\
      2 <= pc_distinct_values conflict /\
      forall c, c ∈ candidates -> speaks c -> (tier_rank (pc_tier conflict) <= tier_rank (c_tier c))%Z
  | _ => False
  end.
Proof.
  intros Hndr Hnd Hready (pre & [slot g] & post & s' & Hl & _ & He)%fold_res_err.
  assert ((slot, g) ∈ btree_iter (by_slot ready)) as Hg by (rewrite Hl; set_solver).
  pose proof (group_ok _ _ Hndr Hg) as [Hndg _]. apply decide_slot_err in He as (cf & -> & Hd & H2 & Hmin); [|done].
  apply btree_iter_elem in Hg. pose proof (fun c => by_slot_group _ _ _ c Hg) as Hin.
  assert (forall c, c ∈ g <-> c ∈ candidates /\ c_standing c = Ready /\ c_slot c = slot) as Hing.
  { intros c. rewrite Hin, Hready. tauto. }
  cbn zeta. split; [|split; [done|]].
  - rewrite Hd. apply Permutation_length, NoDup_Permutation.
    + apply NoDup_filter. by eapply NoDup_fmap_1.
    + by apply NoDup_filter.
    + intros c. rewrite !list_elem_of_filter, Hing. tauto.
  - intros c Hc Hsp. by apply Hmin, Hing.
Qed.

(** The budget refuses a security constraint it cannot keep, or a sum past 64 bits. *)
Lemma admit_err authority budget ws rows e :
  (forall b, budget = Some b -> is_u64 b) -> NoDup ws -> Forall (fun c => 0 <= c_bytes c)%Z ws ->
  fold_res (admit_candidate authority)
    {| ad_rows := rows; ad_remaining := budget; ad_source_bytes := 0; ad_tools := ∅ |} ws = Err e ->
  match e with
  | SecurityCut d bytes remaining => exists w b, w ∈ ws /\ c_tier w = Security /\ c_digest w = d /\
      c_bytes w = bytes /\ budget = Some b /\ (remaining < bytes)%Z /\ (remaining <= b)%Z
  | SourceBytesOverflow => budget = None /\ (u64_max < bytes_of ws)%Z
  | _ => False
  end.
Proof.
  intros Hbud Hnd Hpos (pre & w & post & s & Hl & Hpre & He)%fold_res_err.
  apply admit_totals in Hpre as [Hrem Hsb]. cbn [ad_remaining ad_source_bytes] in *. set (A := greedy budget pre) in *.
  assert (NoDup pre) as Hndp by (rewrite Hl in Hnd; by apply NoDup_app in Hnd as [? _]).
  assert (A ⊆ pre) as HA by apply greedy_sub. assert (NoDup A) as HndA by (by apply greedy_nodup).
  assert (0 <= bytes_of A)%Z as HA0.
  { change 0%Z with (bytes_of []). apply bytes_of_sub; [constructor|set_solver|].
    rewrite Forall_forall in *. intros c Hc%HA. apply Hpos. rewrite Hl. set_solver. }
  assert (w ∈ ws) as Hw by (rewrite Hl; set_solver). unfold admit_candidate in He. rewrite Hrem, Hsb in He.
  destruct budget as [b|]; cbn [fmap option_fmap option_map fits] in He.
  - destruct (Z.leb_spec (c_bytes w) (b - bytes_of A)) as [Hle|Hgt].
    + unfold checked_add in He. rewrite (proj2 (Z.leb_le _ _)) in He; [done|]. specialize (Hbud _ eq_refl).
      unfold is_u64 in Hbud. lia.
    + destruct (decide (c_tier w = Security)) as [Hsec|]; [|done]. injection He as <-. exists w, b. simpl. split_and!; try done; lia.
  - destruct (checked_add u64_max (0 + bytes_of A) (c_bytes w)) eqn:Eo; [done|]. injection He as <-.
    apply checked_add_none in Eo. split; [done|].
    assert (bytes_of (w :: A) <= bytes_of ws)%Z as Hle; [|simpl in Hle; lia].
    apply bytes_of_sub; [|intros c [->|Hc%HA]%elem_of_cons; [done|rewrite Hl; set_solver]|done].
    constructor; [|done]. intros Hin%HA. rewrite Hl in Hnd. apply NoDup_app in Hnd as (_ & Hdis & _).
    apply (Hdis _ Hin). left.
Qed.

Lemma build_manifest_err request route authority s e :
  build_manifest request route authority s = Err e ->
  match e with Bound _ | Encode => True | _ => False end.
Proof.
  assert (forall A B C (f : B -> CompileError) (m : result B A) (k : A -> result CompileError C) e,
    (forall b, match f b with Bound _ | Encode => True | _ => False end) ->
    (forall a, k a = Err e -> match e with Bound _ | Encode => True | _ => False end) ->
    (map_err f m ≫= k) = Err e -> match e with Bound _ | Encode => True | _ => False end) as Hstep.
  { intros A B C f [a|b] k e' Hf Hk; cbn; [apply Hk|]. intros [= <-]. apply Hf. }
  unfold build_manifest, manifest_digest. cbn zeta. intros [Hu|(u & _ & Hm)]%bind_err_iff.
  { destruct (_ <=? _)%Z; simpl in Hu; simplify_eq. done. }
  revert Hm. apply Hstep; [done|intros n]. apply Hstep; [done|intros ps]. apply Hstep; [done|intros evs].
  intros [[Hj|(bytes & _ & Hj)]%bind_err_iff|(d & _ & ?)]%bind_err_iff; [| |done].
  - destruct (manifest_json _); simpl in Hj; simplify_eq. done.
  - destruct (from_hex _); simpl in Hj; simplify_eq. done.
Qed.

(** What each refusal of the compiler means: the offender it
    names is among the candidates with that fault; a conflict counts the ready
    candidates of the slot at its top tier; a security cut names a security
    winner that does not fit; an overflow is one.  The two self-checks (a row
    per candidate, no widened tool set) never fail. *)
Theorem compile_refusals_say_why request route authority candidates e :
  (forall b, rq_budget request = Some b -> is_u64 b) -> Forall (fun c => 0 <= c_bytes c)%Z candidates ->
  compile request route authority candidates = Err e ->
  match e with
  | EmptySlot d => exists c, c ∈ candidates /\ c_digest c = d /\ c_slot c = ""
  | SlotTooLong d => exists c, c ∈ candidates /\ c_digest c = d /\ (CONTEXT_ID_MAX_BYTES < Str.len (c_slot c))%Z
  | DuplicateCandidate d => 2 <= length (filter (fun c => c_digest c = d) candidates)
  | TierConflict slot conflict =>
      let speaks c := c_standing c = Ready /\ c_slot c = slot in
      pc_distinct_values conflict = length (filter (fun c => speaks c /\ c_tier c = pc_tier conflict) candidates) /\
      2 <= pc_distinct_values conflict /\
      forall c, c ∈ candidates -> speaks c -> (tier_rank (pc_tier conflict) <= tier_rank (c_tier c))%Z
  | SecurityCut d bytes remaining => exists w b,
      wins candidates w /\ c_tier w = Security /\ c_digest w = d /\ c_bytes w = bytes /\
      rq_budget request = Some b /\ (remaining < bytes)%Z /\ (remaining <= b)%Z
  | SourceBytesOverflow =>
      rq_budget request = None /\ (u64_max < bytes_of (filter (wins candidates) candidates))%Z
  | Incomplete _ _ | Widened _ _ => False
  | Bound _ | Encode => True
  end.
Proof.
  intros Hbud Hpos. unfold compile. set (ordered := sort_by canonical candidates).
  assert (ordered ≡ₚ candidates) as Hp by apply sort_by_perm. intros [Hv|([] & Hv & Hc)]%bind_err_iff.
  { apply validate_err in Hv. destruct e as [d|d|d| | | | | | |]; try done.
    - by setoid_rewrite Hp in Hv.
    - by setoid_rewrite Hp in Hv.
    - destruct Hv as (i & j & c & c' & Hj & Hd & [?|(Hij & Hi & Hd')]); [set_solver|]. rewrite <-Hp.
      rewrite <-(take_drop j ordered), filter_app, length_app. rewrite (drop_S _ _ _ Hj), filter_cons_True by done.
      assert (c' ∈ filter (fun c => c_digest c = d) (take j ordered)) as Hin.
      { apply list_elem_of_filter. split; [done|]. apply list_elem_of_lookup. exists i. by rewrite lookup_take_lt. }
      destruct (filter _ (take j ordered)); [by apply elem_of_nil in Hin|]. simpl. lia. }
  apply validate_ok in Hv as [Hnd _]. unfold compile_ordered in Hc.
  destruct (foldl record_verdict _ _) as [rows ready] eqn:Ev. pose proof (ready_rows _ _ _ Ev) as Hready.
  assert (NoDup (c_digest <$> ready)) as Hndr.
  { rewrite Hready. eapply sublist_NoDup; [exact Hnd|]. apply fmap_sublist, sublist_filter. }
  apply bind_err_iff in Hc as [Hs|([rows' winners] & Hs & Hc)].
  { apply (slots_err candidates) in Hs; [by destruct e|done|by rewrite <-Hp; eapply NoDup_fmap_1|].
    intros c. by rewrite Hready, list_elem_of_filter, Hp. }
  destruct (resolution_spec _ _ _ _ _ Hnd Ev Hs) as (E & -> & HpE & Hwin & _).
  apply bind_err_iff in Hc as [Ha|(s & Ha & Hc)].
  { apply (admit_err authority (rq_budget request) (sort_by canonical winners)) in Ha; [|done| |].
    - destruct e; try done.
      + destruct Ha as (w & b & Hw & Ha). exists w, b. split; [|done]. apply (wins_perm _ _ _ Hp), Hwin. by rewrite sort_by_elem_of in Hw.
      + destruct Ha as [-> Ha]. split; [done|]. eapply Z.lt_le_trans; [exact Ha|]. apply bytes_of_sub.
        * rewrite sort_by_perm. apply (NoDup_app winners (fst <$> E)). rewrite HpE. by eapply NoDup_fmap_1.
        * intros w Hw. rewrite sort_by_elem_of in Hw. apply Hwin, (wins_perm _ _ _ Hp) in Hw. apply list_elem_of_filter.
          split; [done|]. destruct Hw as [Hw _]. by apply list_elem_of_filter in Hw as [_ ?].
        * rewrite Forall_forall in *. intros c [_ Hc]%list_elem_of_filter. by apply Hpos.
    - rewrite sort_by_perm. apply (NoDup_app winners (fst <$> E)). rewrite HpE. by eapply NoDup_fmap_1.
    - rewrite sort_by_perm. rewrite <-Hp, <-HpE in Hpos. by apply Forall_app in Hpos as [? _]. }
  pose proof (compile_settles _ _ _ _ _ _ _ _ Hnd Ev Hs Ha) as Hset.
  rewrite (se_size _ _ _ _ _ Hset), <-(Permutation_length Hp), Nat.eqb_refl in Hc. cbn [ensure mbind result_bind] in Hc.
  rewrite check_narrow_ok in Hc.
  - cbn [mbind result_bind] in Hc. destruct (build_manifest _ _ _ _) as [|e'] eqn:Eb; [done|]. injection Hc as <-.
    apply build_manifest_err in Eb. by destruct e'.
  - apply Forall_forall. intros [d ts] Hin%btree_iter_elem. rewrite (se_tools _ _ _ _ _ Hset) in Hin.
    unfold tool_sets in Hin. apply elem_of_list_to_map_2, list_elem_of_fmap in Hin as (c & [= _ ->] & _). by exists c.
Qed.
End Compiled.
