(* ===== verification/Verify.v ===== *)
(** * The Context verifier (gwk-context-verifier/src/verify.rs)

    The second reading of the canonical form: a manifest and its supplements
    checked by code that did not build them.  The theorems: what acceptance
    means, record by record; and that the verifier accepts what the compiler
    emits, the two crates sharing only the record types and the hash. *)

From S2P Require Import Prelude Text Fsm Envelope Transition Command Ordered Truth Compile.

Module Verifier.

Definition MANIFEST_DIGEST_PLACEHOLDER_HEX : string :=
  "0000000000000000000000000000000000000000000000000000000000000000".

Inductive VerifyError :=
| ManifestDigest (recorded recomputed : string)
| VerifyEncode
| ParticipationOrder (position : nat)
| ParticipationDuplicate (digest : string)
| SourceCount (recorded : Z) (active : nat)
| EvidenceOrder (position : nat)
| EvidenceDuplicate (id : string)
| SupplementBinding (named expected : string)
| ObservationSequence (position : nat) (index : Z)
| ObservationCount (recorded : Z) (observed : nat)
| EvidenceUnresolved (id : string)
| LifecycleIncomplete.

Record Package := {
  pk_manifest : ResolvedManifest;
  pk_release : option ReleaseSupplement;
  pk_observations : list ObservationSupplement;
  pk_finalization : option FinalizationSupplement;
}.

(** [char::from_digit(n, 16)]. *)
Definition from_digit16 (n : Z) : option Ascii.ascii :=
  if (n <? 10)%Z then Some (Ascii.ascii_of_N (Z.to_N (48 + n)))
  else if (n <? 16)%Z then Some (Ascii.ascii_of_N (Z.to_N (87 + n))) else None.

Definition zero_char : Ascii.ascii := Ascii.ascii_of_N 48.

Fixpoint hex_lower (bytes : list Z) : string :=
  match bytes with
  | [] => ""
  | b :: bytes =>
      String (default zero_char (from_digit16 (Z.shiftr b 4)))
        (String (default zero_char (from_digit16 (Z.land b 15))) (hex_lower bytes))
  end.

(** The order check of participations: [windows(2)], from [position] on. *)
Fixpoint check_digests (position : nat) (rows : list Participation) : result VerifyError unit :=
  match rows with
  | a :: ((b :: _) as rows) =>
      match String.compare (p_digest a) (p_digest b) with
      | Lt => check_digests (S position) rows
      | Eq => Err (ParticipationDuplicate (p_digest a))
      | Gt => Err (ParticipationOrder (S position))
      end
  | _ => Ok tt
  end.

(** [evidence_is_ordered_and_unique], from [position] on. *)
Fixpoint check_evidence (position : nat) (ids : list string) : result VerifyError unit :=
  match ids with
  | a :: ((b :: _) as ids) =>
      match String.compare a b with
      | Lt => check_evidence (S position) ids
      | Eq => Err (EvidenceDuplicate a)
      | Gt => Err (EvidenceOrder (S position))
      end
  | _ => Ok tt
  end.
Definition evidence_is_ordered_and_unique (ids : list string) : result VerifyError unit := check_evidence 0 ids.

Definition is_active (p : Participation) : bool := bool_decide (p_state p = PsActive).
Definition count_active (rows : list Participation) : nat := length (List.filter is_active rows).

Definition binds_to (named expected : string) : result VerifyError unit :=
  ensure (bool_decide (named = expected)) (SupplementBinding named expected).

(** The loop over the observations, from [position] on. *)
Fixpoint check_observations (manifest_id : string) (position : nat) (l : list ObservationSupplement)
  : result VerifyError unit :=
  match l with
  | [] => Ok tt
  | o :: l =>
      _ ← binds_to (ob_manifest_id o) manifest_id;
      _ ← evidence_is_ordered_and_unique (ob_evidence_ids o);
      let expected := Z.min (Z.of_nat (S position)) u32_max in
      _ ← ensure (ob_observation_index o =? expected)%Z (ObservationSequence position (ob_observation_index o));
      check_observations manifest_id (S position) l
  end.

Definition cited_evidence (p : Package) : gset string :=
  list_to_set (rm_evidence_ids (pk_manifest p))
  ∪ match pk_release p with Some r => list_to_set (rl_evidence_ids r) | None => ∅ end
  ∪ list_to_set (concat (ob_evidence_ids <$> pk_observations p))
  ∪ match pk_finalization p with Some f => list_to_set (fz_evidence_ids f) | None => ∅ end.

Definition check_known (known : gset string) (_ : unit) (id : string) : result VerifyError unit :=
  ensure (bool_decide (id ∈ known)) (EvidenceUnresolved id).

Section Verify.
Context `{ManifestHash}.

Definition manifest_digest (m : ResolvedManifest) : result VerifyError string :=
  zeros ← map_err (fun _ => VerifyEncode) (from_hex MANIFEST_DIGEST_PLACEHOLDER_HEX);
  bytes ← ok_or (manifest_json (with_manifest_digest zeros m)) VerifyEncode;
  map_err (fun _ => VerifyEncode) (from_hex (hex_lower (sha256 bytes))).

Definition verify_manifest (m : ResolvedManifest) : result VerifyError unit :=
  recomputed ← manifest_digest m;
  _ ← ensure (bool_decide (recomputed = rm_manifest_digest m)) (ManifestDigest (rm_manifest_digest m) recomputed);
  let rows := rm_participations m in
  _ ← check_digests 0 rows;
  let active := count_active rows in
  _ ← ensure (rm_source_count m =? Z.of_nat active)%Z (SourceCount (rm_source_count m) active);
  evidence_is_ordered_and_unique (rm_evidence_ids m).

Definition verify (p : Package) (known_evidence : gset string) : result VerifyError unit :=
  _ ← verify_manifest (pk_manifest p);
  let manifest_id := rm_id (pk_manifest p) in
  _ ← match pk_release p with
      | Some r =>
          _ ← binds_to (rl_manifest_id r) manifest_id;
          evidence_is_ordered_and_unique (rl_evidence_ids r)
      | None => Ok tt
      end;
  _ ← check_observations manifest_id 0 (pk_observations p);
  _ ← match pk_finalization p with
      | Some f =>
          _ ← binds_to (fz_manifest_id f) manifest_id;
          _ ← evidence_is_ordered_and_unique (fz_evidence_ids f);
          _ ← ensure (fz_observation_count f =? Z.of_nat (length (pk_observations p)))%Z
                (ObservationCount (fz_observation_count f) (length (pk_observations p)));
          ensure (negb (fz_lifecycle_complete f && negb (is_some (pk_release p)))) LifecycleIncomplete
      | None => Ok tt
      end;
  fold_res (check_known known_evidence) tt (sort_by String.leb (elements (cited_evidence p))).
End Verify.
End Verifier.
Import Verifier.

(** ** What acceptance means *)

Lemma ascending_pair a b l :
  ascending (a :: b :: l) <-> string_ltb a b = true /\ ascending (b :: l).
Proof.
  unfold ascending. rewrite (StronglySorted_cons _ (b :: l)), Forall_cons. split.
  - intros [[Hab _] Hs]. split; [by apply Is_true_true|done].
  - intros [Hab Hs]. split; [|done]. split; [by apply Is_true_true|].
    apply StronglySorted_cons in Hs as [HF _]. eapply Forall_impl; [exact HF|]. intros x Hx%Is_true_true.
    apply Is_true_true, string_ltb_spec. apply string_ltb_spec in Hab as [Hab Hne], Hx as [Hbx Hne'].
    split; [by eapply leb_trans; [apply _| |]|]. intros <-. apply Hne. by apply string_leb_antisym.
Qed.

Lemma ascending_small l : length l <= 1 -> ascending l.
Proof. destruct l as [|a [|b l]]; simpl; [constructor|repeat constructor|lia]. Qed.

Lemma check_evidence_cons n a b l :
  check_evidence n (a :: b :: l) =
  match String.compare a b with
  | Lt => check_evidence (S n) (b :: l)
  | Eq => Err (EvidenceDuplicate a)
  | Gt => Err (EvidenceOrder (S n))
  end.
Proof. done. Qed.

Lemma check_digests_cons n a b l :
  check_digests n (a :: b :: l) =
  match String.compare (p_digest a) (p_digest b) with
  | Lt => check_digests (S n) (b :: l)
  | Eq => Err (ParticipationDuplicate (p_digest a))
  | Gt => Err (ParticipationOrder (S n))
  end.
Proof. done. Qed.

Lemma check_evidence_ok n ids : check_evidence n ids = Ok tt <-> ascending ids.
Proof.
  revert n. induction ids as [|a [|b l] IH]; intros n; [split; [constructor|done]|split; [by repeat constructor|done]|].
  rewrite ascending_pair, <-string_compare_lt. rewrite check_evidence_cons. destruct (String.compare a b) eqn:E.
  - naive_solver.
  - rewrite (IH (S n)). tauto.
  - naive_solver.
Qed.

Lemma check_digests_ok n rows : check_digests n rows = Ok tt <-> ascending (p_digest <$> rows).
Proof.
  revert n. induction rows as [|a [|b l] IH]; intros n; [split; [constructor|done]|split; [by repeat constructor|done]|].
  rewrite !fmap_cons, ascending_pair, <-string_compare_lt, check_digests_cons.
  destruct (String.compare (p_digest a) (p_digest b)) eqn:E.
  - naive_solver.
  - rewrite (IH (S n)), fmap_cons. tauto.
  - naive_solver.
Qed.

Lemma binds_to_ok a b : binds_to a b = Ok tt <-> a = b.
Proof. unfold binds_to. rewrite ensure_ok_iff. apply bool_decide_eq_true. Qed.

Section Accept.
Context `{ManifestHash}.

(** A manifest that is what it says it is. *)
Record sound_manifest (m : ResolvedManifest) : Prop := {
  sm_digest : Verifier.manifest_digest m = Ok (rm_manifest_digest m);
  sm_rows : ascending (p_digest <$> rm_participations m);
  sm_count : rm_source_count m = Z.of_nat (count_active (rm_participations m));
  sm_evidence : ascending (rm_evidence_ids m);
}.

Lemma verify_manifest_ok m : verify_manifest m = Ok tt <-> sound_manifest m.
Proof.
  unfold verify_manifest, evidence_is_ordered_and_unique. split.
  - intros Hv. inv_ok. repeat match goal with r : unit |- _ => destruct r end. unbool. subst.
    match goal with H : check_digests _ _ = _ |- _ => apply check_digests_ok in H end.
    apply check_evidence_ok in Hv. by split.
  - intros [-> Hr Hc He]. cbn. rewrite bool_decide_eq_true_2 by done. cbn.
    rewrite (proj2 (check_digests_ok _ _) Hr). cbn. rewrite Hc, Z.eqb_refl. cbn. by apply check_evidence_ok.
Qed.

(** The records of one attempt, agreeing with each other and with the store. *)
Record sound_package (p : Package) (known : gset string) : Prop := {
  sp_manifest : sound_manifest (pk_manifest p);
  sp_release r : pk_release p = Some r ->
    rl_manifest_id r = rm_id (pk_manifest p) /\ ascending (rl_evidence_ids r);
  sp_observations i o : pk_observations p !! i = Some o ->
    ob_manifest_id o = rm_id (pk_manifest p) /\ ascending (ob_evidence_ids o) /\
    ob_observation_index o = Z.min (Z.of_nat (S i)) u32_max;
  sp_finalization f : pk_finalization p = Some f ->
    fz_manifest_id f = rm_id (pk_manifest p) /\ ascending (fz_evidence_ids f) /\
    fz_observation_count f = Z.of_nat (length (pk_observations p)) /\
    (fz_lifecycle_complete f = true -> is_Some (pk_release p));
  sp_cited : cited_evidence p ⊆ known;
}.

Lemma check_observations_ok id n l :
  check_observations id n l = Ok tt <->
  forall i o, l !! i = Some o -> ob_manifest_id o = id /\ ascending (ob_evidence_ids o) /\
    ob_observation_index o = Z.min (Z.of_nat (S (n + i))) u32_max.
Proof.
  revert n. induction l as [|o l IH]; intros n; cbn [check_observations].
  { split; [by intros _ ? ?; rewrite lookup_nil|done]. }
  unfold evidence_is_ordered_and_unique. split.
  - intros Hv. inv_ok. repeat match goal with r : unit |- _ => destruct r end. unbool.
    match goal with H : binds_to _ _ = _ |- _ => apply binds_to_ok in H end.
    match goal with H : check_evidence _ _ = _ |- _ => apply check_evidence_ok in H end.
    pose proof (proj1 (IH _) Hv) as Hv'. intros [|i] o' Hi; simpl in Hi.
    + injection Hi as <-. by rewrite Nat.add_0_r.
    + destruct (Hv' _ _ Hi) as (? & ? & ->). split; [done|]. split; [done|]. do 2 f_equal. lia.
  - intros Hall. destruct (Hall 0 o eq_refl) as (Hb & He & Hi). rewrite Nat.add_0_r in Hi.
    rewrite (proj2 (binds_to_ok _ _) Hb), (proj2 (check_evidence_ok _ _) He). cbn.
    rewrite Hi, Z.eqb_refl. cbn. apply IH. intros i o' Ho. destruct (Hall (S i) o' Ho) as (? & ? & ->).
    split; [done|]. split; [done|]. do 2 f_equal. lia.
Qed.

Lemma check_known_ok known ids :
  fold_res (check_known known) tt ids = Ok tt <-> forall id, id ∈ ids -> id ∈ known.
Proof.
  assert (forall u id, check_known known u id = Ok tt <-> id ∈ known) as Hone.
  { intros u id. unfold check_known. rewrite ensure_ok_iff. apply bool_decide_eq_true. }
  induction ids as [|id ids IH]; cbn [fold_res]; [set_solver|]. rewrite bind_ok_iff. split.
  - intros ([] & Hid%Hone & Hr). rewrite IH in Hr. set_solver.
  - intros Hall. exists tt. split; [apply Hone; set_solver|]. apply IH. set_solver.
Qed.

Lemma verify_ok p known : verify p known = Ok tt <-> sound_package p known.
Proof.
  unfold verify, evidence_is_ordered_and_unique. cbn zeta. split.
  - intros Hv. inv_ok. repeat match goal with r : unit |- _ => destruct r end.
    pose proof (proj1 (check_known_ok _ _) Hv) as Hk. setoid_rewrite sort_by_elem_of in Hk.
    setoid_rewrite elem_of_elements in Hk.
    apply verify_manifest_ok in Hrun. pose proof (proj1 (check_observations_ok _ 0 _) Hrun1) as Hobs. split; try done.
    + intros r Hr. rewrite Hr in Hrun0. inv_ok. destruct r0. apply binds_to_ok in Hrun3. by apply check_evidence_ok in Hrun0.
    + intros f Hf. rewrite Hf in Hrun2. inv_ok. repeat match goal with r : unit |- _ => destruct r end. unbool.
      match goal with H : binds_to _ _ = _ |- _ => apply binds_to_ok in H end.
      match goal with H : check_evidence _ _ = _ |- _ => apply check_evidence_ok in H end.
      split_and!; try done. intros Hl. rewrite Hl in Hrun2. by destruct (pk_release p).
  - intros [Hm Hr Ho Hf Hc]. rewrite (proj2 (verify_manifest_ok _) Hm). cbn.
    assert (match pk_release p with
            | Some r => _ ← binds_to (rl_manifest_id r) (rm_id (pk_manifest p)); check_evidence 0 (rl_evidence_ids r)
            | None => Ok tt
            end = Ok tt) as ->.
    { destruct (pk_release p) as [r|]; [|done]. destruct (Hr _ eq_refl) as [Hb He].
      rewrite (proj2 (binds_to_ok _ _) Hb). cbn. by apply check_evidence_ok. }
    cbn. rewrite (proj2 (check_observations_ok _ 0 _) Ho). cbn.
    destruct (pk_finalization p) as [f|]; cbn.
    + destruct (Hf _ eq_refl) as (Hb & He & Hn & Hl). rewrite (proj2 (binds_to_ok _ _) Hb). cbn.
      rewrite (proj2 (check_evidence_ok _ _) He). cbn. rewrite Hn, Z.eqb_refl. cbn.
      replace (negb _) with true; cbn.
      * apply check_known_ok. intros id. rewrite sort_by_elem_of, elem_of_elements. set_solver.
      * destruct (fz_lifecycle_complete f); [|done]. by destruct (Hl eq_refl) as [? ->].
    + apply check_known_ok. intros id. rewrite sort_by_elem_of, elem_of_elements. set_solver.
Qed.

(** The verifier accepts a package exactly when the manifest's
    digest recomputes, its rows and every citation list ascend without repeats,
    the count is the number of active rows, the supplements bind to the manifest,
    the observations are numbered from one without gaps, the finalization counts
    them and is complete only with a release, and every citation is known. *)
Theorem verify_accepts_exactly p known : verify p known = Ok tt <-> sound_package p known.
Proof. apply verify_ok. Qed.
End Accept.

(** ** The verifier accepts what the compiler emits *)

(** The two spellings of a nibble. *)
Lemma nibble_spellings n : (0 <= n < 16)%Z -> hex_at n = default zero_char (from_digit16 n).
Proof.
  intros Hn. assert (Forall (fun k => hex_at k = default zero_char (from_digit16 k))
    [0; 1; 2; 3; 4; 5; 6; 7; 8; 9; 10; 11; 12; 13; 14; 15]%Z) as HF by (repeat constructor).
  rewrite Forall_forall in HF. apply HF.
  assert (exists k, n = Z.of_nat k /\ k < 16) as (k & -> & Hk) by (exists (Z.to_nat n); lia).
  do 16 (destruct k as [|k]; [set_solver|]). lia.
Qed.

Lemma hex_spellings bytes :
  Forall (fun b => 0 <= b < 256)%Z bytes -> Compile.hex_lower bytes = Verifier.hex_lower bytes.
Proof.
  induction 1 as [|b bytes Hb HF IH]; [done|]. cbn. rewrite IH, !nibble_spellings; [done| |].
  - change 15%Z with (Z.ones 4). rewrite Z.land_ones by lia. apply Z.mod_pos_bound. lia.
  - rewrite Z.shiftr_div_pow2 by lia. change (2 ^ 4)%Z with 16%Z. split; [apply Z.div_pos; lia|].
    apply Z.div_lt_upper_bound; lia.
Qed.

Lemma digests_agree `{ManifestHashLaws} m d :
  Compile.manifest_digest m = Ok d <-> Verifier.manifest_digest m = Ok d.
Proof.
  unfold Compile.manifest_digest, Verifier.manifest_digest.
  change Verifier.MANIFEST_DIGEST_PLACEHOLDER_HEX with Compile.MANIFEST_DIGEST_PLACEHOLDER_HEX.
  rewrite placeholder_is_legal. cbn [map_err mbind result_bind].
  destruct (manifest_json (with_manifest_digest placeholder m)) as [bytes|]; [|cbn; split; congruence]. cbn [ok_or mbind result_bind].
  rewrite hex_spellings by apply sha256_bytes. destruct (from_hex _); cbn; split; congruence.
Qed.

(** The active rows are those of the admitted. *)
Lemma fate_active A candidates c :
  (forall x, x ∈ A -> c_standing x = Ready) -> is_active (fate A candidates c) = bool_decide (c ∈ A).
Proof.
  intros HA. unfold fate, is_active. destruct (decide (c ∈ A)) as [Hc|Hc].
  - rewrite (HA _ Hc), (bool_decide_eq_true_2 (c ∈ A)) by done. done.
  - rewrite (bool_decide_eq_false_2 (c ∈ A)) by done.
    destruct (c_standing c); simpl; try done. by case_decide.
Qed.

Lemma count_active_fates A candidates :
  NoDup A -> NoDup candidates -> (forall c, c ∈ A -> c ∈ candidates /\ c_standing c = Ready) ->
  count_active (fate A candidates <$> candidates) = length A.
Proof.
  intros HndA Hnd HA. unfold count_active.
  assert (forall l, length (List.filter is_active (fate A candidates <$> l)) = length (filter (fun c => c ∈ A) l)) as ->.
  { induction l as [|c l IH]; [done|]. rewrite fmap_cons, filter_cons. cbn [List.filter].
    rewrite fate_active by (intros x Hx; by apply HA). case_bool_decide; case_decide; try done. simpl. by rewrite IH. }
  apply Permutation_length, NoDup_Permutation; [by apply NoDup_filter|done|].
  intros c. rewrite list_elem_of_filter. naive_solver.
Qed.

#[export] Instance count_active_perm : Proper ((≡ₚ) ==> (=)) count_active.
Proof.
  intros l k Hp. unfold count_active. induction Hp as [|x l k Hp IH|x y l|l k l' ? IH1 ? IH2]; simpl; [done| | |congruence].
  - destruct (is_active x); simpl; by rewrite IH.
  - by destruct (is_active x), (is_active y).
Qed.

(** C39: The independent verifier accepts every manifest the compiler
    emits, when the store knows the evidence the request cites. *)
Theorem compiled_manifests_verify `{ManifestHashLaws} request route authority candidates out known :
  compile request route authority candidates = Ok out ->
  (forall e, e ∈ rq_evidence request -> e ∈ known) ->
  verify {| pk_manifest := cp_manifest out; pk_release := None; pk_observations := []; pk_finalization := None |}
    known = Ok tt.
Proof.
  intros Hc Hk. apply verify_ok. destruct (compile_ok _ _ _ _ _ Hc) as (s & A & Hnd & Hs & Hm & _).
  apply build_manifest_ok in Hm as (Hsc & _ & Hrows & Hev & Hd).
  pose proof (sort_dedup (rq_evidence request)) as [Hasc Hel].
  pose proof (settled_rows _ _ _ _ _ Hnd Hs) as Hsort. split; simpl; try done.
  - split.
    + by apply digests_agree.
    + rewrite Hrows, (btree_values_keys p_digest _ (se_keys _ _ _ _ _ Hs)). apply btree_iter_keys.
    + rewrite Hsc, Hrows, Hsort, sort_by_perm, (se_count _ _ _ _ _ Hs). f_equal. symmetry.
      destruct (se_admitted _ _ _ _ _ Hs) as [HndA HA].
      apply count_active_fates; [done|by eapply NoDup_fmap_1|]. intros c [[Hw _] _]%HA.
      by apply list_elem_of_filter in Hw as [[? _] ?].
    + by rewrite Hev.
  - unfold cited_evidence. simpl. rewrite Hev. intros e. set_solver.
Qed.
