(* ===== verification/Explain.v ===== *)
(** * Explain and Compare (gwk-context/src/explain.rs, wire.rs, stage.rs, store.rs)

    Questions about recorded manifests, answered under a class scope that the
    process supplies.  The theorems: what a listing shows and counts, and that
    an answer under the conformance scope does not depend on private rows, but
    for the number of rows a listing withheld. *)

From S2P Require Import Prelude Text Fsm Envelope Transition Command Ordered Truth.

(** ** Queries *)

Inductive ContextStage := Declared | Resolved | Released | Observed | Finalized.

#[export] Instance ContextStage_eq_dec : EqDecision ContextStage.
Proof. solve_decision. Defined.

Definition stage_str (s : ContextStage) : string :=
  match s with
  | Declared => "declared" | Resolved => "resolved" | Released => "released"
  | Observed => "observed" | Finalized => "finalized"
  end.

Inductive ContextWireError :=
| EmptyAttribution | AttributionTooLong | TooManyCandidateRoutes | QueryLimitOutOfRange
| GraphDepthOutOfRange | CompareSubjectsIdentical | CompareStagesOutOfRange | CompareStagesRepeated.

Definition CONTEXT_QUERY_LIMIT_MAX : Z := 1000.
Definition CONTEXT_GRAPH_DEPTH_MAX : Z := 16.
Definition CONTEXT_COMPARE_STAGE_MAX_COUNT : nat := 5.

(** [QueryLimit::new], [GraphDepth::new] and [CompareStages::new]. *)
Definition query_limit (value : Z) : result ContextWireError Z :=
  _ ← ensure (negb (value =? 0) && (value <=? CONTEXT_QUERY_LIMIT_MAX))%Z QueryLimitOutOfRange; mret value.
Definition graph_depth (value : Z) : result ContextWireError Z :=
  _ ← ensure (negb (value =? 0) && (value <=? CONTEXT_GRAPH_DEPTH_MAX))%Z GraphDepthOutOfRange; mret value.

Fixpoint unrepeated (seen stages : list ContextStage) : result ContextWireError unit :=
  match stages with
  | [] => Ok tt
  | s :: stages =>
      _ ← ensure (negb (bool_decide (s ∈ seen))) CompareStagesRepeated;
      unrepeated (seen ++ [s]) stages
  end.
Definition compare_stages (stages : list ContextStage) : result ContextWireError (list ContextStage) :=
  _ ← ensure (negb (length stages =? 0) && (length stages <=? CONTEXT_COMPARE_STAGE_MAX_COUNT))
        CompareStagesOutOfRange;
  _ ← unrepeated [] stages;
  mret stages.

Inductive SupplementKind := KRelease | KObservation | KFinalization.
Inductive ManifestSelector := ById (manifest_id : string) | ByAttempt (attempt_id : string).
Inductive ExplainSubject := ESource (digest : string) | EPrecedence | EParticipation.
Inductive CompareSubject := CManifest (manifest_id : string) | CRun (run_id : string).

#[export] Instance CompareSubject_eq_dec : EqDecision CompareSubject.
Proof. solve_decision. Defined.

Inductive ContextQuery :=
| QManifest (select : ManifestSelector)
| QSupplement (manifest_id : string) (kind : SupplementKind) (limit : Z)
| QSource (manifest_id digest : string)
| QProvenanceGraph (root : string) (depth : Z)
| QSemanticGraph (root : string) (depth : Z)
| QExecutionDag (run_id : string) (depth : Z)
| QExplain (manifest_id : string) (subject : ExplainSubject)
| QCompare (l r : CompareSubject) (stages : list ContextStage).

(** [ContextQuery::validate]. *)
Definition query_validate (q : ContextQuery) : result ContextWireError unit :=
  match q with
  | QCompare l r _ => ensure (negb (bool_decide (l = r))) CompareSubjectsIdentical
  | _ => Ok tt
  end.

(** ** The read port *)

(** [ContextTruthStore]; the error is the store's text. *)
Record TruthStore := {
  ts_manifest : string -> result string (option ResolvedManifest);
  ts_release : string -> result string (option ReleaseSupplement);
  ts_observations : string -> result string (list ObservationSupplement);
  ts_finalization : string -> result string (option FinalizationSupplement);
}.

(** ** Answers *)

Definition scope_admits (scope class : ContentClass) : bool :=
  match scope, class with
  | Private, Private => true
  | Private, Conformance => true
  | Conformance, Conformance => true
  | Conformance, Private => false
  end.

Record ExplainedSource := {
  es_digest : string;
  es_class : ContentClass;
  es_state : ParticipationState;
  es_reason : option ParticipationReason;
  es_detail : option string;
}.

#[export] Instance ExplainedSource_eq_dec : EqDecision ExplainedSource.
Proof. solve_decision. Defined.

Definition explained (p : Participation) : ExplainedSource := {|
  es_digest := p_digest p; es_class := p_class p; es_state := p_state p;
  es_reason := p_reason p; es_detail := p_detail p |}.

Record Explanation := {
  ex_manifest_id : string;
  ex_subject_is_precedence : bool;
  ex_rows : list ExplainedSource;
  ex_withheld : nat;
}.

Inductive StageVerdict := Same | Differs | NeitherReached | OnlyLeft | OnlyRight | NotRecorded.

Record StageDifference := { sd_stage : ContextStage; sd_verdict : StageVerdict; sd_withheld : nat }.
Record Comparison := { cm_left : string; cm_right : string; cm_stages : list StageDifference }.

Inductive Answer := AExplanation (e : Explanation) | AComparison (c : Comparison).

Inductive Refusal :=
| NotEvaluable
| NoSuchManifest (id : string)
| SubjectNotServed
| Storage (e : string)
| Malformed (e : ContextWireError).

(** ** Evaluation *)

Definition manifest_of (s : CompareSubject) : result Refusal string :=
  match s with CManifest id => Ok id | CRun _ => Err SubjectNotServed end.

Definition load (st : TruthStore) (id : string) : result Refusal ResolvedManifest :=
  m ← map_err Storage (ts_manifest st id);
  ok_or m (NoSuchManifest id).

(** The rows a listing is about. *)
Definition of_interest (precedence : bool) (p : Participation) : bool :=
  if precedence
  then bool_decide (p_reason p = Some PrecedenceLoss) || bool_decide (p_state p = PsActive)
  else true.

Definition listing (m : ResolvedManifest) (precedence : bool) (scope : ContentClass) : Explanation :=
  let rows := List.filter (of_interest precedence) (rm_participations m) in
  let '(visible, hidden) := List.partition (fun p => scope_admits scope (p_class p)) rows in
  {| ex_manifest_id := rm_id m; ex_subject_is_precedence := precedence;
     ex_rows := explained <$> visible; ex_withheld := length hidden |}.

Definition explain (st : TruthStore) (scope : ContentClass) (id : string) (subject : ExplainSubject)
  : result Refusal Explanation :=
  m ← load st id;
  mret match subject with
  | ESource digest =>
      let visible := List.find (fun p => bool_decide (p_digest p = digest) && scope_admits scope (p_class p))
                       (rm_participations m) in
      {| ex_manifest_id := rm_id m; ex_subject_is_precedence := false;
         ex_rows := option_list (explained <$> visible); ex_withheld := 0 |}
  | EPrecedence => listing m true scope
  | EParticipation => listing m false scope
  end.

Definition verdict_of (same : bool) : StageVerdict := if same then Same else Differs.

Definition visible_rows (scope : ContentClass) (m : ResolvedManifest) : list ExplainedSource :=
  explained <$> List.filter (fun p => scope_admits scope (p_class p)) (rm_participations m).
Definition hidden_count (scope : ContentClass) (m : ResolvedManifest) : nat :=
  length (List.filter (fun p => negb (scope_admits scope (p_class p))) (rm_participations m)).

Definition resolved_difference (l r : ResolvedManifest) (scope : ContentClass) : StageDifference := {|
  sd_stage := Resolved;
  sd_verdict := verdict_of (bool_decide (visible_rows scope l = visible_rows scope r)
                            && bool_decide (rm_route_digest l = rm_route_digest r)
                            && bool_decide (rm_authority_digest l = rm_authority_digest r));
  sd_withheld := hidden_count scope l + hidden_count scope r |}.

Definition pairwise {T} (stage : ContextStage) (l r : option T) (same : T -> T -> bool) : StageDifference := {|
  sd_stage := stage;
  sd_verdict := match l, r with
                | None, None => NeitherReached
                | Some _, None => OnlyLeft
                | None, Some _ => OnlyRight
                | Some l, Some r => verdict_of (same l r)
                end;
  sd_withheld := 0 |}.

Definition released_same (l r : ReleaseSupplement) : bool :=
  bool_decide (rl_rendered_digest l = rl_rendered_digest r)
  && bool_decide (rl_tool_schema_digest l = rl_tool_schema_digest r)
  && (rl_rendered_bytes l =? rl_rendered_bytes r)%Z && (rl_tool_schema_count l =? rl_tool_schema_count r)%Z.

Definition observed_same (l r : list ObservationSupplement) : bool :=
  (length l =? length r)
  && forallb (fun '(a, b) => (ob_observation_index a =? ob_observation_index b)%Z
                && bool_decide (ob_fact_digest a = ob_fact_digest b)
                && eqb (ob_truncated a) (ob_truncated b)) (zip l r).

Definition finalized_same (l r : FinalizationSupplement) : bool :=
  bool_decide (fz_output_digest l = fz_output_digest r)
  && bool_decide (fz_verification_digest l = fz_verification_digest r)
  && bool_decide (fz_final_event_root l = fz_final_event_root r)
  && eqb (fz_lifecycle_complete l) (fz_lifecycle_complete r)
  && bool_decide (fz_assurance l = fz_assurance r).

Definition observed_difference (l r : list ObservationSupplement) : StageDifference := {|
  sd_stage := Observed;
  sd_verdict := match l, r with
                | [], [] => NeitherReached
                | _ :: _, [] => OnlyLeft
                | [], _ :: _ => OnlyRight
                | _, _ => verdict_of (observed_same l r)
                end;
  sd_withheld := 0 |}.

Section Compare.
Context (st : TruthStore) (scope : ContentClass).

(** One turn of the loop of [compare]. *)
Definition compare_stage (left_id right_id : string) (l r : ResolvedManifest) (out : list StageDifference)
    (stage : ContextStage) : result Refusal (list StageDifference) :=
  d ← match stage with
      | Declared => mret {| sd_stage := stage; sd_verdict := NotRecorded; sd_withheld := 0 |}
      | Resolved => mret (resolved_difference l r scope)
      | Released =>
          a ← map_err Storage (ts_release st left_id);
          b ← map_err Storage (ts_release st right_id);
          mret (pairwise stage a b released_same)
      | Observed =>
          a ← map_err Storage (ts_observations st left_id);
          b ← map_err Storage (ts_observations st right_id);
          mret (observed_difference a b)
      | Finalized =>
          a ← map_err Storage (ts_finalization st left_id);
          b ← map_err Storage (ts_finalization st right_id);
          mret (pairwise stage a b finalized_same)
      end;
  mret (out ++ [d]).

Definition compare (left_id right_id : string) (stages : list ContextStage) : result Refusal Comparison :=
  l ← load st left_id;
  r ← load st right_id;
  out ← fold_res (compare_stage left_id right_id l r) [] stages;
  mret {| cm_left := rm_id l; cm_right := rm_id r; cm_stages := out |}.

(** [evaluate]. *)
Definition evaluate (q : ContextQuery) : result Refusal Answer :=
  _ ← map_err Malformed (query_validate q);
  match q with
  | QExplain id subject => e ← explain st scope id subject; mret (AExplanation e)
  | QCompare l r stages =>
      l ← manifest_of l;
      r ← manifest_of r;
      c ← compare l r stages;
      mret (AComparison c)
  | _ => Err NotEvaluable
  end.
End Compare.

(** ** What a scope can see *)

Definition public (p : Participation) : bool := scope_admits Conformance (p_class p).

(** Two manifests that differ in private rows only. *)
Record alike (m m' : ResolvedManifest) : Prop := {
  al_id : rm_id m = rm_id m';
  al_route : rm_route_digest m = rm_route_digest m';
  al_authority : rm_authority_digest m = rm_authority_digest m';
  al_public : List.filter public (rm_participations m) = List.filter public (rm_participations m');
}.

#[export] Instance alike_equivalence : Equivalence alike.
Proof.
  split.
  - intros m. by split.
  - intros m m' []. by split.
  - intros m m' m'' [] []. split; congruence.
Qed.

(** Two stores that differ in private rows only. *)
Record alike_stores (st st' : TruthStore) : Prop := {
  als_manifest id :
    match ts_manifest st id, ts_manifest st' id with
    | Ok (Some m), Ok (Some m') => alike m m'
    | Ok None, Ok None => True
    | Err e, Err e' => e = e'
    | _, _ => False
    end;
  als_release id : ts_release st id = ts_release st' id;
  als_observations id : ts_observations st id = ts_observations st' id;
  als_finalization id : ts_finalization st id = ts_finalization st' id;
}.

(** An answer without the counts of withheld rows. *)
Definition uncounted_stage (d : StageDifference) : StageDifference := {|
  sd_stage := sd_stage d; sd_verdict := sd_verdict d; sd_withheld := 0 |}.
Definition uncounted (a : Answer) : Answer :=
  match a with
  | AExplanation e => AExplanation {| ex_manifest_id := ex_manifest_id e;
      ex_subject_is_precedence := ex_subject_is_precedence e; ex_rows := ex_rows e; ex_withheld := 0 |}
  | AComparison c => AComparison {| cm_left := cm_left c; cm_right := cm_right c;
      cm_stages := uncounted_stage <$> cm_stages c |}
  end.

Definition map_ok {E A B} (f : A -> B) (r : result E A) : result E B :=
  match r with Ok a => Ok (f a) | Err e => Err e end.

Lemma partition_filter {A} (f : A -> bool) l :
  List.partition f l = (List.filter f l, List.filter (fun x => negb (f x)) l).
Proof. induction l as [|x l IH]; [done|]. simpl. rewrite IH. by destruct (f x). Qed.

Lemma filter_comm {A} (f g : A -> bool) l : List.filter f (List.filter g l) = List.filter g (List.filter f l).
Proof.
  induction l as [|x l IH]; [done|]. simpl. destruct (f x) eqn:Ef, (g x) eqn:Eg; simpl; rewrite ?Ef, ?Eg; by rewrite ?IH.
Qed.

Lemma find_filter {A} (f g : A -> bool) l : List.find (fun x => f x && g x) l = List.find f (List.filter g l).
Proof. induction l as [|x l IH]; [done|]. simpl. destruct (f x) eqn:Ef, (g x); simpl; rewrite ?Ef, ?IH; done. Qed.

Section Scope.
Context (st st' : TruthStore) (Hst : alike_stores st st').

Lemma load_alike id :
  match load st id, load st' id with
  | Ok m, Ok m' => alike m m'
  | Err e, Err e' => e = e'
  | _, _ => False
  end.
Proof.
  unfold load. pose proof (als_manifest _ _ Hst id) as Hm.
  destruct (ts_manifest st id) as [[m|]|], (ts_manifest st' id) as [[m'|]|]; try done. by subst.
Qed.

Lemma listing_alike m m' precedence :
  alike m m' ->
  uncounted (AExplanation (listing m precedence Conformance)) =
  uncounted (AExplanation (listing m' precedence Conformance)).
Proof.
  intros [Hid _ _ Hp]. unfold listing. rewrite !partition_filter.
  cbn [uncounted ex_rows ex_manifest_id ex_subject_is_precedence]. rewrite Hid.
  rewrite !(filter_comm _ (of_interest precedence)). fold public. by rewrite Hp.
Qed.

Lemma explain_alike id subject :
  map_ok (fun e => uncounted (AExplanation e)) (explain st Conformance id subject) =
  map_ok (fun e => uncounted (AExplanation e)) (explain st' Conformance id subject) /\
  (forall d, subject = ESource d -> explain st Conformance id subject = explain st' Conformance id subject).
Proof.
  unfold explain. pose proof (load_alike id) as Hl.
  destruct (load st id) as [m|], (load st' id) as [m'|]; try done; [|by subst].
  cbn [mbind result_bind mret result_ret]. pose proof Hl as [Hid _ _ Hp].
  assert (forall d, List.find (fun p => bool_decide (p_digest p = d) && scope_admits Conformance (p_class p)) (rm_participations m) =
                    List.find (fun p => bool_decide (p_digest p = d) && scope_admits Conformance (p_class p)) (rm_participations m')) as Hf.
  { intros d. rewrite !find_filter. f_equal. exact Hp. }
  split.
  - destruct subject as [d| |]; cbn [map_ok].
    + by rewrite Hf, Hid.
    + unfold mret, result_ret, map_ok. f_equal. by apply listing_alike.
    + unfold mret, result_ret, map_ok. f_equal. by apply listing_alike.
  - intros d ->. by rewrite Hf, Hid.
Qed.

Lemma visible_alike m m' : alike m m' -> visible_rows Conformance m = visible_rows Conformance m'.
Proof. intros [_ _ _ Hp]. unfold visible_rows. f_equal. exact Hp. Qed.

Lemma compare_stage_alike left_id right_id l l' r r' out out' stage :
  alike l l' -> alike r r' -> uncounted_stage <$> out = uncounted_stage <$> out' ->
  map_ok (fmap uncounted_stage) (compare_stage st Conformance left_id right_id l r out stage) =
  map_ok (fmap uncounted_stage) (compare_stage st' Conformance left_id right_id l' r' out' stage).
Proof.
  intros Hl Hr Hout. unfold compare_stage.
  rewrite !(als_release _ _ Hst), !(als_observations _ _ Hst), !(als_finalization _ _ Hst).
  assert (forall d d', uncounted_stage d = uncounted_stage d' ->
    map_ok (E := Refusal) (fmap uncounted_stage) (Ok (out ++ [d])) = map_ok (fmap uncounted_stage) (Ok (out' ++ [d']))) as Hend.
  { intros d d' Hd. cbn [map_ok]. rewrite !fmap_app, Hout. cbn. by rewrite Hd. }
  destruct stage; cbn [mbind result_bind mret result_ret].
  - by apply Hend.
  - apply Hend. unfold resolved_difference, uncounted_stage. cbn.
    rewrite (visible_alike _ _ Hl), (visible_alike _ _ Hr). by destruct Hl as [_ -> -> _], Hr as [_ -> -> _].
  - destruct (ts_release st' left_id); [|done]. cbn. destruct (ts_release st' right_id); [|done]. by apply Hend.
  - destruct (ts_observations st' left_id); [|done]. cbn. destruct (ts_observations st' right_id); [|done]. by apply Hend.
  - destruct (ts_finalization st' left_id); [|done]. cbn. destruct (ts_finalization st' right_id); [|done]. by apply Hend.
Qed.

Lemma compare_alike left_id right_id stages :
  map_ok (fun c => uncounted (AComparison c)) (compare st Conformance left_id right_id stages) =
  map_ok (fun c => uncounted (AComparison c)) (compare st' Conformance left_id right_id stages).
Proof.
  unfold compare. pose proof (load_alike left_id) as Hl. pose proof (load_alike right_id) as Hr.
  destruct (load st left_id) as [l|], (load st' left_id) as [l'|]; try done; [|by subst]. cbn [mbind result_bind].
  destruct (load st right_id) as [r|], (load st' right_id) as [r'|]; try done; [|by subst]. cbn [mbind result_bind].
  assert (forall out out', uncounted_stage <$> out = uncounted_stage <$> out' ->
    map_ok (fmap uncounted_stage) (fold_res (compare_stage st Conformance left_id right_id l r) out stages) =
    map_ok (fmap uncounted_stage) (fold_res (compare_stage st' Conformance left_id right_id l' r') out' stages)) as Hfold.
  { induction stages as [|s stages IH]; intros out out' Ho; [cbn; by rewrite Ho|]. cbn [fold_res].
    pose proof (compare_stage_alike left_id right_id l l' r r' out out' s Hl Hr Ho) as Hs.
    destruct (compare_stage st _ _ _ _ _ out s) as [o|], (compare_stage st' _ _ _ _ _ out' s) as [o'|];
      cbn [map_ok mbind result_bind] in *; simplify_eq; [|done]. by apply IH. }
  specialize (Hfold [] [] eq_refl).
  destruct (fold_res _ [] stages) as [o|], (fold_res (compare_stage st' _ _ _ _ _) [] stages) as [o'|];
    cbn [map_ok mbind result_bind] in *; simplify_eq; [|done].
  unfold mret, result_ret, map_ok, uncounted. cbn [cm_left cm_right cm_stages].
  by rewrite Hfold, (al_id _ _ Hl), (al_id _ _ Hr).
Qed.
End Scope.

(** Answers under the conformance scope are the same for two
    stores whose manifests differ in private rows only, but for the numbers of
    rows withheld; asking for one source gives exactly the same answer. *)
Theorem scope_hides_private_rows st st' q :
  alike_stores st st' ->
  map_ok uncounted (evaluate st Conformance q) = map_ok uncounted (evaluate st' Conformance q) /\
  (forall id d, q = QExplain id (ESource d) -> evaluate st Conformance q = evaluate st' Conformance q).
Proof.
  intros Hst. unfold evaluate. destruct (query_validate q) as [[]|e]; cbn [map_err mbind result_bind]; [|done].
  destruct q as [| | | | | |id subject|l r stages]; try done.
  - destruct (explain_alike _ _ Hst id subject) as [He Hs]. split.
    + destruct (explain st _ id subject), (explain st' _ id subject); cbn in *; congruence.
    + intros id' d [= -> ->]. by rewrite (Hs _ eq_refl).
  - split; [|done]. destruct (manifest_of l) as [li|]; [|done]. cbn. destruct (manifest_of r) as [ri|]; [|done]. cbn.
    pose proof (compare_alike _ _ Hst li ri stages) as Hc.
    destruct (compare st _ li ri stages), (compare st' _ li ri stages); cbn in *; congruence.
Qed.

(** A listing shows what the scope admits, counts the rest, and a private scope
    sees everything. *)
Theorem listings_are_complete st scope id (precedence : bool) e :
  explain st scope id (if precedence then EPrecedence else EParticipation) = Ok e ->
  exists m, ts_manifest st id = Ok (Some m) /\
    let rows := List.filter (of_interest precedence) (rm_participations m) in
    ex_rows e = explained <$> List.filter (fun p => scope_admits scope (p_class p)) rows /\
    length (ex_rows e) + ex_withheld e = length rows /\
    (scope = Private -> ex_rows e = explained <$> rows /\ ex_withheld e = 0).
Proof.
  assert (explain st scope id (if precedence then EPrecedence else EParticipation) =
          m ← load st id; mret (listing m precedence scope)) as -> by (by destruct precedence).
  unfold load. intros He. apply bind_ok_iff in He as (m & Hl & He). injection He as <-.
  apply bind_ok_iff in Hl as (o & Ho & Hok). apply ok_or_ok_iff in Hok as ->. exists m.
  split; [by destruct (ts_manifest st id); simplify_eq/=|].
  unfold listing. rewrite partition_filter. cbn. split; [done|]. split.
  - rewrite length_fmap. generalize (List.filter (of_interest precedence) (rm_participations m)) as l. clear.
    induction l as [|p l IH]; [done|]. simpl. destruct (scope_admits scope (p_class p)); simpl; lia.
  - intros ->. rewrite filter_all by (intros p _; simpl; by destruct (p_class p)).
    rewrite (filter_nothing (fun p => negb _)) by (intros p _; simpl; by destruct (p_class p)). done.
Qed.
