(* ===== verification/Facts.v ===== *)
(** * Context facts (gwk-domain/src/context_event.rs, gwk-kernel/src/context.rs,
    blob/context.rs, and the Context tables of contract_sql.rs)

    The ten lifecycle facts of the Context engine, the tables four of them
    project to, the classification of stored blobs, and the recording of a fact:
    its route, the checks before the append and the projector.  [record_fact]
    closes the arguments that the command path's model leaves open, and [World]
    is the kernel's database together with these tables. *)

From S2P Require Import Prelude Text Fsm Envelope Transition Command Tables Db Store Project Authority Submit Writes Kernel System Recover Truth.

(** ** The grammar of facts *)

Inductive ContextAggregate := ContextManifest | ContextRun | ContextOptimization.

Definition aggregate_str (a : ContextAggregate) : string :=
  match a with
  | ContextManifest => "context_manifest"
  | ContextRun => "context_run"
  | ContextOptimization => "context_optimization"
  end.

Inductive ContextEventName :=
| NCompilationRequested | NManifestResolved | NManifestVerificationRecorded | NReleaseRecorded
| NRunOpened | NObservationAppended | NRunClosed | NAssuranceCertified
| NOptimizationCandidateProposed | NOptimizationCandidateDispositioned.

#[export] Instance ContextEventName_eq_dec : EqDecision ContextEventName.
Proof. solve_decision. Defined.

Definition event_name_str (n : ContextEventName) : string :=
  match n with
  | NCompilationRequested => "context_manifest_compilation_requested"
  | NManifestResolved => "context_manifest_resolved"
  | NManifestVerificationRecorded => "context_manifest_verification_recorded"
  | NReleaseRecorded => "context_manifest_release_recorded"
  | NRunOpened => "context_run_opened"
  | NObservationAppended => "context_run_observation_appended"
  | NRunClosed => "context_run_closed"
  | NAssuranceCertified => "context_run_assurance_certified"
  | NOptimizationCandidateProposed => "context_optimization_candidate_proposed"
  | NOptimizationCandidateDispositioned => "context_optimization_candidate_dispositioned"
  end.

(** [ContextEventName::aggregate]. *)
Definition name_aggregate (n : ContextEventName) : ContextAggregate :=
  match n with
  | NCompilationRequested | NManifestResolved | NManifestVerificationRecorded | NReleaseRecorded =>
      ContextManifest
  | NRunOpened | NObservationAppended | NRunClosed | NAssuranceCertified => ContextRun
  | NOptimizationCandidateProposed | NOptimizationCandidateDispositioned => ContextOptimization
  end.

Inductive VerificationVerdict := VerdictVerified | VerdictRejected.
Inductive CandidateDisposition := Applied | Declined | Superseded.

#[export] Instance VerificationVerdict_eq_dec : EqDecision VerificationVerdict.
Proof. solve_decision. Defined.
#[export] Instance CandidateDisposition_eq_dec : EqDecision CandidateDisposition.
Proof. solve_decision. Defined.

Definition CONTEXT_ATTRIBUTION_MAX_BYTES : Z := 128.
Definition CONTEXT_CANDIDATE_ROUTE_MAX_COUNT : Z := 64.

(** The ten facts.  Ids, digests, counts and lists are the validated types of the
    source; [fact_typed] below says so. *)
Inductive ContextFact :=
| CompilationRequested (attempt_id route_digest authority_digest requested_at : string)
| ManifestResolved (manifest_id attempt_id manifest_digest route_digest authority_digest : string)
    (source_count source_bytes : Z) (participations : list Participation) (evidence_ids : list string)
    (resolved_at : string)
| ManifestVerificationRecorded (manifest_id manifest_digest : string) (verdict : VerificationVerdict)
    (verification_digest : string) (evidence_ids : list string) (verified_at : string)
| ReleaseRecorded (manifest_id release_id rendered_digest tool_schema_digest : string)
    (rendered_bytes tool_schema_count : Z) (evidence_ids : list string) (released_at : string)
| RunOpened (run_id manifest_id release_id opened_at : string)
| ObservationAppended (run_id manifest_id observation_id : string) (observation_index : Z)
    (fact_digest : string) (observed_bytes visible_source_count : Z) (truncated : bool)
    (evidence_ids : list string) (observed_at : string)
| RunClosed (run_id finalization_id output_digest : string) (observation_count : Z)
    (lifecycle_complete : bool) (closed_at : string)
| AssuranceCertified (run_id manifest_id finalization_id output_digest verification_digest : string)
    (approval_count observation_count : Z) (final_event_root : string) (lifecycle_complete : bool)
    (assurance : Assurance) (evidence_ids : list string) (closed_at certified_at : string)
| OptimizationCandidateProposed (candidate_id patch_digest expected_effect_digest : string)
    (affected_route_count : Z) (evidence_ids : list string) (proposed_at : string)
| OptimizationCandidateDispositioned (candidate_id : string) (disposition : CandidateDisposition)
    (review_digest dispositioned_at : string).

#[export] Instance ContextFact_eq_dec : EqDecision ContextFact.
Proof. solve_decision. Defined.

(** [ContextFact::event_name]. *)
Definition event_name (f : ContextFact) : ContextEventName :=
  match f with
  | CompilationRequested _ _ _ _ => NCompilationRequested
  | ManifestResolved _ _ _ _ _ _ _ _ _ _ => NManifestResolved
  | ManifestVerificationRecorded _ _ _ _ _ _ => NManifestVerificationRecorded
  | ReleaseRecorded _ _ _ _ _ _ _ _ => NReleaseRecorded
  | RunOpened _ _ _ _ => NRunOpened
  | ObservationAppended _ _ _ _ _ _ _ _ _ _ => NObservationAppended
  | RunClosed _ _ _ _ _ _ => NRunClosed
  | AssuranceCertified _ _ _ _ _ _ _ _ _ _ _ _ _ => NAssuranceCertified
  | OptimizationCandidateProposed _ _ _ _ _ _ => NOptimizationCandidateProposed
  | OptimizationCandidateDispositioned _ _ _ _ => NOptimizationCandidateDispositioned
  end.

(** [fact_timestamp]. *)
Definition fact_timestamp (f : ContextFact) : string :=
  match f with
  | CompilationRequested _ _ _ requested_at => requested_at
  | ManifestResolved _ _ _ _ _ _ _ _ _ resolved_at => resolved_at
  | ManifestVerificationRecorded _ _ _ _ _ verified_at => verified_at
  | ReleaseRecorded _ _ _ _ _ _ _ released_at => released_at
  | RunOpened _ _ _ opened_at => opened_at
  | ObservationAppended _ _ _ _ _ _ _ _ _ observed_at => observed_at
  | RunClosed _ _ _ _ _ closed_at => closed_at
  | AssuranceCertified _ _ _ _ _ _ _ _ _ _ _ _ certified_at => certified_at
  | OptimizationCandidateProposed _ _ _ _ _ proposed_at => proposed_at
  | OptimizationCandidateDispositioned _ _ _ dispositioned_at => dispositioned_at
  end.

(** The member [manifest_id] of a fact's JSON. *)
Definition fact_manifest (f : ContextFact) : option string :=
  match f with
  | ManifestResolved m _ _ _ _ _ _ _ _ _ | ManifestVerificationRecorded m _ _ _ _ _
  | ReleaseRecorded m _ _ _ _ _ _ _ | RunOpened _ m _ _ | ObservationAppended _ m _ _ _ _ _ _ _ _
  | AssuranceCertified _ m _ _ _ _ _ _ _ _ _ _ _ => Some m
  | _ => None
  end.

Record ContextEventPayload := {
  cep_name : ContextEventName;
  cep_attribution : ContextAttribution;
  cep_fact : ContextFact;
}.

#[export] Instance ContextEventPayload_eq_dec : EqDecision ContextEventPayload.
Proof. solve_decision. Defined.

(** [RouteCount::new] and [AttributionPart::parse]. *)
Definition route_count_ok (value : Z) : bool := (0 <=? value)%Z && (value <=? CONTEXT_CANDIDATE_ROUTE_MAX_COUNT)%Z.
Definition attribution_part_ok (value : string) : bool :=
  negb (Str.is_empty value) && (Str.len value <=? CONTEXT_ATTRIBUTION_MAX_BYTES)%Z.

(** What a value of the source's types satisfies. *)
Definition id_ok (s : string) : bool := is_ok (context_id_parse s).
Definition digest_ok (s : string) : bool := is_ok (digest_parse s).
Definition count_ok (n : Z) : bool := (0 <=? n)%Z && is_ok (record_count n).
Definition bytes_ok (n : Z) : bool := (0 <=? n)%Z && (n <=? u64_max)%Z.
Definition rows_typed (l : list Participation) : bool :=
  is_ok (participation_records l) && forallb (fun p => digest_ok (p_digest p)) l.

Definition fact_typed (f : ContextFact) : bool :=
  match f with
  | CompilationRequested _ route authority _ => digest_ok route && digest_ok authority
  | ManifestResolved m _ digest route authority count bytes rows evidence _ =>
      id_ok m && digest_ok digest && digest_ok route && digest_ok authority && count_ok count
      && bytes_ok bytes && rows_typed rows && is_ok (evidence_refs evidence)
  | ManifestVerificationRecorded m digest _ verification evidence _ =>
      id_ok m && digest_ok digest && digest_ok verification && is_ok (evidence_refs evidence)
  | ReleaseRecorded m release rendered schema bytes count evidence _ =>
      id_ok m && id_ok release && digest_ok rendered && digest_ok schema && bytes_ok bytes
      && count_ok count && is_ok (evidence_refs evidence)
  | RunOpened run m release _ => id_ok run && id_ok m && id_ok release
  | ObservationAppended run m id index digest bytes visible _ evidence _ =>
      id_ok run && id_ok m && id_ok id && (0 <=? index)%Z && is_ok (observation_index index)
      && digest_ok digest && bytes_ok bytes && count_ok visible && is_ok (evidence_refs evidence)
  | RunClosed run finalization output observations _ _ =>
      id_ok run && id_ok finalization && digest_ok output && count_ok observations
  | AssuranceCertified run m id output verification approvals observations root _ _ evidence _ _ =>
      id_ok run && id_ok m && id_ok id && digest_ok output && digest_ok verification
      && count_ok approvals && count_ok observations && digest_ok root && is_ok (evidence_refs evidence)
  | OptimizationCandidateProposed c patch effect routes evidence _ =>
      id_ok c && digest_ok patch && digest_ok effect && route_count_ok routes && is_ok (evidence_refs evidence)
  | OptimizationCandidateDispositioned c _ review _ => id_ok c && digest_ok review
  end.

Definition attribution_typed (a : ContextAttribution) : bool :=
  attribution_part_ok (ca_compiler a) && digest_ok (ca_route_digest a)
  && digest_ok (ca_authority_digest a) && id_ok (ca_derived_from a).

(** ** The Context tables *)

(** The column patterns of the schema: ids match [[A-Za-z0-9._:-]{1,128}] and
    digests [sha256:[0-9a-f]{64}]. *)
Definition id_column (s : string) : bool :=
  (1 <=? Str.len s)%Z && (Str.len s <=? 128)%Z
  && Str.all_bytes (fun c => Str.is_ascii_alphanumeric c || existsb (Z.eqb (Str.code c)) [46; 95; 58; 45]%Z) s.
Definition digest_column (s : string) : bool :=
  match Str.strip_prefix "sha256:" s with
  | Some hex => (Str.len hex =? 64)%Z
      && Str.all_bytes (fun c => ((48 <=? Str.code c) && (Str.code c <=? 57)
                                  || (97 <=? Str.code c) && (Str.code c <=? 102))%Z) hex
  | None => false
  end.
Definition count_column (n : Z) : bool := (0 <=? n)%Z && (n <=? 65535)%Z.
Definition bytes_column (n : Z) : bool := (0 <=? n)%Z && (n <=? 18446744073709551615)%Z.

(** [gwk.context_evidence_ids_are_valid]. *)
Definition context_evidence_ids_are_valid (ids : list string) : bool :=
  (length ids <=? 64) && forallb id_column ids.

(** [gwk.context_participations_are_valid], on the JSON of participation rows: an
    absent option is a null member. *)
Definition participation_is_valid (p : Participation) : bool :=
  let closed := match p_state p with PsExcluded | PsUnavailable => true | _ => false end in
  digest_column (p_digest p)
  && (if closed then is_some (p_reason p) else negb (is_some (p_reason p)))
  && match p_detail p with Some d => closed && (Str.len d <=? 1024)%Z | None => true end.
Definition context_participations_are_valid (l : list Participation) : bool :=
  (Z.of_nat (length l) <=? 4096)%Z && forallb participation_is_valid l.

Record ManifestRow (T : Type) := {
  mf_attempt_id : string;
  mf_manifest_digest : string;
  mf_route_digest : string;
  mf_authority_digest : string;
  mf_source_count : Z;
  mf_source_bytes : Z;
  mf_participations : list Participation;
  mf_evidence_ids : list string;
  mf_resolved_at : T;
}.
Record ReleaseRow (T : Type) := {
  rs_manifest_id : string;
  rs_rendered_digest : string;
  rs_tool_schema_digest : string;
  rs_rendered_bytes : Z;
  rs_tool_schema_count : Z;
  rs_evidence_ids : list string;
  rs_released_at : T;
}.
Record ObservationRow (T : Type) := {
  os_manifest_id : string;
  os_observation_index : Z;
  os_fact_digest : string;
  os_observed_bytes : Z;
  os_visible_source_count : Z;
  os_truncated : bool;
  os_evidence_ids : list string;
  os_observed_at : T;
}.
Record FinalizationRow (T : Type) := {
  fn_manifest_id : string;
  fn_output_digest : string;
  fn_verification_digest : string;
  fn_approval_count : Z;
  fn_observation_count : Z;
  fn_final_event_root : string;
  fn_lifecycle_complete : bool;
  fn_assurance : string;
  fn_evidence_ids : list string;
  fn_finalized_at : T;
}.
Arguments mf_attempt_id {_}. Arguments mf_manifest_digest {_}. Arguments mf_route_digest {_}.
Arguments mf_authority_digest {_}. Arguments mf_source_count {_}. Arguments mf_source_bytes {_}.
Arguments mf_participations {_}. Arguments mf_evidence_ids {_}. Arguments mf_resolved_at {_}.
Arguments rs_manifest_id {_}. Arguments rs_rendered_digest {_}. Arguments rs_tool_schema_digest {_}.
Arguments rs_rendered_bytes {_}. Arguments rs_tool_schema_count {_}. Arguments rs_evidence_ids {_}.
Arguments rs_released_at {_}.
Arguments os_manifest_id {_}. Arguments os_observation_index {_}. Arguments os_fact_digest {_}.
Arguments os_observed_bytes {_}. Arguments os_visible_source_count {_}. Arguments os_truncated {_}.
Arguments os_evidence_ids {_}. Arguments os_observed_at {_}.
Arguments fn_manifest_id {_}. Arguments fn_output_digest {_}. Arguments fn_verification_digest {_}.
Arguments fn_approval_count {_}. Arguments fn_observation_count {_}. Arguments fn_final_event_root {_}.
Arguments fn_lifecycle_complete {_}. Arguments fn_assurance {_}. Arguments fn_evidence_ids {_}.
Arguments fn_finalized_at {_}.

Inductive RedactionClass := RedactionNone | Redacted.
Inductive RetentionClass := RetainPermanent | RetainManifest | RetainRelease | RetainObservation.
Record BlobClasses := {
  bc_content : ContentClass;
  bc_redaction : RedactionClass;
  bc_retention : RetentionClass;
}.

#[export] Instance RedactionClass_eq_dec : EqDecision RedactionClass.
Proof. solve_decision. Defined.
#[export] Instance RetentionClass_eq_dec : EqDecision RetentionClass.
Proof. solve_decision. Defined.
#[export] Instance BlobClasses_eq_dec : EqDecision BlobClasses.
Proof. solve_decision. Defined.

(** The four truth tables and the classification of blobs, all append-only. *)
Record ContextTables (T : Type) := {
  manifests : gmap string (ManifestRow T);
  releases : gmap string (ReleaseRow T);
  observations : gmap string (ObservationRow T);
  finalizations : gmap string (FinalizationRow T);
  context_blobs : gmap string BlobClasses;
}.
Arguments manifests {_}. Arguments releases {_}. Arguments observations {_}.
Arguments finalizations {_}. Arguments context_blobs {_}.

Definition empty_context {T} : ContextTables T := {|
  manifests := ∅; releases := ∅; observations := ∅; finalizations := ∅; context_blobs := ∅ |}.

Section Tables.
Context {T : Type}.
Notation tables := (ContextTables T).

Definition set_manifests m (c : tables) : tables := {|
  manifests := m; releases := releases c; observations := observations c;
  finalizations := finalizations c; context_blobs := context_blobs c |}.
Definition set_releases m (c : tables) : tables := {|
  manifests := manifests c; releases := m; observations := observations c;
  finalizations := finalizations c; context_blobs := context_blobs c |}.
Definition set_observations m (c : tables) : tables := {|
  manifests := manifests c; releases := releases c; observations := m;
  finalizations := finalizations c; context_blobs := context_blobs c |}.
Definition set_finalizations m (c : tables) : tables := {|
  manifests := manifests c; releases := releases c; observations := observations c;
  finalizations := m; context_blobs := context_blobs c |}.
Definition set_blobs m (c : tables) : tables := {|
  manifests := manifests c; releases := releases c; observations := observations c;
  finalizations := finalizations c; context_blobs := m |}.

Definition manifest_check (id : string) (r : ManifestRow T) : bool :=
  id_column id && digest_column (mf_manifest_digest r) && digest_column (mf_route_digest r)
  && digest_column (mf_authority_digest r) && count_column (mf_source_count r)
  && bytes_column (mf_source_bytes r) && context_participations_are_valid (mf_participations r)
  && context_evidence_ids_are_valid (mf_evidence_ids r).
Definition release_check (id : string) (r : ReleaseRow T) : bool :=
  id_column id && digest_column (rs_rendered_digest r) && digest_column (rs_tool_schema_digest r)
  && bytes_column (rs_rendered_bytes r) && count_column (rs_tool_schema_count r)
  && context_evidence_ids_are_valid (rs_evidence_ids r).
Definition observation_check (id : string) (r : ObservationRow T) : bool :=
  id_column id && (1 <=? os_observation_index r)%Z && (os_observation_index r <=? 65535)%Z
  && digest_column (os_fact_digest r) && bytes_column (os_observed_bytes r)
  && count_column (os_visible_source_count r) && context_evidence_ids_are_valid (os_evidence_ids r).
Definition finalization_check (id : string) (r : FinalizationRow T) : bool :=
  id_column id && digest_column (fn_output_digest r) && digest_column (fn_verification_digest r)
  && count_column (fn_approval_count r) && count_column (fn_observation_count r)
  && digest_column (fn_final_event_root r)
  && bool_decide (fn_assurance r ∈ ["trace"; "deterministic"])
  && context_evidence_ids_are_valid (fn_evidence_ids r).

(** No row of the table has [key]. *)
Definition unclaimed {R K} `{EqDecision K} (key : R -> K) (k : K) (m : gmap string R) : bool :=
  bool_decide (map_Forall (fun _ r => key r <> k) m).

(** [INSERT .. ON CONFLICT (id) DO NOTHING]: a row under the same id absorbs the
    insert, after the CHECKs and before any other constraint. *)
Definition insert_absent {R} (m : gmap string R) (id : string) (row : R) (check unique fk : bool)
    (put : gmap string R -> tables) (c : tables) : result SqlError tables :=
  _ ← ensure check SqlFailure;
  if is_some (m !! id) then mret c
  else
    _ ← ensure unique SqlFailure;
    _ ← ensure fk FkViolation;
    mret (put (<[id := row]> m)).

Definition insert_manifest (attempt_exists : bool) id (r : ManifestRow T) (c : tables) : result SqlError tables :=
  insert_absent (manifests c) id r (manifest_check id r)
    (unclaimed mf_attempt_id (mf_attempt_id r) (manifests c)) attempt_exists (fun m => set_manifests m c) c.
Definition insert_release id (r : ReleaseRow T) (c : tables) : result SqlError tables :=
  insert_absent (releases c) id r (release_check id r)
    (unclaimed rs_manifest_id (rs_manifest_id r) (releases c))
    (is_some (manifests c !! rs_manifest_id r)) (fun m => set_releases m c) c.
Definition insert_observation id (r : ObservationRow T) (c : tables) : result SqlError tables :=
  insert_absent (observations c) id r (observation_check id r)
    (unclaimed (fun x => (os_manifest_id x, os_observation_index x))
       (os_manifest_id r, os_observation_index r) (observations c))
    (is_some (manifests c !! os_manifest_id r)) (fun m => set_observations m c) c.
Definition insert_finalization id (r : FinalizationRow T) (c : tables) : result SqlError tables :=
  insert_absent (finalizations c) id r (finalization_check id r)
    (unclaimed fn_manifest_id (fn_manifest_id r) (finalizations c))
    (is_some (manifests c !! fn_manifest_id r)) (fun m => set_finalizations m c) c.

(** ** Classifying a blob (blob/context.rs, [claim]) *)

Inductive ClaimError := ClassMismatch (stored requested : BlobClasses) | ClaimStorage.

Definition claim (digest : string) (classes : BlobClasses) (c : tables) : result ClaimError tables :=
  _ ← ensure (digest_column digest) ClaimStorage;
  let c' := if is_some (context_blobs c !! digest) then c
            else set_blobs (<[digest := classes]> (context_blobs c)) c in
  row ← ok_or (context_blobs c' !! digest) ClaimStorage;
  _ ← ensure (bool_decide (row = classes)) (ClassMismatch row classes);
  mret c'.
End Tables.

(** ** JSON of facts *)

(** [serde_json::to_value] and [from_value] of a payload, and SQL's
    [payload -> 'fact' ->> 'manifest_id']. *)
Class ContextSerde (V : Type) := {
  context_to_value : ContextEventPayload -> V;
  context_from_value : V -> option ContextEventPayload;
  json_fact_manifest : V -> option string;
}.

(** A payload of validated parts, once stored, reads back as itself, and its
    member is there. *)
Class ContextSerdeLaws (V : Type) `{Serde V} `{ContextSerde V} : Prop := {
  context_round_trip p :
    fact_typed (cep_fact p) = true -> attribution_typed (cep_attribution p) = true ->
    context_from_value (jsonb (context_to_value p)) = Some p;
  json_fact_manifest_spec p :
    fact_typed (cep_fact p) = true ->
    json_fact_manifest (jsonb (context_to_value p)) = fact_manifest (cep_fact p);
}.

Section Facts.
Context `{TZ : Timestamptz} `{TZL : !TimestamptzLaws} {V : Type} `{SD : Serde V} `{SDL : !SerdeLaws V}
  `{HM : Hmac} `{CS : ContextSerde V}.
Notation event := (EventEnvelope V).
Notation P := (Proj instant V).
Notation database := (Db instant V).
Notation tables := (ContextTables instant).
Notation store := (Store (V := V)).

(** ** Routes *)

(** [attempt_of_manifest]. *)
Definition attempt_of_manifest (c : tables) (manifest_id : string) : result Refusal string :=
  ok_or (mf_attempt_id <$> manifests c !! manifest_id) not_found.

(** [route_of]. *)
Definition fact_route (c : tables) (f : ContextFact) : result Refusal ContextRoute :=
  id ← match f with
       | CompilationRequested attempt_id _ _ _ | ManifestResolved _ attempt_id _ _ _ _ _ _ _ _ =>
           mret attempt_id
       | ManifestVerificationRecorded manifest_id _ _ _ _ _ | ReleaseRecorded manifest_id _ _ _ _ _ _ _ =>
           attempt_of_manifest c manifest_id
       | RunOpened run_id _ _ _ | ObservationAppended run_id _ _ _ _ _ _ _ _ _
       | RunClosed run_id _ _ _ _ _ | AssuranceCertified run_id _ _ _ _ _ _ _ _ _ _ _ _ => mret run_id
       | OptimizationCandidateProposed candidate_id _ _ _ _ _
       | OptimizationCandidateDispositioned candidate_id _ _ _ => mret candidate_id
       end;
  let name := event_name f in
  mret {| cr_aggregate_type := aggregate_str (name_aggregate name); cr_aggregate_id := id;
          cr_event_type := event_name_str name |}.

(** ** Checks before the append *)

Definition conflict : Refusal := refuse EIdempotencyConflict.

Definition require_run (aggregate_version : Z) : result Refusal unit :=
  ensure (negb (aggregate_version =? 0)%Z) not_found.
Definition require_manifest (c : tables) (manifest_id : string) : result Refusal unit :=
  ensure (is_some (manifests c !! manifest_id)) not_found.

(** The verification events of a manifest, oldest first. *)
Definition verifications (l : list event) (manifest_id : string) : list event :=
  List.filter (fun e => bool_decide (aggregate_type e = aggregate_str ContextManifest)
                        && bool_decide (event_type e = event_name_str NManifestVerificationRecorded)
                        && bool_decide (json_fact_manifest (payload e) = Some manifest_id)) l.

(** [require_verified]: the newest verification of the manifest must be an
    acceptance under the claimed digest.  The log is in sequence order. *)
Definition require_verified (l : list event) (manifest_id claimed : string) : result Refusal unit :=
  e ← ok_or (last (verifications l manifest_id)) not_found;
  recorded ← ok_or (context_from_value (payload e)) storage;
  match cep_fact recorded with
  | ManifestVerificationRecorded _ _ verdict verification_digest _ _ =>
      _ ← ensure (bool_decide (verdict = VerdictVerified)) validation;
      ensure (bool_decide (verification_digest = claimed)) validation
  | _ => Err storage
  end.

(** Every stated class against the class the bytes were sealed under. *)
Definition classes_agree (c : tables) (rows : list Participation) : bool :=
  forallb (fun p => match context_blobs c !! p_digest p with
                    | Some sealed => bool_decide (p_class p = bc_content sealed)
                    | None => true
                    end) rows.

(** [coalesce(max(observation_index), 0)] of a manifest. *)
Definition highest_index (c : tables) (manifest_id : string) : Z :=
  foldr (fun r n => if bool_decide (os_manifest_id r = manifest_id) then Z.max (os_observation_index r) n else n)
    0%Z (snd <$> map_to_list (observations c)).

(** [precheck]. *)
Definition precheck (db : database) (c : tables) (f : ContextFact) (aggregate_version : Z) : result Refusal unit :=
  match f with
  | CompilationRequested _ _ _ _ => mret tt
  | ManifestResolved manifest_id attempt_id _ _ _ _ _ participations _ _ =>
      _ ← ensure (is_some (attempts (proj db) !! attempt_id)) not_found;
      _ ← ensure (negb (is_some (manifests c !! manifest_id))) conflict;
      _ ← ensure (unclaimed mf_attempt_id attempt_id (manifests c)) conflict;
      ensure (classes_agree c participations) validation
  | ManifestVerificationRecorded _ _ _ _ _ _ => mret tt
  | ReleaseRecorded manifest_id release_id _ _ _ _ _ _ =>
      _ ← ensure (negb (is_some (releases c !! release_id))) conflict;
      ensure (unclaimed rs_manifest_id manifest_id (releases c)) conflict
  | RunOpened _ manifest_id _ _ =>
      _ ← ensure (aggregate_version =? 0)%Z conflict;
      require_manifest c manifest_id
  | ObservationAppended _ manifest_id observation_id observation_index _ _ _ _ _ _ =>
      _ ← require_run aggregate_version;
      _ ← ensure (is_some (manifests c !! manifest_id)) not_found;
      _ ← ensure (negb (is_some (observations c !! observation_id))) conflict;
      let highest := highest_index c manifest_id in
      _ ← ensure (0 <=? highest)%Z storage;
      let expected := (highest + 1)%Z in
      ensure (observation_index =? expected)%Z
        (with_detail validation
           [("manifest_id", DStr manifest_id); ("expected", DNum expected); ("got", DNum observation_index)])
  | RunClosed _ _ _ _ _ _ => require_run aggregate_version
  | AssuranceCertified _ manifest_id finalization_id _ verification_digest _ _ _ _ _ _ _ _ =>
      _ ← require_run aggregate_version;
      _ ← ensure (is_some (manifests c !! manifest_id)) not_found;
      _ ← ensure (negb (is_some (finalizations c !! finalization_id))) conflict;
      _ ← ensure (unclaimed fn_manifest_id manifest_id (finalizations c)) conflict;
      require_verified (log db) manifest_id verification_digest
  | OptimizationCandidateProposed _ _ _ _ _ _ | OptimizationCandidateDispositioned _ _ _ _ => mret tt
  end.

(** ** The projector *)

(** [apply_context_event]; [p] is where the attempts are. *)
Definition project_fact (p : P) (f : ContextFact) (c : tables) : result Refusal tables :=
  match f with
  | ManifestResolved manifest_id attempt_id manifest_digest route_digest authority_digest source_count
      source_bytes participations evidence_ids resolved_at =>
      t ← ts resolved_at;
      map_err (fun _ => storage) (insert_manifest (is_some (attempts p !! attempt_id)) manifest_id
        {| mf_attempt_id := attempt_id; mf_manifest_digest := manifest_digest;
           mf_route_digest := route_digest; mf_authority_digest := authority_digest;
           mf_source_count := source_count; mf_source_bytes := source_bytes;
           mf_participations := participations; mf_evidence_ids := evidence_ids; mf_resolved_at := t |} c)
  | ReleaseRecorded manifest_id release_id rendered_digest tool_schema_digest rendered_bytes
      tool_schema_count evidence_ids released_at =>
      t ← ts released_at;
      map_err (fun _ => storage) (insert_release release_id
        {| rs_manifest_id := manifest_id; rs_rendered_digest := rendered_digest;
           rs_tool_schema_digest := tool_schema_digest; rs_rendered_bytes := rendered_bytes;
           rs_tool_schema_count := tool_schema_count; rs_evidence_ids := evidence_ids; rs_released_at := t |} c)
  | ObservationAppended _ manifest_id observation_id observation_index fact_digest observed_bytes
      visible_source_count truncated evidence_ids observed_at =>
      t ← ts observed_at;
      map_err (fun _ => storage) (insert_observation observation_id
        {| os_manifest_id := manifest_id; os_observation_index := observation_index;
           os_fact_digest := fact_digest; os_observed_bytes := observed_bytes;
           os_visible_source_count := visible_source_count; os_truncated := truncated;
           os_evidence_ids := evidence_ids; os_observed_at := t |} c)
  | AssuranceCertified _ manifest_id finalization_id output_digest verification_digest approval_count
      observation_count final_event_root lifecycle_complete assurance evidence_ids closed_at _ =>
      t ← ts closed_at;
      map_err (fun _ => storage) (insert_finalization finalization_id
        {| fn_manifest_id := manifest_id; fn_output_digest := output_digest;
           fn_verification_digest := verification_digest; fn_approval_count := approval_count;
           fn_observation_count := observation_count; fn_final_event_root := final_event_root;
           fn_lifecycle_complete := lifecycle_complete; fn_assurance := assurance_str assurance;
           fn_evidence_ids := evidence_ids; fn_finalized_at := t |} c)
  | CompilationRequested _ _ _ _ | ManifestVerificationRecorded _ _ _ _ _ _ | RunOpened _ _ _ _
  | RunClosed _ _ _ _ _ _ | OptimizationCandidateProposed _ _ _ _ _ _
  | OptimizationCandidateDispositioned _ _ _ _ => mret c
  end.

Definition apply_context_event (p : P) (e : event) (c : tables) : result Refusal tables :=
  body ← ok_or (context_from_value (payload e)) storage;
  _ ← ensure (bool_decide (event_name_str (cep_name body) = event_type e)) storage;
  project_fact p (cep_fact body) c.

(** ** Recording a fact *)

(** The kernel's database and the Context tables beside it. *)
Record World := { w_db : database; w_context : tables }.

(** The projector as the command path sees it: it reads the tables of the moment
    and leaves the kernel's own alone. *)
Definition projector (c : tables) (e : event) (p : P) : result Refusal P :=
  _ ← apply_context_event p e c; mret p.

Definition fact_body (attribution : ContextAttribution) (f : ContextFact) : V :=
  context_to_value {| cep_name := event_name f; cep_attribution := attribution; cep_fact := f |}.

(** [record_context_fact], with the rows the projector writes. *)
Definition record_fact (st : store) (clock : TxClock) (project key : string)
    (attribution : ContextAttribution) (f : ContextFact) (w : World)
  : result Refusal (Appended (V := V) * World) :=
  let c := w_context w in
  '(appended, db) ← record_context_fact (projector c) st clock project key (fact_route c f)
      (fact_body attribution f) (fact_timestamp f) (precheck (w_db w) c f) (w_db w);
  c ← (if app_replayed appended then mret c
       else fold_res (fun c e => apply_context_event (proj (w_db w)) e c) c (app_events appended));
  mret (appended, {| w_db := db; w_context := c |}).
End Facts.
