(* ===== verification/Blobs.v ===== *)
(** * The blob store (gwk-kernel/src/blob/store.rs, migrations/0003_blob.sql)

    Containers are files, keys and bookkeeping are rows.  An operation is a task
    that takes one statement or one file access at a time; any number of tasks
    run over the same store, any of them may stop where it stands or fail at its
    next access, and the log, the projections and the clock move in between.

    The theorems: a shredded row is final, a pinned one stays, and as long as no
    two tasks work on the same digest or upload at once every live row's container
    opens to bytes of its digest and reads back range by range. *)

From S2P Require Import Prelude Text Envelope Command Tables Db Hub Wire Container Ordered Facts.

Definition UPLOAD_EXPIRY_SECS : Z := 3600.
Definition UPLOAD_ID_HEX_LEN : Z := 32.
Definition i64_max : Z := 9223372036854775807.
Definition BLOB_ADDRESS_SCHEME : string := "sha256:".

(** [is_upload_id]. *)
Definition is_upload_id (value : string) : bool :=
  (Str.len value =? UPLOAD_ID_HEX_LEN)%Z && Str.all_bytes is_lower_hex value.

(** [hex_lower]. *)
Definition hex_digit (n : Z) : Ascii.ascii := Ascii.ascii_of_N (Z.to_N (if (n <? 10)%Z then 48 + n else 87 + n)).
Fixpoint hex_lower (l : bytes) : string :=
  match l with
  | [] => ""
  | b :: l => String (hex_digit (Z.shiftr b 4)) (String (hex_digit (Z.land b 15)) (hex_lower l))
  end.

(** A [BlobAddress] is carried as its bare digest; its text has the scheme. *)
Definition address_text (digest : string) : string := BLOB_ADDRESS_SCHEME +:+ digest.

Section Blobs.
Context `{TZ : Timestamptz} {V : Type} `{AE : Aead}.

(** ** The state *)

(** A row of [gwk_internal.blob_upload], of [gwk_internal.blob]. *)
Record UploadRow := {
  up_media_type : bytes;
  up_byte_size : Z;
  up_written : Z;
  up_next_chunk : Z;
  up_started_at : instant;
}.
Record BlobRow := {
  br_media_type : bytes;
  br_byte_size : Z;
  br_kek_id : bytes;
  br_wrap_nonce : option bytes;
  br_wrapped_dek : option bytes;
  br_created_at : instant;
  br_tombstoned_at : option instant;
}.

(** The rows, the files under the root, and what the sweep asks about: the log,
    the checkpoints and the evidence, and the classification of blobs. *)
Record Blobs := {
  b_now : instant;
  b_uploads : gmap string UploadRow;
  b_blobs : gmap string BlobRow;
  b_pins : gset (string * string);
  b_files : gmap string bytes;
  b_staging : gmap string bytes;
  b_containers : gmap string bytes;
  b_db : Db instant V;
  b_classified : gmap string (BlobClasses * instant);
}.

Definition set_uploads x (b : Blobs) : Blobs := {|
  b_now := b_now b; b_uploads := x; b_blobs := b_blobs b; b_pins := b_pins b; b_files := b_files b;
  b_staging := b_staging b; b_containers := b_containers b; b_db := b_db b; b_classified := b_classified b |}.
Definition set_blob_rows x (b : Blobs) : Blobs := {|
  b_now := b_now b; b_uploads := b_uploads b; b_blobs := x; b_pins := b_pins b; b_files := b_files b;
  b_staging := b_staging b; b_containers := b_containers b; b_db := b_db b; b_classified := b_classified b |}.
Definition set_pins x (b : Blobs) : Blobs := {|
  b_now := b_now b; b_uploads := b_uploads b; b_blobs := b_blobs b; b_pins := x; b_files := b_files b;
  b_staging := b_staging b; b_containers := b_containers b; b_db := b_db b; b_classified := b_classified b |}.
Definition set_files x (b : Blobs) : Blobs := {|
  b_now := b_now b; b_uploads := b_uploads b; b_blobs := b_blobs b; b_pins := b_pins b; b_files := x;
  b_staging := b_staging b; b_containers := b_containers b; b_db := b_db b; b_classified := b_classified b |}.
Definition set_staging x (b : Blobs) : Blobs := {|
  b_now := b_now b; b_uploads := b_uploads b; b_blobs := b_blobs b; b_pins := b_pins b; b_files := b_files b;
  b_staging := x; b_containers := b_containers b; b_db := b_db b; b_classified := b_classified b |}.
Definition set_containers x (b : Blobs) : Blobs := {|
  b_now := b_now b; b_uploads := b_uploads b; b_blobs := b_blobs b; b_pins := b_pins b; b_files := b_files b;
  b_staging := b_staging b; b_containers := x; b_db := b_db b; b_classified := b_classified b |}.

(** [blob_key_matches_tombstone]. *)
Definition blob_key_matches_tombstone (r : BlobRow) : bool :=
  Bool.eqb (negb (is_some (br_wrapped_dek r))) (is_some (br_tombstoned_at r))
  && Bool.eqb (is_some (br_wrap_nonce r)) (is_some (br_wrapped_dek r)).

Definition set_key (nonce wrapped : bytes) (r : BlobRow) : BlobRow := {|
  br_media_type := br_media_type r; br_byte_size := br_byte_size r; br_kek_id := br_kek_id r;
  br_wrap_nonce := Some nonce; br_wrapped_dek := Some wrapped; br_created_at := br_created_at r;
  br_tombstoned_at := br_tombstoned_at r |}.
Definition set_tombstone (now : instant) (r : BlobRow) : BlobRow := {|
  br_media_type := br_media_type r; br_byte_size := br_byte_size r; br_kek_id := br_kek_id r;
  br_wrap_nonce := None; br_wrapped_dek := None; br_created_at := br_created_at r; br_tombstoned_at := Some now |}.

Definition tombstoned (r : BlobRow) : bool := is_some (br_tombstoned_at r).
Definition pinned (b : Blobs) (digest : string) : bool := existsb (fun p => bool_decide (p.1 = digest)) (elements (b_pins b)).

Record BlobConfig := {
  bc_kek : bytes;
  bc_kek_id : bytes;
  bc_pty_recording_retention_days : Z;
  bc_context_retention : list (RetentionClass * Z);
}.

Record BlobDescriptor := {
  ds_address : string;
  ds_media_type : bytes;
  ds_byte_size : Z;
  ds_kek_id : bytes;
  ds_created_at : string;
  ds_pinned : bool;
  ds_tombstoned : bool;
}.

Definition descriptor (b : Blobs) (digest : string) (r : BlobRow) : BlobDescriptor := {|
  ds_address := digest; ds_media_type := br_media_type r; ds_byte_size := br_byte_size r; ds_kek_id := br_kek_id r;
  ds_created_at := ts_json (br_created_at r); ds_pinned := pinned b digest; ds_tombstoned := tombstoned r |}.

(** [readable]: the row, or the reason there is nothing to read. *)
Definition readable (b : Blobs) (digest : string) : result BlobError BlobRow :=
  r ← ok_or (b_blobs b !! digest) NotFound;
  _ ← ensure (negb (tombstoned r)) Tombstoned;
  mret r.

(** [key_material]. *)
Definition key_material (r : BlobRow) : result BlobError (bytes * bytes) :=
  match br_wrap_nonce r, br_wrapped_dek r with
  | Some nonce, Some wrapped =>
      _ ← ensure (zlen nonce =? WRAP_NONCE_BYTES)%Z Integrity;
      _ ← ensure (zlen wrapped =? WRAPPED_DEK_BYTES)%Z Integrity;
      mret (nonce, wrapped)
  | _, _ => Err Tombstoned
  end.

(** [open_container], on the file's bytes: the header of the width the row
    describes. *)
Definition open_container (r : BlobRow) (file : bytes) : result BlobError (Header * bytes) :=
  let expected := header_len (br_media_type r) (br_kek_id r) in
  head ← read_at 0 expected file;
  '(header, actual) ← decode head;
  _ ← ensure (actual =? expected)%Z Integrity;
  mret (header, head).

(** ** The sweep's question *)

(** [unreferenced], of one row. *)
Definition unreferenced (cfg : BlobConfig) (b : Blobs) (digest : string) (r : BlobRow) : bool :=
  let address := address_text digest in
  let classified := b_classified b !! address in
  negb (tombstoned r)
  && negb (pinned b digest)
  && negb (existsb (fun e => bool_decide (pr_digest <$> payload_ref e = Some address)) (log (b_db b)))
  && negb (existsb (fun c => bool_decide (pr_digest (ck_records_ref c.2) = address)) (map_to_list (checkpoints (b_db b))))
  && negb (existsb (fun e => bool_decide (evidence_ref e.2 = address)
                             && (negb (bool_decide (evidence_kind e.2 = "pty_recording"))
                                 || negb (older_than_days (b_now b) (evidence_created_at e.2) (bc_pty_recording_retention_days cfg)))
                             && negb (is_some classified))
                   (map_to_list (evidences (proj (b_db b)))))
  && match classified with
     | None => true
     | Some (classes, created_at) =>
         (* the LEFT JOIN: a class without a window has one row, its days NULL *)
         match List.filter (fun w => bool_decide (w.1 = bc_retention classes)) (bc_context_retention cfg) with
         | [] => false
         | windows => forallb (fun w => older_than_days (b_now b) created_at w.2) windows
         end
     end.

(** ** Files *)

(** A write of [chunk] at an offset; a gap before it reads as zeros. *)
Definition write_at (offset : nat) (chunk file : bytes) : bytes :=
  take offset (file ++ replicate (offset - length file) 0%Z) ++ chunk ++ drop (offset + length chunk) file.

(** [discard_upload_files]. *)
Definition discard_upload_files (id : string) (b : Blobs) : Blobs :=
  set_staging (delete id (b_staging b)) (set_files (delete id (b_files b)) b).

Definition delete_upload (id : string) (b : Blobs) : Blobs := set_uploads (delete id (b_uploads b)) b.

Definition expired (b : Blobs) (u : UploadRow) : bool := older_than (b_now b) (up_started_at u) UPLOAD_EXPIRY_SECS.

(** ** The operations, a statement or a file access at a time *)

Inductive BlobAnswer :=
| Began (id : string)
| Written
| Committed (d : BlobDescriptor) (deduped : bool)
| Aborted
| ReadBytes (l : bytes)
| Described (d : option BlobDescriptor)
| PinAnswered
| Swept (removed : list string)
| Shredded
| Rewrapped (moved : bool)
| Rotated (rewrapped already : Z)
| Expired
| BlobRefused (e : BlobError).

(** What is left of a rotation: the digests still to move and the report. *)
Notation rotation := (list string * (Z * Z))%type.

(** Where a task stands. *)
Inductive BlobTask :=
(* [expire_uploads], on its way to another task *)
| TExpire (next : BlobTask)
| TDiscard (ids : list string) (next : BlobTask)
(* [begin] *)
| TBegin (media_type : bytes) (byte_size : Z)
| TBeginInsert (media_type : bytes) (byte_size : Z)
| TBeginCreate (id : string)
(* [write_chunk] *)
| TWrite (upload : string) (sequence : Z) (chunk : bytes)
| TWriteFile (id : string) (written after : Z) (chunk : bytes)
| TWriteRow (id : string) (after : Z)
(* [commit] *)
| TCommit (upload address : string)
| TCommitRead (id address : string) (media_type : bytes) (written : Z)
| TCommitRow (id digest : string) (media_type plaintext : bytes)
| TCommitDup (id digest : string) (media_type : bytes) (existing : BlobRow) (d : BlobDescriptor)
| TCommitDupClose (id digest : string) (media_type : bytes) (existing : BlobRow) (d : BlobDescriptor)
| TCommitStage (id digest : string) (media_type plaintext : bytes) (sealed : Sealed)
| TCommitRename (id digest : string) (media_type plaintext : bytes) (sealed : Sealed)
| TCommitInsert (id digest : string) (media_type plaintext : bytes) (sealed : Sealed)
| TCommitClose (id digest : string) (deduped : bool)
| TCommitDiscard (id digest : string) (deduped : bool)
| TCommitAnswer (digest : string) (deduped : bool)
(* [abort] *)
| TAbort (upload : string)
| TAbortDiscard (id : string) (deleted : bool)
(* [read], [stat], [pin] and [unpin] *)
| TRead (digest : string) (offset length_ : Z)
| TReadFile (digest : string) (r : BlobRow) (nonce wrapped : bytes) (offset length_ : Z)
| TStat (digest : string)
| TPin (digest evidence : string)
| TPinInsert (digest evidence : string)
| TUnpin (digest evidence : string)
| TUnpinDelete (digest evidence : string)
(* [sweep] and [shred] *)
| TSweep
| TSweepDelete
| TSweepUnlink (todo removed : list string)
| TShred (digest : string)
| TShredUpdate (digest : string)
| TShredUnlink (digest : string)
(* [rewrap_one] and [rewrap_all] *)
| TRotate (new_kek : bytes)
| TRewrap (digest : string) (new_kek : bytes) (rest : option rotation)
| TRewrapOpen (digest : string) (new_kek : bytes) (r : BlobRow) (nonce wrapped : bytes) (rest : option rotation)
| TRewrapUpdate (digest : string) (new_kek new_nonce new_wrapped : bytes) (rest : option rotation)
(* the answer *)
| TDone (a : BlobAnswer).

Definition answer_of {A} (r : result BlobError A) (k : A -> BlobTask) : BlobTask :=
  match r with
  | Ok a => k a
  | Err e => TDone (BlobRefused e)
  end.

(** What [rewrap_one] hands back, alone or within [rewrap_all]. *)
Definition rotate_next (new_kek : bytes) (todo : list string) (report : Z * Z) : BlobTask :=
  match todo with
  | [] => TDone (Rotated report.1 report.2)
  | digest :: todo => TRewrap digest new_kek (Some (todo, report))
  end.
Definition rewrapped (new_kek : bytes) (moved : bool) (rest : option rotation) : BlobTask :=
  match rest with
  | None => TDone (Rewrapped moved)
  | Some (todo, (n, already)) =>
      rotate_next new_kek todo (if moved then (n + 1, already)%Z else (n, already + 1)%Z)
  end.

(** The checks of [write_chunk] on the upload's row. *)
Definition write_check (b : Blobs) (upload : string) (sequence : Z) (chunk : bytes) : result BlobError (Z * Z) :=
  _ ← ensure (is_upload_id upload) NotFound;
  u ← ok_or (b_uploads b !! upload) NotFound;
  _ ← ensure (negb (expired b u)) NotFound;
  _ ← ensure (sequence =? up_next_chunk u)%Z Integrity;
  _ ← ensure (zlen chunk <=? i64_max)%Z Integrity;
  let after := (up_written u + zlen chunk)%Z in
  _ ← ensure (after <=? i64_max)%Z Integrity;
  _ ← ensure (after <=? up_byte_size u)%Z Integrity;
  mret (up_written u, after).

(** The checks of [commit] on the upload's row. *)
Definition commit_check (b : Blobs) (upload : string) : result BlobError (bytes * Z) :=
  _ ← ensure (is_upload_id upload) NotFound;
  u ← ok_or (b_uploads b !! upload) NotFound;
  _ ← ensure (negb (expired b u)) NotFound;
  _ ← ensure (up_written u =? up_byte_size u)%Z Integrity;
  mret (up_media_type u, up_written u).

(** The staged plaintext, exactly the bytes the row records, and its digest. *)
Definition commit_read (b : Blobs) (id address : string) (written : Z) : result BlobError bytes :=
  file ← ok_or (b_files b !! id) BlobStorage;
  _ ← ensure (written <=? zlen file)%Z BlobStorage;
  let plaintext := take (Z.to_nat written) file in
  _ ← ensure (bool_decide (hex_lower (sha256 plaintext) = address)) DigestMismatch;
  mret plaintext.

(** The answer to a commit of bytes the store already has. *)
Definition dedup_answer (media_type : bytes) (existing : BlobRow) (d : BlobDescriptor) : BlobAnswer :=
  if tombstoned existing then BlobRefused Tombstoned
  else if bool_decide (br_media_type existing = media_type) then Committed d true
  else BlobRefused Integrity.

(** [read], up to the container: the row, its key, and the range it leaves. *)
Definition read_row (b : Blobs) (digest : string) (offset length_ : Z) : result BlobError (BlobRow * bytes * bytes * Z) :=
  r ← readable b digest;
  '(nonce, wrapped) ← key_material r;
  let size := br_byte_size r in
  mret (r, nonce, wrapped,
        if (size <=? offset)%Z then 0%Z else Z.min (Z.min length_ BLOB_CHUNK_BYTES) (size - offset)).

(** [read], from the container on. *)
Definition read_file (cfg : BlobConfig) (b : Blobs) (digest : string) (r : BlobRow) (nonce wrapped : bytes)
    (offset length_ : Z) : result BlobError bytes :=
  file ← ok_or (b_containers b !! digest) BlobStorage;
  '(header, aad) ← open_container r file;
  _ ← ensure (hd_byte_size header =? br_byte_size r)%Z Integrity;
  dek ← unwrap_dek wrapped (bc_kek cfg) nonce aad;
  read_range (br_byte_size r) offset length_ header aad dek file.

(** The new wrap of [rewrap_one], or that the row has it already. *)
Definition rewrap_file (cfg : BlobConfig) (b : Blobs) (digest : string) (new_kek : bytes) (r : BlobRow)
    (nonce wrapped new_nonce : bytes) : result BlobError (option bytes) :=
  file ← ok_or (b_containers b !! digest) BlobStorage;
  '(_, head) ← open_container r file;
  match rewrap head (bc_kek cfg) new_kek nonce wrapped new_nonce with
  | Ok new_wrapped => mret (Some new_wrapped)
  | Err refused =>
      match unwrap_dek wrapped new_kek nonce head with
      | Ok _ => mret None
      | Err _ => Err refused
      end
  end.

(** The random values a step may draw. *)
Record Fresh := {
  fr_id : string;
  fr_dek : bytes;
  fr_wrap_nonce : bytes;
  fr_stream_nonce : bytes;
}.

(** The digests a statement picks, in the order of the keys. *)
Definition rows_where (f : string -> BlobRow -> bool) (b : Blobs) : list string :=
  sort_by String.leb (List.filter (fun '(d, r) => f d r) (map_to_list (b_blobs b))).*1.

Definition delete_rows (ds : list string) (b : Blobs) : Blobs :=
  set_pins (filter (fun p => p.1 ∉ ds) (b_pins b)) (set_blob_rows (foldr delete (b_blobs b) ds) b).

Definition inserted_row (cfg : BlobConfig) (b : Blobs) (media_type plaintext : bytes) (s : Sealed) : BlobRow := {|
  br_media_type := media_type; br_byte_size := zlen plaintext; br_kek_id := bc_kek_id cfg;
  br_wrap_nonce := Some (sl_wrap_nonce s); br_wrapped_dek := Some (sl_wrapped_dek s);
  br_created_at := b_now b; br_tombstoned_at := None |}.

Definition new_upload (b : Blobs) (media_type : bytes) (byte_size : Z) : UploadRow := {|
  up_media_type := media_type; up_byte_size := byte_size; up_written := 0; up_next_chunk := 0;
  up_started_at := b_now b |}.
Definition advance_upload (after : Z) (u : UploadRow) : UploadRow := {|
  up_media_type := up_media_type u; up_byte_size := up_byte_size u; up_written := after;
  up_next_chunk := up_next_chunk u + 1; up_started_at := up_started_at u |}.

Definition task_step (cfg : BlobConfig) (f : Fresh) (b : Blobs) (t : BlobTask) : Blobs * BlobTask :=
  match t with
  | TExpire next =>
      let stale := (List.filter (fun '(_, u) => expired b u) (map_to_list (b_uploads b))).*1 in
      (set_uploads (foldr delete (b_uploads b) stale) b, TDiscard stale next)
  | TDiscard [] next => (b, next)
  | TDiscard (id :: ids) next => (discard_upload_files id b, TDiscard ids next)
  | TBegin media_type byte_size =>
      (b, if (zlen media_type =? 0) || (u16_max <? zlen media_type) || (i64_max <? byte_size)
          then TDone (BlobRefused Integrity)
          else TExpire (TBeginInsert media_type byte_size))%Z
  | TBeginInsert media_type byte_size =>
      if is_some (b_uploads b !! fr_id f) then (b, TDone (BlobRefused BlobStorage))
      else (set_uploads (<[fr_id f := new_upload b media_type byte_size]> (b_uploads b)) b, TBeginCreate (fr_id f))
  | TBeginCreate id => (set_files (<[id := []]> (b_files b)) b, TDone (Began id))
  | TWrite upload sequence chunk =>
      (b, answer_of (write_check b upload sequence chunk) (fun '(written, after) => TWriteFile upload written after chunk))
  | TWriteFile id written after chunk =>
      match b_files b !! id with
      | Some file => (set_files (<[id := write_at (Z.to_nat written) chunk file]> (b_files b)) b, TWriteRow id after)
      | None => (b, TDone (BlobRefused BlobStorage))
      end
  | TWriteRow id after => (set_uploads (alter (advance_upload after) id (b_uploads b)) b, TDone Written)
  | TCommit upload address =>
      (b, answer_of (commit_check b upload) (fun '(media_type, written) => TCommitRead upload address media_type written))
  | TCommitRead id address media_type written =>
      (b, answer_of (commit_read b id address written) (fun plaintext => TCommitRow id address media_type plaintext))
  | TCommitRow id digest media_type plaintext =>
      (b, match b_blobs b !! digest with
          | Some existing => TCommitDup id digest media_type existing (descriptor b digest existing)
          | None => answer_of (seal_with plaintext media_type (bc_kek cfg) (bc_kek_id cfg) (fr_dek f) (fr_wrap_nonce f)
                                 (fr_stream_nonce f))
                      (fun sealed => TCommitStage id digest media_type plaintext sealed)
          end)
  | TCommitDup id digest media_type existing d =>
      (discard_upload_files id b, TCommitDupClose id digest media_type existing d)
  | TCommitDupClose id digest media_type existing d => (delete_upload id b, TDone (dedup_answer media_type existing d))
  | TCommitStage id digest media_type plaintext sealed =>
      (set_staging (<[id := sl_container sealed]> (b_staging b)) b, TCommitRename id digest media_type plaintext sealed)
  | TCommitRename id digest media_type plaintext sealed =>
      match b_staging b !! id with
      | Some container =>
          (set_staging (delete id (b_staging b)) (set_containers (<[digest := container]> (b_containers b)) b),
           TCommitInsert id digest media_type plaintext sealed)
      | None => (b, TDone (BlobRefused BlobStorage))
      end
  | TCommitInsert id digest media_type plaintext sealed =>
      if is_some (b_blobs b !! digest) then (b, TCommitClose id digest true)
      else (set_blob_rows (<[digest := inserted_row cfg b media_type plaintext sealed]> (b_blobs b)) b,
            TCommitClose id digest false)
  | TCommitClose id digest deduped => (delete_upload id b, TCommitDiscard id digest deduped)
  | TCommitDiscard id digest deduped => (discard_upload_files id b, TCommitAnswer digest deduped)
  | TCommitAnswer digest deduped =>
      (b, TDone match b_blobs b !! digest with
                | Some r => Committed (descriptor b digest r) deduped
                | None => BlobRefused NotFound
                end)
  | TAbort upload =>
      if is_upload_id upload then (delete_upload upload b, TAbortDiscard upload (is_some (b_uploads b !! upload)))
      else (b, TDone (BlobRefused NotFound))
  | TAbortDiscard id deleted =>
      (discard_upload_files id b, TDone (if deleted then Aborted else BlobRefused NotFound))
  | TRead digest offset length_ =>
      (b, answer_of (read_row b digest offset length_) (fun '(r, nonce, wrapped, length_) =>
            if (length_ =? 0)%Z then TDone (ReadBytes []) else TReadFile digest r nonce wrapped offset length_))
  | TReadFile digest r nonce wrapped offset length_ =>
      (b, answer_of (read_file cfg b digest r nonce wrapped offset length_) (fun l => TDone (ReadBytes l)))
  | TStat digest =>
      (b, TDone match b_blobs b !! digest with
                | None => Described None
                | Some r => if tombstoned r then BlobRefused Tombstoned else Described (Some (descriptor b digest r))
                end)
  | TPin digest evidence => (b, answer_of (readable b digest) (fun _ => TPinInsert digest evidence))
  | TPinInsert digest evidence =>
      if is_some (b_blobs b !! digest) then (set_pins ({[ (digest, evidence) ]} ∪ b_pins b) b, TDone PinAnswered)
      else (b, TDone (BlobRefused BlobStorage))
  | TUnpin digest evidence =>
      (b, if is_some (b_blobs b !! digest) then TUnpinDelete digest evidence else TDone (BlobRefused NotFound))
  | TUnpinDelete digest evidence => (set_pins (b_pins b ∖ {[ (digest, evidence) ]}) b, TDone PinAnswered)
  | TSweep => (b, TExpire TSweepDelete)
  | TSweepDelete =>
      let swept := rows_where (unreferenced cfg b) b in
      (delete_rows swept b, TSweepUnlink swept [])
  | TSweepUnlink [] removed => (b, TDone (Swept removed))
  | TSweepUnlink (digest :: todo) removed =>
      (set_containers (delete digest (b_containers b)) b, TSweepUnlink todo (removed ++ [digest]))
  | TShred digest =>
      (b, match b_blobs b !! digest with
          | None => TDone (BlobRefused NotFound)
          | Some r => if tombstoned r then TDone Shredded
                      else if pinned b digest then TDone (BlobRefused Pinned)
                      else TShredUpdate digest
          end)
  | TShredUpdate digest =>
      match b_blobs b !! digest with
      | Some r => if negb (tombstoned r) && negb (pinned b digest)
                  then (set_blob_rows (<[digest := set_tombstone (b_now b) r]> (b_blobs b)) b, TShredUnlink digest)
                  else (b, TDone (BlobRefused Pinned))
      | None => (b, TDone (BlobRefused Pinned))
      end
  | TShredUnlink digest => (set_containers (delete digest (b_containers b)) b, TDone Shredded)
  | TRotate new_kek =>
      (b, rotate_next new_kek (rows_where (fun _ r => bool_decide (br_kek_id r = bc_kek_id cfg) && negb (tombstoned r)) b)
            (0, 0)%Z)
  | TRewrap digest new_kek rest =>
      (b, answer_of (r ← readable b digest; k ← key_material r; mret (r, k))
            (fun '(r, (nonce, wrapped)) => TRewrapOpen digest new_kek r nonce wrapped rest))
  | TRewrapOpen digest new_kek r nonce wrapped rest =>
      (b, answer_of (rewrap_file cfg b digest new_kek r nonce wrapped (fr_wrap_nonce f))
            (fun moved => match moved with
                          | Some new_wrapped => TRewrapUpdate digest new_kek (fr_wrap_nonce f) new_wrapped rest
                          | None => rewrapped new_kek false rest
                          end))
  | TRewrapUpdate digest new_kek new_nonce new_wrapped rest =>
      (set_blob_rows (alter (fun r => if tombstoned r then r else set_key new_nonce new_wrapped r) digest (b_blobs b)) b,
       rewrapped new_kek true rest)
  | TDone a => (b, TDone a)
  end.

(** ** Tasks side by side *)

Record BlobWorld := {
  bw_store : Blobs;
  bw_tasks : list (BlobConfig * BlobTask);
}.

(** The calls a client makes, and the upkeep [open] does. *)
Definition is_call (t : BlobTask) : bool :=
  match t with
  | TBegin media_type n => utf8_ok media_type && bool_decide (is_u64 n)
  | TWrite _ n _ => bool_decide (is_u32 n)
  | TRead _ off len => bool_decide (is_u64 off /\ is_u64 len)
  | TExpire (TDone Expired) | TCommit _ _ | TAbort _ | TStat _ | TPin _ _ | TUnpin _ _ | TSweep | TShred _
  | TRotate _ | TRewrap _ _ None => true
  | _ => false
  end.

(** The widths the random source has. *)
Definition fresh_ok (f : Fresh) : Prop :=
  is_upload_id (fr_id f) = true /\ zlen (fr_dek f) = DEK_BYTES /\ zlen (fr_wrap_nonce f) = WRAP_NONCE_BYTES /\
  zlen (fr_stream_nonce f) = STREAM_NONCE_BYTES.

(** A failed write may have got part of its bytes into the file. *)
Definition torn_write (n : nat) (t : BlobTask) (b : Blobs) : Blobs :=
  match t with
  | TWriteFile id written _ chunk =>
      match b_files b !! id with
      | Some file => set_files (<[id := write_at (Z.to_nat written) (take n chunk) file]> (b_files b)) b
      | None => b
      end
  | TCommitStage id _ _ _ sealed => set_staging (<[id := take n (sl_container sealed)]> (b_staging b)) b
  | _ => b
  end.

(** The log, the projections, the classifications and the clock are others'. *)
Definition moved (now : instant) (db : Db instant V) classified (b : Blobs) : Blobs := {|
  b_now := now; b_uploads := b_uploads b; b_blobs := b_blobs b; b_pins := b_pins b; b_files := b_files b;
  b_staging := b_staging b; b_containers := b_containers b; b_db := db; b_classified := classified |}.

Inductive blob_step : BlobWorld -> BlobWorld -> Prop :=
| bs_call cfg t w : is_call t = true -> utf8_ok (bc_kek_id cfg) = true ->
    blob_step w {| bw_store := bw_store w; bw_tasks := bw_tasks w ++ [(cfg, t)] |}
| bs_run i cfg t f b' t' w :
    bw_tasks w !! i = Some (cfg, t) -> fresh_ok f -> task_step cfg f (bw_store w) t = (b', t') ->
    blob_step w {| bw_store := b'; bw_tasks := <[i := (cfg, t')]> (bw_tasks w) |}
| bs_fault i cfg t n w :
    bw_tasks w !! i = Some (cfg, t) ->
    blob_step w {| bw_store := torn_write n t (bw_store w);
                   bw_tasks := <[i := (cfg, TDone (BlobRefused BlobStorage))]> (bw_tasks w) |}
| bs_stop i cfg t n w :
    bw_tasks w !! i = Some (cfg, t) ->
    blob_step w {| bw_store := torn_write n t (bw_store w); bw_tasks := delete i (bw_tasks w) |}
| bs_moved now db classified w :
    blob_step w {| bw_store := moved now db classified (bw_store w); bw_tasks := bw_tasks w |}.

Definition no_blobs (now : instant) (db : Db instant V) : Blobs := {|
  b_now := now; b_uploads := ∅; b_blobs := ∅; b_pins := ∅; b_files := ∅; b_staging := ∅; b_containers := ∅;
  b_db := db; b_classified := ∅ |}.
Definition blob_start (now : instant) (db : Db instant V) : BlobWorld :=
  {| bw_store := no_blobs now db; bw_tasks := [] |}.

(** ** What every step keeps *)

(** The widths of a key and of its wrap. *)
Definition key_widths (nonce wrapped : bytes) : Prop := zlen nonce = WRAP_NONCE_BYTES /\ zlen wrapped = WRAPPED_DEK_BYTES.

(** What a task carries to its next statement. *)
Fixpoint task_ok (t : BlobTask) : Prop :=
  match t with
  | TExpire next | TDiscard _ next => task_ok next
  | TCommitStage _ _ _ _ s | TCommitRename _ _ _ _ s | TCommitInsert _ _ _ _ s =>
      key_widths (sl_wrap_nonce s) (sl_wrapped_dek s)
  | TRewrapUpdate _ _ nonce wrapped _ => key_widths nonce wrapped
  | _ => True
  end.

Record row_ok (r : BlobRow) : Prop := {
  ro_check : blob_key_matches_tombstone r = true;
  ro_size : (0 <= br_byte_size r)%Z;
  ro_key nonce wrapped : br_wrap_nonce r = Some nonce -> br_wrapped_dek r = Some wrapped -> key_widths nonce wrapped;
}.

Record store_ok (b : Blobs) : Prop := {
  so_rows : map_Forall (fun _ => row_ok) (b_blobs b);
  so_pins : forall p, p ∈ b_pins b -> is_Some (b_blobs b !! p.1);
}.

(** What a step does to the rows and the pins. *)
Inductive row_effect (cfg : BlobConfig) (b : Blobs) : BlobTask -> Blobs -> Prop :=
| re_none t b' : b_blobs b' = b_blobs b -> b_pins b' = b_pins b -> row_effect cfg b t b'
| re_insert id d m p s : b_blobs b !! d = None ->
    row_effect cfg b (TCommitInsert id d m p s) (set_blob_rows (<[d := inserted_row cfg b m p s]> (b_blobs b)) b)
| re_pin d e : is_Some (b_blobs b !! d) -> row_effect cfg b (TPinInsert d e) (set_pins ({[ (d, e) ]} ∪ b_pins b) b)
| re_unpin d e : row_effect cfg b (TUnpinDelete d e) (set_pins (b_pins b ∖ {[ (d, e) ]}) b)
| re_sweep : row_effect cfg b TSweepDelete (delete_rows (rows_where (unreferenced cfg b) b) b)
| re_shred d r : b_blobs b !! d = Some r -> tombstoned r = false -> pinned b d = false ->
    row_effect cfg b (TShredUpdate d) (set_blob_rows (<[d := set_tombstone (b_now b) r]> (b_blobs b)) b)
| re_rewrap d k n w rest :
    row_effect cfg b (TRewrapUpdate d k n w rest)
      (set_blob_rows (alter (fun r => if tombstoned r then r else set_key n w r) d (b_blobs b)) b).

Lemma is_some_true {A} (o : option A) : is_some o = true <-> is_Some o.
Proof. destruct o; cbn; split; intros H; try done; by destruct H. Qed.
Lemma is_some_false {A} (o : option A) : is_some o = false <-> o = None.
Proof. by destruct o. Qed.

Lemma task_step_rows cfg f b t b' t' : task_step cfg f b t = (b', t') -> row_effect cfg b t b'.
Proof.
  destruct t; cbn -[rows_where]; intros E; repeat case_match; unbool; simplify_eq;
    try (by apply re_none); try by econstructor.
  - apply re_insert. by apply is_some_false.
  - apply re_pin. by apply is_some_true.
Qed.

Lemma rows_where_elem f b d : d ∈ rows_where f b <-> exists r, b_blobs b !! d = Some r /\ f d r = true.
Proof.
  unfold rows_where. rewrite sort_by_elem_of. split.
  - intros ([d' r] & -> & Hin)%list_elem_of_fmap. apply list_elem_of_In, filter_In in Hin as [Hin Hf].
    apply list_elem_of_In, elem_of_map_to_list in Hin. eauto.
  - intros (r & Hr & Hf). apply list_elem_of_fmap. exists (d, r). split; [done|]. apply list_elem_of_In, filter_In.
    split; [|done]. by apply list_elem_of_In, elem_of_map_to_list.
Qed.

Lemma delete_rows_lookup ds b d : b_blobs (delete_rows ds b) !! d = if decide (d ∈ ds) then None else b_blobs b !! d.
Proof.
  cbn. induction ds as [|d' ds IH]; cbn; [by rewrite decide_False by apply not_elem_of_nil|].
  destruct (decide (d = d')) as [->|Hne]; [rewrite lookup_delete_eq; by rewrite decide_True by (apply elem_of_cons; by left)|].
  rewrite lookup_delete_ne by done. rewrite IH. repeat case_decide; set_solver.
Qed.

Lemma delete_rows_pins ds b p : p ∈ b_pins (delete_rows ds b) <-> p ∈ b_pins b /\ p.1 ∉ ds.
Proof. cbn. rewrite elem_of_filter. tauto. Qed.

Lemma pinned_iff b d : pinned b d = true <-> exists e, (d, e) ∈ b_pins b.
Proof.
  unfold pinned. rewrite existsb_exists. split.
  - intros ([d' e] & Hin & <-%bool_decide_eq_true). apply list_elem_of_In, elem_of_elements in Hin. by exists e.
  - intros [e He]. exists (d, e). split; [by apply list_elem_of_In, elem_of_elements|by apply bool_decide_eq_true].
Qed.

(** A world and the tasks in it. *)
Definition world_ok (w : BlobWorld) : Prop :=
  store_ok (bw_store w) /\ Forall (fun ct => task_ok ct.2) (bw_tasks w).

Lemma wrap_dek_width dek kek nonce aad wrapped : wrap_dek dek kek nonce aad = Ok wrapped -> zlen wrapped = WRAPPED_DEK_BYTES.
Proof. unfold wrap_dek. intros Hw. inv_ok. by unbool. Qed.

Lemma seal_with_widths p m kek kid dek wn sn s : seal_with p m kek kid dek wn sn = Ok s -> zlen wn = WRAP_NONCE_BYTES ->
  key_widths (sl_wrap_nonce s) (sl_wrapped_dek s).
Proof.
  unfold seal_with. intros Hs Hn. inv_ok.
  match goal with H : wrap_dek _ _ _ _ = Ok _ |- _ => apply wrap_dek_width in H end. by split.
Qed.

Lemma rewrap_file_width cfg b d k r n w nn o : rewrap_file cfg b d k r n w nn = Ok (Some o) -> zlen o = WRAPPED_DEK_BYTES.
Proof.
  unfold rewrap_file. intros Hr. inv_ok. case_match eqn:E; [inv_ok|by case_match]. simplify_eq. unfold rewrap in E. inv_ok.
  by eapply wrap_dek_width.
Qed.

Lemma answer_of_ind {A} (P : BlobTask -> Prop) (r : result BlobError A) k :
  (forall e, P (TDone (BlobRefused e))) -> (forall a, r = Ok a -> P (k a)) -> P (answer_of r k).
Proof. intros He Hk. destruct r; [by apply Hk|apply He]. Qed.

Lemma rotate_next_ok k todo report : task_ok (rotate_next k todo report).
Proof. by destruct todo. Qed.
Lemma rewrapped_ok k moved rest : task_ok (rewrapped k moved rest).
Proof. destruct rest as [[[|d todo] [n a]]|]; by destruct moved. Qed.

Lemma task_step_ok cfg f b t b' t' : fresh_ok f -> task_ok t -> task_step cfg f b t = (b', t') -> task_ok t'.
Proof.
  intros (_ & _ & Hn & _) Ht.
  destruct t; cbn -[rows_where]; intros E; repeat case_match; simplify_eq; try done; try apply rewrapped_ok;
    try apply rotate_next_ok; apply answer_of_ind; try done; intros a Ha; repeat case_match; try done.
  - by eapply seal_with_widths.
  - split; [done|]. by eapply rewrap_file_width.
  - apply rewrapped_ok.
Qed.

Lemma row_effect_ok cfg b t b' : task_ok t -> store_ok b -> row_effect cfg b t b' -> store_ok b'.
Proof.
  intros Ht [Hr Hp] He. destruct He as [t b' E1 E2|id d m p s Hd|d e Hd|d e| |d r Hd Hl Hpin|d k n w rest].
  - split; [by rewrite E1|]. rewrite E1, E2. done.
  - split; cbn.
    + apply map_Forall_insert_2; [|done]. split; cbn; [done|apply zlen_nonneg|]. intros ? ? [= <-] [= <-]. exact Ht.
    + intros q Hq. apply lookup_insert_is_Some'. right. by apply Hp.
  - split; cbn; [done|]. intros q [->%elem_of_singleton|Hq]%elem_of_union; [done|by apply Hp].
  - split; cbn; [done|]. intros q [Hq _]%elem_of_difference. by apply Hp.
  - split.
    + intros d r Hd. rewrite delete_rows_lookup in Hd. case_decide; [done|]. by eapply Hr.
    + intros q [Hq Hn]%delete_rows_pins. rewrite delete_rows_lookup, decide_False by done. by apply Hp.
  - split; cbn.
    + apply map_Forall_insert_2; [|done]. destruct (Hr d r Hd) as [_ Hs _]. by split; cbn.
    + intros q Hq. apply lookup_insert_is_Some'. right. by apply Hp.
  - split; cbn.
    + intros d' r' Hd'. destruct (decide (d' = d)) as [->|Hne]; [|rewrite lookup_alter_ne in Hd' by done; by eapply Hr].
      rewrite lookup_alter_eq in Hd'. destruct (b_blobs b !! d) as [r|] eqn:Ed; [|done]. cbn in Hd'. simplify_eq.
      destruct (Hr d r Ed) as [Hc Hs Hk]. destruct (tombstoned r) eqn:Et; [done|]. split; cbn; [|done|by intros ? ? [= <-] [= <-]].
      unfold tombstoned in Et. apply is_some_false in Et. unfold blob_key_matches_tombstone. cbn. by rewrite Et.
    + intros q Hq. rewrite lookup_alter_is_Some. by apply Hp.
Qed.

Lemma torn_write_rows n t b : b_blobs (torn_write n t b) = b_blobs b /\ b_pins (torn_write n t b) = b_pins b /\
  b_containers (torn_write n t b) = b_containers b.
Proof. destruct t; try done. cbn. by case_match. Qed.

(** A step of the world, as an effect on the rows. *)
Lemma blob_step_rows w w' : blob_step w w' ->
  exists cfg t, ((cfg, t) ∈ bw_tasks w \/ t = TSweep) /\ row_effect cfg (bw_store w) t (bw_store w').
Proof.
  intros [cfg t w0 Hc|i cfg t f b' t' w0 Hi Hf Hs|i cfg t n w0 Hi|i cfg t n w0 Hi|now db cl w0]; cbn.
  - exists cfg, TSweep. split; [by right|by apply re_none].
  - exists cfg, t. split; [left; by eapply list_elem_of_lookup_2|by eapply task_step_rows].
  - exists cfg, t. split; [left; by eapply list_elem_of_lookup_2|]. apply re_none; apply torn_write_rows.
  - exists cfg, t. split; [left; by eapply list_elem_of_lookup_2|]. apply re_none; apply torn_write_rows.
  - exists {| bc_kek := []; bc_kek_id := []; bc_pty_recording_retention_days := 0; bc_context_retention := [] |}, TSweep.
    split; [by right|by apply re_none].
Qed.

Lemma is_call_ok t : is_call t = true -> task_ok t.
Proof. destruct t; try done. cbn. by destruct t. Qed.

Lemma world_ok_step w w' : blob_step w w' -> world_ok w -> world_ok w'.
Proof.
  intros Hs [Ho Ht]. split.
  - destruct (blob_step_rows _ _ Hs) as (cfg & t & Hin & He). eapply row_effect_ok; [|done|done].
    destruct Hin as [Hin| ->]; [|done]. rewrite Forall_forall in Ht. by apply (Ht (cfg, t)).
  - destruct Hs as [cfg t w0 Hc|i cfg t f b' t' w0 Hi Hf Hs|i cfg t n w0 Hi|i cfg t n w0 Hi|now db cl w0]; cbn; try done.
    + apply Forall_app. split; [done|]. apply Forall_singleton. by apply is_call_ok.
    + apply Forall_insert; [done|]. rewrite Forall_lookup in Ht. apply Ht in Hi. by eapply task_step_ok.
    + by apply Forall_insert.
    + by apply Forall_delete.
Qed.

Definition blob_reachable (w : BlobWorld) : Prop := exists now db, rtc blob_step (blob_start now db) w.

Lemma reachable_world_ok w : blob_reachable w -> world_ok w.
Proof.
  intros (now & db & Hr). eapply (rtc_ind_r world_ok); [| |exact Hr].
  - split; [|done]. split; cbn; [apply map_Forall_empty|]. intros p Hp. set_solver.
  - intros y z _ Hst IH. by eapply world_ok_step.
Qed.

(** ** Shredding and pins *)

Lemma row_effect_tombstones cfg b t b' d r : row_effect cfg b t b' -> b_blobs b !! d = Some r -> tombstoned r = true ->
  b_blobs b' !! d = Some r.
Proof.
  intros He Hd Ht.
  destruct He as [t b' E1 E2|id d' m p s Hd'|d' e Hd'|d' e| |d' r' Hd' Hl Hpin|d' k n w0 rest]; try done; cbn -[delete_rows].
  - by rewrite E1.
  - by rewrite lookup_insert_ne by congruence.
  - rewrite delete_rows_lookup, decide_False; [done|]. intros (r' & Hr' & Hu)%rows_where_elem. rewrite Hd in Hr'. simplify_eq.
    unfold unreferenced in Hu. by rewrite Ht in Hu.
  - rewrite lookup_insert_ne; [done|]. intros ->. congruence.
  - destruct (decide (d' = d)) as [->|]; [|by rewrite lookup_alter_ne by congruence]. rewrite lookup_alter_eq, Hd. cbn. by rewrite Ht.
Qed.

Lemma tombstone_kept w w' d r : blob_step w w' -> b_blobs (bw_store w) !! d = Some r -> tombstoned r = true ->
  b_blobs (bw_store w') !! d = Some r.
Proof. intros Hs. destruct (blob_step_rows _ _ Hs) as (cfg & t & _ & He). by eapply row_effect_tombstones. Qed.

(** C13: Once a blob is shredded its row stays as it is
    for ever, without a key: whatever runs afterwards, reads, stats, pins and
    rewraps answer Tombstoned, and committing the same bytes again is refused
    with Tombstoned. *)
Theorem shredded_is_final w w' d r :
  blob_reachable w -> b_blobs (bw_store w) !! d = Some r -> tombstoned r = true -> rtc blob_step w w' ->
  let b := bw_store w' in
  b_blobs b !! d = Some r /\ br_wrap_nonce r = None /\ br_wrapped_dek r = None /\
  forall cfg f,
    (forall offset n, task_step cfg f b (TRead d offset n) = (b, TDone (BlobRefused Tombstoned))) /\
    task_step cfg f b (TStat d) = (b, TDone (BlobRefused Tombstoned)) /\
    (forall e, task_step cfg f b (TPin d e) = (b, TDone (BlobRefused Tombstoned))) /\
    (forall k rest, task_step cfg f b (TRewrap d k rest) = (b, TDone (BlobRefused Tombstoned))) /\
    forall id m p, exists ds, task_step cfg f b (TCommitRow id d m p) = (b, TCommitDup id d m r ds) /\
      dedup_answer m r ds = BlobRefused Tombstoned.
Proof.
  intros Hw Hd Ht Hs b. assert (b_blobs b !! d = Some r) as Hd'.
  { unfold b. clear b Hw. induction Hs as [w|w w1 w2 Hst _ IH]; [done|]. apply IH. by eapply tombstone_kept. }
  destruct (so_rows _ (proj1 (reachable_world_ok _ Hw)) d r Hd) as [Hc _ _].
  unfold blob_key_matches_tombstone in Hc. unfold tombstoned in Ht. rewrite Ht in Hc.
  assert (br_wrapped_dek r = None /\ br_wrap_nonce r = None) as [Hk Hn].
  { destruct (br_wrapped_dek r), (br_wrap_nonce r); done. }
  split_and!; try done. intros cfg f. assert (readable b d = Err Tombstoned) as Hrd.
  { unfold readable. rewrite Hd'. cbn. unfold tombstoned. by rewrite Ht. }
  split_and!; intros; cbn [task_step]; unfold read_row; rewrite ?Hrd, ?Hd'; unfold tombstoned; rewrite ?Ht; try done.
  eexists. split; [done|]. unfold dedup_answer, tombstoned. by rewrite Ht.
Qed.

(** The row of a live blob, whatever wraps its key. *)
Definition same_blob (r r' : BlobRow) : Prop :=
  br_media_type r' = br_media_type r /\ br_byte_size r' = br_byte_size r /\ br_kek_id r' = br_kek_id r /\
  br_created_at r' = br_created_at r /\ tombstoned r' = false.

Lemma pin_kept w w' d e r : blob_step w w' -> (d, e) ∈ b_pins (bw_store w) ->
  b_blobs (bw_store w) !! d = Some r -> tombstoned r = false ->
  exists r', b_blobs (bw_store w') !! d = Some r' /\ same_blob r r' /\
    ((d, e) ∈ b_pins (bw_store w') \/ exists cfg, (cfg, TUnpinDelete d e) ∈ bw_tasks w).
Proof.
  intros Hs Hp Hd Ht. assert (pinned (bw_store w) d = true) as Hpin by (apply pinned_iff; eauto).
  assert (same_blob r r) as Hrefl by done.
  destruct (blob_step_rows _ _ Hs) as (cfg & t & Hin & He). revert He. generalize (bw_store w'). intros b' He.
  destruct He as [t b' E1 E2|id d' m p s Hd'|d' e' Hd'|d' e'| |d' r' Hd' Hl Hpin'|d' k n w0 rest]; cbn.
  - rewrite E1, E2. eauto.
  - exists r. rewrite lookup_insert_ne by congruence. eauto.
  - exists r. split_and!; try done. left. set_solver.
  - exists r. split_and!; try done. destruct (decide ((d', e') = (d, e))) as [E|]; [|left; set_solver].
    simplify_eq. right. destruct Hin as [Hin|Hin]; [eauto|done].
  - exists r. change (b_blobs (delete_rows (rows_where (unreferenced cfg (bw_store w)) (bw_store w)) (bw_store w)) !! d = Some r /\
      same_blob r r /\ ((d, e) ∈ b_pins (delete_rows (rows_where (unreferenced cfg (bw_store w)) (bw_store w)) (bw_store w)) \/
        exists cfg, (cfg, TUnpinDelete d e) ∈ bw_tasks w)).
    assert (d ∉ rows_where (unreferenced cfg (bw_store w)) (bw_store w)) as Hn.
    { intros (r' & Hr' & Hu)%rows_where_elem. unfold unreferenced in Hu. rewrite Hpin in Hu. by rewrite andb_false_r in Hu. }
    rewrite delete_rows_lookup, decide_False by done. split_and!; try done. left. by apply delete_rows_pins.
  - destruct (decide (d' = d)) as [->|]; [congruence|]. exists r. rewrite lookup_insert_ne by done. eauto.
  - destruct (decide (d' = d)) as [->|]; [|exists r; rewrite lookup_alter_ne by congruence; eauto].
    exists (set_key n w0 r). rewrite lookup_alter_eq, Hd. cbn. rewrite Ht. split_and!; try done. by left.
Qed.

(** While a live blob is pinned its row stays in every
    interleaving, changed only in what wraps its key: a sweep does not pick it
    and a shred, before its check or between its check and its update, answers
    Pinned. *)
Theorem pinned_blobs_stay w w' d e r :
  (d, e) ∈ b_pins (bw_store w) -> b_blobs (bw_store w) !! d = Some r -> tombstoned r = false ->
  rtc (fun x y => blob_step x y /\ (d, e) ∈ b_pins (bw_store y)) w w' ->
  let b := bw_store w' in
  exists r', b_blobs b !! d = Some r' /\ same_blob r r' /\
  forall cfg f, d ∉ rows_where (unreferenced cfg b) b /\
    task_step cfg f b (TShred d) = (b, TDone (BlobRefused Pinned)) /\
    task_step cfg f b (TShredUpdate d) = (b, TDone (BlobRefused Pinned)).
Proof.
  intros Hp Hd Ht Hs b. assert ((d, e) ∈ b_pins b /\ exists r', b_blobs b !! d = Some r' /\ same_blob r r') as (Hp' & r' & Hd' & Hsame).
  { unfold b. clear b. revert r Hd Ht. induction Hs as [w|w w1 w2 Hst0 _ IH]; intros r Hd Ht; [split; [done|]; exists r; split; [done|]; by split_and!|]. destruct Hst0 as [Hst Hp1].
    destruct (pin_kept _ _ _ _ _ Hst Hp Hd Ht) as (r1 & Hd1 & (E1 & E2 & E3 & E4 & E5) & _).
    destruct (IH Hp1 r1 Hd1 E5) as (Hp2 & r2 & Hd2 & E6 & E7 & E8 & E9 & E10). split; [done|]. exists r2. split; [done|].
    split_and!; congruence. }
  exists r'. split; [done|]. split; [done|]. intros cfg f. destruct Hsame as (_ & _ & _ & _ & Ht').
  assert (pinned b d = true) as Hpin by (apply pinned_iff; eauto). split_and!.
  - intros (r2 & Hr2 & Hu)%rows_where_elem. unfold unreferenced in Hu. rewrite Hpin in Hu. by rewrite andb_false_r in Hu.
  - cbn. by rewrite Hd', Ht', Hpin.
  - cbn. by rewrite Hd', Ht', Hpin.
Qed.

(** ** Stores without a race *)

(** What a task between two of its accesses lays claim to: the digest it is
    about to publish, unlink or rewrap, and the upload it stages. *)
Inductive BlobClaim := OnDigest (d : string) | OnUpload (id : string).

Fixpoint claims_of (t : BlobTask) : list BlobClaim :=
  match t with
  | TExpire next | TDiscard _ next => claims_of next
  | TCommitStage id d _ _ _ | TCommitRename id d _ _ _ | TCommitInsert id d _ _ _ => [OnDigest d; OnUpload id]
  | TSweepUnlink todo _ => OnDigest <$> todo
  | TRewrapOpen d _ _ _ _ _ | TRewrapUpdate d _ _ _ _ => [OnDigest d]
  | _ => []
  end.

(** No two tasks claim the same. *)
Definition calm (w : BlobWorld) : Prop := NoDup (concat ((fun ct => claims_of ct.2) <$> bw_tasks w)).

(** The keys a task works with. *)
Fixpoint keys_of (t : BlobTask) : list bytes :=
  match t with
  | TExpire next | TDiscard _ next => keys_of next
  | TRotate k | TRewrap _ k _ | TRewrapOpen _ k _ _ _ _ | TRewrapUpdate _ k _ _ _ => [k]
  | _ => []
  end.

Definition keyed (K : bytes -> Prop) (ct : BlobConfig * BlobTask) : Prop := K (bc_kek ct.1) /\ Forall K (keys_of ct.2).

Definition calm_step (K : bytes -> Prop) (w w' : BlobWorld) : Prop :=
  blob_step w w' /\ calm w' /\ Forall (keyed K) (bw_tasks w').

(** A file under a key: the container of a plaintext of that digest. *)
Record holds (K : bytes -> Prop) (file : option bytes) (d : string) (media_type kek_id : bytes) (size : Z)
    (nonce wrapped plaintext : bytes) : Prop := {
  ho_digest_is : hex_lower (sha256 plaintext) = d;
  ho_size_is : size = zlen plaintext;
  ho_opens : exists kek dek stream_nonce cts, K kek /\ zlen dek = DEK_BYTES /\
    let h := header_of plaintext media_type kek_id stream_nonce in
    sealed_container plaintext media_type kek_id dek stream_nonce cts /\
    file = Some (encode h ++ concat (framed <$> cts)) /\ wrap_dek dek kek nonce (encode h) = Ok wrapped;
}.

Definition row_holds (K : bytes -> Prop) (b : Blobs) (d : string) (r : BlobRow) : Prop :=
  exists nonce wrapped plaintext, key_material r = Ok (nonce, wrapped) /\
    holds K (b_containers b !! d) d (br_media_type r) (br_kek_id r) (br_byte_size r) nonce wrapped plaintext.

Definition live_at (b : Blobs) (d : string) (r : BlobRow) : Prop := b_blobs b !! d = Some r /\ tombstoned r = false.

(** What the container being published opens to. *)
Definition publishes (K : bytes -> Prop) (cfg : BlobConfig) (d : string) (m p : bytes) (s : Sealed) : Prop :=
  key_widths (sl_wrap_nonce s) (sl_wrapped_dek s) /\
  holds K (Some (sl_container s)) d m (bc_kek_id cfg) (zlen p) (sl_wrap_nonce s) (sl_wrapped_dek s) p.

(** What a task relies on between its accesses. *)
Fixpoint task_inv (K : bytes -> Prop) (cfg : BlobConfig) (b : Blobs) (t : BlobTask) : Prop :=
  match t with
  | TExpire next | TDiscard _ next => task_inv K cfg b next
  | TBegin m _ | TBeginInsert m _ | TCommitRead _ _ m _ => utf8_ok m = true
  | TCommitRow _ d m p => utf8_ok m = true /\ hex_lower (sha256 p) = d
  | TCommitStage id d m p s => b_blobs b !! d = None /\ publishes K cfg d m p s
  | TCommitRename id d m p s =>
      b_blobs b !! d = None /\ publishes K cfg d m p s /\
      (b_staging b !! id = None \/ b_staging b !! id = Some (sl_container s))
  | TCommitInsert id d m p s =>
      b_blobs b !! d = None /\ publishes K cfg d m p s /\ b_containers b !! d = Some (sl_container s)
  | TSweepUnlink todo _ => Forall (fun d => b_blobs b !! d = None) todo
  | TShredUnlink d => exists r, b_blobs b !! d = Some r /\ tombstoned r = true
  | TRewrapOpen d _ r nonce wrapped _ =>
      key_material r = Ok (nonce, wrapped) /\ forall r', live_at b d r' -> r' = r
  | TRewrapUpdate d _ nonce wrapped _ =>
      key_widths nonce wrapped /\ forall r, live_at b d r -> row_holds K b d (set_key nonce wrapped r)
  | _ => True
  end.

Record calm_inv (K : bytes -> Prop) (w : BlobWorld) : Prop := {
  ci_rows d r : live_at (bw_store w) d r -> row_holds K (bw_store w) d r;
  ci_media : map_Forall (fun _ u => utf8_ok (up_media_type u) = true) (b_uploads (bw_store w));
  ci_kek_ids : Forall (fun ct => utf8_ok (bc_kek_id ct.1) = true) (bw_tasks w);
  ci_tasks : Forall (fun ct => task_inv K ct.1 (bw_store w) ct.2) (bw_tasks w);
}.

(** What a step leaves alone: the rows, the containers and the staged files it
    has no claim on, but for a shred, which is final. *)
Record frame (C : list BlobClaim) (b b' : Blobs) : Prop := {
  fm_rows d : OnDigest d ∉ C -> b_blobs b' !! d = b_blobs b !! d \/
    exists r now, b_blobs b !! d = Some r /\ b_blobs b' !! d = Some (set_tombstone now r);
  fm_containers d : OnDigest d ∉ C -> b_containers b' !! d = b_containers b !! d \/
    exists r, b_blobs b !! d = Some r /\ tombstoned r = true;
  fm_staging id : OnUpload id ∉ C -> b_staging b' !! id = b_staging b !! id \/ b_staging b' !! id = None;
  fm_tombstones d r : b_blobs b !! d = Some r -> tombstoned r = true -> b_blobs b' !! d = Some r;
}.

Lemma frame_refl C b b' : b_blobs b' = b_blobs b -> b_containers b' = b_containers b -> b_staging b' = b_staging b -> frame C b b'.
Proof. intros E1 E2 E3. split; intros; rewrite ?E1, ?E2, ?E3; auto. Qed.

Lemma live_frame C b b' d r : frame C b b' -> OnDigest d ∉ C -> live_at b' d r ->
  live_at b d r /\ b_containers b' !! d = b_containers b !! d.
Proof.
  intros [Hr Hc _ _] Hd [Hb Ht]. destruct (Hr d Hd) as [E|(r0 & now & E1 & E2)]; [|by simplify_eq].
  rewrite E in Hb. split; [by split|]. destruct (Hc d Hd) as [|(r1 & E1 & E2)]; [done|]. congruence.
Qed.

Lemma row_holds_file K b b' d r : b_containers b' !! d = b_containers b !! d -> row_holds K b d r -> row_holds K b' d r.
Proof. intros E (n & w & p & Hk & Hh). exists n, w, p. by rewrite E. Qed.

Lemma none_frame C b b' d : frame C b b' -> OnDigest d ∉ C -> b_blobs b !! d = None -> b_blobs b' !! d = None.
Proof. intros [Hr _ _ _] Hd Hn. destruct (Hr d Hd) as [->|(r & now & E & _)]; congruence. Qed.

Lemma none_container_frame C b b' d : frame C b b' -> OnDigest d ∉ C -> b_blobs b !! d = None ->
  b_containers b' !! d = b_containers b !! d.
Proof. intros [_ Hc _ _] Hd Hn. destruct (Hc d Hd) as [|(r & E & _)]; congruence. Qed.

Lemma task_inv_frame K cfg C b b' u :
  frame C b b' -> (forall c, c ∈ claims_of u -> c ∉ C) -> task_inv K cfg b u -> task_inv K cfg b' u.
Proof.
  intros Hf. induction u; cbn; intros Hc Hi; try done; try (by apply IHu).
  - destruct Hi as [Hn Hp]. split; [|done]. eapply none_frame; [done| |done]. apply Hc. set_solver.
  - destruct Hi as (Hn & Hp & Hst). split_and!; [|done|].
    + eapply none_frame; [done| |done]. apply Hc. set_solver.
    + destruct (fm_staging _ _ _ Hf id) as [->|]; [apply Hc; set_solver|done|by left].
  - destruct Hi as (Hn & Hp & Hct). assert (OnDigest digest ∉ C) as Hd by (apply Hc; set_solver).
    split_and!; [by eapply none_frame|done|]. by rewrite (none_container_frame _ _ _ _ Hf Hd Hn).
  - rewrite Forall_forall in Hi |- *. intros d Hd. eapply none_frame; [done| |by apply Hi]. apply Hc. set_solver.
  - destruct Hi as (r & Hr & Ht). exists r. split; [|done]. by eapply fm_tombstones.
  - destruct Hi as [Hk Hi]. split; [done|]. intros r' Hl. apply Hi. eapply live_frame; [done| |done]. apply Hc. set_solver.
  - destruct Hi as [Hk Hi]. split; [done|]. intros r Hl. destruct (live_frame _ _ _ _ _ Hf (Hc (OnDigest digest) ltac:(set_solver)) Hl) as [Hl' E].
    eapply row_holds_file; [done|]. by apply Hi.
Qed.

Lemma task_step_frame cfg f b t b' t' : task_step cfg f b t = (b', t') ->
  (forall d, t = TShredUnlink d -> exists r, b_blobs b !! d = Some r /\ tombstoned r = true) ->
  frame (claims_of t ++ claims_of t') b b'.
Proof.
  intros E Hshred. split.
  - intros d Hd. apply task_step_rows in E as He.
    destruct He as [t b' E1 E2|id d' m p s Hd'|d' e' Hd'|d' e'| |d' r' Hd' Hl Hpin'|d' k n w0 rest]; cbn -[rows_where]; auto.
    + by rewrite E1; left.
    + left. rewrite lookup_insert_ne; [done|]. intros ->. apply Hd. cbn. set_solver.
    + left. cbn in E. injection E as <-.
      change (b_blobs (delete_rows (rows_where (unreferenced cfg b) b) b) !! d = b_blobs b !! d).
      rewrite delete_rows_lookup, decide_False; [done|]. intros Hin. apply Hd. apply elem_of_app. right. cbn -[rows_where]. set_solver.
    + destruct (decide (d' = d)) as [->|]; [right|left; by rewrite lookup_insert_ne].
      exists r', (b_now b). by rewrite lookup_insert_eq.
    + left. rewrite lookup_alter_ne; [done|]. intros ->. apply Hd. cbn. set_solver.
  - intros d Hd. destruct t; cbn -[rows_where] in E; repeat case_match; simplify_eq; auto; cbn -[rows_where].
    + left. rewrite lookup_insert_ne; [done|]. intros ->. apply Hd. cbn. set_solver.
    + left. rewrite lookup_delete_ne; [done|]. intros ->. apply Hd. cbn. set_solver.
    + destruct (decide (digest = d)) as [->|]; [right; by apply Hshred|left; by rewrite lookup_delete_ne].
  - intros id Hid. destruct t; cbn -[rows_where] in E; repeat case_match; simplify_eq; auto; cbn -[rows_where].
    all: try (destruct (decide (id0 = id)) as [->|]; [right; by rewrite lookup_delete_eq|left; by rewrite lookup_delete_ne]).
    + destruct (decide (s = id)) as [->|]; [right; by rewrite lookup_delete_eq|left; by rewrite lookup_delete_ne].
    + left. rewrite lookup_insert_ne; [done|]. intros ->. apply Hid. cbn. set_solver.
  - intros d r. eapply row_effect_tombstones. by eapply task_step_rows.
Qed.

(** ** The container a row holds *)

Context `{AEL : !AeadLaws}.

Lemma open_container_sealed p m kid dek sn cts r :
  sealed_container p m kid dek sn cts -> br_media_type r = m -> br_kek_id r = kid ->
  let h := header_of p m kid sn in
  open_container r (encode h ++ concat (framed <$> cts)) = Ok (h, encode h).
Proof.
  intros [Hh _ _] Em Ek h. unfold open_container. rewrite Em, Ek. cbn zeta.
  pose proof (encode_len h Hh) as El. change (hd_media_type h) with m in El. change (hd_kek_id h) with kid in El. rewrite <-El.
  assert (read_at 0 (zlen (encode h)) (encode h ++ concat (framed <$> cts)) = Ok (encode h)) as ->
    by exact (read_at_app [] (encode h) _ _ eq_refl). cbn [mbind result_bind].
  pose proof (decode_encode h [] Hh) as Hd. rewrite app_nil_r in Hd. rewrite Hd. cbn [mbind result_bind]. by rewrite Z.eqb_refl.
Qed.

(** Sealing publishes what it sealed. *)
Lemma seal_publishes (K : bytes -> Prop) cfg f d m p s :
  fresh_ok f -> K (bc_kek cfg) -> utf8_ok m = true -> utf8_ok (bc_kek_id cfg) = true -> hex_lower (sha256 p) = d ->
  seal_with p m (bc_kek cfg) (bc_kek_id cfg) (fr_dek f) (fr_wrap_nonce f) (fr_stream_nonce f) = Ok s -> publishes K cfg d m p s.
Proof.
  intros (_ & Hd & Hn & Hsn) HK Hm Hk Hx Hs. split; [by eapply seal_with_widths|]. split; [done|done|].
  destruct (seal_with_ok _ _ _ _ _ _ _ _ Hs) as (_ & _ & _ & _ & _ & _ & Hc & _).
  assert (zlen p <= u64_max)%Z as Hp.
  { pose proof (zlen_nonneg p). unfold chunk_count, BLOB_CHUNK_BYTES, u32_max, u64_max in *.
    pose proof (Z.div_mod (zlen p + 1024 * 1024 - 1) (1024 * 1024)). pose proof (Z.mod_pos_bound (zlen p + 1024 * 1024 - 1) (1024 * 1024)). lia. }
  destruct (seal_container _ _ _ _ _ _ _ _ Hsn Hp Hm Hk Hs) as (cts & Hsc & E1 & E2 & _ & Hw).
  exists (bc_kek cfg), (fr_dek f), (fr_stream_nonce f), cts. cbn zeta. rewrite E1, E2. by split_and!.
Qed.

(** A rewrap wraps the key the row holds. *)
Lemma rewrap_holds (K : bytes -> Prop) cfg b d k r n w nn nw :
  row_holds K b d r -> key_material r = Ok (n, w) -> K k -> rewrap_file cfg b d k r n w nn = Ok (Some nw) ->
  zlen nn = WRAP_NONCE_BYTES -> row_holds K b d (set_key nn nw r).
Proof.
  intros (n' & w' & p & Hk' & [Hd Hs (kek & dek & sn & cts & HK & Hdl & Hsc & Hf & Hw)]) Hk HKk Hr Hnn.
  rewrite Hk in Hk'. injection Hk' as <- <-. cbn zeta in *. set (h := header_of _ _ _ _) in *.
  unfold rewrap_file in Hr. rewrite Hf in Hr. cbn [ok_or mbind result_bind] in Hr.
  pose proof (open_container_sealed _ _ _ _ _ _ r Hsc eq_refl eq_refl) as Ho. cbn zeta in Ho. fold h in Ho. rewrite Ho in Hr.
  cbn [mbind result_bind] in Hr.
  destruct (rewrap _ _ _ _ _ _) as [nw'|] eqn:Er; [|by case_match]. injection Hr as <-. subst d.
  unfold rewrap in Er. destruct Hsc as [Hh Hsa Hc]. pose proof (decode_encode h [] Hh) as Hde. rewrite app_nil_r in Hde. rewrite Hde in Er.
  cbn [mbind result_bind] in Er. rewrite nat_zlen, firstn_all in Er. destruct (unwrap_dek _ _ _ _) as [dek'|] eqn:Eu; [|done].
  cbn [mbind result_bind] in Er. assert (dek' = dek) as ->.
  { unfold wrap_dek in Hw. unfold unwrap_dek in Eu. inv_ok. simplify_eq. by eapply aead_authentic. }
  exists nn, nw', p. split.
  - unfold key_material. cbn. rewrite Hnn, (wrap_dek_width _ _ _ _ _ Er). done.
  - split; [done|done|]. exists k, dek, sn, cts. by split_and!.
Qed.

Lemma rows_where_NoDup f b : NoDup (rows_where f b).
Proof.
  unfold rows_where. rewrite sort_by_perm. pose proof (NoDup_fst_map_to_list (b_blobs b)) as Hn.
  induction (map_to_list (b_blobs b)) as [|[d r] l IH]; cbn; [constructor|]. apply NoDup_cons in Hn as [Hd Hn].
  destruct (f d r); [|by apply IH]. cbn. constructor; [|by apply IH]. intros ([d' r'] & -> & Hin)%list_elem_of_fmap. apply Hd.
  apply list_elem_of_fmap. exists (d', r'). split; [done|]. apply list_elem_of_In, filter_In in Hin as [Hin _]. by apply list_elem_of_In.
Qed.

Lemma rotate_next_inv K cfg b k todo report : task_inv K cfg b (rotate_next k todo report).
Proof. by destruct todo. Qed.

Lemma rewrapped_inv K cfg b k moved rest : task_inv K cfg b (rewrapped k moved rest).
Proof. destruct rest as [[[|d todo] [n a]]|]; by destruct moved. Qed.

Lemma delete_or_none {A} (m : gmap string A) i j : delete i m !! j = m !! j \/ delete i m !! j = None.
Proof. destruct (decide (i = j)) as [->|]; [right; apply lookup_delete_eq|left; by apply lookup_delete_ne]. Qed.

#[global] Instance BlobClaim_eq_dec : EqDecision BlobClaim.
Proof. solve_decision. Defined.

(** The task's own step: it keeps what it relies on, and the rows it has a claim
    on hold their containers. *)
Lemma task_inv_step K cfg f b t b' t' :
  fresh_ok f -> keyed K (cfg, t) -> utf8_ok (bc_kek_id cfg) = true ->
  (forall d r, live_at b d r -> row_holds K b d r) ->
  map_Forall (fun _ u => utf8_ok (up_media_type u) = true) (b_uploads b) ->
  task_inv K cfg b t -> task_step cfg f b t = (b', t') -> task_inv K cfg b' t'.
Proof.
  intros Hf [HK Hks] Hk Hrows Hup Hi E. destruct t; cbn -[rows_where] in E, Hi, Hks; repeat case_match; simplify_eq; try done;
    try (apply answer_of_ind; [done|]; intros a Ha; repeat case_match; try done);
    try apply rotate_next_inv; try apply rewrapped_inv.
  - eapply (task_inv_frame _ _ [] b); [by apply frame_refl|set_solver|exact Hi].
  - eapply (task_inv_frame _ _ [] b); [|set_solver|exact Hi]. split; cbn; auto. intros id _. apply delete_or_none.
  - unfold commit_check in Ha. inv_ok. simplify_eq. by eapply Hup.
  - unfold commit_read in Ha. inv_ok. unbool. by simplify_eq.
  - destruct Hi as [Hm Hx]. split; [done|]. by eapply seal_publishes.
  - destruct Hi as [Hn Hp]. split_and!; [done|done|]. right. cbn. by rewrite lookup_insert_eq.
  - destruct Hi as (Hn & Hp & [Hst|Hst]); [congruence|]. split_and!; [done|done|]. cbn. rewrite lookup_insert_eq. congruence.
  - apply Forall_forall. intros d Hd. rewrite delete_rows_lookup. by rewrite decide_True.
  - by apply Forall_cons in Hi as [_ Hi].
  - exists (set_tombstone (b_now b) b0). split; [cbn; by rewrite lookup_insert_eq|done].
  - inv_ok. simplify_eq. split; [done|]. intros r' [Hr' _]. unfold readable in Hrun. inv_ok. congruence.
  - destruct Hf as (_ & _ & Hn & _). apply Forall_cons in Hks as [Hks _]. split; [by split; [|by eapply rewrap_file_width]|].
    intros r' Hl. destruct Hi as [Hkm Hr]. assert (r' = r) as -> by (by apply Hr).
    by apply (rewrap_holds K cfg b' digest new_kek r nonce wrapped (fr_wrap_nonce f) l (Hrows _ _ Hl)).
Qed.

(** The rows a step has a claim on hold their containers after it. *)
Lemma row_holds_step K cfg f b t b' t' d r :
  (forall d r, live_at b d r -> row_holds K b d r) -> task_inv K cfg b t -> task_step cfg f b t = (b', t') ->
  live_at b' d r -> row_holds K b' d r.
Proof.
  intros Hrows Hi E Hl. assert (frame (claims_of t ++ claims_of t') b b') as Hfr.
  { eapply task_step_frame; [done|]. intros d' ->. exact Hi. }
  destruct (decide (OnDigest d ∈ claims_of t ++ claims_of t')) as [Hin|Hn].
  2:{ destruct (live_frame _ _ _ _ _ Hfr Hn Hl) as [Hl' Ec]. eapply row_holds_file; [done|]. by apply Hrows. }
  destruct Hl as [Hd Ht].
  destruct t; cbn -[rows_where] in E, Hi; repeat case_match; simplify_eq;
    try (exact (Hrows d r (conj Hd Ht))).
  - cbn in Hin, Hd. destruct Hi as (Hn & _). assert (d = digest) as -> by set_solver. congruence.
  - cbn in Hin, Hd. destruct Hi as (Hn & [Hkw Hh] & Hc). assert (d = digest) as -> by set_solver. rewrite lookup_insert_eq in Hd.
    simplify_eq. destruct Hkw as [Hw1 Hw2]. exists (sl_wrap_nonce sealed), (sl_wrapped_dek sealed), plaintext. split.
    + unfold key_material. cbn. by rewrite Hw1, Hw2.
    + cbn. by rewrite Hc.
  - cbn -[rows_where delete_rows] in Hin, Hd. rewrite delete_rows_lookup in Hd. case_decide; [done|]. set_solver.
  - cbn in Hin, Hd. assert (d ∈ s :: l) as Hs by set_solver. rewrite Forall_forall in Hi. rewrite (Hi d Hs) in Hd. done.
  - cbn in Hin. set_solver.
  - cbn in Hin. set_solver.
  - destruct Hi as [Hkw Hi]. assert (d = digest) as ->.
    { apply elem_of_app in Hin as [Hin|Hin]; [cbn in Hin; set_solver|]. exfalso.
      destruct rest as [[[|d' todo] [n a]]|]; cbn in Hin; set_solver. }
    cbn in Hd. rewrite lookup_alter_eq in Hd. destruct (b_blobs b !! digest) as [r0|] eqn:E0; [|done]. cbn in Hd.
    destruct (tombstoned r0) eqn:Et; simplify_eq; [congruence|]. exact (Hi r0 (conj E0 Et)).
Qed.

(** ** The invariant of a calm store *)

Lemma calm_disjoint w i j ct cu c : calm w -> bw_tasks w !! i = Some ct -> bw_tasks w !! j = Some cu -> i <> j ->
  c ∈ claims_of ct.2 -> c ∉ claims_of cu.2.
Proof.
  unfold calm. intros Hn Hi Hj Hne Hc Hc'. revert i j Hi Hj Hne. induction (bw_tasks w) as [|x l IH]; intros i j Hi Hj Hne; [done|].
  rewrite fmap_cons in Hn. cbn [concat] in Hn. apply NoDup_app in Hn as (_ & Hd & Hn).
  assert (forall k y, l !! k = Some y -> c ∈ claims_of y.2 -> c ∈ concat ((fun ct => claims_of ct.2) <$> l)) as Hcat.
  { intros k y Hk Hy. apply list_elem_of_In, in_concat. exists (claims_of y.2).
    split; [|by apply list_elem_of_In]. apply list_elem_of_In, list_elem_of_fmap. exists y. split; [done|].
    by eapply list_elem_of_lookup_2. }
  destruct i as [|i], j as [|j]; cbn in Hi, Hj; simplify_eq.
  - by eapply Hd, Hcat.
  - by eapply Hd, Hcat.
  - apply (IH Hn i j); [done|done|congruence].
Qed.

Lemma torn_write_frame n t b : frame (claims_of t) b (torn_write n t b).
Proof.
  destruct t; try (by apply frame_refl); cbn; [case_match; by apply frame_refl|].
  split; cbn; auto. intros id' Hid. left. rewrite lookup_insert_ne; [done|]. intros ->. apply Hid. set_solver.
Qed.

Lemma is_call_inv K cfg b t : is_call t = true -> task_inv K cfg b t.
Proof. destruct t; try done; cbn; intros H; [by destruct t|]. by apply andb_true_iff in H as [H _]. Qed.

Lemma media_delete (P : string -> UploadRow -> Prop) (ids : list string) (m : gmap string UploadRow) : map_Forall P m -> map_Forall P (foldr delete m ids).
Proof. intros HP. induction ids as [|i ids IH]; cbn; [done|by apply map_Forall_delete]. Qed.

Lemma media_step K cfg f b t b' t' : task_inv K cfg b t -> task_step cfg f b t = (b', t') ->
  map_Forall (fun _ u => utf8_ok (up_media_type u) = true) (b_uploads b) ->
  map_Forall (fun _ u => utf8_ok (up_media_type u) = true) (b_uploads b').
Proof.
  intros Hi E Hu. destruct t; cbn -[rows_where] in E, Hi; repeat case_match; simplify_eq; try done; cbn.
  - by apply media_delete.
  - by apply map_Forall_insert_2.
  - intros j u Hj. destruct (decide (j = id)) as [->|]; [|rewrite lookup_alter_ne in Hj by done; by eapply Hu].
    rewrite lookup_alter_eq in Hj. destruct (b_uploads b !! id) as [u0|] eqn:E0; [|done]. cbn in Hj. simplify_eq. cbn. by eapply (Hu id).
  - by apply map_Forall_delete.
  - by apply map_Forall_delete.
  - by apply map_Forall_delete.
Qed.

Definition calm_ok (K : bytes -> Prop) (w : BlobWorld) : Prop := calm_inv K w /\ calm w /\ Forall (keyed K) (bw_tasks w).

(** A change of the store that keeps the rows, and the tasks that see it. *)
Lemma calm_inv_frame K C w b' tasks' :
  calm_inv K w -> frame C (bw_store w) b' -> b_blobs b' = b_blobs (bw_store w) -> b_containers b' = b_containers (bw_store w) ->
  b_uploads b' = b_uploads (bw_store w) ->
  Forall (fun ct => utf8_ok (bc_kek_id ct.1) = true) tasks' ->
  Forall (fun ct => task_inv K ct.1 b' ct.2) tasks' ->
  calm_inv K {| bw_store := b'; bw_tasks := tasks' |}.
Proof.
  intros [H1 H2 _ _] Hf E1 E2 E3 H4 H5. split; cbn; try done; [|by rewrite E3].
  intros d r [Hd Ht]. eapply row_holds_file; [by rewrite E2|]. apply H1. split; [by rewrite <-E1|done].
Qed.

Lemma calm_ok_step K w w' : calm_ok K w -> calm_step K w w' -> calm_ok K w'.
Proof.
  intros (Hi & Hc & HK) (Hs & Hc' & HK'). split; [|done]. pose proof Hi as [H1 H2 H3 H4]. rewrite Forall_lookup in H3, H4, HK.
  destruct Hs as [cfg t w0 Hcall Hid|i cfg t f b' t' w0 Hti Hf Hs|i cfg t n w0 Hti|i cfg t n w0 Hti|now db cl w0]; cbn in *.
  - apply (calm_inv_frame _ []  _ _ _ Hi); try done; [by apply frame_refl|by apply Forall_app; split; [apply Forall_lookup|apply Forall_singleton]|].
    apply Forall_app. split; [by apply Forall_lookup|]. apply Forall_singleton. by apply is_call_inv.
  - assert (i < length (bw_tasks w0))%nat as Hlt by (by eapply lookup_lt_Some).
    assert (frame (claims_of t ++ claims_of t') (bw_store w0) b') as Hfr.
    { eapply task_step_frame; [done|]. intros d ->. exact (H4 _ _ Hti). }
    split; cbn.
    + intros d r. by eapply (row_holds_step K cfg f (bw_store w0) t b' t' d r H1 (H4 _ _ Hti)).
    + eapply media_step; [exact (H4 _ _ Hti)|done|done].
    + apply Forall_insert; [by apply Forall_lookup|]. exact (H3 _ _ Hti).
    + apply Forall_lookup. intros j [cfgj u] Hj. cbn. destruct (decide (i = j)) as [<-|Hne].
      * rewrite list_lookup_insert_eq in Hj by done. simplify_eq.
        eapply (task_inv_step K cfgj f (bw_store w0) t); [done|exact (HK _ _ Hti)|exact (H3 _ _ Hti)|done|done|exact (H4 _ _ Hti)|done].
      * pose proof Hj as Hj'. rewrite list_lookup_insert_ne in Hj by done.
        eapply task_inv_frame; [done| |exact (H4 _ _ Hj)]. intros c Hcu. cbn in Hcu. apply not_elem_of_app. split.
        { apply (calm_disjoint w0 j i (cfgj, u) (cfg, t) c Hc Hj Hti (not_eq_sym Hne) Hcu). }
        { eapply (calm_disjoint _ j i (cfgj, u) (cfg, t') c Hc'); cbn; [done|by rewrite list_lookup_insert_eq|congruence|done]. }
  - apply (calm_inv_frame _ (claims_of t) _ _ _ Hi); [apply torn_write_frame|apply torn_write_rows|apply torn_write_rows| | |].
    + destruct t; try done. cbn. by case_match.
    + apply Forall_insert; [by apply Forall_lookup|]. exact (H3 _ _ Hti).
    + apply Forall_lookup. intros j [cfgj u] Hj. cbn. destruct (decide (i = j)) as [<-|Hne].
      * rewrite list_lookup_insert_eq in Hj by (by eapply lookup_lt_Some). by simplify_eq.
      * rewrite list_lookup_insert_ne in Hj by done. eapply task_inv_frame; [apply torn_write_frame| |exact (H4 _ _ Hj)].
        intros c Hcu. apply (calm_disjoint w0 j i (cfgj, u) (cfg, t) c Hc Hj Hti (not_eq_sym Hne) Hcu).
  - apply (calm_inv_frame _ (claims_of t) _ _ _ Hi); [apply torn_write_frame|apply torn_write_rows|apply torn_write_rows| | |].
    + destruct t; try done. cbn. by case_match.
    + apply Forall_delete. by apply Forall_lookup.
    + apply Forall_lookup. intros j [cfgj u] Hj. cbn.
      assert (exists k, k <> i /\ bw_tasks w0 !! k = Some (cfgj, u)) as (k & Hne & Hk).
      { destruct (decide (j < i)%nat) as [Hji|Hji].
        - exists j. rewrite list_lookup_delete_lt in Hj by done. split; [lia|done].
        - exists (S j). rewrite list_lookup_delete_ge in Hj by lia. split; [lia|done]. }
      eapply task_inv_frame; [apply torn_write_frame| |exact (H4 _ _ Hk)].
      intros c Hcu. apply (calm_disjoint w0 k i (cfgj, u) (cfg, t) c Hc Hk Hti Hne Hcu).
  - apply (calm_inv_frame _ [] _ _ _ Hi); try done; [by apply frame_refl|by apply Forall_lookup|].
    apply Forall_lookup. intros j [cfgj u] Hj. cbn.
    eapply (task_inv_frame _ _ [] (bw_store w0)); [by apply frame_refl|intros c _; apply not_elem_of_nil|exact (H4 _ _ Hj)].
Qed.

(** The range a read may ship. *)
Definition read_len (size offset n : Z) : Z := Z.min (Z.min n BLOB_CHUNK_BYTES) (size - offset).

(** What a reader with the row's key gets. *)
Lemma held_reads (K : bytes -> Prop) b d r nonce wrapped p : live_at b d r -> key_material r = Ok (nonce, wrapped) ->
  holds K (b_containers b !! d) d (br_media_type r) (br_kek_id r) (br_byte_size r) nonce wrapped p ->
  exists kek, K kek /\
  forall cfg f f' offset n, bc_kek cfg = kek -> (0 <= offset)%Z -> (0 <= n)%Z ->
    (task_step cfg f' b (task_step cfg f b (TRead d offset n)).2).2 =
    TDone (ReadBytes (slice offset (offset + read_len (zlen p) offset n) p)).
Proof.
  intros [Hd Ht] Hk [Hx Hs (kek & dek & sn & cts & HK & Hdl & Hsc & Hf & Hw)]. cbn zeta in *.
  exists kek. split; [done|]. intros cfg f f' offset n Hc Ho Hn. cbn [task_step snd].
  unfold read_row, readable. rewrite Hd. cbn [ok_or mbind result_bind]. rewrite Ht. cbn [negb ensure mbind result_bind mret result_ret].
  rewrite Hk. cbn [mbind result_bind]. rewrite Hs. cbn [answer_of mret result_ret].
  assert (0 < BLOB_CHUNK_BYTES)%Z as Hb by done.
  destruct (Z.leb_spec (zlen p) offset) as [Hle|Hlt].
  { cbn [Z.eqb task_step snd]. do 2 f_equal. unfold slice, read_len. rewrite Z2Nat.nonpos by lia. done. }
  fold (read_len (zlen p) offset n). assert (0 <= read_len (zlen p) offset n)%Z as Hrl by (unfold read_len; lia).
  destruct (Z.eqb_spec (read_len (zlen p) offset n) 0) as [->|Hne].
  { cbn [task_step snd]. do 2 f_equal. unfold slice. rewrite Z2Nat.nonpos by lia. done. }
  cbn [task_step snd]. unfold read_file. rewrite Hf. cbn [ok_or mbind result_bind].
  pose proof (open_container_sealed _ _ _ _ _ _ r Hsc eq_refl eq_refl) as Hoc. cbn zeta in Hoc. rewrite Hoc. clear Hoc. cbn [mbind result_bind].
  cbn [header_of hd_byte_size]. rewrite Hs, Z.eqb_refl. cbn [ensure mbind result_bind].
  rewrite Hc, (unwrap_wrapped _ _ _ _ _ Hdl Hw). cbn [mbind result_bind].
  pose proof (read_range_sealed _ _ _ _ _ _ offset (read_len (zlen p) offset n) Hsc ltac:(lia) ltac:(lia)) as Hrr.
  cbn zeta in Hrr. rewrite Hrr; [done|]. unfold read_len. lia.
Qed.

(** C12: Over any history of the blob store in which no two
    tasks publish, unlink or rewrap the same digest or stage the same upload at
    once (tasks may otherwise interleave at every statement and file access,
    fail, tear a write or stop), every live row's container opens under one of
    the keys the store was given, its plaintext hashes to the row's digest and
    has the row's size, and a read of any range, cut to one chunk of
    BLOB_CHUNK_BYTES as the store cuts it, returns that range of it. *)
Theorem calm_blobs_read (K : bytes -> Prop) now db w d r :
  rtc (calm_step K) (blob_start now db) w -> b_blobs (bw_store w) !! d = Some r -> tombstoned r = false ->
  exists kek p, K kek /\ hex_lower (sha256 p) = d /\ br_byte_size r = zlen p /\
  forall cfg f f' offset n, bc_kek cfg = kek -> (0 <= offset)%Z -> (0 <= n)%Z ->
    (task_step cfg f' (bw_store w) (task_step cfg f (bw_store w) (TRead d offset n)).2).2 =
    TDone (ReadBytes (slice offset (offset + read_len (zlen p) offset n) p)).
Proof.
  intros Hr Hd Ht. assert (calm_ok K w) as [Hi _].
  { eapply (rtc_ind_r (calm_ok K)); [| |exact Hr]; [|intros; by eapply calm_ok_step].
    split_and!; [|constructor|constructor]. split; cbn; [|apply map_Forall_empty|done|done]. intros d' r' [Hd' _]. done. }
  destruct (ci_rows _ _ Hi d r (conj Hd Ht)) as (nonce & wrapped & p & Hk & Hh).
  destruct (held_reads K _ d r nonce wrapped p (conj Hd Ht) Hk Hh) as (kek & HK & Hread). exists kek, p.
  destruct Hh as [Hx Hs _]. by split_and!.
Qed.
End Blobs.
