(* ===== verification/Cas.v ===== *)
(** * Classified blobs (gwk-kernel/src/blob/context.rs)

    The Context store over the blob store: a digest's classification is claimed
    before its bytes are written, each content class has its own key, and a blob
    is read back whole under the class that wrote it.  Every call on the blob
    store runs to its answer before the next. *)

From S2P Require Import Prelude Text Envelope Command Tables Db Hub Wire Container Ordered Truth Facts Blobs.

Inductive ContextCasError :=
| CasNotFound
| ClassMismatch (stored requested : BlobClasses)
| WrongContentClass (stored requested : ContentClass)
| ForeignKeyDomain (stored_kek_id : bytes)
| CasBlob (e : BlobError).

#[local] Opaque chunk_nat.

Section Cas.
Context `{TZ : Timestamptz} {V : Type} `{AE : Aead}.
Notation blobs := (Blobs (V := V)).

(** [PgContextCasStore]: the configuration of each content class. *)
Context (store : ContentClass -> BlobConfig).

(** A call on the blob store, to its answer. *)
Fixpoint run (fuel : nat) (cfg : BlobConfig) (f : Fresh) (b : blobs) (t : BlobTask) : blobs * option BlobAnswer :=
  match t, fuel with
  | TDone a, _ => (b, Some a)
  | _, O => (b, None)
  | _, S fuel => let '(b, t) := task_step cfg f b t in run fuel cfg f b t
  end.

(** Enough for every call but a sweep and a rotation: [begin] discards the
    uploads that expired. *)
Definition call (cfg : BlobConfig) (f : Fresh) (b : blobs) (t : BlobTask) : blobs * option BlobAnswer :=
  run (16 + size (b_uploads b)) cfg f b t.

Definition set_classified x (b : blobs) : blobs := {|
  b_now := b_now b; b_uploads := b_uploads b; b_blobs := b_blobs b; b_pins := b_pins b; b_files := b_files b;
  b_staging := b_staging b; b_containers := b_containers b; b_db := b_db b; b_classified := x |}.

(** [class_row]. *)
Definition class_row (b : blobs) (digest : string) : option (BlobClasses * instant) := b_classified b !! address_text digest.

(** [claim]: the standing row, if it is the one asked for. *)
Definition cas_claim (b : blobs) (digest : string) (classes : BlobClasses) : blobs * result ContextCasError instant :=
  let b := if is_some (class_row b digest) then b
           else set_classified (<[address_text digest := (classes, b_now b)]> (b_classified b)) b in
  (b, '(stored, created_at) ← ok_or (class_row b digest) (CasBlob BlobStorage);
      _ ← ensure (bool_decide (stored = classes)) (ClassMismatch stored classes);
      mret created_at).

(** An answer the port does not give to the call is an error of the store. *)
Definition refused (a : option BlobAnswer) : ContextCasError :=
  match a with
  | Some (BlobRefused e) => CasBlob e
  | _ => CasBlob BlobStorage
  end.

(** The loop of [put]: chunks of the plaintext, the last one short. *)
Fixpoint write_all (fuel : nat) (cfg : BlobConfig) (f : Fresh) (b : blobs) (id : string) (sequence : Z) (rest : bytes)
  : blobs * result ContextCasError unit :=
  let chunk := take chunk_nat rest in
  match call cfg f b (TWrite id sequence chunk) with
  | (b, Some Written) =>
      if (zlen chunk <? BLOB_CHUNK_BYTES)%Z then (b, Ok ())
      else match fuel with
           | O => (b, Err (CasBlob BlobStorage))
           | S fuel => write_all fuel cfg f b id (Z.min (sequence + 1) u32_max) (drop chunk_nat rest)
           end
  | (b, a) => (b, Err (refused a))
  end.

Record ContextBlobRecord := {
  cb_digest : string;
  cb_classes : BlobClasses;
  cb_created_at : instant;
  cb_blob : option BlobDescriptor;
}.

(** Bytes sealed under a key no content class owns, and not yet classified. *)
Definition foreign (b : blobs) (digest : string) (label : bytes) : option bytes :=
  match class_row b digest, b_blobs b !! digest with
  | None, Some r => if bool_decide (br_kek_id r = label) then None else Some (br_kek_id r)
  | _, _ => None
  end.

(** [put], after the claim. *)
Definition put_bytes (f : Fresh) (b : blobs) (classes : BlobClasses) (digest : string) (created_at : instant)
    (media_type plaintext : bytes) : blobs * result ContextCasError (ContextBlobRecord * bool) :=
  let cfg := store (bc_content classes) in
  match call cfg f b (TBegin media_type (zlen plaintext)) with
  | (b, Some (Began id)) =>
      match write_all (length plaintext) cfg f b id 0 plaintext with
      | (b, Ok _) =>
          match call cfg f b (TCommit id digest) with
          | (b, Some (Committed d deduped)) =>
              (b, _ ← ensure (bool_decide (ds_kek_id d = bc_kek_id cfg)) (ForeignKeyDomain (ds_kek_id d));
                  mret ({| cb_digest := digest; cb_classes := classes; cb_created_at := created_at; cb_blob := Some d |},
                        deduped))
          | (b, a) => (b, Err (refused a))
          end
      | (b, Err e) => (b, Err e)
      end
  | (b, a) => (b, Err (refused a))
  end.

Definition put (f : Fresh) (b : blobs) (classes : BlobClasses) (media_type plaintext : bytes)
  : blobs * result ContextCasError (ContextBlobRecord * bool) :=
  let digest := hex_lower (Container.sha256 plaintext) in
  match foreign b digest (bc_kek_id (store (bc_content classes))) with
  | Some kek_id => (b, Err (ForeignKeyDomain kek_id))
  | None =>
      match cas_claim b digest classes with
      | (b, Ok created_at) => put_bytes f b classes digest created_at media_type plaintext
      | (b, Err e) => (b, Err e)
      end
  end.

(** The loop of [get]. *)
Fixpoint read_all (fuel : nat) (cfg : BlobConfig) (f : Fresh) (b : blobs) (digest : string) (size : Z) (out : bytes)
  : result ContextCasError bytes :=
  if (zlen out <? size)%Z then
    match fuel, (call cfg f b (TRead digest (zlen out) (size - zlen out))).2 with
    | S fuel, Some (ReadBytes (x :: part)) => read_all fuel cfg f b digest size (out ++ x :: part)
    | S fuel, a => Err (refused a)
    | O, _ => Err (CasBlob BlobStorage)
    end
  else Ok out.

Definition get (f : Fresh) (b : blobs) (digest : string) (content : ContentClass) : result ContextCasError bytes :=
  '(classes, _) ← ok_or (class_row b digest) CasNotFound;
  _ ← ensure (bool_decide (bc_content classes = content)) (WrongContentClass (bc_content classes) content);
  match (call (store content) f b (TStat digest)).2 with
  | Some (Described (Some d)) => read_all (Z.to_nat (ds_byte_size d)) (store content) f b digest (ds_byte_size d) []
  | Some (Described None) => Err CasNotFound
  | a => Err (refused a)
  end.

Definition describe (b : blobs) (digest : string) : option ContextBlobRecord :=
  '(classes, created_at) ← class_row b digest;
  Some {| cb_digest := digest; cb_classes := classes; cb_created_at := created_at;
          cb_blob := descriptor b digest <$> b_blobs b !! digest |}.

(** [pin] and [unpin]: classified blobs only; any class' store will do. *)
Definition cas_pin (cfg : BlobConfig) (f : Fresh) (b : blobs) (t : string -> string -> BlobTask) (digest evidence : string)
  : blobs * result ContextCasError unit :=
  match class_row b digest with
  | None => (b, Err CasNotFound)
  | Some _ =>
      match call cfg f b (t digest evidence) with
      | (b, Some PinAnswered) => (b, Ok ())
      | (b, a) => (b, Err (refused a))
      end
  end.
Definition pin cfg f b digest evidence := cas_pin cfg f b TPin digest evidence.
Definition unpin cfg f b digest evidence := cas_pin cfg f b TUnpin digest evidence.

(** ** Runs *)

Lemma run_step n cfg f b t : (forall a, t <> TDone a) ->
  run (S n) cfg f b t = run n cfg f (task_step cfg f b t).1 (task_step cfg f b t).2.
Proof. intros Ht. destruct t; try (by destruct (task_step _ _ _ _)); [..|by edestruct Ht]; cbn; by repeat case_match. Qed.

Lemma run_done n cfg f b a : run n cfg f b (TDone a) = (b, Some a).
Proof. by destruct n. Qed.

(** Walk a run forward. *)
Ltac runs := rewrite run_step by done; cbn [task_step fst snd].

(** What an upload's calls leave alone. *)
Definition same_rest (b b' : blobs) : Prop :=
  b_now b' = b_now b /\ b_blobs b' = b_blobs b /\ b_pins b' = b_pins b /\ b_containers b' = b_containers b /\
  b_classified b' = b_classified b.

Lemma same_rest_trans b1 b2 b3 : same_rest b1 b2 -> same_rest b2 b3 -> same_rest b1 b3.
Proof. intros (?&?&?&?&?) (?&?&?&?&?). split_and!; congruence. Qed.

(** An upload under way: its row and its file. *)
Definition staged (b : blobs) (id : string) (media_type : bytes) (size : Z) (file : bytes) (next : Z) : Prop :=
  is_upload_id id = true /\ b_files b !! id = Some file /\
  b_uploads b !! id = Some {| up_media_type := media_type; up_byte_size := size; up_written := zlen file;
                              up_next_chunk := next; up_started_at := b_now b |}.

Lemma run_discard n cfg f b ids next : exists b', same_rest b b' /\ b_uploads b' = b_uploads b /\
  run (S (length ids) + n) cfg f b (TDiscard ids next) = run n cfg f b' next.
Proof.
  revert b. induction ids as [|id ids IH]; intros b.
  - exists b. by split_and!.
  - destruct (IH (discard_upload_files id b)) as (b' & Hs & Hu & Hr). exists b'.
    split_and!; [exact Hs|exact Hu|]. cbn [length Nat.add]. by runs.
Qed.

Lemma stale_length (P : string * UploadRow -> bool) (m : gmap string UploadRow) :
  (length (List.filter P (map_to_list m)).*1 <= size m)%nat.
Proof. rewrite length_fmap, <-length_map_to_list. induction (map_to_list m) as [|x l IH]; cbn; [lia|]. destruct (P x); cbn; lia. Qed.

Lemma foldr_delete_None {A} (m : gmap string A) ids i : m !! i = None -> foldr delete m ids !! i = None.
Proof.
  intros Hi. induction ids as [|j ids IH]; cbn; [done|]. destruct (decide (i = j)) as [->|]; [apply lookup_delete_eq|].
  by rewrite lookup_delete_ne.
Qed.

(** [begin] to its answer. *)
Lemma begin_call cfg f b media_type n :
  fresh_ok f -> (1 <= zlen media_type <= u16_max)%Z -> (0 <= n <= i64_max)%Z -> b_uploads b !! fr_id f = None ->
  exists b', call cfg f b (TBegin media_type n) = (b', Some (Began (fr_id f))) /\
    same_rest b b' /\ staged b' (fr_id f) media_type n [] 0.
Proof.
  intros (Hid & _) Hm Hn Hu. unfold call.
  set (stale := (List.filter (fun '(_, u) => expired b u) (map_to_list (b_uploads b))).*1).
  assert (length stale <= size (b_uploads b))%nat as Hl by apply stale_length.
  replace (16 + size (b_uploads b))%nat with (S (S (S (length stale) + (13 + size (b_uploads b) - length stale))))%nat by lia.
  runs. destruct (Z.eqb_spec (zlen media_type) 0); [lia|]. destruct (Z.ltb_spec u16_max (zlen media_type)); [lia|].
  destruct (Z.ltb_spec i64_max n); [lia|]. cbn [orb]. runs. fold stale.
  destruct (run_discard (13 + size (b_uploads b) - length stale) cfg f (set_uploads (foldr delete (b_uploads b) stale) b) stale
    (TBeginInsert media_type n)) as (b1 & Hs & Hu1 & ->).
  replace (13 + size (b_uploads b) - length stale)%nat with (S (S (11 + size (b_uploads b) - length stale)))%nat by lia.
  cbn in Hu1. runs. rewrite Hu1, foldr_delete_None by done. cbn [is_some fst snd]. runs. rewrite run_done.
  eexists. split; [done|]. split; [exact Hs|]. split_and!; [done|cbn; by rewrite lookup_insert_eq|].
  cbn. rewrite lookup_insert_eq. unfold new_upload. done.
Qed.

(** An upload does not expire the moment it starts. *)
Context (not_expired : forall t, older_than t t UPLOAD_EXPIRY_SECS = false).

Lemma write_at_end chunk file : write_at (length file) chunk file = file ++ chunk.
Proof.
  unfold write_at. rewrite Nat.sub_diag. cbn [replicate]. rewrite app_nil_r, take_ge by lia.
  rewrite drop_ge by lia. by rewrite app_nil_r.
Qed.

(** [write_chunk] of the next chunk, to its answer. *)
Lemma write_call cfg f b id media_type n file k chunk :
  staged b id media_type n file k -> (zlen file + zlen chunk <= n)%Z -> (n <= i64_max)%Z ->
  exists b', call cfg f b (TWrite id k chunk) = (b', Some Written) /\ same_rest b b' /\
    staged b' id media_type n (file ++ chunk) (k + 1).
Proof.
  intros (Hid & Hf & Hu) Hle Hn. unfold call. change (16 + size (b_uploads b))%nat with (S (S (S (13 + size (b_uploads b))))).
  pose proof (zlen_nonneg file). pose proof (zlen_nonneg chunk).
  runs. unfold write_check. rewrite Hid, Hu. cbn [ensure ok_or mbind result_bind]. unfold expired. cbn [up_started_at].
  rewrite not_expired. cbn [negb ensure mbind result_bind up_next_chunk up_written up_byte_size]. rewrite Z.eqb_refl.
  destruct (Z.leb_spec (zlen chunk) i64_max); [|lia]. destruct (Z.leb_spec (zlen file + zlen chunk) i64_max); [|lia].
  destruct (Z.leb_spec (zlen file + zlen chunk) n); [|lia]. cbn [ensure mbind result_bind mret result_ret answer_of].
  runs. rewrite Hf. cbn [fst snd]. runs. rewrite run_done, nat_zlen, write_at_end. eexists. split; [done|]. split; [done|].
  split_and!; [done|cbn; by rewrite lookup_insert_eq|]. cbn. rewrite lookup_alter_eq, Hu. cbn. unfold advance_upload. cbn.
  by rewrite zlen_app.
Qed.

Lemma write_all_ok fuel cfg f b id media_type p file rest k :
  staged b id media_type (zlen p) file k -> file ++ rest = p -> (zlen p <= i64_max)%Z ->
  (k * BLOB_CHUNK_BYTES + zlen rest <= u32_max * BLOB_CHUNK_BYTES)%Z -> (length rest <= fuel)%nat ->
  exists b' k', write_all fuel cfg f b id k rest = (b', Ok ()) /\ same_rest b b' /\ staged b' id media_type (zlen p) p k'.
Proof.
  revert b file rest k. induction fuel as [|fuel IH]; intros b file rest k Hst Hp Hn Hk Hl; cbn [write_all].
  - destruct rest; [|cbn in Hl; lia]. rewrite app_nil_r in Hp. subst file. rewrite take_nil.
    destruct (write_call cfg f b id media_type (zlen p) p k [] Hst) as (b' & -> & Hs & Hst'); [unfold zlen; cbn [length]; lia|done|]. cbn.
    rewrite app_nil_r in Hst'. eauto.
  - assert (zlen p = zlen file + zlen rest)%Z as Hlen by (by rewrite <-Hp, zlen_app).
    assert (zlen rest = zlen (take chunk_nat rest) + zlen (drop chunk_nat rest))%Z as Hsplit by (by rewrite <-zlen_app, take_drop).
    pose proof (zlen_nonneg (drop chunk_nat rest)). pose proof chunk_nat_Z as Hcz.
    destruct (write_call cfg f b id media_type (zlen p) file k (take chunk_nat rest) Hst) as (b1 & -> & Hs & Hst1); [lia|done|].
    destruct (Z.ltb_spec (zlen (take chunk_nat rest)) BLOB_CHUNK_BYTES) as [Hlt|Hge].
    + exists b1, (k + 1)%Z. split; [reflexivity|]. split; [exact Hs|]. rewrite take_ge in Hst1; [by rewrite Hp in Hst1|].
      unfold zlen in Hlt. rewrite length_take in Hlt. lia.
    + assert (0 < BLOB_CHUNK_BYTES)%Z by done. rewrite Z.min_l by nia.
      destruct (IH b1 (file ++ take chunk_nat rest) (drop chunk_nat rest) (k + 1)%Z) as (b2 & k2 & -> & Hs2 & Hst2);
        [exact Hst1| |exact Hn| | |].
      * by rewrite <-app_assoc, take_drop.
      * lia.
      * rewrite length_drop. unfold zlen in Hge. rewrite length_take in Hge. lia.
      * exists b2, k2. split; [reflexivity|]. split; [by eapply same_rest_trans|exact Hst2].
Qed.

Context `{AEL : !AeadLaws}.

(** What a store must be configured with: the label its containers carry. *)
Definition label_ok (cfg : BlobConfig) : Prop := utf8_ok (bc_kek_id cfg) = true /\ (zlen (bc_kek_id cfg) <= u16_max)%Z.

(** A blob in the store, its plaintext under the store's own key. *)
Definition stored (cfg : BlobConfig) (b : blobs) (d : string) (r : BlobRow) (p : bytes) : Prop :=
  live_at b d r /\ br_kek_id r = bc_kek_id cfg /\ br_byte_size r = zlen p /\
  exists nonce wrapped, key_material r = Ok (nonce, wrapped) /\
    holds (eq (bc_kek cfg)) (b_containers b !! d) d (br_media_type r) (br_kek_id r) (br_byte_size r) nonce wrapped p.

(** [commit] of bytes the store does not have, to its answer. *)
Lemma commit_call cfg f b id media_type p k d :
  staged b id media_type (zlen p) p k -> hex_lower (Container.sha256 p) = d -> b_blobs b !! d = None -> fresh_ok f ->
  label_ok cfg -> utf8_ok media_type = true -> (zlen media_type <= u16_max)%Z -> (chunk_count (zlen p) <= u32_max)%Z ->
  exists b' r, call cfg f b (TCommit id d) = (b', Some (Committed (descriptor b' d r) false)) /\ stored cfg b' d r p /\
    b_now b' = b_now b /\ b_classified b' = b_classified b.
Proof.
  intros (Hid & Hf & Hu) Hd Hn Hfr [Hk1 Hk2] Hm1 Hm2 Hc. pose proof Hfr as (_ & Hdek & _).
  destruct (seal_with_total p media_type (bc_kek cfg) (bc_kek_id cfg) (fr_dek f) (fr_wrap_nonce f) (fr_stream_nonce f) Hdek Hc Hm2 Hk2)
    as [s Hs].
  destruct (seal_publishes (eq (bc_kek cfg)) cfg f d media_type p s Hfr eq_refl Hm1 Hk1 Hd Hs) as [[Hw1 Hw2] Hh].
  unfold call. replace (16 + size (b_uploads b))%nat with (9 + (7 + size (b_uploads b)))%nat by lia. cbn [Nat.add].
  runs. unfold commit_check. rewrite Hid, Hu. cbn [ensure ok_or mbind result_bind]. unfold expired. cbn [up_started_at].
  rewrite not_expired. cbn [negb ensure mbind result_bind up_written up_byte_size up_media_type]. rewrite Z.eqb_refl.
  cbn [ensure mbind result_bind mret result_ret answer_of].
  runs. unfold commit_read. rewrite Hf. cbn [ok_or mbind result_bind]. rewrite Z.leb_refl. cbn [ensure mbind result_bind].
  rewrite nat_zlen, firstn_all, bool_decide_eq_true_2 by done. cbn [ensure mbind result_bind mret result_ret answer_of].
  runs. rewrite Hn, Hs. cbn [answer_of]. runs. runs. cbn [b_staging set_staging]. rewrite lookup_insert_eq. cbn [fst snd].
  runs. cbn [b_blobs set_staging set_containers]. rewrite Hn. cbn [is_some fst snd]. runs. runs. runs.
  cbn [b_blobs set_blob_rows delete_upload set_uploads discard_upload_files set_staging set_files].
  rewrite lookup_insert_eq, run_done. eexists _, _. split; [reflexivity|]. split; [|done].
  split_and!; [split; [cbn; by rewrite lookup_insert_eq|done]|done|done|]. exists (sl_wrap_nonce s), (sl_wrapped_dek s). split.
  - unfold key_material. cbn. by rewrite Hw1, Hw2.
  - cbn. rewrite lookup_insert_eq. exact Hh.
Qed.

(** The read of a stored blob, to its answer. *)
Lemma read_call cfg f b d r p offset n :
  stored cfg b d r p -> (0 <= offset)%Z -> (0 <= n)%Z ->
  call cfg f b (TRead d offset n) = (b, Some (ReadBytes (slice offset (offset + read_len (zlen p) offset n) p))).
Proof.
  intros (Hl & _ & Hs & nonce & wrapped & Hk & Hh) Ho Hn.
  destruct (held_reads _ b d r nonce wrapped p Hl Hk Hh) as (kek & <- & Hread). specialize (Hread cfg f f offset n eq_refl Ho Hn).
  unfold call. change (16 + size (b_uploads b))%nat with (S (S (14 + size (b_uploads b)))). rewrite run_step by done.
  assert ((task_step cfg f b (TRead d offset n)).1 = b) as -> by done.
  assert (forall t, (task_step cfg f b (TRead d offset n)).2 = t -> (forall a, t = TDone a) \/ (task_step cfg f b t).1 = b) as Hsame.
  { intros t <-. right. cbn [task_step snd]. apply answer_of_ind; [done|]. intros [[[? ?] ?] ?] _. by case_match. }
  destruct (Hsame _ eq_refl) as [Hd|Hb]; [by rewrite (Hd Written) in Hread|].
  destruct (task_step cfg f b (TRead d offset n)).2 eqn:Et; try (rewrite run_step by done; by rewrite Hb, Hread, run_done).
  cbn [task_step snd] in Hread. injection Hread as ->. by rewrite run_done.
Qed.

Lemma stat_call cfg f b d r : live_at b d r ->
  call cfg f b (TStat d) = (b, Some (Described (Some (descriptor b d r)))).
Proof. intros [Hd Ht]. unfold call. cbn [Nat.add]. runs. rewrite Hd, Ht. by rewrite run_done. Qed.

(** The loop of [get] collects the whole. *)
Lemma read_all_ok fuel cfg f b d r p out :
  stored cfg b d r p -> out = take (length out) p -> (length out <= length p)%nat -> (length p - length out <= fuel)%nat ->
  read_all fuel cfg f b d (zlen p) out = Ok p.
Proof.
  intros Hst. revert out. induction fuel as [|fuel IH]; intros out Hout Hle Hfuel; cbn [read_all].
  - destruct (Z.ltb_spec (zlen out) (zlen p)) as [Hlt|_]; [unfold zlen in Hlt; lia|]. rewrite Hout. by rewrite take_ge by lia.
  - destruct (Z.ltb_spec (zlen out) (zlen p)) as [Hlt|Hge].
    2:{ rewrite Hout. rewrite take_ge; [done|]. unfold zlen in Hge. lia. }
    rewrite (read_call _ _ _ _ _ _ _ _ Hst) by (unfold zlen in *; lia). cbn [snd].
    set (part := slice _ _ _). assert (0 < BLOB_CHUNK_BYTES)%Z as Hb by done.
    set (n := read_len _ _ _) in part. assert (0 < n <= zlen p - zlen out)%Z as Hn by (unfold n, read_len; lia).
    assert (zlen part = n) as Hpl.
    { unfold part. rewrite (proj1 (slice_split (zlen out) (zlen out + n) p ltac:(pose proof (zlen_nonneg out); lia) ltac:(lia))). lia. }
    assert (out ++ part = take (length (out ++ part)) p) as Happ.
    { assert (length (out ++ part) = length out + Z.to_nat n)%nat as -> by (rewrite length_app; unfold zlen in Hpl; lia).
      rewrite <-take_take_drop, <-Hout. f_equal. unfold part, slice. by rewrite Z.add_simpl_l, nat_zlen. }
    assert (length (out ++ part) <= length p)%nat as Hle' by (rewrite length_app; unfold zlen in *; lia).
    destruct part as [|x part'] eqn:Ep; [unfold zlen in Hpl; cbn in Hpl; lia|]. apply IH; [done|done|].
    rewrite length_app. cbn [length]. lia.
Qed.

(** ** What is put is what is got *)

(** Bytes put under a classification that is free or the same
    are stored, described with that classification and read back whole through
    the range reads; another content class is refused, and so is the same digest
    under another classification. *)
Theorem put_then_get f f' b classes media_type p :
  let d := hex_lower (Container.sha256 p) in let cfg := store (bc_content classes) in
  fresh_ok f -> b_uploads b !! fr_id f = None -> b_blobs b !! d = None ->
  (class_row b d = None \/ exists at_, class_row b d = Some (classes, at_)) ->
  label_ok cfg -> utf8_ok media_type = true -> (1 <= zlen media_type <= u16_max)%Z -> (chunk_count (zlen p) <= u32_max)%Z ->
  exists b' rec, put f b classes media_type p = (b', Ok (rec, false)) /\ describe b' d = Some rec /\ cb_classes rec = classes /\
    get f' b' d (bc_content classes) = Ok p /\
    (forall content, content <> bc_content classes ->
      get f' b' d content = Err (WrongContentClass (bc_content classes) content)) /\
    forall other media, other <> classes -> put f' b' other media p = (b', Err (ClassMismatch classes other)).
Proof.
  intros d cfg Hfr Hup Hn Hcl Hlab Hm Hml Hc. pose proof (zlen_nonneg p) as Hp0.
  assert (zlen p <= u32_max * BLOB_CHUNK_BYTES)%Z as Hp.
  { unfold chunk_count, BLOB_CHUNK_BYTES in *. pose proof (Z.div_mod (zlen p + 1024 * 1024 - 1) (1024 * 1024)).
    pose proof (Z.mod_pos_bound (zlen p + 1024 * 1024 - 1) (1024 * 1024)). lia. }
  assert (zlen p <= i64_max)%Z as Hi by (unfold u32_max, BLOB_CHUNK_BYTES, i64_max in *; lia).
  unfold put. cbn zeta. fold d. fold cfg. assert (foreign b d (bc_kek_id cfg) = None) as ->.
  { unfold foreign. rewrite Hn. by destruct (class_row b d). }
  assert (exists b1 at_, cas_claim b d classes = (b1, Ok at_) /\ class_row b1 d = Some (classes, at_) /\
    b_uploads b1 = b_uploads b /\ b_blobs b1 = b_blobs b) as (b1 & at_ & -> & Hrow & Hu1 & Hb1).
  { unfold cas_claim. destruct Hcl as [Hno|[at_ Hyes]].
    - rewrite Hno. cbn [is_some]. unfold class_row. cbn [b_classified set_classified]. rewrite lookup_insert_eq.
      eexists _, _. cbn [ok_or mbind result_bind]. rewrite bool_decide_eq_true_2 by done. split; [reflexivity|]. split; [|done].
      cbn. by rewrite lookup_insert_eq.
    - rewrite Hyes. cbn [is_some]. rewrite Hyes. exists b, at_. cbn [ok_or mbind result_bind].
      rewrite bool_decide_eq_true_2 by done. done. }
  unfold put_bytes. fold cfg. cbn zeta.
  destruct (begin_call cfg f b1 media_type (zlen p) Hfr Hml (conj Hp0 Hi) ltac:(by rewrite Hu1)) as (b2 & -> & S2 & St2).
  destruct (write_all_ok (length p) cfg f b2 (fr_id f) media_type p [] p 0 St2 eq_refl Hi ltac:(lia) ltac:(lia))
    as (b3 & k3 & -> & S3 & St3).
  destruct (same_rest_trans _ _ _ S2 S3) as (_ & E1 & _ & _ & E2).
  destruct (commit_call cfg f b3 (fr_id f) media_type p k3 d St3 eq_refl ltac:(by rewrite E1, Hb1) Hfr Hlab Hm ltac:(lia) Hc)
    as (b4 & r & -> & Hst & _ & E3). pose proof Hst as ([Hd Ht] & Hk & Hsz & _).
  cbn [descriptor ds_kek_id]. rewrite bool_decide_eq_true_2 by done. cbn [ensure mbind result_bind mret result_ret].
  assert (class_row b4 d = Some (classes, at_)) as Hrow4 by (unfold class_row in *; by rewrite E3, E2).
  eexists b4, _. split; [reflexivity|]. split; [|split; [done|split; [|split]]].
  - unfold describe. rewrite Hrow4. cbn [mbind option_bind]. by rewrite Hd.
  - unfold get. rewrite Hrow4. cbn [ok_or mbind result_bind]. rewrite bool_decide_eq_true_2 by done. cbn [ensure mbind result_bind].
    fold cfg. rewrite (stat_call _ _ _ _ _ (conj Hd Ht)). cbn [snd descriptor ds_byte_size]. rewrite Hsz, nat_zlen.
    eapply read_all_ok; [done|done|cbn; lia|cbn; lia].
  - intros content Hne. unfold get. rewrite Hrow4. cbn [ok_or mbind result_bind]. by rewrite bool_decide_eq_false_2 by congruence.
  - intros other media Hne. unfold put. cbn zeta. fold d. assert (foreign b4 d (bc_kek_id (store (bc_content other))) = None) as ->.
    { unfold foreign. by rewrite Hrow4. }
    unfold cas_claim. rewrite Hrow4. cbn [is_some]. rewrite Hrow4. cbn [ok_or mbind result_bind].
    by rewrite bool_decide_eq_false_2 by congruence.
Qed.
End Cas.
