(* ===== verification/Protocol.v ===== *)
(** * The wire protocol: versions, capability names, requests and results

    The types of protocol.rs that a connection exchanges, with the checks their
    constructors make.  What serde derives for them is a parameter of the files
    that decode frames; the two hand-written decoders, of a major version and of
    a capability name, are here. *)

From S2P Require Import Prelude Text Envelope Command Tables Db Store Project Submit Screen Hub Attempts Container Ordered Blobs.

Definition PROTOCOL_MINOR : Z := 1.
Definition MAX_CAPABILITIES : nat := 64.
Definition CAPABILITY_NAME_MAX_BYTES : Z := 64.
Definition PTY_RAW_CAPABILITY : string := "pty_raw".
Definition PTY_INPUT_CAPABILITY : string := "pty_input".
Definition PTY_CONTROL_CAPABILITY : string := "pty_control".
Definition PTY_START_CAPABILITY : string := "pty_start".
Definition FRAME_PAYLOAD_MAX_BYTES : Z := FRAME_BODY_MAX_BYTES - 1.
Definition PTY_INPUT_MAX_BASE64_BYTES : Z := (PTY_INPUT_MAX_BYTES + 2) / 3 * 4.

(** ** Major versions *)

Inductive ProtocolVersion := V1 | V2.

#[export] Instance ProtocolVersion_eq_dec : EqDecision ProtocolVersion.
Proof. solve_decision. Defined.

Definition version_as_u32 (v : ProtocolVersion) : Z := match v with V1 => 1 | V2 => 2 end.
Definition version_from_u32 (value : Z) : option ProtocolVersion :=
  if (value =? 1)%Z then Some V1 else if (value =? 2)%Z then Some V2 else None.

Lemma version_round_trip v : version_from_u32 (version_as_u32 v) = Some v.
Proof. by destruct v. Qed.

(** ** Capability names *)

Inductive CapabilityNameError := CapEmpty | CapTooLong | CapNotSnakeCase.

Definition cap_byte (b : Ascii.ascii) : bool :=
  Str.is_ascii_lower b || Str.is_ascii_digit b || (Str.code b =? 95)%Z.

(** [CapabilityName::new]. *)
Definition capability_name (value : string) : result CapabilityNameError string :=
  match String.list_ascii_of_string value with
  | [] => Err CapEmpty
  | head :: _ as b =>
      _ ← ensure (Str.len value <=? CAPABILITY_NAME_MAX_BYTES)%Z CapTooLong;
      let tail_ok := match last b with Some l => negb (Str.code l =? 95)%Z | None => true end in
      _ ← ensure (Str.is_ascii_lower head && forallb cap_byte b && tail_ok) CapNotSnakeCase;
      mret value
  end.

(** ** Projections a client can name *)

Inductive ProjectionKind :=
| KTask | KAttempt | KEngineSession | KMessage | KCommand | KGate | KAuthorityGrant | KReceipt | KEvidence
| KAttentionItem | KWorktree | KLease | KDispatchNode | KOrchestratorCheckpoint | KIngestedRecord | KCostEntry
| KWorkspaceNode | KWorkflowRun | KPtySession | KPtySessionTemplate
| KContextRelease | KContextObservation | KContextFinalization.

#[export] Instance ProjectionKind_eq_dec : EqDecision ProjectionKind.
Proof. solve_decision. Defined.

Definition ALL_KINDS : list ProjectionKind :=
  [KTask; KAttempt; KEngineSession; KMessage; KCommand; KGate; KAuthorityGrant; KReceipt; KEvidence;
   KAttentionItem; KWorktree; KLease; KDispatchNode; KOrchestratorCheckpoint; KIngestedRecord; KCostEntry;
   KWorkspaceNode; KWorkflowRun; KPtySession; KPtySessionTemplate; KContextRelease; KContextObservation;
   KContextFinalization].

(** [ProjectionKind::served_in_v1]. *)
Definition served_in_v1 (k : ProjectionKind) : bool :=
  match k with
  | KTask | KAttempt | KEngineSession | KMessage | KCommand | KGate | KAuthorityGrant | KReceipt | KEvidence
  | KAttentionItem | KWorktree | KLease | KDispatchNode | KOrchestratorCheckpoint | KIngestedRecord | KCostEntry
  | KWorkspaceNode | KWorkflowRun | KPtySession | KPtySessionTemplate => true
  | KContextRelease | KContextObservation | KContextFinalization => false
  end.

(** [ProjectionKind::as_str]. *)
Definition kind_str (k : ProjectionKind) : string :=
  match k with
  | KTask => "task" | KAttempt => "attempt" | KEngineSession => "engine_session" | KMessage => "message"
  | KCommand => "command" | KGate => "gate" | KAuthorityGrant => "authority_grant" | KReceipt => "receipt"
  | KEvidence => "evidence" | KAttentionItem => "attention_item" | KWorktree => "worktree" | KLease => "lease"
  | KDispatchNode => "dispatch_node" | KOrchestratorCheckpoint => "orchestrator_checkpoint"
  | KIngestedRecord => "ingested_record" | KCostEntry => "cost_entry" | KWorkspaceNode => "workspace_node"
  | KWorkflowRun => "workflow_run" | KPtySession => "pty_session" | KPtySessionTemplate => "pty_session_template"
  | KContextRelease => "context_release" | KContextObservation => "context_observation"
  | KContextFinalization => "context_finalization"
  end.

Section Protocol.
Context `{TZ : Timestamptz} {V : Type}.
Notation envelope := (CommandEnvelope V).
Notation event := (EventEnvelope V).

(** ** Requests *)

(** [KernelRequest]. *)
Inductive KernelRequest :=
| QHealth
| QStatus
| QWatermark
| QVerifySealed
| QSubmitCommand (env : envelope)
| QSendPtyInput (env : envelope) (data_base64 : string)
| QResizePtySession (env : envelope)
| QStopPtySession (env : envelope)
| QStartPtySession (env : envelope)
| QGetProjection (projection : ProjectionKind) (id : string)
| QListProjection (projection : ProjectionKind) (cursor : option string) (limit : option Z)
| QReadEvents (cursor : option Z) (limit : Z)
| QSubscribeEvents (cursor : option Z)
| QBlobBegin (media_type : bytes) (byte_size : Z)
| QBlobChunk (upload_id : string) (sequence : Z) (data_base64 : string)
| QBlobCommit (upload_id address : string)
| QBlobAbort (upload_id : string)
| QBlobRead (address : string) (offset length_ : Z)
| QBlobStat (address : string)
| QPtyAttach (session_id : string) (generation : option string) (cursor : option Z)
| QPtyRawAttach (session_id : string) (generation : option string) (cursor : option Z)
| QPtySnapshot (session_id : string)
| QPtyPublishSnapshot (session_id : string) (seq : option Z) (frame : PtyFrame)
| QPtyPublishDeltas (session_id : string) (seq : Z) (deltas : list PtyDelta)
| QPtyPublishRawResize (session_id : string) (seq rows cols : Z)
| QPtyRetire (session_id : string).

(** [ClientControl]. *)
Inductive ClientControl :=
| CHello (protocol_major : ProtocolVersion) (protocol_minor : Z) (capabilities : list string) (client : option string)
| CRequest (request_id : string) (request : KernelRequest)
| CPtyDeliveryAck (delivery_id : string) (result : PtyDeliveryResult)
| CPtyRawPublishSnapshot (request_id session_id : string) (seq : option Z) (rows cols byte_size : Z)
| CPtyRawPublishOutput (request_id session_id : string) (seq byte_size : Z).

(** A control as the derived decoder sees it, before the two hand-written
    decoders of a hello's fields. *)
Inductive ControlShape :=
| ShapeHello (protocol_major protocol_minor : Z) (capabilities : list string) (client : option string)
| ShapeOther (control : ClientControl).

Definition control_of (s : ControlShape) : option ClientControl :=
  match s with
  | ShapeHello major minor names client =>
      v ← version_from_u32 major;
      names ← mapM (fun n => match capability_name n with Ok n => Some n | Err _ => None end) names;
      mret (CHello v minor names client)
  | ShapeOther (CHello _ _ _ _) => None
  | ShapeOther c => Some c
  end.

(** ** Results *)

Inductive Detail :=
| NoDetail
| CommandDetail (d : list (string * DetailValue))
| PtyDetail (d : list (string * option string))
| CommittedDetail (command_id : option string).

(** [ProjectionRecord]: a row, by the table it comes from. *)
Inductive ProjectionRow :=
| RowTask (r : TaskRow instant) | RowAttempt (r : AttemptRow instant) | RowEngineSession (r : EngineSessionRow instant)
| RowMessage (r : MessageRow instant V) | RowCommand (r : CmdRow instant) | RowGate (r : GateRow instant)
| RowAuthorityGrant (r : GrantRow instant) | RowReceipt (r : ReceiptRow instant) | RowEvidence (r : EvidenceRow instant)
| RowAttentionItem (r : AttentionRow instant) | RowWorktree (r : WorktreeRow instant) | RowLease (r : LeaseRow instant)
| RowDispatchNode (r : DispatchRow instant) | RowOrchestratorCheckpoint (r : OrchCheckpointRow instant)
| RowIngestedRecord (r : IngestedRow instant V) | RowCostEntry (r : CostRow instant) | RowWorkspaceNode (r : NodeRow instant)
| RowWorkflowRun (r : RunRow instant) | RowPtySession (r : PtyRow instant) | RowPtySessionTemplate (r : TemplateRow instant).

(** A record with the value of its key column. *)
Record ProjectionRecord := { pr_key : string; pr_row : ProjectionRow }.

(** [ProjectionRecord::kind]. *)
Definition record_kind (r : ProjectionRecord) : ProjectionKind :=
  match pr_row r with
  | RowTask _ => KTask | RowAttempt _ => KAttempt | RowEngineSession _ => KEngineSession | RowMessage _ => KMessage
  | RowCommand _ => KCommand | RowGate _ => KGate | RowAuthorityGrant _ => KAuthorityGrant | RowReceipt _ => KReceipt
  | RowEvidence _ => KEvidence | RowAttentionItem _ => KAttentionItem | RowWorktree _ => KWorktree | RowLease _ => KLease
  | RowDispatchNode _ => KDispatchNode | RowOrchestratorCheckpoint _ => KOrchestratorCheckpoint
  | RowIngestedRecord _ => KIngestedRecord | RowCostEntry _ => KCostEntry | RowWorkspaceNode _ => KWorkspaceNode
  | RowWorkflowRun _ => KWorkflowRun | RowPtySession _ => KPtySession | RowPtySessionTemplate _ => KPtySessionTemplate
  end.

(** [PROJECTIONS]: the table behind each kind, by its key; a kind without an entry
    has no read query. *)
Definition projection_table (k : ProjectionKind) (db : Db instant V) : option (gmap string ProjectionRow) :=
  match k with
  | KTask => Some (RowTask <$> tasks (proj db))
  | KAttempt => Some (RowAttempt <$> attempts (proj db))
  | KEngineSession => Some (RowEngineSession <$> engine_sessions (proj db))
  | KMessage => Some (RowMessage <$> messages (proj db))
  | KCommand => Some (RowCommand <$> commands (proj db))
  | KGate => Some (RowGate <$> gates (proj db))
  | KAuthorityGrant => Some (RowAuthorityGrant <$> authority_grants (proj db))
  | KReceipt => Some (RowReceipt <$> receipts db)
  | KEvidence => Some (RowEvidence <$> evidences (proj db))
  | KAttentionItem => Some (RowAttentionItem <$> attention_items (proj db))
  | KWorktree => Some (RowWorktree <$> worktrees (proj db))
  | KLease => Some (RowLease <$> leases (proj db))
  | KDispatchNode => Some (RowDispatchNode <$> dispatch_nodes (proj db))
  | KOrchestratorCheckpoint => Some (RowOrchestratorCheckpoint <$> orch_checkpoints (proj db))
  | KIngestedRecord => Some (RowIngestedRecord <$> ingested_records (proj db))
  | KCostEntry => Some (RowCostEntry <$> cost_entries (proj db))
  | KWorkspaceNode => Some (RowWorkspaceNode <$> workspace_nodes (proj db))
  | KWorkflowRun => Some (RowWorkflowRun <$> workflow_runs (proj db))
  | KPtySession => Some (RowPtySession <$> pty_sessions (proj db))
  | KPtySessionTemplate => Some (RowPtySessionTemplate <$> pty_templates (proj db))
  | KContextRelease | KContextObservation | KContextFinalization => None
  end.

(** [Projection.read]: the rows after a cursor or at a key, by the key's bytes. *)
Definition read_rows (m : gmap string ProjectionRow) (cursor exact : option string) (limit : Z) : list ProjectionRecord :=
  (fun '(k, r) => {| pr_key := k; pr_row := r |}) <$>
  take (Z.to_nat limit)
    (List.filter (fun p => match cursor with Some c => string_ltb c p.1 | None => true end
                           && match exact with Some k => bool_decide (p.1 = k) | None => true end) (btree_iter m)).

(** [KernelResult]. *)
Inductive WireResult :=
| WHealth (ready sealed : bool)
| WStatus (sealed : bool) (watermark : option Z) (writer_epoch contract_version : Z) (public_revision : string)
| WWatermark (watermark : option Z)
| WSealedVerification (sealed : bool) (genesis_event_id : string) (genesis_watermark event_count : Z)
| WCommandApplied (command_id : string) (events : list event) (watermark : Z)
| WProjection (record : ProjectionRecord)
| WProjectionPage (records : list ProjectionRecord) (next_cursor : option string) (watermark : option Z)
    (served_at : option string)
| WEvents (events : list event) (cursor watermark : option Z)
| WSubscribed (cursor : option Z)
| WBlobBegun (upload_id : string)
| WBlobChunkAccepted (upload_id : string) (sequence : Z)
| WBlobCommitted (d : BlobDescriptor) (deduplicated : bool)
| WBlobAborted (upload_id : string)
| WBlobBytes (address : string) (offset : Z) (data_base64 : string)
| WBlobStat (d : BlobDescriptor)
| WPtyAttached (session_id generation : string) (rows cols : Z) (cursor : option Z)
| WPtyRawAttached (session_id generation : string) (rows cols : Z) (cursor : option Z)
| WPtySnapshot (session_id generation : string) (seq : Z) (frame : PtyFrame)
| WPtyPublished (session_id : string)
| WPtyRetired (session_id : string)
| WError (code : KernelErrorCode) (detail : Detail).

Definition refusal (c : KernelErrorCode) : WireResult := WError c NoDetail.

(** [Refusal::into_result], [PtyRefusal::into_result]. *)
Definition refused_command (r : Refusal) : WireResult :=
  WError (code r) (match detail r with Some d => CommandDetail d | None => NoDetail end).
Definition refused_pty (r : PtyRefusal) : WireResult :=
  WError (pr_code r) (match pr_detail r with Some d => PtyDetail d | None => NoDetail end).

(** The answer of a submission. *)
Definition submission_result (r : KernelResult (V := V)) : WireResult :=
  match r with
  | CommandApplied id events w => WCommandApplied id events w
  | KernelError r => refused_command r
  end.

(** [blob_refusal]. *)
Definition blob_refusal (e : BlobError) : WireResult :=
  refusal (match e with
           | NotFound => ENotFound
           | Tombstoned => EBlobTombstoned
           | DigestMismatch | Integrity => EBlobIntegrity
           | Pinned => EValidation
           | BlobStorage => EStorage
           end).
End Protocol.
Arguments KernelRequest V : clear implicits.
Arguments ClientControl V : clear implicits.
Arguments ControlShape V : clear implicits.
Arguments ProjectionRow {TZ} V. Arguments ProjectionRecord {TZ} V. Arguments WireResult {TZ} V.

(** ** Capability names have one spelling *)

Lemma capability_name_shape value name :
  capability_name value = Ok name ->
  name = value /\ (Str.len name <= CAPABILITY_NAME_MAX_BYTES)%Z /\ name <> "" /\
  forallb cap_byte (String.list_ascii_of_string name) = true.
Proof.
  unfold capability_name. destruct (String.list_ascii_of_string value) as [|h b] eqn:E; [done|].
  intros ([] & Hl%ensure_ok_iff & ([] & Hs%ensure_ok_iff & [= <-])%bind_ok_iff)%bind_ok_iff.
  unbool. rewrite E. split_and!; [done|lia|by intros ->|]. cbn. unfold cap_byte at 1. by match goal with H : Str.is_ascii_lower h = true |- _ => rewrite H end.
Qed.
