(* ===== verification/Hello.v ===== *)
(** * The handshake of a connection

    The first frame settles a session or is refused: the major version must be
    the served one, the minor is the smaller of both, the capabilities are those
    both sides have (wire/hello.rs).  Whether the frame came in time is an
    argument, the derived decoders of controls are parameters. *)

From S2P Require Import Prelude Text Command Wire Container Strict Protocol.

Definition OFFERED_CAPABILITIES : list string :=
  [PTY_RAW_CAPABILITY; PTY_INPUT_CAPABILITY; PTY_CONTROL_CAPABILITY; PTY_START_CAPABILITY].

Record Session := { ss_minor : Z; ss_capabilities : list string; ss_client : option string }.
Record Readiness := { rd_sealed : bool; rd_watermark : option Z }.

(** What the kernel says in a handshake. *)
Inductive HelloAnswer :=
| HelloAck (protocol_major : ProtocolVersion) (protocol_minor : Z) (capabilities : list string) (sealed : bool)
    (watermark : option Z)
| HelloRefusal (code : KernelErrorCode).

(** One turn of the loop of [intersect], and the loop. *)
Definition add_shared (out : list string) (name : string) : list string :=
  if bool_decide (name ∈ OFFERED_CAPABILITIES) && negb (bool_decide (name ∈ out)) then out ++ [name] else out.
Definition intersect (asked : list string) : list string := foldl add_shared [] asked.

Section Hello.
Context `{C : Clock} `{JR : JsonReader} {V : Type}.
(** The decoder serde derives for a control, and the JSON of an answer. *)
Context (shape_of : Value json_number -> option (ControlShape V)) (answer_json : HelloAnswer -> bytes).

Definition decode_control : bytes -> result WireError (ClientControl V) :=
  decode (fun v => shape_of v ≫= control_of).

(** The frame of a hello, judged. *)
Definition hello_of (frame : Frame) : result WireError Session :=
  _ ← ensure (bool_decide (f_kind frame = FkJson)) (wire_error EHandshake);
  control ← decode_control (f_body frame);
  match control with
  | CHello major minor capabilities client =>
      _ ← ensure (bool_decide (major = V1)) (wire_error EUnsupportedVersion);
      _ ← ensure (length capabilities <=? MAX_CAPABILITIES)%nat (wire_error ECapability);
      mret {| ss_minor := Z.min minor PROTOCOL_MINOR; ss_capabilities := intersect capabilities; ss_client := client |}
  | _ => Err (wire_error EHandshake)
  end.

(** [read_hello]; [in_time]: the frame was read before the deadline. *)
Definition read_hello (in_time : bool) (c : Conn) : option (result WireError (Session * Conn)) :=
  if negb in_time then Some (Err (wire_error EHandshake))
  else
    match read_frame HELLO_MAX_BYTES c with
    | None => None
    | Some (Err e) => Some (Err e)
    | Some (Ok (InClosed, _)) => Some (Err (wire_error EHandshake))
    | Some (Ok (InFrame frame, c)) => Some (s ← hello_of frame; mret (s, c))
    end.

Definition ack_of (s : Session) (r : Readiness) : HelloAnswer :=
  HelloAck V1 (ss_minor s) (ss_capabilities s) (rd_sealed r) (rd_watermark r).

(** [negotiate]: the outcome, and the answer that is sent; what becomes of a
    refusal's frame is ignored. *)
Definition negotiate (in_time : bool) (readiness : Readiness) (c : Conn)
  : option (result WireError (Session * Conn) * HelloAnswer) :=
  match read_hello in_time c with
  | None => None
  | Some (Err e) => Some (Err e, HelloRefusal (we_code e))
  | Some (Ok (s, c)) =>
      let ack := ack_of s readiness in
      match write_frame FkJson (answer_json ack) (c_budget c) (c_world c) with
      | None => None
      | Some (Err e) => Some (Err e, ack)
      | Some (Ok (_, b, w)) => Some (Ok (s, {| c_reader := c_reader c; c_budget := b; c_world := w |}), ack)
      end
  end.

(** ** The intersection *)

Lemma add_shared_spec out name x :
  x ∈ add_shared out name <-> x ∈ out \/ x = name /\ x ∈ OFFERED_CAPABILITIES.
Proof.
  unfold add_shared. destruct (_ && _) eqn:E; [unbool; set_solver|].
  apply andb_false_iff in E as [E|E]; unbool; set_solver.
Qed.

Lemma intersect_from out asked x :
  x ∈ foldl add_shared out asked <-> x ∈ out \/ x ∈ asked /\ x ∈ OFFERED_CAPABILITIES.
Proof.
  revert out. induction asked as [|n asked IH]; intros out; cbn [foldl]; [set_solver|].
  rewrite IH, add_shared_spec. set_solver.
Qed.

Lemma add_shared_nodup out name : NoDup out -> NoDup (add_shared out name).
Proof.
  intros H. unfold add_shared. destruct (_ && _) eqn:E; [|done]. unbool. apply NoDup_app. split_and!; [done| |apply NoDup_singleton].
  set_solver.
Qed.

Lemma intersect_from_nodup out asked : NoDup out -> NoDup (foldl add_shared out asked).
Proof. revert out. induction asked; intros out H; cbn; [done|]. by apply IHasked, add_shared_nodup. Qed.

Lemma intersect_from_sublist out asked pre : out `sublist_of` pre -> foldl add_shared out asked `sublist_of` pre ++ asked.
Proof.
  revert out pre. induction asked as [|n asked IH]; intros out pre H; cbn; [by rewrite app_nil_r|].
  rewrite cons_middle, app_assoc. apply IH. unfold add_shared. destruct (_ && _).
  - by apply sublist_app.
  - by apply sublist_inserts_r.
Qed.

(** A name is shared when it was asked for and is offered, once, in the client's
    order. *)
Lemma intersect_spec asked :
  (forall x, x ∈ intersect asked <-> x ∈ asked /\ x ∈ OFFERED_CAPABILITIES) /\
  NoDup (intersect asked) /\ intersect asked `sublist_of` asked.
Proof.
  unfold intersect. split_and!.
  - intros x. rewrite intersect_from. set_solver.
  - apply intersect_from_nodup. constructor.
  - apply (intersect_from_sublist [] asked []). constructor.
Qed.

(** ** The outcome *)

(** The hello a session was settled from. *)
Definition settled_by (frame : Frame) (s : Session) : Prop :=
  exists minor names client,
    f_kind frame = FkJson /\ decode_control (f_body frame) = Ok (CHello V1 minor names client) /\
    (length names <= MAX_CAPABILITIES)%nat /\ ss_client s = client /\
    ss_minor s = Z.min minor PROTOCOL_MINOR /\
    (forall x, x ∈ ss_capabilities s <-> x ∈ names /\ x ∈ OFFERED_CAPABILITIES) /\
    NoDup (ss_capabilities s) /\ ss_capabilities s `sublist_of` names.

Lemma hello_settled frame s : hello_of frame = Ok s -> settled_by frame s.
Proof.
  unfold hello_of. intros ([] & Hk%ensure_ok_iff & (control & Hc & H)%bind_ok_iff)%bind_ok_iff.
  destruct control as [major minor names client| | | |]; try done.
  apply bind_ok_iff in H as ([] & Hv%ensure_ok_iff & ([] & Hl%ensure_ok_iff & [= <-])%bind_ok_iff). unbool. subst.
  apply Nat.leb_le in Hl. exists minor, names, client. cbn. split_and!; try done; apply intersect_spec.
Qed.

(** What a whole frame is refused for. *)
Inductive hello_fault (frame : Frame) : WireError -> Prop :=
| fault_kind : f_kind frame <> FkJson -> hello_fault frame (wire_error EHandshake)
| fault_decode e : f_kind frame = FkJson -> decode_control (f_body frame) = Err e -> hello_fault frame e
| fault_other control :
    f_kind frame = FkJson -> decode_control (f_body frame) = Ok control ->
    (forall major minor names client, control <> CHello major minor names client) ->
    hello_fault frame (wire_error EHandshake)
| fault_major major minor names client :
    f_kind frame = FkJson -> decode_control (f_body frame) = Ok (CHello major minor names client) ->
    major <> V1 -> hello_fault frame (wire_error EUnsupportedVersion)
| fault_names minor names client :
    f_kind frame = FkJson -> decode_control (f_body frame) = Ok (CHello V1 minor names client) ->
    (MAX_CAPABILITIES < length names)%nat -> hello_fault frame (wire_error ECapability).

(** What a handshake is refused for: the deadline, the end of the stream, bytes
    that are no frame, or the frame. *)
Inductive refused_for (in_time : bool) (c : Conn) : WireError -> Prop :=
| refused_late : in_time = false -> refused_for in_time c (wire_error EHandshake)
| refused_closed : rd_bytes (c_reader c) = [] -> refused_for in_time c (wire_error EHandshake)
| refused_read e : read_frame HELLO_MAX_BYTES c = Some (Err e) -> refused_for in_time c e
| refused_frame frame rest e :
    rd_bytes (c_reader c) = frame_bytes frame ++ rest -> hello_fault frame e -> refused_for in_time c e.

Lemma hello_refused frame e : hello_of frame = Err e -> hello_fault frame e.
Proof.
  unfold hello_of. destruct (bool_decide_reflect (f_kind frame = FkJson)) as [Hk|Hk]; cbn;
    [|intros [= <-]; by apply fault_kind].
  destruct (decode_control (f_body frame)) as [control|e'] eqn:Ed; cbn; [|intros [= <-]; by apply fault_decode].
  destruct control as [major minor names client| | | |];
    try (intros [= <-]; by eapply fault_other).
  destruct (bool_decide_reflect (major = V1)) as [->|Hv]; cbn; [|intros [= <-]; by eapply fault_major].
  destruct (length names <=? MAX_CAPABILITIES)%nat eqn:El; cbn; [done|]. intros [= <-].
  apply Nat.leb_gt in El. by eapply fault_names.
Qed.

Lemma hello_fault_fatal frame e : hello_fault frame e -> we_fatal e = true.
Proof. destruct 1 as [|e _ Hd| | |]; try done. by apply decode_codes in Hd as [->|[->| ->]]. Qed.

Lemma write_frame_fatal kind body b w e : write_frame kind body b w = Some (Err e) -> we_fatal e = true.
Proof.
  unfold write_frame. intros Ew.
  repeat match type of Ew with context [if ?b then _ else _] => destruct b end; simplify_eq; try done.
  destruct (spend _ _ _ _) as [[[]|]|] eqn:Es; try done. simplify_eq. unfold spend in Es.
  destruct (_ <? _)%Z; [by simplify_eq|]. by destruct (spend_loop _ _ _ _ _).
Qed.

Lemma write_frame_returns kind body b w : budget_ok b w -> write_frame kind body b w <> None.
Proof.
  intros Hok Ew. unfold write_frame in Ew.
  repeat match type of Ew with context [if ?b then _ else _] => destruct b eqn:?; [done|] end.
  destruct (spend_runs (FRAME_LENGTH_PREFIX_BYTES + (Z.of_nat (length body) + 1)) Egress b w)
    as [[_ Hs]|(b' & w' & _ & Hs & _)];
    [done|unfold FRAME_LENGTH_PREFIX_BYTES; lia| |]; by rewrite Hs in Ew.
Qed.

(** C17: A handshake on any bytes ends.  It settles a session only on one
    whole JSON frame within the hello's size, in time, at the major served here,
    at the lower of the two minors and with the names both sides have, and the
    answer says so.  Otherwise the answer is a refusal with the code the
    connection ends with, and that code is the one its cause has: the deadline,
    the end of the stream, bytes that are no frame, a frame that is no hello,
    another major, too many names.  (The acknowledgement of a settled session
    may fail to be written.) *)
Theorem handshake_settles_or_refuses in_time readiness c :
  budget_ok (c_budget c) (c_world c) ->
  Forall (fun b => 0 <= b < 256)%Z (rd_bytes (c_reader c)) ->
  exists outcome said, negotiate in_time readiness c = Some (outcome, said) /\
  let acknowledges s frame rest :=
    in_time = true /\ rd_bytes (c_reader c) = frame_bytes frame ++ rest /\
    (Z.of_nat (length (f_body frame)) + 1 <= HELLO_MAX_BYTES)%Z /\ settled_by frame s /\
    said = HelloAck V1 (ss_minor s) (ss_capabilities s) (rd_sealed readiness) (rd_watermark readiness) in
  match outcome with
  | Ok (s, c') => exists frame, acknowledges s frame (rd_bytes (c_reader c'))
  | Err e =>
      we_fatal e = true /\
      ((said = HelloRefusal (we_code e) /\ refused_for in_time c e) \/
       exists s frame rest b w, acknowledges s frame rest /\ write_frame FkJson (answer_json said) b w = Some (Err e))
  end.
Proof.
  intros Hok Hby. unfold negotiate, read_hello.
  destruct in_time; cbn [negb].
  2: { eexists _, _. split; [done|]. split; [done|]. left. split; [done|]. by apply refused_late. }
  destruct (read_frame_exact HELLO_MAX_BYTES c Hok Hby) as (r & Hread & Hr). rewrite Hread.
  destruct r as [[[frame|] c1]|e]; cbn in Hr.
  - destruct Hr as (Hbytes & Hfit & Hc). unfold fits_frame in Hfit. destruct (hello_of frame) as [s|e] eqn:Eh; cbn.
    + apply hello_settled in Eh. destruct (write_frame FkJson _ _ _) as [[[[out b] w]|e]|] eqn:Ew.
      * eexists _, _. split; [done|]. cbn. exists frame. split_and!; try done.
      * eexists _, _. split; [done|]. cbn. split; [by eapply write_frame_fatal|]. right.
        exists s, frame, (rd_bytes (c_reader c1)), (c_budget c1), (c_world c1). split; [|done]. split_and!; try done.
      * exfalso. eapply write_frame_returns; [|exact Ew]. by apply Hc.
    + apply hello_refused in Eh. eexists _, _. split; [done|]. split; [by eapply hello_fault_fatal|]. left.
      split; [done|]. eapply refused_frame; [exact Hbytes|exact Eh].
  - eexists _, _. split; [done|]. split; [done|]. left. split; [done|]. apply refused_closed. apply Hr.
  - destruct Hr as [Hf _]. eexists _, _. split; [done|]. split; [done|]. left. split; [done|]. by apply refused_read.
Qed.

End Hello.
