(* ===== verification/Dispatch.v ===== *)
(** * Answering a request

    The dispatch of a connection's requests as programs over the shared state:
    [Do] performs one access that is atomic in the code (a statement, a
    transaction, a call under the registry's lock, a call on the blob store) and
    goes on with its answer.  What the accesses do, and what others may do
    between them, is in [Serve].  The definitions follow wire/serve.rs
    (try_answer and what it calls) and wire/receipts.rs. *)

From S2P Require Import Prelude Text Envelope Command Tables Db Store Project Authority Submit Screen Hub Attempts Wire Outbound Container Ordered Blobs Protocol Hello.

Definition DEFAULT_PAGE_ROWS : Z := 256.
Definition RETRIES : nat := 3.
Definition TTL_SWEEP_PREFIX : string := "ttl_sweep:".

(** The standard base64 of the base64 crate. *)
Class Base64 := { b64_encode : bytes -> string; b64_decode : string -> option bytes }.

(** What a page item is on the wire: whether its JSON is a record of the contract,
    and its size. *)
Class PageJson {TZ : Timestamptz} (V : Type) := {
  contract_record : ProjectionRecord V -> bool;
  record_len : ProjectionRecord V -> option Z;
  event_len : EventEnvelope V -> option Z;
}.

(** ** Accesses and programs *)

Section Acts.
Context `{TZ : Timestamptz} {V : Type}.
Notation envelope := (CommandEnvelope V).
Notation event := (EventEnvelope V).

Inductive Act : Type -> Type :=
(* the database *)
| ActEpoch : Act (result Refusal Epoch)
| ActWatermark : Act (option Z)
| ActSubmit (env : envelope) (carrier : option PtyInputCarrier) : Act (KernelResult (V := V))
| ActReadFrom (cursor : option Z) (limit : Z) : Act (list event)
| ActGenesis : Act (option (string * Z))
| ActCount : Act Z
| ActRows (k : ProjectionKind) (cursor exact : option string) (limit : Z) : Act (option (list (ProjectionRecord V)))
| ActNow : Act instant
| ActPtyVersion (id : string) : Act (option Z)
(* the registry of sessions *)
| ActSnapshot (id : string) : Act (result PtyRefusal (string * Z * PtyFrame))
| ActPublishSnapshot (conn : Z) (id : string) (seq : option Z) (frame : PtyFrame) : Act (result PtyRefusal (option string))
| ActPublishDeltas (conn : Z) (id : string) (seq : Z) (deltas : list PtyDelta) : Act (result PtyRefusal unit)
| ActPublishRawSnapshot (conn : Z) (id : string) (seq : option Z) (rows cols : Z) (bytes : string)
    : Act (result PtyRefusal unit)
| ActPublishRawOutput (conn : Z) (id : string) (seq : Z) (bytes : string) : Act (result PtyRefusal unit)
| ActPublishRawResize (conn : Z) (id : string) (seq rows cols : Z) : Act (result PtyRefusal unit)
| ActRetire (conn : Z) (id : string) : Act (result PtyRefusal string)
| ActAttach (id : string) (generation : option string) (cursor : option Z) : Act (result PtyRefusal Attached)
| ActAttachRaw (id : string) (generation : option string) (cursor : option Z) : Act (result PtyRefusal RawAttached)
| ActConnection : Act Z
| ActRegister (conn : Z) (input control start : bool) : Act unit
| ActDisconnect (conn : Z) : Act DisconnectOutcome
| ActAbandonOrphan (delivery_id claim_token : string) : Act unit
(* the connection's own streams *)
| ActStreams : Act (list (StreamTask (V := V)))
(* a delivery: claim its row, send and wait, release or abandon the claim *)
| ActPending (delivery_id : string) : Act bool
| ActClaim (key : string * string) : Act (string * ClaimAnswer)
| ActSend (claim_token : string) (control : Hub.ServerControl) : Act (result PtyRefusal unit)
| ActAwait (claim_token : string) : Act (result PtyRefusal unit)
| ActRelease (claim_token : string) : Act unit
| ActAbandon (claim_token : string) : Act unit
(* an acknowledgement *)
| ActAckClaim (conn : Z) (delivery_id : string) (result_ : PtyDeliveryResult) (answer : result PtyRefusal unit)
    : Act (result PtyRefusal string)
| ActSettle (conn : Z) (delivery_id claim_token : string) (result_ : PtyDeliveryResult) (answer : result PtyRefusal unit)
    : Act bool
| ActTakeAck (conn : Z) (delivery_id claim_token : string) (result_ : PtyDeliveryResult) (answer : result PtyRefusal unit)
    : Act (result PtyRefusal unit)
| ActReconcile (delivery_id : string) (result_ : PtyDeliveryResult) : Act bool
(* the blob store *)
| ActBlob (t : BlobTask) : Act BlobAnswer.

Inductive prog (A : Type) : Type :=
| Ret (a : A)
| Do {B : Type} (e : Act B) (k : B -> prog A).
Arguments Ret {A}. Arguments Do {A B}.

Fixpoint prog_bind {A C} (p : prog A) (f : A -> prog C) : prog C :=
  match p with
  | Ret a => f a
  | Do e k => Do e (fun b => prog_bind (k b) f)
  end.

Definition perform {B} (e : Act B) : prog B := Do e Ret.

(** Every access of a program, whatever the answers are, is as [P] says. *)
Fixpoint within {A} (P : forall B, Act B -> Prop) (p : prog A) : Prop :=
  match p with
  | Ret _ => True
  | Do e k => P _ e /\ forall b, within P (k b)
  end.

Lemma within_bind {A C} P (p : prog A) (f : A -> prog C) :
  within P p -> (forall a, within P (f a)) -> within P (prog_bind p f).
Proof. induction p as [a|B e k IH]; cbn; [auto|]. intros [He Hk] Hf. split; [done|]. intros b. by apply IH. Qed.

Lemma within_mono {A} (P Q : forall B, Act B -> Prop) (p : prog A) :
  (forall B (e : Act B), P B e -> Q B e) -> within P p -> within Q p.
Proof. intros HPQ. induction p as [a|B e k IH]; cbn; [done|]. intros [He Hk]. split; [by apply HPQ|]. intros b. by apply IH. Qed.

(** The answers [p] can come to where each access answers as [R] says. *)
Fixpoint may {A} (R : forall B, Act B -> B -> Prop) (p : prog A) (a : A) : Prop :=
  match p with
  | Ret x => x = a
  | Do e k => exists b, R _ e b /\ may R (k b) a
  end.

Lemma may_bind {A C} R (p : prog A) (f : A -> prog C) c :
  may R (prog_bind p f) c <-> exists a, may R p a /\ may R (f a) c.
Proof.
  induction p as [a|B e k IH]; cbn; [naive_solver|]. split.
  - intros (b & Hb & (a & Ha & Hx)%IH). eauto.
  - intros (a & (b & Hb & Ha) & Hx). exists b. split; [done|]. apply IH. eauto.
Qed.
End Acts.
Arguments prog {TZ} V A. Arguments Act {TZ} V _. Arguments Ret {TZ V A}. Arguments Do {TZ V A B}.

Notation "x <~ p ; q" := (prog_bind p (fun x => q)) (at level 20, p at level 100, q at level 200, right associativity).
(** [?] on an answer that may be a configuration error. *)
Notation "x <~! p ; q" := (prog_bind p (fun r => match r with Err e => Ret (Err e) | Ok x => q end))
  (at level 20, p at level 100, q at level 200, right associativity).

(** One goal for each access of a program. *)
Ltac each_access :=
  repeat match goal with
  | |- within _ (prog_bind _ _) => apply within_bind; [|intros]
  | |- within _ (perform _) => split; [|done]
  | |- within _ (Ret _) => exact I
  | |- within _ (match ?x with _ => _ end) => destruct x eqn:?
  end.

Section Dispatch.
Context `{TZ : Timestamptz} {V : Type} `{SD : Serde V} `{B64 : Base64} `{PGJ : !PageJson V}.
Notation envelope := (CommandEnvelope V).
Notation event := (EventEnvelope V).
Notation command := (KernelCommand V).
Notation answer_t := (WireResult V * option AdmittedStream)%type.
(** [Daemon]: the revision it was built from and its writer epoch. *)
Context (public_revision : string) (writer_epoch : Z).

(** ** Reads *)

(** [readiness]. *)
Definition readiness : prog V (result unit Readiness) :=
  ep <~ perform ActEpoch;
  match ep with
  | Err _ => Ret (Err tt)
  | Ok ep =>
      w <~ perform ActWatermark;
      Ret (Ok {| rd_sealed := bool_decide (ep = EpochSealed); rd_watermark := w |})
  end.

(** [verify_sealed]. *)
Definition verify_sealed (sealed : bool) : prog V (result unit (WireResult V)) :=
  genesis <~ perform ActGenesis;
  match genesis with
  | None => Ret (Err tt)
  | Some (id, seq) => count <~ perform ActCount; Ret (Ok (WSealedVerification sealed id seq (Z.max count 0)))
  end.

(** [projection_page]. *)
Definition projection_page (k : ProjectionKind) (cursor exact : option string) (rows : Z)
  : prog V (result unit (list (ProjectionRecord V) * bool)) :=
  raw <~ perform (ActRows k cursor exact rows);
  Ret (match raw with
       | None => Err tt
       | Some records =>
           if forallb contract_record records then ok_or (fit_page record_len records) tt else Err tt
       end).

(** [unserved_projection]. *)
Definition unserved_projection (k : ProjectionKind) : option (WireResult V) :=
  if served_in_v1 k then None else Some (refusal EUnsupportedVersion).

(** [cursor_key]: the JSON of a record has the column it was read by. *)
Definition cursor_key (r : ProjectionRecord V) : string := pr_key r.

Definition get_projection (k : ProjectionKind) (id : string) : prog V (result unit (WireResult V)) :=
  match unserved_projection k with
  | Some r => Ret (Ok r)
  | None =>
      page <~! projection_page k None (Some id) 1;
      Ret (Ok (match last page.1 with Some r => WProjection r | None => refusal ENotFound end))
  end.

(** The rows of a page: the limit, or the default, clamped. *)
Definition page_rows (limit : option Z) : Z := Z.max 1 (Z.min (default DEFAULT_PAGE_ROWS limit) MAX_READ_LIMIT).

Definition next_cursor (records : list (ProjectionRecord V)) (cut : bool) (rows : Z) : option string :=
  if negb cut && (Z.of_nat (length records) <? rows)%Z then None else cursor_key <$> last records.

Definition list_projection (k : ProjectionKind) (cursor : option string) (limit : option Z)
  : prog V (result unit (WireResult V)) :=
  match unserved_projection k with
  | Some r => Ret (Ok r)
  | None =>
      ready <~! readiness;
      page <~! projection_page k cursor None (page_rows limit);
      now <~ perform ActNow;
      Ret (Ok (WProjectionPage page.1 (next_cursor page.1 page.2 (page_rows limit)) (rd_watermark ready)
                 (Some (ts_json now))))
  end.

Definition read_events (cursor : option Z) (limit : Z) : prog V (result unit (WireResult V)) :=
  ready <~! readiness;
  events <~ perform (ActReadFrom cursor limit);
  Ret (match fit_page event_len events with
       | None => Err tt
       | Some (events, _) => Ok (WEvents events (global_sequence <$> last events) (rd_watermark ready))
       end).

(** ** Receipts of the PTY lifecycle *)

(** [receipts::submit]: whether the receipt is settled. *)
Definition receipt_envelope (key issued_at : string) (c : command) : envelope := {|
  ce_command_id := "cmd-" +:+ key; ce_project_id := SYSTEM_PROJECT; ce_command_type := command_type c;
  ce_schema_version := ENVELOPE_SCHEMA_VERSION; ce_issued_at := issued_at;
  ce_actor := {| actor_kind := "kernel"; actor_id := None |};
  ce_origin := {| origin_system := "kernel"; origin_ref := None |};
  ce_target_aggregate_type := None; ce_target_aggregate_id := None; ce_expected_version := None;
  ce_idempotency_key := key; ce_causation_id := None; ce_correlation_id := None; ce_payload := to_value c |}.

Definition submit_receipt (key : string) (c : command) : prog V bool :=
  now <~ perform ActNow;
  r <~ perform (ActSubmit (receipt_envelope key (ts_json now) c) None);
  Ret (match r with
       | CommandApplied _ _ _ => true
       | KernelError r => negb (bool_decide (code r = EStaleVersion))
       end).

(** [versioned]. *)
Fixpoint versioned (rounds : nat) (id key : string) (build : Z -> command) : prog V unit :=
  match rounds with
  | O => Ret tt
  | S rounds =>
      version <~ perform (ActPtyVersion id);
      match version with
      | None => versioned rounds id key build
      | Some v =>
          if bool_decide (is_u32 v) then
            settled <~ submit_receipt key (build v);
            if settled : bool then Ret tt else versioned rounds id key build
          else Ret tt
      end
  end.

Definition receipt_opened (id generation : string) : prog V unit :=
  _ <~ submit_receipt ("pty-open:" +:+ id +:+ ":" +:+ generation)
         (OpenPtySession (pty_session_lifetime_id id generation) generation None None);
  Ret tt.

Definition receipt_closed (id generation : string) (hangup : bool) : prog V unit :=
  let row := pty_session_lifetime_id id generation in
  versioned RETRIES row ("pty-close:" +:+ id +:+ ":" +:+ generation +:+ (if hangup then ":hangup" else ""))
    (fun v => ClosePtySession row v).

Definition stream_key (verb id generation : string) (conn : Z) (request_id : string) : string :=
  verb +:+ id +:+ ":" +:+ generation +:+ ":" +:+ Numeric.to_numeric_text conn +:+ ":" +:+ request_id.

Definition receipt_attached (id generation : string) (conn : Z) (request_id : string) : prog V unit :=
  let row := pty_session_lifetime_id id generation in
  versioned RETRIES row (stream_key "pty-attach:" id generation conn request_id) (fun v => RecordPtyAttach row v).

(** [DetachReceipt::emit]. *)
Definition receipt_detached (id generation : string) (conn : Z) (request_id : string) : prog V unit :=
  let row := pty_session_lifetime_id id generation in
  versioned RETRIES row (stream_key "pty-detach:" id generation conn request_id) (fun v => RecordPtyDetach row v).

(** ** Deliveries *)

Definition committed (c : KernelErrorCode) (env : envelope) : WireResult V :=
  WError c (CommittedDetail (Some (ce_command_id env))).

(** [delivery_id] of a submission. *)
Definition delivery_id (r : KernelResult (V := V)) : option string :=
  match r with CommandApplied _ events _ => event_id <$> head events | KernelError _ => None end.

(** [deliver_submission], behind the match on an applied command with a delivery
    id. *)
Definition deliver_submission (env : envelope) (submission : KernelResult (V := V)) (delivery_id : string)
    (control : Hub.ServerControl) : prog V (WireResult V) :=
  pending <~ perform (ActPending delivery_id);
  if pending : bool then Ret (committed EOverloaded env)
  else
    claim <~ perform (ActClaim (ce_project_id env, ce_idempotency_key env));
    match claim with
    | (token, Claimed) =>
        sent <~ perform (ActSend token control);
        r <~ match sent with
             | Ok _ => perform (ActAwait token)
             | Err e => Ret (Err e)
             end;
        match r with
        | Ok _ => Ret (submission_result submission)
        | Err e =>
            if pr_indeterminate e then _ <~ perform (ActAbandon token); Ret (committed (pr_code e) env)
            else _ <~ perform (ActRelease token); Ret (committed (pr_code e) env)
        end
    | (_, answer) =>
        Ret (match claim_refusal answer with
             | None => submission_result submission
             | Some c => committed c env
             end)
    end.

(** What [send_pty_control] and [send_pty_start] do with a decoded command. *)
Definition submit_and_deliver (env : envelope) (control : string -> Hub.ServerControl) : prog V (WireResult V) :=
  r <~ perform (ActSubmit env None);
  match delivery_id r with
  | None => Ret (submission_result r)
  | Some d => deliver_submission env r d (control d)
  end.

Inductive ControlKind := Resize | Stop.

(** [send_pty_control]. *)
Definition send_pty_control (env : envelope) (kind : ControlKind) : prog V (WireResult V) :=
  match kind, from_envelope env with
  | Resize, Ok (ResizePtySession id generation cols rows) =>
      submit_and_deliver env (fun d => PtyResize d (ce_command_id env) id generation cols rows)
  | Stop, Ok (StopPtySession id generation) =>
      submit_and_deliver env (fun d => PtyStop d (ce_command_id env) id generation)
  | _, Ok _ => Ret (refusal EValidation)
  | _, Err _ => Ret (refusal EValidation)
  end.

(** [send_pty_start]. *)
Definition send_pty_start (env : envelope) : prog V (WireResult V) :=
  match from_envelope env with
  | Ok (RequestPtySessionStart template_name id) =>
      submit_and_deliver env (fun d => PtyStart d (ce_command_id env) template_name id)
  | _ => Ret (refusal EValidation)
  end.

(** The decoded carrier of an input batch. *)
Definition decode_input (data_base64 : string) : option bytes :=
  if (PTY_INPUT_MAX_BASE64_BYTES <? Str.len data_base64)%Z then None else b64_decode data_base64.

(** The bytes as the text the carrier of [Submit] holds. *)
Definition carrier_text (l : bytes) : string := foldr (fun b s => String (Ascii.ascii_of_N (Z.to_N b)) s) EmptyString l.

(** [send_pty_input]. *)
Definition send_pty_input (env : envelope) (data_base64 : string) : prog V (WireResult V) :=
  match from_envelope env with
  | Ok (SendPtyInput id generation byte_count) =>
      let decoded := decode_input data_base64 in
      r <~ perform (ActSubmit env (Some (match decoded with Some l => CarrierBytes (carrier_text l) | None => CarrierInvalid end)));
      match r, decoded, delivery_id r with
      | KernelError _, _, _ => Ret (submission_result r)
      | _, None, _ => Ret (WError EStorage (CommittedDetail None))
      | _, _, None => Ret (committed EStorage env)
      | _, Some l, Some d =>
          deliver_submission env r d (PtyInput d (ce_command_id env) id generation byte_count (b64_encode l))
      end
  | _ => Ret (refusal EValidation)
  end.

(** ** Blobs *)

Definition blob_chunk (upload_id : string) (sequence : Z) (data_base64 : string) : prog V (WireResult V) :=
  match b64_decode data_base64 with
  | None => Ret (refusal EValidation)
  | Some chunk =>
      if (BLOB_CHUNK_BYTES <? zlen chunk)%Z then Ret (refusal EValidation)
      else
        a <~ perform (ActBlob (TWrite upload_id sequence chunk));
        Ret (match a with
             | Written => WBlobChunkAccepted upload_id sequence
             | BlobRefused e => blob_refusal e
             | _ => refusal EStorage
             end)
  end.

Definition answer_blob (q : KernelRequest V) : prog V (WireResult V) :=
  match q with
  | QBlobBegin media_type byte_size =>
      a <~ perform (ActBlob (TBegin media_type byte_size));
      Ret (match a with Began id => WBlobBegun id | BlobRefused e => blob_refusal e | _ => refusal EStorage end)
  | QBlobChunk upload_id sequence data_base64 => blob_chunk upload_id sequence data_base64
  | QBlobCommit upload_id address =>
      a <~ perform (ActBlob (TCommit upload_id address));
      Ret (match a with
           | Committed d deduped => WBlobCommitted d deduped
           | BlobRefused e => blob_refusal e
           | _ => refusal EStorage
           end)
  | QBlobAbort upload_id =>
      a <~ perform (ActBlob (TAbort upload_id));
      Ret (match a with Aborted => WBlobAborted upload_id | BlobRefused e => blob_refusal e | _ => refusal EStorage end)
  | QBlobRead address offset length_ =>
      a <~ perform (ActBlob (TRead address offset (Z.min length_ BLOB_CHUNK_BYTES)));
      Ret (match a with
           | ReadBytes l => WBlobBytes address offset (b64_encode l)
           | BlobRefused e => blob_refusal e
           | _ => refusal EStorage
           end)
  | QBlobStat address =>
      a <~ perform (ActBlob (TStat address));
      Ret (match a with
           | Described (Some d) => WBlobStat d
           | Described None => refusal ENotFound
           | BlobRefused e => blob_refusal e
           | _ => refusal EStorage
           end)
  | _ => Ret (refusal EStorage)
  end.

(** ** The registry *)

Record Capabilities := { cap_raw : bool; cap_input : bool; cap_control : bool }.

Definition published (id : string) (r : result PtyRefusal unit) : WireResult V :=
  match r with Ok _ => WPtyPublished id | Err e => refused_pty e end.

(** [Subscriptions::admit], [admit_pty], [admit_raw]; the attach comes after the checks. *)
Definition admit_subscription (request_id : string) (cursor : option Z) : prog V answer_t :=
  streams <~ perform ActStreams;
  Ret (if full streams then (refusal EOverloaded, None) else (WSubscribed cursor, Some (AEvents request_id cursor))).

Definition attach_pty (conn : Z) (request_id id : string) (generation : option string) (cursor : option Z)
  : prog V answer_t :=
  streams <~ perform ActStreams;
  if full streams then Ret (refusal EOverloaded, None)
  else
    r <~ perform (ActAttach id generation cursor);
    match r with
    | Err e => Ret (refused_pty e, None)
    | Ok a =>
        _ <~ receipt_attached id (at_generation a) conn request_id;
        Ret (WPtyAttached id (at_generation a) (at_rows a) (at_cols a) (at_cursor a), Some (APty request_id id a))
    end.

Definition attach_raw_pty (raw_enabled : bool) (conn : Z) (request_id id : string) (generation : option string)
    (cursor : option Z) : prog V answer_t :=
  if negb raw_enabled then Ret (refusal ECapability, None)
  else
    streams <~ perform ActStreams;
    if full streams then Ret (refusal EOverloaded, None)
    else
      r <~ perform (ActAttachRaw id generation cursor);
      match r with
      | Err e => Ret (refused_pty e, None)
      | Ok a =>
          _ <~ receipt_attached id (ra_generation a) conn request_id;
          Ret (WPtyRawAttached id (ra_generation a) (ra_rows a) (ra_cols a) (ra_cursor a), Some (APtyRaw request_id a))
      end.

Definition answer_pty (conn : Z) (caps : Capabilities) (q : KernelRequest V) : prog V (WireResult V) :=
  match q with
  | QPtySnapshot id =>
      r <~ perform (ActSnapshot id);
      Ret (match r with
           | Ok (generation, seq, frame) => WPtySnapshot id generation seq frame
           | Err e => refused_pty e
           end)
  | QPtyPublishSnapshot id seq frame =>
      r <~ perform (ActPublishSnapshot conn id seq frame);
      match r with
      | Ok opened =>
          _ <~ match opened with Some generation => receipt_opened id generation | None => Ret tt end;
          Ret (WPtyPublished id)
      | Err e => Ret (refused_pty e)
      end
  | QPtyPublishDeltas id seq deltas =>
      r <~ perform (ActPublishDeltas conn id seq deltas); Ret (published id r)
  | QPtyPublishRawResize id seq rows cols =>
      if negb (cap_raw caps) then Ret (refusal ECapability)
      else r <~ perform (ActPublishRawResize conn id seq rows cols); Ret (published id r)
  | QPtyRetire id =>
      r <~ perform (ActRetire conn id);
      match r with
      | Ok generation => _ <~ receipt_closed id generation false; Ret (WPtyRetired id)
      | Err e => Ret (refused_pty e)
      end
  | _ => Ret (refusal EStorage)
  end.

(** ** The dispatch *)

(** The commands whose requests check capabilities and deliver. *)
Definition dedicated (c : command) : bool :=
  match c with
  | ResizePtySession _ _ _ _ | StopPtySession _ _ | RequestPtySessionStart _ _ => true
  | _ => false
  end.

Definition submit_command (env : envelope) : prog V (WireResult V) :=
  if Str.starts_with TTL_SWEEP_PREFIX (ce_idempotency_key env) then Ret (refusal EValidation)
  else
    match from_envelope env with
    | Ok c => if dedicated c then Ret (refusal EValidation)
              else r <~ perform (ActSubmit env None); Ret (submission_result r)
    | Err _ => r <~ perform (ActSubmit env None); Ret (submission_result r)
    end.

Definition plainly (p : prog V (WireResult V)) : prog V (result unit answer_t) := r <~ p; Ret (Ok (r, None)).
Definition fallibly (p : prog V (result unit (WireResult V))) : prog V (result unit answer_t) :=
  r <~! p; Ret (Ok (r, None)).

(** [try_answer]: the result, and the stream it admitted. *)
Definition try_answer (conn : Z) (caps : Capabilities) (request_id : string) (q : KernelRequest V)
  : prog V (result unit answer_t) :=
  match q with
  | QHealth => fallibly (ready <~! readiness; Ret (Ok (WHealth true (rd_sealed ready))))
  | QStatus =>
      fallibly (ready <~! readiness;
                Ret (Ok (WStatus (rd_sealed ready) (rd_watermark ready) writer_epoch CONTRACT_VERSION public_revision)))
  | QWatermark => fallibly (ready <~! readiness; Ret (Ok (WWatermark (rd_watermark ready))))
  | QVerifySealed => fallibly (ready <~! readiness; verify_sealed (rd_sealed ready))
  | QSubmitCommand env => plainly (submit_command env)
  | QSendPtyInput env data_base64 =>
      plainly (if negb (cap_input caps) then Ret (refusal ECapability) else send_pty_input env data_base64)
  | QResizePtySession env =>
      plainly (if negb (cap_control caps) then Ret (refusal ECapability) else send_pty_control env Resize)
  | QStopPtySession env =>
      plainly (if negb (cap_control caps) then Ret (refusal ECapability) else send_pty_control env Stop)
  | QStartPtySession env => plainly (send_pty_start env)
  | QGetProjection k id => fallibly (get_projection k id)
  | QListProjection k cursor limit => fallibly (list_projection k cursor limit)
  | QReadEvents cursor limit => fallibly (read_events cursor limit)
  | QSubscribeEvents cursor => r <~ admit_subscription request_id cursor; Ret (Ok r)
  | QBlobBegin _ _ | QBlobChunk _ _ _ | QBlobCommit _ _ | QBlobAbort _ | QBlobRead _ _ _ | QBlobStat _ =>
      plainly (answer_blob q)
  | QPtyAttach id generation cursor => r <~ attach_pty conn request_id id generation cursor; Ret (Ok r)
  | QPtyRawAttach id generation cursor =>
      r <~ attach_raw_pty (cap_raw caps) conn request_id id generation cursor; Ret (Ok r)
  | QPtySnapshot _ | QPtyPublishSnapshot _ _ _ | QPtyPublishDeltas _ _ _ | QPtyPublishRawResize _ _ _ _
  | QPtyRetire _ => plainly (answer_pty conn caps q)
  end.

(** [answer]: a configuration error is a refusal too. *)
Definition answer_request (conn : Z) (caps : Capabilities) (request_id : string) (q : KernelRequest V) : prog V answer_t :=
  r <~ try_answer conn caps request_id q;
  Ret (match r with Ok a => a | Err _ => (refusal EStorage, None) end).
End Dispatch.
