(* ===== verification/Inbound.v ===== *)
(** * The inbound half of a connection

    [read_requests] reads frame after frame, hands each to [handle_frame] and
    queues one answer per request; a raw publish is a header and the payload
    frame behind it (wire/serve.rs).  Whether a payload came before its deadline
    and whether the writer is still there are arguments, by the number of frames
    read. *)

From S2P Require Import Prelude Text Command Tables Db Store Submit Hub Attempts Wire Outbound Container Blobs Strict Protocol Hello Dispatch.

Section Inbound.
Context `{TZ : Timestamptz} {V : Type} `{SD : Serde V} `{B64 : Base64} `{PGJ : !PageJson V}.
Context `{C : Clock} `{JR : JsonReader}.
Context (public_revision : string) (writer_epoch : Z) (shape_of : Value json_number -> option (ControlShape V)).
Notation decode_control := (decode_control shape_of).

(** ** A raw publish *)

Inductive PendingRawPublish :=
| PendingSnapshot (request_id session_id : string) (seq : option Z) (rows cols byte_size : Z)
| PendingOutput (request_id session_id : string) (seq byte_size : Z).

Definition pending_byte_size (p : PendingRawPublish) : Z :=
  match p with PendingSnapshot _ _ _ _ _ n | PendingOutput _ _ _ n => n end.
Definition pending_request (p : PendingRawPublish) : string :=
  match p with PendingSnapshot id _ _ _ _ _ | PendingOutput id _ _ _ => id end.

(** [PendingRawPublish::accept]. *)
Definition accept_payload (p : PendingRawPublish) (frame : Frame) : result WireError bytes :=
  _ ← ensure (bool_decide (f_kind frame = FkPtyRaw)) (wire_error EHandshake);
  _ ← ensure (zlen (f_body frame) =? pending_byte_size p)%Z (wire_error EFrameSize);
  mret (f_body frame).

(** [PendingRawPublish::publish]. *)
Definition publish_payload (conn : Z) (p : PendingRawPublish) (payload : bytes) : prog V (WireResult V) :=
  match p with
  | PendingSnapshot _ id seq rows cols _ =>
      r <~ perform (ActPublishRawSnapshot conn id seq rows cols (carrier_text payload)); Ret (published id r)
  | PendingOutput _ id seq _ =>
      r <~ perform (ActPublishRawOutput conn id seq (carrier_text payload)); Ret (published id r)
  end.

(** [raw_payload_size]; every u64 is a usize. *)
Definition raw_payload_size (byte_size : Z) : result WireError Z :=
  _ ← ensure (byte_size <=? FRAME_PAYLOAD_MAX_BYTES)%Z (wire_error EFrameSize);
  mret byte_size.

(** ** One frame *)

(** What handling a frame leads to. *)
Inductive Handled :=
| Awaits (p : PendingRawPublish)
| Answers (request_id : string) (r : WireResult V) (a : option AdmittedStream)
| Settles (delivery_id : string).

(** The acknowledgement of a delivery. *)
Definition handle_ack (conn : Z) (delivery_id : string) (r : PtyDeliveryResult) : prog V (result WireError Handled) :=
  match delivery_ack_result r with
  | Err c => Ret (Err (wire_error c))
  | Ok answer =>
      claim <~ perform (ActAckClaim conn delivery_id r answer);
      match claim with
      | Ok token =>
          settled <~ perform (ActSettle conn delivery_id token r answer);
          if settled : bool then
            taken <~ perform (ActTakeAck conn delivery_id token r answer);
            Ret (match taken with Ok _ => Ok (Settles delivery_id) | Err e => Err (wire_error (pr_code e)) end)
          else Ret (Err (wire_error EStorage))
      | Err e =>
          if bool_decide (pr_code e = ENotFound) then
            done_ <~ perform (ActReconcile delivery_id r);
            Ret (if done_ : bool then Ok (Settles delivery_id) else Err (wire_error EStorage))
          else Ret (Err (wire_error (pr_code e)))
      end
  end.

(** The header of a raw publish. *)
Definition handle_header (raw_enabled : bool) (request_id : string) (byte_size : Z) (p : Z -> PendingRawPublish)
  : result WireError Handled :=
  if negb raw_enabled then Ok (Answers request_id (refusal ECapability) None)
  else n ← raw_payload_size byte_size; Ok (Awaits (p n)).

Definition handle_control (conn : Z) (caps : Capabilities) (control : ClientControl V) : prog V (result WireError Handled) :=
  match control with
  | CPtyDeliveryAck d r => handle_ack conn d r
  | CRequest request_id q =>
      a <~ answer_request public_revision writer_epoch conn caps request_id q; Ret (Ok (Answers request_id a.1 a.2))
  | CPtyRawPublishSnapshot request_id id seq rows cols n =>
      Ret (handle_header (cap_raw caps) request_id n (PendingSnapshot request_id id seq rows cols))
  | CPtyRawPublishOutput request_id id seq n =>
      Ret (handle_header (cap_raw caps) request_id n (PendingOutput request_id id seq))
  | CHello _ _ _ _ => Ret (Err (wire_error EHandshake))
  end.

Definition handle_frame (conn : Z) (caps : Capabilities) (pending : option PendingRawPublish) (frame : Frame)
  : prog V (result WireError Handled) :=
  match pending with
  | Some p =>
      match accept_payload p frame with
      | Err e => Ret (Err e)
      | Ok payload => r <~ publish_payload conn p payload; Ret (Ok (Answers (pending_request p) r None))
      end
  | None =>
      if bool_decide (f_kind frame = FkJson) then
        match decode_control (f_body frame) with
        | Err e => Ret (Err e)
        | Ok control => handle_control conn caps control
        end
      else Ret (Err (wire_error EHandshake))
  end.

(** ** The loop *)

(** What was queued, in order, and how the loop ended. *)
Notation served := (list Handled * result WireError unit)%type.
Context (in_time gone : nat -> bool).

(** [read_request_frame]. *)
Definition read_request_frame (n : nat) (awaiting : bool) (c : Conn) : option (result WireError (Incoming * Conn)) :=
  if awaiting && negb (in_time n) then Some (Err (wire_error EHandshake))
  else read_frame FRAME_BODY_MAX_BYTES c.

(** [read_requests]; [None] is out of fuel. *)
Fixpoint read_requests (fuel n : nat) (conn : Z) (caps : Capabilities) (pending : option PendingRawPublish) (c : Conn)
  : prog V (option served) :=
  match fuel with
  | O => Ret None
  | S fuel =>
      match read_request_frame n (is_some pending) c with
      | None => Ret None
      | Some (Err e) => Ret (Some ([], Err e))
      | Some (Ok (InClosed, _)) =>
          Ret (Some ([], if is_some pending then Err (wire_error EFrameSize) else Ok tt))
      | Some (Ok (InFrame frame, c)) =>
          h <~ handle_frame conn caps pending frame;
          match h with
          | Err e => Ret (Some ([], Err e))
          | Ok (Awaits p) => read_requests fuel (S n) conn caps (Some p) c
          | Ok said =>
              if gone n then Ret (Some ([], Ok tt))
              else
                rest <~ read_requests fuel (S n) conn caps None c;
                Ret (match rest with Some (saids, r) => Some (said :: saids, r) | None => None end)
          end
      end
  end.

(** ** The connection *)

(** The reader is dropped when the writer ends, when the registry forces the
    connection to close and when the daemon stops: after some of its accesses. *)
Fixpoint cut_after {A} (n : nat) (p : prog V A) : prog V (option A) :=
  match p with
  | Ret a => Ret (Some a)
  | Do e k => match n with O => Ret None | S n => Do e (fun b => cut_after n (k b)) end
  end.

Fixpoint abandon_all (l : list (string * string)) : prog V unit :=
  match l with
  | [] => Ret tt
  | (d, token) :: l => _ <~ perform (ActAbandonOrphan d token); abandon_all l
  end.

Fixpoint close_all (l : list (string * string)) : prog V unit :=
  match l with
  | [] => Ret tt
  | (id, generation) :: l => _ <~ receipt_closed id generation true; close_all l
  end.

(** The sweep of a closed connection, also what [DisconnectSweep] runs when the
    task is dropped. *)
Definition disconnect_sweep (conn : Z) : prog V unit :=
  out <~ perform (ActDisconnect conn);
  _ <~ abandon_all (abandoned out);
  close_all (retired out).

Definition has_capability (s : Session) (name : string) : bool := existsb (String.eqb name) (ss_capabilities s).

Definition capabilities_of (s : Session) : Capabilities := {|
  cap_raw := has_capability s PTY_RAW_CAPABILITY; cap_input := has_capability s PTY_INPUT_CAPABILITY;
  cap_control := has_capability s PTY_CONTROL_CAPABILITY |}.

(** What a connection comes to: what was said in the handshake, and what was
    served with its end, unless the reader was dropped. *)
Record ConnectionEnd := { cn_said : option HelloAnswer; cn_served : option (list Handled); cn_end : option (result WireError unit) }.

(** [serve_connection]; [hello_in_time] and [cut] are what the clock and the rest
    of the connection do, [None] is out of fuel. *)
Definition serve_connection (answer_json : HelloAnswer -> bytes) (hello_in_time : bool) (cut : nat) (c : Conn)
  : prog V (option ConnectionEnd) :=
  ready <~ readiness;
  match ready with
  | Err _ => Ret (Some {| cn_said := None; cn_served := None; cn_end := Some (Err (wire_error EStorage)) |})
  | Ok ready =>
      match negotiate shape_of answer_json hello_in_time ready c with
      | None => Ret None
      | Some (Err e, said) => Ret (Some {| cn_said := Some said; cn_served := None; cn_end := Some (Err e) |})
      | Some (Ok (s, c), said) =>
          conn <~ perform ActConnection;
          _ <~ perform (ActRegister conn (has_capability s PTY_INPUT_CAPABILITY)
                          (has_capability s PTY_CONTROL_CAPABILITY) (has_capability s PTY_START_CAPABILITY));
          r <~ cut_after cut (read_requests (S (length (rd_bytes (c_reader c)))) 0 conn (capabilities_of s) None c);
          _ <~ disconnect_sweep conn;
          Ret (match r with
               | Some None => None
               | Some (Some r) => Some {| cn_said := Some said; cn_served := Some r.1; cn_end := Some r.2 |}
               | None => Some {| cn_said := Some said; cn_served := None; cn_end := None |}
               end)
      end
  end.

(** ** Every frame is answered in its turn *)

(** Every result of a program, whatever the answers are. *)
Fixpoint leaves {A} (P : A -> Prop) (p : prog V A) : Prop :=
  match p with
  | Ret a => P a
  | Do _ k => forall b, leaves P (k b)
  end.

Lemma leaves_bind {A X} (P : A -> Prop) (Q : X -> Prop) (p : prog V A) (f : A -> prog V X) :
  leaves P p -> (forall a, P a -> leaves Q (f a)) -> leaves Q (prog_bind p f).
Proof. induction p as [a|B e k IH]; cbn; [auto|]. intros Hp Hf b. by apply IH. Qed.

Lemma leaves_mono {A} (P Q : A -> Prop) (p : prog V A) : (forall a, P a -> Q a) -> leaves P p -> leaves Q p.
Proof. intros H. induction p as [a|B e k IH]; cbn; [apply H|]. intros Hp b. by apply IH. Qed.

Lemma leaves_all {A} (P : A -> Prop) (p : prog V A) : (forall a, P a) -> leaves P p.
Proof. intros H. induction p; cbn; auto. Qed.

(** The name a queued answer carries. *)
Definition name_of (h : Handled) : string :=
  match h with Awaits p => pending_request p | Answers id _ _ => id | Settles d => d end.

(** The payload frame a header announced. *)
Definition owed (p : PendingRawPublish) (frame : Frame) : Prop :=
  f_kind frame = FkPtyRaw /\ zlen (f_body frame) = pending_byte_size p.

(** The header of a raw publish: the name it asks under, the size it announces,
    and the payload it then waits for. *)
Definition header_of (control : ClientControl V) : option (string * Z * PendingRawPublish) :=
  match control with
  | CPtyRawPublishSnapshot id sid seq rows cols n => Some (id, n, PendingSnapshot id sid seq rows cols n)
  | CPtyRawPublishOutput id sid seq n => Some (id, n, PendingOutput id sid seq n)
  | _ => None
  end.

(** [takes caps pending frame name next]: the frame is in order after [pending];
    the answer to it, if there is one, is under [name], and then [next] is owed. *)
Inductive takes (caps : Capabilities) : option PendingRawPublish -> Frame -> option string -> option PendingRawPublish -> Prop :=
| takes_payload p frame : owed p frame -> takes caps (Some p) frame (Some (pending_request p)) None
| takes_request frame id q :
    f_kind frame = FkJson -> decode_control (f_body frame) = Ok (CRequest id q) -> takes caps None frame (Some id) None
| takes_ack frame d r :
    f_kind frame = FkJson -> decode_control (f_body frame) = Ok (CPtyDeliveryAck d r) -> takes caps None frame (Some d) None
| takes_header frame control id n p :
    f_kind frame = FkJson -> decode_control (f_body frame) = Ok control -> header_of control = Some (id, n, p) ->
    cap_raw caps = true -> (n <= FRAME_PAYLOAD_MAX_BYTES)%Z -> takes caps None frame None (Some p)
| takes_unable frame control id n p :
    f_kind frame = FkJson -> decode_control (f_body frame) = Ok control -> header_of control = Some (id, n, p) ->
    cap_raw caps = false -> takes caps None frame (Some id) None.

(** What ends the connection at a frame: another frame than the payload that is
    owed, no JSON, no control, a second hello, a header past the largest payload,
    an acknowledgement that is not honoured. *)
Inductive fault (caps : Capabilities) : option PendingRawPublish -> Frame -> WireError -> Prop :=
| fault_payload_kind p frame : f_kind frame <> FkPtyRaw -> fault caps (Some p) frame (wire_error EHandshake)
| fault_payload_size p frame :
    f_kind frame = FkPtyRaw -> zlen (f_body frame) <> pending_byte_size p -> fault caps (Some p) frame (wire_error EFrameSize)
| fault_control_kind frame : f_kind frame <> FkJson -> fault caps None frame (wire_error EHandshake)
| fault_control frame e : f_kind frame = FkJson -> decode_control (f_body frame) = Err e -> fault caps None frame e
| fault_hello frame major minor names client :
    f_kind frame = FkJson -> decode_control (f_body frame) = Ok (CHello major minor names client) ->
    fault caps None frame (wire_error EHandshake)
| fault_header frame control id n p :
    f_kind frame = FkJson -> decode_control (f_body frame) = Ok control -> header_of control = Some (id, n, p) ->
    cap_raw caps = true -> (FRAME_PAYLOAD_MAX_BYTES < n)%Z -> fault caps None frame (wire_error EFrameSize)
| fault_ack frame d r e :
    f_kind frame = FkJson -> decode_control (f_body frame) = Ok (CPtyDeliveryAck d r) -> we_fatal e = true ->
    fault caps None frame e.

(** A sequence of frames in order: the names they ask under, and what is owed
    behind them. *)
Inductive takes_all (caps : Capabilities) : option PendingRawPublish -> list Frame -> list string -> option PendingRawPublish -> Prop :=
| takes_none pending : takes_all caps pending [] [] pending
| takes_more pending frame name next frames names last :
    takes caps pending frame name next -> takes_all caps next frames names last ->
    takes_all caps pending (frame :: frames) (option_list name ++ names) last.

(** Handling a frame: the name it asks under is the name of the answer. *)
Definition handled_as (caps : Capabilities) (pending : option PendingRawPublish) (frame : Frame) (h : result WireError Handled)
  : Prop :=
  match h with
  | Ok (Awaits p) => takes caps pending frame None (Some p)
  | Ok said => takes caps pending frame (Some (name_of said)) None
  | Err e => fault caps pending frame e
  end.

Lemma handle_ack_named conn d r caps frame :
  f_kind frame = FkJson -> decode_control (f_body frame) = Ok (CPtyDeliveryAck d r) ->
  leaves (handled_as caps None frame) (handle_ack conn d r).
Proof.
  intros Hk Hd. pose proof (takes_ack caps frame d r Hk Hd) as Ha.
  assert (forall e, we_fatal e = true -> fault caps None frame e) as Hf by (intros e He; by eapply fault_ack).
  unfold handle_ack. destruct (delivery_ack_result r) as [answer|c]; [|by apply Hf]. intros [token|e].
  - intros [|]; [|by apply Hf]. intros [[]|e]; [done|by apply Hf].
  - cbn. destruct (bool_decide (pr_code e = ENotFound)); [|by apply Hf]. intros [|]; [done|by apply Hf].
Qed.

Lemma handle_header_named caps frame control request_id n (p : Z -> PendingRawPublish) :
  f_kind frame = FkJson -> decode_control (f_body frame) = Ok control ->
  header_of control = Some (request_id, n, p n) ->
  handled_as caps None frame (handle_header (cap_raw caps) request_id n p).
Proof.
  intros Hk Hd Hh. unfold handle_header. destruct (cap_raw caps) eqn:Hc; cbn [negb]; [|by eapply takes_unable].
  unfold raw_payload_size. destruct (Z.leb_spec n FRAME_PAYLOAD_MAX_BYTES); cbn.
  - by eapply takes_header.
  - by eapply fault_header.
Qed.

Lemma handle_frame_named conn caps pending frame :
  leaves (handled_as caps pending frame) (handle_frame conn caps pending frame).
Proof.
  unfold handle_frame. destruct pending as [p|].
  - unfold accept_payload. destruct (bool_decide_reflect (f_kind frame = FkPtyRaw)) as [Hk|Hk]; cbn; [|by apply fault_payload_kind].
    destruct (Z.eqb_spec (zlen (f_body frame)) (pending_byte_size p)) as [Hs|Hs]; cbn; [|by apply fault_payload_size].
    eapply leaves_bind; [apply (leaves_all (fun _ => True)); done|]. intros r _. by apply takes_payload.
  - destruct (bool_decide_reflect (f_kind frame = FkJson)) as [Hk|Hk]; [|by apply fault_control_kind].
    destruct (decode_control (f_body frame)) as [control|e] eqn:Ed; [|by apply fault_control].
    destruct control as [v minor names client|id q|d r|id sid seq rows cols n|id sid seq n]; cbn [handle_control].
    + by eapply fault_hello.
    + eapply leaves_bind; [apply (leaves_all (fun _ => True)); done|]. intros a _. by eapply takes_request.
    + by apply handle_ack_named.
    + by eapply handle_header_named.
    + by eapply handle_header_named.
Qed.

Lemma fault_fatal caps pending frame e : fault caps pending frame e -> we_fatal e = true.
Proof. destruct 1 as [| | |frame e _ Hd| | |]; try done. by apply decode_codes in Hd as [->|[->| ->]]. Qed.

(** How the loop ends with [rest] unread and [pending] owed, [n] frames read: the
    stream is at its end and nothing is owed, or the writer is gone when the next
    answer is due; or with the error of what comes next. *)
Definition ends_with (caps : Capabilities) (pending : option PendingRawPublish) (n : nat) (rest : bytes)
    (outcome : result WireError unit) : Prop :=
  match outcome with
  | Ok _ =>
      (rest = [] /\ pending = None) \/
      (gone n = true /\ exists frame tail name, rest = frame_bytes frame ++ tail /\ takes caps pending frame (Some name) None)
  | Err e =>
      we_fatal e = true /\
      ((rest = [] /\ pending <> None /\ e = wire_error EFrameSize) \/
       (pending <> None /\ in_time n = false /\ e = wire_error EHandshake) \/
       (exists c, rd_bytes (c_reader c) = rest /\ read_frame FRAME_BODY_MAX_BYTES c = Some (Err e)) \/
       exists frame tail, rest = frame_bytes frame ++ tail /\ fault caps pending frame e)
  end.

(** What a run of the loop has to show for the frames it read. *)
Definition serves_in_turn (caps : Capabilities) (pending : option PendingRawPublish) (n : nat) (c : Conn) (r : option served) : Prop :=
  exists said outcome frames rest last,
    r = Some (said, outcome) /\ rd_bytes (c_reader c) = concat (frame_bytes <$> frames) ++ rest /\
    takes_all caps pending frames (name_of <$> said) last /\ ends_with caps last (n + length frames) rest outcome.

Lemma serves_none caps pending n c outcome :
  ends_with caps pending n (rd_bytes (c_reader c)) outcome -> serves_in_turn caps pending n c (Some ([], outcome)).
Proof.
  intros H. exists [], outcome, [], (rd_bytes (c_reader c)), pending. rewrite Nat.add_0_r.
  split_and!; try done. constructor.
Qed.

Lemma serves_more caps pending n (c c1 : Conn) frame name next said saids outcome :
  rd_bytes (c_reader c) = frame_bytes frame ++ rd_bytes (c_reader c1) ->
  takes caps pending frame name next -> name_of <$> said = option_list name ->
  serves_in_turn caps next (S n) c1 (Some (saids, outcome)) ->
  serves_in_turn caps pending n c (Some (said ++ saids, outcome)).
Proof.
  intros Hb Ht Hs (saids' & outcome' & frames & rest & last & [= <- <-] & Hb' & Hall & He).
  exists (said ++ saids), outcome, (frame :: frames), rest, last. split; [done|].
  cbn [fmap list_fmap concat length]. split; [by rewrite Hb, Hb', app_assoc|].
  rewrite fmap_app, Hs. split; [by econstructor|]. by rewrite Nat.add_succ_r.
Qed.

Lemma frame_bytes_long f : (5 <= length (frame_bytes f))%nat.
Proof. unfold frame_bytes. rewrite length_app. cbn. lia. Qed.

Lemma charged_ok d n b w b' w' : charged d n b w b' w' -> budget_ok b' w'.
Proof. by intros []. Qed.

Lemma read_requests_in_turn fuel n conn caps pending c :
  budget_ok (c_budget c) (c_world c) -> Forall (fun b => 0 <= b < 256)%Z (rd_bytes (c_reader c)) ->
  (length (rd_bytes (c_reader c)) < fuel)%nat ->
  leaves (serves_in_turn caps pending n c) (read_requests fuel n conn caps pending c).
Proof.
  revert n pending c. induction fuel as [|fuel IH]; intros n pending c Hok Hby Hlen; [lia|]. cbn [read_requests].
  unfold read_request_frame. destruct (is_some pending && negb (in_time n)) eqn:El.
  { apply serves_none. split; [done|]. right. left. destruct pending; [|done]. apply negb_true_iff in El. done. }
  destruct (read_frame_exact FRAME_BODY_MAX_BYTES c Hok Hby) as (r & Hread & Hr). rewrite Hread.
  destruct r as [[[frame|] c1]|e]; unfold reads_exactly in Hr.
  - destruct Hr as (Hbytes & _ & Hc). pose proof (frame_bytes_long frame) as H5.
    assert (length (rd_bytes (c_reader c)) = length (frame_bytes frame) + length (rd_bytes (c_reader c1)))%nat as Hl
      by (rewrite Hbytes at 1; apply length_app).
    rewrite Hbytes in Hby. apply Forall_app in Hby as [_ Hby].
    eapply leaves_bind; [apply handle_frame_named|]. intros h Hh. unfold handled_as in Hh.
    assert (forall next, leaves (serves_in_turn caps next (S n) c1) (read_requests fuel (S n) conn caps next c1)) as Hrec.
    { intros next. apply IH; [by eapply charged_ok|done|lia]. }
    assert (forall said, takes caps pending frame (Some (name_of said)) None ->
      leaves (serves_in_turn caps pending n c)
        (if gone n then Ret (Some ([], Ok tt))
         else rest <~ read_requests fuel (S n) conn caps None c1;
              Ret (match rest with Some (saids, r) => Some (said :: saids, r) | None => None end))) as Hsaid.
    { intros said Ht. destruct (gone n) eqn:Eg.
      { apply serves_none. right. split; [done|]. by exists frame, (rd_bytes (c_reader c1)), (name_of said). }
      eapply leaves_bind; [apply Hrec|]. intros rest_ H. pose proof H as (saids & outcome & _ & _ & _ & -> & _). cbn.
      by eapply (serves_more _ _ _ _ _ _ _ _ [said]). }
    destruct h as [[p|id r a|d]|e].
    + eapply leaves_mono; [|apply Hrec]. intros rest_ H. pose proof H as (saids & outcome & _ & _ & _ & -> & _).
      by eapply (serves_more _ _ _ _ _ _ _ _ []).
    + by apply (Hsaid (Answers id r a)).
    + by apply (Hsaid (Settles d)).
    + apply serves_none. split; [by eapply fault_fatal|]. do 3 right. by exists frame, (rd_bytes (c_reader c1)).
  - destruct Hr as [Hb ->]. apply serves_none. rewrite Hb. destruct pending; cbn.
    + split; [done|]. by left.
    + by left.
  - destruct Hr as [Hf _]. apply serves_none. split; [done|]. right. right. left. by exists c.
Qed.


End Inbound.
