(* ===== verification/Gate.v ===== *)
(** * What a connection may do

    The accesses a connection's program can ever perform, whatever it is sent and
    whatever it is answered: the capabilities of its hello bound them. *)

From S2P Require Import Prelude Text Envelope Command Tables Db Store Project Authority Submit Screen Hub Attempts Wire Outbound Container Ordered Blobs Strict Protocol Hello Dispatch Inbound.

Section Gate.
Context `{TZ : Timestamptz} {V : Type} `{SD : Serde V} `{B64 : Base64} `{PGJ : !PageJson V}.
Context `{C : Clock} `{JR : JsonReader}.
Context (public_revision : string) (writer_epoch : Z) (shape_of : Value json_number -> option (ControlShape V)).
Notation envelope := (CommandEnvelope V).
Notation command := (KernelCommand V).

(** ** Capabilities *)

(** The commands a resize or stop request submits. *)
Definition controls (c : command) : bool :=
  match c with ResizePtySession _ _ _ _ | StopPtySession _ _ => true | _ => false end.

(** The accesses the granted names allow. *)
Definition gated (granted : list string) (B : Type) (e : Act V B) : Prop :=
  match e with
  | ActPublishRawSnapshot _ _ _ _ _ _ | ActPublishRawOutput _ _ _ _ | ActPublishRawResize _ _ _ _ _ | ActAttachRaw _ _ _ =>
      PTY_RAW_CAPABILITY ∈ granted
  | ActSend _ (PtyInput _ _ _ _ _ _) => PTY_INPUT_CAPABILITY ∈ granted
  | ActSend _ (PtyResize _ _ _ _ _ _) | ActSend _ (PtyStop _ _ _ _) => PTY_CONTROL_CAPABILITY ∈ granted
  | ActSubmit env carrier =>
      (is_Some carrier -> PTY_INPUT_CAPABILITY ∈ granted) /\
      (forall c, from_envelope env = Ok c -> controls c = true -> PTY_CONTROL_CAPABILITY ∈ granted)
  | ActRegister _ input control start =>
      (input = true -> PTY_INPUT_CAPABILITY ∈ granted) /\ (control = true -> PTY_CONTROL_CAPABILITY ∈ granted) /\
      (start = true -> PTY_START_CAPABILITY ∈ granted)
  | _ => True
  end.


(** The flags of a connection say what was granted. *)
Definition caps_of (granted : list string) (caps : Capabilities) : Prop :=
  (cap_raw caps = true -> PTY_RAW_CAPABILITY ∈ granted) /\ (cap_input caps = true -> PTY_INPUT_CAPABILITY ∈ granted) /\
  (cap_control caps = true -> PTY_CONTROL_CAPABILITY ∈ granted).

Ltac unify_ok := match goal with H1 : ?x = Ok ?a, H2 : ?x = Ok ?b |- _ => rewrite H1 in H2; injection H2 as <- end.

Section Granted.
Context (granted : list string).
Notation ok := (within (gated granted)).

Lemma readiness_gated : ok (readiness (V := V)).
Proof. unfold readiness. each_access; done. Qed.

Lemma page_gated k cursor exact rows : ok (projection_page k cursor exact rows).
Proof. unfold projection_page. each_access; done. Qed.

(** A receipt is no control. *)
Lemma receipt_gated key c : controls c = false -> ok (submit_receipt key c).
Proof.
  intros Hc. unfold submit_receipt. each_access; [done|]. split; [by intros [? ?]|].
  intros c' Hf Hc'. exfalso. unfold from_envelope in Hf. cbn in Hf.
  apply bind_ok_iff in Hf as (c1 & _ & ([] & Ht%ensure_ok_iff & [= ->])%bind_ok_iff). unbool.
  destruct c'; try done; destruct c; done.
Qed.

Lemma versioned_gated rounds id key build : (forall v, controls (build v) = false) -> ok (versioned rounds id key build).
Proof.
  intros Hb. induction rounds as [|rounds IH]; cbn [versioned]; [done|]. each_access; try done.
  by apply receipt_gated.
Qed.

Lemma deliver_gated env r d control :
  (forall token, gated granted _ (ActSend token control)) -> ok (deliver_submission env r d control).
Proof. intros Hs. unfold deliver_submission. each_access; try done. Qed.

Lemma submit_and_deliver_gated env c control :
  from_envelope env = Ok c -> (controls c = true -> PTY_CONTROL_CAPABILITY ∈ granted) ->
  (forall d token, gated granted _ (ActSend token (control d))) -> ok (submit_and_deliver env control).
Proof.
  intros Hf Hc Hs. unfold submit_and_deliver. each_access; [|by apply deliver_gated].
  split; [by intros [? ?]|]. intros c' Hf'. by unify_ok.
Qed.

Lemma blob_gated q : ok (answer_blob q).
Proof. destruct q; cbn [answer_blob]; unfold blob_chunk; each_access; done. Qed.

Context (caps : Capabilities) (Hcaps : caps_of granted caps).

Lemma pty_gated conn q : ok (answer_pty conn caps q).
Proof.
  destruct q; cbn [answer_pty]; each_access; try done.
  - by apply receipt_gated.
  - cbn. apply Hcaps. by destruct (cap_raw caps).
  - by apply versioned_gated.
Qed.

Lemma attach_gated conn request_id id generation cursor : ok (attach_pty conn request_id id generation cursor).
Proof. unfold attach_pty, receipt_attached. each_access; try done. by apply versioned_gated. Qed.

Lemma attach_raw_gated conn request_id id generation cursor :
  ok (attach_raw_pty (cap_raw caps) conn request_id id generation cursor).
Proof.
  unfold attach_raw_pty, receipt_attached. each_access; try done.
  - cbn. apply Hcaps. by destruct (cap_raw caps).
  - by apply versioned_gated.
Qed.

Lemma submit_command_gated env : ok (submit_command env).
Proof.
  unfold submit_command. each_access; try done; (split; [by intros [? ?]|]).
  - intros c Hf Hc. unify_ok. by destruct a.
  - intros c Hf. congruence.
Qed.

Lemma control_gated env kind : cap_control caps = true -> ok (send_pty_control env kind).
Proof.
  intros Hc. unfold send_pty_control. apply Hcaps in Hc. destruct kind; each_access; try done; by eapply submit_and_deliver_gated.
Qed.

Lemma start_gated env : ok (send_pty_start env).
Proof. unfold send_pty_start. each_access; try done. by eapply submit_and_deliver_gated. Qed.

Lemma input_gated env data : cap_input caps = true -> ok (send_pty_input env data).
Proof.
  intros Hc. unfold send_pty_input. cbn zeta. apply Hcaps in Hc. each_access; try done; [|by apply deliver_gated].
  split; [done|]. intros c Hf. by unify_ok.
Qed.

Lemma plainly_gated p : ok p -> ok (plainly p).
Proof. intros H. by apply within_bind. Qed.
Lemma fallibly_gated p : ok p -> ok (fallibly p).
Proof. intros H. apply within_bind; [done|]. by intros []. Qed.

Lemma try_answer_gated conn request_id q : ok (try_answer public_revision writer_epoch conn caps request_id q).
Proof.
  destruct q; cbn [try_answer];
    repeat first [apply plainly_gated | apply fallibly_gated | apply blob_gated | apply pty_gated | apply submit_command_gated
                 | apply start_gated].
  all: try (unfold verify_sealed, get_projection, list_projection, read_events, admit_subscription; each_access; try done;
            first [apply readiness_gated | apply page_gated]).
  - destruct (cap_input caps) eqn:?; [by apply input_gated|done].
  - destruct (cap_control caps) eqn:?; [by apply control_gated|done].
  - destruct (cap_control caps) eqn:?; [by apply control_gated|done].
  - each_access; [apply attach_gated].
  - each_access; [apply attach_raw_gated].
Qed.

Lemma handle_gated conn pending frame :
  (is_Some pending -> cap_raw caps = true) -> ok (handle_frame public_revision writer_epoch shape_of conn caps pending frame).
Proof.
  intros Hp. unfold handle_frame. destruct pending as [p|].
  - destruct (accept_payload p frame); [|done]. unfold publish_payload. specialize (Hp ltac:(by eexists)). apply Hcaps in Hp.
    destruct p; each_access; done.
  - destruct (bool_decide _); [|done]. destruct (decode_control _ _) as [control|]; [|done].
    destruct control; cbn [handle_control]; try done.
    + unfold answer_request. each_access; try done. apply try_answer_gated.
    + unfold handle_ack. each_access; done.
Qed.

(** A header waits for its payload only where raw frames were granted. *)
Lemma awaits_raw conn pending frame :
  leaves (fun h => forall p, h = Ok (Awaits p) -> cap_raw caps = true)
    (handle_frame public_revision writer_epoch shape_of conn caps pending frame).
Proof.
  unfold handle_frame. destruct pending as [p|].
  - destruct (accept_payload p frame); [|done]. eapply leaves_bind; [apply (leaves_all (fun _ => True)); done|done].
  - destruct (bool_decide _); [|done]. destruct (decode_control _ _) as [control|]; [|done].
    destruct control; cbn [handle_control]; try done.
    + eapply leaves_bind; [apply (leaves_all (fun _ => True)); done|done].
    + unfold handle_ack. destruct (delivery_ack_result result); [|done]. intros [|e]; [intros []; [intros []; done|done]|].
      cbn. destruct (bool_decide _); [|done]. by intros [].
    + cbn. unfold handle_header. destruct (cap_raw caps); done.
    + cbn. unfold handle_header. destruct (cap_raw caps); done.
Qed.

Lemma within_leaves {A X} P (Q : A -> Prop) (p : prog V A) (f : A -> prog V X) :
  within P p -> leaves Q p -> (forall a, Q a -> within P (f a)) -> within P (prog_bind p f).
Proof. induction p as [a|B e k IH]; cbn; [auto|]. intros [He Hk] Hl Hf. split; [done|]. intros b. by apply IH. Qed.

Lemma requests_gated in_time gone fuel n conn pending c :
  (is_Some pending -> cap_raw caps = true) ->
  ok (read_requests public_revision writer_epoch shape_of in_time gone fuel n conn caps pending c).
Proof.
  revert n pending c. induction fuel as [|fuel IH]; intros n pending c Hp; cbn [read_requests]; [done|].
  destruct (read_request_frame _ _ _ _) as [[[[frame|] c1]|e]|]; try done.
  eapply within_leaves; [by apply handle_gated|apply awaits_raw|]. intros h Hh.
  destruct h as [[p|id r a|d]|e]; try done.
  - apply IH. intros _. by eapply Hh.
  - destruct (gone n); [done|]. apply within_bind; [apply IH; by intros [? ?]|done].
  - destruct (gone n); [done|]. apply within_bind; [apply IH; by intros [? ?]|done].
Qed.
End Granted.

Lemma cut_within {A} P n (p : prog V A) : within P p -> within P (cut_after n p).
Proof.
  revert n. induction p as [a|B e k IH]; intros n; [by destruct n|]. intros [He Hk]. destruct n; [exact I|].
  split; [done|]. intros b. by apply IH.
Qed.

Lemma sweep_gated granted conn : within (gated granted) (disconnect_sweep (V := V) conn).
Proof.
  unfold disconnect_sweep. each_access; [done|..].
  - induction (abandoned _) as [|[d t] l IH]; cbn [abandon_all]; [done|]. by split.
  - induction (retired _) as [|[id g] l IH]; cbn [close_all]; [done|]. apply within_bind; [|done].
    unfold receipt_closed. by apply versioned_gated.
Qed.

Lemma has_capability_spec s name : has_capability s name = true <-> name ∈ ss_capabilities s.
Proof.
  unfold has_capability. rewrite existsb_exists. split.
  - intros (x & Hx & ->%String.eqb_eq). by apply list_elem_of_In.
  - intros Hx%list_elem_of_In. exists name. by rewrite String.eqb_refl.
Qed.

(** C16: Whatever a connection sends and is answered, it never reaches
    past the capabilities its hello was granted: raw bytes are published or
    attached only with pty_raw, input is submitted or sent only with pty_input,
    a resize or a stop only with pty_control, and it is registered as a host for
    input, controls or starts only with the name of each. *)
Theorem capabilities_bound_a_connection in_time gone answer_json hello_in_time cut c :
  within (gated (match read_hello shape_of hello_in_time c with Some (Ok (s, _)) => ss_capabilities s | _ => [] end))
    (serve_connection public_revision writer_epoch shape_of in_time gone answer_json hello_in_time cut c).
Proof.
  unfold serve_connection. apply within_bind; [apply readiness_gated|]. intros [ready|]; [|done].
  unfold negotiate. destruct (read_hello _ _ _) as [[[s c1]|e]|]; try done.
  destruct (write_frame _ _ _ _) as [[[[out b] w]|e]|]; try done.
  assert (caps_of (ss_capabilities s) (capabilities_of s)) as Hc.
  { split_and!; cbn; apply has_capability_spec. }
  apply within_bind; [done|]. intros conn. apply within_bind.
  { split; [|done]. cbn. rewrite !has_capability_spec. done. }
  intros _. apply within_bind; [apply cut_within, requests_gated; [done|by intros [? ?]]|]. intros r.
  apply within_bind; [apply sweep_gated|done].
Qed.
End Gate.
