(* ===== verification/Reserved.v ===== *)
(** * The sweep's keys at the wire

    The ordinary requests of a client never submit under the keys the TTL sweep
    mints.  The dedicated PTY requests do not check: a start can take such a key,
    and a key that is taken refuses the sweep's own command from then on. *)

From S2P Require Import Prelude Text Fsm Envelope Command Tables Db Store Project Authority Submit Writes Kernel System Sweep Screen Hub Attempts Wire Outbound Container Ordered Blobs Protocol Hello Dispatch.

Section Requests.
Context `{TZ : Timestamptz} {V : Type} `{SD : Serde V} `{B64 : Base64} `{PGJ : !PageJson V}.
Context (public_revision : string) (writer_epoch : Z).

(** A submission under the sweep's keys. *)
Definition under_sweep {B} (e : Act V B) : bool :=
  match e with ActSubmit env _ => Str.starts_with TTL_SWEEP_PREFIX (ce_idempotency_key env) | _ => false end.

(** The requests that submit and then deliver to a host. *)
Definition delivering (q : KernelRequest V) : bool :=
  match q with
  | QSendPtyInput _ _ | QResizePtySession _ | QStopPtySession _ | QStartPtySession _ => true
  | _ => false
  end.

Notation clear := (within (fun _ e => under_sweep e = false)).

Lemma receipt_clear key c : Str.starts_with TTL_SWEEP_PREFIX key = false -> clear (submit_receipt key c).
Proof. intros H. unfold submit_receipt. by each_access. Qed.

Lemma versioned_clear rounds id key build :
  Str.starts_with TTL_SWEEP_PREFIX key = false -> clear (versioned rounds id key build).
Proof.
  intros H. induction rounds as [|rounds IH]; cbn [versioned]; [done|]. each_access; try done; by apply receipt_clear.
Qed.

Lemma blob_clear q : clear (answer_blob q).
Proof. destruct q; cbn [answer_blob]; unfold blob_chunk; each_access; done. Qed.

Lemma pty_clear conn caps q : clear (answer_pty conn caps q).
Proof. destruct q; cbn [answer_pty]; each_access; try done; first [by apply receipt_clear|by apply versioned_clear]. Qed.

Lemma submit_clear env : clear (submit_command env).
Proof. unfold submit_command. each_access; done. Qed.

(** Every request but those that deliver to a host never submits
    under a key of the sweep. *)
Theorem ordinary_requests_leave_the_sweep_keys conn caps request_id q :
  delivering q = false -> clear (answer_request public_revision writer_epoch conn caps request_id q).
Proof.
  intros Hq. apply within_bind; [|done]. destruct q; try done; cbn [try_answer]; unfold plainly, fallibly;
    (apply within_bind; [|by intros; each_access]);
    try apply blob_clear; try apply pty_clear; try apply submit_clear;
    unfold readiness, verify_sealed, get_projection, list_projection, projection_page, read_events, readiness,
      admit_subscription, attach_pty, attach_raw_pty, receipt_attached; each_access; try done; by apply versioned_clear.
Qed.
End Requests.

Section Taken.
Context `{TZ : Timestamptz} `{TZL : !TimestamptzLaws} {V : Type} `{SD : Serde V} `{SDL : !SerdeLaws V} `{HM : Hmac}
  `{MC : !MintedCommands V}.
Context (apply_context_event : EventEnvelope V -> Proj instant V -> result Refusal (Proj instant V)).
Notation event := (EventEnvelope V).
Notation database := (Db instant V).
Notation submit := (submit apply_context_event).
Notation step := (step apply_context_event).
Notation reachable := (reachable apply_context_event).

(** An event of the project holds the key, of another aggregate. *)
Definition holds_key (e : event) (project key ty id : string) : Prop :=
  project_id e = project /\ idempotency_key e = Some key /\ agg_key e <> (ty, id).

Lemma taken_is_refused (st : Store (V := V)) clock env carrier (db : database) e c :
  log_inv db -> e ∈ log db -> deserialize (ce_payload env) = Some c ->
  (forall rt, route_of env c = Ok rt ->
     holds_key e (ce_project_id env) (ce_idempotency_key env) (r_aggregate_type rt) (r_aggregate_id rt)) ->
  exists r, (submit st clock env carrier db).1 = KernelError r.
Proof.
  intros Hinv He Hc Hrt. destruct (submit st clock env carrier db) as [res db'] eqn:E.
  destruct res as [cid rows w|r]; [exfalso|by exists r].
  assert (cid = ce_command_id env) as ->.
  { destruct (submit_cases _ _ _ _ _ _ _ _ Hinv E) as [[_ [[r ?]|(_ & ? & ? & Heq & _)]]|(? & ? & ? & ? & _ & Heq)];
      [done|by injection Heq..]. }
  destruct (history_extends apply_context_event db db' Hinv) as [_ [more Hl]]; [by apply rtc_once; eapply step_submit|].
  apply submit_applied_prior in E as (pre & ep & body & Hpre & _ & _ & _ & _ & Hpr); [|done].
  apply prepare_ok in Hpre as (Hd & _ & Hr & _). rewrite Hc in Hd. injection Hd as ->. apply Hrt in Hr as (Hp & Hk & Ha).
  apply prior_replay_iff in Hpr as (row & _ & Hans & Hev).
  assert (e ∈ [row]) as ->%list_elem_of_singleton.
  { rewrite <-Hev. apply events_for_key_elem. rewrite Hl. split_and!; [set_solver|done|by left]. }
  by destruct Hans as (_ & ? & _).
Qed.

(** The pass, with what other clients commit between its accesses. *)
Context (st : Store (V := V)) (others : nat -> database -> database) (clocks : nat -> TxClock).
Context (Hothers : forall n db, reachable db -> rtc step db (others n db)).
Notation expire_row := (Sweep.expire apply_context_event st others clocks).
Notation bury_row := (Sweep.bury apply_context_event st others clocks).

(** The key of a lease's expiry, as ttl_sweep.rs spells it. *)
Definition lease_key (id : string) (v : Z) : string :=
  "ttl_sweep:expire_lease:" +:+ id +:+ ":" +:+ Numeric.to_numeric_text v.

Lemma taken_submission issued_at (dbq : database) (s : Pass) e id v project :
  reachable dbq -> rtc step dbq (ps_db s) -> e ∈ log dbq -> is_u32 v ->
  holds_key e project (lease_key id v) "lease" id ->
  (sweep_submit apply_context_event st others clocks issued_at (lease_key id v) project (ExpireLease id v) s).1 = false.
Proof.
  intros Hr Hs He Hv Hk. pose proof (reachable_steps _ _ _ Hr Hs) as Hrs.
  assert (rtc step dbq (access others s)) as Ha by (etransitivity; [exact Hs|by apply Hothers]).
  destruct (history_extends apply_context_event dbq _ (reachable_log_inv _ _ Hr) Ha) as [Hinv [more Hl]].
  set (env := kernel_envelope (ExpireLease id v) (lease_key id v) project issued_at).
  destruct (taken_is_refused st (clocks (ps_access s)) env None (access others s) e (ExpireLease id v)) as [r Hres]; try done.
  - rewrite Hl. set_solver.
  - by apply minted_expire.
  - by intros rt [-> ->]%expire_route.
  - unfold sweep_submit. fold env. destruct (submit st (clocks (ps_access s)) env None (access others s)) as [res db'].
    cbn in Hres |- *. by subst res.
Qed.

(** Burials report no lease. *)
Lemma burials_leases issued_at arm (s : Pass) rows :
  leases_expired (ps_report (outcome (fold_res (bury_row issued_at arm) s rows))) = leases_expired (ps_report s).
Proof.
  apply (fold_outcome (fun s' => leases_expired (ps_report s') = leases_expired (ps_report s))); [|done].
  intros s' [[id raw] project] _ <-. unfold Sweep.bury. destruct (version_of raw); [|done].
  cbn [ok_or mbind result_bind]. unfold sweep_submit. destruct (submit _ _ _ _ _) as [[] ?]; done.
Qed.

(** What a lease's turn adds to the report. *)
Lemma expire_reports issued_at (s : Pass) id raw project x :
  x ∈ leases_expired (ps_report (outcome (expire_row issued_at s (id, raw, project)))) ->
  x ∈ leases_expired (ps_report s) \/
  (x = id /\ is_u32 raw /\
   (sweep_submit apply_context_event st others clocks issued_at (lease_key id raw) project (ExpireLease id raw) s).1 = true).
Proof.
  unfold Sweep.expire. destruct (version_of raw) as [v|] eqn:E; [|by left].
  apply version_of_Some in E as [-> Hu]. cbn [ok_or mbind result_bind].
  fold (lease_key id raw). destruct (sweep_submit _ _ _ _ _ _ _ _ _) as [b s'] eqn:Es.
  assert (ps_report s' = ps_report s) as Hrep.
  { revert Es. unfold sweep_submit. destruct (submit _ _ _ _ _) as [res db']. by intros [= _ <-]. }
  destruct b; cbn [outcome mret result_ret]; [|rewrite Hrep; by left].
  unfold sweep_dead_attempts. rewrite burials_leases. cbn. rewrite Hrep.
  intros [Hx|Hx%list_elem_of_singleton]%elem_of_app; [by left|right]. by split_and!.
Qed.

(** The rows of a query carry the owner of the aggregate. *)
Lemma with_owner_owner (l : list event) ty rows id v project :
  (id, v, project) ∈ with_owner l ty rows -> aggregate_owner l ty id = Some project.
Proof.
  unfold with_owner. intros ([id' v'] & Hin & Ho)%list_elem_of_omap.
  destruct (aggregate_owner _ _ _) as [o|] eqn:E; cbn in Ho; [|done]. injection Ho as <- <- <-. done.
Qed.

(** What a pass does with a lease whose key is taken where it is read. *)
Lemma pass_skips_taken (stale_after : Z) (db : database) e id r project :
  let dbq := others 1 (others 0 db) in
  reachable db -> e ∈ log dbq -> leases (proj dbq) !! id = Some r ->
  aggregate_owner (log dbq) "lease" id = Some project ->
  holds_key e project (lease_key id (lease_version r)) "lease" id ->
  id ∉ leases_expired (ps_report (outcome (sweep_once_with apply_context_event st others clocks stale_after db))).
Proof.
  cbn zeta. intros Hr He Hl Hown Hk. pose proof (Hothers 0 db Hr) as H0.
  pose proof (reachable_steps _ _ _ Hr H0) as Hr0. pose proof (Hothers 1 _ Hr0) as H1.
  pose proof (reachable_steps _ _ _ Hr0 H1) as Hrq. set (dbq := others 1 (others 0 db)) in *.
  unfold sweep_once_with. match goal with |- context [fold_res ?f ?s0 ?l] => set (body := f); set (rows := l); set (q := s0) end.
  assert (id ∉ leases_expired (ps_report (outcome (fold_res body q rows)))) as Hf.
  { apply (fold_outcome (fun s => rtc step dbq (ps_db s) /\ id ∉ leases_expired (ps_report s))).
    - intros s [[id' v] project'] Hin [Hs Hnot].
      split; [by apply (expire_steps apply_context_event st others clocks Hothers)|].
      intros [?|(-> & Hu & Hsub)]%expire_reports; [done|].
      pose proof (with_owner_owner _ _ _ _ _ _ Hin) as Ho. apply expired_leases_elem in Hin as (r' & Hr' & Hv & _).
      change (leases (proj dbq) !! id' = Some r') in Hr'. change (aggregate_owner (log dbq) "lease" id' = Some project') in Ho.
      rewrite Hl in Hr'. injection Hr' as <-. rewrite Hown in Ho. injection Ho as <-. subst v.
      by rewrite (taken_submission _ dbq s e) in Hsub.
    - split; [done|]. cbn. by apply not_elem_of_nil. }
  destruct (fold_res body q rows) as [s|s]; [|done]. cbn [mbind result_bind]. unfold sweep_stale_attempts.
  by rewrite burials_leases.
Qed.

(** C20: Where, at the time a pass of the sweep reads the leases, an event
    of another aggregate of the project already carries the key the sweep would
    expire a lease under, that pass does not report the lease as expired,
    whatever others commit meanwhile.  A client's submit_command under such a
    key is refused before anything is submitted; a start request is submitted
    under it. *)
Theorem a_taken_key_blocks_the_sweep `{B64 : Base64} `{PGJ : !PageJson V} (public_revision : string) (writer_epoch : Z)
    (stale_after : Z) (db : database) e id r project :
  let dbq := others 1 (others 0 db) in
  let key := lease_key id (lease_version r) in
  reachable db -> e ∈ log dbq -> leases (proj dbq) !! id = Some r ->
  aggregate_owner (log dbq) "lease" id = Some project -> holds_key e project key "lease" id ->
  id ∉ leases_expired (ps_report (outcome (sweep_once_with apply_context_event st others clocks stale_after db))) /\
  forall conn caps request_id (env : CommandEnvelope V), ce_idempotency_key env = key ->
    answer_request public_revision writer_epoch conn caps request_id (QSubmitCommand env) =
      Ret (refusal EValidation, None) /\
    forall template_name session, from_envelope env = Ok (RequestPtySessionStart template_name session) ->
      exists k, answer_request public_revision writer_epoch conn caps request_id (QStartPtySession env) =
        Do (ActSubmit env None) k.
Proof.
  cbn zeta. intros Hr He Hl Hown Hk. split; [by eapply pass_skips_taken|].
  intros conn caps request_id env Hkey. split.
  - unfold answer_request. cbn [try_answer]. unfold submit_command. by rewrite Hkey.
  - intros template_name session Henv. unfold answer_request. cbn [try_answer]. unfold send_pty_start.
    rewrite Henv. by eexists.
Qed.
End Taken.
