(* ===== verification/Replies.v ===== *)
(** * The answers a connection queues

    The request loop answers with the results of [Dispatch]; the outbound half of
    the connection knows four forms of answer, with the stream an answer starts.
    Every answer is one of the forms, so the theorems of [Outbound] are about the
    connections [Inbound] serves. *)

From S2P Require Import Prelude Text Envelope Command Tables Db Store Port Project Authority Submit Screen Hub Streams Attempts Wire Outbound Container Ordered Blobs Strict Protocol Hello Dispatch Inbound.

Section Replies.
Context `{TZ : Timestamptz} {V : Type} `{SD : Serde V} `{B64 : Base64} `{PGJ : !PageJson V}.
Context {S : Type} `{ES : EventStore V S} `{SM : StoreModel V S} {LAWS : EventStoreLaws V S}.
Context (public_revision : string) (writer_epoch : Z).

(** A result as the outbound half sees it. *)
Definition reply_of (r : WireResult V) : Reply :=
  match r with
  | WSubscribed cursor => Subscribed cursor
  | WPtyAttached id generation rows cols cursor => PtyAttached id generation rows cols cursor
  | WPtyRawAttached id generation rows cols cursor => PtyRawAttached id generation rows cols cursor
  | WError code _ => ErrorReply code
  | _ => OtherReply
  end.

(** A result that starts no stream. *)
Definition streamless (r : WireResult V) : Prop := exists code, reply_of r = default OtherReply (ErrorReply <$> code).

Lemma streamless_ok r : reply_of r = OtherReply -> streamless r.
Proof. intros H. by exists None. Qed.
Lemma streamless_error code detail : streamless (WError code detail).
Proof. by exists (Some code). Qed.
Lemma streamless_submission r : streamless (submission_result r).
Proof. destruct r; [by apply streamless_ok|apply streamless_error]. Qed.

Ltac ends :=
  repeat match goal with
  | |- leaves _ (prog_bind _ _) => apply (leaves_bind (fun _ => True)); [by apply leaves_all|intros ? _]
  | |- leaves _ (perform _) => intros ?
  | |- leaves _ (match ?x with _ => _ end) => destruct x
  | |- leaves _ (Ret _) => cbn [leaves]; cbv beta iota
  | |- context [fit_page ?f ?l] => destruct (fit_page f l) as [[? ?]|]
  | |- context [match ?x with _ => _ end] => destruct x
  end; first [done | apply streamless_submission | apply streamless_error | by apply streamless_ok].

Lemma submit_streamless env : leaves streamless (submit_command env).
Proof. unfold submit_command. ends. Qed.
Lemma deliver_streamless env r d control : leaves streamless (deliver_submission env r d control).
Proof. unfold deliver_submission, committed. ends. Qed.
Lemma submit_and_deliver_streamless env control : leaves streamless (submit_and_deliver env control).
Proof.
  unfold submit_and_deliver. apply (leaves_bind (fun _ => True)); [done|]. intros r _. destruct (delivery_id r); [apply deliver_streamless|ends].
Qed.
Lemma control_streamless env kind : leaves streamless (send_pty_control env kind).
Proof.
  unfold send_pty_control. destruct kind, (from_envelope env) as [[]|]; first [apply submit_and_deliver_streamless | ends].
Qed.
Lemma start_streamless env : leaves streamless (send_pty_start env).
Proof. unfold send_pty_start. destruct (from_envelope env) as [[]|]; first [apply submit_and_deliver_streamless | ends]. Qed.
Lemma input_streamless env data : leaves streamless (send_pty_input env data).
Proof.
  unfold send_pty_input. destruct (from_envelope env) as [[]|]; try ends. cbn zeta.
  apply (leaves_bind (fun _ => True)); [done|]. intros r _. destruct r as [cid rows w|e]; [|ends].
  destruct (decode_input data); [|ends]. destruct (delivery_id _); [apply deliver_streamless|ends].
Qed.
Lemma blob_streamless q : leaves streamless (answer_blob q).
Proof. destruct q; cbn [answer_blob]; unfold blob_chunk, blob_refusal; ends. Qed.
Lemma pty_streamless conn caps q : leaves streamless (answer_pty conn caps q).
Proof. destruct q; cbn [answer_pty]; unfold published; ends. Qed.

(** What may be answered where the connection's streams are these. *)
Definition stream_answer (streams : list (StreamTask (V := V))) (B : Type) (e : Act V B) : B -> Prop :=
  match e in Act _ B return B -> Prop with ActStreams => fun b => b = streams | _ => fun _ => True end.

Lemma may_leaves {A} (P : A -> Prop) R (p : prog V A) a : leaves P p -> may R p a -> P a.
Proof. induction p as [x|B e k IH]; cbn; [by intros ? <-|]. intros Hl (b & _ & Ha). by eapply IH. Qed.

Notation plain_answer := (fun x : result unit (WireResult V * option AdmittedStream) =>
  match x with Ok y => streamless y.1 /\ y.2 = None | Err _ => True end).
Lemma plainly_streamless p : leaves streamless p -> leaves plain_answer (plainly p).
Proof. intros H. by eapply leaves_bind. Qed.
Lemma fallibly_streamless p :
  leaves (fun r => match r with Ok r => streamless r | Err _ => True end) p -> leaves plain_answer (fallibly p).
Proof. intros H. eapply leaves_bind; [done|]. by intros [|]. Qed.

(** The requests that start no stream, and their answers. *)
Lemma streamless_answer R conn caps request_id q r a :
  match q with QSubscribeEvents _ | QPtyAttach _ _ _ | QPtyRawAttach _ _ _ => False | _ => True end ->
  may R (answer_request public_revision writer_epoch conn caps request_id q) (r, a) -> streamless r /\ a = None.
Proof.
  intros Hq Hm. revert Hm. apply (may_leaves (fun x => streamless x.1 /\ x.2 = None) R _ (r, a)).
  apply (leaves_bind (fun x => match x with Ok y => streamless y.1 /\ y.2 = None | Err _ => True end));
    [|intros [y|] Hy; cbn in *; [exact Hy|split; [apply streamless_error|done]]].
  destruct q; try done; cbn [try_answer];
    first [apply plainly_streamless | apply fallibly_streamless];
    first [apply submit_streamless | apply start_streamless | apply blob_streamless | apply pty_streamless | idtac].
  all: try (destruct (negb _); [ends|first [apply input_streamless | apply control_streamless]]).
  all: unfold verify_sealed, get_projection, list_projection, read_events, unserved_projection;
    try (destruct (served_in_v1 _)); cbv beta iota; ends.
Qed.

(** Every answer of a request, with the stream it admits, is a step of
    the outbound half of the connection. *)
Theorem answers_fit_the_outbound_half event_len conn caps request_id q r a (w : ConnWorld) :
  cw_reader w = Reading -> (forall c, q = QSubscribeEvents (Some c) -> (0 <= c)%Z) ->
  may (stream_answer (cw_streams w)) (answer_request public_revision writer_epoch conn caps request_id q) (r, a) ->
  conn_step event_len w (answer request_id (reply_of r, a) w).
Proof.
  intros Hw Hq Hm.
  assert (match q with QSubscribeEvents _ | QPtyAttach _ _ _ | QPtyRawAttach _ _ _ => True | _ => False end \/
    streamless r /\ a = None) as [Hs|[[code ->] ->]].
  { destruct q; try (by left); right; (eapply streamless_answer; [|exact Hm]; exact I). }
  2:{ by apply cs_other. }
  destruct q as [| | | | | | | | | | | |cursor| | | | | | |id g cursor|id g cursor| | | | |]; try done; clear Hs;
    apply may_bind in Hm as (res & Hm & Hret); apply may_bind in Hm as ([r1 a1] & Hm & <-); cbn in Hret; injection Hret as <- <-.
  - destruct Hm as (streams & -> & Hm). cbn [prog_bind may] in Hm. replace (reply_of r1, a1) with (admit_events request_id cursor (cw_streams w)).
    + apply cs_subscribe; [done|]. intros c ->. by apply Hq.
    + unfold admit_events. destruct (full (cw_streams w)); by injection Hm as <- <-.
  - destruct Hm as (streams & -> & Hm). cbn [prog_bind] in Hm.
    assert (exists attached, (reply_of r1, a1) = admit_pty request_id id attached (cw_streams w)) as [attached ->];
      [|by apply cs_attach]. unfold admit_pty. destruct (full (cw_streams w)); [injection Hm as <- <-; by exists (Err (pty_refuse EStorage))|].
    destruct Hm as ([at_|e] & _ & Hm); cbn [prog_bind] in Hm; [exists (Ok at_)|exists (Err e)]; [|by injection Hm as <- <-].
    apply may_bind in Hm as (? & _ & [= <- <-]). done.
  - unfold attach_raw_pty in Hm.
    assert (exists attached, (reply_of r1, a1) = admit_raw (cap_raw caps) request_id id attached (cw_streams w)) as [attached ->];
      [|by apply cs_attach_raw]. unfold admit_raw. destruct (cap_raw caps); cbn [negb] in *; [|injection Hm as <- <-; by exists (Err (pty_refuse EStorage))].
    destruct Hm as (streams & -> & Hm). cbn [prog_bind] in Hm. destruct (full (cw_streams w)); [injection Hm as <- <-; by exists (Err (pty_refuse EStorage))|].
    destruct Hm as ([at_|e] & _ & Hm); cbn [prog_bind] in Hm; [exists (Ok at_)|exists (Err e)]; [|by injection Hm as <- <-].
    apply may_bind in Hm as (? & _ & [= <- <-]). done.
Qed.
End Replies.
