(* ===== verification/Serve.v ===== *)
(** * Serving connections

    What the accesses of a request's program do to the daemon's state, and what
    others may do between two of them.  The state is the database, the attempts
    at PTY deliveries with the session registry, and the blob store, each with
    the steps of its own file; the delivery rows of the database are the table
    the attempts work on.  A call on the blob store runs to its answer without
    other calls in between; [Blobs] has the interleavings. *)

From S2P Require Import Prelude Text Envelope Command Tables Db Store Project Authority Submit Kernel System Screen Hub Streams Attempts Wire Outbound Container Ordered Blobs Cas Strict Protocol Hello Dispatch Inbound.

Section Serve.
Context `{TZ : Timestamptz} `{TZL : !TimestamptzLaws} {V : Type} `{SD : Serde V} `{SDL : !SerdeLaws V} `{HM : Hmac}
  `{PJ : PtyJson} `{AE : Aead}.
Context (apply_context_event : EventEnvelope V -> Proj instant V -> result Refusal (Proj instant V)).
Context (cfg : BlobConfig).
Notation event := (EventEnvelope V).
Notation database := (Db instant V).
Notation envelope := (CommandEnvelope V).
Notation submit := (submit apply_context_event).
Notation step := (step apply_context_event).
Notation reachable := (reachable apply_context_event).

Record Daemon := { dm_db : database; dm_att : AttemptWorld; dm_blobs : BlobWorld (V := V) }.

Definition set_db (db : database) (w : Daemon) : Daemon :=
  {| dm_db := db; dm_att := dm_att w; dm_blobs := dm_blobs w |}.
(** After a submission: its delivery row is there for the attempts. *)
Definition submitted (db : database) (w : Daemon) : Daemon :=
  {| dm_db := db; dm_att := with_table (deliveries db) (dm_att w); dm_blobs := dm_blobs w |}.
(** After a step of the attempts: the rows are those of the database. *)
Definition attempted (a : AttemptWorld) (w : Daemon) : Daemon :=
  {| dm_db := set_deliveries (w_table a) (dm_db w); dm_att := a; dm_blobs := dm_blobs w |}.
Definition stored (b : Blobs) (w : Daemon) : Daemon :=
  {| dm_db := dm_db w; dm_att := dm_att w; dm_blobs := {| bw_store := b; bw_tasks := bw_tasks (dm_blobs w) |} |}.
Definition hub_of (w : Daemon) : PtyHub := w_hub (dm_att w).
Definition verbed (v : HubVerb) (w : Daemon) : Daemon := attempted (with_hub (exec (hub_of w) v) (dm_att w)) w.

(** ** Others *)

Inductive other_step : Daemon -> Daemon -> Prop :=
| os_submit st clock env carrier res db' w :
    submit st clock env carrier (dm_db w) = (res, db') -> other_step w (submitted db' w)
| os_kernel db' w : step (dm_db w) db' -> deliveries db' = deliveries (dm_db w) -> other_step w (set_db db' w)
| os_attempt a w : attempt_step (V := V) (dm_att w) a -> other_step w (attempted a w)
| os_blob b w : blob_step (dm_blobs w) b -> other_step w {| dm_db := dm_db w; dm_att := dm_att w; dm_blobs := b |}.

(** ** The accesses *)

(** The genesis event [verify_sealed] reports. *)
Definition genesis_of (l : list event) : option (string * Z) :=
  (fun e => (event_id e, global_sequence e)) <$>
  head (List.filter (fun e => in_aggregate KERNEL_AGGREGATE KERNEL_SINGLETON e && bool_decide (event_type e = GENESIS_EVENT_TYPE)) l).

Definition unit_of {A} (r : result PtyRefusal A) : result PtyRefusal unit := match r with Ok _ => Ok tt | Err e => Err e end.

Inductive act_step : forall B, Act V B -> Daemon -> B -> Daemon -> Prop :=
| ac_epoch w : act_step _ ActEpoch w (epoch_of (log (dm_db w))) w
| ac_watermark w : act_step _ ActWatermark w (Store.watermark (log (dm_db w))) w
| ac_submit st clock env carrier res db' w :
    submit st clock env carrier (dm_db w) = (res, db') -> act_step _ (ActSubmit env carrier) w res (submitted db' w)
| ac_read_from cursor limit w : act_step _ (ActReadFrom cursor limit) w (read_page (log (dm_db w)) cursor limit) w
| ac_genesis w : act_step _ ActGenesis w (genesis_of (log (dm_db w))) w
| ac_count w : act_step _ ActCount w (Z.of_nat (length (log (dm_db w)))) w
| ac_rows k cursor exact limit w :
    act_step _ (ActRows k cursor exact limit) w
      ((fun m => read_rows m cursor exact limit) <$> projection_table k (dm_db w)) w
| ac_now t w : act_step _ ActNow w t w
| ac_version id w : act_step _ (ActPtyVersion id) w (pty_version <$> pty_sessions (proj (dm_db w)) !! id) w
(* the registry *)
| ac_snapshot id w : act_step _ (ActSnapshot id) w (snapshot id (hub_of w)) w
| ac_publish_snapshot conn id seq frame w :
    act_step _ (ActPublishSnapshot conn id seq frame) w
      (match publish_snapshot conn id seq frame (hub_of w) with Ok r => Ok r.1 | Err e => Err e end)
      (verbed (PublishSnapshot conn id seq frame) w)
| ac_publish_deltas conn id seq deltas w :
    act_step _ (ActPublishDeltas conn id seq deltas) w (unit_of (publish_deltas conn id seq deltas (hub_of w)))
      (verbed (PublishDeltas conn id seq deltas) w)
| ac_publish_raw_snapshot conn id seq rows cols b w :
    act_step _ (ActPublishRawSnapshot conn id seq rows cols b) w
      (unit_of (publish_raw_snapshot conn id seq rows cols b (hub_of w)))
      (verbed (PublishRawSnapshot conn id seq rows cols b) w)
| ac_publish_raw_output conn id seq b w :
    act_step _ (ActPublishRawOutput conn id seq b) w (unit_of (publish_raw_output conn id seq b (hub_of w)))
      (verbed (PublishRawOutput conn id seq b) w)
| ac_publish_raw_resize conn id seq rows cols w :
    act_step _ (ActPublishRawResize conn id seq rows cols) w
      (unit_of (publish_raw_resize conn id seq rows cols (hub_of w)))
      (verbed (PublishRawResize conn id seq rows cols) w)
| ac_retire conn id w :
    act_step _ (ActRetire conn id) w (match retire conn id (hub_of w) with Ok r => Ok r.1 | Err e => Err e end)
      (verbed (Retire conn id) w)
| ac_attach id generation cursor w :
    act_step _ (ActAttach id generation cursor) w (attach id generation cursor (hub_of w)) w
| ac_attach_raw id generation cursor w :
    act_step _ (ActAttachRaw id generation cursor) w (attach_raw id generation cursor (hub_of w)) w
| ac_connection w : act_step _ ActConnection w (connection (hub_of w)).1 (verbed Connection w)
| ac_register conn input control start w :
    act_step _ (ActRegister conn input control start) w tt (verbed (RegisterConnection conn input control start) w)
| ac_disconnect conn out h' w :
    disconnect conn (hub_of w) = (out, h') ->
    act_step _ (ActDisconnect conn) w out
      (attempted (with_hub h' (with_orphans (w_orphans (dm_att w) ++ abandoned out) (dm_att w))) w)
| ac_orphan now d token pre post w :
    w_orphans (dm_att w) = pre ++ (d, token) :: post ->
    act_step _ (ActAbandonOrphan d token) w tt
      (attempted (with_table (abandon_pty_delivery now d token (w_table (dm_att w)))
                    (with_orphans (pre ++ post) (dm_att w))) w)
| ac_streams l w : act_step _ ActStreams w l w
(* a delivery *)
| ac_pending d w : act_step _ (ActPending d) w (delivery_pending d (hub_of w)) w
| ac_claim now token key r t' w :
    token ∉ w_used (dm_att w) -> w_table (dm_att w) !! key = Some r ->
    claim_delivery (log (dm_db w)) now token key (w_table (dm_att w)) = (Claimed, t') ->
    act_step _ (ActClaim key) w (token, Claimed)
      (attempted {| w_hub := w_hub (dm_att w); w_table := t';
         w_attempts := <[token := {| at_key_ := key; at_delivery := dv_event_id r; at_phase := Holding |}]> (w_attempts (dm_att w));
         w_acks := w_acks (dm_att w); w_answers := w_answers (dm_att w); w_orphans := w_orphans (dm_att w);
         w_used := {[token]} ∪ w_used (dm_att w); w_sent := w_sent (dm_att w) |} w)
| ac_not_claimed now token key answer t' w :
    claim_delivery (log (dm_db w)) now token key (w_table (dm_att w)) = (answer, t') -> answer <> Claimed ->
    act_step _ (ActClaim key) w (token, answer) (attempted (with_table t' (dm_att w)) w)
| ac_refused token control a e w :
    w_attempts (dm_att w) !! token = Some a -> at_phase a = Holding -> pr_indeterminate e = false ->
    act_step _ (ActSend token control) w (Err e)
      (attempted (with_attempts (<[token := set_phase (Releasing false) a]> (w_attempts (dm_att w))) (dm_att w)) w)
| ac_send token a control owner ch h' w :
    w_attempts (dm_att w) !! token = Some a -> at_phase a = Holding -> control_delivery_id control = Some (at_delivery a) ->
    sends token control (hub_of w) owner ch h' ->
    act_step _ (ActSend token control) w (Ok tt)
      (attempted {| w_hub := h'; w_table := w_table (dm_att w);
         w_attempts := <[token := set_phase (Waiting owner ch) a]> (w_attempts (dm_att w));
         w_acks := w_acks (dm_att w); w_answers := w_answers (dm_att w); w_orphans := w_orphans (dm_att w);
         w_used := w_used (dm_att w); w_sent := w_sent (dm_att w) ++ [at_delivery a] |} w)
| ac_await token a owner ch answer res h' w :
    w_attempts (dm_att w) !! token = Some a -> at_phase a = Waiting owner ch ->
    (forall res0, answer = Answered res0 -> w_answers (dm_att w) !! ch = Some res0) ->
    finishes owner (at_delivery a) answer (hub_of w) res h' ->
    act_step _ (ActAwait token) w res
      (attempted (with_hub h' (with_attempts
         (match res with
          | Ok _ => delete token (w_attempts (dm_att w))
          | Err e => <[token := set_phase (if pr_indeterminate e then Abandoning else Releasing true) a]> (w_attempts (dm_att w))
          end) (dm_att w))) w)
| ac_release token a b w :
    w_attempts (dm_att w) !! token = Some a -> at_phase a = Releasing b ->
    act_step _ (ActRelease token) w tt
      (attempted (with_table (release_claim (at_key_ a) token (w_table (dm_att w)))
                    (with_attempts (delete token (w_attempts (dm_att w))) (dm_att w))) w)
| ac_abandon now token a w :
    w_attempts (dm_att w) !! token = Some a -> at_phase a = Abandoning ->
    act_step _ (ActAbandon token) w tt
      (attempted (with_table (abandon_pty_delivery now (at_delivery a) token (w_table (dm_att w)))
                    (with_attempts (delete token (w_attempts (dm_att w))) (dm_att w))) w)
(* an acknowledgement *)
| ac_ack conn d r answer token w :
    delivery_ack_result r = Ok answer -> delivery_ack_claim conn d (hub_of w) = Ok token ->
    act_step _ (ActAckClaim conn d r answer) w (Ok token)
      (attempted (with_acks ({| ack_conn := conn; ack_delivery := d; ack_claim := token; ack_result := r;
                                ack_answer := answer; ack_settled := false |} :: w_acks (dm_att w)) (dm_att w)) w)
| ac_no_ack conn d r answer e w :
    delivery_ack_claim conn d (hub_of w) = Err e -> act_step _ (ActAckClaim conn d r answer) w (Err e) w
| ac_settle now conn d token r answer pre post t' w :
    w_acks (dm_att w) = pre ++ {| ack_conn := conn; ack_delivery := d; ack_claim := token; ack_result := r;
                                  ack_answer := answer; ack_settled := false |} :: post ->
    settle_pty_delivery now d token r (w_table (dm_att w)) = Some t' ->
    act_step _ (ActSettle conn d token r answer) w true
      (attempted (with_table t' (with_acks (pre ++ {| ack_conn := conn; ack_delivery := d; ack_claim := token;
         ack_result := r; ack_answer := answer; ack_settled := true |} :: post) (dm_att w))) w)
| ac_not_settled now conn d token r answer pre post w :
    w_acks (dm_att w) = pre ++ {| ack_conn := conn; ack_delivery := d; ack_claim := token; ack_result := r;
                                  ack_answer := answer; ack_settled := false |} :: post ->
    settle_pty_delivery now d token r (w_table (dm_att w)) = None ->
    act_step _ (ActSettle conn d token r answer) w false (attempted (with_acks (pre ++ post) (dm_att w)) w)
| ac_take conn d token r answer pre post ch h' w :
    w_acks (dm_att w) = pre ++ {| ack_conn := conn; ack_delivery := d; ack_claim := token; ack_result := r;
                                  ack_answer := answer; ack_settled := true |} :: post ->
    take_delivery_ack conn d token (hub_of w) = Ok (ch, h') ->
    act_step _ (ActTakeAck conn d token r answer) w (Ok tt)
      (attempted {| w_hub := h'; w_table := w_table (dm_att w); w_attempts := w_attempts (dm_att w); w_acks := pre ++ post;
         w_answers := <[ch := answer]> (w_answers (dm_att w)); w_orphans := w_orphans (dm_att w);
         w_used := w_used (dm_att w); w_sent := w_sent (dm_att w) |} w)
| ac_not_taken conn d token r answer pre post e w :
    w_acks (dm_att w) = pre ++ {| ack_conn := conn; ack_delivery := d; ack_claim := token; ack_result := r;
                                  ack_answer := answer; ack_settled := true |} :: post ->
    take_delivery_ack conn d token (hub_of w) = Err e ->
    act_step _ (ActTakeAck conn d token r answer) w (Err e) (attempted (with_acks (pre ++ post) (dm_att w)) w)
| ac_reconcile now d r t' w :
    reconcile_pty_delivery now d r (w_table (dm_att w)) = Some t' ->
    act_step _ (ActReconcile d r) w true (attempted (with_table t' (dm_att w)) w)
| ac_not_reconciled now d r w :
    reconcile_pty_delivery now d r (w_table (dm_att w)) = None -> act_step _ (ActReconcile d r) w false w
(* the blob store *)
| ac_blob fuel f t a b w :
    is_call t = true -> fresh_ok f -> Cas.run fuel cfg f (bw_store (dm_blobs w)) t = (b, Some a) ->
    act_step _ (ActBlob t) w a (stored b w).

(** A program's run, with others between its accesses. *)
Inductive runs {A} : prog V A -> Daemon -> A -> Daemon -> Prop :=
| run_ret a w : runs (Ret a) w a w
| run_other p w1 w2 a w3 : other_step w1 w2 -> runs p w2 a w3 -> runs p w1 a w3
| run_act B (e : Act V B) k b w1 w2 a w3 : act_step B e w1 b w2 -> runs (k b) w2 a w3 -> runs (Do e k) w1 a w3.

(** ** A submission and the delivery rows *)

(** The rows after a submission: the same, or one fresh row more. *)
Definition rows_effect (t t' : gmap (string * string) (DeliveryRow instant)) : Prop :=
  t' = t \/ exists key cid eid seq binding,
    t !! key = None /\ (forall k r, t !! k = Some r -> dv_event_id r <> eid) /\
    t' = <[key := fresh_row cid eid seq binding]> t.

Lemma write_receipt_rows r (db db' : database) : write_receipt r db = Ok db' -> deliveries db' = deliveries db.
Proof. unfold write_receipt. intros Hr. inv_ok. cbn zeta in Hr. destruct (receipts db !! _); inv_ok; done. Qed.

Lemma append_locked_rows clock ws ev fence events (db : database) a db' :
  append_locked clock ws ev fence events db = Ok (a, db') -> deliveries db' = deliveries db.
Proof. unfold append_locked. cbn zeta. intros Hr. inv_ok.
  match type of Hr with match ?o with _ => _ end = _ => destruct o as [l|] end; inv_ok; simplify_eq; done.
Qed.

Lemma append_and_project_rows (st : Store (V := V)) clock ws env pre ev (db db' : database) v :
  append_and_project apply_context_event st clock ws env pre ev db = Ok (db', v) ->
  rows_effect (deliveries db) (deliveries db').
Proof.
  unfold append_and_project. intros Hr. apply bind_ok_iff in Hr as ([] & _ & Hr). apply bind_ok_iff in Hr as (e & _ & Hr).
  apply bind_ok_iff in Hr as ([a dba] & Ha & Hr). destruct (append_locked _ _ _ _ _ _) as [[a' dba']|] eqn:Ha'; [|done].
  injection Ha as -> ->. apply append_locked_rows in Ha'. rewrite <-Ha'.
  apply bind_ok_iff in Hr as (dbb & Hp & Hr). apply bind_ok_iff in Hr as (dbc & Hc & [= <- _]).
  assert (deliveries dbc = deliveries dbb) as ->.
  { destruct (last _); [|by injection Hc as <-]. destruct (checkpoint_if_due _ _ _ _ _) as [dbd|] eqn:Ec; [|done].
    injection Hc as <-. by apply checkpoint_if_due_ok in Ec as (_ & _ & _ & ? & _). }
  destruct (app_replayed _); [injection Hp as <-; by left|]. apply bind_ok_iff in Hp as (p & _ & Hp). cbn zeta in Hp.
  destruct (receipted_pty_command _); [|injection Hp as <-; by left]. apply bind_ok_iff in Hp as (e' & _ & Hp).
  unfold register_delivery in Hp. apply bind_ok_iff in Hp as ([] & Hf%ensure_ok_iff & [= <-]). unbool.
  right. eexists _, _, _, _, _. split_and!; [..|reflexivity]; cbn in *.
  - by destruct (deliveries dba !! _).
  - intros k r Hk. match goal with H : map_Forall _ _ |- _ => by apply H in Hk as [_ ?] end.
Qed.

(** The receipt of a step that may write one. *)
Lemma receipt_step_rows (b : bool) r (db db' : database) :
  (if b then write_receipt r db else mret db) = Ok db' -> deliveries db' = deliveries db.
Proof. destruct b; [apply write_receipt_rows|by intros [= <-]]. Qed.

Lemma submit_unused_rows (st : Store (V := V)) clock ws ep env pre (db db' : database) v :
  submit_unused apply_context_event st clock ws ep env pre db = Ok (db', v) ->
  rows_effect (deliveries db) (deliveries db').
Proof.
  unfold submit_unused. cbn zeta. intros E.
  do 3 (apply bind_ok_iff in E as ([] & _ & E)). apply bind_ok_iff in E as (decision & _ & E).
  assert (forall cls basis, paged env (pre_command pre) (pre_route pre) cls basis db = Ok (db', v) ->
    rows_effect (deliveries db) (deliveries db')) as Hpaged.
  { intros cls basis. unfold paged. cbn zeta. intros (db1 & Hw & (p & _ & [= <- _])%bind_ok_iff)%bind_ok_iff.
    left. cbn. by apply write_receipt_rows in Hw. }
  destruct decision as [|cls basis|cls basis]; [..|by eapply Hpaged].
  all: apply bind_ok_iff in E as (db1 & Hw & E).
  all: assert (deliveries db1 = deliveries db) as Hd1.
  1,3: destruct (receipted_pty_command _); [by injection Hw as <-|];
       try destruct (authority_result _) as [[? ?]|]; [by eapply write_receipt_rows|by injection Hw as <-].
  all: rewrite <-Hd1; apply bind_ok_iff in E as ([] & _ & E); destruct (decide_command _ _ _ _) as [ev|refusal_].
  all: try (destruct (receipted_pty_command _); [|done]; apply bind_ok_iff in E as ([? ?] & _ & E);
            unfold receipted_pty_refusal in E; apply bind_ok_iff in E as (db2 & Hw2 & [= <- _]); left; by eapply write_receipt_rows).
  all: apply bind_ok_iff in E as (db2 & Hw2 & E); apply append_and_project_rows in E.
  all: assert (deliveries db2 = deliveries db1) as <-; [|done].
  all: destruct (receipted_pty_command _); [|by injection Hw2 as <-].
  all: apply bind_ok_iff in Hw2 as ([? ?] & _ & Hw2); by eapply write_receipt_rows.
Qed.

Lemma submit_rows (st : Store (V := V)) clock env carrier res (db db' : database) :
  submit st clock env carrier db = (res, db') -> rows_effect (deliveries db) (deliveries db').
Proof.
  unfold Submit.submit. destruct (_ ≫= _) as [[dbx v]|e] eqn:E; [|intros [= _ <-]; by left].
  assert (rows_effect (deliveries db) (deliveries dbx)) as Hx; [|destruct v; [destruct (Store.watermark _)|]; by intros [= _ <-]].
  apply bind_ok_iff in E as (pre & _ & E). unfold submit_tx in E. cbn zeta in E.
  apply bind_ok_iff in E as (ws & _ & E). apply bind_ok_iff in E as (ep & _ & E). apply bind_ok_iff in E as ([] & _ & E).
  destruct (pre_input_refusal _).
  { unfold receipted_pty_refusal in E. apply bind_ok_iff in E as (db2 & Hw & [= <- _]). left. by eapply write_receipt_rows. }
  destruct (prior_for_key _ _ _ _); [by eapply submit_unused_rows| |done].
  apply bind_ok_iff in E as ([] & _ & [= <- _]). by left.
Qed.
(** ** The parts stay on their own histories *)

(** The delivery rows of the database are those the attempts work on. *)
Definition linked (w : Daemon) : Prop := w_table (dm_att w) = deliveries (dm_db w).

(** Every part of the state moves by steps of its own. *)
Record moves (w w' : Daemon) : Prop := {
  mv_db : rtc step (dm_db w) (dm_db w');
  mv_att : rtc (attempt_step (V := V)) (dm_att w) (dm_att w');
  mv_blobs : rtc blob_step (dm_blobs w) (dm_blobs w');
  mv_linked : linked w';
}.

Lemma moves_refl w : linked w -> moves w w.
Proof. by split. Qed.

Lemma moves_trans w1 w2 w3 : moves w1 w2 -> moves w2 w3 -> moves w1 w3.
Proof. intros [] []. split; [by etrans..|done]. Qed.

Lemma attempted_moves a w : attempt_step (V := V) (dm_att w) a -> moves w (attempted a w).
Proof. intros Hs. split; [apply rtc_once, step_delivery|by apply rtc_once|done|by destruct (dm_db w)]. Qed.

Lemma submitted_moves st clock env carrier res db' w :
  linked w -> submit st clock env carrier (dm_db w) = (res, db') -> moves w (submitted db' w).
Proof.
  intros Hl Hs. pose proof (submit_rows _ _ _ _ _ _ _ Hs) as He.
  split; [by apply rtc_once; eapply step_submit| |done|done]. cbn.
  destruct He as [He|(key & cid & eid & seq & binding & H1 & H2 & H3)].
  - rewrite He, <-Hl. by replace (with_table _ _) with (dm_att w) by (by destruct (dm_att w)).
  - rewrite H3. apply rtc_once. rewrite <-Hl in *. by apply as_register.
Qed.

Lemma kernel_moves db' w :
  linked w -> step (dm_db w) db' -> deliveries db' = deliveries (dm_db w) -> moves w (set_db db' w).
Proof. intros Hl Hs He. split; [by apply rtc_once|done..|]. unfold linked. cbn. by rewrite He. Qed.

Lemma verbed_moves v w : plain_verb v = true -> moves w (verbed v w).
Proof. intros Hv. apply attempted_moves. by apply as_verb. Qed.

(** A call on the blob store is a call among its tasks, run to its end. *)
Lemma run_steps fuel f (b b' : Blobs (V := V)) t a ts :
  fresh_ok f -> Cas.run fuel cfg f b t = (b', Some a) ->
  rtc blob_step {| bw_store := b; bw_tasks := ts ++ [(cfg, t)] |} {| bw_store := b'; bw_tasks := ts ++ [(cfg, TDone a)] |}.
Proof.
  intros Hf. revert b t. induction fuel as [|fuel IH]; intros b t; cbn [Cas.run].
  - destruct t; try done. by intros [= -> ->].
  - assert (let '(b1, t1) := task_step cfg f b t in Cas.run fuel cfg f b1 t1 = (b', Some a) ->
      rtc blob_step {| bw_store := b; bw_tasks := ts ++ [(cfg, t)] |} {| bw_store := b'; bw_tasks := ts ++ [(cfg, TDone a)] |}) as Hs.
    { destruct (task_step cfg f b t) as [b1 t1] eqn:E. intros Hr. eapply rtc_l; [|by apply IH].
      pose proof (bs_run (length ts) cfg t f b1 t1 {| bw_store := b; bw_tasks := ts ++ [(cfg, t)] |}) as Hrun. cbn in Hrun.
      rewrite insert_app_r_alt, Nat.sub_diag in Hrun by lia. apply Hrun; [|done|done].
      by rewrite lookup_app_r, Nat.sub_diag by lia. }
    destruct t; try (destruct (task_step cfg f b _) as [b1 t1]; exact Hs). by intros [= -> ->].
Qed.

Context (Hkek : utf8_ok (bc_kek_id cfg) = true).

Lemma stored_moves fuel f t a b w :
  linked w -> is_call t = true -> fresh_ok f -> Cas.run fuel cfg f (bw_store (dm_blobs w)) t = (b, Some a) ->
  moves w (stored b w).
Proof.
  intros Hl Hc Hf Hrun. split; cbn; [done..| |done]. destruct (dm_blobs w) as [b0 ts]. cbn in *.
  eapply rtc_l; [by apply (bs_call cfg t)|]. cbn. etrans; [by eapply run_steps|]. apply rtc_once.
  pose proof (bs_stop (length ts) cfg (TDone a) 0 {| bw_store := b; bw_tasks := ts ++ [(cfg, TDone a)] |}) as Hstop. cbn in Hstop.
  rewrite delete_middle, app_nil_r in Hstop. apply Hstop. by rewrite lookup_app_r, Nat.sub_diag by lia.
Qed.

Lemma other_moves w w' : linked w -> other_step w w' -> moves w w'.
Proof.
  intros H. destruct 1; [by eapply submitted_moves|by apply kernel_moves|by apply attempted_moves|].
  split; [done..|by apply rtc_once|done].
Qed.

Lemma act_moves B (e : Act V B) w b w' : linked w -> act_step B e w b w' -> moves w w'.
Proof.
  intros H. destruct 1; try (by apply moves_refl); try (by apply verbed_moves);
    try (by eapply submitted_moves); try (by eapply stored_moves); apply attempted_moves.
  - by eapply as_disconnect.
  - by eapply as_orphan.
  - by eapply as_claim.
  - by eapply as_not_claimed.
  - by eapply as_refused.
  - by eapply as_send.
  - by eapply as_finish.
  - by eapply as_release.
  - by eapply as_abandon.
  - by eapply as_ack.
  - exact (as_settle now pre _ post t' _ H0 H1).
  - by eapply as_drop_ack.
  - exact (as_take pre _ post ch h' _ H0 eq_refl H1).
  - by eapply as_drop_ack.
  - by eapply as_reconcile.
Qed.

Lemma runs_moves {A} (p : prog V A) w a w' : linked w -> runs p w a w' -> moves w w'.
Proof.
  intros H. induction 1 as [a w|p w1 w2 a w3 Ho _ IH|B e k b w1 w2 a w3 Ha _ IH]; [by apply moves_refl|..].
  - pose proof (other_moves _ _ H Ho) as Hm. by eapply moves_trans, IH, mv_linked.
  - pose proof (act_moves _ _ _ _ _ H Ha) as Hm. by eapply moves_trans, IH, mv_linked.
Qed.

(** The accesses of a connection are steps of the parts they go to:
    serving one moves the database by steps of the kernel, the delivery attempts
    by steps of the delivery queue and the blob store by steps of its tasks, so
    that what is proved of every history of a part holds of it while it is
    served. *)
Theorem serving_refines_the_parts `{B64 : Base64} `{PGJ : !PageJson V} `{C : Clock} `{JR : JsonReader}
    public_revision writer_epoch shape_of in_time gone answer_json hello_in_time cut c w r w' :
  linked w ->
  runs (serve_connection public_revision writer_epoch shape_of in_time gone answer_json hello_in_time cut c) w r w' ->
  rtc step (dm_db w) (dm_db w') /\ rtc (attempt_step (V := V)) (dm_att w) (dm_att w') /\
  rtc blob_step (dm_blobs w) (dm_blobs w') /\ w_table (dm_att w') = deliveries (dm_db w').
Proof. intros Hl Hr. by destruct (runs_moves _ _ _ _ Hl Hr). Qed.
End Serve.
