(* ===== verification/Paging.v ===== *)
(** * Walking a projection

    A client reads a projection page by page, each page from the cursor the one
    before it returned.  Every row that is there throughout comes out once, in
    the order of its key, whatever is written between two pages; and over a table
    that stays as it is the walk ends, with the table. *)

From S2P Require Import Prelude Text Envelope Command Tables Db Store Project Authority Submit Kernel System Screen Hub Streams Attempts Wire Outbound Container Ordered Blobs Cas Protocol Hello Dispatch Serve.

(** ** Ascending lists *)

Lemma string_ltb_trans a b c : string_ltb a b = true -> string_ltb b c = true -> string_ltb a c = true.
Proof.
  intros [Hab Nab]%string_ltb_spec [Hbc Nbc]%string_ltb_spec. apply string_ltb_spec. split.
  - exact (leb_trans String.leb _ _ _ Hab Hbc).
  - intros ->. apply Nab. by apply string_leb_antisym.
Qed.

Lemma string_ltb_total a b : string_ltb a b = true \/ a = b \/ string_ltb b a = true.
Proof.
  destruct (String.leb a b) eqn:H1; [|right; right; unfold string_ltb; by rewrite H1].
  destruct (decide (a = b)); [by right; left|]. left. by apply string_ltb_spec.
Qed.

Lemma ascending_app l1 l2 :
  ascending (l1 ++ l2) <-> ascending l1 /\ ascending l2 /\ forall a b, a ∈ l1 -> b ∈ l2 -> string_ltb a b = true.
Proof.
  induction l1 as [|x l1 IH]; cbn.
  - split; [|by intros (_ & ? & _)]. intros H. split_and!; [constructor|done|]. intros a b Ha. inversion Ha.
  - unfold ascending in *. rewrite !StronglySorted_cons, IH, Forall_app, !Forall_forall. split.
    + intros ([H1 H2] & H3 & H4 & H5). split_and!; try done. intros a b [->|Ha]%elem_of_cons Hb; [|by apply H5].
      by apply Is_true_true, H2.
    + intros ([H1 H3] & H4 & H5). split_and!; try done.
      * intros b Hb. apply Is_true_true, H5; [left|done].
      * intros a b Ha. apply H5. by right.
Qed.

(** The last of an ascending list is above the others. *)
Lemma ascending_last l x a : ascending l -> last l = Some x -> a ∈ l -> a = x \/ string_ltb a x = true.
Proof.
  intros Hl (l' & ->)%last_Some [Ha|Ha]%elem_of_app; [right|left; by apply list_elem_of_singleton].
  apply ascending_app in Hl as (_ & _ & Hl). apply Hl; [done|by left].
Qed.

Lemma string_ltb_irrefl a : string_ltb a a = false.
Proof. destruct (string_ltb a a) eqn:E; [|done]. by apply string_ltb_spec in E as [_ ?]. Qed.
Section Paging.
Context `{TZ : Timestamptz} {V : Type} `{PGJ : !PageJson V}.
Notation database := (Db instant V).
Notation record := (ProjectionRecord V).

(** What an access that reads projection rows answers at [db]; the others answer
    anything. *)
Definition row_answer (db : database) {B} (e : Act V B) : B -> Prop :=
  match e in Act _ B return B -> Prop with
  | ActRows k cursor exact limit => fun b => b = (fun m => read_rows m cursor exact limit) <$> projection_table k db
  | _ => fun _ => True
  end.

(** [p] can answer [a] with its rows read at [db]. *)
Notation reads db := (may (fun B (e : Act V B) => row_answer db e)).

Section Walk.
Context (k : ProjectionKind) (limit : option Z).

(** A page that a request from [cursor] answers with its rows read at [db]. *)
Definition listed (db : database) (cursor : option string) (records : list record) (next : option string) : Prop :=
  exists wm at_, reads db (list_projection k cursor limit) (Ok (WProjectionPage records next wm at_)).

(** The requests of a walk: where each was read, and all that they returned. *)
Inductive walk : option string -> list database -> list record -> Prop :=
| walk_end db cursor records : listed db cursor records None -> walk cursor [db] records
| walk_on db dbs cursor records next more :
    listed db cursor records (Some next) -> walk (Some next) dbs more -> walk cursor (db :: dbs) (records ++ more).

Definition beyond (cursor : option string) (key : string) : Prop :=
  match cursor with Some c => string_ltb c key = true | None => True end.

(** The rows of a table after a cursor. *)
Definition rows_after (m : gmap string (ProjectionRow V)) (cursor : option string) : list record :=
  (fun '(k, r) => {| pr_key := k; pr_row := r |}) <$>
  List.filter (fun p => match cursor with Some c => string_ltb c p.1 | None => true end) (btree_iter m).

Lemma read_rows_after m cursor n : read_rows m cursor None n = take (Z.to_nat n) (rows_after m cursor).
Proof.
  unfold read_rows, rows_after. rewrite <-firstn_map. f_equal. f_equal. apply List.filter_ext. intros [? ?].
  apply andb_true_r.
Qed.

Lemma rows_after_elem m cursor r : r ∈ rows_after m cursor <-> m !! pr_key r = Some (pr_row r) /\ beyond cursor (pr_key r).
Proof.
  unfold rows_after. rewrite list_elem_of_fmap. setoid_rewrite list_elem_of_In. setoid_rewrite filter_In.
  setoid_rewrite <-list_elem_of_In. split.
  - intros ([key row] & -> & Hm%btree_iter_elem & Hc). split; [done|]. by destruct cursor.
  - intros [Hm Hb]. exists (pr_key r, pr_row r). split; [by destruct r|]. split; [by apply btree_iter_elem|].
    by destruct cursor.
Qed.

Lemma rows_after_none m : rows_after m None = (fun '(k, r) => {| pr_key := k; pr_row := r |}) <$> btree_iter m.
Proof. unfold rows_after. f_equal. induction (btree_iter m) as [|p l IH]; cbn; [done|by rewrite IH]. Qed.

Lemma rows_after_ascending m cursor : ascending (pr_key <$> rows_after m cursor).
Proof.
  unfold rows_after. rewrite <-list_fmap_compose. pose proof (btree_iter_keys m) as Hk.
  induction (btree_iter m) as [|[key row] l IH]; [constructor|]. cbn in Hk |- *.
  apply StronglySorted_cons in Hk as [HF Hk]. destruct (match cursor with Some c => _ | None => _ end); [|by apply IH].
  cbn. apply StronglySorted_cons. split; [|by apply IH]. rewrite Forall_forall in HF |- *.
  intros x (p & -> & Hp)%list_elem_of_fmap. apply HF. apply list_elem_of_In, filter_In in Hp as [Hp%list_elem_of_In _].
  apply list_elem_of_fmap. exists p. by destruct p.
Qed.

(** The table and the rows a page is cut from. *)
Lemma listed_ok db cursor records next :
  listed db cursor records next ->
  exists m cut, projection_table k db = Some m /\
    fit_page record_len (take (Z.to_nat (page_rows limit)) (rows_after m cursor)) = Some (records, cut) /\
    next = next_cursor records cut (page_rows limit).
Proof.
  unfold listed, list_projection, unserved_projection. intros (wm & at_ & Hr). destruct (served_in_v1 k); [|done].
  apply may_bind in Hr as ([ready|] & _ & Hr); [|done].
  apply may_bind in Hr as ([[page cut]|] & Hp & Hr); [|done].
  unfold projection_page in Hp. cbn in Hp. destruct Hp as (b & -> & Hp).
  destruct (projection_table k db) as [m|]; [|done]. cbn in Hp. rewrite read_rows_after in Hp.
  destruct (forallb _ _); [|done]. apply ok_or_ok_iff in Hp. exists m, cut.
  cbn in Hr. destruct Hr as (t & _ & [= <- <- _ _]). done.
Qed.

Lemma page_rows_pos : (1 <= page_rows limit)%Z.
Proof. unfold page_rows. lia. Qed.

(** A page is the first of the rows after its cursor; it names its last row as the
    next cursor, or is all of them. *)
Lemma listed_page db cursor records next :
  listed db cursor records next ->
  exists m more, projection_table k db = Some m /\ rows_after m cursor = records ++ more /\
    match next with None => more = [] | Some c => exists r, last records = Some r /\ pr_key r = c end.
Proof.
  intros (m & cut & Hm & Hf & ->)%listed_ok. pose proof page_rows_pos as Hn. set (n := page_rows limit) in *.
  set (L := rows_after m cursor) in *. pose proof (take_drop (Z.to_nat n) L) as Htd.
  pose proof Hf as (page & Hpage & [l Hl] & Hc & Hne)%fit_from_ok. cbn in Hpage. subst page.
  exists m, (l ++ drop (Z.to_nat n) L). split; [done|]. split; [by rewrite app_assoc, <-Hl|].
  unfold next_cursor. destruct (negb cut && _) eqn:E.
  - unbool. destruct cut; [done|]. specialize (Hc eq_refl). rewrite Hl in Hc.
    assert (l = []) as -> by (destruct l; [done|]; apply (f_equal length) in Hc; rewrite length_app in Hc; cbn in Hc; lia).
    cbn. apply nil_length_inv. rewrite length_drop. rewrite app_nil_r in Hl.
    apply (f_equal length) in Hl. rewrite length_take in Hl. lia.
  - destruct (last records) as [r|] eqn:El; [by exists r|]. cbn. apply last_None in El as ->.
    destruct (take (Z.to_nat n) L) eqn:Et; [|by destruct (Hne eq_refl)]. cbn in Hl. subst l. cbn.
    destruct L as [|x L']; [by destruct (Z.to_nat n)|]. destruct (Z.to_nat n) eqn:En; [lia|done].
Qed.

Lemma walk_beyond cursor dbs records :
  walk cursor dbs records ->
  ascending (pr_key <$> records) /\
  Forall (fun r => beyond cursor (pr_key r) /\
     exists db m, db ∈ dbs /\ projection_table k db = Some m /\ m !! pr_key r = Some (pr_row r)) records /\
  (forall key, beyond cursor key -> (forall db, db ∈ dbs -> exists m, projection_table k db = Some m /\ is_Some (m !! key)) ->
     key ∈ pr_key <$> records).
Proof.
  induction 1 as [db cursor records Hp|db dbs cursor records next more Hp _ (IHs & IHf & IHc)].
  - apply listed_page in Hp as (m & more & Hm & Hl & ->). rewrite app_nil_r in Hl. subst records. split_and!.
    + apply rows_after_ascending.
    + apply Forall_forall. intros r [Hr Hb]%rows_after_elem. split; [done|]. exists db, m. split_and!; [by left|done..].
    + intros key Hb Hall. destruct (Hall db) as (m' & Hm' & row & Hrow); [by left|]. simplify_eq.
      apply list_elem_of_fmap. exists {| pr_key := key; pr_row := row |}. split; [done|]. by apply rows_after_elem.
  - apply listed_page in Hp as (m & rest & Hm & Hl & r0 & Hlast & <-).
    pose proof (rows_after_ascending m cursor) as Hasc. rewrite Hl, fmap_app in Hasc.
    apply ascending_app in Hasc as (Hasc1 & _ & Hasc2).
    assert (r0 ∈ records) as Hr0 by (apply last_Some in Hlast as (l' & ->); set_solver).
    assert (forall r, r ∈ records -> m !! pr_key r = Some (pr_row r) /\ beyond cursor (pr_key r)) as Hrec.
    { intros r Hr. apply rows_after_elem. rewrite Hl. set_solver. }
    assert (last (pr_key <$> records) = Some (pr_key r0)) as Hlk by (by rewrite fmap_last, Hlast).
    split_and!.
    + rewrite fmap_app. apply ascending_app. split_and!; [done..|]. intros a b Ha (r & -> & Hr)%list_elem_of_fmap.
      rewrite Forall_forall in IHf. destruct (IHf _ Hr) as [Hb _]. cbn in Hb.
      destruct (ascending_last _ _ _ Hasc1 Hlk Ha) as [->|]; [done|by eapply string_ltb_trans].
    + apply Forall_app. split; apply Forall_forall.
      * intros r Hr. destruct (Hrec _ Hr). split; [done|]. exists db, m. split_and!; [by left|done..].
      * intros r Hr. rewrite Forall_forall in IHf. destruct (IHf _ Hr) as (Hb & db' & m' & Hin & ?). split.
        { destruct cursor as [c|]; [|done]. cbn. eapply string_ltb_trans; [by apply (Hrec r0)|done]. }
        exists db', m'. split; [by right|done].
    + intros key Hb Hall. rewrite fmap_app. apply elem_of_app.
      destruct (Hall db) as (m' & Hm' & row & Hrow); [by left|]. simplify_eq.
      assert ({| pr_key := key; pr_row := row |} ∈ rows_after m cursor) as Hin by (by apply rows_after_elem).
      rewrite Hl in Hin. apply elem_of_app in Hin as [Hin|Hin]; [left; exact (list_elem_of_fmap_2 pr_key _ _ Hin)|right].
      apply IHc; [|by intros db' ?; apply Hall; right]. cbn. apply Hasc2; [by apply list_elem_of_fmap_2|exact (list_elem_of_fmap_2 pr_key _ _ Hin)].
Qed.

(** ** A table that stays *)

Context (db : database) (m : gmap string (ProjectionRow V)) (now : instant).
Context (Hk : served_in_v1 k = true) (Hm : projection_table k db = Some m).
Context (Hjson : forall key row, m !! key = Some row ->
  let r := {| pr_key := key; pr_row := row |} in contract_record r = true /\ is_Some (record_len r)).

Lemma a_page cursor : exists records next, listed db cursor records next.
Proof.
  assert (forall r, r ∈ rows_after m cursor -> contract_record r = true /\ is_Some (record_len r)) as Hr.
  { intros [key row] [Hl _]%rows_after_elem. by apply (Hjson key row). }
  destruct (fit_from_total record_len (take (Z.to_nat (page_rows limit)) (rows_after m cursor)) 0 []) as [[page cut] Hp].
  { intros r Hin. apply Hr. exact (subseteq_take _ _ _ Hin). }
  exists page, (next_cursor page cut (page_rows limit)). unfold listed. do 2 eexists.
  unfold list_projection, unserved_projection. rewrite Hk. apply may_bind. exists (Ok {| rd_sealed := false; rd_watermark := None |}).
  split; [by exists (Ok EpochActive); split; [|by exists None]|]. apply may_bind. exists (Ok (page, cut)). split.
  - eexists. split; [reflexivity|]. cbn. rewrite Hm. cbn. rewrite read_rows_after.
    replace (forallb _ _) with true; [unfold fit_page; by rewrite Hp|]. symmetry. apply forallb_forall.
    intros r Hin%list_elem_of_In. apply Hr. exact (subseteq_take _ _ _ Hin).
  - by exists now.
Qed.

Lemma NoDup_of_ascending l : ascending l -> NoDup l.
Proof.
  induction 1 as [|x l _ IH HF]; constructor; [|done]. intros Hx. rewrite Forall_forall in HF.
  apply HF, Is_true_true in Hx. by rewrite string_ltb_irrefl in Hx.
Qed.

(** The rows after a page's last are what the page left. *)
Lemma rows_left cursor records more r0 :
  rows_after m cursor = records ++ more -> last records = Some r0 ->
  (length (rows_after m (Some (pr_key r0))) < length (rows_after m cursor))%nat.
Proof.
  intros Hl Hlast. pose proof (rows_after_ascending m cursor) as Hasc. rewrite Hl, fmap_app in Hasc.
  apply ascending_app in Hasc as (Hasc1 & _ & _).
  assert (last (pr_key <$> records) = Some (pr_key r0)) as Hlk by (by rewrite fmap_last, Hlast).
  assert (r0 ∈ records) as Hr0 by (apply last_Some in Hlast as (l' & ->); set_solver).
  assert (beyond cursor (pr_key r0)) as Hb0.
  { apply (rows_after_elem m). rewrite Hl. set_solver. }
  enough (rows_after m (Some (pr_key r0)) ⊆+ more) as Hs%submseteq_length.
  { rewrite Hl, length_app. destruct records; [done|]. cbn. lia. }
  apply NoDup_submseteq; [by eapply NoDup_fmap_1, NoDup_of_ascending, rows_after_ascending|].
  intros r [Hr Hb]%rows_after_elem. cbn in Hb.
  assert (r ∈ records ++ more) as [Hin|]%elem_of_app; [|exfalso|done].
  { rewrite <-Hl. apply rows_after_elem. split; [done|]. destruct cursor; [by eapply string_ltb_trans|done]. }
  destruct (ascending_last _ _ (pr_key r) Hasc1 Hlk) as [He|Hlt]; [by apply list_elem_of_fmap_2| |].
  - rewrite He, string_ltb_irrefl in Hb. done.
  - pose proof (string_ltb_trans _ _ _ Hb Hlt) as Hbad. by rewrite string_ltb_irrefl in Hbad.
Qed.

Lemma walk_ends cursor :
  exists n records, walk cursor (replicate n db) records /\ (n <= S (length (rows_after m cursor)))%nat.
Proof.
  remember (length (rows_after m cursor)) as len eqn:Elen. revert cursor Elen.
  induction len as [len IH] using lt_wf_ind. intros cursor ->. destruct (a_page cursor) as (records & [c|] & Hp).
  - pose proof (listed_page _ _ _ _ Hp) as (m' & more & Hm' & Hl & r0 & Hlast & <-). simplify_eq.
    pose proof (rows_left _ _ _ _ Hl Hlast) as Hlt. destruct (IH _ Hlt _ eq_refl) as (n & rest & Hw & Hn).
    exists (S n), (records ++ rest). split; [by eapply walk_on|lia].
  - exists 1%nat, records. split; [by apply walk_end|lia].
Qed.

(** Records of one table with the same keys are the same. *)
Lemma records_by_key (l1 l2 : list record) :
  (forall r, r ∈ l1 ++ l2 -> m !! pr_key r = Some (pr_row r)) -> pr_key <$> l1 = pr_key <$> l2 -> l1 = l2.
Proof.
  revert l2. induction l1 as [|r1 l1 IH]; intros [|r2 l2] Hall He; try done. injection He as He1 He2. f_equal.
  - pose proof (Hall r1 ltac:(set_solver)) as H1. pose proof (Hall r2 ltac:(set_solver)) as H2.
    destruct r1, r2. cbn in *. congruence.
  - apply IH; [|done]. intros r Hr. apply Hall. set_solver.
Qed.

(** Over a table that stays, a walk returns the table. *)
Lemma walk_all n records : walk None (replicate n db) records -> records = rows_after m None.
Proof.
  intros (Hasc & HF & Hc)%walk_beyond. rewrite Forall_forall in HF.
  assert (forall r, r ∈ records -> m !! pr_key r = Some (pr_row r)) as Hin.
  { intros r Hr. destruct (HF _ Hr) as (_ & db' & m' & ->%elem_of_replicate_inv & Hm' & ?). by simplify_eq. }
  assert (forall r, r ∈ rows_after m None -> m !! pr_key r = Some (pr_row r)) as Hin' by (by intros r []%rows_after_elem).
  apply records_by_key; [by intros r [?|?]%elem_of_app; auto|].
  apply ascending_unique; [done|apply rows_after_ascending|]. intros key. split.
  - intros (r & -> & Hr)%list_elem_of_fmap. apply list_elem_of_fmap_2, rows_after_elem. split; [by apply Hin|exact I].
  - intros (r & -> & Hr)%list_elem_of_fmap. apply Hc; [done|]. intros db' ->%elem_of_replicate_inv.
    exists m. split; [done|]. eexists. by apply Hin'.
Qed.
End Walk.

(** C19: Listing a projection page after page, from the start to the
    page without a cursor, with the database moving on between the requests: the
    keys come in strictly ascending order, every record was a row of one of the
    databases read, and a key that was there all along is listed.  Over a
    database that stands still, whose rows are all contract records that
    serialise, the walk ends within a page more than there are rows and lists
    exactly the table. *)
Theorem walking_lists_every_row k limit :
  (forall dbs records, walk k limit None dbs records ->
     ascending (pr_key <$> records) /\
     (forall r, r ∈ records -> exists db m, db ∈ dbs /\ projection_table k db = Some m /\ m !! pr_key r = Some (pr_row r)) /\
     (forall key, (forall db, db ∈ dbs -> exists m, projection_table k db = Some m /\ is_Some (m !! key)) ->
        key ∈ pr_key <$> records)) /\
  (forall db m (now : instant), served_in_v1 k = true -> projection_table k db = Some m ->
     (forall key row, m !! key = Some row ->
        contract_record {| pr_key := key; pr_row := row |} = true /\ is_Some (record_len {| pr_key := key; pr_row := row |})) ->
     exists n, (n <= S (size m))%nat /\
       walk k limit None (replicate n db) ((fun '(key, row) => {| pr_key := key; pr_row := row |}) <$> btree_iter m)).
Proof.
  split.
  - intros dbs records (Ha & HF & Hc)%walk_beyond. split_and!; [done| |by intros key; apply Hc].
    rewrite Forall_forall in HF. intros r Hr. by destruct (HF _ Hr).
  - intros db m now Hk Hm Hj. destruct (walk_ends k limit db m now Hk Hm Hj None) as (n & records & Hw & Hn).
    pose proof (walk_all k limit db m Hk Hm Hj n records Hw) as ->. rewrite rows_after_none in *.
    exists n. split; [|done]. by rewrite length_fmap, btree_iter_length in Hn.
Qed.

End Paging.

(** ** A page is read at one moment *)

Section Moment.
Context `{TZ : Timestamptz} `{TZL : !TimestamptzLaws} {V : Type} `{SD : Serde V} `{SDL : !SerdeLaws V} `{HM : Hmac}
  `{PJ : PtyJson} `{AE : Aead} `{PGJ : !PageJson V}.
Context (apply_context_event : EventEnvelope V -> Proj instant V -> result Refusal (Proj instant V)).
Context (cfg : BlobConfig) (Hkek : utf8_ok (bc_kek_id cfg) = true).
Notation reads db := (may (fun B (e : Act V B) => row_answer db e)).
Notation runs := (runs apply_context_event cfg).
Notation step := (step apply_context_event).

(** A run of a program: others first, then its next access. *)
Lemma runs_inv {A} (p : prog V A) w a w' :
  runs p w a w' ->
  match p with
  | Ret x => x = a /\ rtc (other_step apply_context_event) w w'
  | Do e k => exists w1 b w2, rtc (other_step apply_context_event) w w1 /\ act_step apply_context_event cfg _ e w1 b w2 /\
      runs (k b) w2 a w'
  end.
Proof.
  induction 1 as [a w|p w1 w2 a w3 Ho _ IH|B e k b w1 w2 a w3 Ha Hr _]; [done| |by exists w1, b, w2].
  destruct p as [x|B e k].
  - destruct IH. split; [done|]. by eapply rtc_l.
  - destruct IH as (w4 & b & w5 & ? & ? & ?). exists w4, b, w5. split; [by eapply rtc_l|done].
Qed.

Definition is_rows {B} (e : Act V B) : bool := match e with ActRows _ _ _ _ => true | _ => false end.
Notation rowless := (within (fun _ e => is_rows e = false)).

(** Rows are read at most once. *)
Fixpoint rows_once {A} (p : prog V A) : Prop :=
  match p with
  | Ret _ => True
  | Do e k => if is_rows e then forall b, rowless (k b) else forall b, rows_once (k b)
  end.

Lemma others_move w w' : linked w -> rtc (other_step apply_context_event) w w' -> moves apply_context_event w w'.
Proof.
  intros H Hr. revert H. induction Hr as [w|w1 w2 w3 Ho _ IH]; intros H; [by apply moves_refl|].
  pose proof (other_moves apply_context_event w1 w2 H Ho) as Hm. eapply moves_trans; [done|]. apply IH, (mv_linked _ _ _ Hm).
Qed.

Lemma rowless_reads {A} (p : prog V A) w a w' db : rowless p -> runs p w a w' -> reads db p a.
Proof.
  revert w. induction p as [x|B e k IH]; intros w Hl Hr; apply runs_inv in Hr; cbn.
  - by destruct Hr.
  - destruct Hl as [He Hl], Hr as (w1 & b & w2 & _ & _ & Hr). exists b. split; [by destruct e|]. by eapply IH.
Qed.

Lemma rows_answered B (e : Act V B) w b w' :
  act_step apply_context_event cfg B e w b w' -> row_answer (dm_db w) e b.
Proof. by destruct 1. Qed.

Lemma runs_reads {A} (p : prog V A) w a w' :
  linked w -> rows_once p -> runs p w a w' ->
  exists db, rtc step (dm_db w) db /\ rtc step db (dm_db w') /\ reads db p a.
Proof.
  revert w. induction p as [x|B e k IH]; intros w Hw Ho Hr; pose proof (runs_inv _ _ _ _ Hr) as Hi.
  - exists (dm_db w). destruct Hi as [-> Hs]. split_and!; [done|by eapply others_move|done].
  - destruct Hi as (w1 & b & w2 & Hs & Ha & Hk). apply others_move in Hs as Hm; [|done].
    pose proof (act_moves apply_context_event cfg Hkek _ _ _ _ _ (mv_linked _ _ _ Hm) Ha) as Hm2.
    cbn in Ho. destruct (is_rows e) eqn:He.
    + pose proof (runs_moves apply_context_event cfg Hkek _ _ _ _ (mv_linked _ _ _ Hm2) Hk) as Hm3.
      exists (dm_db w1). split_and!; [apply Hm|etrans; [apply Hm2|apply Hm3]|]. exists b.
      split; [by eapply rows_answered|by eapply rowless_reads].
    + destruct (IH b w2) as (db & H1 & H2 & H3); [apply Hm2|done|done|].
      exists db. split_and!; [etrans; [apply Hm|etrans; [apply Hm2|done]]|done|]. exists b.
      split; [by destruct e|done].
Qed.

Lemma listing_reads_once k cursor limit : rows_once (list_projection (V := V) k cursor limit).
Proof.
  unfold list_projection. destruct (unserved_projection k); [done|]. cbn. intros [ep|e]; cbn; [|done].
  intros wm records. destruct records as [records|]; cbn; [|done].
  destruct (forallb _ _); [|done]. destruct (ok_or _ _) as [[page cut]|]; done.
Qed.

(** The rows of a page are those of the database at one moment
    between the request and its answer. *)
Theorem a_page_is_read_at_one_moment k cursor limit w records next wm at_ w' :
  linked w -> runs (list_projection k cursor limit) w (Ok (WProjectionPage records next wm at_)) w' ->
  exists db, rtc step (dm_db w) db /\ rtc step db (dm_db w') /\ listed k limit db cursor records next.
Proof.
  intros Hw Hr. destruct (runs_reads _ _ _ _ Hw (listing_reads_once _ _ _) Hr) as (db & ? & ? & ?).
  exists db. split_and!; [done..|]. by eexists _, _.
Qed.
End Moment.
