(* ===== verification/Verdict.v ===== *)
(** * What a restart may claim (gwk-kernel/src/recover.rs)

    A restart compares the live projections with the newest checkpoint that still
    validates, replays the log where the projections are empty, and says what it
    proved.  The theorems: each verdict claims what was checked and no more, the
    ladder of checkpoints is walked from the newest and always ends, and a clean
    shutdown is verified. *)

From S2P Require Import Prelude Text Fsm Envelope Command Tables Db Store Project Authority Submit Kernel System Recover Container Ordered Blobs.

(** The canonical records of the derived tables as [derived_records] writes them,
    and whether a line of them reads back as a record. *)
Class Records {TZ : Timestamptz} (V : Type) := {
  derived_records : Proj instant V -> bytes;
  record_line : bytes -> bool;
}.

#[export] Instance Z_geb_total : TotalPreorder Z.geb.
Proof. split; intros; rewrite !Z.geb_leb in *; lia. Qed.

(** ** Lines *)

(** [split(|b| *b == b'\n')]. *)
Fixpoint split_lines (l : bytes) : list bytes :=
  match l with
  | [] => [[]]
  | b :: l =>
      if (b =? 10)%Z then [] :: split_lines l
      else match split_lines l with [] => [[b]] | line :: lines => (b :: line) :: lines end
  end.

Section Verdict.
Context `{TZ : Timestamptz} {V : Type} `{SD : Serde V} `{AE : Aead} `{RC : !Records V}.
Context (apply_context_event : EventEnvelope V -> Proj instant V -> result Refusal (Proj instant V)).
Notation database := (Db instant V).
Notation P := (Proj instant V).
Notation replay := (replay apply_context_event).

(** [projection_hash]. *)
Definition projection_hash (records : bytes) : string := hex_lower (sha256 records).

(** Why a checkpoint was walked past. *)
Inductive Reason :=
| OtherSchema | PastTheLog | LogIsEmpty | OtherMedia | BadAddress | NotTheHash | Unreadable (e : BlobError)
| WrongHash | BadLine (n : nat).

Inductive Doubt := NothingAppended | Behind (anchor mark : Z) | NoBlobStore | NoCheckpoint.

Inductive Verdict :=
| Verified (anchor : Z)
| Replayed (events : Z)
| Unverified (why : Doubt)
| Diverged (expected found : string).

Record RecoveryReport := {
  rr_watermark : option Z;
  rr_live_hash : string;
  rr_verdict : Verdict;
  rr_rejected : list (Z * Reason);
  rr_uncertain : list string;
}.

(** [RecoveryReport::ready]. *)
Definition ready (r : RecoveryReport) : bool := match rr_verdict r with Diverged _ _ => false | _ => true end.

(** ** A checkpoint *)

Section Checkpoint.
(** [BlobStore::read]. *)
Context (read : string -> Z -> Z -> result BlobError bytes).

(** [read_blob]; [None] is out of fuel. *)
Fixpoint read_blob (fuel : nat) (address : string) (size : Z) (out : bytes) : option (result BlobError bytes) :=
  if (zlen out <? size)%Z then
    match fuel with
    | O => None
    | S fuel =>
        match read address (zlen out) (Z.min (size - zlen out) BLOB_CHUNK_BYTES) with
        | Err e => Some (Err e)
        | Ok [] => Some (Err Integrity)
        | Ok chunk => read_blob fuel address size (out ++ chunk)
        end
    end
  else Some (Ok out).

Definition read_records (address : string) (size : Z) : option (result BlobError bytes) :=
  read_blob (Z.to_nat size) address size [].

(** The first line that is no record, counted from one. *)
Fixpoint bad_line (n : nat) (lines : list bytes) : option nat :=
  match lines with
  | [] => None
  | raw :: lines => if bool_decide (raw = []) || record_line raw then bad_line (S n) lines else Some n
  end.

(** [BlobAddress::parse], to the digest. *)
Definition parse_address (text : string) : option string :=
  digest ← Str.strip_prefix BLOB_ADDRESS_SCHEME text;
  if is_sha256_hex digest then Some digest else None.

(** [validate]. *)
Definition validate_checkpoint (through : Z) (c : CheckpointRow instant) (watermark : option Z) : option (result Reason unit) :=
  if negb (ck_schema_version c =? CHECKPOINT_SCHEMA_VERSION)%Z then Some (Err OtherSchema)
  else
    match watermark with
    | None => Some (Err LogIsEmpty)
    | Some mark =>
        if (mark <? through)%Z then Some (Err PastTheLog)
        else if negb (bool_decide (pr_media_type (ck_records_ref c) = RECORDS_MEDIA_TYPE)) then Some (Err OtherMedia)
        else
          match parse_address (pr_digest (ck_records_ref c)) with
          | None => Some (Err BadAddress)
          | Some digest =>
              if negb (bool_decide (digest = ck_projection_hash c)) then Some (Err NotTheHash)
              else
                match read_records digest (pr_byte_size (ck_records_ref c)) with
                | None => None
                | Some (Err e) => Some (Err (Unreadable e))
                | Some (Ok records) =>
                    if negb (bool_decide (projection_hash records = ck_projection_hash c)) then Some (Err WrongHash)
                    else
                      match bad_line 1 (split_lines records) with
                      | Some n => Some (Err (BadLine n))
                      | None => Some (Ok tt)
                      end
                end
          end
    end.

(** The loop of [newest_valid]. *)
Fixpoint ladder (watermark : option Z) (l : list (Z * CheckpointRow instant))
  : option (option (Z * CheckpointRow instant) * list (Z * Reason)) :=
  match l with
  | [] => Some (None, [])
  | (through, c) :: l =>
      match validate_checkpoint through c watermark with
      | None => None
      | Some (Ok _) => Some (Some (through, c), [])
      | Some (Err reason) => '(found, rejected) ← ladder watermark l; mret (found, (through, reason) :: rejected)
      end
  end.
End Checkpoint.

(** [checkpoints]: newest first. *)
Definition newest_first (db : database) : list (Z * CheckpointRow instant) :=
  sort_by (fun x y => Z.geb x.1 y.1) (map_to_list (checkpoints db)).

(** [newest_valid]. *)
Definition newest_valid (blobs : option (string -> Z -> Z -> result BlobError bytes)) (db : database)
  : option (option (Z * CheckpointRow instant) * list (Z * Reason)) :=
  match blobs with
  | None => Some (None, [])
  | Some read => ladder read (watermark (log db)) (newest_first db)
  end.

(** ** The verdict *)

(** The verdict where the projections hold rows. *)
Definition compare_live (has_blobs : bool) (anchor : option (Z * CheckpointRow instant)) (mark : Z) (live_hash : string)
  : Verdict :=
  match anchor with
  | Some (through, c) =>
      if (through =? mark)%Z then
        if bool_decide (ck_projection_hash c = live_hash) then Verified through else Diverged (ck_projection_hash c) live_hash
      else Unverified (Behind through mark)
  | None => Unverified (if has_blobs then NoCheckpoint else NoBlobStore)
  end.

(** The verdict of a replay of [events] that ended with these records. *)
Definition compare_rebuilt (anchor : option (Z * CheckpointRow instant)) (mark : option Z) (events : Z) (rebuilt_hash : string)
  : Verdict :=
  match anchor with
  | Some (through, c) =>
      if bool_decide (Some through = mark) && negb (bool_decide (ck_projection_hash c = rebuilt_hash))
      then Diverged (ck_projection_hash c) rebuilt_hash else Replayed events
  | None => Replayed events
  end.

(** [recover]: the snapshot is read at [db], a replay and the uncertain attempts
    at what the database is by then; [None] is out of fuel. *)
Definition recover (blobs : option (string -> Z -> Z -> result BlobError bytes)) (by_then : database -> database) (db : database)
  : option (result Refusal (RecoveryReport * database)) :=
  let mark := watermark (log db) in
  let live := derived_records (proj db) in
  '(anchor, rejected) ← newest_valid blobs db;
  outcome ←
    (match mark, bool_decide (live = []) with
     | None, true => Some (Ok (Unverified NothingAppended, by_then db))
     | None, false => Some (Ok (Diverged (projection_hash []) (projection_hash live), by_then db))
     | Some _, true =>
         let db := by_then db in
         match replay (log db) (proj db) with
         | None => None
         | Some (Err r) => Some (Err r)
         | Some (Ok (events, target)) =>
             Some (Ok (compare_rebuilt anchor (watermark (log db)) events (projection_hash (derived_records target)),
                       set_proj target db))
         end
     | Some m, false => Some (Ok (compare_live (is_some blobs) anchor m (projection_hash live), by_then db))
     end);
  mret (match outcome with
        | Err r => Err r
        | Ok (verdict, db) =>
            Ok ({| rr_watermark := mark; rr_live_hash := projection_hash live; rr_verdict := verdict; rr_rejected := rejected;
                   rr_uncertain := uncertain_attempts (proj db) |}, db)
        end).

(** ** Reading a blob back *)

Section Reading.
Context (read : string -> Z -> Z -> result BlobError bytes).

Lemma read_blob_total fuel address size out :
  (size <= zlen out + Z.of_nat fuel)%Z -> is_Some (read_blob read fuel address size out).
Proof.
  revert out. induction fuel as [|fuel IH]; intros out Hs; cbn [read_blob]; destruct (zlen out <? size)%Z eqn:E; try done; [lia|].
  destruct (read _ _ _) as [[|b chunk]|e]; [done| |done]. apply IH. unfold zlen in *. rewrite length_app. cbn. lia.
Qed.

Lemma read_records_total address size : is_Some (read_records read address size).
Proof. apply read_blob_total. unfold zlen. cbn. lia. Qed.

(** A store that holds [data] under the address. *)
Definition serves (address : string) (data : bytes) : Prop :=
  forall offset n, read address offset n = Ok (take (Z.to_nat n) (drop (Z.to_nat offset) data)).

Lemma read_blob_serves fuel address data out :
  serves address data -> out `prefix_of` data -> (zlen data <= zlen out + Z.of_nat fuel)%Z ->
  read_blob read fuel address (zlen data) out = Some (Ok data).
Proof.
  intros Hs. revert out. induction fuel as [|fuel IH]; intros out [rest ->] Hf; cbn [read_blob]; unfold zlen in *; rewrite length_app in *.
  - rewrite (proj2 (Z.ltb_ge _ _)) by lia. destruct rest; [by rewrite app_nil_r|cbn in Hf; lia].
  - destruct rest as [|b rest]; [rewrite (proj2 (Z.ltb_ge _ _)) by (cbn; lia); by rewrite app_nil_r|].
    rewrite (proj2 (Z.ltb_lt _ _)) by (cbn; lia). rewrite Hs, Nat2Z.id, drop_app_length.
    set (n := Z.to_nat _). assert (n = S (pred n)) as Hn by (subst n; unfold BLOB_CHUNK_BYTES; cbn; lia). rewrite Hn. cbn [take].
    pose proof (IH (out ++ b :: take (pred n) rest)) as Hi. rewrite !length_app in Hi. cbn [length] in *. rewrite length_take in Hi.
    rewrite <-Hi; [done| |lia]. exists (drop (pred n) rest). by rewrite <-app_assoc, <-app_comm_cons, take_drop.
Qed.

Lemma read_records_serves address data : serves address data -> read_records read address (zlen data) = Some (Ok data).
Proof. intros Hs. apply read_blob_serves; [done|apply prefix_nil|]. unfold zlen. cbn. lia. Qed.

(** ** The ladder *)

(** A line of the records is empty or reads back. *)
Definition good_line (raw : bytes) : Prop := raw = [] \/ record_line raw = true.

(** What makes a checkpoint valid: its schema, a place inside the log, records
    under the address of its hash that can be read, have that hash, and read back
    line by line. *)
Record sound_checkpoint (mark : option Z) (through : Z) (c : CheckpointRow instant) (records : bytes) : Prop := {
  sc_schema : ck_schema_version c = CHECKPOINT_SCHEMA_VERSION;
  sc_mark : exists m, mark = Some m /\ (through <= m)%Z;
  sc_media : pr_media_type (ck_records_ref c) = RECORDS_MEDIA_TYPE;
  sc_address : pr_digest (ck_records_ref c) = BLOB_ADDRESS_SCHEME +:+ ck_projection_hash c;
  sc_read : read_records read (ck_projection_hash c) (pr_byte_size (ck_records_ref c)) = Some (Ok records);
  sc_hash : projection_hash records = ck_projection_hash c;
  sc_lines : Forall good_line (split_lines records);
}.

(** What a checkpoint is walked past for. *)
Inductive flaw (mark : option Z) (through : Z) (c : CheckpointRow instant) : Reason -> Prop :=
| flaw_schema : ck_schema_version c <> CHECKPOINT_SCHEMA_VERSION -> flaw mark through c OtherSchema
| flaw_empty : mark = None -> flaw mark through c LogIsEmpty
| flaw_past m : mark = Some m -> (m < through)%Z -> flaw mark through c PastTheLog
| flaw_media : pr_media_type (ck_records_ref c) <> RECORDS_MEDIA_TYPE -> flaw mark through c OtherMedia
| flaw_address :
    (forall d, is_sha256_hex d = true -> pr_digest (ck_records_ref c) <> BLOB_ADDRESS_SCHEME +:+ d) ->
    flaw mark through c BadAddress
| flaw_other d :
    pr_digest (ck_records_ref c) = BLOB_ADDRESS_SCHEME +:+ d -> d <> ck_projection_hash c -> flaw mark through c NotTheHash
| flaw_read e :
    read_records read (ck_projection_hash c) (pr_byte_size (ck_records_ref c)) = Some (Err e) ->
    flaw mark through c (Unreadable e)
| flaw_hash records :
    read_records read (ck_projection_hash c) (pr_byte_size (ck_records_ref c)) = Some (Ok records) ->
    projection_hash records <> ck_projection_hash c -> flaw mark through c WrongHash
| flaw_line records before raw after :
    read_records read (ck_projection_hash c) (pr_byte_size (ck_records_ref c)) = Some (Ok records) ->
    split_lines records = before ++ raw :: after -> Forall good_line before -> ~ good_line raw ->
    flaw mark through c (BadLine (S (length before))).

Lemma bad_line_spec n lines :
  match bad_line n lines with
  | None => Forall good_line lines
  | Some k => exists before raw after, lines = before ++ raw :: after /\ k = n + length before /\
      Forall good_line before /\ ~ good_line raw
  end.
Proof.
  revert n. induction lines as [|raw lines IH]; intros n; cbn [bad_line]; [constructor|].
  destruct (bool_decide (raw = []) || record_line raw) eqn:E.
  - assert (good_line raw) as Hg by (apply orb_true_iff in E as [E%bool_decide_eq_true|E]; [by left|by right]).
    specialize (IH (S n)). destruct (bad_line (S n) lines) as [k|]; [|by constructor].
    destruct IH as (before & raw' & after & -> & -> & HF & Hb). exists (raw :: before), raw', after.
    split_and!; [done|cbn; lia|by constructor|done].
  - apply orb_false_iff in E as [E1%bool_decide_eq_false E2]. exists [], raw, lines. split_and!; [done|cbn; lia|constructor|].
    intros [?|?]; congruence.
Qed.

Lemma strip_prefix_app p s t : Str.strip_prefix p s = Some t -> s = p +:+ t.
Proof.
  revert s. induction p as [|a p IH]; intros s; cbn; [by intros [= ->]|]. destruct s as [|b s]; [done|].
  destruct (Ascii.eqb a b) eqn:E; [|done]. apply Ascii.eqb_eq in E as ->. by intros ->%IH.
Qed.

Lemma validate_total through c mark : is_Some (validate_checkpoint read through c mark).
Proof.
  unfold validate_checkpoint. destruct (negb _); [done|]. destruct mark as [m|]; [|done]. destruct (m <? through)%Z; [done|].
  destruct (negb _); [done|]. destruct (parse_address _) as [d|]; [|done]. destruct (negb _); [done|].
  destruct (read_records_total d (pr_byte_size (ck_records_ref c))) as [[records|e] ->]; [|done].
  destruct (negb _); [done|]. by destruct (bad_line _ _).
Qed.

Lemma strip_scheme d : Str.strip_prefix BLOB_ADDRESS_SCHEME (BLOB_ADDRESS_SCHEME +:+ d) = Some d.
Proof. reflexivity. Qed.

Lemma parse_address_spec text :
  match parse_address text with
  | Some d => text = BLOB_ADDRESS_SCHEME +:+ d
  | None => forall d, is_sha256_hex d = true -> text <> BLOB_ADDRESS_SCHEME +:+ d
  end.
Proof.
  unfold parse_address. destruct (Str.strip_prefix _ text) as [t|] eqn:Et; cbn.
  - pose proof (strip_prefix_app _ _ _ Et) as ->. destruct (is_sha256_hex t) eqn:Eh; [done|].
    intros d Hd E. rewrite E, strip_scheme in Et. injection Et as ->. congruence.
  - intros d _ ->. by rewrite strip_scheme in Et.
Qed.

(** Validation finds a flaw or there is none. *)
Lemma validate_judges through c mark r :
  validate_checkpoint read through c mark = Some r ->
  match r with Ok _ => exists records, sound_checkpoint mark through c records | Err reason => flaw mark through c reason end.
Proof.
  unfold validate_checkpoint. destruct (Z.eqb_spec (ck_schema_version c) CHECKPOINT_SCHEMA_VERSION) as [Hs|Hs]; cbn [negb];
    [|intros [= <-]; by apply flaw_schema].
  destruct mark as [m|]; [|intros [= <-]; by apply flaw_empty].
  destruct (Z.ltb_spec m through) as [Hm|Hm]; [intros [= <-]; by eapply flaw_past|].
  destruct (bool_decide_reflect (pr_media_type (ck_records_ref c) = RECORDS_MEDIA_TYPE)) as [Ht|Ht]; cbn [negb];
    [|intros [= <-]; by apply flaw_media].
  pose proof (parse_address_spec (pr_digest (ck_records_ref c))) as Ha.
  destruct (parse_address _) as [d|]; [|intros [= <-]; by apply flaw_address].
  destruct (bool_decide_reflect (d = ck_projection_hash c)) as [->|Hd]; cbn [negb]; [|intros [= <-]; by eapply flaw_other].
  destruct (read_records _ _ _) as [[records|e]|] eqn:Er; [|intros [= <-]; by apply flaw_read|done].
  destruct (bool_decide_reflect (projection_hash records = ck_projection_hash c)) as [Hh|Hh]; cbn [negb];
    [|intros [= <-]; by eapply flaw_hash].
  pose proof (bad_line_spec 1 (split_lines records)) as Hl. destruct (bad_line _ _) as [n|]; intros [= <-].
  - destruct Hl as (before & raw & after & Hsp & -> & HF & Hb). by eapply flaw_line.
  - exists records. split; try done. by exists m.
Qed.

(** The first that validates, every one before it rejected for a flaw. *)
Definition rejects (mark : option Z) (x : Z * CheckpointRow instant) (y : Z * Reason) : Prop :=
  x.1 = y.1 /\ flaw mark x.1 x.2 y.2.

Lemma ladder_ok mark l : exists found rejected, ladder read mark l = Some (found, rejected) /\
  match found with
  | Some (through, c) => exists pre post, l = pre ++ (through, c) :: post /\
      (exists records, sound_checkpoint mark through c records) /\ Forall2 (rejects mark) pre rejected
  | None => Forall2 (rejects mark) l rejected
  end.
Proof.
  induction l as [|[through c] l (found & rejected & IH & Hf)]; cbn; [by exists None, []|].
  destruct (validate_total through c mark) as [r Hv]. rewrite Hv. apply validate_judges in Hv. destruct r as [[]|reason].
  - exists (Some (through, c)), []. split; [done|]. exists [], l. by split_and!.
  - rewrite IH. exists found, ((through, reason) :: rejected). split; [done|]. destruct found as [[t2 c2]|].
    + destruct Hf as (pre & post & -> & Hs & HF). exists ((through, c) :: pre), post. split_and!; [done..|]. by constructor.
    + by constructor.
Qed.

Lemma rejects_flaw mark l rejected k reason :
  Forall2 (rejects mark) l rejected -> (k, reason) ∈ rejected -> exists c, (k, c) ∈ l /\ flaw mark k c reason.
Proof.
  induction 1 as [|[k' c] [k2 reason'] l rejected [Hk Hf] _ IH]; [by intros ?%not_elem_of_nil|]. cbn in Hk, Hf. subst k2.
  intros [[= -> ->]|Hin]%elem_of_cons; [exists c; split; [left|done]|].
  destruct (IH Hin) as (c' & ? & ?). exists c'. split; [by right|done].
Qed.

Lemma rejects_keys mark l rejected : Forall2 (rejects mark) l rejected -> rejected.*1 = l.*1.
Proof. induction 1 as [|x y l rejected [Hk _] _ IH]; [done|]. by rewrite !fmap_cons, IH, Hk. Qed.
End Reading.

Lemma newest_first_elem (db : database) k c : (k, c) ∈ newest_first db <-> checkpoints db !! k = Some c.
Proof. unfold newest_first. by rewrite sort_by_elem_of, elem_of_map_to_list. Qed.

(** What comes before a checkpoint is all that is newer. *)
Lemma newest_first_split (db : database) pre through c post k :
  newest_first db = pre ++ (through, c) :: post ->
  k ∈ pre.*1 <-> is_Some (checkpoints db !! k) /\ (through < k)%Z.
Proof.
  intros Hl. pose proof (sort_by_sorted (fun x y : Z * CheckpointRow instant => Z.geb x.1 y.1)
    (map_to_list (checkpoints db))) as Hs. fold (newest_first db) in Hs. rewrite Hl in Hs.
  apply StronglySorted_app in Hs as (Hall & _ & Hs). apply StronglySorted_cons in Hs as [HF _].
  assert (NoDup (newest_first db).*1) as Hnd
    by (unfold newest_first; rewrite sort_by_perm; apply NoDup_fst_map_to_list).
  rewrite Hl, fmap_app, fmap_cons in Hnd. apply NoDup_app in Hnd as (_ & Hdis & _).
  split.
  - intros Hk. pose proof Hk as ([k' r] & -> & Hin)%list_elem_of_fmap. split.
    + exists r. apply newest_first_elem. rewrite Hl. apply elem_of_app. by left.
    + specialize (Hdis _ Hk). assert (Is_true (Z.geb k' through)) as Hge by (apply (Hall (k', r) (through, c)); [done|left]).
      apply Is_true_true in Hge. rewrite Z.geb_leb in Hge. cbn in *. assert (k' <> through) by (intros ->; apply Hdis; left). lia.
  - intros [[r Hk%newest_first_elem] Hlt]. rewrite Hl in Hk. apply elem_of_app in Hk as [Hk|[Hk|Hk]%elem_of_cons].
    + by apply (list_elem_of_fmap_2 fst _ (k, r)).
    + simplify_eq. lia.
    + exfalso. rewrite Forall_forall in HF. specialize (HF _ Hk). cbn in HF. apply Is_true_true in HF.
      rewrite Z.geb_leb in HF. lia.
Qed.

(** The newest valid checkpoint is [anchor]; exactly the newer ones were walked
    past, each for a flaw it has.  Without a blob store none is looked at. *)
Definition newest_sound (blobs : option (string -> Z -> Z -> result BlobError bytes)) (db : database)
    (anchor : option (Z * CheckpointRow instant)) (rejected : list (Z * Reason)) : Prop :=
  match blobs with
  | None => anchor = None /\ rejected = []
  | Some read =>
      (forall k reason, (k, reason) ∈ rejected ->
         exists c, checkpoints db !! k = Some c /\ flaw read (watermark (log db)) k c reason) /\
      match anchor with
      | Some (a, c) =>
          checkpoints db !! a = Some c /\ (exists records, sound_checkpoint read (watermark (log db)) a c records) /\
          forall k, k ∈ rejected.*1 <-> is_Some (checkpoints db !! k) /\ (a < k)%Z
      | None => forall k, k ∈ rejected.*1 <-> is_Some (checkpoints db !! k)
      end
  end.

Lemma newest_valid_ok blobs (db : database) :
  exists anchor rejected, newest_valid blobs db = Some (anchor, rejected) /\ newest_sound blobs db anchor rejected.
Proof.
  unfold newest_valid. destruct blobs as [read|]; [|by exists None, []].
  destruct (ladder_ok read (watermark (log db)) (newest_first db)) as (anchor & rejected & Hl & Hf).
  exists anchor, rejected. split; [done|]. destruct anchor as [[a c]|]; cbn.
  - destruct Hf as (pre & post & Hn & Hs & HF). split_and!; [|apply newest_first_elem; rewrite Hn; set_solver|done|].
    + intros k reason Hk. destruct (rejects_flaw _ _ _ _ _ _ HF Hk) as (c' & Hin & Hfl). exists c'. split; [|done].
      apply newest_first_elem. rewrite Hn. apply elem_of_app. by left.
    + intros k. rewrite (rejects_keys _ _ _ _ HF). by eapply newest_first_split.
  - split.
    + intros k reason Hk. destruct (rejects_flaw _ _ _ _ _ _ Hf Hk) as (c' & Hin & Hfl). exists c'. split; [|done].
      by apply newest_first_elem.
    + intros k. rewrite (rejects_keys _ _ _ _ Hf), list_elem_of_fmap. split.
      * intros ([k' c'] & -> & Hin%newest_first_elem). by exists c'.
      * intros [c' Hin%newest_first_elem]. by exists (k, c').
Qed.

(** ** The verdicts *)

(** What each verdict says of the state it was given in: [db] as it was read,
    [later] as it was by then, [db'] as it is left.  The cases exclude one
    another. *)
Definition claims (blobs : option (string -> Z -> Z -> result BlobError bytes)) (db later db' : database)
    (anchor : option (Z * CheckpointRow instant)) (v : Verdict) : Prop :=
  let live := derived_records (proj db) in
  let rebuilt n := live = [] /\ watermark (log db) <> None /\ replay (log later) (proj later) = Some (Ok (n, proj db')) /\
                   db' = set_proj (proj db') later in
  match v with
  | Verified a => db' = later /\ live <> [] /\ watermark (log db) = Some a /\
      exists c, anchor = Some (a, c) /\ ck_projection_hash c = projection_hash live
  | Replayed n => rebuilt n /\
      forall a c, anchor = Some (a, c) -> watermark (log later) = Some a ->
        ck_projection_hash c = projection_hash (derived_records (proj db'))
  | Unverified NothingAppended => db' = later /\ live = [] /\ watermark (log db) = None
  | Unverified (Behind a m) => db' = later /\ live <> [] /\ watermark (log db) = Some m /\ (a < m)%Z /\
      exists c, anchor = Some (a, c)
  | Unverified NoBlobStore => db' = later /\ live <> [] /\ watermark (log db) <> None /\ blobs = None
  | Unverified NoCheckpoint => db' = later /\ live <> [] /\ watermark (log db) <> None /\ blobs <> None /\ anchor = None
  | Diverged expected found =>
      (db' = later /\ live <> [] /\ watermark (log db) = None /\
        expected = projection_hash [] /\ found = projection_hash live) \/
      exists a c, anchor = Some (a, c) /\ expected = ck_projection_hash c /\ expected <> found /\
        ((db' = later /\ live <> [] /\ watermark (log db) = Some a /\ found = projection_hash live) \/
          ((exists n, rebuilt n) /\ watermark (log later) = Some a /\
           found = projection_hash (derived_records (proj db'))))
  end.

Lemma compare_live_claims blobs (db later : database) anchor rejected m :
  newest_sound blobs db anchor rejected -> watermark (log db) = Some m -> derived_records (proj db) <> [] ->
  claims blobs db later later anchor (compare_live (is_some blobs) anchor m (projection_hash (derived_records (proj db)))).
Proof.
  intros Hn Hm Hl. unfold compare_live, newest_sound in *. destruct anchor as [[a c]|].
  - destruct blobs as [read|]; [|by destruct Hn]. destruct Hn as (_ & Hc & (records & Hs) & _).
    destruct (sc_mark _ _ _ _ _ Hs) as (m' & Hm' & Hle). rewrite Hm in Hm'. injection Hm' as <-.
    destruct (Z.eqb_spec a m) as [->|E].
    + case_bool_decide as Eh; [split_and!; [done..|by exists c]|]. right. exists m, c. split_and!; [done..|]. by left.
    + split_and!; [done..|lia|by exists c].
  - destruct blobs; cbn; rewrite Hm; by split_and!.
Qed.

Lemma compare_rebuilt_claims blobs (db later : database) anchor n target :
  watermark (log db) <> None -> derived_records (proj db) = [] ->
  replay (log later) (proj later) = Some (Ok (n, target)) ->
  claims blobs db later (set_proj target later) anchor
    (compare_rebuilt anchor (watermark (log later)) n (projection_hash (derived_records target))).
Proof.
  intros Hm He Hr. unfold compare_rebuilt. destruct anchor as [[a c]|]; [|by split].
  destruct (_ && _) eqn:E.
  - apply andb_true_iff in E as [Ea%bool_decide_eq_true Eh%negb_true_iff%bool_decide_eq_false]. right.
    exists a, c. split_and!; [done..|]. right. split_and!; [by exists n|done..].
  - split; [by split_and!|]. intros a' c' [= <- <-] Hw. apply andb_false_iff in E as [E%bool_decide_eq_false|E]; [congruence|].
    by apply negb_false_iff, bool_decide_eq_true in E.
Qed.

(** C21: A restart returns: a report, or the refusal of the replay it
    needed.  Every checkpoint newer than the newest valid one, and no other, is
    listed with a flaw it has.  The verdict claims what was checked: Verified, that
    the newest valid checkpoint is at the watermark and its hash is the live
    projections'; Replayed, that the projections were empty and are now what a
    replay of the log gives, not contradicted by a checkpoint at its end;
    Unverified, nothing, for the reason it names; Diverged, that the two hashes
    it names differ, or that there are projections without a log.  The log is
    never touched. *)
Theorem recovery_claims_what_it_checked blobs by_then (db : database) :
  log_inv (by_then db) ->
  exists r, recover blobs by_then db = Some r /\
  match r with
  | Ok (report, db') =>
      rr_watermark report = watermark (log db) /\ rr_live_hash report = projection_hash (derived_records (proj db)) /\
      (exists anchor, newest_sound blobs db anchor (rr_rejected report) /\
         claims blobs db (by_then db) db' anchor (rr_verdict report)) /\
      log db' = log (by_then db) /\ rr_uncertain report = uncertain_attempts (proj db')
  | Err e => derived_records (proj db) = [] /\ watermark (log db) <> None /\
      replay (log (by_then db)) (proj (by_then db)) = Some (Err e)
  end.
Proof.
  intros Hinv. pose proof (replay_is_fold apply_context_event _ (proj (by_then db)) Hinv) as Hrep.
  unfold recover. cbv zeta. destruct (newest_valid_ok blobs db) as (anchor & rejected & Hn & Hs). rewrite Hn, Hrep. cbn.
  destruct (watermark (log db)) as [m|] eqn:Hm; case_bool_decide as He; cbn.
  - destruct (fold_res _ _ _) as [[n target]|r] eqn:Ef; cbn; eexists; (split; [done|]); [|done]. cbn.
    split_and!; [done..| |done|done]. exists anchor. split; [done|]. apply compare_rebuilt_claims; [congruence|done..].
  - eexists. split; [done|]. cbn. split_and!; [done..| |done|done]. exists anchor. split; [done|]. by eapply compare_live_claims.
  - eexists. split; [done|]. cbn. split_and!; [done..| |done|done]. exists anchor. by split.
  - eexists. split; [done|]. cbn. split_and!; [done..| |done|done]. exists anchor. split; [done|].
    by left.
Qed.

(** ** A clean shutdown *)

(** A store whose writes can be read back. *)
Definition keeps_records (b : Store.BlobStore (V := V)) (read : string -> Z -> Z -> result BlobError bytes) (p : P) : Prop :=
  forall hash n, put_records b p = Some (hash, n) ->
    hash = projection_hash (derived_records p) /\ n = zlen (derived_records p) /\ serves read hash (derived_records p).

Lemma watermark_u64 (db : database) m : log_inv db -> watermark (log db) = Some m -> is_u64 m.
Proof.
  intros Hinv Hm. destruct (log db) as [|row l _] eqn:El using rev_ind; [done|].
  rewrite <-El, (watermark_snoc db l row Hinv El) in Hm. injection Hm as <-.
  destruct (li_writer _ Hinv) as (w & _ & Hw & Hlt). specialize (Hlt row). rewrite El in Hlt. specialize (Hlt ltac:(set_solver)).
  pose proof (li_increasing _ Hinv) as Hi. rewrite El in Hi.
  assert (0 < global_sequence row)%Z by (eapply increasing_lower; [exact Hi|set_solver]). unfold is_u64. lia.
Qed.

(** The newest checkpoint is found where it validates. *)
Lemma newest_is_found read (db : database) k c :
  checkpoints db !! k = Some c -> (forall k' c', checkpoints db !! k' = Some c' -> (k' <= k)%Z) ->
  validate_checkpoint read k c (watermark (log db)) = Some (Ok tt) -> newest_valid (Some read) db = Some (Some (k, c), []).
Proof.
  intros Hk Hmax Hv. cbn. destruct (newest_first db) as [|[k1 c1] l] eqn:El.
  { apply newest_first_elem in Hk. rewrite El in Hk. by apply not_elem_of_nil in Hk. }
  assert (checkpoints db !! k1 = Some c1) as H1 by (apply newest_first_elem; rewrite El; by left).
  assert (k1 = k) as ->.
  { pose proof (Hmax _ _ H1). destruct (decide (k1 < k)%Z) as [Hlt|]; [|lia].
    assert (k ∈ ([] : list (Z * CheckpointRow instant)).*1) as ?%not_elem_of_nil; [|done].
    apply (newest_first_split db [] k1 c1 l k El). split; [by exists c|done]. }
  rewrite Hk in H1. injection H1 as <-. cbn [ladder]. by rewrite Hv.
Qed.

(** The row a snapshot writes validates against a store that kept the records. *)
Lemma sealed_row_validates read (p : P) mark at_ :
  serves read (projection_hash (derived_records p)) (derived_records p) -> bad_line 1 (split_lines (derived_records p)) = None ->
  is_sha256_hex (projection_hash (derived_records p)) = true ->
  validate_checkpoint read mark {| ck_schema_version := CHECKPOINT_SCHEMA_VERSION; ck_projection_hash := projection_hash (derived_records p);
    ck_records_ref := {| pr_digest := "sha256:" +:+ projection_hash (derived_records p); pr_media_type := RECORDS_MEDIA_TYPE;
      pr_byte_size := zlen (derived_records p); pr_retention_class := None; pr_evidence_pin := None |}; ck_created_at := at_ |}
    (Some mark) = Some (Ok tt).
Proof.
  intros Hs Hl Hh. unfold validate_checkpoint. cbn [ck_schema_version ck_records_ref ck_projection_hash pr_digest pr_media_type pr_byte_size].
  rewrite Z.eqb_refl, Z.ltb_irrefl, bool_decide_eq_true_2 by done. cbn [negb]. unfold parse_address.
  change "sha256:" with BLOB_ADDRESS_SCHEME. rewrite strip_scheme. cbn [mbind option_bind]. rewrite Hh.
  rewrite bool_decide_eq_true_2 by done. cbn [negb]. rewrite (read_records_serves read _ _ Hs).
  rewrite bool_decide_eq_true_2 by done. cbn [negb]. by rewrite Hl.
Qed.

(** A restart after a clean shutdown, its checkpoint written at the
    watermark into a store that keeps what it is given, says Verified. *)
Theorem clean_shutdown_is_verified st clock b read (db db' : database) mark :
  log_inv db -> blobs st = Some b -> keeps_records b read (proj db) ->
  bad_line 1 (split_lines (derived_records (proj db))) = None -> derived_records (proj db) <> [] ->
  checkpoints db !! mark = None -> (forall k c, checkpoints db !! k = Some c -> (k <= mark)%Z) ->
  checkpoint_at_watermark st clock db = Ok (Some mark, db') ->
  exists report, recover (Some read) id db' = Some (Ok (report, db')) /\ rr_verdict report = Verified mark.
Proof.
  intros Hinv Hb Hk Hl Hne Hnone Hle. unfold checkpoint_at_watermark. rewrite Hb.
  intros (ws & _ & Hr)%bind_ok_iff. destruct (watermark (log db)) as [m|] eqn:Hm; [|done].
  rewrite (read_numeric_ok m) in Hr by (by eapply watermark_u64). cbn in Hr.
  apply bind_ok_iff in Hr as (db1 & Hs & [= -> ->]). unfold snapshot in Hs.
  apply bind_ok_iff in Hs as ([hash n] & Hput%ok_or_ok_iff & Hs). apply Hk in Hput as (-> & -> & Hserve).
  apply bind_ok_iff in Hs as ([] & Hhex%ensure_ok_iff & Hs). apply bind_ok_iff in Hs as (at_ & _ & Hs).
  apply bind_ok_iff in Hs as ([] & _ & [= Hs]). cbn zeta in Hs. rewrite Hnone in Hs. set (row := Build_CheckpointRow _ _ _ _) in Hs.
  assert (log db' = log db /\ proj db' = proj db /\ checkpoints db' = <[mark := row]> (checkpoints db)) as (Hlog & Hproj & Hck)
    by (by rewrite <-Hs).
  assert (newest_valid (Some read) db' = Some (Some (mark, row), [])) as Hn.
  { apply (newest_is_found read db' mark row).
    - rewrite Hck. apply lookup_insert_eq.
    - intros k c. rewrite Hck, lookup_insert_Some. intros [[-> _]|[_ Hc]]; [done|by apply Hle in Hc].
    - rewrite Hlog, Hm. by apply sealed_row_validates. }
  unfold recover. rewrite Hn, Hlog, Hm, Hproj. cbn. rewrite bool_decide_eq_false_2 by done. cbn.
  rewrite Z.eqb_refl, bool_decide_eq_true_2 by done. by eexists.
Qed.
End Verdict.
