(* ===== verification/Canonical.v ===== *)
(** * Canonical records (gwk-kernel/src/checkpoint.rs, canonical_line)

    The free-form payloads of two tables are JSON values whose objects list their
    keys in whatever order they were built in; before a record is hashed the keys
    are sorted at every depth.  The theorem: what is hashed does not depend on the
    order, and nothing else is lost. *)

From S2P Require Import Prelude Text Ordered Container Strict.

Section Canonical.
Context {N : Type}.
Notation value := (Value N).

(** The induction principle of the values. *)
Section ValueInd.
Context (P : value -> Prop).
Context (Hnull : P VNull) (Hbool : forall b, P (VBool b)) (Hnum : forall n, P (VNumber n)) (Hstr : forall s, P (VString s))
  (Harr : forall l, Forall P l -> P (VArray l)) (Hobj : forall l, Forall (fun e => P e.2) l -> P (VObject l)).

Fixpoint value_induction (v : value) : P v :=
  match v with
  | VNull => Hnull
  | VBool b => Hbool b
  | VNumber n => Hnum n
  | VString s => Hstr s
  | VArray items => Harr items ((fix go l : Forall P l :=
      match l with [] => Forall_nil_2 P | v :: l => Forall_cons_2 P v l (value_induction v) (go l) end) items)
  | VObject entries => Hobj entries ((fix go l : Forall (fun e => P e.2) l :=
      match l with
      | [] => Forall_nil_2 _
      | e :: l => Forall_cons_2 (fun e => P e.2) e l (value_induction e.2) (go l)
      end) entries)
  end.
End ValueInd.

(** [sort_object_keys]: the keys of an object are compared, its values sorted in
    their turn. *)
Fixpoint sort_object_keys (v : value) : value :=
  match v with
  | VObject entries => VObject (sort_by entry_leb (map (fun e => (e.1, sort_object_keys e.2)) entries))
  | VArray items => VArray (map sort_object_keys items)
  | _ => v
  end.

(** No object lists a key twice. *)
Fixpoint distinct_keys (v : value) : Prop :=
  match v with
  | VObject entries => NoDup entries.*1 /\ foldr (fun e acc => distinct_keys e.2 /\ acc) True entries
  | VArray items => foldr (fun v acc => distinct_keys v /\ acc) True items
  | _ => True
  end.

(** Equal but for the order of the keys. *)
Fixpoint same_but_order (v w : value) {struct v} : Prop :=
  match v, w with
  | VObject es, VObject fs => exists gs, fs ≡ₚ gs /\
      (fix go es gs := match es, gs with
         | [], [] => True
         | e :: es, g :: gs => e.1 = g.1 /\ same_but_order e.2 g.2 /\ go es gs
         | _, _ => False
         end) es gs
  | VArray vs, VArray ws =>
      (fix go vs ws := match vs, ws with
         | [], [] => True
         | v :: vs, w :: ws => same_but_order v w /\ go vs ws
         | _, _ => False
         end) vs ws
  | _, _ => v = w
  end.

#[export] Instance entry_leb_total : TotalPreorder (entry_leb (A := value)).
Proof. apply (leb_by_key fst String.leb), _. Qed.

(** Entries with distinct keys are in one order only. *)
Lemma sort_entries_perm (l k : list (string * value)) : l ≡ₚ k -> NoDup l.*1 -> sort_by entry_leb l = sort_by entry_leb k.
Proof.
  intros Hp Hn. apply (sort_by_unique entry_leb); [|done]. intros [a x] [b y] Hx Hy Hab Hba. cbn in *.
  assert (a = b) as -> by (by apply string_leb_antisym). f_equal.
  apply list_elem_of_lookup in Hx as [i Hi], Hy as [j Hj].
  assert (i = j) as -> by (eapply NoDup_lookup; [exact Hn|rewrite list_lookup_fmap, Hi; done|by rewrite list_lookup_fmap, Hj]).
  congruence.
Qed.

Notation sorted_entry := (fun e : string * value => (e.1, sort_object_keys e.2)).

Lemma sorted_entry_keys (l : list (string * value)) : (map sorted_entry l).*1 = l.*1.
Proof. induction l as [|e l IH]; cbn; [done|by rewrite IH]. Qed.

Lemma order_blind v : forall w, distinct_keys v -> same_but_order v w -> sort_object_keys v = sort_object_keys w.
Proof.
  induction v as [| | | |items IH|entries IH] using value_induction; intros w; destruct w as [| | | |ws|fs]; try done; try (by intros _ [=->]).
  - cbn. intros Hd Hs. f_equal. revert ws Hs. induction IH as [|v items Hv _ IHl]; intros [|w ws]; try done.
    destruct Hd as [Hd1 Hd2]. intros [H1 H2]. cbn. f_equal; [by apply Hv|by apply IHl].
  - cbn. intros [Hn Hd] (gs & Hp & Hs). f_equal. transitivity (sort_by entry_leb (map sorted_entry gs)).
    + f_equal. clear Hn Hp. revert gs Hs. induction IH as [|[k v] entries Hv _ IHl]; intros [|[k' v'] gs]; try done.
      destruct Hd as [Hd1 Hd2]. intros (H1 & H2 & H3). cbn in *. subst k'. f_equal; [by rewrite (Hv v')|by apply IHl].
    + apply sort_entries_perm; [by apply Permutation_map|].
      replace ((map sorted_entry gs).*1) with (entries.*1); [done|]. rewrite sorted_entry_keys. clear -Hs.
      revert gs Hs. induction entries as [|[k v] entries IHe]; intros [|[k' v'] gs]; try done.
      intros (H1 & _ & H3). cbn in *. f_equal; [done|by apply IHe].
Qed.

(** Sorting keeps every entry. *)
Lemma sorting_keeps v : same_but_order v (sort_object_keys v).
Proof.
  induction v as [| | | |items IH|entries IH] using value_induction; try done; cbn.
  - induction IH; cbn; auto.
  - exists (map sorted_entry entries). split; [apply sort_by_perm|]. induction IH; cbn; auto.
Qed.

Lemma sorting_keeps_keys v : distinct_keys v -> distinct_keys (sort_object_keys v).
Proof.
  induction v as [| | | |items IH|entries IH] using value_induction; try done; cbn.
  - induction IH as [|v items Hv _ IHl]; cbn; [done|]. intros [? ?]. auto.
  - intros [Hn Hd]. split.
    + rewrite sort_by_perm. by rewrite sorted_entry_keys.
    + assert (Forall (fun e => distinct_keys e.2) (map sorted_entry entries)) as HF.
      { clear Hn. induction IH as [|e l He _ IHl]; cbn in *; [constructor|]. destruct Hd. constructor; auto. }
      rewrite <-(sort_by_perm entry_leb) in HF. induction HF; cbn; auto.
Qed.

(** Sorting the keys of a value at every depth gives the same value
    for every order of its keys, changes nothing but the order, and is done once
    for all. *)
Theorem canonical_form_is_order_blind v w :
  distinct_keys v -> same_but_order v w ->
  sort_object_keys v = sort_object_keys w /\ same_but_order v (sort_object_keys v) /\
  sort_object_keys (sort_object_keys v) = sort_object_keys v.
Proof.
  intros Hd Hs. split_and!; [by apply order_blind|apply sorting_keeps|]. symmetry. apply order_blind; [done|apply sorting_keeps].
Qed.
End Canonical.
