(* ===== verification/Recording.v ===== *)
(** * Recordings of a terminal (gwk-pty/src/record.rs, attach.rs)

    Everything that changed a terminal, numbered, with the newest entries
    retained; a client that fell behind is replayed what it missed or, when that
    is gone, reset to a snapshot.  The terminal engine is a parameter.  The
    theorems: a client that is caught up shows the live terminal, and a recording
    survives its encoding and only encodings decode. *)

From S2P Require Import Prelude Text Container.

(** ** Integers, little-endian *)

Fixpoint le (k : nat) (n : Z) : bytes :=
  match k with O => [] | S k => (n mod 256)%Z :: le k (n / 256) end.
Fixpoint from_le (l : bytes) : Z :=
  match l with [] => 0%Z | b :: l => (b + 256 * from_le l)%Z end.

Notation byte_ok := (fun b => 0 <= b < 256)%Z.

Lemma le_length k n : length (le k n) = k.
Proof. revert n. induction k as [|k IH]; intros n; cbn; [done|by rewrite IH]. Qed.

Lemma le_range k n : Forall byte_ok (le k n).
Proof. revert n. induction k as [|k IH]; intros n; cbn; constructor; [apply Z.mod_pos_bound; lia|apply IH]. Qed.

Lemma from_le_le k n : (0 <= n < 256 ^ Z.of_nat k)%Z -> from_le (le k n) = n.
Proof.
  revert n. induction k as [|k IH]; intros n Hn; cbn [le from_le]; [cbn in Hn; lia|].
  rewrite Nat2Z.inj_succ, Z.pow_succ_r in Hn by lia. rewrite IH; [pose proof (Z.div_mod n 256); lia|].
  split; [apply Z.div_pos; lia|apply Z.div_lt_upper_bound; lia].
Qed.

Lemma le_from_le l : Forall byte_ok l -> le (length l) (from_le l) = l.
Proof.
  induction 1 as [|b l Hb Hl IH]; cbn [length le from_le]; [done|].
  rewrite (Z.mul_comm 256), Z.mod_add, Z.div_add, Z.mod_small, Z.div_small by lia. by rewrite Z.add_0_l, IH.
Qed.

Lemma from_le_range l : Forall byte_ok l -> (0 <= from_le l < 256 ^ Z.of_nat (length l))%Z.
Proof.
  induction 1 as [|b l Hb Hl IH]; cbn [length from_le]; [cbn; lia|]. rewrite Nat2Z.inj_succ, Z.pow_succ_r by lia. lia.
Qed.

(** ** A recording *)

Definition MAGIC : bytes := [71; 87; 75; 82; 69; 67; 0; 1]%Z.

Inductive Event := Output (bytes : bytes) | Resize (cols rows : Z).
Record Entry := { en_seq : Z; en_offset_ms : Z; en_event : Event }.
Record Recording := { rc_entries : list Entry; rc_next_seq : Z; rc_cap : nat }.

Record Evicted := { ev_asked : Z; ev_oldest : Z }.
Inductive DecodeError := BadMagic | Truncated | BadTag (tag : Z) | OutOfOrder (previous found : Z).

(** [u64] addition of one. *)
Definition succ_u64 (n : Z) : Z := ((n + 1) mod (u64_max + 1))%Z.

(** [while len > cap { pop_front }]. *)
Definition retain (cap : nat) (l : list Entry) : list Entry := drop (length l - cap) l.

Definition new_recording (cap : nat) : Recording := {| rc_entries := []; rc_next_seq := 0; rc_cap := cap |}.

(** [Recording::record]. *)
Definition record (offset_ms : Z) (e : Event) (r : Recording) : Z * Recording :=
  let seq := rc_next_seq r in
  (seq, {| rc_entries := retain (rc_cap r) (rc_entries r ++ [{| en_seq := seq; en_offset_ms := offset_ms; en_event := e |}]);
           rc_next_seq := succ_u64 seq; rc_cap := rc_cap r |}).

Definition latest_seq (r : Recording) : option Z := en_seq <$> last (rc_entries r).
Definition oldest_seq (r : Recording) : option Z := en_seq <$> head (rc_entries r).

(** [Recording::since]. *)
Definition since (seq : Z) (r : Recording) : result Evicted (list Entry) :=
  let served := List.filter (fun e => (seq <? en_seq e)%Z) (rc_entries r) in
  match oldest_seq r with
  | Some oldest => if (succ_u64 seq <? oldest)%Z then Err {| ev_asked := seq; ev_oldest := oldest |} else Ok served
  | None => Ok served
  end.

(** ** The encoding *)

Definition encode_event (e : Event) : bytes :=
  match e with
  | Output b => let len := Z.min (zlen b) u32_max in 0%Z :: le 4 len ++ take (Z.to_nat len) b
  | Resize cols rows => 1%Z :: le 2 cols ++ le 2 rows
  end.
Definition encode_entry (e : Entry) : bytes := le 8 (en_seq e) ++ le 8 (en_offset_ms e) ++ encode_event (en_event e).

(** [Recording::encode]. *)
Definition encode (r : Recording) : bytes := MAGIC ++ concat (encode_entry <$> rc_entries r).

(** The [take] inside [decode]. *)
Definition take_bytes (n : nat) (rest : bytes) : result DecodeError (bytes * bytes) :=
  if (length rest <? n)%nat then Err Truncated else Ok (take n rest, drop n rest).
Definition take_int (k : nat) (rest : bytes) : result DecodeError (Z * bytes) :=
  '(b, rest) ← take_bytes k rest; mret (from_le b, rest).

Definition decode_event (rest : bytes) : result DecodeError (Event * bytes) :=
  '(tag, rest) ← take_int 1 rest;
  if (tag =? 0)%Z then
    '(len, rest) ← take_int 4 rest;
    '(b, rest) ← take_bytes (Z.to_nat len) rest;
    mret (Output b, rest)
  else if (tag =? 1)%Z then
    '(cols, rest) ← take_int 2 rest;
    '(rows, rest) ← take_int 2 rest;
    mret (Resize cols rows, rest)
  else Err (BadTag tag).

(** One turn of the loop of [decode]. *)
Definition decode_entry (previous : option Z) (rest : bytes) : result DecodeError (Entry * bytes) :=
  '(seq, rest) ← take_int 8 rest;
  _ ← match previous with
      | Some p => ensure (p <? seq)%Z (OutOfOrder p seq)
      | None => mret tt
      end;
  '(offset_ms, rest) ← take_int 8 rest;
  '(event, rest) ← decode_event rest;
  mret ({| en_seq := seq; en_offset_ms := offset_ms; en_event := event |}, rest).

(** The loop; [None] is out of fuel. *)
Fixpoint decode_entries (fuel : nat) (previous : option Z) (rest : bytes) : option (result DecodeError (list Entry)) :=
  match rest with
  | [] => Some (Ok [])
  | _ =>
      match fuel with
      | O => None
      | S fuel =>
          match decode_entry previous rest with
          | Err e => Some (Err e)
          | Ok (e, rest) =>
              match decode_entries fuel (Some (en_seq e)) rest with
              | Some (Ok entries) => Some (Ok (e :: entries))
              | failed => failed
              end
          end
      end
  end.

Fixpoint strip_bytes (p l : bytes) : option bytes :=
  match p, l with
  | [], _ => Some l
  | a :: p, b :: l => if (a =? b)%Z then strip_bytes p l else None
  | _ :: _, [] => None
  end.

(** [Recording::decode]. *)
Definition decode (l : bytes) (cap : nat) : option (result DecodeError Recording) :=
  match strip_bytes MAGIC l with
  | None => Some (Err BadMagic)
  | Some rest =>
      match decode_entries (length rest) None rest with
      | None => None
      | Some (Err e) => Some (Err e)
      | Some (Ok entries) =>
          let entries := retain cap entries in
          Some (Ok {| rc_entries := entries;
                      rc_next_seq := match last entries with Some e => succ_u64 (en_seq e) | None => 0%Z end;
                      rc_cap := cap |})
      end
  end.

(** ** The encoding is read back *)

(** What the fields of an event can hold; a chunk is shorter than 4 GiB. *)
Definition event_ok (e : Event) : Prop :=
  match e with
  | Output b => Forall byte_ok b /\ (zlen b <= u32_max)%Z
  | Resize cols rows => is_u16 cols /\ is_u16 rows
  end.
Definition entry_ok (e : Entry) : Prop := is_u64 (en_seq e) /\ is_u64 (en_offset_ms e) /\ event_ok (en_event e).

(** Entries in order after [previous]. *)
Fixpoint in_sequence (previous : option Z) (l : list Entry) : Prop :=
  match l with
  | [] => True
  | e :: l => match previous with Some p => (p < en_seq e)%Z | None => True end /\ in_sequence (Some (en_seq e)) l
  end.

Lemma take_bytes_app b rest : take_bytes (length b) (b ++ rest) = Ok (b, rest).
Proof.
  unfold take_bytes. rewrite length_app, (proj2 (Nat.ltb_ge _ _)) by lia. by rewrite take_app_length, drop_app_length.
Qed.

Lemma take_bytes_inv n rest b rest' : take_bytes n rest = Ok (b, rest') -> rest = b ++ rest' /\ length b = n.
Proof.
  unfold take_bytes. destruct (length rest <? n)%nat eqn:E; [done|]. intros [= <- <-]. apply Nat.ltb_ge in E.
  rewrite take_drop, length_take. split; [done|lia].
Qed.

Lemma take_int_app k n rest : (0 <= n < 256 ^ Z.of_nat k)%Z -> take_int k (le k n ++ rest) = Ok (n, rest).
Proof.
  intros Hn. unfold take_int. pose proof (take_bytes_app (le k n) rest) as H. rewrite le_length in H. rewrite H. cbn.
  by rewrite from_le_le.
Qed.

Lemma take_tag t rest : take_int 1 (t :: rest) = Ok (t, rest).
Proof. unfold take_int, take_bytes. cbn. by rewrite Z.add_0_r, drop_0. Qed.

Lemma take_int_inv k rest n rest' :
  Forall byte_ok rest -> take_int k rest = Ok (n, rest') ->
  rest = le k n ++ rest' /\ (0 <= n < 256 ^ Z.of_nat k)%Z /\ Forall byte_ok rest'.
Proof.
  intros Hb. unfold take_int. intros ([b r] & (-> & <-)%take_bytes_inv & [= <- <-])%bind_ok_iff.
  apply Forall_app in Hb as [H1 H2]. rewrite le_from_le by done. split_and!; [done|by apply from_le_range..|done].
Qed.

Lemma decode_event_encoded e rest : event_ok e -> decode_event (encode_event e ++ rest) = Ok (e, rest).
Proof.
  intros He. unfold decode_event. destruct e as [b|cols rows]; cbn [encode_event].
  - destruct He as [_ Hl]. rewrite Z.min_l by done. rewrite <-app_comm_cons, take_tag, <-app_assoc.
    cbn [mbind result_bind]. rewrite Z.eqb_refl, take_int_app by (unfold zlen in *; unfold u32_max in Hl; cbn; lia).
    cbn [mbind result_bind]. rewrite take_ge by (unfold zlen; lia). unfold zlen. rewrite Nat2Z.id, take_bytes_app. done.
  - destruct He as [Hc Hr]. unfold is_u16, u16_max in *. rewrite <-app_comm_cons, take_tag, <-app_assoc.
    cbn [mbind result_bind]. cbn [Z.eqb]. rewrite take_int_app by (cbn; lia). cbn [mbind result_bind].
    rewrite take_int_app by (cbn; lia). done.
Qed.

Lemma decode_entry_encoded previous e rest :
  entry_ok e -> match previous with Some p => (p < en_seq e)%Z | None => True end ->
  decode_entry previous (encode_entry e ++ rest) = Ok (e, rest).
Proof.
  intros (Hs & Ho & He) Hp. unfold decode_entry, encode_entry, is_u64, u64_max in *. rewrite <-!app_assoc.
  rewrite take_int_app by (cbn; lia). cbn [mbind result_bind].
  assert (match previous with Some p => ensure (p <? en_seq e)%Z (OutOfOrder p (en_seq e)) | None => mret tt end = Ok tt) as ->.
  { destruct previous; [|done]. by rewrite (proj2 (Z.ltb_lt _ _) Hp). }
  cbn [mbind result_bind]. rewrite take_int_app by (cbn; lia). cbn [mbind result_bind].
  rewrite decode_event_encoded by done. by destruct e.
Qed.

Lemma encode_event_nonempty e : (0 < length (encode_event e))%nat.
Proof. destruct e; cbn; lia. Qed.

Lemma encode_entry_length e : (17 <= length (encode_entry e))%nat.
Proof. unfold encode_entry. rewrite !length_app, !le_length. pose proof (encode_event_nonempty (en_event e)). lia. Qed.

Lemma decode_entries_encoded fuel previous l :
  Forall entry_ok l -> in_sequence previous l -> (length (concat (encode_entry <$> l)) <= fuel)%nat ->
  decode_entries fuel previous (concat (encode_entry <$> l)) = Some (Ok l).
Proof.
  intros Hl. revert fuel previous. induction Hl as [|e l He Hl IH]; intros fuel previous Hs Hf; [by destruct fuel|].
  cbn [fmap list_fmap concat] in *. rewrite length_app in Hf. pose proof (encode_entry_length e) as H17.
  destruct fuel as [|fuel]; [lia|]. destruct Hs as [Hp Hs].
  pose proof (decode_entry_encoded previous e (concat (encode_entry <$> l)) He Hp) as Hd.
  destruct (encode_entry e ++ concat (encode_entry <$> l)) as [|b rest] eqn:E.
  { apply (f_equal length) in E. rewrite length_app in E. cbn in E. lia. }
  cbn [decode_entries]. rewrite Hd, IH; [done|done|lia].
Qed.

Lemma decode_event_inv rest e rest' :
  Forall byte_ok rest -> decode_event rest = Ok (e, rest') ->
  rest = encode_event e ++ rest' /\ event_ok e /\ Forall byte_ok rest'.
Proof.
  intros Hb. unfold decode_event. intros ([tag r1] & H1 & H)%bind_ok_iff. apply take_int_inv in H1 as (-> & _ & Hb1); [|done].
  destruct (tag =? 0)%Z eqn:E0; [|destruct (tag =? 1)%Z eqn:E1; [|done]].
  - apply Z.eqb_eq in E0 as ->. apply bind_ok_iff in H as ([len r2] & H2 & H). apply take_int_inv in H2 as (-> & Hlen & Hb2); [|done].
    apply bind_ok_iff in H as ([b r3] & (-> & Hl)%take_bytes_inv & [= <- <-]). apply Forall_app in Hb2 as [Hb2 Hb3].
    assert (zlen b = len) as Hz by (unfold zlen; lia). cbn in Hlen. cbn [encode_event event_ok]. unfold u32_max.
    rewrite Z.min_l by lia. rewrite Hz, take_ge by lia. split_and!; [transitivity (0%Z :: le 4 len ++ b ++ r3); [done|by cbn [app]; rewrite <-app_assoc]|done|lia|done].
  - apply Z.eqb_eq in E1 as ->. apply bind_ok_iff in H as ([cols r2] & H2 & H). apply take_int_inv in H2 as (-> & Hc & Hb2); [|done].
    apply bind_ok_iff in H as ([rows r3] & H3 & [= <- <-]). apply take_int_inv in H3 as (-> & Hr & Hb3); [|done].
    cbn in Hc, Hr. cbn [encode_event event_ok]. unfold is_u16, u16_max. split_and!; [transitivity (1%Z :: le 2 cols ++ le 2 rows ++ r3); [done|by cbn [app]; rewrite <-app_assoc]|lia..|done].
Qed.

Lemma decode_entry_inv previous rest e rest' :
  Forall byte_ok rest -> decode_entry previous rest = Ok (e, rest') ->
  rest = encode_entry e ++ rest' /\ entry_ok e /\ match previous with Some p => (p < en_seq e)%Z | None => True end /\
  Forall byte_ok rest'.
Proof.
  intros Hb. unfold decode_entry. intros ([seq r1] & H1 & H)%bind_ok_iff. apply take_int_inv in H1 as (-> & Hs & Hb1); [|done].
  apply bind_ok_iff in H as ([] & Hp & H). apply bind_ok_iff in H as ([off r2] & H2 & H).
  apply take_int_inv in H2 as (-> & Ho & Hb2); [|done]. apply bind_ok_iff in H as ([event r3] & H3 & [= <- <-]).
  apply decode_event_inv in H3 as (-> & He & Hb3); [|done]. cbn in Hs, Ho. unfold encode_entry, entry_ok, is_u64, u64_max.
  cbn [en_seq en_offset_ms en_event]. split_and!; [by rewrite <-!app_assoc|lia..|done| |done].
  destruct previous; [|done]. apply ensure_ok_iff in Hp. by apply Z.ltb_lt.
Qed.

(** The loop ends, with entries that encode to what it read. *)
Lemma decode_entries_inv fuel previous rest :
  Forall byte_ok rest -> (length rest <= fuel)%nat ->
  exists r, decode_entries fuel previous rest = Some r /\
  match r with
  | Ok l => rest = concat (encode_entry <$> l) /\ Forall entry_ok l /\ in_sequence previous l
  | Err _ => True
  end.
Proof.
  revert previous rest. induction fuel as [|fuel IH]; intros previous rest Hb Hf.
  { destruct rest; [|cbn in Hf; lia]. by exists (Ok []). }
  destruct rest as [|b rest]; [by exists (Ok [])|]. cbn [decode_entries].
  destruct (decode_entry previous (b :: rest)) as [[e rest']|err] eqn:E; [|by exists (Err err)].
  apply decode_entry_inv in E as (Hr & He & Hp & Hb'); [|done].
  pose proof (encode_entry_length e) as H17. apply (f_equal length) in Hr as Hlen. rewrite length_app in Hlen.
  destruct (IH (Some (en_seq e)) rest' Hb') as (r & Hd & Ho); [lia|]. rewrite Hd. destruct r as [l|err]; [|by exists (Err err)].
  destruct Ho as (-> & Hl & Hs). exists (Ok (e :: l)). split; [done|]. split_and!; [by rewrite Hr|by constructor|by split].
Qed.

Lemma strip_bytes_app p l : strip_bytes p (p ++ l) = Some l.
Proof. induction p as [|a p IH]; cbn; [done|]. by rewrite Z.eqb_refl. Qed.
Lemma strip_bytes_inv p l rest : strip_bytes p l = Some rest -> l = p ++ rest.
Proof.
  revert l. induction p as [|a p IH]; intros l; cbn; [by intros [= ->]|]. destruct l as [|b l]; [done|].
  destruct (a =? b)%Z eqn:E; [|done]. apply Z.eqb_eq in E as ->. by intros ->%IH.
Qed.

Lemma retain_all cap l : (length l <= cap)%nat -> retain cap l = l.
Proof. intros H. unfold retain. by replace (length l - cap)%nat with 0%nat by lia. Qed.

(** A recording decodes from its encoding, cut to the reader's
    retention; and bytes decode only when they are an encoding of entries in
    sequence.  Decoding always ends. *)
Theorem recordings_survive_encoding :
  (forall r cap, Forall entry_ok (rc_entries r) -> in_sequence None (rc_entries r) ->
     exists r', decode (encode r) cap = Some (Ok r') /\ rc_entries r' = retain cap (rc_entries r)) /\
  (forall l cap, Forall byte_ok l ->
     exists res, decode l cap = Some res /\
     forall r, res = Ok r ->
       exists entries, l = MAGIC ++ concat (encode_entry <$> entries) /\ rc_entries r = retain cap entries /\
         Forall entry_ok entries /\ in_sequence None entries).
Proof.
  split.
  - intros r cap Hok Hs. unfold decode, encode. rewrite strip_bytes_app, decode_entries_encoded by done. by eexists.
  - intros l cap Hb. unfold decode. destruct (strip_bytes MAGIC l) as [rest|] eqn:E; [|by eexists].
    apply strip_bytes_inv in E as ->. apply Forall_app in Hb as [_ Hb].
    destruct (decode_entries_inv (length rest) None rest Hb) as (r & -> & Ho); [done|]. destruct r as [entries|e]; [|by eexists].
    destruct Ho as (-> & Hok & Hs). eexists. split; [done|]. intros r [= <-]. by exists entries.
Qed.

(** ** The stream a recording holds *)

Definition recorded (cap : nat) (h : list (Z * Event)) : Recording :=
  foldl (fun r x => (record x.1 x.2 r).2) (new_recording cap) h.

Definition numbered (h : list (Z * Event)) : list Entry :=
  imap (fun i x => {| en_seq := Z.of_nat i; en_offset_ms := x.1; en_event := x.2 |}) h.

Lemma numbered_length h : length (numbered h) = length h.
Proof. apply length_imap. Qed.

Lemma numbered_snoc h x :
  numbered (h ++ [x]) = numbered h ++ [{| en_seq := Z.of_nat (length h); en_offset_ms := x.1; en_event := x.2 |}].
Proof. unfold numbered. rewrite imap_app. cbn. by rewrite Nat.add_0_r. Qed.

Lemma retain_snoc cap l e : retain cap (retain cap l ++ [e]) = retain cap (l ++ [e]).
Proof.
  unfold retain. rewrite !length_app, length_drop. cbn [length].
  destruct (decide (length l <= cap)%nat) as [Hle|Hgt].
  - replace (length l - cap)%nat with 0%nat by lia. cbn [drop]. f_equal. lia.
  - replace (length l - (length l - cap) + 1 - cap)%nat with 1%nat by lia.
    replace (length l + 1 - cap)%nat with ((length l - cap) + 1)%nat by lia.
    rewrite <-drop_drop. f_equal. by rewrite drop_app_le by lia.
Qed.

Lemma recorded_spec cap h :
  (Z.of_nat (length h) <= u64_max)%Z ->
  recorded cap h = {| rc_entries := retain cap (numbered h); rc_next_seq := Z.of_nat (length h); rc_cap := cap |}.
Proof.
  induction h as [|x h IH] using rev_ind; intros Hl; [done|]. rewrite length_app in Hl. cbn [length] in Hl.
  unfold recorded in *. rewrite foldl_app. cbn [foldl]. rewrite IH by lia. unfold record. cbn [rc_next_seq rc_entries rc_cap snd].
  rewrite numbered_snoc, retain_snoc, length_app. f_equal. unfold succ_u64. cbn [length]. rewrite Z.mod_small by lia. lia.
Qed.

Lemma numbered_lookup h i : numbered h !! i = (fun x => {| en_seq := Z.of_nat i; en_offset_ms := x.1; en_event := x.2 |}) <$> h !! i.
Proof. apply list_lookup_imap. Qed.

(** Numbered entries past a number are those behind it. *)
Lemma numbered_after h seq k :
  (k <= S seq)%nat ->
  List.filter (fun e => (Z.of_nat seq <? en_seq e)%Z) (drop k (numbered h)) = drop (S seq) (numbered h).
Proof.
  intros Hk. replace (S seq) with (k + (S seq - k))%nat at 1 by lia.
  rewrite <-drop_drop. set (l := drop k (numbered h)). set (m := (S seq - k)%nat).
  rewrite <-(take_drop m l) at 1. rewrite List.filter_app.
  assert (forall i e, l !! i = Some e -> en_seq e = Z.of_nat (k + i)) as Hi.
  { intros i e. subst l. rewrite lookup_drop, numbered_lookup. destruct (h !! _); [|done]. by intros [= <-]. }
  rewrite filter_nothing, filter_all; [done|..]; intros e [i He]%list_elem_of_lookup.
  - rewrite lookup_drop in He. apply Hi in He. lia.
  - apply lookup_take_Some in He as [He ?]. apply Hi in He. lia.
Qed.

Lemma numbered_drop_events h n : en_event <$> drop n (numbered h) = snd <$> drop n h.
Proof.
  apply list_eq. intros i. rewrite !list_lookup_fmap, !lookup_drop, numbered_lookup. by destruct (h !! _).
Qed.

(** The first and the last number retained. *)
Lemma retained_ends cap h :
  (0 < cap)%nat -> (0 < length h)%nat ->
  let r := {| rc_entries := retain cap (numbered h); rc_next_seq := Z.of_nat (length h); rc_cap := cap |} in
  oldest_seq r = Some (Z.of_nat (length h - cap)) /\ latest_seq r = Some (Z.of_nat (length h) - 1)%Z.
Proof.
  intros Hc Hh r. unfold oldest_seq, latest_seq. cbn [rc_entries r]. unfold retain. rewrite numbered_length.
  rewrite head_lookup, last_lookup, !lookup_drop, length_drop, numbered_length, !numbered_lookup.
  assert (forall i, (i < length h)%nat -> exists x, h !! i = Some x) as Hi by (intros i Hi; by apply lookup_lt_is_Some_2 in Hi).
  destruct (Hi (length h - cap + 0)%nat) as [x Hx]; [lia|].
  destruct (Hi (length h - cap + pred (length h - (length h - cap)))%nat) as [y Hy]; [lia|]. rewrite Hx, Hy. cbn.
  split; f_equal; lia.
Qed.

Section Terminal.
(** The terminal engine. *)
Context {grid : Type} (new_grid : Z -> Z -> option grid) (write : bytes -> grid -> grid)
  (term_resize : Z -> Z -> grid -> option grid) (size : grid -> option (Z * Z)) (snapshot_vt : grid -> option bytes).

(** [Grid::resize]. *)
Definition resize (cols rows : Z) (g : grid) : option grid :=
  if (cols =? 0)%Z || (rows =? 0)%Z then None else term_resize cols rows g.

Record Attach := { at_snapshot : bytes; at_seq : Z; at_cols : Z; at_rows : Z }.

(** [Attach::capture], [Attach::restore]. *)
Definition capture (g : grid) (seq : Z) : option Attach :=
  '(cols, rows) ← size g;
  vt ← snapshot_vt g;
  mret {| at_snapshot := vt; at_seq := seq; at_cols := cols; at_rows := rows |}.
Definition restore (a : Attach) : option grid := g ← new_grid (at_cols a) (at_rows a); mret (write (at_snapshot a) g).

Definition play (e : Event) (g : grid) : option grid :=
  match e with Output b => Some (write b g) | Resize cols rows => resize cols rows g end.

(** [replay]. *)
Fixpoint replay_events (l : list Event) (g : grid) : option grid :=
  match l with [] => Some g | e :: l => g ← play e g; replay_events l g end.

Inductive CaughtUp := Replayed (through : Z) | Snapshotted (at_ : Z).

(** [catch_up]: how, and the client's grid. *)
Definition catch_up (r : Recording) (live client : grid) (seq : Z) : option (CaughtUp * grid) :=
  let latest := default seq (latest_seq r) in
  match since seq r with
  | Ok entries => client ← replay_events (en_event <$> entries) client; mret (Replayed latest, client)
  | Err _ => a ← capture live latest; client ← restore a; mret (Snapshotted latest, client)
  end.

Lemma replay_app l k g : replay_events (l ++ k) g = (g' ← replay_events l g; replay_events k g').
Proof. revert g. induction l as [|e l IH]; intros g; cbn; [done|]. destruct (play e g); cbn; [apply IH|done]. Qed.

(** A client that has everything through some sequence number, of
    a recording that keeps at least one entry, is brought to the live terminal by
    the entries it missed when they are all retained; otherwise it is reset to a
    snapshot of the live terminal, written into a fresh one of its size. *)
Theorem a_caught_up_client_is_current cap h g0 live client seq :
  (0 < cap)%nat -> (Z.of_nat (length h) <= u64_max)%Z -> (seq < length h)%nat ->
  replay_events (h.*2) g0 = Some live -> replay_events ((take (S seq) h).*2) g0 = Some client ->
  let last_seq := (Z.of_nat (length h) - 1)%Z in
  if (length h <=? S seq + cap)%nat
  then catch_up (recorded cap h) live client (Z.of_nat seq) = Some (Replayed last_seq, live)
  else forall how g, catch_up (recorded cap h) live client (Z.of_nat seq) = Some (how, g) ->
    how = Snapshotted last_seq /\ exists cols rows vt fresh,
      size live = Some (cols, rows) /\ snapshot_vt live = Some vt /\ new_grid cols rows = Some fresh /\ g = write vt fresh.
Proof.
  intros Hcap Hlen Hseq Hlive Hclient last_seq. unfold catch_up. rewrite recorded_spec by done.
  set (r := Build_Recording _ _ _).
  pose proof (retained_ends cap h Hcap ltac:(lia)) as (Holdest & Hlatest). fold r in Holdest, Hlatest.
  rewrite Hlatest. cbn [default]. unfold since. rewrite Holdest. cbn [rc_entries r].
  assert (succ_u64 (Z.of_nat seq) = Z.of_nat (S seq)) as -> by (unfold succ_u64; rewrite Z.mod_small by lia; lia).
  destruct (length h <=? S seq + cap)%nat eqn:E; [apply Nat.leb_le in E|apply Nat.leb_gt in E].
  - rewrite (proj2 (Z.ltb_ge _ _)) by lia. unfold retain. rewrite numbered_length, numbered_after, numbered_drop_events by lia.
    assert (replay_events ((drop (S seq) h).*2) client = Some live) as ->; [|done].
    rewrite <-(take_drop (S seq) h), fmap_app, replay_app in Hlive. by rewrite Hclient in Hlive.
  - rewrite (proj2 (Z.ltb_lt _ _)) by lia. intros how g Hc. unfold capture in Hc.
    destruct (size live) as [[cols rows]|]; [|done]. cbn in Hc. destruct (snapshot_vt live) as [vt|]; [|done]. cbn in Hc.
    unfold restore in Hc. cbn in Hc. destruct (new_grid cols rows) as [fresh|] eqn:En; [|done]. injection Hc as <- <-.
    split; [done|]. by exists cols, rows, vt, fresh.
Qed.
End Terminal.
