(* ===== verification/HostScreen.v ===== *)
(** * The host's mirror of a terminal (gwk-pty-host/src/wire.rs, session.rs)

    The host turns the rows the terminal engine reports into the wire's cells,
    keeps a mirror of the screen and sends what changed.  The theorems: the
    deltas of a frame take a copy of the mirror before it to the mirror after it,
    so the registry of the kernel and every attached consumer hold the host's
    screen; and the registry accepts them where no cell's text is too long. *)

From S2P Require Import Prelude Text Command Tables Screen Hub Streams.

(** ** The engine's rows *)

Inductive Color := Palette (index : Z) | Rgb (r g b : Z).
Inductive Underline := USingle | UDouble | UCurly | UDotted | UDashed.
Record EngineStyle := {
  es_fg : option Color; es_bg : option Color; es_underline_color : option Color; es_bold : bool; es_dim : bool;
  es_italic : bool; es_underline : option Underline; es_blink : bool; es_inverse : bool; es_invisible : bool;
  es_strikethrough : bool; es_overline : bool;
}.

(** A row: its text as the characters it is made of, and for every cluster its
    style and its first column. *)
Record Row := { row_y : Z; row_text : list string; row_styles : list EngineStyle; row_cols : list Z }.

(** [render::Frame]; its [seq] and [full] are not looked at here. *)
Record EngineFrame := { fr_cols : Z; fr_rows : Z; fr_cursor : option (Z * Z); fr_changed : list Row }.

(** [color], [underline], [style]. *)
Definition color (c : Color) : CellColor :=
  match c with Palette index => Xterm256 index | Rgb r g b => Truecolor r g b end.
Definition underline_of (u : Underline) : CellUnderline :=
  match u with USingle => Single | UDouble => Double | UCurly => Curly | UDotted => Dotted | UDashed => Dashed end.
Definition wire_style (s : EngineStyle) : CellStyle := {|
  bold := es_bold s; dim := es_dim s; italic := es_italic s; blink := es_blink s; inverse := es_inverse s;
  invisible := es_invisible s; strikethrough := es_strikethrough s; overline := es_overline s;
  underline := underline_of <$> es_underline s; fg := color <$> es_fg s; bg := color <$> es_bg s;
  underline_color := color <$> es_underline_color s |}.

(** [split_clusters]: one character to a cluster, the rest to the last. *)
Definition split_clusters (text : list string) (clusters : nat) : list string :=
  map (fun i => if (i + 1 =? clusters)%nat then String.concat "" (drop i text) else default "" (text !! i)) (seq 0 clusters).

(** ** The mirror *)

Record WireScreen := { ws_cells : list (list StyledCell); ws_cursor : option PtyCursor }.

(** [WireScreen::new], [WireScreen::size]. *)
Definition new_screen (cols rows : Z) : WireScreen := {| ws_cells := blank_grid rows cols; ws_cursor := None |}.
Definition screen_size (s : WireScreen) : Z * Z :=
  (match ws_cells s with row :: _ => as_u16 (Z.of_nat (length row)) | [] => 0%Z end, as_u16 (Z.of_nat (length (ws_cells s)))).

(** [WireScreen::snapshot]. *)
Definition screen_snapshot (s : WireScreen) : PtyFrame := from_cells (ws_cells s) (ws_cursor s).

(** What the loops of [apply] carry: the cells, the batch's style table and the
    updates so far. *)
Record Batch := { bt_cells : list (list StyledCell); bt_styles : StyleInterner; bt_updates : list PtyCellUpdate }.

(** [set_cell]; a caller's column is inside the row. *)
Definition set_cell (y : Z) (cell : StyledCell) (b : Batch) (col : nat) : Batch :=
  match bt_cells b !! Z.to_nat y ≫= (fun row => row !! col) with
  | None => b
  | Some held =>
      if bool_decide (held = cell) then b
      else
        let '(style0, styles) := intern (style cell) (bt_styles b) in
        {| bt_cells := alter (<[col := cell]>) (Z.to_nat y) (bt_cells b); bt_styles := styles;
           bt_updates := bt_updates b ++ [{| up_row := y; up_col := as_u16 (Z.of_nat col); up_glyph := glyph cell; up_style := style0 |}] |}
  end.

(** The loop of [apply_row]. *)
Fixpoint row_loop (width0 : nat) (y : Z) (cols : list Z) (styles : list EngineStyle) (clusters : list string) (b : Batch) : Batch :=
  match cols, styles with
  | col :: cols, s :: styles =>
      let start := Z.to_nat col in
      if (width0 <=? start)%nat then b
      else
        let stop := match cols with next :: _ => Nat.min (Z.to_nat next) width0 | [] => width0 end in
        let b := set_cell y {| glyph := default "" (head clusters); style := wire_style s |} b start in
        let b := foldl (set_cell y {| glyph := ""; style := wire_style s |}) b (seq (S start) (stop - S start)) in
        row_loop width0 y cols styles (tail clusters) b
  | _, _ => b
  end.

(** [apply_row]: a row outside the mirror is dropped. *)
Definition apply_row (b : Batch) (r : Row) : Batch :=
  match bt_cells b !! Z.to_nat (row_y r) with
  | None => b
  | Some mirror_row =>
      row_loop (length mirror_row) (row_y r) (row_cols r) (row_styles r) (split_clusters (row_text r) (length (row_cols r))) b
  end.

(** [WireScreen::apply]: whether the frame resizes, the cells it is drawn on, what
    its rows come to, and the deltas. *)
Definition resizes (f : EngineFrame) (s : WireScreen) : bool := negb (bool_decide ((fr_cols f, fr_rows f) = screen_size s)).
Definition base_cells (f : EngineFrame) (s : WireScreen) : list (list StyledCell) :=
  if resizes f s then blank_grid (fr_rows f) (fr_cols f) else ws_cells s.
Definition frame_batch (f : EngineFrame) (s : WireScreen) : Batch :=
  foldl apply_row {| bt_cells := base_cells f s; bt_styles := empty_interner; bt_updates := [] |} (fr_changed f).

Definition apply_frame (f : EngineFrame) (s : WireScreen) : list PtyDelta * WireScreen :=
  let b := frame_batch f s in
  let changed := [CellsChanged (si_styles (bt_styles b)) (bt_updates b)] in
  ((if resizes f s then Resized (fr_rows f) (fr_cols f) :: (if bool_decide (bt_updates b = []) then [] else changed) else changed),
   {| ws_cells := bt_cells b; ws_cursor := (fun '(col, row) => {| cur_row := row; cur_col := col |}) <$> fr_cursor f |}).

(** [has_content]. *)
Definition has_content (deltas : list PtyDelta) : bool :=
  existsb (fun d => match d with CellsChanged _ updates => negb (bool_decide (updates = [])) | Resized _ _ => true end) deltas.

(** ** A batch says what it did *)

Definition widths_ok (g : list (list StyledCell)) : Prop := Forall (fun row => Z.of_nat (length row) <= u16_max)%Z g.

Section Tracks.
Context (g0 : list (list StyledCell)) (Hg0 : widths_ok g0) (G : string -> Prop) (HG : G "").

(** An update inside [g0] and the table, its text as [G] says. *)
Definition legal (n : nat) (u : PtyCellUpdate) : Prop :=
  G (up_glyph u) /\ (0 <= up_style u < Z.of_nat n)%Z /\ (0 <= up_row u)%Z /\ (0 <= up_col u)%Z /\
  exists row cell, g0 !! Z.to_nat (up_row u) = Some row /\ row !! Z.to_nat (up_col u) = Some cell.

Lemma legal_mono n m u : (n <= m)%nat -> legal n u -> legal m u.
Proof. intros Hnm (H1 & H2 & H3). split_and!; try done; [lia..|]. apply H3. Qed.

(** The updates take [g0] to the cells, under every table that goes on from the
    batch's own. *)
Record tracks (b : Batch) : Prop := {
  tr_interner : interner_ok (bt_styles b);
  tr_cells : forall table, si_styles (bt_styles b) `prefix_of` table -> foldl (apply_update table) g0 (bt_updates b) = bt_cells b;
  tr_legal : Forall (legal (length (si_styles (bt_styles b)))) (bt_updates b);
}.

Definition table_fits (b : Batch) : Prop := (Z.of_nat (length (si_styles (bt_styles b))) <= u32_max)%Z.
Definition grows (b b' : Batch) : Prop := si_styles (bt_styles b) `prefix_of` si_styles (bt_styles b').

#[local] Instance grows_preorder : PreOrder grows.
Proof. split; unfold grows; [by intros b|intros b1 b2 b3; apply transitivity]. Qed.

Lemma table_fits_mono b b' : grows b b' -> table_fits b' -> table_fits b.
Proof. intros Hp%prefix_length. unfold table_fits. lia. Qed.

Lemma tracks_width b y row col held :
  tracks b -> bt_cells b !! y = Some row -> row !! col = Some held ->
  (Z.of_nat col <= u16_max)%Z /\ exists row0 cell, g0 !! y = Some row0 /\ row0 !! col = Some cell.
Proof.
  intros [_ Ht _] Hy Hc. specialize (Ht _ (reflexivity _)). pose proof (apply_updates_lengths (si_styles (bt_styles b)) (bt_updates b) g0) as Hl.
  rewrite Ht in Hl. assert ((length <$> g0) !! y = Some (length row)) as Hr by (rewrite <-Hl, list_lookup_fmap, Hy; done).
  rewrite list_lookup_fmap in Hr. destruct (g0 !! y) as [r0|] eqn:E; [|done]. injection Hr as Hr.
  unfold widths_ok in Hg0. rewrite Forall_lookup in Hg0. specialize (Hg0 _ _ E). apply lookup_lt_Some in Hc.
  split; [lia|]. destruct (lookup_lt_is_Some_2 r0 col) as [cell Hcell]; [lia|]. by exists r0, cell.
Qed.

Lemma set_cell_grows y cell b col : grows b (set_cell y cell b col).
Proof.
  unfold set_cell, grows. destruct (_ ≫= _); [|done]. case_bool_decide; [done|]. unfold intern.
  destruct (si_index _ !! _); [done|]. cbn. by apply prefix_app_r.
Qed.

Lemma set_cell_tracks y cell b col : (0 <= y)%Z -> G (glyph cell) -> table_fits b -> tracks b -> tracks (set_cell y cell b col).
Proof.
  intros Hy Hgl Hf Ht. unfold set_cell. destruct (bt_cells b !! Z.to_nat y) as [row|] eqn:Er; [|done]. cbn [mbind option_bind].
  destruct (row !! col) as [held|] eqn:Eh; [|done]. case_bool_decide; [done|].
  destruct (intern (style cell) (bt_styles b)) as [i it] eqn:Ei.
  pose proof (intern_spec _ _ _ _ (tr_interner _ Ht) Hf Ei) as (Hok & Hst & Hi & Hl).
  pose proof (tracks_width _ _ _ _ _ Ht Er Eh) as [Hc Hin].
  assert (as_u16 (Z.of_nat col) = Z.of_nat col) as Has by (unfold as_u16; rewrite Z.mod_small; lia).
  split; [done|..]; cbn.
  - intros table Hp. rewrite foldl_app. cbn [foldl].
    rewrite (tr_cells _ Ht) by (etrans; [|exact Hp]; rewrite Hst; apply add_style_prefix).
    unfold apply_update. cbn [up_style up_row up_col up_glyph]. rewrite (prefix_lookup_Some _ _ _ _ Hl Hp), Has, Nat2Z.id. by destruct cell.
  - apply Forall_app. split.
    + eapply Forall_impl; [apply (tr_legal _ Ht)|]. intros u. apply legal_mono. rewrite Hst. apply prefix_length, add_style_prefix.
    + apply Forall_singleton. rewrite Has. unfold legal. cbn. rewrite Nat2Z.id. apply lookup_lt_Some in Hl. split_and!; [done|lia..|done].
Qed.

(** Loops. *)
Lemma fold_grows {X} (f : Batch -> X -> Batch) l b : (forall b x, grows b (f b x)) -> grows b (foldl f b l).
Proof. intros Hf. revert b. induction l as [|x l IH]; intros b; cbn; [done|]. etrans; [apply Hf|apply IH]. Qed.

Lemma fold_tracks {X} (f : Batch -> X -> Batch) (P : X -> Prop) l b :
  (forall b x, grows b (f b x)) -> (forall b x, P x -> table_fits (f b x) -> tracks b -> tracks (f b x)) ->
  Forall P l -> table_fits (foldl f b l) -> tracks b -> tracks (foldl f b l).
Proof.
  intros Hg Hf Hl. revert b. induction Hl as [|x l Hx Hl IH]; intros b Hfit Ht; cbn in *; [done|].
  apply IH; [done|]. apply Hf; [done| |done]. eapply table_fits_mono; [|exact Hfit]. by apply fold_grows.
Qed.

Lemma spacers_tracks y cell l b : (0 <= y)%Z -> G (glyph cell) -> table_fits (foldl (set_cell y cell) b l) -> tracks b -> tracks (foldl (set_cell y cell) b l).
Proof.
  intros Hy Hgl. apply (fold_tracks _ (fun _ => True)); [intros; apply set_cell_grows| |by apply Forall_true].
  intros b' col _ Hf. apply set_cell_tracks; [done|done|]. eapply table_fits_mono; [apply set_cell_grows|exact Hf].
Qed.

Lemma row_loop_grows width0 y cols styles clusters b : grows b (row_loop width0 y cols styles clusters b).
Proof.
  revert styles clusters b. induction cols as [|col cols IH]; intros [|s styles] clusters b; cbn; try done.
  destruct (_ <=? _)%nat; [done|]. etrans; [apply set_cell_grows|]. etrans; [|apply IH]. apply fold_grows. intros; apply set_cell_grows.
Qed.

Lemma row_loop_tracks width0 y cols styles clusters b :
  (0 <= y)%Z -> Forall G clusters -> table_fits (row_loop width0 y cols styles clusters b) -> tracks b -> tracks (row_loop width0 y cols styles clusters b).
Proof.
  intros Hy. revert styles clusters b. induction cols as [|col cols IH]; intros [|s styles] clusters b; cbn; try done.
  destruct (_ <=? _)%nat; [done|]. intros Hcl Hf Ht. apply IH; [by destruct Hcl|done|].
  assert (forall b', grows b' (row_loop width0 y cols styles (tail clusters) b')) as Hg by (intros; apply row_loop_grows).
  pose proof (table_fits_mono _ _ (Hg _) Hf) as Hf2. apply spacers_tracks; [done|done|done|].
  apply set_cell_tracks; [done|by destruct Hcl| |done]. eapply table_fits_mono; [apply set_cell_grows|]. eapply table_fits_mono; [|exact Hf2].
  apply fold_grows. intros; apply set_cell_grows.
Qed.

Lemma apply_row_grows b r : grows b (apply_row b r).
Proof. unfold apply_row. destruct (_ !! _); [apply row_loop_grows|done]. Qed.

Definition row_ok (r : Row) : Prop := (0 <= row_y r)%Z /\ Forall G (split_clusters (row_text r) (length (row_cols r))).

Lemma apply_row_tracks b r : row_ok r -> table_fits (apply_row b r) -> tracks b -> tracks (apply_row b r).
Proof. intros [Hy Hcl]. unfold apply_row. destruct (_ !! _); [by apply row_loop_tracks|done]. Qed.

Lemma rows_track rows0 :
  Forall row_ok rows0 ->
  let b := foldl apply_row {| bt_cells := g0; bt_styles := empty_interner; bt_updates := [] |} rows0 in
  table_fits b -> tracks b.
Proof.
  intros Hr b Hf. apply (fold_tracks apply_row row_ok); [apply apply_row_grows| |done|done|].
  - intros b' r Hy. by apply apply_row_tracks.
  - split; [apply empty_interner_ok|done|constructor].
Qed.
End Tracks.

(** ** Frames of the engine *)

(** How many styles a frame's rows name. *)
Definition named_styles (rows0 : list Row) : nat := sum_list_with (fun r => length (row_styles r)) rows0.

(** What the engine's types and its viewport give: u16 dimensions, rows that are
    not negative, a cursor inside the screen, and no more styles than a style index
    can number. *)
Record engine_frame (f : EngineFrame) : Prop := {
  ef_rows : is_u16 (fr_rows f);
  ef_cols : is_u16 (fr_cols f);
  ef_changed : Forall (fun r => (0 <= row_y r)%Z) (fr_changed f);
  ef_styles : (Z.of_nat (named_styles (fr_changed f)) <= u32_max)%Z;
  ef_cursor : forall col row, fr_cursor f = Some (col, row) -> (0 <= row < fr_rows f /\ 0 <= col < fr_cols f)%Z;
}.

(** A run of cells in one style adds that style at most. *)
Definition one_style (st : CellStyle) (it it' : StyleInterner) : Prop := it' = it \/ it' = (intern st it).2.

Lemma intern_again st it : (intern st (intern st it).2).2 = (intern st it).2.
Proof.
  unfold intern at 2 3. destruct (si_index it !! st) as [i|] eqn:E; cbn; [|].
  - unfold intern. by rewrite E.
  - unfold intern. cbn. by rewrite lookup_insert_eq.
Qed.

Lemma one_style_trans st it1 it2 it3 : one_style st it1 it2 -> one_style st it2 it3 -> one_style st it1 it3.
Proof. unfold one_style. intros [->| ->] [->| ->]; rewrite ?intern_again; auto. Qed.

Lemma set_cell_style y cell b col : one_style (style cell) (bt_styles b) (bt_styles (set_cell y cell b col)).
Proof.
  unfold set_cell. destruct (_ ≫= _); [|by left]. case_bool_decide; [by left|]. right. by destruct (intern _ _).
Qed.

Lemma set_cells_style y cell l b : one_style (style cell) (bt_styles b) (bt_styles (foldl (set_cell y cell) b l)).
Proof. revert b. induction l as [|c l IH]; intros b; cbn; [by left|]. eapply one_style_trans; [apply set_cell_style|apply IH]. Qed.

Lemma one_style_length st it it' : one_style st it it' -> length (si_styles it') <= S (length (si_styles it)).
Proof.
  intros [->| ->]; [lia|]. unfold intern. destruct (si_index it !! st); cbn; [lia|]. rewrite length_app. cbn. lia.
Qed.

Lemma row_loop_styles width0 y cols styles clusters b :
  length (si_styles (bt_styles (row_loop width0 y cols styles clusters b))) <= length (si_styles (bt_styles b)) + length styles.
Proof.
  revert styles clusters b. induction cols as [|col cols IH]; intros [|s styles] clusters b; cbn; try lia.
  destruct (_ <=? _)%nat; [lia|]. etrans; [apply IH|].
  match goal with |- context [foldl (set_cell y ?sp) (set_cell y ?hd b ?c) ?l] =>
    pose proof (one_style_length _ _ _ (one_style_trans (wire_style s) _ _ _ (set_cell_style y hd b c) (set_cells_style y sp l (set_cell y hd b c)))) as Hl end.
  cbn in *. lia.
Qed.

Lemma frame_fits f s : engine_frame f -> table_fits (frame_batch f s).
Proof.
  intros [_ _ _ Hs _]. unfold table_fits, frame_batch.
  assert (forall rows0 b, length (si_styles (bt_styles (foldl apply_row b rows0))) <= length (si_styles (bt_styles b)) + named_styles rows0) as H.
  { induction rows0 as [|r rows0 IH]; intros b; cbn; [lia|]. etrans; [apply IH|]. fold (named_styles rows0). unfold apply_row.
    destruct (_ !! _); [|lia]. pose proof (row_loop_styles (length l) (row_y r) (row_cols r) (row_styles r) (split_clusters (row_text r) (length (row_cols r))) b).
    lia. }
  specialize (H (fr_changed f) {| bt_cells := base_cells f s; bt_styles := empty_interner; bt_updates := [] |}). cbn in H. lia.
Qed.

(** ** Deltas and the screen *)

Lemma blank_grid_widths rows0 cols0 : is_u16 cols0 -> widths_ok (blank_grid rows0 cols0).
Proof. intros Hc. apply Forall_replicate. rewrite length_replicate. unfold is_u16 in Hc. lia. Qed.

Lemma base_widths f s : engine_frame f -> widths_ok (ws_cells s) -> widths_ok (base_cells f s).
Proof. intros [_ Hc _ _ _] Hw. unfold base_cells. destruct (resizes f s); [by apply blank_grid_widths|done]. Qed.

(** The batch of a frame is tracked from what it is drawn on. *)
Lemma frame_tracks (G : string -> Prop) f s :
  G "" -> engine_frame f -> Forall (row_ok G) (fr_changed f) -> widths_ok (ws_cells s) -> tracks (base_cells f s) G (frame_batch f s).
Proof. intros HG Ht Hr Hw. apply rows_track; [by apply base_widths|done|done|by apply frame_fits]. Qed.

(** No bound on the text. *)
Lemma frame_tracked f s : engine_frame f -> widths_ok (ws_cells s) -> tracks (base_cells f s) (fun _ => True) (frame_batch f s).
Proof.
  intros Ht Hw. apply frame_tracks; [done|done| |done]. eapply Forall_impl; [apply (ef_changed _ Ht)|].
  intros r ?. split; [done|by apply Forall_true].
Qed.

Lemma deltas_reach (G : string -> Prop) f s :
  tracks (base_cells f s) G (frame_batch f s) ->
  foldl apply_delta (ws_cells s) (apply_frame f s).1 = ws_cells (apply_frame f s).2.
Proof.
  intros [_ Ht _]. specialize (Ht _ (reflexivity _)). unfold apply_frame, base_cells in *. cbn.
  destruct (resizes f s); cbn; [|done]. case_bool_decide as Hu; cbn; [|done]. by rewrite Hu in Ht.
Qed.

Lemma frame_widths G f s : tracks (base_cells f s) G (frame_batch f s) -> length <$> bt_cells (frame_batch f s) = length <$> base_cells f s.
Proof. intros [_ Ht _]. rewrite <-(Ht _ (reflexivity _)). apply apply_updates_lengths. Qed.

Lemma widths_same g g' : length <$> g = length <$> g' -> widths_ok g -> widths_ok g'.
Proof.
  intros Hl Hb. unfold widths_ok in *. rewrite Forall_lookup in *. intros i row Hi.
  assert ((length <$> g) !! i = Some (length row)) as E by (rewrite Hl, list_lookup_fmap, Hi; done).
  rewrite list_lookup_fmap in E. destruct (g !! i) as [r0|] eqn:E0; [|done]. injection E as <-. by apply (Hb i).
Qed.

(** The deltas of a frame take a copy of the screen before it to the
    screen after it, and the screen keeps the size it was drawn at. *)
Theorem deltas_carry_the_screen f s deltas s' :
  widths_ok (ws_cells s) -> engine_frame f -> apply_frame f s = (deltas, s') ->
  foldl apply_delta (ws_cells s) deltas = ws_cells s' /\ length <$> ws_cells s' = length <$> base_cells f s /\ widths_ok (ws_cells s').
Proof.
  intros Hw Ht Ha. pose proof (frame_tracked f s Ht Hw) as Hk. pose proof (deltas_reach _ _ _ Hk) as Hd. rewrite Ha in Hd.
  assert (ws_cells s' = bt_cells (frame_batch f s)) as Hs by (unfold apply_frame in Ha; by simplify_eq).
  pose proof (frame_widths _ _ _ Hk) as Hl. rewrite <-Hs in Hl. split; [done|]. split; [done|].
  eapply widths_same; [symmetry; exact Hl|by apply base_widths].
Qed.

(** ** The registry's checks *)

Section Accepted.
Context `{PJ : PtyJson}.

(** A glyph the registry takes. *)
Definition short (g : string) : Prop := (Z.of_nat (String.length g) <= MAX_GLYPH_BYTES)%Z.

Lemma rect_lookup (g : list (list StyledCell)) c y x row cell :
  shaped g c -> g !! y = Some row -> row !! x = Some cell -> (Z.of_nat y < Z.of_nat (length g) /\ Z.of_nat x < grid_cols g)%Z.
Proof.
  intros [_ Hr _ _] Hy Hx. rewrite Forall_lookup in Hr. specialize (Hr _ _ Hy). apply lookup_lt_Some in Hy, Hx. lia.
Qed.

Lemma legal_updates_checked g c n updates :
  shaped g c -> Forall (legal g short n) updates -> check_updates (Z.of_nat n) (grid_cols g) (Z.of_nat (length g)) updates = Ok tt.
Proof.
  intros Hs. induction 1 as [|u updates (Hg & Hst & Hr & Hc & row & cell & Hrow & Hcell) _ IH]; [done|]. cbn.
  pose proof (rect_lookup _ _ _ _ _ _ Hs Hrow Hcell). unfold check_update, ensure.
  rewrite (proj2 (Z.ltb_lt (up_style u) _)), (proj2 (Z.ltb_lt (up_row u) _)), (proj2 (Z.ltb_lt (up_col u) _)) by lia.
  unfold short in Hg. rewrite (proj2 (Z.leb_le _ _) Hg). exact IH.
Qed.

(** What a resize needs. *)
Definition resizable (f : EngineFrame) : Prop :=
  pty_grid_dimensions_are_bounded (fr_cols f) (fr_rows f) = true /\ (blank_grid_bytes (fr_rows f) (fr_cols f) <= PUBLISH_BYTE_BUDGET)%Z.

Lemma shaped_widths g c : shaped g c -> widths_ok g.
Proof. intros [_ Hr Hc _]. eapply Forall_impl; [exact Hr|]. cbn. intros row ->. done. Qed.

Lemma batch_checked f s c :
  shaped (base_cells f s) c -> tracks (base_cells f s) short (frame_batch f s) ->
  check_deltas (grid_cols (base_cells f s)) (Z.of_nat (length (base_cells f s)))
    [CellsChanged (si_styles (bt_styles (frame_batch f s))) (bt_updates (frame_batch f s))] = Ok tt.
Proof.
  intros Hs [Hi _ Hl]. cbn. rewrite (proj2 (duplicate_free_ok _) (io_distinct _ Hi)). cbn. by rewrite (legal_updates_checked _ c).
Qed.

(** The registry's checks accept the deltas of a frame when no
    cluster of its rows is longer than a glyph may be and a resize is to a size
    the registry takes. *)
Theorem short_glyphs_are_accepted f s c :
  shaped (ws_cells s) c -> engine_frame f -> Forall (row_ok short) (fr_changed f) -> (resizes f s = true -> resizable f) ->
  check_deltas (grid_cols (ws_cells s)) (Z.of_nat (length (ws_cells s))) (apply_frame f s).1 = Ok tt.
Proof.
  intros Hs Ht Hr Hz. pose proof (frame_tracks short f s ltac:(done) Ht Hr (shaped_widths _ _ Hs)) as Hk.
  unfold apply_frame. cbn [fst]. destruct (resizes f s) eqn:E.
  - destruct (Hz eq_refl) as [Hb Hy], Ht as [Hr1 Hc1 _ _ _]. destruct (blank_grid_shaped _ _ Hr1 Hc1 Hb) as (Hs1 & Hg & Hl).
    assert (base_cells f s = blank_grid (fr_rows f) (fr_cols f)) as Hbc by (unfold base_cells; by rewrite E).
    pose proof (batch_checked f s None ltac:(by rewrite Hbc) Hk) as Hc. rewrite Hbc, Hg, Hl in Hc. cbn [check_deltas].
    unfold bounded_grid, ensure. rewrite Hb, (proj2 (Z.leb_le _ _) Hy). cbn -[check_deltas]. by case_bool_decide.
  - assert (base_cells f s = ws_cells s) as Hbc by (unfold base_cells; by rewrite E).
    pose proof (batch_checked f s c ltac:(by rewrite Hbc) Hk) as Hc. by rewrite Hbc in Hc.
Qed.
End Accepted.
