(* ===== verification/HostSession.v ===== *)
(** * A session of the host (gwk-pty-host/src/session.rs, registry.rs, publish.rs)

    The task that owns a child: it records what the child writes, keeps the mirror
    of the screen, broadcasts what changed and keeps the last batches for a
    consumer that comes back; and the host's record of the controls it applied.
    The engine and the child are what a wake brings with it.  The theorems: the
    broadcast and the retained batches bring a copy of the screen, from any earlier
    moment, to the screen as it is, a consumer that the batches no longer reach
    gets the whole of it, and the kernel's registry, fed from the broadcast, holds
    it too; a control is applied once while it is not settled. *)

From stdpp Require Import sorting.
From S2P Require Import Prelude Text Command Tables Screen Hub Streams Container Recording HostScreen.

(** ** The data *)

Inductive RestartPolicy := Never | OnFailure (max delay : Z).
Record SessionConfig := { cf_cols : Z; cf_rows : Z; cf_recording_cap : nat; cf_retained_batches : nat; cf_restart : RestartPolicy }.

Record DeltaBatch := { db_seq : Z; db_deltas : list PtyDelta }.
Inductive RawEvent := RawBytes (bytes : bytes) | RawResize (cols rows : Z).
Record RawBatch := { rb_seq : Z; rb_event : RawEvent }.
Record RawSeed := { rs_seq : option Z; rs_cols : Z; rs_rows : Z; rs_bytes : bytes }.
Record ScreenAt := { sa_seq : option Z; sa_frame : PtyFrame }.
Inductive HostCatchUp := Behind (batches : list DeltaBatch) | Seeded (screen : ScreenAt).

(** [Attached]; a subscription is where it starts in the broadcast. *)
Record HostAttached := {
  ad_cols : Z; ad_rows : Z; ad_cursor : option Z; ad_catch_up : HostCatchUp; ad_live : nat;
  ad_raw_snapshot : option RawSeed; ad_raw_live : nat;
}.

Inductive SessionExit := Exited (success : bool) | Stopped | Failed.

(** What [run] carries round its loop; the two broadcasts as all that was sent. *)
Record Running := {
  rn_recording : Recording; rn_screen : WireScreen; rn_retained : list DeltaBatch; rn_evicted : option Z;
  rn_last_seq : option Z; rn_restarts : Z; rn_sent : list DeltaBatch; rn_raw_sent : list RawBatch;
}.

(** What a turn of the loop hears: a chunk of output (none at the end of it), a
    failed read, or a command. *)
Inductive Wake :=
| Chunk (chunk : bytes)
| ReadFailed
| CommandsClosed
| CInput
| CResize (cols rows : Z)
| CSnapshot
| CAttach (cursor : option Z)
| CStop.

(** What the child, the engine and the clock answer during a turn. *)
Record World := {
  wd_now : Z;                                (* [offset_ms] *)
  wd_frame : option EngineFrame;                   (* [Renderer::frame] *)
  wd_waited : option bool;                   (* [Session::wait], and whether the status is a success *)
  wd_spawned : bool;                         (* [spawn] *)
  wd_renderer : bool;                        (* [Renderer::new] *)
  wd_session : result string unit;           (* [Session::send], [Session::resize], the kill and reap of a stop *)
  wd_vt : option bytes;                      (* [Grid::snapshot_vt] *)
}.

Inductive Reply := NoReply | Settled (r : result string unit) | SnapshotIs (s : ScreenAt) | AttachedIs (a : HostAttached).
Inductive Turn := Goes (reply : Reply) (s : Running) | Ends (reply : Reply) (exit : SessionExit).

(** ** The operations *)

(** The eviction loop of [publish]. *)
Fixpoint drop_past (cap : nat) (retained : list DeltaBatch) (evicted : option Z) : list DeltaBatch * option Z :=
  if (length retained <=? cap)%nat then (retained, evicted)
  else match retained with
       | dropped :: retained => drop_past cap retained (Some (db_seq dropped))
       | [] => ([], evicted)
       end.

(** [publish]. *)
Definition broadcast (cap : nat) (b : DeltaBatch) (s : Running) : Running :=
  let '(retained, evicted) := drop_past cap (rn_retained s ++ [b]) (rn_evicted s) in
  {| rn_recording := rn_recording s; rn_screen := rn_screen s; rn_retained := retained; rn_evicted := evicted;
     rn_last_seq := rn_last_seq s; rn_restarts := rn_restarts s; rn_sent := rn_sent s ++ [b]; rn_raw_sent := rn_raw_sent s |}.

(** [catch_up]. *)
Definition bring_current (cursor : option Z) (s : Running) : HostCatchUp :=
  let snapshot := Seeded {| sa_seq := rn_last_seq s; sa_frame := screen_snapshot (rn_screen s) |} in
  match cursor, rn_last_seq s with
  | None, _ | Some _, None => snapshot
  | Some c, Some l =>
      if (l <? c)%Z then snapshot
      else if (match rn_evicted s with Some e => (c <? e)%Z | None => false end) then snapshot
      else Behind (List.filter (fun b => (c <? db_seq b)%Z) (rn_retained s))
  end.

(** An event is recorded, sent raw, and becomes the revision. *)
Definition note (now : Z) (e : Event) (raw : RawEvent) (s : Running) : Z * Running :=
  let '(seq, r) := record now e (rn_recording s) in
  (seq, {| rn_recording := r; rn_screen := rn_screen s; rn_retained := rn_retained s; rn_evicted := rn_evicted s;
           rn_last_seq := Some seq; rn_restarts := rn_restarts s; rn_sent := rn_sent s;
           rn_raw_sent := rn_raw_sent s ++ [{| rb_seq := seq; rb_event := raw |}] |}).

Definition with_mirror (screen : WireScreen) (s : Running) : Running :=
  {| rn_recording := rn_recording s; rn_screen := screen; rn_retained := rn_retained s; rn_evicted := rn_evicted s;
     rn_last_seq := rn_last_seq s; rn_restarts := rn_restarts s; rn_sent := rn_sent s; rn_raw_sent := rn_raw_sent s |}.
Definition with_restarts (n : Z) (s : Running) : Running :=
  {| rn_recording := rn_recording s; rn_screen := rn_screen s; rn_retained := rn_retained s; rn_evicted := rn_evicted s;
     rn_last_seq := rn_last_seq s; rn_restarts := n; rn_sent := rn_sent s; rn_raw_sent := rn_raw_sent s |}.

Section Run.
Context (cf : SessionConfig).
Let cap := cf_retained_batches cf.

(** The state before the loop. *)
Definition started : Running :=
  {| rn_recording := new_recording (cf_recording_cap cf); rn_screen := new_screen (cf_cols cf) (cf_rows cf); rn_retained := [];
     rn_evicted := None; rn_last_seq := None; rn_restarts := match cf_restart cf with Never => 0 | OnFailure max _ => max end;
     rn_sent := []; rn_raw_sent := [] |}.

(** The child ended. *)
Definition child_ended (w : World) (s : Running) : Turn :=
  match wd_waited w with
  | None => Ends NoReply Failed
  | Some success =>
      if negb (negb success && (0 <? rn_restarts s)%Z) then Ends NoReply (Exited success)
      else
        let s := with_restarts (rn_restarts s - 1) s in
        match cf_restart cf with
        | Never => Ends NoReply (Exited success)
        | OnFailure _ _ =>
            let '(cols, rows) := screen_size (rn_screen s) in
            if negb (wd_spawned w) then Ends NoReply Failed
            else if negb (wd_renderer w) then Ends NoReply Failed
            else
              let '(seq, s) := note (wd_now w) (Resize cols rows) (RawResize cols rows) s in
              Goes NoReply (broadcast cap {| db_seq := seq; db_deltas := [Resized rows cols] |} (with_mirror (new_screen cols rows) s))
        end
  end.

(** The child wrote. *)
Definition child_wrote (w : World) (chunk : bytes) (s : Running) : Turn :=
  let '(seq, s) := note (wd_now w) (Output chunk) (RawBytes chunk) s in
  match wd_frame w with
  | None => Ends NoReply Failed
  | Some f =>
      let '(deltas, screen) := apply_frame f (rn_screen s) in
      let s := with_mirror screen s in
      Goes NoReply (if has_content deltas then broadcast cap {| db_seq := seq; db_deltas := deltas |} s else s)
  end.

(** A resize. *)
Definition asked_to_resize (w : World) (cols rows : Z) (s : Running) : Turn :=
  match wd_session w with
  | Err e => Goes (Settled (Err e)) s
  | Ok tt =>
      let '(seq, s) := note (wd_now w) (Resize cols rows) (RawResize cols rows) s in
      match wd_frame w with
      | None => Ends NoReply Failed
      | Some f =>
          let '(deltas, screen) := apply_frame f (rn_screen s) in
          Goes (Settled (Ok tt)) (broadcast cap {| db_seq := seq; db_deltas := deltas |} (with_mirror screen s))
      end
  end.

Definition attach_session (w : World) (cursor : option Z) (s : Running) : HostAttached :=
  let '(cols, rows) := screen_size (rn_screen s) in
  {| ad_cols := cols; ad_rows := rows; ad_cursor := rn_last_seq s; ad_catch_up := bring_current cursor s; ad_live := length (rn_sent s);
     ad_raw_snapshot := (fun b => {| rs_seq := rn_last_seq s; rs_cols := cols; rs_rows := rows; rs_bytes := b |}) <$> wd_vt w;
     ad_raw_live := length (rn_raw_sent s) |}.

(** A turn of the loop of [run]. *)
Definition turn (w : World) (k : Wake) (s : Running) : Turn :=
  match k with
  | Chunk [] => child_ended w s
  | Chunk chunk => child_wrote w chunk s
  | ReadFailed => Ends NoReply Failed
  | CommandsClosed => Ends NoReply Stopped
  | CStop => Ends (Settled (wd_session w)) Stopped
  | CInput => Goes (Settled (wd_session w)) s
  | CResize cols rows => asked_to_resize w cols rows s
  | CSnapshot => Goes (SnapshotIs {| sa_seq := rn_last_seq s; sa_frame := screen_snapshot (rn_screen s) |}) s
  | CAttach cursor => Goes (AttachedIs (attach_session w cursor s)) s
  end.

(** The turns of a session that goes on through them. *)
Fixpoint turns (l : list (World * Wake)) (s : Running) : option Running :=
  match l with
  | [] => Some s
  | (w, k) :: l => match turn w k s with Goes _ s => turns l s | Ends _ _ => None end
  end.
End Run.

(** ** Shapes *)

Lemma blank_dims rows0 cols0 :
  is_u16 rows0 -> is_u16 cols0 ->
  Z.of_nat (length (blank_grid rows0 cols0)) = rows0 /\ grid_cols (blank_grid rows0 cols0) = (if (rows0 =? 0)%Z then 0%Z else cols0).
Proof.
  unfold is_u16, blank_grid. intros Hr Hc. rewrite length_replicate. split; [lia|].
  destruct (Z.eqb_spec rows0 0) as [->|Hn]; [done|]. destruct (Z.to_nat rows0) eqn:E; [lia|]. cbn. rewrite length_replicate. lia.
Qed.

Lemma blank_shaped rows0 cols0 : is_u16 rows0 -> is_u16 cols0 -> shaped (blank_grid rows0 cols0) None.
Proof.
  intros Hr Hc. destruct (blank_dims _ _ Hr Hc) as [Hl Hg]. unfold is_u16 in *. split; rewrite ?Hl, ?Hg.
  - lia.
  - unfold blank_grid. destruct (Z.eqb_spec rows0 0) as [->|Hn]; [constructor|]. apply Forall_replicate. rewrite length_replicate. lia.
  - destruct (_ =? _)%Z; lia.
  - done.
Qed.

Lemma shaped_cursor g c c' : shaped g c -> cursor_inside (Z.of_nat (length g)) (grid_cols g) c' = true -> shaped g c'.
Proof. intros [H1 H2 H3 _] H. by split. Qed.

Lemma screen_size_shaped s c : shaped (ws_cells s) c -> screen_size s = (grid_cols (ws_cells s), Z.of_nat (length (ws_cells s))).
Proof.
  intros [Hr _ Hc _]. unfold screen_size. rewrite (as_u16_small (Z.of_nat (length (ws_cells s)))) by (split; [lia|done]).
  destruct (ws_cells s) as [|row g]; [done|]. simpl in *. by rewrite as_u16_small by (split; [lia|done]).
Qed.

Definition sound (s : WireScreen) : Prop := shaped (ws_cells s) (ws_cursor s).

Lemma sound_u16 s : sound s -> is_u16 (screen_size s).1 /\ is_u16 (screen_size s).2.
Proof.
  intros Hs. rewrite (screen_size_shaped _ _ Hs). destruct Hs as [Hr _ Hc _]. unfold is_u16. cbn.
  split; [|lia]. split; [|done]. destruct (ws_cells s); cbn; lia.
Qed.

(** What a frame is drawn on has the frame's size. *)
Lemma base_shaped f s :
  engine_frame f -> sound s ->
  shaped (base_cells f s) None /\
  forall col row, fr_cursor f = Some (col, row) -> cursor_inside (Z.of_nat (length (base_cells f s))) (grid_cols (base_cells f s)) (Some {| cur_row := row; cur_col := col |}) = true.
Proof.
  intros [Hr Hc _ _ Hk] Hs. unfold base_cells. destruct (resizes f s) eqn:E.
  - split; [by apply blank_shaped|]. intros col row Hcr. destruct (Hk _ _ Hcr) as [H1 H2], (blank_dims _ _ Hr Hc) as [-> ->]. cbn.
    destruct (Z.eqb_spec (fr_rows f) 0); [lia|]. rewrite (proj2 (Z.ltb_lt _ _)), (proj2 (Z.ltb_lt _ _)) by lia. done.
  - unfold resizes in E. apply negb_false_iff, bool_decide_eq_true in E. rewrite (screen_size_shaped _ _ Hs) in E. injection E as E1 E2.
    split; [by eapply shaped_cursor|]. intros col row Hcr. destruct (Hk _ _ Hcr). cbn. rewrite <-E1, <-E2.
    rewrite (proj2 (Z.ltb_lt _ _)), (proj2 (Z.ltb_lt _ _)) by lia. done.
Qed.

Lemma frame_sound f s deltas s' : engine_frame f -> sound s -> apply_frame f s = (deltas, s') -> foldl apply_delta (ws_cells s) deltas = ws_cells s' /\ sound s'.
Proof.
  intros Hf Hs Ha. pose proof (frame_tracked f s Hf (shaped_widths _ _ Hs)) as Hk. pose proof (deltas_reach _ _ _ Hk) as Hd. rewrite Ha in Hd.
  split; [done|]. destruct (base_shaped _ _ Hf Hs) as [Hb Hc]. pose proof (frame_widths _ _ _ Hk) as Hl.
  pose proof (same_lengths _ _ Hl) as (Hl1 & Hl2 & _).
  unfold apply_frame in Ha. injection Ha as _ <-. unfold sound. cbn. apply (shaped_cursor _ None); [by eapply shaped_lengths|].
  rewrite Hl1, Hl2. destruct (fr_cursor f) as [[col row]|]; cbn; [by apply Hc|done].
Qed.

(** ** A batch that is not sent changes nothing *)

Definition play_batches (g : list (list StyledCell)) (l : list DeltaBatch) : list (list StyledCell) :=
  foldl (fun g b => foldl apply_delta g (db_deltas b)) g l.

Lemma no_content deltas g : has_content deltas = false -> foldl apply_delta g deltas = g.
Proof.
  revert g. induction deltas as [|d deltas IH]; intros g; cbn; [done|]. intros [Hd Hr]%orb_false_iff. destruct d; cbn in *; [|done].
  apply negb_false_iff, bool_decide_eq_true in Hd as ->. by apply IH.
Qed.

Lemma drop_past_spec cap l ev :
  exists d, l = d ++ (drop_past cap l ev).1 /\ (drop_past cap l ev).2 = match last d with Some b => Some (db_seq b) | None => ev end /\
    length (drop_past cap l ev).1 <= cap.
Proof.
  revert ev. induction l as [|b l IH]; intros ev; cbn [drop_past]; [exists []; cbn; by split_and!; try lia|].
  destruct (Nat.leb_spec (length (b :: l)) cap); [exists []; by split_and!|]. destruct (IH (Some (db_seq b))) as (d & E & -> & Hl).
  exists (b :: d). split; [by rewrite <-app_comm_cons, <-E|]. split; [|done]. rewrite last_cons. by destruct (last d).
Qed.

(** ** The invariant *)

Notation next s := (rc_next_seq (rn_recording s)).

Record running_ok (s : Running) : Prop := {
  ro_sound : sound (rn_screen s);
  ro_next : (0 <= next s)%Z;
  ro_last : rn_last_seq s = (if (next s =? 0)%Z then None else Some (next s - 1)%Z);
  ro_sorted : StronglySorted Z.lt (db_seq <$> rn_sent s);
  ro_below : Forall (fun b => db_seq b < next s)%Z (rn_sent s);
  ro_window : exists d, rn_sent s = d ++ rn_retained s /\ rn_evicted s = db_seq <$> last d;
  ro_raw : rb_seq <$> rn_raw_sent s = Z.of_nat <$> seq 0 (Z.to_nat (next s));
}.

(** What came between two states was broadcast, and makes the difference. *)
Record advances (s s' : Running) (n : nat) : Prop := {
  mv_next : (next s <= next s' <= next s + Z.of_nat n)%Z;
  mv_sent : exists l, rn_sent s' = rn_sent s ++ l /\ Forall (fun b => next s <= db_seq b)%Z l /\
    play_batches (ws_cells (rn_screen s)) l = ws_cells (rn_screen s');
}.

Lemma advances_refl s : advances s s 0.
Proof. split; [lia|]. exists []. rewrite app_nil_r. by split_and!. Qed.

Lemma advances_trans s1 s2 s3 n m : advances s1 s2 n -> advances s2 s3 m -> advances s1 s3 (n + m).
Proof.
  intros [Hn1 (l1 & E1 & F1 & P1)] [Hn2 (l2 & E2 & F2 & P2)]. split; [lia|]. exists (l1 ++ l2).
  split; [by rewrite E2, E1, app_assoc|]. split.
  - apply Forall_app. split; [done|]. eapply Forall_impl; [exact F2|]. cbn. lia.
  - unfold play_batches in *. by rewrite foldl_app, P1.
Qed.

(** The halves of a turn. *)
Lemma note_ok now e raw s q s1 :
  running_ok s -> (next s < u64_max)%Z -> note now e raw s = (q, s1) ->
  running_ok s1 /\ q = next s /\ next s1 = (q + 1)%Z /\ rn_screen s1 = rn_screen s /\ rn_sent s1 = rn_sent s /\ rn_restarts s1 = rn_restarts s.
Proof.
  intros [H1 H2 H3 H4 H5 H6 H7] Hn. unfold note. cbn. intros [= <- <-]. cbn.
  assert (succ_u64 (next s) = next s + 1)%Z as Hs by (unfold succ_u64; apply Z.mod_small; lia).
  split_and!; try done. split; cbn; rewrite ?Hs; try done.
  - lia.
  - rewrite (proj2 (Z.eqb_neq _ _)) by lia. f_equal. lia.
  - eapply Forall_impl; [exact H5|]. cbn. lia.
  - rewrite Z2Nat.inj_add, seq_app, !fmap_app, H7 by lia. simpl. f_equal. f_equal. by rewrite Z2Nat.id.
Qed.

Lemma mirror_ok screen s : sound screen -> running_ok s -> running_ok (with_mirror screen s).
Proof. by intros Hs []. Qed.

Lemma broadcast_ok cap b s :
  running_ok s -> Forall (fun b' => db_seq b' < db_seq b)%Z (rn_sent s) -> (db_seq b < next s)%Z ->
  let s' := broadcast cap b s in
  running_ok s' /\ next s' = next s /\ rn_screen s' = rn_screen s /\ rn_sent s' = rn_sent s ++ [b] /\ length (rn_retained s') <= cap.
Proof.
  intros [H1 H2 H3 H4 H5 (d & Hd & He) H7] Hb Hn. unfold broadcast.
  destruct (drop_past_spec cap (rn_retained s ++ [b]) (rn_evicted s)) as (d' & E & Ev & Hl).
  destruct (drop_past _ _ _) as [retained evicted]. cbn in *. split_and!; try done. split; cbn; try done.
  - rewrite fmap_app. cbn. apply StronglySorted_app_2; [|done|by repeat constructor]. intros x y Hx ->%list_elem_of_singleton.
    apply list_elem_of_fmap in Hx as (b' & -> & Hin). rewrite Forall_forall in Hb. by apply Hb.
  - apply Forall_app. split; [done|]. by constructor.
  - exists (d ++ d'). rewrite Hd, <-!app_assoc, E. split; [done|]. rewrite last_app, Ev, He. by destruct (last d').
Qed.

(** A turn that goes on. *)
Definition world_ok (w : World) : Prop := forall f, wd_frame w = Some f -> engine_frame f.

(** An event is noted, the mirror advances and a batch says how. *)
Lemma noted_and_sent cap now e raw s q s1 screen deltas :
  running_ok s -> (next s < u64_max)%Z -> note now e raw s = (q, s1) -> sound screen ->
  foldl apply_delta (ws_cells (rn_screen s)) deltas = ws_cells screen ->
  let s' := broadcast cap {| db_seq := q; db_deltas := deltas |} (with_mirror screen s1) in
  running_ok s' /\ advances s s' 1.
Proof.
  intros Hok Hn Hq Hs Hd. destruct (note_ok _ _ _ _ _ _ Hok Hn Hq) as (Hok1 & -> & Hnx & Hsc & Hst & _).
  destruct (broadcast_ok cap {| db_seq := next s; db_deltas := deltas |} (with_mirror screen s1) (mirror_ok _ _ Hs Hok1)) as (Hok2 & Hn2 & Hs2 & Hl2 & _).
  { cbn. rewrite Hst. apply (ro_below _ Hok). }
  { cbn. lia. }
  split; [done|]. split; [rewrite Hn2; cbn; lia|]. eexists. rewrite Hl2, Hs2. cbn. rewrite Hst. split; [done|]. split; [by repeat constructor|done].
Qed.

Lemma turn_ok cf w k s r s' :
  running_ok s -> (next s < u64_max)%Z -> world_ok w -> turn cf w k s = Goes r s' -> running_ok s' /\ advances s s' 1.
Proof.
  intros Hok Hn Hw. assert (advances s s 1) as Hrefl by (destruct (advances_refl s); split; [lia|done]).
  assert (forall r0, Goes r0 s = Goes r s' -> running_ok s' /\ advances s s' 1) as Hsame by (by intros r0 [= _ <-]).
  destruct k as [[|b chunk]| | | |cols rows| |cursor|]; cbn [turn]; try done; try apply Hsame.
  - unfold child_ended. destruct (wd_waited w) as [success|]; [|done]. destruct (negb _); [done|]. destruct (cf_restart cf); [done|].
    cbn zeta. destruct (screen_size _) as [cols rows] eqn:Es. destruct (negb _); [done|]. destruct (negb _); [done|].
    destruct (note _ _ _ _) as [q s1] eqn:Eq. intros [= _ <-]. pose proof (sound_u16 _ (ro_sound _ Hok)) as [Hc Hr].
    cbn in Es. rewrite Es in Hc, Hr. cbn in Hc, Hr.
    apply (noted_and_sent (cf_retained_batches cf) _ _ _ (with_restarts (rn_restarts s - 1) s) _ _ (new_screen cols rows) [Resized rows cols]) in Eq;
      [|by destruct Hok|done|by apply blank_shaped|done].
    destruct Eq as [? [Hm1 Hm2]]. split; [done|by split].
  - unfold child_wrote. destruct (note _ _ _ _) as [q s1] eqn:Eq. destruct (wd_frame w) as [f|] eqn:Ef; [|done].
    destruct (note_ok _ _ _ _ _ _ Hok Hn Eq) as (Hok1 & -> & Hnx & Hsc & Hst & _). rewrite Hsc.
    destruct (apply_frame _ _) as [deltas screen] eqn:Ea. destruct (frame_sound _ _ _ _ (Hw _ Ef) (ro_sound _ Hok) Ea) as [Hd Hs].
    intros [= _ <-]. destruct (has_content deltas) eqn:Eh; [by eapply noted_and_sent|].
    split; [by apply mirror_ok|]. split; [cbn; lia|]. exists []. rewrite app_nil_r. split; [done|]. split; [done|].
    cbn. by rewrite <-Hd, no_content.
  - unfold asked_to_resize. destruct (wd_session w) as [[]|e]; [|apply Hsame]. destruct (note _ _ _ _) as [q s1] eqn:Eq.
    destruct (wd_frame w) as [f|] eqn:Ef; [|done]. destruct (note_ok _ _ _ _ _ _ Hok Hn Eq) as (_ & _ & _ & Hsc & _). rewrite Hsc.
    destruct (apply_frame _ _) as [deltas screen] eqn:Ea. destruct (frame_sound _ _ _ _ (Hw _ Ef) (ro_sound _ Hok) Ea) as [Hd Hs].
    intros [= _ <-]. by eapply noted_and_sent.
Qed.

Lemma turns_ok cf l s s' :
  running_ok s -> Forall (fun x => world_ok x.1) l -> (next s + Z.of_nat (length l) <= u64_max)%Z -> turns cf l s = Some s' ->
  running_ok s' /\ advances s s' (length l).
Proof.
  intros Hok HF. revert s Hok. induction HF as [|[w k] l Hw HF IH]; intros s Hok Hn; cbn [turns length] in *.
  { intros [= <-]. split; [done|apply advances_refl]. }
  destruct (turn cf w k s) as [r s1|] eqn:E; [|done]. destruct (turn_ok _ _ _ _ _ _ Hok ltac:(lia) Hw E) as [Hok1 Hm1]. intros Ht.
  destruct (IH s1 Hok1) as [Hok2 Hm2]; [destruct Hm1; lia|done|]. split; [done|]. by apply (advances_trans s s1 s' 1).
Qed.

Lemma started_ok cf : is_u16 (cf_cols cf) -> is_u16 (cf_rows cf) -> running_ok (started cf).
Proof. intros Hc Hr. split; cbn; try done; [by apply blank_shaped|constructor|by exists []]. Qed.

(** ** Coming back *)

Lemma sorted_last (d : list DeltaBatch) e :
  StronglySorted Z.lt (db_seq <$> d) -> db_seq <$> last d = Some e -> Forall (fun b => db_seq b <= e)%Z d.
Proof.
  intros Hs He. destruct (last d) as [b|] eqn:Eb; [|done]. injection He as <-. apply last_Some in Eb as [d' ->].
  rewrite fmap_app in Hs. apply StronglySorted_app in Hs as [Hs _]. apply Forall_app. split; [|by repeat constructor].
  apply Forall_forall. intros b' Hb. apply Z.lt_le_incl, Hs; [by apply list_elem_of_fmap_2|cbn; by left].
Qed.

(** The batches a consumer is told to replay are those it has not seen. *)
Lemma behind_is_the_rest s1 s2 l c bs :
  running_ok s1 -> running_ok s2 -> rn_sent s2 = rn_sent s1 ++ l -> Forall (fun b => next s1 <= db_seq b)%Z l ->
  rn_last_seq s1 = Some c -> bring_current (Some c) s2 = Behind bs -> bs = l.
Proof.
  intros H1 H2 El Fl Hc. assert (c = next s1 - 1)%Z as ->.
  { pose proof (ro_last _ H1) as Hl. rewrite Hc in Hl. destruct (_ =? _)%Z; [done|]. by injection Hl. }
  unfold bring_current. destruct (rn_last_seq s2); [|done]. destruct (_ <? _)%Z; [done|].
  destruct (ro_window _ H2) as (d & Ed & Ev). destruct (match rn_evicted s2 with Some _ => _ | None => _ end) eqn:Ee; [done|]. intros [= <-].
  set (newer := fun b => (next s1 - 1 <? db_seq b)%Z). pose proof (ro_below _ H1) as Hb.
  assert (List.filter newer (rn_sent s2) = l) as Hl.
  { rewrite Forall_forall in Fl, Hb. rewrite El, List.filter_app, filter_nothing, filter_all; [done| |]; intros b Hin.
    - apply Z.ltb_lt. specialize (Fl _ Hin). lia.
    - apply Z.ltb_ge. specialize (Hb _ Hin). lia. }
  assert (List.filter newer d = []) as Hd.
  { apply filter_nothing, Forall_forall. rewrite Ev in Ee. destruct (db_seq <$> last d) as [e|] eqn:E.
    - pose proof (ro_sorted _ H2) as Hs. rewrite Ed, fmap_app in Hs. apply StronglySorted_app in Hs as (_ & Hs & _).
      eapply Forall_impl; [by eapply sorted_last|]. cbn. intros b ?. apply Z.ltb_ge. apply Z.ltb_ge in Ee. lia.
    - destruct (last d) eqn:Ela; [done|]. apply last_None in Ela as ->. constructor. }
  by rewrite Ed, List.filter_app, Hd in Hl.
Qed.

(** A copy after a catch-up. *)
Definition caught_up (held : list (list StyledCell)) (k : HostCatchUp) : option (list (list StyledCell)) :=
  match k with Behind batches => Some (play_batches held batches) | Seeded s => cells (sa_frame s) end.

Lemma snapshot_cells s : sound s -> cells (screen_snapshot s) = Some (ws_cells s).
Proof. intros Hs. unfold screen_snapshot. by apply cells_from_cells. Qed.

Lemma live_follows cf l s s' :
  running_ok s -> Forall (fun x => world_ok x.1) l -> (next s + Z.of_nat (length l) <= u64_max)%Z -> turns cf l s = Some s' ->
  play_batches (ws_cells (rn_screen s)) (drop (length (rn_sent s)) (rn_sent s')) = ws_cells (rn_screen s').
Proof.
  intros Hok HF Hn Ht. destruct (turns_ok _ _ _ _ Hok HF Hn Ht) as [_ [_ (l' & -> & _ & Hp)]]. by rewrite drop_app_length.
Qed.

(** C23: A consumer of the host that held the screen at some revision,
    went away and comes back with that revision is made current: the retained
    batches it is told to replay, or the whole screen when they no longer reach
    back, give exactly the screen as it is, and the live batches from its new
    subscription on keep giving it, for any later turns of the session. *)
Theorem a_returning_copy_is_the_screen cf before away after s1 s2 s3 w :
  is_u16 (cf_cols cf) -> is_u16 (cf_rows cf) -> Forall (fun x => world_ok x.1) (before ++ away ++ after) ->
  (Z.of_nat (length (before ++ away ++ after)) <= u64_max)%Z ->
  turns cf before (started cf) = Some s1 -> turns cf away s1 = Some s2 -> turns cf after s2 = Some s3 ->
  let a := attach_session w (rn_last_seq s1) s2 in
  caught_up (ws_cells (rn_screen s1)) (ad_catch_up a) = Some (ws_cells (rn_screen s2)) /\
  play_batches (ws_cells (rn_screen s2)) (drop (ad_live a) (rn_sent s3)) = ws_cells (rn_screen s3) /\
  ad_cursor a = rn_last_seq s2.
Proof.
  intros Hc Hr HF Hn T1 T2 T3 a. rewrite !length_app in Hn. rewrite !Forall_app in HF. destruct HF as (F1 & F2 & F3).
  destruct (turns_ok _ _ _ _ (started_ok cf Hc Hr) F1 ltac:(cbn; lia) T1) as [Hok1 [Hn1 _]]. cbn in Hn1.
  destruct (turns_ok _ _ _ _ Hok1 F2 ltac:(lia) T2) as [Hok2 [Hn2 (l & El & Fl & Pl)]].
  assert (ad_catch_up a = bring_current (rn_last_seq s1) s2 /\ ad_live a = length (rn_sent s2) /\ ad_cursor a = rn_last_seq s2) as (-> & -> & ->)
    by (unfold a, attach_session; by destruct (screen_size _)).
  split; [|split; [|done]].
  - destruct (bring_current _ s2) as [bs|sc] eqn:E; cbn.
    + destruct (rn_last_seq s1) as [c|] eqn:Ec; [|done]. rewrite (behind_is_the_rest s1 s2 l c bs) by done. by rewrite Pl.
    + assert (sa_frame sc = screen_snapshot (rn_screen s2)) as ->
        by (unfold bring_current in E; repeat case_match; by simplify_eq). apply snapshot_cells, Hok2.
  - eapply live_follows; [done..| |done]. lia.
Qed.

(** ** The registry *)

Section Registry.
Context `{PJ : PtyJson}.

(** [publish_once], between its seed and what breaks it off: every batch of the
    broadcast is published. *)
Fixpoint forward (conn : Z) (id : string) (l : list DeltaBatch) (h : PtyHub) : result PtyRefusal PtyHub :=
  match l with
  | [] => mret h
  | b :: l => h ← publish_deltas conn id (db_seq b) (db_deltas b) h; forward conn id l h
  end.

(** [refusal_outcome], for what the kernel refused and for every other failure, and
    what an attempt to publish a batch comes to. *)
Inductive PublishOutcome := SessionOver | Fatal | Retry.
Definition refusal_outcome (refused : option KernelErrorCode) : PublishOutcome :=
  match refused with Some EValidation => Fatal | _ => Retry end.
Definition publish_batch (conn : Z) (id : string) (b : DeltaBatch) (h : PtyHub) : result PublishOutcome PtyHub :=
  match publish_deltas conn id (db_seq b) (db_deltas b) h with
  | Ok h => Ok h
  | Err e => Err (refusal_outcome (Some (pr_code e)))
  end.

Lemma publish_cells b n s : s_cells (publish b n s) = s_cells s.
Proof. unfold publish. by destruct (evict _ _ _) as [[? ?] ?]. Qed.

Lemma deltas_published conn id q deltas h h' x :
  h_sessions h !! id = Some x -> publish_deltas conn id q deltas h = Ok h' ->
  exists x', h_sessions h' !! id = Some x' /\ s_cells x' = foldl apply_delta (s_cells x) deltas.
Proof.
  intros Hx. unfold publish_deltas. rewrite Hx. intros Hr. inv_ok. simplify_eq. destruct (session_size _). inv_ok. cbn.
  eexists. split; [apply lookup_insert_eq|]. by rewrite publish_cells.
Qed.

Lemma seed_published conn id q frame h g h' :
  publish_snapshot conn id q frame h = Ok (g, h') -> exists x, h_sessions h' !! id = Some x /\ cells frame = Some (s_cells x).
Proof.
  unfold publish_snapshot, strict_frame. intros Hr. inv_ok. destruct (h_sessions h !! id) as [x|].
  - unfold reseed in Hr. inv_ok. simplify_eq. cbn. eexists. split; [apply lookup_insert_eq|]. rewrite Hrun5. f_equal.
    repeat case_match; by rewrite ?publish_cells.
  - inv_ok. simplify_eq. cbn. eexists. split; [apply lookup_insert_eq|]. done.
Qed.

Lemma forward_cells conn id l h h' x :
  h_sessions h !! id = Some x -> forward conn id l h = Ok h' -> exists x', h_sessions h' !! id = Some x' /\ s_cells x' = play_batches (s_cells x) l.
Proof.
  revert h x. induction l as [|b l IH]; intros h x Hx; cbn; intros Hr; inv_ok; [by exists x|].
  destruct (deltas_published _ _ _ _ _ _ _ Hx Hrun) as (x1 & Hx1 & E1). destruct (IH _ _ Hx1 Hr) as (x2 & Hx2 & E2).
  exists x2. split; [done|]. rewrite E2, E1. done.
Qed.

(** C22: The kernel's registry mirrors the host's terminal: after the
    host seeds it with a snapshot of its screen and the registry accepts every
    batch the session broadcasts from then on, through output, resizes and
    restarts of the child, the cells of the registry's session are the cells of
    the host's screen. *)
Theorem the_registry_holds_the_hosts_screen cf before after s1 s2 conn id h g h1 h2 :
  is_u16 (cf_cols cf) -> is_u16 (cf_rows cf) -> Forall (fun x => world_ok x.1) (before ++ after) ->
  (Z.of_nat (length (before ++ after)) <= u64_max)%Z ->
  turns cf before (started cf) = Some s1 -> turns cf after s1 = Some s2 ->
  publish_snapshot conn id (rn_last_seq s1) (screen_snapshot (rn_screen s1)) h = Ok (g, h1) ->
  forward conn id (drop (length (rn_sent s1)) (rn_sent s2)) h1 = Ok h2 ->
  exists x, h_sessions h2 !! id = Some x /\ s_cells x = ws_cells (rn_screen s2).
Proof.
  intros Hc Hr HF Hn T1 T2 Hp Hf. rewrite length_app in Hn. rewrite Forall_app in HF. destruct HF as (F1 & F2).
  destruct (turns_ok _ _ _ _ (started_ok cf Hc Hr) F1 ltac:(cbn; lia) T1) as [Hok1 [Hn1 _]]. cbn in Hn1.
  destruct (seed_published _ _ _ _ _ _ _ Hp) as (x & Hx & Ex). rewrite snapshot_cells in Ex by apply Hok1. injection Ex as Ex.
  destruct (forward_cells _ _ _ _ _ _ Hx Hf) as (x' & Hx' & Ex'). exists x'. split; [done|]. rewrite Ex', <-Ex.
  eapply live_follows; [done..| |done]. lia.
Qed.
End Registry.
