(* ===== verification/HostControls.v ===== *)
(** * Controls at the host (gwk-pty-host/src/kernel_client.rs, registry.rs)

    A control the kernel delivers is checked, applied to the local session unless
    it was applied before, and acknowledged; the host remembers what it applied
    until the kernel says the delivery is settled.  The theorems: a delivery is
    applied once while it is remembered, however often it is delivered; an
    acknowledgement says what happened, for an input; and the host remembers no
    more than its window. *)

From S2P Require Import Prelude Text Command Tables Hub Attempts Container Protocol Dispatch.

(** ** The window *)

Definition DELIVERED_COMMANDS : nat := 1024.
Record DeliveredCommands := { dc_order : list string; dc_ids : gset string }.

Definition no_deliveries : DeliveredCommands := {| dc_order := []; dc_ids := ∅ |}.
Definition dc_contains (id : string) (d : DeliveredCommands) : bool := bool_decide (id ∈ dc_ids d).
Definition dc_insert (id : string) (d : DeliveredCommands) : DeliveredCommands :=
  if dc_contains id d then d else {| dc_order := dc_order d ++ [id]; dc_ids := {[id]} ∪ dc_ids d |}.
Definition dc_settle (id : string) (d : DeliveredCommands) : DeliveredCommands :=
  if dc_contains id d then {| dc_order := List.filter (fun c => negb (bool_decide (c = id))) (dc_order d); dc_ids := dc_ids d ∖ {[id]} |} else d.

(** ** Asking the session *)

Inductive RegistryError :=
| Ended (id : string) | InputFailed (id message : string) | InputTimeout (id : string) | ControlTimeout (id : string)
| ApplicationIndeterminate (id : string) | DedupCapacity.

(** What becomes of a command sent to the session's task: its queue has no room in
    time, the task is gone, it takes the command and does not answer in time, it ends
    without an answer, or it answers. *)
Inductive Fate := NotTaken | Gone | Unanswered | Dropped | Answered (r : result string unit).

(** [Attacher::input]. *)
Definition attacher_input (id : string) (f : Fate) : result RegistryError unit :=
  match f with
  | NotTaken => Err (InputTimeout id)
  | Gone => Err (Ended id)
  | Unanswered => Err (ApplicationIndeterminate id)
  | Answered (Ok _) => Ok tt
  | Answered (Err message) => Err (InputFailed id message)
  | Dropped => Err (Ended id)
  end.

(** [Attacher::control], which is [Attacher::resize]. *)
Definition attacher_control (id : string) (f : Fate) : result RegistryError unit :=
  match f with
  | NotTaken => Err (ApplicationIndeterminate id)
  | Gone => Err (Ended id)
  | Unanswered => Err (ControlTimeout id)
  | Answered (Ok _) => Ok tt
  | Answered (Err message) => Err (InputFailed id message)
  | Dropped => Err (Ended id)
  end.

(** [Attacher::stop]: the task's end is waited for. *)
Definition attacher_stop (id : string) (f : Fate) (closed : bool) : result RegistryError unit :=
  _ ← attacher_control id f; ensure closed (ApplicationIndeterminate id).

Inductive Operation := OpInput (b : bytes) | OpResize (cols rows : Z) | OpStop.

(** [Attacher::apply_once]: the answer, the window, and whether the operation ran. *)
Definition apply_once (delivery : string) (op : result RegistryError unit) (d : DeliveredCommands)
  : result RegistryError unit * DeliveredCommands * bool :=
  if dc_contains delivery d then (Ok tt, d, false)
  else if (DELIVERED_COMMANDS <=? length (dc_order d))%nat then (Err DedupCapacity, d, false)
  else match op with
       | Ok tt => (Ok tt, dc_insert delivery d, true)
       | Err e => (Err e, d, true)
       end.

(** ** The connection *)

(** Why a control is refused here, and the errors of the connection that matter. *)
Inductive Cause := NoRoute | AnotherSession | TooLong | NotBase64 | WrongSize | Failing (e : RegistryError).
Inductive KernelClientError := InputRefused (why : Cause) | Indeterminate | Unexpected | SendFailed.

Section Client.
(** The text of an error, which goes into an acknowledgement and nowhere else. *)
Context `{B64 : Base64} (display : KernelClientError -> string).

(** What the session's task and the socket do meanwhile. *)
Record Meanwhile := { mw_fate : Fate; mw_closed : bool; mw_sent : bool }.

Definition application_error (e : RegistryError) : KernelClientError :=
  match e with ApplicationIndeterminate _ => Indeterminate | _ => InputRefused (Failing e) end.

(** The end of both [consume_session_control] and [consume_lifecycle_control]; what
    ran, if something did. *)
Definition consumed (delivery : string) (op : Operation) (r : result RegistryError unit) (d : DeliveredCommands)
  : result KernelClientError (option ServerControl) * DeliveredCommands * option Operation :=
  let '(applied, d, ran) := apply_once delivery r d in
  (match applied with Ok _ => Ok None | Err e => Err (application_error e) end, d, if ran then Some op else None).

Definition consume_lifecycle_control (own : option string) (c : ServerControl) (m : Meanwhile) (d : DeliveredCommands) :=
  match c with
  | PtyResize delivery _ session _ cols rows =>
      match own with
      | None => (Err (InputRefused NoRoute), d, None)
      | Some id =>
          if negb (bool_decide (id = session)) then (Err (InputRefused AnotherSession), d, None)
          else consumed delivery (OpResize cols rows) (attacher_control id (mw_fate m)) d
      end
  | PtyStop delivery _ session _ =>
      match own with
      | None => (Err (InputRefused NoRoute), d, None)
      | Some id =>
          if negb (bool_decide (id = session)) then (Err (InputRefused AnotherSession), d, None)
          else consumed delivery OpStop (attacher_stop id (mw_fate m) (mw_closed m)) d
      end
  | other => (Ok (Some other), d, None)
  end.

Definition consume_session_control (own : option string) (c : ServerControl) (m : Meanwhile) (d : DeliveredCommands) :=
  match c with
  | PtyInput delivery _ session _ byte_size data =>
      match own with
      | None => (Err (InputRefused NoRoute), d, None)
      | Some id =>
          if negb (bool_decide (id = session)) then (Err (InputRefused AnotherSession), d, None)
          else if (PTY_INPUT_MAX_BASE64_BYTES <? Str.len data)%Z then (Err (InputRefused TooLong), d, None)
          else match b64_decode data with
               | None => (Err (InputRefused NotBase64), d, None)
               | Some b =>
                   if (PTY_INPUT_MAX_BYTES <? zlen b)%Z || negb (zlen b =? byte_size)%Z then (Err (InputRefused WrongSize), d, None)
                   else consumed delivery (OpInput b) (attacher_input id (mw_fate m)) d
               end
      end
  | c => consume_lifecycle_control own c m d
  end.

(** What handling a control comes to: the outcome, the window, the acknowledgement
    that went out and the operation that ran. *)
Record Handling := {
  hd_outcome : result KernelClientError unit; hd_window : DeliveredCommands;
  hd_ack : option (string * PtyDeliveryResult); hd_ran : option Operation;
}.

(** An acknowledgement, and what follows it. *)
Definition acknowledging (m : Meanwhile) (delivery : option string) (r : PtyDeliveryResult) (outcome : result KernelClientError unit)
    (d : DeliveredCommands) (ran : option Operation) : Handling :=
  match delivery with
  | None => {| hd_outcome := outcome; hd_window := d; hd_ack := None; hd_ran := ran |}
  | Some id =>
      if mw_sent m then {| hd_outcome := outcome; hd_window := d; hd_ack := Some (id, r); hd_ran := ran |}
      else {| hd_outcome := Err SendFailed; hd_window := d; hd_ack := None; hd_ran := ran |}
  end.

(** [apply_session_control]. *)
Definition apply_session_control (own : option string) (c : ServerControl) (m : Meanwhile) (d : DeliveredCommands) : Handling :=
  let delivery := control_delivery_id c in
  let '(r, d, ran) := consume_session_control own c m d in
  match r with
  | Ok None => acknowledging m delivery Applied (Ok tt) d ran
  | Ok (Some _) => {| hd_outcome := Err Unexpected; hd_window := d; hd_ack := None; hd_ran := ran |}
  | Err Indeterminate => {| hd_outcome := Err Indeterminate; hd_window := d; hd_ack := None; hd_ran := ran |}
  | Err e => acknowledging m delivery (Refused EValidation (display e)) (Err e) d ran
  end.

(** What a connection hears: a control, or that a delivery is settled
    ([wait_for_control], [consume_interleaved_control]). *)
Inductive Heard := HControl (c : ServerControl) (m : Meanwhile) | HSettled (id : string).
Definition hear (own : option string) (d : DeliveredCommands) (x : Heard) : DeliveredCommands :=
  match x with
  | HControl c m => hd_window (apply_session_control own c m d)
  | HSettled id => match own with Some _ => dc_settle id d | None => d end
  end.

(** [reconcile_applied_deliveries]: what a new connection says first. *)
Definition reconciled (d : DeliveredCommands) : list (string * PtyDeliveryResult) := (fun id => (id, Applied)) <$> dc_order d.

(** ** The window is what it remembers *)

Record window_ok (d : DeliveredCommands) : Prop := {
  wo_distinct : NoDup (dc_order d);
  wo_same : forall id, id ∈ dc_order d <-> id ∈ dc_ids d;
  wo_bound : length (dc_order d) <= DELIVERED_COMMANDS;
}.

Lemma no_deliveries_ok : window_ok no_deliveries.
Proof. split; [constructor|set_solver|cbn; lia]. Qed.

Lemma settle_ok id d : window_ok d -> window_ok (dc_settle id d).
Proof.
  intros Hd. unfold dc_settle. destruct (dc_contains id d); [|done]. destruct Hd as [H1 H2 H3].
  assert (forall x, x ∈ List.filter (fun c => negb (bool_decide (c = id))) (dc_order d) <-> x ∈ dc_order d /\ x <> id) as Hf.
  { intros x. rewrite !list_elem_of_In, List.filter_In, negb_true_iff, bool_decide_eq_false. done. }
  split; cbn.
  - apply NoDup_ListNoDup, List.NoDup_filter. by apply NoDup_ListNoDup.
  - intros x. rewrite Hf, H2. set_solver.
  - etrans; [apply List.filter_length_le|done].
Qed.

(** How the window changes: a delivery that ran and was answered is new in it. *)
Definition remembers (delivery : string) (r : result RegistryError unit) (d d' : DeliveredCommands) (ran : bool) : Prop :=
  if ran then delivery ∉ dc_ids d /\ match r with Ok _ => dc_ids d' = {[delivery]} ∪ dc_ids d | Err _ => d' = d end else d' = d.

Lemma apply_once_ok delivery op d r d' ran :
  window_ok d -> apply_once delivery op d = (r, d', ran) -> window_ok d' /\ remembers delivery r d d' ran.
Proof.
  intros [H1 H2 H3]. unfold apply_once, remembers, dc_insert, dc_contains. case_bool_decide as Hin; [by intros [= <- <- <-]|].
  destruct (Nat.leb_spec DELIVERED_COMMANDS (length (dc_order d))); [by intros [= <- <- <-]|].
  destruct op as [[]|e]; intros [= <- <- <-]; [|done]. split; [|done]. split; cbn.
  - apply NoDup_app. split; [done|]. split; [|apply NoDup_singleton]. intros x Hx ->%list_elem_of_singleton. by apply Hin, H2.
  - intros x. rewrite elem_of_app, H2. set_solver.
  - rewrite length_app. cbn. lia.
Qed.

(** ** What a control comes to *)

(** What the session's answer to an operation says. *)
Definition tells (op : Operation) (f : Fate) (r : result RegistryError unit) : Prop :=
  match r with
  | Ok _ => f = Answered (Ok tt)
  | Err e => f = Answered (Ok tt) -> op = OpStop /\ application_error e = Indeterminate
  end /\
  match op, r with
  | OpInput _, Err e => application_error e = Indeterminate <-> f = Unanswered
  | _, _ => True
  end.

Lemma input_tells id b f : tells (OpInput b) f (attacher_input id f).
Proof. destruct f as [| | | |[[]|]]; cbn; (split; [|split]); done. Qed.
Lemma resize_tells id cols rows f : tells (OpResize cols rows) f (attacher_control id f).
Proof. destruct f as [| | | |[[]|]]; cbn; by split. Qed.
Lemma stop_tells id f closed : tells OpStop f (attacher_stop id f closed).
Proof. destruct f as [| | | |[[]|]], closed; cbn; by split. Qed.

(** The session confirmed the operation in time; a stop, once its task was gone. *)
Definition confirmed (op : Operation) (m : Meanwhile) : Prop :=
  mw_fate m = Answered (Ok tt) /\ (op = OpStop -> mw_closed m = true).

(** A control is refused for itself, is not the session's, or asks for an operation. *)
Lemma consume_cases own c :
  (exists why, forall m d, consume_session_control own c m d = (Err (InputRefused why), d, None)) \/
  (forall m d, consume_session_control own c m d = (Ok (Some c), d, None)) \/
  exists delivery op res, control_delivery_id c = Some delivery /\
    (forall m d, consume_session_control own c m d = consumed delivery op (res m) d) /\ (forall m, tells op (mw_fate m) (res m)) /\
    forall m, res m = Ok tt <-> confirmed op m.
Proof.
  destruct c as [dl cm se ge sz data|dl cm se ge cols rows|dl cm se ge| |]; cbn [consume_session_control consume_lifecycle_control];
    [| | |by right; left..]; (destruct own as [id|]; [|left; by eexists]); (case_bool_decide; cbn [negb]; [|left; by eexists]).
  - destruct (_ <? _)%Z; [left; by eexists|]. destruct (b64_decode data) as [b|]; [|left; by eexists].
    destruct (_ || _); [left; by eexists|]. right; right. exists dl, (OpInput b), (fun m => attacher_input id (mw_fate m)).
    split_and!; try done; [intros; apply input_tells|].
    intros m. unfold confirmed. destruct (mw_fate m) as [| | | |[[]|]]; cbn; naive_solver.
  - right; right. exists dl, (OpResize cols rows), (fun m => attacher_control id (mw_fate m)). split_and!; try done; [intros; apply resize_tells|].
    intros m. unfold confirmed. destruct (mw_fate m) as [| | | |[[]|]]; cbn; naive_solver.
  - right; right. exists dl, OpStop, (fun m => attacher_stop id (mw_fate m) (mw_closed m)). split_and!; try done; [intros; apply stop_tells|].
    intros m. unfold confirmed. destruct (mw_fate m) as [| | | |[[]|]], (mw_closed m); cbn; naive_solver.
Qed.

Lemma consumed_ok delivery op r d res d' ran :
  window_ok d -> consumed delivery op r d = (res, d', ran) -> window_ok d' /\ dc_ids d ⊆ dc_ids d'.
Proof.
  intros Hd. unfold consumed. destruct (apply_once delivery r d) as [[ap d1] rn] eqn:E. intros [= <- <- <-].
  destruct (apply_once_ok _ _ _ _ _ _ Hd E) as [Hw Hr]. split; [done|]. unfold remembers in Hr. destruct rn, ap; set_solver.
Qed.

(** An operation that ran and was confirmed is remembered. *)
Lemma ran_is_remembered delivery op d op' : (consumed delivery op (Ok tt) d).2 = Some op' -> delivery ∈ dc_ids (consumed delivery op (Ok tt) d).1.2.
Proof.
  unfold consumed, apply_once, dc_insert, dc_contains. case_bool_decide; [done|]. destruct (_ <=? length (dc_order d))%nat; [done|].
  cbn. intros _. set_solver.
Qed.

Lemma handling_window own c m d : hd_window (apply_session_control own c m d) = (consume_session_control own c m d).1.2.
Proof.
  unfold apply_session_control. destruct (consume_session_control own c m d) as [[[[c0|]|[]] d1] ran]; cbn; try done;
    unfold acknowledging; destruct (control_delivery_id c), (mw_sent m); done.
Qed.

Lemma hear_ok own d x : window_ok d -> window_ok (hear own d x).
Proof.
  intros Hd. destruct x as [c m|id]; cbn; [|destruct own; [by apply settle_ok|done]]. rewrite handling_window.
  destruct (consume_cases own c) as [(why & ->)|[->|(dl & op & res & _ & -> & _)]]; try done.
  destruct (consumed dl op (res m) d) as [[r d'] ran] eqn:E. by destruct (consumed_ok _ _ _ _ _ _ _ Hd E).
Qed.

(** A delivery is remembered until it is settled. *)
Lemma hear_remembers own d x id : window_ok d -> x <> HSettled id -> id ∈ dc_ids d -> id ∈ dc_ids (hear own d x).
Proof.
  intros Hd Hx Hin. destruct x as [c m|id']; cbn.
  - rewrite handling_window. destruct (consume_cases own c) as [(why & ->)|[->|(dl & op & res & _ & -> & _)]]; try done.
    destruct (consumed dl op (res m) d) as [[r d'] ran] eqn:E. destruct (consumed_ok _ _ _ _ _ _ _ Hd E) as [_ Hs]. cbn. set_solver.
  - destruct own; [|done]. unfold dc_settle. destruct (dc_contains id' d); [|done]. cbn. set_solver.
Qed.

Definition heard (own : option string) (d : DeliveredCommands) (l : list Heard) : DeliveredCommands := foldl (hear own) d l.

Lemma heard_ok own d l : window_ok d -> window_ok (heard own d l).
Proof. revert d. induction l as [|x l IH]; intros d Hd; [done|]. apply IH, hear_ok, Hd. Qed.

Lemma heard_remembers own d l id : window_ok d -> HSettled id ∉ l -> id ∈ dc_ids d -> id ∈ dc_ids (heard own d l).
Proof.
  revert d. induction l as [|x l IH]; intros d Hd Hl Hin; [done|]. rewrite not_elem_of_cons in Hl. destruct Hl as [Hx Hl].
  apply IH; [by apply hear_ok|done|]. apply hear_remembers; [done|congruence|done].
Qed.

(** What ran, as the handling reports it. *)
Lemma handling_ran own c m d : hd_ran (apply_session_control own c m d) = (consume_session_control own c m d).2.
Proof.
  unfold apply_session_control. destruct (consume_session_control own c m d) as [[[[c0|]|[]] d1] ran]; cbn; try done;
    unfold acknowledging; destruct (control_delivery_id c), (mw_sent m); done.
Qed.

(** A delivery that is remembered runs nothing. *)
Lemma remembered_handling own c m d id dl op res :
  control_delivery_id c = Some id -> dl = id ->
  (forall m d, consume_session_control own c m d = consumed dl op (res m) d) -> id ∈ dc_ids d ->
  let again := apply_session_control own c m d in
  hd_ran again = None /\ hd_window again = d /\ hd_ack again = (if mw_sent m then Some (id, Applied) else None).
Proof.
  intros Hid -> Hc Hd. cbn zeta. unfold apply_session_control. rewrite Hc. unfold consumed, apply_once, dc_contains.
  rewrite (bool_decide_eq_true_2 _ Hd). cbn. rewrite Hid. unfold acknowledging. by destruct (mw_sent m).
Qed.

(** C24: A control the session confirmed in time (for a stop, with the
    session closed) is not handed to it again while the kernel has not settled
    the delivery, however often it is delivered and over whatever connections: a
    redelivery runs nothing, is acknowledged as applied, and the delivery is among
    those a new connection reasserts, of which there are at most 1024.  One that
    was handed over and not confirmed is not remembered and not acknowledged as
    applied, and a redelivery hands it over again. *)
Theorem a_delivery_is_applied_once own c m before id op :
  control_delivery_id c = Some id ->
  let d0 := heard own no_deliveries before in
  let h := apply_session_control own c m d0 in
  hd_ran h = Some op ->
  (confirmed op m -> forall m' after, HSettled id ∉ after ->
     let d := heard own (hd_window h) after in
     let again := apply_session_control own c m' d in
     hd_ran again = None /\ hd_window again = d /\ hd_ack again = (if mw_sent m' then Some (id, Applied) else None) /\
     (id, Applied) ∈ reconciled d /\ length (reconciled d) <= DELIVERED_COMMANDS) /\
  (~ confirmed op m ->
     hd_window h = d0 /\ id ∉ dc_ids d0 /\ hd_ack h <> Some (id, Applied) /\
     forall m', hd_ran (apply_session_control own c m' (hd_window h)) = Some op).
Proof.
  intros Hid d0 h Hran. pose proof (heard_ok own _ before no_deliveries_ok) as Hw0. fold d0 in Hw0.
  assert (window_ok (hd_window h)) as Hw1 by (apply (hear_ok own _ (HControl c m) Hw0)).
  unfold h in Hran. rewrite handling_ran in Hran.
  destruct (consume_cases own c) as [(why & Hc)|[Hc|(dl & op' & res & Hdl & Hc & _ & Hr)]]; [by rewrite Hc in Hran..|].
  pose proof Hid as Hid'. rewrite Hdl in Hid'. injection Hid' as ->. rewrite Hc in Hran.
  assert (op' = op) as -> by (revert Hran; unfold consumed; destruct (apply_once _ _ _) as [[? ?] []]; cbn; congruence).
  split.
  - intros Hok%Hr m' after Hs d again. rewrite Hok in Hran.
    assert (id ∈ dc_ids (hd_window h)) as Hin
      by (unfold h; rewrite handling_window, Hc, Hok; by eapply ran_is_remembered).
    pose proof (heard_remembers own _ after id Hw1 Hs Hin) as Hd. pose proof (heard_ok own _ after Hw1) as Hw. fold d in Hd, Hw.
    destruct (remembered_handling own c m' d id id op res Hid eq_refl Hc Hd) as (H1 & H2 & H3).
    split_and!; try done; unfold reconciled; [|rewrite length_fmap; apply Hw].
    apply list_elem_of_fmap. exists id. split; [done|]. by apply Hw.
  - intros Hno. assert (exists e, res m = Err e) as [e He].
    { destruct (res m) as [[]|e] eqn:E; [|by exists e]. by destruct Hno; apply Hr. }
    rewrite He in Hran. assert (id ∉ dc_ids d0 /\ (DELIVERED_COMMANDS <=? length (dc_order d0))%nat = false) as [Hn El].
    { revert Hran. unfold consumed, apply_once, dc_contains. case_bool_decide; [done|]. by destruct (_ <=? _)%nat. }
    assert (forall m', (consume_session_control own c m' d0).2 = Some op) as Hagain.
    { intros m'. rewrite Hc. unfold consumed, apply_once, dc_contains. rewrite (bool_decide_eq_false_2 _ Hn), El.
      by destruct (res m') as [[]|]. }
    assert (consume_session_control own c m d0 = (Err (application_error e), d0, Some op)) as Hnow.
    { rewrite Hc, He. unfold consumed, apply_once, dc_contains. by rewrite (bool_decide_eq_false_2 _ Hn), El. }
    assert (hd_window h = d0) as Hwin by (unfold h; rewrite handling_window, Hnow; done).
    rewrite Hwin. split_and!; try done; [|intros m'; by rewrite handling_ran].
    unfold h, apply_session_control. rewrite Hnow. unfold acknowledging.
    destruct (application_error e), (control_delivery_id c), (mw_sent m); cbn; congruence.
Qed.

(** An acknowledgement of applied is sent only for a control
    that was applied, now or before; one of refused only when nothing was
    remembered and the session did not confirm it, and for an input only when the
    outcome is known. *)
Theorem acknowledgements_say_what_happened own c m before :
  let d := heard own no_deliveries before in
  let h := apply_session_control own c m d in
  (forall id, hd_ack h = Some (id, Applied) ->
    id ∈ dc_ids (hd_window h) /\ (id ∈ dc_ids d /\ hd_ran h = None \/ id ∉ dc_ids d /\ is_Some (hd_ran h) /\ mw_fate m = Answered (Ok tt))) /\
  (forall id code message, hd_ack h = Some (id, Refused code message) ->
    hd_window h = d /\ code = EValidation /\ (is_Some (hd_ran h) -> mw_fate m <> Answered (Ok tt)) /\
    forall b, hd_ran h = Some (OpInput b) -> mw_fate m <> Unanswered).
Proof.
  intros d h. assert (window_ok d) as Hd by (apply heard_ok, no_deliveries_ok). unfold h, apply_session_control.
  destruct (consume_cases own c) as [(why & Hc)|[Hc|(dl & op & res & Hdl & Hc & Ht & _)]]; rewrite Hc in *; cbn.
  - unfold acknowledging. destruct (control_delivery_id c), (mw_sent m); cbn; split; try done. intros id code msg [= -> <- <-].
    split_and!; try done.
  - done.
  - rewrite Hdl. destruct (Ht m) as [Hok Hin]. unfold consumed, apply_once, dc_insert, dc_contains. case_bool_decide as Hc0; cbn -[DELIVERED_COMMANDS Nat.leb].
    + unfold acknowledging. destruct (mw_sent m); cbn; split; try done. intros id [= <-]. split; [done|]. by left.
    + destruct (DELIVERED_COMMANDS <=? length (dc_order d))%nat; cbn.
      { unfold acknowledging. destruct (mw_sent m); cbn; split; try done. intros id code msg [= -> <- <-]. split_and!; try done. }
      destruct (res m) as [[]|e] eqn:Er; cbn.
      * unfold acknowledging. destruct (mw_sent m); cbn; split; try done. intros id [= <-]. split; [set_solver|]. right. by split_and!; [|eexists|].
      * destruct (application_error e) as [why| | |] eqn:Ea; cbn; [|done|by destruct e..].
        unfold acknowledging. destruct (mw_sent m); cbn; split; try done. intros id code msg [= -> <- <-]. split_and!; try done.
        -- intros _ Hf. by destruct (Hok Hf).
        -- intros b [= ->] Hf. by apply Hin in Hf.
Qed.

(** A resize the session's task took but did not confirm in
    time is acknowledged as refused, although the task still performs it. *)
Theorem a_late_resize_is_refused_and_taken own delivery command generation cols rows before closed :
  let d := heard (Some own) no_deliveries before in
  delivery ∉ dc_ids d -> length (dc_order d) < DELIVERED_COMMANDS ->
  let h := apply_session_control (Some own) (PtyResize delivery command own generation cols rows) {| mw_fate := Unanswered; mw_closed := closed; mw_sent := true |} d in
  hd_ack h = Some (delivery, Refused EValidation (display (InputRefused (Failing (ControlTimeout own))))) /\ hd_ran h = Some (OpResize cols rows) /\
  hd_window h = d.
Proof.
  intros d Hn Hl. unfold apply_session_control. cbn -[DELIVERED_COMMANDS Nat.leb]. rewrite bool_decide_eq_true_2 by done. cbn -[DELIVERED_COMMANDS Nat.leb].
  unfold consumed, apply_once, dc_contains. rewrite bool_decide_eq_false_2 by done. by rewrite (proj2 (Nat.leb_gt _ _)).
Qed.
End Client.
