(* ===== verification/Theme.v ===== *)
(** * Theme: tokens, tiers, marks and safe text (gwk-theme/src, gwk-tui/src/theme.rs)

    The palette is data and total functions.  A [Token] resolves to a [Paint]
    at one of four colour tiers; the tier itself is resolved once, from the
    flag and the environment ([resolve_loud]).  The mark inventory and the
    state bindings are tables; [evaluate] turns the cells a terminal reported
    for each codepoint into a verdict.  [safe_text] and [safe_text_lines] are
    the only road from wire text to terminal cells.

    The width and emoji tables of the Unicode crates are outside the sources:
    [is_admissible] of a non-ASCII character is a parameter of the text
    functions. *)

From S2P Require Import Prelude Text Chars.

(** ** Colour tiers (tier.rs) *)

Module Tier.

Inductive ColorTier := Truecolor | Xterm256 | Ansi16 | Mono.
Inductive ColorChoice := ChoiceAuto | ChoiceNever | Choice16 | Choice256 | ChoiceTruecolor.

#[export] Instance ColorTier_eq_dec : EqDecision ColorTier.
Proof. solve_decision. Defined.

(** [ColorTier::as_str]. *)
Definition tier_str (t : ColorTier) : string :=
  match t with
  | Truecolor => "truecolor" | Xterm256 => "xterm256" | Ansi16 => "ansi16" | Mono => "mono"
  end.

Record FlagValueError := { fe_flag : string; fe_given : string; fe_allowed : list string }.

Definition COLOR_VALUES : list string := ["auto"; "never"; "16"; "256"; "truecolor"].

(** [ColorChoice::parse]. *)
Definition color_parse (value : string) : result FlagValueError ColorChoice :=
  if String.eqb value "auto" then Ok ChoiceAuto
  else if String.eqb value "never" then Ok ChoiceNever
  else if String.eqb value "16" then Ok Choice16
  else if String.eqb value "256" then Ok Choice256
  else if String.eqb value "truecolor" then Ok ChoiceTruecolor
  else Err {| fe_flag := "--color"; fe_given := value; fe_allowed := COLOR_VALUES |}.

Record TerminalEnv := {
  te_color : ColorChoice;
  te_no_color : option string;
  te_clicolor_force : option string;
  te_force_color : option string;
  te_colorterm : option string;
  te_term : option string;
  te_stdout_is_tty : bool;
}.

Inductive Force := ForceOff | ForceDepth (t : ColorTier) | ForceUnspecified.

(** [force]: set but empty is not set. *)
Definition force (value : option string) : option Force :=
  match value with
  | None => None
  | Some v =>
      if Str.is_empty v then None
      else Some
        (if String.eqb v "0" || String.eqb v "false" then ForceOff
         else if String.eqb v "1" then ForceDepth Ansi16
         else if String.eqb v "2" then ForceDepth Xterm256
         else if String.eqb v "3" then ForceDepth Truecolor
         else ForceUnspecified)
  end.

(** [str::contains] of a substring. *)
Fixpoint contains_str (p s : string) : bool :=
  Str.starts_with p s || match s with EmptyString => false | String _ s => contains_str p s end.

(** Steps 6 to 9 of the ladder: what the terminal says of itself. *)
Definition detect (env : TerminalEnv) (term : string) : ColorTier * bool :=
  let colorterm := default "" (te_colorterm env) in
  if String.eqb colorterm "truecolor" || String.eqb colorterm "24bit" || Str.ends_with term "-direct"
  then (Truecolor, false)
  else if Str.ends_with term "-256color" then (Xterm256, false)
  else if existsb (fun family => contains_str family term) ["xterm"; "screen"; "tmux"; "rxvt"]
  then (Ansi16, false)
  else (Mono, true).

(** The force variables, the older one first. *)
Definition forced (env : TerminalEnv) : option Force :=
  match force (te_clicolor_force env) with
  | Some f => Some f
  | None => force (te_force_color env)
  end.

Definition no_color_set (env : TerminalEnv) : bool :=
  match te_no_color env with Some v => negb (Str.is_empty v) | None => false end.

(** [ColorTier::resolve_loud]: the tier, and whether it is the fallthrough of
    an unrecognised terminal. *)
Definition resolve_loud (env : TerminalEnv) : ColorTier * bool :=
  match te_color env with
  | ChoiceNever => (Mono, false)
  | Choice16 => (Ansi16, false)
  | Choice256 => (Xterm256, false)
  | ChoiceTruecolor => (Truecolor, false)
  | ChoiceAuto =>
      if no_color_set env then (Mono, false)
      else
        let term := default "" (te_term env) in
        if String.eqb term "dumb" then (Mono, false)
        else match forced env with
             | Some ForceOff => (Mono, false)
             | Some (ForceDepth tier) => (tier, false)
             | Some ForceUnspecified => detect env term
             | None => if negb (te_stdout_is_tty env) then (Mono, false) else detect env term
             end
  end.

(** [ColorTier::resolve]. *)
Definition resolve_tier (env : TerminalEnv) : ColorTier := (resolve_loud env).1.

(** ** Tokens and their paint *)

Inductive AnsiSlot :=
| SBlack | SRed | SGreen | SYellow | SBlue | SMagenta | SCyan | SWhite
| SBrightBlack | SBrightRed | SBrightGreen | SBrightYellow
| SBrightBlue | SBrightMagenta | SBrightCyan | SBrightWhite.

Inductive Tier16 :=
| T16Slot (slot : AnsiSlot) | T16BoldSlot (slot : AnsiSlot) | T16Reset
| T16Dropped | T16ReverseVideo | T16NotAColor.

Inductive Paint :=
| PRgb (r g b : Z) | PIndexed (index : Z) | PSlot (slot : AnsiSlot) | PBoldSlot (slot : AnsiSlot)
| PReset | PReverseVideo | PUnpainted.

#[export] Instance AnsiSlot_eq_dec : EqDecision AnsiSlot.
Proof. solve_decision. Defined.
#[export] Instance Paint_eq_dec : EqDecision Paint.
Proof. solve_decision. Defined.

Record Token := {
  tok_name : string;
  tok_value : string;
  tok_role : string;
  tok_index256 : Z;
  tok_tier16 : Tier16;
}.

(** [nibble]: a hexadecimal digit, zero for anything else. *)
Definition nibble (c : Z) : Z :=
  (if (48 <=? c) && (c <=? 57) then c - 48
   else if (97 <=? c) && (c <=? 102) then c - 97 + 10
   else if (65 <=? c) && (c <=? 70) then c - 65 + 10
   else 0)%Z.

(** [hex_byte]: zero past the end. *)
Definition hex_byte (bytes : list Z) (at_ : nat) : Z :=
  match bytes !! at_, bytes !! S at_ with
  | Some hi, Some lo => (nibble hi * 16 + nibble lo)%Z
  | _, _ => 0%Z
  end.

(** [Token::rgb]. *)
Definition rgb (t : Token) : Z * Z * Z :=
  let bytes := text (tok_value t) in
  (hex_byte bytes 1, hex_byte bytes 3, hex_byte bytes 5).

(** [Token::paint]. *)
Definition paint (t : Token) (tier : ColorTier) : Paint :=
  match tok_tier16 t with
  | T16NotAColor => PUnpainted
  | t16 =>
      match tier with
      | Truecolor => let '(r, g, b) := rgb t in PRgb r g b
      | Xterm256 => PIndexed (tok_index256 t)
      | Ansi16 =>
          match t16 with
          | T16Slot slot => PSlot slot
          | T16BoldSlot slot => PBoldSlot slot
          | T16Reset => PReset
          | T16ReverseVideo => PReverseVideo
          | T16Dropped | T16NotAColor => PUnpainted
          end
      | Mono =>
          match t16 with
          | T16Slot _ | T16BoldSlot _ | T16Reset => PReset
          | T16ReverseVideo => PReverseVideo
          | T16Dropped | T16NotAColor => PUnpainted
          end
      end
  end.

(** The palette (lib.rs). *)
Definition tk (n v r : string) (i : Z) (t : Tier16) : Token :=
  {| tok_name := n; tok_value := v; tok_role := r; tok_index256 := i; tok_tier16 := t |}.

Definition SIGNAL : list Token := [
  tk "gws_bg" "#070B10" "canvas background" 232 T16NotAColor;
  tk "gws_surface" "#121A24" "raised surface" 234 T16NotAColor;
  tk "gws_surface_2" "#1F2B3A" "second elevation" 235 T16NotAColor;
  tk "gws_hue" "#6BDBFF" "accent" 81 (T16Slot SBrightCyan);
  tk "gws_hue_dim" "#3FA8CC" "accent, dimmed" 38 (T16Slot SCyan);
  tk "gws_hue_bright" "#9AE8FF" "accent, bright" 117 (T16BoldSlot SBrightCyan);
  tk "gws_fg" "#E4EDF5" "foreground text" 255 T16Reset;
  tk "gws_faint" "#526274" "faint structure (decorative/hairline only — never text or essential UI)" 59 T16Dropped;
  tk "gws_muted" "#9AA5AF" "muted text" 248 (T16Slot SBrightBlack);
  tk "gws_warn" "#F2C14E" "warning" 221 (T16Slot SBrightYellow);
  tk "gws_fail" "#FF6E6E" "failure" 203 (T16Slot SBrightRed);
  tk "gws_ok" "#6EE7A8" "success" 78 (T16Slot SBrightGreen);
  tk "gws_border" "#748496" "solid structural boundary" 244 (T16Slot SWhite);
  tk "gws_focus" "#6BDBFF" "focused-pane / control indicator" 81 T16ReverseVideo;
  tk "gws_selection" "#F5F9FD" "selected-row foreground" 231 T16ReverseVideo].

(** *** What the ladder decides *)

(** An unasked-for palette: without a flag, colour reaches the terminal only
    past [NO_COLOR], a dumb terminal and an unforced pipe. *)
Lemma colour_needs_leave env :
  te_color env = ChoiceAuto -> resolve_tier env <> Mono ->
  no_color_set env = false /\ default "" (te_term env) <> "dumb" /\
  (te_stdout_is_tty env = true \/ exists f, forced env = Some f /\ f <> ForceOff).
Proof.
  unfold resolve_tier, resolve_loud. intros ->. destruct (no_color_set env); [done|].
  destruct (String.eqb_spec (default "" (te_term env)) "dumb"); [done|].
  destruct (forced env) as [[| |]|]; [done|..|destruct (te_stdout_is_tty env); [|done]];
    intros _; (split; [done|]; split; [done|]); eauto.
Qed.

(** The loud answer is the last rung of the ladder and nothing else. *)
Lemma loud_is_the_fallthrough env :
  (resolve_loud env).2 = true <->
  te_color env = ChoiceAuto /\ no_color_set env = false /\ default "" (te_term env) <> "dumb" /\
  (forced env = Some ForceUnspecified \/ (forced env = None /\ te_stdout_is_tty env = true)) /\
  detect env (default "" (te_term env)) = (Mono, true).
Proof.
  assert (forall term, (detect env term).2 = true <-> detect env term = (Mono, true)) as Hd.
  { intros term. unfold detect. repeat case_match; naive_solver. }
  unfold resolve_loud. rewrite <-Hd.
  destruct (te_color env), (no_color_set env), (String.eqb_spec (default "" (te_term env)) "dumb"),
    (forced env) as [[| |]|], (te_stdout_is_tty env); simpl; naive_solver.
Qed.

(** A tier with fewer channels never resurrects a token: what sixteen colours
    leave unpainted, monochrome leaves unpainted, and the elevations are
    painted nowhere. *)
Lemma paint_degrades t :
  (paint t Ansi16 = PUnpainted <-> paint t Mono = PUnpainted) /\
  (paint t Truecolor = PUnpainted <-> tok_tier16 t = T16NotAColor) /\
  (paint t Truecolor = PUnpainted -> forall tier, paint t tier = PUnpainted).
Proof.
  unfold paint. destruct (tok_tier16 t), (rgb t) as [[r g] b]; repeat split; try done; by intros _ [].
Qed.

(** Monochrome emits no colour at all. *)
Lemma mono_is_colourless t :
  paint t Mono = PReset \/ paint t Mono = PReverseVideo \/ paint t Mono = PUnpainted.
Proof. unfold paint. destruct (tok_tier16 t); eauto. Qed.

(** [format!("#{r:02X}{g:02X}{b:02X}")]. *)
Definition hex_digit_upper (n : Z) : Z := if (n <? 10)%Z then (48 + n)%Z else (55 + n)%Z.
Definition hex_pair (n : Z) : list Z := [hex_digit_upper (n / 16); hex_digit_upper (n mod 16)].

Lemma nibble_hex_digit n : (0 <= n < 16)%Z -> nibble (hex_digit_upper n) = n.
Proof.
  intros Hn. unfold nibble, hex_digit_upper. destruct (Z.ltb_spec n 10).
  - rewrite (proj2 (Z.leb_le 48 (48 + n))), (proj2 (Z.leb_le (48 + n) 57)) by lia. simpl. lia.
  - rewrite (proj2 (Z.leb_gt (55 + n) 57)), (proj2 (Z.leb_gt 97 (55 + n))) by lia.
    rewrite andb_false_r. simpl.
    rewrite (proj2 (Z.leb_le 65 (55 + n))), (proj2 (Z.leb_le (55 + n) 70)) by lia. simpl. lia.
Qed.

(** Every printed colour reads back. *)
Lemma rgb_roundtrip t r g b :
  (0 <= r < 256)%Z -> (0 <= g < 256)%Z -> (0 <= b < 256)%Z ->
  text (tok_value t) = [35%Z] ++ hex_pair r ++ hex_pair g ++ hex_pair b ->
  rgb t = (r, g, b).
Proof.
  intros Hr Hg Hb Ht.
  assert (forall n, (0 <= n < 256)%Z -> nibble (hex_digit_upper (n / 16)) * 16 + nibble (hex_digit_upper (n mod 16)) = n)%Z as Hn.
  { intros n Hn. rewrite !nibble_hex_digit.
    - pose proof (Z.div_mod n 16). lia.
    - apply Z.mod_pos_bound. lia.
    - split; [apply Z.div_pos; lia|apply Z.div_lt_upper_bound; lia]. }
  unfold rgb. rewrite Ht. simpl. unfold hex_byte. simpl. by rewrite !Hn.
Qed.
End Tier.

(** ** Marks and the probe (marks.rs, probe.rs) *)

Module Marks.
Import Tier.

Inductive MarkKind := Identity | Expression | GraphTier | Chart.

Record Mark := { mark_name : string; mark_glyphs : list char; mark_ascii : char; mark_kind : MarkKind }.

Inductive GlyphSet := GUnicode | GAscii.

#[export] Instance MarkKind_eq_dec : EqDecision MarkKind.
Proof. solve_decision. Defined.
#[export] Instance GlyphSet_eq_dec : EqDecision GlyphSet.
Proof. solve_decision. Defined.

Definition GLYPH_VALUES : list string := ["unicode"; "ascii"].

(** [GlyphSet::parse]. *)
Definition glyphs_parse (value : string) : result FlagValueError GlyphSet :=
  if String.eqb value "unicode" then Ok GUnicode
  else if String.eqb value "ascii" then Ok GAscii
  else Err {| fe_flag := "--glyphs"; fe_given := value; fe_allowed := GLYPH_VALUES |}.

(** The cycle, and the same frames backwards: U+280B, U+2819, U+2839, U+2838,
    U+28B0, U+28E0, U+2844, U+2806. *)
Definition SPINNER : list char := [10251; 10265; 10297; 10296; 10416; 10464; 10308; 10246]%Z.
Definition SPINNER_REVERSED : list char := [10246; 10308; 10464; 10416; 10296; 10297; 10265; 10251]%Z.

Definition mk (n : string) (g : list Z) (a : Z) (k : MarkKind) : Mark :=
  {| mark_name := n; mark_glyphs := g; mark_ascii := a; mark_kind := k |}.

Definition MARKS : list Mark := [
  mk "orchestrator" [10022%Z] 79 Identity; mk "researcher" [10023%Z] 83 Identity;
  mk "architect" [9652%Z] 65 Identity; mk "implementer" [9656%Z] 73 Identity;
  mk "reviewer" [9667%Z] 82 Identity; mk "auditor" [9663%Z] 85 Identity;
  mk "role_absent" [8729%Z] 46 Identity;
  mk "idle" [10244%Z] 46 Expression; mk "queued" [10258%Z] 58 Expression;
  mk "starting" [10249%Z] 94 Expression; mk "spinner" SPINNER 45 Expression;
  mk "spinner_reversed" SPINNER_REVERSED 126 Expression; mk "attention" [33%Z] 33 Expression;
  mk "blocked" [8856%Z] 35 Expression; mk "failed" [10007%Z] 88 Expression;
  mk "done" [10003%Z] 118 Expression; mk "canceled" [8854%Z] 111 Expression;
  mk "unknown" [63%Z] 63 Expression;
  mk "task" [8862%Z] 84 GraphTier; mk "attempt" [8858%Z] 65 GraphTier;
  mk "dispatch" [8728%Z] 68 GraphTier; mk "message" [8900%Z] 77 GraphTier;
  mk "spark_1" [10432%Z] 46 Chart; mk "spark_2" [10468%Z] 58 Chart;
  mk "spark_3" [10486%Z] 61 Chart; mk "spark_4" [10495%Z] 35 Chart].

Record StateBinding := { bind_name : string; bind_mark : string; bind_token : string }.

Definition bd (n m t : string) : StateBinding := {| bind_name := n; bind_mark := m; bind_token := t |}.

Definition STATES : list StateBinding := [
  bd "idle" "idle" "gws_muted"; bd "queued" "queued" "gws_muted";
  bd "starting" "starting" "gws_hue_dim"; bd "running" "spinner" "gws_hue";
  bd "canceling" "spinner_reversed" "gws_muted"; bd "needs_attention" "attention" "gws_warn";
  bd "blocked" "blocked" "gws_warn"; bd "failed" "failed" "gws_fail";
  bd "done" "done" "gws_ok"; bd "canceled" "canceled" "gws_muted";
  bd "unknown" "unknown" "gws_warn"].

(** [mark]. *)
Definition mark (name : string) : option Mark := List.find (fun m => String.eqb (mark_name m) name) MARKS.

(** [Mark::head]. *)
Definition head (m : Mark) : char := match mark_glyphs m with c :: _ => c | [] => 32%Z end.

(** [Mark::at]. *)
Definition at_frame (m : Mark) (frame : nat) (glyphs : GlyphSet) : char :=
  match glyphs, mark_glyphs m with
  | GAscii, _ | _, [] => mark_ascii m
  | GUnicode, l => default (mark_ascii m) (l !! (frame mod length l))
  end.

Record CellReport := { cr_glyph : char; cr_cells : Z }.
Inductive ProbeOutcome := UnicodeSafe | Sheared (l : list char) | Inconclusive (l : list char).

(** [ProbeOutcome::glyph_set]. *)
Definition glyph_set (o : ProbeOutcome) : GlyphSet :=
  match o with UnicodeSafe => GUnicode | Sheared _ | Inconclusive _ => GAscii end.

(** [inventory_codepoints]: every glyph once, in inventory order. *)
Definition inventory_codepoints : list char :=
  foldl (fun out g => if decide (g ∈ out) then out else out ++ [g]) [] (MARKS ≫= mark_glyphs).

(** One codepoint of [evaluate]. *)
Definition judge (reports : list CellReport) (acc : list char * list char) (cp : char) : list char * list char :=
  match List.find (fun r => Z.eqb (cr_glyph r) cp) reports with
  | Some r => if (cr_cells r =? 1)%Z then acc else (acc.1 ++ [cp], acc.2)
  | None => (acc.1, acc.2 ++ [cp])
  end.

(** [evaluate]. *)
Definition evaluate (reports : list CellReport) : ProbeOutcome :=
  let '(sheared, unanswered) := foldl (judge reports) ([], []) inventory_codepoints in
  match sheared, unanswered with
  | _ :: _, _ => Sheared sheared
  | [], _ :: _ => Inconclusive unanswered
  | [], [] => UnicodeSafe
  end.

(** *** What the tables promise *)

(** The glyph a state shows. *)
Definition state_glyph (s : StateBinding) (frame : nat) (g : GlyphSet) : option char :=
  (fun m => at_frame m frame g) <$> mark (bind_mark s).

(** Whether the glyphs at a frame are all there and all different. *)
Definition glyphs_distinct (frame : nat) (g : GlyphSet) : bool :=
  bool_decide (NoDup ((fun s => state_glyph s frame g) <$> STATES)) &&
  forallb (fun s => is_some (state_glyph s frame g)) STATES.

Lemma marks_cycle_in_eight m : m ∈ MARKS -> length (mark_glyphs m) = 1 \/ length (mark_glyphs m) = 8.
Proof.
  assert (forallb (fun m => Nat.eqb (length (mark_glyphs m)) 1 || Nat.eqb (length (mark_glyphs m)) 8) MARKS = true) as H
    by (vm_compute; reflexivity).
  intros Hm%list_elem_of_In. eapply forallb_forall in H; [|exact Hm].
  apply orb_true_iff in H as [H%Nat.eqb_eq|H%Nat.eqb_eq]; eauto.
Qed.

Lemma at_frame_period m frame g : m ∈ MARKS -> at_frame m frame g = at_frame m (frame mod 8) g.
Proof.
  intros [E|E]%marks_cycle_in_eight; unfold at_frame; destruct g; try done;
    destruct (mark_glyphs m) as [|c l] eqn:El; try done; rewrite E.
  - by rewrite !Nat.mod_1_r.
  - by rewrite Nat.Div0.mod_mod.
Qed.

Lemma mark_in name m : mark name = Some m -> m ∈ MARKS.
Proof. intros [H _]%List.find_some. by apply list_elem_of_In. Qed.

(** On every frame, under either glyph set, the eleven states show eleven
    different characters. *)
Lemma states_never_share_a_glyph frame g : glyphs_distinct frame g = true.
Proof.
  assert (glyphs_distinct frame g = glyphs_distinct (frame mod 8) g) as ->.
  { assert (forall s, state_glyph s frame g = state_glyph s (frame mod 8) g) as He.
    { intros s. unfold state_glyph. destruct (mark (bind_mark s)) as [m|] eqn:Em; [|done].
      simpl. f_equal. apply at_frame_period. by eapply mark_in. }
    unfold glyphs_distinct. rewrite (list_fmap_ext _ (fun s => state_glyph s (frame mod 8) g) STATES) by (intros; apply He).
    reflexivity. }
  pose proof (Nat.mod_upper_bound frame 8 ltac:(lia)) as Hb.
  destruct (frame mod 8) as [|[|[|[|[|[|[|[|n]]]]]]]]; [destruct g; vm_compute; reflexivity..|lia].
Qed.
End Marks.

(** *** The probe *)

Module Probe.
Import Marks.

Lemma judge_spec reports cps acc :
  foldl (judge reports) acc cps =
  (acc.1 ++ List.filter (fun cp => match List.find (fun r => Z.eqb (cr_glyph r) cp) reports with
                                   | Some r => negb (cr_cells r =? 1)%Z | None => false end) cps,
   acc.2 ++ List.filter (fun cp => match List.find (fun r => Z.eqb (cr_glyph r) cp) reports with
                                   | Some _ => false | None => true end) cps).
Proof.
  revert acc. induction cps as [|cp cps IH]; intros [sh un]; simpl; [by rewrite !app_nil_r|].
  rewrite IH. unfold judge. destruct (List.find _ reports) as [r|]; [destruct (cr_cells r =? 1)%Z|]; simpl;
    by rewrite <-?(assoc_L (++)).
Qed.

(** Only a terminal that answered one cell for every codepoint of the
    inventory earns the unicode marks; silence and shear both degrade. *)
Lemma unicode_is_earned reports :
  glyph_set (evaluate reports) = GUnicode <->
  forall cp, cp ∈ inventory_codepoints ->
    exists r, List.find (fun r => Z.eqb (cr_glyph r) cp) reports = Some r /\ cr_cells r = 1%Z.
Proof.
  unfold evaluate. generalize inventory_codepoints as inv. intros inv. rewrite judge_spec. simpl. split.
  - intros Hg cp Hcp%list_elem_of_In.
    destruct (List.find (fun r => Z.eqb (cr_glyph r) cp) reports) as [r|] eqn:Ef.
    + exists r. split; [done|]. destruct (Z.eqb_spec (cr_cells r) 1) as [|Hne]; [done|].
      match type of Hg with context [match ?l with _ => _ end] => destruct l eqn:El end; [|done].
      exfalso. eapply List.in_nil. rewrite <-El. apply List.filter_In. split; [exact Hcp|].
      rewrite Ef. by apply negb_true_iff, Z.eqb_neq.
    + match type of Hg with context [match ?l with _ => _ end] => destruct l eqn:El end; [|done].
      match type of Hg with context [match ?l with _ => _ end] => destruct l eqn:El2 end; [|done].
      exfalso. eapply List.in_nil. rewrite <-El2. apply List.filter_In. split; [exact Hcp|]. by rewrite Ef.
  - intros Ha. rewrite !filter_nothing; [done|..]; intros cp (r & -> & Hr)%Ha; [done|]. by rewrite Hr.
Qed.

(** The inventory holds exactly the glyphs of the marks, each once. *)
Lemma inventory_is_the_marks :
  NoDup inventory_codepoints /\ length inventory_codepoints = 32 /\
  (forall cp, cp ∈ inventory_codepoints <-> exists m, m ∈ MARKS /\ cp ∈ mark_glyphs m).
Proof.
  assert (forall (l out : list char), NoDup out ->
    let r := foldl (fun out g => if decide (g ∈ out) then out else out ++ [g]) out l in
    NoDup r /\ forall cp, cp ∈ r <-> cp ∈ out \/ cp ∈ l) as H.
  { induction l as [|g l IH]; intros out Hn; simpl; [split; [done|set_solver]|].
    case_decide as Hd.
    - destruct (IH out Hn) as [H1 H2]. split; [done|]. intros cp. rewrite H2. set_solver.
    - destruct (IH (out ++ [g])) as [H1 H2]; [apply NoDup_app; split; [done|]; split; [set_solver|apply NoDup_singleton]|].
      split; [done|]. intros cp. rewrite H2. set_solver. }
  destruct (H (MARKS ≫= mark_glyphs) [] (NoDup_nil_2)) as [H1 H2].
  split; [exact H1|]. split; [vm_compute; reflexivity|].
  intros cp. unfold inventory_codepoints. rewrite H2, list_elem_of_bind, elem_of_nil.
  clear. generalize MARKS as ms. naive_solver.
Qed.
End Probe.

(** ** Styles (gwk-tui/src/theme.rs) *)

Module Styles.
Import Tier Marks.

(** What the sources use of the renderer's colours. *)
Inductive Color :=
| CReset | CBlack | CRed | CGreen | CYellow | CBlue | CMagenta | CCyan | CGray | CDarkGray
| CLightRed | CLightGreen | CLightYellow | CLightBlue | CLightMagenta | CLightCyan | CWhite
| CRgb (r g b : Z) | CIndexed (index : Z).

Record Style := { st_fg : option Color; st_bold : bool; st_reversed : bool }.

Definition style_default : Style := {| st_fg := None; st_bold := false; st_reversed := false |}.
Definition style_fg (c : Color) : Style := {| st_fg := Some c; st_bold := false; st_reversed := false |}.

#[export] Instance Color_eq_dec : EqDecision Color.
Proof. solve_decision. Defined.
#[export] Instance Style_eq_dec : EqDecision Style.
Proof. solve_decision. Defined.

(** [color]: the renderer's names are not the ANSI names. *)
Definition color (slot : AnsiSlot) : Color :=
  match slot with
  | SBlack => CBlack | SRed => CRed | SGreen => CGreen | SYellow => CYellow
  | SBlue => CBlue | SMagenta => CMagenta | SCyan => CCyan | SWhite => CGray
  | SBrightBlack => CDarkGray | SBrightRed => CLightRed | SBrightGreen => CLightGreen
  | SBrightYellow => CLightYellow | SBrightBlue => CLightBlue | SBrightMagenta => CLightMagenta
  | SBrightCyan => CLightCyan | SBrightWhite => CWhite
  end.

(** [paint_style]. *)
Definition paint_style (p : Paint) : Style :=
  match p with
  | PRgb r g b => style_fg (CRgb r g b)
  | PIndexed index => style_fg (CIndexed index)
  | PSlot slot => style_fg (color slot)
  | PBoldSlot slot => {| st_fg := Some (color slot); st_bold := true; st_reversed := false |}
  | PReset => style_fg CReset
  | PReverseVideo => {| st_fg := None; st_bold := false; st_reversed := true |}
  | PUnpainted => style_default
  end.

(** [token_style]. *)
Definition token_style (t : Token) (tier : ColorTier) : Style := paint_style (paint t tier).

(** [state_style]. *)
Definition state_style (s : StateBinding) (tier : ColorTier) : Style :=
  match List.find (fun t => String.eqb (tok_name t) (bind_token s)) SIGNAL with
  | Some t => token_style t tier
  | None => style_default
  end.

(** [binding]: [None] is the panic. *)
Definition binding (name : string) : option StateBinding :=
  List.find (fun s => String.eqb (bind_name s) name) STATES.

(** The two combined, as the lenses call them. *)
Definition named_style (name : string) (tier : ColorTier) : Style :=
  match binding name with Some s => state_style s tier | None => style_default end.

(** The renderer gives the sixteen slots sixteen colours, so nothing two
    paints distinguish is lost in the style. *)
Lemma paint_style_injective p q : paint_style p = paint_style q -> p = q.
Proof.
  destruct p, q; simpl; try done; try (by intros [= -> ]); try (by intros [= -> -> ->]);
    repeat match goal with s : AnsiSlot |- _ => destruct s end; by intros [=].
Qed.
End Styles.

(** ** Wire text in terminal cells *)

Module SafeText.

(** [Cow<str>]. *)
Inductive Cow := Borrowed (s : str) | Owned (s : str).
Definition cow_str (c : Cow) : str := match c with Borrowed s | Owned s => s end.

(** [format!("{:X}")] of a code point. *)
Definition hex_up (n : Z) : char := if (n <? 10)%Z then (48 + n)%Z else (55 + n)%Z.
Fixpoint hex_upper (fuel : nat) (n : Z) (acc : str) : str :=
  match fuel with
  | O => acc
  | S fuel =>
      let acc := hex_up (n mod 16) :: acc in
      if (n / 16 =? 0)%Z then acc else hex_upper fuel (n / 16) acc
  end.

(** [format!("\\u{{{:X}}}", c as u32)]: at most eight digits of a [u32]. *)
Definition replacement (c : char) : str := [92; 117; 123]%Z ++ hex_upper 8 c [] ++ [125]%Z.

Definition is_ascii_graphic (c : char) : bool := between 33%Z 126%Z c.
Definition is_ascii (c : char) : bool := (c <? 128)%Z.

Section Text.
Context (is_admissible : char -> bool).

#[local] Arguments replacement : simpl never.
#[local] Arguments hex_upper : simpl never.

(** The closure [safe] of both functions. *)
Definition safe (c : char) : bool :=
  is_ascii_graphic c || (c =? 32)%Z || negb (is_ascii c) && is_admissible c.

(** [safe_text], from the character at [seen]'s end. *)
Fixpoint safe_text_from (budget : nat) (seen rest : str) (escaped : option str) (cells : nat) : Cow :=
  match rest with
  | [] => match escaped with Some out => Owned out | None => Borrowed seen end
  | c :: rest =>
      if safe c then
        if Nat.eqb cells budget then Owned (default seen escaped)
        else safe_text_from budget (seen ++ [c]) rest ((fun out => out ++ [c]) <$> escaped) (S cells)
      else
        let r := replacement c in
        if Nat.ltb (budget - cells) (length r) then Owned (default seen escaped)
        else safe_text_from budget (seen ++ [c]) rest (Some (default seen escaped ++ r)) (cells + length r)
  end.

Definition safe_text (s : str) (cell_budget : nat) : Cow := safe_text_from cell_budget [] s None 0.

(** One cell of [safe_text_lines]: [None] is the early return. *)
Definition push_cell (width max_lines : nat) (st : list str * str * nat) (c : char) : option (list str * str * nat) :=
  let '(full, last, cells) := st in
  if Nat.eqb cells width then
    if Nat.eqb (S (length full)) max_lines then None
    else Some (full ++ [last], [c], 1)
  else Some (full, last ++ [c], S cells).

Fixpoint push_cells (width max_lines : nat) (st : list str * str * nat) (l : str) : (list str * str * nat) * bool :=
  match l with
  | [] => (st, false)
  | c :: l =>
      match push_cell width max_lines st c with
      | None => (st, true)
      | Some st => push_cells width max_lines st l
      end
  end.

(** The cells of one character. *)
Definition unit_of (c : char) : str := if safe c then [c] else replacement c.

Fixpoint lines_from (width max_lines : nat) (st : list str * str * nat) (l : str) : (list str * str * nat) * bool :=
  match l with
  | [] => (st, false)
  | c :: l =>
      match push_cells width max_lines st (unit_of c) with
      | (st, true) => (st, true)
      | (st, false) => lines_from width max_lines st l
      end
  end.

(** [safe_text_lines]: the lines and whether text remains. *)
Definition safe_text_lines (s : str) (cell_width max_lines : nat) : list str * bool :=
  if Nat.eqb cell_width 0 || Nat.eqb max_lines 0 then ([], negb (is_nil s))
  else
    let '((full, last, _), cut) := lines_from cell_width max_lines ([], [], 0) s in
    (full ++ [last], cut).

(** The whole text, escaped: what both functions cut from. *)
Definition escape (s : str) : str := s ≫= unit_of.

Lemma escape_app s t : escape (s ++ t) = escape s ++ escape t.
Proof. apply bind_app. Qed.

Lemma escape_cons c s : escape (c :: s) = unit_of c ++ escape s.
Proof. done. Qed.

(** *** [safe_text] *)

Lemma replacement_length c : 4 <= length (replacement c).
Proof. unfold replacement. rewrite !length_app. simpl. lia. Qed.

(** What the loop holds: the escape of what it read, in so many cells. *)
Definition holds (seen : str) (escaped : option str) (cells : nat) : Prop :=
  default seen escaped = escape seen /\ cells = length (escape seen).

Lemma unit_of_length c : 1 <= length (unit_of c).
Proof. unfold unit_of. destruct (safe c); [done|]. pose proof (replacement_length c). lia. Qed.

Lemma safe_text_from_spec budget rest seen escaped cells :
  holds seen escaped cells -> cells <= budget ->
  exists k, cow_str (safe_text_from budget seen rest escaped cells) = escape (seen ++ take k rest) /\
    length (escape (seen ++ take k rest)) <= budget /\
    (k < length rest -> budget < length (escape (seen ++ take (S k) rest))).
Proof.
  revert seen escaped cells. induction rest as [|c rest IH]; intros seen escaped cells [He Hc] Hb; cbn [safe_text_from].
  { exists 0. rewrite app_nil_r. destruct escaped; simpl in *; subst; (split; [done|split; [lia|lia]]). }
  assert (forall esc n, holds (seen ++ [c]) esc n -> n <= budget ->
    exists k, cow_str (safe_text_from budget (seen ++ [c]) rest esc n) = escape (seen ++ take k (c :: rest)) /\
      length (escape (seen ++ take k (c :: rest))) <= budget /\
      (k < length (c :: rest) -> budget < length (escape (seen ++ take (S k) (c :: rest))))) as Hgo.
  { intros esc n Hh Hn. destruct (IH _ _ _ Hh Hn) as (k & H1 & H2 & H3). exists (S k).
    rewrite <-(assoc_L (++)) in H1, H2, H3. simpl in H1, H2, H3 |- *. split; [done|]. split; [done|]. intros. apply H3. simpl in *. lia. }
  assert (budget < length (escape (seen ++ [c])) ->
    exists k, default seen escaped = escape (seen ++ take k (c :: rest)) /\
      length (escape (seen ++ take k (c :: rest))) <= budget /\
      (k < length (c :: rest) -> budget < length (escape (seen ++ take (S k) (c :: rest))))) as Hstop.
  { intros Hlt. exists 0. simpl. rewrite app_nil_r. split; [done|]. split; [lia|]. by intros _. }
  assert (escape (seen ++ [c]) = escape seen ++ unit_of c) as Hu by (rewrite escape_app; simpl; by rewrite app_nil_r).
  unfold unit_of in Hu. destruct (safe c) eqn:Es.
  - destruct (Nat.eqb_spec cells budget); cbn [cow_str].
    + apply Hstop. rewrite Hu, length_app. simpl. lia.
    + apply Hgo; [|lia]. split; [|rewrite Hu, length_app; simpl; lia].
      rewrite Hu. destruct escaped; simpl in *; by rewrite <-He.
  - destruct (Nat.ltb_spec (budget - cells) (length (replacement c))); cbn [cow_str].
    + apply Hstop. rewrite Hu, length_app. lia.
    + apply Hgo; [|lia]. split; [simpl; by rewrite Hu, He|rewrite Hu, length_app; lia].
Qed.

(** The text shown is the escape of the longest prefix that fits. *)
Lemma safe_text_longest_prefix s budget :
  exists k, cow_str (safe_text s budget) = escape (take k s) /\ length (escape (take k s)) <= budget /\
    (k < length s -> budget < length (escape (take (S k) s))).
Proof.
  destruct (safe_text_from_spec budget s [] None 0) as (k & H); [done|lia|]. by exists k.
Qed.

Lemma hex_upper_graphic fuel n acc :
  Forall (fun c => is_ascii_graphic c = true) acc -> Forall (fun c => is_ascii_graphic c = true) (hex_upper fuel n acc).
Proof.
  revert n acc. induction fuel as [|fuel IH]; intros n acc Ha; [done|]. unfold hex_upper; fold hex_upper.
  assert (Forall (fun c => is_ascii_graphic c = true) (hex_up (n mod 16) :: acc)) as Hc.
  { constructor; [|done]. pose proof (Z.mod_pos_bound n 16). unfold hex_up, is_ascii_graphic, between.
    destruct (Z.ltb_spec (n mod 16) 10); apply andb_true_iff; rewrite !Z.leb_le; lia. }
  cbv zeta. destruct (n / 16 =? 0)%Z; [done|]. by apply IH.
Qed.

Lemma graphic_safe c : is_ascii_graphic c = true -> safe c = true.
Proof. unfold safe. by intros ->. Qed.

(** Nothing but safe characters is ever shown. *)
Lemma escape_safe s : Forall (fun c => safe c = true) (escape s).
Proof.
  apply Forall_forall. intros d (c & Hd & Hc)%list_elem_of_bind. unfold unit_of in Hd.
  destruct (safe c) eqn:Es; [by apply list_elem_of_singleton in Hd as ->|]. apply graphic_safe.
  revert d Hd. apply Forall_forall. unfold replacement. rewrite !Forall_app.
  split; [by repeat constructor|]. split; [by apply hex_upper_graphic|by repeat constructor].
Qed.

Lemma safe_text_from_borrows budget rest seen cells t :
  cells <= budget ->
  safe_text_from budget seen rest None cells = Borrowed t <->
  t = seen ++ rest /\ forallb safe rest = true /\ cells + length rest <= budget.
Proof.
  assert (forall rest seen out cells t, safe_text_from budget seen rest (Some out) cells <> Borrowed t) as Ho.
  { clear. induction rest as [|c rest IH]; intros; cbn [safe_text_from]; [done|]. repeat case_match; try done; apply IH. }
  revert seen cells. induction rest as [|c rest IH]; intros seen cells Hc; cbn [safe_text_from forallb].
  { rewrite app_nil_r. simpl. split; [intros [= ->]; split; [done|split; [done|lia]]|by intros (-> & _)]. }
  destruct (safe c); simpl.
  - destruct (Nat.eqb_spec cells budget); [split; [done|intros (_ & _ & H); lia]|].
    rewrite IH, <-(assoc_L (++)) by lia. simpl. split; intros (-> & -> & H); (split; [done|split; [done|lia]]).
  - case_match; [split; [done|by intros (_ & ? & _)]|]. split; [intros Hx; by apply Ho in Hx|by intros (_ & ? & _)].
Qed.

(** Text that is safe and fits is handed back as it is, and nothing else is. *)
Lemma safe_text_borrows s budget t :
  safe_text s budget = Borrowed t <-> t = s /\ forallb safe s = true /\ length s <= budget.
Proof. apply safe_text_from_borrows. lia. Qed.

(** *** [safe_text_lines] *)

Section Lines.
Context (w m : nat) (Hw : 0 < w) (Hm : 0 < m).

(** The lines so far: full ones, and the one being filled. *)
Definition lines_ok (st : list str * str * nat) : Prop :=
  let '(full, last, cells) := st in
  Forall (fun l => length l = w) full /\ cells = length last /\ cells <= w /\ length full < m.

Definition shown (st : list str * str * nat) : str := let '(full, last, _) := st in mjoin full ++ last.

Lemma lines_ok_shown st : lines_ok st -> length (shown st) = w * length st.1.1 + st.2.
Proof.
  destruct st as [[full last] cells]. intros (Hf & -> & _). simpl. rewrite length_app. f_equal.
  induction Hf as [|l full Hl _ IH]; [simpl; lia|]. simpl. rewrite length_app, IH, Hl. simpl. lia.
Qed.

Lemma join_snoc (full : list str) (l : str) : mjoin (full ++ [l]) = mjoin full ++ l.
Proof. etrans; [apply (join_app (A := char) full [l])|]. simpl. by rewrite app_nil_r. Qed.

Lemma push_cell_ok st c :
  lines_ok st ->
  match push_cell w m st c with
  | Some st' => lines_ok st' /\ shown st' = shown st ++ [c] /\ length (shown st) < w * m
  | None => length (shown st) = w * m
  end.
Proof.
  intros Hok. pose proof (lines_ok_shown _ Hok) as Hs. destruct st as [[full last] cells].
  destruct Hok as (Hf & -> & Hc & Hl). cbn [fst snd] in Hs. unfold push_cell.
  destruct (Nat.eqb_spec (length last) w); [destruct (Nat.eqb_spec (S (length full)) m)|].
  - rewrite Hs. nia.
  - split; [|split; [cbn [shown]; by rewrite join_snoc|rewrite Hs; nia]].
    split; [apply Forall_app; split; [done|by repeat constructor]|]. rewrite length_app. simpl. lia.
  - split; [|split; [simpl; by rewrite (assoc_L (++))|rewrite Hs; nia]].
    split; [done|]. rewrite length_app. simpl. lia.
Qed.

Lemma push_cells_ok l st st' cut :
  lines_ok st -> push_cells w m st l = (st', cut) ->
  lines_ok st' /\ shown st' = take (w * m) (shown st ++ l) /\
  (cut = true <-> w * m < length (shown st ++ l)).
Proof.
  revert st. induction l as [|c l IH]; intros st Hok; cbn [push_cells].
  - intros [= <- <-]. assert (length (shown st) <= w * m) as Hle.
    { rewrite (lines_ok_shown _ Hok). destruct st as [[full last] cells], Hok as (_ & _ & ? & ?). simpl. nia. }
    rewrite app_nil_r, take_ge by lia. split; [done|]. split; [done|]. split; [done|lia].
  - pose proof (push_cell_ok _ c Hok) as Hp. destruct (push_cell w m st c) as [st1|].
    + destruct Hp as (Hok1 & Hs & _). intros H. destruct (IH _ Hok1 H) as (H1 & H2 & H3).
      rewrite Hs, <-(assoc_L (++)) in H2, H3. done.
    + intros [= <- <-]. split; [done|]. rewrite take_app_length' by done. split; [done|].
      rewrite length_app. simpl. split; [lia|done].
Qed.

Lemma push_cells_app st l k :
  push_cells w m st (l ++ k) =
  match push_cells w m st l with (st, true) => (st, true) | (st, false) => push_cells w m st k end.
Proof.
  revert st. induction l as [|c l IH]; intros st; simpl; [done|]. destruct (push_cell w m st c); [apply IH|done].
Qed.

Lemma lines_from_escape s st : lines_from w m st s = push_cells w m st (escape s).
Proof.
  revert st. induction s as [|c s IH]; intros st; [done|]. rewrite escape_cons, push_cells_app. cbn [lines_from].
  destruct (push_cells w m st (unit_of c)) as [st' []]; [done|]. apply IH.
Qed.

(** The pane shows the first [w * m] cells of the escaped text, in rows of at
    most [w] of which only the last may be short, and says whether any cell is
    missing. *)
Lemma safe_text_lines_fill s :
  let r := safe_text_lines s w m in
  mjoin r.1 = take (w * m) (escape s) /\ (r.2 = true <-> w * m < length (escape s)) /\
  length r.1 <= m /\
  exists full last, r.1 = full ++ [last] /\ Forall (fun l => length l = w) full /\ length last <= w.
Proof.
  unfold safe_text_lines. destruct (Nat.eqb_spec w 0), (Nat.eqb_spec m 0); try lia. simpl.
  rewrite lines_from_escape. destruct (push_cells w m ([], [], 0) (escape s)) as [[[full last] cells] cut] eqn:E.
  assert (lines_ok ([], [], 0)) as H0 by (repeat split; simpl; first [constructor|lia]).
  destruct (push_cells_ok _ _ _ _ H0 E) as ((Hf & -> & Hc & Hl) & Hs & Hcut).
  cbn [fst snd shown app] in *. rewrite join_snoc. split; [done|]. split; [done|].
  rewrite length_app. simpl. split; [lia|]. by exists full, last.
Qed.
End Lines.

Lemma escape_nil s : escape s = [] <-> s = [].
Proof.
  split; [|by intros ->]. destruct s as [|c s]; [done|]. rewrite escape_cons. intros H%(f_equal length).
  rewrite length_app in H. pose proof (unit_of_length c). simpl in H. lia.
Qed.

(** Wire text on a screen: wrapped, it is the escaped text cut at
    the cells there are, in safe characters, and says when it was cut; on one
    line it is as many whole escaped characters as fit, unchanged when nothing
    has to be escaped or cut. *)
Theorem wire_text_fits_its_cells (s : str) (w m : nat) :
  (let r := safe_text_lines s w m in
   mjoin r.1 = take (w * m) (escape s) /\ (r.2 = true <-> w * m < length (escape s)) /\
   length r.1 <= m /\ Forall (fun l => length l <= w /\ Forall (fun c => safe c = true) l) r.1) /\
  (exists k, cow_str (safe_text s w) = escape (take k s) /\ length (escape (take k s)) <= w /\
     (k < length s -> w < length (escape (take (S k) s)))) /\
  (safe_text s w = Borrowed s <-> forallb safe s = true /\ length s <= w).
Proof.
  split; [|split; [apply safe_text_longest_prefix|rewrite safe_text_borrows; naive_solver]].
  destruct (decide (w = 0 \/ m = 0)) as [H0|Hpos].
  - assert (w * m = 0) as -> by nia. unfold safe_text_lines.
    assert (Nat.eqb w 0 || Nat.eqb m 0 = true) as -> by (rewrite orb_true_iff, !Nat.eqb_eq; done).
    cbn [fst snd]. split; [done|]. split; [|split; [simpl; lia|constructor]]. split.
    + intros Hs. destruct (escape s) as [|c l] eqn:E; [|simpl; lia]. apply escape_nil in E as ->. done.
    + destruct s; [simpl; lia|done].
  - destruct (safe_text_lines_fill w m ltac:(lia) ltac:(lia) s) as (H1 & H2 & H3 & full & last & H4 & Hf & Hl).
    split; [done|]. split; [done|]. split; [done|].
    apply Forall_forall. intros l Hin. split.
    + rewrite H4 in Hin. apply elem_of_app in Hin as [Hin|Hin].
      * rewrite Forall_forall in Hf. by rewrite (Hf l Hin).
      * by apply list_elem_of_singleton in Hin as ->.
    + apply Forall_forall. intros c Hc. pose proof (escape_safe s) as Hs. rewrite Forall_forall in Hs. apply Hs.
      assert (c ∈ take (w * m) (escape s)) as Ht.
      { rewrite <-H1. apply list_elem_of_join. by exists l. }
      apply elem_of_take in Ht as (i & Hi & _). by eapply list_elem_of_lookup_2.
Qed.
End Text.
End SafeText.
