(* ===== verification/Forest.v ===== *)
(** * Rows by id, groups and the depth-first walk (gwk-tui/src/board.rs)

    What the Board's panels share: keeping the first row of each id, grouping
    rows under a key in an ordered map, and walking parent links depth-first
    with an explicit stack and a set of what is already placed, since wire data
    is not trusted to be acyclic.

    The walk takes its bound as fuel and answers [None] without enough of it;
    [walk_places] shows that one turn per row of the page and per root is
    enough, and that what is placed in the end is what the roots reach. *)

From S2P Require Import Prelude Ordered.

(** ** Rows by id *)

Section ById.
Context {A : Type} (id : A -> string).

(** The loop of [unique_by_id]: the rows kept and the rows counted. *)
Fixpoint unique_from (seen : gset string) (items : list A) : list A * nat :=
  match items with
  | [] => ([], 0)
  | x :: items =>
      if decide (id x ∈ seen) then
        let '(unique, duplicates) := unique_from seen items in (unique, S duplicates)
      else
        let '(unique, duplicates) := unique_from ({[id x]} ∪ seen) items in (x :: unique, duplicates)
  end.

(** [unique_by_id]. *)
Definition unique_by_id (items : list A) : list A * nat := unique_from ∅ items.

Definition id_leb (x y : A) : bool := String.leb (id x) (id y).

(** [by_id]. *)
Definition by_id (items : list A) : list A := sort_by id_leb items.

Lemma unique_from_spec seen items :
  let '(unique, duplicates) := unique_from seen items in
  NoDup (id <$> unique) /\ unique ⊆ items /\ length unique + duplicates = length items /\
  (forall s, s ∈ id <$> unique <-> s ∈ id <$> items /\ s ∉ seen).
Proof.
  revert seen. induction items as [|x items IH]; intros seen; simpl.
  { split; [constructor|]. split; [set_solver|]. split; [done|]. set_solver. }
  case_decide as Hx.
  - specialize (IH seen). destruct (unique_from seen items) as [u d]. destruct IH as (H1 & H2 & H3 & H4).
    split; [done|]. split; [set_solver|]. split; [simpl; lia|]. intros s. rewrite H4. set_solver.
  - specialize (IH ({[id x]} ∪ seen)). destruct (unique_from _ items) as [u d]. destruct IH as (H1 & H2 & H3 & H4).
    split; [constructor; [|done]; rewrite H4; set_solver|].
    split; [set_solver|]. split; [simpl; lia|].
    intros s. rewrite ?fmap_cons, !elem_of_cons, H4. destruct (decide (s = id x)); set_solver.
Qed.

Lemma unique_nodup items : NoDup (id <$> (unique_by_id items).1).
Proof. pose proof (unique_from_spec ∅ items). unfold unique_by_id. destruct (unique_from ∅ items). naive_solver. Qed.

Lemma unique_sub items x : x ∈ (unique_by_id items).1 -> x ∈ items.
Proof. pose proof (unique_from_spec ∅ items) as H. unfold unique_by_id. destruct (unique_from ∅ items). destruct H as (_ & H & _). apply H. Qed.

Lemma unique_ids items s : s ∈ id <$> (unique_by_id items).1 <-> s ∈ id <$> items.
Proof.
  pose proof (unique_from_spec ∅ items) as H. unfold unique_by_id. destruct (unique_from ∅ items).
  destruct H as (_ & _ & _ & H). rewrite H. set_solver.
Qed.

Lemma unique_length items : length (unique_by_id items).1 + (unique_by_id items).2 = length items.
Proof. pose proof (unique_from_spec ∅ items) as H. unfold unique_by_id. destruct (unique_from ∅ items). naive_solver. Qed.

(** A page without repetitions is kept as it is. *)
Lemma unique_fixed items : NoDup (id <$> items) -> unique_by_id items = (items, 0).
Proof.
  unfold unique_by_id.
  assert (forall seen, NoDup (id <$> items) -> (forall x, x ∈ items -> id x ∉ seen) -> unique_from seen items = (items, 0)) as H.
  { induction items as [|x items IH]; intros seen; simpl; [done|]. intros [Hx Hn]%NoDup_cons Hs.
    rewrite decide_False by (apply Hs; left). rewrite IH; [done|done|].
    intros y Hy. rewrite elem_of_union, elem_of_singleton. intros [E|Hin].
    - apply Hx. rewrite <-E. apply list_elem_of_fmap. eauto.
    - by apply (Hs y); [right|]. }
  intros Hn. apply H; [done|set_solver].
Qed.

Lemma by_id_perm items : by_id items ≡ₚ items.
Proof. apply sort_by_perm. Qed.

(** Rows of one page with the same id are the same row. *)
Lemma id_inj items x y : NoDup (id <$> items) -> x ∈ items -> y ∈ items -> id x = id y -> x = y.
Proof.
  intros Hn [i Hi]%list_elem_of_lookup [j Hj]%list_elem_of_lookup E.
  assert (i = j) as ->; [|congruence].
  eapply NoDup_lookup; [exact Hn|rewrite list_lookup_fmap, Hi; done|rewrite list_lookup_fmap, Hj; simpl; by rewrite E].
Qed.
End ById.

(** ** Groups *)

Section Groups.
Context {A K : Type} `{Countable K} (key : A -> option K).

(** [map.entry(key).or_default().push(x)]. *)
Definition push_group (m : gmap K (list A)) (x : A) : gmap K (list A) :=
  match key x with
  | Some k => <[k := default [] (m !! k) ++ [x]]> m
  | None => m
  end.

Definition group (items : list A) : gmap K (list A) := foldl push_group ∅ items.

(** The members of a group, none when the key is absent. *)
Definition members (m : gmap K (list A)) (k : K) : list A := default [] (m !! k).

Lemma group_from items m k :
  members (foldl push_group m items) k = members m k ++ filter (fun x => key x = Some k) items.
Proof.
  unfold members. revert m. induction items as [|x items IH]; intros m; simpl; [by rewrite app_nil_r|].
  rewrite IH, filter_cons. unfold push_group. destruct (key x) as [k'|] eqn:E.
  - destruct (decide (k' = k)) as [->|Hne].
    + rewrite decide_True by done. rewrite lookup_insert_eq. simpl. by rewrite <-(assoc_L (++)).
    + rewrite decide_False by congruence. by rewrite lookup_insert_ne.
  - by rewrite decide_False by done.
Qed.

(** The members of a group are the rows with its key, in page order. *)
Lemma group_members items k : members (group items) k = filter (fun x => key x = Some k) items.
Proof. unfold group. rewrite group_from. unfold members. by rewrite lookup_empty. Qed.

Lemma group_keys items k : is_Some (group items !! k) <-> exists x, x ∈ items /\ key x = Some k.
Proof.
  unfold group. assert (forall m, is_Some (foldl push_group m items !! k) <-> is_Some (m !! k) \/ exists x, x ∈ items /\ key x = Some k) as Hg.
  { induction items as [|x items IH]; intros m; simpl; [set_solver|]. rewrite IH. unfold push_group.
    setoid_rewrite elem_of_cons. destruct (key x) as [k'|] eqn:E; [|naive_solver].
    destruct (decide (k' = k)) as [->|Hne].
    - rewrite lookup_insert_eq. naive_solver.
    - rewrite lookup_insert_ne by done. naive_solver. }
  rewrite Hg, lookup_empty. split; [intros [[? ?]|?]; [done|done]|by right].
Qed.

Lemma sorted_members (leb : A -> A -> bool) m k : members (sort_by leb <$> m) k = sort_by leb (members m k).
Proof. unfold members. rewrite lookup_fmap. by destruct (m !! k). Qed.
End Groups.

(** A bind only looks at the function on the elements. *)
Lemma bind_ext_in {A B} (f g : A -> list B) l : (forall x, x ∈ l -> f x = g x) -> l ≫= f = l ≫= g.
Proof.
  induction l as [|x l IH]; intros He; [done|]. rewrite !bind_cons, (He x) by left. f_equal. apply IH. set_solver.
Qed.

(** Rows filed under the keys of a list without repetitions, and the rest. *)
Lemma partition_perm {A K} `{EqDecision K} (key : A -> K) (ks : list K) (items : list A) :
  NoDup ks ->
  (ks ≫= fun k => filter (fun x => key x = k) items) ++ filter (fun x => key x ∉ ks) items ≡ₚ items.
Proof.
  intros Hn. revert items. induction Hn as [|k ks Hk Hn IH]; intros items.
  - rewrite (list_filter_iff _ (fun _ => True)) by set_solver. simpl.
    induction items as [|x items IH]; [done|]. rewrite filter_cons_True by done. by rewrite IH.
  - rewrite bind_cons, <-(assoc_L (++)). etrans; [|apply (filter_app_complement (fun x => key x = k))].
    apply Permutation_app_head. rewrite <-(IH (filter (fun x => key x <> k) items)).
    rewrite list_filter_filter. apply reflexive_eq. f_equal.
    + apply bind_ext_in. intros k' Hk'. rewrite list_filter_filter. apply list_filter_iff. set_solver.
    + apply list_filter_iff. set_solver.
Qed.

(** ** The walk *)

Section Walk.
Context {A R : Type} (id : A -> string) (children : A -> list A) (row : A -> Z -> R).

(** [u16::saturating_add]. *)
Definition saturating_add_u16 (a b : Z) : Z := Z.min (a + b) u16_max.

Definition INDENT_STEP : Z := 2.

(** The loop: pop a row; skip it when it is placed, else show it and push its
    children, the first of them on top. *)
Fixpoint walk (fuel : nat) (stack : list (A * Z)) (placed : gset string) (out : list R) : option (gset string * list R) :=
  match stack with
  | [] => Some (placed, out)
  | (node, indent) :: stack =>
      match fuel with
      | O => None
      | S fuel =>
          if decide (id node ∈ placed) then walk fuel stack placed out
          else
            walk fuel (((fun child => (child, saturating_add_u16 indent INDENT_STEP)) <$> children node) ++ stack)
              ({[id node]} ∪ placed) (out ++ [row node indent])
      end
  end.

(** A turn for every root and for every child of the page. *)
Definition walk_fuel (nodes roots : list A) : nat := length roots + sum_list (length ∘ children <$> nodes).

Definition walk_roots (nodes roots : list A) (indent : Z) (st : gset string * list R) : option (gset string * list R) :=
  walk (walk_fuel nodes roots) ((fun root => (root, indent)) <$> roots) st.1 st.2.

(** *** What a walk places *)

Context (nodes : list A) (tag : R -> option string) (good : A -> Prop).
Context (ids_unique : NoDup (id <$> nodes)).
Context (children_in : forall n c, n ∈ nodes -> c ∈ children n -> c ∈ nodes).
Context (row_tag : forall n i, tag (row n i) = Some (id n)).
Context (good_children : forall n c, n ∈ nodes -> good n -> c ∈ children n -> good c).

(** What the rows shown and the set of the placed have to do with each other. *)
Record placing (pending : list A) (st : gset string * list R) : Prop := {
  pl_once : NoDup (omap tag st.2);
  pl_shown s : s ∈ omap tag st.2 <-> s ∈ st.1;
  pl_good s : s ∈ st.1 -> exists n, n ∈ nodes /\ id n = s /\ good n;
  pl_closed n c : n ∈ nodes -> id n ∈ st.1 -> c ∈ children n -> id c ∈ st.1 \/ c ∈ pending;
}.

Definition unplaced_children (placed : gset string) : nat :=
  sum_list (length ∘ children <$> filter (fun n => id n ∉ placed) nodes).

Lemma unplaced_children_drop placed n :
  n ∈ nodes -> id n ∉ placed ->
  unplaced_children placed = length (children n) + unplaced_children ({[id n]} ∪ placed).
Proof.
  unfold unplaced_children. intros Hn Hp. clear children_in good_children. revert ids_unique Hn.
  induction nodes as [|x l IH]; [set_solver|]. rewrite fmap_cons. intros [Hx Hl]%NoDup_cons.
  rewrite !filter_cons. intros [->|Hin]%elem_of_cons.
  - rewrite decide_True by done. rewrite decide_False by set_solver. rewrite fmap_cons. simpl. f_equal.
    f_equal. f_equal. apply filter_ext_in. intros y Hy. rewrite elem_of_union, elem_of_singleton.
    assert (id y <> id x); [|tauto]. intros E. apply Hx. rewrite <-E. apply list_elem_of_fmap. eauto.
  - specialize (IH Hl Hin). assert (id x <> id n) as Hne.
    { intros E. apply Hx. rewrite E. apply list_elem_of_fmap. eauto. }
    destruct (decide (id x ∈ placed)).
    + rewrite !decide_False by set_solver. done.
    + rewrite !decide_True by set_solver. rewrite !fmap_cons. simpl. lia.
Qed.

Lemma walk_places_from fuel stack placed out :
  placing stack.*1 (placed, out) ->
  (forall n, n ∈ stack.*1 -> n ∈ nodes /\ good n) ->
  length stack + unplaced_children placed <= fuel ->
  exists placed' rows, walk fuel stack placed out = Some (placed', out ++ rows) /\
    placing [] (placed', out ++ rows) /\ placed ⊆ placed' /\
    (forall n, n ∈ stack.*1 -> id n ∈ placed') /\
    (forall r, r ∈ rows -> exists n i, r = row n i).
Proof.
  revert stack placed out. induction fuel as [|fuel IH]; intros [|[n i] stack] placed out Hpl Hst Hf.
  1,3: exists placed, []; rewrite app_nil_r; split; [done|]; split; [done|]; split; [done|]; split; set_solver.
  { simpl in Hf. lia. }
  cbn [walk]. destruct (Hst n ltac:(left)) as [Hn Hg]. case_decide as Hp.
  - destruct (IH stack placed out) as (p & rows & H1 & H2 & H3 & H4 & H5).
    + destruct Hpl as [O S G C]. split; [done..|]. intros m c Hm Hi Hc.
      destruct (C m c Hm Hi Hc) as [|[->|]%elem_of_cons]; eauto.
    + intros m Hm. apply Hst. by right.
    + simpl in Hf. lia.
    + exists p, rows. split; [done|]. split; [done|]. split; [done|]. split; [|done].
      intros m [->|Hm]%elem_of_cons; [set_solver|by apply H4].
  - rewrite (unplaced_children_drop placed n) in Hf by done.
    destruct (IH (((fun child => (child, saturating_add_u16 i INDENT_STEP)) <$> children n) ++ stack)
      ({[id n]} ∪ placed) (out ++ [row n i])) as (p & rows & H1 & H2 & H3 & H4 & H5).
    + rewrite fmap_app, <-list_fmap_compose. destruct Hpl as [O S G C].
      assert (fst ∘ (fun child => (child, saturating_add_u16 i INDENT_STEP)) <$> children n = children n) as ->
        by apply list_fmap_id.
      assert (omap tag (out ++ [row n i]) = omap tag out ++ [id n]) as Ho
        by (rewrite omap_app; simpl; by rewrite row_tag).
      split; cbn [fst snd] in *.
      * rewrite Ho. apply NoDup_app. split; [done|]. split; [|apply NoDup_singleton].
        intros s Hs%S. set_solver.
      * intros s. rewrite Ho, elem_of_app, S. set_solver.
      * intros s [->%elem_of_singleton|Hs]%elem_of_union; [by exists n|by apply G].
      * intros m c Hm [E%elem_of_singleton|Hi]%elem_of_union Hc.
        -- assert (m = n) as -> by (by eapply id_inj). right. set_solver.
        -- destruct (C m c Hm Hi Hc) as [|[->|]%elem_of_cons]; set_solver.
    + intros m. rewrite fmap_app, <-list_fmap_compose, elem_of_app. intros [Hm|Hm]; [|apply Hst; by right].
      apply list_elem_of_fmap in Hm as (c & -> & Hc). simpl. eauto.
    + rewrite length_app, length_fmap. simpl in Hf. lia.
    + exists p, (row n i :: rows). rewrite <-(assoc_L (++)) in H1, H2. simpl in H1, H2.
      split; [done|]. split; [done|]. split; [set_solver|]. split.
      * rewrite fmap_app in H4. intros m [->|Hm]%elem_of_cons; [set_solver|]. apply H4. set_solver.
      * intros r [->|Hr]%elem_of_cons; [eauto|by apply H5].
Qed.

Lemma unplaced_children_le placed : unplaced_children placed <= sum_list (length ∘ children <$> nodes).
Proof.
  unfold unplaced_children. clear. induction nodes as [|x l IH]; [done|]. rewrite filter_cons, fmap_cons.
  case_decide; rewrite ?fmap_cons; simpl; lia.
Qed.

(** A walk from roots of the page always ends; it shows rows it had not shown,
    each once, and places the roots and everything below them. *)
Lemma walk_places roots indent st :
  placing [] st -> (forall n, n ∈ roots -> n ∈ nodes /\ good n) ->
  exists placed' rows, walk_roots nodes roots indent st = Some (placed', st.2 ++ rows) /\
    placing [] (placed', st.2 ++ rows) /\ st.1 ⊆ placed' /\
    (forall n, n ∈ roots -> id n ∈ placed') /\ (forall r, r ∈ rows -> exists n i, r = row n i).
Proof.
  intros Hpl Hr. destruct st as [placed out]. unfold walk_roots.
  assert (((fun root => (root, indent)) <$> roots).*1 = roots) as Hs
    by (rewrite <-list_fmap_compose; apply list_fmap_id).
  edestruct (walk_places_from (walk_fuel nodes roots) ((fun root => (root, indent)) <$> roots) placed out) as (p & rows & H).
  - rewrite Hs. destruct Hpl as [O S G C]. split; [done..|]. intros n c Hn Hi Hc.
    destruct (C n c Hn Hi Hc); [by left|set_solver].
  - by rewrite Hs.
  - rewrite length_fmap. unfold walk_fuel. pose proof (unplaced_children_le placed). lia.
  - rewrite Hs in H. eauto.
Qed.

Lemma placing_start out : omap tag out = [] -> placing [] (∅, out).
Proof.
  clear ids_unique children_in row_tag good_children. intros Ho. split; cbn [fst snd]; rewrite ?Ho; [constructor|set_solver..].
Qed.

(** What the parent links reach from the roots. *)
Inductive reached (root : A -> Prop) : A -> Prop :=
| reached_root n : root n -> reached root n
| reached_child n c : reached root n -> n ∈ nodes -> c ∈ children n -> reached root c.

(** Once every root is placed, placed means reached. *)
Lemma placed_reached (root : A -> Prop) st :
  (forall n, good n <-> reached root n) -> placing [] st ->
  (forall n, root n -> n ∈ nodes /\ id n ∈ st.1) ->
  forall n, n ∈ nodes -> (id n ∈ st.1 <-> reached root n).
Proof.
  intros Hg [O S G C] Hroot n Hn. split.
  - intros (m & Hm & E & Hr%Hg)%G. by rewrite (id_inj id nodes n m) by done.
  - intros Hr. clear Hn. induction Hr as [n Hr|n c Hr IH Hn Hc]; [by apply Hroot|].
    destruct (C n c Hn IH Hc) as [|Hx]; [done|]. by apply elem_of_nil in Hx.
Qed.

(** Rows of other kinds change nothing. *)
Lemma placing_aside st rows : omap tag rows = [] -> placing [] st -> placing [] (st.1, st.2 ++ rows).
Proof.
  intros Ho [O S G C]. split; cbn [fst snd]; rewrite ?omap_app, ?Ho, ?app_nil_r; done.
Qed.
End Walk.

(** A fold that may stop. *)
Fixpoint fold_opt {S X} (f : S -> X -> option S) (s : S) (l : list X) : option S :=
  match l with
  | [] => Some s
  | x :: l => s' ← f s x; fold_opt f s' l
  end.

Lemma fold_opt_ind {S X} (P : list X -> S -> Prop) (f : S -> X -> option S) (l : list X) (s : S) :
  P [] s ->
  (forall l1 x l2 s, l = l1 ++ x :: l2 -> P l1 s -> exists s', f s x = Some s' /\ P (l1 ++ [x]) s') ->
  exists s', fold_opt f s l = Some s' /\ P l s'.
Proof.
  intros H0 Hs. assert (forall done rest s, l = done ++ rest -> P done s -> exists s', fold_opt f s rest = Some s' /\ P l s') as Hgo.
  { intros done_ rest. revert done_. induction rest as [|x rest IH]; intros done_ t El Hp; simpl.
    - exists t. rewrite app_nil_r in El. by subst.
    - destruct (Hs done_ x rest t El Hp) as (t' & -> & Hp'). simpl. apply (IH (done_ ++ [x])); [|done].
      by rewrite <-(assoc_L (++)). }
  apply (Hgo []); done.
Qed.
