(* ===== verification/Board.v ===== *)
(** * The Board lens (gwk-tui/src/board.rs)

    The Board is a pure function of the projection pages its caller read
    ([BoardState]): each of the ten panels is a list of rows, and the keyboard
    walks the targets of those rows.  The rows, the typed summaries the command
    line prints beside them, and the two command builders are modelled; the
    painter that windows the rows into a cell buffer is not.

    The entity records are those of gwk-domain/src/entity.rs.  Ids, timestamps
    and enums the contract leaves open are strings, counts of rows are [nat],
    machine integers are [Z]; [V] is the JSON value of a payload. *)

From S2P Require Import Prelude Text Fsm Envelope Command Ordered Theme Forest.
Import Numeric Tier Marks Styles.

(** ** Entities *)

Record Task := {
  task_id : string; task_version : Z; task_state : TaskState; task_kind : option string;
  task_title : option string; task_spec_ref : option string; task_project : option string;
  task_priority : option Z; task_tracker_ref : option string;
  task_created_at : string; task_updated_at : string;
}.

Record AttemptView := {
  at_id : string; at_version : Z; at_state : AttemptState; at_task_id : string; at_engine : string;
  at_capability : option string; at_role : option string; at_model_lane : option string;
  at_permission_profile : option string; at_worktree_lease_id : option string; at_base_sha : option string;
  at_budget : option Budget; at_provider_session_ref : option string; at_runtime_ref : option string;
  at_runtime_started_at : option string; at_exit_code : option Z; at_provider_terminal_event : option string;
  at_result_valid : option bool; at_evidence_manifest_ref : option string;
  at_created_at : string; at_updated_at : string;
}.

Record EngineSession := {
  es_id : string; es_attempt_id : string; es_engine : string; es_provider_session_ref : option string;
  es_started_at : string; es_ended_at : option string;
}.

Record Message (V : Type) := {
  msg_id : string; msg_version : Z; msg_state : MessageState; msg_idempotency_key : string;
  msg_correlation_id : option string; msg_reply_to : option string; msg_sender : option string;
  msg_recipient : option string; msg_channel : option string; msg_kind : option string;
  msg_payload : option V; msg_deadline : option string; msg_delivery_attempts : Z;
  msg_dead_letter_reason : option string; msg_delivery_refs : option (gmap string string);
  msg_created_at : string; msg_updated_at : string;
}.
Arguments msg_id {V}. Arguments msg_state {V}. Arguments msg_correlation_id {V}. Arguments msg_reply_to {V}.
Arguments msg_sender {V}. Arguments msg_recipient {V}. Arguments msg_kind {V}. Arguments msg_dead_letter_reason {V}.
Arguments msg_created_at {V}. Arguments msg_updated_at {V}.

Record ReceiptView := {
  rcp_id : string; rcp_actor : Actor; rcp_action : string; rcp_subject_type : string; rcp_subject_id : string;
  rcp_from : option string; rcp_to : option string; rcp_observed_basis : option string; rcp_ts : string;
}.

Record CostEntry := {
  cost_id : string; cost_attempt_id : option string; cost_engine_session_id : option string;
  cost_dispatch_node_id : option string; cost_engine : string; cost_model : option string;
  cost_input_tokens : option Z; cost_cached_input_tokens : option Z; cost_cache_write_tokens : option Z;
  cost_output_tokens : option Z; cost_reasoning_tokens : option Z;
  cost_micros : option Z; cost_is_estimate : option bool; cost_recorded_at : string;
}.

Record IngestedRecord (V : Type) := {
  ing_id : string; ing_kind : IngestionKind; ing_payload : V; ing_payload_ref : option PayloadRef;
  ing_ingested_by : option Actor; ing_event_seq : Z; ing_ingested_at : string;
}.
Arguments ing_id {V}. Arguments ing_kind {V}. Arguments ing_event_seq {V}. Arguments ing_ingested_at {V}.

Record AttentionItem := {
  ai_id : string; ai_kind : string; ai_summary : string; ai_subject_ref : option string;
  ai_raised_by : option Actor; ai_priority : option Z; ai_raised_at : string; ai_acked_at : option string;
  ai_muted_until : option string; ai_resolved_at : option string; ai_resolution : option string;
}.

Record Worktree := {
  wt_id : string; wt_repo : string; wt_path : string; wt_branch : string; wt_base_sha : option string;
  wt_lease_id : option string; wt_dirty : bool; wt_unpushed : bool; wt_released_at : option string;
  wt_disposition : option string; wt_created_at : string;
}.

Record WorkflowRun := {
  run_id : string; run_version : Z; run_state : string; run_step : option string; run_template_ref : string;
  run_template_sha256 : option string; run_task_id : option string; run_title : option string;
  run_opened_at : string; run_updated_at : string; run_closed_at : option string;
}.

Inductive LeaseState := LeaseHeld | LeaseReleased | LeaseExpired.

#[export] Instance LeaseState_eq_dec : EqDecision LeaseState.
Proof. solve_decision. Defined.

Record Lease := {
  le_id : string; le_version : Z; le_state : LeaseState; le_mode : LeaseMode; le_holder : option string;
  le_scope : option string; le_repo : option string; le_path : option string; le_branch : option string;
  le_base_sha : option string; le_fence_token : option Z; le_heartbeat_at : option string;
  le_expires_at : option string; le_dirty : bool; le_unpushed : bool; le_disposition : option string;
  le_created_at : string; le_updated_at : string;
}.

Record DispatchNode := {
  dn_id : string; dn_version : Z; dn_parent_id : option string; dn_attempt_id : option string;
  dn_kind : string; dn_state : string; dn_label : option string; dn_created_at : string; dn_updated_at : string;
}.

(** ** The panels *)

Inductive BoardView :=
| VEstate | VActivity | VRuns | VDag | VFlow | VEvents | VReplay | VFleet | VCostHealth | VAudit.

#[export] Instance BoardView_eq_dec : EqDecision BoardView.
Proof. solve_decision. Defined.

(** [BoardView::ALL]. *)
Definition ALL_VIEWS : list BoardView :=
  [VEstate; VActivity; VRuns; VDag; VFlow; VEvents; VReplay; VFleet; VCostHealth; VAudit].

(** [BoardView::as_str]. *)
Definition view_str (v : BoardView) : string :=
  match v with
  | VEstate => "estate" | VActivity => "brief" | VRuns => "run" | VDag => "dag" | VFlow => "flow"
  | VEvents => "events" | VReplay => "replay" | VFleet => "fleet" | VCostHealth => "cost" | VAudit => "audit"
  end.

(** [BoardView::next] and [BoardView::previous]. *)
Definition next_view (v : BoardView) : BoardView :=
  match v with
  | VEstate => VActivity | VActivity => VRuns | VRuns => VDag | VDag => VFlow | VFlow => VEvents
  | VEvents => VReplay | VReplay => VFleet | VFleet => VCostHealth | VCostHealth => VAudit | VAudit => VEstate
  end.
Definition previous_view (v : BoardView) : BoardView :=
  match v with
  | VEstate => VAudit | VActivity => VEstate | VRuns => VActivity | VDag => VRuns | VFlow => VDag
  | VEvents => VFlow | VReplay => VEvents | VFleet => VReplay | VCostHealth => VFleet | VAudit => VCostHealth
  end.

Record EventTail := {
  tail_cursor : option Z; tail_aggregate_type : option string; tail_event_type : option string;
  tail_live : bool; tail_dropped : nat;
}.

(** One change of a recorded terminal (replay.rs). *)
Inductive ReplayFrame :=
| ReplayOutput (seq elapsed_ms : Z) (bytes : list Z)
| ReplayResize (seq elapsed_ms cols rows : Z).

Record BoardState (V : Type) := {
  bs_view : BoardView;
  bs_tasks : list Task;
  bs_runs : list WorkflowRun;
  bs_attempts : list AttemptView;
  bs_nodes : list DispatchNode;
  bs_messages : list (Message V);
  bs_events : list (EventEnvelope V);
  bs_event_tail : EventTail;
  bs_attention : list AttentionItem;
  bs_replay : list ReplayFrame;
  bs_sessions : list EngineSession;
  bs_worktrees : list Worktree;
  bs_leases : list Lease;
  bs_costs : list CostEntry;
  bs_receipts : list ReceiptView;
  bs_ingested : list (IngestedRecord V);
  bs_complete : bool;
  bs_watermark : option Z;
}.
Arguments bs_view {V}. Arguments bs_tasks {V}. Arguments bs_runs {V}. Arguments bs_attempts {V}.
Arguments bs_nodes {V}. Arguments bs_messages {V}. Arguments bs_events {V}. Arguments bs_event_tail {V}.
Arguments bs_attention {V}. Arguments bs_replay {V}. Arguments bs_sessions {V}. Arguments bs_worktrees {V}.
Arguments bs_leases {V}. Arguments bs_costs {V}. Arguments bs_receipts {V}. Arguments bs_ingested {V}.
Arguments bs_complete {V}. Arguments bs_watermark {V}.

Inductive BoardTarget :=
| TTask (id : string) | TWorkflowRun (id : string) | TAttempt (id : string) | TNode (id : string)
| TMessage (id : string) | TEvent (id : string) | TAttention (id : string) | TReplayFrame (seq : Z)
| TSession (id : string) | TWorktree (id : string) | TLease (id : string) | TCost (id : string)
| TIngested (id : string) | TReceipt (id : string).

#[export] Instance BoardTarget_eq_dec : EqDecision BoardTarget.
Proof. solve_decision. Defined.

(** ** The commands a row can issue *)

(** [stop_attempt]. *)
Definition stop_attempt {V} (target : BoardTarget) : option (KernelCommand V) :=
  match target with
  | TAttempt id => Some (IssueCommand ("stop-attempt:" +:+ id) "stop_attempt" [id] None)
  | _ => None
  end.

(** [replace_attempt_budget]. *)
Definition replace_attempt_budget {V} (attempt_id : string) (expected_version : Z) (budget : Budget) : KernelCommand V :=
  UpdateBudget attempt_id expected_version budget.

(** [update_attempt_budget]: at the version the Board read. *)
Definition update_attempt_budget {V} (st : BoardState V) (target : BoardTarget) (budget : Budget) : option (KernelCommand V) :=
  match target with
  | TAttempt id =>
      attempt ← List.find (fun a => String.eqb (at_id a) id) (bs_attempts st);
      Some (replace_attempt_budget id (at_version attempt) budget)
  | _ => None
  end.

(** ** Words and faces *)

(** A count, printed. *)
Definition num (n : nat) : string := to_numeric_text (Z.of_nat n).

(** [str::is_char_boundary], past the start. *)
Definition is_char_boundary (s : string) (i : nat) : bool :=
  match String.get i s with
  | Some c => negb ((128 <=? Str.code c) && (Str.code c <? 192))%Z
  | None => Nat.eqb i (String.length s)
  end.

(** [hhmm]: [get(11..16)], or the whole stamp. *)
Definition hhmm (ts : string) : string :=
  if is_char_boundary ts 11 && is_char_boundary ts 16 then String.substring 11 5 ts else ts.

(** The printed word, and the name of the state binding that colours it. *)
Definition task_face (s : TaskState) : string * string :=
  match s with
  | TaskSubmitted => ("submitted", "queued") | TaskWorking => ("working", "running")
  | TaskInputRequired => ("input required", "needs_attention") | TaskCompleted => ("completed", "done")
  | TaskFailed => ("failed", "failed") | TaskCanceled => ("canceled", "canceled")
  end.
Definition attempt_face (s : AttemptState) : string * string :=
  match s with
  | AttemptQueued => ("queued", "queued") | AttemptLeased => ("leased", "queued")
  | AttemptStarting => ("starting", "starting") | AttemptRunning => ("running", "running")
  | AttemptBlocked => ("blocked", "blocked") | AttemptCanceling => ("canceling", "canceling")
  | AttemptCanceled => ("canceled", "canceled") | AttemptFailed => ("failed", "failed")
  | AttemptUnknown => ("unknown", "unknown") | AttemptSucceeded => ("succeeded", "done")
  end.
Definition message_face (s : MessageState) : string * string :=
  match s with
  | MessageAccepted => ("accepted", "queued") | MessageDelivered => ("delivered", "done")
  | MessageAcknowledged => ("acknowledged", "done") | MessageApplied => ("applied", "done")
  | MessageRejected => ("rejected", "failed") | MessageDeadLetter => ("dead letter", "failed")
  end.
Definition NO_END_RECORDED : string := "no end recorded".
Definition session_face (s : EngineSession) : string * string :=
  match es_ended_at s with Some _ => ("ended", "done") | None => (NO_END_RECORDED, "unknown") end.
Definition worktree_face (w : Worktree) : string * string :=
  match wt_released_at w with Some _ => ("released", "done") | None => ("held", "running") end.
Definition lease_face (s : LeaseState) : string * string :=
  match s with
  | LeaseHeld => ("held", "running") | LeaseReleased => ("released", "done") | LeaseExpired => ("expired", "unknown")
  end.

(** [plural], [duplicate_finding] and [fold_word]. *)
Definition plural (count : nat) (one many : string) : string :=
  num count +:+ " " +:+ (if Nat.eqb count 1 then one else many).
Definition duplicate_finding (count : nat) (what : string) : option string :=
  if Nat.ltb 0 count then
    Some ("+" +:+ num count +:+ " duplicate " +:+ what +:+ " " +:+ (if Nat.eqb count 1 then "id" else "ids") +:+ " -- invalid page")
  else None.
Definition fold_word (complete : bool) : string := if complete then "total" else "at least".

(** ** Rows *)

Record Row := {
  row_indent : Z;
  row_mark : option (string * Style);
  row_text : string;
  row_right : option string;
  row_style : Style;
  row_target : option BoardTarget;
  row_diagnostic : bool;
}.

Definition plain (t : string) (style : Style) : Row :=
  {| row_indent := 0; row_mark := None; row_text := t; row_right := None; row_style := style;
     row_target := None; row_diagnostic := false |}.
Definition diagnostic (t : string) (style : Style) : Row :=
  {| row_indent := 0; row_mark := None; row_text := t; row_right := None; row_style := style;
     row_target := None; row_diagnostic := true |}.

(** A row without a mark. *)
Definition line (indent : Z) (t : string) (right : option string) (style : Style) (target : option BoardTarget) : Row :=
  {| row_indent := indent; row_mark := None; row_text := t; row_right := right; row_style := style;
     row_target := target; row_diagnostic := false |}.

Definition marked (indent : Z) (mark : string) (mark_style : Style) (t : string) (right : option string)
    (style : Style) (target : BoardTarget) : Row :=
  {| row_indent := indent; row_mark := Some (mark, mark_style); row_text := t; row_right := right; row_style := style;
     row_target := Some target; row_diagnostic := false |}.

(** [pinned_block]: the page's findings, then what the log does not carry. *)
Definition pinned_block (findings : list string) (unknowns : list (string * string)) (muted : Style) : list Row :=
  (match findings with
   | [] => []
   | _ => diagnostic ("invalid page -- " +:+ plural (length findings) "finding" "findings") muted
          :: ((fun f => diagnostic f muted) <$> findings)
   end) ++
  (match unknowns with
   | [] => []
   | _ => diagnostic ("unknown -- " +:+ plural (length unknowns) "fact" "facts" +:+ " not in the log") muted
          :: ((fun '(subject, why) => diagnostic ("  " +:+ subject +:+ ": " +:+ why) muted) <$> unknowns)
   end).

(** The findings of the graph panels, in front of everything else. *)
Definition with_findings (findings : list string) (muted : Style) (out : list Row) : list Row :=
  match findings with
  | [] => out
  | _ => diagnostic ("invalid page -- " +:+ num (length findings) +:+ " findings") muted
         :: ((fun f => diagnostic f muted) <$> findings) ++ out
  end.

Definition muted_of (tier : ColorTier) : Style := named_style "idle" tier.

(** ** The dispatch graph *)

Definition task_row (t : Task) (tier : ColorTier) : Row :=
  let '(word, bind) := task_face (task_state t) in
  marked 0 "task" (named_style bind tier) (default (task_id t) (task_title t) +:+ "  " +:+ word)
    (Some (hhmm (task_updated_at t))) (named_style bind tier) (TTask (task_id t)).

Definition attempt_row (a : AttemptView) (indent : Z) (tier : ColorTier) : Row :=
  let '(word, bind) := attempt_face (at_state a) in
  let text := at_engine a +:+ "  " +:+ word in
  let text := match at_role a with Some role => text +:+ "  (" +:+ role +:+ ")" | None => text end in
  marked indent "attempt" (named_style bind tier) text (Some (hhmm (at_updated_at a))) (named_style bind tier) (TAttempt (at_id a)).

Definition node_row (muted : Style) (n : DispatchNode) (indent : Z) : Row :=
  marked indent "dispatch" muted (default (dn_id n) (dn_label n) +:+ "  " +:+ dn_state n +:+ "  (" +:+ dn_kind n +:+ ")")
    None muted (TNode (dn_id n)).

Definition node_leb : DispatchNode -> DispatchNode -> bool := id_leb dn_id.

(** [children_by_parent], sorted. *)
Definition children_by_parent (nodes : list DispatchNode) : gmap (option string * string) (list DispatchNode) :=
  sort_by node_leb <$> group (fun n => (fun p => (dn_attempt_id n, p)) <$> dn_parent_id n) nodes.
Definition children_of (nodes : list DispatchNode) (n : DispatchNode) : list DispatchNode :=
  members (children_by_parent nodes) (dn_attempt_id n, dn_id n).

(** [node_anchors] and [parent_in_same_attempt]. *)
Definition node_anchors (nodes : list DispatchNode) : gset (option string * string) :=
  list_to_set ((fun n => (dn_attempt_id n, dn_id n)) <$> nodes).
Definition parent_in_same_attempt (nodes : list DispatchNode) (n : DispatchNode) : bool :=
  match dn_parent_id n with
  | Some p => bool_decide ((dn_attempt_id n, p) ∈ node_anchors nodes)
  | None => false
  end.

(** [roots_by_attempt], sorted, and [roots_of]. *)
Definition roots_by_attempt (nodes : list DispatchNode) : gmap (option string) (list DispatchNode) :=
  sort_by node_leb <$> group (fun n => if parent_in_same_attempt nodes n then None else Some (dn_attempt_id n)) nodes.
Definition roots_of (nodes : list DispatchNode) (attempt_id : string) : list DispatchNode :=
  members (roots_by_attempt nodes) (Some attempt_id).

(** [conflicting_anchors]. *)
Definition conflicting_anchors (nodes : list DispatchNode) : nat :=
  let node_ids : gset string := list_to_set (dn_id <$> nodes) in
  length (filter (fun n => (match dn_parent_id n with Some p => bool_decide (p ∈ node_ids) | None => false end)
                           && negb (parent_in_same_attempt nodes n) = true) nodes).

(** [spawn_rows]. *)
Definition spawn_rows (nodes roots : list DispatchNode) (base_indent : Z) (muted : Style)
    (st : gset string * list Row) : option (gset string * list Row) :=
  walk_roots dn_id (children_of nodes) (node_row muted) nodes roots base_indent st.

(** [place_attempt]. *)
Definition place_attempt (tier : ColorTier) (nodes : list DispatchNode) (indent : Z)
    (st : gset string * list Row) (a : AttemptView) : option (gset string * list Row) :=
  spawn_rows nodes (roots_of nodes (at_id a)) (indent + INDENT_STEP) (muted_of tier) (st.1, st.2 ++ [attempt_row a indent tier]).

Definition attempt_leb : AttemptView -> AttemptView -> bool := id_leb at_id.

(** [attempts_by_task], sorted. *)
Definition attempts_by_task (attempts : list AttemptView) : gmap string (list AttemptView) :=
  sort_by attempt_leb <$> group (fun a => Some (at_task_id a)) attempts.

(** A task with its attempts. *)
Definition place_task (tier : ColorTier) (nodes : list DispatchNode) (attempts : list AttemptView)
    (st : gset string * list Row) (t : Task) : option (gset string * list Row) :=
  fold_opt (place_attempt tier nodes INDENT_STEP) (st.1, st.2 ++ [task_row t tier]) (members (attempts_by_task attempts) (task_id t)).

(** [BTreeMap] order of an optional key: the absent one first. *)
Definition opt_leb (x y : option string) : bool :=
  match x, y with None, _ => true | Some _, None => false | Some a, Some b => String.leb a b end.

Definition orphan_attempts (tasks : list Task) (attempts : list AttemptView) : list AttemptView :=
  by_id at_id (filter (fun a => at_task_id a ∉ task_id <$> tasks) attempts).
Definition orphan_node_roots (attempts : list AttemptView) (nodes : list DispatchNode) : list DispatchNode :=
  let attempt_ids : gset string := list_to_set (at_id <$> attempts) in
  sort_by (fun x y => opt_leb x.1 y.1) (map_to_list (roots_by_attempt nodes)) ≫= fun '(k, roots) =>
    if match k with Some a => bool_decide (a ∈ attempt_ids) | None => false end then [] else roots.

(** [running_count]. *)
Definition running_count (attempts : list AttemptView) : nat :=
  length (filter (fun a => at_state a = AttemptRunning) (unique_by_id at_id attempts).1).

(** The body of [dag_rows]: what is placed and the rows, before the findings. *)
Definition dag_body (tier : ColorTier) (tasks : list Task) (attempts : list AttemptView) (nodes : list DispatchNode)
    (running : nat) : option (gset string * list Row) :=
  let muted := muted_of tier in
  st ← fold_opt (place_task tier nodes attempts)
         (∅, [plain (num (length tasks) +:+ " tasks  " +:+ num running +:+ " running") muted]) (by_id task_id tasks);
  let orphans := orphan_attempts tasks attempts in
  let orphan_roots := orphan_node_roots attempts nodes in
  match orphans, orphan_roots with
  | [], [] => Some st
  | _, _ =>
      st ← fold_opt (place_attempt tier nodes INDENT_STEP)
             (st.1, st.2 ++ [plain "off-page -- parents beyond this page" muted]) orphans;
      spawn_rows nodes orphan_roots INDENT_STEP muted st
  end.

(** What the page got wrong, in words. *)
Definition dag_findings (unplaced conflicting duplicates : nat) : list string :=
  (if Nat.ltb 0 unplaced then ["+" +:+ num unplaced +:+ " unplaced -- parent cycle"] else []) ++
  (if Nat.ltb 0 conflicting then
     ["+" +:+ num conflicting +:+ " conflicting " +:+ (if Nat.eqb conflicting 1 then "anchor" else "anchors") +:+ " -- invalid page"]
   else []) ++
  (if Nat.ltb 0 duplicates then
     ["+" +:+ num duplicates +:+ " duplicate " +:+ (if Nat.eqb duplicates 1 then "id" else "ids") +:+ " -- invalid page"]
   else []).

Definition count_unplaced {A} (id : A -> string) (placed : gset string) (items : list A) : nat :=
  length (filter (fun x => id x ∉ placed) items).

(** [dag_rows]. *)
Definition dag_rows {V} (st : BoardState V) (tier : ColorTier) : option (list Row) :=
  let muted := muted_of tier in
  match bs_tasks st, bs_attempts st, bs_nodes st with
  | [], [], [] => Some [plain "nothing on the board -- no work dispatched" muted]
  | _, _, _ =>
      let '(tasks, duplicate_tasks) := unique_by_id task_id (bs_tasks st) in
      let '(attempts, duplicate_attempts) := unique_by_id at_id (bs_attempts st) in
      let '(nodes, duplicate_nodes) := unique_by_id dn_id (bs_nodes st) in
      '(placed, out) ← dag_body tier tasks attempts nodes (running_count (bs_attempts st));
      Some (with_findings
        (dag_findings (count_unplaced dn_id placed nodes) (conflicting_anchors nodes)
           (duplicate_tasks + duplicate_attempts + duplicate_nodes))
        muted out)
  end.

(** ** Message flows *)

Section Flow.
Context {V : Type}.

Definition message_row (tier : ColorTier) (m : Message V) (indent : Z) : Row :=
  let '(word, bind) := message_face (msg_state m) in
  let text := default "?" (msg_sender m) +:+ " -> " +:+ default "?" (msg_recipient m) +:+ "  " +:+
              default "message" (msg_kind m) +:+ "  " +:+ word in
  let text := match msg_dead_letter_reason m with Some reason => text +:+ " -- " +:+ reason | None => text end in
  marked indent "message" (named_style bind tier) text (Some (hhmm (msg_updated_at m))) (named_style bind tier) (TMessage (msg_id m)).

(** [arrival_order]. *)
Definition arrival_leb : Message V -> Message V -> bool :=
  lex (fun x y => String.leb (msg_created_at x) (msg_created_at y)) (id_leb msg_id).

Definition replies_by_parent (messages : list (Message V)) : gmap string (list (Message V)) :=
  sort_by arrival_leb <$> group msg_reply_to messages.
Definition replies_of (messages : list (Message V)) (m : Message V) : list (Message V) :=
  members (replies_by_parent messages) (msg_id m).

(** A message roots a thread when its reply target is not on the page. *)
Definition replies_on_page (messages : list (Message V)) (m : Message V) : bool :=
  match msg_reply_to m with
  | Some p => bool_decide (p ∈ (list_to_set (msg_id <$> messages) : gset string))
  | None => false
  end.
Definition thread_roots (messages : list (Message V)) : list (Message V) :=
  filter (fun m => replies_on_page messages m = false) messages.

Definition thread (tier : ColorTier) (messages : list (Message V)) (base_indent : Z)
    (st : gset string * list Row) (root : Message V) : option (gset string * list Row) :=
  walk_roots msg_id (replies_of messages) (message_row tier) messages [root] base_indent st.

(** A correlated group under its heading. *)
Definition place_flow (tier : ColorTier) (messages : list (Message V))
    (st : gset string * list Row) (flow : string * list (Message V)) : option (gset string * list Row) :=
  fold_opt (thread tier messages INDENT_STEP) (st.1, st.2 ++ [plain ("flow " +:+ flow.1) (muted_of tier)]) (sort_by arrival_leb flow.2).

Definition flow_body (tier : ColorTier) (messages : list (Message V)) : option (gset string * list Row) :=
  let roots := thread_roots messages in
  let correlated := group msg_correlation_id roots in
  let standalone := filter (fun m => msg_correlation_id m = None) roots in
  let header := plain (num (size correlated + length standalone) +:+ " flows  " +:+ num (length messages) +:+ " messages") (muted_of tier) in
  st ← fold_opt (place_flow tier messages) (∅, [header]) (btree_iter correlated);
  fold_opt (thread tier messages 0) st (sort_by arrival_leb standalone).

Definition flow_findings (unthreaded duplicates : nat) : list string :=
  (if Nat.ltb 0 unthreaded then ["+" +:+ num unthreaded +:+ " unthreaded -- reply cycle"] else []) ++
  (if Nat.ltb 0 duplicates then
     ["+" +:+ num duplicates +:+ " duplicate " +:+ (if Nat.eqb duplicates 1 then "id" else "ids") +:+ " -- invalid page"]
   else []).

(** [flow_rows]. *)
Definition flow_rows (st : BoardState V) (tier : ColorTier) : option (list Row) :=
  let muted := muted_of tier in
  match bs_messages st with
  | [] => Some [plain "no message flows -- nothing sent" muted]
  | _ =>
      let '(messages, duplicates) := unique_by_id msg_id (bs_messages st) in
      '(placed, out) ← flow_body tier messages;
      Some (with_findings (flow_findings (count_unplaced msg_id placed messages) duplicates) muted out)
  end.
End Flow.
