(* ===== verification/Panels.v ===== *)
(** * The Board's ledgers and summaries (gwk-tui/src/board.rs)

    The panels that list or fold a ledger: workflow runs, the event tail, the
    replay frames, the fleet, cost and health, the audit ledger, and the two
    summaries (estate and activity) with the typed values the command line
    prints beside them.  [rows] chooses the panel; [target_order] is the walk of
    the keyboard. *)

From Stdlib Require Import DecimalString.
From S2P Require Import Prelude Text Fsm Envelope Command Ordered Theme Forest Board.
Import Numeric Tier Marks Styles.

(** Newest first, ties by id. *)
Definition newest_leb {A} (at_ id : A -> string) : A -> A -> bool :=
  lex (fun x y => String.leb (at_ y) (at_ x)) (id_leb id).

Definition u128_max : Z := 340282366920938463463374607431768211455.
(** [u128::saturating_add]. *)
Definition saturating_add_u128 (a b : Z) : Z := Z.min (a + b) u128_max.

(** The options that are there. *)
Definition flatten {A} (l : list (option A)) : list A := omap (fun x => x) l.

(** ** Workflow runs *)

Definition workflow_run_row (tier : ColorTier) (run : WorkflowRun) : Row :=
  let live := match run_closed_at run with None => true | Some _ => false end in
  let bind :=
    if live then "running"
    else if String.eqb (run_state run) "completed" then "done"
    else if String.eqb (run_state run) "failed" then "failed"
    else if String.eqb (run_state run) "canceled" then "canceled"
    else "unknown" in
  let label := default (run_id run) (run_title run) in
  let step := match run_step run with None => "step absent" | Some step => "step " +:+ step end in
  let text :=
    if live then label +:+ "  " +:+ run_state run +:+ "  " +:+ step
    else label +:+ "  outcome " +:+ run_state run +:+ "  " +:+ step in
  let right :=
    match run_closed_at run with
    | None => "updated " +:+ hhmm (run_updated_at run)
    | Some closed => "closed " +:+ hhmm closed
    end in
  line INDENT_STEP text (Some right) (named_style bind tier) (Some (TWorkflowRun (run_id run))).

(** [workflow_run_rows]. *)
Definition workflow_run_rows {V} (st : BoardState V) (tier : ColorTier) : list Row :=
  let muted := muted_of tier in
  let '(runs, duplicates) := unique_by_id run_id (bs_runs st) in
  let runs := sort_by (newest_leb run_updated_at run_id) runs in
  let out := pinned_block (flatten [duplicate_finding duplicates "workflow run"])
    (if bs_complete st then [] else [("run ledger", "read short of the last page -- rows are a prefix")]) muted in
  match runs with
  | [] => out ++ [plain "no workflow runs -- no run history on this page" muted]
  | _ =>
      let live := filter (fun r => run_closed_at r = None) runs in
      let closed := filter (fun r => run_closed_at r <> None) runs in
      out ++ [plain (plural (length runs) "workflow run" "workflow runs" +:+ "  " +:+ fold_word (bs_complete st)) muted]
      ++ match live with [] => [] | _ => plain "live" muted :: (workflow_run_row tier <$> live) end
      ++ match closed with [] => [] | _ => plain "history" muted :: (workflow_run_row tier <$> closed) end
  end.

(** ** The event tail *)

(** The filters of the tail. *)
Definition tail_keeps {V} (tail : EventTail) (e : EventEnvelope V) : bool :=
  match tail_cursor tail with None => true | Some c => (c <? global_sequence e)%Z end
  && match tail_aggregate_type tail with None => true | Some k => String.eqb (aggregate_type e) k end
  && match tail_event_type tail with None => true | Some k => String.eqb (event_type e) k end.

Definition event_leb {V} : EventEnvelope V -> EventEnvelope V -> bool :=
  lex (fun x y => (global_sequence y <=? global_sequence x)%Z) (id_leb event_id).

Definition event_row {V} (e : EventEnvelope V) : Row :=
  line INDENT_STEP
    ("#" +:+ to_numeric_text (global_sequence e) +:+ "  " +:+ hhmm (appended_at e) +:+ "  " +:+ event_type e +:+ "  " +:+
     aggregate_type e +:+ "/" +:+ aggregate_id e)
    (Some (event_id e)) style_default (Some (TEvent (event_id e))).

(** The events the panel lists. *)
Definition tail_events {V} (st : BoardState V) : list (EventEnvelope V) :=
  sort_by event_leb (filter (fun e => tail_keeps (bs_event_tail st) e = true) (unique_by_id event_id (bs_events st)).1).

(** [event_rows]. *)
Definition event_rows {V} (st : BoardState V) (tier : ColorTier) : list Row :=
  let muted := muted_of tier in
  let tail := bs_event_tail st in
  let events := tail_events st in
  let out := pinned_block (flatten [duplicate_finding (unique_by_id event_id (bs_events st)).2 "event"])
    (if Nat.ltb 0 (tail_dropped tail)
     then [("tail buffer", plural (tail_dropped tail) "older event" "older events" +:+
            " removed from memory -- resume from a visible sequence")]
     else []) muted in
  let cursor := match tail_cursor tail with None => "beginning" | Some c => to_numeric_text c end in
  let header := plain (plural (length events) "event" "events" +:+ "  " +:+ (if tail_live tail then "live" else "page") +:+
    " after " +:+ cursor +:+ "  filter aggregate=" +:+ default "*" (tail_aggregate_type tail) +:+
    " event=" +:+ default "*" (tail_event_type tail)) muted in
  match events with
  | [] => out ++ [header; plain (if tail_live tail then "no matching events delivered -- tail is waiting"
                                 else "no matching events on this page") muted]
  | _ => out ++ [header] ++ (event_row <$> events)
  end.

(** ** Replay frames *)

Definition OUTPUT_PREVIEW_BYTES : nat := 64.

(** [replay_seq] and [replay_elapsed_ms]. *)
Definition replay_seq (f : ReplayFrame) : Z := match f with ReplayOutput s _ _ | ReplayResize s _ _ _ => s end.
Definition replay_elapsed_ms (f : ReplayFrame) : Z := match f with ReplayOutput _ e _ | ReplayResize _ e _ _ => e end.

(** [String::from_utf8_lossy]: every maximal piece of an ill-formed sequence
    becomes U+FFFD. *)
Definition within (lo hi b : Z) : bool := ((lo <=? b) && (b <=? hi))%Z.
Definition fffd : list Z := [239; 191; 189]%Z.
Fixpoint from_utf8_lossy (l : list Z) : list Z :=
  match l with
  | [] => []
  | b0 :: l1 =>
      if within 0 127 b0 then b0 :: from_utf8_lossy l1
      else if within 194 223 b0 then
        match l1 with
        | b1 :: l2 => if within 128 191 b1 then b0 :: b1 :: from_utf8_lossy l2 else fffd ++ from_utf8_lossy l1
        | [] => fffd
        end
      else if within 224 239 b0 then
        match l1 with
        | b1 :: l2 =>
            if within (if (b0 =? 224)%Z then 160 else 128) (if (b0 =? 237)%Z then 159 else 191) b1 then
              match l2 with
              | b2 :: l3 => if within 128 191 b2 then b0 :: b1 :: b2 :: from_utf8_lossy l3 else fffd ++ from_utf8_lossy l2
              | [] => fffd
              end
            else fffd ++ from_utf8_lossy l1
        | [] => fffd
        end
      else if within 240 244 b0 then
        match l1 with
        | b1 :: l2 =>
            if within (if (b0 =? 240)%Z then 144 else 128) (if (b0 =? 244)%Z then 143 else 191) b1 then
              match l2 with
              | b2 :: l3 =>
                  if within 128 191 b2 then
                    match l3 with
                    | b3 :: l4 =>
                        if within 128 191 b3 then b0 :: b1 :: b2 :: b3 :: from_utf8_lossy l4 else fffd ++ from_utf8_lossy l3
                    | [] => fffd
                    end
                  else fffd ++ from_utf8_lossy l2
              | [] => fffd
              end
            else fffd ++ from_utf8_lossy l1
        | [] => fffd
        end
      else fffd ++ from_utf8_lossy l1
  end.

Fixpoint string_of_bytes (l : list Z) : string :=
  match l with [] => EmptyString | b :: l => String (Ascii.ascii_of_N (Z.to_N b)) (string_of_bytes l) end.

(** [output_preview]. *)
Definition output_preview (bytes : list Z) : string :=
  match bytes with
  | [] => "(empty)"
  | _ =>
      let visible := Nat.min (length bytes) OUTPUT_PREVIEW_BYTES in
      let preview := string_of_bytes (from_utf8_lossy (take visible bytes)) in
      if Nat.ltb visible (length bytes) then preview +:+ "... (+" +:+ num (length bytes - visible) +:+ " bytes)" else preview
  end.

Definition replay_row (f : ReplayFrame) : Row :=
  let text :=
    match f with
    | ReplayOutput _ e bytes =>
        to_numeric_text e +:+ "ms  output  " +:+ num (length bytes) +:+ " bytes  " +:+ output_preview bytes
    | ReplayResize _ e cols rows => to_numeric_text e +:+ "ms  resize  " +:+ to_numeric_text cols +:+ "x" +:+ to_numeric_text rows
    end in
  line 0 text (Some ("seq " +:+ to_numeric_text (replay_seq f))) style_default (Some (TReplayFrame (replay_seq f))).

(** [replay_rows]. *)
Definition replay_rows {V} (st : BoardState V) (tier : ColorTier) : list Row :=
  let muted := muted_of tier in
  match bs_replay st with
  | [] => [plain "no replay frames -- nothing recorded" muted]
  | frames =>
      let span := match last frames with Some f => replay_elapsed_ms f | None => 0%Z end in
      plain (num (length frames) +:+ " replay frames  " +:+ to_numeric_text span +:+ "ms span") muted :: (replay_row <$> frames)
  end.

(** ** Attention, activity and debt *)

Definition SUMMARY_ROWS : nat := 5.

(** [summary_findings]. *)
Definition summary_findings {V} (st : BoardState V) (include_cost : bool) : list string :=
  flatten [
    duplicate_finding (unique_by_id task_id (bs_tasks st)).2 "task";
    duplicate_finding (unique_by_id at_id (bs_attempts st)).2 "attempt";
    duplicate_finding (unique_by_id ai_id (bs_attention st)).2 "attention item";
    duplicate_finding (unique_by_id wt_id (bs_worktrees st)).2 "worktree";
    duplicate_finding (unique_by_id le_id (bs_leases st)).2 "lease";
    if include_cost then duplicate_finding (unique_by_id cost_id (bs_costs st)).2 "cost entry" else None].

(** P0 first, the unranked last. *)
Definition priority_leb (x y : AttentionItem) : bool :=
  match ai_priority x, ai_priority y with
  | Some a, Some b => (a <=? b)%Z
  | Some _, None => true
  | None, Some _ => false
  | None, None => true
  end.

(** [ranked_attention]. *)
Definition ranked_attention (items : list AttentionItem) : list AttentionItem :=
  sort_by (lex priority_leb (id_leb ai_id)) (filter (fun i => ai_resolved_at i = None) (unique_by_id ai_id items).1).

Record ActivityFact := { af_at : string; af_kind : string; af_id : string; af_summary : string }.
Record OwedFact := { of_kind : string; of_id : string; of_reason : string }.

Definition fact_leb : ActivityFact -> ActivityFact -> bool :=
  lex (fun x y => String.leb (af_at y) (af_at x))
    (lex (fun x y => String.leb (af_kind x) (af_kind y)) (fun x y => String.leb (af_id x) (af_id y))).

(** Every recorded change of the pages, unsorted. *)
Definition activity_facts {V} (st : BoardState V) : list ActivityFact :=
  ((fun t => {| af_at := task_updated_at t; af_kind := "task"; af_id := task_id t;
                af_summary := default "untitled" (task_title t) +:+ "  " +:+ (task_face (task_state t)).1 |})
     <$> (unique_by_id task_id (bs_tasks st)).1) ++
  ((fun a => {| af_at := at_updated_at a; af_kind := "attempt"; af_id := at_id a;
                af_summary := at_engine a +:+ "  " +:+ (attempt_face (at_state a)).1 |})
     <$> (unique_by_id at_id (bs_attempts st)).1) ++
  ((fun i => {| af_at := default (ai_raised_at i) (ai_resolved_at i); af_kind := "attention_item"; af_id := ai_id i;
                af_summary := (match ai_resolved_at i with Some _ => "resolved" | None => "raised" end) +:+ "  " +:+ ai_summary i |})
     <$> (unique_by_id ai_id (bs_attention st)).1) ++
  ((fun w => {| af_at := default (wt_created_at w) (wt_released_at w); af_kind := "worktree"; af_id := wt_id w;
                af_summary := wt_repo w +:+ "  " +:+ wt_branch w +:+ "  " +:+ (worktree_face w).1 |})
     <$> (unique_by_id wt_id (bs_worktrees st)).1) ++
  ((fun l => {| af_at := le_updated_at l; af_kind := "lease"; af_id := le_id l;
                af_summary := default "unnamed scope" (le_scope l) +:+ "  " +:+ (lease_face (le_state l)).1 |})
     <$> (unique_by_id le_id (bs_leases st)).1).

(** [recent_activity]. *)
Definition recent_activity {V} (st : BoardState V) : list ActivityFact :=
  take SUMMARY_ROWS (sort_by fact_leb (activity_facts st)).

Record CostHeadline := {
  ch_entries : nat; ch_priced_entries : nat; ch_unpriced_entries : nat; ch_estimated_entries : nat;
  ch_cost_micros : option string;
}.

(** The loop of [cost_headline]: micros, priced and estimated rows. *)
Definition price (acc : Z * nat * nat) (c : CostEntry) : Z * nat * nat :=
  let '(micros, priced, estimated) := acc in
  let estimated := estimated + (if bool_decide (cost_is_estimate c = Some true) then 1 else 0) in
  match cost_micros c with
  | Some v => (saturating_add_u128 micros v, S priced, estimated)
  | None => (micros, priced, estimated)
  end.

(** [cost_headline]. *)
Definition cost_headline (costs : list CostEntry) : CostHeadline :=
  let costs := (unique_by_id cost_id costs).1 in
  let '(micros, priced, estimated) := foldl price (0%Z, 0, 0) costs in
  {| ch_entries := length costs; ch_priced_entries := priced; ch_unpriced_entries := length costs - priced;
     ch_estimated_entries := estimated;
     ch_cost_micros := if Nat.ltb 0 priced then Some (to_numeric_text micros) else None |}.

Record AttemptBudget := {
  ab_kind : string; ab_attempt_id : string; ab_version : Z; ab_budget : option Budget; ab_uncapped_axes : list string;
}.

(** An axis no budget caps. *)
Definition uncapped (budget : option Budget) (axis : Budget -> option Z) : bool :=
  match budget with None => true | Some b => match axis b with None => true | Some _ => false end end.

(** [attempt_budget]. *)
Definition attempt_budget (a : AttemptView) : AttemptBudget :=
  let b := at_budget a in
  {| ab_kind := "attempt_budget"; ab_attempt_id := at_id a; ab_version := at_version a; ab_budget := b;
     ab_uncapped_axes :=
       (if uncapped b max_tokens then ["max_tokens"] else []) ++
       (if uncapped b max_tool_calls then ["max_tool_calls"] else []) ++
       (if uncapped b max_wall_ms then ["max_wall_ms"] else []) ++
       (if uncapped b max_cost_micros then ["max_cost_micros"] else []) |}.

Record EstateCounts := {
  ec_tasks : nat; ec_active_tasks : nat; ec_attempts : nat; ec_running_attempts : nat;
  ec_unresolved_attention : nat; ec_held_worktrees : nat; ec_held_leases : nat;
}.
Record AttentionHead := {
  ah_id : string; ah_summary : string; ah_priority : option Z; ah_subject_ref : option string;
  ah_raised_at : string; ah_acked_at : option string; ah_muted_until : option string;
}.
Record EstateOverview := {
  eo_kind : string; eo_complete : bool; eo_watermark : option Z; eo_counts : EstateCounts;
  eo_attention_head : option AttentionHead; eo_recent_activity : list ActivityFact;
  eo_findings : list string; eo_unknowns : list string;
}.

Definition task_active (s : TaskState) : bool :=
  match s with TaskSubmitted | TaskWorking | TaskInputRequired => true | _ => false end.

Definition held_worktrees (l : list Worktree) : nat := length (filter (fun w => wt_released_at w = None) l).
Definition held_leases (l : list Lease) : nat := length (filter (fun l => le_state l = LeaseHeld) l).
Definition running_in (l : list AttemptView) : nat := length (filter (fun a => at_state a = AttemptRunning) l).

(** [estate_overview]. *)
Definition estate_overview {V} (st : BoardState V) : EstateOverview :=
  let tasks := (unique_by_id task_id (bs_tasks st)).1 in
  let attempts := (unique_by_id at_id (bs_attempts st)).1 in
  let attention := ranked_attention (bs_attention st) in
  let worktrees := (unique_by_id wt_id (bs_worktrees st)).1 in
  let leases := (unique_by_id le_id (bs_leases st)).1 in
  {| eo_kind := "estate_overview"; eo_complete := bs_complete st; eo_watermark := bs_watermark st;
     eo_counts := {|
       ec_tasks := length tasks;
       ec_active_tasks := length (filter (fun t => task_active (task_state t) = true) tasks);
       ec_attempts := length attempts;
       ec_running_attempts := running_in attempts;
       ec_unresolved_attention := length attention;
       ec_held_worktrees := held_worktrees worktrees;
       ec_held_leases := held_leases leases |};
     eo_attention_head :=
       (fun i => {| ah_id := ai_id i; ah_summary := ai_summary i; ah_priority := ai_priority i;
                    ah_subject_ref := ai_subject_ref i; ah_raised_at := ai_raised_at i; ah_acked_at := ai_acked_at i;
                    ah_muted_until := ai_muted_until i |}) <$> List.head attention;
     eo_recent_activity := recent_activity st;
     eo_findings := summary_findings st false;
     eo_unknowns := if bs_complete st then [] else ["read short of the last projection page -- counts are floors"] |}.

Record ActivityBrief := {
  br_kind : string; br_complete : bool; br_watermark : option Z; br_happened : list ActivityFact;
  br_owed_total : nat; br_owed : list OwedFact; br_cost : CostHeadline;
  br_findings : list string; br_unknowns : list string;
}.

Definition owed_leb : OwedFact -> OwedFact -> bool :=
  lex (fun x y => String.leb (of_kind x) (of_kind y)) (fun x y => String.leb (of_id x) (of_id y)).

(** Every open debt of the pages, unsorted. *)
Definition owed_facts {V} (st : BoardState V) : list OwedFact :=
  ((fun i => {| of_kind := "attention_item"; of_id := ai_id i; of_reason := ai_summary i |}) <$> ranked_attention (bs_attention st)) ++
  ((fun t => {| of_kind := "task"; of_id := task_id t; of_reason := "input required" |})
     <$> filter (fun t => task_state t = TaskInputRequired) (unique_by_id task_id (bs_tasks st)).1) ++
  ((fun a => {| of_kind := "attempt"; of_id := at_id a; of_reason := "blocked" |})
     <$> filter (fun a => at_state a = AttemptBlocked) (unique_by_id at_id (bs_attempts st)).1) ++
  ((fun w => {| of_kind := "worktree"; of_id := wt_id w;
                of_reason := match wt_dirty w, wt_unpushed w with
                             | true, true => "held, dirty, and unpushed"
                             | true, false => "held and dirty"
                             | false, true => "held and unpushed"
                             | false, false => "held"
                             end |})
     <$> filter (fun w => wt_released_at w = None /\ wt_dirty w || wt_unpushed w = true) (unique_by_id wt_id (bs_worktrees st)).1).

(** [activity_brief]. *)
Definition activity_brief {V} (st : BoardState V) : ActivityBrief :=
  let owed := sort_by owed_leb (owed_facts st) in
  {| br_kind := "activity_brief"; br_complete := bs_complete st; br_watermark := bs_watermark st;
     br_happened := recent_activity st; br_owed_total := length owed; br_owed := take SUMMARY_ROWS owed;
     br_cost := cost_headline (bs_costs st); br_findings := summary_findings st true;
     br_unknowns := if bs_complete st then []
                    else ["read short of the last projection page -- activity and debt are page-scoped"] |}.

(** [fact_target] and [owed_target]. *)
Definition fact_target (f : ActivityFact) : option BoardTarget :=
  if String.eqb (af_kind f) "task" then Some (TTask (af_id f))
  else if String.eqb (af_kind f) "attempt" then Some (TAttempt (af_id f))
  else if String.eqb (af_kind f) "attention_item" then Some (TAttention (af_id f))
  else if String.eqb (af_kind f) "worktree" then Some (TWorktree (af_id f))
  else if String.eqb (af_kind f) "lease" then Some (TLease (af_id f))
  else None.
Definition owed_target (f : OwedFact) : option BoardTarget :=
  if String.eqb (of_kind f) "task" then Some (TTask (of_id f))
  else if String.eqb (of_kind f) "attempt" then Some (TAttempt (of_id f))
  else if String.eqb (of_kind f) "attention_item" then Some (TAttention (of_id f))
  else if String.eqb (of_kind f) "worktree" then Some (TWorktree (of_id f))
  else None.

Definition fact_row (f : ActivityFact) : Row :=
  line INDENT_STEP (af_kind f +:+ "  " +:+ af_summary f) (Some (hhmm (af_at f))) style_default (fact_target f).

(** [estate_rows]. *)
Definition estate_rows {V} (st : BoardState V) (tier : ColorTier) : list Row :=
  let muted := muted_of tier in
  let summary := estate_overview st in
  let counts := eo_counts summary in
  pinned_block (eo_findings summary) ((fun why => ("snapshot", why)) <$> eo_unknowns summary) muted ++
  [plain (plural (ec_tasks counts) "task" "tasks" +:+ "  " +:+ num (ec_active_tasks counts) +:+ " active  " +:+
          plural (ec_attempts counts) "attempt" "attempts" +:+ "  " +:+ num (ec_running_attempts counts) +:+ " running") muted;
   plain (plural (ec_unresolved_attention counts) "unresolved attention item" "unresolved attention items" +:+ "  " +:+
          plural (ec_held_worktrees counts) "worktree" "worktrees" +:+ " held  " +:+
          plural (ec_held_leases counts) "lease" "leases" +:+ " held") muted;
   plain "attention head" muted] ++
  (match eo_attention_head summary with
   | Some head => [line INDENT_STEP (ah_summary head) (Some (ah_id head)) (named_style "needs_attention" tier) (Some (TAttention (ah_id head)))]
   | None => [plain "  none unresolved on this page" muted]
   end) ++
  [plain "recent activity" muted] ++
  (match eo_recent_activity summary with
   | [] => [plain "  no projection activity on this page" muted]
   | facts => fact_row <$> facts
   end).

(** The cost line of the activity panel. *)
Definition cost_line (cost : CostHeadline) : string :=
  if Nat.eqb (ch_entries cost) 0 then "cost  no entries -- no spend recorded on this page"
  else "cost  " +:+ plural (ch_entries cost) "entry" "entries" +:+ "  " +:+ num (ch_priced_entries cost) +:+ " priced  " +:+
       num (ch_unpriced_entries cost) +:+ " unpriced  " +:+
       match ch_cost_micros cost with None => "no cost reported" | Some value => value +:+ " micros" end.

(** [activity_rows]. *)
Definition activity_rows {V} (st : BoardState V) (tier : ColorTier) : list Row :=
  let muted := muted_of tier in
  let summary := activity_brief st in
  pinned_block (br_findings summary) ((fun why => ("snapshot", why)) <$> br_unknowns summary) muted ++
  [plain "what happened" muted] ++
  (match br_happened summary with
   | [] => [plain "  no recorded changes on this page" muted]
   | facts => fact_row <$> facts
   end) ++
  [plain ("what is owed  " +:+ plural (br_owed_total summary) "fact" "facts") muted] ++
  (match br_owed summary with
   | [] => [plain "  nothing owed by these projections" muted]
   | facts => (fun f => line INDENT_STEP (of_kind f +:+ " " +:+ of_id f +:+ "  " +:+ of_reason f) None
                          (named_style "needs_attention" tier) (owed_target f)) <$> facts
   end) ++
  [plain (cost_line (br_cost summary)) muted].

(** ** The fleet *)

Record FleetCounts := {
  fc_sessions : nat; fc_unended_sessions : nat; fc_running_attempts : nat; fc_attempts_without_session : nat;
  fc_spawns : nat; fc_held_worktrees : nat; fc_held_leases : nat;
}.
Record AgentFleet := {
  fl_kind : string; fl_complete : bool; fl_watermark : option Z; fl_counts : FleetCounts;
  fl_sessions : list EngineSession; fl_dispatch_nodes : list DispatchNode; fl_worktrees : list Worktree;
  fl_leases : list Lease; fl_findings : list string; fl_unknowns : list (string * string);
}.

(** [agent_fleet]. *)
Definition agent_fleet {V} (st : BoardState V) : AgentFleet :=
  let '(sessions, duplicate_sessions) := unique_by_id es_id (bs_sessions st) in
  let '(worktrees, duplicate_worktrees) := unique_by_id wt_id (bs_worktrees st) in
  let '(leases, duplicate_leases) := unique_by_id le_id (bs_leases st) in
  let attempts := (unique_by_id at_id (bs_attempts st)).1 in
  let nodes := (unique_by_id dn_id (bs_nodes st)).1 in
  let unended := length (filter (fun s => es_ended_at s = None) sessions) in
  let bound : gset string := list_to_set (es_attempt_id <$> sessions) in
  let without := length (filter (fun a => at_state a = AttemptRunning /\ at_id a ∉ bound) attempts) in
  {| fl_kind := "agent_fleet"; fl_complete := bs_complete st; fl_watermark := bs_watermark st;
     fl_counts := {|
       fc_sessions := length sessions; fc_unended_sessions := unended; fc_running_attempts := running_in attempts;
       fc_attempts_without_session := without; fc_spawns := length nodes;
       fc_held_worktrees := held_worktrees worktrees; fc_held_leases := held_leases leases |};
     fl_sessions := sessions; fl_dispatch_nodes := nodes; fl_worktrees := worktrees; fl_leases := leases;
     fl_findings := flatten [duplicate_finding duplicate_sessions "session"; duplicate_finding duplicate_worktrees "worktree";
                             duplicate_finding duplicate_leases "lease"];
     fl_unknowns :=
       (if Nat.ltb 0 unended
        then [("liveness", "no end stamp on " +:+ num unended +:+ " of " +:+ plural (length sessions) "session" "sessions" +:+ " -- unended is not alive")]
        else []) ++
       (if Nat.ltb 0 without
        then [("engine binding", "none on this page for " +:+ plural without "running attempt" "running attempts")] else []) ++
       (if bs_complete st then [] else [("fleet size", "read short of the last page -- counts are floors")]) |}.

Definition session_row (tier : ColorTier) (s : EngineSession) : Row :=
  let '(word, bind) := session_face s in
  line INDENT_STEP (es_engine s +:+ "  " +:+ word +:+ "  started " +:+ hhmm (es_started_at s) +:+ "  attempt " +:+ es_attempt_id s)
    (Some (es_id s)) (named_style bind tier) (Some (TSession (es_id s))).

Definition worktree_row (tier : ColorTier) (w : Worktree) : Row :=
  let '(word, bind) := worktree_face w in
  line INDENT_STEP (wt_repo w +:+ "  " +:+ wt_branch w +:+ "  " +:+ word +:+ (if wt_dirty w then "  dirty" else "")
                    +:+ (if wt_unpushed w then "  unpushed" else ""))
    (Some (wt_id w)) (named_style bind tier) (Some (TWorktree (wt_id w))).

Definition lease_row (tier : ColorTier) (l : Lease) : Row :=
  let '(word, bind) := lease_face (le_state l) in
  line INDENT_STEP ((match le_mode l with LeaseExclusive => "exclusive" | LeaseShared => "shared" end) +:+ "  " +:+ word +:+
                    "  holder " +:+ default "unnamed" (le_holder l) +:+ "  scope " +:+ default "unnamed" (le_scope l))
    (Some (le_id l)) (named_style bind tier) (Some (TLease (le_id l))).

(** [fleet_rows]. *)
Definition fleet_rows {V} (st : BoardState V) (tier : ColorTier) : list Row :=
  let muted := muted_of tier in
  let summary := agent_fleet st in
  let counts := fl_counts summary in
  pinned_block (fl_findings summary) (fl_unknowns summary) muted ++
  [plain (plural (fc_sessions counts) "session" "sessions" +:+ "  " +:+ plural (fc_running_attempts counts) "attempt" "attempts" +:+
          " running  " +:+ plural (fc_held_worktrees counts) "worktree" "worktrees" +:+ " held  " +:+
          plural (fc_held_leases counts) "lease" "leases" +:+ " held  " +:+ plural (fc_spawns counts) "spawn" "spawns") muted] ++
  match fl_sessions summary, fl_worktrees summary, fl_leases summary with
  | [], [], [] => [plain "no fleet -- no sessions, worktrees, or leases on this page" muted]
  | sessions, worktrees, leases =>
      (match sessions with [] => [] | _ => plain "engine sessions" muted :: (session_row tier <$> sessions) end) ++
      (match worktrees with [] => [] | _ => plain "worktrees" muted :: (worktree_row tier <$> worktrees) end) ++
      (match leases with [] => [] | _ => plain "leases" muted :: (lease_row tier <$> leases) end)
  end.

(** ** Cost and health *)

(** Six digits, zero-padded. *)
Definition pad6 (n : Z) : string :=
  let s := to_numeric_text n in String.concat "" (replicate (6 - String.length s) "0") +:+ s.

(** [usd]. *)
Definition usd (micros : Z) : string :=
  to_numeric_text (micros / 1000000) +:+ "." +:+ pad6 (micros mod 1000000) +:+ " USD".

Record TokenFold := { tf_sum : Z; tf_rows : nat }.
Record TokenCoverage := { tc_total : option string; tc_reported_entries : nat }.

Definition no_tokens : TokenFold := {| tf_sum := 0; tf_rows := 0 |}.

(** [TokenFold::add] and [TokenFold::coverage]. *)
Definition add_tokens (f : TokenFold) (value : option Z) : TokenFold :=
  match value with
  | Some v => {| tf_sum := saturating_add_u128 (tf_sum f) v; tf_rows := S (tf_rows f) |}
  | None => f
  end.
Definition coverage (f : TokenFold) : TokenCoverage :=
  {| tc_total := if Nat.ltb 0 (tf_rows f) then Some (to_numeric_text (tf_sum f)) else None; tc_reported_entries := tf_rows f |}.

(** [TokenCoverage::line]. *)
Definition coverage_line (c : TokenCoverage) (label : string) (entries : nat) (complete : bool) : string :=
  match tc_total c with
  | None => label +:+ " not reported"
  | Some total => label +:+ " " +:+ total +:+ " " +:+ fold_word complete +:+ " over " +:+ num (tc_reported_entries c) +:+ " of " +:+
                  plural entries "entry" "entries"
  end.

Record EngineCostRollup := {
  ecr_engine : string; ecr_model : option string; ecr_entries : nat; ecr_priced_entries : nat; ecr_cost_micros : option string;
}.
Record CostTokens := {
  ct_input : TokenCoverage; ct_output : TokenCoverage; ct_cached_input : TokenCoverage;
  ct_cache_write : TokenCoverage; ct_reasoning : TokenCoverage;
}.
Record CostRollup := {
  cr_kind : string; cr_complete : bool; cr_watermark : option Z; cr_headline : CostHeadline;
  cr_by_engine : list EngineCostRollup; cr_tokens : CostTokens; cr_entries : list CostEntry;
  cr_findings : list string; cr_unknowns : list (string * string);
}.

(** A bucket: entries, micros, priced entries. *)
Definition Bucket : Type := nat * Z * nat.
Definition empty_bucket : Bucket := (0, 0%Z, 0).
Definition bucket_key (c : CostEntry) : string * option string := (cost_engine c, cost_model c).
Definition add_to_bucket (b : Bucket) (c : CostEntry) : Bucket :=
  let '(entries, micros, priced) := b in
  match cost_micros c with
  | Some v => (S entries, saturating_add_u128 micros v, S priced)
  | None => (S entries, micros, priced)
  end.
Definition fill_bucket (m : gmap (string * option string) Bucket) (c : CostEntry) : gmap (string * option string) Bucket :=
  <[bucket_key c := add_to_bucket (default empty_bucket (m !! bucket_key c)) c]> m.
Definition buckets (costs : list CostEntry) : gmap (string * option string) Bucket := foldl fill_bucket ∅ costs.

(** [BTreeMap] order of an engine and its model. *)
Definition bucket_leb (x y : (string * option string) * Bucket) : bool :=
  lex (fun x y => String.leb x.1.1 y.1.1) (fun x y => opt_leb x.1.2 y.1.2) x y.

Definition rollup_of (b : (string * option string) * Bucket) : EngineCostRollup :=
  let '((engine, model), (entries, micros, priced)) := b in
  {| ecr_engine := engine; ecr_model := model; ecr_entries := entries; ecr_priced_entries := priced;
     ecr_cost_micros := if Nat.ltb 0 priced then Some (to_numeric_text micros) else None |}.

Definition tokens_of (costs : list CostEntry) (axis : CostEntry -> option Z) : TokenCoverage :=
  coverage (foldl (fun f c => add_tokens f (axis c)) no_tokens costs).

(** [cost_rollup]. *)
Definition cost_rollup {V} (st : BoardState V) : CostRollup :=
  let '(costs, duplicates) := unique_by_id cost_id (bs_costs st) in
  let headline := cost_headline (bs_costs st) in
  {| cr_kind := "cost_rollup"; cr_complete := bs_complete st; cr_watermark := bs_watermark st; cr_headline := headline;
     cr_by_engine := rollup_of <$> sort_by bucket_leb (map_to_list (buckets costs));
     cr_tokens := {|
       ct_input := tokens_of costs cost_input_tokens; ct_output := tokens_of costs cost_output_tokens;
       ct_cached_input := tokens_of costs cost_cached_input_tokens; ct_cache_write := tokens_of costs cost_cache_write_tokens;
       ct_reasoning := tokens_of costs cost_reasoning_tokens |};
     cr_entries := sort_by (newest_leb cost_recorded_at cost_id) costs;
     cr_findings := flatten [duplicate_finding duplicates "cost entry"];
     cr_unknowns :=
       (if Nat.eqb (ch_entries headline) 0 then [("cost", "no entries -- no spend recorded on this page")] else []) ++
       (if Nat.ltb 0 (ch_unpriced_entries headline)
        then [("currency", "tokens only on " +:+ num (ch_unpriced_entries headline) +:+ " of " +:+
               plural (ch_entries headline) "entry" "entries" +:+ " -- the ledger never converts")] else []) ++
       (if bs_complete st then [] else [("the ledger", "read short of the last page -- figures are floors")]) |}.

(** Decimal micros in dollars: [micros.parse().expect(..)] of a printed fold. *)
Definition currency (micros : option string) : string :=
  match micros with
  | None => "no cost reported"
  | Some s => match NilZero.uint_of_string s with Some d => usd (Z.of_N (N.of_uint d)) | None => "" end
  end.

Definition entry_row (c : CostEntry) : Row :=
  line INDENT_STEP
    (hhmm (cost_recorded_at c) +:+ "  " +:+ cost_engine c +:+ "  " +:+
     match cost_micros c, cost_is_estimate c with
     | Some v, Some true => usd v +:+ " estimated"
     | Some v, _ => usd v
     | None, _ => "no cost reported"
     end)
    (Some (cost_id c)) style_default (Some (TCost (cost_id c))).

(** The cost half of the panel. *)
Definition cost_rows (summary : CostRollup) (complete : bool) (muted : Style) : list Row :=
  let headline := cr_headline summary in
  let entries := ch_entries headline in
  plain (if Nat.eqb entries 0 then "cost  no entries -- no spend recorded on this page"
         else "cost  " +:+ plural entries "entry" "entries" +:+ "  " +:+ currency (ch_cost_micros headline) +:+ " " +:+ fold_word complete +:+
              " over " +:+ num (ch_priced_entries headline) +:+ " of " +:+ num entries +:+ " priced  " +:+
              num (ch_estimated_entries headline) +:+ " estimated") muted ::
  (if Nat.ltb 0 entries then
     [plain "by engine" muted] ++
     ((fun b => line INDENT_STEP (ecr_engine b +:+ "  " +:+ default "model unreported" (ecr_model b) +:+ "  " +:+
                                  plural (ecr_entries b) "entry" "entries") (Some (currency (ecr_cost_micros b))) style_default None)
        <$> cr_by_engine summary) ++
     [plain "tokens" muted] ++
     ((fun '(c, label) => line INDENT_STEP (coverage_line c label entries complete) None style_default None) <$>
        [(ct_input (cr_tokens summary), "input"); (ct_output (cr_tokens summary), "output");
         (ct_cached_input (cr_tokens summary), "cached input"); (ct_cache_write (cr_tokens summary), "cache write");
         (ct_reasoning (cr_tokens summary), "reasoning")]) ++
     [plain "entries" muted] ++ (entry_row <$> cr_entries summary)
   else []).

(** [Iterator::max] of strings. *)
Definition newest (l : list string) : option string := last (sort_by String.leb l).

(** [cost_health_rows]. *)
Definition cost_health_rows {V} (st : BoardState V) (tier : ColorTier) : list Row :=
  let muted := muted_of tier in
  let summary := cost_rollup st in
  let '(ingested, duplicates) := unique_by_id ing_id (bs_ingested st) in
  let health := length (filter (fun r => ing_kind r = IngestHealth) ingested) in
  let sessions := filter (fun r => ing_kind r = IngestSession) ingested in
  let why := if bs_complete st then "no records -- ingestion is operator-driven, no producer"
             else "none on this page -- ingestion is operator-driven, no producer" in
  let unknowns :=
    filter (fun note => note.1 <> "cost") (cr_unknowns summary) ++
    (if Nat.eqb health 0 then [("health", why)] else []) ++
    (match sessions with [] => [("session", why)] | _ => [] end) in
  pinned_block (cr_findings summary ++ flatten [duplicate_finding duplicates "ingested record"]) unknowns muted ++
  cost_rows summary (bs_complete st) muted ++
  [plain "ingestion" muted;
   line INDENT_STEP ("health " +:+ plural health "record" "records") None
     (if Nat.eqb health 0 then named_style "unknown" tier else style_default) None;
   line INDENT_STEP ("session " +:+ plural (length sessions) "record" "records" +:+
                     match newest (ing_ingested_at <$> sessions) with Some n => "  newest " +:+ n | None => "" end) None
     (match sessions with [] => named_style "unknown" tier | _ => style_default end) None] ++
  ((fun r => line (INDENT_STEP * 2) (ing_ingested_at r +:+ "  seq " +:+ to_numeric_text (ing_event_seq r)) (Some (ing_id r))
               style_default (Some (TIngested (ing_id r)))) <$> sessions).

(** ** The audit ledger *)

(** [actor_face]. *)
Definition actor_face (a : Actor) : string :=
  match actor_id a with Some id => actor_kind a +:+ ":" +:+ id | None => actor_kind a end.

Definition edge_text (from to : option string) : string :=
  match from, to with
  | Some from, Some to => "  " +:+ from +:+ " -> " +:+ to
  | None, Some to => "  -> " +:+ to
  | Some from, None => "  " +:+ from +:+ " ->"
  | None, None => ""
  end.

Definition receipt_row (r : ReceiptView) : Row :=
  line 0 (hhmm (rcp_ts r) +:+ "  " +:+ rcp_action r +:+ "  " +:+ rcp_subject_type r +:+ " " +:+ rcp_subject_id r +:+ edge_text (rcp_from r) (rcp_to r))
    (Some (actor_face (rcp_actor r))) style_default (Some (TReceipt (rcp_id r))).

(** The counts per action. *)
Definition by_action (receipts : list ReceiptView) : gmap string nat :=
  foldl (fun m r => <[rcp_action r := S (default 0 (m !! rcp_action r))]> m) ∅ receipts.

(** [audit_rows]. *)
Definition audit_rows {V} (st : BoardState V) (tier : ColorTier) : list Row :=
  let muted := muted_of tier in
  let '(receipts, duplicates) := unique_by_id rcp_id (bs_receipts st) in
  let basisless := length (filter (fun r => rcp_observed_basis r = None) receipts) in
  let unknowns :=
    (if Nat.ltb 0 basisless
     then [("basis", "no observed basis on " +:+ num basisless +:+ " of " +:+ plural (length receipts) "receipt" "receipts")] else []) ++
    (if bs_complete st then [] else [("the ledger", "read short of the last page -- counts are floors")]) in
  let out := pinned_block (flatten [duplicate_finding duplicates "receipt"]) unknowns muted in
  match receipts with
  | [] => out ++ [plain "no receipts -- nothing attested on this page" muted]
  | _ =>
      let actions := by_action receipts in
      out ++
      [plain (plural (length receipts) "receipt" "receipts" +:+ "  " +:+ fold_word (bs_complete st) +:+ " across " +:+
              plural (size actions) "action" "actions") muted] ++
      (receipt_row <$> sort_by (newest_leb rcp_ts rcp_id) receipts) ++
      [plain "by action" muted] ++
      ((fun '(action, count) => line INDENT_STEP action (Some (plural count "receipt" "receipts")) style_default None) <$> btree_iter actions)
  end.

(** ** The frame *)

(** [rows]: the panel the state shows. *)
Definition board_rows {V} (st : BoardState V) (tier : ColorTier) : option (list Row) :=
  match bs_view st with
  | VEstate => Some (estate_rows st tier)
  | VActivity => Some (activity_rows st tier)
  | VRuns => Some (workflow_run_rows st tier)
  | VDag => dag_rows st tier
  | VFlow => flow_rows st tier
  | VEvents => Some (event_rows st tier)
  | VReplay => Some (replay_rows st tier)
  | VFleet => Some (fleet_rows st tier)
  | VCostHealth => Some (cost_health_rows st tier)
  | VAudit => Some (audit_rows st tier)
  end.

Definition targets (rows : list Row) : list BoardTarget := omap row_target rows.

(** [target_order]. *)
Definition target_order {V} (st : BoardState V) : option (list BoardTarget) := targets <$> board_rows st Mono.
