(* ===== verification/BoardGraph.v ===== *)
(** * What the Board's two graphs show (gwk-tui/src/board.rs)

    The dispatch graph and the message flows are drawn from links the page does
    not guarantee to be a forest.  Both panels always produce their rows; every
    task, attempt, spawn and message of the page is drawn exactly once, or
    counted in words when no root of the page reaches it. *)

From S2P Require Import Prelude Text Fsm Envelope Command Ordered Theme Forest Board.
Import Numeric Tier Marks Styles.

(** ** Rows by kind *)

Definition tag_task (r : Row) : option string := match row_target r with Some (TTask s) => Some s | _ => None end.
Definition tag_attempt (r : Row) : option string := match row_target r with Some (TAttempt s) => Some s | _ => None end.
Definition tag_node (r : Row) : option string := match row_target r with Some (TNode s) => Some s | _ => None end.
Definition tag_message (r : Row) : option string := match row_target r with Some (TMessage s) => Some s | _ => None end.

Lemma task_row_target t tier : row_target (task_row t tier) = Some (TTask (task_id t)).
Proof. unfold task_row. by destruct (task_face _). Qed.
Lemma attempt_row_target a i tier : row_target (attempt_row a i tier) = Some (TAttempt (at_id a)).
Proof. unfold attempt_row. by destruct (attempt_face _). Qed.
Lemma message_row_target {V} tier (m : Message V) i : row_target (message_row tier m i) = Some (TMessage (msg_id m)).
Proof. unfold message_row. by destruct (message_face _). Qed.

Lemma omap_none {A B} (f : A -> option B) l : (forall x, x ∈ l -> f x = None) -> omap f l = [].
Proof.
  induction l as [|x l IH]; intros Hn; [done|]. simpl. rewrite Hn by left. apply IH. set_solver.
Qed.

(** Findings carry no target. *)
Lemma with_findings_tags {B} (tag : Row -> option B) findings muted out :
  (forall r, row_target r = None -> tag r = None) -> omap tag (with_findings findings muted out) = omap tag out.
Proof.
  intros Ht. unfold with_findings. destruct findings as [|f fs]; [done|].
  change (omap tag ((diagnostic ("invalid page -- " +:+ num (length (f :: fs)) +:+ " findings") muted
    :: ((fun f => diagnostic f muted) <$> f :: fs)) ++ out) = omap tag out).
  rewrite omap_app, omap_none; [done|]. intros r [->|(g & -> & _)%list_elem_of_fmap]%elem_of_cons; by apply Ht.
Qed.

(** ** The dispatch graph *)

Section Dag.
Context (nodes : list DispatchNode) (Hids : NoDup (dn_id <$> nodes)) (tier : ColorTier).

Lemma children_of_spec n c :
  c ∈ children_of nodes n <-> c ∈ nodes /\ dn_parent_id c = Some (dn_id n) /\ dn_attempt_id c = dn_attempt_id n.
Proof.
  unfold children_of, children_by_parent. rewrite sorted_members, sort_by_elem_of, group_members, list_elem_of_filter.
  destruct (dn_parent_id c) as [p|]; simpl; [|naive_solver]. split.
  - intros [[= -> ->] Hc]. done.
  - by intros (Hc & [= ->] & ->).
Qed.

Lemma parent_in_same_attempt_spec n :
  parent_in_same_attempt nodes n = true <->
  exists p, p ∈ nodes /\ dn_parent_id n = Some (dn_id p) /\ dn_attempt_id n = dn_attempt_id p.
Proof.
  unfold parent_in_same_attempt. destruct (dn_parent_id n) as [q|]; [|naive_solver].
  rewrite bool_decide_eq_true. unfold node_anchors. rewrite elem_of_list_to_set, list_elem_of_fmap. split.
  - intros (p & [= Ha ->] & Hp). by exists p.
  - intros (p & Hp & [= ->] & ->). by exists p.
Qed.

(** A row the page hangs under nothing. *)
Definition dag_root (n : DispatchNode) : Prop := n ∈ nodes /\ parent_in_same_attempt nodes n = false.

(** Reachable from a root by parent links within one attempt. *)
Inductive dag_rooted : DispatchNode -> Prop :=
| rooted_top n : n ∈ nodes ->
    (forall p, p ∈ nodes -> dn_parent_id n = Some (dn_id p) -> dn_attempt_id n <> dn_attempt_id p) -> dag_rooted n
| rooted_under p n : dag_rooted p -> n ∈ nodes -> dn_parent_id n = Some (dn_id p) ->
    dn_attempt_id n = dn_attempt_id p -> dag_rooted n.

Lemma dag_rooted_in n : dag_rooted n -> n ∈ nodes.
Proof. by intros []. Qed.

Lemma rooted_reached n : dag_rooted n <-> reached (children_of nodes) nodes dag_root n.
Proof.
  split.
  - induction 1 as [n Hn Hp|p n Hp IH Hn Hl Ha].
    + apply reached_root. split; [done|]. apply not_true_iff_false. rewrite parent_in_same_attempt_spec. naive_solver.
    + eapply reached_child; [exact IH|by apply dag_rooted_in|]. by apply children_of_spec.
  - induction 1 as [n [Hn Hr]|n c _ IH Hn (Hc & Hl & Ha)%children_of_spec].
    + apply rooted_top; [done|]. intros p Hp Hl Ha. apply not_true_iff_false in Hr. apply Hr.
      apply parent_in_same_attempt_spec. eauto.
    + by eapply rooted_under.
Qed.

Local Notation placing := (placing dn_id (children_of nodes) nodes tag_node dag_rooted).

Lemma dag_root_rooted n : dag_root n -> n ∈ nodes /\ dag_rooted n.
Proof. intros H. split; [by destruct H|]. by apply rooted_reached, reached_root. Qed.

Lemma root_members k n : n ∈ members (roots_by_attempt nodes) k <-> dag_root n /\ dn_attempt_id n = k.
Proof.
  unfold roots_by_attempt. rewrite sorted_members, sort_by_elem_of, group_members, list_elem_of_filter.
  unfold dag_root. destruct (parent_in_same_attempt nodes n).
  - split; [by intros [? _]|by intros [[_ ?] _]].
  - split; [by intros [[= ->] Hn]|by intros [[Hn _] ->]].
Qed.

Lemma roots_of_spec a n : n ∈ roots_of nodes a <-> dag_root n /\ dn_attempt_id n = Some a.
Proof. apply root_members. Qed.

Lemma orphan_node_roots_spec attempts n :
  n ∈ orphan_node_roots attempts nodes <->
  dag_root n /\ (forall a, dn_attempt_id n = Some a -> a ∉ at_id <$> attempts).
Proof.
  unfold orphan_node_roots. rewrite list_elem_of_bind.
  split.
  - intros ([k roots] & Hn & Hk). rewrite sort_by_elem_of, elem_of_map_to_list in Hk.
    assert (n ∈ roots -> dag_root n /\ dn_attempt_id n = k) as Hm.
    { intros H. apply root_members. unfold members. by rewrite Hk. }
    destruct k as [a|]; [case_bool_decide as Hb; [set_solver|]|]; destruct (Hm Hn) as [Hr E]; (split; [done|]); intros b Eb.
    + rewrite E in Eb. injection Eb as <-. by rewrite elem_of_list_to_set in Hb.
    + by rewrite E in Eb.
  - intros [Hr Ho]. pose proof (proj2 (root_members (dn_attempt_id n) n) (conj Hr eq_refl)) as Hin. unfold members in Hin.
    destruct (roots_by_attempt nodes !! dn_attempt_id n) as [l|] eqn:E; [|simpl in Hin; by apply elem_of_nil in Hin].
    exists (dn_attempt_id n, l). rewrite sort_by_elem_of, elem_of_map_to_list. split; [|done].
    destruct (dn_attempt_id n) as [a|]; [|done]. rewrite bool_decide_false; [done|].
    rewrite elem_of_list_to_set. by apply Ho.
Qed.

(** What a stretch of the panel adds: task rows, attempt rows, and the spawns
    of those attempts. *)
Record grown (tasks : list string) (attempts : list AttemptView) (st st' : gset string * list Row) : Prop := {
  gr_placing : placing [] st';
  gr_sub : st.1 ⊆ st'.1;
  gr_tasks : omap tag_task st'.2 = omap tag_task st.2 ++ tasks;
  gr_attempts : omap tag_attempt st'.2 = omap tag_attempt st.2 ++ (at_id <$> attempts);
  gr_roots a n : a ∈ attempts -> n ∈ roots_of nodes (at_id a) -> dn_id n ∈ st'.1;
  gr_kinds r : r ∈ st'.2 -> r ∈ st.2 \/ row_target r = None \/ is_Some (tag_task r) \/ is_Some (tag_attempt r) \/ is_Some (tag_node r);
}.

Lemma grown_refl st : placing [] st -> grown [] [] st st.
Proof. intros H. split; [done|done|by rewrite app_nil_r|by rewrite app_nil_r|set_solver|by left]. Qed.

Lemma grown_trans t1 a1 t2 a2 st st1 st2 :
  grown t1 a1 st st1 -> grown t2 a2 st1 st2 -> grown (t1 ++ t2) (a1 ++ a2) st st2.
Proof.
  intros [P1 S1 T1 A1 R1 K1] [P2 S2 T2 A2 R2 K2]. split; [done|set_solver|..].
  - by rewrite T2, T1, (assoc_L (++)).
  - by rewrite A2, A1, fmap_app, (assoc_L (++)).
  - intros a n [Ha|Ha]%elem_of_app Hn; [by eapply S2, R1|by eapply R2].
  - intros r [Hr|Hr]%K2; [by apply K1|by right].
Qed.

Lemma placing_push st rows : omap tag_node rows = [] -> placing [] st -> placing [] (st.1, st.2 ++ rows).
Proof. by apply placing_aside. Qed.

Lemma node_rows_tags {B} (tag : Row -> option B) rows :
  (forall n i, tag (node_row (muted_of tier) n i) = None) ->
  (forall r, r ∈ rows -> exists n i, r = node_row (muted_of tier) n i) -> omap tag rows = [].
Proof. intros Ht Hr. apply omap_none. intros r (n & i & ->)%Hr. apply Ht. Qed.

(** Spawns are walked from roots. *)
Lemma spawn_rows_places roots indent st :
  placing [] st -> (forall n, n ∈ roots -> dag_root n) ->
  exists st', spawn_rows nodes roots indent (muted_of tier) st = Some st' /\ grown [] [] st st' /\
    (forall n, n ∈ roots -> dn_id n ∈ st'.1).
Proof.
  intros Hpl Hr. unfold spawn_rows.
  destruct (walk_places dn_id (children_of nodes) (node_row (muted_of tier)) nodes tag_node dag_rooted) with (roots := roots) (indent := indent) (st := st)
    as (p & rows & H1 & H2 & H3 & H4 & H5); [done|..|done| |].
  - intros n c Hn Hc. by apply children_of_spec in Hc as [? _].
  - done.
  - intros n c Hn Hg (Hc & Hl & Ha)%children_of_spec. by eapply rooted_under.
  - intros n Hn. by apply dag_root_rooted, Hr.
  - exists (p, st.2 ++ rows). split; [done|]. split; [|done].
    split; cbn [fst snd]; [done|done|..]; rewrite ?omap_app, ?(node_rows_tags _ rows), ?app_nil_r by done; try done.
    + set_solver.
    + intros r [Hr'|(n & i & ->)%H5]%elem_of_app; [by left|]. right; right; right; right. by exists (dn_id n).
Qed.

Lemma place_attempt_grows indent st a :
  placing [] st -> exists st', place_attempt tier nodes indent st a = Some st' /\ grown [] [a] st st'.
Proof.
  intros Hpl. unfold place_attempt.
  assert (omap tag_node [attempt_row a indent tier] = [] /\ omap tag_task [attempt_row a indent tier] = [] /\
    omap tag_attempt [attempt_row a indent tier] = [at_id a]) as (Hn & Ht & Ha).
  { simpl. unfold tag_node, tag_task, tag_attempt. by rewrite attempt_row_target. }
  destruct (spawn_rows_places (roots_of nodes (at_id a)) (indent + INDENT_STEP) (st.1, st.2 ++ [attempt_row a indent tier]))
    as (st' & H1 & [P S T A R K] & H3); [by apply placing_push|by intros n [? _]%roots_of_spec|].
  exists st'. split; [done|]. cbn [fst snd] in *. split; [done|done|..].
  - by rewrite T, omap_app, Ht, app_nil_r.
  - by rewrite A, omap_app, Ha, app_nil_r.
  - intros b n ->%list_elem_of_singleton Hb. by apply H3.
  - intros r [[Hr | ->%list_elem_of_singleton]%elem_of_app|Hr]%K; [by left| |by right].
    right; right; right; left. unfold tag_attempt. rewrite attempt_row_target. eauto.
Qed.

Lemma place_attempts_grow indent attempts st :
  placing [] st -> exists st', fold_opt (place_attempt tier nodes indent) st attempts = Some st' /\ grown [] attempts st st'.
Proof.
  intros Hpl. apply (fold_opt_ind (fun done_ s => grown [] done_ st s)); [by apply grown_refl|].
  intros l1 a l2 s _ Hs. destruct (place_attempt_grows indent s a) as (s' & H1 & H2); [by apply gr_placing in Hs|].
  exists s'. split; [done|]. by apply (grown_trans [] l1 [] [a] st s s').
Qed.

Lemma place_task_grows attempts st t :
  placing [] st ->
  exists st', place_task tier nodes attempts st t = Some st' /\
    grown [task_id t] (members (attempts_by_task attempts) (task_id t)) st st'.
Proof.
  intros Hpl. unfold place_task.
  assert (omap tag_node [task_row t tier] = [] /\ omap tag_task [task_row t tier] = [task_id t] /\
    omap tag_attempt [task_row t tier] = []) as (Hn & Ht & Ha).
  { simpl. unfold tag_node, tag_task, tag_attempt. by rewrite task_row_target. }
  destruct (place_attempts_grow INDENT_STEP (members (attempts_by_task attempts) (task_id t)) (st.1, st.2 ++ [task_row t tier]))
    as (st' & H1 & [P S T A R K]); [by apply placing_push|].
  exists st'. split; [done|]. cbn [fst snd] in *. split; [done|done|..|done|].
  - by rewrite T, omap_app, Ht, app_nil_r.
  - by rewrite A, omap_app, Ha, app_nil_r.
  - intros r [[Hr | ->%list_elem_of_singleton]%elem_of_app|Hr]%K; [by left| |by right].
    right; right; left. unfold tag_task. rewrite task_row_target. eauto.
Qed.

Lemma place_tasks_grow attempts tasks st :
  placing [] st ->
  exists st', fold_opt (place_task tier nodes attempts) st tasks = Some st' /\
    grown (task_id <$> tasks) (tasks ≫= fun t => members (attempts_by_task attempts) (task_id t)) st st'.
Proof.
  intros Hpl.
  apply (fold_opt_ind (fun done_ s => grown (task_id <$> done_) (done_ ≫= fun t => members (attempts_by_task attempts) (task_id t)) st s));
    [by apply grown_refl|].
  intros l1 t l2 s _ Hs. destruct (place_task_grows attempts s t) as (s' & H1 & H2); [by apply gr_placing in Hs|].
  exists s'. split; [done|]. rewrite fmap_app, bind_app. eapply grown_trans; [exact Hs|].
  simpl. by rewrite app_nil_r.
Qed.

Lemma attempts_shown tasks attempts :
  NoDup (task_id <$> tasks) ->
  (by_id task_id tasks ≫= fun t => members (attempts_by_task attempts) (task_id t)) ++ orphan_attempts tasks attempts ≡ₚ attempts.
Proof.
  intros Hn. etrans; [|apply (partition_perm at_task_id (task_id <$> by_id task_id tasks)); by rewrite by_id_perm].
  assert (forall l, ((l ≫= fun t : Task => members (attempts_by_task attempts) (task_id t)) ≡ₚ
    ((task_id <$> l) ≫= fun k => filter (fun x => at_task_id x = k) attempts))) as ->.
  { induction l as [|t l IH]; [done|]. rewrite fmap_cons, !bind_cons, IH. f_equiv.
    unfold attempts_by_task. rewrite sorted_members, sort_by_perm, group_members. apply reflexive_eq.
    apply list_filter_iff. intros a. split; [by intros [= ->]|by intros ->]. }
  apply Permutation_app_head. unfold orphan_attempts. rewrite by_id_perm. apply reflexive_eq.
  apply list_filter_iff. intros a. by rewrite (by_id_perm task_id tasks).
Qed.

(** Rows of the panel's body, before its findings. *)
Lemma dag_body_shows tasks attempts running :
  NoDup (task_id <$> tasks) ->
  exists placed out, dag_body tier tasks attempts nodes running = Some (placed, out) /\
    omap tag_task out ≡ₚ task_id <$> tasks /\
    omap tag_attempt out ≡ₚ at_id <$> attempts /\
    NoDup (omap tag_node out) /\
    (forall s, s ∈ omap tag_node out <-> exists n, dag_rooted n /\ dn_id n = s) /\
    (forall n, n ∈ nodes -> dn_id n ∈ placed <-> dag_rooted n) /\
    (forall r, r ∈ out -> row_target r = None \/ is_Some (tag_task r) \/ is_Some (tag_attempt r) \/ is_Some (tag_node r)).
Proof.
  intros Ht. pose proof (attempts_shown tasks attempts Ht) as Hat.
  set (header := [plain (num (length tasks) +:+ " tasks  " +:+ num running +:+ " running") (muted_of tier)]).
  set (by_task := by_id task_id tasks ≫= fun t => members (attempts_by_task attempts) (task_id t)) in *.
  set (orphans := orphan_attempts tasks attempts) in *. set (roots := orphan_node_roots attempts nodes).
  assert (exists st, dag_body tier tasks attempts nodes running = Some st /\
    grown (task_id <$> by_id task_id tasks) (by_task ++ orphans) (∅, header) st /\
    (forall n, n ∈ roots -> dn_id n ∈ st.1)) as (st & Hb & Hg & Hr).
  { destruct (place_tasks_grow attempts (by_id task_id tasks) (∅, header)) as (st1 & H1 & G1); [by apply placing_start|].
    unfold dag_body. fold header. rewrite H1. simpl. fold orphans roots.
    assert (exists st, (st0 ← fold_opt (place_attempt tier nodes INDENT_STEP) (st1.1, st1.2 ++ [plain "off-page -- parents beyond this page" (muted_of tier)]) orphans;
      spawn_rows nodes roots INDENT_STEP (muted_of tier) st0) = Some st /\
      grown (task_id <$> by_id task_id tasks) (by_task ++ orphans) (∅, header) st /\ (forall n, n ∈ roots -> dn_id n ∈ st.1)) as Hoff.
    { assert (grown [] [] st1 (st1.1, st1.2 ++ [plain "off-page -- parents beyond this page" (muted_of tier)])) as G2.
      { split; cbn [fst snd]; rewrite ?omap_app; simpl; rewrite ?app_nil_r; try done.
        - apply placing_push; [done|]. by apply gr_placing in G1.
        - set_solver.
        - intros r [Hr | ->%list_elem_of_singleton]%elem_of_app; [by left|]. right; by left. }
      destruct (place_attempts_grow INDENT_STEP orphans _ (gr_placing _ _ _ _ G2)) as (st2 & H2 & G3).
      destruct (spawn_rows_places roots INDENT_STEP st2 (gr_placing _ _ _ _ G3)) as (st3 & H3 & G4 & Hro).
      { intros n [Hn _]%orphan_node_roots_spec. done. }
      exists st3. rewrite H2. simpl. split; [done|]. split; [|done].
      pose proof (grown_trans _ _ _ _ _ _ _ (grown_trans _ _ _ _ _ _ _ (grown_trans _ _ _ _ _ _ _ G1 G2) G3) G4) as G.
      by rewrite !app_nil_r in G. }
    destruct orphans as [|o os]; [destruct roots as [|r rs]|]; [|exact Hoff..].
    exists st1. split; [done|]. split; [by rewrite app_nil_r|set_solver]. }
  destruct st as [placed out]. destruct Hg as [P _ T A R K]. cbn [fst snd] in *. exists placed, out.
  simpl in T, A. split; [done|]. split; [by rewrite T, by_id_perm|]. split; [by rewrite A, Hat|].
  assert (forall n, n ∈ nodes -> dn_id n ∈ placed <-> dag_rooted n) as Hp.
  { intros n Hn. rewrite rooted_reached.
    apply (placed_reached dn_id (children_of nodes) nodes tag_node dag_rooted Hids dag_root (placed, out)); [apply rooted_reached|done| |done].
    intros m Hm. split; [by destruct Hm|]. cbn [fst].
    destruct (dn_attempt_id m) as [a|] eqn:Ea; [destruct (decide (a ∈ at_id <$> attempts)) as [Hin|Hni]|].
    - rewrite <-Hat in Hin. apply list_elem_of_fmap in Hin as (b & -> & Hb'). apply (R b m Hb'). by apply roots_of_spec.
    - apply Hr, orphan_node_roots_spec. split; [done|]. intros b E. rewrite Ea in E. by injection E as <-.
    - apply Hr, orphan_node_roots_spec. split; [done|]. intros b E. by rewrite Ea in E. }
  split; [by apply (pl_once _ _ _ _ _ _ _ P)|]. split; [|split; [done|]].
  - intros s. rewrite (pl_shown _ _ _ _ _ _ _ P s). split.
    + intros (n & Hn & E & Hg)%(pl_good _ _ _ _ _ _ _ P). by exists n.
    + intros (n & Hn & <-). apply Hp; [by apply dag_rooted_in|done].
  - intros r [->%list_elem_of_singleton|Hr']%K; [by left|done].
Qed.
End Dag.

(** The finding that counts what the panel could not draw. *)
Lemma count_unplaced_rest {A} (id : A -> string) (placed : gset string) (items : list A) :
  count_unplaced id placed items + length (filter (fun x => id x ∈ placed) items) = length items.
Proof.
  unfold count_unplaced. pose proof (filter_app_complement (fun x => id x ∈ placed) items) as H%Permutation_length.
  rewrite length_app in H. lia.
Qed.

Lemma drawn_count {A} (id : A -> string) (placed : gset string) (items : list A) (shown : list string) :
  NoDup (id <$> items) -> NoDup shown ->
  (forall s, s ∈ shown <-> exists x, x ∈ items /\ id x = s /\ id x ∈ placed) ->
  count_unplaced id placed items = length items - length shown.
Proof.
  intros Hi Hn Hs. pose proof (count_unplaced_rest id placed items) as Hc.
  assert (shown ≡ₚ id <$> filter (fun x => id x ∈ placed) items) as Hp%Permutation_length; [|rewrite length_fmap in Hp; lia].
  apply NoDup_Permutation; [done| |].
  - eapply sublist_NoDup; [exact Hi|]. apply fmap_sublist, sublist_filter.
  - intros s. rewrite Hs, list_elem_of_fmap. setoid_rewrite list_elem_of_filter. split.
    + intros (x & Hx & <- & Hp). by exists x.
    + intros (x & -> & Hp & Hx). by exists x.
Qed.

(** The findings are in front of the rows. *)
Lemma with_findings_in f findings muted out : f ∈ findings -> diagnostic f muted ∈ with_findings findings muted out.
Proof.
  intros Hf. unfold with_findings. destruct findings as [|g gs]; [by apply elem_of_nil in Hf|].
  right. apply elem_of_app. left. apply list_elem_of_fmap. eauto.
Qed.

Lemma with_findings_row r findings muted out :
  r ∈ with_findings findings muted out -> row_target r = None \/ r ∈ out.
Proof.
  unfold with_findings. destruct findings as [|g gs]; [by right|].
  intros [->|[(f & -> & _)%list_elem_of_fmap|Hr]%elem_of_app]%elem_of_cons; [by left|by left|by right].
Qed.

(** What [dag_rows] draws, whatever the page holds. *)
Lemma dag_rows_draw {V} (st : BoardState V) tier :
  let tasks := (unique_by_id task_id (bs_tasks st)).1 in
  let attempts := (unique_by_id at_id (bs_attempts st)).1 in
  let nodes := (unique_by_id dn_id (bs_nodes st)).1 in
  exists rows, dag_rows st tier = Some rows /\
    omap tag_task rows ≡ₚ task_id <$> tasks /\
    omap tag_attempt rows ≡ₚ at_id <$> attempts /\
    NoDup (omap tag_node rows) /\
    (forall s, s ∈ omap tag_node rows <-> exists n, dag_rooted nodes n /\ dn_id n = s) /\
    (let left := length nodes - length (omap tag_node rows) in
     0 < left -> diagnostic ("+" +:+ num left +:+ " unplaced -- parent cycle") (muted_of tier) ∈ rows) /\
    (forall r, r ∈ rows -> row_target r = None \/ is_Some (tag_task r) \/ is_Some (tag_attempt r) \/ is_Some (tag_node r)).
Proof.
  intros tasks attempts nodes.
  destruct (dag_body_shows nodes (unique_nodup dn_id (bs_nodes st)) tier tasks attempts (running_count (bs_attempts st))
    (unique_nodup task_id (bs_tasks st))) as (placed & out & Hb & Ht & Ha & Hn & Hs & Hp & Hk).
  set (findings := dag_findings (count_unplaced dn_id placed nodes) (conflicting_anchors nodes)
    ((unique_by_id task_id (bs_tasks st)).2 + (unique_by_id at_id (bs_attempts st)).2 + (unique_by_id dn_id (bs_nodes st)).2)).
  assert (forall rows, rows = with_findings findings (muted_of tier) out ->
    omap tag_task rows ≡ₚ task_id <$> tasks /\ omap tag_attempt rows ≡ₚ at_id <$> attempts /\ NoDup (omap tag_node rows) /\
    (forall s, s ∈ omap tag_node rows <-> exists n, dag_rooted nodes n /\ dn_id n = s) /\
    (let left := length nodes - length (omap tag_node rows) in
     0 < left -> diagnostic ("+" +:+ num left +:+ " unplaced -- parent cycle") (muted_of tier) ∈ rows) /\
    (forall r, r ∈ rows -> row_target r = None \/ is_Some (tag_task r) \/ is_Some (tag_attempt r) \/ is_Some (tag_node r))) as Hgo.
  { intros rows ->. rewrite !with_findings_tags by (intros r Hr; unfold tag_task, tag_attempt, tag_node; by rewrite Hr).
    split; [done|]. split; [done|]. split; [done|]. split; [done|]. split.
    - fold tag_node. set (rest := length nodes - length (omap tag_node out)). cbv zeta. intros Hl.
      apply with_findings_in. unfold findings, dag_findings.
      rewrite (drawn_count dn_id placed nodes (omap tag_node out)); [|apply unique_nodup|done|].
      + apply elem_of_app. left. fold rest. destruct (Nat.ltb_spec 0 rest); [by left|lia].
      + intros s. rewrite Hs. split.
        * intros (n & Hr & <-). exists n. pose proof (dag_rooted_in _ _ Hr). split; [done|]. split; [done|]. by apply Hp.
        * intros (n & Hin & <- & Hpl). exists n. split; [by apply Hp|done].
    - intros r [Hr|Hr]%with_findings_row; [by left|by apply Hk]. }
  destruct (decide (bs_tasks st = [] /\ bs_attempts st = [] /\ bs_nodes st = [])) as [(E1 & E2 & E3)|Hne].
  - unfold tasks, attempts, nodes, dag_rows. rewrite E1, E2, E3. eexists. split; [done|].
    split; [done|]. split; [done|]. split; [constructor|]. split; [|split].
    + intros s. split; [by intros ?%elem_of_nil|]. intros (n & Hn' & _). by apply dag_rooted_in, elem_of_nil in Hn'.
    + cbv zeta. intros Hl. simpl in Hl. lia.
    + intros r ->%list_elem_of_singleton. by left.
  - exists (with_findings findings (muted_of tier) out). split; [|by apply Hgo].
    unfold dag_rows, findings, tasks, attempts, nodes in *.
    destruct (unique_by_id task_id (bs_tasks st)) as [u1 d1], (unique_by_id at_id (bs_attempts st)) as [u2 d2],
      (unique_by_id dn_id (bs_nodes st)) as [u3 d3]. cbn [fst snd] in *. rewrite Hb. cbn.
    destruct (bs_tasks st), (bs_attempts st), (bs_nodes st); try done. by destruct Hne.
Qed.

(** ** Message flows *)

Section Flows.
Context {V : Type} (messages : list (Message V)) (Hids : NoDup (msg_id <$> messages)) (tier : ColorTier).

Lemma replies_of_spec m c : c ∈ replies_of messages m <-> c ∈ messages /\ msg_reply_to c = Some (msg_id m).
Proof.
  unfold replies_of, replies_by_parent. rewrite sorted_members, sort_by_elem_of, group_members, list_elem_of_filter. tauto.
Qed.

(** Reachable from a message whose reply target is not on the page. *)
Inductive flow_rooted : Message V -> Prop :=
| flow_top m : m ∈ messages ->
    (forall p, p ∈ messages -> msg_reply_to m <> Some (msg_id p)) -> flow_rooted m
| flow_under p m : flow_rooted p -> m ∈ messages -> msg_reply_to m = Some (msg_id p) -> flow_rooted m.

Definition flow_root (m : Message V) : Prop := m ∈ messages /\ replies_on_page messages m = false.

Lemma replies_on_page_spec m :
  replies_on_page messages m = true <-> exists p, p ∈ messages /\ msg_reply_to m = Some (msg_id p).
Proof.
  unfold replies_on_page. destruct (msg_reply_to m) as [q|].
  - rewrite bool_decide_eq_true, elem_of_list_to_set, list_elem_of_fmap. split.
    + intros (p & -> & Hp). by exists p.
    + intros (p & Hp & [= ->]). by exists p.
  - split; [done|by intros (? & _ & ?)].
Qed.

Lemma flow_rooted_in m : flow_rooted m -> m ∈ messages.
Proof. by intros []. Qed.

Lemma flow_rooted_reached m : flow_rooted m <-> reached (replies_of messages) messages flow_root m.
Proof.
  split.
  - induction 1 as [m Hm Hp|p m Hp IH Hm Hl].
    + apply reached_root. split; [done|]. apply not_true_iff_false. rewrite replies_on_page_spec.
      intros (p & Hp' & E). by apply (Hp p).
    + eapply reached_child; [exact IH|by apply flow_rooted_in|]. by apply replies_of_spec.
  - induction 1 as [m [Hm Hr]|m c _ IH Hm [Hc Hl]%replies_of_spec].
    + apply flow_top; [done|]. intros p Hp Hl. apply not_true_iff_false in Hr. apply Hr, replies_on_page_spec. eauto.
    + by eapply flow_under.
Qed.

Lemma thread_roots_spec m : m ∈ thread_roots messages <-> flow_root m.
Proof. unfold thread_roots, flow_root. rewrite list_elem_of_filter. tauto. Qed.

Local Notation placing := (placing msg_id (replies_of messages) messages tag_message flow_rooted).

(** What a stretch of the panel adds: the threads of some roots. *)
Record threaded (roots : list (Message V)) (st st' : gset string * list Row) : Prop := {
  th_placing : placing [] st';
  th_sub : st.1 ⊆ st'.1;
  th_roots m : m ∈ roots -> msg_id m ∈ st'.1;
  th_kinds r : r ∈ st'.2 -> r ∈ st.2 \/ row_target r = None \/ is_Some (tag_message r);
}.

Lemma threaded_trans r1 r2 st st1 st2 : threaded r1 st st1 -> threaded r2 st1 st2 -> threaded (r1 ++ r2) st st2.
Proof.
  intros [P1 S1 R1 K1] [P2 S2 R2 K2]. split; [done|set_solver|..].
  - intros m [Hm|Hm]%elem_of_app; [by apply S2, R1|by apply R2].
  - intros r [Hr|Hr]%K2; [by apply K1|by right].
Qed.

Lemma thread_places indent st m :
  placing [] st -> flow_root m -> exists st', thread tier messages indent st m = Some st' /\ threaded [m] st st'.
Proof.
  intros Hpl Hr. unfold thread.
  destruct (walk_places msg_id (replies_of messages) (message_row tier) messages tag_message flow_rooted) with (roots := [m]) (indent := indent) (st := st)
    as (p & rows & H1 & H2 & H3 & H4 & H5); [done|..|done| |].
  - intros n c Hn Hc. by apply replies_of_spec in Hc as [? _].
  - intros n i. unfold tag_message. by rewrite message_row_target.
  - intros n c Hn Hg [Hc Hl]%replies_of_spec. by eapply flow_under.
  - intros n ->%list_elem_of_singleton. split; [by destruct Hr|]. by apply flow_rooted_reached, reached_root.
  - exists (p, st.2 ++ rows). split; [done|]. split; cbn [fst snd]; [done..|].
    intros r [Hr'|(n & i & ->)%H5]%elem_of_app; [by left|]. right; right. unfold tag_message. rewrite message_row_target. eauto.
Qed.

Lemma threads_place indent roots st :
  placing [] st -> (forall m, m ∈ roots -> flow_root m) ->
  exists st', fold_opt (thread tier messages indent) st roots = Some st' /\ threaded roots st st'.
Proof.
  intros Hpl Hr. apply (fold_opt_ind (fun done_ s => threaded done_ st s)); [by split; [done|done|set_solver|left]|].
  intros l1 m l2 s E Hs. destruct (thread_places indent s m) as (s' & H1 & H2); [by apply th_placing in Hs|apply Hr; set_solver|].
  exists s'. split; [done|]. by eapply threaded_trans.
Qed.

Lemma place_flow_places st flow :
  placing [] st -> (forall m, m ∈ flow.2 -> flow_root m) ->
  exists st', place_flow tier messages st flow = Some st' /\ threaded flow.2 st st'.
Proof.
  intros Hpl Hr. unfold place_flow.
  destruct (threads_place INDENT_STEP (sort_by arrival_leb flow.2) (st.1, st.2 ++ [plain ("flow " +:+ flow.1) (muted_of tier)]))
    as (st' & H1 & [P S R K]); [by apply placing_aside|intros m; rewrite sort_by_elem_of; apply Hr|].
  exists st'. split; [done|]. split; [done|done|..].
  - intros m Hm. apply R. by rewrite sort_by_elem_of.
  - intros r [[Hr' | ->%list_elem_of_singleton]%elem_of_app|Hr']%K; [by left|right; by left|by right].
Qed.

(** Rows of the panel's body, before its findings. *)
Lemma flow_body_shows :
  exists placed out, flow_body tier messages = Some (placed, out) /\
    NoDup (omap tag_message out) /\
    (forall s, s ∈ omap tag_message out <-> exists m, flow_rooted m /\ msg_id m = s) /\
    (forall m, m ∈ messages -> msg_id m ∈ placed <-> flow_rooted m) /\
    (forall r, r ∈ out -> row_target r = None \/ is_Some (tag_message r)).
Proof.
  unfold flow_body. set (correlated := group msg_correlation_id (thread_roots messages)).
  set (standalone := filter (fun m => msg_correlation_id m = None) (thread_roots messages)).
  set (header := [plain (num (size correlated + length standalone) +:+ " flows  " +:+ num (length messages) +:+ " messages") (muted_of tier)]).
  assert (forall k l m, (k, l) ∈ btree_iter correlated -> m ∈ l -> flow_root m) as Hg.
  { intros k l m Hk%btree_iter_elem Hm. pose proof (group_members msg_correlation_id (thread_roots messages) k) as E.
    fold correlated in E. unfold members in E. rewrite Hk in E. simpl in E. subst l.
    apply list_elem_of_filter in Hm as [_ Hm]. by apply thread_roots_spec. }
  assert (exists st, fold_opt (place_flow tier messages) (∅, header) (btree_iter correlated) = Some st /\
    threaded (btree_iter correlated ≫= snd) (∅, header) st) as (st1 & H1 & T1).
  { apply (fold_opt_ind (fun done_ s => threaded (done_ ≫= snd) (∅, header) s)).
    - split; [by apply placing_start|done|set_solver|by left].
    - intros l1 [k l] l2 s E Hs. destruct (place_flow_places s (k, l)) as (s' & H1 & H2); [by apply th_placing in Hs| |].
      + intros m Hm. apply (Hg k l); [rewrite E; set_solver|done].
      + exists s'. split; [done|]. rewrite bind_app. eapply threaded_trans; [exact Hs|]. simpl. by rewrite app_nil_r. }
  destruct (threads_place 0 (sort_by arrival_leb standalone) st1) as ([placed out] & H2 & T2); [by apply th_placing in T1| |].
  { intros m. rewrite sort_by_elem_of. unfold standalone. rewrite list_elem_of_filter. intros [_ Hm]. by apply thread_roots_spec. }
  exists placed, out. rewrite H1. simpl. split; [done|].
  destruct (threaded_trans _ _ _ _ _ T1 T2) as [P _ R K]. cbn [fst snd] in *.
  assert (forall m, m ∈ messages -> msg_id m ∈ placed <-> flow_rooted m) as Hp.
  { intros m Hm. rewrite flow_rooted_reached.
    apply (placed_reached msg_id (replies_of messages) messages tag_message flow_rooted Hids flow_root (placed, out)); [apply flow_rooted_reached|done| |done].
    intros n Hn. split; [by destruct Hn|]. apply R, elem_of_app. destruct (msg_correlation_id n) as [k|] eqn:Ek.
    - left. pose proof (group_members msg_correlation_id (thread_roots messages) k) as E. fold correlated in E. unfold members in E.
      assert (n ∈ filter (fun x => msg_correlation_id x = Some k) (thread_roots messages)) as Hin
        by (apply list_elem_of_filter; split; [done|by apply thread_roots_spec]).
      destruct (correlated !! k) as [l|] eqn:El; [|simpl in E; rewrite <-E in Hin; by apply elem_of_nil in Hin].
      simpl in E. apply list_elem_of_bind. exists (k, l). rewrite btree_iter_elem. split; [by rewrite E|done].
    - right. rewrite sort_by_elem_of. apply list_elem_of_filter. split; [done|by apply thread_roots_spec]. }
  split; [by apply (pl_once _ _ _ _ _ _ _ P)|]. split; [|split; [done|]].
  - intros s. rewrite (pl_shown _ _ _ _ _ _ _ P s). split.
    + intros (m & Hm & E & Hg')%(pl_good _ _ _ _ _ _ _ P). by exists m.
    + intros (m & Hm & <-). apply Hp; [by apply flow_rooted_in|done].
  - intros r [->%list_elem_of_singleton|Hr']%K; [by left|done].
Qed.
End Flows.

(** What [flow_rows] draws, whatever the page holds. *)
Lemma flow_rows_draw {V} (st : BoardState V) tier :
  let messages := (unique_by_id msg_id (bs_messages st)).1 in
  exists rows, flow_rows st tier = Some rows /\
    NoDup (omap tag_message rows) /\
    (forall s, s ∈ omap tag_message rows <-> exists m, flow_rooted messages m /\ msg_id m = s) /\
    (let left := length messages - length (omap tag_message rows) in
     0 < left -> diagnostic ("+" +:+ num left +:+ " unthreaded -- reply cycle") (muted_of tier) ∈ rows) /\
    (forall r, r ∈ rows -> row_target r = None \/ is_Some (tag_message r)).
Proof.
  intros messages.
  destruct (flow_body_shows messages (unique_nodup msg_id (bs_messages st)) tier) as (placed & out & Hb & Hn & Hs & Hp & Hk).
  set (findings := flow_findings (count_unplaced msg_id placed messages) (unique_by_id msg_id (bs_messages st)).2).
  destruct (decide (bs_messages st = [])) as [E|Hne].
  - unfold messages, flow_rows. rewrite E. eexists. split; [done|].
    split; [constructor|]. split; [|split].
    + intros s. split; [by intros ?%elem_of_nil|]. intros (m & Hm & _). by apply flow_rooted_in, elem_of_nil in Hm.
    + cbv zeta. intros Hl. simpl in Hl. lia.
    + intros r ->%list_elem_of_singleton. by left.
  - exists (with_findings findings (muted_of tier) out). split.
    { unfold flow_rows, findings, messages in *. destruct (unique_by_id msg_id (bs_messages st)) as [u d].
      cbn [fst snd] in *. rewrite Hb. cbn. by destruct (bs_messages st). }
    rewrite !with_findings_tags by (intros r Hr; unfold tag_message; by rewrite Hr).
    split; [done|]. split; [done|]. split.
    + set (rest := length messages - length (omap tag_message out)). cbv zeta. intros Hl.
      apply with_findings_in. unfold findings, flow_findings.
      rewrite (drawn_count msg_id placed messages (omap tag_message out)); [|apply unique_nodup|done|].
      * apply elem_of_app. left. fold rest. destruct (Nat.ltb_spec 0 rest); [by left|lia].
      * intros s. rewrite Hs. split.
        -- intros (m & Hr & <-). exists m. pose proof (flow_rooted_in _ _ Hr). split; [done|]. split; [done|]. by apply Hp.
        -- intros (m & Hin & <- & Hpl). exists m. split; [by apply Hp|done].
    + intros r [Hr|Hr]%with_findings_row; [by left|by apply Hk].
Qed.
