(* ===== verification/BoardProps.v ===== *)
(** * What the Board promises (gwk-tui/src/board.rs)

    The panels always produce their rows, every row leads to something the page
    holds, the cost panel's buckets add up to its headline without overflow, and
    the summaries rank what they say they rank. *)

From Stdlib Require Import DecimalString DecimalFacts DecimalN.
From S2P Require Import Prelude Text Fsm Envelope Command Ordered Theme Forest Board Panels BoardGraph.
Import Numeric Tier Marks Styles.

(** ** Targets *)

(** The entity a target names is on the page. *)
Definition on_page {V} (st : BoardState V) (t : BoardTarget) : Prop :=
  match t with
  | TTask id => id ∈ task_id <$> bs_tasks st
  | TWorkflowRun id => id ∈ run_id <$> bs_runs st
  | TAttempt id => id ∈ at_id <$> bs_attempts st
  | TNode id => id ∈ dn_id <$> bs_nodes st
  | TMessage id => id ∈ msg_id <$> bs_messages st
  | TEvent id => id ∈ event_id <$> bs_events st
  | TAttention id => id ∈ ai_id <$> bs_attention st
  | TReplayFrame seq => seq ∈ replay_seq <$> bs_replay st
  | TSession id => id ∈ es_id <$> bs_sessions st
  | TWorktree id => id ∈ wt_id <$> bs_worktrees st
  | TLease id => id ∈ le_id <$> bs_leases st
  | TCost id => id ∈ cost_id <$> bs_costs st
  | TIngested id => id ∈ ing_id <$> bs_ingested st
  | TReceipt id => id ∈ rcp_id <$> bs_receipts st
  end.

Definition leads {V} (st : BoardState V) (r : Row) : Prop :=
  match row_target r with Some t => on_page st t | None => True end.

Section Leads.
Context {V : Type} (st : BoardState V).

Lemma leads_plain t s : leads st (plain t s).
Proof. done. Qed.

Lemma leads_pinned findings unknowns muted : Forall (leads st) (pinned_block findings unknowns muted).
Proof.
  assert (forall (A : Type) (f : A -> string) l, Forall (leads st) ((fun x => diagnostic (f x) muted) <$> l)) as Hd.
  { intros A f l. apply Forall_fmap, Forall_true. done. }
  unfold pinned_block. apply Forall_app. split.
  - destruct findings as [|f fs]; [constructor|]. constructor; [done|]. apply (Hd _ (fun f => f)).
  - destruct unknowns as [|u us]; [constructor|]. constructor; [done|]. apply Forall_fmap, Forall_true. by intros [a b].
Qed.

(** Rows made of listed items lead to them. *)
Lemma leads_fmap {A} (row : A -> Row) (l : list A) :
  (forall x, x ∈ l -> leads st (row x)) -> Forall (leads st) (row <$> l).
Proof. intros H. apply Forall_fmap, Forall_forall. exact H. Qed.

Lemma unique_on_page {A} (id : A -> string) (items : list A) x : x ∈ (unique_by_id id items).1 -> id x ∈ id <$> items.
Proof. intros Hx%unique_sub. apply list_elem_of_fmap. eauto. Qed.

Lemma sorted_in {A} (leb : A -> A -> bool) (P : A -> Prop) (l : list A) :
  (forall x, x ∈ l -> P x) -> forall x, x ∈ sort_by leb l -> P x.
Proof. intros H x Hx. apply H. by rewrite sort_by_elem_of in Hx. Qed.

Lemma filtered_in {A} (Q : A -> Prop) `{!∀ x, Decision (Q x)} (P : A -> Prop) (l : list A) :
  (forall x, x ∈ l -> P x) -> forall x, x ∈ filter Q l -> P x.
Proof. intros Hl x [_ Hx]%list_elem_of_filter. by apply Hl. Qed.

Lemma activity_facts_lead f : f ∈ activity_facts st -> leads st (fact_row f).
Proof.
  unfold activity_facts. rewrite !elem_of_app, !list_elem_of_fmap.
  intros [(x & -> & Hx)|[(x & -> & Hx)|[(x & -> & Hx)|[(x & -> & Hx)|(x & -> & Hx)]]]];
    apply unique_on_page in Hx; exact Hx.
Qed.

Lemma recent_activity_leads : Forall (leads st) (fact_row <$> recent_activity st).
Proof.
  apply leads_fmap. intros f Hf. apply activity_facts_lead. unfold recent_activity in Hf.
  apply elem_of_take in Hf as (i & Hi & _). apply list_elem_of_lookup_2 in Hi. by rewrite sort_by_elem_of in Hi.
Qed.

Lemma ranked_on_page i : i ∈ ranked_attention (bs_attention st) -> ai_id i ∈ ai_id <$> bs_attention st.
Proof. unfold ranked_attention. revert i. apply sorted_in, filtered_in, unique_on_page. Qed.

Lemma owed_facts_lead tier f :
  f ∈ owed_facts st ->
  leads st (line INDENT_STEP (of_kind f +:+ " " +:+ of_id f +:+ "  " +:+ of_reason f) None (named_style "needs_attention" tier) (owed_target f)).
Proof.
  unfold owed_facts. rewrite !elem_of_app, !list_elem_of_fmap.
  intros [(x & -> & Hx)|[(x & -> & Hx)|[(x & -> & Hx)|(x & -> & Hx)]]]; [apply ranked_on_page in Hx; exact Hx|..];
    apply list_elem_of_filter in Hx as [_ Hx]; apply unique_on_page in Hx; exact Hx.
Qed.

Ltac plain_row := constructor; [exact I|constructor].
Ltac leads_rows :=
  repeat first [apply leads_pinned | apply Forall_nil; exact I | apply Forall_app; split | apply Forall_cons; split; [exact I|]].

Lemma estate_rows_lead tier : Forall (leads st) (estate_rows st tier).
Proof.
  unfold estate_rows. cbv zeta. leads_rows.
  - unfold estate_overview. cbn [eo_attention_head].
    destruct (ranked_attention (bs_attention st)) as [|i l] eqn:E; cbn; [plain_row|].
    constructor; [|constructor]. apply ranked_on_page. rewrite E. left.
  - unfold estate_overview. cbn [eo_recent_activity].
    pose proof recent_activity_leads as H. destruct (recent_activity st); [plain_row|exact H].
Qed.

Lemma activity_rows_lead tier : Forall (leads st) (activity_rows st tier).
Proof.
  unfold activity_rows. cbv zeta. leads_rows.
  - cbn [activity_brief br_happened]. pose proof recent_activity_leads as H.
    destruct (recent_activity st); [plain_row|exact H].
  - cbn [activity_brief br_owed].
    assert (Forall (leads st) ((fun f => line INDENT_STEP (of_kind f +:+ " " +:+ of_id f +:+ "  " +:+ of_reason f) None
      (named_style "needs_attention" tier) (owed_target f)) <$> take SUMMARY_ROWS (sort_by owed_leb (owed_facts st)))) as H.
    { apply leads_fmap. intros f (i & Hi & _)%elem_of_take. apply list_elem_of_lookup_2 in Hi.
      rewrite sort_by_elem_of in Hi. by apply owed_facts_lead. }
    destruct (take SUMMARY_ROWS (sort_by owed_leb (owed_facts st))); [plain_row|exact H].
Qed.

Lemma workflow_run_rows_lead tier : Forall (leads st) (workflow_run_rows st tier).
Proof.
  unfold workflow_run_rows. pose proof (unique_on_page run_id (bs_runs st)) as Hu.
  destruct (unique_by_id run_id (bs_runs st)) as [runs d]. cbn [fst] in Hu.
  assert (forall (Q : WorkflowRun -> Prop) `{!∀ x, Decision (Q x)},
    Forall (leads st) (workflow_run_row tier <$> filter Q (sort_by (newest_leb run_updated_at run_id) runs))) as Hr.
  { intros Q HQ. apply leads_fmap. apply filtered_in, sorted_in. intros x Hx. by apply Hu. }
  cbv zeta. pose proof (Hr (fun r => run_closed_at r = None) _) as H1. pose proof (Hr (fun r => run_closed_at r <> None) _) as H2.
  destruct (sort_by (newest_leb run_updated_at run_id) runs) as [|r rs]; [leads_rows|]. leads_rows.
  - destruct (filter (fun r => run_closed_at r = None) (r :: rs)); [constructor|]. constructor; [done|exact H1].
  - destruct (filter (fun r => run_closed_at r <> None) (r :: rs)); [constructor|]. constructor; [done|exact H2].
Qed.

Lemma event_rows_lead tier : Forall (leads st) (event_rows st tier).
Proof.
  unfold event_rows. cbv zeta. assert (Forall (leads st) (event_row <$> tail_events st)) as H.
  { apply leads_fmap. unfold tail_events. apply sorted_in, filtered_in, unique_on_page. }
  destruct (tail_events st); leads_rows. exact H.
Qed.

Lemma replay_rows_lead tier : Forall (leads st) (replay_rows st tier).
Proof.
  unfold replay_rows. cbv zeta. assert (Forall (leads st) (replay_row <$> bs_replay st)) as H.
  { apply leads_fmap. intros f Hf. unfold leads, replay_row. simpl. apply list_elem_of_fmap. by exists f. }
  destruct (bs_replay st); [plain_row|]. constructor; [done|exact H].
Qed.

Lemma fleet_rows_lead tier : Forall (leads st) (fleet_rows st tier).
Proof.
  unfold fleet_rows, agent_fleet. pose proof (unique_on_page es_id (bs_sessions st)) as H1.
  pose proof (unique_on_page wt_id (bs_worktrees st)) as H2. pose proof (unique_on_page le_id (bs_leases st)) as H3.
  destruct (unique_by_id es_id (bs_sessions st)) as [ss ds], (unique_by_id wt_id (bs_worktrees st)) as [ws dw],
    (unique_by_id le_id (bs_leases st)) as [ls dl]. cbn [fst snd fl_sessions fl_worktrees fl_leases] in *. cbv zeta.
  assert (Forall (leads st) (session_row tier <$> ss)) as S1.
  { apply leads_fmap. intros x Hx. unfold session_row, leads. destruct (session_face x). by apply H1. }
  assert (Forall (leads st) (worktree_row tier <$> ws)) as S2.
  { apply leads_fmap. intros x Hx. unfold worktree_row, leads. destruct (worktree_face x). by apply H2. }
  assert (Forall (leads st) (lease_row tier <$> ls)) as S3.
  { apply leads_fmap. intros x Hx. unfold lease_row, leads. destruct (lease_face (le_state x)). by apply H3. }
  leads_rows. clear H1 H2 H3. destruct ss, ws, ls; leads_rows; first [exact S1|exact S2|exact S3].
Qed.

Lemma cost_health_rows_lead tier : Forall (leads st) (cost_health_rows st tier).
Proof.
  unfold cost_health_rows. pose proof (unique_on_page ing_id (bs_ingested st)) as Hi.
  destruct (unique_by_id ing_id (bs_ingested st)) as [ing di]. cbn [fst] in Hi. cbv zeta. leads_rows.
  - destruct (Nat.ltb _ _); [|constructor]. leads_rows.
    + apply leads_fmap. done.
    + apply leads_fmap. intros x Hx. unfold cost_rollup in Hx.
      pose proof (unique_on_page cost_id (bs_costs st)) as Hc. destruct (unique_by_id cost_id (bs_costs st)) as [cs dc].
      cbn [cr_entries fst] in *. rewrite sort_by_elem_of in Hx. by apply Hc.
  - apply leads_fmap, filtered_in. intros x Hx. by apply Hi.
Qed.

Lemma audit_rows_lead tier : Forall (leads st) (audit_rows st tier).
Proof.
  unfold audit_rows. pose proof (unique_on_page rcp_id (bs_receipts st)) as Hr.
  destruct (unique_by_id rcp_id (bs_receipts st)) as [rs d]. cbn [fst] in Hr. cbv zeta.
  assert (Forall (leads st) (receipt_row <$> sort_by (newest_leb rcp_ts rcp_id) rs)) as H.
  { apply leads_fmap, sorted_in. intros x Hx. by apply Hr. }
  destruct rs; leads_rows; [exact H|]. apply leads_fmap. by intros [a c] _.
Qed.

Lemma dag_rows_lead tier : exists rows, dag_rows st tier = Some rows /\ Forall (leads st) rows.
Proof.
  destruct (dag_rows_draw st tier) as (rows & Hr & Ht & Ha & _ & Hn & _ & Hk). exists rows. split; [done|].
  apply Forall_forall. intros r Hin. unfold leads.
  assert (forall tag : Row -> option string, is_Some (tag r) -> exists s, tag r = Some s /\ s ∈ omap tag rows) as Htag.
  { intros tag [s Hs]. exists s. split; [done|]. apply list_elem_of_omap. eauto. }
  destruct (Hk r Hin) as [->|[(s & E & Hs)%Htag|[(s & E & Hs)%Htag|(s & E & Hs)%Htag]]]; [done|..].
  - unfold tag_task in E. repeat case_match; simplify_eq/=. rewrite Ht in Hs. by rewrite unique_ids in Hs.
  - unfold tag_attempt in E. repeat case_match; simplify_eq/=. rewrite Ha in Hs. by rewrite unique_ids in Hs.
  - unfold tag_node in E. repeat case_match; simplify_eq/=. apply Hn in Hs as (n & Hg & <-).
    apply dag_rooted_in in Hg. by apply unique_on_page.
Qed.

Lemma flow_rows_lead tier : exists rows, flow_rows st tier = Some rows /\ Forall (leads st) rows.
Proof.
  destruct (flow_rows_draw st tier) as (rows & Hr & _ & Hm & _ & Hk). exists rows. split; [done|].
  apply Forall_forall. intros r Hin. unfold leads. destruct (Hk r Hin) as [->|[s E]]; [done|].
  assert (s ∈ omap tag_message rows) as Hs by (apply list_elem_of_omap; eauto).
  unfold tag_message in E. repeat case_match; simplify_eq/=. apply Hm in Hs as (m & Hg & <-).
  apply flow_rooted_in in Hg. by apply unique_on_page.
Qed.

Lemma board_rows_lead tier : exists rows, board_rows st tier = Some rows /\ Forall (leads st) rows.
Proof.
  unfold board_rows. destruct (bs_view st); try (eexists; split; [reflexivity|]);
    auto using estate_rows_lead, activity_rows_lead, workflow_run_rows_lead, event_rows_lead, replay_rows_lead,
      fleet_rows_lead, cost_health_rows_lead, audit_rows_lead, dag_rows_lead, flow_rows_lead.
Qed.
End Leads.

(** ** The cost fold *)

(** What a ledger of cost rows adds up to. *)
Definition micros_of (c : CostEntry) : Z := default 0%Z (cost_micros c).
Definition total_micros (costs : list CostEntry) : Z := foldr (fun c n => micros_of c + n)%Z 0%Z costs.
Definition priced_rows (costs : list CostEntry) : list CostEntry := filter (fun c => cost_micros c <> None) costs.

(** A ledger a machine can hold: amounts of 64 bits, rows a [usize] counts. *)
Definition holdable (costs : list CostEntry) : Prop :=
  (forall c v, c ∈ costs -> cost_micros c = Some v -> is_u64 v) /\ (Z.of_nat (length costs) <= u64_max)%Z.

Lemma holdable_micros costs c : holdable costs -> c ∈ costs -> is_u64 (micros_of c).
Proof.
  intros [H _] Hc. unfold micros_of. destruct (cost_micros c) as [v|] eqn:E; simpl; [by eapply H|].
  unfold is_u64, u64_max. lia.
Qed.

(** Sums of so many amounts stay in 128 bits. *)
Lemma saturating_exact costs a n v :
  holdable costs -> n < length costs -> (0 <= a <= Z.of_nat n * u64_max)%Z -> is_u64 v ->
  saturating_add_u128 a v = (a + v)%Z /\ (0 <= a + v <= Z.of_nat (S n) * u64_max)%Z.
Proof.
  intros [_ Hl] Hn Ha [Hv0 Hv]. unfold saturating_add_u128.
  assert (a + v <= Z.of_nat (S n) * u64_max)%Z by (rewrite Nat2Z.inj_succ; lia).
  assert (Z.of_nat (S n) * u64_max <= u64_max * u64_max)%Z by (apply Z.mul_le_mono_nonneg_r; [unfold u64_max; lia|lia]).
  assert (u64_max * u64_max <= u128_max)%Z by (vm_compute; discriminate).
  rewrite Z.min_l by lia. lia.
Qed.

Lemma total_micros_app l k : total_micros (l ++ k) = (total_micros l + total_micros k)%Z.
Proof. induction l as [|c l IH]; simpl; [done|]. rewrite IH. lia. Qed.

Lemma price_fold costs rest done_ micros priced estimated :
  holdable costs -> costs = done_ ++ rest ->
  micros = total_micros done_ -> priced = length (priced_rows done_) ->
  (0 <= micros <= Z.of_nat (length done_) * u64_max)%Z ->
  exists e, foldl price (micros, priced, estimated) rest = (total_micros costs, length (priced_rows costs), e).
Proof.
  intros Hh. revert done_ micros priced estimated. induction rest as [|c rest IH]; intros done_ micros priced estimated E -> -> Hb.
  { rewrite app_nil_r in E. subst. by eexists. }
  assert (c ∈ costs) as Hc by (rewrite E; set_solver).
  destruct (saturating_exact costs (total_micros done_) (length done_) (micros_of c) Hh) as [Hs Hb'];
    [rewrite E, length_app; simpl; lia|done|by eapply holdable_micros|].
  cbn [foldl]. unfold micros_of in *.
  destruct (price (total_micros done_, length (priced_rows done_), estimated) c) as [[m p] est] eqn:Ep. unfold price in Ep.
  assert (priced_rows (done_ ++ [c]) = priced_rows done_ ++ (match cost_micros c with Some _ => [c] | None => [] end)) as Hp.
  { unfold priced_rows. rewrite filter_app, filter_cons, filter_nil. by destruct (cost_micros c). }
  destruct (cost_micros c) as [v|] eqn:Ec; simpl in *; injection Ep as <- <- _.
  - apply (IH (done_ ++ [c])); [by rewrite <-(assoc_L (++))|..].
    + rewrite Hs, total_micros_app. simpl. unfold micros_of. rewrite Ec. simpl. lia.
    + rewrite Hp, length_app. simpl. lia.
    + rewrite Hs, length_app. simpl. rewrite Nat.add_1_r. lia.
  - apply (IH (done_ ++ [c])); [by rewrite <-(assoc_L (++))|..].
    + rewrite total_micros_app. simpl. unfold micros_of. rewrite Ec. simpl. lia.
    + by rewrite Hp, app_nil_r.
    + rewrite length_app. simpl. rewrite Nat.add_1_r. lia.
Qed.

(** The rows of one bucket. *)
Definition rows_of (key : string * option string) (costs : list CostEntry) : list CostEntry :=
  filter (fun c => bucket_key c = key) costs.

(** What a bucket holds once some rows are folded. *)
Definition bucket_ok (done_ : list CostEntry) (key : string * option string) (b : Bucket) : Prop :=
  b = (length (rows_of key done_), total_micros (rows_of key done_), length (priced_rows (rows_of key done_))).

Lemma rows_of_snoc key done_ c :
  rows_of key (done_ ++ [c]) = rows_of key done_ ++ (if decide (bucket_key c = key) then [c] else []).
Proof. unfold rows_of. by rewrite filter_app, filter_cons, filter_nil. Qed.

Lemma total_micros_bound costs l :
  holdable costs -> (forall c, c ∈ l -> c ∈ costs) -> (0 <= total_micros l <= Z.of_nat (length l) * u64_max)%Z.
Proof.
  intros Hh. induction l as [|c l IH]; intros Hl; simpl; [lia|].
  destruct IH as [H1 H2]; [set_solver|]. destruct (holdable_micros costs c Hh) as [H3 H4]; [set_solver|].
  rewrite Nat2Z.inj_succ. unfold micros_of in *. lia.
Qed.

Lemma buckets_fold costs rest done_ m :
  holdable costs -> costs = done_ ++ rest ->
  (forall key b, m !! key = Some b -> bucket_ok done_ key b) ->
  (forall key, m !! key = None -> rows_of key done_ = []) ->
  forall key, (forall b, foldl fill_bucket m rest !! key = Some b -> bucket_ok costs key b) /\
    (foldl fill_bucket m rest !! key = None -> rows_of key costs = []).
Proof.
  intros Hh. revert done_ m. induction rest as [|c rest IH]; intros done_ m E Hok Hno.
  { rewrite app_nil_r in E. subst. intros key. split; [apply Hok|apply Hno]. }
  apply (IH (done_ ++ [c])); [by rewrite <-(assoc_L (++))|..].
  - intros key b. unfold fill_bucket. intros [[<- <-]|[Hne Hb]]%lookup_insert_Some.
    + assert (bucket_ok done_ (bucket_key c) (default empty_bucket (m !! bucket_key c))) as Hd.
      { destruct (m !! bucket_key c) as [b|] eqn:Eb; [by apply Hok|]. unfold bucket_ok. by rewrite (Hno _ Eb). }
      unfold bucket_ok in *. rewrite Hd, rows_of_snoc, decide_True by done. unfold add_to_bucket.
      set (l := rows_of (bucket_key c) done_).
      assert (length l <= length done_) as Hlen by apply length_filter.
      assert (c ∈ costs) as Hc by (rewrite E; set_solver).
      destruct (saturating_exact costs (total_micros l) (length done_) (micros_of c) Hh) as [Hs _];
        [rewrite E, length_app; simpl; lia| |by eapply holdable_micros|].
      { destruct (total_micros_bound costs l Hh) as [H1 H2].
        - intros x [_ Hx]%list_elem_of_filter. rewrite E. set_solver.
        - split; [done|]. etrans; [exact H2|]. apply Z.mul_le_mono_nonneg_r; [unfold u64_max|]; lia. }
      rewrite length_app, total_micros_app. unfold priced_rows. rewrite filter_app, filter_cons, filter_nil.
      unfold micros_of in *. destruct (cost_micros c) as [v|] eqn:Ec; simpl in *.
      * rewrite length_app, Hs. simpl. unfold micros_of. rewrite Ec. simpl. f_equal; [f_equal; lia|lia].
      * rewrite app_nil_r. simpl. unfold micros_of. rewrite Ec. simpl. f_equal. f_equal; lia.
    + apply Hok in Hb. unfold bucket_ok in *. by rewrite rows_of_snoc, decide_False, app_nil_r by done.
  - intros key Hn. unfold fill_bucket in Hn. apply lookup_insert_None in Hn as [Hm Hne].
    rewrite rows_of_snoc, decide_False by done. by rewrite (Hno _ Hm).
Qed.

(** The sum of a list of amounts. *)
Definition sum_of {A} (f : A -> Z) (l : list A) : Z := foldr (fun x n => f x + n)%Z 0%Z l.

Lemma sum_of_perm {A} (f : A -> Z) l k : l ≡ₚ k -> sum_of f l = sum_of f k.
Proof. induction 1; unfold sum_of in *; simpl in *; lia. Qed.

Lemma sum_of_app {A} (f : A -> Z) l k : sum_of f (l ++ k) = (sum_of f l + sum_of f k)%Z.
Proof. induction l as [|x l IH]; unfold sum_of in *; simpl in *; [done|lia]. Qed.

Lemma sum_of_bind {A B} (f : B -> Z) (g : A -> list B) l : sum_of (fun x => sum_of f (g x)) l = sum_of f (l ≫= g).
Proof. induction l as [|x l IH]; [done|]. rewrite bind_cons, sum_of_app, <-IH. done. Qed.

Lemma sum_of_ext {A} (f g : A -> Z) l : (forall x, x ∈ l -> f x = g x) -> sum_of f l = sum_of g l.
Proof.
  induction l as [|x l IH]; intros He; [done|]. unfold sum_of in *. simpl. rewrite (He x) by left. rewrite IH; [done|set_solver].
Qed.

Lemma sum_of_fmap {A B} (f : B -> Z) (g : A -> B) l : sum_of f (g <$> l) = sum_of (fun x => f (g x)) l.
Proof. induction l as [|x l IH]; [done|]. rewrite fmap_cons. unfold sum_of in *. cbn [foldr]. by rewrite IH. Qed.

(** A row's share of the headline: itself, its amount, whether it has one. *)
Definition one (c : CostEntry) : Z := 1.
Definition is_priced (c : CostEntry) : Z := match cost_micros c with Some _ => 1 | None => 0 end.

Lemma sum_one l : sum_of one l = Z.of_nat (length l).
Proof. induction l as [|c l IH]; [done|]. unfold sum_of in *. simpl. rewrite IH. unfold one. lia. Qed.
Lemma sum_micros l : sum_of micros_of l = total_micros l.
Proof. done. Qed.
Lemma sum_priced l : sum_of is_priced l = Z.of_nat (length (priced_rows l)).
Proof.
  induction l as [|c l IH]; [done|]. unfold priced_rows in *. rewrite filter_cons. unfold sum_of in *. cbn [foldr].
  rewrite IH. unfold is_priced.
  destruct (cost_micros c) as [v|]; [rewrite decide_True by done|rewrite decide_False by tauto]; simpl; lia.
Qed.

Lemma unpriced_total l : priced_rows l = [] -> total_micros l = 0%Z.
Proof.
  induction l as [|c l IH]; [done|]. unfold priced_rows in *. rewrite filter_cons. case_decide as Hc; [done|].
  intros H. simpl. rewrite IH by done. unfold micros_of. destruct (cost_micros c); [|done]. discriminate Hc.
Qed.

(** The buckets of a ledger, in the order they are listed. *)
Definition listed (costs : list CostEntry) : list ((string * option string) * Bucket) :=
  sort_by bucket_leb (map_to_list (buckets costs)).

Lemma bucket_listed_ok costs key b : holdable costs -> (key, b) ∈ listed costs -> bucket_ok costs key b.
Proof.
  intros Hh. unfold listed. rewrite sort_by_elem_of, elem_of_map_to_list. unfold buckets. intros Hb.
  edestruct (buckets_fold costs costs [] ∅ Hh eq_refl) as [H _]; [done|done|]. by apply H.
Qed.

Lemma listed_keys costs : holdable costs -> NoDup (listed costs).*1 /\ forall c, c ∈ costs -> bucket_key c ∈ (listed costs).*1.
Proof.
  intros Hh. unfold listed. split; [rewrite sort_by_perm; apply NoDup_fst_map_to_list|].
  intros c Hc. rewrite sort_by_perm. destruct (buckets costs !! bucket_key c) as [b|] eqn:E.
  - apply list_elem_of_fmap. exists (bucket_key c, b). split; [done|]. by apply elem_of_map_to_list.
  - edestruct (buckets_fold costs costs [] ∅ Hh eq_refl) as [_ H]; [done|done|]. apply H in E.
    assert (c ∈ rows_of (bucket_key c) costs) as Hin by (by apply list_elem_of_filter).
    rewrite E in Hin. by apply elem_of_nil in Hin.
Qed.

(** The buckets share the ledger out: any sum over rows is the sum of the
    buckets' sums. *)
Lemma buckets_partition costs (f : CostEntry -> Z) (g : (string * option string) * Bucket -> Z) :
  holdable costs ->
  (forall key b, (key, b) ∈ listed costs -> g (key, b) = sum_of f (rows_of key costs)) ->
  sum_of g (listed costs) = sum_of f costs.
Proof.
  intros Hh Hg. destruct (listed_keys costs Hh) as [Hn Hk].
  rewrite (sum_of_ext g (fun kb => sum_of f (rows_of kb.1 costs))) by (intros [key b]; apply Hg).
  rewrite <-(sum_of_fmap (fun key => sum_of f (rows_of key costs)) fst), sum_of_bind. apply sum_of_perm.
  etrans; [|apply (partition_perm bucket_key (listed costs).*1 costs Hn)].
  rewrite (filter_none_in (fun x => bucket_key x ∉ (listed costs).*1)), app_nil_r; [done|].
  intros c Hc Hno. by apply Hno, Hk.
Qed.

(** The printed amount, read back: no amount is no money. *)
Definition read_micros (o : option string) : Z :=
  match o with
  | None => 0
  | Some s => match NilZero.uint_of_string s with Some d => Z.of_N (N.of_uint d) | None => 0 end
  end.

Lemma parse_numeric n : (0 <= n)%Z ->
  exists d, NilZero.uint_of_string (to_numeric_text n) = Some d /\ Z.of_N (N.of_uint d) = n.
Proof.
  intros Hn. unfold to_numeric_text. exists (N.to_uint (Z.to_N n)). rewrite NilZero.usu by apply to_uint_nonnil.
  split; [done|]. rewrite DecimalN.Unsigned.of_to. lia.
Qed.

Lemma read_numeric n : (0 <= n)%Z -> read_micros (Some (to_numeric_text n)) = n.
Proof. intros Hn. destruct (parse_numeric n Hn) as (d & E & Hd). unfold read_micros. by rewrite E. Qed.

Lemma holdable_unique costs : holdable costs -> holdable (unique_by_id cost_id costs).1.
Proof.
  intros [H1 H2]. split.
  - intros c v Hc%unique_sub. by apply H1.
  - pose proof (unique_length cost_id costs). lia.
Qed.

(** The headline of a ledger. *)
Lemma cost_headline_spec costs :
  holdable costs ->
  let u := (unique_by_id cost_id costs).1 in let h := cost_headline costs in
  ch_entries h = length u /\ ch_priced_entries h = length (priced_rows u) /\
  ch_unpriced_entries h = length u - length (priced_rows u) /\
  (ch_cost_micros h = None <-> priced_rows u = []) /\ read_micros (ch_cost_micros h) = total_micros u.
Proof.
  intros Hh u h. pose proof (holdable_unique _ Hh) as Hu. fold u in Hu.
  destruct (price_fold u u [] 0 0 0 Hu eq_refl eq_refl eq_refl) as [e He]; [simpl; lia|].
  unfold h, cost_headline. fold u. rewrite He. cbn. split; [done|]. split; [done|]. split; [done|].
  pose proof (total_micros_bound u u Hu (fun _ H => H)) as [Hpos _].
  destruct (priced_rows u) as [|c l] eqn:Ep; simpl.
  - split; [done|]. by rewrite unpriced_total.
  - split; [done|]. by apply read_numeric.
Qed.

Lemma rollup_ok costs key b :
  holdable costs -> (key, b) ∈ listed costs ->
  let r := rollup_of (key, b) in
  (ecr_engine r, ecr_model r) = key /\ ecr_entries r = length (rows_of key costs) /\
  ecr_priced_entries r = length (priced_rows (rows_of key costs)) /\
  read_micros (ecr_cost_micros r) = total_micros (rows_of key costs).
Proof.
  intros Hh Hb%bucket_listed_ok; [|done]. unfold bucket_ok in Hb. subst b. destruct key as [engine model]. cbn.
  split; [done|]. split; [done|]. split; [done|].
  assert (forall c, c ∈ rows_of (engine, model) costs -> c ∈ costs) as Hsub by (by intros c [_ ?]%list_elem_of_filter).
  pose proof (total_micros_bound costs _ Hh Hsub) as [Hpos _].
  destruct (priced_rows (rows_of (engine, model) costs)) as [|c l] eqn:Ep; simpl.
  - by rewrite unpriced_total.
  - by apply read_numeric.
Qed.

(** The whole cost fold. *)
Lemma cost_rollup_adds_up {V} (st : BoardState V) :
  holdable (bs_costs st) ->
  let u := (unique_by_id cost_id (bs_costs st)).1 in let r := cost_rollup st in
  read_micros (ch_cost_micros (cr_headline r)) = total_micros u /\
  (ch_cost_micros (cr_headline r) = None <-> forall c, c ∈ u -> cost_micros c = None) /\
  sum_of (fun b => read_micros (ecr_cost_micros b)) (cr_by_engine r) = read_micros (ch_cost_micros (cr_headline r)) /\
  sum_of (fun b => Z.of_nat (ecr_entries b)) (cr_by_engine r) = Z.of_nat (ch_entries (cr_headline r)) /\
  sum_of (fun b => Z.of_nat (ecr_priced_entries b)) (cr_by_engine r) = Z.of_nat (ch_priced_entries (cr_headline r)) /\
  NoDup ((fun b => (ecr_engine b, ecr_model b)) <$> cr_by_engine r).
Proof.
  intros Hh u r. destruct (cost_headline_spec _ Hh) as (H1 & H2 & _ & H4 & H5). fold u in H1, H2, H4, H5.
  pose proof (holdable_unique _ Hh) as Hu. fold u in Hu.
  assert (cr_headline r = cost_headline (bs_costs st)) as Hhead.
  { unfold r, cost_rollup. by destruct (unique_by_id cost_id (bs_costs st)). }
  assert (cr_by_engine r = rollup_of <$> listed u) as Hby.
  { unfold r, cost_rollup, u. by destruct (unique_by_id cost_id (bs_costs st)). }
  rewrite Hhead, Hby, !sum_of_fmap. split; [done|]. split; [|split; [|split; [|split]]].
  - rewrite H4. unfold priced_rows. rewrite filter_none. split; intros H c Hc.
    + destruct (decide (cost_micros c = None)) as [|Hne]; [done|]. by destruct (H c Hc).
    + intros Hne. by apply Hne, H.
  - rewrite H5, <-sum_micros. apply buckets_partition; [done|]. intros key b Hb. by apply rollup_ok.
  - rewrite H1, <-sum_one. apply buckets_partition; [done|]. intros key b Hb. rewrite sum_one.
    by destruct (rollup_ok u key b Hu Hb) as (_ & -> & _).
  - rewrite H2, <-sum_priced. apply buckets_partition; [done|]. intros key b Hb. rewrite sum_priced.
    by destruct (rollup_ok u key b Hu Hb) as (_ & _ & -> & _).
  - rewrite <-list_fmap_compose. destruct (listed_keys u Hu) as [Hn _].
    rewrite (list_fmap_ext _ fst (listed u)); [done|].
    intros i [key b] Hi. apply list_elem_of_lookup_2 in Hi. destruct (rollup_ok u key b Hu Hi) as [E _]. exact E.
Qed.

(** ** Rankings *)

#[local] Instance priority_total : TotalPreorder priority_leb.
Proof.
  unfold priority_leb. split.
  - intros x y. destruct (ai_priority x) as [a|], (ai_priority y) as [b|]; eauto. rewrite !Z.leb_le. lia.
  - intros x y z. destruct (ai_priority x) as [a|], (ai_priority y) as [b|], (ai_priority z) as [c|]; try done.
    rewrite !Z.leb_le. lia.
Qed.

#[local] Instance later_total {A} (f : A -> string) : TotalPreorder (fun x y => String.leb (f y) (f x)).
Proof.
  split; intros; [destruct (leb_total String.leb (f y) (f x)); eauto|by eapply (leb_trans String.leb)].
Qed.

#[local] Instance id_total {A} (f : A -> string) : TotalPreorder (id_leb f).
Proof. apply (leb_by_key f). apply _. Qed.

(** The head of a sort is its least element. *)
Lemma sort_head_least {A} (leb : A -> A -> bool) `{!TotalPreorder leb} (l : list A) x :
  List.head (sort_by leb l) = Some x -> x ∈ l /\ forall y, y ∈ l -> leb x y = true.
Proof.
  intros Hx. pose proof (sort_by_sorted leb l) as Hs. pose proof (sort_by_elem_of leb) as He.
  destruct (sort_by leb l) as [|z k] eqn:E; [done|]. injection Hx as ->. split.
  - rewrite <-(He x l), E. left.
  - intros y Hy. rewrite <-(He y l), E in Hy. apply elem_of_cons in Hy as [->|Hy]; [apply leb_refl, _|].
    inversion Hs as [|? ? _ HF]; subst. rewrite Forall_forall in HF. by apply Is_true_true, HF.
Qed.

(** The estate's attention head is the open item to look at first: the lowest
    rank number, ranked before unranked, ties by id; there is none only when
    nothing is open. *)
Lemma attention_head_is_first {V} (st : BoardState V) :
  match eo_attention_head (estate_overview st) with
  | None => forall i, i ∈ bs_attention st -> exists j, j ∈ bs_attention st /\ ai_id j = ai_id i /\ is_Some (ai_resolved_at j)
  | Some head => exists i, i ∈ bs_attention st /\ ai_resolved_at i = None /\ ai_id i = ah_id head /\
      forall j, j ∈ (unique_by_id ai_id (bs_attention st)).1 -> ai_resolved_at j = None ->
        lex priority_leb (id_leb ai_id) i j = true
  end.
Proof.
  unfold estate_overview. cbn [eo_attention_head].
  destruct (List.head (ranked_attention (bs_attention st))) as [i|] eqn:E; cbn.
  - apply sort_head_least in E as [Hi Hl]; [|apply _]. apply list_elem_of_filter in Hi as [Hr Hi].
    exists i. split; [by eapply unique_sub|]. split; [done|]. split; [done|]. intros j Hj Hrj. apply Hl.
    by apply list_elem_of_filter.
  - unfold ranked_attention in E. intros i Hi.
    assert (ai_id i ∈ ai_id <$> (unique_by_id ai_id (bs_attention st)).1) as Hid by (apply unique_ids, list_elem_of_fmap; eauto).
    apply list_elem_of_fmap in Hid as (j & Hij & Hj). exists j. split; [by eapply unique_sub|]. split; [done|].
    destruct (ai_resolved_at j) eqn:Er; [eauto|]. exfalso.
    assert (j ∈ sort_by (lex priority_leb (id_leb ai_id)) (filter (fun i => ai_resolved_at i = None) (unique_by_id ai_id (bs_attention st)).1)) as Hin
      by (rewrite sort_by_elem_of; by apply list_elem_of_filter).
    destruct (sort_by _ _); [by apply elem_of_nil in Hin|done].
Qed.

(** A truncated sort shows the least elements. *)
Lemma take_sort_least {A} (leb : A -> A -> bool) `{!TotalPreorder leb} n (l : list A) :
  let shown := take n (sort_by leb l) in
  length shown = Nat.min n (length l) /\ shown ++ drop n (sort_by leb l) ≡ₚ l /\
  forall x y, x ∈ shown -> y ∈ drop n (sort_by leb l) -> leb x y = true.
Proof.
  intros shown. unfold shown. split; [by rewrite length_take, sort_by_length|].
  split; [by rewrite take_drop, sort_by_perm|].
  pose proof (sort_by_sorted leb l) as Hs. rewrite <-(take_drop n (sort_by leb l)) in Hs.
  intros x y Hx Hy. apply Is_true_true. revert Hs Hx Hy. generalize (take n (sort_by leb l)) (drop n (sort_by leb l)).
  intros l1 l2. induction l1 as [|z l1 IH]; [set_solver|]. simpl. inversion 1 as [|? ? Hs' HF]; subst.
  intros [->|Hx]%elem_of_cons Hy; [|by apply IH]. rewrite Forall_forall in HF. apply HF. set_solver.
Qed.

(** ** Views *)

(** The tab strip is one ring: [next] visits every panel in the order of the
    strip, and [previous] undoes it. *)
Lemma views_are_a_ring v :
  previous_view (next_view v) = v /\ next_view (previous_view v) = v /\
  (exists i, ALL_VIEWS !! i = Some v /\ ALL_VIEWS !! (S i mod length ALL_VIEWS) = Some (next_view v)) /\
  NoDup (view_str <$> ALL_VIEWS).
Proof.
  split; [by destruct v|]. split; [by destruct v|]. split.
  - destruct v; [exists 0|exists 1|exists 2|exists 3|exists 4|exists 5|exists 6|exists 7|exists 8|exists 9]; done.
  - apply (bool_decide_unpack _). vm_compute. exact I.
Qed.

(** Every binding and mark a row names is pinned in the tables, so that no
    lookup panics. *)
Lemma faces_are_pinned :
  (forall s, is_Some (binding (task_face s).2)) /\ (forall s, is_Some (binding (attempt_face s).2)) /\
  (forall s, is_Some (binding (message_face s).2)) /\ (forall s, is_Some (binding (lease_face s).2)) /\
  Forall (fun n => is_Some (binding n)) ["idle"; "needs_attention"; "running"; "done"; "failed"; "canceled"; "unknown"] /\
  Forall (fun n => is_Some (mark n)) ["task"; "attempt"; "dispatch"; "message"].
Proof.
  assert (forall n, is_some (binding n) = true -> is_Some (binding n)) as Hb by (intros n; destruct (binding n); [eauto|done]).
  assert (forall n, is_some (mark n) = true -> is_Some (mark n)) as Hm by (intros n; destruct (mark n); [eauto|done]).
  split; [|split; [|split; [|split; [|split]]]].
  1-4: intros s; apply Hb; by destruct s.
  - repeat constructor; by apply Hb.
  - repeat constructor; by apply Hm.
Qed.

(** ** The promises *)

(** C38: The task graph and the message flow of the Board draw any page,
    repeated ids and cycles of parents included: every task, attempt, node and
    message gets at most one row, every task and attempt gets one, a node or a
    message gets one exactly when its chain of parents starts at a root, and when
    some are left a row says how many. *)
Theorem graphs_draw_the_page_once {V} (st : BoardState V) (tier : ColorTier) :
  let nodes := (unique_by_id dn_id (bs_nodes st)).1 in
  let messages := (unique_by_id msg_id (bs_messages st)).1 in
  (exists rows, dag_rows st tier = Some rows /\
    NoDup (omap tag_task rows) /\ (forall s, s ∈ omap tag_task rows <-> s ∈ task_id <$> bs_tasks st) /\
    NoDup (omap tag_attempt rows) /\ (forall s, s ∈ omap tag_attempt rows <-> s ∈ at_id <$> bs_attempts st) /\
    NoDup (omap tag_node rows) /\
    (forall s, s ∈ omap tag_node rows <-> exists n, dag_rooted nodes n /\ dn_id n = s) /\
    (let left := length nodes - length (omap tag_node rows) in
     0 < left -> diagnostic ("+" +:+ num left +:+ " unplaced -- parent cycle") (muted_of tier) ∈ rows)) /\
  (exists rows, flow_rows st tier = Some rows /\
    NoDup (omap tag_message rows) /\
    (forall s, s ∈ omap tag_message rows <-> exists m, flow_rooted messages m /\ msg_id m = s) /\
    (let left := length messages - length (omap tag_message rows) in
     0 < left -> diagnostic ("+" +:+ num left +:+ " unthreaded -- reply cycle") (muted_of tier) ∈ rows)).
Proof.
  intros nodes messages.
  destruct (dag_rows_draw st tier) as (rows & H1 & Ht & Ha & Hn & Hs & Hl & _).
  destruct (flow_rows_draw st tier) as (rows' & H1' & Hn' & Hs' & Hl' & _). split.
  - exists rows. split; [done|]. rewrite Ht, Ha. split; [apply unique_nodup|]. split; [intros s; rewrite Ht; apply unique_ids|].
    split; [apply unique_nodup|]. split; [intros s; rewrite Ha; apply unique_ids|]. done.
  - by exists rows'.
Qed.

(** On every panel of every page the rows are produced, and what
    the keyboard can select is something the page holds. *)
Theorem keyboard_stays_on_the_page {V} (st : BoardState V) :
  exists ts, target_order st = Some ts /\ forall t, t ∈ ts -> on_page st t.
Proof.
  destruct (board_rows_lead st Mono) as (rows & Hr & Hl). exists (targets rows). unfold target_order. rewrite Hr.
  split; [done|]. intros t (r & Hin & Ht)%list_elem_of_omap. rewrite Forall_forall in Hl. specialize (Hl r Hin).
  unfold leads in Hl. by rewrite Ht in Hl.
Qed.

(** On a ledger a machine can hold, the cost panel's headline is
    the sum of the ledger without repeated ids, absent exactly when nothing is
    priced, and the buckets per engine and model, each once, add up to it in
    money, rows and priced rows: no sum is saturated. *)
Theorem cost_panel_adds_up {V} (st : BoardState V) :
  holdable (bs_costs st) ->
  let u := (unique_by_id cost_id (bs_costs st)).1 in let r := cost_rollup st in
  read_micros (ch_cost_micros (cr_headline r)) = total_micros u /\
  (ch_cost_micros (cr_headline r) = None <-> forall c, c ∈ u -> cost_micros c = None) /\
  sum_of (fun b => read_micros (ecr_cost_micros b)) (cr_by_engine r) = read_micros (ch_cost_micros (cr_headline r)) /\
  sum_of (fun b => Z.of_nat (ecr_entries b)) (cr_by_engine r) = Z.of_nat (ch_entries (cr_headline r)) /\
  sum_of (fun b => Z.of_nat (ecr_priced_entries b)) (cr_by_engine r) = Z.of_nat (ch_priced_entries (cr_headline r)) /\
  NoDup ((fun b => (ecr_engine b, ecr_model b)) <$> cr_by_engine r).
Proof. apply cost_rollup_adds_up. Qed.
