(* ===== verification/Replay.v ===== *)
(** * Replaying a persisted recording (gwk-tui/src/replay.rs)

    The console reads the recordings the PTY crate persists with a reader of its
    own, which shares no code with gwk-pty and refuses more: elapsed time that
    runs backwards and a terminal without cells.  It accepts exactly those
    recordings of [Recording] that meet the two conditions, with the same
    events in the same order, and it always ends. *)

From S2P Require Import Prelude Text Container Recording Theme Forest Board Panels.

Inductive ReplayError :=
| RMagic | RTruncated | RUnknownTag (tag : Z) | RSequenceOutOfOrder (previous found : Z)
| RElapsedOutOfOrder (previous found : Z) | RInvalidGeometry (cols rows : Z)
| RImpossibleLength (declared : Z) (remaining : nat).

(** [take] and the little-endian readers. *)
Definition replay_take (n : nat) (rest : bytes) : result ReplayError (bytes * bytes) :=
  if (length rest <? n)%nat then Err RTruncated else Ok (take n rest, drop n rest).
Definition read_int (k : nat) (rest : bytes) : result ReplayError (Z * bytes) :=
  '(b, rest) ← replay_take k rest; mret (from_le b, rest).

(** [Some(previous) if !(previous < found)], as the reader checks it. *)
Definition in_order (ok : Z -> bool) (err : Z -> ReplayError) (previous : option Z) : result ReplayError unit :=
  match previous with Some p => ensure (ok p) (err p) | None => mret tt end.

(** One turn of the loop of [ReplayTimeline::decode]. *)
Definition decode_frame (previous_seq previous_elapsed : option Z) (rest : bytes) : result ReplayError (ReplayFrame * bytes) :=
  '(seq, rest) ← read_int 8 rest;
  _ ← in_order (fun p => negb (seq <=? p)%Z) (fun p => RSequenceOutOfOrder p seq) previous_seq;
  '(elapsed_ms, rest) ← read_int 8 rest;
  _ ← in_order (fun p => negb (elapsed_ms <? p)%Z) (fun p => RElapsedOutOfOrder p elapsed_ms) previous_elapsed;
  '(tag, rest) ← read_int 1 rest;
  if (tag =? 0)%Z then
    '(declared, rest) ← read_int 4 rest;
    _ ← ensure (negb (length rest <? Z.to_nat declared)%nat) (RImpossibleLength declared (length rest));
    '(b, rest) ← replay_take (Z.to_nat declared) rest;
    mret (ReplayOutput seq elapsed_ms b, rest)
  else if (tag =? 1)%Z then
    '(cols, rest) ← read_int 2 rest;
    '(rows, rest) ← read_int 2 rest;
    _ ← ensure (negb ((cols =? 0) || (rows =? 0))%Z) (RInvalidGeometry cols rows);
    mret (ReplayResize seq elapsed_ms cols rows, rest)
  else Err (RUnknownTag tag).

(** The loop; [None] is out of fuel. *)
Fixpoint decode_frames (fuel : nat) (previous_seq previous_elapsed : option Z) (rest : bytes) : option (result ReplayError (list ReplayFrame)) :=
  match rest with
  | [] => Some (Ok [])
  | _ =>
      match fuel with
      | O => None
      | S fuel =>
          match decode_frame previous_seq previous_elapsed rest with
          | Err e => Some (Err e)
          | Ok (f, rest) =>
              match decode_frames fuel (Some (replay_seq f)) (Some (replay_elapsed_ms f)) rest with
              | Some (Ok frames) => Some (Ok (f :: frames))
              | failed => failed
              end
          end
      end
  end.

(** [ReplayTimeline::decode]. *)
Definition timeline_decode (l : bytes) : option (result ReplayError (list ReplayFrame)) :=
  match strip_bytes MAGIC l with
  | None => Some (Err RMagic)
  | Some rest => decode_frames (length rest) None None rest
  end.

(** ** The two readers *)

(** The frame of a recorded entry. *)
Definition frame_of (e : Entry) : ReplayFrame :=
  match en_event e with
  | Output b => ReplayOutput (en_seq e) (en_offset_ms e) b
  | Resize cols rows => ReplayResize (en_seq e) (en_offset_ms e) cols rows
  end.

Definition has_cells (e : Event) : Prop := match e with Output _ => True | Resize cols rows => cols <> 0%Z /\ rows <> 0%Z end.

(** Elapsed time that never runs backwards. *)
Definition not_before (previous : option Z) (n : Z) : Prop := match previous with Some p => (p <= n)%Z | None => True end.
Fixpoint in_time (previous : option Z) (l : list Entry) : Prop :=
  match l with
  | [] => True
  | e :: l => not_before previous (en_offset_ms e) /\ in_time (Some (en_offset_ms e)) l
  end.

Lemma replay_take_iff n rest x : replay_take n rest = Ok x <-> take_bytes n rest = Ok x.
Proof. unfold replay_take, take_bytes. destruct (length rest <? n)%nat; [done|]. split; by intros [= <-]. Qed.

Lemma read_int_iff k rest x : read_int k rest = Ok x <-> take_int k rest = Ok x.
Proof.
  unfold read_int, take_int. rewrite !bind_ok_iff. split; intros ([b r] & H1 & H2); exists (b, r); split.
  1,3: by apply replay_take_iff. all: injection H2 as <-; done.
Qed.

Lemma in_order_iff ok err previous : in_order ok err previous = Ok tt <-> match previous with Some p => ok p = true | None => True end.
Proof. destruct previous; simpl; [apply ensure_ok_iff|done]. Qed.

(** What one reader reads, the other reads. *)
Lemma decode_frame_iff ps pe rest f rest' :
  decode_frame ps pe rest = Ok (f, rest') <->
  exists e, decode_entry ps rest = Ok (e, rest') /\ f = frame_of e /\ not_before pe (en_offset_ms e) /\ has_cells (en_event e).
Proof.
  unfold decode_frame, decode_entry, decode_event. split.
  - intros ([seq r1] & H1%read_int_iff & H)%bind_ok_iff. apply bind_ok_iff in H as ([] & Hs%in_order_iff & H).
    apply bind_ok_iff in H as ([off r2] & H2%read_int_iff & H). apply bind_ok_iff in H as ([] & He%in_order_iff & H).
    apply bind_ok_iff in H as ([tag r3] & H3%read_int_iff & H). rewrite H1. cbn [mbind result_bind].
    assert (match ps with Some p => ensure (p <? seq)%Z (OutOfOrder p seq) | None => mret tt end = Ok tt) as ->.
    { destruct ps as [p|]; [|done]. apply ensure_ok_iff. apply negb_true_iff, Z.leb_gt in Hs. by apply Z.ltb_lt. }
    cbn [mbind result_bind]. rewrite H2. cbn [mbind result_bind]. rewrite H3. cbn [mbind result_bind].
    assert (not_before pe off) as Hoff.
    { destruct pe as [p|]; [|done]. apply negb_true_iff, Z.ltb_ge in He. exact He. }
    destruct (tag =? 0)%Z; [|destruct (tag =? 1)%Z; [|done]].
    + apply bind_ok_iff in H as ([len r4] & H4%read_int_iff & H). apply bind_ok_iff in H as ([] & _ & H).
      apply bind_ok_iff in H as ([b r5] & H5%replay_take_iff & [= <- <-]). rewrite H4. cbn [mbind result_bind].
      rewrite H5. cbn. by eexists.
    + apply bind_ok_iff in H as ([cols r4] & H4%read_int_iff & H). apply bind_ok_iff in H as ([rows r5] & H5%read_int_iff & H).
      apply bind_ok_iff in H as ([] & Hg%ensure_ok_iff & [= <- <-]). rewrite H4. cbn [mbind result_bind]. rewrite H5. cbn.
      eexists. split; [done|]. split; [done|]. split; [done|]. simpl.
      apply negb_true_iff, orb_false_iff in Hg as [Hc%Z.eqb_neq Hr%Z.eqb_neq]. done.
  - intros (e & ([seq r1] & H1%read_int_iff & H)%bind_ok_iff & -> & Hoff & Hg). rewrite H1. cbn [mbind result_bind].
    apply bind_ok_iff in H as ([] & Hs & H). apply bind_ok_iff in H as ([off r2] & H2%read_int_iff & H).
    assert (in_order (fun p => negb (seq <=? p)%Z) (fun p => RSequenceOutOfOrder p seq) ps = Ok tt) as ->.
    { apply in_order_iff. destruct ps as [p|]; [|done]. apply ensure_ok_iff, Z.ltb_lt in Hs. by apply negb_true_iff, Z.leb_gt. }
    cbn [mbind result_bind]. rewrite H2. cbn [mbind result_bind].
    apply bind_ok_iff in H as ([ev r3] & Hev & [= <- <-]). simpl in Hoff, Hg.
    assert (in_order (fun p => negb (off <? p)%Z) (fun p => RElapsedOutOfOrder p off) pe = Ok tt) as ->.
    { apply in_order_iff. destruct pe as [p|]; [|done]. by apply negb_true_iff, Z.ltb_ge. }
    cbn [mbind result_bind]. apply bind_ok_iff in Hev as ([tag r4] & H3%read_int_iff & H). rewrite H3. cbn [mbind result_bind].
    destruct (tag =? 0)%Z; [|destruct (tag =? 1)%Z; [|done]].
    + apply bind_ok_iff in H as ([len r5] & H4%read_int_iff & H). apply bind_ok_iff in H as ([b r6] & H5 & [= <- <-]).
      rewrite H4. cbn [mbind result_bind]. pose proof (take_bytes_inv _ _ _ _ H5) as [-> Hlen].
      rewrite (proj2 (Nat.ltb_ge _ _)) by (rewrite length_app; lia). cbn [negb ensure mbind result_bind].
      apply replay_take_iff in H5. by rewrite H5.
    + apply bind_ok_iff in H as ([cols r5] & H4%read_int_iff & H). apply bind_ok_iff in H as ([rows r6] & H5%read_int_iff & [= <- <-]).
      rewrite H4. cbn [mbind result_bind]. rewrite H5. cbn [mbind result_bind]. destruct Hg as [Hc Hr].
      by rewrite (proj2 (Z.eqb_neq _ _) Hc), (proj2 (Z.eqb_neq _ _) Hr).
Qed.

Lemma frame_of_seq e : replay_seq (frame_of e) = en_seq e /\ replay_elapsed_ms (frame_of e) = en_offset_ms e.
Proof. unfold frame_of. by destruct (en_event e). Qed.

Lemma decode_frames_encoded fuel ps pe l :
  Forall entry_ok l -> in_sequence ps l -> in_time pe l -> Forall (fun e => has_cells (en_event e)) l ->
  (length (concat (encode_entry <$> l)) <= fuel)%nat ->
  decode_frames fuel ps pe (concat (encode_entry <$> l)) = Some (Ok (frame_of <$> l)).
Proof.
  intros Hl. revert fuel ps pe. induction Hl as [|e l He Hl IH]; intros fuel ps pe Hs Ht Hc Hf; [by destruct fuel|].
  cbn [fmap list_fmap concat] in *. rewrite length_app in Hf. pose proof (encode_entry_length e) as H17.
  destruct fuel as [|fuel]; [lia|]. destruct Hs as [Hp Hs], Ht as [Ho Ht]. apply Forall_cons in Hc as [Hce Hc].
  pose proof (decode_entry_encoded ps e (concat (encode_entry <$> l)) He Hp) as Hd.
  assert (decode_frame ps pe (encode_entry e ++ concat (encode_entry <$> l)) = Ok (frame_of e, concat (encode_entry <$> l))) as Hfr
    by (apply decode_frame_iff; by exists e).
  destruct (encode_entry e ++ concat (encode_entry <$> l)) as [|b rest] eqn:E.
  { apply (f_equal length) in E. rewrite length_app in E. cbn in E. lia. }
  cbn [decode_frames]. rewrite Hfr. destruct (frame_of_seq e) as [-> ->]. rewrite IH; [done|done|done|done|lia].
Qed.

Lemma decode_frames_inv fuel ps pe rest :
  Forall byte_ok rest -> (length rest <= fuel)%nat ->
  exists r, decode_frames fuel ps pe rest = Some r /\
  match r with
  | Ok frames => exists l, frames = frame_of <$> l /\ rest = concat (encode_entry <$> l) /\ Forall entry_ok l /\
      in_sequence ps l /\ in_time pe l /\ Forall (fun e => has_cells (en_event e)) l
  | Err _ => True
  end.
Proof.
  revert ps pe rest. induction fuel as [|fuel IH]; intros ps pe rest Hb Hf.
  { destruct rest; [|cbn in Hf; lia]. exists (Ok []). split; [done|]. by exists []. }
  destruct rest as [|b rest]; [exists (Ok []); split; [done|]; by exists []|]. cbn [decode_frames].
  destruct (decode_frame ps pe (b :: rest)) as [[f rest']|err] eqn:E; [|by exists (Err err)].
  apply decode_frame_iff in E as (e & E & -> & Ho & Hc). destruct (frame_of_seq e) as [-> ->].
  apply decode_entry_inv in E as (Hr & He & Hp & Hb'); [|done].
  pose proof (encode_entry_length e) as H17. apply (f_equal length) in Hr as Hlen. rewrite length_app in Hlen.
  destruct (IH (Some (en_seq e)) (Some (en_offset_ms e)) rest' Hb') as (r & -> & Hres); [lia|].
  destruct r as [frames|err]; [|by exists (Err err)]. destruct Hres as (l & -> & -> & Hl & Hs & Ht & Hcs).
  exists (Ok (frame_of e :: (frame_of <$> l))). split; [done|]. exists (e :: l).
  split; [done|]. split; [by rewrite Hr|]. split; [by constructor|]. split; [by split|]. split; [by split|by constructor].
Qed.

(** C35: The console's own reader of persisted recordings always ends,
    and it accepts exactly the encodings of well-formed recordings whose numbers
    rise, whose elapsed time never runs backwards and whose terminals have cells,
    with the recorded events in their order; it shares no code with the crate
    that writes them. *)
Theorem console_replays_recordings (l : bytes) (frames : list ReplayFrame) :
  Forall byte_ok l ->
  (exists res, timeline_decode l = Some res) /\
  (timeline_decode l = Some (Ok frames) <->
   exists entries, l = MAGIC ++ concat (encode_entry <$> entries) /\ frames = frame_of <$> entries /\
     Forall entry_ok entries /\ in_sequence None entries /\ in_time None entries /\
     Forall (fun e => has_cells (en_event e)) entries).
Proof.
  intros Hb. unfold timeline_decode. split; [|split].
  - destruct (strip_bytes MAGIC l) as [rest|] eqn:E; [|by eexists].
    apply strip_bytes_inv in E as ->. apply Forall_app in Hb as [_ Hb].
    destruct (decode_frames_inv (length rest) None None rest Hb) as (r & -> & _); [done|]. by eexists.
  - destruct (strip_bytes MAGIC l) as [rest|] eqn:E; [|done].
    apply strip_bytes_inv in E as ->. apply Forall_app in Hb as [_ Hb].
    destruct (decode_frames_inv (length rest) None None rest Hb) as (r & -> & Ho); [done|]. intros [= ->].
    destruct Ho as (entries & -> & -> & H). by exists entries.
  - intros (entries & -> & -> & Hok & Hs & Ht & Hc). rewrite strip_bytes_app. by apply decode_frames_encoded.
Qed.
