(* ===== verification/World.v ===== *)
(** * Histories with Context facts

    The kernel's steps, the recording of facts and the classification of blobs
    as one step relation.  The theorems: such a history is, seen from the
    kernel's database, a history of the command path alone; the Context tables
    stay consistent with each other, with the attempts and with the log; a
    finalization is certified only on the standing acceptance of its verifier;
    and a replay of the log rebuilds the four truth tables. *)

From S2P Require Import Prelude Text Fsm Envelope Transition Command Tables Db Store Project Authority Submit Writes Kernel System Recover Truth Facts.

(** ** More permissive projectors *)

Section Mono.
Context `{TZ : Timestamptz} {V : Type} `{SD : Serde V} `{HM : Hmac}.
Notation event := (EventEnvelope V).
Notation P := (Proj instant V).
Notation database := (Db instant V).
Notation store := (Store (V := V)).

(** The first projector accepts no more than the second, and does the same. *)
Definition tighter (A B : event -> P -> result Refusal P) : Prop :=
  forall e p p', A e p = Ok p' -> B e p = Ok p'.

Context (A B : event -> P -> result Refusal P) (HAB : tighter A B).

Lemma apply_events_mono events (p p' : P) :
  fold_res (fun p e => apply_event A e p) p events = Ok p' ->
  fold_res (fun p e => apply_event B e p) p events = Ok p'.
Proof.
  revert p. induction events as [|e events IH]; intros p; [done|]. cbn [fold_res].
  intros (q & Hq & Hr)%bind_ok_iff. apply bind_ok_iff. exists q. split; [|by apply IH].
  unfold apply_event in *. destruct (is_context_aggregate _); [by apply HAB|done].
Qed.

Lemma append_and_project_mono (st : store) clock ws env pre v (db : database) r :
  append_and_project A st clock ws env pre v db = Ok r ->
  append_and_project B st clock ws env pre v db = Ok r.
Proof.
  unfold append_and_project. intros (u & -> & Hr)%bind_ok_iff. cbn [mbind result_bind].
  apply bind_ok_iff in Hr as (e & -> & Hr). cbn [mbind result_bind].
  apply bind_ok_iff in Hr as ([a dba] & -> & Hr). cbn [mbind result_bind].
  apply bind_ok_iff in Hr as (dbb & Hp & Hr). apply bind_ok_iff. exists dbb. split; [|done].
  destruct (app_replayed a); [done|]. apply bind_ok_iff in Hp as (p & Hp & Hrest).
  apply bind_ok_iff. exists p. split; [|done]. by apply apply_events_mono.
Qed.

Lemma submit_tx_mono (st : store) clock env pre (db : database) r :
  submit_tx A st clock env pre db = Ok r -> submit_tx B st clock env pre db = Ok r.
Proof.
  unfold submit_tx. intros (ws & -> & Hr)%bind_ok_iff. cbn [mbind result_bind].
  apply bind_ok_iff in Hr as (ep & -> & Hr). cbn [mbind result_bind].
  apply bind_ok_iff in Hr as (u & -> & Hr). cbn [mbind result_bind].
  destruct (pre_input_refusal pre); [done|]. destruct (prior_for_key _ _ _ _); [|done..].
  unfold submit_unused in *. apply bind_ok_iff in Hr as (u1 & -> & Hr). cbn [mbind result_bind].
  apply bind_ok_iff in Hr as (u2 & -> & Hr). cbn [mbind result_bind].
  apply bind_ok_iff in Hr as (u3 & -> & Hr). cbn [mbind result_bind].
  apply bind_ok_iff in Hr as (decision & -> & Hr). cbn [mbind result_bind].
  destruct decision; try done;
    (apply bind_ok_iff in Hr as (db1 & -> & Hr); cbn [mbind result_bind];
     apply bind_ok_iff in Hr as (u4 & -> & Hr); cbn [mbind result_bind];
     destruct (decide_command _ _ _ _) as [v|refusal]; [|done];
     apply bind_ok_iff in Hr as (db2 & -> & Hr); cbn [mbind result_bind];
     by apply append_and_project_mono).
Qed.

(** A submission under the tighter projector changes nothing, or is one under
    the other. *)
Lemma submit_mono (st : store) clock env carrier (db db' : database) res :
  submit A st clock env carrier db = (res, db') -> db' = db \/ submit B st clock env carrier db = (res, db').
Proof.
  unfold submit. destruct (prepare st env carrier) as [pre|r]; cbn [mbind result_bind]; [|by intros [= _ <-]; left].
  destruct (submit_tx A st clock env pre db) as [[db1 verdict]|r] eqn:Htx; [|by intros [= _ <-]; left].
  apply submit_tx_mono in Htx as ->. by right.
Qed.

Lemma record_context_fact_mono (st : store) clock project key route body at_text precheck (db : database) r :
  record_context_fact A st clock project key route body at_text precheck db = Ok r ->
  record_context_fact B st clock project key route body at_text precheck db = Ok r.
Proof.
  unfold record_context_fact. intros (u & -> & Hr)%bind_ok_iff. cbn [mbind result_bind].
  apply bind_ok_iff in Hr as (ws & -> & Hr). cbn [mbind result_bind].
  apply bind_ok_iff in Hr as (ep & -> & Hr). cbn [mbind result_bind].
  apply bind_ok_iff in Hr as (u1 & -> & Hr). cbn [mbind result_bind].
  apply bind_ok_iff in Hr as (rt & -> & Hr). cbn [mbind result_bind].
  destruct (events_for_key _ _ _ _ _); [|done].
  apply bind_ok_iff in Hr as (v & -> & Hr). cbn [mbind result_bind].
  apply bind_ok_iff in Hr as (u2 & -> & Hr). cbn [mbind result_bind].
  apply bind_ok_iff in Hr as (v' & -> & Hr). cbn [mbind result_bind].
  apply bind_ok_iff in Hr as ([a dba] & -> & Hr). cbn [mbind result_bind].
  apply bind_ok_iff in Hr as (dbb & Hp & Hr). apply bind_ok_iff. exists dbb. split; [|done].
  destruct (app_replayed a); [done|]. apply bind_ok_iff in Hp as (p & Hp & Hrest).
  apply bind_ok_iff. exists p. split; [|done]. by apply apply_events_mono.
Qed.
End Mono.

(** ** Steps *)

Section World.
Context `{TZ : Timestamptz} `{TZL : !TimestamptzLaws} {V : Type} `{SD : Serde V} `{SDL : !SerdeLaws V}
  `{HM : Hmac} `{CS : ContextSerde V} `{CSL : !ContextSerdeLaws V}.
Notation event := (EventEnvelope V).
Notation P := (Proj instant V).
Notation database := (Db instant V).
Notation tables := (ContextTables instant).
Notation store := (Store (V := V)).
Notation World := (World (V := V)).

Definition initial_world (t0 : instant) : World := {| w_db := initial_db t0; w_context := empty_context |}.

(** A step of the kernel beside the tables [c], or one of the Context engine. *)
Inductive wstep : World -> World -> Prop :=
| ws_claim inflight st db db' c :
    with_capacity inflight db = Ok (st, db') ->
    wstep {| w_db := db; w_context := c |} {| w_db := db'; w_context := c |}
| ws_fence token db db' c :
    grant_fence db = Ok (token, db') ->
    wstep {| w_db := db; w_context := c |} {| w_db := db'; w_context := c |}
| ws_genesis st clock revision db db' c :
    ensure_genesis st clock revision db = Ok db' ->
    wstep {| w_db := db; w_context := c |} {| w_db := db'; w_context := c |}
| ws_checkpoint st clock r db db' c :
    checkpoint_at_watermark st clock db = Ok (r, db') ->
    wstep {| w_db := db; w_context := c |} {| w_db := db'; w_context := c |}
| ws_submit st clock env carrier res db db' c :
    submit (projector c) st clock env carrier db = (res, db') ->
    wstep {| w_db := db; w_context := c |} {| w_db := db'; w_context := c |}
| ws_delivery queue db c :
    wstep {| w_db := db; w_context := c |} {| w_db := set_deliveries queue db; w_context := c |}
| ws_fact st clock project key attribution f a w w' :
    fact_typed f = true -> attribution_typed attribution = true ->
    record_fact st clock project key attribution f w = Ok (a, w') -> wstep w w'
| ws_classify digest classes db c c' :
    claim digest classes c = Ok c' ->
    wstep {| w_db := db; w_context := c |} {| w_db := db; w_context := c' |}.

Definition wreachable (w : World) : Prop := exists t0, rtc wstep (initial_world t0) w.

(** The projector of a kernel without Context tables. *)
Definition accepting (_ : event) (p : P) : result Refusal P := Ok p.

Lemma projector_tighter c : tighter (projector c) accepting.
Proof. intros e p p' (c' & _ & [= <-])%bind_ok_iff. done. Qed.

Lemma accepting_frame : context_frame accepting.
Proof. by intros e p p' [= ->]. Qed.
Lemma accepting_blind : context_blind accepting.
Proof. by intros e p p' x [= ->]. Qed.

Lemma fact_route_context c f rt : fact_route c f = Ok rt -> is_context_aggregate (cr_aggregate_type rt) = true.
Proof. unfold fact_route. intros (id & _ & [= <-])%bind_ok_iff. by destruct f. Qed.

Lemma record_fact_route st clock project key attribution f (w : World) r :
  record_fact st clock project key attribution f w = Ok r ->
  exists rt, fact_route (w_context w) f = Ok rt.
Proof.
  unfold record_fact, record_context_fact. intros ((a & db) & Hr & _)%bind_ok_iff.
  apply bind_ok_iff in Hr as (u & _ & Hr). apply bind_ok_iff in Hr as (ws & _ & Hr).
  apply bind_ok_iff in Hr as (ep & _ & Hr). apply bind_ok_iff in Hr as (u1 & _ & Hr).
  apply bind_ok_iff in Hr as (rt & Hrt & _). by exists rt.
Qed.

Lemma wstep_step w w' : wstep w w' -> w_db w' = w_db w \/ step accepting (w_db w) (w_db w').
Proof.
  intros Hs. destruct Hs as [inflight st db db' c Hr|token db db' c Hr|st clock rev db db' c Hr
    |st clock r db db' c Hr|st clock env carrier res db db' c Hr|queue db c
    |st clock project key attribution f a w w' Hf Ha Hr|digest classes db c c' Hr]; cbn [w_db].
  - right. by eapply step_claim.
  - right. by eapply step_fence.
  - right. by eapply step_genesis.
  - right. by eapply step_checkpoint.
  - apply (submit_mono _ _ (projector_tighter c)) in Hr as [->|Hr]; [by left|right; by eapply step_submit].
  - right. apply step_delivery.
  - right. destruct (record_fact_route _ _ _ _ _ _ _ _ Hr) as [rt Hrt].
    unfold record_fact in Hr. apply bind_ok_iff in Hr as ([a0 db] & Hr & Hrest).
    apply bind_ok_iff in Hrest as (c' & _ & [= _ <-]). cbn [w_db].
    apply (record_context_fact_mono _ _ (projector_tighter _)) in Hr. rewrite Hrt in Hr.
    eapply step_context; [by eapply fact_route_context|exact Hr].
  - by left.
Qed.

Lemma wsteps_steps w w' : rtc wstep w w' -> rtc (step accepting) (w_db w) (w_db w').
Proof.
  intros Hr. induction Hr as [|w1 w2 w3 Hs _ IH]; [constructor|].
  destruct (wstep_step _ _ Hs) as [<-|Hs']; [done|]. by eapply rtc_l.
Qed.

Lemma wreachable_reachable w : wreachable w -> reachable accepting (w_db w).
Proof. intros [t0 Hr]. exists t0. by apply (wsteps_steps (initial_world t0)). Qed.

(** ** What a step does to the tables *)

(** A fact landed: its row, what its check saw, and what it projected. *)
Record fact_effect (f : ContextFact) (w w' : World) (row : event) : Prop := {
  fe_typed : fact_typed f = true;
  fe_row : row_effect (w_db w) (w_db w') row;
  fe_agg : aggregate_type row = aggregate_str (name_aggregate (event_name f));
  fe_type : event_type row = event_name_str (event_name f);
  fe_body : exists attribution, context_from_value (payload row) =
    Some {| cep_name := event_name f; cep_attribution := attribution; cep_fact := f |};
  fe_member : json_fact_manifest (payload row) = fact_manifest f;
  fe_check : exists v, precheck (w_db w) (w_context w) f v = Ok tt;
  fe_proj : proj (w_db w') = proj (w_db w);
  fe_context : project_fact (proj (w_db w)) f (w_context w) = Ok (w_context w');
}.

Lemma record_fact_row st clock project key attribution f a (w w' : World) :
  log_inv (w_db w) -> fact_typed f = true -> attribution_typed attribution = true ->
  record_fact st clock project key attribution f w = Ok (a, w') ->
  w' = w /\ app_replayed a = true \/
  exists row, a = {| app_events := [row]; app_replayed := false |} /\ fact_effect f w w' row.
Proof.
  intros Hinv Hf Ha Hr. destruct (record_fact_route _ _ _ _ _ _ _ _ Hr) as [rt Hrt].
  unfold record_fact in Hr. apply bind_ok_iff in Hr as ([a0 db] & Hr & Hrest).
  apply bind_ok_iff in Hrest as (c' & Hc & [= -> <-]). rewrite Hrt in Hr.
  destruct (record_context_fact_row _ _ _ _ _ _ _ _ _ _ _ _ Hinv (fact_route_context _ _ _ Hrt) Hr)
    as [[-> Hrep]|(row & -> & Hrow & Hkey & Hty & Hpay & Hpre & Hap & _)].
  - left. rewrite Hrep in Hc. injection Hc as <-. by destruct w.
  - right. exists row. split; [done|]. cbn [app_replayed app_events fold_res] in Hc.
    apply bind_ok_iff in Hc as (c1 & Hc & [= ->]). apply bind_ok_iff in Hap as (c2 & _ & [= Hproj]).
    assert (context_from_value (payload row) =
      Some {| cep_name := event_name f; cep_attribution := attribution; cep_fact := f |}) as Hbody
      by (rewrite Hpay; by apply context_round_trip).
    unfold apply_context_event in Hc. rewrite Hbody in Hc. cbn in Hc.
    apply bind_ok_iff in Hc as (u & _ & Hc).
    assert (rt = {| cr_aggregate_type := aggregate_str (name_aggregate (event_name f));
                    cr_aggregate_id := cr_aggregate_id rt; cr_event_type := event_name_str (event_name f) |}) as Heq.
    { unfold fact_route in Hrt. apply bind_ok_iff in Hrt as (id & _ & [= <-]). done. }
    rewrite Heq in Hkey, Hty. injection Hkey as Hagg _.
    split; cbn; try done; [by exists attribution| |by eexists].
    rewrite Hpay. by apply (json_fact_manifest_spec {| cep_fact := f |}).
Qed.

(** The kernel's own step: the tables stay, and no Context event is appended. *)
Definition kernel_effect (w w' : World) : Prop :=
  w_context w' = w_context w /\
  (log (w_db w') = log (w_db w) \/
   exists row, log (w_db w') = log (w_db w) ++ [row] /\ is_context_aggregate (aggregate_type row) = false).

Lemma wstep_cases (w w' : World) :
  log_inv (w_db w) -> wstep w w' ->
  kernel_effect w w' \/ (exists f row, fact_effect f w w' row) \/
  (w_db w' = w_db w /\ exists b, w_context w' = set_blobs b (w_context w)).
Proof.
  intros Hinv Hs. destruct Hs as [inflight st db db' c Hr|token db db' c Hr|st clock rev db db' c Hr
    |st clock r db db' c Hr|st clock env carrier res db db' c Hr|queue db c
    |st clock project key attribution f a w w' Hf Ha Hr|digest classes db c c' Hr]; cbn [w_db] in *.
  - left. split; [done|left]. apply with_capacity_ok in Hr as [Hr _]. apply Hr.
  - left. split; [done|left]. apply grant_fence_ok in Hr. apply Hr.
  - left. split; [done|]. apply (ensure_genesis_ok accepting) in Hr as [->|(row & Hrow & _ & _ & Hkey & _)]; [by left| |done].
    right. exists row. split; [apply (re_log _ _ _ Hrow)|]. unfold agg_key in Hkey. by injection Hkey as -> _.
  - left. split; [done|left]. apply checkpoint_at_watermark_ok in Hr; [apply Hr|done].
  - left. split; [done|]. apply submit_cases in Hr as [[Hq _]|(k & rt & v & row & Hae & _)]; [| |done].
    + left. apply (quiet_still _ _ Hinv Hq).
    + right. exists row. split; [apply (ae_log _ _ _ _ _ _ _ _ Hae)|].
      pose proof (ae_key _ _ _ _ _ _ _ _ Hae) as Hkey. unfold agg_key in Hkey. injection Hkey as -> _.
      eapply route_not_context, (ae_route _ _ _ _ _ _ _ _ Hae).
  - left. split; [done|]. by left.
  - apply record_fact_row in Hr as [[-> _]|(row & _ & Hr)]; [|right; left; by exists f, row|done..].
    left. split; [done|]. by left.
  - right. right. split; [done|]. cbn [w_context]. unfold claim in Hr.
    apply bind_ok_iff in Hr as (u & _ & Hr). apply bind_ok_iff in Hr as (r & _ & Hr).
    apply bind_ok_iff in Hr as (u1 & _ & [= <-]). destruct (is_some _); [|by eexists].
    exists (context_blobs c). by destruct c.
Qed.

(** ** The tables stay consistent *)

(** No two rows share a key; every row meets its CHECKs and its reference. *)
Definition keyed_once {R K} (key : R -> K) (m : gmap string R) : Prop :=
  forall id id' r r', m !! id = Some r -> m !! id' = Some r' -> key r = key r' -> id = id'.
Record table_ok {R K} (check : string -> R -> bool) (fk : R -> Prop) (key : R -> K) (m : gmap string R) : Prop := {
  to_rows : forall id r, m !! id = Some r -> check id r = true /\ fk r;
  to_keys : keyed_once key m;
}.

Lemma table_ok_empty {R K} check (fk : R -> Prop) (key : R -> K) : table_ok check fk key ∅.
Proof. split; [intros id r|intros id id' r r']; by rewrite lookup_empty. Qed.

Lemma table_ok_mono {R K} check (fk fk' : R -> Prop) (key : R -> K) m :
  (forall r, fk r -> fk' r) -> table_ok check fk key m -> table_ok check fk' key m.
Proof. intros Hfk [Hr Hk]. split; [|done]. intros id r Hl. destruct (Hr _ _ Hl). auto. Qed.

Lemma table_ok_insert {R K} `{EqDecision K} check (fk : R -> Prop) (key : R -> K) m id row :
  table_ok check fk key m -> m !! id = None -> check id row = true -> fk row ->
  unclaimed key (key row) m = true -> table_ok check fk key (<[id := row]> m).
Proof.
  intros [Hr Hk] Hn Hc Hf Hu%bool_decide_eq_true. split.
  - intros id' r [[<- <-]|[_ Hl]]%lookup_insert_Some; eauto.
  - intros i j r r' Hi Hj He.
    apply lookup_insert_Some in Hi as [[<- <-]|[_ Hi]]; apply lookup_insert_Some in Hj as [[<- <-]|[_ Hj]]; try done.
    + by destruct (Hu _ _ Hj).
    + by destruct (Hu _ _ Hi).
    + by eapply Hk.
Qed.

Lemma insert_absent_ok {R} (m : gmap string R) id row check unique fk put (c c' : tables) :
  insert_absent m id row check unique fk put c = Ok c' <->
  check = true /\ (is_Some (m !! id) /\ c' = c \/
                   m !! id = None /\ unique = true /\ fk = true /\ c' = put (<[id := row]> m)).
Proof.
  unfold insert_absent. destruct check; cbn; [|split; [done|by intros [? _]]].
  destruct (m !! id) as [r|]; cbn.
  - split; [intros [= ->]; split; [done|left; by split]|intros [_ [[_ ->]|[? _]]]; done].
  - destruct unique, fk; cbn; split;
      solve [by intros [= <-]; eauto 10 | by intros [_ [[[? ?] _]|(_ & ? & ? & ->)]] | done].
Qed.

(** The observations of a manifest are numbered from one without gaps. *)
Definition gapless (m : gmap string (ObservationRow instant)) : Prop :=
  forall id r k, m !! id = Some r -> (1 <= k <= os_observation_index r)%Z ->
    exists id' r', m !! id' = Some r' /\ os_manifest_id r' = os_manifest_id r /\ os_observation_index r' = k.

Record context_ok (p : P) (c : tables) : Prop := {
  co_manifests : table_ok manifest_check (fun r => is_Some (attempts p !! mf_attempt_id r)) mf_attempt_id (manifests c);
  co_releases : table_ok release_check (fun r => is_Some (manifests c !! rs_manifest_id r)) rs_manifest_id (releases c);
  co_observations : table_ok observation_check (fun r => is_Some (manifests c !! os_manifest_id r))
    (fun r => (os_manifest_id r, os_observation_index r)) (observations c);
  co_gapless : gapless (observations c);
  co_finalizations : table_ok finalization_check (fun r => is_Some (manifests c !! fn_manifest_id r)) fn_manifest_id
    (finalizations c);
}.

Lemma empty_context_ok p : context_ok p empty_context.
Proof. split; try apply table_ok_empty. intros id r k Hl. cbn in Hl. by rewrite lookup_empty in Hl. Qed.

Lemma context_ok_grows (p p' : P) c :
  (forall id, is_Some (attempts p !! id) -> is_Some (attempts p' !! id)) -> context_ok p c -> context_ok p' c.
Proof. intros Hg []. split; try done. eapply table_ok_mono; [|done]. auto. Qed.

Lemma context_ok_blobs p b c : context_ok p c -> context_ok p (set_blobs b c).
Proof. by intros []. Qed.

(** What [coalesce(max(observation_index), 0)] is. *)
Lemma highest_index_spec (c : tables) m :
  (0 <= highest_index c m)%Z /\
  (forall id r, observations c !! id = Some r -> os_manifest_id r = m -> (os_observation_index r <= highest_index c m)%Z) /\
  (highest_index c m = 0%Z \/ exists id r, observations c !! id = Some r /\ os_manifest_id r = m /\
                              os_observation_index r = highest_index c m).
Proof.
  unfold highest_index.
  assert (forall id r, (id, r) ∈ map_to_list (observations c) <-> observations c !! id = Some r) as Hel
    by (intros; apply elem_of_map_to_list).
  setoid_rewrite <-Hel. clear Hel. induction (map_to_list (observations c)) as [|[i x] l (H0 & H1 & H2)]; csimpl.
  - split; [lia|]. split; [intros id r; set_solver|by left].
  - destruct (bool_decide (os_manifest_id x = m)) eqn:Hx; [apply bool_decide_eq_true in Hx|apply bool_decide_eq_false in Hx].
    + split; [lia|]. split.
      * intros id r [[= -> ->]|Hin]%elem_of_cons Hm; [lia|]. specialize (H1 _ _ Hin Hm). lia.
      * destruct (Z.max_spec (os_observation_index x)
          (foldr (fun r n => if bool_decide (os_manifest_id r = m) then Z.max (os_observation_index r) n else n) 0%Z (snd <$> l)))
          as [[_ ->]|[_ ->]].
        -- destruct H2 as [H2|(id & r & Hin & H)]; [by left|right]. exists id, r. split; [by right|done].
        -- right. exists i, x. split; [by left|done].
    + split; [done|]. split.
      * intros id r [[= -> ->]|Hin]%elem_of_cons ?; [done|]. by apply (H1 _ _ Hin).
      * destruct H2 as [H2|(id & r & Hin & H)]; [by left|right]. exists id, r. split; [by right|done].
Qed.

Lemma inserted {R} (m : gmap string R) id row i : is_Some (m !! i) -> is_Some (<[id := row]> m !! i).
Proof. intros Hi. destruct (decide (id = i)) as [->|]; [by rewrite lookup_insert_eq|by rewrite lookup_insert_ne]. Qed.

Lemma gapless_insert (c : tables) id row :
  gapless (observations c) ->
  os_observation_index row = (highest_index c (os_manifest_id row) + 1)%Z -> observations c !! id = None ->
  gapless (<[id := row]> (observations c)).
Proof.
  intros Hg Hx Hn i r k [[<- <-]|[_ Hl]]%lookup_insert_Some Hk.
  - destruct (highest_index_spec c (os_manifest_id row)) as (_ & _ & Hmax).
    destruct (decide (k = os_observation_index row)) as [->|Hne]; [exists id, row; by rewrite lookup_insert_eq|].
    destruct Hmax as [Hz|(i & r & Hl & Hm & Hi)]; [lia|].
    destruct (Hg i r k Hl ltac:(lia)) as (i' & r' & Hl' & Hm' & Hk'). exists i', r'.
    rewrite lookup_insert_ne by congruence. split; [done|]. split; [congruence|done].
  - destruct (Hg i r k Hl Hk) as (i' & r' & Hl' & Hm' & Hk'). exists i', r'.
    rewrite lookup_insert_ne by congruence. done.
Qed.

(** A projection under its check keeps the tables consistent. *)
Lemma project_fact_ok (db : database) f (c c' : tables) v :
  context_ok (proj db) c -> precheck db c f v = Ok tt -> project_fact (proj db) f c = Ok c' ->
  context_ok (proj db) c'.
Proof.
  intros Hok Hpre Hp.
  destruct f; cbn [project_fact] in Hp; try (injection Hp as <-; exact Hok); cbn [precheck] in Hpre;
    apply bind_ok_iff in Hp as (t & _ & Hp);
    match type of Hp with map_err _ ?x = _ => destruct x as [cx|] eqn:Hi; [injection Hp as ->|done] end;
    apply insert_absent_ok in Hi as (Hc & [[_ ->]|(Hn & Hu & Hf & ->)]); try exact Hok;
    destruct Hok as [Hm Hr Ho Hgap Hfz]; try (unfold is_some in Hf; destruct (_ !! _) eqn:Hl in Hf; [|done]).
  - split; cbn; try done.
    + eapply table_ok_insert; eauto.
    + eapply table_ok_mono; [|exact Hr]. intros r. apply inserted.
    + eapply table_ok_mono; [|exact Ho]. intros r. apply inserted.
    + eapply table_ok_mono; [|exact Hfz]. intros r. apply inserted.
  - split; cbn; try done. eapply table_ok_insert; eauto.
  - inv_ok. unbool. split; cbn; try done.
    + eapply table_ok_insert; eauto.
    + apply gapless_insert; [done| |done]. cbn. lia.
  - split; cbn; try done. eapply table_ok_insert; eauto.
Qed.

Lemma write_keeps_attempts (p p' : P) id :
  table_write p p' -> is_Some (attempts p !! id) -> is_Some (attempts p' !! id).
Proof.
  assert (forall q : P, references (attempts q) id = true <-> is_Some (attempts q !! id)) as Href.
  { intros q. unfold references. destruct (attempts q !! id); split; by (done || eauto || intros [? [=]]). }
  intros Hw. rewrite <-!Href.
  destruct Hw as [->|R t i row Hd Hi|R t i f Hd Hu|i row _ _ ->]; [done| | |done].
  - apply ins_ok in Hi as (_ & _ & _ & _ & _ & ->). by apply set_grows.
  - apply upd_ok in Hu as (old & _ & _ & _ & _ & _ & ->). by apply set_grows.
Qed.

(** Induction on histories: the invariants of the kernel's part come along. *)
Lemma wreachable_invariant (Q : World -> Prop) :
  (forall t0, Q (initial_world t0)) ->
  (forall w w', wreachable w -> log_inv (w_db w) -> Q w -> wstep w w' -> Q w') ->
  forall w, wreachable w -> Q w.
Proof.
  intros H0 Hstep w [t0 Hr]. revert w Hr. apply rtc_ind_r; [apply H0|].
  intros w1 w2 Hr1 Hs IH. assert (wreachable w1) as Hw by (by exists t0).
  apply (Hstep w1); [done| |done|done]. by eapply reachable_log_inv, wreachable_reachable.
Qed.

Lemma wreachable_context_ok w : wreachable w -> context_ok (proj (w_db w)) (w_context w).
Proof.
  revert w. apply wreachable_invariant; [intros t0; apply empty_context_ok|].
  intros w w' Hr Hinv IH Hs. destruct (wstep_cases _ _ Hinv Hs) as [[Hc _]|[(f & row & Hf)|[Hd [b ->]]]].
  - rewrite Hc. destruct (wstep_step _ _ Hs) as [->|Hstep]; [done|].
    eapply context_ok_grows; [|done]. intros id. apply write_keeps_attempts.
    by apply (step_writes accepting accepting_frame).
  - destruct Hf as [_ _ _ _ _ _ (v & Hpre) -> Hctx]. by eapply project_fact_ok.
  - rewrite Hd. by apply context_ok_blobs.
Qed.

(** ** Certification follows verification *)

(** Every Context event of the log is a recorded fact. *)
Definition recorded (e : event) (f : ContextFact) : Prop :=
  (exists attribution, context_from_value (payload e) =
     Some {| cep_name := event_name f; cep_attribution := attribution; cep_fact := f |}) /\
  fact_typed f = true /\ event_type e = event_name_str (event_name f) /\
  json_fact_manifest (payload e) = fact_manifest f.

Lemma wreachable_recorded w :
  wreachable w -> forall e, e ∈ log (w_db w) -> is_context_aggregate (aggregate_type e) = true -> exists f, recorded e f.
Proof.
  revert w. apply (wreachable_invariant (fun w => forall e, e ∈ log (w_db w) ->
    is_context_aggregate (aggregate_type e) = true -> exists f, recorded e f)); [intros t0 e; set_solver|].
  intros w w' Hr Hinv IH Hs e He Hctx.
  destruct (wstep_cases _ _ Hinv Hs) as [[_ [Hl|(row & Hl & Hrow)]]|[(f & row & Hf)|[Hd _]]].
  - rewrite Hl in He. by apply IH.
  - rewrite Hl in He. apply elem_of_app in He as [He| ->%list_elem_of_singleton]; [by apply IH|congruence].
  - rewrite (re_log _ _ _ (fe_row _ _ _ _ Hf)) in He.
    apply elem_of_app in He as [He| ->%list_elem_of_singleton]; [by apply IH|].
    exists f. destruct Hf. done.
  - rewrite Hd in He. by apply IH.
Qed.

(** The finalization of a row: the event that certified it, and before that event
    the newest verification of its manifest, an acceptance under its digest. *)
Definition certified (l : list event) (id : string) (r : FinalizationRow instant) : Prop :=
  exists before e after run approvals observations root complete assurance evidence closed certified_at v digest cited at_text,
    l = before ++ e :: after /\
    recorded e (AssuranceCertified run (fn_manifest_id r) id (fn_output_digest r) (fn_verification_digest r)
                  approvals observations root complete assurance evidence closed certified_at) /\
    last (verifications before (fn_manifest_id r)) = Some v /\
    recorded v (ManifestVerificationRecorded (fn_manifest_id r) digest VerdictVerified
                  (fn_verification_digest r) cited at_text).

Lemma certified_extends l l' id r : certified l id r -> certified (l ++ l') id r.
Proof.
  intros (before & e & after & ? & ? & ? & ? & ? & ? & ? & ? & ? & ? & ? & ? & ? & -> & H).
  exists before, e, (after ++ l'). do 13 eexists. split; [by rewrite <-app_assoc|exact H].
Qed.

(** The standing verification that [require_verified] found. *)
Lemma require_verified_ok (l : list event) m claimed :
  (forall e, e ∈ l -> is_context_aggregate (aggregate_type e) = true -> exists f, recorded e f) ->
  require_verified l m claimed = Ok tt ->
  exists v digest cited at_text, last (verifications l m) = Some v /\
    recorded v (ManifestVerificationRecorded m digest VerdictVerified claimed cited at_text).
Proof.
  intros Hrec Hr. unfold require_verified in Hr. apply bind_ok_iff in Hr as (v & Hv & Hr).
  apply ok_or_ok_iff in Hv. apply bind_ok_iff in Hr as (body & Hb & Hr). apply ok_or_ok_iff in Hb.
  pose proof (last_Some_elem_of _ _ Hv) as Hin. unfold verifications in Hin.
  apply list_elem_of_In, filter_In in Hin as [Hin Hf]. unbool.
  destruct (Hrec v) as (f & [attribution Hbody] & Hty & Het & Hm); [by apply list_elem_of_In| |].
  { by match goal with H : aggregate_type v = _ |- _ => rewrite H end. }
  rewrite Hbody in Hb. injection Hb as <-. cbn in Hr. destruct f; try done. cbn in Hm.
  inv_ok. unbool. subst. assert (manifest_id = m) as -> by congruence.
  exists v, manifest_digest, evidence_ids, verified_at. split; [done|]. split; [by exists attribution|]. done.
Qed.

(** Where a finalization row of the projected tables comes from. *)
Lemma project_fact_finalization (p : P) f (c c' : tables) id r :
  project_fact p f c = Ok c' -> finalizations c' !! id = Some r ->
  finalizations c !! id = Some r \/
  exists run approvals observations root complete assurance evidence closed certified_at,
    f = AssuranceCertified run (fn_manifest_id r) id (fn_output_digest r) (fn_verification_digest r)
          approvals observations root complete assurance evidence closed certified_at.
Proof.
  intros Hp Hl. destruct f; cbn [project_fact] in Hp; try (injection Hp as <-; by left);
    apply bind_ok_iff in Hp as (t & _ & Hp);
    match type of Hp with map_err _ ?x = _ => destruct x as [cx|] eqn:Hi; [injection Hp as ->|done] end;
    apply insert_absent_ok in Hi as (_ & [[_ ->]|(Hn & _ & _ & ->)]); try (by left).
  cbn in Hl. apply lookup_insert_Some in Hl as [[<- <-]|[_ Hl]]; [right; by repeat eexists|by left].
Qed.

Lemma wreachable_certified w :
  wreachable w -> forall id r, finalizations (w_context w) !! id = Some r -> certified (log (w_db w)) id r.
Proof.
  revert w. apply (wreachable_invariant (fun w => forall id r, finalizations (w_context w) !! id = Some r ->
    certified (log (w_db w)) id r)); [intros t0 id r Hl; cbn in Hl; by rewrite lookup_empty in Hl|].
  intros w w' Hr Hinv IH Hs id r Hl.
  destruct (wstep_cases _ _ Hinv Hs) as [[Hc Hlog]|[(f & row & Hf)|[Hd [b Hc]]]].
  - rewrite Hc in Hl. destruct Hlog as [->|(row & -> & _)]; [by apply IH|by apply certified_extends, IH].
  - rewrite (re_log _ _ _ (fe_row _ _ _ _ Hf)).
    destruct (project_fact_finalization _ _ _ _ _ _ (fe_context _ _ _ _ Hf) Hl)
      as [Hold|(run & ap & ob & root & cpl & asr & ev & cl & ce & ->)]; [by apply certified_extends, IH|].
    destruct (fe_check _ _ _ _ Hf) as [v Hpre]. cbn [precheck] in Hpre. inv_ok.
    destruct (require_verified_ok _ _ _ (wreachable_recorded _ Hr) Hpre) as (e & digest & cited & at' & Hlast & He).
    exists (log (w_db w)), row, [], run, ap, ob, root, cpl, asr, ev, cl, ce, e, digest, cited, at'.
    split; [done|]. split; [by destruct Hf|]. done.
  - rewrite Hc in Hl. rewrite Hd. by apply IH.
Qed.

(** ** Typed facts meet the schema *)

Lemma id_ok_column s : id_ok s = true -> id_column s = true.
Proof.
  unfold id_ok. destruct (context_id_parse s) as [r|] eqn:Hp; [intros _|done].
  unfold context_id_parse, id_is_valid in Hp. unfold id_column. inv_ok. unbool.
  rewrite !andb_true_iff. split; [split|].
  - destruct r; [done|]. unfold Str.len. cbn [String.length]. apply Z.leb_le. lia.
  - by apply Z.leb_le.
  - exact Hrun.
Qed.

Lemma digest_ok_column s : digest_ok s = true -> digest_column s = true.
Proof.
  unfold digest_ok. destruct (digest_parse s) as [r|] eqn:Hp; [intros _|done].
  unfold digest_parse in Hp. unfold digest_column. inv_ok. unfold DIGEST_SCHEME in *.
  match goal with H : Str.strip_prefix _ _ = _ |- _ => rewrite H end. unfold is_sha256_hex in *. unbool.
  apply andb_true_iff. split; [by apply Z.eqb_eq|done].
Qed.

Lemma count_ok_column n : count_ok n = true -> count_column n = true.
Proof.
  unfold count_ok, count_column. destruct (record_count n) as [m|] eqn:Hp; [|by rewrite andb_false_r].
  apply record_count_ok in Hp as [_ Hp]. unfold CONTEXT_RECORD_COUNT_MAX in Hp. rewrite !andb_true_iff.
  intros [? _]. split; [done|]. by apply Z.leb_le.
Qed.

Lemma evidence_column l : is_ok (evidence_refs l) = true -> context_evidence_ids_are_valid l = true.
Proof.
  destruct (evidence_refs l) as [r|] eqn:Hp; [intros _|done]. unfold evidence_refs in Hp. inv_ok. unbool.
  apply andb_true_iff. split; [done|]. rewrite forallb_forall in *. intros x Hx.
  apply id_ok_column. unfold id_ok, context_id_parse. specialize (Hrun0 x Hx). by destruct (id_is_valid x).
Qed.

Lemma participation_column p :
  participation_record_ok tt p = Ok tt -> digest_ok (p_digest p) = true -> participation_is_valid p = true.
Proof.
  intros Hr Hd%digest_ok_column. unfold participation_record_ok, participation_validate in Hr.
  unfold participation_is_valid. rewrite Hd. cbn.
  destruct (p_state p), (p_reason p), (p_detail p); cbn in *; try done; inv_ok; assumption.
Qed.

Lemma participations_column l : rows_typed l = true -> context_participations_are_valid l = true.
Proof.
  unfold rows_typed. intros [Hp Hd]%andb_true_iff. destruct (participation_records l) as [r|] eqn:E; [clear Hp|done].
  unfold participation_records in E. inv_ok. unbool. apply andb_true_iff. split; [by apply Z.leb_le|].
  clear Hrun. revert Hrun0. generalize tt at 1. induction r as [|x r IH]; intros [] Hf; [done|]. cbn [fold_res forallb] in *.
  apply andb_true_iff in Hd as [Hd Hds]. apply bind_ok_iff in Hf as ([] & Hx & Hf).
  rewrite (participation_column x) by done. by apply (IH Hds tt).
Qed.

Lemma index_column n :
  (0 <=? n)%Z = true -> is_ok (observation_index n) = true -> (1 <=? n)%Z = true /\ (n <=? 65535)%Z = true.
Proof.
  unfold observation_index. destruct (ensure _ _) as [[]|] eqn:He; [|done].
  apply ensure_ok_iff in He. unbool. unfold CONTEXT_RECORD_COUNT_MAX in *. lia.
Qed.

Hint Resolve id_ok_column digest_ok_column count_ok_column evidence_column participations_column : columns.

(** The text of the time column a fact fills. *)
Definition row_timestamp (f : ContextFact) : string :=
  match f with
  | AssuranceCertified _ _ _ _ _ _ _ _ _ _ _ closed_at _ => closed_at
  | _ => fact_timestamp f
  end.

(** The tables after a fact: exactly its row more. *)
Definition with_row (f : ContextFact) (t : instant) (c : tables) : tables :=
  match f with
  | ManifestResolved id attempt digest route authority count bytes rows evidence _ =>
      set_manifests (<[id := {| mf_attempt_id := attempt; mf_manifest_digest := digest; mf_route_digest := route;
        mf_authority_digest := authority; mf_source_count := count; mf_source_bytes := bytes;
        mf_participations := rows; mf_evidence_ids := evidence; mf_resolved_at := t |}]> (manifests c)) c
  | ReleaseRecorded manifest id rendered schema bytes count evidence _ =>
      set_releases (<[id := {| rs_manifest_id := manifest; rs_rendered_digest := rendered;
        rs_tool_schema_digest := schema; rs_rendered_bytes := bytes; rs_tool_schema_count := count;
        rs_evidence_ids := evidence; rs_released_at := t |}]> (releases c)) c
  | ObservationAppended _ manifest id index digest bytes visible truncated evidence _ =>
      set_observations (<[id := {| os_manifest_id := manifest; os_observation_index := index;
        os_fact_digest := digest; os_observed_bytes := bytes; os_visible_source_count := visible;
        os_truncated := truncated; os_evidence_ids := evidence; os_observed_at := t |}]> (observations c)) c
  | AssuranceCertified _ manifest id output verification approvals seen root complete assurance evidence _ _ =>
      set_finalizations (<[id := {| fn_manifest_id := manifest; fn_output_digest := output;
        fn_verification_digest := verification; fn_approval_count := approvals; fn_observation_count := seen;
        fn_final_event_root := root; fn_lifecycle_complete := complete; fn_assurance := assurance_str assurance;
        fn_evidence_ids := evidence; fn_finalized_at := t |}]> (finalizations c)) c
  | _ => c
  end.

(** The row of a checked, typed fact meets every constraint of its table. *)
Lemma project_fact_lands (db : database) f (c : tables) rt v t :
  context_ok (proj db) c -> fact_typed f = true -> fact_route c f = Ok rt ->
  precheck db c f v = Ok tt -> ts_parse (row_timestamp f) = Some t ->
  project_fact (proj db) f c = Ok (with_row f t c).
Proof.
  intros Hok Hty Hrt Hpre Ht.
  assert (forall R (m : gmap string R) id row chk unq fk put, chk = true -> negb (is_some (m !! id)) = true ->
    unq = true -> fk = true ->
    map_err (fun _ => storage) (insert_absent m id row chk unq fk put c) = Ok (put (<[id := row]> m))) as Hins.
  { intros R m id row chk unq fk put -> Hn -> ->. unfold insert_absent. cbn. by destruct (m !! id). }
  destruct f; cbn [project_fact row_timestamp fact_timestamp] in *; try done;
    unfold ts; rewrite Ht; cbn [mbind result_bind ok_or]; cbn [precheck] in Hpre; cbn [fact_typed] in Hty;
    inv_ok; rewrite !andb_true_iff in Hty; destruct_and?; apply Hins; try done;
    unfold manifest_check, release_check, observation_check, finalization_check; cbn;
    rewrite ?andb_true_iff; auto 20 with columns.
  - unfold fact_route in Hrt. apply bind_ok_iff in Hrt as (id & Hid & _). cbn in Hid. inv_ok.
    unfold attempt_of_manifest in Hid. apply ok_or_ok_iff in Hid. by destruct (manifests c !! manifest_id).
  - edestruct (index_column observation_index); auto 20 with columns.
  - apply bool_decide_eq_true. intros i x Hl Heq. injection Heq as Hm Hx.
    destruct (highest_index_spec c manifest_id) as (_ & Hle & _). specialize (Hle _ _ Hl Hm). unbool. lia.
  - destruct assurance; auto 20 with columns.
Qed.

(** ** Replay *)

(** One turn of the replay loop, with the rows the Context projector writes. *)
Definition replay_fact (acc : Z * P * tables) (e : event) : result Refusal (Z * P * tables) :=
  let '(n, p, c) := acc in
  '(n', p') ← replay_event (projector c) (n, p) e;
  c' ← (if is_context_aggregate (aggregate_type e) then apply_context_event p e c else mret c);
  mret (n', p', c').

(** The projector reads no classification. *)
Lemma project_fact_blobs (p : P) f b (c c' : tables) :
  project_fact p f c = Ok c' -> project_fact p f (set_blobs b c) = Ok (set_blobs b c').
Proof.
  intros Hp. destruct f; cbn [project_fact] in *; try (by injection Hp as <-);
    apply bind_ok_iff in Hp as (t & -> & Hp); cbn [mbind result_bind];
    match type of Hp with map_err _ ?x = _ => destruct x as [cx|] eqn:Hi; [injection Hp as ->|done] end;
    apply insert_absent_ok in Hi as (Hc & [[Hs ->]|(Hn & Hu & Hf & ->)]);
    unfold insert_manifest, insert_release, insert_observation, insert_finalization, insert_absent; cbn;
    rewrite Hc; cbn in *; (destruct Hs as [? ->] || rewrite Hn); cbn; rewrite ?Hu, ?Hf; done.
Qed.

(** It reads of the kernel's tables only the attempts. *)
Lemma project_fact_attempts (p q : P) f (c : tables) :
  attempts p = attempts q -> project_fact p f c = project_fact q f c.
Proof. intros Ha. destruct f; try done. cbn. by rewrite Ha. Qed.

(** The truth tables a replay starts from and ends with: no classifications. *)
Definition truth (c : tables) : tables := set_blobs ∅ c.

(** A row that is no Context event goes the way of the kernel's own replay. *)
Lemma replay_fact_kernel n p c n' p' e :
  is_context_aggregate (aggregate_type e) = false ->
  replay_event accepting (n, p) e = Ok (n', p') -> replay_fact (n, p, c) e = Ok (n', p', c).
Proof.
  intros Hn Hr. unfold replay_fact. rewrite Hn. unfold replay_event, apply_event in *. rewrite Hn in *.
  by rewrite Hr.
Qed.

Lemma wreachable_replays w :
  wreachable w -> raised_first (log (w_db w)) ->
  forall n p, fold_res (replay_event accepting) (0%Z, empty_proj) (log (w_db w)) = Ok (n, p) ->
    fold_res replay_fact (0%Z, empty_proj, empty_context) (log (w_db w)) = Ok (n, p, truth (w_context w)).
Proof.
  revert w. apply (wreachable_invariant (fun w => raised_first (log (w_db w)) -> forall n p,
    fold_res (replay_event accepting) (0%Z, empty_proj) (log (w_db w)) = Ok (n, p) ->
    fold_res replay_fact (0%Z, empty_proj, empty_context) (log (w_db w)) = Ok (n, p, truth (w_context w)))).
  { intros t0 _ n p [= <- <-]. done. }
  intros w w' Hr Hinv IH Hs Hraised n p Hfold.
  destruct (wstep_cases _ _ Hinv Hs) as [[Hc [Hl|(row & Hl & Hrow)]]|[(f & row & Hf)|[Hd [b Hb]]]].
  - rewrite Hl, Hc in *. by apply IH.
  - rewrite Hl in Hraised, Hfold |- *. rewrite Hc. rewrite fold_res_app in Hfold. rewrite fold_res_app. apply bind_ok_iff in Hfold as ([n0 p0] & Hfold & He).
    rewrite (IH ltac:(intros x Hx; apply Hraised; set_solver) _ _ Hfold). cbn [fold_res mbind result_bind] in He |- *.
    apply bind_ok_iff in He as ([n1 p1] & Hev & [= -> ->]). by rewrite (replay_fact_kernel _ _ _ _ _ _ Hrow Hev).
  - pose proof (re_log _ _ _ (fe_row _ _ _ _ Hf)) as Hl. rewrite Hl in Hraised, Hfold |- *. rewrite fold_res_app in Hfold. rewrite fold_res_app.
    apply bind_ok_iff in Hfold as ([n0 p0] & Hfold & He).
    assert (raised_first (log (w_db w))) as Hraised0 by (intros x Hx; apply Hraised; set_solver).
    destruct (reachable_rebuilt accepting accepting_frame accepting_blind _ (wreachable_reachable _ Hr) Hraised0)
      as (n1 & x & Hfold1 & _). rewrite Hfold in Hfold1. injection Hfold1 as -> ->.
    rewrite (IH Hraised0 _ _ Hfold). cbn [mbind result_bind fold_res] in He |- *.
    destruct Hf as [Hty _ Hagg Htype [attribution Hbody] _ _ _ Hp].
    assert (is_context_aggregate (aggregate_type row) = true) as Hctx by (rewrite Hagg; by destruct f).
    assert (apply_context_event (set_attention_items x (proj (w_db w))) row (truth (w_context w))
            = Ok (truth (w_context w'))) as Hap.
    { unfold apply_context_event. rewrite Hbody. cbn. rewrite Htype, bool_decide_true by done. cbn.
      rewrite (project_fact_attempts _ (proj (w_db w))) by done. by apply project_fact_blobs. }
    assert (is_genesis_event row = false) as Hgen.
    { unfold is_genesis_event. rewrite Hagg. by destruct f. }
    unfold replay_fact, replay_event, apply_event, projector in *. rewrite Hgen, Hctx, Hap in *. cbn in *.
    by injection He as <- <-.
  - rewrite Hd in *. rewrite Hb. by apply IH.
Qed.

(** ** The theorems *)

(** Does the fact write a row? *)
Definition writes_row (f : ContextFact) : bool :=
  match f with
  | ManifestResolved _ _ _ _ _ _ _ _ _ _ | ReleaseRecorded _ _ _ _ _ _ _ _
  | ObservationAppended _ _ _ _ _ _ _ _ _ _ | AssuranceCertified _ _ _ _ _ _ _ _ _ _ _ _ _ => true
  | _ => false
  end.

Lemma project_fact_row (db : database) f (c c' : tables) v :
  precheck db c f v = Ok tt -> project_fact (proj db) f c = Ok c' ->
  if writes_row f then exists t, ts_parse (row_timestamp f) = Some t /\ c' = with_row f t c else c' = c.
Proof.
  intros Hpre Hp. destruct f; cbn [project_fact writes_row] in *; try (by injection Hp as <-); cbn [precheck] in Hpre;
    apply bind_ok_iff in Hp as (t & Ht & Hp); apply ok_or_ok_iff in Ht; exists t; (split; [done|]);
    match type of Hp with map_err _ ?x = _ => destruct x as [cx|] eqn:Hi; [injection Hp as ->|done] end;
    apply insert_absent_ok in Hi as (_ & [[[x Hx] _]|(_ & _ & _ & ->)]); try done;
    inv_ok; by rewrite Hx in *.
Qed.

(** A recorded fact is answered from the log without a change, or
    one event of it is appended after its route and its check, the kernel's own
    tables stay, and the Context tables gain exactly the fact's row, or nothing
    when the fact has none. *)
Theorem recorded_facts_land st clock project key attribution f a (w w' : World) :
  wreachable w -> fact_typed f = true -> attribution_typed attribution = true ->
  record_fact st clock project key attribution f w = Ok (a, w') ->
  w' = w /\ app_replayed a = true \/
  exists row rt v, a = {| app_events := [row]; app_replayed := false |} /\
    log (w_db w') = log (w_db w) ++ [row] /\ recorded row f /\ proj (w_db w') = proj (w_db w) /\
    fact_route (w_context w) f = Ok rt /\ precheck (w_db w) (w_context w) f v = Ok tt /\
    if writes_row f
    then exists t, ts_parse (row_timestamp f) = Some t /\ w_context w' = with_row f t (w_context w)
    else w_context w' = w_context w.
Proof.
  intros Hr Hf Ha Hrec. pose proof (reachable_log_inv _ _ (wreachable_reachable _ Hr)) as Hinv.
  destruct (record_fact_route _ _ _ _ _ _ _ _ Hrec) as [rt Hrt].
  destruct (record_fact_row _ _ _ _ _ _ _ _ _ Hinv Hf Ha Hrec) as [?|(row & -> & [Hty Hrow Hagg Het Hb Hm [v Hpre] Hp Hc])];
    [by left|right].
  exists row, rt, v. split; [done|]. split; [apply (re_log _ _ _ Hrow)|]. split; [done|].
  do 3 (split; [done|]). by eapply project_fact_row.
Qed.

(** A fact of validated parts that passes its route and its check
    is never refused by the schema: with a readable time its row goes in as it
    is, and the tables stay consistent. *)
Theorem typed_facts_are_projected (w : World) f rt v t :
  wreachable w -> fact_typed f = true -> fact_route (w_context w) f = Ok rt ->
  precheck (w_db w) (w_context w) f v = Ok tt -> ts_parse (row_timestamp f) = Some t ->
  project_fact (proj (w_db w)) f (w_context w) = Ok (with_row f t (w_context w)) /\
  context_ok (proj (w_db w)) (with_row f t (w_context w)).
Proof.
  intros Hr Hty Hrt Hpre Ht. pose proof (wreachable_context_ok _ Hr) as Hok.
  pose proof (project_fact_lands _ _ _ _ _ _ Hok Hty Hrt Hpre Ht) as Hp. split; [done|].
  by eapply project_fact_ok.
Qed.

(** C33: In every reachable state the Context tables are consistent:
    an attempt has at most one manifest and exists, a manifest at most one
    release and one finalization, every row meets its CHECKs and names an
    existing manifest, and the observations of a manifest are numbered from one
    without gaps or repeats. *)
Theorem context_truth_is_consistent (w : World) :
  wreachable w ->
  context_ok (proj (w_db w)) (w_context w) /\
  forall m, exists n, forall k, (1 <= k <= n)%Z <->
    exists id r, observations (w_context w) !! id = Some r /\ os_manifest_id r = m /\ os_observation_index r = k.
Proof.
  intros Hr. pose proof (wreachable_context_ok _ Hr) as Hok. split; [done|]. intros m.
  exists (highest_index (w_context w) m). destruct (highest_index_spec (w_context w) m) as (_ & Hle & Hmax). intros k. split.
  - intros Hk. destruct Hmax as [Hz|(id & r & Hl & <- & Hx)]; [lia|].
    apply (co_gapless _ _ Hok id r k Hl). lia.
  - intros (id & r & Hl & Hm & <-). split; [|by eapply Hle].
    destruct (to_rows _ _ _ _ (co_observations _ _ Hok) _ _ Hl) as [Hc _]. unfold observation_check in Hc. unbool. lia.
Qed.

(** Every finalization was certified by an event of the log
    before which the newest verification of its manifest is an acceptance, under
    the digest the finalization records. *)
Theorem certification_follows_verification (w : World) id r :
  wreachable w -> finalizations (w_context w) !! id = Some r -> certified (log (w_db w)) id r.
Proof. intros Hr. by apply wreachable_certified. Qed.

(** C34: Replaying the log of a reachable state from empty tables
    through the same projectors rebuilds the four truth tables exactly, and the
    kernel's own derived tables, when every attention item was raised by an
    event. *)
Theorem replay_rebuilds_context (w : World) :
  wreachable w -> raised_first (log (w_db w)) ->
  exists n p, fold_res replay_fact (0%Z, empty_proj, empty_context) (log (w_db w)) = Ok (n, p, truth (w_context w)) /\
    derived p = derived (proj (w_db w)).
Proof.
  intros Hr Hraised.
  destruct (reachable_rebuilt accepting accepting_frame accepting_blind _ (wreachable_reachable _ Hr) Hraised)
    as (n & x & Hfold & _).
  exists n, (set_attention_items x (proj (w_db w))). split; [|done]. by apply wreachable_replays.
Qed.

(** A history with Context facts and blob classifications is,
    on the kernel's database, a history of the command path whose Context
    projector accepts everything: every guarantee proved of those histories
    holds with the Context engine running. *)
Theorem context_keeps_kernel_histories (w w' : World) :
  rtc wstep w w' -> rtc (step accepting) (w_db w) (w_db w') /\ context_frame accepting /\ context_blind accepting.
Proof.
  intros Hr. split; [by apply wsteps_steps|]. split; [exact accepting_frame|exact accepting_blind].
Qed.
End World.
