(* ===== verification/Demo.v ===== *)
(** * A concrete world for the examples

    Instances of the external interfaces the kernel is parameterised by, on
    which every definition of the development evaluates: instants are natural
    numbers written in decimal (one calendar date is read too), a message authentication code, and a payload
    type that encodes the commands the examples use.  The classes' laws hold of
    them, so the theorems that assume those laws apply here. *)

From S2P Require Import Prelude Text Fsm Envelope Command Tables Db Store Project Authority Submit Facts.
From Stdlib Require Import DecimalString DecimalN DecimalPos.

(** ** Instants *)

#[export] Instance demo_tz : Timestamptz := {|
  instant := N;
  instant_eq_dec := _;
  instant_ltb := N.ltb;
  ts_parse s := match NilZero.uint_of_string s with
                | Some u => Some (N.of_uint u)
                | None => if bool_decide (s = "2026-01-01T00:00:00Z") then Some 0%N else None
                end;
  ts_json n := NilZero.string_of_uint (N.to_uint n);
  elapsed_at_least now since secs := (Z.of_N since + secs <=? Z.of_N now)%Z;
  older_than now since secs := (Z.of_N since + secs <? Z.of_N now)%Z;
  older_than_days now since days := (Z.of_N since + days * 86400 <? Z.of_N now)%Z;
  plus_secs t secs := Z.to_N (Z.of_N t + secs);
|}.

#[export] Instance demo_tz_laws : TimestamptzLaws.
Proof.
  split. intros t. simpl. rewrite NilZero.usu.
  - simpl. by rewrite DecimalN.Unsigned.of_to.
  - destruct t as [|q]; [done|]. apply DecimalPos.Unsigned.to_uint_nonnil.
Qed.

#[export] Instance demo_hmac : Hmac := fun key message => key +:+ "/" +:+ message.

(** ** Payloads *)

Inductive payload_t :=
| PText (s : string)
| PGenesis (version : Z) (revision : string)
| PActivate (cutover digest : string)
| PCreateTask (id : string)
| PTransitionTask (id : string) (to : TaskState) (version : Z)
| PCreateAttempt (id task engine : string)
| PTransitionAttempt (id : string) (to : AttemptState) (version : Z) (receipt : option string)
| PIssueCommand (id kind : string)
| PSendMessage (id : string)
| PSaid (id : string) (body : payload_t)
| PFloat (n : Z)
| PInt (n : Z)
| PRaise (id kind subject : string)
| PResolve (id : string)
| PAck (id : string)
| PNode (id : string) (kind : WorkspaceNodeKind) (parent : option string)
| PMove (id parent : string) (version : Z)
| PClose (id : string) (version : Z)
| PGrant (id action_class : string) (grantee : Actor)
| POpenPty (id generation : string)
| PInput (id generation : string) (bytes : Z)
| PTemplate (name : string)
| PStart (template_name id : string)
| PAcquire (id expires : string)
| PRenew (id : string) (version : Z) (expires : string)
| PExpire (id : string) (version : Z)
| PLeasedAttempt (id task engine lease : string)
| PContext (body : ContextEventPayload).

#[export] Instance payload_eq_dec : EqDecision payload_t.
Proof. solve_decision. Defined.

Definition demo_to_value (c : KernelCommand payload_t) : payload_t :=
  match c with
  | ActivateKernel c d => PActivate c d
  | CreateTask id None None None None None None => PCreateTask id
  | TransitionTask id to v => PTransitionTask id to v
  | CreateAttempt id task engine None None None None None None None => PCreateAttempt id task engine
  | CreateAttempt id task engine None None None None (Some lease) None None => PLeasedAttempt id task engine lease
  | TransitionAttempt id to v r => PTransitionAttempt id to v r
  | AcquireLease id LeaseExclusive None None None None None None (Some expires) => PAcquire id expires
  | RenewLease id v (Some expires) => PRenew id v expires
  | ExpireLease id v => PExpire id v
  | IssueCommand id kind [] None => PIssueCommand id kind
  | SendMessage id None None None None None None None None => PSendMessage id
  | SendMessage id None None None None None None (Some body) None => PSaid id body
  | RaiseAttention id kind _ (Some subject) None None => PRaise id kind subject
  | ResolveAttention id None => PResolve id
  | AckAttention id => PAck id
  | CreateWorkspaceNode id kind parent None => PNode id kind parent
  | MoveWorkspaceNode id parent v => PMove id parent v
  | CloseWorkspaceNode id v => PClose id v
  | GrantAuthority id grantee cls None None => PGrant id cls grantee
  | OpenPtySession id generation None None => POpenPty id generation
  | SendPtyInput id generation n => PInput id generation n
  | RequestPtySessionStart name id => PStart name id
  | DeclarePtySessionTemplate name _ [] None env 80 24 =>
      if bool_decide (env = ∅) then PTemplate name else PText "other"
  | _ => PText "other"
  end.

Definition demo_deserialize (v : payload_t) : option (KernelCommand payload_t) :=
  match v with
  | PText _ | PGenesis _ _ | PContext _ | PFloat _ | PInt _ => None
  | PActivate c d => Some (ActivateKernel c d)
  | PCreateTask id => Some (CreateTask id None None None None None None)
  | PTransitionTask id to v => Some (TransitionTask id to v)
  | PCreateAttempt id task engine =>
      Some (CreateAttempt id task engine None None None None None None None)
  | PLeasedAttempt id task engine lease =>
      Some (CreateAttempt id task engine None None None None (Some lease) None None)
  | PTransitionAttempt id to v r => Some (TransitionAttempt id to v r)
  | PAcquire id expires => Some (AcquireLease id LeaseExclusive None None None None None None (Some expires))
  | PRenew id v expires => Some (RenewLease id v (Some expires))
  | PExpire id v => Some (ExpireLease id v)
  | PIssueCommand id kind => Some (IssueCommand id kind [] None)
  | PSendMessage id => Some (SendMessage id None None None None None None None None)
  | PSaid id body => Some (SendMessage id None None None None None None (Some body) None)
  | PRaise id kind subject => Some (RaiseAttention id kind "summary" (Some subject) None None)
  | PResolve id => Some (ResolveAttention id None)
  | PAck id => Some (AckAttention id)
  | PNode id kind parent => Some (CreateWorkspaceNode id kind parent None)
  | PMove id parent v => Some (MoveWorkspaceNode id parent v)
  | PClose id v => Some (CloseWorkspaceNode id v)
  | PGrant id cls grantee => Some (GrantAuthority id grantee cls None None)
  | POpenPty id generation => Some (OpenPtySession id generation None None)
  | PInput id generation n => Some (SendPtyInput id generation n)
  | PStart name id => Some (RequestPtySessionStart name id)
  | PTemplate name => Some (DeclarePtySessionTemplate name "sh" [] None ∅ 80 24)
  end.

(** A float without fraction is read back as an integer. *)
Fixpoint demo_jsonb (v : payload_t) : payload_t :=
  match v with
  | PFloat n => PInt n
  | PSaid id body => PSaid id (demo_jsonb body)
  | _ => v
  end.

#[export] Instance demo_serde : Serde payload_t := {|
  serialized_len _ := 2%Z;
  to_value := demo_to_value;
  deserialize := demo_deserialize;
  json_text v f :=
    match v with
    | PActivate c _ => if bool_decide (f = "cutover_id") then Some c else None
    | _ => None
    end;
  jsonb := demo_jsonb;
  genesis_payload := PGenesis;
|}.

#[export] Instance demo_serde_laws : SerdeLaws payload_t.
Proof.
  split; [|intros c; destruct c; cbn; repeat case_match; intros; simplify_eq/=; congruence|done].
  intros v c Hv. destruct v; simpl in *; by simplify_eq/=.
Qed.

#[export] Instance demo_context_serde : ContextSerde payload_t := {|
  context_to_value := PContext;
  context_from_value v := match v with PContext p => Some p | _ => None end;
  json_fact_manifest v := match v with PContext p => fact_manifest (cep_fact p) | _ => None end;
|}.

#[export] Instance demo_context_serde_laws : ContextSerdeLaws payload_t.
Proof. by split. Qed.

(** ** A kernel brought up and used *)

Module Demo.

Definition op : Actor := {| actor_kind := "operator"; actor_id := None |}.
Definition liveness : Actor := {| actor_kind := "liveness_producer"; actor_id := None |}.
Definition src : Origin := {| origin_system := "gw"; origin_ref := None |}.
Definition clock (n : N) : TxClock := {| tx_now := n; tx_wall := n |}.
Definition digest : string :=
  "aaaaaaaaaaaaaaaaaaaaaaaaaaaaaaaaaaaaaaaaaaaaaaaaaaaaaaaaaaaaaaaa".
Definition revision : string := "0123456789abcdef0123456789abcdef01234567".

Definition envelope_of (who : Actor) (project key : string) (v : payload_t)
  : CommandEnvelope payload_t := {|
  ce_command_id := "cmd:" +:+ key; ce_project_id := project;
  ce_command_type := match deserialize v with Some c => command_type c | None => "" end;
  ce_schema_version := 1; ce_issued_at := "100"; ce_actor := who; ce_origin := src;
  ce_target_aggregate_type := None; ce_target_aggregate_id := None; ce_expected_version := None;
  ce_idempotency_key := key; ce_causation_id := None; ce_correlation_id := None;
  ce_payload := v |}.

(** The Context projector is not exercised by commands. *)
Definition no_context (_ : EventEnvelope payload_t) (p : Proj instant payload_t)
  : result Refusal (Proj instant payload_t) := Ok p.

Definition st : Store (V := payload_t) := {| boot_epoch := 1; blobs := None; permits := 64 |}.

Definition fresh : Db instant payload_t := initial_db (0%N : instant).

(** Claim the epoch, then append genesis. *)
Definition booted : Db instant payload_t :=
  match with_capacity 64 fresh with
  | Ok (_, db) =>
      match ensure_genesis st (clock 1) revision db with Ok db => db | Err _ => db end
  | Err _ => fresh
  end.

Definition step (db : Db instant payload_t) (cmd : Actor * string * string * payload_t)
  : Db instant payload_t :=
  let '(who, project, key, v) := cmd in
  (submit no_context st (clock 100) (envelope_of who project key v) None db).2.

Definition answer (db : Db instant payload_t) (cmd : Actor * string * string * payload_t)
  : KernelResult :=
  let '(who, project, key, v) := cmd in
  (submit no_context st (clock 100) (envelope_of who project key v) None db).1.

Definition active : Db instant payload_t :=
  step booted (op, "system", "kernel_activated:c1", PActivate "c1" digest).

Definition with_task : Db instant payload_t := step active (op, "p", "k1", PCreateTask "t1").

Definition applied (r : KernelResult (V := payload_t)) : bool :=
  match r with CommandApplied _ _ _ => true | KernelError _ => false end.
Definition error_code (r : KernelResult (V := payload_t)) : option KernelErrorCode :=
  match r with CommandApplied _ _ _ => None | KernelError r => Some (code r) end.

Example booted_has_genesis : length (log booted) = 1.
Proof. vm_compute. reflexivity. Qed.

Example sealed_refuses_work :
  error_code (answer booted (op, "p", "k1", PCreateTask "t1")) = Some ESealed.
Proof. vm_compute. reflexivity. Qed.

Example task_is_created : length (log with_task) = 3 /\ is_some (tasks (proj with_task) !! "t1") = true.
Proof. vm_compute. done. Qed.

Example task_moves :
  applied (answer with_task (op, "p", "k2", PTransitionTask "t1" TaskWorking 1)) = true.
Proof. vm_compute. reflexivity. Qed.
End Demo.
