(* ===== verification/Examples.v ===== *)
(** * Worked histories

    The theorems of the library applied to concrete histories of the kernel of
    [Demo]: each witness runs the code's definitions on the inputs it names.  At
    the end, the histories behind the recorded divergences between the code and
    what it documents. *)

From S2P Require Import Prelude Text Fsm Envelope Transition Command Tables Db Store Port Backends Project Authority Submit Demo Writes Kernel System Recover Workspace Ordered Sweep.

Module Examples.
Import Demo.

Notation reachable := (reachable no_context).
Notation sys_step := (System.step no_context).

(** ** Histories *)

Lemma no_context_frame : context_frame no_context.
Proof. by intros e p p' [= <-]. Qed.
Lemma no_context_blind : context_blind no_context.
Proof. by intros e p p' x [= <-]. Qed.

Definition claimed : Db instant payload_t :=
  match with_capacity 64 fresh with Ok (_, db) => db | Err _ => fresh end.

Lemma claim_fresh : with_capacity 64 fresh = Ok (st, claimed).
Proof. vm_compute. reflexivity. Qed.

Lemma genesis_claimed : ensure_genesis st (clock 1) revision claimed = Ok booted.
Proof. vm_compute. reflexivity. Qed.

Lemma reach_claimed : reachable claimed.
Proof. exists (0%N : @instant demo_tz). eapply rtc_once, step_claim, claim_fresh. Qed.

Lemma reach_booted : reachable booted.
Proof. eapply reachable_step, step_genesis, genesis_claimed. apply reach_claimed. Qed.

Lemma submitted db who project key v :
  sys_step db (step db (who, project, key, v)).
Proof. eapply step_submit, surjective_pairing. Qed.

Lemma reach_submitted db cmd : reachable db -> reachable (step db cmd).
Proof. destruct cmd as [[[who project] key] v]. intros Hr. eapply reachable_step, submitted. done. Qed.

Lemma reach_active : reachable active.
Proof. apply reach_submitted, reach_booted. Qed.
Lemma reach_with_task : reachable with_task.
Proof. apply reach_submitted, reach_active. Qed.

Lemma booted_inv : log_inv booted.
Proof. eapply reachable_log_inv, reach_booted. Qed.

(** A list of commands, one after the other. *)
Definition steps (db : Db instant payload_t) (cmds : list (Actor * string * string * payload_t))
  : Db instant payload_t := foldl step db cmds.

Lemma reach_steps db cmds : reachable db -> reachable (steps db cmds).
Proof.
  unfold steps. revert db. induction cmds as [|cmd cmds IH]; intros db Hr; [done|].
  apply IH. by apply reach_submitted.
Qed.

#[local] Hint Resolve reach_booted reach_active reach_with_task reach_submitted reach_steps : gwk.

Lemma history_steps db cmds : rtc sys_step db (steps db cmds).
Proof.
  unfold steps. revert db. induction cmds as [|[[[who project] key] v] cmds IH]; intros db; [reflexivity|].
  eapply rtc_l; [apply submitted|apply IH].
Qed.

(** The rows of an answer. *)
Definition rows_of_answer (r : KernelResult (V := payload_t)) : list (EventEnvelope payload_t) :=
  match r with CommandApplied _ rows _ => rows | KernelError _ => [] end.

(** A task brought to an end. *)
Definition finish : list (Actor * string * string * payload_t) :=
  [(op, "p", "k2", PTransitionTask "t1" TaskWorking 1);
   (op, "p", "k3", PTransitionTask "t1" TaskCompleted 2)].
Definition finished : Db instant payload_t := steps with_task finish.

(** An attempt brought to [running]. *)
Definition running : Db instant payload_t :=
  steps with_task [(op, "p", "a1", PCreateAttempt "at1" "t1" "engine");
                   (op, "p", "a2", PTransitionAttempt "at1" AttemptLeased 1 None);
                   (op, "p", "a3", PTransitionAttempt "at1" AttemptStarting 2 None);
                   (op, "p", "a4", PTransitionAttempt "at1" AttemptRunning 3 None)].
Definition block_it : Actor * string * string * payload_t :=
  (liveness, "p", "a5", PTransitionAttempt "at1" AttemptBlocked 4 (Some "receipt-1")).

(** An orchestrator with and without a grant to stop. *)
Definition orch : Actor := {| actor_kind := "orchestrator"; actor_id := Some "o1" |}.
Definition granted_stop : Db instant payload_t := step active (op, "p", "g1", PGrant "grant1" "stop" orch).
Definition stop_it : Actor * string * string * payload_t := (orch, "p", "s1", PIssueCommand "c1" "stop").

(** A workspace, a tab, a pane and a pane inside it. *)
Definition tree : Db instant payload_t :=
  steps active [(op, "p", "n1", PNode "w" KWorkspace None);
                (op, "p", "n2", PNode "tab" KTab (Some "w"));
                (op, "p", "n3", PNode "left" KPane (Some "tab"));
                (op, "p", "n4", PNode "inner" KPane (Some "left"))].

(** A paged command, and the page acknowledged. *)
Definition paged_db : Db instant payload_t := step active stop_it.
Definition page_id : string := "page:stop:command/c1".
Definition acked_page : Db instant payload_t := step paged_db (op, "p", "k9", PAck page_id).

Example histories_run :
  (length (log finished), length (log running), length (log granted_stop), length (log tree)) = (5, 7, 3, 6) /\
  error_code (answer tree (op, "p", "n5", PMove "left" "inner" 1)) = Some EValidation /\
  error_code (answer active stop_it) = Some EAuthority /\ length (log paged_db) = 2 /\
  length (log acked_page) = 3.
Proof. vm_compute. done. Qed.

(** ** Witnesses: the store *)

Definition note_event (key : string) : EventEnvelope payload_t := {|
  event_id := "note:n:1"; project_id := "p"; aggregate_type := "note"; aggregate_id := "n";
  aggregate_version := 1; event_type := "note_taken"; schema_version := 1; global_sequence := 0;
  appended_at := "7"; occurred_at := "7"; actor := op; origin := src; causation_id := None;
  correlation_id := None; idempotency_key := Some key; payload := PText "hello"; payload_ref := None |}.

Definition noted : Db instant payload_t :=
  match append st (clock 7) 0 None [note_event "k"] booted with Ok (_, db) => db | Err _ => booted end.
Definition noted_rows : list (EventEnvelope payload_t) :=
  match append st (clock 7) 0 None [note_event "k"] booted with Ok (rows, _) => rows | Err _ => [] end.

Lemma append_orders_the_log_witness :
  log_inv noted /\ Forall2 records noted_rows [note_event "k"] /\
  ((noted = booted /\ forall row, row ∈ noted_rows -> row ∈ log booted) \/
   (log noted = log booted ++ noted_rows /\ proj noted = proj booted /\
    exists w w', writer booted = Some w /\ writer noted = Some w' /\
      global_sequence <$> noted_rows = seqZ (w_next_seq w) 1 /\
      w_next_seq w' = (w_next_seq w + 1)%Z /\ aggregate_version <$> noted_rows = seqZ 1 1)).
Proof.
  apply (append_orders_the_log st (clock 7) 0 None [note_event "k"] booted noted_rows noted).
  - exact booted_inv.
  - vm_compute. reflexivity.
Defined.

Lemma append_retry_is_stable_witness :
  append st (clock 9) 0 None [note_event "k"] noted = Ok (noted_rows, noted).
Proof.
  assert (append st (clock 7) 0 None [note_event "k"] booted = Ok (noted_rows, noted)) as Happ
    by (vm_compute; reflexivity).
  eapply (append_retry_is_stable st st (clock 7) (clock 9) 0 None None [note_event "k"] booted noted_rows
            noted noted _ []).
  - exact booted_inv.
  - exact Happ.
  - reflexivity.
  - constructor; [reflexivity|constructor].
  - unfold append in Happ. apply bind_ok_iff in Happ as (_ & _ & Happ).
    apply bind_ok_iff in Happ as (ws & Hl & Happ). apply bind_ok_iff in Happ as ([a db] & Ha & [= _ <-]).
    exact (append_locked_inv _ _ _ _ _ _ _ _ _ booted_inv Hl Ha).
  - by rewrite app_nil_r.
  - reflexivity.
  - vm_compute. reflexivity.
  - reflexivity.
Defined.

(** ** Witnesses: the command path *)

Definition colon_task : KernelCommand payload_t := CreateTask "a:b" None None None None None None.
Definition colon_route : Route :=
  {| r_aggregate_type := "task"; r_aggregate_id := "a:b"; r_event_type := "task_created" |}.
Definition colon_event (project key : string) : EventEnvelope payload_t :=
  match build_event (envelope_of op project key (PCreateTask "a:b")) (PCreateTask "a:b") colon_route 0 with
  | Ok e => e
  | Err _ => note_event key
  end.

Lemma event_ids_are_injective_witness :
  agg_key (colon_event "p" "k1") = agg_key (colon_event "q" "k2") /\
  aggregate_version (colon_event "p" "k1") = aggregate_version (colon_event "q" "k2").
Proof.
  apply (event_ids_are_injective (envelope_of op "p" "k1" (PCreateTask "a:b"))
           (envelope_of op "q" "k2" (PCreateTask "a:b")) colon_task colon_task colon_route colon_route
           (PCreateTask "a:b") (PCreateTask "a:b") 0 0).
  - reflexivity.
  - reflexivity.
  - lia.
  - lia.
  - vm_compute. reflexivity.
  - vm_compute. reflexivity.
  - vm_compute. reflexivity.
Defined.

Lemma log_is_append_only_witness :
  log_inv finished /\ exists more, log finished = log with_task ++ more.
Proof. apply (log_is_append_only no_context); [apply reach_with_task|apply history_steps]. Defined.

Lemma kernel_lifecycle_witness :
  exists ep, epoch_of (log with_task) = Ok ep /\ kernel_log (log with_task) ep.
Proof. apply (kernel_lifecycle no_context), reach_with_task. Defined.

(** A command applied, and one refused for want of a grant: its receipt and its
    page are all it leaves. *)
Lemma submit_outcomes_witness :
  (reachable with_task /\
   match answer active (op, "p", "k1", PCreateTask "t1") with
   | KernelError _ => False
   | CommandApplied id rows mark =>
       id = "cmd:k1" /\
       ((with_task = active /\ forall row, row ∈ rows -> row ∈ log active) \/
        exists c rt row, deserialize (PCreateTask "t1") = Some c /\
          route_of (envelope_of op "p" "k1" (PCreateTask "t1")) c = Ok rt /\
          rows = [row] /\ mark = global_sequence row /\
          log with_task = log active ++ [row] /\
          project_command row (stored_command c) (proj active) = Ok (proj with_task) /\
          agg_key row = (r_aggregate_type rt, r_aggregate_id rt) /\
          payload row = jsonb (to_value c) /\ event_type row = r_event_type rt /\
          project_id row = "p" /\ actor row = op /\ idempotency_key row = Some "k1" /\
          aggregate_version row =
            (Z.of_nat (length (versions (log active) (r_aggregate_type rt) (r_aggregate_id rt))) + 1)%Z)
   end) /\
  (size (attention_items (proj paged_db)) = S (size (attention_items (proj active))) /\
   exists r, refusal_effect (envelope_of orch "p" "s1" (PIssueCommand "c1" "stop")) r active paged_db).
Proof.
  split.
  - destruct (submit_outcomes no_context st (clock 100) (envelope_of op "p" "k1" (PCreateTask "t1")) None active
                with_task (answer active (op, "p", "k1", PCreateTask "t1")) reach_active
                (surjective_pairing _)) as [Hr Hcase].
    split; [exact Hr|]. destruct (answer active (op, "p", "k1", PCreateTask "t1")) eqn:E; [exact Hcase|].
    vm_compute in E. discriminate E.
  - split; [vm_compute; reflexivity|].
    destruct (submit_outcomes no_context st (clock 100) (envelope_of orch "p" "s1" (PIssueCommand "c1" "stop")) None active
                paged_db (answer active stop_it) reach_active (surjective_pairing _)) as [_ Hcase].
    destruct (answer active stop_it) as [? ? ?|r] eqn:E; [vm_compute in E; discriminate E|]. by exists r.
Defined.

Lemma submit_retry_is_stable_witness :
  exists mark, watermark (log finished) = Some mark /\
    submit no_context st (clock 500) (envelope_of op "p" "k1" (PCreateTask "t1")) None finished =
      (CommandApplied "cmd:k1" (rows_of_answer (answer active (op, "p", "k1", PCreateTask "t1"))) mark,
       finished).
Proof.
  eapply (submit_retry_is_stable no_context st st (clock 100) (clock 500)
            (envelope_of op "p" "k1" (PCreateTask "t1")) active with_task finished).
  - auto with gwk.
  - vm_compute. reflexivity.
  - by intros c [= <-].
  - apply history_steps.
  - vm_compute. reflexivity.
  - reflexivity.
  - reflexivity.
Defined.

(** A message whose body the column rewrites: a number with a fraction of zero
    comes back as an integer, and the retry is another request. *)
Definition say_it : Actor * string * string * payload_t := (op, "p", "m", PSaid "m1" (PFloat 1)).
Lemma rewritten_retry_conflicts_witness :
  applied (answer active say_it) = true /\
  submit no_context st (clock 500) (envelope_of op "p" "m" (PSaid "m1" (PFloat 1))) None (step active say_it) =
    (KernelError (refuse EIdempotencyConflict), step active say_it).
Proof.
  split; [vm_compute; reflexivity|].
  destruct (log (step active say_it) !! 2) as [row|] eqn:E; [|vm_compute in E; discriminate E].
  eapply (rewritten_retry_conflicts no_context st st (clock 100) (clock 500) (envelope_of op "p" "m" (PSaid "m1" (PFloat 1)))
           active (step active say_it) (step active say_it) row).
  - auto with gwk.
  - vm_compute in E. injection E as <-. vm_compute. reflexivity.
  - vm_compute in E. injection E as <-. vm_compute. reflexivity.
  - reflexivity.
  - vm_compute. discriminate.
  - reflexivity.
  - vm_compute. reflexivity.
  - reflexivity.
  - reflexivity.
Defined.

(** A second process claims the epoch; the first is refused from then on. *)
Definition taken_over : Db instant payload_t :=
  match with_capacity 8 with_task with Ok (_, db) => db | Err _ => with_task end.
Definition st2 : Store (V := payload_t) := {| boot_epoch := 2; blobs := None; permits := 8 |}.

Lemma deposed_writer_is_refused_witness :
  exists r, submit no_context st (clock 200) (envelope_of op "p" "k7" (PCreateTask "t7")) None taken_over =
    (KernelError r, taken_over).
Proof.
  eapply (deposed_writer_is_refused no_context st st2 64 8 (clock 200)
            (envelope_of op "p" "k7" (PCreateTask "t7")) None fresh claimed with_task taken_over taken_over).
  - exists (0%N : @instant demo_tz). reflexivity.
  - apply claim_fresh.
  - eapply rtc_l; [eapply step_genesis, genesis_claimed|].
    eapply rtc_l; [apply (submitted booted)|]. apply rtc_once, (submitted active).
  - vm_compute. reflexivity.
  - reflexivity.
Defined.

Lemma sealed_kernel_takes_only_activation_witness :
  exists r, submit no_context st (clock 2) (envelope_of op "p" "k1" (PCreateTask "t1")) None booted =
    (KernelError r, booted).
Proof.
  eapply (sealed_kernel_takes_only_activation no_context st (clock 2)
            (envelope_of op "p" "k1" (PCreateTask "t1")) None booted EpochSealed
            (CreateTask "t1" None None None None None None)).
  - vm_compute. reflexivity.
  - discriminate.
  - reflexivity.
  - discriminate.
Defined.

Lemma aggregates_belong_to_one_project_witness :
  exists e1 e2, log finished !! 2 = Some e1 /\ log finished !! 4 = Some e2 /\
    agg_key e1 = agg_key e2 /\ project_id e1 = project_id e2.
Proof.
  destruct (log finished !! 2) as [e1|] eqn:E1; [|vm_compute in E1; discriminate E1].
  destruct (log finished !! 4) as [e2|] eqn:E2; [|vm_compute in E2; discriminate E2].
  exists e1, e2. split; [reflexivity|]. split; [reflexivity|].
  assert (agg_key e1 = agg_key e2) as Hk.
  { vm_compute in E1, E2. injection E1 as <-. injection E2 as <-. reflexivity. }
  split; [exact Hk|].
  eapply (aggregates_belong_to_one_project no_context finished).
  - apply reach_steps, reach_with_task.
  - eapply list_elem_of_lookup_2, E1.
  - eapply list_elem_of_lookup_2, E2.
  - exact Hk.
  - vm_compute in E1. injection E1 as <-. reflexivity.
Defined.

(** ** Witnesses: the tables *)

Lemma reach_running : reachable running.
Proof. apply reach_steps, reach_with_task. Qed.
#[local] Hint Resolve reach_running : gwk.

Lemma rows_meet_their_constraints_witness :
  exists row, attempts (proj running) !! "at1" = Some row /\
    t_check (attempt_table (V := payload_t)) row = true /\ t_fk attempt_table (proj running) row = true.
Proof.
  destruct (attempts (proj running) !! "at1") as [row|] eqn:E; [|vm_compute in E; discriminate E].
  exists row. split; [reflexivity|].
  eapply (rows_meet_their_constraints no_context no_context_frame running _ attempt_table "at1" row).
  - auto with gwk.
  - exact d_attempt.
  - exact E.
Defined.

Definition raised : Db instant payload_t :=
  step active (op, "p", "r1", PRaise "i1" "review" "task/t1").

Lemma one_open_item_per_subject_witness :
  error_code (answer raised (op, "p", "r2", PRaise "i2" "review" "task/t1")) = Some EValidation /\
  exists r, attention_items (proj raised) !! "i1" = Some r /\
    forall id, attention_items (proj raised) !! id = Some r -> id = "i1".
Proof.
  split; [vm_compute; reflexivity|].
  destruct (attention_items (proj raised) !! "i1") as [r|] eqn:E; [|vm_compute in E; discriminate E].
  exists r. split; [reflexivity|]. intros id Hid.
  assert (attn_resolved_at r = None /\ attn_subject_ref r = Some "task/t1") as [Hr Hs].
  { vm_compute in E. injection E as <-. split; reflexivity. }
  eapply (one_open_item_per_subject no_context no_context_frame raised id "i1" r r "task/t1").
  - apply reach_submitted, reach_active.
  - exact Hid.
  - exact E.
  - exact Hr.
  - exact Hr.
  - reflexivity.
  - exact Hs.
  - exact Hs.
Defined.

Lemma row_version_counts_events_witness :
  4%Z = Z.of_nat (length (versions (log running) "attempt" "at1")) /\
  current_aggregate_version (log running) "attempt" "at1" = Ok 4%Z.
Proof.
  apply (row_version_counts_events no_context no_context_frame running "attempt" "at1" 4).
  - auto with gwk.
  - vm_compute. reflexivity.
Defined.

Lemma rows_follow_the_machine_witness :
  exists (s s' : TaskState) old new,
    rows_of (S := TaskState) (proj with_task) !! "t1" = Some old /\
    rows_of (S := TaskState) (proj finished) !! "t1" = Some new /\
    task_state old = wire_name s /\ task_state new = wire_name s' /\
    rtc (fun a b => can_transition a b = true) s s'.
Proof.
  destruct (rows_of (S := TaskState) (proj with_task) !! "t1") as [old|] eqn:E;
    [|vm_compute in E; discriminate E].
  destruct (rows_follow_the_machine no_context no_context_frame (S := TaskState) with_task finished "t1" old
    reach_with_task (history_steps with_task finish) E) as (s & s' & new & Hn & Ho & Hs & Hr & _).
  exists s, s', old, new. split; [reflexivity|]. split; [exact Hn|]. split; [exact Ho|].
  split; [exact Hs|exact Hr].
Defined.

Lemma liveness_flips_are_guarded_witness :
  actor_kind liveness = LIVENESS_PRODUCER_KIND /\
  exists receipt, receipt <> "" /\
    deserialize (PTransitionAttempt "at1" AttemptBlocked 4 (Some "receipt-1")) =
      Some (TransitionAttempt "at1" AttemptBlocked 4 (Some receipt)).
Proof.
  destruct (attempts (proj running) !! "at1") as [old|] eqn:E; [|vm_compute in E; discriminate E].
  destruct (attempts (proj (step running block_it)) !! "at1") as [new|] eqn:E';
    [|vm_compute in E'; discriminate E'].
  assert (attempt_version old = 4%Z /\ attempt_state old = wire_name AttemptRunning) as [Hv Hs]
    by (vm_compute in E; injection E as <-; split; reflexivity).
  assert (attempt_state new = wire_name AttemptBlocked) as Hs'
    by (vm_compute in E'; injection E' as <-; reflexivity).
  destruct (liveness_flips_are_guarded no_context st (clock 100)
    (envelope_of liveness "p" "a5" (PTransitionAttempt "at1" AttemptBlocked 4 (Some "receipt-1"))) None
    running (step running block_it) (answer running block_it) "at1" old new AttemptRunning AttemptBlocked
    reach_running (surjective_pairing _) E E' Hs Hs' eq_refl) as [Hk (r & Hr & Hd)].
  split; [exact Hk|]. exists r. rewrite Hv in Hd. split; [exact Hr|exact Hd].
Defined.

(** The same flip from anyone else, or without a receipt, is refused. *)
Example flips_from_others_are_refused :
  error_code (answer running (op, "p", "a5", PTransitionAttempt "at1" AttemptBlocked 4 (Some "receipt-1")))
    = Some EAuthority /\
  error_code (answer running (liveness, "p", "a5", PTransitionAttempt "at1" AttemptBlocked 4 None))
    = Some EAuthority.
Proof. vm_compute. done. Qed.

(** ** Witnesses: authority *)

Definition stop_route : Route :=
  {| r_aggregate_type := "command"; r_aggregate_id := "c1"; r_event_type := "command_issued" |}.


Lemma page_leaves_its_trail_witness :
  exists db' verdict,
    paged (envelope_of orch "p" "s1" (PIssueCommand "c1" "stop")) (IssueCommand "c1" "stop" [] None)
      stop_route "stop" UNGRANTED_BASIS active = Ok (db', verdict) /\
    log db' = log active /\
    exists id row, attention_items (proj db') !! id = Some row /\ attn_kind row = "authority" /\
      attn_subject_ref row = Some "command/c1" /\ attn_resolved_at row = None.
Proof.
  destruct (paged (envelope_of orch "p" "s1" (PIssueCommand "c1" "stop")) (IssueCommand "c1" "stop" [] None)
      stop_route "stop" UNGRANTED_BASIS active) as [[db' verdict]|r] eqn:E; [|vm_compute in E; discriminate E].
  exists db', verdict. split; [reflexivity|].
  destruct (page_leaves_its_trail _ _ _ _ _ _ _ _ E) as (Hl & _ & _ & _ & Hrow).
  split; [exact Hl|exact Hrow].
Defined.

(** ** Witnesses: replay and the workspace tree *)

Lemma replay_rebuilds_the_projections_witness :
  exists n target, replay no_context (log finished) empty_proj = Some (Ok (n, target)) /\
    n = Z.of_nat (length (List.filter (fun e => negb (is_genesis_event e)) (log finished))) /\
    derived target = derived (proj finished) /\ attention_items target ⊆ attention_items (proj finished).
Proof.
  apply (replay_rebuilds_the_projections no_context finished).
  - exact no_context_frame.
  - exact no_context_blind.
  - apply reach_steps, reach_with_task.
  - intros e He. apply list_elem_of_lookup_1 in He as [i Hi].
    assert (Forall (fun e => aggregate_type e <> "attention_item") (log finished)) as Hall.
    { vm_compute. repeat (constructor; [discriminate|]). constructor. }
    intros Ht. exfalso. eapply Forall_lookup_1 in Hall; [|exact Hi]. exact (Hall Ht).
Defined.

Lemma replay_pages_are_the_log_witness :
  replay no_context (log tree) empty_proj =
    Some (fold_res (replay_event no_context) (0%Z, empty_proj) (log tree)).
Proof. apply (replay_pages_are_the_log no_context tree), reach_steps, reach_active. Defined.

Lemma workspace_is_a_forest_witness :
  exists path, chain (workspace_nodes (proj tree)) "inner" path /\ NoDup path /\
    ancestor_walk (workspace_nodes (proj tree)) "inner" = path.
Proof.
  apply (workspace_is_a_forest no_context tree "inner").
  - exact no_context_frame.
  - apply reach_steps, reach_active.
  - vm_compute. eexists. reflexivity.
Defined.

(** ** Divergences *)

Lemma replay_needs_the_raises_witness : raised_first (log paged_db) /\ ~ raised_first (log acked_page).
Proof.
  split.
  - apply (replay_needs_the_raises no_context paged_db).
    + exact no_context_frame.
    + exact no_context_blind.
    + apply reach_submitted, reach_active.
    + vm_compute. eexists _, _. reflexivity.
  - intros Hf. apply (replay_needs_the_raises no_context acked_page) in Hf.
    + destruct Hf as (n & target & Hr). vm_compute in Hr. discriminate Hr.
    + exact no_context_frame.
    + exact no_context_blind.
    + apply reach_submitted, reach_submitted, reach_active.
Defined.

(** A page raises its attention item without an event.  Once an operator has
    acknowledged that item, the log holds an event whose row the log cannot
    rebuild, and every replay of it is refused. *)
Example acknowledged_page_blocks_replay :
  applied (answer paged_db (op, "p", "k9", PAck page_id)) = true /\
  replay no_context (log paged_db) empty_proj = Some (Ok (1%Z, derived (proj paged_db))) /\
  replay no_context (log acked_page) empty_proj = Some (Err not_found).
Proof. vm_compute. done. Qed.

(** The id of a page's item is a function of its class and subject.  After the
    item is resolved, the next page of that subject collides with it: the
    command is answered with a storage error and its receipt is rolled back. *)
Definition resolved_page : Db instant payload_t := step paged_db (op, "p", "k9", PResolve page_id).
Definition stop_again : Actor * string * string * payload_t := (orch, "p", "s2", PIssueCommand "c1" "stop").

Example second_page_after_resolution_fails :
  error_code (answer paged_db stop_again) = Some EAuthority /\
  is_some (receipts (step paged_db stop_again) !! "receipt:p:s2") = true /\
  error_code (answer resolved_page stop_again) = Some EStorage /\
  is_some (receipts (step resolved_page stop_again) !! "receipt:p:s2") = false.
Proof. vm_compute. done. Qed.

Lemma page_is_raised_once_witness :
  exists r, paged (envelope_of orch "p" "s2" (PIssueCommand "c1" "stop")) (IssueCommand "c1" "stop" [] None)
      stop_route "stop" UNGRANTED_BASIS resolved_page = Err r /\ r = storage.
Proof.
  destruct (page_is_raised_once (envelope_of orch "p" "s2" (PIssueCommand "c1" "stop"))
    (IssueCommand "c1" "stop" [] None) stop_route "stop" UNGRANTED_BASIS resolved_page) as (r & Hp & Hr).
  - vm_compute. eexists. reflexivity.
  - vm_compute. reflexivity.
  - exists r. split; [exact Hp|]. apply Hr. vm_compute. reflexivity.
Defined.

(** The log keys idempotency per project, the message table globally: the same
    key in a second project is refused by the table after the log took it. *)
Example message_key_is_global :
  applied (answer active (op, "p", "k", PSendMessage "m1")) = true /\
  error_code (answer (step active (op, "p", "k", PSendMessage "m1")) (op, "q", "k", PSendMessage "m2"))
    = Some EStorage.
Proof. vm_compute. done. Qed.

(** The template check trims the name it looks at; the row and the aggregate
    keep the name as sent. *)
Example padded_template_name_is_accepted :
  applied (answer active (op, "p", "t", PTemplate " review ")) = true /\
  is_some (pty_templates (proj (step active (op, "p", "t", PTemplate " review "))) !! " review ") = true.
Proof. vm_compute. done. Qed.

(** Two lifetimes share one id. *)
Example lifetime_ids_collide :
  pty_session_lifetime_id "a:b" "c" = pty_session_lifetime_id "a" "b:c".
Proof. reflexivity. Qed.

(** ** The storage port *)

(** Transaction [n] of the session runs at instant [n]. *)
Definition session_clock (n : nat) : TxClock := clock (N.of_nat n).

Lemma no_sentinel n : ts_json (tx_now (session_clock n)) <> SENTINEL_APPENDED_AT.
Proof.
  intros E. apply (f_equal ts_parse) in E. rewrite ts_parse_json in E. vm_compute in E. discriminate.
Qed.

Lemma kernel_store_conforms_witness :
  run_all (ES := kernel_store st session_clock) (PText "{}")
    {| tick_count := 0; session_db := claimed |} = true.
Proof.
  apply (kernel_store_conforms (PText "{}") 64 (0%N : @instant demo_tz) st claimed session_clock).
  - apply claim_fresh.
  - lia.
  - vm_compute. eexists. reflexivity.
  - vm_compute. discriminate.
  - apply no_sentinel.
Defined.

(** A batch that lands, one at a version the aggregate is not at, a grant, the
    next batch without the token, one that skips a version under no token, then
    under it, and the batch again with it. *)
Definition traffic : list (Call payload_t) :=
  [CallAppend 0 None [fixture_event (PText "{}") "agg" 1];
   CallAppend 2 None [fixture_event (PText "{}") "agg" 3];
   CallGrantFence;
   CallAppend 1 None [fixture_event (PText "{}") "agg" 2];
   CallAppend 1 None [fixture_event (PText "{}") "agg" 3];
   CallAppend 1 (Some 1%Z) [fixture_event (PText "{}") "agg" 3];
   CallAppend 1 (Some 1%Z) [fixture_event (PText "{}") "agg" 2];
   CallReadFrom (Some 1%Z) 10; CallWatermark].

Example kernel_answers_traffic :
  let answers := (perform_all (H := kernel_store st session_clock) traffic
                    {| tick_count := 0; session_db := claimed |}).1 in
  answers !! 1 = Some (AppendAnswer (Err (VersionConflict 1 2))) /\
  answers !! 2 = Some (FenceAnswer (Ok 1%Z)) /\
  answers !! 3 = Some (AppendAnswer (Err (Fenced 0 1))) /\
  answers !! 4 = Some (AppendAnswer (Err MalformedBatch)) /\
  answers !! 5 = Some (AppendAnswer (Err MalformedBatch)) /\
  answers !! 8 = Some (MarkAnswer (Ok (Some 2%Z))) /\
  (perform_all traffic Memory.new).1 !! 4 = Some (AppendAnswer (Err (Fenced 0 1))).
Proof. vm_compute. split_and!; reflexivity. Qed.

Lemma traffic_portable : all_portable false traffic.
Proof.
  repeat match goal with
  | |- _ /\ _ => split
  | |- all_portable _ _ => progress cbn [all_portable traffic portable]
  | |- Forall _ _ => constructor
  | |- kernel_fits _ => split; [by eexists|by vm_compute]
  | |- _ => first [done | by vm_compute]
  end.
Qed.

Lemma kernel_store_matches_reference_witness :
  all_alike session_clock 0 traffic
    (perform_all (H := kernel_store st session_clock) traffic {| tick_count := 0; session_db := claimed |}).1
    (perform_all traffic Memory.new).1.
Proof.
  apply (kernel_store_matches_reference 64 (0%N : @instant demo_tz) st claimed session_clock traffic).
  - apply claim_fresh.
  - lia.
  - apply traffic_portable.
  - vm_compute. reflexivity.
  - vm_compute. repeat constructor; set_solver.
Defined.

(** ** A sweep *)

(** Two leases whose time runs out, an attempt behind the first, one behind none
    and a blocked one behind none. *)
Definition drive (id : string) (create : payload_t) : list (Actor * string * string * payload_t) :=
  [(op, "p", id +:+ "-1", create);
   (op, "p", id +:+ "-2", PTransitionAttempt id AttemptLeased 1 None);
   (op, "p", id +:+ "-3", PTransitionAttempt id AttemptStarting 2 None);
   (op, "p", id +:+ "-4", PTransitionAttempt id AttemptRunning 3 None)].
Definition leased : Db instant payload_t :=
  steps with_task
    ([(op, "p", "l1", PAcquire "lease1" "200"); (op, "p", "l2", PAcquire "lease2" "200")]
     ++ drive "backed" (PLeasedAttempt "backed" "t1" "engine" "lease1")
     ++ drive "silent" (PCreateAttempt "silent" "t1" "engine")
     ++ drive "waiting" (PCreateAttempt "waiting" "t1" "engine")
     ++ [(liveness, "p", "w5", PTransitionAttempt "waiting" AttemptBlocked 4 (Some "receipt-1"))]).

(** The second holder's heartbeat lands after the sweep's read. *)
Definition heartbeat (n : nat) (db : Db instant payload_t) : Db instant payload_t :=
  if bool_decide (n = 2) then step db (op, "p", "hb", PRenew "lease2" 1 "9000") else db.
Definition late (n : nat) : TxClock := clock 5000.

#[export] Instance demo_minted : MintedCommands payload_t.
Proof. by split. Qed.

Definition swept : Pass := outcome (sweep_once no_context st heartbeat late leased).

Example sweep_reports :
  ps_report swept = {| leases_expired := ["lease1"]; attempts_marked_unknown := ["backed"; "silent"] |} /\
  lease_state <$> leases (proj (ps_db swept)) !! "lease2" = Some "held".
Proof. vm_compute. done. Qed.

End Examples.
