(* ===== verification/PtyExamples.v ===== *)
(** * Worked sessions

    The theorems on the PTY session registry and on the wire applied to a small
    session: a screen of two rows and three columns, the batches its host
    publishes, and a consumer that attaches to it. *)

From S2P Require Import Prelude Text Command Screen Hub Streams Deliver Wire.

Module PtyExamples.

(** ** A session *)

(** Sizes in the shape of serde_json's output, with a fixed size per style and
    per run. *)
#[local] Instance demo_json : PtyJson := {
  frame_json_len frame :=
    Some (10 + json_array ((fun _ => 40%Z) <$> styles frame) + 8
          + json_array ((fun row => json_array ((fun _ => 30%Z) <$> row)) <$> rows frame) + 1)%Z;
  deltas_json_len deltas := Some (60 * Z.of_nat (length deltas))%Z;
  style_json_len _ := 40%Z;
  run_json_len _ := 30%Z;
}.

#[local] Instance demo_json_laws : PtyJsonLaws.
Proof. split; simpl; (done || lia). Qed.

Definition bold_style : CellStyle := {|
  bold := true; dim := false; italic := false; blink := false; inverse := false;
  invisible := false; strikethrough := false; overline := false; underline := None;
  fg := Some (Ansi16 Red); bg := None; underline_color := None |}.

Definition cell (g : string) (s : CellStyle) : StyledCell := {| glyph := g; style := s |}.

(** "a" in bold over a blank row; a row of one glyph. *)
Definition screen : list (list StyledCell) :=
  [[cell "a" bold_style; blank; blank]; [cell "z" blank_style; cell "z" blank_style; cell "z" blank_style]].

Definition first_frame : PtyFrame := from_cells screen (Some {| cur_row := 1; cur_col := 2 |}).

Definition write (row col : Z) (g : string) : PtyDelta :=
  CellsChanged [bold_style] [{| up_row := row; up_col := col; up_glyph := g; up_style := 0 |}].

(** The host connects, opens the session and publishes a batch. *)
Definition opening : list HubVerb :=
  [Connection; RegisterConnection 1 true true false; PublishSnapshot 1 "s" (Some 0%Z) first_frame;
   PublishDeltas 1 "s" 1 [write 0 1 "b"]].
(** Two more batches while a consumer connects. *)
Definition meanwhile : list HubVerb :=
  [PublishDeltas 1 "s" 2 [write 1 2 "c"]; PublishDeltas 1 "s" 3 [write 1 2 "d"; write 0 0 "e"]].
(** A resize after it attached, and a write outside the new screen, which is refused. *)
Definition after_attach : list HubVerb :=
  [PublishDeltas 1 "s" 4 [Resized 2 2; write 1 1 "f"]; PublishDeltas 1 "s" 5 [write 0 2 "g"]].

Definition history : PtyHub := run (new_hub 7) (opening ++ meanwhile ++ after_attach).

Lemma typed_screen : typed_frame first_frame.
Proof.
  unfold typed_frame. let r := eval vm_compute in (rows first_frame) in change (rows first_frame) with r.
  repeat constructor; simpl; lia.
Qed.

Lemma small_u64 n : bool_decide (0 <= n <= 100)%Z = true -> is_u64 n.
Proof. unfold is_u64, u64_max. intros H%bool_decide_eq_true. lia. Qed.

Lemma small_u16 n : bool_decide (0 <= n <= 100)%Z = true -> is_u16 n.
Proof. unfold is_u16, u16_max. intros H%bool_decide_eq_true. lia. Qed.

Ltac typed_verbs :=
  rewrite ?Forall_app; rewrite ?Forall_cons; split_and?;
  try match goal with
  | |- Forall typed [] => constructor
  | |- typed (PublishSnapshot _ _ _ first_frame) =>
      split; [apply typed_screen|intros ? [= <-]; by apply small_u64]
  | |- typed (PublishDeltas _ _ _ _) =>
      split; [by apply small_u64|repeat constructor; by apply small_u16]
  | |- typed (PublishRawSnapshot _ _ _ _ _ _) => intros ? [= <-]; by apply small_u64
  | |- typed _ => exact I
  end.

Lemma typed_history : Forall typed (opening ++ meanwhile ++ after_attach).
Proof. unfold opening, meanwhile, after_attach. typed_verbs. Qed.

Lemma typed_opening : Forall typed opening.
Proof. pose proof typed_history as H. by apply Forall_app in H as [? _]. Qed.
Lemma typed_opening_meanwhile : Forall typed (opening ++ meanwhile).
Proof. pose proof typed_history as H. rewrite app_assoc in H. by apply Forall_app in H as [? _]. Qed.
Lemma typed_after : Forall typed after_attach.
Proof. pose proof typed_history as H. rewrite app_assoc in H. by apply Forall_app in H as [_ ?]. Qed.

Definition session_of (h : PtyHub) (id : string) : Session :=
  default (claimed_session 0 "" None [] None) (h_sessions h !! id).

Lemma session_here : h_sessions history !! "s" = Some (session_of history "s").
Proof. vm_compute. reflexivity. Qed.

(** ** Screens *)

Lemma screen_shaped : shaped screen (Some {| cur_row := 1; cur_col := 2 |}).
Proof. split; [by vm_compute| |by vm_compute|by vm_compute]. repeat constructor. Qed.

Lemma frames_and_grids_correspond_witness : cells first_frame = Some screen /\ canonical first_frame.
Proof.
  destruct (frames_and_grids_correspond screen (Some {| cur_row := 1; cur_col := 2 |}) screen_shaped)
    as (Hc & Hcan & _). by split.
Defined.

Lemma strict_decode_refines_expansion_witness : strict_frame first_frame = Ok (2, 3, screen)%Z.
Proof.
  apply (strict_decode_refines_expansion first_frame 2 3 screen typed_screen). split_and!.
  - vm_compute. reflexivity.
  - apply (bool_decide_unpack _). vm_compute. exact I.
  - repeat constructor; discriminate.
  - reflexivity.
  - reflexivity.
  - reflexivity.
Defined.

Lemma blank_size_is_exact_witness : blank_grid_bytes 2 3 = 128%Z.
Proof.
  apply (blank_size_is_exact 2 3); [unfold u16_max; lia..|vm_compute; reflexivity|unfold u64_max; lia].
Defined.

(** ** Streams *)

Lemma hub_invariant_witness : hub_inv history.
Proof. apply (hub_invariant 7); [by apply small_u64|apply typed_history]. Defined.

Definition demo_attached (gen : option string) (cur : option Z) (h : PtyHub) : Attached :=
  match attach "s" gen cur h with
  | Ok a => a
  | Err _ => {| at_generation := ""; at_rows := 0; at_cols := 0; at_cursor := None; at_replay := []; at_live := 0 |}
  end.

Definition resumed : Attached :=
  demo_attached (Some "7:1") (Some 1%Z) (run (new_hub 7) (opening ++ meanwhile)).

(** The consumer at revision 1 is replayed 2 and 3 and then receives 4. *)
Example consumer_receives :
  b_seq <$> (at_replay resumed ++ drop (at_live resumed) (s_live (session_of history "s"))) = [2; 3; 4]%Z.
Proof. vm_compute. reflexivity. Qed.

Lemma attach_is_gapless_witness :
  let stream := at_replay resumed ++ drop (at_live resumed) (s_live (session_of history "s")) in
  stream = List.filter (after (at_cursor resumed)) (s_live (session_of history "s")).
Proof.
  refine (proj1 (attach_is_gapless 7 (opening ++ meanwhile) after_attach "s" (Some "7:1") (Some 1%Z) resumed
                   (session_of history "s") _ _ _ _ _ _)).
  - by apply small_u64.
  - apply typed_opening_meanwhile.
  - apply typed_after.
  - vm_compute. reflexivity.
  - rewrite <-app_assoc. apply session_here.
  - vm_compute. reflexivity.
Defined.

Definition shown : string * Z * PtyFrame :=
  match snapshot "s" (run (new_hub 7) opening) with Ok x => x | Err _ => ("", 0%Z, first_frame) end.

Lemma consumer_converges_witness :
  exists grid, cells shown.2 = Some grid /\
    foldl apply_batch grid (at_replay resumed ++ drop (at_live resumed) (s_live (session_of history "s"))) =
    s_cells (session_of history "s").
Proof.
  refine (consumer_converges 7 opening meanwhile after_attach "s" "7:1" 1 shown.2 resumed
            (session_of history "s") _ _ _ _ _ _ _ _ _).
  - by apply small_u64.
  - apply typed_history.
  - vm_compute. reflexivity.
  - vm_compute. reflexivity.
  - vm_compute. reflexivity.
  - vm_compute. reflexivity.
  - apply session_here.
  - vm_compute. reflexivity.
  - repeat constructor; intros [].
Defined.

(** ** The raw fallback *)

Definition raw_opening : list HubVerb :=
  opening ++ [PublishRawSnapshot 1 "s" (Some 1%Z) 2 3 "raw"; PublishRawOutput 1 "s" 2 "x"].
Definition raw_after_attach : list HubVerb :=
  [PublishRawResize 1 "s" 3 4 4; PublishRawOutput 1 "s" 4 "yz"].
Definition raw_history : PtyHub := run (new_hub 7) (raw_opening ++ raw_after_attach).

Definition raw_resumed : RawAttached :=
  match attach_raw "s" (Some "7:1") (Some 1%Z) (run (new_hub 7) raw_opening) with
  | Ok a => a
  | Err _ => {| ra_generation := ""; ra_rows := 0; ra_cols := 0; ra_cursor := None; ra_delivered := None;
                ra_replay := []; ra_live := 0 |}
  end.

Lemma raw_attach_is_gapless_witness :
  let stream := ra_replay raw_resumed ++ drop (ra_live raw_resumed) (s_raw_live (session_of raw_history "s")) in
  match ra_delivered raw_resumed with
  | Some c => stream = List.filter (raw_after c) (s_raw_live (session_of raw_history "s")) /\ contiguous (c + 1) stream
  | None => exists snap, s_raw_snapshot (session_of raw_history "s") = Some snap /\
              stream = snap :: s_raw_live (session_of raw_history "s") /\
              contiguous (raw_start snap) (s_raw_live (session_of raw_history "s"))
  end.
Proof.
  refine (raw_attach_is_gapless 7 raw_opening raw_after_attach "s" (Some "7:1") (Some 1%Z) raw_resumed
            (session_of raw_history "s") _ _ _ _ _ _ _).
  - by apply small_u64.
  - apply Forall_app. split; [apply typed_opening|typed_verbs].
  - unfold raw_after_attach. typed_verbs.
  - intros ? [= <-]. by apply small_u64.
  - vm_compute. reflexivity.
  - vm_compute. reflexivity.
  - vm_compute. reflexivity.
Defined.

(** ** Deliveries *)

Definition stop (d : string) : ServerControl := PtyStop d "cmd" "s" "7:1".

Definition sent : Z * PtyHub :=
  match deliver_to_session "s" "7:1" 1 "claim" (stop "d1") (run (new_hub 7) (opening ++ meanwhile)) with
  | Ok x => x
  | Err _ => (0%Z, new_hub 7)
  end.

Lemma delivery_reaches_its_lifetime_witness :
  exists s s', h_sessions (run (new_hub 7) opening) !! "s" = Some s /\
    h_sessions (run (new_hub 7) (opening ++ meanwhile)) !! "s" = Some s' /\
    s_generation s = "7:1" /\ s_owner s' = 1%Z /\ later s s'.
Proof.
  destruct (delivery_reaches_its_lifetime 7 opening meanwhile "s" "7:1" 1 "claim" (stop "d1") sent.1 sent.2)
    as (s & s' & H1 & H2 & H3 & H4 & H5 & _).
  - by apply small_u64.
  - apply typed_opening.
  - pose proof typed_opening_meanwhile as H. by apply Forall_app in H as [_ ?].
  - vm_compute. reflexivity.
  - vm_compute. reflexivity.
  - by exists s, s'.
Defined.

Definition deliver (d claim : string) : HubVerb := DeliverToSession "s" "7:1" 1 claim (stop d).

Definition acked (d claim : string) (h : PtyHub) : Z * PtyHub :=
  match take_delivery_ack 1 d claim h with Ok x => x | Err _ => (0%Z, h) end.

Definition both : PtyHub := run (new_hub 7) (opening ++ [deliver "d1" "c1"; deliver "d2" "c2"]).

Lemma deliveries_are_acknowledged_once_witness :
  (acked "d1" "c3" (run (acked "d1" "c1" both).2 [deliver "d1" "c3"])).1 <> (acked "d1" "c1" both).1.
Proof.
  refine (proj1 (deliveries_are_acknowledged_once 7 (opening ++ [deliver "d1" "c1"; deliver "d2" "c2"])
           [deliver "d1" "c3"] 1 "d1" "c1" (acked "d1" "c1" both).1 (acked "d1" "c1" both).2
           1 "d1" "c3" _ (acked "d1" "c3" (run (acked "d1" "c1" both).2 [deliver "d1" "c3"])).2 _ _)).
  - vm_compute. reflexivity.
  - vm_compute. reflexivity.
Defined.

(** ** The wire *)

(** A clock whose readings are a tick apart. *)
#[local] Instance ticking : Clock := fun _ => 1%N.

Definition at_start : World := {| w_now := 0; w_reads := 0 |}.

(** The third charge waits for a window that opens at 101. *)
Definition traffic : list (Direction * Z) := [(Ingress, 60); (Egress, 10); (Ingress, 70)]%Z.

Lemma budget_bounds_the_rate_witness :
  exists l, charges traffic (with_window 100 50 100 at_start).1 (with_window 100 50 100 at_start).2 = Some l /\
    forall d from, (moved d from (from + 100) l <= 2 * per_window d (with_window 100 50 100 at_start).1)%Z.
Proof.
  apply (budget_bounds_the_rate 100 50 100 at_start _ _ traffic); [lia|lia|lia| |reflexivity].
  repeat constructor; simpl; lia.
Defined.

Example third_charge_waits :
  charges traffic (with_window 100 50 100 at_start).1 (with_window 100 50 100 at_start).2 =
  Some [(Ingress, 2, 60); (Egress, 3, 10); (Ingress, 103, 70)]%Z.
Proof. vm_compute. reflexivity. Qed.

Definition production : Budget * World :=
  with_window CONNECTION_INGRESS_BYTES_PER_WINDOW CONNECTION_EGRESS_BYTES_PER_WINDOW
    (CONNECTION_BUDGET_WINDOW_SECS * 1000000000) at_start.

Lemma production_ok : budget_ok production.1 production.2.
Proof. split; [by vm_compute|by vm_compute|]. intros []; by vm_compute. Qed.

Definition two_frames : list Frame :=
  [{| f_kind := FkJson; f_body := [123; 125]%Z |}; {| f_kind := FkPtyRaw; f_body := [] |}].

Lemma frames_survive_the_wire_witness :
  exists bytes b' w' b2' w2',
    write_frames two_frames production.1 production.2 = Some (Ok (bytes, b', w')) /\
    read_frames 3 HELLO_MAX_BYTES
      {| c_reader := {| rd_bytes := bytes; rd_end := Eof |}; c_budget := production.1; c_world := production.2 |} =
    Some (Ok (two_frames,
      {| c_reader := {| rd_bytes := []; rd_end := Eof |}; c_budget := b2'; c_world := w2' |})).
Proof.
  apply (frames_survive_the_wire two_frames HELLO_MAX_BYTES production.1 production.2 production.1 production.2).
  - split; [apply production_ok|by vm_compute].
  - split; [apply production_ok|by vm_compute].
  - repeat constructor; by vm_compute.
Defined.

(** A body longer than the prefix announces ends in the next frame's prefix. *)
Definition sent_bytes : list Z := [0; 0; 0; 3; 1; 123; 125; 0; 0]%Z.

Definition incoming : Conn := {|
  c_reader := {| rd_bytes := sent_bytes; rd_end := Eof |};
  c_budget := production.1; c_world := production.2 |}.

Lemma read_frame_is_exact_witness :
  exists r, read_frame HELLO_MAX_BYTES incoming = Some r /\
  match r with
  | Ok (InClosed, c') => rd_bytes (c_reader incoming) = [] /\ c' = incoming
  | Ok (InFrame f, c') =>
      rd_bytes (c_reader incoming) = frame_bytes f ++ rd_bytes (c_reader c') /\ fits_frame HELLO_MAX_BYTES f /\
      charged Ingress (Z.of_nat (length (frame_bytes f))) (c_budget incoming) (c_world incoming)
        (c_budget c') (c_world c')
  | Err e => we_fatal e = true /\ we_code e ∈ [EFrameSize; EHandshake; EStorage]
  end.
Proof.
  apply (read_frame_is_exact HELLO_MAX_BYTES incoming); [apply production_ok|].
  repeat constructor; vm_compute; (done || discriminate).
Defined.

Example read_frame_reads :
  exists c', read_frame HELLO_MAX_BYTES incoming =
    Some (Ok (InFrame {| f_kind := FkJson; f_body := [123; 125]%Z |}, c')) /\
    rd_bytes (c_reader c') = [0; 0]%Z.
Proof. vm_compute. eexists. by split. Qed.
End PtyExamples.
