(* ===== verification/CtxExamples.v ===== *)
(** * Worked compilations

    The theorems on the Context compiler, the verifier and Explain applied to
    five candidates: a security preamble, a declared file, two skills that
    contest one slot, and a quarantined one. *)

From S2P Require Import Prelude Text Fsm Envelope Transition Command Ordered Truth Compile Verify Explain.

Import Verifier.

Module CtxExamples.

(** ** A hash *)

(** A checksum in the first byte; the rest of the digest is zero. *)
Definition checksum (bytes : list Z) : list Z :=
  (foldr Z.add 0%Z bytes mod 256)%Z :: replicate 31 0%Z.

Definition demo_bytes (m : ResolvedManifest) : option (list Z) :=
  Some [rm_source_count m; rm_source_bytes m; Z.of_nat (length (rm_participations m))].

#[local] Instance demo_hash : ManifestHash := { manifest_json := demo_bytes; sha256 := checksum }.

#[local] Instance demo_hash_laws : ManifestHashLaws.
Proof.
  split; intros b; [done|]. cbn [sha256 demo_hash]. unfold checksum. constructor.
  - apply Z.mod_pos_bound. lia.
  - apply Forall_replicate. lia.
Qed.

(** ** Five candidates *)

Definition source (digest slot : string) (class : ContentClass) (tier : PrecedenceTier) (bytes : Z)
    (tools : list string) (standing : Standing) : Candidate := {|
  c_digest := digest; c_class := class; c_slot := slot; c_tier := tier; c_bytes := bytes;
  c_claimed_tools := tools; c_standing := standing |}.

Definition preamble := source "d1" "preamble" Conformance Security 100 [] Ready.
Definition notes := source "d2" "notes" Private RunDeclaration 300 [] Ready.
Definition asked := source "d3" "skill" Conformance RequestedSkill 200 ["read"; "shell"] Ready.
Definition automatic := source "d4" "skill" Conformance AutomaticSkill 50 ["read"] Ready.
Definition held := source "d5" "other" Conformance AutomaticSkill 10 [] Quarantined.

Definition offered : list Candidate := [automatic; held; notes; asked; preamble].

Definition request : CompileRequest := {|
  rq_manifest_id := "m1"; rq_attempt_id := "a1"; rq_resolved_at := "2026-01-01T00:00:00Z";
  rq_budget := Some 350%Z; rq_evidence := ["e2"; "e1"; "e2"] |}.
Definition route : Route := {| route_digest := "r1" |}.
Definition authority : Authority := {| auth_digest := "u1"; auth_tools := {["read"]} |}.

Definition outcome : result CompileError Compiled := compile request route authority offered.

Definition bare (p : Participation) : string * ParticipationState * option ParticipationReason :=
  (p_digest p, p_state p, p_reason p).

(** The notes do not fit behind the preamble; the requested skill does, and
    keeps the one tool the authority grants. *)
Example demo_rows :
  match outcome with
  | Ok out => bare <$> rm_participations (cp_manifest out)
  | Err _ => []
  end = [("d1", PsActive, None); ("d2", PsExcluded, Some BudgetCut); ("d3", PsActive, None);
         ("d4", PsExcluded, Some PrecedenceLoss); ("d5", PsUnavailable, Some ReasonQuarantined)].
Proof. vm_compute. reflexivity. Qed.

Example demo_totals :
  match outcome with
  | Ok out => (rm_source_count (cp_manifest out), rm_source_bytes (cp_manifest out),
               elements <$> (cp_tools out !! "d3"))
  | Err _ => (0, 0, None)%Z
  end = (2, 300, Some ["read"])%Z.
Proof. vm_compute. reflexivity. Qed.

Lemma request_budget b : rq_budget request = Some b -> is_u64 b.
Proof. intros [= <-]. unfold is_u64, u64_max. lia. Qed.

Lemma request_evidence e : e ∈ rq_evidence request -> e ∈@{gset string} {["e1"; "e2"]}.
Proof. unfold request, rq_evidence. set_solver. Qed.

Lemma outcome_ok : is_ok outcome = true.
Proof. vm_compute. reflexivity. Qed.
(** ** The compiler *)

Lemma compile_resolves_witness :
  exists out A, compile request route authority offered = Ok out /\ admitted (Some 350%Z) offered A /\
    rm_participations (cp_manifest out) = sort_by by_digest (fate A offered <$> offered).
Proof.
  destruct (compile request route authority offered) as [out|e] eqn:Hc.
  - destruct (compile_resolves request route authority offered out request_budget Hc) as (A & HA & Hrows & _).
    exists out, A. split; [reflexivity|]. split; [exact HA|exact Hrows].
  - exfalso. pose proof outcome_ok as Ho. unfold outcome in Ho. rewrite Hc in Ho. discriminate.
Defined.

Lemma compile_is_order_blind_witness :
  compile request route authority [preamble; notes; asked; automatic; held] =
  compile request route authority offered.
Proof.
  apply (compile_is_order_blind request route authority [preamble; notes; asked; automatic; held] offered).
  apply (bool_decide_eq_true_1 ([preamble; notes; asked; automatic; held] ≡ₚ offered)). vm_compute. reflexivity.
Defined.

(** Too small a budget for the preamble, and two skills of one tier. *)
Definition poor : CompileRequest := {|
  rq_manifest_id := "m1"; rq_attempt_id := "a1"; rq_resolved_at := "2026-01-01T00:00:00Z";
  rq_budget := Some 90%Z; rq_evidence := [] |}.
Definition rival := source "d6" "skill" Conformance RequestedSkill 20 [] Ready.

Example demo_conflict :
  compile request route authority (rival :: offered) =
  Err (TierConflict "skill" {| pc_tier := RequestedSkill; pc_distinct_values := 2 |}).
Proof. vm_compute. reflexivity. Qed.

Lemma compile_refusals_say_why_witness :
  exists w b, wins offered w /\ c_tier w = Security /\ c_digest w = "d1" /\ c_bytes w = 100%Z /\
    rq_budget poor = Some b /\ (90 < 100)%Z /\ (90 <= b)%Z.
Proof.
  apply (compile_refusals_say_why poor route authority offered (SecurityCut "d1" 100 90)).
  - intros b [= <-]. unfold is_u64, u64_max. lia.
  - repeat constructor; cbn; lia.
  - vm_compute. reflexivity.
Defined.

(** ** The verifier *)

Lemma compiled_manifests_verify_witness :
  exists out, compile request route authority offered = Ok out /\
    verify {| pk_manifest := cp_manifest out; pk_release := None; pk_observations := []; pk_finalization := None |}
      {["e1"; "e2"]} = Ok tt.
Proof.
  destruct (compile request route authority offered) as [out|e] eqn:Hc.
  - exists out. split; [reflexivity|].
    apply (compiled_manifests_verify request route authority offered out {["e1"; "e2"]} Hc).
    exact request_evidence.
  - exfalso. pose proof outcome_ok as Ho. unfold outcome in Ho. rewrite Hc in Ho. discriminate.
Defined.

(** A row added after the digest was taken is noticed. *)
Example demo_tampered :
  match outcome with
  | Ok out =>
      let m := cp_manifest out in
      verify {| pk_manifest := {| rm_id := rm_id m; rm_attempt_id := rm_attempt_id m;
                  rm_manifest_digest := rm_manifest_digest m; rm_route_digest := rm_route_digest m;
                  rm_authority_digest := rm_authority_digest m; rm_source_count := rm_source_count m;
                  rm_source_bytes := rm_source_bytes m;
                  rm_participations := rm_participations m ++ [excluded "d9" Conformance PermissionDenied];
                  rm_evidence_ids := rm_evidence_ids m; rm_resolved_at := rm_resolved_at m |};
                pk_release := None; pk_observations := []; pk_finalization := None |} {["e1"; "e2"]}
  | Err _ => Ok tt
  end <> Ok tt.
Proof. vm_compute. discriminate. Qed.

(** ** Explain and Compare *)

Definition manifest (id : string) (rows : list Participation) : ResolvedManifest := {|
  rm_id := id; rm_attempt_id := "a1"; rm_manifest_digest := "x"; rm_route_digest := "r1";
  rm_authority_digest := "u1"; rm_source_count := 1; rm_source_bytes := 10;
  rm_participations := rows; rm_evidence_ids := []; rm_resolved_at := "t" |}.

Definition release (id manifest_id rendered : string) : ReleaseSupplement := {|
  rl_id := id; rl_manifest_id := manifest_id; rl_rendered_digest := rendered; rl_tool_schema_digest := "t1";
  rl_rendered_bytes := 10; rl_tool_schema_count := 0; rl_evidence_ids := []; rl_released_at := "t" |}.

(** Two manifests with one public row each; [secret] are the first one's private rows. *)
Definition shelf (secret : list Participation) : TruthStore := {|
  ts_manifest id :=
    Ok (if decide (id = "m1") then Some (manifest "m1" (active "d1" Conformance :: secret))
        else if decide (id = "m2") then Some (manifest "m2" [active "d1" Conformance]) else None);
  ts_release id :=
    Ok (if decide (id = "m1") then Some (release "l1" "m1" "p1")
        else if decide (id = "m2") then Some (release "l2" "m2" "p2") else None);
  ts_observations _ := Ok [];
  ts_finalization _ := Ok None |}.

Definition secret_row : Participation := active "d7" Private.

Lemma shelves_alike : alike_stores (shelf [secret_row]) (shelf []).
Proof.
  split; try done. intros id. cbn [ts_manifest shelf].
  destruct (decide (id = "m1")); [by split|]. by destruct (decide (id = "m2")).
Qed.

Lemma scope_hides_private_rows_witness :
  evaluate (shelf [secret_row]) Conformance (QExplain "m1" (ESource "d7")) =
  evaluate (shelf []) Conformance (QExplain "m1" (ESource "d7")).
Proof.
  exact (proj2 (scope_hides_private_rows (shelf [secret_row]) (shelf []) (QExplain "m1" (ESource "d7")) shelves_alike)
           "m1" "d7" eq_refl).
Defined.

(** A reader without the private scope is told the two resolved stages are the
    same, and that what was released under them differs. *)
Example demo_compare :
  evaluate (shelf [secret_row]) Conformance (QCompare (CManifest "m1") (CManifest "m2") [Resolved; Released]) =
  Ok (AComparison {| cm_left := "m1"; cm_right := "m2";
        cm_stages := [{| sd_stage := Resolved; sd_verdict := Same; sd_withheld := 1 |};
                      {| sd_stage := Released; sd_verdict := Differs; sd_withheld := 0 |}] |}).
Proof. vm_compute. reflexivity. Qed.
End CtxExamples.
