(* ===== verification/WorldExamples.v ===== *)
(** * A worked Context lifecycle

    An attempt's manifest resolved, verified, released, run, observed twice and
    certified, on the kernel of [Demo]; the theorems on Context histories
    applied to it, and the order of sealing and stating that leaves two records
    of one class apart. *)

From S2P Require Import Prelude Text Fsm Envelope Transition Command Tables Db Store Project Authority Submit Writes Kernel System Recover Truth Facts World Demo.

Module WorldExamples.
Import Demo.

Notation world := (World (V := payload_t)).

(** ** Histories *)

Definition wsubmit (w : world) (cmd : Actor * string * string * payload_t) : world :=
  let '(who, project, key, v) := cmd in
  {| w_db := (submit (projector (w_context w)) st (clock 100) (envelope_of who project key v) None (w_db w)).2;
     w_context := w_context w |}.

Definition by_compiler : ContextAttribution := {|
  ca_compiler := "gwk-context-compiler/0.0.1"; ca_route_digest := DIGEST_SCHEME +:+ digest;
  ca_authority_digest := DIGEST_SCHEME +:+ digest; ca_derived_from := "m1" |}.

Definition wfact (w : world) (fact : string * ContextFact) : world :=
  match record_fact st (clock 200) "p" fact.1 by_compiler fact.2 w with
  | Ok (_, w') => w'
  | Err _ => w
  end.

Definition wbooted : world := {| w_db := booted; w_context := empty_context |}.
Definition wrunning : world :=
  foldl wsubmit wbooted
    [(op, "system", "kernel_activated:c1", PActivate "c1" digest); (op, "p", "k1", PCreateTask "t1");
     (op, "p", "a1", PCreateAttempt "at1" "t1" "engine")].

Definition D : string := DIGEST_SCHEME +:+ digest.

Definition resolved : string * ContextFact :=
  ("f1", ManifestResolved "m1" "at1" D D D 1 10 [Truth.active D Conformance] ["e1"] "150").
Definition verified : string * ContextFact := ("f2", ManifestVerificationRecorded "m1" D VerdictVerified D ["e1"] "151").
Definition rejected : string * ContextFact := ("f2", ManifestVerificationRecorded "m1" D VerdictRejected D ["e1"] "151").
Definition released : string * ContextFact := ("f3", ReleaseRecorded "m1" "r1" D D 10 0 [] "152").
Definition opened : string * ContextFact := ("f4", RunOpened "run1" "m1" "r1" "153").
Definition observed (n : Z) (id at_text : string) : string * ContextFact :=
  ("f" +:+ id, ObservationAppended "run1" "m1" id n D 5 1 false [] at_text).
Definition closed : string * ContextFact := ("f7", RunClosed "run1" "z1" D 2 true "156").
Definition certified_fact : string * ContextFact :=
  ("f8", AssuranceCertified "run1" "m1" "z1" D D 0 2 D true Deterministic ["e1"] "156" "157").

Definition before_last : list (string * ContextFact) :=
  [resolved; verified; released; opened; observed 1 "o1" "154"; observed 2 "o2" "155"; closed].
Definition life : world := foldl wfact wrunning (before_last ++ [certified_fact]).

Example life_runs :
  length (log (w_db life)) = 12 /\ size (manifests (w_context life)) = 1 /\ size (releases (w_context life)) = 1 /\
  size (observations (w_context life)) = 2 /\ size (finalizations (w_context life)) = 1.
Proof. vm_compute. done. Qed.

(** Refusals: a skipped index, a second manifest of the attempt, a certification
    after a rejection. *)
Definition refused (w : world) (fact : string * ContextFact) : option KernelErrorCode :=
  match record_fact st (clock 200) "p" fact.1 by_compiler fact.2 w with Ok _ => None | Err r => Some (code r) end.

Example refusals :
  refused (foldl wfact wrunning [resolved; opened; observed 1 "o1" "154"]) (observed 3 "o3" "155") = Some EValidation /\
  refused (wfact wrunning resolved)
    ("g1", ManifestResolved "m2" "at1" D D D 1 10 [Truth.active D Conformance] ["e1"] "150") = Some EIdempotencyConflict /\
  refused (foldl wfact wrunning [resolved; rejected; opened]) certified_fact = Some EValidation.
Proof. vm_compute. done. Qed.

(** ** Reachability *)

Lemma wreach_booted : wreachable wbooted.
Proof.
  exists (0%N : @instant demo_tz). eapply rtc_l; [|eapply rtc_l; [|reflexivity]].
  - eapply (ws_claim 64 st). vm_compute. reflexivity.
  - eapply (ws_genesis st (clock 1) revision). vm_compute. reflexivity.
Qed.

Lemma wreach_step w w' : wreachable w -> wstep w w' -> wreachable w'.
Proof. intros [t0 Hr] Hs. exists t0. by eapply rtc_r. Qed.

Lemma wreach_submit w cmd : wreachable w -> wreachable (wsubmit w cmd).
Proof.
  intros Hr. eapply wreach_step; [done|]. destruct w as [db c], cmd as [[[who project] key] v].
  eapply ws_submit, surjective_pairing.
Qed.

Lemma wreach_running : wreachable wrunning.
Proof. apply wreach_submit, wreach_submit, wreach_submit, wreach_booted. Qed.

Definition all_typed (facts : list (string * ContextFact)) : bool := forallb (fun f => fact_typed f.2) facts.

Lemma wreach_facts w facts : wreachable w -> all_typed facts = true -> wreachable (foldl wfact w facts).
Proof.
  revert w. induction facts as [|f facts IH]; intros w Hr Ht; [done|]. cbn in Ht |- *.
  apply andb_true_iff in Ht as [Hf Ht]. apply IH; [|done]. unfold wfact.
  destruct (record_fact st (clock 200) "p" f.1 by_compiler f.2 w) as [[a w']|] eqn:Hrec; [|done].
  eapply wreach_step; [done|]. eapply ws_fact; [exact Hf| |exact Hrec]. vm_compute. reflexivity.
Qed.

Lemma wreach_life : wreachable life.
Proof. apply wreach_facts; [apply wreach_running|vm_compute; reflexivity]. Qed.

Definition uncertified : world := foldl wfact wrunning before_last.
Lemma wreach_uncertified : wreachable uncertified.
Proof. apply wreach_facts; [apply wreach_running|vm_compute; reflexivity]. Qed.

(** ** Witnesses *)

Lemma recorded_facts_land_witness :
  exists a w', record_fact st (clock 200) "p" "f8" by_compiler certified_fact.2 uncertified = Ok (a, w') /\
    app_replayed a = false /\ exists t, ts_parse "156" = Some t /\ w_context w' = with_row certified_fact.2 t (w_context uncertified).
Proof.
  destruct (record_fact st (clock 200) "p" "f8" by_compiler certified_fact.2 uncertified) as [[a w']|r] eqn:E;
    [|vm_compute in E; discriminate E].
  exists a, w'. split; [reflexivity|].
  destruct (recorded_facts_land st (clock 200) "p" "f8" by_compiler certified_fact.2 a uncertified w'
    wreach_uncertified ltac:(vm_compute; reflexivity) ltac:(vm_compute; reflexivity) E)
    as [[_ Hrep]|(row & rt & v & -> & _ & _ & _ & _ & _ & Hrow)].
  - exfalso. vm_compute in E. injection E as <- _. discriminate Hrep.
  - split; [reflexivity|]. exact Hrow.
Defined.

Lemma typed_facts_are_projected_witness :
  exists t, project_fact (proj (w_db uncertified)) certified_fact.2 (w_context uncertified) =
            Ok (with_row certified_fact.2 t (w_context uncertified)) /\
    context_ok (proj (w_db uncertified)) (with_row certified_fact.2 t (w_context uncertified)).
Proof.
  destruct (fact_route (w_context uncertified) certified_fact.2) as [rt|] eqn:Hrt; [|vm_compute in Hrt; discriminate Hrt].
  exists 156%N. apply (typed_facts_are_projected uncertified certified_fact.2 rt 4 156%N wreach_uncertified).
  - vm_compute. reflexivity.
  - exact Hrt.
  - vm_compute. reflexivity.
  - vm_compute. reflexivity.
Defined.

Lemma context_truth_is_consistent_witness :
  context_ok (proj (w_db life)) (w_context life) /\
  forall m, exists n, forall k, (1 <= k <= n)%Z <->
    exists id r, observations (w_context life) !! id = Some r /\ os_manifest_id r = m /\ os_observation_index r = k.
Proof. exact (context_truth_is_consistent life wreach_life). Defined.

Lemma certification_follows_verification_witness :
  exists r, finalizations (w_context life) !! "z1" = Some r /\ certified (log (w_db life)) "z1" r.
Proof.
  destruct (finalizations (w_context life) !! "z1") as [r|] eqn:E; [|vm_compute in E; discriminate E].
  exists r. split; [reflexivity|]. exact (certification_follows_verification life "z1" r wreach_life E).
Defined.

Lemma life_raises : raised_first (log (w_db life)).
Proof.
  intros e He. apply list_elem_of_lookup_1 in He as [i Hi].
  assert (Forall (fun e => aggregate_type e <> "attention_item") (log (w_db life))) as Hall.
  { vm_compute. repeat (constructor; [discriminate|]). constructor. }
  intros Ht. exfalso. eapply Forall_lookup_1 in Hall; [|exact Hi]. exact (Hall Ht).
Qed.

Lemma replay_rebuilds_context_witness :
  exists n p, fold_res replay_fact (0%Z, empty_proj, empty_context) (log (w_db life)) =
      Ok (n, p, truth (w_context life)) /\ derived p = derived (proj (w_db life)).
Proof. exact (replay_rebuilds_context life wreach_life life_raises). Defined.

Lemma context_keeps_kernel_histories_witness :
  rtc (System.step accepting) (w_db wbooted) (w_db (wsubmit wbooted (op, "system", "kernel_activated:c1", PActivate "c1" digest)))
  /\ context_frame (accepting (V := payload_t)) /\ context_blind (accepting (V := payload_t)).
Proof.
  apply (context_keeps_kernel_histories wbooted (wsubmit wbooted (op, "system", "kernel_activated:c1", PActivate "c1" digest))).
  eapply rtc_once, ws_submit, surjective_pairing.
Defined.

(** ** One class, two records *)

(** A source stated public while its bytes are not yet sealed can be sealed as
    private afterwards: the check compares with the blobs of the moment only. *)
Definition private_class : BlobClasses := {| bc_content := Private; bc_redaction := RedactionNone; bc_retention := RetainManifest |}.

Example sealing_order_matters :
  refused {| w_db := w_db wrunning;
             w_context := match claim D private_class (w_context wrunning) with Ok c => c | Err _ => empty_context end |}
    resolved = Some EValidation /\
  match claim D private_class (w_context (wfact wrunning resolved)) with
  | Ok c => classes_agree c [Truth.active D Conformance]
  | Err _ => true
  end = false.
Proof. vm_compute. done. Qed.
End WorldExamples.
