(* ===== verification/SkillExamples.v ===== *)
(** * Skill manifests, run

    A manifest and the documents around it, scanned and parsed by computation;
    the theorems of [Scan] and [Skill] applied to them. *)

From S2P Require Import Prelude Chars Scan Skill.
#[local] Open Scope Z_scope.

Module SkillExamples.

Definition doc_of (ls : list string) : str := concat ((fun l => text l ++ [newline]) <$> ls).

Definition front_lines : list string :=
  ["name: review"; "description: |"; "  *bold* and &text"; "allowed-tools:"; "- Read"; "- Bash(git *)";
   "metadata:"; "  team: infra"; "  gridwork: '{}'"; "x-upstream: [1, 2]"]%string.
Definition front : str := text "name: review" ++ [newline] ++ doc_of (tail front_lines).
Definition manifest : str := fence ++ [newline] ++ front ++ [newline] ++ fence ++ [newline] ++ text "body".

(** The document of that frontmatter, as the YAML parser reads it. *)
Definition document : list (Value unit * Value unit) :=
  [(VString (text "name"), VString (text "review"));
   (VString (text "description"), VString (text "*bold* and &text"));
   (VString (text "allowed-tools"), VSequence [VString (text "Read"); VString (text "Bash(git *)")]);
   (VString (text "metadata"), VMapping [(VString (text "team"), VString (text "infra"));
                                         (VString (text "gridwork"), VString (text "{}"))]);
   (VString (text "x-upstream"), VSequence [VOther tt; VOther tt])].

#[export] Instance demo_skill_serde : SkillSerde := {|
  scalar_t := unit;
  yaml_from_str s := if bool_decide (s = front) then Some document else None;
  yaml_to_string v := match v with VSequence _ => Some (text "- 1") | _ => None end;
  gridwork_from_json s := if bool_decide (s = text "{}") then Some {| routes := []; budget_tokens := None; note := None |} else None;
|}.

Lemma document_metadata k entries :
  mapping_get k document = Some (VMapping entries) ->
  entries = [(VString (text "team"), VString (text "infra")); (VString (text "gridwork"), VString (text "{}"))].
Proof. unfold document. cbn [mapping_get]. repeat (case_bool_decide; [by intros [= <-]|]). by intros [=]. Qed.

#[export] Instance demo_skill_laws : SkillSerdeLaws.
Proof.
  split. intros f doc k entries. cbn [yaml_from_str demo_skill_serde]. case_bool_decide; [|done].
  intros [= <-] ->%document_metadata. apply (bool_decide_unpack _). vm_compute. exact I.
Qed.

Definition parsed : result SkillError SkillManifest := parse_in (text "review") manifest.

Example parsed_fields :
  match parsed with
  | Ok m => claimed (allowed_tools m) = [text "Read"; text "Bash(git *)"] /\
      metadata m !! text "team" = Some (text "infra") /\ is_some (gridwork m) = true /\
      key <$> opaque m = [text "x-upstream"]
  | Err _ => False
  end.
Proof. vm_compute. done. Qed.

Lemma manifest_is_the_document_witness :
  exists m, parse_in (text "review") manifest = Ok m /\ name m = text "review" /\ length (opaque m) = 1%nat.
Proof.
  destruct (parse_in (text "review") manifest) as [m|e] eqn:E; [|vm_compute in E; discriminate E].
  exists m. split; [done|]. split; [apply (manifest_is_the_document (text "review") manifest m E)|].
  revert E. vm_compute. by intros [= <-].
Defined.

(** Words another reader takes for a boolean, a number or a date. *)
Example words_are_refused :
  forall w, w ∈ ["yes"; "NO"; "1_000"; "-0x_ff"; "1_0.5"; "2024-01-31"]%string ->
    scan_subset (doc_of [(w ++ ": 1")%string]) = Err (Yaml11AmbiguousKey (text w)).
Proof. intros w Hw. repeat (apply elem_of_cons in Hw as [->|Hw]; [vm_compute; reflexivity|]). by apply not_elem_of_nil in Hw. Qed.


Lemma scan_refuses_indicators_witness : exists e, scan_line (text "x: [1, " ++ ch "&" :: text "a b]") = Err e.
Proof.
  apply (scan_refuses_indicators (text "x: [1, ") (ch "&") (text "a b]")); [|vm_compute; reflexivity].
  apply (after_comma (text "x: ") (text "1") (text " ")); [|vm_compute; reflexivity..].
  by apply (after_key (text "x") (text " ")).
Defined.

(** Three levels, indented by one column and by two. *)
Definition ladder : str := doc_of ["a:"; " b:"; "  c: 1"]%string.
Definition wide_ladder : str := doc_of ["a:"; "  b:"; "    c: 1"]%string.

Lemma head_openings body facts :
  scan_line body = Ok facts -> forallb (fun o => o.1 =? 0) (openings facts) = true ->
  forall facts' o, scan_line body = Ok facts' -> o ∈ openings facts' -> o.1 = 0.
Proof.
  intros Hf Ha facts' o Hf' Ho. rewrite Hf in Hf'. injection Hf' as <-.
  apply Z.eqb_eq. apply (proj1 (forallb_forall _ _) Ha). by apply list_elem_of_In.
Qed.

Lemma scan_ignores_indentation_witness : scan_subset wide_ladder = scan_subset ladder.
Proof.
  apply (scan_ignores_indentation (Z.mul 2)); [intros; lia|done|].
  change (Forall2 (reindented (Z.mul 2)) [text "a:"; text " b:"; text "  c: 1"] [text "a:"; text "  b:"; text "    c: 1"]).
  constructor; [exists 0, (text "a:")|constructor; [exists 1, (text "b:")|constructor; [exists 2, (text "c: 1")|constructor]]].
  all: split; [lia|]; split; [reflexivity|]; split; [reflexivity|]; split; [reflexivity|].
  all: eapply head_openings; vm_compute; reflexivity.
Defined.

Lemma inventory_is_declarative_witness :
  path <$> [{| path := text "refs/notes.md"; kind := Reference |}] = [text "refs/notes.md"].
Proof. apply (inventory_is_declarative [(text "refs/notes.md", File false)]). vm_compute. reflexivity. Defined.

Example bundle_refusals :
  inventory [(text "../x.md", File false)] = Err (RefusedBundleEntry ParentTraversal) /\
  inventory [(text "run.SH", File false)] = Err (RefusedBundleEntry (ExecutableSuffix (text "sh"))) /\
  inventory [(text "a.md", Symlink)] = Err (RefusedBundleEntry NotARegularFile).
Proof. vm_compute. done. Qed.
End SkillExamples.
