(* ===== verification/AttemptExamples.v ===== *)
(** * A delivery, end to end

    The theorems on delivery attempts applied to a run: a stop is registered,
    claimed, sent to the session's host, acknowledged and settled; the daemon
    then restarts. *)

From S2P Require Import Prelude Text Command Tables Db Store Screen Hub Streams Deliver Attempts Demo PtyExamples.

Module AttemptExamples.
Import PtyExamples.
#[local] Existing Instance PtyExamples.demo_json.

Notation world := AttemptWorld.
Notation step := (attempt_step (V := unit)).

Lemma verbs_run vs (w : world) :
  forallb plain_verb vs = true -> rtc step w (with_hub (run (w_hub w) vs) w).
Proof.
  revert w. induction vs as [|v vs IH]; intros w Hv; [by destruct w|]. apply andb_prop in Hv as [Hv Hvs].
  eapply rtc_l; [by apply (as_verb v)|]. apply (IH (with_hub (exec (w_hub w) v) w)), Hvs.
Qed.

Definition key : string * string := ("p", "k1").

Definition opened : world := with_hub (run (new_hub 7) opening) (attempt_start 7).
Definition registered : world := with_table (<[key := fresh_row "cmd" "d1" 1 None]> (w_table opened)) opened.
Definition claimed_table : gmap (string * string) (DeliveryRow instant) :=
  (claim_delivery (V := unit) [] 100%N "t1" key (w_table registered)).2.
Definition holding : world := {|
  w_hub := w_hub registered; w_table := claimed_table;
  w_attempts := <[ "t1" := {| at_key_ := key; at_delivery := "d1"; at_phase := Holding |} ]> (w_attempts registered);
  w_acks := w_acks registered; w_answers := w_answers registered; w_orphans := w_orphans registered;
  w_used := {["t1"]} ∪ w_used registered; w_sent := w_sent registered |}.
Definition sent_hub : Z * PtyHub :=
  match deliver_to_session "s" "7:1" 1 "t1" (stop "d1") (w_hub holding) with Ok x => x | Err _ => (0%Z, new_hub 7) end.
Definition attempt : Attempt := {| at_key_ := key; at_delivery := "d1"; at_phase := Holding |}.
Definition waiting : world := {|
  w_hub := sent_hub.2; w_table := w_table holding;
  w_attempts := <[ "t1" := set_phase (Waiting 1 sent_hub.1) attempt ]> (w_attempts holding);
  w_acks := w_acks holding; w_answers := w_answers holding; w_orphans := w_orphans holding; w_used := w_used holding;
  w_sent := w_sent holding ++ ["d1"] |}.
Definition host_ack (settled : bool) : Ack := {|
  ack_conn := 1; ack_delivery := "d1"; ack_claim := "t1"; ack_result := Applied; ack_answer := Ok tt;
  ack_settled := settled |}.
Definition acknowledged : world := with_acks (host_ack false :: w_acks waiting) waiting.
Definition settled_table : gmap (string * string) (DeliveryRow instant) :=
  default ∅ (settle_pty_delivery 101%N "d1" "t1" Applied (w_table acknowledged)).
Definition settled : world := with_table settled_table (with_acks [host_ack true] acknowledged).
Definition taken : Z * PtyHub :=
  match take_delivery_ack 1 "d1" "t1" (w_hub settled) with Ok x => x | Err _ => (0%Z, new_hub 7) end.
Definition answered : world := {|
  w_hub := taken.2; w_table := w_table settled; w_attempts := w_attempts settled; w_acks := [];
  w_answers := <[ taken.1 := Ok tt ]> (w_answers settled); w_orphans := w_orphans settled; w_used := w_used settled;
  w_sent := w_sent settled |}.
Definition restarted : world := {|
  w_hub := new_hub 8; w_table := quarantine_orphaned 200%N (w_table answered); w_attempts := ∅; w_acks := [];
  w_answers := ∅; w_orphans := []; w_used := w_used answered; w_sent := w_sent answered |}.

Lemma registered_reached : rtc step (attempt_start 7) registered.
Proof.
  eapply rtc_r; [apply (verbs_run opening (attempt_start 7)); reflexivity|].
  apply (as_register key "cmd" "d1" 1 None opened); [reflexivity|]. intros k r. cbn. by rewrite lookup_empty.
Qed.

Lemma waiting_reached : rtc step registered waiting.
Proof.
  eapply rtc_l.
  - apply (as_claim (TZ := demo_tz) (V := unit) [] 100%N "t1" key (fresh_row "cmd" "d1" 1 None) claimed_table registered);
      [set_solver|reflexivity|vm_compute; reflexivity].
  - apply rtc_once. apply (as_send (TZ := demo_tz) (V := unit) "t1" attempt (stop "d1") 1 sent_hub.1 sent_hub.2 holding);
      [vm_compute; reflexivity..|]. left. exists "s", "7:1". vm_compute. reflexivity.
Qed.

Lemma answered_reached : rtc step waiting answered.
Proof.
  eapply rtc_l; [|eapply rtc_l; [|apply rtc_once]].
  - apply (as_ack (TZ := demo_tz) (V := unit) 1 "d1" Applied (Ok tt) "t1" waiting); vm_compute; reflexivity.
  - apply (as_settle (TZ := demo_tz) (V := unit) 101%N [] (host_ack false) [] settled_table acknowledged);
      [reflexivity|vm_compute; reflexivity].
  - apply (as_take (TZ := demo_tz) (V := unit) [] (host_ack true) [] taken.1 taken.2 settled); vm_compute; reflexivity.
Qed.

Lemma answered_reachable : attempt_reachable (V := unit) answered.
Proof. exists 7%Z. etrans; [apply registered_reached|]. etrans; [apply waiting_reached|apply answered_reached]. Qed.

Lemma restarted_reached : rtc step answered restarted.
Proof. apply rtc_once. apply (as_restart (TZ := demo_tz) (V := unit) 200%N 8 answered). Qed.

Lemma deliveries_are_sent_once_witness :
  NoDup ["d1"] /\ exists k r, w_table answered !! k = Some r /\ dv_event_id r = "d1" /\
    forall now token, (claim_delivery (V := unit) [] now token k (w_table answered)).1 <> Claimed.
Proof.
  destruct (deliveries_are_sent_once (V := unit) answered answered_reachable) as [Hn Hs]. split; [exact Hn|].
  destruct (Hs "d1") as (k & r & L & E & Hc); [by left|]. exists k, r. split_and!; [exact L|exact E|].
  intros now token. apply Hc.
Defined.

Lemma answers_are_durable_witness :
  exists r, w_table answered !! key = Some r /\ dv_event_id r = "d1" /\ says r (Ok tt) = true /\
    w_table restarted !! key = Some r.
Proof.
  destruct (answers_are_durable (V := unit) answered "t1" (set_phase (Waiting 1 sent_hub.1) attempt) 1 sent_hub.1 (Ok tt)
    answered_reachable) as (r & L & E & S & F); [vm_compute; reflexivity..|].
  exists r. split_and!; [exact L|exact E|exact S|]. exact (F restarted restarted_reached).
Defined.

Definition settled_row : DeliveryRow instant := default (fresh_row "" "" 0 None) (w_table answered !! key).

Lemma delivery_rows_settle_witness :
  exists r', w_table restarted !! key = Some r' /\ row_later settled_row r' /\ delivery_check r' = true.
Proof.
  apply (delivery_rows_settle (V := unit) answered restarted key settled_row answered_reachable);
    [vm_compute; reflexivity|apply restarted_reached].
Defined.

Example settled_row_is_delivered : dv_delivered_at settled_row = Some 101%N /\ dv_claim_token settled_row = None.
Proof. vm_compute. by split. Qed.
End AttemptExamples.
