(* ===== verification/ConnExamples.v ===== *)
(** * A subscription, end to end

    The theorems on the outbound half of a connection applied to a run over the
    in-memory store: a client subscribes to a log of three large events, is sent
    the first, stops reading, and is told where to resume from. *)

From S2P Require Import Prelude Text Envelope Command Tables Db Store Port Backends Screen Hub Streams Wire Outbound.

Module ConnExamples.

Notation inner := (Memory.Inner (V := unit)).
Notation world := (ConnWorld (V := unit) (S := inner)).

(** Two of these do not fit a frame together. *)
Definition large (e : EventEnvelope unit) : option Z := Some 1500000%Z.
Notation step := (conn_step large).

Definition three : inner := Memory.seed tt 3 Memory.new.

Lemma three_inv : es_inv three.
Proof.
  let r := eval vm_compute in three in change three with r. split; [cbn; lia|]. split; [|cbn; unfold u64_max; lia].
  intros e He. repeat (apply elem_of_cons in He as [-> |He]; [cbn; lia|]). by apply not_elem_of_nil in He.
Qed.

(** ** The client subscribes *)

Definition w0 : world := conn_start three.
Definition w1 : world := answer "r" (admit_events "r" None (cw_streams w0)) w0.
Definition reply : Outgoing (V := unit) := plain (Response "r" (Subscribed None)) (Announces 0).
Definition w2 : world := set_reader (Starting (Some (AEvents "r" None))) (set_responses [reply] w1).
Definition w3 : world := set_reader Reading (set_streams [start (AEvents "r" None)] w2).
Definition w4 : world := take_frame reply (set_responses [] w3).
Definition w5 : world := set_writer (Wrote reply) (set_written [reply] w4).
Definition subscribed : world := store_cell reply (set_writer Idle w5).

Lemma subscribed_reached : rtc step w0 subscribed.
Proof.
  eapply rtc_l; [apply (cs_subscribe large "r" None w0); done|]. eapply rtc_l; [apply (cs_respond large reply (Some (AEvents "r" None)) w1);
    [vm_compute; reflexivity|cbn; unfold RESPONSE_QUEUE_DEPTH; lia]|].
  eapply rtc_l; [apply (cs_start large (Some (AEvents "r" None)) w2); reflexivity|].
  eapply rtc_l; [apply (cs_take_response large reply [] w3); reflexivity|].
  eapply rtc_l; [apply (cs_wrote large reply w4); reflexivity|]. apply rtc_once. by apply (cs_store large reply w5).
Qed.

Lemma subscribed_reachable : conn_reachable large subscribed.
Proof. exists three. split; [apply three_inv|apply subscribed_reached]. Qed.

Definition task0 : StreamTask (V := unit) := start (AEvents "r" None).

(** The connection has one stream. *)
Lemma only_stream (w : world) t : length (cw_streams w) = 1%nat -> sole w 0 t.
Proof. intros Hl j t' Hj _. apply lookup_lt_Some in Hj. lia. Qed.

Lemma subscription_catches_up_witness :
  exists w', rtc step subscribed w' /\ cw_store w' = three /\ received task0 (cw_written w') = UEvent <$> Memory.events three.
Proof.
  apply (subscription_catches_up large subscribed 0 task0 None None subscribed_reachable); try reflexivity.
  - by split_and!.
  - apply only_stream. reflexivity.
  - intros e _. by exists 1500000%Z.
Defined.

(** ** The client stops reading *)

Definition sent (k : nat) : Outgoing (V := unit) :=
  match Memory.events three !! k with
  | Some e => event_item 0 "r" [e] (global_sequence e)
  | None => reply
  end.
Definition queued (o : Outgoing) (w : world) : world :=
  set_batches (cw_batches w ++ [o])
    (update 0 (fun t => with_source (advance (tk_source t) o) (with_state Running t)) w).
Definition sending (o : Outgoing) (w : world) : world := update 0 (with_state (Sending o)) w.

Definition s1 : world := queued (sent 0) (sending (sent 0) subscribed).
Definition s2 : world := take_frame (sent 0) (set_batches [] s1).
Definition s3 : world := set_writer (Wrote (sent 0)) (set_written (cw_written s2 ++ [sent 0]) s2).
Definition s4 : world := store_cell (sent 0) (set_writer Idle s3).
Definition s5 : world := queued (sent 1) (sending (sent 1) s4).
Definition s6 : world := update 0 (with_state (Stopped SlowConsumer)) (sending (sent 2) s5).
Definition slow_task : StreamTask (V := unit) := default task0 (cw_streams s6 !! 0).
Definition goodbye : Outgoing (V := unit) := close_item 0 slow_task ESlowConsumer.
Definition s7 : world := update 0 (with_state (Closing goodbye)) s6.
Definition s8 : world := set_responses [goodbye] (update 0 (with_state Finished) s7).
Definition s9 : world := take_frame goodbye (set_responses [] s8).
Definition closed : world := set_writer (Wrote goodbye) (set_written (cw_written s9 ++ [goodbye]) s9).

Definition task_of (w : world) : StreamTask (V := unit) := default task0 (cw_streams w !! 0).

Lemma page_sent k w t rest_ :
  cw_streams w !! 0 = Some t -> tk_state t = Running -> pull large 0 t (cw_store w) = Send (sent k) ->
  (length (cw_batches w) < BATCH_QUEUE_DEPTH)%nat -> rtc step (queued (sent k) (sending (sent k) w)) rest_ ->
  rtc step w rest_.
Proof.
  intros Ht Hr Hp Hq Hrest. eapply rtc_l; [by apply (cs_pull large 0 t)|].
  eapply rtc_l; [apply (cs_queue large 0 (with_state (Sending (sent k)) t)); [cbn; destruct (cw_streams w) as [|]; [done|]; cbn in *; by simplify_eq|done|done]|].
  exact Hrest.
Qed.

Lemma closed_reached : rtc step subscribed closed.
Proof.
  apply (page_sent 0 subscribed (task_of subscribed));
    [vm_compute; reflexivity..|cbn; unfold BATCH_QUEUE_DEPTH, MAX_SUBSCRIPTIONS_PER_CONNECTION; lia|]. fold s1.
  eapply rtc_l; [apply (cs_take_batch large (sent 0) [] s1); vm_compute; reflexivity|]. fold s2.
  eapply rtc_l; [apply (cs_wrote large (sent 0) s2); vm_compute; reflexivity|]. fold s3.
  eapply rtc_l; [apply (cs_store large (sent 0) s3); reflexivity|]. fold s4.
  apply (page_sent 1 s4 (task_of s4));
    [vm_compute; reflexivity..|cbn; unfold BATCH_QUEUE_DEPTH, MAX_SUBSCRIPTIONS_PER_CONNECTION; lia|]. fold s5.
  eapply rtc_l; [apply (cs_pull large 0 (task_of s5) (sent 2) s5); vm_compute; reflexivity|].
  eapply rtc_l; [apply (cs_slow large 0 (with_state (Sending (sent 2)) (task_of s5)) (sent 2)); vm_compute; reflexivity|]. fold s6.
  eapply rtc_l; [apply (cs_load large 0 slow_task SlowConsumer ESlowConsumer s6); [vm_compute; reflexivity..|done]|]. fold s7.
  eapply rtc_l; [apply (cs_close large 0 (task_of s7) goodbye s7); [vm_compute; reflexivity..|cbn; unfold RESPONSE_QUEUE_DEPTH; lia]|].
  eapply rtc_l; [apply (cs_take_response large goodbye [] s8); reflexivity|]. fold s9.
  apply rtc_once. apply (cs_wrote large goodbye s9). reflexivity.
Qed.

Lemma closed_reachable : conn_reachable large closed.
Proof. exists three. split; [apply three_inv|]. etrans; [apply subscribed_reached|apply closed_reached]. Qed.

(** Told to resume after the one event that was written, although two were queued. *)
Example told_to_resume : og_control goodbye = StreamClosed "r" ESlowConsumer (Some 1%Z) /\ length (cw_batches closed) = 1%nat.
Proof. vm_compute. by split. Qed.

Lemma resume_is_gapless_witness :
  exists before events, before `prefix_of` cw_written closed /\ received (task_of closed) before = UEvent <$> events /\
    List.filter (after_cursor None) (Memory.events three) =
    events ++ List.filter (after_cursor (Some 1%Z)) (Memory.events three).
Proof.
  apply (resume_is_gapless large closed 0 (task_of closed) None (Some 2%Z) goodbye ESlowConsumer (Some 1%Z) closed_reachable);
    [vm_compute; reflexivity|apply only_stream; vm_compute; reflexivity|vm_compute; reflexivity|cbn; set_solver|vm_compute; reflexivity].
Defined.

(** One event was sent, one is queued and one is still to be read. *)
Lemma streams_are_in_order_witness :
  (received (task_of closed) (cw_written closed) `prefix_of` feed three (tk_source (task_of closed)) /\
   length (received (task_of closed) (cw_written closed)) = 1%nat) /\
  received (task_of closed) (cw_written closed ++ cw_batches closed) ++ rest three (tk_source (task_of closed)) =
    UEvent <$> Memory.events three /\
  exists answer r, answer ∈ [reply] /\ og_control answer = Response "r" r.
Proof.
  destruct (streams_are_in_order large closed 0 (task_of closed) closed_reachable) as (Hp & Hw & Ha);
    [vm_compute; reflexivity|apply only_stream; vm_compute; reflexivity|].
  split; [split; [exact Hp|vm_compute; reflexivity]|]. split; [apply Hw; vm_compute; reflexivity|].
  destruct (Ha [reply] (sent 0) [goodbye]) as (answer & r & Hin & Hc & _);
    [vm_compute; reflexivity|vm_compute; discriminate|]. by exists answer, r.
Defined.

Lemma connection_is_bounded_witness : (length (cw_batches closed) <= 8)%nat.
Proof. destruct (connection_is_bounded large closed closed_reachable) as (_ & _ & H & _). exact H. Defined.
End ConnExamples.
