(* ===== verification/BlobExamples.v ===== *)
(** * Examples for the blob store

    A cipher that appends a tag of its key, nonce, place and associated data, on
    which the laws hold and everything evaluates; the witnesses of the theorems
    of Container.v and Blobs.v; and two commits that race. *)

From S2P Require Import Prelude Text Envelope Command Tables Db Hub Wire Container Ordered Truth Facts Blobs Cas Demo.

(** ** A cipher *)

Definition mix (l : bytes) : Z := foldr (fun x acc => (x + 31 * acc) mod 1000003)%Z 7%Z l.
Definition tag (parts : list Z) : bytes := take 16 (parts ++ replicate 16 0%Z).

Definition open_tagged (t c : bytes) : option bytes :=
  let n := (length c - 16)%nat in if bool_decide (drop n c = t) then Some (take n c) else None.

#[export] Instance demo_aead : Aead := {|
  Container.sha256 l := take 32 (be 4 (mix l) ++ be 4 (zlen l) ++ replicate 32 0%Z);
  aead_encrypt k n a m := Some (m ++ tag [mix k; mix n; mix a]);
  aead_decrypt k n a c := open_tagged (tag [mix k; mix n; mix a]) c;
  stream_encrypt k n p l a m := Some (m ++ tag [p; if l then 1 else 0; mix k; mix n; mix a]%Z);
  stream_decrypt k n p l a c := open_tagged (tag [p; if l then 1 else 0; mix k; mix n; mix a]%Z) c;
|}.

Lemma tag_len parts : length (tag parts) = 16%nat.
Proof. unfold tag. rewrite length_take, length_app, length_replicate. lia. Qed.

Lemma open_tagged_app m parts parts' :
  open_tagged (tag parts') (m ++ tag parts) = if bool_decide (tag parts = tag parts') then Some m else None.
Proof.
  unfold open_tagged. rewrite length_app, tag_len. replace (length m + 16 - 16)%nat with (length m) by lia.
  by rewrite drop_app_length, take_app_length.
Qed.

#[export] Instance demo_aead_laws : AeadLaws.
Proof.
  split; cbn [Container.sha256 aead_encrypt aead_decrypt stream_encrypt stream_decrypt demo_aead]; intros.
  - rewrite length_take, !length_app, !be_length, length_replicate. lia.
  - done.
  - simplify_eq. rewrite open_tagged_app. by rewrite bool_decide_eq_true_2.
  - simplify_eq. rewrite open_tagged_app in H0. case_bool_decide; congruence.
  - simplify_eq. unfold zlen. rewrite length_app, tag_len. unfold TAG_BYTES. lia.
  - done.
  - simplify_eq. rewrite open_tagged_app. by rewrite bool_decide_eq_true_2.
  - simplify_eq. unfold zlen. rewrite length_app, tag_len. unfold TAG_BYTES. lia.
  - simplify_eq. rewrite open_tagged_app. rewrite bool_decide_eq_false_2; [done|]. cbn. intros E. apply H0.
    destruct l, l'; congruence.
Qed.

Module BlobExamples.

(** Runs of the world, written down. *)
Inductive Act := ACall (cfg : BlobConfig) (t : BlobTask) | ARun (i : nat) (f : Fresh).

Definition fresh_okb (f : Fresh) : bool :=
  is_upload_id (fr_id f) && (zlen (fr_dek f) =? DEK_BYTES)%Z && (zlen (fr_wrap_nonce f) =? WRAP_NONCE_BYTES)%Z
  && (zlen (fr_stream_nonce f) =? STREAM_NONCE_BYTES)%Z.

Definition act (a : Act) (w : BlobWorld (V := payload_t)) : option BlobWorld :=
  match a with
  | ACall cfg t => if is_call t && utf8_ok (bc_kek_id cfg)
                   then Some {| bw_store := bw_store w; bw_tasks := bw_tasks w ++ [(cfg, t)] |} else None
  | ARun i f => ct ← bw_tasks w !! i;
                if fresh_okb f then
                  let '(b', t') := task_step ct.1 f (bw_store w) ct.2 in
                  Some {| bw_store := b'; bw_tasks := <[i := (ct.1, t')]> (bw_tasks w) |}
                else None
  end.

Lemma act_steps a w w' : act a w = Some w' -> blob_step w w'.
Proof.
  destruct a as [cfg t|i f]; cbn; intros E.
  - destruct (is_call t) eqn:E1; [|done]. destruct (utf8_ok _) eqn:E2; [|done]. cbn in E. simplify_eq. by apply bs_call.
  - apply bind_Some in E as ([cfg t] & Hi & E). destruct (fresh_okb f) eqn:Ef; [|done]. cbn in E.
    destruct (task_step _ _ _ _) as [b' t'] eqn:Et. simplify_eq. eapply bs_run; [done| |done].
    unfold fresh_okb in Ef. unbool. by split_and!.
Qed.

Definition acts (l : list Act) (w : BlobWorld) : option BlobWorld := foldl (fun o a => w ← o; act a w) (Some w) l.

Lemma acts_steps l w w' : acts l w = Some w' -> rtc blob_step w w'.
Proof.
  unfold acts. revert w. induction l as [|a l IH]; cbn; intros w E; [by simplify_eq|].
  destruct (act a w) as [w1|] eqn:Ea; [eapply rtc_l; [by eapply act_steps|by apply IH]|].
  exfalso. clear -E. induction l; by cbn in E.
Qed.

(** ** Two commits that race *)

Definition kek0 : bytes := replicate 32 1%Z.
Definition cfg0 : BlobConfig := {|
  bc_kek := kek0; bc_kek_id := [107%Z]; bc_pty_recording_retention_days := 30; bc_context_retention := [] |}.
Definition id_of (c : Ascii.ascii) : string := foldr String "" (replicate 32 c).
Definition fresh_of (c : Ascii.ascii) (n : Z) : Fresh := {|
  fr_id := id_of c; fr_dek := replicate 32 n; fr_wrap_nonce := replicate 24 n; fr_stream_nonce := replicate 19 n |}.
Definition fa : Fresh := fresh_of (Ascii.ascii_of_nat 97) 1.
Definition fb : Fresh := fresh_of (Ascii.ascii_of_nat 98) 2.
Definition note : bytes := [104; 105]%Z.
Definition note_classes : BlobClasses := {| bc_content := Conformance; bc_redaction := RedactionNone; bc_retention := RetainManifest |}.
Definition note_digest : string := hex_lower (Container.sha256 note).

(** Task [i] begins an upload and writes the bytes. *)
Definition upload (i : nat) (f : Fresh) : list Act :=
  [ACall cfg0 (TBegin [116%Z] 2)] ++ replicate 5 (ARun i f) ++
  [ACall cfg0 (TWrite (fr_id f) 0 note)] ++ replicate 3 (ARun (S i) f).

(** Both commits pass the row check, both publish, the first one's row stays. *)
Definition race : list Act :=
  upload 0 fa ++ upload 2 fb ++
  [ACall cfg0 (TCommit (fr_id fa) note_digest); ACall cfg0 (TCommit (fr_id fb) note_digest)] ++
  replicate 3 (ARun 4 fa) ++ replicate 3 (ARun 5 fb) ++ replicate 2 (ARun 4 fa) ++ replicate 2 (ARun 5 fb) ++
  replicate 4 (ARun 4 fa) ++ replicate 4 (ARun 5 fb).

Definition raced : BlobWorld := Eval vm_compute in default (blob_start (0%N : instant) Demo.fresh) (acts race (blob_start (0%N : instant) Demo.fresh)).

Lemma raced_reached : acts race (blob_start (0%N : instant) Demo.fresh) = Some raced.
Proof. vm_cast_no_check (eq_refl (Some raced)). Qed.

(** Two commits of the same bytes
    that both pass the row check before either inserts: both are answered with
    success, the row keeps the first commit's wrapped key, the file is the second
    one's container, and from then on a read with the store's own key answers
    Integrity. *)
Theorem racing_commits_lose_the_blob : exists (w : BlobWorld (V := payload_t)) r ds ds',
  rtc blob_step (blob_start (0%N : instant) Demo.fresh) w /\
  Forall (fun ct => ct.1 = cfg0) (bw_tasks w) /\
  snd <$> bw_tasks w !! 4%nat = Some (TDone (Committed ds false)) /\
  snd <$> bw_tasks w !! 5%nat = Some (TDone (Committed ds' true)) /\
  b_blobs (bw_store w) !! note_digest = Some r /\ tombstoned r = false /\
  forall f f', (task_step cfg0 f' (bw_store w) (task_step cfg0 f (bw_store w) (TRead note_digest 0 2)).2).2 =
    TDone (BlobRefused Integrity).
Proof.
  exists raced. eexists _, _, _. split; [apply (acts_steps race); exact raced_reached|].
  split; [unfold raced; cbn [bw_tasks]; repeat (apply Forall_cons_2; [reflexivity|]); by apply Forall_nil_2|]. split; [vm_compute; reflexivity|]. split; [vm_compute; reflexivity|].
  split; [vm_compute; reflexivity|]. split; [vm_compute; reflexivity|]. intros f f'. vm_compute. reflexivity.
Qed.

(** ** Witnesses: containers *)

Definition note_header : Header := header_of note [116%Z] [107%Z] (fr_stream_nonce fa).
Definition sealed_note : result BlobError Sealed :=
  Eval vm_compute in seal_with note [116%Z] kek0 [107%Z] (fr_dek fa) (fr_wrap_nonce fa) (fr_stream_nonce fa).
Definition note_sealed : Sealed := Eval vm_compute in
  match sealed_note with Ok s => s | Err _ => {| sl_container := []; sl_wrap_nonce := []; sl_wrapped_dek := []; sl_digest := [] |} end.

Lemma note_seals : seal_with note [116%Z] kek0 [107%Z] (fr_dek fa) (fr_wrap_nonce fa) (fr_stream_nonce fa) = Ok note_sealed.
Proof. vm_compute. reflexivity. Qed.

Lemma sealed_blobs_open_witness : exists s, seal_with note [116%Z] kek0 [107%Z] (fr_dek fa) (fr_wrap_nonce fa) (fr_stream_nonce fa) = Ok s /\
  open (sl_container s) kek0 (sl_wrap_nonce s) (sl_wrapped_dek s) = Ok (note_header, note).
Proof.
  destruct (sealed_blobs_open note [116%Z] kek0 [107%Z] (fr_dek fa) (fr_wrap_nonce fa) (fr_stream_nonce fa)) as (s & Hs & Ho & _);
    [reflexivity|reflexivity|vm_compute; discriminate|reflexivity|vm_compute; discriminate|reflexivity|vm_compute; discriminate|].
  exists s. split; [exact Hs|exact Ho].
Defined.

Lemma ranges_read_as_ranges_witness :
  read_range (zlen note) 1 1 note_header (encode note_header) (fr_dek fa) (sl_container note_sealed) = Ok (slice 1 2 note).
Proof.
  apply (ranges_read_as_ranges note [116%Z] kek0 [107%Z] (fr_dek fa) (fr_wrap_nonce fa) (fr_stream_nonce fa) note_sealed 1 1);
    [reflexivity|reflexivity|vm_compute; discriminate|reflexivity|reflexivity|exact note_seals|lia|lia|vm_compute; discriminate].
Defined.

Lemma cut_blobs_do_not_open_witness :
  open (take 90 (sl_container note_sealed)) kek0 (sl_wrap_nonce note_sealed) (sl_wrapped_dek note_sealed) = Err Integrity.
Proof.
  apply (cut_blobs_do_not_open note [116%Z] kek0 [107%Z] (fr_dek fa) (fr_wrap_nonce fa) (fr_stream_nonce fa) note_sealed 90);
    [reflexivity|reflexivity|vm_compute; discriminate|reflexivity|reflexivity|exact note_seals|vm_compute; lia].
Defined.

Lemma header_has_one_encoding_witness : header_ok note_header /\
  take (Z.to_nat 75) (take 75 (sl_container note_sealed)) = encode note_header /\ decode (encode note_header) = Ok (note_header, 75%Z).
Proof.
  apply (header_has_one_encoding (take 75 (sl_container note_sealed)) note_header 75).
  - vm_compute. repeat constructor; discriminate.
  - vm_compute. reflexivity.
Defined.

(** ** Witnesses: the store *)

(** The note uploaded and committed; then shredded, or pinned and swept. *)
Definition committing : list Act := upload 0 fa ++ [ACall cfg0 (TCommit (fr_id fa) note_digest)] ++ replicate 9 (ARun 2 fa).
Definition start0 : BlobWorld := blob_start (0%N : instant) Demo.fresh.
Definition committed : BlobWorld := Eval vm_compute in default start0 (acts committing start0).
Definition shredding : list Act := [ACall cfg0 (TShred note_digest)] ++ replicate 3 (ARun 3 fa).
Definition shredded : BlobWorld := Eval vm_compute in default start0 (acts shredding committed).
Definition swept : BlobWorld := Eval vm_compute in default start0 (acts ([ACall cfg0 TSweep] ++ replicate 5 (ARun 4 fa)) shredded).
Definition pinned_note : BlobWorld := Eval vm_compute in default start0
  (acts ([ACall cfg0 (TPin note_digest "e1")] ++ replicate 2 (ARun 3 fa)) committed).

Definition row_at (w : BlobWorld (V := payload_t)) : BlobRow :=
  default {| br_media_type := []; br_byte_size := 0; br_kek_id := []; br_wrap_nonce := None; br_wrapped_dek := None;
             br_created_at := (0%N : instant); br_tombstoned_at := None |} (b_blobs (bw_store w) !! note_digest).

Lemma committed_reached : rtc blob_step start0 committed.
Proof. apply (acts_steps committing). vm_cast_no_check (eq_refl (Some committed)). Defined.

Lemma shredded_is_final_witness :
  b_blobs (bw_store swept) !! note_digest = Some (row_at shredded) /\ br_wrapped_dek (row_at shredded) = None /\
  (task_step cfg0 fa (bw_store swept) (TStat note_digest)).2 = TDone (BlobRefused Tombstoned).
Proof.
  destruct (shredded_is_final shredded swept note_digest (row_at shredded)) as (H1 & _ & H2 & H3).
  - eexists _, _. etransitivity; [exact committed_reached|].
    apply (acts_steps shredding). vm_cast_no_check (eq_refl (Some shredded)).
  - vm_compute. reflexivity.
  - vm_compute. reflexivity.
  - apply (acts_steps ([ACall cfg0 TSweep] ++ replicate 5 (ARun 4 fa))). vm_cast_no_check (eq_refl (Some swept)).
  - destruct (H3 cfg0 fa) as (_ & H4 & _). split; [exact H1|]. split; [exact H2|]. rewrite H4. reflexivity.
Defined.

(** A sweep runs beside the pin. *)
Definition pin_swept : BlobWorld := Eval vm_compute in default start0 (acts ([ACall cfg0 TSweep] ++ replicate 5 (ARun 4 fa)) pinned_note).

(** Every world of a run has a property. *)
Fixpoint keeps (P : BlobWorld (V := payload_t) -> bool) (l : list Act) (w : BlobWorld) : bool :=
  match l with
  | [] => true
  | a :: l => match act a w with Some w1 => P w1 && keeps P l w1 | None => false end
  end.

Lemma acts_keep (R : BlobWorld -> BlobWorld -> Prop) P l w w' :
  (forall x y, blob_step x y -> P y = true -> R x y) -> keeps P l w = true -> acts l w = Some w' -> rtc R w w'.
Proof.
  intros HR. unfold acts. revert w. induction l as [|a l IH]; cbn; intros w Hk E; [by simplify_eq|].
  destruct (act a w) as [w1|] eqn:Ea; [|done]. apply andb_true_iff in Hk as [Hp Hk].
  eapply rtc_l; [apply HR; [by eapply act_steps|done]|by apply IH].
Qed.

Lemma pinned_blobs_stay_witness : exists r', b_blobs (bw_store pin_swept) !! note_digest = Some r' /\ same_blob (row_at pinned_note) r'.
Proof.
  destruct (pinned_blobs_stay pinned_note pin_swept note_digest "e1" (row_at pinned_note)) as (r' & H1 & H2 & _).
  - vm_compute. reflexivity.
  - vm_compute. reflexivity.
  - vm_compute. reflexivity.
  - apply (acts_keep _ (fun w => bool_decide ((note_digest, "e1") ∈ b_pins (bw_store w)))
             ([ACall cfg0 TSweep] ++ replicate 5 (ARun 4 fa))).
    + intros x y Hs Hp%bool_decide_eq_true. by split.
    + vm_compute. reflexivity.
    + vm_cast_no_check (eq_refl (Some pin_swept)).
  - exists r'. split; [exact H1|exact H2].
Defined.

(** Of the claims and keys of a world. *)
Definition is_calm (w : BlobWorld (V := payload_t)) : bool :=
  bool_decide (NoDup (concat ((fun ct => claims_of ct.2) <$> bw_tasks w))) &&
  forallb (fun ct => bool_decide (kek0 = bc_kek ct.1) && forallb (fun k => bool_decide (kek0 = k)) (keys_of ct.2)) (bw_tasks w).

Lemma is_calm_step x y : blob_step x y -> is_calm y = true -> calm_step (eq kek0) x y.
Proof.
  intros Hs [Hn Hk]%andb_true_iff. apply bool_decide_eq_true in Hn. split_and!; [done|done|].
  rewrite forallb_forall in Hk. apply Forall_forall. intros ct Hin%list_elem_of_In. apply Hk in Hin. unbool.
  split; [done|]. rewrite Forall_forall. intros k Hkin%list_elem_of_In. rewrite forallb_forall in H0. apply H0 in Hkin. by unbool.
Qed.

Lemma calm_blobs_read_witness : exists kek p, kek0 = kek /\ hex_lower (Container.sha256 p) = note_digest /\ zlen p = 2%Z /\
  forall cfg f f' offset n, bc_kek cfg = kek -> (0 <= offset)%Z -> (0 <= n)%Z ->
    (task_step cfg f' (bw_store committed) (task_step cfg f (bw_store committed) (TRead note_digest offset n)).2).2 =
    TDone (ReadBytes (slice offset (offset + read_len (zlen p) offset n) p)).
Proof.
  destruct (calm_blobs_read (eq kek0) (0%N : @instant demo_tz) Demo.fresh committed note_digest (row_at committed))
    as (kek & p & H1 & H2 & H3 & H4).
  - apply (acts_keep _ is_calm committing); [exact is_calm_step| |].
    + vm_compute. reflexivity.
    + vm_cast_no_check (eq_refl (Some committed)).
  - vm_compute. reflexivity.
  - vm_compute. reflexivity.
  - exists kek, p. split; [exact H1|]. split; [exact H2|]. split; [by rewrite <-H3|exact H4].
Defined.

Lemma demo_not_expired (t : @instant demo_tz) : older_than t t UPLOAD_EXPIRY_SECS = false.
Proof. cbn. unfold UPLOAD_EXPIRY_SECS. apply Z.ltb_ge. lia. Qed.

Definition store0 (_ : ContentClass) : BlobConfig := cfg0.

Lemma put_then_get_witness : exists b' rec,
  put store0 fa (no_blobs (0%N : @instant demo_tz) Demo.fresh) note_classes [116%Z] note = (b', Ok (rec, false)) /\
  get store0 fb b' note_digest Conformance = Ok note.
Proof.
  destruct (put_then_get store0 demo_not_expired fa fb
    (no_blobs (0%N : @instant demo_tz) Demo.fresh) note_classes [116%Z] note) as (b' & rec & H1 & _ & _ & H2 & _).
  - split; [reflexivity|]. split; [reflexivity|]. split; reflexivity.
  - reflexivity.
  - vm_compute. reflexivity.
  - left. vm_compute. reflexivity.
  - split; [reflexivity|]. vm_compute. discriminate.
  - reflexivity.
  - split; vm_compute; discriminate.
  - vm_compute. discriminate.
  - exists b', rec. split; [exact H1|exact H2].
Defined.
End BlobExamples.
