(* ===== verification/InboundExamples.v ===== *)
(** * A connection, end to end

    A reader of a small JSON (no whitespace, no escapes, one-digit numbers) with
    instances for the other parameters of a connection, and an evaluator of
    programs whose results are runs; on these a client says hello, asks for the
    watermark, creates a task and lists the tasks.  The theorems on connections
    applied to it, and a start that takes a key of the sweep. *)

From S2P Require Import Prelude Text Fsm Envelope Command Tables Db Store Port Backends Project Authority Submit Kernel System Sweep Screen Hub Streams Attempts Wire Outbound Container Ordered Blobs Cas Strict Protocol Hello Dispatch Inbound Serve Reserved Replies Paging Demo Examples PtyExamples BlobExamples ConnExamples.

(** ** A reader of JSON *)

Notation raw := (Raw Empty_set).
Notation entry := (RawEntry Empty_set).

Definition expected : string := "expected value".
Definition byte_char (b : Z) : Ascii.ascii := Ascii.ascii_of_N (Z.to_N b).

(** The text up to a quote, and what follows it. *)
Fixpoint read_text (l : bytes) : string * bytes :=
  match l with
  | [] => ("", [])
  | b :: l => if (b =? 34)%Z then ("", l) else let '(s, rest) := read_text l in (String (byte_char b) s, rest)
  end.

Fixpoint read_value (fuel : nat) (l : bytes) : raw * bytes :=
  match fuel with
  | O => (RFail expected, [])
  | S fuel =>
      match l with
      | [] => (RFail expected, [])
      | b :: l =>
          if (b =? 34)%Z then let '(s, rest) := read_text l in (RStr s, rest)
          else if (b =? 91)%Z then let '(items, rest) := read_items fuel l in (RSeq items, rest)
          else if (b =? 123)%Z then let '(entries, rest) := read_entries fuel l in (RMap entries, rest)
          else if (48 <=? b)%Z && (b <=? 57)%Z then (RInt (b - 48), l)
          else (RFail expected, [])
      end
  end
with read_items (fuel : nat) (l : bytes) : list raw * bytes :=
  match fuel with
  | O => ([RFail expected], [])
  | S fuel =>
      match l with
      | b :: rest => if (b =? 93)%Z then ([], rest)
                     else let '(v, rest) := read_value fuel (if (b =? 44)%Z then rest else l) in
                          let '(items, rest) := read_items fuel rest in (v :: items, rest)
      | [] => ([RFail expected], [])
      end
  end
with read_entries (fuel : nat) (l : bytes) : list entry * bytes :=
  match fuel with
  | O => ([KFail expected], [])
  | S fuel =>
      match l with
      | b :: rest =>
          if (b =? 125)%Z then ([], rest)
          else if (b =? 44)%Z then read_entries fuel rest
          else if (b =? 34)%Z then
            let '(key, rest) := read_text rest in
            match rest with
            | c :: rest => if (c =? 58)%Z then let '(v, rest) := read_value fuel rest in
                                                let '(entries, rest) := read_entries fuel rest in (KV key v :: entries, rest)
                           else ([KFail expected], [])
            | [] => ([KFail expected], [])
            end
          else ([KFail expected], [])
      | [] => ([KFail expected], [])
      end
  end.

#[export] Instance demo_reader : JsonReader := {|
  json_f64 := Empty_set; json_number := Z;
  number_of_int n := n;
  number_of_f64 x := match x with end;
  next_value l := match l with
                  | [] => None
                  | _ => let '(v, rest) := read_value (2 * length l) l in Some (v, (length l - length rest)%nat)
                  end;
  debug_text s := s;
  located m := m +:+ " at line 1";
|}.

Lemma reader_fails_otherwise fuel :
  (forall l, messages (fun m => m = expected) (read_value fuel l).1) /\
  (forall l, messages (fun m => m = expected) (RSeq (read_items fuel l).1)) /\
  (forall l, messages (fun m => m = expected) (RMap (read_entries fuel l).1)).
Proof.
  induction fuel as [|fuel (IHv & IHi & IHe)]; [by split_and!|]. split_and!; intros [|b l]; try done; cbn [read_value read_items read_entries].
  - destruct (b =? 34)%Z; [by destruct (read_text l)|].
    destruct (b =? 91)%Z; [specialize (IHi l); by destruct (read_items fuel l)|].
    destruct (b =? 123)%Z; [specialize (IHe l); by destruct (read_entries fuel l)|]. by destruct (_ && _).
  - destruct (b =? 93)%Z; [done|]. set (t := if (b =? 44)%Z then l else b :: l). specialize (IHv t).
    destruct (read_value fuel t) as [v rest]. specialize (IHi rest). destruct (read_items fuel rest) as [items rest']. done.
  - destruct (b =? 125)%Z; [done|]. destruct (b =? 44)%Z; [apply IHe|]. destruct (b =? 34)%Z; [|done].
    destruct (read_text l) as [key [|c rest]]; [done|]. destruct (c =? 58)%Z; [|done]. specialize (IHv rest).
    destruct (read_value fuel rest) as [v rest']. specialize (IHe rest'). destruct (read_entries fuel rest') as [es rest'']. done.
Qed.

Lemma messages_mono (P Q : string -> Prop) (r : Raw json_f64) : (forall m, P m -> Q m) -> messages P r -> messages Q r.
Proof.
  intros HPQ. revert r.
  apply (raw_induction (fun r => messages P r -> messages Q r)
           (fun e => match e with KV _ r => messages P r -> messages Q r | KFail _ => True end)); try done.
  - intros l H. induction H as [|r l Hr _ IH]; [done|]. intros [H1 H2]. split; [by apply Hr|by apply IH].
  - intros l H. induction H as [|[k r|m] l Hr _ IH]; [done|intros [H1 H2]; split; [by apply Hr|by apply IH]|intros [H1 H2]; split; [by apply HPQ|by apply IH]].
Qed.

#[export] Instance demo_reader_laws : JsonReaderLaws.
Proof.
  split.
  - intros m. cbn [located demo_reader]. unfold Str.starts_with, DUPLICATE_KEY.
    do 20 (destruct m as [|? m]; [reflexivity|]; simpl;
           match goal with |- context [if ?b then _ else _] => destruct b; [|reflexivity] end). reflexivity.
  - intros body r offset H. cbn in H. destruct body as [|b body]; [done|].
    pose proof (reader_fails_otherwise (2 * length (b :: body))) as (Hv & _). specialize (Hv (b :: body)).
    destruct (read_value _ _) as [v rest]. injection H as <- _. eapply messages_mono; [|exact Hv]. by intros m ->.
Qed.

(** Texts. *)
Definition bytes_of (s : string) : bytes := (fun c => Z.of_N (Ascii.N_of_ascii c)) <$> String.list_ascii_of_string s.
Definition quoted (s : string) : bytes := 34%Z :: bytes_of s ++ [34]%Z.
Fixpoint joined (l : list bytes) : bytes :=
  match l with [] => [] | [x] => x | x :: l => x ++ 44%Z :: joined l end.
Definition object (entries : list (string * bytes)) : bytes :=
  123%Z :: joined ((fun '(k, v) => quoted k ++ 58%Z :: v) <$> entries) ++ [125]%Z.
Definition array (items : list bytes) : bytes := 91%Z :: joined items ++ [93]%Z.

(** ** The other parameters *)

#[export] Instance demo_base64 : Base64 := {|
  b64_encode l := foldr (fun b s => String (byte_char b) s) EmptyString l;
  b64_decode s := Some (bytes_of s);
|}.
#[export] Instance demo_pages : PageJson payload_t := {|
  contract_record _ := true; record_len _ := Some 100%Z; event_len _ := Some 100%Z;
|}.

Module InboundExamples.
Import Demo Examples PtyExamples.
#[local] Existing Instances PtyExamples.demo_json PtyExamples.ticking.

Notation daemon := (Daemon (V := payload_t)).
Notation moment := (Db instant payload_t).

(** The controls of the example, as a decoder reads them. *)
Definition strings (l : list (Value json_number)) : option (list string) :=
  mapM (fun v => match v with VString s => Some s | _ => None end) l.
Definition shape_of (v : Value json_number) : option (ControlShape payload_t) :=
  match v with
  | VObject [("hello", VArray [VNumber major; VNumber minor]); ("capabilities", VArray names)] =>
      names ← strings names; mret (ShapeHello major minor names (Some "demo"))
  | VObject [("request", VString id); ("watermark", VArray [])] => Some (ShapeOther (CRequest id QWatermark))
  | VObject [("request", VString id); ("create", VString task)] =>
      Some (ShapeOther (CRequest id (QSubmitCommand (envelope_of op "p" task (PCreateTask task)))))
  | VObject [("request", VString id); ("list", VString "task")] =>
      Some (ShapeOther (CRequest id (QListProjection KTask None (Some 1%Z))))
  | VObject [("request", VString id); ("publish", VString session); ("bytes", VNumber n)] =>
      Some (ShapeOther (CPtyRawPublishOutput id session 1 n))
  | _ => None
  end.
Definition answer_json (a : HelloAnswer) : bytes := bytes_of "ack".

Definition hello : bytes :=
  object [("hello", array [[49]; [49]]%Z); ("capabilities", array [quoted "pty_raw"; quoted "other"])].
Definition ask (id verb : string) (v : bytes) : bytes := object [("request", quoted id); (verb, v)].

Definition json_frame (body : bytes) : Frame := {| f_kind := FkJson; f_body := body |}.
Definition sent : list Frame :=
  [json_frame (ask "r1" "watermark" (array [])); json_frame (ask "r2" "create" (quoted "t2")); json_frame (ask "r3" "list" (quoted "task"))].
Definition incoming_of (frames : list Frame) : Conn := {|
  c_reader := {| rd_bytes := concat (frame_bytes <$> frames); rd_end := Eof |};
  c_budget := production.1; c_world := production.2 |}.
Definition session : Conn := incoming_of (json_frame hello :: sent).

(** ** The reader *)

Definition twice : bytes := object [("a", [49]%Z); ("b", object [("c", [50]%Z); ("c", [51]%Z)])].

Example twice_is_refused : decode (T := unit) (fun _ => Some tt) twice = Err (wire_error EDuplicateKey).
Proof. vm_compute. reflexivity. Qed.

Lemma decode_is_strict_witness :
  utf8_ok hello = true /\ (forall t, decode (fun v => shape_of v ≫= control_of) hello = Ok t <->
     exists v, reads (read_value (2 * length hello) hello).1 v /\ unique_keys (JR := demo_reader) (read_value (2 * length hello) hello).1 /\
       Str.is_empty (Str.trim (text_of (drop (length hello) hello))) = true /\ (shape_of v ≫= control_of) = Some t).
Proof.
  assert (utf8_ok hello = true) as Hu by (vm_compute; reflexivity).
  assert (next_value hello = Some ((read_value (2 * length hello) hello).1, length hello)) as Hn by (vm_compute; reflexivity).
  split; [exact Hu|]. apply (decode_is_strict (fun v => shape_of v ≫= control_of) hello _ _ Hu Hn).
Defined.

(** ** An evaluator *)

(** The accesses the example performs; nobody else acts. *)
Definition perform_at {B} (e : Act payload_t B) : daemon -> option (B * daemon) :=
  match e in Act _ B return daemon -> option (B * daemon) with
  | ActEpoch => fun w => Some (epoch_of (log (dm_db w)), w)
  | ActWatermark => fun w => Some (Store.watermark (log (dm_db w)), w)
  | ActSubmit env carrier => fun w =>
      let '(r, db) := submit no_context st (clock 100) env carrier (dm_db w) in Some (r, Serve.submitted db w)
  | ActRows k cursor exact limit => fun w =>
      Some ((fun m => read_rows m cursor exact limit) <$> projection_table k (dm_db w), w)
  | ActNow => fun w => Some (100%N, w)
  | ActConnection => fun w => Some ((connection (hub_of w)).1, verbed Connection w)
  | ActRegister conn input control start => fun w => Some (tt, verbed (RegisterConnection conn input control start) w)
  | ActDisconnect conn => fun w =>
      let '(out, h) := disconnect conn (hub_of w) in
      Some (out, attempted (with_hub h (with_orphans (w_orphans (dm_att w) ++ abandoned out) (dm_att w))) w)
  | _ => fun _ => None
  end.

Fixpoint eval {A} (p : prog payload_t A) (w : daemon) : option (A * daemon) :=
  match p with
  | Ret a => Some (a, w)
  | Do e k => match perform_at e w with Some (b, w) => eval (k b) w | None => None end
  end.

Lemma perform_at_steps B (e : Act payload_t B) w b w' :
  perform_at e w = Some (b, w') -> act_step no_context BlobExamples.cfg0 B e w b w'.
Proof.
  destruct e; cbn; intros H; try done; try (injection H as <- <-; by constructor).
  destruct (submit _ _ _ _ _) as [r db] eqn:E. injection H as <- <-. by eapply ac_submit.
Qed.

Lemma eval_runs {A} (p : prog payload_t A) w a w' : eval p w = Some (a, w') -> runs no_context BlobExamples.cfg0 p w a w'.
Proof.
  revert w. induction p as [x|B e k IH]; intros w H; cbn in H; [injection H as <- <-; constructor|].
  destruct (perform_at e w) as [[b w1]|] eqn:E; [|done]. eapply run_act; [by apply perform_at_steps|by apply IH].
Qed.

(** ** The connection *)

Definition serving : daemon := {| dm_db := with_task; dm_att := attempt_start 1; dm_blobs := blob_start (0%N : instant) fresh |}.

Notation served_by := (serve_connection revision 1 shape_of (fun _ => true) (fun _ => false) answer_json true 100).

Definition outcome : option ConnectionEnd * daemon := default (None, serving) (eval (served_by session) serving).

Lemma bytes_ok l : forallb (fun b => (0 <=? b) && (b <? 256))%Z l = true -> Forall (fun b => 0 <= b < 256)%Z l.
Proof. intros H. apply Forall_forall. intros b Hb%list_elem_of_In. rewrite forallb_forall in H. specialize (H b Hb). lia. Qed.

Definition ready : Readiness := {| rd_sealed := false; rd_watermark := Some 3%Z |}.

(** A hello of another major, refused under its code. *)
Lemma handshake_settles_or_refuses_witness :
  (exists outcome said, negotiate shape_of answer_json true ready session = Some (outcome, said) /\
   is_ok outcome = true /\ exists frame, f_kind frame = FkJson /\ exists s, settled_by shape_of frame s /\
   said = HelloAck V1 (ss_minor s) (ss_capabilities s) false (Some 3%Z)) /\
  (exists e, option_map snd (negotiate shape_of answer_json false ready session) = Some (HelloRefusal (we_code e)) /\
   refused_for shape_of false session e).
Proof.
  assert (budget_ok (c_budget session) (c_world session)) as Hok by apply production_ok.
  assert (Forall (fun b => 0 <= b < 256)%Z (rd_bytes (c_reader session))) as Hby by (apply bytes_ok; vm_compute; reflexivity).
  split.
  - destruct (handshake_settles_or_refuses shape_of answer_json true ready session Hok Hby) as (outcome & said & Hn & H).
    exists outcome, said. split; [exact Hn|].
    assert (option_map (fun x => is_ok x.1) (negotiate shape_of answer_json true ready session) = Some true) as Ho
      by (vm_compute; reflexivity).
    rewrite Hn in Ho. destruct outcome as [[s c']|e]; [|discriminate Ho]. split; [reflexivity|].
    destruct H as (frame & _ & _ & _ & Hs & Hsaid). exists frame. split; [|by exists s].
    by destruct Hs as (? & ? & ? & ? & _).
  - destruct (handshake_settles_or_refuses shape_of answer_json false ready session Hok Hby) as (outcome & said & Hn & H).
    destruct outcome as [[s c']|e]; [by destruct H as (frame & ? & _)|].
    destruct H as [_ [[-> H]|(s & frame & rest & b & w & (? & _) & _)]]; [|done].
    exists e. rewrite Hn. by split.
Defined.


Lemma serving_refines_the_parts_witness :
  rtc (System.step no_context) with_task (dm_db outcome.2) /\
  rtc (attempt_step (V := payload_t)) (attempt_start 1) (dm_att outcome.2) /\
  rtc blob_step (dm_blobs serving) (dm_blobs outcome.2) /\ w_table (dm_att outcome.2) = deliveries (dm_db outcome.2).
Proof.
  assert (eval (served_by session) serving = Some outcome) as He by (vm_compute; reflexivity).
  apply (serving_refines_the_parts no_context BlobExamples.cfg0 eq_refl revision 1 shape_of (fun _ => true) (fun _ => false)
           answer_json true 100 session serving outcome.1 outcome.2); [vm_compute; reflexivity|].
  apply eval_runs. rewrite He. vm_compute. reflexivity.
Defined.

Example session_is_served :
  option_map (fun e => (cn_said e, option_map (map name_of) (cn_served e), cn_end e)) outcome.1 =
    Some (Some (HelloAck V1 1 ["pty_raw"] false (Some 3%Z)), Some ["r1"; "r2"; "r3"], Some (Ok tt)) /\
  is_some (tasks (proj (dm_db outcome.2)) !! "t2") = true.
Proof. vm_compute. done. Qed.

(** ** Pages *)

Definition two_tasks : moment := dm_db outcome.2.
Definition task_rows : gmap string (ProjectionRow payload_t) := RowTask <$> tasks (proj two_tasks).

Lemma walking_lists_every_row_witness :
  exists n, (n <= S (size task_rows))%nat /\
    walk KTask (Some 1%Z) None (replicate n two_tasks)
      ((fun '(key, row) => {| pr_key := key; pr_row := row |}) <$> btree_iter task_rows).
Proof.
  assert (projection_table KTask two_tasks = Some task_rows) as Ht by (unfold projection_table, task_rows; reflexivity).
  refine (proj2 (walking_lists_every_row KTask (Some 1%Z)) two_tasks task_rows 100%N eq_refl Ht _).
  intros key row _. split; [reflexivity|]. by exists 100%Z.
Defined.

Example walk_has_both_tasks : fst <$> btree_iter task_rows = ["t1"; "t2"].
Proof. vm_compute. reflexivity. Qed.

Definition first_listing : prog payload_t (result unit (WireResult payload_t)) := list_projection KTask None (Some 1%Z).
Lemma a_page_is_read_at_one_moment_witness : exists records next db,
  rtc (System.step no_context) two_tasks db /\ rtc (System.step no_context) db two_tasks /\
  listed KTask (Some 1%Z) db None records next.
Proof.
  assert (exists records next wm at_, eval first_listing outcome.2 = Some (Ok (WProjectionPage records next wm at_), outcome.2))
    as (records & next & wm & at_ & He) by (do 4 eexists; vm_compute; reflexivity).
  exists records, next. apply (a_page_is_read_at_one_moment no_context BlobExamples.cfg0 eq_refl KTask None (Some 1%Z)
    outcome.2 records next wm at_ outcome.2); [vm_compute; reflexivity|by apply eval_runs].
Defined.

(** ** The answers *)

Notation inner := (Memory.Inner (V := payload_t)).
Definition idle : ConnWorld (V := payload_t) (S := inner) := conn_start Memory.new.

Lemma answers_fit_the_outbound_half_witness :
  conn_step (fun _ => Some 100%Z) idle (Outbound.answer "r" (Subscribed None, Some (AEvents "r" None)) idle).
Proof.
  apply (answers_fit_the_outbound_half revision 1 (fun _ => Some 100%Z) 1
           {| cap_raw := false; cap_input := false; cap_control := false |} "r" (QSubscribeEvents None) (WSubscribed None)
           (Some (AEvents "r" None)) idle); [reflexivity|done|].
  exists []. by split.
Defined.

(** ** A key of the sweep *)

Lemma ordinary_requests_leave_the_sweep_keys_witness :
  within (fun _ e => under_sweep e = false)
    (answer_request revision 1 1 {| cap_raw := false; cap_input := false; cap_control := false |} "r"
       (QSubmitCommand (envelope_of op "p" "ttl_sweep:expire_lease:lease1:1" (PCreateTask "t9")))).
Proof.
  apply (ordinary_requests_leave_the_sweep_keys revision 1 1 {| cap_raw := false; cap_input := false; cap_control := false |} "r"
    (QSubmitCommand (envelope_of op "p" "ttl_sweep:expire_lease:lease1:1" (PCreateTask "t9")))). reflexivity.
Defined.

Definition sweep_key : string := "ttl_sweep:expire_lease:lease1:1".
Definition ready_to_start : moment :=
  steps leased [(op, "p", "tp", PTemplate "review"); (op, "p", "gs", PGrant "gs" "pty_start" op)].
Definition start_it : CommandEnvelope payload_t := envelope_of op "p" sweep_key (PStart "review" "s1").
Definition key_taken : moment := step ready_to_start (op, "p", sweep_key, PStart "review" "s1").
Definition calm_sweep (db : moment) : SweepReport := ps_report (Sweep.outcome (sweep_once no_context st (fun _ db => db) late db)).

(** The request of a start submits under the sweep's key, the submission is
    applied, and from then on the lease whose time ran out is passed over. *)
Example a_start_takes_a_sweep_key :
  (exists k, answer_request revision 1 1 {| cap_raw := false; cap_input := false; cap_control := false |} "r"
     (QStartPtySession start_it) = Do (ActSubmit start_it None) k) /\
  applied (Demo.answer ready_to_start (op, "p", sweep_key, PStart "review" "s1")) = true /\
  leases_expired (calm_sweep ready_to_start) = ["lease1"; "lease2"] /\
  leases_expired (calm_sweep key_taken) = ["lease2"].
Proof. split; [eexists; reflexivity|]. vm_compute. done. Qed.

Lemma reach_key_taken : reachable key_taken.
Proof. apply reach_submitted, reach_steps, reach_steps, reach_with_task. Qed.

Lemma a_taken_key_blocks_the_sweep_witness :
  "lease1" ∉ leases_expired (ps_report (Sweep.outcome
    (sweep_once_with no_context st (fun _ db => db) late STALE_AFTER key_taken))) /\
  (exists k, answer_request revision 1 1 {| cap_raw := false; cap_input := false; cap_control := false |} "r"
     (QStartPtySession start_it) = Do (ActSubmit start_it None) k).
Proof.
  assert (exists e r, last (log key_taken) = Some e /\ leases (proj key_taken) !! "lease1" = Some r /\
    lease_version r = 1%Z /\ holds_key e "p" sweep_key "lease" "lease1") as (e & r & El & Er & Hv & Hk).
  { destruct (last (log key_taken)) as [e|] eqn:El; [|by vm_compute in El].
    destruct (leases (proj key_taken) !! "lease1") as [r|] eqn:Er; [|by vm_compute in Er].
    exists e, r. split; [done|]. split; [done|]. vm_compute in Er, El. injection Er as <-. injection El as <-.
    by split_and!. }
  assert (e ∈ log key_taken) as He by (by apply last_Some_elem_of).
  assert (lease_key "lease1" (lease_version r) = sweep_key) as Hkey by (by rewrite Hv).
  destruct (a_taken_key_blocks_the_sweep no_context st (fun _ db => db) late (fun _ db _ => rtc_refl _ db)
    revision 1 STALE_AFTER key_taken e "lease1" r "p" reach_key_taken He Er
    ltac:(vm_compute; reflexivity) ltac:(rewrite Hkey; exact Hk)) as [Hnot Hwire].
  split; [exact Hnot|]. eapply (Hwire 1%Z _ "r" start_it); [by rewrite Hkey|]. vm_compute. reflexivity.
Defined.
End InboundExamples.
