(* ===== verification/HostExamples.v ===== *)
(** * Worked host sessions, recordings and restarts

    The theorems on the host, on recordings and on a restart applied to a small
    session: a screen of one row and two columns, a child that writes, a consumer
    that goes away and comes back, and the kernel's registry beside it. *)

From S2P Require Import Prelude Text Envelope Command Tables Db Store Project Submit System Screen Hub Streams Attempts Container Strict Ordered Protocol Dispatch Verdict Canonical Recording HostScreen HostSession HostControls Demo Examples PtyExamples BlobExamples InboundExamples.

Module HostExamples.
Import Demo.
#[local] Existing Instance PtyExamples.demo_json.

(** ** A child that writes *)

Definition plain : EngineStyle := {|
  es_fg := None; es_bg := None; es_underline_color := None; es_bold := false; es_dim := false; es_italic := false; es_underline := None;
  es_blink := false; es_inverse := false; es_invisible := false; es_strikethrough := false; es_overline := false |}.

Definition row_of (text : list string) (cols : list Z) : Row :=
  {| row_y := 0; row_text := text; row_styles := (fun _ => plain) <$> cols; row_cols := cols |}.
Definition frame_of (text : list string) (cols : list Z) : EngineFrame :=
  {| fr_cols := 2; fr_rows := 1; fr_cursor := Some (1, 0)%Z; fr_changed := [row_of text cols] |}.

Lemma frame_of_ok text cols : length cols <= 2 -> engine_frame (frame_of text cols).
Proof.
  intros Hl. split; cbn; [by unfold is_u16|by unfold is_u16|by repeat constructor| |].
  - rewrite length_fmap. unfold u32_max. lia.
  - intros col row [= <- <-]. lia.
Qed.

Definition cfg : SessionConfig := {| cf_cols := 2; cf_rows := 1; cf_recording_cap := 8; cf_retained_batches := 1; cf_restart := OnFailure 1 0 |}.

Definition shows (text : list string) (cols : list Z) : World :=
  {| wd_now := 5; wd_frame := Some (frame_of text cols); wd_waited := Some false; wd_spawned := true; wd_renderer := true; wd_session := Ok tt; wd_vt := None |}.

Definition before : list (World * Wake) := [(shows ["a"; "b"] [0; 1]%Z, Chunk [97; 98]%Z)].
(** A wide character over both columns, and a write that changes nothing. *)
Definition away : list (World * Wake) := [(shows ["W"] [0]%Z, Chunk [87]%Z); (shows ["W"] [0]%Z, Chunk [13]%Z)].
(** The child fails and is started again; it writes once more. *)
Definition after : list (World * Wake) := [(shows [] [], Chunk []); (shows ["c"; "d"] [0; 1]%Z, Chunk [99; 100]%Z)].

Definition reach (l : list (World * Wake)) : Running := default (started cfg) (turns cfg l (started cfg)).

Lemma worlds_ok : Forall (fun x => world_ok x.1) (before ++ away ++ after).
Proof. apply Forall_forall. intros x Hx f Hf. unfold before, away, after in Hx. cbn [app] in Hx. rewrite !elem_of_cons in Hx. destruct_or!; simplify_eq/=; try (apply frame_of_ok; cbn; lia). by apply elem_of_nil in Hx. Qed.

(** What the consumer that was away is told, and what the screen says. *)
Example away_is_replayed :
  (fun r => (bring_current (rn_last_seq (reach before)) r, glyph <$> concat (ws_cells (rn_screen r)))) (reach (before ++ away)) =
  (Behind [{| db_seq := 1; db_deltas := [CellsChanged [wire_style plain]
     [{| up_row := 0; up_col := 0; up_glyph := "W"; up_style := 0 |}; {| up_row := 0; up_col := 1; up_glyph := ""; up_style := 0 |}]] |}], ["W"; ""]).
Proof. vm_compute. reflexivity. Qed.

(** One batch later it is given the screen. *)
Example long_away_is_seeded :
  bring_current (rn_last_seq (reach before)) (reach (before ++ away ++ after)) =
  Seeded {| sa_seq := Some 4%Z; sa_frame := screen_snapshot (rn_screen (reach (before ++ away ++ after))) |}.
Proof. vm_compute. reflexivity. Qed.

Lemma a_returning_copy_is_the_screen_witness :
  (let s2 := reach (before ++ away) in
   caught_up (ws_cells (rn_screen (reach before))) (ad_catch_up (attach_session (shows [] []) (rn_last_seq (reach before)) s2)) = Some (ws_cells (rn_screen s2))) /\
  glyph <$> concat (ws_cells (rn_screen (reach (before ++ away ++ after)))) = ["c"; "d"].
Proof.
  split; [|vm_compute; reflexivity].
  apply (a_returning_copy_is_the_screen cfg before away after (reach before) (reach (before ++ away)) (reach (before ++ away ++ after)) (shows [] []));
    [by unfold is_u16|by unfold is_u16|exact worlds_ok|cbn; unfold u64_max; lia|vm_compute; reflexivity..].
Defined.

(** ** The registry beside it *)

Definition taken {E A} (d : A) (r : result E A) : A := match r with Ok a => a | Err _ => d end.
Definition seeded : option string * PtyHub :=
  taken (None, new_hub 7) (publish_snapshot 1 "s" (rn_last_seq (reach before)) (screen_snapshot (rn_screen (reach before))) (new_hub 7)).
Definition sent_since : list DeltaBatch := drop (length (rn_sent (reach before))) (rn_sent (reach (before ++ away ++ after))).
Definition followed : PtyHub := taken (new_hub 7) (forward 1 "s" sent_since seeded.2).

Lemma the_registry_holds_the_hosts_screen_witness :
  (exists x, h_sessions followed !! "s" = Some x /\ s_cells x = ws_cells (rn_screen (reach (before ++ away ++ after)))) /\ length sent_since = 3%nat.
Proof.
  split; [|vm_compute; reflexivity].
  apply (the_registry_holds_the_hosts_screen cfg before (away ++ after) (reach before) (reach (before ++ away ++ after)) 1 "s" (new_hub 7) seeded.1 seeded.2 followed);
    [by unfold is_u16|by unfold is_u16|exact worlds_ok|cbn; unfold u64_max; lia|vm_compute; reflexivity..].
Defined.

(** A row of letters whose accents are characters of their own: the accents are
    left to the last cell, whose text is longer than the registry takes, and the
    publisher of the session ends. *)
Definition accent : string := String (Ascii.ascii_of_nat 204) (String (Ascii.ascii_of_nat 129) "").
Definition accents : list string := "e" :: replicate 33 accent ++ ["a"].
Example accents_end_the_publisher :
  let b := {| db_seq := 1; db_deltas := (apply_frame (frame_of accents [0; 1]%Z) (rn_screen (reach before))).1 |} in
  publish_batch 1 "s" b seeded.2 = Err Fatal.
Proof. vm_compute. reflexivity. Qed.

Definition shown : WireScreen := rn_screen (reach before).
Lemma deltas_carry_the_screen_witness :
  foldl apply_delta (ws_cells shown) (apply_frame (frame_of ["W"] [0%Z]) shown).1 = ws_cells (apply_frame (frame_of ["W"] [0%Z]) shown).2.
Proof.
  set (s := shown). apply (deltas_carry_the_screen (frame_of ["W"] [0%Z]) s (apply_frame (frame_of ["W"] [0%Z]) s).1 (apply_frame (frame_of ["W"] [0%Z]) s).2).
  - unfold widths_ok. apply (bool_decide_unpack _). vm_compute. reflexivity.
  - apply frame_of_ok. cbn. lia.
  - by destruct (apply_frame _ _).
Defined.

Lemma short_glyphs_are_accepted_witness :
  check_deltas (grid_cols (ws_cells shown)) (Z.of_nat (length (ws_cells shown))) (apply_frame (frame_of ["W"] [0%Z]) shown).1 = Ok tt.
Proof.
  set (s := shown). apply (short_glyphs_are_accepted (frame_of ["W"] [0%Z]) s (ws_cursor s)).
  - split; [vm_compute; discriminate|apply (bool_decide_unpack _); vm_compute; reflexivity|vm_compute; discriminate|vm_compute; reflexivity].
  - apply frame_of_ok. cbn. lia.
  - repeat constructor; vm_compute; discriminate.
  - vm_compute. discriminate.
Defined.

(** ** Controls *)

Definition show (e : KernelClientError) : string := "refused".
Definition in_time : Meanwhile := {| mw_fate := Answered (Ok tt); mw_closed := true; mw_sent := true |}.
Definition unheard : Meanwhile := {| mw_fate := Answered (Ok tt); mw_closed := true; mw_sent := false |}.
Definition shrink : ServerControl := PtyResize "d1" "c1" "s" "g" 1 1.

(** The acknowledgement of a resize is lost; the kernel delivers it again. *)
Definition first_time : Handling := apply_session_control show (Some "s") shrink unheard no_deliveries.
Definition second_time : Handling :=
  apply_session_control show (Some "s") shrink in_time (heard show (Some "s") (hd_window first_time) [HSettled "d0"]).
(** One whose confirmation came too late is asked of the session again. *)
Definition unconfirmed : Meanwhile := {| mw_fate := Unanswered; mw_closed := false; mw_sent := true |}.
Lemma a_delivery_is_applied_once_witness :
  (hd_ran first_time = Some (OpResize 1 1) /\ hd_ran second_time = None /\ hd_ack second_time = Some ("d1", Applied)) /\
  hd_ran (apply_session_control show (Some "s") shrink in_time
    (hd_window (apply_session_control show (Some "s") shrink unconfirmed no_deliveries))) = Some (OpResize 1 1).
Proof.
  split.
  - split; [vm_compute; reflexivity|].
    destruct (a_delivery_is_applied_once show (Some "s") shrink unheard [] "d1" (OpResize 1 1)) as [H _];
      [reflexivity|vm_compute; reflexivity|].
    destruct (H ltac:(by split) in_time [HSettled "d0"] ltac:(set_solver)) as (H1 & _ & H2 & _). by split.
  - destruct (a_delivery_is_applied_once show (Some "s") shrink unconfirmed [] "d1" (OpResize 1 1)) as [_ H];
      [reflexivity|vm_compute; reflexivity|].
    apply H. by intros [? _].
Defined.

Lemma a_late_resize_is_refused_and_taken_witness :
  hd_ack (apply_session_control show (Some "s") shrink {| mw_fate := Unanswered; mw_closed := false; mw_sent := true |} no_deliveries) = Some ("d1", Refused EValidation "refused").
Proof.
  apply (a_late_resize_is_refused_and_taken show "s" "d1" "c1" "g" 1 1 [] false); [set_solver|cbn; unfold DELIVERED_COMMANDS; lia].
Defined.

(** ** A restart *)

(** A line per task. *)
#[local] Instance demo_records : Records payload_t := {|
  derived_records p := concat ((fun _ => [116; 10]%Z) <$> map_to_list (tasks p));
  record_line l := bool_decide (l = [116]%Z) |}.

(** The records of the live tables are kept; a checkpoint at the watermark names
    them, and one behind it claims a sequence the log does not have. *)
Definition kept : bytes := derived_records (proj with_task).
Definition read_kept (_ : string) (offset n : Z) : result BlobError bytes :=
  Ok (take (Z.to_nat n) (drop (Z.to_nat offset) kept)).
Definition sealed_row : CheckpointRow instant := {|
  ck_schema_version := CHECKPOINT_SCHEMA_VERSION; ck_projection_hash := projection_hash kept;
  ck_records_ref := {| pr_digest := "sha256:" +:+ projection_hash kept; pr_media_type := RECORDS_MEDIA_TYPE;
    pr_byte_size := zlen kept; pr_retention_class := None; pr_evidence_pin := None |}; ck_created_at := 0%N |}.
Definition last_mark : Z := default 0%Z (watermark (log with_task)).
Definition checkpointed : Db instant payload_t :=
  set_checkpoints (<[last_mark := sealed_row]> {[ (last_mark + 1)%Z := sealed_row ]}) with_task.

Example restart_verdicts :
  (fun r => match r with Ok (x, _) => Some (rr_verdict x, rr_rejected x) | Err _ => None end)
    <$> recover no_context (Some read_kept) id checkpointed = Some (Some (Verified last_mark, [((last_mark + 1)%Z, PastTheLog)])) /\
  (fun r => match r with Ok (x, _) => Some (rr_verdict x) | Err _ => None end)
    <$> recover no_context None id with_task = Some (Some (Unverified NoBlobStore)).
Proof. vm_compute. done. Qed.

Lemma recovery_claims_what_it_checked_witness :
  exists report db', recover no_context (Some read_kept) id checkpointed = Some (Ok (report, db')) /\
    rr_verdict report = Verified last_mark /\
    exists anchor, newest_sound (Some read_kept) checkpointed anchor (rr_rejected report) /\
      claims no_context (Some read_kept) checkpointed checkpointed db' anchor (rr_verdict report).
Proof.
  assert (log_inv (id checkpointed)) as Hinv.
  { pose proof (reachable_log_inv _ _ Examples.reach_with_task) as H. by destruct H; split. }
  destruct (recovery_claims_what_it_checked no_context (Some read_kept) id checkpointed Hinv) as (r & Hr & H).
  assert ((fun r => match r with Ok (x, _) => Some (rr_verdict x) | Err _ => None end)
    <$> recover no_context (Some read_kept) id checkpointed = Some (Some (Verified last_mark))) as Hv
    by (vm_compute; reflexivity).
  rewrite Hr in Hv. destruct r as [[report db']|e]; [|by injection Hv]. injection Hv as Hv.
  exists report, db'. split; [exact Hr|]. split; [exact Hv|]. apply H.
Defined.

(** ** Canonical records *)

Definition unsorted : Value Z := VObject [("b", VNumber 1%Z); ("a", VArray [VObject [("d", VNull); ("c", VBool true)]])].
Lemma canonical_form_is_order_blind_witness :
  sort_object_keys unsorted = VObject [("a", VArray [VObject [("c", VBool true); ("d", VNull)]]); ("b", VNumber 1%Z)] /\
  sort_object_keys (sort_object_keys unsorted) = sort_object_keys unsorted.
Proof.
  split; [vm_compute; reflexivity|]. apply (canonical_form_is_order_blind unsorted (sort_object_keys unsorted)).
  - cbn. split_and!; try done; apply (bool_decide_unpack _); vm_compute; reflexivity.
  - apply sorting_keeps.
Defined.

(** ** A recording *)

(** What happened to a terminal; the engine below keeps what it was given, and a
    resize is a byte of its own. *)
Definition typed_keys : list (Z * Event) := [(0, Output [97]%Z); (4, Resize 80 24); (9, Output [98; 99])]%Z.

Lemma a_caught_up_client_is_current_witness :
  catch_up (fun _ _ => Some []) (fun b g => g ++ b) (fun cols _ g => Some (g ++ [cols])) (fun _ => Some (80, 24)%Z) Some
    (recorded 8 typed_keys) [97; 80; 98; 99]%Z [97]%Z 0 = Some (Recording.Replayed 2, [97; 80; 98; 99]%Z).
Proof.
  apply (a_caught_up_client_is_current (fun _ _ => Some []) (fun b g => g ++ b) (fun cols _ g => Some (g ++ [cols])) (fun _ => Some (80, 24)%Z) Some
    8 typed_keys [] [97; 80; 98; 99]%Z [97]%Z 0); [lia|vm_compute; discriminate|cbn; lia|vm_compute; reflexivity..].
Defined.

(** A recording that keeps nothing says a client is caught up, and leaves it where
    it was. *)
Example nothing_kept_nothing_replayed :
  catch_up (fun _ _ => Some []) (fun b g => g ++ b) (fun cols _ g => Some (g ++ [cols])) (fun _ => Some (80, 24)%Z) Some
    (recorded 0 typed_keys) [97; 80; 98; 99]%Z [97]%Z 0 = Some (Recording.Replayed 0, [97]%Z).
Proof. vm_compute. reflexivity. Qed.
End HostExamples.
