(* ===== verification/BoardExamples.v ===== *)
(** * The Board on concrete pages

    A page with an off-page attempt, a parent cycle and a duplicate id, and a
    small cost ledger: the panels evaluate on them, and the promises of
    [BoardProps] apply. *)

From S2P Require Import Prelude Text Fsm Envelope Command Container Recording Ordered Theme Forest Board Panels BoardGraph BoardProps Replay.
Import Numeric Tier Marks Styles.

Module BoardExamples.

Definition stamp : string := "2026-08-11T09:30:00Z".

Definition a_task (id title : string) : Task :=
  {| task_id := id; task_version := 1; task_state := TaskWorking; task_kind := None; task_title := Some title;
     task_spec_ref := None; task_project := None; task_priority := None; task_tracker_ref := None;
     task_created_at := stamp; task_updated_at := stamp |}.

Definition an_attempt (id task : string) (s : AttemptState) : AttemptView :=
  {| at_id := id; at_version := 3; at_state := s; at_task_id := task; at_engine := "claude"; at_capability := None;
     at_role := Some "implementer"; at_model_lane := None; at_permission_profile := None; at_worktree_lease_id := None;
     at_base_sha := None; at_budget := None; at_provider_session_ref := None; at_runtime_ref := None;
     at_runtime_started_at := None; at_exit_code := None; at_provider_terminal_event := None; at_result_valid := None;
     at_evidence_manifest_ref := None; at_created_at := stamp; at_updated_at := stamp |}.

Definition a_node (id : string) (parent attempt : option string) : DispatchNode :=
  {| dn_id := id; dn_version := 1; dn_parent_id := parent; dn_attempt_id := attempt; dn_kind := "subagent";
     dn_state := "registered"; dn_label := None; dn_created_at := stamp; dn_updated_at := stamp |}.

Definition a_cost (id engine : string) (model : option string) (micros : option Z) : CostEntry :=
  {| cost_id := id; cost_attempt_id := Some "a1"; cost_engine_session_id := None; cost_dispatch_node_id := None;
     cost_engine := engine; cost_model := model; cost_input_tokens := Some 100%Z; cost_cached_input_tokens := None;
     cost_cache_write_tokens := None; cost_output_tokens := Some 7%Z; cost_reasoning_tokens := None;
     cost_micros := micros; cost_is_estimate := Some false; cost_recorded_at := stamp |}.

Definition page : BoardState unit :=
  {| bs_view := VDag; bs_tasks := [a_task "t1" "ship"; a_task "t0" "plan"; a_task "t1" "again"]; bs_runs := [];
     bs_attempts := [an_attempt "a2" "t9" AttemptBlocked; an_attempt "a1" "t1" AttemptRunning];
     bs_nodes := [a_node "n3" (Some "n2") (Some "a1"); a_node "n1" None (Some "a1"); a_node "n2" (Some "n1") (Some "a1");
                  a_node "c1" (Some "c2") (Some "a1"); a_node "c2" (Some "c1") (Some "a1"); a_node "x" (Some "n1") None];
     bs_messages := []; bs_events := [];
     bs_event_tail := {| tail_cursor := None; tail_aggregate_type := None; tail_event_type := None; tail_live := false; tail_dropped := 0 |};
     bs_attention := []; bs_replay := []; bs_sessions := []; bs_worktrees := []; bs_leases := [];
     bs_costs := [a_cost "k1" "claude" (Some "opus") (Some 1500000%Z); a_cost "k2" "codex" None None;
                  a_cost "k3" "claude" (Some "opus") (Some 250%Z); a_cost "k1" "claude" (Some "opus") (Some 9%Z)];
     bs_receipts := []; bs_ingested := []; bs_complete := true; bs_watermark := Some 42%Z |}.

(** The targets in the order the keyboard walks them: the tasks by id, the
    attempt with its spawns depth-first, then what is off the page. *)
Example page_targets :
  target_order page =
  Some [TTask "t0"; TTask "t1"; TAttempt "a1"; TNode "n1"; TNode "n2"; TNode "n3"; TAttempt "a2"; TNode "x"].
Proof. vm_compute. reflexivity. Qed.

(** The cycle, the node whose parent is another attempt's, and the repeated
    task are counted in words. *)
Example page_findings :
  (fun rows => row_text <$> take 5 rows) <$> dag_rows page Mono =
  Some ["invalid page -- 3 findings"; "+2 unplaced -- parent cycle"; "+1 conflicting anchor -- invalid page";
        "+1 duplicate id -- invalid page"; "2 tasks  1 running"].
Proof. vm_compute. reflexivity. Qed.

Example page_depths :
  (fun rows : list Row => omap (fun r => match tag_node r with Some _ => Some (row_indent r) | None => None end) rows) <$> dag_rows page Mono =
  Some [4; 6; 8; 2]%Z.
Proof. vm_compute. reflexivity. Qed.

(** The ledger: two entries of one model, one without an amount; the repeated
    id is left out of every sum. *)
Example page_costs :
  row_text <$> take 4 (drop 6 (cost_health_rows page Mono)) =
  ["cost  3 entries  1.500250 USD total over 2 of 3 priced  0 estimated"; "by engine"; "claude  opus  2 entries";
   "codex  model unreported  1 entry"].
Proof. vm_compute. reflexivity. Qed.

Example page_debt : of_id <$> br_owed (activity_brief page) = ["a2"].
Proof. vm_compute. reflexivity. Qed.

Lemma page_holdable : holdable (bs_costs page).
Proof.
  split; [|vm_compute; discriminate]. intros c v Hc E. cbn [bs_costs page] in Hc.
  rewrite !elem_of_cons, elem_of_nil in Hc.
  destruct Hc as [->|[->|[->|[->|[]]]]]; cbn in E; simplify_eq; unfold is_u64, u64_max; lia.
Qed.

Lemma cost_panel_adds_up_witness :
  holdable (bs_costs page) /\
  sum_of (fun b => read_micros (ecr_cost_micros b)) (cr_by_engine (cost_rollup page)) = 1500250%Z.
Proof.
  split; [exact page_holdable|].
  destruct (cost_panel_adds_up page page_holdable) as (_ & _ & -> & _). vm_compute. reflexivity.
Defined.

(** ** A recording *)

Definition tape_entries : list Entry :=
  [{| en_seq := 0; en_offset_ms := 0; en_event := Resize 80 24 |};
   {| en_seq := 1; en_offset_ms := 12; en_event := Output [104; 105]%Z |};
   {| en_seq := 4; en_offset_ms := 12; en_event := Output [] |}].

Definition tape : bytes := MAGIC ++ concat (encode_entry <$> tape_entries).

Lemma tape_bytes : Forall byte_ok tape.
Proof.
  assert (forallb (fun b => (0 <=? b) && (b <? 256))%Z tape = true) as H by (vm_compute; reflexivity).
  apply Forall_forall. intros b Hb%list_elem_of_In. eapply forallb_forall in H; [|exact Hb].
  apply andb_true_iff in H as [H1%Z.leb_le H2%Z.ltb_lt]. lia.
Qed.

Lemma console_replays_recordings_witness :
  Forall byte_ok tape /\
  timeline_decode tape = Some (Ok [ReplayResize 0 0 80 24; ReplayOutput 1 12 [104; 105]%Z; ReplayOutput 4 12 []]).
Proof.
  split; [exact tape_bytes|].
  apply (proj2 (console_replays_recordings tape _ tape_bytes)). exists tape_entries.
  split; [done|]. split; [done|]. unfold tape_entries, entry_ok, is_u64, u64_max, event_ok, is_u16, u16_max.
  split; [repeat constructor; simpl; try lia; try (unfold Container.zlen, u32_max; simpl; lia)|].
  split; [simpl; lia|]. split; [simpl; lia|]. repeat constructor; simpl; lia.
Defined.

(** Time that runs backwards is refused by the console, though the recorder's
    own reader takes it. *)
Example backward_tape :
  let l := MAGIC ++ concat (encode_entry <$> [{| en_seq := 0; en_offset_ms := 9; en_event := Output [1%Z] |};
                                              {| en_seq := 1; en_offset_ms := 3; en_event := Output [2%Z] |}]) in
  timeline_decode l = Some (Err (RElapsedOutOfOrder 9 3)) /\
  match decode l 10 with Some (Ok r) => length (rc_entries r) = 2 | _ => False end.
Proof. split; vm_compute; reflexivity. Qed.

End BoardExamples.
